(* ===== verification/_CoqProject ===== *)
-Q . S2P
Prelude.v
RtList.v
KService.v
Exec.v
Mem.v
Kernel.v
Object.v
Scheduler.v
Timer.v
Thread.v
Clock.v
Ipc.v
Sem.v
Mutex.v
Event.v
Circ.v
Mailbox.v
Slist.v
MsgQueue.v
MemPool.v
Startup.v
Decide.v
Demo.v
DemoIpc.v
MemHeap.v
Printf.v
ObjectType.v
DrvIpc.v
Workqueue.v
Waitqueue.v
KHeap.v
Device.v
Serial.v
RingBuffer.v
Gpio.v
Display.v
Sensors.v
Proto.v
Panel.v
BoxLine.v
Flash.v
Path.v
Bootloader.v
Msh.v
Shell.v
Dfs.v
Elm.v
