(* ===== verification/Prelude.v ===== *)
(** * A verification development for the Honeycomb box firmware

    The repository is an RT-Thread kernel (src/, include/) with the firmware of
    a teaching box and its boot loader (bsp/).  This library models the kernel
    as it is configured in bsp/stm32f4xx-HAL-BOX/rtconfig.h (32 priorities, 1000
    ticks a second, assertions, stack check, semaphores, mutexes, events,
    mailboxes, message queues, memory pools, the small memory allocator, one
    timer level, no soft timers, signals or modules).

    ** How the code is modelled

    Pure C functions are Rocq functions; code that touches memory or the kernel
    state is a computation of the monad of Exec.v, [M S A := S -> exec S A],
    whose result is [Done a s] or [Stop why]: a failed RT_ASSERT, undefined
    behaviour (an access through a bad pointer), or a loop that goes on for
    ever.  Integers are [Z]; every store to an object of a narrower type reduces
    modulo its width. Addresses are integers, [RT_NULL] is 0.

    The kernel state [kernel] (Kernel.v) is one record: the headers of the
    kernel objects, the containers of object.c, the threads, timers and IPC
    objects by address, the thread lists (ready table, waiting lists, defunct
    list) as sequences, the ready group, the current thread, the nesting
    counters, the tick and the heap.  The sequences stand for the intrusive
    lists of rtservice.h, which RtList.v models on a memory of nodes and proves
    to implement sequences.

    A call that gives up the processor returns [Blocked]: the code behind
    rt_schedule is a definition of its own (the names end in [_resumed]) that
    runs when the thread is switched to again.  Interrupts are taken between
    kernel calls, not inside the short sections in which the code enables them.

    ** The files

    - Prelude: machine integers, alignment, error numbers, list lemmas, tactics.
    - RtList (include/rtservice.h): the pointer code of the doubly linked lists
      and its refinement to families of sequences.
    - KService (src/kservice.c): memory and string functions, bit search.
    - Exec: the state and error monad.
    - Mem (src/mem.c): the system heap; [heap_inv h bs] relates the linked
      headers to the sequence [bs] of blocks.
    - Kernel, Object (include/rtdef.h, src/object.c): records, containers.
    - Scheduler (src/scheduler.c, src/irq.c): the ready table and the switch.
      [sched_but X T L g]: every thread but those of [X] is in the list its
      state asks for, and the bits of the group are the non-empty lists.
    - Timer (src/timer.c): the sorted timer list; [toff] is the distance of a
      timeout from now, in the half range the code compares in.
    - Thread (src/thread.c): all thread calls; [kinv] is the invariant of the
      whole kernel, [kbut X P lo] the same with exceptions inside a call.
    - Clock (src/clock.c, rt_timer_check): the tick interrupt.
    - Ipc, Sem, Mutex, Event, Mailbox, MsgQueue (src/ipc.c), MemPool
      (src/mempool.c): waiting lists and the objects built on them; each has a
      predicate ([sem_at], [mutex_at], ...) that gives its abstract state and
      the threads that wait.  Circ and Slist hold the data structures they
      share: circular arrays and singly linked lists.
    - Startup (src/components.c, src/idle.c): boot and the idle thread.
    - ObjectType (src/object.c): the types of the objects in the containers.
    - MemHeap (src/memheap.c): a memory heap in a pool of its own, its free list
      and the operations on its blocks.
    - Printf (src/kservice.c): formatted output, on a memory of bytes; the items
      of a format and the text they stand for are the reference definition.
    - KHeap (src/kservice.c): rt_strdup and the aligned blocks, on the heap of
      Mem.
    - DrvIpc (completion.c, dataqueue.c), Workqueue (workqueue.c), Waitqueue
      (waitqueue.c of components/drivers/src): the synchronisation of the device
      drivers, on the kernel; the state has the kernel and the driver objects,
      and a kernel call works on the first.
    - Device (src/device.c and the console of src/kservice.c): the device
      manager. The functions of a driver are parameters; [Driver] is the class
      of those that leave the bookkeeping of the manager alone, with an
      instance.
    - Serial (components/drivers/serial/serial.c, BOX/drivers/drv_usart.c): the
      serial ports as devices of Device, down to the bytes on the line.
    - BoxLine (BOX/applications/main.c): the set-up of the protocol and its
      receive callback, on Serial, Device, Sem and Proto.
    - RingBuffer (components/drivers/src/ringbuffer.c): the ring buffer, its
      create and destroy on the heap of Mem.
    - Gpio (BOX/Board_SYX, bsp_delay.c): pins as the code drives them.  The
      board is the history of the levels written, each with its time, and the
      levels the outside world applies, a function of time; reads of a pin are
      that function.
    - Display (max7219.c, dzp1.c, SMG.c): the LED matrix and the seven segment
      display, down to the pins; [chip] is the shift register at the other end.
    - Sensors (dht11.c, ds18b20.c, vs1838b.c): the single wire sensors and the
      infra-red receiver.
    - Proto (proto.c): the serial protocol of the box: the receiver, the
      commands, the deferred jobs of the proto thread, the receive callback.
    - Panel: what a command that comes in by the line does to the pins.
    - Flash (bootloader/applications/ef_flash_port.c and the HAL functions it
      calls): the flash controller and the port that erases, writes and reads
      it.
    - Bootloader (bootloader/applications/main.c): the boot loader, on Flash and
      an interface of files with its laws and an instance.
    - Path (components/dfs/src/dfs.c, dfs_fs.c): the normal form of paths and
      the file system a path belongs to.
    - Dfs (components/dfs/src): the tables of descriptors, file system types and
      mounts, and the calls on files and directories; the operations of the file
      systems are found by address, blocks of the heap keep their old contents.
    - Elm (components/dfs/filesystems/elmfat/dfs_elm.c): FAT volumes below Dfs;
      FatFs is an interface, [fat_api], with its laws in [fat_laws].  Elm
      discharges the laws Bootloader asks of its files.
    - Msh (components/finsh/msh.c): splitting, running and completing command
      lines, in place in an array.
    - Shell (components/finsh/shell.c): the line editor with its history, up to
      what a terminal shows.
    - Decide: boolean checks of the invariants; Demo, DemoIpc: concrete systems,
      booted by the start-up code itself, to which the theorems are applied.

    ** What the theorems show

    - Lists: any run of insertions and removals on nodes is the run on
      sequences.
    - Memory functions: the word-wise loops copy and fill exactly the bytes
      asked for; rt_strstr finds the first occurrence.
    - Heap: the invariant is established and kept; blocks handed out are
      aligned, inside the heap and disjoint; malloc followed by free restores
      the heap; a failure means that no free block fits; realloc keeps the
      contents.
    - Scheduling: the thread switched to is the first of the highest ready
      priority; boot ends with the main thread running; sleeping, exiting,
      deleting and starting threads keep the invariant and do what they say; a
      tick fires every timer that is due, ends, and wakes the threads waiting.
    - IPC: for every branch of take, release, send and receive, the new abstract
      state of the object, the position in the waiting list, the thread woken
      and the switch; semaphores conserve their units over any interleaving of
      calls; a mutex with priority order never has an owner of lower priority
      than a thread that waits.
    - Pools and queues: no node or block is ever lost, set-up gives all of them.
    - Objects: after any sequence of object operations, what a search in the
      container of a class finds passes the assertion on that class.
    - Memory heaps: for any run of a client, its blocks are inside the pool,
      disjoint and keep their contents; realloc grants what was asked for, up to
      a sum that wraps.
    - Formatted output: rt_vsnprintf writes the text of the reference
      definition, cut to the size, with its NUL, and nothing outside the buffer;
      rt_kprintf hands that text to the console.
    - Devices: the reference count is the number of opens without a close; reads
      and writes reach the driver of an open device only; a registered device is
      found by its name.
    - Driver queues: a completion is a flag with one waiting thread; a data
      queue is a bounded queue until its 16-bit index wraps; when a work is done
      every caller that waits for it is woken; two interleavings that a work
      queue does not handle; a wake-up of a wait queue is not lost, whichever of
      wait and wake-up comes first.
    - Serial ports: in interrupt mode a port is a queue that keeps the last
      bytes; a write puts its bytes on the line; the buffer updated for DMA
      keeps the last bytes; a byte that comes while the handler clears the flag
      is lost. However a stream of commands is spread over interrupts, the
      semaphore of the protocol thread is released once for each.
    - Ring buffer: any sequence of puts and gets is that of a bounded queue of
      bytes; the forced put is shown to differ where the buffer is full.
    - Board: the digits asked for are what the driver chip of the display shows;
      the bits a sensor sends with the timing of its data sheet are the value
      the driver returns; the delay loop waits for the time asked for.
    - Protocol: every well formed frame of a stream is taken, with any noise in
      between that holds no header byte; a command is answered and carried out
      on the pins; a command that comes while one is pending is lost.
    - Flash: words written to an erased range are read back; a range that
      reaches the end is not erased.
    - Boot loader: what it does is a function of the contents of the files; a
      newer image lies in flash byte for byte, nothing below it is changed and
      its version is recorded; the record is found at the next start, but for a
      digit left over from the old one; a failed write is recorded as well.
    - Paths: the code that edits a path in place is the resolution of its names
      on a stack, and idempotent; the lookup finds a file system with the
      longest mount point.
    - Files: the descriptors, the mounts and the FAT layer together implement
      the files of the boot loader, which therefore works on the whole stack
      from the first initialisation on; a descriptor block that is handed out
      again makes the next open read through NULL, and so does any use of a
      descriptor that has been closed; fcntl loses flags and errors.
    - Shell: a line is split and run as a reference says that reads it once from
      left to right; completion gives the longest common beginning; the editor
      refines an editor on two texts, and the terminal shows prompt, text and
      cursor; a line of 80 characters is not cleared.
    - Deviations of the code from its intention are proved, in general or on
      concrete runs.

    ** Bounds and fuel

    Loops over lists recur on the list or take a fuel argument; where there is
    fuel the theorem gives an amount that is enough (the length of the list, the
    number of timers) and proves that the call ends with a result.  [max_off],
    the largest timeout, is the bound rt_timer_start asserts.

    ** Not modelled

    The driver framework apart from ring buffers, completions, data queues, work
    queues, wait queues and serial ports, sending by DMA, the board code that
    sets up registers, the application threads, which call GUI, file system and
    USB libraries, FatFs itself (a third-party library, behind its interface),
    the lock of the device file system, the operations of device files, shell
    scripts and the commands of the shell, and everything the configuration
    leaves out (signals, modules, slab allocator, network stacks). In the device
    models a pin access takes no time and the waits take exactly the time asked
    for; interrupts do not lengthen them.  The context switch in assembly is the
    change of the current thread; the semaphore inside the heap, the object
    hooks and the debug logs are left out.  The notification function of a data
    queue is a log of its calls, the handler of a failed assertion the result
    [Stop Assertion]. In rt_vsnprintf the position behind the end of the buffer
    is not reduced modulo 2^32. *)

From Stdlib Require Export ZArith Lia.
From stdpp Require Export base numbers option list gmap.

#[global] Open Scope Z_scope.

(** ** Machine integers *)

(** The values of C's [uint8_t], [uint16_t], [uint32_t] and [int32_t] are
    integers; a store to an object of one of these types reduces modulo its
    width. *)
Definition u8 (z : Z) : Z := z mod 2 ^ 8.
Definition u16 (z : Z) : Z := z mod 2 ^ 16.
Definition u32 (z : Z) : Z := z mod 2 ^ 32.
Definition s32 (z : Z) : Z := (z + 2 ^ 31) mod 2 ^ 32 - 2 ^ 31.
Definition s16 (z : Z) : Z := (z + 2 ^ 15) mod 2 ^ 16 - 2 ^ 15.

(** [~m] on a 32-bit operand. *)
Definition not32 (m : Z) : Z := Z.lxor m (2 ^ 32 - 1).
(** [~m] on an operand that is stored back in eight bits. *)
Definition not8 (m : Z) : Z := Z.lxor m (2 ^ 8 - 1).

(** A C truth value. *)
Definition nz (z : Z) : bool := negb (z =? 0).

(** [RT_ALIGN(size, align)] and [RT_ALIGN_DOWN(size, align)] on [rt_size_t]
    operands (include/rtdef.h). *)
Definition RT_ALIGN (size align : Z) : Z :=
  Z.land (u32 (size + align - 1)) (not32 (align - 1)).
Definition RT_ALIGN_DOWN (size align : Z) : Z :=
  Z.land size (not32 (align - 1)).

(** ** Error numbers (include/rtdef.h) *)

Definition RT_EOK : Z := 0.
Definition RT_ERROR : Z := 1.
Definition RT_ETIMEOUT : Z := 2.
Definition RT_EFULL : Z := 3.
Definition RT_EEMPTY : Z := 4.
Definition RT_ENOMEM : Z := 5.
Definition RT_ENOSYS : Z := 6.
Definition RT_EBUSY : Z := 7.
Definition RT_EIO : Z := 8.
Definition RT_EINTR : Z := 9.
Definition RT_EINVAL : Z := 10.

(** The configuration of the firmware (bsp/stm32f4xx-HAL-BOX/rtconfig.h). *)
Definition RT_ALIGN_SIZE : Z := 4.
Definition RT_THREAD_PRIORITY_MAX : Z := 32.
Definition RT_TICK_PER_SECOND : Z := 1000.
Definition RT_NAME_MAX : nat := 8.

(** ** Automation *)

Create HintDb rt.

(** Closed goals: by evaluation, and by the decision procedure of a proposition. *)
Ltac concrete := vm_compute; reflexivity.
Ltac decided := match goal with |- ?P => apply (bool_decide_eq_true_1 P); concrete end.

(** Destruct existentials and conjunctions of the context. *)
Ltac deex :=
  repeat match goal with
         | H : exists _, _ |- _ => let x := fresh "x" in destruct H as [x H]
         | H : _ /\ _ |- _ => let H1 := fresh H in destruct H as [H1 H]
         end.

(** Turn boolean tests on [Z] into propositions. *)
Ltac zb :=
  repeat match goal with
         | H : (_ =? _) = true |- _ => apply Z.eqb_eq in H
         | H : (_ =? _) = false |- _ => apply Z.eqb_neq in H
         | H : (_ <? _) = true |- _ => apply Z.ltb_lt in H
         | H : (_ <? _) = false |- _ => apply Z.ltb_ge in H
         | H : (_ <=? _) = true |- _ => apply Z.leb_le in H
         | H : (_ <=? _) = false |- _ => apply Z.leb_gt in H
         | H : negb _ = true |- _ => apply negb_true_iff in H
         | H : negb _ = false |- _ => apply negb_false_iff in H
         | H : (_ && _)%bool = true |- _ => apply andb_true_iff in H; destruct H
         | H : (_ || _)%bool = false |- _ => apply orb_false_iff in H; destruct H
         | H : nz _ = true |- _ => unfold nz in H
         | H : nz _ = false |- _ => unfold nz in H
         end.

(** Case analysis on the boolean test the goal is stuck on. *)
Ltac zcase :=
  match goal with
  | |- context [if ?b then _ else _] =>
      let E := fresh "E" in destruct b eqn:E; zb
  end.

(** ** Integers *)

Lemma u32_range z : 0 <= u32 z < 2 ^ 32.
Proof. apply Z.mod_pos_bound; lia. Qed.

Lemma u16_range z : 0 <= u16 z < 2 ^ 16.
Proof. apply Z.mod_pos_bound; lia. Qed.

Lemma u8_range z : 0 <= u8 z < 2 ^ 8.
Proof. apply Z.mod_pos_bound; lia. Qed.

Lemma u32_small z : 0 <= z < 2 ^ 32 -> u32 z = z.
Proof. apply Z.mod_small. Qed.

Lemma u16_small z : 0 <= z < 2 ^ 16 -> u16 z = z.
Proof. apply Z.mod_small. Qed.

Lemma u8_small z : 0 <= z < 2 ^ 8 -> u8 z = z.
Proof. apply Z.mod_small. Qed.

Lemma s32_small z : - 2 ^ 31 <= z < 2 ^ 31 -> s32 z = z.
Proof. intros. unfold s32. rewrite Z.mod_small; lia. Qed.

Lemma s32_range z : - 2 ^ 31 <= s32 z < 2 ^ 31.
Proof. unfold s32. pose proof (Z.mod_pos_bound (z + 2 ^ 31) (2 ^ 32)). lia. Qed.

(** The signed and the unsigned reading of a 32-bit word. *)
Lemma u32_s32 z : u32 (s32 z) = u32 z.
Proof.
  unfold u32, s32.
  rewrite Zminus_mod_idemp_l. f_equal. lia.
Qed.

Lemma s32_cases z : s32 z = u32 z /\ u32 z < 2 ^ 31 \/ s32 z = u32 z - 2 ^ 32 /\ 2 ^ 31 <= u32 z.
Proof.
  unfold s32, u32.
  pose proof (Z.div_mod z (2 ^ 32)). pose proof (Z.mod_pos_bound z (2 ^ 32)).
  set (r := z mod 2 ^ 32) in *.
  destruct (Z.lt_ge_cases r (2 ^ 31)).
  - left. replace (z + 2 ^ 31) with (r + 2 ^ 31 + (z / 2 ^ 32) * 2 ^ 32) by lia.
    rewrite Z_mod_plus_full, Z.mod_small; lia.
  - right. replace (z + 2 ^ 31) with (r - 2 ^ 31 + (z / 2 ^ 32 + 1) * 2 ^ 32) by lia.
    rewrite Z_mod_plus_full, Z.mod_small; lia.
Qed.

#[export] Hint Resolve u32_range u16_range u8_range s32_range : rt.

(** ** Bit masks *)

Lemma land_pow2_testbit a n : 0 <= n -> nz (Z.land a (2 ^ n)) = Z.testbit a n.
Proof.
  intros Hn. unfold nz.
  assert (Z.land a (2 ^ n) = if Z.testbit a n then 2 ^ n else 0) as ->.
  { apply Z.bits_inj'. intros i Hi. rewrite Z.land_spec.
    destruct (decide (i = n)) as [->|Hne].
    - rewrite Z.pow2_bits_true, andb_true_r by lia.
      destruct (Z.testbit a n); [by rewrite Z.pow2_bits_true by lia|by rewrite Z.bits_0].
    - rewrite Z.pow2_bits_false, andb_false_r by lia.
      destruct (Z.testbit a n); [by rewrite Z.pow2_bits_false by lia|by rewrite Z.bits_0]. }
  destruct (Z.testbit a n); [|done].
  assert (0 < 2 ^ n) by (apply Z.pow_pos_nonneg; lia).
  destruct (Z.eqb_spec (2 ^ n) 0); [lia|done].
Qed.

Lemma testbit_ones n i : 0 <= n -> Z.testbit (2 ^ n - 1) i = ((0 <=? i) && (i <? n))%bool.
Proof.
  intros Hn. replace (2 ^ n - 1) with (Z.ones n) by (rewrite Z.ones_equiv; lia).
  destruct (Z.leb_spec 0 i).
  - destruct (Z.ltb_spec i n); [apply Z.ones_spec_low|apply Z.ones_spec_high]; lia.
  - rewrite Z.testbit_neg_r; [done|lia].
Qed.

Lemma testbit_u32_high a i : 0 <= a < 2 ^ 32 -> 32 <= i -> Z.testbit a i = false.
Proof.
  intros Ha Hi. rewrite <- (Z.mod_small a (2 ^ 32)) by lia.
  by apply Z.mod_pow2_bits_high.
Qed.

Lemma testbit_not32 m i :
  Z.testbit (not32 m) i = xorb (Z.testbit m i) ((0 <=? i) && (i <? 32))%bool.
Proof. unfold not32. rewrite Z.lxor_spec, testbit_ones by lia. done. Qed.

Lemma land_u32_range a b : 0 <= a < 2 ^ 32 -> 0 <= Z.land a b < 2 ^ 32.
Proof.
  intros Ha. rewrite <- (Z.mod_small a (2 ^ 32)), <- Z.land_ones by lia.
  rewrite <- Z.land_assoc, (Z.land_comm (Z.ones 32)), Z.land_assoc, Z.land_ones by lia.
  apply Z.mod_pos_bound. lia.
Qed.

Lemma lor_u32_range a b : 0 <= a < 2 ^ 32 -> 0 <= b < 2 ^ 32 -> 0 <= Z.lor a b < 2 ^ 32.
Proof.
  intros Ha Hb. assert (0 <= Z.lor a b) by (apply Z.lor_nonneg; lia).
  split; [done|].
  destruct (Z.eq_dec (Z.lor a b) 0) as [->|]; [lia|].
  apply Z.log2_lt_pow2; [lia|]. rewrite Z.log2_lor by lia.
  apply Z.max_lub_lt.
  - destruct (Z.eq_dec a 0) as [->|]; [cbn; lia|]. apply Z.log2_lt_pow2; lia.
  - destruct (Z.eq_dec b 0) as [->|]; [cbn; lia|]. apply Z.log2_lt_pow2; lia.
Qed.

(** Alignment to a power of two, without overflow. *)
Lemma land_align_down z n : 0 <= n <= 32 -> 0 <= z < 2 ^ 32 ->
  Z.land z (not32 (2 ^ n - 1)) = z - z mod 2 ^ n.
Proof.
  intros Hn Hz.
  assert (z - z mod 2 ^ n = Z.shiftl (Z.shiftr z n) n) as ->.
  { rewrite Z.shiftl_mul_pow2, Z.shiftr_div_pow2 by lia.
    pose proof (Z.div_mod z (2 ^ n)). assert (0 < 2 ^ n) by (apply Z.pow_pos_nonneg; lia). lia. }
  apply Z.bits_inj'. intros i Hi.
  rewrite Z.land_spec, testbit_not32, testbit_ones, Z.shiftl_spec by lia.
  destruct (Z.leb_spec 0 i); [|lia].
  destruct (Z.ltb_spec i n).
  - rewrite (Z.testbit_neg_r _ (i - n)) by lia.
    destruct (Z.ltb_spec i 32); [|lia]. cbn. by rewrite andb_false_r.
  - rewrite Z.shiftr_spec by lia. replace (i - n + n) with i by lia. cbn.
    destruct (Z.ltb_spec i 32); cbn; [by rewrite andb_true_r|].
    by rewrite (testbit_u32_high z) by lia.
Qed.

Lemma RT_ALIGN_DOWN_spec z : 0 <= z < 2 ^ 32 -> RT_ALIGN_DOWN z 4 = z - z mod 4.
Proof. intros. unfold RT_ALIGN_DOWN. apply (land_align_down z 2); lia. Qed.

Lemma RT_ALIGN_spec z : 0 <= z -> z + 3 < 2 ^ 32 -> RT_ALIGN z 4 = (z + 3) - (z + 3) mod 4.
Proof.
  intros. unfold RT_ALIGN. rewrite u32_small by lia.
  replace (z + 4 - 1) with (z + 3) by lia. apply (land_align_down (z + 3) 2); lia.
Qed.

(** A request is rounded up to a multiple of four by at most three bytes. *)
Lemma RT_ALIGN_bounds z : 0 <= z -> z + 3 < 2 ^ 32 ->
  z <= RT_ALIGN z 4 <= z + 3 /\ RT_ALIGN z 4 mod 4 = 0.
Proof.
  intros. rewrite RT_ALIGN_spec by lia.
  pose proof (Z.mod_pos_bound (z + 3) 4). pose proof (Z.div_mod (z + 3) 4).
  split; [lia|].
  replace (z + 3 - (z + 3) mod 4) with ((z + 3) / 4 * 4) by lia.
  by rewrite Z_mod_mult.
Qed.

(** ** Lists *)

(** Every element but [x], in order: what unlinking the node of [x] leaves. *)
Definition lremove `{EqDecision A} (x : A) (l : list A) : list A := filter (.≠ x) l.

Section lremove.
Context `{EqDecision A}.
Implicit Types (x y : A) (l : list A).

Lemma lremove_notin x l : x ∉ l -> lremove x l = l.
Proof.
  unfold lremove. induction l as [|a l IH]; intros H; [done|].
  rewrite filter_cons_True by set_solver. f_equal. apply IH. set_solver.
Qed.

Lemma elem_of_lremove x y l : y ∈ lremove x l <-> y ∈ l /\ y <> x.
Proof. unfold lremove. rewrite list_elem_of_filter. tauto. Qed.

Lemma lremove_middle x l1 l2 : x ∉ l1 -> x ∉ l2 -> lremove x (l1 ++ x :: l2) = l1 ++ l2.
Proof.
  intros. unfold lremove. rewrite filter_app, filter_cons_False by naive_solver.
  fold (lremove x l1). fold (lremove x l2). by rewrite !lremove_notin.
Qed.

Lemma NoDup_lremove x l : NoDup l -> NoDup (lremove x l).
Proof. apply NoDup_filter. Qed.

Lemma lremove_head x l : NoDup (x :: l) -> lremove x (x :: l) = l.
Proof. intros [? ?]%NoDup_cons. by apply (lremove_middle x []); [set_solver|]. Qed.
Lemma lremove_length x l : x ∈ l -> (length (lremove x l) < length l)%nat.
Proof.
  intros Hin. unfold lremove. apply (length_filter_lt _ _ x); [done|]. naive_solver.
Qed.
End lremove.

#[export] Hint Resolve NoDup_lremove : rt.
