(* ===== verification/RtList.v ===== *)
(** * The doubly linked lists of include/rtservice.h

    [rt_list_t] is an intrusive circular list: a list head and the nodes
    embedded in the queued objects are the same structure.  The file has two
    levels.

    - Section [pointers] translates [rt_list_init], [rt_list_insert_after],
      [rt_list_insert_before], [rt_list_remove], [rt_list_isempty] and
      [rt_list_len] to functions on a memory of nodes ([gmap] from addresses
      to [next]/[prev] pairs), one load or store per assignment of the C code;
      an access through an address that holds no node is [None].
      [clist m h xs] says that the memory holds a circular list with head [h]
      and nodes [xs].
    - Section [store] has the lists the kernel files use: a map from list heads
      to sequences of objects.  The [rep_] lemmas show that the pointer
      functions implement the operations on sequences for a whole family of
      disjoint lists, so the other files work with sequences only. *)

From S2P Require Import Prelude.

Record rt_list_node (N : Type) := ListNode { next : N; prev : N }.
Arguments ListNode {N} _ _.
Arguments next {N} _.
Arguments prev {N} _.

Section pointers.
Context {N : Type} {eqN : EqDecision N} {ctN : Countable N}.
Implicit Types (m : gmap N (rt_list_node N)) (n h : N) (xs : list N).

(** [p->next], [p->prev], [p->next = v] and [p->prev = v]. *)
Definition get_next m (p : N) : option N := next <$> m !! p.
Definition get_prev m (p : N) : option N := prev <$> m !! p.
Definition set_next (p v : N) m : option (gmap N (rt_list_node N)) :=
  nd ← m !! p; Some (<[p := ListNode v (prev nd)]> m).
Definition set_prev (p v : N) m : option (gmap N (rt_list_node N)) :=
  nd ← m !! p; Some (<[p := ListNode (next nd) v]> m).

Definition rt_list_init (l : N) m : gmap N (rt_list_node N) := <[l := ListNode l l]> m.

Definition rt_list_insert_after (l : N) n m : option (gmap N (rt_list_node N)) :=
  a ← get_next m l; m1 ← set_prev a n m;
  b ← get_next m1 l; m2 ← set_next n b m1;
  m3 ← set_next l n m2;
  set_prev n l m3.

Definition rt_list_insert_before (l : N) n m : option (gmap N (rt_list_node N)) :=
  a ← get_prev m l; m1 ← set_next a n m;
  b ← get_prev m1 l; m2 ← set_prev n b m1;
  m3 ← set_prev l n m2;
  set_next n l m3.

Definition rt_list_remove n m : option (gmap N (rt_list_node N)) :=
  a ← get_next m n; p ← get_prev m n; m1 ← set_prev a p m;
  p' ← get_prev m1 n; a' ← get_next m1 n; m2 ← set_next p' a' m1;
  m3 ← set_prev n n m2;
  set_next n n m3.

Definition rt_list_isempty (l : N) m : option bool :=
  a ← get_next m l; Some (bool_decide (a = l)).

(** The loop of [rt_list_len]; [fuel] bounds the number of nodes walked. *)
Fixpoint rt_list_len_loop (fuel : nat) (l p : N) m (len : Z) : option Z :=
  match fuel with
  | O => None
  | S fuel => a ← get_next m p;
              if bool_decide (a = l) then Some len
              else rt_list_len_loop fuel l a m (u32 (len + 1))
  end.

Definition rt_list_len (fuel : nat) (l : N) m : option Z := rt_list_len_loop fuel l l m 0.

(** Consecutive elements of the sequence point at each other. *)
Fixpoint linked m (xs : list N) : Prop :=
  match xs with
  | x :: (y :: _) as t => get_next m x = Some y /\ get_prev m y = Some x /\ linked m t
  | _ => True
  end.

(** A circular list with head [h] and nodes [xs]. *)
Definition clist m h xs : Prop := NoDup (h :: xs) /\ linked m (h :: xs ++ [h]).

Lemma get_next_set_next p v q m m' :
  set_next p v m = Some m' -> get_next m' q = if decide (q = p) then Some v else get_next m q.
Proof.
  unfold set_next, get_next. intros. destruct (m !! p) eqn:E; simplify_eq/=.
  case_decide; subst; by simplify_map_eq.
Qed.

Lemma get_prev_set_next p v q m m' : set_next p v m = Some m' -> get_prev m' q = get_prev m q.
Proof.
  unfold set_next, get_prev. intros. destruct (m !! p) eqn:E; simplify_eq/=.
  destruct (decide (p = q)); by simplify_map_eq.
Qed.

Lemma get_next_set_prev p v q m m' : set_prev p v m = Some m' -> get_next m' q = get_next m q.
Proof.
  unfold set_prev, get_next. intros. destruct (m !! p) eqn:E; simplify_eq/=.
  destruct (decide (p = q)); by simplify_map_eq.
Qed.

Lemma get_prev_set_prev p v q m m' :
  set_prev p v m = Some m' -> get_prev m' q = if decide (q = p) then Some v else get_prev m q.
Proof.
  unfold set_prev, get_prev. intros. destruct (m !! p) eqn:E; simplify_eq/=.
  case_decide; subst; by simplify_map_eq.
Qed.

Lemma get_next_dom m p : is_Some (get_next m p) <-> is_Some (m !! p).
Proof. unfold get_next. by rewrite fmap_is_Some. Qed.

Lemma get_prev_dom m p : is_Some (get_prev m p) <-> is_Some (m !! p).
Proof. unfold get_prev. by rewrite fmap_is_Some. Qed.

Lemma set_next_ok p v m : is_Some (m !! p) -> is_Some (set_next p v m).
Proof. intros [x Hx]. unfold set_next. rewrite Hx. eauto. Qed.

Lemma set_prev_ok p v m : is_Some (m !! p) -> is_Some (set_prev p v m).
Proof. intros [x Hx]. unfold set_prev. rewrite Hx. eauto. Qed.

Lemma set_next_dom p v m m' q : set_next p v m = Some m' -> is_Some (m !! q) -> is_Some (m' !! q).
Proof.
  rewrite <- !get_next_dom. intros E. rewrite (get_next_set_next _ _ _ _ _ E).
  case_decide; eauto.
Qed.

Lemma set_prev_dom p v m m' q : set_prev p v m = Some m' -> is_Some (m !! q) -> is_Some (m' !! q).
Proof. rewrite <- !get_next_dom. intros E. by rewrite (get_next_set_prev _ _ _ _ _ E). Qed.

Lemma linked_cons m x y xs :
  linked m (x :: y :: xs) <->
  get_next m x = Some y /\ get_prev m y = Some x /\ linked m (y :: xs).
Proof. done. Qed.

(** Two memories agree on the links of a sequence. *)
Lemma linked_ext m m' xs :
  linked m xs ->
  (forall x y, x ∈ xs -> get_next m x = Some y -> get_next m' x = Some y) ->
  (forall x y, x ∈ xs -> get_prev m x = Some y -> get_prev m' x = Some y) -> linked m' xs.
Proof.
  induction xs as [|x [|y xs] IH]; [done..|]. intros (?&?&?) Hn Hp. cbn. split_and!.
  - apply Hn; [set_solver|done].
  - apply Hp; [set_solver|done].
  - apply IH; [done|intros; apply Hn; set_solver|intros; apply Hp; set_solver].
Qed.

Lemma linked_app m l1 a l2 :
  linked m (l1 ++ a :: l2) <-> linked m (l1 ++ [a]) /\ linked m (a :: l2).
Proof.
  induction l1 as [|x l1 IH]; [cbn; tauto|].
  destruct l1 as [|y l1]; cbn in *; [|tauto].
  destruct l2; cbn; tauto.
Qed.

Lemma linked_next m l1 a b l2 : linked m (l1 ++ a :: b :: l2) -> get_next m a = Some b.
Proof. intros (_ & ? & _)%linked_app. done. Qed.

Lemma linked_prev m l1 a b l2 : linked m (l1 ++ a :: b :: l2) -> get_prev m b = Some a.
Proof. intros (_ & _ & ? & _)%linked_app. done. Qed.

(** Only the links out of all elements but the last, and into all but the
    first, matter. *)
Lemma linked_ext_open m m' a l b :
  linked m (a :: l ++ [b]) ->
  (forall x, x = a \/ x ∈ l -> get_next m' x = get_next m x) ->
  (forall x, x = b \/ x ∈ l -> get_prev m' x = get_prev m x) -> linked m' (a :: l ++ [b]).
Proof.
  revert a. induction l as [|y l IH]; intros a; cbn.
  - intros (?&?&_) Hn Hp. rewrite Hn, Hp by auto. done.
  - intros (?&?&?) Hn Hp. rewrite Hn by auto. rewrite Hp by set_solver.
    split_and!; [done..|]. apply IH; [done| |]; intros x Hx.
    + apply Hn. set_solver.
    + apply Hp. set_solver.
Qed.

#[local] Arguments linked : simpl never.

Section splice.
Context m m' h (l1 l2 A B : list N) (a b n : N).
Context (HA : h :: l1 = A ++ [a]) (HB : l2 ++ [h] = b :: B).

Lemma linked_left :
  NoDup (h :: l1 ++ l2) -> n ∉ h :: l1 -> linked m (h :: l1) ->
  (forall q, q <> n -> q <> a -> get_next m' q = get_next m q) ->
  (forall q, q <> n -> q <> b -> get_prev m' q = get_prev m q) -> linked m' (h :: l1).
Proof using HA HB.
  intros Hnd Hn HL HN HP.
  destruct A as [|h' A']; simplify_eq/=; [done|].
  apply NoDup_cons in Hnd as [Hh Hnd]. apply NoDup_app in Hnd as (Hnd & Hd & _).
  apply NoDup_app in Hnd as (Hnd & Ha & _).
  assert (b ∉ A' ++ [a]) as Hb.
  { destruct l2; simplify_eq/=; [set_solver|]. intros ?. eapply Hd; [done|]. set_solver. }
  apply linked_ext_open with m; [done| |]; intros x Hx.
  - apply HN; set_solver.
  - apply HP; set_solver.
Qed.

Lemma linked_right :
  NoDup (h :: l1 ++ l2) -> n ∉ h :: l2 -> linked m (l2 ++ [h]) ->
  (forall q, q <> n -> q <> a -> get_next m' q = get_next m q) ->
  (forall q, q <> n -> q <> b -> get_prev m' q = get_prev m q) -> linked m' (l2 ++ [h]).
Proof using HA HB.
  intros Hnd Hn HL HN HP.
  destruct l2 as [|b' l2']; simplify_eq/=; [done|].
  apply NoDup_cons in Hnd as [Hh Hnd]. apply NoDup_app in Hnd as (_ & Hd & Hnd).
  apply NoDup_cons in Hnd as [Hb Hnd].
  assert (a ∉ b :: l2') as Ha.
  { assert (a ∈ h :: l1) as [->|Ha]%elem_of_cons by (rewrite HA; set_solver); [set_solver|].
    intros ?. eapply Hd; [exact Ha|]. done. }
  apply linked_ext_open with m; [done| |]; intros x Hx.
  - apply HN; set_solver.
  - apply HP; set_solver.
Qed.

(** Linking [n] between the last of [h :: l1] and the first of [l2 ++ [h]]. *)
Lemma clist_insert :
  clist m h (l1 ++ l2) -> n ∉ h :: l1 ++ l2 ->
  (forall q, get_next m' q = if decide (q = n) then Some b
                             else if decide (q = a) then Some n else get_next m q) ->
  (forall q, get_prev m' q = if decide (q = n) then Some a
                             else if decide (q = b) then Some n else get_prev m q) ->
  clist m' h (l1 ++ n :: l2).
Proof using HA HB.
  intros [Hnd HL] Hn HN HP. split.
  { rewrite NoDup_cons in *. rewrite NoDup_app in *. rewrite NoDup_cons. set_solver. }
  assert (a <> n) by (assert (a ∈ h :: l1) by (rewrite HA; set_solver); set_solver).
  assert (b <> n) by (assert (b ∈ l2 ++ [h]) by (rewrite HB; set_solver); set_solver).
  assert (HL1 : linked m (h :: l1)).
  { rewrite HA in *. rewrite <- (app_assoc l1), app_comm_cons, HA, HB, <- app_assoc in HL.
    by apply linked_app in HL as [? _]. }
  assert (HL2 : linked m (l2 ++ [h])).
  { rewrite <- (app_assoc l1), app_comm_cons, HA, HB, <- app_assoc in HL.
    rewrite HB. cbn in HL. apply linked_app in HL as [_ HL]. by destruct HL as (_&_&HL). }
  assert (HN' : forall q, q <> n -> q <> a -> get_next m' q = get_next m q).
  { intros q ??. rewrite HN. by do 2 (rewrite decide_False by done). }
  assert (HP' : forall q, q <> n -> q <> b -> get_prev m' q = get_prev m q).
  { intros q ??. rewrite HP. by do 2 (rewrite decide_False by done). }
  assert (linked m' (h :: l1)) as L1 by (eapply linked_left; eauto; set_solver).
  assert (linked m' (l2 ++ [h])) as L2 by (eapply linked_right; eauto; set_solver).
  rewrite <- app_assoc, app_comm_cons, HA, <- app_assoc. cbn.
  rewrite HA in L1. rewrite HB in L2 |- *.
  apply linked_app. split; [done|]. rewrite !linked_cons, HN, HN, HP, HP.
  repeat case_decide; subst; done.
Qed.

(** Unlinking [n] from between them. *)
Lemma clist_remove :
  clist m h (l1 ++ n :: l2) ->
  (forall q, q <> n -> get_next m' q = if decide (q = a) then Some b else get_next m q) ->
  (forall q, q <> n -> get_prev m' q = if decide (q = b) then Some a else get_prev m q) ->
  clist m' h (l1 ++ l2).
Proof using HA HB.
  intros [Hnd HL] HN HP.
  assert (n ∉ h :: l1 ++ l2 /\ NoDup (h :: l1 ++ l2)) as [Hn Hnd'].
  { rewrite NoDup_cons in *. rewrite NoDup_app in *. rewrite NoDup_cons in Hnd. set_solver. }
  split; [done|].
  assert (a <> n) by (assert (a ∈ h :: l1) by (rewrite HA; set_solver); set_solver).
  assert (b <> n) by (assert (b ∈ l2 ++ [h]) by (rewrite HB; set_solver); set_solver).
  rewrite <- (app_assoc l1), app_comm_cons, <- app_comm_cons in HL.
  apply (linked_app m (h :: l1) n (l2 ++ [h])) in HL as [HL1 HL2]. rewrite HA, <- app_assoc in HL1. cbn in HL1.
  apply linked_app in HL1 as [HL1 _]. rewrite <- HA in HL1.
  rewrite HB in HL2. destruct HL2 as (_&_&HL2). rewrite <- HB in HL2.
  assert (HN' : forall q, q <> n -> q <> a -> get_next m' q = get_next m q).
  { intros q ??. rewrite HN by done. by rewrite decide_False by done. }
  assert (HP' : forall q, q <> n -> q <> b -> get_prev m' q = get_prev m q).
  { intros q ??. rewrite HP by done. by rewrite decide_False by done. }
  assert (linked m' (h :: l1)) as L1 by (eapply linked_left; eauto; set_solver).
  assert (linked m' (l2 ++ [h])) as L2 by (eapply linked_right; eauto; set_solver).
  rewrite <- app_assoc, app_comm_cons, HA, <- app_assoc. cbn.
  rewrite HA in L1. rewrite HB in L2 |- *.
  apply linked_app. split; [done|]. rewrite linked_cons, HN, HP by done.
  repeat case_decide; done.
Qed.
  End splice.

(** The node before the first of [l2] and the node after the last of [l1]. *)
Lemma split_ends h (l1 l2 : list N) :
  exists A a b B, h :: l1 = A ++ [a] /\ l2 ++ [h] = b :: B.
Proof.
  destruct (exists_last (l := h :: l1)) as (A & a & E); [done|].
  destruct (l2 ++ [h]) as [|b B] eqn:E2; [by destruct l2|]. eauto 10.
Qed.

Lemma clist_dom m h xs x : clist m h xs -> x ∈ h :: xs -> is_Some (m !! x).
Proof.
  intros [_ HL] Hx. rewrite <- get_next_dom.
  apply list_elem_of_split in Hx as (A & B & E).
  assert (exists c C, B ++ [h] = c :: C) as (c & C & E2) by (destruct B; eauto).
  rewrite app_comm_cons, E, <- app_assoc in HL. cbn in HL. rewrite E2 in HL.
  rewrite (linked_next _ _ _ _ _ HL). eauto.
Qed.

Lemma clist_ends m h l1 l2 A a b B :
  clist m h (l1 ++ l2) -> h :: l1 = A ++ [a] -> l2 ++ [h] = b :: B ->
  get_next m a = Some b /\ get_prev m b = Some a.
Proof.
  intros [_ HL] HA HB.
  rewrite <- (app_assoc l1), app_comm_cons, HA, HB, <- app_assoc in HL. cbn in HL.
  split; [by eapply linked_next|by eapply linked_prev].
Qed.

Ltac links :=
  repeat match goal with
    | E : set_next ?p ?v ?m = Some ?m' |- context [get_next ?m' _] =>
        rewrite (get_next_set_next _ _ _ _ _ E)
    | E : set_next ?p ?v ?m = Some ?m' |- context [get_prev ?m' _] =>
        rewrite (get_prev_set_next _ _ _ _ _ E)
    | E : set_prev ?p ?v ?m = Some ?m' |- context [get_next ?m' _] =>
        rewrite (get_next_set_prev _ _ _ _ _ E)
    | E : set_prev ?p ?v ?m = Some ?m' |- context [get_prev ?m' _] =>
        rewrite (get_prev_set_prev _ _ _ _ _ E)
    end.

(** A memory outside a set of nodes is untouched. *)
Lemma lookup_links m m' q :
  get_next m' q = get_next m q -> get_prev m' q = get_prev m q -> m' !! q = m !! q.
Proof.
  unfold get_next, get_prev. destruct (m' !! q) as [[]|], (m !! q) as [[]|]; cbn; naive_solver.
Qed.

Lemma rt_list_insert_between m h l1 l2 n A a b B :
  clist m h (l1 ++ l2) -> n ∉ h :: l1 ++ l2 -> is_Some (m !! n) ->
  h :: l1 = A ++ [a] -> l2 ++ [h] = b :: B ->
  exists m', rt_list_insert_after a n m = Some m' /\ rt_list_insert_before b n m = Some m' /\
    clist m' h (l1 ++ n :: l2) /\ (forall q, q ∉ n :: h :: l1 ++ l2 -> m' !! q = m !! q).
Proof.
  intros HC Hn Hnd HA HB.
  destruct (clist_ends _ _ _ _ _ _ _ _ HC HA HB) as [Hna Hpb].
  assert (Ha : a ∈ h :: l1) by (rewrite HA; set_solver).
  assert (Hb : b ∈ l2 ++ [h]) by (rewrite HB; set_solver).
  assert (is_Some (m !! a)) as Da by (eapply clist_dom; [done|set_solver]).
  assert (is_Some (m !! b)) as Db by (eapply clist_dom; [done|set_solver]).
  assert (a <> n) as Han by set_solver. assert (b <> n) as Hbn by set_solver.
  destruct (set_prev_ok b n m Db) as [m1 E1].
  destruct (set_next_ok n b m1) as [m2 E2]; [by eapply set_prev_dom|].
  destruct (set_next_ok a n m2) as [m3 E3]; [by eapply set_next_dom, set_prev_dom|].
  destruct (set_prev_ok n a m3) as [m4 E4];
    [by eapply set_next_dom, set_next_dom, set_prev_dom|].
  assert (N4 : forall q, get_next m4 q = if decide (q = a) then Some n else
             if decide (q = n) then Some b else get_next m q) by (intros; links; done).
  assert (P4 : forall q, get_prev m4 q = if decide (q = n) then Some a else
             if decide (q = b) then Some n else get_prev m q) by (intros; links; done).
  exists m4. split_and!.
  - unfold rt_list_insert_after. rewrite Hna; cbn. rewrite E1; cbn.
    replace (get_next m1 a) with (Some b) by (links; done). cbn. rewrite E2; cbn.
    by rewrite E3; cbn.
  - destruct (set_next_ok a n m Da) as [k1 F1].
    destruct (set_prev_ok n a k1) as [k2 F2]; [by eapply set_next_dom|].
    destruct (set_prev_ok b n k2) as [k3 F3]; [by eapply set_prev_dom, set_next_dom|].
    destruct (set_next_ok n b k3) as [k4 F4];
      [by eapply set_prev_dom, set_prev_dom, set_next_dom|].
    unfold rt_list_insert_before. rewrite Hpb; cbn. rewrite F1; cbn.
    replace (get_prev k1 b) with (Some a) by (links; done). cbn. rewrite F2; cbn.
    rewrite F3; cbn. rewrite F4. f_equal. apply map_eq. intros q. apply lookup_links.
    + rewrite N4. links. repeat case_decide; subst; done.
    + rewrite P4. links. repeat case_decide; subst; done.
  - eapply (clist_insert m m4 h l1 l2 A B a b n); eauto.
    intros q. rewrite N4. repeat case_decide; subst; done.
  - intros q Hq. apply lookup_links; rewrite ?N4, ?P4; rewrite !decide_False; set_solver.
Qed.

Lemma rt_list_remove_between m h l1 n l2 :
  clist m h (l1 ++ n :: l2) ->
  exists m', rt_list_remove n m = Some m' /\ clist m' h (l1 ++ l2) /\ clist m' n [] /\
    (forall q, q ∉ n :: h :: l1 ++ l2 -> m' !! q = m !! q).
Proof.
  intros HC. destruct (split_ends h l1 l2) as (A & a & b & B & HA & HB).
  assert (n ∉ h :: l1 ++ l2) as Hn.
  { destruct HC as [Hnd _]. rewrite NoDup_cons in *. rewrite NoDup_app in *.
    rewrite NoDup_cons in Hnd. set_solver. }
  assert (get_next m a = Some n /\ get_prev m n = Some a) as [Hna Hpn].
  { eapply (clist_ends m h l1 (n :: l2)); eauto. }
  assert (get_next m n = Some b /\ get_prev m b = Some n) as [Hnn Hpb].
  { apply (clist_ends m h (l1 ++ [n]) l2 (h :: l1) n b B); [by rewrite <- app_assoc|done..]. }
  assert (Ha : a ∈ h :: l1) by (rewrite HA; set_solver).
  assert (Hb : b ∈ l2 ++ [h]) by (rewrite HB; set_solver).
  assert (is_Some (m !! a)) as Da by (eapply clist_dom; [done|set_solver]).
  assert (is_Some (m !! b)) as Db by (eapply clist_dom; [done|set_solver]).
  assert (is_Some (m !! n)) as Dn by (eapply clist_dom; [done|set_solver]).
  assert (a <> n) as Han by set_solver. assert (b <> n) as Hbn by set_solver.
  destruct (set_prev_ok b a m Db) as [m1 E1].
  destruct (set_next_ok a b m1) as [m2 E2]; [by eapply set_prev_dom|].
  destruct (set_prev_ok n n m2) as [m3 E3]; [by eapply set_next_dom, set_prev_dom|].
  destruct (set_next_ok n n m3) as [m4 E4];
    [by eapply set_prev_dom, set_next_dom, set_prev_dom|].
  exists m4. split_and!.
  - unfold rt_list_remove. rewrite Hnn; cbn. rewrite Hpn; cbn. rewrite E1; cbn.
    replace (get_prev m1 n) with (Some a) by (links; by rewrite decide_False). cbn.
    replace (get_next m1 n) with (Some b) by (links; done). cbn. rewrite E2; cbn.
    by rewrite E3; cbn.
  - eapply (clist_remove m m4 h l1 l2 A B a b n); eauto.
    + intros q ?. links. by rewrite decide_False.
    + intros q ?. links. by rewrite decide_False.
  - split; [by apply NoDup_singleton|]. cbn. rewrite linked_cons. links.
    by rewrite !decide_True.
  - intros q Hq. apply lookup_links; links; rewrite !decide_False; set_solver.
Qed.

Lemma rt_list_remove_self m n : clist m n [] -> rt_list_remove n m = Some m.
Proof.
  intros [_ [HN HP]]. cbn in *. destruct HP as [HP _].
  unfold rt_list_remove. rewrite HN; cbn. rewrite HP; cbn.
  unfold get_next, get_prev in *. destruct (m !! n) as [[x y]|] eqn:E; simplify_eq/=.
  unfold set_prev, set_next. rewrite E; cbn.
  repeat (rewrite lookup_insert_eq; cbn). rewrite !insert_insert_eq.
  by rewrite insert_id.
Qed.

Lemma rt_list_isempty_spec m h xs :
  clist m h xs -> rt_list_isempty h m = Some (bool_decide (xs = [])).
Proof.
  intros [Hnd HL]. unfold rt_list_isempty. destruct xs as [|x xs]; cbn in HL.
  - destruct HL as [-> _]. cbn. by rewrite bool_decide_true.
  - rewrite linked_cons in HL. destruct HL as [-> _]. cbn. f_equal.
    assert (x <> h) by (apply NoDup_cons in Hnd as [? _]; set_solver).
    by rewrite (bool_decide_eq_false_2 (x = h)).
Qed.
End pointers.

(** ** Families of lists *)

Section store.
Context {H E : Type} {eqH : EqDecision H} {ctH : Countable H}
  {eqE : EqDecision E} {ctE : Countable E}.
Implicit Types (S : gmap H (list E)) (h : H) (x y : E).

(** The queue of a list head, empty for a head that was never initialised. *)
Definition lget h S : list E := default [] (S !! h).
Definition lset h (l : list E) S : gmap H (list E) := <[h := l]> S.

(** [rt_list_insert_before(&head, &x->node)]: append. *)
Definition lpush_back h x S : gmap H (list E) := <[h := lget h S ++ [x]]> S.
(** [rt_list_insert_after(&head, &x->node)]: prepend. *)
Definition lpush_front h x S : gmap H (list E) := <[h := x :: lget h S]> S.
(** [rt_list_remove(&x->node)]: the node leaves the list it is in. *)
Definition lunlink x S : gmap H (list E) := lremove x <$> S.

(** Insert [x] before [y] in a sequence. *)
Fixpoint linsert_before (y x : E) (l : list E) : list E :=
  match l with
  | [] => []
  | z :: l => if decide (z = y) then x :: z :: l else z :: linsert_before y x l
  end.
(** [rt_list_insert_before(&y->node, &x->node)] for a queued [y]. *)
Definition llink_before y x S : gmap H (list E) := linsert_before y x <$> S.

(** The nodes of the memory: list heads and the nodes embedded in objects. *)
Abbreviation node := (H + E)%type.

(** The memory holds the lists of [S], no node is in two of them, and the
    nodes of the other objects are linked to themselves. *)
Definition rep (m : gmap node (rt_list_node node)) S : Prop :=
  (forall h l, S !! h = Some l -> clist m (inl h) (inr <$> l)) /\
  (forall h1 h2 l1 l2 x, S !! h1 = Some l1 -> S !! h2 = Some l2 -> x ∈ l1 -> x ∈ l2 -> h1 = h2) /\
  (forall x, is_Some (m !! inr x) -> (forall h l, S !! h = Some l -> x ∉ l) -> clist m (inr x) []).

Lemma lget_Some h S l : S !! h = Some l -> lget h S = l.
Proof. unfold lget. by intros ->. Qed.

Lemma clist_frame (m m' : gmap node (rt_list_node node)) (p : node) xs :
  clist m p xs -> (forall q, q ∈ p :: xs -> m' !! q = m !! q) -> clist m' p xs.
Proof.
  intros [Hnd HL] HF. split; [done|].
  eapply linked_ext; [done| |]; unfold get_next, get_prev; intros a y Ha;
    (rewrite HF; [done|set_solver]).
Qed.

(** An update of the memory that replaces the list [l] of head [h] by [l'] and
    leaves the nodes outside them alone. *)
Lemma rep_update m m' S h l l' x :
  rep m S -> S !! h = Some l ->
  clist m' (inl h) (inr <$> l') ->
  (forall y, y ∈ l -> y ∈ l' \/ y = x) -> (forall y, y ∈ l' -> y ∈ l \/ y = x) ->
  (forall h' l0, S !! h' = Some l0 -> h' <> h -> x ∉ l0) ->
  (x ∉ l' -> clist m' (inr x) []) ->
  (forall q, q ∉ inr x :: inl h :: (inr <$> l) -> m' !! q = m !! q) ->
  rep m' (<[h := l']> S).
Proof.
  intros (HC & HD & HS) Hl HC' Hin1 Hin2 Hx Hself HF. split_and!.
  - intros h' l0 [[<- <-]|[? Hl0]]%lookup_insert_Some; [done|].
    eapply clist_frame; [by apply HC|]. intros q Hq. apply HF.
    apply elem_of_cons in Hq as [->|Hq]; [set_solver|].
    apply list_elem_of_fmap in Hq as (z & -> & Hz).
    assert (z <> x) by (intros ->; by eapply Hx).
    assert (z ∉ l) by (intros ?; by assert (h' = h) by (by eapply HD)). set_solver.
  - intros h1 h2 l1 l2 y [[<- <-]|[? H1]]%lookup_insert_Some
      [[<- <-]|[? H2]]%lookup_insert_Some ??; [done| | |by eapply HD].
    + destruct (Hin2 y) as [?| ->]; [done|by eapply HD|]. exfalso. by eapply (Hx h2).
    + destruct (Hin2 y) as [?| ->]; [done|by eapply HD|]. exfalso. by eapply (Hx h1).
  - intros y Hy Hno.
    assert (y ∉ l') as Hyl' by (apply (Hno h); by rewrite lookup_insert_eq).
    destruct (decide (y = x)) as [->|Hne]; [auto|].
    assert (y ∉ l) by (intros Hyl; destruct (Hin1 y Hyl); done).
    assert (Hf : m' !! inr y = m !! inr y) by (apply HF; set_solver).
    eapply clist_frame; [apply (HS y)|].
    + by rewrite <- Hf.
    + intros h' l0 Hl0. destruct (decide (h' = h)) as [->|]; [by simplify_eq|].
      apply (Hno h'). by rewrite lookup_insert_ne.
    + intros q ->%list_elem_of_singleton. done.
Qed.

Lemma notin_fmap_inr x h (l : list E) :
  x ∉ l -> (inr x : node) ∉ (inl h : node) :: (inr <$> l : list node).
Proof. intros ? [?|(z & ? & ?)%list_elem_of_fmap]%elem_of_cons; naive_solver. Qed.

Lemma rep_not_in m S x h l :
  rep m S -> (forall h' l', S !! h' = Some l' -> x ∉ l') -> S !! h = Some l -> x ∉ l.
Proof. eauto. Qed.

(** Splicing an unqueued object into a list, at any position. *)
Lemma rep_splice m S h l1 l2 x :
  rep m S -> S !! h = Some (l1 ++ l2) -> is_Some (m !! inr x) ->
  (forall h' l', S !! h' = Some l' -> x ∉ l') ->
  exists A a b B m', ((inl h : node) :: (inr <$> l1) = A ++ [a]) /\
    ((inr <$> l2) ++ [inl h : node] = b :: B) /\
    rt_list_insert_after a (inr x) m = Some m' /\
    rt_list_insert_before b (inr x) m = Some m' /\
    rep m' (<[h := l1 ++ x :: l2]> S).
Proof.
  intros HR Hl Hx Hno. pose proof HR as (HC & _ & _).
  specialize (HC _ _ Hl). rewrite fmap_app in HC.
  destruct (split_ends (inl h : node) (inr <$> l1) (inr <$> l2)) as (A & a & b & B & HA & HB).
  assert ((inr x : node) ∉ (inl h : node) :: (inr <$> l1) ++ (inr <$> l2)) as Hnin.
  { rewrite <- fmap_app. apply notin_fmap_inr. eauto. }
  destruct (rt_list_insert_between m (inl h) _ _ (inr x) A a b B HC Hnin Hx HA HB)
    as (m' & E1 & E2 & HC' & HF).
  exists A, a, b, B, m'. split_and!; [done..|].
  eapply (rep_update m m' S h (l1 ++ l2) (l1 ++ x :: l2) x); eauto.
  - by rewrite fmap_app, fmap_cons.
  - set_solver.
  - set_solver.
  - set_solver.
  - intros q Hq. apply HF. by rewrite <- fmap_app.
Qed.

Lemma lunlink_one S h l x :
  S !! h = Some l -> (forall h' l', S !! h' = Some l' -> h' <> h -> x ∉ l') ->
  lunlink x S = <[h := lremove x l]> S.
Proof.
  intros Hl Hno. apply map_eq. intros h'. unfold lunlink. rewrite lookup_fmap.
  destruct (decide (h' = h)) as [->|Hne].
  - by rewrite lookup_insert_eq, Hl.
  - rewrite lookup_insert_ne by done. destruct (S !! h') eqn:E'; [|done]. cbn.
    by rewrite lremove_notin by eauto.
Qed.

Lemma lunlink_none S x : (forall h l, S !! h = Some l -> x ∉ l) -> lunlink x S = S.
Proof.
  intros Hno. apply map_eq. intros h. unfold lunlink. rewrite lookup_fmap.
  destruct (S !! h) eqn:E'; [|done]. cbn. by rewrite lremove_notin by eauto.
Qed.

Lemma linsert_before_split y x l1 l2 :
  y ∉ l1 -> linsert_before y x (l1 ++ y :: l2) = l1 ++ x :: y :: l2.
Proof.
  induction l1 as [|z l1 IH]; cbn; intros Hy; [by rewrite decide_True|].
  rewrite decide_False by set_solver. by rewrite IH by set_solver.
Qed.

Lemma linsert_before_notin y x l : y ∉ l -> linsert_before y x l = l.
Proof.
  induction l as [|z l IH]; cbn; intros Hy; [done|].
  rewrite decide_False by set_solver. by rewrite IH by set_solver.
Qed.

(** A fresh list head. *)
Lemma rep_init m S h :
  rep m S -> S !! h = None -> rep (rt_list_init (inl h) m) (<[h := []]> S).
Proof.
  intros (HC & HD & HS) Hh. unfold rt_list_init. split_and!.
  - intros h' l [[<- <-]|[? Hl]]%lookup_insert_Some.
    + split; [apply NoDup_singleton|]. cbn. unfold get_next, get_prev.
      by rewrite lookup_insert_eq.
    + eapply clist_frame; [by apply HC|]. intros q Hq. rewrite lookup_insert_ne; [done|].
      intros <-. apply elem_of_cons in Hq as [?|Hq]; [naive_solver|].
      by apply list_elem_of_fmap in Hq as (? & ? & _).
  - intros h1 h2 l1 l2 y [[<- <-]|[? H1]]%lookup_insert_Some
      [[<- <-]|[? H2]]%lookup_insert_Some ??; [set_solver..|by eapply HD].
  - intros y Hy Hno. rewrite lookup_insert_ne in Hy by done.
    eapply clist_frame; [apply (HS y Hy)|].
    + intros h' l Hl. apply (Hno h'). rewrite lookup_insert_ne; [done|congruence].
    + intros q ->%list_elem_of_singleton. by rewrite lookup_insert_ne.
Qed.

(** The node of an object joins the family: [rt_list_init(&x->node)]. *)
Lemma rep_init_node m S x :
  rep m S -> (forall h l, S !! h = Some l -> x ∉ l) -> rep (rt_list_init (inr x) m) S.
Proof.
  intros (HC & HD & HS) Hno. unfold rt_list_init. split_and!; [|done|].
  - intros h l Hl. eapply clist_frame; [by apply HC|]. intros q Hq.
    rewrite lookup_insert_ne; [done|]. intros <-.
    eapply notin_fmap_inr; [|exact Hq]. eauto.
  - intros y Hy Hny. destruct (decide (y = x)) as [->|].
    + split; [apply NoDup_singleton|]. cbn. unfold get_next, get_prev.
      by rewrite lookup_insert_eq.
    + rewrite lookup_insert_ne in Hy by congruence.
      eapply clist_frame; [by apply (HS y)|]. intros q ->%list_elem_of_singleton.
      rewrite lookup_insert_ne; congruence.
Qed.

Lemma rep_isempty m S h l :
  rep m S -> S !! h = Some l -> rt_list_isempty (inl h) m = Some (bool_decide (l = [])).
Proof.
  intros (HC & _ & _) Hl. rewrite (rt_list_isempty_spec _ _ _ (HC _ _ Hl)).
  by destruct l.
Qed.

(** [list->next] of a non-empty list is its first object, [list->prev] its last. *)
Lemma rep_first m S h x l :
  rep m S -> S !! h = Some (x :: l) -> get_next m (inl h) = Some (inr x).
Proof. intros (HC & _ & _) Hl. destruct (HC _ _ Hl) as [_ HL]. by destruct HL. Qed.

(** [x->tlist.next != x->tlist.prev], the test of [rt_thread_yield]: a queued
    object has company exactly when its neighbours differ. *)
Lemma rep_alone m S h l x :
  rep m S -> S !! h = Some l -> x ∈ l ->
  (get_next m (inr x) = get_prev m (inr x) <-> l = [x]).
Proof.
  intros (HC & _ & _) Hl Hx. destruct (HC _ _ Hl) as [Hnd HL].
  apply list_elem_of_split in Hx as (l1 & l2 & ->).
  rewrite fmap_app, fmap_cons in HL, Hnd.
  destruct (split_ends (inl h : node) (inr <$> l1) (inr <$> l2)) as (A & a & b & B & HA & HB).
  assert (HC' : clist m (inl h) ((inr <$> l1) ++ inr x :: (inr <$> l2))) by done.
  destruct (clist_ends m (inl h) (inr <$> l1) (inr x :: (inr <$> l2)) A a (inr x) (b :: B))
    as [_ Hp]; [done..|by rewrite <- HB|].
  destruct (clist_ends m (inl h) ((inr <$> l1) ++ [inr x]) (inr <$> l2)
    (inl h :: (inr <$> l1)) (inr x) b B) as [Hn _]; [by rewrite <- app_assoc|done..|].
  rewrite Hn, Hp. split.
  - intros [= ->]. destruct l2 as [|y l2]; simplify_eq/=.
    + destruct l1 as [|z l1]; [done|]. exfalso.
      destruct A as [|a A]; [done|]. injection HA as _ HA.
      assert ((inl h : node) ∈ A ++ [inl h]) as Hin by set_solver. rewrite <- HA in Hin.
      change ((inl h : node) ∈ inr <$> (z :: l1)) in Hin.
      by apply list_elem_of_fmap in Hin as (?&?&?).
    + exfalso. assert ((inr y : node) ∈ (inl h : node) :: (inr <$> l1)) as Hy
        by (rewrite HA; set_solver).
      apply elem_of_cons in Hy as [?|Hy]; [done|].
      apply NoDup_cons in Hnd as [_ Hnd]. apply NoDup_app in Hnd as (_ & Hd & _).
      eapply Hd; [exact Hy|]. set_solver.
  - intros Heq. destruct l1 as [|z l1]; [|by destruct l1]. destruct l2; [|done].
    destruct A as [|? [|? ?]]; by simplify_eq/=.
Qed.
End store.

(** ** The refinement of the family operations *)

Section refinement.
Context {H E : Type} {eqH : EqDecision H} {ctH : Countable H}
  {eqE : EqDecision E} {ctE : Countable E}.
Implicit Types (m : gmap (H + E) (rt_list_node (H + E))) (S : gmap H (list E)).

Lemma rep_push_back m S h l x :
  rep m S -> S !! h = Some l -> is_Some (m !! inr x) ->
  (forall h' l', S !! h' = Some l' -> x ∉ l') ->
  exists m', rt_list_insert_before (inl h) (inr x) m = Some m' /\ rep m' (lpush_back h x S).
Proof.
  intros HR Hl Hx Hno. rewrite <- (app_nil_r l) in Hl.
  destruct (rep_splice m S h l [] x HR Hl Hx Hno) as (A & a & b & B & m' & HA & HB & _ & E2 & HR').
  cbn in HB. simplify_eq/=. exists m'. split; [done|].
  unfold lpush_back. rewrite (lget_Some _ _ _ Hl), app_nil_r. done.
Qed.

Lemma rep_push_front m S h l x :
  rep m S -> S !! h = Some l -> is_Some (m !! inr x) ->
  (forall h' l', S !! h' = Some l' -> x ∉ l') ->
  exists m', rt_list_insert_after (inl h) (inr x) m = Some m' /\ rep m' (lpush_front h x S).
Proof.
  intros HR Hl Hx Hno.
  destruct (rep_splice m S h [] l x HR Hl Hx Hno) as (A & a & b & B & m' & HA & HB & E1 & _ & HR').
  cbn in HA. destruct A as [|? [|? ?]]; simplify_eq/=. exists m'. split; [done|].
  unfold lpush_front. by rewrite (lget_Some _ _ _ Hl).
Qed.

Lemma rep_link_before m S h l y x :
  rep m S -> S !! h = Some l -> y ∈ l -> is_Some (m !! inr x) ->
  (forall h' l', S !! h' = Some l' -> x ∉ l') ->
  exists m', rt_list_insert_before (inr y) (inr x) m = Some m' /\ rep m' (llink_before y x S).
Proof.
  intros HR Hl Hy Hx Hno. apply list_elem_of_split in Hy as (l1 & l2 & ->).
  destruct (rep_splice m S h l1 (y :: l2) x HR Hl Hx Hno)
    as (A & a & b & B & m' & HA & HB & _ & E2 & HR').
  cbn in HB. simplify_eq/=. exists m'. split; [done|].
  assert (llink_before y x S = <[h := l1 ++ x :: y :: l2]> S) as ->; [|done].
  apply map_eq. intros h'. unfold llink_before. rewrite lookup_fmap.
  pose proof HR as (HC & HD & _). destruct (decide (h' = h)) as [->|].
  - rewrite lookup_insert_eq, Hl. cbn. rewrite linsert_before_split; [done|].
    destruct (HC _ _ Hl) as [Hnd _]. rewrite NoDup_cons, fmap_app, NoDup_app in Hnd.
    destruct Hnd as (_ & _ & Hd & _). intros Hy. eapply (Hd (inr y)); set_solver.
  - rewrite lookup_insert_ne by done. destruct (S !! h') eqn:E'; [|done]. cbn.
    rewrite linsert_before_notin; [done|]. intros ?.
    assert (h' = h); [|done]. eapply HD; [done..|]. set_solver.
Qed.

(** [rt_list_remove] takes an object out of whichever list holds it and is
    harmless on an object in no list; the object can be queued again. *)
Theorem rep_unlink m S x :
  rep m S -> is_Some (m !! inr x) ->
  exists m', rt_list_remove (inr x) m = Some m' /\ rep m' (lunlink x S) /\
    is_Some (m' !! inr x).
Proof.
  intros HR Hx. pose proof HR as (HC & HD & HS).
  destruct (decide (map_Exists (fun _ l => x ∈ l) S)) as [(h & l & Hl & Hxl)|Hno].
  - apply list_elem_of_split in Hxl as (l1 & l2 & ->).
    pose proof (HC _ _ Hl) as HCl. rewrite fmap_app, fmap_cons in HCl.
    assert (Hn : x ∉ l1 /\ x ∉ l2).
    { destruct HCl as [Hnd _]. rewrite NoDup_cons, NoDup_app, NoDup_cons in Hnd.
      destruct Hnd as (_ & _ & Hd & Hnd & _). split; intros Hin.
      - eapply (Hd (inr x)); set_solver.
      - apply Hnd. set_solver. }
    assert (Hoth : forall h' l', S !! h' = Some l' -> h' <> h -> x ∉ l').
    { intros h' l' Hl' Hne Hin. apply Hne. eapply HD; [done..|]. set_solver. }
    destruct (rt_list_remove_between _ _ _ _ _ HCl) as (m' & E1 & HC' & Hself & HF).
    exists m'. split_and!; [done| |].
    + rewrite (lunlink_one S h _ x Hl Hoth), lremove_middle by tauto.
      eapply (rep_update m m' S h (l1 ++ x :: l2) (l1 ++ l2) x); eauto.
      * by rewrite fmap_app.
      * set_solver.
      * set_solver.
      * intros q Hq. apply HF. rewrite fmap_app in Hq. set_solver.
    + by eapply clist_dom; [exact Hself|set_solver].
  - assert (Hno' : forall h l, S !! h = Some l -> x ∉ l).
    { intros h l Hl Hin. apply Hno. by exists h, l. }
    exists m. rewrite rt_list_remove_self by (by apply HS).
    by rewrite lunlink_none.
Qed.
End refinement.

(** ** Sequences of operations *)

(** The operations the kernel performs on its lists. *)
Inductive list_op (H E : Type) :=
| OpPushBack (h : H) (x : E)
| OpPushFront (h : H) (x : E)
| OpLinkBefore (y x : E)
| OpUnlink (x : E).
Arguments OpPushBack {H E} _ _.
Arguments OpPushFront {H E} _ _.
Arguments OpLinkBefore {H E} _ _.
Arguments OpUnlink {H E} _.

Section sequences.
Context {H E : Type} {eqH : EqDecision H} {ctH : Countable H}
  {eqE : EqDecision E} {ctE : Countable E}.
Implicit Types (m : gmap (H + E) (rt_list_node (H + E))) (S : gmap H (list E)) (D : gset E).

Definition list_run (op : list_op H E) m : option (gmap (H + E) (rt_list_node (H + E))) :=
  match op with
  | OpPushBack h x => rt_list_insert_before (inl h) (inr x) m
  | OpPushFront h x => rt_list_insert_after (inl h) (inr x) m
  | OpLinkBefore y x => rt_list_insert_before (inr y) (inr x) m
  | OpUnlink x => rt_list_remove (inr x) m
  end.

Definition list_abs (op : list_op H E) S : gmap H (list E) :=
  match op with
  | OpPushBack h x => lpush_back h x S
  | OpPushFront h x => lpush_front h x S
  | OpLinkBefore y x => llink_before y x S
  | OpUnlink x => lunlink x S
  end.

(** Only objects [D] with an initialised node are queued, and only while they are
    in no list. *)
Definition fresh (x : E) D S : Prop := x ∈ D /\ map_Forall (fun _ l => x ∉ l) S.
Definition list_legal (op : list_op H E) D S : Prop :=
  match op with
  | OpPushBack h x | OpPushFront h x => is_Some (S !! h) /\ fresh x D S
  | OpLinkBefore y x => map_Exists (fun _ l => y ∈ l) S /\ fresh x D S
  | OpUnlink x => x ∈ D
  end.

Fixpoint list_runs (ops : list (list_op H E)) m : option (gmap (H + E) (rt_list_node (H + E))) :=
  match ops with [] => Some m | op :: ops => m' ← list_run op m; list_runs ops m' end.
Fixpoint list_abss (ops : list (list_op H E)) S : gmap H (list E) :=
  match ops with [] => S | op :: ops => list_abss ops (list_abs op S) end.
Fixpoint list_legals (ops : list (list_op H E)) D S : Prop :=
  match ops with [] => True | op :: ops => list_legal op D S /\ list_legals ops D (list_abs op S) end.

Ltac dom_step := match goal with
  | Hb : (_ ≫= _) = Some _ |- _ => apply bind_Some in Hb as (? & ? & Hb)
  end.
Lemma list_run_dom op m m' q : list_run op m = Some m' -> is_Some (m !! q) -> is_Some (m' !! q).
Proof.
  intros Hr Hq. destruct op; cbn in Hr; unfold rt_list_insert_before, rt_list_insert_after, rt_list_remove in Hr;
    repeat dom_step; eauto 10 using set_next_dom, set_prev_dom.
Qed.

Lemma list_run_refines op m S D :
  rep m S -> (forall x, x ∈ D -> is_Some (m !! inr x)) -> list_legal op D S ->
  exists m', list_run op m = Some m' /\ rep m' (list_abs op S).
Proof.
  intros HR HD HL. destruct op as [h x|h x|y x|x]; cbn in *.
  - destruct HL as [[l Hl] [Hx Hno]]. eapply rep_push_back; eauto.
  - destruct HL as [[l Hl] [Hx Hno]]. eapply rep_push_front; eauto.
  - destruct HL as [(h & l & Hl & Hy) [Hx Hno]]. eapply rep_link_before; eauto.
  - destruct (rep_unlink m S x HR (HD x HL)) as (m' & ? & ? & _). eauto.
Qed.

(** Walking a list visits its nodes: [rt_list_len] counts them. *)
Lemma len_loop_spec m h xs : forall ys fuel n,
  linked m (xs ++ [h]) -> h ∉ ys -> (exists x0, xs = x0 :: ys) -> (length ys < fuel)%nat -> 0 <= n -> n + Z.of_nat (length ys) < 2 ^ 32 ->
  forall x0, head xs = Some x0 -> rt_list_len_loop fuel h x0 m n = Some (n + Z.of_nat (length ys)).
Proof.
  intros ys. revert xs. induction ys as [|y ys IH]; intros xs fuel n HL Hh [x0 ->] Hf Hn Hb ? [= <-].
  - destruct fuel as [|fuel]; [lia|]. destruct HL as (Hnx & _). cbn [rt_list_len_loop]. rewrite Hnx. cbn. rewrite bool_decide_true by done. f_equal. lia.
  - destruct fuel as [|fuel]; [lia|]. destruct HL as (Hnx & _ & HL). cbn [rt_list_len_loop]. rewrite Hnx. cbn -[length].
    apply not_elem_of_cons in Hh as [Hne Hh]. rewrite bool_decide_false by done. cbn [length] in *. rewrite u32_small by lia.
    rewrite (IH (y :: ys)); [f_equal; lia|done|done|by eexists|lia..|done].
Qed.

Lemma rep_len m S h l fuel :
  rep m S -> S !! h = Some l -> (length l < fuel)%nat -> Z.of_nat (length l) < 2 ^ 32 ->
  rt_list_len fuel (inl h) m = Some (Z.of_nat (length l)).
Proof.
  intros (HC & _ & _) Hl Hf Hb. destruct (HC _ _ Hl) as [Hnd HL]. unfold rt_list_len.
  rewrite (len_loop_spec m (inl h) (inl h :: (inr <$> l)) (inr <$> l)); rewrite ?length_fmap; try done; try lia.
  - by apply NoDup_cons in Hnd as [? _].
  - by eexists.
Qed.

(** C1: The pointer code of rtservice.h implements sequences: any run of insertions
    and removals that only queues objects that are in no list succeeds on a memory
    that holds the family of lists [S], and leaves a memory that holds the lists
    the same operations give on sequences; there [rt_list_isempty] and
    [rt_list_len] answer for the sequence. *)
Theorem rt_list_refines ops m S D :
  rep m S -> (forall x, x ∈ D -> is_Some (m !! inr x)) -> list_legals ops D S ->
  exists m', list_runs ops m = Some m' /\ rep m' (list_abss ops S) /\
    forall h l, list_abss ops S !! h = Some l ->
      rt_list_isempty (inl h) m' = Some (bool_decide (l = [])) /\
      (Z.of_nat (length l) < 2 ^ 32 -> rt_list_len (length l + 1) (inl h) m' = Some (Z.of_nat (length l))).
Proof.
  revert m S. induction ops as [|op ops IH]; intros m S HR HD HL.
  - exists m. split; [done|]. split; [done|]. intros h l Hl. split; [by apply (rep_isempty m S)|]. intros. apply (rep_len m S); [done..|lia|done].
  - destruct HL as [HL1 HL2]. destruct (list_run_refines op m S D HR HD HL1) as (m1 & E1 & HR1). cbn [list_runs list_abss]. rewrite E1. cbn.
    apply IH; [done| |done]. intros x Hx. eapply list_run_dom; [exact E1|auto].
Qed.
End sequences.

(** Two heads and three nodes. *)
Definition demo_lists : gmap (bool + Z) (rt_list_node (bool + Z)) :=
  rt_list_init (inr 3) (rt_list_init (inr 2) (rt_list_init (inr 1) (rt_list_init (inl false) (rt_list_init (inl true) ∅)))).

Lemma rt_list_refines_witness :
  exists m', list_runs [OpPushBack true 1; OpPushFront true 2; OpLinkBefore 1 3; OpUnlink 2] demo_lists = Some m' /\
    rep m' (<[true := [3; 1]]> {[false := []]}).
Proof.
  destruct (rt_list_refines [OpPushBack true 1; OpPushFront true 2; OpLinkBefore 1 3; OpUnlink 2] demo_lists
    (<[false := []]> {[true := []]}) {[1; 2; 3]}) as (m' & E & HR & _).
  - unfold demo_lists. assert (HN : forall x h l, (<[false := []]> {[true := []]} : gmap bool (list Z)) !! h = Some l -> x ∉ l).
    { intros x h l [[_ <-]|[_ [_ <-]%lookup_singleton_Some]]%lookup_insert_Some; apply not_elem_of_nil. }
    do 3 (apply rep_init_node; [|apply HN]). apply (rep_init _ {[true := []]}); [|done]. apply (rep_init _ ∅); [|done].
    split_and!; [by intros ?? ?%lookup_empty_Some|by intros ????? ?%lookup_empty_Some|]. intros x [? Hx]. by rewrite lookup_empty in Hx.
  - intros x Hx. assert (x = 1 \/ x = 2 \/ x = 3) as [->|[->| ->]] by set_solver; by vm_compute; eauto.
  - cbn [list_legals list_legal]. unfold fresh. repeat split; try done; decided.
  - exists m'. split; [exact E|]. exact HR.
Defined.
