(* ===== verification/KService.v ===== *)
(** * Kernel service routines (src/kservice.c)

    Section [bytes] is a byte-addressed memory with loads and stores that fail
    outside it; words are little endian, as on the Cortex-M4.  On it the file
    translates the block routines [rt_memset], [rt_memcpy], [rt_memmove],
    [rt_memcmp] and the string routines, loop by loop: the word-at-a-time fast
    paths, the direction test of [rt_memmove], the [signed char] accumulator of
    [rt_strncmp].  Loops that count down a variable recurse on it; the others
    carry fuel, and the theorems show that the fuel given by the callers is
    enough.  [__rt_ffs] and its table close the file: the scheduler selects the
    next thread with it. *)

From S2P Require Import Prelude.

(** ** Memory *)

Notation mem := (gmap Z Z).

Definition ld (m : mem) (a : Z) : option Z := m !! a.
Definition st (m : mem) (a v : Z) : option mem := _ ← m !! a; Some (<[a := v]> m).

Definition ld32 (m : mem) (a : Z) : option Z :=
  b0 ← ld m a; b1 ← ld m (a + 1); b2 ← ld m (a + 2); b3 ← ld m (a + 3);
  Some (b0 + b1 * 2 ^ 8 + b2 * 2 ^ 16 + b3 * 2 ^ 24).
Definition st32 (m : mem) (a w : Z) : option mem :=
  m ← st m a (u8 w); m ← st m (a + 1) (u8 (w / 2 ^ 8));
  m ← st m (a + 2) (u8 (w / 2 ^ 16)); st m (a + 3) (u8 (w / 2 ^ 24)).

(** A memory of bytes that has the whole range [a .. a+n-1]. *)
Definition bytes_ok (m : mem) : Prop := forall a v, m !! a = Some v -> 0 <= v < 2 ^ 8.
Definition valid (m : mem) (a n : Z) : Prop := forall i, a <= i < a + n -> is_Some (m !! i).

(** ** rt_memset *)

Fixpoint set_bytes (count : nat) (m : mem) (p d : Z) : option mem :=
  match count with
  | O => Some m
  | S count => m ← st m p d; set_bytes count m (p + 1) d
  end.

(** [while (count >= LBLOCKSIZE) { *aligned_addr++ = buffer; count -= LBLOCKSIZE; }] *)
Fixpoint set_words (fuel : nat) (m : mem) (p count buffer : Z) : option (mem * Z * Z) :=
  if 4 <=? count then
    match fuel with
    | O => None
    | S fuel => m ← st32 m p buffer; set_words fuel m (p + 4) (count - 4) buffer
    end
  else Some (m, p, count).

(** The same loop, four words a round. *)
Fixpoint set_blocks (fuel : nat) (m : mem) (p count buffer : Z) : option (mem * Z * Z) :=
  if 16 <=? count then
    match fuel with
    | O => None
    | S fuel =>
        m ← st32 m p buffer; m ← st32 m (p + 4) buffer;
        m ← st32 m (p + 8) buffer; m ← st32 m (p + 12) buffer;
        set_blocks fuel m (p + 16) (count - 16) buffer
    end
  else Some (m, p, count).

Definition rt_memset (m : mem) (s c count : Z) : option mem :=
  let d := Z.land c 255 in
  if (negb (count <? 4) && negb (nz (Z.land s 3)))%bool then
    let buffer := Z.lor (Z.shiftl d 8) d in
    let buffer := Z.lor buffer (u32 (Z.shiftl buffer 16)) in
    '(m, p, count) ← set_blocks (Z.to_nat count) m s count buffer;
    '(m, p, count) ← set_words (Z.to_nat count) m p count buffer;
    set_bytes (Z.to_nat count) m p d
  else set_bytes (Z.to_nat count) m s d.

(** ** rt_memcpy *)

Fixpoint copy_bytes (len : nat) (m : mem) (dst src : Z) : option mem :=
  match len with
  | O => Some m
  | S len => v ← ld m src; m ← st m dst v; copy_bytes len m (dst + 1) (src + 1)
  end.

Definition copy_word (m : mem) (dst src : Z) : option mem :=
  w ← ld32 m src; st32 m dst w.

Fixpoint copy_words (fuel : nat) (m : mem) (dst src len : Z) : option (mem * Z * Z * Z) :=
  if 4 <=? len then
    match fuel with
    | O => None
    | S fuel => m ← copy_word m dst src; copy_words fuel m (dst + 4) (src + 4) (len - 4)
    end
  else Some (m, dst, src, len).

Fixpoint copy_blocks (fuel : nat) (m : mem) (dst src len : Z) : option (mem * Z * Z * Z) :=
  if 16 <=? len then
    match fuel with
    | O => None
    | S fuel =>
        m ← copy_word m dst src; m ← copy_word m (dst + 4) (src + 4);
        m ← copy_word m (dst + 8) (src + 8); m ← copy_word m (dst + 12) (src + 12);
        copy_blocks fuel m (dst + 16) (src + 16) (len - 16)
    end
  else Some (m, dst, src, len).

Definition rt_memcpy (m : mem) (dst src count : Z) : option mem :=
  if (negb (count <? 16) && negb (nz (Z.lor (Z.land src 3) (Z.land dst 3))))%bool then
    '(m, dst, src, len) ← copy_blocks (Z.to_nat count) m dst src count;
    '(m, dst, src, len) ← copy_words (Z.to_nat len) m dst src len;
    copy_bytes (Z.to_nat len) m dst src
  else copy_bytes (Z.to_nat count) m dst src.

(** ** rt_memmove *)

(** [while (n--) *(--tmp) = *(--s);] *)
Fixpoint copy_back (n : nat) (m : mem) (tmp s : Z) : option mem :=
  match n with
  | O => Some m
  | S n => v ← ld m (s - 1); m ← st m (tmp - 1) v; copy_back n m (tmp - 1) (s - 1)
  end.

Definition rt_memmove (m : mem) (dest src n : Z) : option mem :=
  if ((src <? dest) && (dest <? src + n))%bool then
    copy_back (Z.to_nat n) m (dest + n) (src + n)
  else copy_bytes (Z.to_nat n) m dest src.

(** ** Comparison and strings *)

Fixpoint rt_memcmp (count : nat) (m : mem) (cs ct : Z) : option Z :=
  match count with
  | O => Some 0
  | S count =>
      a ← ld m cs; b ← ld m ct;
      if nz (a - b) then Some (a - b) else rt_memcmp count m (cs + 1) (ct + 1)
  end.

Fixpoint rt_strlen (fuel : nat) (m : mem) (s sc : Z) : option Z :=
  match fuel with
  | O => None
  | S fuel => c ← ld m sc; if nz c then rt_strlen fuel m s (sc + 1) else Some (sc - s)
  end.

(** The loop tests [*sc] before [sc - s < maxlen]. *)
Fixpoint rt_strnlen (fuel : nat) (m : mem) (s sc maxlen : Z) : option Z :=
  match fuel with
  | O => None
  | S fuel =>
      c ← ld m sc;
      if (nz c && (sc - s <? maxlen))%bool then rt_strnlen fuel m s (sc + 1) maxlen
      else Some (sc - s)
  end.

(** The search loop of [rt_strstr]; [None] inside is RT_NULL. *)
Fixpoint strstr_loop (fuel : nat) (m : mem) (s1 s2 l1 l2 : Z) : option (option Z) :=
  if l2 <=? l1 then
    match fuel with
    | O => None
    | S fuel =>
        r ← rt_memcmp (Z.to_nat l2) m s1 s2;
        if nz r then strstr_loop fuel m (s1 + 1) s2 (l1 - 1) l2 else Some (Some s1)
    end
  else Some None.

Definition rt_strstr (fuel : nat) (m : mem) (s1 s2 : Z) : option (option Z) :=
  l2 ← rt_strlen fuel m s2 s2;
  if nz l2 then
    l1 ← rt_strlen fuel m s1 s1; strstr_loop fuel m s1 s2 l1 l2
  else Some (Some s1).

Definition lower (c : Z) : Z := if ((65 <=? c) && (c <=? 90))%bool then c + 32 else c.

Fixpoint rt_strcasecmp (fuel : nat) (m : mem) (a b : Z) : option Z :=
  match fuel with
  | O => None
  | S fuel =>
      ca ← ld m a; cb ← ld m b;
      let ca := lower (Z.land ca 255) in let cb := lower (Z.land cb 255) in
      if ((ca =? cb) && nz ca)%bool then rt_strcasecmp fuel m (a + 1) (b + 1)
      else Some (u32 (ca - cb))
  end.

(** [rt_strncpy]: [n] counts the bytes still to write. *)
Fixpoint rt_strncpy (n : nat) (m : mem) (d s : Z) : option mem :=
  match n with
  | O => Some m
  | S n =>
      c ← ld m s; m ← st m d c;
      if nz c then rt_strncpy n m (d + 1) (s + 1) else set_bytes n m (d + 1) 0
  end.

(** A [signed char]. *)
Definition s8 (z : Z) : Z := (z + 2 ^ 7) mod 2 ^ 8 - 2 ^ 7.

(** [__res] is a [signed char]: the difference of two bytes is truncated. *)
Fixpoint rt_strncmp_loop (count : nat) (m : mem) (cs ct res : Z) : option Z :=
  match count with
  | O => Some res
  | S count =>
      a ← ld m cs; b ← ld m ct;
      let res := s8 (a - b) in
      if (nz res || negb (nz a))%bool then Some res
      else rt_strncmp_loop count m (cs + 1) (ct + 1) res
  end.
Definition rt_strncmp (m : mem) (cs ct : Z) (count : nat) : option Z :=
  rt_strncmp_loop count m cs ct 0.

Fixpoint rt_strcmp (fuel : nat) (m : mem) (cs ct : Z) : option Z :=
  match fuel with
  | O => None
  | S fuel =>
      a ← ld m cs; b ← ld m ct;
      if (nz a && (a =? b))%bool then rt_strcmp fuel m (cs + 1) (ct + 1) else Some (a - b)
  end.

(** ** Find first set *)

Definition __lowest_bit_bitmap : list Z :=
  [0; 0; 1; 0; 2; 0; 1; 0; 3; 0; 1; 0; 2; 0; 1; 0;
   4; 0; 1; 0; 2; 0; 1; 0; 3; 0; 1; 0; 2; 0; 1; 0;
   5; 0; 1; 0; 2; 0; 1; 0; 3; 0; 1; 0; 2; 0; 1; 0;
   4; 0; 1; 0; 2; 0; 1; 0; 3; 0; 1; 0; 2; 0; 1; 0;
   6; 0; 1; 0; 2; 0; 1; 0; 3; 0; 1; 0; 2; 0; 1; 0;
   4; 0; 1; 0; 2; 0; 1; 0; 3; 0; 1; 0; 2; 0; 1; 0;
   5; 0; 1; 0; 2; 0; 1; 0; 3; 0; 1; 0; 2; 0; 1; 0;
   4; 0; 1; 0; 2; 0; 1; 0; 3; 0; 1; 0; 2; 0; 1; 0;
   7; 0; 1; 0; 2; 0; 1; 0; 3; 0; 1; 0; 2; 0; 1; 0;
   4; 0; 1; 0; 2; 0; 1; 0; 3; 0; 1; 0; 2; 0; 1; 0;
   5; 0; 1; 0; 2; 0; 1; 0; 3; 0; 1; 0; 2; 0; 1; 0;
   4; 0; 1; 0; 2; 0; 1; 0; 3; 0; 1; 0; 2; 0; 1; 0;
   6; 0; 1; 0; 2; 0; 1; 0; 3; 0; 1; 0; 2; 0; 1; 0;
   4; 0; 1; 0; 2; 0; 1; 0; 3; 0; 1; 0; 2; 0; 1; 0;
   5; 0; 1; 0; 2; 0; 1; 0; 3; 0; 1; 0; 2; 0; 1; 0;
   4; 0; 1; 0; 2; 0; 1; 0; 3; 0; 1; 0; 2; 0; 1; 0].

(** A read of the table at a byte. *)
Definition bitmap_at (i : Z) : Z := nth (Z.to_nat i) __lowest_bit_bitmap 0.

(** [value] is the bit pattern of the argument, an unsigned 32-bit word. *)
Definition __rt_ffs (value : Z) : Z :=
  if value =? 0 then 0
  else if nz (Z.land value 0xff) then bitmap_at (Z.land value 0xff) + 1
  else if nz (Z.land value 0xff00) then
    bitmap_at (Z.shiftr (Z.land value 0xff00) 8) + 9
  else if nz (Z.land value 0xff0000) then
    bitmap_at (Z.shiftr (Z.land value 0xff0000) 16) + 17
  else bitmap_at (Z.shiftr (Z.land value 0xff000000) 24) + 25.

(** ** Proofs: find first set *)

(** Bit [n] of [v] is its lowest set bit. *)
Definition lowest_bit (v n : Z) : Prop :=
  0 <= n /\ Z.testbit v n = true /\ forall i, 0 <= i < n -> Z.testbit v i = false.

Lemma bitmap_checked :
  forallb (fun b => let n := bitmap_at b in
    (0 <=? n) && (n <? 8) && Z.testbit b n && forallb (fun i => negb (Z.testbit b i)) (seqZ 0 n))%bool
    (seqZ 1 255) = true.
Proof. vm_compute. reflexivity. Qed.

Lemma bitmap_at_lowest b : 0 < b < 2 ^ 8 -> lowest_bit b (bitmap_at b) /\ bitmap_at b < 8.
Proof.
  intros Hb. pose proof bitmap_checked as H. rewrite forallb_forall in H.
  specialize (H b). rewrite !andb_true_iff, forallb_forall in H.
  destruct H as [[[H1 H2] H3] H4].
  { apply list_elem_of_In, elem_of_seqZ. lia. }
  zb. split; [|done]. split_and!; [done..|]. intros i Hi.
  apply negb_true_iff, H4, list_elem_of_In, elem_of_seqZ. lia.
Qed.

(** Byte [k] of a word: its bits are the bits [8k .. 8k+7] of the word. *)
Lemma byte_bits v k i : 0 <= k -> 0 <= i < 8 ->
  Z.testbit (Z.shiftr (Z.land v (255 * 2 ^ k)) k) i = Z.testbit v (i + k).
Proof.
  intros Hk Hi. rewrite Z.shiftr_spec, Z.land_spec by lia.
  rewrite Z.mul_pow2_bits by lia. replace (i + k - k) with i by lia.
  rewrite (testbit_ones 8) by lia.
  destruct (Z.leb_spec 0 i); [|lia]. destruct (Z.ltb_spec i 8); [|lia]. cbn. by rewrite andb_true_r.
Qed.

Lemma byte_range v k : 0 <= k -> 0 <= Z.shiftr (Z.land v (255 * 2 ^ k)) k < 2 ^ 8.
Proof.
  intros Hk.
  assert (Z.shiftr (Z.land v (255 * 2 ^ k)) k = Z.land (Z.shiftr v k) (Z.ones 8)) as ->.
  { rewrite Z.shiftr_land. f_equal. rewrite Z.shiftr_div_pow2 by lia.
    rewrite Z.div_mul; [done|]. assert (0 < 2 ^ k) by (apply Z.pow_pos_nonneg; lia). lia. }
  rewrite Z.land_ones by lia. apply Z.mod_pos_bound. lia.
Qed.

(** The byte at [k] is the lowest non-zero one: its lowest bit is the word's. *)
Lemma ffs_byte v k : 0 <= k ->
  Z.land v (255 * 2 ^ k) <> 0 -> (forall i, 0 <= i < k -> Z.testbit v i = false) ->
  let n := bitmap_at (Z.shiftr (Z.land v (255 * 2 ^ k)) k) in lowest_bit v (n + k) /\ 0 <= n < 8.
Proof.
  intros Hk Hnz Hlow n. pose proof (byte_range v k Hk) as Hr.
  set (b := Z.shiftr (Z.land v (255 * 2 ^ k)) k) in *.
  assert (0 < b).
  { destruct (Z.eq_dec b 0) as [Hb|]; [|lia]. exfalso. apply Hnz.
    apply Z.bits_inj'. intros i Hi. rewrite Z.bits_0, Z.land_spec, Z.mul_pow2_bits by lia.
    rewrite (testbit_ones 8) by lia.
    destruct (Z.leb_spec 0 (i - k)); [|by rewrite andb_false_r].
    destruct (Z.ltb_spec (i - k) 8); [|by rewrite andb_false_r].
    rewrite andb_true_r. replace i with (i - k + k) by lia.
    rewrite <- byte_bits by lia. fold b. rewrite Hb. apply Z.bits_0. }
  destruct (bitmap_at_lowest b) as ((Hn & Ht & Hl) & H8); [lia|]. fold n in Hn, Ht, Hl, H8.
  split; [|lia]. split_and!; [lia| |].
  - by rewrite <- byte_bits by lia.
  - intros i Hi. destruct (Z.lt_ge_cases i k); [apply Hlow; lia|].
    replace i with (i - k + k) by lia. rewrite <- byte_bits by lia. apply Hl. lia.
Qed.

Lemma land_byte_zero v k i : 0 <= k ->
  Z.land v (255 * 2 ^ k) = 0 -> k <= i < k + 8 -> Z.testbit v i = false.
Proof.
  intros Hk H0 Hi. replace i with (i - k + k) by lia. rewrite <- byte_bits by lia.
  by rewrite H0, Z.shiftr_0_l, Z.bits_0.
Qed.

Lemma __rt_ffs_lowest v : 0 < v < 2 ^ 32 ->
  lowest_bit v (__rt_ffs v - 1) /\ 1 <= __rt_ffs v <= 32.
Proof.
  intros Hv. unfold __rt_ffs. destruct (Z.eqb_spec v 0); [lia|].
  change 255 with (255 * 2 ^ 0). change 0xff00 with (255 * 2 ^ 8).
  change 0xff0000 with (255 * 2 ^ 16). change 0xff000000 with (255 * 2 ^ 24).
  assert (Hfin : forall k d, 0 <= k <= 24 -> d = k + 1 ->
    Z.land v (255 * 2 ^ k) <> 0 -> (forall i, 0 <= i < k -> Z.testbit v i = false) ->
    let n := bitmap_at (Z.shiftr (Z.land v (255 * 2 ^ k)) k) + d in
    lowest_bit v (n - 1) /\ 1 <= n <= 32).
  { intros k d Hk -> Hnz Hl. destruct (ffs_byte v k) as [HL H8]; [lia|done..|].
    pose proof HL as (? & _ & _). cbv zeta.
    match goal with |- lowest_bit v ?x /\ _ => replace x with
      (bitmap_at (Z.shiftr (Z.land v (255 * 2 ^ k)) k) + k) by lia end.
    split; [done|]. lia. }
  pose proof (land_byte_zero v 0) as Z0. pose proof (land_byte_zero v 8) as Z8.
  pose proof (land_byte_zero v 16) as Z16.
  unfold nz. destruct (Z.eqb_spec (Z.land v (255 * 2 ^ 0)) 0) as [E0|E0]; cbn [negb].
  2: { rewrite <- (Z.shiftr_0_r (Z.land v (255 * 2 ^ 0))). apply (Hfin 0 1); [lia|done..|intros; lia]. }
  destruct (Z.eqb_spec (Z.land v (255 * 2 ^ 8)) 0) as [E8|E8]; cbn [negb].
  2: { apply (Hfin 8 9); [lia|done..|]. intros. apply Z0; [lia|done|lia]. }
  destruct (Z.eqb_spec (Z.land v (255 * 2 ^ 16)) 0) as [E16|E16]; cbn [negb].
  2: { apply (Hfin 16 17); [lia|done..|]. intros i ?.
       destruct (Z.lt_ge_cases i 8); [apply Z0|apply Z8]; try done; lia. }
  assert (Hlow : forall i, 0 <= i < 24 -> Z.testbit v i = false).
  { intros i ?. destruct (Z.lt_ge_cases i 8); [apply Z0; [lia|done|lia]|].
    destruct (Z.lt_ge_cases i 16); [apply Z8|apply Z16]; try done; lia. }
  apply (Hfin 24 25); [lia|done| |done].
  intros E24. assert (v = 0); [|lia]. apply Z.bits_inj'. intros i Hi. rewrite Z.bits_0.
  destruct (Z.lt_ge_cases i 24); [apply Hlow; lia|].
  destruct (Z.lt_ge_cases i 32); [|apply testbit_u32_high; lia].
  apply (land_byte_zero v 24); [lia|done|lia].
Qed.

(** ** Proofs: block routines *)

Lemma st_valid m a v : is_Some (m !! a) -> st m a v = Some (<[a := v]> m).
Proof. intros [? E]. unfold st. by rewrite E. Qed.

Lemma valid_sub m a n b k : valid m a n -> a <= b -> b + k <= a + n -> valid m b k.
Proof. intros H ? ? i Hi. apply H. lia. Qed.

(** [m'] is [m] with the [n] bytes at [s] set to [d]. *)
Definition filled (m : mem) (s d n : Z) (m' : mem) : Prop :=
  forall a, m' !! a = if decide (s <= a < s + n) then Some d else m !! a.

Lemma filled_valid m s d n m' a k : filled m s d n m' -> valid m a k -> valid m' a k.
Proof. intros H Hv i Hi. rewrite (H i). case_decide; eauto. Qed.

Lemma filled_trans m s d n1 m1 n2 m2 : 0 <= n1 -> 0 <= n2 ->
  filled m s d n1 m1 -> filled m1 (s + n1) d n2 m2 -> filled m s d (n1 + n2) m2.
Proof.
  intros ?? H1 H2 a. rewrite (H2 a), (H1 a). repeat case_decide; (done || lia).
Qed.

Lemma filled_refl m s d : filled m s d 0 m.
Proof. intros a. case_decide; [lia|done]. Qed.

Lemma set_bytes_spec count m p d : valid m p (Z.of_nat count) ->
  exists m', set_bytes count m p d = Some m' /\ filled m p d (Z.of_nat count) m'.
Proof.
  revert m p. induction count as [|count IH]; intros m p Hv; cbn [set_bytes].
  { exists m. split; [done|]. apply filled_refl. }
  rewrite st_valid by (apply Hv; lia). cbn [mbind option_bind].
  assert (H1 : filled m p d 1 (<[p:=d]> m)).
  { intros a. destruct (decide (a = p)) as [->|].
    - rewrite lookup_insert_eq. case_decide; [done|lia].
    - rewrite lookup_insert_ne by done. case_decide; [lia|done]. }
  destruct (IH (<[p:=d]> m) (p + 1)) as (m' & E & Hf).
  { eapply filled_valid; [exact H1|]. eapply valid_sub; [exact Hv|lia..]. }
  exists m'. split; [done|].
  replace (Z.of_nat (S count)) with (1 + Z.of_nat count) by lia.
  by eapply filled_trans; [lia|lia|exact H1|].
Qed.

(** A word whose four bytes are [d]. *)
Definition splat (w d : Z) : Prop :=
  u8 w = d /\ u8 (w / 2 ^ 8) = d /\ u8 (w / 2 ^ 16) = d /\ u8 (w / 2 ^ 24) = d.

Lemma st32_splat m p w d : splat w d -> valid m p 4 ->
  exists m', st32 m p w = Some m' /\ filled m p d 4 m'.
Proof.
  intros (E0 & E1 & E2 & E3) Hv. unfold st32. rewrite E0, E1, E2, E3.
  assert (H4 : valid m p (Z.of_nat 4)) by done.
  destruct (set_bytes_spec 4 m p d H4) as (m' & E & Hf). exists m'. split; [|done].
  revert E. cbn [set_bytes]. replace (p + 1 + 1) with (p + 2) by lia.
  replace (p + 2 + 1) with (p + 3) by lia.
  destruct (st m p d) as [m1|]; [|done]. cbn [mbind option_bind].
  destruct (st m1 (p + 1) d) as [m2|]; [|done]. cbn [mbind option_bind].
  destruct (st m2 (p + 2) d) as [m3|]; [|done]. cbn [mbind option_bind].
  by destruct (st m3 (p + 3) d).
Qed.

Lemma memset_buffer_checked :
  forallb (fun d => let b := Z.lor (Z.shiftl d 8) d in
    let w := Z.lor b (u32 (Z.shiftl b 16)) in
    (u8 w =? d) && (u8 (w / 2 ^ 8) =? d) && (u8 (w / 2 ^ 16) =? d) && (u8 (w / 2 ^ 24) =? d))%bool
    (seqZ 0 256) = true.
Proof. vm_compute. reflexivity. Qed.

Lemma memset_buffer d : 0 <= d < 2 ^ 8 ->
  let b := Z.lor (Z.shiftl d 8) d in splat (Z.lor b (u32 (Z.shiftl b 16))) d.
Proof.
  intros Hd. pose proof memset_buffer_checked as H. rewrite forallb_forall in H.
  specialize (H d). rewrite !andb_true_iff, !Z.eqb_eq in H.
  destruct H as [[[H1 H2] H3] H4]; [apply list_elem_of_In, elem_of_seqZ; lia|].
  by split_and!.
Qed.

Lemma set_words_spec fuel m p count w d : splat w d -> 0 <= count -> (Z.to_nat count <= fuel)%nat ->
  valid m p count ->
  exists m' k, set_words fuel m p count w = Some (m', p + k, count - k) /\
    0 <= k <= count /\ filled m p d k m'.
Proof.
  intros Hw. revert m p count. induction fuel as [|fuel IH]; intros m p count H0 Hf Hv;
    cbn [set_words]; (destruct (Z.leb_spec 4 count);
    [|exists m, 0; split_and!; [f_equal; f_equal; [f_equal|]; lia|lia|lia|apply filled_refl]]); [lia|].
  destruct (st32_splat m p w d Hw) as (m1 & -> & H1); [by eapply valid_sub; [exact Hv|lia..]|].
  cbn [mbind option_bind].
  destruct (IH m1 (p + 4) (count - 4)) as (m' & k & -> & Hk & H2); [lia|lia| |].
  { eapply filled_valid; [exact H1|]. eapply valid_sub; [exact Hv|lia..]. }
  exists m', (4 + k). split_and!; [f_equal; f_equal; [f_equal|]; lia|lia|lia|].
  by eapply filled_trans; [lia|lia|exact H1|].
Qed.

Lemma set_blocks_spec fuel m p count w d : splat w d -> 0 <= count -> (Z.to_nat count <= fuel)%nat ->
  valid m p count ->
  exists m' k, set_blocks fuel m p count w = Some (m', p + k, count - k) /\
    0 <= k <= count /\ filled m p d k m'.
Proof.
  intros Hw. revert m p count. induction fuel as [|fuel IH]; intros m p count H0 Hf Hv;
    cbn [set_blocks]; (destruct (Z.leb_spec 16 count);
    [|exists m, 0; split_and!; [f_equal; f_equal; [f_equal|]; lia|lia|lia|apply filled_refl]]); [lia|].
  assert (Hstep : forall m1 i, 0 <= i <= 12 -> filled m p d i m1 ->
    exists m2, st32 m1 (p + i) w = Some m2 /\ filled m p d (i + 4) m2).
  { intros m1 i Hi H1. destruct (st32_splat m1 (p + i) w d Hw) as (m2 & E & H2).
    { eapply filled_valid; [exact H1|]. eapply valid_sub; [exact Hv|lia..]. }
    exists m2. split; [done|]. by eapply filled_trans; [lia|lia|exact H1|]. }
  destruct (Hstep m 0) as (m1 & E1 & H1); [lia|apply filled_refl|]. rewrite Z.add_0_r in E1.
  destruct (Hstep m1 4) as (m2 & E2 & H2); [lia|done|].
  destruct (Hstep m2 8) as (m3 & E3 & H3); [lia|done|].
  destruct (Hstep m3 12) as (m4 & E4 & H4); [lia|done|].
  rewrite E1. cbn [mbind option_bind]. rewrite E2. cbn [mbind option_bind].
  rewrite E3. cbn [mbind option_bind]. rewrite E4. cbn [mbind option_bind].
  destruct (IH m4 (p + 16) (count - 16)) as (m' & k & -> & Hk & H5); [lia|lia| |].
  { eapply filled_valid; [exact H4|]. eapply valid_sub; [exact Hv|lia..]. }
  exists m', (16 + k). split_and!; [f_equal; f_equal; [f_equal|]; lia|lia|lia|].
  by eapply filled_trans; [lia|lia|exact H4|].
Qed.

Lemma rt_memset_spec m s c count :
  0 <= count -> valid m s count ->
  exists m', rt_memset m s c count = Some m' /\ filled m s (Z.land c 255) count m'.
Proof.
  intros Hc Hv. unfold rt_memset. set (d := Z.land c 255).
  assert (Hd : 0 <= d < 2 ^ 8).
  { unfold d. change 255 with (Z.ones 8). rewrite Z.land_ones by lia.
    apply Z.mod_pos_bound. lia. }
  pose proof (memset_buffer d Hd) as Hw. cbv zeta in Hw |- *.
  zcase.
  - edestruct set_blocks_spec as (m1 & k1 & -> & Hk1 & H1); [exact Hw|exact Hc|reflexivity|exact Hv|].
    cbn [mbind option_bind].
    edestruct (set_words_spec (Z.to_nat (count - k1)) m1 (s + k1) (count - k1)) as (m2 & k2 & -> & Hk2 & H2);
      [exact Hw|lia|reflexivity| |].
    { eapply filled_valid; [exact H1|]. eapply valid_sub; [exact Hv|lia..]. }
    cbn [mbind option_bind].
    assert (H12 : filled m s d (k1 + k2) m2) by (eapply filled_trans; [lia|lia|exact H1|done]).
    destruct (set_bytes_spec (Z.to_nat (count - k1 - k2)) m2 (s + k1 + k2) d) as (m3 & E3 & H3).
    { eapply filled_valid; [exact H12|]. eapply valid_sub; [exact Hv|lia..]. }
    exists m3. split; [exact E3|].
    replace count with (k1 + k2 + Z.of_nat (Z.to_nat (count - k1 - k2))) by lia.
    eapply filled_trans; [lia|lia|exact H12|]. by rewrite Z.add_assoc.
  - destruct (set_bytes_spec (Z.to_nat count) m s d) as (m' & E' & H'); [by rewrite Z2Nat.id|].
    exists m'. rewrite Z2Nat.id in H' by done. done.
Qed.

(** [rt_memset] succeeds on every readable range and its result is the
    bytewise fill: exactly the [count] bytes from [s] hold the low byte of [c],
    whichever of the 16-byte, word and byte loops ran. *)
Theorem rt_memset_fills m s c count :
  0 <= count -> valid m s count ->
  exists m', rt_memset m s c count = Some m' /\ filled m s (Z.land c 255) count m'.
Proof. apply rt_memset_spec. Qed.

(** [m'] is [m] with the [n] bytes at [dst] replaced by what [m] has at [src]. *)
Definition copied (m : mem) (dst src n : Z) (m' : mem) : Prop :=
  forall a, m' !! a = if decide (dst <= a < dst + n) then m !! (src + (a - dst)) else m !! a.

Lemma copied_refl m dst src : copied m dst src 0 m.
Proof. intros a. case_decide; [lia|done]. Qed.

Lemma copied_valid m dst src n m' a k :
  copied m dst src n m' -> valid m src n -> valid m a k -> valid m' a k.
Proof. intros H Hs Hv i Hi. rewrite (H i). case_decide; [apply Hs; lia|by apply Hv]. Qed.

(** One byte more. *)
Lemma copied_byte m dst src i m1 v :
  0 <= i -> copied m dst src i m1 -> m !! (src + i) = Some v ->
  copied m dst src (i + 1) (<[dst + i := v]> m1).
Proof.
  intros Hi H Hs a. destruct (decide (a = dst + i)) as [->|].
  - rewrite lookup_insert_eq. case_decide; [|lia]. by replace (src + (dst + i - dst)) with (src + i) by lia.
  - rewrite lookup_insert_ne by done. rewrite (H a). repeat case_decide; (done || lia).
Qed.

(** The byte at [src + i] has not been overwritten by a forward copy. *)
Lemma copied_ahead m dst src i m1 j n :
  copied m dst src i m1 -> 0 <= i <= j -> j < n -> (dst <= src \/ src + n <= dst) ->
  m1 !! (src + j) = m !! (src + j).
Proof. intros H ? ? ?. rewrite (H (src + j)). case_decide; [lia|done]. Qed.

Lemma copy_bytes_spec len m m1 dst src i :
  0 <= i -> copied m dst src i m1 ->
  valid m dst (i + Z.of_nat len) -> valid m src (i + Z.of_nat len) ->
  (dst <= src \/ src + (i + Z.of_nat len) <= dst) ->
  exists m', copy_bytes len m1 (dst + i) (src + i) = Some m' /\
    copied m dst src (i + Z.of_nat len) m'.
Proof.
  revert m1 i. induction len as [|len IH]; intros m1 i Hi Hc Hd Hs Ho; cbn [copy_bytes].
  { exists m1. by replace (i + Z.of_nat 0) with i by lia. }
  unfold ld. rewrite (copied_ahead m dst src i m1 i (i + Z.of_nat (S len))) by (done || lia).
  destruct (Hs (src + i)) as [v Ev]; [lia|]. rewrite Ev. cbn [mbind option_bind].
  rewrite st_valid; [|eapply (copied_valid m dst src i m1 (dst + i) 1); [done| | |lia]].
  2: { eapply valid_sub; [exact Hs|lia..]. }
  2: { eapply valid_sub; [exact Hd|lia..]. }
  cbn [mbind option_bind].
  destruct (IH (<[dst + i := v]> m1) (i + 1)) as (m' & E & Hm'); [lia|by apply copied_byte|..].
  { eapply valid_sub; [exact Hd|lia..]. }
  { eapply valid_sub; [exact Hs|lia..]. }
  { lia. }
  exists m'. replace (dst + i + 1) with (dst + (i + 1)) by lia.
  replace (src + i + 1) with (src + (i + 1)) by lia. split; [done|].
  by replace (i + Z.of_nat (S len)) with (i + 1 + Z.of_nat len) by lia.
Qed.

Lemma copy_back_spec n m m1 dst src len :
  0 <= Z.of_nat n <= len -> src < dst ->
  copied m (dst + Z.of_nat n) (src + Z.of_nat n) (len - Z.of_nat n) m1 ->
  valid m dst len -> valid m src len ->
  exists m', copy_back n m1 (dst + Z.of_nat n) (src + Z.of_nat n) = Some m' /\
    copied m dst src len m'.
Proof.
  revert m1. induction n as [|n IH]; intros m1 Hn Hlt Hc Hd Hs; cbn [copy_back].
  { exists m1. split; [done|]. by rewrite Z.sub_0_r, !Z.add_0_r in Hc. }
  replace (dst + Z.of_nat (S n) - 1) with (dst + Z.of_nat n) by lia.
  replace (src + Z.of_nat (S n) - 1) with (src + Z.of_nat n) by lia.
  unfold ld. rewrite (Hc (src + Z.of_nat n)). case_decide; [lia|].
  destruct (Hs (src + Z.of_nat n)) as [v Ev]; [lia|]. rewrite Ev. cbn [mbind option_bind].
  rewrite st_valid. 2: { rewrite (Hc (dst + Z.of_nat n)). case_decide; [lia|]. apply Hd. lia. }
  cbn [mbind option_bind]. apply IH; [lia|done| |done..].
  intros a. destruct (decide (a = dst + Z.of_nat n)) as [->|].
  - rewrite lookup_insert_eq. case_decide; [|lia]. rewrite <- Ev. f_equal. lia.
  - rewrite lookup_insert_ne by done. rewrite (Hc a).
    repeat case_decide; try (done || lia). f_equal. lia.
Qed.

(** [rt_memmove] is correct for every overlap of source and destination:
    the destination ends up with the bytes the source range had before the
    call, and nothing else changes. *)
Theorem rt_memmove_copies m dest src n :
  0 <= n -> valid m dest n -> valid m src n ->
  exists m', rt_memmove m dest src n = Some m' /\ copied m dest src n m'.
Proof.
  intros Hn Hd Hs. unfold rt_memmove.
  destruct (Z.ltb_spec src dest) as [|Hge]; [destruct (Z.ltb_spec dest (src + n))|]; cbn [andb].
  - destruct (copy_back_spec (Z.to_nat n) m m dest src n) as (m' & E & H'); [lia|done| |done..|].
    { rewrite Z2Nat.id, Z.sub_diag by lia. apply copied_refl. }
    rewrite Z2Nat.id in E by lia. eauto.
  - destruct (copy_bytes_spec (Z.to_nat n) m m dest src 0) as (m' & E & H');
      [lia|apply copied_refl|rewrite Z2Nat.id by lia; done..|lia|].
    rewrite !Z.add_0_r in E. rewrite Z2Nat.id in H' by lia. eauto.
  - destruct (copy_bytes_spec (Z.to_nat n) m m dest src 0) as (m' & E & H');
      [lia|apply copied_refl|rewrite Z2Nat.id by lia; done..|lia|].
    rewrite !Z.add_0_r in E. rewrite Z2Nat.id in H' by lia. eauto.
Qed.

(** A word copied byte for byte. *)
Lemma u8_bytes b0 b1 b2 b3 :
  0 <= b0 < 2 ^ 8 -> 0 <= b1 < 2 ^ 8 -> 0 <= b2 < 2 ^ 8 -> 0 <= b3 < 2 ^ 8 ->
  let w := b0 + b1 * 2 ^ 8 + b2 * 2 ^ 16 + b3 * 2 ^ 24 in
  u8 w = b0 /\ u8 (w / 2 ^ 8) = b1 /\ u8 (w / 2 ^ 16) = b2 /\ u8 (w / 2 ^ 24) = b3.
Proof. intros. unfold u8, w. split_and!; Z.div_mod_to_equations; lia. Qed.

Lemma copy_word_spec m m1 dst src i n :
  bytes_ok m -> 0 <= i -> i + 4 <= n -> copied m dst src i m1 ->
  valid m dst n -> valid m src n -> (dst <= src \/ src + n <= dst) ->
  exists m2, copy_word m1 (dst + i) (src + i) = Some m2 /\ copied m dst src (i + 4) m2.
Proof.
  intros Hb Hi Hn Hc Hd Hs Ho.
  assert (Hld : forall j, 0 <= j < 4 -> exists v, m1 !! (src + i + j) = Some v /\
    m !! (src + (i + j)) = Some v /\ 0 <= v < 2 ^ 8).
  { intros j Hj. destruct (Hs (src + (i + j))) as [v Ev]; [lia|]. exists v.
    split_and!; [|done|by eapply Hb..]. rewrite <- Ev, <- Z.add_assoc.
    eapply copied_ahead; [done|lia| |done]. lia. }
  destruct (Hld 0) as (v0 & L0 & S0 & R0); [lia|]. destruct (Hld 1) as (v1 & L1 & S1 & R1); [lia|].
  destruct (Hld 2) as (v2 & L2 & S2 & R2); [lia|]. destruct (Hld 3) as (v3 & L3 & S3 & R3); [lia|].
  unfold copy_word, ld32, st32, ld. rewrite Z.add_0_r in L0, S0. rewrite L0, L1, L2, L3.
  cbn [mbind option_bind]. destruct (u8_bytes v0 v1 v2 v3 R0 R1 R2 R3) as (-> & -> & -> & ->).
  assert (Hst : forall m' j v, 0 <= j < 4 -> copied m dst src (i + j) m' ->
    m !! (src + (i + j)) = Some v ->
    st m' (dst + i + j) v = Some (<[dst + i + j := v]> m') /\
    copied m dst src (i + (j + 1)) (<[dst + i + j := v]> m')).
  { intros m' j v Hj Hc' Hv. rewrite <- !Z.add_assoc, (Z.add_assoc i j 1). split.
    - apply st_valid. eapply (copied_valid m dst src (i + j) m' (dst + (i + j)) 1); [done| | |lia].
      + eapply valid_sub; [exact Hs|lia..].
      + eapply valid_sub; [exact Hd|lia..].
    - apply copied_byte; [lia|done..]. }
  destruct (Hst m1 0 v0) as [E0 C0]; [lia|by rewrite Z.add_0_r|by rewrite Z.add_0_r|].
  rewrite Z.add_0_r in E0, C0.
  destruct (Hst _ 1 v1 ltac:(lia) C0 S1) as [E1 C1].
  destruct (Hst _ 2 v2 ltac:(lia) C1 S2) as [E2 C2].
  destruct (Hst _ 3 v3 ltac:(lia) C2 S3) as [E3 C3].
  eexists. rewrite E0. cbn [mbind option_bind]. rewrite E1. cbn [mbind option_bind].
  rewrite E2. cbn [mbind option_bind]. rewrite E3. split; [reflexivity|exact C3].
Qed.

Section memcpy.
Context (m : mem) (dst src n : Z).
Context (Hb : bytes_ok m) (Hd : valid m dst n) (Hs : valid m src n)
  (Ho : dst <= src \/ src + n <= dst).

Lemma copy_words_spec fuel m1 i :
  0 <= i <= n -> (Z.to_nat (n - i) <= fuel)%nat -> copied m dst src i m1 ->
  exists m2 j, copy_words fuel m1 (dst + i) (src + i) (n - i) = Some (m2, dst + j, src + j, n - j) /\
    i <= j <= n /\ copied m dst src j m2.
Proof using Hb Hd Hs Ho.
  revert m1 i. induction fuel as [|fuel IH]; intros m1 i Hi Hf Hc; cbn [copy_words];
    (destruct (Z.leb_spec 4 (n - i)); [|exists m1, i; split_and!; [done|lia|lia|done]]); [lia|].
  destruct (copy_word_spec m m1 dst src i n) as (m2 & -> & C2); [done|lia|lia|done..|].
  cbn [mbind option_bind]. rewrite <- !Z.add_assoc, <- Z.sub_add_distr.
  destruct (IH m2 (i + 4)) as (m3 & j & -> & Hj & C3); [lia|lia|done|].
  exists m3, j. split_and!; [done|lia|lia|done].
Qed.

Lemma copy_blocks_spec fuel m1 i :
  0 <= i <= n -> (Z.to_nat (n - i) <= fuel)%nat -> copied m dst src i m1 ->
  exists m2 j, copy_blocks fuel m1 (dst + i) (src + i) (n - i) = Some (m2, dst + j, src + j, n - j) /\
    i <= j <= n /\ copied m dst src j m2.
Proof using Hb Hd Hs Ho.
  revert m1 i. induction fuel as [|fuel IH]; intros m1 i Hi Hf Hc; cbn [copy_blocks];
    (destruct (Z.leb_spec 16 (n - i)); [|exists m1, i; split_and!; [done|lia|lia|done]]); [lia|].
  destruct (copy_word_spec m m1 dst src i n) as (m2 & -> & C2); [done|lia|lia|done..|].
  cbn [mbind option_bind]. rewrite <- !Z.add_assoc.
  destruct (copy_word_spec m m2 dst src (i + 4) n) as (m3 & -> & C3); [done|lia|lia|done..|].
  cbn [mbind option_bind]. replace (i + 8) with (i + 4 + 4) by lia.
  destruct (copy_word_spec m m3 dst src (i + 4 + 4) n) as (m4 & -> & C4); [done|lia|lia|done..|].
  cbn [mbind option_bind]. replace (i + 12) with (i + 4 + 4 + 4) by lia.
  destruct (copy_word_spec m m4 dst src (i + 4 + 4 + 4) n) as (m5 & -> & C5); [done|lia|lia|done..|].
  cbn [mbind option_bind]. replace (n - i - 16) with (n - (i + 16)) by lia.
  destruct (IH m5 (i + 16)) as (m6 & j & -> & Hj & C6); [lia|lia| |].
  { by replace (i + 16) with (i + 4 + 4 + 4 + 4) by lia. }
  exists m6, j. split_and!; [done|lia|lia|done].
Qed.
End memcpy.

Lemma rt_memcpy_spec m dst src n :
  0 <= n -> bytes_ok m -> valid m dst n -> valid m src n ->
  (dst <= src \/ src + n <= dst) ->
  exists m', rt_memcpy m dst src n = Some m' /\ copied m dst src n m'.
Proof.
  intros Hn Hb Hd Hs Ho. unfold rt_memcpy. zcase.
  - destruct (copy_blocks_spec m dst src n Hb Hd Hs Ho (Z.to_nat n) m 0) as (m1 & i & E1 & Hi & C1);
      [lia|lia|apply copied_refl|].
    rewrite !Z.add_0_r, Z.sub_0_r in E1. rewrite E1. cbn [mbind option_bind].
    destruct (copy_words_spec m dst src n Hb Hd Hs Ho (Z.to_nat (n - i)) m1 i) as (m2 & j & E2 & Hj & C2);
      [lia|lia|done|].
    rewrite E2. cbn [mbind option_bind].
    assert (Hr : j + Z.of_nat (Z.to_nat (n - j)) = n) by lia.
    destruct (copy_bytes_spec (Z.to_nat (n - j)) m m2 dst src j) as (m3 & E3 & C3);
      [lia|done|rewrite Hr; done..|].
    exists m3. by rewrite Hr in C3.
  - destruct (copy_bytes_spec (Z.to_nat n) m m dst src 0) as (m' & E' & C');
      [lia|apply copied_refl|rewrite Z2Nat.id by lia; done..|].
    rewrite !Z.add_0_r in E'. rewrite Z2Nat.id in C' by lia. eauto.
Qed.

(** the word-at-a-time [rt_memcpy] is the bytewise copy whenever the
    destination starts at or below the source or the ranges do not overlap,
    for every alignment of the two pointers. *)
Theorem rt_memcpy_copies m dst src n :
  0 <= n -> bytes_ok m -> valid m dst n -> valid m src n ->
  (dst <= src \/ src + n <= dst) ->
  exists m', rt_memcpy m dst src n = Some m' /\ copied m dst src n m'.
Proof. apply rt_memcpy_spec. Qed.

(** ** Proofs: strings *)

(** The string [l], terminated, at [p]. *)
Fixpoint cstr (m : mem) (p : Z) (l : list Z) : Prop :=
  match l with
  | [] => m !! p = Some 0
  | c :: l => m !! p = Some c /\ c <> 0 /\ cstr m (p + 1) l
  end.

Lemma nz_true c : c <> 0 -> nz c = true.
Proof. intros. unfold nz. by destruct (Z.eqb_spec c 0). Qed.

Lemma rt_strlen_spec fuel m s p l :
  cstr m p l -> (length l < fuel)%nat -> rt_strlen fuel m s p = Some (p - s + Z.of_nat (length l)).
Proof.
  revert p l. induction fuel as [|fuel IH]; intros p l Hl Hf; [lia|]. cbn [rt_strlen]. unfold ld.
  destruct l as [|c l]; cbn in Hl.
  - rewrite Hl. cbn. f_equal. lia.
  - destruct Hl as (-> & Hc & Hl). cbn [mbind option_bind]. rewrite nz_true by done.
    cbn in Hf. rewrite (IH _ l) by (done || lia). cbn. f_equal. lia.
Qed.

Lemma rt_memcmp_prefix m p q a b :
  cstr m p a -> cstr m q b -> (length b <= length a)%nat ->
  exists r, rt_memcmp (length b) m p q = Some r /\ (r = 0 <-> b `prefix_of` a).
Proof.
  revert p q a. induction b as [|y b IH]; intros p q a Ha Hb Hl; cbn [length rt_memcmp].
  { exists 0. split; [done|]. split; [intros; apply prefix_nil|done]. }
  destruct a as [|x a]; cbn in Hl; [lia|]. cbn in Ha, Hb.
  destruct Ha as (Ep & Hx & Ha), Hb as (Eq & Hy & Hb). unfold ld. rewrite Ep, Eq. cbn [mbind option_bind].
  unfold nz. destruct (Z.eqb_spec (x - y) 0) as [E|E]; cbn [negb].
  - destruct (IH (p + 1) (q + 1) a Ha Hb) as (r & -> & Hr); [lia|]. exists r. split; [done|].
    rewrite Hr. assert (x = y) as -> by lia.
    split; [by apply prefix_cons|by apply prefix_cons_inv_2].
  - exists (x - y). split; [done|]. split; [done|]. intros ->%prefix_cons_inv_1. lia.
Qed.

(** The first occurrence of [b] in [a], counted from [p]; [None] when there is none. *)
Definition first_occurrence (p : Z) (a b : list Z) (r : option Z) : Prop :=
  match r with
  | Some x => exists i : nat, x = p + Z.of_nat i /\ (i <= length a)%nat /\ b `prefix_of` drop i a /\
      forall j, (j < i)%nat -> ~ b `prefix_of` drop j a
  | None => forall j, ~ b `prefix_of` drop j a
  end.

Lemma strstr_loop_spec fuel m p q a b :
  cstr m p a -> cstr m q b -> b <> [] -> (length a < fuel)%nat ->
  exists r, strstr_loop fuel m p q (Z.of_nat (length a)) (Z.of_nat (length b)) = Some r /\
    first_occurrence p a b r.
Proof.
  intros Ha Hb Hne. revert p a Ha. induction fuel as [|fuel IH]; intros p a Ha Hf; [lia|].
  cbn [strstr_loop]. destruct (Z.leb_spec (Z.of_nat (length b)) (Z.of_nat (length a))) as [Hle|Hgt].
  - rewrite Nat2Z.id. destruct (rt_memcmp_prefix m p q a b) as (r & -> & Hr); [done..|lia|].
    cbn [mbind option_bind]. unfold nz. destruct (Z.eqb_spec r 0) as [E|E]; cbn [negb].
    + exists (Some p). split; [done|]. exists 0%nat. split_and!; [lia|lia|by apply Hr|lia].
    + assert (Hnp : ~ b `prefix_of` a) by tauto.
      destruct a as [|x a]; [by destruct b; cbn in Hle; [done|lia]|]. cbn in Ha.
      destruct Ha as (_ & _ & Ha). cbn [length] in Hf |- *.
      replace (Z.of_nat (S (length a)) - 1) with (Z.of_nat (length a)) by lia.
      destruct (IH (p + 1) a Ha) as (r' & -> & Hr'); [lia|]. exists r'. split; [done|].
      destruct r' as [y|].
      * destruct Hr' as (i & -> & Hi & Hp & Hmin). exists (S i). split_and!; [lia|cbn; lia|done|].
        intros [|j] Hj; [done|]. apply Hmin. lia.
      * intros [|j]; [done|]. apply Hr'.
  - exists None. split; [done|]. intros j Hp%prefix_length. rewrite length_drop in Hp. lia.
Qed.

(** [rt_strstr] terminates on two strings and returns the address of the
    first occurrence of the second in the first, RT_NULL exactly when there is
    none (the empty string occurs at the start). *)
Theorem rt_strstr_first m s1 s2 a b fuel :
  cstr m s1 a -> cstr m s2 b -> (length a < fuel)%nat -> (length b < fuel)%nat ->
  exists r, rt_strstr fuel m s1 s2 = Some r /\ first_occurrence s1 a b r.
Proof.
  intros Ha Hb Hfa Hfb. unfold rt_strstr.
  rewrite (rt_strlen_spec fuel m s2 s2 b) by done. cbn [mbind option_bind].
  rewrite Z.sub_diag, Z.add_0_l. destruct b as [|y b]; cbn [length].
  - exists (Some s1). split; [done|]. exists 0%nat.
    split_and!; [lia|lia|apply prefix_nil|lia].
  - rewrite nz_true by lia. rewrite (rt_strlen_spec fuel m s1 s1 a) by done.
    cbn [mbind option_bind]. rewrite Z.sub_diag, Z.add_0_l.
    apply (strstr_loop_spec fuel m s1 s2 a (y :: b)); done.
Qed.

(** The truncation to [signed char] keeps the test for equality. *)
Lemma s8_zero a b : 0 <= a < 2 ^ 8 -> 0 <= b < 2 ^ 8 -> s8 (a - b) = 0 <-> a = b.
Proof. intros. unfold s8. split; intros; Z.div_mod_to_equations; lia. Qed.

Lemma rt_strncmp_loop_zero count m cs ct res :
  bytes_ok m -> valid m cs (Z.of_nat count) -> valid m ct (Z.of_nat count) -> res = 0 ->
  exists r, rt_strncmp_loop count m cs ct res = Some r /\
    (r = 0 <-> forall i : nat, (i < count)%nat ->
      (forall j : nat, (j < i)%nat -> m !! (cs + Z.of_nat j) <> Some 0) ->
      m !! (cs + Z.of_nat i) = m !! (ct + Z.of_nat i)).
Proof.
  intros Hb. revert cs ct res. induction count as [|count IH]; intros cs ct res Hc Ht Hres;
    cbn [rt_strncmp_loop].
  { exists res. split; [done|]. split; [intros _ i Hi; lia|done]. }
  destruct (Hc cs) as [a Ea]; [lia|]. destruct (Ht ct) as [b Eb]; [lia|].
  unfold ld. rewrite Ea, Eb. cbn [mbind option_bind].
  pose proof (s8_zero a b (Hb _ _ Ea) (Hb _ _ Eb)) as H8.
  unfold nz at 1. destruct (Z.eqb_spec (s8 (a - b)) 0) as [E0|E0]; cbn [negb orb].
  - apply H8 in E0 as E1. subst b. unfold nz. destruct (Z.eqb_spec a 0) as [Ez|Ez]; cbn [negb].
    + exists (s8 (a - a)). split; [done|]. split; [|done]. intros _ [|i] Hi Hno.
      * by rewrite !Z.add_0_r, Ea, Eb.
      * exfalso. apply (Hno 0%nat); [lia|]. by rewrite Z.add_0_r, Ea, Ez.
    + destruct (IH (cs + 1) (ct + 1) (s8 (a - a))) as (r & -> & Hr);
        [eapply valid_sub; [exact Hc|lia..]|eapply valid_sub; [exact Ht|lia..]|done|].
      exists r. split; [done|]. rewrite Hr. split.
      * intros HA [|i] Hi Hno; [by rewrite !Z.add_0_r, Ea, Eb|].
        replace (cs + Z.of_nat (S i)) with (cs + 1 + Z.of_nat i) by lia.
        replace (ct + Z.of_nat (S i)) with (ct + 1 + Z.of_nat i) by lia.
        apply HA; [lia|]. intros j Hj. replace (cs + 1 + Z.of_nat j) with (cs + Z.of_nat (S j)) by lia.
        apply Hno. lia.
      * intros HA i Hi Hno.
        replace (cs + 1 + Z.of_nat i) with (cs + Z.of_nat (S i)) by lia.
        replace (ct + 1 + Z.of_nat i) with (ct + Z.of_nat (S i)) by lia.
        apply HA; [lia|]. intros [|j] Hj; [rewrite Z.add_0_r, Ea; congruence|].
        replace (cs + Z.of_nat (S j)) with (cs + 1 + Z.of_nat j) by lia. apply Hno. lia.
  - exists (s8 (a - b)). split; [done|]. split; [done|]. intros HA. exfalso.
    specialize (HA 0%nat ltac:(lia)). rewrite !Z.add_0_r, Ea, Eb in HA.
    apply E0, H8. cut (Some a = Some b); [congruence|]. apply HA. intros; lia.
Qed.

(** The name comparison of the object system: [rt_strncmp] returns 0 exactly
    when the two buffers agree up to the first NUL or [count] bytes. *)
Lemma rt_strncmp_zero m cs ct count :
  bytes_ok m -> valid m cs (Z.of_nat count) -> valid m ct (Z.of_nat count) ->
  exists r, rt_strncmp m cs ct count = Some r /\
    (r = 0 <-> forall i : nat, (i < count)%nat ->
      (forall j : nat, (j < i)%nat -> m !! (cs + Z.of_nat j) <> Some 0) ->
      m !! (cs + Z.of_nat i) = m !! (ct + Z.of_nat i)).
Proof. intros. by apply rt_strncmp_loop_zero. Qed.

(** [rt_strnlen] reads one byte past the [maxlen] bytes it is allowed to look
    at: if the first [maxlen] bytes are not NUL and the byte after them is not
    readable, the call faults. *)
Lemma rt_strnlen_overreads m s maxlen fuel :
  0 <= maxlen ->
  (forall i, 0 <= i < maxlen -> exists c, m !! (s + i) = Some c /\ c <> 0) ->
  m !! (s + maxlen) = None ->
  rt_strnlen fuel m s s maxlen = None.
Proof.
  intros H0 Hno Hend.
  assert (forall k, 0 <= k <= maxlen -> rt_strnlen fuel m s (s + k) maxlen = None) as HG.
  { induction fuel as [|fuel IH]; intros k Hk; [done|]. cbn [rt_strnlen]. unfold ld.
    destruct (decide (k = maxlen)) as [->|]; [by rewrite Hend|].
    destruct (Hno k) as (c & -> & Hc); [lia|]. cbn [mbind option_bind].
    rewrite nz_true by done. destruct (Z.ltb_spec (s + k - s) maxlen); [|lia]. cbn [andb].
    replace (s + k + 1) with (s + (k + 1)) by lia. apply IH. lia. }
  rewrite <- (Z.add_0_r s) at 2. apply HG. lia.
Qed.

(** ** Examples *)

(** Sixteen bytes at 0x100: "abcabd" and "abd" with their NULs, and five more. *)
Definition demo_mem : mem :=
  list_to_map (zip (seqZ 0x100 16) [97; 98; 99; 97; 98; 100; 0; 97; 98; 100; 0; 1; 2; 3; 4; 5]).

Lemma demo_lookup i v : demo_mem !! i = Some v -> 0x100 <= i < 0x110 /\ 0 <= v < 2 ^ 8.
Proof.
  intros H. assert (HA : map_Forall (fun i v => 0x100 <= i < 0x110 /\ 0 <= v < 2 ^ 8) demo_mem) by decided. exact (HA i v H).
Qed.
Lemma demo_bytes : bytes_ok demo_mem.
Proof. intros a v H. apply (demo_lookup a v H). Qed.
Lemma demo_valid a n : 0x100 <= a -> a + n <= 0x110 -> valid demo_mem a n.
Proof.
  intros H1 H2 i Hi. assert (HA : Forall (fun i => is_Some (demo_mem !! i)) (seqZ 0x100 16)) by decided.
  rewrite Forall_forall in HA. apply HA, elem_of_seqZ. lia.
Qed.

Lemma rt_memset_fills_witness :
  exists m', rt_memset demo_mem 0x101 0x1ff 11 = Some m' /\ filled demo_mem 0x101 (Z.land 0x1ff 255) 11 m'.
Proof. apply (rt_memset_fills demo_mem 0x101 0x1ff 11); [lia|apply demo_valid; lia]. Defined.

Lemma rt_memmove_copies_witness :
  exists m', rt_memmove demo_mem 0x103 0x101 9 = Some m' /\ copied demo_mem 0x103 0x101 9 m'.
Proof. apply (rt_memmove_copies demo_mem 0x103 0x101 9); [lia|apply demo_valid; lia|apply demo_valid; lia]. Defined.

Lemma rt_memcpy_copies_witness :
  exists m', rt_memcpy demo_mem 0x100 0x108 8 = Some m' /\ copied demo_mem 0x100 0x108 8 m'.
Proof. apply (rt_memcpy_copies demo_mem 0x100 0x108 8); [lia|exact demo_bytes|apply demo_valid; lia|apply demo_valid; lia|lia]. Defined.

Lemma rt_strstr_first_witness :
  exists r, rt_strstr 8 demo_mem 0x100 0x107 = Some r /\ first_occurrence 0x100 [97; 98; 99; 97; 98; 100] [97; 98; 100] r.
Proof.
  apply (rt_strstr_first demo_mem 0x100 0x107 [97; 98; 99; 97; 98; 100] [97; 98; 100] 8); [decided|decided|cbn; lia|cbn; lia].
Defined.
