(* ===== verification/Exec.v ===== *)
(** * Stateful and fallible code

    The C functions are translated to a state monad with one kind of failure,
    [Stop], and three reasons for it: a failed [RT_ASSERT], behaviour the C
    standard leaves undefined (a dangling or null pointer, an index outside an
    array, a shift by the width), and a loop that never ends.  [wp] is the total
    correctness reading of a computation: [wp m Q s] says that [m] run in [s]
    finishes with a result and a state that satisfy [Q]. *)

From S2P Require Import Prelude.

Inductive stop := Assertion | Undefined | Diverge.

Inductive exec (S A : Type) := Done (a : A) (s : S) | Stop (why : stop).
Arguments Done {S A} _ _.
Arguments Stop {S A} _.

Definition M (S A : Type) : Type := S -> exec S A.

Definition ret {S A} (a : A) : M S A := fun s => Done a s.
Definition bind {S A B} (m : M S A) (f : A -> M S B) : M S B :=
  fun s => match m s with Done a s' => f a s' | Stop w => Stop w end.
Definition stuck {S A} (w : stop) : M S A := fun _ => Stop w.
Definition gets {S A} (f : S -> A) : M S A := fun s => Done (f s) s.
Definition modify {S} (f : S -> S) : M S unit := fun s => Done tt (f s).
Definition rt_assert {S} (b : bool) : M S unit := if b then ret tt else stuck Assertion.
(** A load through a pointer. *)
Definition deref {S A} (o : S -> option A) : M S A :=
  fun s => match o s with Some a => Done a s | None => Stop Undefined end.

Declare Scope exec_scope.
Delimit Scope exec_scope with exec.
Notation "x <- m ;; f" := (bind m (fun x => f))
  (at level 100, m at next level, right associativity) : exec_scope.
Notation "m ;;; f" := (bind m (fun _ => f)) (at level 100, right associativity) : exec_scope.
#[global] Open Scope exec_scope.

(** [if (b) m] without an else branch. *)
Definition when {S} (b : bool) (m : M S unit) : M S unit := if b then m else ret tt.

(** Run a computation of a part of the state. *)
Definition zoom {S T A} (get : S -> T) (put : T -> S -> S) (m : M T A) : M S A :=
  fun s => match m (get s) with Done a t => Done a (put t s) | Stop w => Stop w end.

(** ** Total correctness *)

Definition wp {S A} (m : M S A) (Q : A -> S -> Prop) (s : S) : Prop :=
  match m s with Done a s' => Q a s' | Stop _ => False end.

Section wp.
Context {S : Type}.

Lemma wp_ret {A} (a : A) Q (s : S) : Q a s -> wp (ret a) Q s.
Proof. done. Qed.

Lemma wp_bind {A B} (m : M S A) (f : A -> M S B) Q s :
  wp m (fun a s' => wp (f a) Q s') s -> wp (bind m f) Q s.
Proof. unfold wp, bind. by destruct (m s). Qed.

Lemma wp_mono {A} (m : M S A) (Q Q' : A -> S -> Prop) s :
  wp m Q s -> (forall a s', Q a s' -> Q' a s') -> wp m Q' s.
Proof. unfold wp. destruct (m s); eauto. Qed.

Lemma wp_done {A} (m : M S A) Q s a s' : m s = Done a s' -> Q a s' -> wp m Q s.
Proof. intros E ?. unfold wp. by rewrite E. Qed.

Lemma wp_inv {A} (m : M S A) Q s : wp m Q s -> exists a s', m s = Done a s' /\ Q a s'.
Proof. unfold wp. destruct (m s); [eauto|done]. Qed.

Lemma bind_done {A B} (m : M S A) (f : A -> M S B) s a s' :
  m s = Done a s' -> bind m f s = f a s'.
Proof. intros E. unfold bind. by rewrite E. Qed.

Lemma bind_inv {A B} (m : M S A) (f : A -> M S B) s c s' : bind m f s = Done c s' ->
  exists a s1, m s = Done a s1 /\ f a s1 = Done c s'.
Proof. unfold bind. destruct (m s) as [a s1|]; [|done]. by exists a, s1. Qed.

Lemma bind_assoc {A B C} (m : M S A) (f : A -> M S B) (g : B -> M S C) s :
  bind (bind m f) g s = bind m (fun a => bind (f a) g) s.
Proof. unfold bind. by destruct (m s). Qed.

Lemma bind_ext {A B} (m : M S A) (f g : A -> M S B) s :
  (forall a s', f a s' = g a s') -> bind m f s = bind m g s.
Proof. intros H. unfold bind. by destruct (m s). Qed.

Lemma assert_true b (s : S) : b = true -> rt_assert b s = Done tt s.
Proof. by intros ->. Qed.

Lemma deref_some {A} (o : S -> option A) s a : o s = Some a -> deref o s = Done a s.
Proof. intros E. unfold deref. by rewrite E. Qed.
End wp.

(** [rewrite (after E)] runs a command whose effect is [E : m s = Done a s']. *)
Abbreviation after E := (bind_done _ _ _ _ _ E) (only parsing).

(** Run the next command of a sequence whose effect is known: [step E] rewrites
    with [E : m s = Done a s'], the other forms handle the basic commands. *)
Ltac mstep :=
  match goal with
  | |- context [bind (ret ?a) ?f ?s] => change (bind (ret a) f s) with (f a s)
  | |- context [bind (gets ?g) ?f ?s] => change (bind (gets g) f s) with (f (g s) s)
  | |- context [bind (modify ?g) ?f ?s] => change (bind (modify g) f s) with (f tt (g s))
  | |- context [bind (bind ?m ?f) ?g ?s] => rewrite (bind_assoc m f g s)
  | H : ?m ?s = Done ?a ?s' |- context [bind ?m ?f ?s] => rewrite (bind_done m f s a s' H)
  end; cbv beta.
Ltac msteps := repeat mstep.
