(* ===== verification/Mem.v ===== *)
(** * The system heap (src/mem.c)

    The allocator keeps the heap as a doubly linked chain of blocks, each with a
    12-byte header [struct heap_mem] that holds the offsets of its neighbours.
    The model keeps the headers in a map from offsets to records and the bytes
    of the payloads in a byte memory; pointers to [struct heap_mem] are offsets
    from [heap_ptr], what [rt_malloc] returns is an address.  Merging two blocks
    leaves the stale header where it is, as the code does.  The semaphore
    [heap_sem] is always free between calls and is left out.

    [heap_inv h bs] says that the headers of [h] are the chain of the block
    list [bs]: a tiling of the heap by aligned blocks in which no two adjacent
    blocks are free.  The theorems at the end state what [rt_malloc], [rt_free],
    [rt_calloc] and [rt_realloc] do to the block list. *)

From S2P Require Import Prelude Exec KService.

(** ** Data *)

Definition HEAP_MAGIC : Z := 0x1ea0.
Definition MIN_SIZE : Z := 12.
Definition MIN_SIZE_ALIGNED : Z := 12.
Definition SIZEOF_STRUCT_MEM : Z := 12.

Record heap_mem := HeapMem { magic : Z; used : Z; mnext : Z; mprev : Z }.

Record heap := Heap {
  heap_ptr : Z;
  heap_end : Z;
  lfree : Z;
  mem_size_aligned : Z;
  used_mem : Z;
  max_mem : Z;
  items : gmap Z heap_mem;
  data : mem
}.

Definition set_used (v : Z) (i : heap_mem) := HeapMem (magic i) v (mnext i) (mprev i).
Definition set_magic (v : Z) (i : heap_mem) := HeapMem v (used i) (mnext i) (mprev i).
Definition set_mnext (v : Z) (i : heap_mem) := HeapMem (magic i) (used i) v (mprev i).
Definition set_mprev (v : Z) (i : heap_mem) := HeapMem (magic i) (used i) (mnext i) v.

Definition set_lfree (p : Z) (h : heap) : heap :=
  Heap (heap_ptr h) (heap_end h) p (mem_size_aligned h) (used_mem h) (max_mem h) (items h) (data h).
Definition set_items (f : gmap Z heap_mem -> gmap Z heap_mem) (h : heap) : heap :=
  Heap (heap_ptr h) (heap_end h) (lfree h) (mem_size_aligned h) (used_mem h) (max_mem h)
    (f (items h)) (data h).
Definition set_data (d : mem) (h : heap) : heap :=
  Heap (heap_ptr h) (heap_end h) (lfree h) (mem_size_aligned h) (used_mem h) (max_mem h)
    (items h) d.

(** [used_mem += n; if (max_mem < used_mem) max_mem = used_mem;] *)
Definition add_used (n : Z) (h : heap) : heap :=
  let u := u32 (used_mem h + n) in
  Heap (heap_ptr h) (heap_end h) (lfree h) (mem_size_aligned h) u
    (if max_mem h <? u then u else max_mem h) (items h) (data h).
(** [used_mem -= n;] *)
Definition sub_used (n : Z) (h : heap) : heap :=
  Heap (heap_ptr h) (heap_end h) (lfree h) (mem_size_aligned h) (u32 (used_mem h - n))
    (max_mem h) (items h) (data h).

(** The header at an offset, and an assignment to one of its fields. *)
Definition item (p : Z) : M heap heap_mem := deref (fun h => items h !! p).
Definition upd (p : Z) (f : heap_mem -> heap_mem) : M heap unit :=
  i <- item p;; modify (set_items (<[p := f i]>)).

(** ** Operations *)

(** [plug_holes] merges a free block with a free successor ... *)
Definition plug_forward (mem : Z) : M heap unit :=
  he <- gets heap_end;; m <- item mem;;
  let nmem := mnext m in
  if mem =? nmem then ret tt else
  n <- item nmem;;
  when ((used n =? 0) && negb (nmem =? he))%bool
    (lf <- gets lfree;;
     when (lf =? nmem) (modify (set_lfree mem));;;
     upd mem (set_mnext (mnext n));;;
     upd (mnext n) (set_mprev mem)).

(** ... and with a free predecessor. *)
Definition plug_backward (mem : Z) : M heap unit :=
  m <- item mem;;
  let pmem := mprev m in
  if pmem =? mem then ret tt else
  p <- item pmem;;
  when (used p =? 0)
    (lf <- gets lfree;;
     when (lf =? mem) (modify (set_lfree pmem));;;
     upd pmem (set_mnext (mnext m));;;
     upd (mnext m) (set_mprev pmem)).

Definition plug_holes (mem : Z) : M heap unit :=
  he <- gets heap_end;;
  rt_assert (0 <=? mem);;;
  rt_assert (mem <? he);;;
  m <- item mem;;
  rt_assert (used m =? 0);;;
  plug_forward mem;;;
  plug_backward mem.

Definition rt_system_heap_init (begin_addr end_addr : Z) : M heap unit :=
  let begin_align := RT_ALIGN begin_addr RT_ALIGN_SIZE in
  let end_align := RT_ALIGN_DOWN end_addr RT_ALIGN_SIZE in
  if ((2 * SIZEOF_STRUCT_MEM <? end_align) &&
      (begin_align <=? end_align - 2 * SIZEOF_STRUCT_MEM))%bool then
    let size := end_align - begin_align - 2 * SIZEOF_STRUCT_MEM in
    let e := size + SIZEOF_STRUCT_MEM in
    modify (fun h => Heap begin_align e 0 size (used_mem h) (max_mem h)
      (<[e := HeapMem HEAP_MAGIC 1 e e]> (<[0 := HeapMem HEAP_MAGIC 0 e 0]> (items h)))
      (data h))
  else ret tt.

(** [while (lfree->used && lfree != heap_end) lfree = &heap_ptr[lfree->next];] *)
Fixpoint next_free (fuel : nat) : M heap unit :=
  match fuel with
  | O => stuck Diverge
  | S fuel =>
      lf <- gets lfree;; he <- gets heap_end;; i <- item lf;;
      if (nz (used i) && negb (lf =? he))%bool then
        modify (set_lfree (mnext i));;; next_free fuel
      else ret tt
  end.

(** The body of the search loop once a block that fits is found: the block is
    split or taken whole, ... *)
Definition malloc_mark (ptr size : Z) : M heap unit :=
  msa <- gets mem_size_aligned;;
  mem <- item ptr;;
  (if size + SIZEOF_STRUCT_MEM + MIN_SIZE_ALIGNED <=? u32 (mnext mem - (ptr + SIZEOF_STRUCT_MEM)) then
     let ptr2 := u32 (ptr + SIZEOF_STRUCT_MEM + size) in
     modify (set_items (<[ptr2 := HeapMem HEAP_MAGIC 0 (mnext mem) ptr]>));;;
     upd ptr (fun i => set_used 1 (set_mnext ptr2 i));;;
     when (negb (mnext mem =? msa + SIZEOF_STRUCT_MEM)) (upd (mnext mem) (set_mprev ptr2));;;
     modify (add_used (size + SIZEOF_STRUCT_MEM))
   else
     upd ptr (set_used 1);;;
     modify (add_used (u32 (mnext mem - ptr))));;;
  upd ptr (set_magic HEAP_MAGIC).

(** ... and [lfree] moves to the next free block if this was the lowest. *)
Definition malloc_take (ptr size : Z) : M heap Z :=
  malloc_mark ptr size;;;
  lf <- gets lfree;;
  when (ptr =? lf)
    (n <- gets (fun h => base.size (items h));; next_free n;;;
     lf <- gets lfree;; he <- gets heap_end;; i <- item lf;;
     rt_assert ((lf =? he) || negb (nz (used i)))%bool);;;
  hp <- gets heap_ptr;; he <- gets heap_end;;
  rt_assert (hp + ptr + SIZEOF_STRUCT_MEM + size <=? hp + he);;;
  rt_assert ((hp + ptr + SIZEOF_STRUCT_MEM) mod RT_ALIGN_SIZE =? 0);;;
  rt_assert (Z.land (hp + ptr) (RT_ALIGN_SIZE - 1) =? 0);;;
  ret (hp + ptr + SIZEOF_STRUCT_MEM).

Fixpoint malloc_loop (fuel : nat) (ptr size : Z) : M heap Z :=
  msa <- gets mem_size_aligned;;
  if ptr <? u32 (msa - size) then
    match fuel with
    | O => stuck Diverge
    | S fuel =>
        mem <- item ptr;;
        if (negb (nz (used mem)) && (size <=? u32 (mnext mem - (ptr + SIZEOF_STRUCT_MEM))))%bool
        then malloc_take ptr size
        else malloc_loop fuel (mnext mem) size
    end
  else ret 0.

(** The request rounded to the alignment and to the smallest block. *)
Definition malloc_size (size : Z) : Z :=
  let size := RT_ALIGN size RT_ALIGN_SIZE in
  if size <? MIN_SIZE_ALIGNED then MIN_SIZE_ALIGNED else size.

Definition rt_malloc (size : Z) : M heap Z :=
  msa <- gets mem_size_aligned;;
  if size =? 0 then ret 0
  else if msa <? RT_ALIGN size RT_ALIGN_SIZE then ret 0
  else
    lf <- gets lfree;; n <- gets (fun h => base.size (items h));;
    malloc_loop n lf (malloc_size size).

Definition rt_free (rmem : Z) : M heap unit :=
  if rmem =? 0 then ret tt else
  hp <- gets heap_ptr;; he <- gets heap_end;;
  rt_assert (Z.land rmem (RT_ALIGN_SIZE - 1) =? 0);;;
  rt_assert ((hp <=? rmem) && (rmem <? hp + he))%bool;;;
  let mem := rmem - SIZEOF_STRUCT_MEM - hp in
  m <- item mem;;
  rt_assert (nz (used m));;;
  rt_assert (magic m =? HEAP_MAGIC);;;
  upd mem (set_used 0);;;
  upd mem (set_magic HEAP_MAGIC);;;
  lf <- gets lfree;;
  when (mem <? lf) (modify (set_lfree mem));;;
  modify (sub_used (u32 (mnext m - mem)));;;
  plug_holes mem.

(** [rt_memset(p, 0, n)] and [rt_memcpy(dst, src, n)] on payload bytes. *)
Definition heap_memset (p c n : Z) : M heap unit :=
  fun h => match rt_memset (data h) p c n with
           | Some d => Done tt (set_data d h)
           | None => Stop Undefined
           end.
Definition heap_memcpy (dst src n : Z) : M heap unit :=
  fun h => match rt_memcpy (data h) dst src n with
           | Some d => Done tt (set_data d h)
           | None => Stop Undefined
           end.

Definition rt_calloc (count size : Z) : M heap Z :=
  p <- rt_malloc (u32 (count * size));;
  when (nz p) (heap_memset p 0 (u32 (count * size)));;;
  ret p.

Definition rt_realloc (rmem newsize : Z) : M heap Z :=
  let newsize := RT_ALIGN newsize RT_ALIGN_SIZE in
  msa <- gets mem_size_aligned;;
  if msa <? newsize then ret 0
  else if newsize =? 0 then rt_free rmem;;; ret 0
  else if rmem =? 0 then rt_malloc newsize
  else
    hp <- gets heap_ptr;; he <- gets heap_end;;
    if ((rmem <? hp) || (hp + he <=? rmem))%bool then ret rmem
    else
      let ptr := rmem - SIZEOF_STRUCT_MEM - hp in
      mem <- item ptr;;
      let size := u32 (mnext mem - ptr - SIZEOF_STRUCT_MEM) in
      if size =? newsize then ret rmem
      else if newsize + SIZEOF_STRUCT_MEM + MIN_SIZE <? size then
        modify (sub_used (size - newsize));;;
        let ptr2 := ptr + SIZEOF_STRUCT_MEM + newsize in
        modify (set_items (<[ptr2 := HeapMem HEAP_MAGIC 0 (mnext mem) ptr]>));;;
        upd ptr (set_mnext ptr2);;;
        when (negb (mnext mem =? msa + SIZEOF_STRUCT_MEM)) (upd (mnext mem) (set_mprev ptr2));;;
        plug_holes ptr2;;;
        ret rmem
      else
        nmem <- rt_malloc newsize;;
        when (nz nmem)
          (heap_memcpy nmem rmem (if size <? newsize then size else newsize);;; rt_free rmem);;;
        ret nmem.

(** The three results of [rt_memory_info]. *)
Definition rt_memory_info (h : heap) : Z * Z * Z := (mem_size_aligned h, used_mem h, max_mem h).

(** ** The block list *)

(** A block: its length, header included, and whether it is in use. *)
Notation blk := (Z * bool)%type.

Fixpoint total (bs : list blk) : Z :=
  match bs with [] => 0 | (n, _) :: bs => n + total bs end.
Fixpoint used_total (bs : list blk) : Z :=
  match bs with [] => 0 | (n, u) :: bs => (if (u : bool) then n else 0) + used_total bs end.

(** Where the blocks of a list that begins at [p] start; [offs] has the end too. *)
Fixpoint offs (p : Z) (bs : list blk) : list Z :=
  p :: match bs with [] => [] | (n, _) :: bs => offs (p + n) bs end.
Fixpoint first_free (p : Z) (bs : list blk) : Z :=
  match bs with
  | [] => p
  | (n, u) :: bs => if (u : bool) then first_free (p + n) bs else p
  end.
(** The start of the last block, [pv] when there is none. *)
Fixpoint lastp (pv p : Z) (bs : list blk) : Z :=
  match bs with [] => pv | (n, _) :: bs => lastp p (p + n) bs end.

Definition blk_ok (b : blk) : Prop := 16 <= fst b /\ fst b mod 4 = 0.

(** No two adjacent free blocks. *)
Fixpoint coalesced (bs : list blk) : Prop :=
  match bs with
  | (_, u) :: ((_, v) :: _) as bs' => (u || v = true)%bool /\ coalesced bs'
  | _ => True
  end.

Fixpoint chain (it : gmap Z heap_mem) (pv p : Z) (bs : list blk) : Prop :=
  match bs with
  | [] => True
  | (n, u) :: bs =>
      it !! p = Some (HeapMem HEAP_MAGIC (if (u : bool) then 1 else 0) (p + n) pv) /\
      chain it p (p + n) bs
  end.

Definition end_ok (it : gmap Z heap_mem) (e : Z) : Prop :=
  exists pv, it !! e = Some (HeapMem HEAP_MAGIC 1 e pv).

(** The headers from [p] to the end [e] of the heap are those of [bs]. *)
Definition tail_ok it pv p bs e : Prop := chain it pv p bs /\ p + total bs = e /\ end_ok it e.

Record heap_inv (h : heap) (bs : list blk) : Prop := HeapInv {
  hi_ptr : 0 < heap_ptr h /\ heap_ptr h mod 4 = 0 /\ heap_ptr h + heap_end h + 12 <= 2 ^ 32;
  hi_end : heap_end h = mem_size_aligned h + 12 /\ 12 <= mem_size_aligned h;
  hi_tail : tail_ok (items h) 0 0 bs (heap_end h);
  hi_blk : Forall blk_ok bs;
  hi_coal : coalesced bs;
  hi_lfree : lfree h ∈ offs 0 bs;
  hi_used : used_mem h = used_total bs
}.

(** [lfree] is the lowest free block, or the end when every block is used. *)
Definition lowest (h : heap) (bs : list blk) : Prop := lfree h = first_free 0 bs.

(** First fit: the offset of the block taken and the new block list. *)
Definition split_block (n s : Z) : list blk :=
  if s + 36 <=? n then [(s + 12, true); (n - s - 12, false)] else [(n, true)].

Fixpoint first_fit (limit s p : Z) (bs : list blk) : option (Z * list blk) :=
  match bs with
  | [] => None
  | (n, u) :: bs =>
      if p <? limit then
        if (negb u && (s + 12 <=? n))%bool then Some (p, split_block n s ++ bs)
        else '(q, bs') ← first_fit limit s (p + n) bs; Some (q, (n, u) :: bs')
      else None
  end.

(** Freeing the block between [b1] and [b2]: it absorbs its free neighbours. *)
Definition join_next (n : Z) (b2 : list blk) : Z * list blk :=
  match b2 with (m, false) :: b2' => (n + m, b2') | _ => (n, b2) end.
Definition plug (b1 : list blk) (n : Z) (b2 : list blk) : list blk :=
  let '(n', b2') := join_next n b2 in
  match reverse b1 with
  | (l, false) :: r => reverse r ++ (l + n', false) :: b2'
  | _ => b1 ++ (n', false) :: b2'
  end.

(** ** Lemmas on block lists *)

Lemma total_app b1 b2 : total (b1 ++ b2) = total b1 + total b2.
Proof. induction b1 as [|[n u] b1 IH]; cbn; lia. Qed.

Lemma used_total_app b1 b2 : used_total (b1 ++ b2) = used_total b1 + used_total b2.
Proof. induction b1 as [|[n u] b1 IH]; cbn; lia. Qed.

Lemma total_nonneg bs : Forall blk_ok bs -> 0 <= total bs.
Proof. induction 1 as [|[n u] bs [? ?] _ IH]; cbn in *; lia. Qed.

Lemma total_mod4 bs : Forall blk_ok bs -> total bs mod 4 = 0.
Proof.
  induction 1 as [|[n u] bs [_ Hn] _ IH]; [done|]. cbn in Hn |- *.
  Z.div_mod_to_equations. lia.
Qed.

Lemma used_total_bounds bs : Forall blk_ok bs -> 0 <= used_total bs <= total bs.
Proof. induction 1 as [|[n u] bs [? ?] _ IH]; cbn in *; [lia|]. destruct u; lia. Qed.

Lemma lastp_snoc pv p r n u : lastp pv p (r ++ [(n, u)]) = p + total r.
Proof. revert pv p. induction r as [|[k v] r IH]; intros; cbn; [lia|]. rewrite IH. lia. Qed.

Lemma elem_of_offs_app x p b1 b2 :
  x ∈ offs p (b1 ++ b2) <-> x ∈ offs p b1 \/ x ∈ offs (p + total b1) b2.
Proof.
  revert p. induction b1 as [|[n u] b1 IH]; intros p; cbn [offs total app].
  - rewrite Z.add_0_r, list_elem_of_singleton. destruct b2 as [|[m v] b2]; cbn [offs]; set_solver.
  - rewrite !elem_of_cons, IH, Z.add_assoc. tauto.
Qed.

Lemma offs_head p bs : p ∈ offs p bs.
Proof. destruct bs as [|[n u] bs]; cbn; set_solver. Qed.

Lemma offs_split p bs x : x ∈ offs p bs -> exists b1 b2, bs = b1 ++ b2 /\ x = p + total b1.
Proof.
  revert p. induction bs as [|[n u] bs IH]; intros p Hx; cbn in Hx.
  - apply list_elem_of_singleton in Hx as ->. exists [], []. cbn. split; [done|lia].
  - apply elem_of_cons in Hx as [->|Hx]; [exists [], ((n, u) :: bs); cbn; split; [done|lia]|].
    destruct (IH _ Hx) as (b1 & b2 & -> & ->). exists ((n, u) :: b1), b2. cbn. split; [done|lia].
Qed.

Lemma offs_ge p bs x : Forall blk_ok bs -> x ∈ offs p bs -> p <= x <= p + total bs.
Proof.
  intros Hok (b1 & b2 & -> & ->)%offs_split. apply Forall_app in Hok as [H1 H2].
  rewrite total_app. apply total_nonneg in H1, H2. lia.
Qed.

(** Blocks below [p] have no start in common with blocks from [p] on. *)
Lemma first_free_app p b1 b2 :
  first_free p (b1 ++ b2) =
  if forallb snd b1 then first_free (p + total b1) b2 else first_free p b1.
Proof.
  revert p. induction b1 as [|[n u] b1 IH]; intros p; cbn [app first_free forallb total snd].
  - f_equal. lia.
  - destruct u; [|done]. cbn. rewrite IH. destruct (forallb snd b1); f_equal; lia.
Qed.

Lemma first_free_bounds p bs : Forall blk_ok bs -> p <= first_free p bs <= p + total bs.
Proof.
  intros H. revert p. induction H as [|[n u] bs [Hn _] Hbs IH]; intros p; cbn in *; [lia|].
  specialize (IH (p + n)). apply total_nonneg in Hbs. destruct u; lia.
Qed.

Lemma first_free_not_all p bs :
  Forall blk_ok bs -> forallb snd bs = false -> p <= first_free p bs < p + total bs.
Proof.
  intros H. revert p. induction H as [|[n u] bs [Hn _] Hbs IH]; intros p; cbn in *; [done|].
  apply total_nonneg in Hbs. destruct u; cbn; [intros; specialize (IH (p + n) ltac:(done)); lia|lia].
Qed.

Lemma coalesced_app b1 b2 :
  coalesced (b1 ++ b2) -> coalesced b1 /\ coalesced b2.
Proof.
  induction b1 as [|[n u] b1 IH]; [done|]. cbn. destruct b1 as [|[m v] b1]; cbn in *.
  - destruct b2 as [|[m v] b2]; tauto.
  - tauto.
Qed.

(** The blocks on both sides of a free block are in use. *)
Definition sep (b1 b2 : list blk) : Prop :=
  match last b1, head b2 with
  | Some (_, u), Some (_, v) => (u || v)%bool = true
  | _, _ => True
  end.

Lemma coalesced_app_iff b1 b2 :
  coalesced (b1 ++ b2) <-> coalesced b1 /\ coalesced b2 /\ sep b1 b2.
Proof.
  unfold sep. induction b1 as [|[n u] b1 IH]; [cbn; tauto|].
  destruct b1 as [|[m v] b1].
  - cbn. destruct b2 as [|[m v] b2]; cbn; tauto.
  - cbn in *. rewrite IH. tauto.
Qed.

(** ** Lemmas on chains *)

Lemma chain_app it pv p b1 b2 :
  chain it pv p (b1 ++ b2) <->
  chain it pv p b1 /\ chain it (lastp pv p b1) (p + total b1) b2.
Proof.
  revert pv p. induction b1 as [|[n u] b1 IH]; intros pv p; cbn [chain app lastp total].
  - rewrite Z.add_0_r. tauto.
  - rewrite IH, Z.add_assoc. tauto.
Qed.

Lemma chain_frame it it' pv p bs : Forall blk_ok bs -> chain it pv p bs ->
  (forall q, p <= q < p + total bs -> it' !! q = it !! q) -> chain it' pv p bs.
Proof.
  intros Hok. revert pv p. induction Hok as [|[n u] bs [Hn _] Hbs IH]; intros pv p Hc HF; [done|].
  cbn in Hc, HF, Hn |- *. destruct Hc as [H1 H2]. apply total_nonneg in Hbs as ?. split.
  - rewrite HF by lia. done.
  - apply IH; [done|]. intros q Hq. apply HF. lia.
Qed.

Lemma chain_lookup it pv p bs q : chain it pv p bs -> q ∈ offs p bs -> q <> p + total bs ->
  is_Some (it !! q).
Proof.
  revert pv p. induction bs as [|[n u] bs IH]; intros pv p Hc Hq Hne; cbn in *.
  - apply list_elem_of_singleton in Hq. lia.
  - destruct Hc as [Hp Hc]. apply elem_of_cons in Hq as [->|Hq]; [eauto|].
    eapply IH; [done..|]. lia.
Qed.

Lemma offs_length p bs : length (offs p bs) = S (length bs).
Proof. revert p. induction bs as [|[n u] bs IH]; intros p; cbn; [done|]. by rewrite IH. Qed.

Lemma offs_NoDup p bs : Forall blk_ok bs -> NoDup (offs p bs).
Proof.
  intros H. revert p. induction H as [|[n u] bs [Hn _] Hbs IH]; intros p; cbn.
  - apply NoDup_singleton.
  - apply NoDup_cons. split; [|done]. intros Hin. apply offs_ge in Hin; [cbn in Hn; lia|done].
Qed.

(** The number of headers bounds the length of the chain: the loops have fuel. *)
Lemma tail_fuel it pv p bs e : Forall blk_ok bs -> tail_ok it pv p bs e ->
  (S (length bs) <= base.size it)%nat.
Proof.
  intros Hok (Hc & He & Hend). rewrite <- (offs_length p), <- size_dom.
  rewrite <- (size_list_to_set (C := gset Z) (offs p bs)) by (by apply offs_NoDup).
  apply subseteq_size. intros q Hq%elem_of_list_to_set. apply elem_of_dom.
  destruct (decide (q = p + total bs)) as [->|]; [|by eapply chain_lookup].
  destruct Hend as [? Hend]. rewrite He. eauto.
Qed.

(** The header behind a block exists, and changing its [prev] moves the tail
    to another predecessor. *)
Lemma tail_reprev it pv q bs e : Forall blk_ok bs -> tail_ok it pv q bs e ->
  exists i, it !! q = Some i /\ forall it' pv',
    it' !! q = Some (set_mprev pv' i) -> (forall r, q < r <= e -> it' !! r = it !! r) ->
    tail_ok it' pv' q bs e.
Proof.
  intros Hok (Hc & He & [pe Hend]). destruct bs as [|[n u] bs]; cbn in Hc, He.
  - assert (q = e) as -> by lia. exists (HeapMem HEAP_MAGIC 1 e pe). split; [done|].
    intros it' pv' H' _. split_and!; [done|cbn; lia|by eexists].
  - destruct Hc as [Hq Hc]. eexists. split; [exact Hq|]. intros it' pv' H' HF.
    apply Forall_cons in Hok as [[Hn _] Hok]. cbn in Hn. apply total_nonneg in Hok as ?.
    split_and!; [cbn; split; [done|]|cbn; lia|].
    + eapply chain_frame; [done|done|]. intros r Hr. apply HF. lia.
    + exists pe. rewrite HF by lia. done.
Qed.

Lemma tail_frame it it' pv q bs e : Forall blk_ok bs -> tail_ok it pv q bs e ->
  (forall r, q <= r <= e -> it' !! r = it !! r) -> tail_ok it' pv q bs e.
Proof.
  intros Hok (Hc & He & [pe Hend]) HF. apply total_nonneg in Hok as ?. split_and!; [|done|].
  - eapply chain_frame; [done|done|]. intros r Hr. apply HF. lia.
  - exists pe. rewrite HF by lia. done.
Qed.

Lemma tail_app it pv p b1 b2 e :
  tail_ok it pv p (b1 ++ b2) e <->
  chain it pv p b1 /\ tail_ok it (lastp pv p b1) (p + total b1) b2 e.
Proof. unfold tail_ok. rewrite chain_app, total_app, Z.add_assoc. tauto. Qed.

Lemma tail_cons it pv p n u bs e :
  tail_ok it pv p ((n, u) :: bs) e <->
  it !! p = Some (HeapMem HEAP_MAGIC (if u then 1 else 0) (p + n) pv) /\
  tail_ok it p (p + n) bs e.
Proof. unfold tail_ok. cbn. rewrite Z.add_assoc. tauto. Qed.

(** ** Merging free neighbours *)

(** Only the headers and [lfree] differ. *)
Definition relinked (h h' : heap) : Prop :=
  heap_ptr h' = heap_ptr h /\ heap_end h' = heap_end h /\
  mem_size_aligned h' = mem_size_aligned h /\ used_mem h' = used_mem h /\
  max_mem h' = max_mem h /\ data h' = data h.

Lemma relinked_refl h : relinked h h.
Proof. by repeat split. Qed.

Lemma relinked_trans h1 h2 h3 : relinked h1 h2 -> relinked h2 h3 -> relinked h1 h3.
Proof. unfold relinked. intuition congruence. Qed.

Lemma item_done p h i : items h !! p = Some i -> item p h = Done i h.
Proof. intros E. unfold item. by apply deref_some. Qed.

Lemma upd_done p f h i : items h !! p = Some i ->
  upd p f h = Done tt (set_items (<[p := f i]>) h).
Proof. intros E. unfold upd. by rewrite (after (item_done p h i E)). Qed.

Lemma first_free_free p b1 n b2 m b3 :
  first_free p (b1 ++ (n, false) :: b2) = first_free p (b1 ++ (m, false) :: b3).
Proof. rewrite !first_free_app. by destruct (forallb snd b1). Qed.

Lemma first_free_le p b1 n b2 : Forall blk_ok b1 -> first_free p (b1 ++ (n, false) :: b2) <= p + total b1.
Proof.
  intros H. rewrite first_free_app. destruct (forallb snd b1); cbn; [lia|].
  by apply first_free_bounds.
Qed.

Definition merge_lfree (lf gone into : Z) : Z := if lf =? gone then into else lf.

(** The effect of a merge on the chain, shared by both directions. *)
Lemma merge_chain it b1 n m b2 e :
  let P := total b1 in
  Forall blk_ok (b1 ++ (n, false) :: (m, false) :: b2) ->
  tail_ok it 0 0 (b1 ++ (n, false) :: (m, false) :: b2) e ->
  exists pv i, it !! P = Some (HeapMem HEAP_MAGIC 0 (P + n) pv) /\
    it !! (P + n) = Some (HeapMem HEAP_MAGIC 0 (P + n + m) P) /\
    it !! (P + n + m) = Some i /\
    (pv = P <-> b1 = []) /\
    tail_ok (<[P + n + m := set_mprev P i]> (<[P := HeapMem HEAP_MAGIC 0 (P + n + m) pv]> it))
      0 0 (b1 ++ (n + m, false) :: b2) e.
Proof.
  intros P Hok HT. apply Forall_app in Hok as [H1 H2].
  apply Forall_cons in H2 as [[Hn _] H2]. apply Forall_cons in H2 as [[Hm _] H2]. cbn in Hn, Hm.
  apply tail_app in HT as [HC HT]. rewrite Z.add_0_l in HT. fold P in HT.
  apply tail_cons in HT as [EP HT]. apply tail_cons in HT as [EN HT].
  destruct (tail_reprev _ _ _ _ _ H2 HT) as (i & Ei & HR).
  assert (0 <= P) by (apply total_nonneg; done).
  exists (lastp 0 0 b1), i. split_and!; [done..| |].
  - destruct b1 as [|b b1 _] using rev_ind; [done|]. destruct b as [l u]. rewrite lastp_snoc.
    unfold P. rewrite total_app. cbn. apply Forall_app in H1 as [_ [[Hl _] _]%Forall_cons].
    cbn in Hl. split; [lia|]. by destruct b1.
  - apply tail_app. rewrite Z.add_0_l. fold P. split.
    + eapply chain_frame; [done|done|]. intros q Hq. rewrite !lookup_insert_ne by lia. done.
    + apply tail_cons. rewrite lookup_insert_ne, lookup_insert_eq, Z.add_assoc by lia. split; [done|].
      apply HR; [by rewrite lookup_insert_eq|]. intros r Hr. rewrite !lookup_insert_ne by lia. done.
Qed.

Lemma offs_merge x b1 n m b2 :
  x ∈ offs 0 (b1 ++ (n, false) :: (m, false) :: b2) ->
  merge_lfree x (total b1 + n) (total b1) ∈ offs 0 (b1 ++ (n + m, false) :: b2).
Proof.
  unfold merge_lfree. rewrite !elem_of_offs_app, Z.add_0_l. cbn [offs].
  rewrite !elem_of_cons, <- Z.add_assoc.
  destruct (Z.eqb_spec x (total b1 + n)); [auto|].
  intros [?|[?|[?|?]]]; [auto..|lia|auto].
Qed.

Lemma plug_forward_spec h b1 n b2 :
  let bs := b1 ++ (n, false) :: b2 in
  let '(n', b2') := join_next n b2 in let bs' := b1 ++ (n', false) :: b2' in
  Forall blk_ok bs -> tail_ok (items h) 0 0 bs (heap_end h) -> lfree h ∈ offs 0 bs ->
  exists h', plug_forward (total b1) h = Done tt h' /\ relinked h h' /\
    tail_ok (items h') 0 0 bs' (heap_end h) /\ lfree h' ∈ offs 0 bs' /\
    (lowest h bs -> lowest h' bs').
Proof.
  cbn zeta. destruct (join_next n b2) as [n' b2'] eqn:EJ. intros Hok HT Hlf.
  unfold plug_forward. pose proof HT as HT0. apply tail_app in HT0 as [_ HT0].
  apply tail_cons in HT0 as [EP HT0]. rewrite Z.add_0_l in EP, HT0.
  pose proof Hok as Hok'. apply Forall_app in Hok' as [H1 H2]. apply Forall_cons in H2 as [[Hn _] H2].
  cbn in Hn. pose proof (item_done _ _ _ EP) as EP'. msteps. cbn [mnext].
  destruct (Z.eqb_spec (total b1) (total b1 + n)); [lia|].
  destruct b2 as [|[m []] b2]; cbn in EJ; injection EJ as <- <-.
  - destruct HT0 as (_ & He & [pe Hend]). cbn in He.
    assert (Ee : total b1 + n = heap_end h) by lia. rewrite Ee.
    pose proof (item_done _ _ _ Hend). msteps. cbn.
    exists h. refine (conj _ (conj (relinked_refl h) (conj HT (conj Hlf _)))); done.
  - apply tail_cons in HT0 as [EN HT0]. pose proof (item_done _ _ _ EN). msteps. cbn.
    exists h. refine (conj _ (conj (relinked_refl h) (conj HT (conj Hlf _)))); done.
  - apply tail_cons in HT0 as [EN HT0]. pose proof (item_done _ _ _ EN) as EN'. mstep. cbn [used mnext].
    apply Forall_cons in H2 as [[Hm _] H2]. cbn in Hm.
    destruct HT0 as (_ & He & _). apply total_nonneg in H2 as ?.
    destruct (Z.eqb_spec (total b1 + n) (heap_end h)); [lia|]. cbn [Z.eqb andb negb when].
    destruct (merge_chain (items h) b1 n m b2 (heap_end h) Hok HT) as (pv & i & E1 & _ & E3 & _ & HM).
    set (h1 := set_lfree (merge_lfree (lfree h) (total b1 + n) (total b1)) h).
    assert (El : when (lfree h =? total b1 + n) (modify (set_lfree (total b1))) h = Done tt h1).
    { unfold h1, merge_lfree. destruct (lfree h =? total b1 + n); [done|]. by destruct h. }
    mstep. msteps. rewrite (after (upd_done (total b1) _ h1 _ E1)).
    rewrite (upd_done (total b1 + n + m) _ _ i).
    2: { cbn. rewrite lookup_insert_ne by lia. done. }
    eexists. split; [reflexivity|]. split; [by repeat split|]. split; [exact HM|].
    split; [by apply offs_merge|]. unfold lowest. cbn. intros HL. unfold merge_lfree.
    rewrite HL at 1. destruct (Z.eqb_spec (first_free 0 (b1 ++ (n, false) :: (m, false) :: b2)) (total b1 + n)).
    + pose proof (first_free_le 0 b1 n ((m, false) :: b2) H1). lia.
    + rewrite HL. apply first_free_free.
Qed.

Definition join_prev (b1 : list blk) (n : Z) (b2 : list blk) : list blk :=
  match reverse b1 with
  | (l, false) :: r => reverse r ++ (l + n, false) :: b2
  | _ => b1 ++ (n, false) :: b2
  end.

Lemma plug_backward_spec h b1 n b2 :
  let bs := b1 ++ (n, false) :: b2 in let bs' := join_prev b1 n b2 in
  Forall blk_ok bs -> tail_ok (items h) 0 0 bs (heap_end h) -> lfree h ∈ offs 0 bs ->
  exists h', plug_backward (total b1) h = Done tt h' /\ relinked h h' /\
    tail_ok (items h') 0 0 bs' (heap_end h) /\ lfree h' ∈ offs 0 bs' /\
    (lowest h bs -> lowest h' bs').
Proof.
  cbn zeta. intros Hok HT Hlf. unfold plug_backward, join_prev.
  pose proof HT as HT0. apply tail_app in HT0 as [HC1 HT0].
  apply tail_cons in HT0 as [EP _]. rewrite Z.add_0_l in EP.
  pose proof (item_done _ _ _ EP) as EP'. mstep. cbn [mprev mnext].
  destruct b1 as [|[l u] r _] using rev_ind.
  { cbn. exists h. refine (conj _ (conj (relinked_refl h) (conj HT (conj Hlf _)))); done. }
  rewrite reverse_snoc, lastp_snoc, Z.add_0_l.
  pose proof Hok as Hok'. apply Forall_app in Hok' as [[Hr [[Hl _] _]%Forall_cons]%Forall_app _]. cbn in Hl.
  destruct (Z.eqb_spec (total r) (total (r ++ [(l, u)]))) as [E|_].
  { rewrite total_app in E. cbn in E. lia. }
  apply chain_app in HC1 as [_ [EQ _]]. rewrite Z.add_0_l in EQ.
  pose proof (item_done _ _ _ EQ) as EQ'. mstep. cbn [used].
  rewrite total_app. cbn [total]. rewrite Z.add_0_r. destruct u; cbn [when Z.eqb].
  { exists h. refine (conj _ (conj (relinked_refl h) (conj HT (conj Hlf _)))); done. }
  rewrite <- app_assoc in Hok, HT, Hlf |- *. cbn [app] in Hok, HT, Hlf |- *.
  destruct (merge_chain (items h) r l n b2 (heap_end h) Hok HT) as (pv & i & E1 & _ & E3 & _ & HM).
  set (h1 := set_lfree (merge_lfree (lfree h) (total r + l) (total r)) h).
  assert (El : when (lfree h =? total r + l) (modify (set_lfree (total r))) h = Done tt h1).
  { unfold h1, merge_lfree. destruct (lfree h =? total r + l); [done|]. by destruct h. }
  mstep. mstep. rewrite (after (upd_done (total r) _ h1 _ E1)).
  rewrite (upd_done (total r + l + n) _ _ i).
  2: { cbn. rewrite lookup_insert_ne; [done|].
       apply Forall_app in Hok as [_ [_ [[Hn _] _]%Forall_cons]%Forall_cons]. cbn in Hn. lia. }
  eexists. split; [reflexivity|]. rewrite reverse_involutive.
  refine (conj _ (conj HM (conj _ _))); [by repeat split|by apply offs_merge|].
  unfold lowest. cbn. intros HL. unfold merge_lfree. rewrite HL at 1.
  destruct (Z.eqb_spec (first_free 0 (r ++ (l, false) :: (n, false) :: b2)) (total r + l)).
  + pose proof (first_free_le 0 r l ((n, false) :: b2) Hr). lia.
  + rewrite HL. apply first_free_free.
Qed.

Lemma blk_ok_merge n m u v w : blk_ok (n, u) -> blk_ok (m, v) -> blk_ok (n + m, w).
Proof. unfold blk_ok. cbn. intros [? ?] [? ?]. split; [lia|]. Z.div_mod_to_equations. lia. Qed.

Lemma join_next_ok b1 n b2 n' b2' : join_next n b2 = (n', b2') ->
  Forall blk_ok (b1 ++ (n, false) :: b2) -> Forall blk_ok (b1 ++ (n', false) :: b2').
Proof.
  intros E H. apply Forall_app in H as [H1 [Hn H2]%Forall_cons]. apply Forall_app_2; [done|].
  destruct b2 as [|[m []] b2]; cbn in E; injection E as <- <-; [by apply Forall_cons..|].
  apply Forall_cons in H2 as [Hm H2]. apply Forall_cons. split; [|done]. by eapply blk_ok_merge.
Qed.

Lemma join_prev_ok b1 n b2 :
  Forall blk_ok (b1 ++ (n, false) :: b2) -> Forall blk_ok (join_prev b1 n b2).
Proof.
  intros H. unfold join_prev. destruct b1 as [|[l []] r _] using rev_ind; [done| |].
  all: rewrite reverse_snoc; try done. rewrite reverse_involutive.
  rewrite <- app_assoc in H. cbn in H. apply Forall_app in H as [H1 [Hl [Hn H2]%Forall_cons]%Forall_cons].
  apply Forall_app_2; [done|]. apply Forall_cons. split; [|done]. by eapply blk_ok_merge.
Qed.

Lemma plug_join b1 n b2 n' b2' : join_next n b2 = (n', b2') -> plug b1 n b2 = join_prev b1 n' b2'.
Proof. intros E. unfold plug, join_prev. by rewrite E. Qed.

Lemma plug_holes_spec h b1 n b2 :
  let bs := b1 ++ (n, false) :: b2 in let bs' := plug b1 n b2 in
  Forall blk_ok bs -> tail_ok (items h) 0 0 bs (heap_end h) -> lfree h ∈ offs 0 bs ->
  exists h', plug_holes (total b1) h = Done tt h' /\ relinked h h' /\
    tail_ok (items h') 0 0 bs' (heap_end h) /\ lfree h' ∈ offs 0 bs' /\
    (lowest h bs -> lowest h' bs') /\ Forall blk_ok bs'.
Proof.
  cbn zeta. intros Hok HT Hlf. destruct (join_next n b2) as [n' b2'] eqn:EJ.
  rewrite (plug_join _ _ _ _ _ EJ). unfold plug_holes.
  pose proof HT as HT0. apply tail_app in HT0 as [_ HT0].
  pose proof HT0 as [EP _]%tail_cons. rewrite Z.add_0_l in EP.
  destruct HT0 as (_ & He & _). cbn in He.
  pose proof Hok as [H1 [[Hn _] H2]%Forall_cons]%Forall_app. cbn in Hn.
  apply total_nonneg in H1 as ?. apply total_nonneg in H2 as ?.
  mstep. rewrite (bind_done _ _ h tt h) by (apply assert_true; lia).
  rewrite (bind_done _ _ h tt h) by (apply assert_true; lia).
  rewrite (after (item_done _ _ _ EP)).
  rewrite (bind_done _ _ h tt h) by done.
  pose proof (plug_forward_spec h b1 n b2) as HF. cbn zeta in HF. rewrite EJ in HF.
  destruct (HF Hok HT Hlf) as (h1 & E1 & R1 & T1 & L1 & W1). mstep.
  assert (Eh : heap_end h1 = heap_end h) by apply R1. rewrite <- Eh in T1 |- *.
  destruct (plug_backward_spec h1 b1 n' b2') as (h2 & E2 & R2 & T2 & L2 & W2);
    [by eapply join_next_ok|done..|].
  exists h2. refine (conj E2 (conj (relinked_trans _ _ _ R1 R2) (conj T2 (conj L2 (conj _ _))))); [auto|].
  by eapply join_prev_ok, join_next_ok.
Qed.

Lemma coalesced_free_head n m b2 : coalesced ((n, false) :: b2) -> coalesced ((m, false) :: b2).
Proof. by destruct b2 as [|[? ?] ?]. Qed.

Lemma join_next_coalesced n b2 n' b2' :
  join_next n b2 = (n', b2') -> coalesced b2 -> coalesced ((n', false) :: b2').
Proof.
  destruct b2 as [|[m []] b2]; cbn [join_next]; intros [= <- <-] H; [done|done|].
  by eapply coalesced_free_head.
Qed.

Lemma plug_coalesced b1 n b2 : coalesced b1 -> coalesced b2 -> coalesced (plug b1 n b2).
Proof.
  intros H1 H2. destruct (join_next n b2) as [n' b2'] eqn:EJ.
  rewrite (plug_join _ _ _ _ _ EJ). pose proof (join_next_coalesced _ _ _ _ EJ H2) as H3.
  unfold join_prev. destruct b1 as [|[l []] r _] using rev_ind; [done|rewrite reverse_snoc..].
  - apply coalesced_app_iff. split_and!; [done..|]. unfold sep. by rewrite last_snoc.
  - rewrite reverse_involutive. apply coalesced_app_iff in H1 as (Hr & _ & Hs).
    apply coalesced_app_iff. split_and!; [done|by eapply coalesced_free_head|done].
Qed.

(** ** rt_free *)

Lemma used_total_plug b1 n b2 : used_total (plug b1 n b2) = used_total b1 + used_total b2.
Proof.
  destruct (join_next n b2) as [n' b2'] eqn:EJ. rewrite (plug_join _ _ _ _ _ EJ).
  assert (used_total b2' = used_total b2) as <-.
  { destruct b2 as [|[m []] b2]; cbn in EJ; by injection EJ as <- <-. }
  unfold join_prev. destruct b1 as [|[l []] r _] using rev_ind; [done|rewrite reverse_snoc..].
  - by rewrite used_total_app.
  - rewrite reverse_involutive, !used_total_app. cbn. lia.
Qed.

Lemma land3_mod4 z : Z.land z 3 = z mod 4.
Proof. change 3 with (Z.ones 2). by rewrite Z.land_ones by lia. Qed.

Lemma offs_used_irrel x p b1 n (u v : bool) b2 :
  x ∈ offs p (b1 ++ (n, u) :: b2) -> x ∈ offs p (b1 ++ (n, v) :: b2).
Proof. by rewrite !elem_of_offs_app. Qed.

(** The chain with the used flag of one block changed. *)
Lemma tail_flip it b1 n (u v : bool) b2 e :
  Forall blk_ok (b1 ++ (n, u) :: b2) -> tail_ok it 0 0 (b1 ++ (n, u) :: b2) e ->
  exists pv, it !! total b1 = Some (HeapMem HEAP_MAGIC (if u then 1 else 0) (total b1 + n) pv) /\
    tail_ok (<[total b1 := HeapMem HEAP_MAGIC (if v then 1 else 0) (total b1 + n) pv]> it) 0 0
      (b1 ++ (n, v) :: b2) e.
Proof.
  intros [H1 [[Hn _] H2]%Forall_cons]%Forall_app HT. cbn in Hn.
  apply tail_app in HT as [HC HT]. apply tail_cons in HT as [EP HT]. rewrite Z.add_0_l in EP, HT.
  apply total_nonneg in H1 as ?. eexists. split; [exact EP|]. apply tail_app. split.
  - eapply chain_frame; [done|done|]. intros q Hq. rewrite lookup_insert_ne by lia. done.
  - apply tail_cons. rewrite Z.add_0_l, lookup_insert_eq. split; [done|].
    eapply tail_frame; [done|done|]. intros r Hr. rewrite lookup_insert_ne by lia. done.
Qed.

Lemma lowest_free b1 n b2 : Forall blk_ok (b1 ++ (n, true) :: b2) ->
  (let lf := first_free 0 (b1 ++ (n, true) :: b2) in if total b1 <? lf then total b1 else lf) =
  first_free 0 (b1 ++ (n, false) :: b2).
Proof.
  intros [H1 [[Hn _] H2]%Forall_cons]%Forall_app. cbn in Hn. rewrite !first_free_app. cbn [first_free].
  destruct (forallb snd b1) eqn:E; cbn zeta.
  - pose proof (first_free_bounds (0 + total b1 + n) b2 H2).
    destruct (Z.ltb_spec (total b1) (first_free (0 + total b1 + n) b2)); lia.
  - pose proof (first_free_not_all 0 b1 H1 E).
    destruct (Z.ltb_spec (total b1) (first_free 0 b1)); lia.
Qed.

Lemma rt_free_spec h b1 n b2 :
  heap_inv h (b1 ++ (n, true) :: b2) ->
  exists h', rt_free (heap_ptr h + total b1 + 12) h = Done tt h' /\
    heap_inv h' (plug b1 n b2) /\ data h' = data h /\ heap_ptr h' = heap_ptr h /\
    mem_size_aligned h' = mem_size_aligned h /\
    (lowest h (b1 ++ (n, true) :: b2) -> lowest h' (plug b1 n b2)).
Proof.
  intros [Hp He HT Hok Hco Hlf Hu]. unfold rt_free, RT_ALIGN_SIZE, SIZEOF_STRUCT_MEM.
  pose proof Hok as [H1 [[Hn Hn4] H2]%Forall_cons]%Forall_app. cbn in Hn, Hn4.
  apply total_nonneg in H1 as ?. apply total_nonneg in H2 as ?. apply total_mod4 in H1 as Hm4.
  pose proof HT as (_ & Htot & _). rewrite total_app in Htot. cbn in Htot.
  destruct (tail_flip _ _ _ _ false _ _ Hok HT) as (pv & EP & HT').
  destruct (Z.eqb_spec (heap_ptr h + total b1 + 12) 0); [lia|]. do 2 mstep.
  change (4 - 1) with 3. rewrite (bind_done _ _ h tt h).
  2: { apply assert_true. rewrite land3_mod4. apply Z.eqb_eq. Z.div_mod_to_equations. lia. }
  rewrite (bind_done _ _ h tt h) by (apply assert_true; lia).
  replace (heap_ptr h + total b1 + 12 - 12 - heap_ptr h) with (total b1) by lia.
  rewrite (after (item_done _ _ _ EP)).
  rewrite (bind_done _ _ h tt h) by done. rewrite (bind_done _ _ h tt h) by done.
  rewrite (after (upd_done _ _ _ _ EP)).
  rewrite (after (upd_done _ _ _ _ (lookup_insert_eq _ _ _))).
  mstep. cbn [mnext].
  set (lf := if total b1 <? lfree h then total b1 else lfree h).
  set (h1 := sub_used (u32 (total b1 + n - total b1))
    (set_lfree lf (set_items (<[total b1 := HeapMem HEAP_MAGIC 0 (total b1 + n) pv]>) h))).
  assert (HB : used_total (b1 ++ (n, true) :: b2) = used_total b1 + n + used_total b2)
    by (rewrite used_total_app; cbn; lia).
  pose proof (used_total_bounds _ H1). pose proof (used_total_bounds _ H2).
  destruct (plug_holes_spec h1 b1 n b2) as (h2 & E2 & R & T2 & L2 & W2 & O2).
  - apply Forall_app_2; [done|]. by apply Forall_cons.
  - exact HT'.
  - cbn. unfold lf. destruct (total b1 <? lfree h).
    + apply elem_of_offs_app. right. cbn. set_solver.
    + by eapply offs_used_irrel.
  - exists h2. destruct R as (R1 & R2 & R3 & R4 & R5 & R6). cbn in R1, R2, R3, R4, R5, R6.
    rewrite (bind_done _ _ _ tt (set_lfree lf (set_items (<[total b1 := HeapMem HEAP_MAGIC 0 (total b1 + n) pv]>) h))).
    2: { unfold lf, set_lfree, set_items. cbn. rewrite insert_insert_eq. by destruct (total b1 <? lfree h). }
    mstep. split; [exact E2|]. refine (conj _ (conj R6 (conj R1 (conj R3 _)))).
    + apply coalesced_app in Hco as [Hc1 [_ Hc2]%(coalesced_app [_])]. constructor.
      * rewrite R1, R2. done.
      * rewrite R2, R3. done.
      * rewrite R2. exact T2.
      * done.
      * by apply plug_coalesced.
      * done.
      * rewrite R4, used_total_plug, Hu, HB. replace (total b1 + n - total b1) with n by lia.
        rewrite (u32_small n), u32_small by lia. lia.
    + intros HL. apply W2. unfold lowest in HL |- *. cbn. unfold lf. rewrite HL.
      by apply lowest_free.
Qed.

(** ** rt_malloc *)

Lemma set_lfree_id h : set_lfree (lfree h) h = h.
Proof. by destruct h. Qed.

Lemma next_free_spec fuel h c1 c2 :
  Forall blk_ok (c1 ++ c2) -> tail_ok (items h) 0 0 (c1 ++ c2) (heap_end h) ->
  lfree h = total c1 -> (length c2 < fuel)%nat ->
  next_free fuel h = Done tt (set_lfree (first_free (total c1) c2) h).
Proof.
  revert fuel h c1. induction c2 as [|[n u] c2 IH]; intros [|fuel] h c1 Hok HT Hlf Hf;
    cbn in Hf; try lia; cbn [next_free first_free]; do 2 mstep.
  - rewrite app_nil_r in HT. destruct HT as (_ & He & [pe Hend]).
    assert (Hlf' : lfree h = heap_end h) by lia.
    rewrite (bind_done _ _ h (HeapMem HEAP_MAGIC 1 (heap_end h) pe) h)
      by (apply item_done; by rewrite Hlf').
    destruct (Z.eqb_spec (lfree h) (heap_end h)); [|lia]. cbn [used nz Z.eqb negb andb].
    rewrite <- Hlf, set_lfree_id. done.
  - pose proof HT as HT0. apply tail_app in HT0 as [_ HT0].
    pose proof HT0 as [EP _]%tail_cons. destruct HT0 as (_ & He & _). cbn in He. rewrite Z.add_0_l in EP, He.
    rewrite <- Hlf in EP. rewrite (after (item_done _ _ _ EP)). cbn [used].
    pose proof Hok as [H1 [[Hn _] H2]%Forall_cons]%Forall_app. cbn in Hn. apply total_nonneg in H2 as ?.
    destruct u; cbn [nz Z.eqb negb andb].
    + destruct (Z.eqb_spec (lfree h) (heap_end h)); [lia|]. cbn [negb]. mstep. cbn [mnext].
      assert (Et : total (c1 ++ [(n, true)]) = total c1 + n) by (rewrite total_app; cbn; lia).
      rewrite (IH fuel _ (c1 ++ [(n, true)])).
      * by rewrite Et.
      * by rewrite <- app_assoc.
      * by rewrite <- app_assoc.
      * cbn. lia.
      * lia.
    + rewrite <- Hlf, set_lfree_id. done.
Qed.

Lemma first_free_item it pv p bs e : tail_ok it pv p bs e ->
  exists i, it !! first_free p bs = Some i /\ (first_free p bs = e \/ used i = 0).
Proof.
  revert pv p. induction bs as [|[n u] bs IH]; intros pv p HT; cbn [first_free].
  - destruct HT as (_ & He & [pe Hend]). cbn in He. rewrite Z.add_0_r in He. subst. eauto.
  - apply tail_cons in HT as [EP HT]. destruct u; [by eapply IH|]. eexists. split; [exact EP|]. by right.
Qed.

(** Splitting a block: the first [k] bytes become a used block, the rest a
    free one; the header at the end of the heap is left alone. *)
Lemma tail_split it b1 n (w : bool) k b2 e :
  let P := total b1 in
  Forall blk_ok (b1 ++ (n, w) :: b2) -> 16 <= k -> 16 <= n - k ->
  tail_ok it 0 0 (b1 ++ (n, w) :: b2) e ->
  exists pv i, it !! P = Some (HeapMem HEAP_MAGIC (if w then 1 else 0) (P + n) pv) /\
    it !! (P + n) = Some i /\ (P + n = e <-> b2 = []) /\
    let it' := <[P := HeapMem HEAP_MAGIC 1 (P + k) pv]> (<[P + k := HeapMem HEAP_MAGIC 0 (P + n) P]> it) in
    tail_ok (if P + n =? e then it' else <[P + n := set_mprev (P + k) i]> it')
      0 0 (b1 ++ (k, true) :: (n - k, false) :: b2) e.
Proof.
  intros P [H1 [[Hn _] H2]%Forall_cons]%Forall_app Hk Hnk HT. cbn in Hn.
  apply tail_app in HT as [HC HT]. apply tail_cons in HT as [EP HT]. rewrite Z.add_0_l in EP, HT.
  fold P in EP, HT. assert (0 <= P) by (by apply total_nonneg).
  destruct (tail_reprev _ _ _ _ _ H2 HT) as (i & Ei & HR).
  pose proof HT as (_ & He & _). apply total_nonneg in H2 as ?.
  assert (Hb2 : P + n = e <-> b2 = []).
  { split; [|intros ->; cbn in He; lia]. intros. destruct b2 as [|[m v] b2]; [done|].
    apply Forall_cons in H2 as [[Hm _] H2]. apply total_nonneg in H2. cbn in Hm, He. lia. }
  exists (lastp 0 0 b1), i. refine (conj EP (conj Ei (conj Hb2 _))). cbn zeta.
  apply tail_app. rewrite Z.add_0_l. fold P.
  set (it' := <[P := HeapMem HEAP_MAGIC 1 (P + k) (lastp 0 0 b1)]>
    (<[P + k := HeapMem HEAP_MAGIC 0 (P + n) P]> it)).
  assert (Hlook : forall r, r <> P -> r <> P + k -> r <> P + n ->
    (if P + n =? e then it' else <[P + n := set_mprev (P + k) i]> it') !! r = it !! r).
  { intros r ???. unfold it'. destruct (P + n =? e); by rewrite !lookup_insert_ne by lia. }
  split; [eapply chain_frame; [done|done|]; intros q Hq; apply Hlook; lia|].
  unfold it'. apply tail_cons. split.
  { destruct (P + n =? e); [|rewrite lookup_insert_ne by lia]; by rewrite lookup_insert_eq. }
  apply tail_cons. replace (P + k + (n - k)) with (P + n) by lia. split.
  { destruct (P + n =? e); [|rewrite lookup_insert_ne by lia];
      rewrite lookup_insert_ne by lia; by rewrite lookup_insert_eq. }
  destruct (Z.eqb_spec (P + n) e) as [E|E].
  - apply Hb2 in E as ->. destruct HT as (_ & _ & [pe Hend]). cbn in He.
    split_and!; [done|cbn; lia|]. exists pe. rewrite !lookup_insert_ne by lia. done.
  - apply HR; [by rewrite lookup_insert_eq|]. intros r Hr. rewrite !lookup_insert_ne by lia. done.
Qed.

(** The block list after the search loop has taken a block. *)
Lemma split_block_ok n s b1 b2 : 12 <= s -> s mod 4 = 0 ->
  Forall blk_ok (b1 ++ (n, false) :: b2) -> Forall blk_ok (b1 ++ split_block n s ++ b2).
Proof.
  intros Hs Hs4 [H1 [[Hn Hn4] H2]%Forall_cons]%Forall_app. cbn in Hn, Hn4.
  apply Forall_app_2; [done|]. unfold split_block, blk_ok.
  destruct (Z.leb_spec (s + 36) n); cbn [app]; rewrite ?Forall_cons; cbn [fst];
    split_and!; try done; try lia; Z.div_mod_to_equations; lia.
Qed.

Lemma split_block_coalesced n s b1 b2 :
  coalesced (b1 ++ (n, false) :: b2) -> coalesced (b1 ++ split_block n s ++ b2).
Proof.
  intros (H1 & H2 & H3)%coalesced_app_iff. apply coalesced_app_iff. split_and!; [done| |].
  - unfold split_block. destruct (s + 36 <=? n); cbn [app].
    + cbn. split; [done|]. by destruct b2 as [|[? ?] ?].
    + destruct b2 as [|[? ?] ?]; [done|]. by destruct H2.
  - unfold sep. destruct (last b1) as [[? u]|]; [|done]. unfold split_block.
    destruct (s + 36 <=? n); cbn; apply orb_true_r.
Qed.

Lemma offs_split_block x p n s b1 b2 :
  x ∈ offs p (b1 ++ (n, false) :: b2) -> x ∈ offs p (b1 ++ split_block n s ++ b2).
Proof.
  intros [?|Hx]%elem_of_offs_app; apply elem_of_offs_app; [by left|right]. cbn [offs] in Hx.
  apply elem_of_cons in Hx as [->|Hx]; [apply offs_head|]. apply elem_of_offs_app. right.
  unfold split_block. destruct (s + 36 <=? n); cbn [total].
  - by replace (p + total b1 + (s + 12 + (n - s - 12 + 0))) with (p + total b1 + n) by lia.
  - by rewrite Z.add_0_r.
Qed.

Lemma used_total_split n s b2 : s + 12 <= n ->
  used_total (split_block n s ++ b2) = (if s + 36 <=? n then s + 12 else n) + used_total b2.
Proof. intros. unfold split_block. destruct (s + 36 <=? n); cbn; lia. Qed.

(** The fields a successful allocation leaves alone. *)
Definition same_area (h h' : heap) : Prop :=
  heap_ptr h' = heap_ptr h /\ heap_end h' = heap_end h /\
  mem_size_aligned h' = mem_size_aligned h /\ data h' = data h.

Lemma malloc_mark_spec h b1 n b2 s :
  heap_inv h (b1 ++ (n, false) :: b2) -> 12 <= s -> s + 12 <= n ->
  exists h1, malloc_mark (total b1) s h = Done tt h1 /\ same_area h h1 /\ lfree h1 = lfree h /\
    tail_ok (items h1) 0 0 (b1 ++ split_block n s ++ b2) (heap_end h) /\
    used_mem h1 = used_total (b1 ++ split_block n s ++ b2).
Proof.
  intros [Hp He HT Hok Hco Hlf Hu] Hs Hsn. unfold malloc_mark, SIZEOF_STRUCT_MEM, MIN_SIZE_ALIGNED.
  pose proof Hok as [H1 [[Hn _] H2]%Forall_cons]%Forall_app. cbn in Hn.
  apply total_nonneg in H1 as ?. apply total_nonneg in H2 as ?.
  pose proof HT as (_ & Htot & _). rewrite total_app in Htot. cbn in Htot.
  pose proof (used_total_bounds _ H1). pose proof (used_total_bounds _ H2).
  rewrite (used_total_app b1), used_total_split by done. rewrite used_total_app in Hu. cbn in Hu.
  mstep. unfold split_block. destruct (Z.leb_spec (s + 36) n) as [Hle|Hgt].
  - destruct (tail_split (items h) b1 n false (s + 12) b2 (heap_end h)) as (pv & i & EP & EN & _ & HT');
      [done|lia|lia|done|]. cbn zeta in HT'.
    rewrite (after (item_done _ _ _ EP)). cbn [mnext].
    replace (total b1 + n - (total b1 + 12)) with (n - 12) by lia. rewrite (u32_small (n - 12)) by lia.
    destruct (Z.leb_spec (s + 12 + 12) (n - 12)); [|lia]. rewrite u32_small by lia.
    replace (total b1 + 12 + s) with (total b1 + (s + 12)) by lia.
    msteps. erewrite (bind_done (upd (total b1) _));
      [|apply upd_done; cbn; rewrite lookup_insert_ne by lia; exact EP].
    set (X := <[total b1 := _]> (<[total b1 + (s + 12) := _]> (items h))) in HT'.
    set (it' := if total b1 + n =? heap_end h then X else <[total b1 + n := set_mprev (total b1 + (s + 12)) i]> X) in HT'.
    rewrite bind_assoc, (bind_done _ _ _ tt (set_items (fun _ => it') h)).
    2: { unfold when, it'. replace (mem_size_aligned h + 12) with (heap_end h) by lia.
         destruct (total b1 + n =? heap_end h); cbn [negb]; [done|].
         erewrite upd_done; [reflexivity|]. cbn. rewrite !lookup_insert_ne by lia. done. }
    mstep.
    assert (EQ : it' !! total b1 = Some (HeapMem HEAP_MAGIC 1 (total b1 + (s + 12)) pv)).
    { unfold it', X. destruct (total b1 + n =? heap_end h); rewrite ?lookup_insert_ne by lia;
        by rewrite lookup_insert_eq. }
    erewrite upd_done; [|exact EQ]. eexists. split; [reflexivity|]. cbn.
    refine (conj _ (conj eq_refl (conj _ _))); [by repeat split| |].
    + unfold set_magic. cbn. rewrite insert_id by done. by replace (n - (s + 12)) with (n - s - 12) in HT' by lia.
    + rewrite u32_small by lia. lia.
  - destruct (tail_flip (items h) b1 n false true b2 (heap_end h)) as (pv & EP & HT'); [done..|].
    rewrite (after (item_done _ _ _ EP)). cbn [mnext].
    replace (total b1 + n - (total b1 + 12)) with (n - 12) by lia. rewrite (u32_small (n - 12)) by lia.
    destruct (Z.leb_spec (s + 12 + 12) (n - 12)); [lia|]. msteps.
    rewrite (bind_done _ _ _ tt _ (upd_done (total b1) _ _ _ EP)). mstep.
    erewrite upd_done; [|cbn; apply lookup_insert_eq]. eexists. split; [reflexivity|]. cbn.
    refine (conj _ (conj eq_refl (conj _ _))); [by repeat split| |].
    + rewrite insert_insert_eq. exact HT'.
    + replace (total b1 + n - total b1) with n by lia. rewrite (u32_small n), u32_small by lia. lia.
Qed.

Lemma first_free_split p b1 n s b2 : Forall blk_ok b1 ->
  first_free p (b1 ++ split_block n s ++ b2) =
  if first_free p (b1 ++ (n, false) :: b2) =? p + total b1
  then first_free (p + total b1) (split_block n s ++ b2)
  else first_free p (b1 ++ (n, false) :: b2).
Proof.
  intros H1. rewrite !(first_free_app p b1). destruct (forallb snd b1) eqn:E; cbn [first_free].
  - by rewrite Z.eqb_refl.
  - pose proof (first_free_not_all p b1 H1 E).
    destruct (Z.eqb_spec (first_free p b1) (p + total b1)); [lia|done].
Qed.

Lemma first_free_in_offs p bs : first_free p bs ∈ offs p bs.
Proof.
  revert p. induction bs as [|[n u] bs IH]; intros p; cbn; [set_solver|].
  destruct u; [apply elem_of_cons; right; apply IH|set_solver].
Qed.

Lemma malloc_take_spec h b1 n b2 s :
  let bs := b1 ++ (n, false) :: b2 in let bs' := b1 ++ split_block n s ++ b2 in
  heap_inv h bs -> 12 <= s -> s mod 4 = 0 -> s + 12 <= n ->
  exists h', malloc_take (total b1) s h = Done (heap_ptr h + total b1 + 12) h' /\
    heap_inv h' bs' /\ same_area h h' /\ (lowest h bs -> lowest h' bs').
Proof.
  cbn zeta. intros HI Hs Hs4 Hsn.
  destruct (malloc_mark_spec h b1 n b2 s HI Hs Hsn) as (h1 & E1 & (A1 & A2 & A3 & A4) & Hl1 & T1 & U1).
  destruct HI as [Hp He HT Hok Hco Hlf Hu]. unfold malloc_take. mstep. mstep.
  pose proof (split_block_ok n s b1 b2 Hs Hs4 Hok) as Hok'.
  pose proof Hok as [H1 [[Hn _] H2]%Forall_cons]%Forall_app. cbn in Hn.
  pose proof (total_mod4 _ H1). apply total_nonneg in H1 as ?. apply total_nonneg in H2 as ?.
  pose proof HT as (_ & Htot & _). rewrite total_app in Htot. cbn in Htot.
  set (lf := if total b1 =? lfree h then first_free (total b1) (split_block n s ++ b2) else lfree h).
  rewrite (bind_done _ _ _ tt (set_lfree lf h1)).
  2: { unfold when, lf. rewrite Hl1. destruct (Z.eqb_spec (total b1) (lfree h)) as [El|].
       - mstep. erewrite (bind_done (next_free _)).
         2: { apply (next_free_spec _ h1 b1 (split_block n s ++ b2)); [done|by rewrite A2|lia|].
              pose proof (tail_fuel _ _ _ _ _ Hok' T1) as Hfuel. rewrite length_app in Hfuel. lia. }
         do 2 mstep. pose proof T1 as T1'. apply tail_app in T1' as [_ T1'].
         destruct (first_free_item _ _ _ _ _ T1') as (i & Ei & Hi). rewrite Z.add_0_l in Ei, Hi.
         rewrite (after (item_done _ (set_lfree _ h1) _ Ei)). cbn [set_lfree lfree heap_end].
         rewrite A2. destruct Hi as [->|Hi]; [by rewrite Z.eqb_refl|]. rewrite Hi. cbn.
         by rewrite orb_true_r.
       - rewrite <- Hl1, set_lfree_id. done. }
  do 2 mstep. cbn [set_lfree heap_ptr heap_end]. rewrite A1, A2. unfold SIZEOF_STRUCT_MEM, RT_ALIGN_SIZE.
  erewrite bind_done; [|apply assert_true; lia].
  erewrite bind_done; [|apply assert_true, Z.eqb_eq; Z.div_mod_to_equations; lia].
  erewrite bind_done; [|apply assert_true, Z.eqb_eq; change (4 - 1) with 3; rewrite land3_mod4;
    Z.div_mod_to_equations; lia].
  eexists. split; [reflexivity|]. refine (conj _ (conj (conj A1 (conj A2 (conj A3 A4))) _)).
  - constructor; cbn.
    + rewrite A1, A2. done.
    + rewrite A2, A3. done.
    + rewrite A2. done.
    + done.
    + by apply split_block_coalesced.
    + unfold lf. destruct (total b1 =? lfree h); [|by apply offs_split_block].
      apply elem_of_offs_app. right. apply first_free_in_offs.
    + done.
  - unfold lowest. cbn. intros HL. rewrite first_free_split by done. rewrite <- HL, Z.add_0_l.
    unfold lf. rewrite Z.eqb_sym. by destruct (lfree h =? total b1).
Qed.

Lemma malloc_loop_spec fuel h b1 b2 s :
  heap_inv h (b1 ++ b2) -> 12 <= s <= mem_size_aligned h -> (length b2 <= fuel)%nat ->
  let limit := mem_size_aligned h - s in
  (first_fit limit s (total b1) b2 = None /\ malloc_loop fuel (total b1) s h = Done 0 h) \/
  (exists c1 n c2, b2 = c1 ++ (n, false) :: c2 /\ s + 12 <= n /\
    first_fit limit s (total b1) b2 = Some (total (b1 ++ c1), c1 ++ split_block n s ++ c2) /\
    malloc_loop fuel (total b1) s h = malloc_take (total (b1 ++ c1)) s h).
Proof.
  cbn zeta. intros HI Hs. pose proof HI as [Hp He HT Hok _ _ _].
  assert (Hlim : u32 (mem_size_aligned h - s) = mem_size_aligned h - s) by (apply u32_small; lia).
  clear HI. revert fuel b1 HT Hok. induction b2 as [|[n u] b2 IH]; intros fuel b1 HT Hok Hf.
  - left. split; [done|]. destruct HT as (_ & Htot & _). rewrite total_app in Htot. cbn in Htot.
    destruct fuel; cbn [malloc_loop]; mstep; rewrite Hlim;
      (destruct (Z.ltb_spec (total b1) (mem_size_aligned h - s)); [lia|done]).
  - destruct fuel as [|fuel]; cbn in Hf; [lia|]. cbn [malloc_loop first_fit]. mstep. rewrite Hlim.
    destruct (Z.ltb_spec (total b1) (mem_size_aligned h - s)) as [Hlt|]; [|by left].
    pose proof HT as HT0. apply tail_app in HT0 as [_ HT0]. pose proof HT0 as [EP _]%tail_cons.
    rewrite Z.add_0_l in EP. rewrite (after (item_done _ _ _ EP)). cbn [used mnext].
    pose proof Hok as [H1 [[Hn _] H2]%Forall_cons]%Forall_app. cbn in Hn.
    pose proof HT as (_ & Htot & _). rewrite total_app in Htot. cbn in Htot.
    apply total_nonneg in H1 as ?. apply total_nonneg in H2 as ?. unfold SIZEOF_STRUCT_MEM.
    replace (total b1 + n - (total b1 + 12)) with (n - 12) by lia. rewrite (u32_small (n - 12)) by lia.
    assert (Ec : (negb (nz (if u then 1 else 0)) && (s <=? n - 12))%bool = (negb u && (s + 12 <=? n))%bool).
    { destruct u; [done|]. cbn. destruct (Z.leb_spec s (n - 12)), (Z.leb_spec (s + 12) n); (done || lia). }
    rewrite Ec. destruct (negb u && (s + 12 <=? n))%bool eqn:E.
    + right. zb. destruct u; [done|]. exists [], n, b2. rewrite app_nil_r. done.
    + assert (Et : total (b1 ++ [(n, u)]) = total b1 + n) by (rewrite total_app; cbn; lia).
      rewrite <- Et. destruct (IH fuel (b1 ++ [(n, u)])) as [[-> ->]|(c1 & k & c2 & -> & Hk & -> & ->)];
        [by rewrite <- app_assoc..|lia|by left|].
      right. exists ((n, u) :: c1), k, c2. rewrite <- app_assoc. done.
Qed.

Lemma first_fit_skip limit s p b1 b2 : Forall blk_ok (b1 ++ b2) -> forallb snd b1 = true ->
  first_fit limit s p (b1 ++ b2) =
  '(q, bs') ← first_fit limit s (p + total b1) b2; Some (q, b1 ++ bs').
Proof.
  revert p. induction b1 as [|[n u] b1 IH]; intros p Hok Hu; cbn [app total first_fit].
  - rewrite Z.add_0_r. by destruct (first_fit limit s p b2) as [[? ?]|].
  - apply Forall_cons in Hok as [[Hn _] Hok]. cbn in Hn, Hu. apply andb_true_iff in Hu as [Hu1 Hu]. subst u.
    cbn [negb andb]. rewrite IH by done. rewrite Z.add_assoc.
    destruct (Z.ltb_spec p limit) as [|Hge].
    + by destruct (first_fit limit s (p + n + total b1) b2) as [[? ?]|].
    + destruct b2 as [|[m v] b2]; [done|]. cbn [first_fit].
      apply Forall_app in Hok as [H1 _]. apply total_nonneg in H1.
      destruct (Z.ltb_spec (p + n + total b1) limit); [lia|done].
Qed.

Lemma first_free_prefix p bs : exists b1 b2, bs = b1 ++ b2 /\ forallb snd b1 = true /\
  first_free p bs = p + total b1.
Proof.
  revert p. induction bs as [|[n u] bs IH]; intros p; cbn [first_free].
  - exists [], []. cbn. split_and!; [done..|lia].
  - destruct u.
    + destruct (IH (p + n)) as (b1 & b2 & -> & Hu & ->). exists ((n, true) :: b1), b2.
      cbn. split_and!; [done..|lia].
    + exists [], ((n, false) :: bs). cbn. split_and!; [done..|lia].
Qed.

Lemma malloc_size_ok size : 0 < size -> size + 3 < 2 ^ 32 ->
  12 <= malloc_size size /\ size <= malloc_size size /\ malloc_size size mod 4 = 0.
Proof.
  intros. unfold malloc_size, RT_ALIGN_SIZE, MIN_SIZE_ALIGNED.
  destruct (RT_ALIGN_bounds size ltac:(lia) ltac:(lia)) as [? ?].
  destruct (Z.ltb_spec (RT_ALIGN size 4) 12); split_and!; (done || lia).
Qed.

(** The abstract allocator: first fit over the block list. *)
Definition alloc_spec (msa size : Z) (bs : list blk) : option (Z * list blk) :=
  if msa <? RT_ALIGN size RT_ALIGN_SIZE then None
  else first_fit (msa - malloc_size size) (malloc_size size) 0 bs.

Lemma rt_malloc_spec h bs size :
  heap_inv h bs -> lowest h bs -> 0 < size -> size + 3 < 2 ^ 32 ->
  match alloc_spec (mem_size_aligned h) size bs with
  | None => rt_malloc size h = Done 0 h
  | Some (q, bs') => exists h', rt_malloc size h = Done (heap_ptr h + q + 12) h' /\
      heap_inv h' bs' /\ lowest h' bs' /\ same_area h h'
  end.
Proof.
  intros HI HL H0 H32. unfold rt_malloc, alloc_spec. mstep.
  destruct (Z.eqb_spec size 0); [lia|].
  destruct (Z.ltb_spec (mem_size_aligned h) (RT_ALIGN size RT_ALIGN_SIZE)); [done|].
  do 2 mstep. destruct (malloc_size_ok size H0 H32) as (Hm12 & _ & Hm4).
  set (s := malloc_size size) in *.
  assert (Hsm : s <= mem_size_aligned h).
  { unfold s, malloc_size, MIN_SIZE_ALIGNED. pose proof (hi_end _ _ HI).
    destruct (RT_ALIGN size RT_ALIGN_SIZE <? 12); lia. }
  destruct (first_free_prefix 0 bs) as (b1 & b2 & -> & Hub & Hff).
  rewrite HL, Hff, Z.add_0_l. pose proof (hi_blk _ _ HI) as Hok.
  rewrite first_fit_skip by done. rewrite Z.add_0_l.
  pose proof (tail_fuel _ _ _ _ _ Hok (hi_tail _ _ HI)) as Hfuel. rewrite length_app in Hfuel.
  destruct (malloc_loop_spec (base.size (items h)) h b1 b2 s HI) as [[-> ->]|(c1 & k & c2 & -> & Hk & -> & ->)];
    [lia|lia|done|]. cbn [mbind option_bind].
  rewrite app_assoc in HI, HL |- *. destruct (malloc_take_spec h (b1 ++ c1) k c2 s HI) as (h' & -> & HI' & HA & HL');
    [lia|done|lia|]. exists h'. rewrite !app_assoc in *. auto.
Qed.

(** What a call does without assuming that [lfree] is the lowest free block. *)
Lemma rt_malloc_takes h bs size :
  heap_inv h bs -> 0 < size -> size + 3 < 2 ^ 32 ->
  rt_malloc size h = Done 0 h \/
  exists h' b1 n b2, rt_malloc size h = Done (heap_ptr h + total b1 + 12) h' /\
    bs = b1 ++ (n, false) :: b2 /\ malloc_size size + 12 <= n /\
    heap_inv h' (b1 ++ split_block n (malloc_size size) ++ b2) /\ same_area h h' /\
    (lowest h bs -> lowest h' (b1 ++ split_block n (malloc_size size) ++ b2)).
Proof.
  intros HI H0 H32. unfold rt_malloc. mstep. destruct (Z.eqb_spec size 0); [lia|].
  destruct (Z.ltb_spec (mem_size_aligned h) (RT_ALIGN size RT_ALIGN_SIZE)); [by left|].
  do 2 mstep. destruct (malloc_size_ok size H0 H32) as (Hm12 & _ & Hm4).
  set (s := malloc_size size) in *.
  assert (Hsm : s <= mem_size_aligned h).
  { unfold s, malloc_size, MIN_SIZE_ALIGNED. pose proof (hi_end _ _ HI).
    destruct (RT_ALIGN size RT_ALIGN_SIZE <? 12); lia. }
  destruct (offs_split _ _ _ (hi_lfree _ _ HI)) as (b1 & b2 & -> & ->). rewrite Z.add_0_l.
  pose proof (tail_fuel _ _ _ _ _ (hi_blk _ _ HI) (hi_tail _ _ HI)) as Hfuel. rewrite length_app in Hfuel.
  destruct (malloc_loop_spec (base.size (items h)) h b1 b2 s HI) as [[_ ->]|(c1 & k & c2 & -> & Hk & _ & ->)];
    [lia|lia|by left|].
  right. rewrite app_assoc in HI |- *.
  destruct (malloc_take_spec h (b1 ++ c1) k c2 s HI) as (h' & -> & HI' & HA & HL'); [lia|done|lia|].
  exists h', (b1 ++ c1), k, c2. auto 10.
Qed.

(** The memory handed out: for every used block, the address and the length of
    its payload. *)
Fixpoint regions (p : Z) (bs : list blk) : list (Z * Z) :=
  match bs with
  | [] => []
  | (n, u) :: bs => (if (u : bool) then [(p + 12, n - 12)] else []) ++ regions (p + n) bs
  end.

Lemma regions_app p b1 b2 : regions p (b1 ++ b2) = regions p b1 ++ regions (p + total b1) b2.
Proof.
  revert p. induction b1 as [|[n u] b1 IH]; intros p; cbn [app regions total].
  - by rewrite Z.add_0_r.
  - by rewrite IH, app_assoc, Z.add_assoc.
Qed.

Lemma regions_split_block p n s b2 : s + 12 <= n ->
  exists k, s <= k <= n - 12 /\ regions p (split_block n s ++ b2) = (p + 12, k) :: regions (p + n) b2.
Proof.
  intros. unfold split_block. destruct (s + 36 <=? n); cbn.
  - exists (s + 12 - 12). split; [lia|]. do 2 f_equal. lia.
  - exists (n - 12). split; [lia|]. done.
Qed.

Lemma regions_inv p bs q k : (q, k) ∈ regions p bs ->
  exists b1 n b2, bs = b1 ++ (n, true) :: b2 /\ q = p + total b1 + 12 /\ k = n - 12.
Proof.
  revert p. induction bs as [|[n u] bs IH]; intros p Hin; cbn in Hin; [by apply not_elem_of_nil in Hin|].
  apply elem_of_app in Hin as [Hin|Hin].
  - destruct u; [|by apply not_elem_of_nil in Hin]. apply list_elem_of_singleton in Hin as [= -> ->].
    exists [], n, bs. cbn. split_and!; [done|lia|done].
  - destruct (IH _ Hin) as (b1 & m & b2 & -> & -> & ->). exists ((n, u) :: b1), m, b2. cbn.
    split_and!; [done|lia|done].
Qed.

Lemma regions_bounds p bs q k : Forall blk_ok bs -> (q, k) ∈ regions p bs ->
  p + 12 <= q /\ 4 <= k /\ q + k <= p + total bs.
Proof.
  intros Hok (b1 & n & b2 & -> & -> & ->)%regions_inv.
  apply Forall_app in Hok as [H1 [[Hn _] H2]%Forall_cons]. cbn in Hn.
  apply total_nonneg in H1, H2. rewrite total_app. cbn. lia.
Qed.

Definition disjoint (r1 r2 : Z * Z) : Prop := r1.1 + r1.2 <= r2.1 \/ r2.1 + r2.2 <= r1.1.

(** in every heap the invariant describes, two live blocks at different
    addresses do not overlap, and each lies inside the heap and is word aligned. *)
Theorem heap_regions_disjoint h bs r1 r2 :
  heap_inv h bs -> r1 ∈ regions (heap_ptr h) bs -> r2 ∈ regions (heap_ptr h) bs ->
  r1.1 mod 4 = 0 /\ heap_ptr h <= r1.1 /\ r1.1 + r1.2 <= heap_ptr h + heap_end h /\
  (r1 = r2 \/ disjoint r1 r2).
Proof.
  intros HI Hr1 Hr2. destruct r1 as [q1 k1], r2 as [q2 k2]. cbn.
  pose proof (hi_blk _ _ HI) as Hok. pose proof (hi_tail _ _ HI) as (_ & Ht & _).
  pose proof (regions_bounds _ _ _ _ Hok Hr1).
  apply regions_inv in Hr1 as (b1 & n1 & c1 & -> & -> & ->).
  pose proof Hok as [H1 [[Hn1 _] H2]%Forall_cons]%Forall_app. cbn in Hn1.
  apply total_mod4 in H1 as Hm. pose proof (hi_ptr _ _ HI) as (_ & Hp & _).
  split_and!; [Z.div_mod_to_equations; lia|lia|lia|].
  rewrite regions_app in Hr2. cbn [regions app] in Hr2.
  apply elem_of_app in Hr2 as [Hr|[[= -> ->]|Hr]%elem_of_cons].
  - right. unfold disjoint. cbn. pose proof (regions_bounds _ _ _ _ H1 Hr). lia.
  - by left.
  - right. unfold disjoint. cbn. pose proof (regions_bounds _ _ _ _ H2 Hr). lia.
Qed.

Lemma malloc_done h bs size :
  heap_inv h bs -> 0 < size -> size + 3 < 2 ^ 32 ->
  exists p h' bs', rt_malloc size h = Done p h' /\ heap_inv h' bs' /\
    same_area h h' /\ (lowest h bs -> lowest h' bs') /\
    ((p = 0 /\ h' = h /\ bs' = bs) \/
     (p <> 0 /\ p mod 4 = 0 /\ exists l1 n l2, size <= n /\
        regions (heap_ptr h) bs = l1 ++ l2 /\ regions (heap_ptr h) bs' = l1 ++ (p, n) :: l2)).
Proof.
  intros HI H0 H32.
  destruct (rt_malloc_takes h bs size HI H0 H32) as [E|(h' & b1 & n & b2 & E & -> & Hn & HI' & HA & HL)].
  { exists 0, h, bs. rewrite E. split_and!; try done. by left. }
  exists (heap_ptr h + total b1 + 12), h', (b1 ++ split_block n (malloc_size size) ++ b2).
  split_and!; try done. right. destruct HA as (A1 & _ & _ & A4).
  pose proof (hi_ptr _ _ HI) as (Hp & Hp4 & _). pose proof (hi_blk _ _ HI) as [H1 _]%Forall_app.
  apply total_mod4 in H1 as Hm. apply total_nonneg in H1.
  split; [lia|]. split; [Z.div_mod_to_equations; lia|].
  destruct (regions_split_block (heap_ptr h + total b1) n (malloc_size size) b2 Hn) as (k & Hk & Ek).
  destruct (malloc_size_ok size H0 H32) as (_ & Hs & _).
  exists (regions (heap_ptr h) b1), k, (regions (heap_ptr h + total b1 + n) b2).
  split; [lia|]. split; [by rewrite regions_app|]. by rewrite regions_app, Ek.
Qed.

(** C3: [rt_malloc] preserves the heap invariant and either fails without
    touching the heap or returns an aligned address of a block of at least the
    requested size that is added to the live blocks; no other live block moves. *)
Theorem rt_malloc_correct h bs size :
  heap_inv h bs -> 0 < size -> size + 3 < 2 ^ 32 ->
  exists p h' bs', rt_malloc size h = Done p h' /\ heap_inv h' bs' /\
    heap_ptr h' = heap_ptr h /\ data h' = data h /\ (lowest h bs -> lowest h' bs') /\
    ((p = 0 /\ h' = h /\ bs' = bs) \/
     (p <> 0 /\ p mod 4 = 0 /\ exists l1 n l2, size <= n /\
        regions (heap_ptr h) bs = l1 ++ l2 /\ regions (heap_ptr h) bs' = l1 ++ (p, n) :: l2)).
Proof.
  intros HI H0 H32. destruct (malloc_done h bs size HI H0 H32) as (p & h' & bs' & E & HI' & (A1 & _ & _ & A4) & HL & HR).
  by exists p, h', bs'.
Qed.

Lemma regions_plug p b1 n b2 : regions p (plug b1 n b2) = regions p b1 ++ regions (p + total b1 + n) b2.
Proof.
  destruct (join_next n b2) as [n' b2'] eqn:EJ. rewrite (plug_join _ _ _ _ _ EJ).
  assert (forall q, regions (q + n') b2' = regions (q + n) b2) as HB.
  { intros q. destruct b2 as [|[m []] b2]; cbn in EJ; injection EJ as <- <-; [done..|].
    cbn. by rewrite Z.add_assoc. }
  unfold join_prev. destruct b1 as [|[l []] r _] using rev_ind; [|rewrite reverse_snoc..].
  - cbn. by rewrite HB, Z.add_0_r.
  - rewrite !(regions_app p). cbn [regions app]. by rewrite HB.
  - rewrite reverse_involutive, !(regions_app p), total_app. cbn [regions app total].
    rewrite app_nil_r, (Z.add_assoc _ l), HB. do 2 f_equal. lia.
Qed.

Lemma free_done h bs p n :
  heap_inv h bs -> (p, n) ∈ regions (heap_ptr h) bs ->
  exists h' bs' l1 l2, rt_free p h = Done tt h' /\ heap_inv h' bs' /\
    heap_ptr h' = heap_ptr h /\ data h' = data h /\ (lowest h bs -> lowest h' bs') /\
    regions (heap_ptr h) bs = l1 ++ (p, n) :: l2 /\ regions (heap_ptr h) bs' = l1 ++ l2.
Proof.
  intros HI (b1 & m & b2 & -> & -> & ->)%regions_inv.
  destruct (rt_free_spec h b1 m b2 HI) as (h' & E & HI' & Hd & Hp & _ & HL).
  exists h', (plug b1 m b2), (regions (heap_ptr h) b1), (regions (heap_ptr h + total b1 + m) b2).
  split_and!; try done; [by rewrite regions_app|by rewrite regions_plug].
Qed.

(** C4: [rt_free] of a live block preserves the heap invariant, never trips an
    assertion, and takes exactly that block off the live ones. *)
Theorem rt_free_correct h bs p n :
  heap_inv h bs -> (p, n) ∈ regions (heap_ptr h) bs ->
  exists h' bs' l1 l2, rt_free p h = Done tt h' /\ heap_inv h' bs' /\
    heap_ptr h' = heap_ptr h /\ data h' = data h /\ (lowest h bs -> lowest h' bs') /\
    regions (heap_ptr h) bs = l1 ++ (p, n) :: l2 /\ regions (heap_ptr h) bs' = l1 ++ l2.
Proof. apply free_done. Qed.

(** Freeing what was just split off restores the block list. *)
Lemma plug_split_block b1 n s b2 : s + 12 <= n -> coalesced (b1 ++ (n, false) :: b2) ->
  exists k c2, split_block n s ++ b2 = (k, true) :: c2 /\ plug b1 k c2 = b1 ++ (n, false) :: b2.
Proof.
  intros Hs (H1 & H2 & H3)%coalesced_app_iff.
  assert (Hprev : forall k, join_prev b1 k b2 = b1 ++ (k, false) :: b2).
  { intros k. unfold join_prev. destruct b1 as [|[l []] r _] using rev_ind; [done|rewrite reverse_snoc..]; [done|].
    unfold sep in H3. rewrite last_snoc in H3. done. }
  unfold split_block. destruct (s + 36 <=? n); cbn [app].
  - exists (s + 12), ((n - s - 12, false) :: b2). split; [done|].
    rewrite (plug_join b1 (s + 12) _ n b2); [apply Hprev|]. cbn. f_equal. lia.
  - exists n, b2. split; [done|]. rewrite (plug_join b1 n b2 n b2); [apply Hprev|].
    destruct b2 as [|[m []] b2]; [done..|]. by destruct H2.
Qed.

Lemma malloc_free_restores h bs size p h' :
  heap_inv h bs -> lowest h bs -> 0 < size -> size + 3 < 2 ^ 32 ->
  rt_malloc size h = Done p h' -> p <> 0 ->
  exists h'', rt_free p h' = Done tt h'' /\ heap_inv h'' bs /\ lfree h'' = lfree h /\
    used_mem h'' = used_mem h /\ data h'' = data h /\ lowest h'' bs /\ heap_ptr h'' = heap_ptr h.
Proof.
  intros HI HL H0 H32 E Hp.
  destruct (rt_malloc_takes h bs size HI H0 H32) as [E'|(h1 & b1 & n & b2 & E' & -> & Hn & HI' & HA & HL')];
    rewrite E in E'; [congruence|]. injection E' as -> ->. specialize (HL' HL).
  destruct (plug_split_block b1 n (malloc_size size) b2 Hn (hi_coal _ _ HI)) as (k & c2 & Ek & Epl).
  rewrite Ek in HI', HL'. destruct HA as (A1 & _ & _ & A4).
  destruct (rt_free_spec h1 b1 k c2 HI') as (h2 & E2 & HI2 & Hd & Hp2 & _ & HL2). rewrite Epl in HI2, HL2.
  exists h2. rewrite <- A1.
  split_and!; [done|done| |by rewrite (hi_used _ _ HI2), (hi_used _ _ HI)|congruence|by apply HL2|congruence].
  rewrite (HL2 HL'). by rewrite HL.
Qed.

(** [rt_free(rt_malloc(size))] restores the heap: the same blocks, the same
    free list entry point, the same statistics of used memory. *)
Theorem malloc_free_roundtrip h bs size p h' :
  heap_inv h bs -> lowest h bs -> 0 < size -> size + 3 < 2 ^ 32 ->
  rt_malloc size h = Done p h' -> p <> 0 ->
  exists h'', rt_free p h' = Done tt h'' /\ heap_inv h'' bs /\ lfree h'' = lfree h /\
    used_mem h'' = used_mem h /\ data h'' = data h.
Proof.
  intros HI HL H0 H32 E Hp. destruct (malloc_free_restores h bs size p h' HI HL H0 H32 E Hp) as (h2 & ? & ? & ? & ? & ? & _).
  by exists h2.
Qed.

Lemma first_fit_None limit s p bs : first_fit limit s p bs = None -> Forall blk_ok bs ->
  forall b1 n b2, bs = b1 ++ (n, false) :: b2 -> n < s + 12 \/ limit <= p + total b1.
Proof.
  revert p. induction bs as [|[m u] bs IH]; intros p HN Hok b1 n b2 E; [by destruct b1|].
  cbn in HN. apply Forall_cons in Hok as [[Hm _] Hok]. cbn in Hm.
  destruct b1 as [|[m' u'] b1]; injection E as -> -> ->; cbn [negb andb] in HN.
  - destruct (Z.ltb_spec p limit); [|right; cbn; lia].
    destruct (Z.leb_spec (s + 12) n); [done|]. left. lia.
  - assert (0 <= total b1) by (apply Forall_app in Hok as [? _]; by apply total_nonneg).
    destruct (Z.ltb_spec p limit); [|right; cbn; lia].
    destruct (negb u' && (s + 12 <=? m'))%bool; [done|].
    destruct (first_fit limit s (p + m') (b1 ++ (n, false) :: b2)) as [[? ?]|] eqn:EF; [done|].
    destruct (IH _ EF Hok b1 n b2 eq_refl); [by left|right; cbn; lia].
Qed.

(** [rt_malloc] fails only when it must, with one exception: if it returns
    RT_NULL for a request that the heap could hold at all, every free block is
    too small for the rounded request or is the last block of the heap and fits
    it exactly. *)
Theorem rt_malloc_fails_only_if h bs size b1 n b2 :
  heap_inv h bs -> lowest h bs -> 0 < size -> size + 3 < 2 ^ 32 ->
  RT_ALIGN size RT_ALIGN_SIZE <= mem_size_aligned h ->
  rt_malloc size h = Done 0 h -> bs = b1 ++ (n, false) :: b2 ->
  n < malloc_size size + 12 \/ (n = malloc_size size + 12 /\ b2 = []).
Proof.
  intros HI HL H0 H32 Hsz E Eb. pose proof (rt_malloc_spec h bs size HI HL H0 H32) as HS.
  pose proof (hi_blk _ _ HI) as Hok. pose proof (hi_tail _ _ HI) as (_ & Ht & _).
  pose proof (hi_end _ _ HI). pose proof (hi_ptr _ _ HI).
  destruct (alloc_spec (mem_size_aligned h) size bs) as [[q bs']|] eqn:EA.
  - destruct HS as (h' & E' & HI' & _). rewrite E in E'. injection E' as E' <-.
    assert (0 <= q); [|lia]. unfold alloc_spec in EA. destruct (_ <? _); [done|].
    revert EA Hok. generalize 0 at 1 2 as p. clear. revert bs'. induction bs as [|[m u] bs IH]; intros bs' p EA Hok; [done|].
    cbn in EA. apply Forall_cons in Hok as [[Hm _] Hok]. cbn in Hm. destruct (p <? _); [|done].
    destruct (negb u && _)%bool; [injection EA as -> _; lia|].
    destruct (first_fit _ _ (p + m) bs) as [[q' bs'']|] eqn:EF; [|done]. injection EA as -> _.
    specialize (IH _ _ EF Hok). lia.
  - unfold alloc_spec in EA. destruct (Z.ltb_spec (mem_size_aligned h) (RT_ALIGN size RT_ALIGN_SIZE)); [lia|].
    subst bs. destruct (first_fit_None _ _ _ _ EA Hok b1 n b2 eq_refl) as [?|Hlim]; [by left|].
    destruct (Z.lt_ge_cases n (malloc_size size + 12)); [by left|right].
    rewrite total_app in Ht. cbn in Ht. apply Forall_app in Hok as [_ [_ Hok2]%Forall_cons].
    apply total_nonneg in Hok2 as ?. assert (total b2 = 0 /\ n = malloc_size size + 12) as [Hz ->] by lia.
    split; [done|]. destruct b2 as [|[m v] b2]; [done|]. apply Forall_cons in Hok2 as [[Hm _] Hok2].
    apply total_nonneg in Hok2. cbn in Hm, Hz. lia.
Qed.

(** the exception is real: on a heap that is one free block, the request for
    all of it is refused, although it passes the size check. *)
Theorem rt_malloc_refuses_exact h :
  heap_inv h [(mem_size_aligned h + 12, false)] -> lowest h [(mem_size_aligned h + 12, false)] ->
  rt_malloc (mem_size_aligned h) h = Done 0 h.
Proof.
  intros HI HL. pose proof (hi_end _ _ HI) as [He Hm]. pose proof (hi_ptr _ _ HI).
  pose proof (hi_blk _ _ HI) as [[_ H4] _]%Forall_cons. cbn in H4.
  pose proof (rt_malloc_spec h _ (mem_size_aligned h) HI HL ltac:(lia) ltac:(lia)) as HS.
  assert (Ea : RT_ALIGN (mem_size_aligned h) 4 = mem_size_aligned h)
    by (rewrite RT_ALIGN_spec by lia; Z.div_mod_to_equations; lia).
  unfold alloc_spec, malloc_size, RT_ALIGN_SIZE, MIN_SIZE_ALIGNED in HS. rewrite Ea in HS.
  destruct (Z.ltb_spec (mem_size_aligned h) (mem_size_aligned h)); [lia|].
  destruct (Z.ltb_spec (mem_size_aligned h) 12); [lia|].
  cbn [first_fit] in HS. destruct (Z.ltb_spec 0 (mem_size_aligned h - mem_size_aligned h)); [lia|done].
Qed.

(** [rt_system_heap_init] establishes the invariant for every memory area
    of at least 36 bytes after alignment: one free block over the whole area. *)
Theorem rt_system_heap_init_correct h begin_addr end_addr :
  0 < begin_addr -> begin_addr + 3 < 2 ^ 32 -> 0 <= end_addr < 2 ^ 32 -> used_mem h = 0 ->
  RT_ALIGN begin_addr 4 + 36 <= RT_ALIGN_DOWN end_addr 4 ->
  exists h', rt_system_heap_init begin_addr end_addr h = Done tt h' /\
    heap_ptr h' = RT_ALIGN begin_addr 4 /\
    heap_ptr h' + heap_end h' + 12 = RT_ALIGN_DOWN end_addr 4 /\
    heap_inv h' [(mem_size_aligned h' + 12, false)] /\ lowest h' [(mem_size_aligned h' + 12, false)].
Proof.
  intros Hb Hb3 He Hu Hsz. unfold rt_system_heap_init, RT_ALIGN_SIZE, SIZEOF_STRUCT_MEM.
  destruct (RT_ALIGN_bounds begin_addr ltac:(lia) Hb3) as [Hba Hb4].
  assert (Hea : RT_ALIGN_DOWN end_addr 4 mod 4 = 0 /\ RT_ALIGN_DOWN end_addr 4 <= end_addr)
    by (rewrite RT_ALIGN_DOWN_spec by lia; Z.div_mod_to_equations; lia).
  set (b := RT_ALIGN begin_addr 4) in *. set (e := RT_ALIGN_DOWN end_addr 4) in *.
  destruct (Z.ltb_spec (2 * 12) e); [|lia]. destruct (Z.leb_spec b (e - 2 * 12)); [|lia]. cbn [andb].
  eexists. split; [reflexivity|]. cbn. split; [done|]. split; [lia|]. split; [|done].
  constructor; cbn; [lia|lia| |repeat constructor; cbn; [lia|Z.div_mod_to_equations; lia]|done|set_solver|lia].
  split; [cbn; split; [|done]|split; [cbn; lia|]].
  - by rewrite lookup_insert_ne, lookup_insert_eq by lia.
  - eexists. by rewrite lookup_insert_eq.
Qed.

(** a request within three bytes of the address space is not refused: the
    rounding of [RT_ALIGN] wraps to zero and the call hands out a block for 12
    bytes. *)
Theorem rt_malloc_wraps h bs size :
  heap_inv h bs -> 2 ^ 32 - 3 <= size < 2 ^ 32 -> rt_malloc size h = rt_malloc 12 h.
Proof.
  intros HI Hs. pose proof (hi_end _ _ HI) as [_ Hm].
  assert (Ea : RT_ALIGN size RT_ALIGN_SIZE = 0).
  { unfold RT_ALIGN, RT_ALIGN_SIZE, u32.
    assert (size = 2 ^ 32 - 3 \/ size = 2 ^ 32 - 2 \/ size = 2 ^ 32 - 1) as [->|[->| ->]] by lia; done. }
  assert (E12 : RT_ALIGN 12 RT_ALIGN_SIZE = 12) by done.
  unfold rt_malloc, malloc_size. rewrite Ea, E12. do 2 mstep.
  destruct (Z.eqb_spec size 0); [lia|]. destruct (Z.ltb_spec (mem_size_aligned h) 0); [lia|].
  cbn [Z.eqb]. destruct (Z.ltb_spec (mem_size_aligned h) 12); [lia|]. done.
Qed.

(** ** rt_calloc and rt_realloc *)

(** The payload memory covers the heap. *)
Definition data_ok (h : heap) : Prop :=
  bytes_ok (data h) /\ valid (data h) (heap_ptr h) (heap_end h).

Lemma heap_inv_set_data d h bs : heap_inv h bs -> heap_inv (set_data d h) bs.
Proof. by intros []. Qed.

Lemma regions_valid h bs p n k : heap_inv h bs -> data_ok h -> (p, n) ∈ regions (heap_ptr h) bs ->
  k <= n -> valid (data h) p k.
Proof.
  intros HI [_ Hv] Hin Hk. pose proof (regions_bounds _ _ _ _ (hi_blk _ _ HI) Hin).
  pose proof (hi_tail _ _ HI) as (_ & Ht & _). eapply valid_sub; [exact Hv|lia..].
Qed.

(** when [count * size] does not overflow, the block [rt_calloc] returns is
    a fresh live block of at least that size whose first [count * size] bytes
    are zero; the rest of the payload memory is unchanged. *)
Theorem rt_calloc_zeroed h bs count size :
  heap_inv h bs -> data_ok h -> 0 < count * size -> count * size + 3 < 2 ^ 32 ->
  exists p h' bs', rt_calloc count size h = Done p h' /\ heap_inv h' bs' /\
    ((p = 0 /\ h' = h) \/
     exists n, (p, n) ∈ regions (heap_ptr h) bs' /\ count * size <= n /\
       filled (data h) p 0 (count * size) (data h')).
Proof.
  intros HI HD H0 H32. unfold rt_calloc. rewrite u32_small by lia.
  destruct (rt_malloc_takes h bs (count * size) HI H0 H32)
    as [E|(h' & b1 & n & b2 & E & -> & Hn & HI' & (A1 & A2 & A3 & A4) & _)].
  { exists 0, h, bs. rewrite (after E). split_and!; try done. by left. }
  rewrite (after E). destruct (malloc_size_ok (count * size) H0 H32) as (_ & Hs & _).
  set (bs' := b1 ++ split_block n (malloc_size (count * size)) ++ b2) in *.
  destruct (regions_split_block (heap_ptr h + total b1) n _ b2 Hn) as (k & Hk & Ek).
  assert (Hin : (heap_ptr h + total b1 + 12, k) ∈ regions (heap_ptr h) bs').
  { unfold bs'. rewrite regions_app, Ek. set_solver. }
  assert (HD' : data_ok h') by (unfold data_ok; by rewrite A1, A2, A4).
  destruct (rt_memset_spec (data h') (heap_ptr h + total b1 + 12) 0 (count * size)) as (d & Ed & Hf); [lia| |].
  { eapply regions_valid; [exact HI'|done|rewrite A1; exact Hin|lia]. }
  pose proof (hi_ptr _ _ HI) as (? & _). pose proof (hi_blk _ _ HI) as [H1 _]%Forall_app. apply total_nonneg in H1.
  exists (heap_ptr h + total b1 + 12), (set_data d h'), bs'. split.
  { rewrite nz_true by lia. cbn [when]. unfold heap_memset, bind, ret. by rewrite Ed. }
  split; [by apply heap_inv_set_data|]. right. exists k. split; [done|]. split; [lia|]. by rewrite A4 in Hf.
Qed.

Lemma regions_mid p b1 n b2 : (p + total b1 + 12, n - 12) ∈ regions p (b1 ++ (n, true) :: b2).
Proof. rewrite regions_app. cbn. set_solver. Qed.

(** [rt_realloc] when the block shrinks enough to be split. *)
Lemma realloc_split h b1 n b2 ns :
  heap_inv h (b1 ++ (n, true) :: b2) -> 0 < ns -> ns mod 4 = 0 -> ns <= mem_size_aligned h ->
  RT_ALIGN ns 4 = ns -> ns + 24 < n - 12 ->
  exists h', rt_realloc (heap_ptr h + total b1 + 12) ns h = Done (heap_ptr h + total b1 + 12) h' /\
    heap_inv h' (plug (b1 ++ [(ns + 12, true)]) (n - (ns + 12)) b2) /\ data h' = data h.
Proof.
  intros HI H0 H4 Hms Ea Hlt. pose proof HI as [Hp He HT Hok Hco Hlf Hu].
  pose proof Hok as [H1 [[Hn Hn4] H2]%Forall_cons]%Forall_app. cbn in Hn, Hn4.
  apply total_nonneg in H1 as ?. apply total_nonneg in H2 as ?.
  pose proof HT as (_ & Htot & _). rewrite total_app in Htot. cbn in Htot.
  assert (4 <= ns) by (Z.div_mod_to_equations; lia).
  destruct (tail_split (items h) b1 n true (ns + 12) b2 (heap_end h)) as (pv & i & EP & EN & _ & HT');
    [done|lia|lia|done|]. cbn zeta in HT'.
  unfold rt_realloc, RT_ALIGN_SIZE, SIZEOF_STRUCT_MEM, MIN_SIZE. rewrite Ea. mstep.
  destruct (Z.ltb_spec (mem_size_aligned h) ns); [lia|]. destruct (Z.eqb_spec ns 0); [lia|].
  destruct (Z.eqb_spec (heap_ptr h + total b1 + 12) 0); [lia|]. do 2 mstep.
  destruct (Z.ltb_spec (heap_ptr h + total b1 + 12) (heap_ptr h)); [lia|].
  destruct (Z.leb_spec (heap_ptr h + heap_end h) (heap_ptr h + total b1 + 12)); [lia|]. cbn [orb].
  replace (heap_ptr h + total b1 + 12 - 12 - heap_ptr h) with (total b1) by lia.
  rewrite (after (item_done _ _ _ EP)). cbn [mnext].
  replace (total b1 + n - total b1 - 12) with (n - 12) by lia. rewrite (u32_small (n - 12)) by lia.
  destruct (Z.eqb_spec (n - 12) ns); [lia|]. destruct (Z.ltb_spec (ns + 12 + 12) (n - 12)); [|lia].
  do 2 mstep. replace (total b1 + 12 + ns) with (total b1 + (ns + 12)) by lia.
  erewrite (bind_done (upd (total b1) _)); [|apply upd_done; cbn; rewrite lookup_insert_ne by lia; exact EP].
  set (X := <[total b1 := _]> (<[total b1 + (ns + 12) := _]> (items h))) in HT'.
  set (it' := if total b1 + n =? heap_end h then X else <[total b1 + n := set_mprev (total b1 + (ns + 12)) i]> X) in HT'.
  set (h1 := set_items (fun _ => it') (sub_used (n - 12 - ns) h)).
  rewrite (bind_done _ _ _ tt h1).
  2: { unfold when, h1, it'. replace (mem_size_aligned h + 12) with (heap_end h) by lia.
       destruct (total b1 + n =? heap_end h); cbn [negb]; [done|].
       erewrite upd_done; [reflexivity|]. cbn. rewrite !lookup_insert_ne by lia. done. }
  assert (Et : total (b1 ++ [(ns + 12, true)]) = total b1 + (ns + 12)) by (rewrite total_app; cbn; lia).
  assert (Hok' : Forall blk_ok ((b1 ++ [(ns + 12, true)]) ++ (n - (ns + 12), false) :: b2)).
  { rewrite <- app_assoc. apply Forall_app_2; [done|]. cbn. rewrite !Forall_cons. unfold blk_ok. cbn.
    split_and!; try done; try lia; Z.div_mod_to_equations; lia. }
  destruct (plug_holes_spec h1 (b1 ++ [(ns + 12, true)]) (n - (ns + 12)) b2 Hok') as (h2 & E2 & R & T2 & L2 & _ & O2).
  { rewrite <- app_assoc. exact HT'. }
  { rewrite <- app_assoc. cbn [h1 set_items lfree sub_used]. apply elem_of_offs_app in Hlf as [?|Hx]; apply elem_of_offs_app; [by left|right].
    cbn [offs app] in Hx |- *. apply elem_of_cons in Hx as [->|Hx]; [set_solver|].
    replace (0 + total b1 + (ns + 12) + (n - (ns + 12))) with (0 + total b1 + n) by lia. set_solver. }
  rewrite Et in E2. rewrite (after E2). exists h2.
  destruct R as (R1 & R2 & R3 & R4 & R5 & R6). cbn in R1, R2, R3, R4, R5, R6.
  split; [done|]. split; [|done]. constructor; rewrite ?R1, ?R2, ?R3; try done.
  - apply coalesced_app_iff in Hco as (Hc1 & [_ Hc2]%(coalesced_app [_]) & _). apply plug_coalesced; [|done].
    apply coalesced_app_iff. split_and!; [done..|]. unfold sep. destruct (last b1) as [[? ?]|]; [|done].
    cbn. apply orb_true_r.
  - rewrite R4, used_total_plug, Hu, !used_total_app. cbn. pose proof (used_total_bounds _ H1).
    pose proof (used_total_bounds _ H2). rewrite u32_small by lia. lia.
Qed.

Lemma RT_ALIGN_aligned n : 0 <= n -> n + 3 < 2 ^ 32 -> n mod 4 = 0 -> RT_ALIGN n 4 = n.
Proof. intros. rewrite RT_ALIGN_spec by lia. Z.div_mod_to_equations. lia. Qed.

Lemma rt_realloc_aligned p n : 0 <= n -> n + 6 < 2 ^ 32 ->
  rt_realloc p n = rt_realloc p (RT_ALIGN n 4).
Proof.
  intros. destruct (RT_ALIGN_bounds n) as [? ?]; [lia..|].
  unfold rt_realloc, RT_ALIGN_SIZE. by rewrite (RT_ALIGN_aligned (RT_ALIGN n 4)) by lia.
Qed.

(** [rt_realloc] when the payload has to move (or cannot). *)
Lemma realloc_move h b1 n b2 ns :
  heap_inv h (b1 ++ (n, true) :: b2) -> 0 < ns -> ns <= mem_size_aligned h ->
  RT_ALIGN ns 4 = ns -> n - 12 <> ns -> n - 12 <= ns + 24 ->
  rt_realloc (heap_ptr h + total b1 + 12) ns h =
  (nmem <- rt_malloc ns;;
   when (nz nmem) (heap_memcpy nmem (heap_ptr h + total b1 + 12) (Z.min (n - 12) ns);;;
     rt_free (heap_ptr h + total b1 + 12));;;
   ret nmem) h.
Proof.
  intros HI H0 Hms Ea Hne Hle. pose proof HI as [Hp He HT Hok Hco Hlf Hu].
  pose proof Hok as [H1 [[Hn Hn4] H2]%Forall_cons]%Forall_app. cbn in Hn, Hn4.
  apply total_nonneg in H1 as ?. apply total_nonneg in H2 as ?.
  destruct (tail_flip _ _ _ _ true _ _ Hok HT) as (pv & EP & _).
  pose proof HT as (_ & Htot & _). rewrite total_app in Htot. cbn in Htot.
  unfold rt_realloc, RT_ALIGN_SIZE, SIZEOF_STRUCT_MEM, MIN_SIZE. rewrite Ea. mstep.
  destruct (Z.ltb_spec (mem_size_aligned h) ns); [lia|]. destruct (Z.eqb_spec ns 0); [lia|].
  destruct (Z.eqb_spec (heap_ptr h + total b1 + 12) 0); [lia|]. do 2 mstep.
  destruct (Z.ltb_spec (heap_ptr h + total b1 + 12) (heap_ptr h)); [lia|].
  destruct (Z.leb_spec (heap_ptr h + heap_end h) (heap_ptr h + total b1 + 12)); [lia|]. cbn [orb].
  replace (heap_ptr h + total b1 + 12 - 12 - heap_ptr h) with (total b1) by lia.
  rewrite (after (item_done _ _ _ EP)). cbn [mnext].
  replace (total b1 + n - total b1 - 12) with (n - 12) by lia. rewrite (u32_small (n - 12)) by lia.
  destruct (Z.eqb_spec (n - 12) ns); [lia|]. destruct (Z.ltb_spec (ns + 12 + 12) (n - 12)); [lia|].
  assert (Z.min (n - 12) ns = if n - 12 <? ns then n - 12 else ns) as ->; [|done].
  destruct (Z.ltb_spec (n - 12) ns); lia.
Qed.

Lemma realloc_same h b1 n b2 :
  heap_inv h (b1 ++ (n, true) :: b2) -> n - 12 <= mem_size_aligned h ->
  RT_ALIGN (n - 12) 4 = n - 12 ->
  rt_realloc (heap_ptr h + total b1 + 12) (n - 12) h = Done (heap_ptr h + total b1 + 12) h.
Proof.
  intros HI Hms Ea. pose proof HI as [Hp He HT Hok Hco Hlf Hu].
  pose proof Hok as [H1 [[Hn Hn4] H2]%Forall_cons]%Forall_app. cbn in Hn, Hn4.
  apply total_nonneg in H1 as ?. apply total_nonneg in H2 as ?.
  destruct (tail_flip _ _ _ _ true _ _ Hok HT) as (pv & EP & _).
  pose proof HT as (_ & Htot & _). rewrite total_app in Htot. cbn in Htot.
  unfold rt_realloc, RT_ALIGN_SIZE, SIZEOF_STRUCT_MEM, MIN_SIZE. rewrite Ea. mstep.
  destruct (Z.ltb_spec (mem_size_aligned h) (n - 12)); [lia|]. destruct (Z.eqb_spec (n - 12) 0); [lia|].
  destruct (Z.eqb_spec (heap_ptr h + total b1 + 12) 0); [lia|]. do 2 mstep.
  destruct (Z.ltb_spec (heap_ptr h + total b1 + 12) (heap_ptr h)); [lia|].
  destruct (Z.leb_spec (heap_ptr h + heap_end h) (heap_ptr h + total b1 + 12)); [lia|]. cbn [orb].
  replace (heap_ptr h + total b1 + 12 - 12 - heap_ptr h) with (total b1) by lia.
  rewrite (after (item_done _ _ _ EP)). cbn [mnext].
  replace (total b1 + n - total b1 - 12) with (n - 12) by lia. rewrite (u32_small (n - 12)) by lia.
  by rewrite Z.eqb_refl.
Qed.

(** Two live blocks of a heap do not overlap. *)
Lemma regions_apart p b1 n b2 q k : Forall blk_ok (b1 ++ (n, true) :: b2) ->
  (q, k) ∈ regions p b1 ++ regions (p + total b1 + n) b2 ->
  q + k <= p + total b1 \/ p + total b1 + n <= q.
Proof.
  intros [H1 [_ H2]%Forall_cons]%Forall_app [Hin|Hin]%elem_of_app.
  - left. apply regions_bounds in Hin; [lia|done].
  - right. apply regions_bounds in Hin; [lia|done].
Qed.

(** What a [rt_realloc] promises: the block it returns is live, large enough and
    starts with the bytes of the old one; the other live blocks stay. *)
Definition realloc_ok (h : heap) (bs : list blk) (p old newsize q : Z) (h' : heap) (bs' : list blk) : Prop :=
  ((q = 0 /\ h' = h /\ bs' = bs) \/
   exists n, (q, n) ∈ regions (heap_ptr h) bs' /\ newsize <= n /\
     forall i, 0 <= i < Z.min old newsize -> data h' !! (q + i) = data h !! (p + i)) /\
  forall r, r ∈ regions (heap_ptr h) bs -> r <> (p, old) -> r ∈ regions (heap_ptr h) bs'.

Lemma realloc_move_ok h b1 n b2 ns :
  heap_inv h (b1 ++ (n, true) :: b2) -> data_ok h -> 0 < ns -> ns + 3 < 2 ^ 32 -> ns <= mem_size_aligned h ->
  let p := heap_ptr h + total b1 + 12 in
  exists q h' bs',
    (nmem <- rt_malloc ns;;
     when (nz nmem) (heap_memcpy nmem p (Z.min (n - 12) ns);;; rt_free p);;; ret nmem) h = Done q h' /\
    heap_inv h' bs' /\ realloc_ok h (b1 ++ (n, true) :: b2) p (n - 12) ns q h' bs'.
Proof.
  cbn zeta. intros HI HD H0 H32 Hms.
  destruct (rt_malloc_takes h _ ns HI H0 H32) as [E|(h1 & c1 & m & c2 & E & Ebs & Hm & HI1 & (A1 & A2 & A3 & A4) & _)].
  { exists 0, h, (b1 ++ (n, true) :: b2). rewrite (after E). split; [done|]. split; [done|].
    split; [by left|done]. }
  rewrite (after E). destruct (malloc_size_ok ns H0 H32) as (_ & Hs & _).
  destruct (regions_split_block (heap_ptr h + total c1) m _ c2 Hm) as (k & Hk & Ek).
  set (bs1 := c1 ++ split_block m (malloc_size ns) ++ c2) in *.
  set (q := heap_ptr h + total c1 + 12) in *. set (p := heap_ptr h + total b1 + 12).
  assert (Hreg1 : regions (heap_ptr h) bs1 = regions (heap_ptr h) c1 ++ (q, k) :: regions (heap_ptr h + total c1 + m) c2)
    by (unfold bs1; by rewrite regions_app, Ek).
  assert (Hreg0 : regions (heap_ptr h) (b1 ++ (n, true) :: b2) =
    regions (heap_ptr h) c1 ++ regions (heap_ptr h + total c1 + m) c2) by (rewrite Ebs, regions_app; done).
  pose proof (regions_mid (heap_ptr h) b1 n b2) as Hp0. fold p in Hp0.
  assert (Hp1 : (p, n - 12) ∈ regions (heap_ptr h) bs1) by (rewrite Hreg1; rewrite Hreg0 in Hp0; set_solver).
  assert (Hq1 : (q, k) ∈ regions (heap_ptr h) bs1) by (rewrite Hreg1; set_solver).
  pose proof (hi_blk _ _ HI1) as Hok1. pose proof (hi_ptr _ _ HI) as (? & _).
  assert (Hap : q + k <= p \/ p + (n - 12) <= q).
  { pose proof (hi_blk _ _ HI) as Hok. rewrite Ebs in Hok. pose proof Hok as [Hc1 [[Hm16 _] Hc2]%Forall_cons]%Forall_app.
    pose proof (regions_bounds _ _ _ _ Hok1 Hq1). rewrite Hreg0 in Hp0. apply elem_of_app in Hp0 as [Hin|Hin].
    - right. apply regions_bounds in Hin; [|done]. unfold q. lia.
    - left. apply regions_bounds in Hin; [|done].
      unfold q. lia. }
  destruct (rt_memcpy_spec (data h1) q p (Z.min (n - 12) ns)) as (d & Ed & Hc).
  { pose proof (regions_bounds _ _ _ _ Hok1 Hp1). lia. }
  { rewrite A4. apply HD. }
  { rewrite A4. rewrite <- A1 in Hq1. eapply (regions_valid h1 bs1 q k) in HI1; [|unfold data_ok; by rewrite A1, A2, A4|done|reflexivity].
    rewrite <- A4. eapply valid_sub; [exact HI1|lia..]. }
  { rewrite A4. eapply (regions_valid h); [exact HI|done|exact Hp0|lia]. }
  { lia. }
  rewrite <- A1 in Hp1. apply regions_inv in Hp1 as (e1 & n' & e2 & Ee & Ep & En). rewrite Ee in HI1.
  destruct (rt_free_spec (set_data d h1) e1 n' e2 (heap_inv_set_data d _ _ HI1)) as (h2 & E2 & HI2 & Hd2 & _).
  cbn in E2. rewrite <- Ep in E2.
  exists q, h2, (plug e1 n' e2). split.
  { rewrite nz_true by (unfold q; pose proof (hi_blk _ _ HI1); pose proof (regions_bounds _ _ _ _ Hok1 Hq1); lia).
    cbn [when]. unfold bind at 1. rewrite (bind_done _ _ _ tt (set_data d h1)) by (unfold heap_memcpy; by rewrite Ed).
    by rewrite E2. }
  split; [done|].
  assert (Hother : forall r, r ∈ regions (heap_ptr h) bs1 -> r <> (p, n - 12) -> r ∈ regions (heap_ptr h) (plug e1 n' e2)).
  { intros r Hr Hne. rewrite Ee, regions_app in Hr. rewrite regions_plug. cbn [regions app] in Hr.
    rewrite A1 in Ep. rewrite <- Ep, <- En in Hr. set_solver. }
  split.
  - right. exists k. split; [|split; [lia|]].
    + apply Hother; [done|]. pose proof (regions_bounds _ _ _ _ Hok1 Hq1). intros [= -> ->]. lia.
    + intros i Hi. rewrite Hd2. cbn. rewrite (Hc (q + i)), A4. case_decide; [|lia]. f_equal. lia.
  - intros r Hr Hne. apply Hother; [|done]. rewrite Hreg1. rewrite Hreg0 in Hr. set_solver.
Qed.


(** ** A small heap *)

Definition heap0 : heap := Heap 0 0 0 0 0 0 ∅ ∅.

(** shrinking a block with [rt_realloc] can lose memory: the remainder is
    linked in as a free block but [lfree] is not lowered to it, so on a heap
    that is otherwise full the next request fails although an 80-byte block is
    free. *)
Theorem rt_realloc_loses_block :
  exists p q h1 h2,
    (rt_system_heap_init 0x1000 0x10f0;;; p <- rt_malloc 100;; q <- rt_malloc 100;; ret (p, q)) heap0
      = Done (p, q) h1 /\
    rt_realloc p 20 h1 = Done p h2 /\
    items h2 !! 32 = Some (HeapMem HEAP_MAGIC 0 112 0) /\
    rt_malloc 12 h2 = Done 0 h2.
Proof.
  eexists _, _, _, _. split; [vm_compute; reflexivity|]. split; [vm_compute; reflexivity|].
  split; vm_compute; reflexivity.
Qed.

(** The heap after initialisation, and with one block of 100 bytes allocated. *)
Definition demo_data : mem := list_to_map ((fun a => (a, 7)) <$> seqZ 0x1000 240).
Definition demo_free : heap := Heap 0x1000 228 0 216 0 0
  {[0 := HeapMem HEAP_MAGIC 0 228 0; 228 := HeapMem HEAP_MAGIC 1 228 228]} demo_data.
Definition demo_one : heap := Heap 0x1000 228 112 216 112 112
  {[0 := HeapMem HEAP_MAGIC 1 112 0; 112 := HeapMem HEAP_MAGIC 0 228 0;
    228 := HeapMem HEAP_MAGIC 1 228 228]} demo_data.

Lemma demo_free_inv : heap_inv demo_free [(228, false)].
Proof.
  constructor; try done; [repeat split; by eexists|by repeat constructor|cbn; set_solver].
Qed.

Lemma demo_one_inv : heap_inv demo_one [(112, true); (116, false)].
Proof.
  constructor; try done; [repeat split; by eexists|by repeat constructor|cbn; set_solver].
Qed.

Lemma demo_data_bytes : bytes_ok demo_data /\ valid demo_data 0x1000 240.
Proof.
  split.
  - intros a v (x & [= -> ->] & _)%elem_of_list_to_map_2%list_elem_of_fmap. lia.
  - intros i Hi. exists 7. apply elem_of_list_to_map_1.
    + assert (((fun a => (a, 7)) <$> seqZ 0x1000 240).*1 = seqZ 0x1000 240) as ->
        by (vm_compute; reflexivity).
      apply NoDup_seqZ.
    + apply list_elem_of_fmap. exists i. split; [done|]. apply elem_of_seqZ. lia.
Qed.

Lemma demo_data_ok h : heap_ptr h = 0x1000 -> heap_end h = 228 -> data h = demo_data -> data_ok h.
Proof.
  intros E1 E2 E3. unfold data_ok. rewrite E1, E2, E3. destruct demo_data_bytes as [HB HV].
  split; [done|]. eapply valid_sub; [exact HV|lia..].
Qed.

Lemma heap_regions_disjoint_witness :
  (0x100c, 100).1 mod 4 = 0 /\ 0x1000 <= (0x100c, 100).1 /\ (0x100c, 100).1 + (0x100c, 100).2 <= 0x1000 + 228 /\
  ((0x100c, 100) = (0x100c, 100) \/ disjoint (0x100c, 100) (0x100c, 100)).
Proof.
  apply (heap_regions_disjoint demo_one _ (0x100c, 100) (0x100c, 100) demo_one_inv); cbn; set_solver.
Defined.

Lemma rt_malloc_correct_witness :
  exists p h' bs', rt_malloc 100 demo_free = Done p h' /\ heap_inv h' bs' /\
    heap_ptr h' = 0x1000 /\ data h' = demo_data /\ (lowest demo_free [(228, false)] -> lowest h' bs') /\
    ((p = 0 /\ h' = demo_free /\ bs' = [(228, false)]) \/
     (p <> 0 /\ p mod 4 = 0 /\ exists l1 n l2, 100 <= n /\
        regions 0x1000 [(228, false)] = l1 ++ l2 /\ regions 0x1000 bs' = l1 ++ (p, n) :: l2)).
Proof. apply (rt_malloc_correct demo_free [(228, false)] 100 demo_free_inv); lia. Defined.

Lemma rt_free_correct_witness :
  exists h' bs' l1 l2, rt_free 0x100c demo_one = Done tt h' /\ heap_inv h' bs' /\
    heap_ptr h' = 0x1000 /\ data h' = demo_data /\
    (lowest demo_one [(112, true); (116, false)] -> lowest h' bs') /\
    regions 0x1000 [(112, true); (116, false)] = l1 ++ (0x100c, 100) :: l2 /\
    regions 0x1000 bs' = l1 ++ l2.
Proof. apply (rt_free_correct demo_one _ 0x100c 100 demo_one_inv). cbn. set_solver. Defined.

Lemma malloc_free_roundtrip_witness :
  exists p h' h'', rt_malloc 100 demo_free = Done p h' /\ rt_free p h' = Done tt h'' /\
    heap_inv h'' [(228, false)] /\ lfree h'' = 0 /\ used_mem h'' = 0 /\ data h'' = demo_data.
Proof.
  assert (exists p h', rt_malloc 100 demo_free = Done p h' /\ p <> 0) as (p & h' & E & Hp)
    by (eexists _, _; split; [vm_compute; reflexivity|lia]).
  destruct (malloc_free_roundtrip demo_free [(228, false)] 100 p h' demo_free_inv) as (h'' & HR);
    [done|lia|lia|done|done|]. exists p, h', h''. done.
Defined.

Lemma rt_malloc_fails_only_if_witness :
  228 < malloc_size 216 + 12 \/ (228 = malloc_size 216 + 12 /\ @nil blk = []).
Proof.
  apply (rt_malloc_fails_only_if demo_free [(228, false)] 216 [] 228 [] demo_free_inv);
    [done|lia|lia|by vm_compute|by vm_compute|done].
Defined.

Lemma rt_malloc_refuses_exact_witness : rt_malloc 216 demo_free = Done 0 demo_free.
Proof. apply (rt_malloc_refuses_exact demo_free demo_free_inv). done. Defined.

Lemma rt_system_heap_init_correct_witness :
  exists h', rt_system_heap_init 0x1001 0x10f2 heap0 = Done tt h' /\
    heap_ptr h' = RT_ALIGN 0x1001 4 /\ heap_ptr h' + heap_end h' + 12 = RT_ALIGN_DOWN 0x10f2 4 /\
    heap_inv h' [(mem_size_aligned h' + 12, false)] /\ lowest h' [(mem_size_aligned h' + 12, false)].
Proof.
  apply (rt_system_heap_init_correct heap0 0x1001 0x10f2); [lia|lia|lia|done|by vm_compute].
Defined.

Lemma rt_malloc_wraps_witness : rt_malloc 0xffffffff demo_free = rt_malloc 12 demo_free.
Proof. apply (rt_malloc_wraps demo_free [(228, false)] 0xffffffff demo_free_inv). lia. Defined.

Lemma rt_calloc_zeroed_witness :
  exists p h' bs', rt_calloc 5 8 demo_free = Done p h' /\ heap_inv h' bs' /\
    ((p = 0 /\ h' = demo_free) \/
     exists n, (p, n) ∈ regions 0x1000 bs' /\ 5 * 8 <= n /\ filled demo_data p 0 (5 * 8) (data h')).
Proof.
  apply (rt_calloc_zeroed demo_free [(228, false)] 5 8 demo_free_inv); [by apply demo_data_ok|lia|lia].
Defined.

