(* ===== verification/Kernel.v ===== *)
(** * The state of the kernel

    The data structures of include/rtdef.h and the static variables of the
    kernel files, as records.

    Addresses are integers and RT_NULL is 0.  A kernel object begins with a
    [struct rt_object]; the headers are kept in one map [k_hdr] (an [oid] is
    the address of a header: that of an object, or of the timer embedded in a
    thread), what follows the header is kept in one map per structure.  The
    intrusive lists are kept as sequences, indexed by their heads: [LReady p] is
    [rt_thread_priority_table[p]], [LDefunct] is [rt_thread_defunct],
    [LSuspend o] and [LSender o] are the two lists of the IPC object at [o].
    RtList.v proves that the pointer code implements the sequence operations
    used here as long as a node is inserted only when it is in no list; the
    operations below stop with [Undefined] otherwise.

    The configuration is that of bsp/stm32f4xx-HAL-BOX/rtconfig.h.  Interrupts
    are taken between kernel calls: a call runs without interruption up to its
    end or to the [rt_schedule] in which it blocks.  The hook functions are not
    set. *)

From S2P Require Import Prelude RtList Exec KService Mem.

Definition RT_NULL : Z := 0.

(** ** Objects (include/rtdef.h) *)

Inductive oid := Obj (a : Z) | TimerOf (t : Z).

#[export] Instance oid_eq_dec : EqDecision oid.
Proof. solve_decision. Defined.
#[export] Instance oid_countable : Countable oid.
Proof.
  apply (inj_countable' (fun o => match o with Obj a => inl a | TimerOf t => inr t end)
    (fun s => match s with inl a => Obj a | inr t => TimerOf t end)).
  by intros [].
Defined.

Record rt_object := Object { oname : list Z; otype : Z; oflag : Z }.

Definition RT_Object_Class_Thread : Z := 0.
Definition RT_Object_Class_Semaphore : Z := 1.
Definition RT_Object_Class_Mutex : Z := 2.
Definition RT_Object_Class_Event : Z := 3.
Definition RT_Object_Class_MailBox : Z := 4.
Definition RT_Object_Class_MessageQueue : Z := 5.
Definition RT_Object_Class_MemHeap : Z := 6.
Definition RT_Object_Class_MemPool : Z := 7.
Definition RT_Object_Class_Device : Z := 8.
Definition RT_Object_Class_Timer : Z := 9.
Definition RT_Object_Class_Module : Z := 10.
Definition RT_Object_Class_Unknown : Z := 11.
Definition RT_Object_Class_Static : Z := 0x80.

(** ** Threads and timers *)

Definition RT_THREAD_INIT : Z := 0.
Definition RT_THREAD_READY : Z := 1.
Definition RT_THREAD_SUSPEND : Z := 2.
Definition RT_THREAD_CLOSE : Z := 4.
Definition RT_THREAD_STAT_MASK : Z := 0x0f.

Definition RT_THREAD_CTRL_STARTUP : Z := 0.
Definition RT_THREAD_CTRL_CLOSE : Z := 1.
Definition RT_THREAD_CTRL_CHANGE_PRIORITY : Z := 2.

Definition RT_TIMER_FLAG_ACTIVATED : Z := 1.
Definition RT_TIMER_FLAG_PERIODIC : Z := 2.
Definition RT_TIMER_CTRL_SET_TIME : Z := 0.
Definition RT_TIMER_CTRL_GET_TIME : Z := 1.
Definition RT_TIMER_CTRL_SET_ONESHOT : Z := 2.
Definition RT_TIMER_CTRL_SET_PERIODIC : Z := 3.
Definition RT_TICK_MAX : Z := 0xffffffff.

Definition RT_IPC_FLAG_FIFO : Z := 0.
Definition RT_IPC_FLAG_PRIO : Z := 1.
Definition RT_IPC_CMD_RESET : Z := 1.
Definition RT_WAITING_FOREVER : Z := -1.

(** [stack_guard] is the byte at [stack_addr], which the overflow check reads. *)
Record rt_thread := Thread {
  sp : Z; entry : Z; parameter : Z; stack_addr : Z; stack_size : Z; stack_guard : Z;
  error : Z; stat : Z; current_priority : Z; init_priority : Z; number_mask : Z;
  event_set : Z; event_info : Z; init_tick : Z; remaining_tick : Z; cleanup : Z; user_data : Z
}.

Definition set_error (v : Z) (th : rt_thread) : rt_thread :=
  Thread (sp th) (entry th) (parameter th) (stack_addr th) (stack_size th) (stack_guard th) v
    (stat th) (current_priority th) (init_priority th) (number_mask th) (event_set th)
    (event_info th) (init_tick th) (remaining_tick th) (cleanup th) (user_data th).
Definition set_stat (v : Z) (th : rt_thread) : rt_thread :=
  Thread (sp th) (entry th) (parameter th) (stack_addr th) (stack_size th) (stack_guard th)
    (error th) v (current_priority th) (init_priority th) (number_mask th) (event_set th)
    (event_info th) (init_tick th) (remaining_tick th) (cleanup th) (user_data th).
Definition set_event_set (v : Z) (th : rt_thread) : rt_thread :=
  Thread (sp th) (entry th) (parameter th) (stack_addr th) (stack_size th) (stack_guard th)
    (error th) (stat th) (current_priority th) (init_priority th) (number_mask th) v (event_info
    th) (init_tick th) (remaining_tick th) (cleanup th) (user_data th).
Definition set_event_info (v : Z) (th : rt_thread) : rt_thread :=
  Thread (sp th) (entry th) (parameter th) (stack_addr th) (stack_size th) (stack_guard th)
    (error th) (stat th) (current_priority th) (init_priority th) (number_mask th) (event_set
    th) v (init_tick th) (remaining_tick th) (cleanup th) (user_data th).
Definition set_remaining_tick (v : Z) (th : rt_thread) : rt_thread :=
  Thread (sp th) (entry th) (parameter th) (stack_addr th) (stack_size th) (stack_guard th)
    (error th) (stat th) (current_priority th) (init_priority th) (number_mask th) (event_set
    th) (event_info th) (init_tick th) v (cleanup th) (user_data th).
Definition set_cleanup (v : Z) (th : rt_thread) : rt_thread :=
  Thread (sp th) (entry th) (parameter th) (stack_addr th) (stack_size th) (stack_guard th)
    (error th) (stat th) (current_priority th) (init_priority th) (number_mask th) (event_set
    th) (event_info th) (init_tick th) (remaining_tick th) v (user_data th).
(** [current_priority] and [number_mask]. *)
Definition set_priority (p mask : Z) (th : rt_thread) : rt_thread :=
  Thread (sp th) (entry th) (parameter th) (stack_addr th) (stack_size th) (stack_guard th)
    (error th) (stat th) p (init_priority th) mask (event_set th) (event_info th) (init_tick th)
    (remaining_tick th) (cleanup th) (user_data th).

(** What a timer calls when it expires: [rt_thread_timeout], or a function of
    the application, identified by its address. *)
Inductive callback := ThreadTimeout | UserTimeout (f : Z).

Record rt_timer := Timer { timeout_func : callback; tparameter : Z; tinit_tick : Z; timeout_tick : Z }.

(** ** IPC objects and memory pools, without the header *)

Record rt_semaphore := Semaphore { sem_value : Z }.

Record rt_mutex := Mutex { mtx_value : Z; original_priority : Z; hold : Z; owner : Z }.

Record rt_event := Event { evt_set : Z }.

(** [mb_buf] is the array [msg_pool] points to. *)
Record rt_mailbox := Mailbox {
  mb_pool : Z; mb_buf : list Z; mb_size : Z; mb_entry : Z; in_offset : Z; out_offset : Z
}.

(** A node of a message queue: the link and the message behind it. *)
Record rt_mq_message := MqMessage { mq_next : Z; mq_data : list Z }.

(** [mq_nodes] is the memory [msg_pool] points to. *)
Record rt_messagequeue := MessageQueue {
  mq_pool : Z; mq_nodes : gmap Z rt_mq_message; msg_size : Z; max_msgs : Z; mq_entry : Z;
  msg_queue_head : Z; msg_queue_tail : Z; msg_queue_free : Z
}.

(** [mp_links] holds the word at the start of every block: the next free block,
    or the pool once the block is allocated. *)
Record rt_mempool := Mempool {
  start_address : Z; mp_size : Z; mp_block_size : Z; block_list : Z; mp_links : gmap Z Z;
  block_total_count : Z; block_free_count : Z; suspend_thread_count : Z
}.

(** ** The kernel *)

Inductive lhead := LReady (p : Z) | LDefunct | LSuspend (o : Z) | LSender (o : Z).

#[export] Instance lhead_eq_dec : EqDecision lhead.
Proof. solve_decision. Defined.
#[export] Instance lhead_countable : Countable lhead.
Proof.
  apply (inj_countable'
    (fun h => match h with
              | LReady p => inl (inl p) | LDefunct => inl (inr tt)
              | LSuspend o => inr (inl o) | LSender o => inr (inr o)
              end)
    (fun s => match s with
              | inl (inl p) => LReady p | inl (inr _) => LDefunct
              | inr (inl o) => LSuspend o | inr (inr o) => LSender o
              end)).
  by intros [].
Defined.

Record kernel := Kernel {
  k_hdr : gmap oid rt_object;  (* the headers of the kernel objects *)
  k_cont : gmap Z (list oid);  (* the object lists of the containers, by class *)
  k_thr : gmap Z rt_thread;  (* threads, by address *)
  k_tl : gmap lhead (list Z);  (* the thread lists: ready table, suspend lists, defunct list *)
  k_tm : gmap oid rt_timer;  (* timers, by the address of their header *)
  k_tmlist : list oid;  (* rt_timer_list *)
  k_group : Z;  (* rt_thread_ready_priority_group *)
  k_cur : Z;  (* rt_current_thread *)
  k_curprio : Z;  (* rt_current_priority *)
  k_lock : Z;  (* rt_scheduler_lock_nest *)
  k_irq : Z;  (* rt_interrupt_nest *)
  k_tick : Z;  (* rt_tick *)
  k_random : Z;  (* random_nr of rt_timer_start *)
  k_heap : heap;  (* the system heap *)
  k_sem : gmap Z rt_semaphore;  (* semaphores *)
  k_mtx : gmap Z rt_mutex;  (* mutexes *)
  k_evt : gmap Z rt_event;  (* events *)
  k_mb : gmap Z rt_mailbox;  (* mailboxes *)
  k_mq : gmap Z rt_messagequeue;  (* message queues *)
  k_mp : gmap Z rt_mempool  (* memory pools *)
}.

(** Assignments to the fields. *)
Definition upd_hdr (f : (gmap oid rt_object) -> (gmap oid rt_object)) (k : kernel) : kernel :=
  Kernel (f (k_hdr k)) (k_cont k) (k_thr k) (k_tl k) (k_tm k) (k_tmlist k) (k_group k)
    (k_cur k) (k_curprio k) (k_lock k) (k_irq k) (k_tick k) (k_random k) (k_heap k) (k_sem k)
    (k_mtx k) (k_evt k) (k_mb k) (k_mq k) (k_mp k).
Definition upd_cont (f : (gmap Z (list oid)) -> (gmap Z (list oid))) (k : kernel) : kernel :=
  Kernel (k_hdr k) (f (k_cont k)) (k_thr k) (k_tl k) (k_tm k) (k_tmlist k) (k_group k)
    (k_cur k) (k_curprio k) (k_lock k) (k_irq k) (k_tick k) (k_random k) (k_heap k) (k_sem k)
    (k_mtx k) (k_evt k) (k_mb k) (k_mq k) (k_mp k).
Definition upd_thr (f : (gmap Z rt_thread) -> (gmap Z rt_thread)) (k : kernel) : kernel :=
  Kernel (k_hdr k) (k_cont k) (f (k_thr k)) (k_tl k) (k_tm k) (k_tmlist k) (k_group k)
    (k_cur k) (k_curprio k) (k_lock k) (k_irq k) (k_tick k) (k_random k) (k_heap k) (k_sem k)
    (k_mtx k) (k_evt k) (k_mb k) (k_mq k) (k_mp k).
Definition upd_tl (f : (gmap lhead (list Z)) -> (gmap lhead (list Z))) (k : kernel) : kernel :=
  Kernel (k_hdr k) (k_cont k) (k_thr k) (f (k_tl k)) (k_tm k) (k_tmlist k) (k_group k)
    (k_cur k) (k_curprio k) (k_lock k) (k_irq k) (k_tick k) (k_random k) (k_heap k) (k_sem k)
    (k_mtx k) (k_evt k) (k_mb k) (k_mq k) (k_mp k).
Definition upd_tm (f : (gmap oid rt_timer) -> (gmap oid rt_timer)) (k : kernel) : kernel :=
  Kernel (k_hdr k) (k_cont k) (k_thr k) (k_tl k) (f (k_tm k)) (k_tmlist k) (k_group k)
    (k_cur k) (k_curprio k) (k_lock k) (k_irq k) (k_tick k) (k_random k) (k_heap k) (k_sem k)
    (k_mtx k) (k_evt k) (k_mb k) (k_mq k) (k_mp k).
Definition upd_tmlist (f : (list oid) -> (list oid)) (k : kernel) : kernel :=
  Kernel (k_hdr k) (k_cont k) (k_thr k) (k_tl k) (k_tm k) (f (k_tmlist k)) (k_group k)
    (k_cur k) (k_curprio k) (k_lock k) (k_irq k) (k_tick k) (k_random k) (k_heap k) (k_sem k)
    (k_mtx k) (k_evt k) (k_mb k) (k_mq k) (k_mp k).
Definition upd_group (f : Z -> Z) (k : kernel) : kernel :=
  Kernel (k_hdr k) (k_cont k) (k_thr k) (k_tl k) (k_tm k) (k_tmlist k) (f (k_group k))
    (k_cur k) (k_curprio k) (k_lock k) (k_irq k) (k_tick k) (k_random k) (k_heap k) (k_sem k)
    (k_mtx k) (k_evt k) (k_mb k) (k_mq k) (k_mp k).
Definition upd_cur (f : Z -> Z) (k : kernel) : kernel :=
  Kernel (k_hdr k) (k_cont k) (k_thr k) (k_tl k) (k_tm k) (k_tmlist k) (k_group k) (f (k_cur
    k)) (k_curprio k) (k_lock k) (k_irq k) (k_tick k) (k_random k) (k_heap k) (k_sem k) (k_mtx
    k) (k_evt k) (k_mb k) (k_mq k) (k_mp k).
Definition upd_curprio (f : Z -> Z) (k : kernel) : kernel :=
  Kernel (k_hdr k) (k_cont k) (k_thr k) (k_tl k) (k_tm k) (k_tmlist k) (k_group k) (k_cur k)
    (f (k_curprio k)) (k_lock k) (k_irq k) (k_tick k) (k_random k) (k_heap k) (k_sem k) (k_mtx
    k) (k_evt k) (k_mb k) (k_mq k) (k_mp k).
Definition upd_lock (f : Z -> Z) (k : kernel) : kernel :=
  Kernel (k_hdr k) (k_cont k) (k_thr k) (k_tl k) (k_tm k) (k_tmlist k) (k_group k) (k_cur k)
    (k_curprio k) (f (k_lock k)) (k_irq k) (k_tick k) (k_random k) (k_heap k) (k_sem k) (k_mtx
    k) (k_evt k) (k_mb k) (k_mq k) (k_mp k).
Definition upd_irq (f : Z -> Z) (k : kernel) : kernel :=
  Kernel (k_hdr k) (k_cont k) (k_thr k) (k_tl k) (k_tm k) (k_tmlist k) (k_group k) (k_cur k)
    (k_curprio k) (k_lock k) (f (k_irq k)) (k_tick k) (k_random k) (k_heap k) (k_sem k) (k_mtx
    k) (k_evt k) (k_mb k) (k_mq k) (k_mp k).
Definition upd_tick (f : Z -> Z) (k : kernel) : kernel :=
  Kernel (k_hdr k) (k_cont k) (k_thr k) (k_tl k) (k_tm k) (k_tmlist k) (k_group k) (k_cur k)
    (k_curprio k) (k_lock k) (k_irq k) (f (k_tick k)) (k_random k) (k_heap k) (k_sem k) (k_mtx
    k) (k_evt k) (k_mb k) (k_mq k) (k_mp k).
Definition upd_random (f : Z -> Z) (k : kernel) : kernel :=
  Kernel (k_hdr k) (k_cont k) (k_thr k) (k_tl k) (k_tm k) (k_tmlist k) (k_group k) (k_cur k)
    (k_curprio k) (k_lock k) (k_irq k) (k_tick k) (f (k_random k)) (k_heap k) (k_sem k) (k_mtx
    k) (k_evt k) (k_mb k) (k_mq k) (k_mp k).
Definition upd_heap (f : heap -> heap) (k : kernel) : kernel :=
  Kernel (k_hdr k) (k_cont k) (k_thr k) (k_tl k) (k_tm k) (k_tmlist k) (k_group k) (k_cur k)
    (k_curprio k) (k_lock k) (k_irq k) (k_tick k) (k_random k) (f (k_heap k)) (k_sem k) (k_mtx
    k) (k_evt k) (k_mb k) (k_mq k) (k_mp k).
Definition upd_sem (f : (gmap Z rt_semaphore) -> (gmap Z rt_semaphore)) (k : kernel) : kernel :=
  Kernel (k_hdr k) (k_cont k) (k_thr k) (k_tl k) (k_tm k) (k_tmlist k) (k_group k) (k_cur k)
    (k_curprio k) (k_lock k) (k_irq k) (k_tick k) (k_random k) (k_heap k) (f (k_sem k)) (k_mtx
    k) (k_evt k) (k_mb k) (k_mq k) (k_mp k).
Definition upd_mtx (f : (gmap Z rt_mutex) -> (gmap Z rt_mutex)) (k : kernel) : kernel :=
  Kernel (k_hdr k) (k_cont k) (k_thr k) (k_tl k) (k_tm k) (k_tmlist k) (k_group k) (k_cur k)
    (k_curprio k) (k_lock k) (k_irq k) (k_tick k) (k_random k) (k_heap k) (k_sem k) (f (k_mtx
    k)) (k_evt k) (k_mb k) (k_mq k) (k_mp k).
Definition upd_evt (f : (gmap Z rt_event) -> (gmap Z rt_event)) (k : kernel) : kernel :=
  Kernel (k_hdr k) (k_cont k) (k_thr k) (k_tl k) (k_tm k) (k_tmlist k) (k_group k) (k_cur k)
    (k_curprio k) (k_lock k) (k_irq k) (k_tick k) (k_random k) (k_heap k) (k_sem k) (k_mtx k)
    (f (k_evt k)) (k_mb k) (k_mq k) (k_mp k).
Definition upd_mb (f : (gmap Z rt_mailbox) -> (gmap Z rt_mailbox)) (k : kernel) : kernel :=
  Kernel (k_hdr k) (k_cont k) (k_thr k) (k_tl k) (k_tm k) (k_tmlist k) (k_group k) (k_cur k)
    (k_curprio k) (k_lock k) (k_irq k) (k_tick k) (k_random k) (k_heap k) (k_sem k) (k_mtx k)
    (k_evt k) (f (k_mb k)) (k_mq k) (k_mp k).
Definition upd_mq (f : (gmap Z rt_messagequeue) -> (gmap Z rt_messagequeue)) (k : kernel) : kernel :=
  Kernel (k_hdr k) (k_cont k) (k_thr k) (k_tl k) (k_tm k) (k_tmlist k) (k_group k) (k_cur k)
    (k_curprio k) (k_lock k) (k_irq k) (k_tick k) (k_random k) (k_heap k) (k_sem k) (k_mtx k)
    (k_evt k) (k_mb k) (f (k_mq k)) (k_mp k).
Definition upd_mp (f : (gmap Z rt_mempool) -> (gmap Z rt_mempool)) (k : kernel) : kernel :=
  Kernel (k_hdr k) (k_cont k) (k_thr k) (k_tl k) (k_tm k) (k_tmlist k) (k_group k) (k_cur k)
    (k_curprio k) (k_lock k) (k_irq k) (k_tick k) (k_random k) (k_heap k) (k_sem k) (k_mtx k)
    (k_evt k) (k_mb k) (k_mq k) (f (k_mp k)).

(** Compute the fields of an updated kernel. *)
Ltac kred :=
  cbn [upd_hdr upd_cont upd_thr upd_tl upd_tm upd_tmlist upd_group upd_cur upd_curprio upd_lock
    upd_irq upd_tick upd_random upd_heap upd_sem upd_mtx upd_evt upd_mb upd_mq upd_mp k_hdr
    k_cont k_thr k_tl k_tm k_tmlist k_group k_cur k_curprio k_lock k_irq k_tick k_random k_heap
    k_sem k_mtx k_evt k_mb k_mq k_mp].

(** Two kernels that agree field by field. *)
Lemma kernel_eq k1 k2 :
  k_hdr k1 = k_hdr k2 -> k_cont k1 = k_cont k2 -> k_thr k1 = k_thr k2 -> k_tl k1 = k_tl k2
  -> k_tm k1 = k_tm k2 -> k_tmlist k1 = k_tmlist k2 -> k_group k1 = k_group k2 -> k_cur k1 =
  k_cur k2 -> k_curprio k1 = k_curprio k2 -> k_lock k1 = k_lock k2 -> k_irq k1 = k_irq k2 ->
  k_tick k1 = k_tick k2 -> k_random k1 = k_random k2 -> k_heap k1 = k_heap k2 -> k_sem k1 =
  k_sem k2 -> k_mtx k1 = k_mtx k2 -> k_evt k1 = k_evt k2 -> k_mb k1 = k_mb k2 -> k_mq k1 =
  k_mq k2 -> k_mp k1 = k_mp k2 -> k1 = k2.
Proof. destruct k1, k2. cbn. intros. subst. reflexivity. Qed.
Ltac kext := apply kernel_eq; try reflexivity; kred.

(** An assignment of the value a field has. *)
Lemma upd_hdr_id f k : f (k_hdr k) = k_hdr k -> upd_hdr f k = k.
Proof. intros E. unfold upd_hdr. rewrite E. by destruct k. Qed.
Lemma upd_thr_id f k : f (k_thr k) = k_thr k -> upd_thr f k = k.
Proof. intros E. unfold upd_thr. rewrite E. by destruct k. Qed.
Lemma upd_tl_id f k : f (k_tl k) = k_tl k -> upd_tl f k = k.
Proof. intros E. unfold upd_tl. rewrite E. by destruct k. Qed.
Lemma upd_tm_id f k : f (k_tm k) = k_tm k -> upd_tm f k = k.
Proof. intros E. unfold upd_tm. rewrite E. by destruct k. Qed.
Lemma upd_tmlist_id f k : f (k_tmlist k) = k_tmlist k -> upd_tmlist f k = k.
Proof. intros E. unfold upd_tmlist. rewrite E. by destruct k. Qed.
Lemma upd_group_id f k : f (k_group k) = k_group k -> upd_group f k = k.
Proof. intros E. unfold upd_group. rewrite E. by destruct k. Qed.
Lemma upd_cur_id f k : f (k_cur k) = k_cur k -> upd_cur f k = k.
Proof. intros E. unfold upd_cur. rewrite E. by destruct k. Qed.
Lemma upd_sem_id f k : f (k_sem k) = k_sem k -> upd_sem f k = k.
Proof. intros E. unfold upd_sem. rewrite E. by destruct k. Qed.

Notation K := (M kernel).

(** What a call that can block comes to: it returns, or the calling thread is
    suspended and the rest of the call runs when the thread is scheduled again. *)
Inductive outcome (A : Type) := Returned (a : A) | Blocked.
Arguments Returned {A} _.
Arguments Blocked {A}.

(** ** Access to the structures *)

Definition hdr (o : oid) : K rt_object := deref (fun k => k_hdr k !! o).
Definition put_hdr (o : oid) (v : rt_object) : K unit := modify (upd_hdr (<[o := v]>)).
Definition thr (t : Z) : K rt_thread := deref (fun k => k_thr k !! t).
(** An assignment to fields of [*t]. *)
Definition mod_thr (t : Z) (f : rt_thread -> rt_thread) : K unit :=
  th <- thr t;; modify (upd_thr (<[t := f th]>)).
Definition tmr (o : oid) : K rt_timer := deref (fun k => k_tm k !! o).
Definition mod_tmr (o : oid) (f : rt_timer -> rt_timer) : K unit :=
  t <- tmr o;; modify (upd_tm (<[o := f t]>)).
Definition set_oflag (v : Z) (o : rt_object) : rt_object := Object (oname o) (otype o) v.
Definition set_otype (v : Z) (o : rt_object) : rt_object := Object (oname o) v (oflag o).

(** ** Thread lists *)

(** The node of [t] is in some list. *)
Definition queued (t : Z) (S : gmap lhead (list Z)) : bool :=
  negb (bool_decide (map_Forall (fun _ l => t ∉ l) S)).
Definition tlist (h : lhead) : K (list Z) := deref (fun k => k_tl k !! h).
(** The memory of the node of [t] is there. *)
Definition node (t : Z) : K unit := _ <- thr t;; ret tt.

(** [rt_list_init(&head)]. *)
Definition tl_init (h : lhead) : K unit := modify (upd_tl (<[h := []]>)).
(** [rt_list_insert_before(&head, &t->tlist)] and [rt_list_insert_after]. *)
Definition tl_insert_before (h : lhead) (t : Z) : K unit :=
  node t;;; _ <- tlist h;; q <- gets (fun k => queued t (k_tl k));;
  if (q : bool) then stuck Undefined else modify (upd_tl (lpush_back h t)).
Definition tl_insert_after (h : lhead) (t : Z) : K unit :=
  node t;;; _ <- tlist h;; q <- gets (fun k => queued t (k_tl k));;
  if (q : bool) then stuck Undefined else modify (upd_tl (lpush_front h t)).
(** [rt_list_insert_before(&s->tlist, &t->tlist)]. *)
Definition tl_link_before (s t : Z) : K unit :=
  node s;;; node t;;; q <- gets (fun k => queued t (k_tl k));;
  if (q : bool) then stuck Undefined else modify (upd_tl (llink_before s t)).
(** [rt_list_remove(&t->tlist)]. *)
Definition tl_remove (t : Z) : K unit := node t;;; modify (upd_tl (lunlink t)).

(** [RT_DEBUG_NOT_IN_INTERRUPT] and [RT_DEBUG_IN_THREAD_CONTEXT] (include/rtdebug.h). *)
Definition not_in_interrupt : K unit := n <- gets k_irq;; rt_assert (n =? 0).
Definition in_thread_context : K unit :=
  c <- gets k_cur;; rt_assert (negb (c =? RT_NULL));;; not_in_interrupt.

(** The heap functions, called from the kernel. *)
Definition heap_call {A} (m : M heap A) : K A := zoom k_heap (fun h => upd_heap (fun _ => h)) m.
Definition kmalloc (n : Z) : K Z := not_in_interrupt;;; heap_call (rt_malloc n).
Definition kfree (p : Z) : K unit := not_in_interrupt;;; heap_call (rt_free p).
