(* ===== verification/Object.v ===== *)
(** * Kernel objects (src/object.c)

    [rt_object_init], [rt_object_detach], [rt_object_allocate] and
    [rt_object_delete] on the headers and the container lists.  A C string
    argument is the list of its characters without the terminating NUL; the
    name of an object is the array of [RT_NAME_MAX] characters [rt_strncpy]
    writes.  The lifetime of an allocated object ends in [rt_object_delete]:
    its header is dropped from the map, so that later uses are [Undefined].

    [obj_inv] says that the containers and the headers agree: every container
    holds each of its objects once, and every object in a container has a
    header of the class of that container. *)

From S2P Require Import Prelude RtList Exec KService Mem Kernel.

(** ** Operations *)

(** [rt_strncpy(buffer, s, n)] of a string, as a list. *)
Definition strncpy_list (n : nat) (s : list Z) : list Z := take n (s ++ replicate n 0).

(** [rt_object_container]: the class and the size of every container. *)
Definition rt_object_container : list (Z * Z) :=
  [(RT_Object_Class_Thread, 128); (RT_Object_Class_Semaphore, 32); (RT_Object_Class_Mutex, 36);
   (RT_Object_Class_Event, 32); (RT_Object_Class_MailBox, 48); (RT_Object_Class_MessageQueue, 52);
   (RT_Object_Class_MemHeap, 100); (RT_Object_Class_MemPool, 56); (RT_Object_Class_Device, 84);
   (RT_Object_Class_Timer, 44)].

Fixpoint get_information (type : Z) (c : list (Z * Z)) : option (Z * Z) :=
  match c with
  | [] => None
  | i :: c => if fst i =? type then Some i else get_information type c
  end.
Definition rt_object_get_information (type : Z) : option (Z * Z) :=
  get_information type rt_object_container.

Definition is_null (o : oid) : bool := match o with Obj a => a =? RT_NULL | TimerOf _ => false end.

(** The node of [o] is in some container list. *)
Definition contained (o : oid) (C : gmap Z (list oid)) : bool :=
  negb (bool_decide (map_Forall (fun _ l => o ∉ l) C)).

(** [rt_list_insert_after(&(information->object_list), &(object->list))]. *)
Definition cont_insert (type : Z) (o : oid) : K unit :=
  _ <- deref (fun k => k_cont k !! type);; c <- gets (fun k => contained o (k_cont k));;
  if (c : bool) then stuck Undefined else modify (upd_cont (lpush_front type o)).
(** [rt_list_remove(&(object->list))]. *)
Definition cont_remove (o : oid) : K unit := modify (upd_cont (lunlink o)).

(** The flag of a header that is not there yet is taken to be 0. *)
Definition rt_object_init (o : oid) (type : Z) (name : list Z) : K unit :=
  rt_assert (bool_decide (is_Some (rt_object_get_information type)));;;
  fl <- gets (fun k => default 0 (oflag <$> k_hdr k !! o));;
  put_hdr o (Object (strncpy_list RT_NAME_MAX name) (Z.lor type RT_Object_Class_Static) fl);;;
  cont_insert type o.

Definition rt_object_detach (o : oid) : K unit :=
  rt_assert (negb (is_null o));;;
  h <- hdr o;; put_hdr o (set_otype 0 h);;;
  cont_remove o.

Definition rt_object_allocate (type : Z) (name : list Z) : K Z :=
  not_in_interrupt;;;
  match rt_object_get_information type with
  | None => stuck Assertion
  | Some (_, size) =>
      p <- kmalloc size;;
      if p =? RT_NULL then ret RT_NULL
      else
        put_hdr (Obj p) (Object (strncpy_list RT_NAME_MAX name) type 0);;;
        cont_insert type (Obj p);;;
        ret p
  end.

Definition rt_object_delete (p : Z) : K unit :=
  rt_assert (negb (p =? RT_NULL));;;
  h <- hdr (Obj p);;
  rt_assert (negb (nz (Z.land (otype h) RT_Object_Class_Static)));;;
  put_hdr (Obj p) (set_otype 0 h);;;
  cont_remove (Obj p);;;
  kfree p;;;
  modify (upd_hdr (delete (Obj p))).

Definition rt_object_is_systemobject (o : oid) : K bool :=
  rt_assert (negb (is_null o));;; h <- hdr o;; ret (nz (Z.land (otype h) RT_Object_Class_Static)).

Definition rt_object_get_type (o : oid) : K Z :=
  rt_assert (negb (is_null o));;; h <- hdr o;;
  ret (Z.land (otype h) (not8 RT_Object_Class_Static)).

(** [RT_ASSERT(rt_object_get_type(o) == type)]. *)
Definition assert_type (o : oid) (type : Z) : K unit :=
  t <- rt_object_get_type o;; rt_assert (t =? type).

(** ** Invariant *)

Definition class_of (h : rt_object) : Z := Z.land (otype h) (not8 RT_Object_Class_Static).
Definition is_static (h : rt_object) : bool := nz (Z.land (otype h) RT_Object_Class_Static).

Record obj_inv (H : gmap oid rt_object) (C : gmap Z (list oid)) : Prop := ObjInv {
  oi_tab : forall c, is_Some (C !! c) <-> is_Some (rt_object_get_information c);
  oi_nodup : forall c l, C !! c = Some l -> NoDup l;
  oi_class : forall c l o, C !! c = Some l -> o ∈ l ->
    exists h, H !! o = Some h /\ class_of h = c /\ length (oname h) = RT_NAME_MAX
}.

Lemma information_class type i : rt_object_get_information type = Some i -> 0 <= type <= 9 /\ fst i = type.
Proof.
  unfold rt_object_get_information. unfold rt_object_container.
  cbn [get_information fst]. repeat (zcase; [intros [= <-]; cbn [fst]; subst; split; [by vm_compute|done]|]). done.
Qed.

Lemma class_static type : 0 <= type <= 9 ->
  Z.land (Z.lor type 0x80) (not8 0x80) = type /\ Z.land type (not8 0x80) = type /\
  nz (Z.land (Z.lor type 0x80) 0x80) = true /\ nz (Z.land type 0x80) = false.
Proof.
  intros. assert (type ∈ seqZ 0 10) as Hin by (apply elem_of_seqZ; lia).
  revert type Hin H. apply (Forall_forall (fun t => 0 <= t <= 9 -> _)).
  repeat constructor; by vm_compute.
Qed.

Lemma strncpy_list_length n s : length (strncpy_list n s) = n.
Proof. unfold strncpy_list. rewrite length_take, length_app, length_replicate. lia. Qed.

Lemma contained_false o C : contained o C = false <-> forall c l, C !! c = Some l -> o ∉ l.
Proof.
  unfold contained. rewrite negb_false_iff, bool_decide_eq_true. unfold map_Forall. done.
Qed.

(** An object enters a container. *)
Lemma obj_inv_insert H C c o h :
  obj_inv H C -> contained o C = false -> is_Some (C !! c) -> class_of h = c ->
  length (oname h) = RT_NAME_MAX -> obj_inv (<[o := h]> H) (lpush_front c o C).
Proof.
  intros [Ht Hn Hc] Hno [l0 Hl0] Hcl Hlen. rewrite contained_false in Hno.
  unfold lpush_front, lget. rewrite Hl0. cbn. split.
  - intros c'. rewrite <- Ht. destruct (decide (c' = c)) as [->|].
    + rewrite lookup_insert_eq. split; eauto.
    + by rewrite lookup_insert_ne.
  - intros c' l [[<- <-]|[? Hl]]%lookup_insert_Some; [|eauto]. apply NoDup_cons. eauto.
  - intros c' l o' [[<- <-]|[Hne Hl]]%lookup_insert_Some Hin.
    + apply elem_of_cons in Hin as [->|Hin]; [exists h; by rewrite lookup_insert_eq|].
      rewrite lookup_insert_ne; [by eapply Hc|]. intros <-. by eapply Hno.
    + rewrite lookup_insert_ne; [by eapply Hc|]. intros <-. by eapply Hno.
Qed.

(** An object leaves its container; its header may change or disappear. *)
Lemma obj_inv_remove H H' C o :
  obj_inv H C -> (forall o', o' <> o -> H' !! o' = H !! o') -> obj_inv H' (lunlink o C).
Proof.
  intros [Ht Hn Hc] HH. unfold lunlink. split.
  - intros c. rewrite lookup_fmap, fmap_is_Some. apply Ht.
  - intros c l. rewrite lookup_fmap. intros (l0 & Hl0 & ->)%fmap_Some.
    apply NoDup_lremove. eauto.
  - intros c l o'. rewrite lookup_fmap. intros (l0 & Hl0 & ->)%fmap_Some Hin.
    apply elem_of_lremove in Hin as [Hin Hne]. rewrite HH by done. by eapply Hc.
Qed.

(** A header changes without changing class. *)
Lemma obj_inv_flag H C o h v : H !! o = Some h -> obj_inv H C -> obj_inv (<[o := set_oflag v h]> H) C.
Proof.
  intros Ho [Ht Hn Hc]. split; [done..|]. intros c l o' Hl Hin. destruct (Hc c l o' Hl Hin) as (h' & Hh' & Hcl & Hlen).
  destruct (decide (o' = o)) as [->|]; [|rewrite lookup_insert_ne by done; eauto].
  rewrite Ho in Hh'. injection Hh' as <-. exists (set_oflag v h). by rewrite lookup_insert_eq.
Qed.

(** ** What the operations do *)

Lemma hdr_done o k h : k_hdr k !! o = Some h -> hdr o k = Done h k.
Proof. intros. unfold hdr. by apply deref_some. Qed.

Lemma assert_type_done o type k h :
  is_null o = false -> k_hdr k !! o = Some h -> class_of h = type -> assert_type o type k = Done tt k.
Proof.
  intros Hn Hh Hc. unfold assert_type, rt_object_get_type. rewrite Hn. cbn [negb rt_assert].
  rewrite !bind_assoc. mstep. rewrite bind_assoc, (after (hdr_done _ _ _ Hh)).
  mstep. apply assert_true. apply Z.eqb_eq, Hc.
Qed.

Lemma is_systemobject_done o k h :
  is_null o = false -> k_hdr k !! o = Some h -> rt_object_is_systemobject o k = Done (is_static h) k.
Proof.
  intros Hn Hh. unfold rt_object_is_systemobject. rewrite Hn. cbn [negb rt_assert]. mstep.
  by rewrite (after (hdr_done _ _ _ Hh)).
Qed.

(** The header [rt_object_init] writes. *)
Definition init_hdr (type : Z) (name : list Z) (fl : Z) : rt_object :=
  Object (strncpy_list RT_NAME_MAX name) (Z.lor type RT_Object_Class_Static) fl.

Lemma rt_object_init_done o type name k :
  obj_inv (k_hdr k) (k_cont k) -> is_Some (rt_object_get_information type) ->
  contained o (k_cont k) = false ->
  let h := init_hdr type name (default 0 (oflag <$> k_hdr k !! o)) in
  rt_object_init o type name k = Done tt (upd_cont (lpush_front type o) (upd_hdr (<[o := h]>) k)).
Proof.
  intros HI Hi Hno h. unfold rt_object_init. rewrite bool_decide_eq_true_2 by done. cbn [rt_assert].
  do 2 mstep. unfold put_hdr. mstep. unfold cont_insert.
  destruct (proj2 (oi_tab _ _ HI type) Hi) as [l Hl].
  rewrite (bind_done _ _ _ l _) by (by apply deref_some). mstep. cbn [upd_hdr k_cont]. by rewrite Hno.
Qed.

Lemma rt_object_detach_done o k h :
  is_null o = false -> k_hdr k !! o = Some h ->
  rt_object_detach o k = Done tt (upd_cont (lunlink o) (upd_hdr (<[o := set_otype 0 h]>) k)).
Proof.
  intros Hn Hh. unfold rt_object_detach. rewrite Hn. cbn [negb rt_assert]. mstep.
  by rewrite (after (hdr_done _ _ _ Hh)).
Qed.
