(* ===== verification/Scheduler.v ===== *)
(** * The scheduler (src/scheduler.c, src/irq.c)

    The ready table is an array of 32 lists of threads, and
    [rt_thread_ready_priority_group] has a bit for every list that is not
    empty; [rt_schedule] takes the first thread of the list of the lowest set
    bit.  A context switch is the assignment to [rt_current_thread].

    [sched_inv T L g] relates the threads [T], the thread lists [L] and the
    bitmap [g]: a thread is in at most one list, once; it is in the ready list
    of its current priority exactly when its state is READY; suspended threads
    are SUSPEND and defunct ones CLOSE; the bitmap is right.  [sched_but t] is
    the same while the node of [t] is in no list and the state of [t] is
    arbitrary, as in the middle of [rt_thread_suspend] or [rt_thread_resume]. *)

From S2P Require Import Prelude RtList Exec KService Mem Kernel Object.

(** ** Operations *)

(** [_rt_scheduler_stack_check]; the scheduler runs with interrupts disabled,
    so the loop [while (level);] never ends. *)
Definition _rt_scheduler_stack_check (t : Z) : K unit :=
  rt_assert (negb (t =? RT_NULL));;;
  th <- thr t;;
  if (negb (stack_guard th =? 35) || (sp th <=? stack_addr th) ||
      (stack_addr th + stack_size th <? sp th))%bool
  then stuck Diverge else ret tt.

(** The loop of [rt_system_scheduler_init] over the ready table. *)
Fixpoint init_table (n : nat) (offset : Z) : K unit :=
  match n with
  | O => ret tt
  | S n => tl_init (LReady offset);;; init_table n (offset + 1)
  end.

Definition rt_system_scheduler_init : K unit :=
  modify (upd_lock (fun _ => 0));;;
  init_table (Z.to_nat RT_THREAD_PRIORITY_MAX) 0;;;
  modify (upd_curprio (fun _ => RT_THREAD_PRIORITY_MAX - 1));;;
  modify (upd_cur (fun _ => RT_NULL));;;
  modify (upd_group (fun _ => 0));;;
  tl_init LDefunct.

(** The thread at the head of the list of the highest ready priority.  The
    index is 2^32 - 1 when nothing is ready; the head of an empty list is no
    thread. *)
Definition highest_ready : K (Z * Z) :=
  g <- gets k_group;;
  let highest_ready_priority := u32 (__rt_ffs g - 1) in
  l <- tlist (LReady highest_ready_priority);;
  match l with
  | [] => stuck Undefined
  | to_thread :: _ => ret (highest_ready_priority, to_thread)
  end.

Definition rt_system_scheduler_start : K unit :=
  r <- highest_ready;; modify (upd_cur (fun _ => snd r)).

Definition rt_schedule : K unit :=
  lock <- gets k_lock;;
  if lock =? 0 then
    r <- highest_ready;;
    cur <- gets k_cur;;
    if negb (snd r =? cur) then
      modify (upd_curprio (fun _ => u8 (fst r)));;;
      modify (upd_cur (fun _ => snd r));;;
      _rt_scheduler_stack_check (snd r);;;
      (* the switch saves the context through [&from_thread->sp] *)
      if cur =? RT_NULL then stuck Undefined else ret tt
    else ret tt
  else ret tt.

Definition rt_schedule_insert_thread (t : Z) : K unit :=
  rt_assert (negb (t =? RT_NULL));;;
  mod_thr t (fun th => set_stat
    (Z.lor RT_THREAD_READY (Z.land (stat th) (not8 RT_THREAD_STAT_MASK))) th);;;
  th <- thr t;;
  tl_insert_before (LReady (current_priority th)) t;;;
  modify (upd_group (fun g => Z.lor g (number_mask th))).

Definition rt_schedule_remove_thread (t : Z) : K unit :=
  rt_assert (negb (t =? RT_NULL));;;
  tl_remove t;;;
  th <- thr t;;
  l <- tlist (LReady (current_priority th));;
  when (bool_decide (l = [])) (modify (upd_group (fun g => Z.land g (not32 (number_mask th))))).

Definition rt_enter_critical : K unit := modify (upd_lock (fun n => s16 (n + 1))).

Definition rt_exit_critical : K unit :=
  modify (upd_lock (fun n => s16 (n - 1)));;;
  n <- gets k_lock;;
  when (n <=? 0) (modify (upd_lock (fun _ => 0));;; rt_schedule).

Definition rt_critical_level : K Z := gets (fun k => u16 (k_lock k)).

Definition rt_interrupt_enter : K unit := modify (upd_irq (fun n => u8 (n + 1))).
Definition rt_interrupt_leave : K unit := modify (upd_irq (fun n => u8 (n - 1))).
Definition rt_interrupt_get_nest : K Z := gets k_irq.

(** ** Invariant *)

Definition statm (th : rt_thread) : Z := Z.land (stat th) RT_THREAD_STAT_MASK.

Definition prio_ok (th : rt_thread) : Prop :=
  0 <= current_priority th < RT_THREAD_PRIORITY_MAX /\
  (number_mask th = 0 \/ number_mask th = 2 ^ current_priority th) /\
  (statm th = RT_THREAD_READY \/ statm th = RT_THREAD_SUSPEND ->
    number_mask th = 2 ^ current_priority th).

Definition member_ok (h : lhead) (th : rt_thread) : Prop :=
  match h with
  | LReady p => statm th = RT_THREAD_READY /\ current_priority th = p
  | LDefunct => statm th = RT_THREAD_CLOSE
  | LSuspend _ | LSender _ => statm th = RT_THREAD_SUSPEND
  end.

(** The invariant for all threads but those that satisfy [P]. *)
Record sched_but (P : Z -> Prop) (T : gmap Z rt_thread) (L : gmap lhead (list Z)) (g : Z) : Prop := SchedBut {
  so_tab : forall p, is_Some (L !! LReady p) <-> 0 <= p < RT_THREAD_PRIORITY_MAX;
  so_def : is_Some (L !! LDefunct);
  so_nodup : forall h l, L !! h = Some l -> NoDup l;
  so_disj : forall h1 h2 l1 l2 t, L !! h1 = Some l1 -> L !! h2 = Some l2 ->
    t ∈ l1 -> t ∈ l2 -> h1 = h2;
  so_mem : forall h l t, L !! h = Some l -> t ∈ l ->
    t <> RT_NULL /\ ~ P t /\ exists th, T !! t = Some th /\ member_ok h th;
  so_ready : forall t th, ~ P t -> T !! t = Some th -> statm th = RT_THREAD_READY ->
    exists l, L !! LReady (current_priority th) = Some l /\ t ∈ l;
  so_prio : forall t th, T !! t = Some th -> prio_ok th;
  so_group : 0 <= g < 2 ^ 32;
  so_bit : forall p l, L !! LReady p = Some l -> Z.testbit g p = true <-> l <> []
}.

Definition sched_inv := sched_but (fun _ => False).

(** ** Changing one thread *)

Section lemmas.
Context (T : gmap Z rt_thread) (L : gmap lhead (list Z)) (g : Z).

Lemma queued_false t : queued t L = false <-> forall h l, L !! h = Some l -> t ∉ l.
Proof. unfold queued. rewrite negb_false_iff, bool_decide_eq_true. done. Qed.

Lemma sched_but_queued t : sched_but (eq t) T L g -> queued t L = false.
Proof.
  intros HS. apply queued_false. intros h l Hl Hin.
  destruct (so_mem _ _ _ _ HS h l t Hl Hin) as (_ & Hne & _). by apply Hne.
Qed.

Lemma lunlink_lookup t h : lunlink t L !! h = lremove t <$> L !! h.
Proof. unfold lunlink. by rewrite lookup_fmap. Qed.

(** Any change of the exempt thread that keeps its priority sane. *)
Lemma sched_but_upd t th' :
  sched_but (eq t) T L g -> prio_ok th' -> sched_but (eq t) (<[t := th']> T) L g.
Proof.
  intros [] Hp. split; try done.
  - intros h l t' Hl Hin. destruct (so_mem0 h l t' Hl Hin) as (? & Hne & th & Hth & Hm).
    split_and!; [done..|]. exists th. by rewrite lookup_insert_ne by done.
  - intros t' th Hne Hth. rewrite lookup_insert_ne in Hth by done. by eapply so_ready0.
  - intros t' th [[<- <-]|[? Hth]]%lookup_insert_Some; eauto.
Qed.

(** The exempt thread rejoins the invariant without being queued. *)
Lemma sched_but_idle t th :
  sched_but (eq t) T L g -> T !! t = Some th -> statm th <> RT_THREAD_READY -> sched_inv T L g.
Proof.
  intros [] Ht Hs. split; try done.
  - intros h l t' Hl Hin. destruct (so_mem0 h l t' Hl Hin) as (? & Hne & ?). auto.
  - intros t' th' _ Hth' Hr. eapply so_ready0; try done. intros <-. congruence.
Qed.

Lemma sched_inv_exempt t :
  sched_inv T L g -> (forall h l, L !! h = Some l -> t ∉ l) -> sched_but (eq t) T L g.
Proof.
  intros [] Hno. split; try done.
  - intros h l t' Hl Hin. destruct (so_mem0 h l t' Hl Hin) as (? & _ & ?).
    split_and!; [done| |done]. intros <-. by eapply Hno.
  - intros t' th' _ Hth' Hr. eapply so_ready0; [tauto|done..].
Qed.

(** A change that keeps state, priority and mask of a thread. *)
Lemma sched_inv_upd P t th th' :
  sched_but P T L g -> T !! t = Some th -> stat th' = stat th ->
  current_priority th' = current_priority th -> number_mask th' = number_mask th ->
  sched_but P (<[t := th']> T) L g.
Proof.
  intros [] Ht Es Ep En.
  assert (Hm : forall h, member_ok h th <-> member_ok h th')
    by (intros []; unfold member_ok, statm; rewrite Es, ?Ep; done).
  split; try done.
  - intros h l t' Hl Hin. destruct (so_mem0 h l t' Hl Hin) as (? & ? & th0 & Hth0 & Hm0).
    split_and!; [done..|]. destruct (decide (t' = t)) as [->|].
    + rewrite Ht in Hth0. injection Hth0 as <-. exists th'. rewrite lookup_insert_eq. split; [done|by apply Hm].
    + exists th0. by rewrite lookup_insert_ne.
  - intros t' th0 HP [[<- <-]|[? Hth0]]%lookup_insert_Some; unfold statm; [|by eapply so_ready0].
    rewrite Es, Ep. by eapply so_ready0.
  - intros t' th0 [[<- <-]|[? Hth0]]%lookup_insert_Some; [|eauto].
    specialize (so_prio0 _ _ Ht). unfold prio_ok, statm in *. by rewrite Es, Ep, En.
Qed.

(** *** Taking a thread out *)

(** The bitmap after the test of [rt_schedule_remove_thread]. *)
Definition group_after (L' : gmap lhead (list Z)) (th : rt_thread) : Z :=
  if bool_decide (lget (LReady (current_priority th)) L' = []) then Z.land g (not32 (number_mask th)) else g.

Lemma testbit_clear m q : 0 <= q < 32 ->
  Z.testbit (Z.land g (not32 m)) q = (Z.testbit g q && negb (Z.testbit m q))%bool.
Proof.
  intros. rewrite Z.land_spec, testbit_not32. destruct (Z.leb_spec 0 q); [|lia].
  destruct (Z.ltb_spec q 32); [|lia]. cbn. by rewrite xorb_true_r.
Qed.

Lemma sched_but_remove t th :
  sched_inv T L g -> T !! t = Some th -> sched_but (eq t) T (lunlink t L) (group_after (lunlink t L) th).
Proof.
  intros [] Ht. pose proof (so_prio0 _ _ Ht) as (Hp & Hm2 & Hm1).
  assert (Hg : 0 <= group_after (lunlink t L) th < 2 ^ 32).
  { unfold group_after. case_bool_decide; [|done]. by apply land_u32_range. }
  split; try done.
  - intros p. rewrite lunlink_lookup, fmap_is_Some. apply so_tab0.
  - by rewrite lunlink_lookup, fmap_is_Some.
  - intros h l. rewrite lunlink_lookup. intros (l0 & Hl0 & ->)%fmap_Some. eauto with rt.
  - intros h1 h2 l1 l2 t'. rewrite !lunlink_lookup. intros (m1 & ? & ->)%fmap_Some (m2 & ? & ->)%fmap_Some.
    rewrite !elem_of_lremove. intros [? _] [? _]. by eapply so_disj0.
  - intros h l t'. rewrite lunlink_lookup. intros (l0 & Hl0 & ->)%fmap_Some [Hin Hne]%elem_of_lremove.
    destruct (so_mem0 h l0 t' Hl0 Hin) as (? & _ & ?). auto.
  - intros t' th' Hne Hth' Hr. destruct (so_ready0 t' th') as (l & Hl & Hin); [tauto|done..|].
    exists (lremove t l). rewrite lunlink_lookup, Hl. split; [done|]. apply elem_of_lremove. auto.
  - intros p l. rewrite lunlink_lookup. intros (l0 & Hl0 & ->)%fmap_Some.
    assert (Hp' : 0 <= p < 32) by (by apply so_tab0; eauto).
    assert (Hsame : p <> current_priority th -> lremove t l0 = l0).
    { intros Hne. apply lremove_notin. intros Hin. destruct (so_mem0 _ _ _ Hl0 Hin) as (_ & _ & th' & Hth' & Hm).
      rewrite Ht in Hth'. injection Hth' as <-. cbn in Hm. destruct Hm; congruence. }
    unfold group_after, lget. destruct (decide (p = current_priority th)) as [->|Hne].
    + rewrite lunlink_lookup, Hl0. cbn. case_bool_decide as HN.
      * rewrite testbit_clear by done. split; [|done]. rewrite andb_true_iff. intros [Hb Hn].
        exfalso. destruct (decide (number_mask th = 2 ^ current_priority th)) as [E|E].
        { rewrite E, Z.pow2_bits_true in Hn by lia. done. }
        apply (so_bit0 _ _ Hl0) in Hb. apply Hb. rewrite <- HN. symmetry. apply lremove_notin. intros Hin.
        destruct (so_mem0 _ _ _ Hl0 Hin) as (_ & _ & th' & Hth' & Hm).
        rewrite Ht in Hth'. injection Hth' as <-. cbn in Hm. destruct Hm as [Hm _]. tauto.
      * split; [done|]. intros _. apply (so_bit0 _ _ Hl0). intros ->. by apply HN.
    + rewrite (Hsame Hne). rewrite <- (so_bit0 _ _ Hl0). case_bool_decide; [|done].
      rewrite testbit_clear by done. assert (Z.testbit (number_mask th) p = false) as ->; [|by rewrite andb_true_r].
      destruct (decide (number_mask th = 2 ^ current_priority th)) as [->|E]; [apply Z.pow2_bits_false; lia|].
      destruct Hm2 as [->|]; [apply Z.bits_0|done].
Qed.

(** Unlinking a thread that is not READY leaves the ready table alone. *)
Lemma sched_but_unlink t th :
  sched_inv T L g -> T !! t = Some th -> statm th <> RT_THREAD_READY -> sched_but (eq t) T (lunlink t L) g.
Proof.
  intros HS Ht Hs. pose proof HS as [].
  assert (Hsame : forall p l, L !! LReady p = Some l -> lremove t l = l).
  { intros p l Hl. apply lremove_notin. intros Hin. destruct (so_mem0 _ _ _ Hl Hin) as (_ & _ & th' & Hth' & Hm).
    cbn in Hm. destruct Hm. congruence. }
  split; try done.
  - intros p. rewrite lunlink_lookup, fmap_is_Some. apply so_tab0.
  - by rewrite lunlink_lookup, fmap_is_Some.
  - intros h l. rewrite lunlink_lookup. intros (l0 & Hl0 & ->)%fmap_Some. eauto with rt.
  - intros h1 h2 l1 l2 t'. rewrite !lunlink_lookup. intros (m1 & ? & ->)%fmap_Some (m2 & ? & ->)%fmap_Some.
    rewrite !elem_of_lremove. intros [? _] [? _]. by eapply so_disj0.
  - intros h l t'. rewrite lunlink_lookup. intros (l0 & Hl0 & ->)%fmap_Some [Hin Hne]%elem_of_lremove.
    destruct (so_mem0 h l0 t' Hl0 Hin) as (? & _ & ?). auto.
  - intros t' th' Hne Hth' Hr. destruct (so_ready0 t' th') as (l & Hl & Hin); [tauto|done..|].
    exists l. rewrite lunlink_lookup, Hl. split; [|done]. cbn. by rewrite (Hsame _ _ Hl).
  - intros p l. rewrite lunlink_lookup. intros (l0 & Hl0 & ->)%fmap_Some. rewrite (Hsame _ _ Hl0). eauto.
Qed.

(** *** Putting a thread in *)

(** The exempt thread goes into a list it belongs to: any position of a list of
    waiting threads. *)
Lemma sched_but_enqueue t th h l1 l2 :
  sched_but (eq t) T L g -> T !! t = Some th -> t <> RT_NULL -> L !! h = Some (l1 ++ l2) ->
  member_ok h th -> (forall p, h <> LReady p) -> sched_inv T (<[h := l1 ++ t :: l2]> L) g.
Proof.
  intros HS Ht Hnz Hl Hm Hnr. pose proof (sched_but_queued t HS) as Hq. rewrite queued_false in Hq.
  destruct HS.
  assert (Hno : t ∉ l1 ++ l2) by eauto.
  assert (Hin' : forall x, x ∈ l1 ++ t :: l2 <-> x = t \/ x ∈ l1 ++ l2) by set_solver.
  split; try done.
  - intros p. rewrite lookup_insert_ne by auto. apply so_tab0.
  - destruct (decide (h = LDefunct)) as [->|]; [rewrite lookup_insert_eq; eauto|].
    by rewrite lookup_insert_ne.
  - intros h' l [[<- <-]|[? Hl']]%lookup_insert_Some; [|eauto].
    specialize (so_nodup0 _ _ Hl). rewrite NoDup_app in so_nodup0 |- *. rewrite NoDup_cons. set_solver.
  - intros h1 h2 m1 m2 t' [[<- <-]|[? H1]]%lookup_insert_Some [[<- <-]|[? H2]]%lookup_insert_Some; try done.
    + rewrite Hin'. intros [->|?] Hi2; [by destruct (Hq _ _ H2)|by eapply so_disj0].
    + rewrite Hin'. intros Hi1 [->|?]; [by destruct (Hq _ _ H1)|by eapply so_disj0].
    + by eapply so_disj0.
  - intros h' l t' [[<- <-]|[? Hl']]%lookup_insert_Some.
    + rewrite Hin'. intros [->|Hi]; [split_and!; [done|tauto|by eauto]|]. destruct (so_mem0 _ _ _ Hl Hi) as (? & _ & ?). auto.
    + intros Hi. destruct (so_mem0 _ _ _ Hl' Hi) as (? & _ & ?). auto.
  - intros t' th' _ Hth' Hr. destruct (decide (t = t')) as [<-|].
    + exfalso. rewrite Ht in Hth'. injection Hth' as <-.
      destruct h; cbn in Hm; [by eapply Hnr|by rewrite Hr in Hm..].
    + destruct (so_ready0 t' th') as (l & Hl' & Hi); [done..|]. exists l.
      by rewrite lookup_insert_ne by (intros ->; by eapply Hnr).
  - intros p l [[-> _]|[? Hl']]%lookup_insert_Some; [by destruct (Hnr p)|eauto].
Qed.

Lemma testbit_lor_pow2 p q : 0 <= p -> Z.testbit (Z.lor g (2 ^ p)) q = (Z.testbit g q || bool_decide (q = p))%bool.
Proof.
  intros. rewrite Z.lor_spec. f_equal. case_bool_decide as E; [subst; by apply Z.pow2_bits_true|].
  by apply Z.pow2_bits_false.
Qed.

Lemma sched_but_ready t th :
  sched_but (eq t) T L g -> T !! t = Some th -> t <> RT_NULL -> statm th = RT_THREAD_READY ->
  sched_inv T (lpush_back (LReady (current_priority th)) t L) (Z.lor g (number_mask th)).
Proof.
  intros HS Ht Hnz Hst. pose proof (sched_but_queued t HS) as Hq. rewrite queued_false in Hq.
  destruct HS. destruct (so_prio0 _ _ Ht) as (Hp & _ & Hm). rewrite Hm by auto.
  destruct (proj2 (so_tab0 (current_priority th)) Hp) as [l0 Hl0].
  unfold lpush_back, lget. rewrite Hl0. cbn. set (h := LReady (current_priority th)) in *.
  assert (Hin' : forall x, x ∈ l0 ++ [t] <-> x = t \/ x ∈ l0) by set_solver.
  split; try done.
  - intros p. destruct (decide (p = current_priority th)) as [->|].
    + unfold h. rewrite lookup_insert_eq. split; eauto.
    + unfold h. rewrite lookup_insert_ne by congruence. apply so_tab0.
  - unfold h. by rewrite lookup_insert_ne.
  - intros h' l [[<- <-]|[? Hl']]%lookup_insert_Some; [|eauto].
    apply NoDup_app. split_and!; [eauto| |apply NoDup_singleton]. set_solver.
  - intros h1 h2 m1 m2 t' [[<- <-]|[? H1]]%lookup_insert_Some [[<- <-]|[? H2]]%lookup_insert_Some; try done.
    + rewrite Hin'. intros [->|?] Hi2; [by destruct (Hq _ _ H2)|by eapply so_disj0].
    + rewrite Hin'. intros Hi1 [->|?]; [by destruct (Hq _ _ H1)|by eapply so_disj0].
    + by eapply so_disj0.
  - intros h' l t' [[<- <-]|[? Hl']]%lookup_insert_Some.
    + rewrite Hin'. intros [->|Hi]; [split_and!; [done|tauto|by exists th]|]. destruct (so_mem0 _ _ _ Hl0 Hi) as (? & _ & ?). auto.
    + intros Hi. destruct (so_mem0 _ _ _ Hl' Hi) as (? & _ & ?). auto.
  - intros t' th' _ Hth' Hr. destruct (decide (t = t')) as [<-|].
    + rewrite Ht in Hth'. injection Hth' as <-. eexists. unfold h. rewrite lookup_insert_eq.
      split; [done|]. set_solver.
    + destruct (so_ready0 t' th') as (l & Hl' & Hi); [done..|].
      destruct (decide (LReady (current_priority th') = h)) as [E|].
      * rewrite E, lookup_insert_eq. eexists. split; [done|]. rewrite E, Hl0 in Hl'. injection Hl' as <-. set_solver.
      * rewrite lookup_insert_ne by done. eauto.
  - apply lor_u32_range; [done|]. unfold RT_THREAD_PRIORITY_MAX in Hp.
    split; [apply Z.pow_nonneg; lia|]. apply Z.pow_lt_mono_r; lia.
  - intros p l Hl'. rewrite testbit_lor_pow2 by lia. rewrite orb_true_iff, bool_decide_eq_true.
    apply lookup_insert_Some in Hl' as [[[= <-] <-]|[Hne Hl']].
    + split; [by destruct l0|auto].
    + rewrite <- (so_bit0 _ _ Hl'). split; [|auto]. intros [?| ->]; [done|]. by destruct Hne.
Qed.
End lemmas.

(** ** What the operations do *)

Lemma thr_done t k th : k_thr k !! t = Some th -> thr t k = Done th k.
Proof. intros. unfold thr. by apply deref_some. Qed.

Lemma mod_thr_done t f k th :
  k_thr k !! t = Some th -> mod_thr t f k = Done tt (upd_thr (<[t := f th]>) k).
Proof. intros. unfold mod_thr. by rewrite (after (thr_done _ _ _ H)). Qed.

Lemma node_done t k : is_Some (k_thr k !! t) -> node t k = Done tt k.
Proof. intros [th H]. unfold node. by rewrite (after (thr_done _ _ _ H)). Qed.

Lemma tlist_done h k l : k_tl k !! h = Some l -> tlist h k = Done l k.
Proof. intros. unfold tlist. by apply deref_some. Qed.

Lemma tl_remove_done t k : is_Some (k_thr k !! t) -> tl_remove t k = Done tt (upd_tl (lunlink t) k).
Proof. intros H. unfold tl_remove. by rewrite (after (node_done _ _ H)). Qed.

Lemma tl_insert_before_done h t k :
  is_Some (k_thr k !! t) -> is_Some (k_tl k !! h) -> queued t (k_tl k) = false ->
  tl_insert_before h t k = Done tt (upd_tl (lpush_back h t) k).
Proof.
  intros Ht [l Hl] Hq. unfold tl_insert_before. rewrite (after (node_done _ _ Ht)).
  rewrite (after (tlist_done _ _ _ Hl)). mstep. by rewrite Hq.
Qed.

Lemma tl_insert_after_done h t k :
  is_Some (k_thr k !! t) -> is_Some (k_tl k !! h) -> queued t (k_tl k) = false ->
  tl_insert_after h t k = Done tt (upd_tl (lpush_front h t) k).
Proof.
  intros Ht [l Hl] Hq. unfold tl_insert_after. rewrite (after (node_done _ _ Ht)).
  rewrite (after (tlist_done _ _ _ Hl)). mstep. by rewrite Hq.
Qed.

Lemma tl_link_before_done s t k :
  is_Some (k_thr k !! s) -> is_Some (k_thr k !! t) -> queued t (k_tl k) = false ->
  tl_link_before s t k = Done tt (upd_tl (llink_before s t) k).
Proof.
  intros Hs Ht Hq. unfold tl_link_before. rewrite (after (node_done _ _ Hs)).
  rewrite (after (node_done _ _ Ht)). mstep. by rewrite Hq.
Qed.

(** The thread made READY, with the flags in the upper half of [stat] kept. *)
Definition ready_stat (th : rt_thread) : rt_thread :=
  set_stat (Z.lor RT_THREAD_READY (Z.land (stat th) (not8 RT_THREAD_STAT_MASK))) th.

(** The states after [rt_schedule_insert_thread] and [rt_schedule_remove_thread]. *)
Definition k_insert (t : Z) (th : rt_thread) (k : kernel) : kernel :=
  upd_group (fun g => Z.lor g (number_mask th))
    (upd_tl (lpush_back (LReady (current_priority th)) t) (upd_thr (<[t := ready_stat th]>) k)).
Definition k_remove (t : Z) (th : rt_thread) (k : kernel) : kernel :=
  upd_group (fun g => group_after g (lunlink t (k_tl k)) th) (upd_tl (lunlink t) k).

Lemma insert_thread_done t th k :
  t <> RT_NULL -> k_thr k !! t = Some th -> is_Some (k_tl k !! LReady (current_priority th)) ->
  queued t (k_tl k) = false ->
  rt_schedule_insert_thread t k = Done tt (k_insert t th k).
Proof.
  intros Hnz Ht Hl Hq. unfold rt_schedule_insert_thread.
  destruct (Z.eqb_spec t RT_NULL); [done|]. cbn [negb rt_assert]. mstep.
  rewrite (after (mod_thr_done _ _ _ _ Ht)).
  rewrite (after (thr_done t (upd_thr _ k) _ (lookup_insert_eq _ _ _))).
  rewrite (bind_done _ _ _ tt (upd_tl (lpush_back (LReady (current_priority th)) t) (upd_thr (<[t := ready_stat th]>) k)));
    [done|]. apply tl_insert_before_done; [|done|done]. cbn. rewrite lookup_insert_eq. eauto.
Qed.

Lemma remove_thread_done t th k :
  t <> RT_NULL -> k_thr k !! t = Some th -> is_Some (k_tl k !! LReady (current_priority th)) ->
  rt_schedule_remove_thread t k = Done tt (k_remove t th k).
Proof.
  intros Hnz Ht [l Hl]. unfold rt_schedule_remove_thread.
  destruct (Z.eqb_spec t RT_NULL); [done|]. cbn [negb rt_assert]. mstep.
  rewrite (after (tl_remove_done t k ltac:(eauto))).
  rewrite (after (thr_done t (upd_tl _ k) th Ht)).
  assert (Hl' : k_tl (upd_tl (lunlink t) k) !! LReady (current_priority th) = Some (lremove t l))
    by (cbn; by rewrite lunlink_lookup, Hl).
  rewrite (after (tlist_done _ _ _ Hl')).
  unfold k_remove, group_after, lget. rewrite lunlink_lookup, Hl. cbn.
  case_bool_decide; cbn; [done|]. by destruct k.
Qed.

Lemma ready_stat_statm th : statm (ready_stat th) = RT_THREAD_READY.
Proof.
  unfold statm, ready_stat. cbn [stat set_stat]. apply Z.bits_inj'. intros i Hi.
  rewrite Z.land_spec, Z.lor_spec, Z.land_spec. unfold not8, RT_THREAD_STAT_MASK, RT_THREAD_READY.
  change 0x0f with (2 ^ 4 - 1). rewrite Z.lxor_spec, !testbit_ones by lia.
  destruct (Z.leb_spec 0 i); [|lia]. change 1 with (2 ^ 0).
  destruct (Z.ltb_spec i 4); cbn.
  - destruct (Z.ltb_spec i 8); [|lia]. cbn. by rewrite andb_false_r, orb_false_r, andb_true_r.
  - rewrite andb_false_r. symmetry. apply Z.pow2_bits_false. lia.
Qed.

Lemma prio_ok_ready th : number_mask th = 2 ^ current_priority th ->
  0 <= current_priority th < RT_THREAD_PRIORITY_MAX -> prio_ok (ready_stat th).
Proof. intros. split_and!; cbn; [lia..|auto|done]. Qed.

(** The READY state of a thread and its place in the ready list come together. *)
Lemma sched_insert t th k :
  sched_but (eq t) (k_thr k) (k_tl k) (k_group k) -> k_thr k !! t = Some th -> t <> RT_NULL ->
  number_mask th = 2 ^ current_priority th ->
  let k' := k_insert t th k in sched_inv (k_thr k') (k_tl k') (k_group k').
Proof.
  intros HS Ht Hnz Hm. cbn. pose proof (so_prio _ _ _ _ HS t th Ht) as (Hp & _).
  change (number_mask th) with (number_mask (ready_stat th)).
  change (current_priority th) with (current_priority (ready_stat th)).
  apply sched_but_ready; [|by rewrite lookup_insert_eq|done|apply ready_stat_statm].
  apply sched_but_upd; [done|]. by apply prio_ok_ready.
Qed.

(** ** The choice of the next thread *)

Definition stack_ok (th : rt_thread) : Prop :=
  stack_guard th = 35 /\ stack_addr th < sp th <= stack_addr th + stack_size th.

Lemma stack_check_done t th k : t <> RT_NULL -> k_thr k !! t = Some th -> stack_ok th ->
  _rt_scheduler_stack_check t k = Done tt k.
Proof.
  intros Hnz Ht (Hg & Hs). unfold _rt_scheduler_stack_check.
  destruct (Z.eqb_spec t RT_NULL); [done|]. cbn [negb rt_assert]. mstep.
  rewrite (after (thr_done _ _ _ Ht)). rewrite Hg. cbn [negb Z.eqb Pos.eqb].
  destruct (Z.leb_spec (sp th) (stack_addr th)); [lia|].
  destruct (Z.ltb_spec (stack_addr th + stack_size th) (sp th)); [lia|]. done.
Qed.

(** [to] is the first thread of the first non-empty ready list, that of [p]. *)
Definition highest (L : gmap lhead (list Z)) (p to : Z) : Prop :=
  0 <= p < RT_THREAD_PRIORITY_MAX /\ (exists l, L !! LReady p = Some (to :: l)) /\
  forall q l, 0 <= q < p -> L !! LReady q = Some l -> l = [].

Lemma highest_ready_done P k :
  sched_but P (k_thr k) (k_tl k) (k_group k) -> k_group k <> 0 ->
  exists p to, highest_ready k = Done (p, to) k /\ highest (k_tl k) p to.
Proof.
  intros HS Hg. pose proof (so_group _ _ _ _ HS) as Hr.
  destruct (__rt_ffs_lowest (k_group k)) as [(H0 & Ht & Hlow) Hb]; [lia|].
  set (p := __rt_ffs (k_group k) - 1) in *.
  assert (Hp : 0 <= p < RT_THREAD_PRIORITY_MAX) by (unfold p, RT_THREAD_PRIORITY_MAX; lia).
  destruct (proj2 (so_tab _ _ _ _ HS p) Hp) as [l Hl].
  apply (so_bit _ _ _ _ HS p l Hl) in Ht as Hne. destruct l as [|to l]; [done|].
  exists p, to. split.
  - unfold highest_ready. mstep. fold p. unfold RT_THREAD_PRIORITY_MAX in Hp. rewrite u32_small by lia.
    by rewrite (after (tlist_done _ _ _ Hl)).
  - split_and!; [lia|lia|eauto|]. intros q l' Hq Hl'. destruct l' as [|x l']; [done|].
    assert (Z.testbit (k_group k) q = true) as E by (by apply (so_bit _ _ _ _ HS q _ Hl')).
    rewrite Hlow in E by lia. done.
Qed.

(** A switch to [to]. *)
Definition k_switch (p to : Z) (k : kernel) : kernel :=
  if to =? k_cur k then k else upd_cur (fun _ => to) (upd_curprio (fun _ => u8 p) k).

(** Every thread that can be chosen has its stack in order. *)
Definition stacks_ok (T : gmap Z rt_thread) : Prop :=
  forall t th, T !! t = Some th -> statm th = RT_THREAD_READY -> stack_ok th.

Lemma rt_schedule_done P k :
  sched_but P (k_thr k) (k_tl k) (k_group k) -> k_group k <> 0 -> k_lock k = 0 ->
  k_cur k <> RT_NULL -> stacks_ok (k_thr k) ->
  exists p to, rt_schedule k = Done tt (k_switch p to k) /\ highest (k_tl k) p to.
Proof.
  intros HS Hg Hl Hc Hst. destruct (highest_ready_done P k HS Hg) as (p & to & E & HH).
  exists p, to. split; [|done]. unfold rt_schedule, k_switch. mstep. rewrite Hl. cbn [Z.eqb].
  rewrite (after E). mstep. cbn [fst snd].
  destruct (Z.eqb_spec to (k_cur k)) as [|Hne]; [done|]. cbn [negb]. do 2 mstep.
  destruct HH as (_ & [l Hl'] & _).
  destruct (so_mem _ _ _ _ HS _ _ to Hl') as (Hnz & _ & th & Hth & [Hm _]); [set_solver|].
  rewrite (bind_done _ _ _ tt _ (stack_check_done to th (upd_cur _ (upd_curprio _ k)) Hnz Hth (Hst _ _ Hth Hm))).
  by destruct (Z.eqb_spec (k_cur k) RT_NULL).
Qed.

Lemma rt_schedule_locked k : k_lock k <> 0 -> rt_schedule k = Done tt k.
Proof. intros. unfold rt_schedule. mstep. by destruct (Z.eqb_spec (k_lock k) 0). Qed.

(** Some thread is ready, the idle thread at least. *)
Lemma group_nonzero P T L g t th :
  sched_but P T L g -> ~ P t -> T !! t = Some th -> statm th = RT_THREAD_READY -> g <> 0.
Proof.
  intros HS HP Ht Hs ->. destruct (so_ready _ _ _ _ HS t th HP Ht Hs) as (l & Hl & Hin).
  assert (Z.testbit 0 (current_priority th) = true) as E; [|by rewrite Z.bits_0 in E].
  apply (so_bit _ _ _ _ HS _ _ Hl). intros ->. by apply not_elem_of_nil in Hin.
Qed.

(** C2: with the scheduler unlocked, [rt_schedule] runs the thread at the head of
    the ready list of the best priority: the chosen thread is READY, it is the
    longest waiting one of its priority, and no READY thread has a numerically
    lower priority; nothing but the current thread changes. *)
Theorem rt_schedule_runs_highest k t0 th0 :
  sched_inv (k_thr k) (k_tl k) (k_group k) -> k_lock k = 0 -> k_cur k <> RT_NULL ->
  stacks_ok (k_thr k) -> k_thr k !! t0 = Some th0 -> statm th0 = RT_THREAD_READY ->
  exists k' p th l, rt_schedule k = Done tt k' /\ k' = k_switch p (k_cur k') k /\
    k_thr k !! k_cur k' = Some th /\ statm th = RT_THREAD_READY /\
    k_tl k !! LReady (current_priority th) = Some (k_cur k' :: l) /\
    forall t' th', k_thr k !! t' = Some th' -> statm th' = RT_THREAD_READY ->
      current_priority th <= current_priority th'.
Proof.
  intros HS Hl Hc Hst Ht0 Hs0. pose proof (group_nonzero _ _ _ _ _ _ HS (fun f => f) Ht0 Hs0) as Hg.
  destruct (rt_schedule_done _ k HS Hg Hl Hc Hst) as (p & to & E & Hp & [l Hl'] & Hlow).
  destruct (so_mem _ _ _ _ HS _ _ to Hl') as (Hnz & _ & th & Hth & Hm & Hcp); [set_solver|].
  assert (Hcur : k_cur (k_switch p to k) = to).
  { unfold k_switch. by destruct (Z.eqb_spec to (k_cur k)). }
  exists (k_switch p to k), p, th, l. rewrite Hcur, Hcp. split_and!; try done.
  intros t' th' Ht' Hs'. destruct (so_ready _ _ _ _ HS t' th' (fun f => f) Ht' Hs') as (l' & Hl2 & Hin).
  destruct (Z.lt_ge_cases (current_priority th') p); [|lia].
  destruct (so_prio _ _ _ _ HS _ _ Ht') as [? _].
  rewrite (Hlow (current_priority th') l') in Hin by (done || lia). by apply not_elem_of_nil in Hin.
Qed.

(** ** Initialisation *)

Lemma init_table_done n offset k :
  init_table n offset k =
  Done tt (upd_tl (fun L => foldr (fun p L => <[LReady p := []]> L) L (reverse (seqZ offset (Z.of_nat n)))) k).
Proof.
  revert offset k. induction n as [|n IH]; intros offset k; cbn [init_table].
  - unfold ret. f_equal. by rewrite upd_tl_id.
  - unfold tl_init. mstep. rewrite IH. f_equal. kext.
    rewrite (seqZ_cons offset) by lia. rewrite reverse_cons, foldr_app. cbn [foldr].
    by rewrite Nat2Z.inj_succ, Z.pred_succ, <- Z.add_1_r.
Qed.

Lemma foldr_ready (L : gmap lhead (list Z)) (l : list Z) h :
  foldr (fun p L => <[LReady p := []]> L) L l !! h =
  match h with LReady p => if decide (p ∈ l) then Some [] else L !! h | _ => L !! h end.
Proof.
  induction l as [|q l IH]; cbn [foldr].
  - by destruct h.
  - destruct (decide (h = LReady q)) as [->|Hne].
    + rewrite lookup_insert_eq. by rewrite decide_True by set_solver.
    + rewrite lookup_insert_ne by done. rewrite IH. destruct h as [p| | |]; try done.
      destruct (decide (p ∈ l)), (decide (p ∈ q :: l)); set_solver.
Qed.

(** What [rt_system_scheduler_init] leaves. *)
Definition k_sched_init (k : kernel) : kernel :=
  upd_tl (<[LDefunct := []]>) (upd_group (fun _ => 0) (upd_cur (fun _ => RT_NULL)
    (upd_curprio (fun _ => 31) (upd_tl (fun L => foldr (fun p L => <[LReady p := []]> L) L (reverse (seqZ 0 32)))
      (upd_lock (fun _ => 0) k))))).

Lemma scheduler_init_done k : rt_system_scheduler_init k = Done tt (k_sched_init k).
Proof.
  unfold rt_system_scheduler_init. mstep.
  rewrite (after (init_table_done _ _ _)). by repeat mstep.
Qed.

Lemma sched_init_lookup k h : k_tl (k_sched_init k) !! h =
  match h with
  | LReady p => if decide (0 <= p < RT_THREAD_PRIORITY_MAX) then Some [] else k_tl k !! h
  | LDefunct => Some []
  | _ => k_tl k !! h
  end.
Proof.
  cbn [k_sched_init upd_tl k_tl upd_group upd_cur upd_curprio]. destruct (decide (h = LDefunct)) as [->|Hne].
  - by rewrite lookup_insert_eq.
  - rewrite lookup_insert_ne by done. rewrite foldr_ready. destruct h as [p| | |]; try done.
    assert (p ∈ reverse (seqZ 0 32) <-> 0 <= p < RT_THREAD_PRIORITY_MAX) as HE.
    { rewrite elem_of_reverse, elem_of_seqZ. unfold RT_THREAD_PRIORITY_MAX. lia. }
    by destruct (decide (p ∈ _)), (decide (0 <= p < _)); try tauto.
Qed.

(** [rt_system_scheduler_init] establishes the scheduler invariant: from any
    state in which no thread is ready or closed and every waiting list is empty,
    it leaves 32 empty ready lists, an empty defunct list, an empty ready group,
    the scheduler unlocked and no current thread. *)
Theorem rt_system_scheduler_init_establishes k :
  (forall t th, k_thr k !! t = Some th -> prio_ok th /\ statm th <> RT_THREAD_READY) ->
  (forall h l, k_tl k !! h = Some l -> match h with LReady p => 0 <= p < RT_THREAD_PRIORITY_MAX | _ => l = [] end) ->
  exists k', rt_system_scheduler_init k = Done tt k' /\
    sched_inv (k_thr k') (k_tl k') (k_group k') /\
    k_cur k' = RT_NULL /\ k_lock k' = 0 /\ k_thr k' = k_thr k /\
    (forall h l, k_tl k' !! h = Some l -> l = []).
Proof.
  intros HT HL. exists (k_sched_init k). rewrite scheduler_init_done.
  assert (Hnil : forall h l, k_tl (k_sched_init k) !! h = Some l -> l = []).
  { intros h l. rewrite sched_init_lookup. destruct h as [p| | |]; try (by intros ?%HL); [|by intros [= <-]].
    destruct (decide _); [by intros [= <-]|]. intros Hp%HL. by destruct n. }
  split_and!; try done. split; cbn [k_thr k_sched_init].
  - intros p. rewrite sched_init_lookup. destruct (decide _) as [?|Hn]; [by split; eauto|].
    split; [|done]. intros [l Hl]. by apply HL in Hl.
  - rewrite sched_init_lookup. eauto.
  - intros h l ->%Hnil. constructor.
  - intros h1 h2 l1 l2 t ->%Hnil _ ?%not_elem_of_nil. done.
  - intros h l t ->%Hnil ?%not_elem_of_nil. done.
  - intros t th _ [_ Hne]%HT. done.
  - intros t th [Hp _]%HT. done.
  - done.
  - intros p l ->%Hnil. cbn. by rewrite Z.bits_0.
Qed.
