(* ===== verification/Timer.v ===== *)
(** * Timers (src/timer.c)

    [rt_timer_list] is a list of the running timers in the order in which they
    expire (the skip list has one level, [random_nr] only counts).  Ticks are
    32-bit counters that wrap; [toff] is the signed distance from now to the
    timeout of a timer, and [tm_inv] says that the list is sorted by it, that
    it holds exactly the timers whose ACTIVATED flag is set, and that no
    timeout lies more than half the counter away.

    [rt_timer_check], which calls back into the thread code, is in Clock.v. *)

From Stdlib Require Import Sorting.Sorted.
From S2P Require Import Prelude RtList Exec KService Mem Kernel Object.

(** ** Operations *)

(** [RT_ASSERT(timer != RT_NULL)] and the type check. *)
Definition timer_check_arg (o : oid) : K unit :=
  rt_assert (negb (is_null o));;; assert_type o RT_Object_Class_Timer.

(** [timer->parent.flag = v]. *)
Definition set_flag (o : oid) (f : Z -> Z) : K unit :=
  h <- hdr o;; put_hdr o (set_oflag (f (oflag h)) h).
Definition clear_active (fl : Z) : Z := Z.land fl (not8 RT_TIMER_FLAG_ACTIVATED).
Definition set_active (fl : Z) : Z := Z.lor fl RT_TIMER_FLAG_ACTIVATED.

(** [rt_list_init(&(timer->row[0]))] of a linked node would corrupt the list. *)
Definition _rt_timer_init (o : oid) (timeout : callback) (parameter time flag : Z) : K unit :=
  set_flag o (fun _ => u8 flag);;;
  set_flag o clear_active;;;
  modify (upd_tm (<[o := Timer timeout parameter time 0]>));;;
  q <- gets (fun k => bool_decide (o ∈ k_tmlist k));;
  if (q : bool) then stuck Undefined else ret tt.

Definition rt_timer_list_next_timeout : K Z :=
  l <- gets k_tmlist;;
  match l with
  | [] => ret RT_TICK_MAX
  | t :: _ => tm <- tmr t;; ret (timeout_tick tm)
  end.
Definition rt_timer_next_timeout_tick : K Z := rt_timer_list_next_timeout.

Definition _rt_timer_remove (o : oid) : K unit := modify (upd_tmlist (lremove o)).

Definition rt_timer_init (o : oid) (name : list Z) (timeout : callback) (parameter time flag : Z) : K unit :=
  rt_assert (negb (is_null o));;;
  rt_object_init o RT_Object_Class_Timer name;;;
  _rt_timer_init o timeout parameter time flag.

Definition rt_timer_detach (o : oid) : K Z :=
  timer_check_arg o;;;
  s <- rt_object_is_systemobject o;; rt_assert s;;;
  _rt_timer_remove o;;;
  rt_object_detach o;;;
  ret RT_EOK.

Definition rt_timer_create (name : list Z) (timeout : callback) (parameter time flag : Z) : K Z :=
  p <- rt_object_allocate RT_Object_Class_Timer name;;
  if p =? RT_NULL then ret RT_NULL
  else _rt_timer_init (Obj p) timeout parameter time flag;;; ret p.

Definition rt_timer_delete (p : Z) : K Z :=
  timer_check_arg (Obj p);;;
  s <- rt_object_is_systemobject (Obj p);; rt_assert (negb s);;;
  _rt_timer_remove (Obj p);;;
  rt_object_delete p;;;
  ret RT_EOK.

(** The search loop of [rt_timer_start] and the insertion behind the node it
    stops at: the new timer goes in front of the first one that expires later. *)
Fixpoint timer_place (TM : gmap oid rt_timer) (o : oid) (tick : Z) (l : list oid) : option (list oid) :=
  match l with
  | [] => Some [o]
  | t :: l' =>
      tm ← TM !! t;
      let d := u32 (timeout_tick tm - tick) in
      if d =? 0 then l'' ← timer_place TM o tick l'; Some (t :: l'')
      else if d <? RT_TICK_MAX / 2 then Some (o :: t :: l')
      else l'' ← timer_place TM o tick l'; Some (t :: l'')
  end.

Definition set_timeout_tick (v : Z) (t : rt_timer) : rt_timer :=
  Timer (timeout_func t) (tparameter t) (tinit_tick t) v.
Definition set_tinit_tick (v : Z) (t : rt_timer) : rt_timer :=
  Timer (timeout_func t) (tparameter t) v (timeout_tick t).

Definition rt_timer_start (o : oid) : K Z :=
  timer_check_arg o;;;
  _rt_timer_remove o;;;
  set_flag o clear_active;;;
  tm <- tmr o;;
  rt_assert (tinit_tick tm <? RT_TICK_MAX / 2);;;
  now <- gets k_tick;;
  let tick := u32 (now + tinit_tick tm) in
  mod_tmr o (set_timeout_tick tick);;;
  l <- deref (fun k => timer_place (k_tm k) o tick (k_tmlist k));;
  modify (upd_random (fun n => u32 (n + 1)));;;
  modify (upd_tmlist (fun _ => l));;;
  set_flag o set_active;;;
  ret RT_EOK.

Definition rt_timer_stop (o : oid) : K Z :=
  timer_check_arg o;;;
  h <- hdr o;;
  if negb (nz (Z.land (oflag h) RT_TIMER_FLAG_ACTIVATED)) then ret (- RT_ERROR)
  else
    _rt_timer_remove o;;;
    set_flag o clear_active;;;
    ret RT_EOK.

(** [arg] points to a tick count: the value it has before and after. *)
Definition rt_timer_control (o : oid) (cmd arg : Z) : K Z :=
  timer_check_arg o;;;
  if cmd =? RT_TIMER_CTRL_GET_TIME then tm <- tmr o;; ret (tinit_tick tm)
  else if cmd =? RT_TIMER_CTRL_SET_TIME then mod_tmr o (set_tinit_tick arg);;; ret arg
  else if cmd =? RT_TIMER_CTRL_SET_ONESHOT then
    set_flag o (fun f => Z.land f (not8 RT_TIMER_FLAG_PERIODIC));;; ret arg
  else if cmd =? RT_TIMER_CTRL_SET_PERIODIC then
    set_flag o (fun f => Z.lor f RT_TIMER_FLAG_PERIODIC);;; ret arg
  else ret arg.

Definition rt_system_timer_init : K unit := modify (upd_tmlist (fun _ => [])).

(** ** Invariant *)

Definition active (h : rt_object) : Prop := Z.testbit (oflag h) 0 = true.

(** The signed distance to the timeout of [o]. *)
Definition toff (TM : gmap oid rt_timer) (now : Z) (o : oid) : Z :=
  match TM !! o with Some tm => s32 (timeout_tick tm - now) | None => 0 end.

(** The longest time a timer can be set to. *)
Definition max_off : Z := RT_TICK_MAX / 2 - 1.

(** [P] marks timers whose flag is not trusted (the one being processed by
    [rt_timer_check]); no timeout is more than [- lo] ticks in the past. *)
Record tm_but (P : oid -> Prop) (lo : Z) (H : gmap oid rt_object) (TM : gmap oid rt_timer)
    (l : list oid) (now : Z) : Prop := TmBut {
  tv_nodup : NoDup l;
  tv_mem : forall o, o ∈ l -> exists tm h, TM !! o = Some tm /\ H !! o = Some h /\
    class_of h = RT_Object_Class_Timer /\ active h /\ lo <= toff TM now o <= max_off /\ ~ P o;
  tv_act : forall o h, ~ P o -> H !! o = Some h -> class_of h = RT_Object_Class_Timer ->
    active h -> o ∈ l;
  tv_sorted : StronglySorted (fun a b => toff TM now a <= toff TM now b) l;
  tv_now : 0 <= now < 2 ^ 32
}.
Definition tm_inv := tm_but (fun _ => False).

(** ** Placing a timer *)

Lemma RT_TICK_half : RT_TICK_MAX / 2 = 2 ^ 31 - 1.
Proof. done. Qed.

(** The comparison of the search loop in terms of distances. *)
Lemma place_test a b now :
  let oa := s32 (a - now) in let ob := s32 (b - now) in
  -1 <= oa <= 2 ^ 31 - 2 -> 0 <= ob <= 2 ^ 31 - 2 ->
  (u32 (a - b) =? 0) = (oa =? ob) /\
  (oa <> ob -> (u32 (a - b) <? 2 ^ 31 - 1) = (ob <? oa)).
Proof.
  cbn zeta. intros Ha Hb.
  assert (E : u32 (a - b) = u32 (s32 (a - now) - s32 (b - now))).
  { pose proof (u32_s32 (a - now)) as Ea. pose proof (u32_s32 (b - now)) as Eb. unfold u32 in *.
    rewrite (Zminus_mod (s32 (a - now))), Ea, Eb, <- Zminus_mod. f_equal. lia. }
  rewrite E. clear E. set (oa := s32 (a - now)) in *. set (ob := s32 (b - now)) in *.
  assert (Hu : u32 (oa - ob) = if ob <=? oa then oa - ob else oa - ob + 2 ^ 32).
  { unfold u32. destruct (Z.leb_spec ob oa); [apply Z.mod_small; lia|].
    rewrite <- (Z_mod_plus_full _ 1), Z.mod_small; lia. }
  rewrite Hu. destruct (Z.leb_spec ob oa).
  - split; [destruct (Z.eqb_spec (oa - ob) 0), (Z.eqb_spec oa ob); (done || lia)|].
    intros. destruct (Z.ltb_spec (oa - ob) (2 ^ 31 - 1)), (Z.ltb_spec ob oa); (done || lia).
  - split; [destruct (Z.eqb_spec (oa - ob + 2 ^ 32) 0), (Z.eqb_spec oa ob); (done || lia)|].
    intros. destruct (Z.ltb_spec (oa - ob + 2 ^ 32) (2 ^ 31 - 1)), (Z.ltb_spec ob oa); (done || lia).
Qed.

(** The list splits at the place: those before expire no later, those after later. *)
Lemma timer_place_spec TM o tick now l :
  0 <= s32 (tick - now) <= max_off ->
  (forall t, t ∈ l -> exists tm, TM !! t = Some tm /\ -1 <= toff TM now t <= max_off) ->
  exists l1 l2, l = l1 ++ l2 /\ timer_place TM o tick l = Some (l1 ++ o :: l2) /\
    (forall t, t ∈ l1 -> toff TM now t <= s32 (tick - now)) /\
    (forall t l2', l2 = t :: l2' -> s32 (tick - now) < toff TM now t).
Proof.
  intros Hn. induction l as [|t l IH]; intros Hm.
  - exists [], []. split_and!; [done|done|set_solver|done].
  - destruct (Hm t) as (tm & Ht & Hr); [set_solver|]. cbn [timer_place]. rewrite Ht. cbn [mbind option_bind].
    destruct IH as (l1 & l2 & -> & El & H1 & H2); [intros; apply Hm; set_solver|].
    unfold toff in Hr. rewrite Ht in Hr. unfold max_off in Hr, Hn. rewrite RT_TICK_half in Hr, Hn |- *.
    destruct (place_test (timeout_tick tm) tick now) as [E1 E2]; [lia|lia|]. rewrite E1.
    assert (Hto : toff TM now t = s32 (timeout_tick tm - now)) by (unfold toff; by rewrite Ht).
    assert (Hgo : toff TM now t <= s32 (tick - now) -> exists l1' l2', t :: l1 ++ l2 = l1' ++ l2' /\
      (l'' ← timer_place TM o tick (l1 ++ l2); Some (t :: l'')) = Some (l1' ++ o :: l2') /\
      (forall t', t' ∈ l1' -> toff TM now t' <= s32 (tick - now)) /\
      (forall t' l2'', l2' = t' :: l2'' -> s32 (tick - now) < toff TM now t')).
    { intros Hle. exists (t :: l1), l2. rewrite El. split_and!; try done. intros t' [->|?]%elem_of_cons; auto. }
    destruct (Z.eqb_spec (s32 (timeout_tick tm - now)) (s32 (tick - now))) as [Eq|Ne]; [apply Hgo; lia|].
    rewrite E2 by done. destruct (Z.ltb_spec (s32 (tick - now)) (s32 (timeout_tick tm - now))); [|apply Hgo; lia].
    exists [], (t :: l1 ++ l2). split_and!; try done; [set_solver|]. intros t' l2' [= <- <-]. lia.
Qed.

(** ** Sorted lists *)

Section sorted.
Context {A : Type} (R : A -> A -> Prop).

Lemma StronglySorted_filter (P : A -> Prop) `{forall x, Decision (P x)} l :
  StronglySorted R l -> StronglySorted R (filter P l).
Proof.
  induction 1 as [|x l Hs IH Hf]; [constructor|]. rewrite filter_cons. case_decide; [|done].
  constructor; [done|]. rewrite Forall_forall in Hf |- *. intros y [_ ?]%list_elem_of_filter. auto.
Qed.

Lemma StronglySorted_insert l1 x l2 :
  StronglySorted R (l1 ++ l2) -> (forall y, y ∈ l1 -> R y x) -> (forall y, y ∈ l2 -> R x y) ->
  StronglySorted R (l1 ++ x :: l2).
Proof.
  intros Hs H1 H2. induction l1 as [|y l1 IH]; cbn in *.
  - constructor; [done|]. by apply Forall_forall.
  - apply StronglySorted_inv in Hs as [Hs Hf]. constructor.
    + apply IH; [done|]. intros. apply H1. set_solver.
    + rewrite Forall_app in Hf |- *. rewrite Forall_cons. split_and!; [tauto| |tauto]. apply H1. set_solver.
Qed.

Lemma StronglySorted_app_r l1 l2 : StronglySorted R (l1 ++ l2) -> StronglySorted R l2.
Proof. induction l1 as [|y l1 IH]; [done|]. intros [? _]%StronglySorted_inv. auto. Qed.
End sorted.

Lemma StronglySorted_ext {A} (R R' : A -> A -> Prop) l :
  (forall x y, x ∈ l -> y ∈ l -> R x y -> R' x y) -> StronglySorted R l -> StronglySorted R' l.
Proof.
  intros HR Hs. induction Hs as [|x l Hs IH Hf]; [constructor|]. constructor.
  - apply IH. intros. apply HR; set_solver.
  - rewrite Forall_forall in Hf |- *. intros y Hy. apply HR; [set_solver..|auto].
Qed.

(** ** Flags *)

Lemma testbit_not8 m i : 0 <= i < 8 -> Z.testbit (not8 m) i = negb (Z.testbit m i).
Proof.
  intros. unfold not8. rewrite Z.lxor_spec, testbit_ones by lia.
  destruct (Z.leb_spec 0 i); [|lia]. destruct (Z.ltb_spec i 8); [|lia]. cbn. by rewrite xorb_true_r.
Qed.

Lemma active_clear h : ~ active (set_oflag (clear_active (oflag h)) h).
Proof.
  unfold active, clear_active, RT_TIMER_FLAG_ACTIVATED. cbn [oflag set_oflag].
  rewrite Z.land_spec, testbit_not8 by lia. by rewrite andb_false_r.
Qed.

Lemma active_set v h : active (set_oflag (set_active v) h).
Proof.
  unfold active, set_active, RT_TIMER_FLAG_ACTIVATED. cbn [oflag set_oflag].
  rewrite Z.lor_spec. by rewrite orb_true_r.
Qed.

Lemma active_test h : nz (Z.land (oflag h) RT_TIMER_FLAG_ACTIVATED) = Z.testbit (oflag h) 0.
Proof. apply (land_pow2_testbit _ 0). lia. Qed.

Lemma class_flag v h : class_of (set_oflag v h) = class_of h.
Proof. done. Qed.

(** ** Changes that keep the invariant *)

Section tm.
Context (P : oid -> Prop) (lo : Z) (H : gmap oid rt_object) (TM : gmap oid rt_timer) (l : list oid) (now : Z).

Lemma toff_ne o tm t : t <> o -> toff (<[o := tm]> TM) now t = toff TM now t.
Proof. intros. unfold toff. by rewrite lookup_insert_ne. Qed.

(** The timer leaves the list and its flag is cleared (or it stops being a timer). *)
Lemma tm_remove o H' :
  tm_but P lo H TM l now -> (forall o', o' <> o -> H' !! o' = H !! o') ->
  (forall h, H' !! o = Some h -> class_of h = RT_Object_Class_Timer -> ~ active h) ->
  tm_but (fun x => P x /\ x <> o) lo H' TM (lremove o l) now.
Proof.
  intros [] HH Ho. split; [auto with rt| | | |done].
  - intros o' [Hin Hne]%elem_of_lremove. destruct (tv_mem0 o' Hin) as (tm & h & ? & ? & ? & ? & ? & ?).
    exists tm, h. rewrite HH by done. split_and!; (done || tauto).
  - intros o' h HP Hh Hc Ha. apply elem_of_lremove. destruct (decide (o' = o)) as [->|Hne].
    + by destruct (Ho h Hh Hc).
    + rewrite HH in Hh by done. split; [|done]. eapply tv_act0; try done. tauto.
  - by apply StronglySorted_filter.
Qed.

(** The timer leaves the list, its flag still set. *)
Lemma tm_unlink o : tm_but P lo H TM l now -> tm_but (fun x => P x \/ x = o) lo H TM (lremove o l) now.
Proof.
  intros []. split; [auto with rt| | | |done].
  - intros o' [Hin Hne]%elem_of_lremove. destruct (tv_mem0 o' Hin) as (tm & h & ? & ? & ? & ? & ? & ?).
    exists tm, h. split_and!; (done || tauto).
  - intros o' h HP Hh Hc Ha. apply elem_of_lremove. split; [|tauto]. eapply tv_act0; try done. tauto.
  - by apply StronglySorted_filter.
Qed.

(** A timer outside the list is set to [d] ticks from now and joins it. *)
Lemma tm_enter o tm h l1 l2 :
  tm_but P lo H TM (l1 ++ l2) now -> o ∉ l1 ++ l2 ->
  class_of h = RT_Object_Class_Timer -> active h -> lo <= s32 (timeout_tick tm - now) <= max_off ->
  (forall t, t ∈ l1 -> toff TM now t <= s32 (timeout_tick tm - now)) ->
  (forall t, t ∈ l2 -> s32 (timeout_tick tm - now) <= toff TM now t) ->
  tm_but (fun x => P x /\ x <> o) lo (<[o := h]> H) (<[o := tm]> TM) (l1 ++ o :: l2) now.
Proof.
  intros [] Hno Hc Ha Hr H1 H2.
  assert (Ho : toff (<[o := tm]> TM) now o = s32 (timeout_tick tm - now)) by (unfold toff; by rewrite lookup_insert_eq).
  assert (Hin : forall x, x ∈ l1 ++ o :: l2 <-> x = o \/ x ∈ l1 ++ l2) by set_solver.
  split; [| | | |done].
  - rewrite NoDup_app in tv_nodup0 |- *. rewrite NoDup_cons. set_solver.
  - intros o' Ho'. apply Hin in Ho' as [->|Ho'].
    + exists tm, h. rewrite !lookup_insert_eq, Ho. split_and!; try done; try lia. tauto.
    + assert (o' <> o) by (intros ->; done). rewrite toff_ne, !lookup_insert_ne by done.
      destruct (tv_mem0 o' Ho') as (tm' & h' & ? & ? & ? & ? & ? & ?).
      exists tm', h'. split_and!; (done || tauto).
  - intros o' h' HP [[<- <-]|[Hne Hh']]%lookup_insert_Some Hc' Ha'; apply Hin; [by left|right].
    eapply tv_act0; try done. intros HP'. apply HP. split; congruence.
  - apply StronglySorted_insert.
    + eapply StronglySorted_ext; [|exact tv_sorted0]. intros x y Hx Hy.
      rewrite !toff_ne; [done|by intros ->..].
    + intros y Hy. rewrite Ho, toff_ne; [by apply H1|]. intros ->. set_solver.
    + intros y Hy. rewrite Ho, toff_ne; [by apply H2|]. intros ->. set_solver.
Qed.

(** A header or timer changes outside what the list depends on. *)
Lemma tm_frame H' TM' :
  tm_but P lo H TM l now ->
  (forall o, timeout_tick <$> TM' !! o = timeout_tick <$> TM !! o) ->
  (forall o h', H' !! o = Some h' -> class_of h' = RT_Object_Class_Timer -> active h' -> ~ P o ->
    exists h, H !! o = Some h /\ class_of h = RT_Object_Class_Timer /\ active h) ->
  (forall o h, o ∈ l -> H !! o = Some h -> class_of h = RT_Object_Class_Timer -> active h ->
    exists h', H' !! o = Some h' /\ class_of h' = RT_Object_Class_Timer /\ active h') ->
  tm_but P lo H' TM' l now.
Proof.
  intros [] HT HA HB.
  assert (Ht : forall o, toff TM' now o = toff TM now o).
  { intros o. unfold toff. specialize (HT o). destruct (TM' !! o), (TM !! o); cbn in HT; congruence. }
  split; [done| | | |done].
  - intros o Hin. destruct (tv_mem0 o Hin) as (tm & h & Htm & Hh & Hc & Ha & ? & ?).
    destruct (HB o h Hin Hh Hc Ha) as (h' & ? & ? & ?). specialize (HT o). rewrite Htm in HT.
    destruct (TM' !! o) as [tm'|]; [|done]. exists tm', h'. rewrite Ht. split_and!; (done || tauto).
  - intros o h' HP Hh' Hc Ha. destruct (HA o h' Hh' Hc Ha HP) as (h & ? & ? & ?). by eapply tv_act0.
  - eapply StronglySorted_ext; [|exact tv_sorted0]. intros x y _ _. by rewrite !Ht.
Qed.

(** A timer that is not running is set up. *)
Lemma tm_setup o h tm :
  tm_but P lo H TM l now -> o ∉ l -> ~ active h \/ class_of h <> RT_Object_Class_Timer ->
  tm_but P lo (<[o := h]> H) (<[o := tm]> TM) l now.
Proof.
  intros [] Hno Hh.
  assert (Ht : forall x, x ∈ l -> toff (<[o := tm]> TM) now x = toff TM now x).
  { intros x Hx. unfold toff. rewrite lookup_insert_ne; [done|]. by intros <-. }
  split; [done| | | |done].
  - intros x Hx. destruct (tv_mem0 x Hx) as (tm' & h' & ? & ? & ? & ? & ? & ?).
    exists tm', h'. rewrite Ht by done. rewrite !lookup_insert_ne by (by intros <-). done.
  - intros x h' HP [[<- <-]|[Hne Hx]]%lookup_insert_Some Hc Ha; [|by eapply tv_act0].
    by destruct Hh.
  - eapply StronglySorted_ext; [|exact tv_sorted0]. intros x y Hx Hy. by rewrite !Ht.
Qed.

Lemma tm_weaken (Q : oid -> Prop) :
  tm_but P lo H TM l now -> (forall o, P o <-> Q o) -> tm_but Q lo H TM l now.
Proof.
  intros [] HPQ. split; [done| | |done|done].
  - intros o Hin. destruct (tv_mem0 o Hin) as (tm & h & ? & ? & ? & ? & ? & Hn).
    exists tm, h. split_and!; try (done || tauto). by rewrite <- HPQ.
  - intros o h HQ. apply tv_act0. by rewrite HPQ.
Qed.
End tm.

(** ** What the operations do *)

Definition is_timer (o : oid) (h : rt_object) (k : kernel) : Prop :=
  is_null o = false /\ k_hdr k !! o = Some h /\ class_of h = RT_Object_Class_Timer.

Lemma timer_check_arg_done o h k : is_timer o h k -> timer_check_arg o k = Done tt k.
Proof.
  intros (Hn & Hh & Hc). unfold timer_check_arg. rewrite Hn. cbn [negb rt_assert]. mstep.
  by eapply assert_type_done.
Qed.

Lemma set_flag_done o f h k : k_hdr k !! o = Some h ->
  set_flag o f k = Done tt (upd_hdr (<[o := set_oflag (f (oflag h)) h]>) k).
Proof. intros Hh. unfold set_flag. by rewrite (after (hdr_done _ _ _ Hh)). Qed.

Lemma tmr_done o tm k : k_tm k !! o = Some tm -> tmr o k = Done tm k.
Proof. intros. unfold tmr. by apply deref_some. Qed.

Lemma mod_tmr_done o f tm k : k_tm k !! o = Some tm ->
  mod_tmr o f k = Done tt (upd_tm (<[o := f tm]>) k).
Proof. intros Ht. unfold mod_tmr. by rewrite (after (tmr_done _ _ _ Ht)). Qed.

(** The state after [rt_timer_stop], whether the timer was running or not. *)
Definition k_stop (o : oid) (h : rt_object) (k : kernel) : kernel :=
  upd_hdr (<[o := set_oflag (clear_active (oflag h)) h]>) (upd_tmlist (lremove o) k).

Lemma clear_active_id h : oflag h < 2 ^ 8 -> 0 <= oflag h -> ~ active h -> clear_active (oflag h) = oflag h.
Proof.
  intros Hb H0 Ha. unfold clear_active. apply Z.bits_inj'. intros i Hi. rewrite Z.land_spec.
  destruct (Z.lt_ge_cases i 8).
  - rewrite testbit_not8 by lia. destruct (decide (i = 0)) as [->|].
    + unfold active in Ha. destruct (Z.testbit (oflag h) 0); done.
    + unfold RT_TIMER_FLAG_ACTIVATED. change 1 with (2 ^ 0). rewrite Z.pow2_bits_false by lia. by rewrite andb_true_r.
  - assert (Z.testbit (oflag h) i = false) as ->; [|done].
    rewrite <- (Z.mod_small (oflag h) (2 ^ 8)) by lia. by apply Z.mod_pow2_bits_high.
Qed.

(** Object flags are bytes. *)
Definition flags_ok (H : gmap oid rt_object) : Prop := forall o h, H !! o = Some h -> 0 <= oflag h < 2 ^ 8.

Lemma rt_timer_stop_done P lo o h k :
  is_timer o h k -> 0 <= oflag h < 2 ^ 8 ->
  tm_but P lo (k_hdr k) (k_tm k) (k_tmlist k) (k_tick k) ->
  rt_timer_stop o k = Done (if Z.testbit (oflag h) 0 then RT_EOK else - RT_ERROR) (k_stop o h k).
Proof.
  intros Hi Hf HT. pose proof Hi as (Hn & Hh & Hc). unfold rt_timer_stop.
  rewrite (after (timer_check_arg_done _ _ _ Hi)).
  rewrite (after (hdr_done _ _ _ Hh)). rewrite active_test. unfold k_stop.
  destruct (Z.testbit (oflag h) 0) eqn:E; cbn [negb].
  - unfold _rt_timer_remove. mstep.
    by rewrite (after (set_flag_done o clear_active h (upd_tmlist (lremove o) k) Hh)).
  - assert (Ha : ~ active h) by (unfold active; by rewrite E).
    rewrite clear_active_id by (done || lia).
    assert (set_oflag (oflag h) h = h) as -> by (by destruct h).
    assert (Hno : o ∉ k_tmlist k).
    { intros Hin. destruct (tv_mem _ _ _ _ _ _ HT o Hin) as (? & h' & _ & Hh' & _ & Ha' & _). congruence. }
    rewrite (upd_tmlist_id _ k) by (by apply lremove_notin).
    rewrite (upd_hdr_id _ k) by (by apply insert_id). done.
Qed.

(** The state after [rt_timer_start]. *)
Definition k_start (o : oid) (h : rt_object) (tm : rt_timer) (l : list oid) (k : kernel) : kernel :=
  upd_hdr (<[o := set_oflag (set_active (clear_active (oflag h))) h]>)
    (upd_tmlist (fun _ => l) (upd_random (fun n => u32 (n + 1))
      (upd_tm (<[o := set_timeout_tick (u32 (k_tick k + tinit_tick tm)) tm]>) k))).

Lemma s32_tick now d : 0 <= now < 2 ^ 32 -> 0 <= d <= max_off -> s32 (u32 (now + d) - now) = d.
Proof.
  intros Hn Hd. unfold max_off in Hd. rewrite RT_TICK_half in Hd. unfold u32, s32.
  replace ((now + d) mod 2 ^ 32 - now + 2 ^ 31) with ((now + d) mod 2 ^ 32 + (2 ^ 31 - now)) by lia.
  rewrite Zplus_mod_idemp_l. replace (now + d + (2 ^ 31 - now)) with (d + 2 ^ 31) by lia.
  rewrite Z.mod_small; lia.
Qed.

Lemma rt_timer_start_done P lo o h tm k :
  is_timer o h k -> k_tm k !! o = Some tm -> 0 <= tinit_tick tm <= max_off -> -1 <= lo <= 0 ->
  tm_but P lo (k_hdr k) (k_tm k) (k_tmlist k) (k_tick k) ->
  exists l1 l2 : list oid, lremove o (k_tmlist k) = l1 ++ l2 /\
    let k' := k_start o h tm (l1 ++ o :: l2) k in
    rt_timer_start o k = Done RT_EOK k' /\
    tm_but (fun x => P x /\ x <> o) lo (k_hdr k') (k_tm k') (k_tmlist k') (k_tick k') /\
    (forall t, t ∈ l1 -> toff (k_tm k) (k_tick k) t <= tinit_tick tm) /\
    (forall t, t ∈ l2 -> tinit_tick tm < toff (k_tm k) (k_tick k) t).
Proof.
  intros Hi Htm Hd Hlo HT. pose proof Hi as (Hn & Hh & Hc). pose proof HT as [Hnd Hm _ Hs Hnow].
  set (tick := u32 (k_tick k + tinit_tick tm)).
  assert (Ht : s32 (tick - k_tick k) = tinit_tick tm) by (by apply s32_tick).
  set (TM := <[o := set_timeout_tick tick tm]> (k_tm k)).
  assert (Hto : forall t, t ∈ lremove o (k_tmlist k) -> toff TM (k_tick k) t = toff (k_tm k) (k_tick k) t).
  { intros t [_ Hne]%elem_of_lremove. by apply toff_ne. }
  destruct (timer_place_spec TM o tick (k_tick k) (lremove o (k_tmlist k))) as (l1 & l2 & El & Ep & H1 & H2).
  { by rewrite Ht. }
  { intros t Hin. rewrite Hto by done. apply elem_of_lremove in Hin as [Hin Hne].
    destruct (Hm t Hin) as (tm' & ? & ? & ? & ? & ? & ? & ?). exists tm'. unfold TM. rewrite lookup_insert_ne by done.
    split; [done|lia]. }
  exists l1, l2. split; [done|]. cbn zeta. rewrite Ht in H1, H2. rewrite El in Hto.
  assert (Hss : StronglySorted (fun a b => toff (k_tm k) (k_tick k) a <= toff (k_tm k) (k_tick k) b) (l1 ++ l2)).
  { rewrite <- El. by apply StronglySorted_filter. }
  assert (H2' : forall t, t ∈ l2 -> tinit_tick tm < toff (k_tm k) (k_tick k) t).
  { intros t Hin. apply StronglySorted_app_r in Hss. destruct l2 as [|y l2]; [set_solver|].
    specialize (H2 y l2 eq_refl). rewrite Hto in H2 by set_solver. apply StronglySorted_inv in Hss as [_ Hf].
    apply elem_of_cons in Hin as [->|Hin]; [done|]. rewrite Forall_forall in Hf. specialize (Hf t Hin). lia. }
  assert (H1' : forall t, t ∈ l1 -> toff (k_tm k) (k_tick k) t <= tinit_tick tm).
  { intros t Hin. rewrite <- Hto by set_solver. by apply H1. }
  split_and!; [| |done|done].
  - unfold rt_timer_start. rewrite (after (timer_check_arg_done _ _ _ Hi)).
    unfold _rt_timer_remove. mstep.
    rewrite (after (set_flag_done o clear_active h (upd_tmlist (lremove o) k) Hh)).
    rewrite (after (tmr_done o tm (upd_hdr _ (upd_tmlist (lremove o) k)) Htm)).
    unfold max_off in Hd. erewrite bind_done; [|apply assert_true; lia]. mstep.
    cbn [k_tick upd_hdr upd_tmlist]. fold tick.
    rewrite (after (mod_tmr_done o _ tm (upd_hdr _ (upd_tmlist (lremove o) k)) Htm)).
    erewrite bind_done; [|apply deref_some; cbn; exact Ep]. do 2 mstep.
    erewrite bind_done; [|apply set_flag_done; cbn; apply lookup_insert_eq].
    unfold ret, k_start. f_equal. kext. rewrite insert_insert_eq. done.
  - cbn. eapply tm_weaken; [apply (tm_enter (fun x => P x \/ x = o) lo (k_hdr k) (k_tm k));
      cbn [timeout_tick set_timeout_tick]|].
    + rewrite <- El. by apply tm_unlink.
    + rewrite <- El. intros [_ ?]%elem_of_lremove. done.
    + done.
    + apply active_set.
    + fold tick. lia.
    + fold tick. rewrite Ht. done.
    + fold tick. rewrite Ht. intros t Hin. specialize (H2' t Hin). lia.
    + intros x. tauto.
Qed.
