(* ===== verification/Thread.v ===== *)
(** * Threads (src/thread.c, the name lookup of src/object.c)

    The life of a thread: [rt_thread_init] and [rt_thread_create],
    [rt_thread_startup], [rt_thread_suspend] and [rt_thread_resume],
    [rt_thread_yield], [rt_thread_sleep], [rt_thread_control],
    [rt_thread_exit], [rt_thread_detach] and [rt_thread_delete], and the
    timeout handler of the timer every thread carries.

    [kbut P lo k] is the invariant of the kernel: those of the scheduler, of
    the object containers and of the timers, together with what ties them
    ([thr_ok]): every thread is a Thread object, has its own timer as long as
    it is not closed, and that timer runs only while the thread is suspended.
    [P] exempts the timer that [rt_timer_check] is working on, [- lo] is the
    largest number of ticks a timeout can be overdue; [kinv] is the invariant
    between kernel calls. *)

From S2P Require Import Prelude RtList Exec KService Mem Kernel Object Scheduler Timer.

(** ** Operations *)

Definition rt_thread_self : K Z := gets k_cur.

(** [RT_ASSERT(thread != RT_NULL)] and the type check. *)
Definition thread_check_arg (t : Z) : K unit :=
  rt_assert (negb (t =? RT_NULL));;; assert_type (Obj t) RT_Object_Class_Thread.

Definition rt_thread_exit : K unit :=
  t <- gets k_cur;;
  rt_schedule_remove_thread t;;;
  mod_thr t (set_stat RT_THREAD_CLOSE);;;
  rt_timer_detach (TimerOf t);;;
  s <- rt_object_is_systemobject (Obj t);; th <- thr t;;
  (if (s && (cleanup th =? RT_NULL))%bool then rt_object_detach (Obj t)
   else tl_insert_after LDefunct t);;;
  rt_schedule.

(** [rt_hw_stack_init] (libcpu/arm/cortex-m4/cpuport.c, with the FPU): the
    address of the initial frame below the aligned top of the stack, and its 17
    words: the FPU flag, r4 to r11, and the frame the processor pops. *)
Definition rt_hw_stack_init (tentry parameter stack_addr texit : Z) : Z * list Z :=
  (RT_ALIGN_DOWN (u32 (stack_addr + 4)) 8 - 68,
   [0] ++ replicate 8 0xdeadbeef ++ [parameter; 0; 0; 0; 0; texit; tentry; 0x01000000]).

(** The address of [rt_thread_exit], the return address of the entry function. *)
Definition thread_exit_addr : Z := 0x08000000.

(** [rt_list_init(&(thread->tlist))] of a queued thread would corrupt a list. *)
Definition _rt_thread_init (t : Z) (name : list Z) (entry parameter stack_start stack_size priority tick : Z) : K Z :=
  q <- gets (fun k => queued t (k_tl k));;
  (if (q : bool) then stuck Undefined else ret tt);;;
  rt_assert (priority <? RT_THREAD_PRIORITY_MAX);;;
  modify (upd_thr (fun T =>
    let old := T !! t in
    <[t := Thread (fst (rt_hw_stack_init entry parameter (stack_start + stack_size - 4) thread_exit_addr)) entry parameter
             stack_start stack_size 35 RT_EOK RT_THREAD_INIT priority priority 0
             (default 0 (event_set <$> old)) (default 0 (event_info <$> old)) tick tick 0 0]> T));;;
  n <- hdr (Obj t);;
  rt_timer_init (TimerOf t) (oname n) ThreadTimeout t 0 0;;;
  ret RT_EOK.

Definition rt_thread_init (t : Z) (name : list Z) (entry parameter stack_start stack_size priority tick : Z) : K Z :=
  rt_assert (negb (t =? RT_NULL));;;
  rt_assert (negb (stack_start =? RT_NULL));;;
  rt_object_init (Obj t) RT_Object_Class_Thread name;;;
  _rt_thread_init t name entry parameter stack_start stack_size priority tick.

Definition rt_thread_resume (t : Z) : K Z :=
  thread_check_arg t;;;
  th <- thr t;;
  if negb (Z.land (stat th) RT_THREAD_STAT_MASK =? RT_THREAD_SUSPEND) then ret (- RT_ERROR)
  else
    tl_remove t;;;
    rt_timer_stop (TimerOf t);;;
    rt_schedule_insert_thread t;;;
    ret RT_EOK.

(** [1L << priority], undefined for a shift by the width or more. *)
Definition priority_mask (p : Z) : K Z :=
  if (0 <=? p) && (p <? 32) then ret (2 ^ p) else stuck Undefined.

Definition rt_thread_startup (t : Z) : K Z :=
  rt_assert (negb (t =? RT_NULL));;;
  th <- thr t;;
  rt_assert (Z.land (stat th) RT_THREAD_STAT_MASK =? RT_THREAD_INIT);;;
  assert_type (Obj t) RT_Object_Class_Thread;;;
  m <- priority_mask (init_priority th);;
  mod_thr t (set_priority (init_priority th) m);;;
  mod_thr t (set_stat RT_THREAD_SUSPEND);;;
  rt_thread_resume t;;;
  cur <- rt_thread_self;;
  when (negb (cur =? RT_NULL)) rt_schedule;;;
  ret RT_EOK.

Definition rt_thread_detach (t : Z) : K Z :=
  thread_check_arg t;;;
  s <- rt_object_is_systemobject (Obj t);; rt_assert s;;;
  th <- thr t;;
  when (negb (Z.land (stat th) RT_THREAD_STAT_MASK =? RT_THREAD_INIT)) (rt_schedule_remove_thread t);;;
  rt_timer_detach (TimerOf t);;;
  mod_thr t (set_stat RT_THREAD_CLOSE);;;
  rt_object_detach (Obj t);;;
  when (negb (cleanup th =? RT_NULL)) (tl_insert_after LDefunct t);;;
  ret RT_EOK.

Definition rt_thread_create (name : list Z) (entry parameter stack_size priority tick : Z) : K Z :=
  t <- rt_object_allocate RT_Object_Class_Thread name;;
  if t =? RT_NULL then ret RT_NULL
  else
    stack_start <- kmalloc stack_size;;
    if stack_start =? RT_NULL then rt_object_delete t;;; ret RT_NULL
    else _rt_thread_init t name entry parameter stack_start stack_size priority tick;;; ret t.

Definition rt_thread_delete (t : Z) : K Z :=
  thread_check_arg t;;;
  s <- rt_object_is_systemobject (Obj t);; rt_assert (negb s);;;
  th <- thr t;;
  when (negb (Z.land (stat th) RT_THREAD_STAT_MASK =? RT_THREAD_INIT)) (rt_schedule_remove_thread t);;;
  rt_timer_detach (TimerOf t);;;
  mod_thr t (set_stat RT_THREAD_CLOSE);;;
  tl_insert_after LDefunct t;;;
  ret RT_EOK.

(** [thread->tlist.next != thread->tlist.prev]: see [rep_alone] of RtList.v. *)
Definition has_company (t : Z) (L : gmap lhead (list Z)) : bool :=
  bool_decide (map_Exists (fun _ l => t ∈ l /\ l <> [t]) L).

Definition rt_thread_yield : K Z :=
  t <- gets k_cur;; th <- thr t;; c <- gets (fun k => has_company t (k_tl k));;
  if ((Z.land (stat th) RT_THREAD_STAT_MASK =? RT_THREAD_READY) && c)%bool then
    tl_remove t;;;
    tl_insert_before (LReady (current_priority th)) t;;;
    rt_schedule;;;
    ret RT_EOK
  else ret RT_EOK.

Definition rt_thread_suspend (t : Z) : K Z :=
  thread_check_arg t;;;
  th <- thr t;;
  if negb (Z.land (stat th) RT_THREAD_STAT_MASK =? RT_THREAD_READY) then ret (- RT_ERROR)
  else
    mod_thr t (fun th => set_stat
      (Z.lor RT_THREAD_SUSPEND (Z.land (stat th) (not8 RT_THREAD_STAT_MASK))) th);;;
    rt_schedule_remove_thread t;;;
    rt_timer_stop (TimerOf t);;;
    ret RT_EOK.

(** [rt_thread_sleep]: the calling thread is suspended by [rt_schedule]; what
    follows it is [rt_thread_sleep_resumed]. *)
(** [rt_schedule()] in a call of thread [t] that waits, and the [rest] of that
    call: it runs at once if the scheduler has not switched to another thread
    (it is locked), and otherwise when [t] is scheduled again. *)
Definition block {A} (t : Z) (rest : K A) : K (outcome A) :=
  rt_schedule;;;
  c <- gets k_cur;;
  if c =? t then a <- rest;; ret (Returned a) else ret Blocked.

Definition rt_thread_sleep_resumed (t : Z) : K Z :=
  th <- thr t;;
  when (error th =? - RT_ETIMEOUT) (mod_thr t (set_error RT_EOK));;;
  ret RT_EOK.
Definition rt_thread_sleep (tick : Z) : K (outcome Z) :=
  t <- gets k_cur;;
  thread_check_arg t;;;
  rt_thread_suspend t;;;
  rt_timer_control (TimerOf t) RT_TIMER_CTRL_SET_TIME tick;;;
  rt_timer_start (TimerOf t);;;
  block t (rt_thread_sleep_resumed t).

Definition rt_thread_delay (tick : Z) : K (outcome Z) := rt_thread_sleep tick.

(** [rt_tick_from_millisecond] (src/clock.c); [int] arithmetic wraps. *)
Definition rt_tick_from_millisecond (ms : Z) : Z :=
  if ms <? 0 then RT_WAITING_FOREVER
  else Z.quot (s32 (RT_TICK_PER_SECOND * ms + 999)) 1000.

Definition rt_thread_mdelay (ms : Z) : K (outcome Z) := rt_thread_sleep (u32 (rt_tick_from_millisecond ms)).

(** [arg] is the byte the argument points to. *)
Definition rt_thread_control (t cmd arg : Z) : K Z :=
  thread_check_arg t;;;
  if cmd =? RT_THREAD_CTRL_CHANGE_PRIORITY then
    th <- thr t;;
    (if Z.land (stat th) RT_THREAD_STAT_MASK =? RT_THREAD_READY then
       rt_schedule_remove_thread t;;;
       m <- priority_mask arg;; mod_thr t (set_priority arg m);;;
       rt_schedule_insert_thread t
     else
       m <- priority_mask arg;; mod_thr t (set_priority arg m));;;
    ret RT_EOK
  else if cmd =? RT_THREAD_CTRL_STARTUP then rt_thread_startup t
  else if cmd =? RT_THREAD_CTRL_CLOSE then rt_thread_delete t
  else ret RT_EOK.

Definition rt_thread_timeout (t : Z) : K unit :=
  rt_assert (negb (t =? RT_NULL));;;
  th <- thr t;;
  rt_assert (Z.land (stat th) RT_THREAD_STAT_MASK =? RT_THREAD_SUSPEND);;;
  assert_type (Obj t) RT_Object_Class_Thread;;;
  mod_thr t (set_error (- RT_ETIMEOUT));;;
  tl_remove t;;;
  rt_schedule_insert_thread t;;;
  rt_schedule.

(** [rt_strncmp(a, b, n) == 0] on two strings, a missing character being NUL. *)
Fixpoint strncmp_eq (n : nat) (a b : list Z) : bool :=
  match n with
  | O => true
  | S n =>
      let x := default 0 (head a) in let y := default 0 (head b) in
      if x =? y then if x =? 0 then true else strncmp_eq n (tail a) (tail b) else false
  end.

(** The search loop of [rt_object_find] and [rt_thread_find]. *)
Fixpoint find_name (name : list Z) (l : list oid) : K (option oid) :=
  match l with
  | [] => ret None
  | o :: l =>
      h <- hdr o;;
      if strncmp_eq RT_NAME_MAX (oname h) name then ret (Some o) else find_name name l
  end.

(** [name] is [None] for RT_NULL. *)
Definition rt_object_find (name : option (list Z)) (type : Z) : K (option oid) :=
  match name with
  | None => ret None
  | Some name =>
      if RT_Object_Class_Unknown <? type then ret None
      else
        not_in_interrupt;;;
        rt_enter_critical;;;
        rt_assert (bool_decide (is_Some (rt_object_get_information type)));;;
        l <- deref (fun k => k_cont k !! type);;
        r <- find_name name l;;
        rt_exit_critical;;;
        ret r
  end.

Definition rt_thread_find (name : list Z) : K (option oid) :=
  self <- rt_thread_self;;
  when (negb (self =? RT_NULL)) rt_enter_critical;;;
  l <- deref (fun k => k_cont k !! RT_Object_Class_Thread);;
  r <- find_name name l;;
  self <- rt_thread_self;;
  when (negb (self =? RT_NULL)) rt_exit_critical;;;
  ret r.

(** [rt_get_errno] and [rt_set_errno] (src/kservice.c) in thread context. *)
Definition rt_get_errno (global : Z) : K Z :=
  n <- gets k_irq;;
  if nz n then ret global
  else t <- gets k_cur;; if t =? RT_NULL then ret global else th <- thr t;; ret (error th).

(** The result is the new value of [__rt_errno]. *)
Definition rt_set_errno (global e : Z) : K Z :=
  n <- gets k_irq;;
  if nz n then ret e
  else t <- gets k_cur;;
    if t =? RT_NULL then ret e else mod_thr t (set_error e);;; ret global.

(** ** Invariant *)

Definition timer_ok (P : oid -> Prop) (H : gmap oid rt_object) (TM : gmap oid rt_timer) (t : Z) (th : rt_thread) : Prop :=
  exists h tm, H !! TimerOf t = Some h /\ class_of h = RT_Object_Class_Timer /\ is_static h = true /\
    TM !! TimerOf t = Some tm /\ timeout_func tm = ThreadTimeout /\ tparameter tm = t /\
    (active h -> ~ P (TimerOf t) -> statm th = RT_THREAD_SUSPEND).

Definition thr_ok P H TM (t : Z) (th : rt_thread) : Prop :=
  t <> RT_NULL /\ (exists h, H !! Obj t = Some h /\ class_of h = RT_Object_Class_Thread) /\
  (statm th <> RT_THREAD_CLOSE -> timer_ok P H TM t th /\ stack_ok th).

Record kbut (X : Z -> Prop) (P : oid -> Prop) (lo : Z) (k : kernel) : Prop := Kbut {
  kb_sched : sched_but X (k_thr k) (k_tl k) (k_group k);
  kb_obj : obj_inv (k_hdr k) (k_cont k);
  kb_flags : flags_ok (k_hdr k);
  kb_tm : tm_but P lo (k_hdr k) (k_tm k) (k_tmlist k) (k_tick k);
  kb_thr : forall t th, k_thr k !! t = Some th -> thr_ok P (k_hdr k) (k_tm k) t th
}.

Definition none {A} (_ : A) : Prop := False.
Definition kinv := kbut none none 0.

(** The invariant depends on these fields only. *)
Lemma kbut_frame X P lo k k' :
  kbut X P lo k -> k_thr k' = k_thr k -> k_tl k' = k_tl k -> k_group k' = k_group k ->
  k_hdr k' = k_hdr k -> k_cont k' = k_cont k -> k_tm k' = k_tm k -> k_tmlist k' = k_tmlist k ->
  k_tick k' = k_tick k -> kbut X P lo k'.
Proof. intros [] E1 E2 E3 E4 E5 E6 E7 E8. split; by rewrite ?E1, ?E2, ?E3, ?E4, ?E5, ?E6, ?E7, ?E8. Qed.

Lemma kbut_stacks X P lo k : kbut X P lo k -> stacks_ok (k_thr k).
Proof.
  intros HK t th Ht Hs. destruct (kb_thr _ _ _ _ HK t th Ht) as (_ & _ & HC).
  apply HC. rewrite Hs. done.
Qed.

(** One thread, and the flag of its timer, change. *)
Lemma thr_all_upd P H TM (T : gmap Z rt_thread) t th' h' :
  (forall x thx, T !! x = Some thx -> thr_ok P H TM x thx) ->
  thr_ok P (<[TimerOf t := h']> H) TM t th' ->
  forall x thx, <[t := th']> T !! x = Some thx -> thr_ok P (<[TimerOf t := h']> H) TM x thx.
Proof.
  intros HA Ht x thx [[<- <-]|[Hne Hx]]%lookup_insert_Some; [done|].
  destruct (HA x thx Hx) as (H0 & (h & Hh & Hc) & HC). split_and!; [done| |].
  - exists h. by rewrite lookup_insert_ne.
  - intros Hs. destruct (HC Hs) as [(h0 & tm & ? & HT) ?]. split; [|done].
    exists h0, tm. by rewrite lookup_insert_ne by congruence.
Qed.

Lemma timer_hdr X P lo k t th :
  kbut X P lo k -> k_thr k !! t = Some th -> statm th <> RT_THREAD_CLOSE ->
  exists h, is_timer (TimerOf t) h k /\ 0 <= oflag h < 2 ^ 8 /\ is_static h = true.
Proof.
  intros HK Ht Hs. destruct (kb_thr _ _ _ _ HK t th Ht) as (_ & _ & HC).
  destruct (HC Hs) as [(h & tm & Hh & Hc & Hst & _) _]. exists h. split_and!; try done;
    by apply (kb_flags _ _ _ _ HK (TimerOf t) h Hh).
Qed.

Lemma thread_check_arg_done X P lo k t th :
  kbut X P lo k -> k_thr k !! t = Some th -> thread_check_arg t k = Done tt k.
Proof.
  intros HK Ht. destruct (kb_thr _ _ _ _ HK t th Ht) as (Hnz & (h & Hh & Hc) & _).
  unfold thread_check_arg. destruct (Z.eqb_spec t RT_NULL); [done|]. cbn [negb rt_assert]. mstep.
  eapply assert_type_done; [|done|done]. cbn. by destruct (Z.eqb_spec t RT_NULL).
Qed.

(** The flag of a thread timer is cleared: the timer stops. *)
Lemma clear_active_range v : 0 <= v < 2 ^ 8 -> 0 <= clear_active v < 2 ^ 8.
Proof.
  intros Hv. unfold clear_active. assert (0 <= Z.land v (not8 RT_TIMER_FLAG_ACTIVATED)) by (apply Z.land_nonneg; lia).
  split; [done|]. destruct (Z.eq_dec (Z.land v (not8 RT_TIMER_FLAG_ACTIVATED)) 0) as [->|]; [lia|].
  apply Z.log2_lt_pow2; [lia|]. eapply Z.le_lt_trans; [apply Z.log2_land; [lia|by vm_compute]|].
  eapply Z.le_lt_trans; [apply Z.le_min_l|]. destruct (Z.eq_dec v 0) as [->|]; [done|]. apply Z.log2_lt_pow2; lia.
Qed.

Lemma flags_ok_insert H o h : flags_ok H -> 0 <= oflag h < 2 ^ 8 -> flags_ok (<[o := h]> H).
Proof. intros HF Hh o' h' [[<- <-]|[? ?]]%lookup_insert_Some; [done|eauto]. Qed.

Lemma tm_stop P lo H TM l now o h :
  tm_but P lo H TM l now -> ~ P o -> H !! o = Some h ->
  tm_but P lo (<[o := set_oflag (clear_active (oflag h)) h]> H) TM (lremove o l) now.
Proof.
  intros HT HP Ho. eapply tm_weaken; [eapply tm_remove; [exact HT|..]|].
  - intros o' Hne. by rewrite lookup_insert_ne.
  - intros h'. rewrite lookup_insert_eq. intros [= <-] _. apply active_clear.
  - intros x. split; [tauto|]. intros. split; [done|]. by intros ->.
Qed.

(** *** Suspending *)

Definition susp_stat (th : rt_thread) : rt_thread :=
  set_stat (Z.lor RT_THREAD_SUSPEND (Z.land (stat th) (not8 RT_THREAD_STAT_MASK))) th.

Lemma susp_stat_statm th : statm (susp_stat th) = RT_THREAD_SUSPEND.
Proof.
  unfold statm, susp_stat. cbn [stat set_stat]. apply Z.bits_inj'. intros i Hi.
  replace RT_THREAD_SUSPEND with (2 ^ 1) by done.
  rewrite Z.land_spec, Z.lor_spec, Z.land_spec. unfold not8.
  replace RT_THREAD_STAT_MASK with (2 ^ 4 - 1) by done. rewrite Z.lxor_spec, !testbit_ones by lia.
  destruct (Z.leb_spec 0 i); [|lia]. destruct (Z.ltb_spec i 4).
  - destruct (Z.ltb_spec i 8); [|lia]. cbn [andb xorb]. by rewrite andb_false_r, orb_false_r, andb_true_r.
  - cbn [andb]. rewrite andb_false_r. symmetry. apply Z.pow2_bits_false. lia.
Qed.

(** The state after [rt_thread_suspend]. *)
Definition k_suspend (t : Z) (th : rt_thread) (h : rt_object) (k : kernel) : kernel :=
  k_stop (TimerOf t) h (k_remove t (susp_stat th) (upd_thr (<[t := susp_stat th]>) k)).

Lemma suspend_done P lo k t th :
  kbut none P lo k -> k_thr k !! t = Some th -> statm th = RT_THREAD_READY -> ~ P (TimerOf t) ->
  exists h, is_timer (TimerOf t) h k /\
    rt_thread_suspend t k = Done RT_EOK (k_suspend t th h k) /\
    kbut (eq t) P lo (k_suspend t th h k).
Proof.
  intros HK Ht Hs HP. assert (Hcl : statm th <> RT_THREAD_CLOSE) by (rewrite Hs; done).
  destruct (timer_hdr _ _ _ _ _ _ HK Ht Hcl) as (h & Hi & Hf & Hst). exists h. split; [done|].
  pose proof (kb_sched _ _ _ _ HK) as HS. pose proof (so_prio _ _ _ _ HS _ _ Ht) as (Hp & _ & Hm1).
  destruct (kb_thr _ _ _ _ HK t th Ht) as (Hnz & Hob & HC). destruct (HC Hcl) as [HTok Hstk].
  pose proof Hi as (_ & Hh & Hc).
  assert (Hnm : number_mask th = 2 ^ current_priority th) by (apply Hm1; auto).
  split.
  - unfold rt_thread_suspend. rewrite (after (thread_check_arg_done _ _ _ _ _ _ HK Ht)).
    rewrite (after (thr_done _ _ _ Ht)). fold (statm th). rewrite Hs, Z.eqb_refl. cbn [negb].
    rewrite (after (mod_thr_done _ _ _ _ Ht)).
    change (set_stat _ th) with (susp_stat th).
    erewrite bind_done; [|apply (remove_thread_done t (susp_stat th)); [done|apply lookup_insert_eq|]].
    2: { cbn. by apply (so_tab _ _ _ _ HS). }
    erewrite bind_done; [|apply (rt_timer_stop_done P lo _ h); [done|done|apply (kb_tm _ _ _ _ HK)]]. done.
  - split.
    + cbn. apply sched_but_upd; [apply (sched_but_remove _ _ _ t th HS Ht)|].
      split_and!; cbn; [lia|lia|auto|done].
    + cbn. apply obj_inv_flag; [done|]. apply HK.
    + cbn. apply flags_ok_insert; [apply HK|]. by apply clear_active_range.
    + cbn. apply tm_stop; [apply HK|done..].
    + cbn. apply thr_all_upd; [apply HK|]. split_and!; [done| |].
      * destruct Hob as (h0 & Hh0 & ?). exists h0. by rewrite lookup_insert_ne.
      * intros _. split; [|done]. destruct HTok as (h0 & tm & Hh0 & ? & ? & ? & ? & ? & _).
        rewrite Hh in Hh0. injection Hh0 as <-. eexists _, tm. rewrite lookup_insert_eq.
        split_and!; try done. intros Ha. by destruct (active_clear h).
Qed.

(** A suspended thread that is in no list. *)
Lemma kbut_idle P lo k t th :
  kbut (eq t) P lo k -> k_thr k !! t = Some th -> statm th <> RT_THREAD_READY -> kbut none P lo k.
Proof. intros [] Ht Hs. split; try done. by eapply sched_but_idle. Qed.

Lemma suspend_not_ready X P lo k t th :
  kbut X P lo k -> k_thr k !! t = Some th -> statm th <> RT_THREAD_READY ->
  rt_thread_suspend t k = Done (- RT_ERROR) k.
Proof.
  intros HK Ht Hs. unfold rt_thread_suspend. rewrite (after (thread_check_arg_done _ _ _ _ _ _ HK Ht)).
  rewrite (after (thr_done _ _ _ Ht)). fold (statm th).
  by destruct (Z.eqb_spec (statm th) RT_THREAD_READY).
Qed.

(** *** Resuming *)

(** The state after [rt_thread_resume]. *)
Definition k_resume (t : Z) (th : rt_thread) (h : rt_object) (k : kernel) : kernel :=
  k_insert t th (k_stop (TimerOf t) h (upd_tl (lunlink t) k)).

Lemma resume_done P lo k t th :
  kbut none P lo k -> k_thr k !! t = Some th -> statm th = RT_THREAD_SUSPEND -> ~ P (TimerOf t) ->
  exists h, is_timer (TimerOf t) h k /\
    rt_thread_resume t k = Done RT_EOK (k_resume t th h k) /\ kbut none P lo (k_resume t th h k).
Proof.
  intros HK Ht Hs HP. assert (Hcl : statm th <> RT_THREAD_CLOSE) by (rewrite Hs; done).
  destruct (timer_hdr _ _ _ _ _ _ HK Ht Hcl) as (h & Hi & Hf & Hst). exists h. split; [done|].
  pose proof (kb_sched _ _ _ _ HK) as HS. pose proof (so_prio _ _ _ _ HS _ _ Ht) as (Hp & _ & Hm1).
  destruct (kb_thr _ _ _ _ HK t th Ht) as (Hnz & Hob & HC). destruct (HC Hcl) as [HTok Hstk].
  pose proof Hi as (_ & Hh & Hc).
  assert (Hnm : number_mask th = 2 ^ current_priority th) by (apply Hm1; auto).
  assert (HS' : sched_but (eq t) (k_thr k) (lunlink t (k_tl k)) (k_group k))
    by (apply (sched_but_unlink _ _ _ t th HS Ht); by rewrite Hs).
  split.
  - unfold rt_thread_resume. rewrite (after (thread_check_arg_done _ _ _ _ _ _ HK Ht)).
    rewrite (after (thr_done _ _ _ Ht)). fold (statm th). rewrite Hs, Z.eqb_refl. cbn [negb].
    rewrite (after (tl_remove_done t k ltac:(eauto))).
    erewrite bind_done; [|apply (rt_timer_stop_done P lo _ h); [done|done|apply (kb_tm _ _ _ _ HK)]].
    erewrite bind_done; [|apply (insert_thread_done t th); [done|done| |]]; [done|..].
    + cbn. by apply (so_tab _ _ _ _ HS').
    + cbn. eapply sched_but_queued. exact HS'.
  - split.
    + apply (sched_insert t th (k_stop (TimerOf t) h (upd_tl (lunlink t) k))); try done.
    + cbn. apply obj_inv_flag; [done|]. apply HK.
    + cbn. apply flags_ok_insert; [apply HK|]. by apply clear_active_range.
    + cbn. apply tm_stop; [apply HK|done..].
    + cbn. apply thr_all_upd; [apply HK|]. split_and!; [done| |].
      * destruct Hob as (h0 & Hh0 & ?). exists h0. by rewrite lookup_insert_ne.
      * intros _. split; [|done]. destruct HTok as (h0 & tm & Hh0 & ? & ? & ? & ? & ? & _).
        rewrite Hh in Hh0. injection Hh0 as <-. eexists _, tm. rewrite lookup_insert_eq.
        split_and!; try done. intros Ha. by destruct (active_clear h).
Qed.

(** *** The timer of a waiting thread *)

(** The state after [rt_timer_control(&timer, SET_TIME, &tick)] and [rt_timer_start]. *)
Definition k_arm (t : Z) (h : rt_object) (tm : rt_timer) (tick : Z) (l : list oid) (k : kernel) : kernel :=
  let o := TimerOf t in
  k_start o h (set_tinit_tick tick tm) l (upd_tm (<[o := set_tinit_tick tick tm]>) k).

Lemma set_active_range v : 0 <= v < 2 ^ 8 -> 0 <= set_active v < 2 ^ 8.
Proof.
  intros Hv. unfold set_active, RT_TIMER_FLAG_ACTIVATED.
  assert (0 < Z.lor v 1).
  { assert (0 <= Z.lor v 1) by (apply Z.lor_nonneg; lia). destruct (Z.eq_dec (Z.lor v 1) 0) as [E|]; [|lia].
    apply Z.lor_eq_0_iff in E. lia. }
  split; [lia|]. apply Z.log2_lt_pow2; [lia|]. rewrite Z.log2_lor by lia. apply Z.max_lub_lt; [|cbn; lia].
  destruct (Z.eq_dec v 0) as [->|]; [cbn; lia|]. apply Z.log2_lt_pow2; lia.
Qed.

Lemma arm_done X P lo k t th tick :
  kbut X P lo k -> k_thr k !! t = Some th -> statm th = RT_THREAD_SUSPEND -> ~ P (TimerOf t) ->
  -1 <= lo <= 0 -> 0 <= tick <= max_off ->
  exists h tm l, let k' := k_arm t h tm tick l k in
    rt_timer_control (TimerOf t) RT_TIMER_CTRL_SET_TIME tick k =
      Done tick (upd_tm (<[TimerOf t := set_tinit_tick tick tm]>) k) /\
    rt_timer_start (TimerOf t) (upd_tm (<[TimerOf t := set_tinit_tick tick tm]>) k) = Done RT_EOK k' /\
    kbut X P lo k' /\ TimerOf t ∈ k_tmlist k' /\ toff (k_tm k') (k_tick k') (TimerOf t) = tick.
Proof.
  intros HK Ht Hs HP Hlo Htk. assert (Hcl : statm th <> RT_THREAD_CLOSE) by (rewrite Hs; done).
  destruct (kb_thr _ _ _ _ HK t th Ht) as (Hnz & Hob & HC).
  destruct (HC Hcl) as [(h & tm & Hh & Hc & Hst & Htm & Hfn & Hpa & _) Hstk].
  assert (Hi : is_timer (TimerOf t) h k) by done.
  pose proof (kb_flags _ _ _ _ HK _ _ Hh) as Hf. pose proof (kb_tm _ _ _ _ HK) as HTM.
  set (k1 := upd_tm (<[TimerOf t := set_tinit_tick tick tm]>) k).
  assert (HT1 : tm_but P lo (k_hdr k1) (k_tm k1) (k_tmlist k1) (k_tick k1)).
  { cbn. eapply tm_frame; [exact HTM|..]; [|by eauto..]. intros o.
    destruct (decide (o = TimerOf t)) as [->|]; [by rewrite lookup_insert_eq, Htm|by rewrite lookup_insert_ne]. }
  destruct (rt_timer_start_done P lo (TimerOf t) h (set_tinit_tick tick tm) k1) as (l1 & l2 & _ & E & HT' & _);
    [done|by cbn; rewrite lookup_insert_eq|cbn; lia|done|done|].
  exists h, tm, (l1 ++ TimerOf t :: l2). cbn zeta. split_and!.
  - unfold rt_timer_control. rewrite (after (timer_check_arg_done _ _ _ Hi)).
    change (RT_TIMER_CTRL_SET_TIME =? RT_TIMER_CTRL_GET_TIME) with false.
    change (RT_TIMER_CTRL_SET_TIME =? RT_TIMER_CTRL_SET_TIME) with true. cbn iota.
    by rewrite (after (mod_tmr_done _ _ _ _ Htm)).
  - exact E.
  - split.
    + apply HK.
    + cbn. apply obj_inv_flag; [done|]. apply HK.
    + cbn. apply flags_ok_insert; [apply HK|]. by apply set_active_range, clear_active_range.
    + eapply tm_weaken; [exact HT'|]. intros x. split; [tauto|]. intros. split; [done|]. by intros ->.
    + intros x thx Hx. change (k_thr k !! x = Some thx) in Hx.
      destruct (kb_thr _ _ _ _ HK x thx Hx) as (H0 & (h0 & Hh0 & Hc0) & HC0). cbn. split_and!; [done| |].
      * exists h0. by rewrite lookup_insert_ne.
      * intros Hs0. destruct (HC0 Hs0) as [(h1 & tm1 & Hh1 & Hc1 & Hst1 & Htm1 & Hf1 & Hp1 & Ha1) ?]. split; [|done].
        destruct (decide (x = t)) as [->|].
        -- rewrite Ht in Hx. injection Hx as <-. eexists _, _. rewrite !lookup_insert_eq.
           split_and!; try done.
        -- exists h1, tm1. by rewrite !lookup_insert_ne by congruence.
  - cbn. set_solver.
  - unfold toff. cbn. rewrite lookup_insert_eq. cbn. apply s32_tick; [apply HTM|done].
Qed.

(** *** Rescheduling *)

(** [k'] is [k] after [rt_schedule]. *)
Definition resched (k k' : kernel) : Prop :=
  if k_lock k =? 0 then exists p to, k' = k_switch p to k /\ highest (k_tl k) p to else k' = k.

Lemma resched_cur k k' : resched k k' ->
  exists c p, k' = upd_cur (fun _ => c) (upd_curprio (fun _ => p) k).
Proof.
  unfold resched. destruct (k_lock k =? 0).
  - intros (p & to & -> & _). unfold k_switch. destruct (to =? k_cur k); [|by eauto].
    exists (k_cur k), (k_curprio k). by destruct k.
  - intros ->. exists (k_cur k), (k_curprio k). by destruct k.
Qed.

Lemma resched_highest k k' : resched k k' -> k_lock k = 0 -> exists p, highest (k_tl k') p (k_cur k').
Proof.
  unfold resched. intros HR Hl. rewrite Hl in HR. destruct HR as (p & to & -> & Hh). exists p.
  unfold k_switch. destruct (Z.eqb_spec to (k_cur k)) as [<-|]; done.
Qed.

Lemma resched_kbut X P lo k k' : resched k k' -> kbut X P lo k -> kbut X P lo k'.
Proof. intros (c & p & ->)%resched_cur HK. by eapply kbut_frame. Qed.

(** Some thread is ready (the idle thread always is). *)
Definition some_ready (T : gmap Z rt_thread) : Prop :=
  exists t th, T !! t = Some th /\ statm th = RT_THREAD_READY.

Lemma schedule_done P lo k :
  kbut none P lo k -> k_cur k <> RT_NULL -> some_ready (k_thr k) ->
  exists k', rt_schedule k = Done tt k' /\ resched k k'.
Proof.
  intros HK Hc (t & th & Ht & Hs). unfold resched. destruct (Z.eqb_spec (k_lock k) 0) as [El|El].
  - pose proof (group_nonzero _ _ _ _ _ _ (kb_sched _ _ _ _ HK) (fun f => f) Ht Hs) as Hg.
    destruct (rt_schedule_done none k (kb_sched _ _ _ _ HK) Hg El Hc (kbut_stacks _ _ _ _ HK)) as (p & to & E & HH).
    eauto 10.
  - exists k. by rewrite rt_schedule_locked.
Qed.

(** *** Resuming a thread frees the scheduler to run it *)

Lemma some_ready_resume t th h k :
  some_ready (k_thr (k_resume t th h k)).
Proof. exists t, (ready_stat th). cbn. rewrite lookup_insert_eq. split; [done|]. apply ready_stat_statm. Qed.

(** ** Yield: round robin *)

Lemma has_company_spec X T L g t th :
  sched_but X T L g -> ~ X t -> T !! t = Some th -> statm th = RT_THREAD_READY ->
  exists l, L !! LReady (current_priority th) = Some l /\ t ∈ l /\ has_company t L = bool_decide (l <> [t]).
Proof.
  intros HS HX Ht Hs. destruct (so_ready _ _ _ _ HS t th HX Ht Hs) as (l & Hl & Hin).
  exists l. split_and!; [done..|]. unfold has_company. apply bool_decide_ext. split.
  - intros (h & l' & Hl' & Hin' & Hne). assert (h = LReady (current_priority th)) as ->
      by (by eapply (so_disj _ _ _ _ HS)). congruence.
  - intros Hne. exists (LReady (current_priority th)), l. done.
Qed.

(** The state after the ready list of the current thread is rotated. *)
Definition k_rotate (t : Z) (p : Z) (k : kernel) : kernel :=
  upd_tl (lpush_back (LReady p) t) (upd_tl (lunlink t) k).

Lemma sched_rotate T L g t th :
  sched_inv T L g -> T !! t = Some th -> statm th = RT_THREAD_READY ->
  sched_inv T (lpush_back (LReady (current_priority th)) t (lunlink t L)) g.
Proof.
  intros HS Ht Hs. destruct (so_prio _ _ _ _ HS _ _ Ht) as (Hp & _ & Hm).
  specialize (Hm ltac:(auto)).
  pose proof (sched_but_remove T L g t th HS Ht) as HB.
  pose proof (so_mem _ _ _ _ HS) as Hmem.
  destruct (so_ready _ _ _ _ HS t th (fun f => f) Ht Hs) as (l & Hl & Hin).
  destruct (Hmem _ _ _ Hl Hin) as (Hnz & _).
  pose proof (sched_but_ready _ _ _ t th HB Ht Hnz Hs) as HR.
  assert (Eg : Z.lor (group_after g (lunlink t L) th) (number_mask th) = g); [|by rewrite Eg in HR].
  assert (Hb : Z.testbit g (current_priority th) = true).
  { apply (so_bit _ _ _ _ HS _ _ Hl). intros ->. by apply not_elem_of_nil in Hin. }
  unfold RT_THREAD_PRIORITY_MAX in Hp. rewrite Hm. apply Z.bits_inj'. intros i Hi.
  rewrite testbit_lor_pow2 by lia. unfold group_after. rewrite Hm.
  case_bool_decide as HE; case_bool_decide as Hi2; subst; rewrite ?orb_true_r, ?orb_false_r; try done.
  destruct (Z.lt_ge_cases i 32).
  - rewrite testbit_clear by lia. rewrite Z.pow2_bits_false by lia. by rewrite andb_true_r.
  - rewrite Z.land_spec, (testbit_u32_high g) by (done || apply HS). done.
Qed.

Lemma yield_done P lo k t th :
  kbut none P lo k -> k_cur k = t -> k_thr k !! t = Some th -> statm th = RT_THREAD_READY ->
  exists l k', k_tl k !! LReady (current_priority th) = Some l /\ t ∈ l /\
    rt_thread_yield k = Done RT_EOK k' /\ kbut none P lo k' /\
    (if decide (l = [t]) then k' = k else resched (k_rotate t (current_priority th) k) k').
Proof.
  intros HK Hc Ht Hs. pose proof (kb_sched _ _ _ _ HK) as HS.
  destruct (has_company_spec _ _ _ _ _ _ HS (fun f => f) Ht Hs) as (l & Hl & Hin & Hco).
  destruct (so_mem _ _ _ _ HS _ _ _ Hl Hin) as (Hnz & _).
  exists l. unfold rt_thread_yield. mstep. rewrite Hc. rewrite (after (thr_done _ _ _ Ht)). mstep.
  fold (statm th). rewrite Hs, Z.eqb_refl, Hco. cbn [andb].
  destruct (decide (l = [t])) as [->|Hne].
  { exists k. rewrite bool_decide_eq_false_2 by tauto. done. }
  rewrite bool_decide_eq_true_2 by done.
  rewrite (after (tl_remove_done t k ltac:(eauto))).
  set (k1 := k_rotate t (current_priority th) k).
  assert (HS1 : sched_but (eq t) (k_thr k) (lunlink t (k_tl k)) (group_after (k_group k) (lunlink t (k_tl k)) th))
    by (by apply sched_but_remove).
  rewrite (bind_done _ _ _ tt k1).
  2: { apply tl_insert_before_done; [cbn; eauto| |].
       - cbn. apply (so_tab _ _ _ _ HS1). apply (so_prio _ _ _ _ HS _ _ Ht).
       - cbn. eapply sched_but_queued. exact HS1. }
  assert (HK1 : kbut none P lo k1) by (destruct HK; split; try done; by apply sched_rotate).
  destruct (schedule_done P lo k1 HK1) as (k' & E & HR); [cbn; congruence|by exists t, th|].
  rewrite (after E). exists k'. split_and!; try done. by eapply resched_kbut.
Qed.

(** ** Timeout of a waiting thread *)

Definition k_timeout (t : Z) (th : rt_thread) (k : kernel) : kernel :=
  let th' := set_error (- RT_ETIMEOUT) th in
  k_insert t th' (upd_tl (lunlink t) (upd_thr (<[t := th']>) k)).

Lemma timeout_done P lo k t th :
  kbut none P lo k -> k_thr k !! t = Some th -> statm th = RT_THREAD_SUSPEND -> P (TimerOf t) ->
  k_cur k <> RT_NULL ->
  exists k', rt_thread_timeout t k = Done tt k' /\ resched (k_timeout t th k) k' /\ kbut none P lo k'.
Proof.
  intros HK Ht Hs HP Hc. pose proof (kb_sched _ _ _ _ HK) as HS.
  destruct (so_prio _ _ _ _ HS _ _ Ht) as (Hp & _ & Hm). specialize (Hm ltac:(auto)).
  destruct (kb_thr _ _ _ _ HK t th Ht) as (Hnz & (h0 & Hh0 & Hc0) & HC).
  set (th' := set_error (- RT_ETIMEOUT) th).
  set (k1 := upd_tl (lunlink t) (upd_thr (<[t := th']>) k)).
  assert (HS1 : sched_but (eq t) (k_thr k1) (k_tl k1) (k_group k1)).
  { apply sched_but_unlink with th'; [|by cbn; rewrite lookup_insert_eq|by change (statm th <> RT_THREAD_READY); rewrite Hs].
    by apply (sched_inv_upd (k_thr k) _ _ none t th th'). }
  assert (Ht1 : k_thr k1 !! t = Some th') by (cbn; by rewrite lookup_insert_eq).
  assert (HK2 : kbut none P lo (k_timeout t th k)).
  { destruct HK as [_ HO HF HT HA]. split; try done.
    - by apply (sched_insert t th' k1).
    - cbn. rewrite insert_insert_eq. intros x thx [[<- <-]|[Hne Hx]]%lookup_insert_Some; [|auto].
      split_and!; [done|by eauto|]. intros _. destruct (HC ltac:(by rewrite Hs)) as [(h & tm & ? & ? & ? & ? & ? & ? & _) ?].
      split; [|done]. exists h, tm. split_and!; try done. }
  destruct (schedule_done P lo _ HK2) as (k' & E & HR); [done| |].
  { exists t, (ready_stat th'). cbn. rewrite lookup_insert_eq. split; [done|apply ready_stat_statm]. }
  exists k'. split_and!; [|done|by eapply resched_kbut].
  unfold rt_thread_timeout. destruct (Z.eqb_spec t RT_NULL); [done|]. cbn [negb rt_assert]. mstep.
  rewrite (after (thr_done _ _ _ Ht)). fold (statm th). rewrite Hs, Z.eqb_refl. cbn [rt_assert]. mstep.
  erewrite bind_done; [|eapply assert_type_done; [|exact Hh0|exact Hc0]; cbn; by destruct (Z.eqb_spec t RT_NULL)].
  rewrite (after (mod_thr_done _ _ _ _ Ht)).
  erewrite bind_done; [|apply tl_remove_done; cbn; rewrite lookup_insert_eq; eauto].
  fold th'. fold k1. erewrite bind_done; [exact E|]. apply insert_thread_done; [done|done| |].
  - apply (so_tab _ _ _ _ HS1). done.
  - eapply sched_but_queued. exact HS1.
Qed.

(** Changes of a thread the invariant does not look at. *)
Lemma kbut_thr_mod X P lo k t th th' :
  kbut X P lo k -> k_thr k !! t = Some th -> stat th' = stat th -> current_priority th' = current_priority th ->
  number_mask th' = number_mask th -> (stack_ok th -> stack_ok th') ->
  kbut X P lo (upd_thr (<[t := th']>) k).
Proof.
  intros [HS HO HF HT HA] Ht Es Ep Em Ek. assert (Est : statm th' = statm th) by (unfold statm; by rewrite Es).
  split; try done.
  - destruct HS as [? ? ? ? Hm Hr Hp ? ?]. split; try done; cbn.
    + intros h l x Hl Hin. destruct (Hm h l x Hl Hin) as (? & ? & thx & Hx & Hok). split_and!; [done..|].
      destruct (decide (x = t)) as [->|]; [|exists thx; by rewrite lookup_insert_ne].
      rewrite Ht in Hx. injection Hx as <-. exists th'. rewrite lookup_insert_eq. split; [done|].
      destruct h; cbn in *; by rewrite ?Est, ?Ep.
    + intros x thx Hne [[<- <-]|[? Hx]]%lookup_insert_Some; [|by apply Hr]. rewrite Est, Ep. by apply Hr.
    + intros x thx [[<- <-]|[? Hx]]%lookup_insert_Some; [|by eapply Hp].
      destruct (Hp t th Ht) as (? & ? & ?). unfold prio_ok. by rewrite Est, Ep, Em.
  - cbn. intros x thx [[<- <-]|[? Hx]]%lookup_insert_Some; [|by apply HA].
    destruct (HA t th Ht) as (? & ? & HC). split_and!; [done..|]. rewrite Est. intros Hs. destruct (HC Hs) as [Htm ?].
    split; [|by apply Ek]. destruct Htm as (h & tm & ? & ? & ? & ? & ? & ? & Ha). exists h, tm. by rewrite Est.
Qed.

(** ** Sleeping *)

(** Waiting with the scheduler unlocked switches to another thread. *)
Lemma block_done {A} P lo k t (rest : K A) :
  kbut none P lo k -> k_cur k = t -> t <> RT_NULL -> k_lock k = 0 -> some_ready (k_thr k) ->
  (forall p l, k_tl k !! LReady p = Some l -> t ∉ l) ->
  exists k', block t rest k = Done Blocked k' /\ kbut none P lo k' /\ resched k k' /\ k_cur k' <> t.
Proof.
  intros HK Hc Hnz Hl Hr Hno. destruct (schedule_done P lo k HK) as (k' & E & HR); [by rewrite Hc|done|].
  assert (Hne : k_cur k' <> t).
  { unfold resched in HR. rewrite Hl in HR. destruct HR as (p & to & -> & _ & [l Hl'] & _).
    assert (to <> t) by (intros ->; eapply (Hno _ _ Hl'); apply elem_of_cons; by left).
    unfold k_switch. rewrite Hc. by destruct (Z.eqb_spec to t). }
  exists k'. split_and!; try done; [|by eapply resched_kbut].
  unfold block. rewrite (after E). mstep. by destruct (Z.eqb_spec (k_cur k') t).
Qed.

(** Waiting with the scheduler locked does not. *)
Lemma block_locked {A} k (rest : K A) : k_lock k <> 0 ->
  block (k_cur k) rest k = (a <- rest;; ret (Returned a)) k.
Proof.
  intros Hl. unfold block. rewrite (after (rt_schedule_locked k Hl)). mstep. by rewrite Z.eqb_refl.
Qed.

(** C9: [rt_thread_sleep] of the running thread suspends it and arms its timer:
    the thread leaves every list, its timer expires exactly [tick] ticks from
    now, the invariant holds and another thread runs. *)
Theorem rt_thread_sleep_suspends k th tick i thi :
  kinv k -> k_thr k !! k_cur k = Some th -> statm th = RT_THREAD_READY -> k_lock k = 0 ->
  k_thr k !! i = Some thi -> statm thi = RT_THREAD_READY -> i <> k_cur k ->
  0 <= tick <= max_off ->
  exists k' th', rt_thread_sleep tick k = Done Blocked k' /\ kinv k' /\ k_cur k' <> k_cur k /\
    k_thr k' !! k_cur k = Some th' /\ statm th' = RT_THREAD_SUSPEND /\
    queued (k_cur k) (k_tl k') = false /\
    TimerOf (k_cur k) ∈ k_tmlist k' /\ toff (k_tm k') (k_tick k') (TimerOf (k_cur k)) = tick.
Proof.
  intros HK Ht Hs Hlk Hi His Hne Htk. set (t := k_cur k) in *.
  assert (Hc : thread_check_arg t k = Done tt k) by (by eapply thread_check_arg_done).
  destruct (suspend_done none 0 k t th HK Ht Hs (fun f => f)) as (h & _ & E1 & HK1).
  set (k1 := k_suspend t th h k) in *.
  assert (Ht1 : k_thr k1 !! t = Some (susp_stat th)) by (cbn; by rewrite lookup_insert_eq).
  destruct (arm_done (eq t) none 0 k1 t (susp_stat th) tick HK1 Ht1 (susp_stat_statm th) (fun f => f))
    as (h2 & tm & l & E2 & E3 & HK2 & Hin & Hoff); [lia|done|].
  set (k2 := k_arm t h2 tm tick l k1) in *.
  pose proof (sched_but_queued _ _ _ t (kb_sched _ _ _ _ HK2)) as Hq.
  assert (HK3 : kinv k2) by (eapply kbut_idle; [exact HK2|exact Ht1|by rewrite susp_stat_statm]).
  destruct (block_done none 0 k2 t (rt_thread_sleep_resumed t) HK3) as (k3 & E4 & HK4 & HR & Hcur); try done.
  { destruct (kb_thr _ _ _ _ HK t th Ht) as (Hnz & _). done. }
  { exists i, thi. cbn. by rewrite lookup_insert_ne by congruence. }
  { rewrite queued_false in Hq. intros p l'. apply Hq. }
  exists k3, (susp_stat th). unfold rt_thread_sleep. mstep. fold t. rewrite (after Hc).
  rewrite (after E1), (after E2), (after E3), E4.
  apply resched_cur in HR as (c & p & ->). cbn. rewrite lookup_insert_eq.
  split_and!; try done. apply susp_stat_statm.
Qed.

(** ** Resuming *)

(** [rt_thread_resume] of a thread that is not suspended is refused. *)
Lemma resume_refused k t th : kinv k -> k_thr k !! t = Some th -> statm th <> RT_THREAD_SUSPEND ->
  rt_thread_resume t k = Done (- RT_ERROR) k.
Proof.
  intros HK Ht Hs. unfold rt_thread_resume. rewrite (after (thread_check_arg_done _ _ _ _ _ _ HK Ht)), (after (thr_done _ _ _ Ht)).
  fold (statm th). by destruct (Z.eqb_spec (statm th) RT_THREAD_SUSPEND).
Qed.

(** Resuming the thread [t] and scheduling: [t] is ready afterwards. *)
Lemma resume_schedule k t th :
  kinv k -> k_cur k <> RT_NULL -> k_thr k !! t = Some th -> statm th = RT_THREAD_READY \/ statm th = RT_THREAD_SUSPEND ->
  exists k' th', (_ <- rt_thread_resume t;; rt_schedule) k = Done tt k' /\ kinv k' /\
    k_thr k' = <[t := th']> (k_thr k) /\ statm th' = RT_THREAD_READY /\
    (k_lock k = 0 -> exists p, highest (k_tl k') p (k_cur k')).
Proof.
  intros HK Hc Ht [Hs|Hs].
  - destruct (schedule_done none 0 k HK Hc) as (k' & E & HR); [by exists t, th|]. exists k', th.
    rewrite (after (resume_refused _ _ _ HK Ht ltac:(by rewrite Hs))), E. split_and!; try done.
    + by eapply resched_kbut.
    + apply resched_cur in HR as (c & p & ->). cbn. by rewrite insert_id.
    + by apply resched_highest.
  - destruct (resume_done none 0 k t th HK Ht Hs (fun f => f)) as (h & _ & E & HK1).
    destruct (schedule_done none 0 _ HK1) as (k' & E' & HR); [done|apply some_ready_resume|]. exists k', (ready_stat th).
    rewrite (after E), E'. split_and!; try done.
    + by eapply resched_kbut.
    + by apply resched_cur in HR as (c & p & ->).
    + apply ready_stat_statm.
    + by apply (resched_highest _ _ HR).
Qed.

(** ** Starting *)

(** The record of a thread started with priority [init_priority]. *)
Definition started (th : rt_thread) : rt_thread :=
  set_stat RT_THREAD_SUSPEND (set_priority (init_priority th) (2 ^ init_priority th) th).

(** An unstarted thread is in no list. *)
Lemma init_unqueued X T L g t th :
  sched_but X T L g -> T !! t = Some th -> statm th = RT_THREAD_INIT ->
  forall h l, L !! h = Some l -> t ∉ l.
Proof.
  intros HS Ht Hs h l Hl Hin. destruct (so_mem _ _ _ _ HS h l t Hl Hin) as (_ & _ & th' & Hth' & Hm).
  rewrite Ht in Hth'. injection Hth' as <-. destruct h; cbn in Hm; rewrite Hs in Hm; [by destruct Hm|done..].
Qed.

(** Any change of an unstarted thread to a suspended one. *)
Lemma kbut_started P lo k t th :
  kbut none P lo k -> k_thr k !! t = Some th -> statm th = RT_THREAD_INIT ->
  0 <= init_priority th < RT_THREAD_PRIORITY_MAX ->
  kbut none P lo (upd_thr (<[t := started th]>) k).
Proof.
  intros HK Ht Hs Hp. destruct HK as [HS HO HF HT HA]. split; try done.
  - eapply sched_but_idle; [|by cbn; rewrite lookup_insert_eq|done].
    apply sched_but_upd; [|split_and!; cbn; [lia|lia|auto|done]].
    apply sched_inv_exempt; [done|]. by eapply init_unqueued.
  - cbn. intros x thx [[<- <-]|[Hne Hx]]%lookup_insert_Some; [|by apply HA].
    destruct (HA t th Ht) as (Hnz & Hob & HC). split_and!; [done..|]. intros _.
    destruct (HC ltac:(by rewrite Hs)) as [(h & tm & ? & ? & ? & ? & ? & ? & Ha) ?]. split; [|done].
    exists h, tm. split_and!; done.
Qed.

Lemma startup_done P lo k t th :
  kbut none P lo k -> k_thr k !! t = Some th -> statm th = RT_THREAD_INIT ->
  0 <= init_priority th < RT_THREAD_PRIORITY_MAX -> ~ P (TimerOf t) ->
  exists h k', let k1 := k_resume t (started th) h (upd_thr (<[t := started th]>) k) in
    rt_thread_startup t k = Done RT_EOK k' /\ kbut none P lo k' /\
    (if k_cur k =? RT_NULL then k' = k1 else resched k1 k').
Proof.
  intros HK Ht Hs Hp HP. set (k0 := upd_thr (<[t := started th]>) k).
  assert (HK0 : kbut none P lo k0) by (by apply kbut_started).
  assert (Ht0 : k_thr k0 !! t = Some (started th)) by (cbn; by rewrite lookup_insert_eq).
  destruct (resume_done P lo k0 t (started th) HK0 Ht0 eq_refl HP) as (h & Hi & E1 & HK1).
  exists h. cbn zeta. fold k0. set (k1 := k_resume t (started th) h k0) in *.
  destruct (kb_thr _ _ _ _ HK t th Ht) as (Hnz & (h0 & Hh0 & Hc0) & _).
  assert (Hpre : rt_thread_startup t k =
    (cur <- rt_thread_self;; when (negb (cur =? RT_NULL)) rt_schedule;;; ret RT_EOK) k1).
  { unfold rt_thread_startup. destruct (Z.eqb_spec t RT_NULL); [done|]. cbn [negb rt_assert]. mstep.
    rewrite (after (thr_done _ _ _ Ht)). fold (statm th). rewrite Hs, Z.eqb_refl. cbn [rt_assert]. mstep.
    erewrite bind_done; [|eapply assert_type_done; [|exact Hh0|exact Hc0]; cbn; by destruct (Z.eqb_spec t RT_NULL)].
    unfold RT_THREAD_PRIORITY_MAX in Hp. unfold priority_mask.
    destruct (Z.leb_spec 0 (init_priority th)); [|lia]. destruct (Z.ltb_spec (init_priority th) 32); [|lia].
    cbn [andb]. mstep. rewrite (after (mod_thr_done _ _ _ _ Ht)).
    erewrite bind_done; [|apply mod_thr_done; cbn; apply lookup_insert_eq].
    rewrite (bind_done _ _ _ RT_EOK k1); [done|]. rewrite <- E1. f_equal. unfold k0. kext.
    by rewrite insert_insert_eq. }
  rewrite Hpre. unfold rt_thread_self. mstep.
  change (k_cur k1) with (k_cur k). destruct (Z.eqb_spec (k_cur k) RT_NULL) as [Ec|Ec]; cbn [negb when].
  - mstep. by exists k1.
  - destruct (schedule_done P lo k1 HK1 Ec) as (k' & E & HR); [apply some_ready_resume|].
    rewrite (after E). exists k'. split_and!; try done. by eapply resched_kbut.
Qed.

(** ** Changing the priority *)

Lemma change_priority_done P lo k t th arg :
  kbut none P lo k -> k_thr k !! t = Some th -> 0 <= arg < RT_THREAD_PRIORITY_MAX ->
  let th' := set_priority arg (2 ^ arg) th in
  exists k', rt_thread_control t RT_THREAD_CTRL_CHANGE_PRIORITY arg k = Done RT_EOK k' /\
    kbut none P lo k' /\
    k' = (if statm th =? RT_THREAD_READY
          then k_insert t th' (upd_thr (<[t := th']>) (k_remove t th k))
          else upd_thr (<[t := th']>) k).
Proof.
  intros HK Ht Ha th'. pose proof (kb_sched _ _ _ _ HK) as HS.
  pose proof (so_prio _ _ _ _ HS _ _ Ht) as (Hp & Hm & _).
  destruct (kb_thr _ _ _ _ HK t th Ht) as (Hnz & Hob & HC).
  assert (Hpm : forall s, priority_mask arg s = Done (2 ^ arg) s).
  { intros s. unfold priority_mask. unfold RT_THREAD_PRIORITY_MAX in Ha.
    destruct (Z.leb_spec 0 arg); [|lia]. by destruct (Z.ltb_spec arg 32); [|lia]. }
  assert (Hthr : forall st, forall x thx, <[t := set_stat st th']> (k_thr k) !! x = Some thx ->
    (Z.land st RT_THREAD_STAT_MASK = statm th) -> thr_ok P (k_hdr k) (k_tm k) x thx).
  { intros st x thx [[<- <-]|[Hne Hx]]%lookup_insert_Some Est; [|by apply (kb_thr _ _ _ _ HK)].
    split_and!; [done..|]. unfold statm. cbn [stat set_stat]. rewrite Est. intros Hcl.
    destruct (HC Hcl) as [(h & tm & ? & ? & ? & ? & ? & ? & Hact) ?]. split; [|done].
    exists h, tm. split_and!; try done. unfold statm. cbn [stat set_stat]. by rewrite Est. }
  unfold rt_thread_control. rewrite (after (thread_check_arg_done _ _ _ _ _ _ HK Ht)).
  rewrite Z.eqb_refl. rewrite (after (thr_done _ _ _ Ht)). fold (statm th).
  destruct (Z.eqb_spec (statm th) RT_THREAD_READY) as [Er|Er].
  - assert (HB : sched_but (eq t) (k_thr k) (lunlink t (k_tl k)) (group_after (k_group k) (lunlink t (k_tl k)) th))
      by (by apply sched_but_remove).
    set (k1 := upd_thr (<[t := th']>) (k_remove t th k)).
    assert (HB1 : sched_but (eq t) (k_thr k1) (k_tl k1) (k_group k1)).
    { cbn. apply sched_but_upd; [done|]. split_and!; cbn; [lia|lia|auto|done]. }
    assert (Ht1 : k_thr k1 !! t = Some th') by (cbn; by rewrite lookup_insert_eq).
    eexists. split; [|split; [|reflexivity]].
    + rewrite bind_assoc. erewrite bind_done; [|apply (remove_thread_done t th); [done|done|by apply (so_tab _ _ _ _ HS)]].
      rewrite bind_assoc. erewrite bind_done; [|apply Hpm]. rewrite bind_assoc.
      erewrite bind_done; [|apply (mod_thr_done t _ (k_remove t th k)); exact Ht].
      erewrite bind_done; [reflexivity|]. apply (insert_thread_done t th' k1); [done|done| |].
      * apply (so_tab _ _ _ _ HB1). done.
      * eapply sched_but_queued. exact HB1.
    + pose proof (sched_insert t th' k1 HB1 Ht1 Hnz eq_refl) as HS2. destruct HK as [_ HO HF HT HA]. split; try done.
      cbn. rewrite insert_insert_eq. intros x thx Hx. eapply Hthr; [exact Hx|].
      change (statm (ready_stat th') = statm th). by rewrite ready_stat_statm.
  - eexists. split; [|split; [|reflexivity]].
    + rewrite bind_assoc. erewrite bind_done; [|apply Hpm].
      by erewrite bind_done; [|apply mod_thr_done; exact Ht].
    + destruct HK as [_ HO HF HT HA]. split; try done.
      * cbn. destruct HS as [A1 A2 A3 A4 Amem Ardy Aprio Ag Ab]. split; try done.
        -- intros h l x Hl Hin. destruct (Amem h l x Hl Hin) as (? & ? & thx & Hx & Hmx). split_and!; [done..|].
           destruct (decide (x = t)) as [->|]; [|exists thx; by rewrite lookup_insert_ne].
           rewrite Ht in Hx. injection Hx as <-. exists th'. rewrite lookup_insert_eq. split; [done|].
           destruct h; cbn in Hmx |- *; [by destruct Hmx|done..].
        -- intros x thx HX [[<- <-]|[Hne Hx]]%lookup_insert_Some Hr; [by destruct Er|by eapply Ardy].
        -- intros x thx [[<- <-]|[Hne Hx]]%lookup_insert_Some; [|eauto]. split_and!; cbn; [lia|lia|auto|done].
      * cbn. intros x thx Hx. apply (Hthr (stat th) x thx); [|done]. by destruct th.
Qed.

(** ** Closing *)

(** The state after [rt_timer_detach]. *)
Definition k_tdetach (o : oid) (h : rt_object) (k : kernel) : kernel :=
  upd_cont (lunlink o) (upd_hdr (<[o := set_otype 0 h]>) (upd_tmlist (lremove o) k)).

Lemma timer_detach_done o h k :
  is_timer o h k -> is_static h = true -> rt_timer_detach o k = Done RT_EOK (k_tdetach o h k).
Proof.
  intros Hi Hst. pose proof Hi as (Hn & Hh & Hc). unfold rt_timer_detach.
  rewrite (after (timer_check_arg_done _ _ _ Hi)).
  erewrite bind_done; [|by apply is_systemobject_done]. rewrite Hst. cbn [rt_assert]. mstep.
  unfold _rt_timer_remove. mstep. erewrite bind_done; [|apply rt_object_detach_done; [done|exact Hh]]. done.
Qed.

(** The state after a thread in no list is closed. *)
Definition k_close (t : Z) (th : rt_thread) (h : rt_object) (k : kernel) : kernel :=
  upd_thr (<[t := set_stat RT_THREAD_CLOSE th]>) (k_tdetach (TimerOf t) h k).

Lemma kbut_close P lo k t th h :
  kbut (eq t) P lo k -> k_thr k !! t = Some th -> statm th <> RT_THREAD_CLOSE -> ~ P (TimerOf t) ->
  is_timer (TimerOf t) h k ->
  kbut (eq t) P lo (k_close t th h k).
Proof.
  intros HK Ht Hs HP (_ & Hh & Hc). pose proof HK as [HS HO HF HT HA].
  pose proof (so_prio _ _ _ _ HS _ _ Ht) as (Hp & Hm & _). destruct (HA t th Ht) as (Hnz & Hob & HC). split.
  - cbn. apply sched_but_upd; [done|]. split_and!; cbn; [lia|lia|done|]. by intros [?|?].
  - cbn. eapply obj_inv_remove; [exact HO|]. intros o' Hne. by rewrite lookup_insert_ne.
  - cbn. apply flags_ok_insert; [done|]. by apply (HF _ _ Hh).
  - cbn. eapply tm_weaken; [eapply tm_remove; [exact HT|..]|].
    + intros o' Hne. by rewrite lookup_insert_ne.
    + intros h'. rewrite lookup_insert_eq. intros [= <-]. done.
    + intros x. split; [tauto|]. intros. split; [done|]. by intros ->.
  - cbn. apply thr_all_upd; [done|]. split_and!; [done| |done].
    destruct Hob as (h0 & Hh0 & ?). exists h0. by rewrite lookup_insert_ne.
Qed.

(** The first step of [rt_thread_detach] and [rt_thread_delete]. *)
Lemma unschedule_done P lo k t th :
  kbut none P lo k -> k_thr k !! t = Some th ->
  exists k1, when (negb (statm th =? RT_THREAD_INIT)) (rt_schedule_remove_thread t) k = Done tt k1 /\
    kbut (eq t) P lo k1 /\ k_thr k1 = k_thr k /\ k_hdr k1 = k_hdr k /\ k_cur k1 = k_cur k /\ k_lock k1 = k_lock k.
Proof.
  intros HK Ht. pose proof (kb_sched _ _ _ _ HK) as HS. destruct (kb_thr _ _ _ _ HK t th Ht) as (Hnz & _).
  destruct (Z.eqb_spec (statm th) RT_THREAD_INIT) as [E|E]; cbn [negb when].
  - exists k. split_and!; try done. destruct HK as [_ HO HF HT HA]. split; try done.
    apply sched_inv_exempt; [done|]. by eapply init_unqueued.
  - exists (k_remove t th k). split_and!; try done.
    + apply remove_thread_done; [done|done|]. apply (so_tab _ _ _ _ HS). apply (so_prio _ _ _ _ HS _ _ Ht).
    + destruct HK as [_ HO HF HT HA]. split; try done. by apply sched_but_remove.
Qed.

(** A closed thread goes to the defunct list. *)
Lemma defunct_done P lo k t th :
  kbut (eq t) P lo k -> k_thr k !! t = Some th -> statm th = RT_THREAD_CLOSE ->
  exists l, k_tl k !! LDefunct = Some l /\
    tl_insert_after LDefunct t k = Done tt (upd_tl (lpush_front LDefunct t) k) /\
    kbut none P lo (upd_tl (lpush_front LDefunct t) k).
Proof.
  intros HK Ht Hs. pose proof (kb_sched _ _ _ _ HK) as HS. destruct (so_def _ _ _ _ HS) as [l Hl].
  destruct (kb_thr _ _ _ _ HK t th Ht) as (Hnz & _). exists l. split_and!; [done| |].
  - apply tl_insert_after_done; [eauto..|]. eapply sched_but_queued. exact HS.
  - destruct HK as [_ HO HF HT HA]. split; try done. cbn. unfold lpush_front, lget. rewrite Hl. cbn.
    by apply (sched_but_enqueue (k_thr k) (k_tl k) (k_group k) t th LDefunct [] l).
Qed.

(** An object that is no timer is detached. *)
Lemma kbut_odetach X P lo k t h :
  kbut X P lo k -> k_hdr k !! Obj t = Some h -> class_of h <> RT_Object_Class_Timer ->
  kbut X P lo (upd_cont (lunlink (Obj t)) (upd_hdr (<[Obj t := set_otype 0 h]>) k)).
Proof.
  intros [HS HO HF HT HA] Hh Hc. split; try done.
  - cbn. eapply obj_inv_remove; [exact HO|]. intros o' Hne. by rewrite lookup_insert_ne.
  - cbn. apply flags_ok_insert; [done|]. by apply (HF _ _ Hh).
  - cbn. eapply tm_frame; [exact HT|done|..].
    + intros o h' [[<- <-]|[? ?]]%lookup_insert_Some; [done|by eauto].
    + intros o h0 _ Hh0 Hc0 Ha0. exists h0. split; [|done]. rewrite lookup_insert_ne; [done|].
      intros <-. rewrite Hh in Hh0. injection Hh0 as <-. done.
  - cbn. intros x thx Hx. destruct (HA x thx Hx) as (H0 & (h0 & Hh0 & Hc0) & HC). split_and!; [done| |].
    + destruct (decide (x = t)) as [->|]; [exists (set_otype 0 h); by rewrite lookup_insert_eq|].
      exists h0. by rewrite lookup_insert_ne by congruence.
    + intros Hs. destruct (HC Hs) as [(h1 & tm & ? & ?) ?]. split; [|done]. exists h1, tm. by rewrite lookup_insert_ne.
Qed.

(** Rescheduling after the running thread [t] has been closed. *)
Lemma exit_schedule k t th i thi :
  kinv k -> k_cur k = t -> k_thr k !! t = Some th -> statm th = RT_THREAD_CLOSE ->
  k_thr k !! i = Some thi -> statm thi = RT_THREAD_READY ->
  (forall p l, k_tl k !! LReady p = Some l -> t ∉ l) -> TimerOf t ∉ k_tmlist k ->
  (queued t (k_tl k) = false \/ exists l, k_tl k !! LDefunct = Some (t :: l)) ->
  exists k' th', rt_schedule k = Done tt k' /\ kinv k' /\ k_thr k' !! t = Some th' /\
    statm th' = RT_THREAD_CLOSE /\
    (queued t (k_tl k') = false \/ exists l, k_tl k' !! LDefunct = Some (t :: l)) /\
    TimerOf t ∉ k_tmlist k' /\ (k_lock k = 0 -> k_cur k' <> t).
Proof.
  intros HK Hc Ht Hs Hi His Hr Hm Hq. destruct (kb_thr _ _ _ _ HK t th Ht) as (Hnz & _).
  destruct (schedule_done none 0 k HK) as (k' & E & HR); [by rewrite Hc|by exists i, thi|].
  exists k', th. split; [done|]. split; [by eapply resched_kbut|].
  pose proof (resched_cur _ _ HR) as (c & p & Ek). rewrite Ek. cbn. split_and!; try done.
  intros Hl. unfold resched in HR. rewrite Hl in HR. destruct HR as (p' & to & Ek' & _ & [l Hl'] & _).
  assert (Hto : to <> t) by (intros ->; eapply (Hr _ _ Hl'); set_solver).
  assert (k_cur k' = to) as Hk'. { rewrite Ek'. unfold k_switch. by destruct (Z.eqb_spec to (k_cur k)). }
  rewrite Ek in Hk'. cbn in Hk'. by rewrite Hk'.
Qed.

(** [rt_thread_exit] up to the disposal of the thread. *)
Lemma exit_prefix k t th h h0 :
  kinv k -> k_cur k = t -> k_thr k !! t = Some th -> is_timer (TimerOf t) h k -> is_static h = true ->
  k_hdr k !! Obj t = Some h0 ->
  rt_thread_exit k =
    ((if (is_static h0 && (cleanup th =? RT_NULL))%bool then rt_object_detach (Obj t)
      else tl_insert_after LDefunct t);;; rt_schedule) (k_close t th h (k_remove t th k)).
Proof.
  intros HK Hc Ht Him Hst Hh. pose proof (kb_sched _ _ _ _ HK) as HS. destruct (kb_thr _ _ _ _ HK t th Ht) as (Hnz & _).
  assert (Hnull : is_null (Obj t) = false) by (cbn; by destruct (Z.eqb_spec t RT_NULL)).
  unfold rt_thread_exit. mstep. rewrite Hc.
  erewrite bind_done; [|apply (remove_thread_done t th); [done|done|apply (so_tab _ _ _ _ HS), (so_prio _ _ _ _ HS _ _ Ht)]].
  erewrite bind_done; [|apply mod_thr_done; exact Ht].
  erewrite bind_done; [|apply (timer_detach_done (TimerOf t) h); done].
  change (k_tdetach (TimerOf t) h (upd_thr _ _)) with (k_close t th h (k_remove t th k)).
  erewrite bind_done; [|apply is_systemobject_done; [done|cbn; rewrite lookup_insert_ne by done; exact Hh]].
  erewrite bind_done; [|apply thr_done; cbn; by rewrite lookup_insert_eq]. done.
Qed.

(** [rt_thread_exit] closes the running thread and hands the processor to
    another one: the invariant holds, the thread is CLOSE and in no ready or
    waiting list, its timer is out of the timer list, and the thread is either
    in no list at all (detached) or at the head of the defunct list that the
    idle thread reclaims. *)
Theorem rt_thread_exit_closes k th i thi :
  kinv k -> k_thr k !! k_cur k = Some th -> statm th = RT_THREAD_READY ->
  k_thr k !! i = Some thi -> statm thi = RT_THREAD_READY -> i <> k_cur k ->
  exists k' th', rt_thread_exit k = Done tt k' /\ kinv k' /\
    k_thr k' !! k_cur k = Some th' /\ statm th' = RT_THREAD_CLOSE /\
    (queued (k_cur k) (k_tl k') = false \/ exists l, k_tl k' !! LDefunct = Some (k_cur k :: l)) /\
    TimerOf (k_cur k) ∉ k_tmlist k' /\ (k_lock k = 0 -> k_cur k' <> k_cur k).
Proof.
  intros HK Ht Hs Hi His Hne. set (t := k_cur k) in *.
  destruct (kb_thr _ _ _ _ HK t th Ht) as (Hnz & (h0 & Hh0 & Hc0) & _).
  destruct (timer_hdr _ _ _ _ _ _ HK Ht ltac:(by rewrite Hs)) as (h & Him & _ & Hst).
  set (k2 := k_close t th h (k_remove t th k)). assert (HK2 : kbut (eq t) none 0 k2).
  { eapply kbut_close; [|done|by rewrite Hs|by intros []|done].
    destruct HK as [HS HO HF HT HA]. split; try done. by apply sched_but_remove. }
  assert (Ht2 : k_thr k2 !! t = Some (set_stat RT_THREAD_CLOSE th)) by (cbn; by rewrite lookup_insert_eq).
  assert (Hh2 : k_hdr k2 !! Obj t = Some h0) by (cbn; by rewrite lookup_insert_ne).
  assert (Hi2 : k_thr k2 !! i = Some thi) by (cbn; by rewrite lookup_insert_ne).
  assert (Hm2 : TimerOf t ∉ k_tmlist k2) by (cbn; by intros [? ?]%elem_of_lremove).
  pose proof (sched_but_queued _ _ _ t (kb_sched _ _ _ _ HK2)) as Hq. pose proof Hq as Hq'.
  rewrite queued_false in Hq'. rewrite (exit_prefix k t th h h0) by done. fold k2.
  change (k_lock k) with (k_lock k2). destruct (is_static h0 && (cleanup th =? RT_NULL))%bool.
  - erewrite bind_done; [|apply rt_object_detach_done; [cbn; by destruct (Z.eqb_spec t RT_NULL)|exact Hh2]].
    change (k_lock k2) with (k_lock (upd_cont (lunlink (Obj t)) (upd_hdr (<[Obj t := set_otype 0 h0]>) k2))).
    eapply exit_schedule; try done; [|intros p l; apply (Hq' (LReady p))|by left].
    apply kbut_odetach; [|done|by rewrite Hc0]. eapply kbut_idle; [exact HK2|exact Ht2|done].
  - destruct (defunct_done none 0 k2 t _ HK2 Ht2 eq_refl) as (l & Hl & E & HK3).
    rewrite (after E). change (k_lock k2) with (k_lock (upd_tl (lpush_front LDefunct t) k2)).
    eapply exit_schedule; try done.
    + intros p l'. cbn [upd_tl k_tl]. unfold lpush_front. rewrite lookup_insert_ne by done. eauto.
    + right. exists l. change (lpush_front LDefunct t (k_tl k2) !! LDefunct = Some (t :: l)).
      unfold lpush_front, lget. by rewrite Hl, lookup_insert_eq.
Qed.

(** Taking a thread out of the kernel, up to its disposal. *)
Lemma take_out_done P lo k t th :
  kbut none P lo k -> k_thr k !! t = Some th -> statm th <> RT_THREAD_CLOSE -> ~ P (TimerOf t) ->
  exists k2, (forall A (f : unit -> K A),
    (when (negb (statm th =? RT_THREAD_INIT)) (rt_schedule_remove_thread t);;;
     rt_timer_detach (TimerOf t);;; x <- mod_thr t (set_stat RT_THREAD_CLOSE);; f x) k = f tt k2) /\
    kbut (eq t) P lo k2 /\ k_thr k2 !! t = Some (set_stat RT_THREAD_CLOSE th) /\
    k_hdr k2 !! Obj t = k_hdr k !! Obj t /\ k_cur k2 = k_cur k /\ k_lock k2 = k_lock k /\
    TimerOf t ∉ k_tmlist k2.
Proof.
  intros HK Ht Hs HP. destruct (unschedule_done P lo k t th HK Ht) as (k1 & E & HK1 & Et & Eh & Ec & El).
  rewrite <- Et in Ht. destruct (timer_hdr _ _ _ _ _ _ HK1 Ht Hs) as (h & Him & _ & Hst).
  exists (k_close t th h k1). split_and!.
  - intros A f. rewrite (after E).
    erewrite bind_done; [|apply (timer_detach_done (TimerOf t) h); done].
    erewrite bind_done; [|apply mod_thr_done; exact Ht]. done.
  - by eapply kbut_close.
  - cbn. by rewrite lookup_insert_eq.
  - cbn. by rewrite lookup_insert_ne, Eh.
  - done.
  - done.
  - cbn. by intros [? ?]%elem_of_lremove.
Qed.

(** [rt_thread_delete] of a live dynamic thread, in whatever state and list it
    is, returns RT_EOK with the invariant kept: the thread is CLOSE, at the head of
    the defunct list and in no other one, and its timer cannot fire any more. *)
Theorem rt_thread_delete_defuncts k t th h0 :
  kinv k -> k_thr k !! t = Some th -> statm th <> RT_THREAD_CLOSE ->
  k_hdr k !! Obj t = Some h0 -> is_static h0 = false ->
  exists k' l, rt_thread_delete t k = Done RT_EOK k' /\ kinv k' /\
    k_thr k' !! t = Some (set_stat RT_THREAD_CLOSE th) /\
    k_tl k' !! LDefunct = Some (t :: l) /\
    (forall q lq, k_tl k' !! q = Some lq -> t ∈ lq -> q = LDefunct) /\
    TimerOf t ∉ k_tmlist k'.
Proof.
  intros HK Ht Hs Hh Hst.
  assert (Hnull : is_null (Obj t) = false).
  { destruct (kb_thr _ _ _ _ HK t th Ht) as (Hnz & _). cbn. by destruct (Z.eqb_spec t RT_NULL). }
  destruct (take_out_done none 0 k t th HK Ht Hs ltac:(by intros [])) as (k2 & E & HK2 & Ht2 & _ & _ & _ & Hm).
  destruct (defunct_done none 0 k2 t _ HK2 Ht2 eq_refl) as (l & Hl & E3 & HK3).
  exists (upd_tl (lpush_front LDefunct t) k2), l. unfold rt_thread_delete.
  erewrite bind_done; [|eapply thread_check_arg_done; eassumption].
  erewrite bind_done; [|apply is_systemobject_done; [done|exact Hh]]. rewrite Hst.
  erewrite bind_done; [|by apply assert_true]. erewrite bind_done; [|apply thr_done; exact Ht].
  fold (statm th). rewrite E. rewrite (after E3).
  pose proof (sched_but_queued _ _ _ t (kb_sched _ _ _ _ HK2)) as Hq. rewrite queued_false in Hq.
  split_and!; try done; cbn; unfold lpush_front, lget; rewrite ?Hl.
  - by rewrite lookup_insert_eq.
  - intros q lq [[<- _]|[_ Hq']]%lookup_insert_Some; [done|]. intros Hin. by destruct (Hq _ _ Hq').
Qed.

(** ** Setting up a thread *)

(** Neither the thread [t] nor its timer is linked anywhere. *)
Definition unlinked (t : Z) (k : kernel) : Prop :=
  contained (Obj t) (k_cont k) = false /\ contained (TimerOf t) (k_cont k) = false /\
  queued t (k_tl k) = false /\ Obj t ∉ k_tmlist k /\ TimerOf t ∉ k_tmlist k.

(** The record [_rt_thread_init] fills in. *)
Definition new_thread (k : kernel) (t entry parameter stack_start stack_size priority tick : Z) : rt_thread :=
  Thread (fst (rt_hw_stack_init entry parameter (stack_start + stack_size - 4) thread_exit_addr)) entry parameter
    stack_start stack_size 35 RT_EOK RT_THREAD_INIT priority priority 0
    (default 0 (event_set <$> k_thr k !! t)) (default 0 (event_info <$> k_thr k !! t)) tick tick 0 0.

Definition k_thread_init (k : kernel) (t : Z) (h : rt_object) (th : rt_thread) : kernel :=
  upd_tm (<[TimerOf t := Timer ThreadTimeout t 0 0]>)
    (upd_hdr (fun H => <[TimerOf t := init_hdr RT_Object_Class_Timer (oname h) 0]> (<[Obj t := h]> H))
      (upd_cont (fun C => lpush_front RT_Object_Class_Timer (TimerOf t) (lpush_front RT_Object_Class_Thread (Obj t) C))
        (upd_thr (<[t := th]>) k))).

(** The header of a thread object. *)
Definition thread_hdr (h : rt_object) : Prop :=
  class_of h = RT_Object_Class_Thread /\ length (oname h) = RT_NAME_MAX /\ 0 <= oflag h < 2 ^ 8.

(** The thread object enters its container. *)
Definition k_attach (k : kernel) (t : Z) (h : rt_object) : kernel :=
  upd_cont (lpush_front RT_Object_Class_Thread (Obj t)) (upd_hdr (<[Obj t := h]>) k).

Lemma contained_push o o' c C : o <> o' -> contained o C = false -> contained o (lpush_front c o' C) = false.
Proof.
  intros Hne. rewrite !contained_false. intros HC c' l. unfold lpush_front, lget.
  intros [[<- <-]|[_ Hl]]%lookup_insert_Some; [|eauto]. intros [->|Hin]%elem_of_cons; [done|].
  destruct (C !! c) eqn:E; [by eapply HC|]. by apply elem_of_nil in Hin.
Qed.

Lemma setup_run X P lo k t h name entry parameter stack_start stack_size priority tick :
  kbut X P lo k -> unlinked t k -> thread_hdr h -> priority < RT_THREAD_PRIORITY_MAX ->
  _rt_thread_init t name entry parameter stack_start stack_size priority tick (k_attach k t h) =
  Done RT_EOK (k_thread_init k t h (new_thread k t entry parameter stack_start stack_size priority tick)).
Proof.
  intros HK (HO & HT & Hq & _ & Hm) (Hc & Hlen & _) Hp. pose proof (kb_obj _ _ _ _ HK) as HB.
  unfold _rt_thread_init. mstep. cbn [k_attach upd_cont upd_hdr k_tl]. rewrite Hq. mstep.
  erewrite bind_done; [|apply assert_true; lia]. mstep.
  erewrite bind_done; [|apply hdr_done; cbn; apply lookup_insert_eq]. unfold rt_timer_init. cbn [is_null negb rt_assert].
  rewrite !bind_assoc. mstep. rewrite bind_assoc. erewrite bind_done; [|apply rt_object_init_done; [| |]].
  2:{ cbn. apply obj_inv_insert; try done. by apply (oi_tab _ _ HB). }
  2:{ by vm_compute; eauto. }
  2:{ cbn. by apply contained_push. }
  unfold _rt_timer_init. rewrite bind_assoc.
  erewrite bind_done; [|apply set_flag_done; cbn; apply lookup_insert_eq]. rewrite bind_assoc.
  erewrite bind_done; [|apply set_flag_done; cbn; apply lookup_insert_eq]. repeat mstep.
  cbn [upd_tm upd_hdr upd_cont upd_thr k_tmlist]. rewrite bool_decide_eq_false_2 by done. mstep.
  unfold ret. f_equal. unfold k_thread_init. kext. by rewrite !insert_insert_eq.
Qed.

(** The header [rt_thread_init] gives a thread. *)
Definition init_thread_hdr (k : kernel) (t : Z) (name : list Z) : rt_object :=
  init_hdr RT_Object_Class_Thread name (default 0 (oflag <$> k_hdr k !! Obj t)).

Lemma init_thread_hdr_ok X P lo k t name : kbut X P lo k -> thread_hdr (init_thread_hdr k t name).
Proof.
  intros HK. split_and!; [done|apply strncpy_list_length|..]; cbn;
    (destruct (k_hdr k !! Obj t) as [h0|] eqn:E; cbn; [apply (kb_flags _ _ _ _ HK _ _ E)|lia]).
Qed.

Lemma thread_init_run X P lo k t name entry parameter stack_start stack_size priority tick :
  kbut X P lo k -> unlinked t k -> t <> RT_NULL -> stack_start <> RT_NULL ->
  priority < RT_THREAD_PRIORITY_MAX ->
  rt_thread_init t name entry parameter stack_start stack_size priority tick k =
  Done RT_EOK (k_thread_init k t (init_thread_hdr k t name) (new_thread k t entry parameter stack_start stack_size priority tick)).
Proof.
  intros HK Hu Hnz Hst Hp. pose proof Hu as (HO & _). pose proof (kb_obj _ _ _ _ HK) as HB.
  unfold rt_thread_init. destruct (Z.eqb_spec t RT_NULL); [done|]. destruct (Z.eqb_spec stack_start RT_NULL); [done|].
  cbn [negb rt_assert]. do 2 mstep. erewrite bind_done; [|by apply rt_object_init_done].
  eapply setup_run; [exact HK|done| |done]. by eapply init_thread_hdr_ok.
Qed.

Lemma new_stack_ok k t entry parameter stack_start stack_size priority tick :
  0 < stack_start -> 76 <= stack_size -> stack_start + stack_size < 2 ^ 32 ->
  stack_ok (new_thread k t entry parameter stack_start stack_size priority tick).
Proof.
  intros H1 H2 H3. unfold stack_ok, new_thread. cbn -[rt_hw_stack_init]. split; [done|]. unfold rt_hw_stack_init. cbn [fst].
  replace (stack_start + stack_size - 4 + 4) with (stack_start + stack_size) by lia.
  rewrite u32_small by lia. unfold RT_ALIGN_DOWN.
  change 8 with (2 ^ 3). rewrite (land_align_down _ 3) by lia. Z.div_mod_to_equations. lia.
Qed.

Lemma thread_init_kbut P lo k t h entry parameter stack_start stack_size priority tick :
  kbut none P lo k -> unlinked t k -> thread_hdr h -> t <> RT_NULL ->
  0 < stack_start -> 76 <= stack_size -> stack_start + stack_size < 2 ^ 32 ->
  0 <= priority < RT_THREAD_PRIORITY_MAX ->
  kbut none P lo (k_thread_init k t h (new_thread k t entry parameter stack_start stack_size priority tick)).
Proof.
  intros HK (HO & HT & Hq & Hmo & Hm) (Hcl & Hlen & Hfl) Hnz H1 H2 H3 Hp. set (th := new_thread _ _ _ _ _ _ _ _).
  assert (Hst : stack_ok th) by (by apply new_stack_ok). destruct HK as [HS HB HF HTM HA].
  rewrite queued_false in Hq.
  split; cbn [k_thread_init upd_tm upd_hdr upd_cont upd_thr k_thr k_tl k_group k_hdr k_cont k_tm k_tmlist k_tick].
  - eapply sched_but_idle; [|by rewrite lookup_insert_eq|done].
    apply sched_but_upd; [by apply sched_inv_exempt|]. split_and!; cbn; [lia|lia|by left|by intros [?|?]].
  - apply obj_inv_insert; [apply obj_inv_insert; try done|by apply contained_push| |done|apply strncpy_list_length].
    + by apply (oi_tab _ _ HB).
    + unfold lpush_front. rewrite lookup_insert_ne by done. by apply (oi_tab _ _ HB).
  - by do 2 (apply flags_ok_insert; [|done]).
  - apply tm_setup; [|done|by left]. eapply tm_frame; [exact HTM|done|..].
    + intros o h' [[<- <-]|[? ?]]%lookup_insert_Some; [by rewrite Hcl|eauto].
    + intros o h' Hin Hh' ? ?. exists h'. rewrite lookup_insert_ne; [done|]. by intros <-.
  - intros x thx [[<- <-]|[Hne Hx]]%lookup_insert_Some.
    + split_and!; [done|exists h; by rewrite lookup_insert_ne, lookup_insert_eq by done|]. intros _. split; [|done].
      exists (init_hdr RT_Object_Class_Timer (oname h) 0), (Timer ThreadTimeout t 0 0).
      rewrite !lookup_insert_eq. by split_and!.
    + destruct (HA x thx Hx) as (H0 & (h0 & Hh0 & Hc0) & HC). split_and!; [done| |].
      * exists h0. by rewrite !lookup_insert_ne by congruence.
      * intros Hs. destruct (HC Hs) as [(h1 & tm & ? & ? & ? & ? & ?) ?]. split; [|done]. exists h1, tm.
        by rewrite !lookup_insert_ne by congruence.
Qed.

(** A thread that is linked nowhere, set up by [rt_thread_init] on a large
    enough stack and then started by [rt_thread_startup], is READY at the end of
    the ready list of its priority; both calls return RT_EOK, the kernel
    invariant is kept, and with a running thread the highest ready priority runs. *)
Theorem rt_thread_init_startup k t name entry parameter stack_start stack_size priority tick :
  kinv k -> unlinked t k -> t <> RT_NULL ->
  0 < stack_start -> 76 <= stack_size -> stack_start + stack_size < 2 ^ 32 ->
  0 <= priority < RT_THREAD_PRIORITY_MAX ->
  exists k' th' l,
    (r <- rt_thread_init t name entry parameter stack_start stack_size priority tick;;
     s <- rt_thread_startup t;; ret (r, s)) k = Done (RT_EOK, RT_EOK) k' /\
    kinv k' /\ k_thr k' !! t = Some th' /\ statm th' = RT_THREAD_READY /\
    current_priority th' = priority /\ k_tl k !! LReady priority = Some l /\
    k_tl k' !! LReady priority = Some (l ++ [t]) /\
    (k_cur k <> RT_NULL -> k_lock k = 0 -> exists p, highest (k_tl k') p (k_cur k')).
Proof.
  intros HK Hu Hnz H1 H2 H3 Hp. set (th := new_thread k t entry parameter stack_start stack_size priority tick).
  set (k1 := k_thread_init k t (init_thread_hdr k t name) th).
  assert (HK1 : kinv k1) by (apply thread_init_kbut; try done; by eapply init_thread_hdr_ok).
  assert (Ht1 : k_thr k1 !! t = Some th) by (cbn; by rewrite lookup_insert_eq).
  destruct (startup_done none 0 k1 t th HK1 Ht1 eq_refl Hp (fun f => f)) as (h & k2 & E & HK2 & HR).
  destruct (proj2 (so_tab _ _ _ _ (kb_sched _ _ _ _ HK) priority) Hp) as [l Hl].
  assert (Hno : t ∉ l) by (destruct Hu as (_ & _ & Hq & _); rewrite queued_false in Hq; eauto).
  set (kr := k_resume t (started th) h (upd_thr (<[t := started th]>) k1)) in *.
  assert (Htl : k_tl kr !! LReady priority = Some (l ++ [t])).
  { change (lpush_back (LReady priority) t (lunlink t (k_tl k)) !! LReady priority = Some (l ++ [t])).
    unfold lpush_back, lget. rewrite lookup_insert_eq. unfold lunlink. rewrite lookup_fmap, Hl. cbn.
    by rewrite lremove_notin. }
  assert (Htr : k_thr kr !! t = Some (ready_stat (started th))) by (cbn; by rewrite lookup_insert_eq).
  exists k2, (ready_stat (started th)), l.
  erewrite bind_done; [|eapply thread_init_run; [exact HK|done|done| |]; [intros Hz; by rewrite Hz in H1|apply Hp]].
  fold th k1. rewrite (after E).
  assert (Hr : exists c p, k2 = upd_cur (fun _ => c) (upd_curprio (fun _ => p) kr)).
  { destruct (k_cur k1 =? RT_NULL); [|by apply resched_cur]. rewrite HR.
    exists (k_cur kr), (k_curprio kr). by destruct kr. }
  destruct Hr as (c & p & Ek). split_and!; try done; try (by rewrite Ek).
  intros Hc Hlk. change (k_cur k1) with (k_cur k) in HR. destruct (Z.eqb_spec (k_cur k) RT_NULL); [done|].
  by eapply resched_highest.
Qed.

(** [rt_thread_create] when the heap has room for the thread and its stack. *)
Lemma create_done X P lo k name entry parameter stack_size priority tick t s h1 h2 :
  kbut X P lo k -> k_irq k = 0 -> unlinked t k -> priority < RT_THREAD_PRIORITY_MAX ->
  rt_malloc 128 (k_heap k) = Done t h1 -> t <> RT_NULL ->
  rt_malloc stack_size h1 = Done s h2 -> s <> RT_NULL ->
  let k' := upd_heap (fun _ => h2) k in
  rt_thread_create name entry parameter stack_size priority tick k =
  Done t (k_thread_init k' t (Object (strncpy_list RT_NAME_MAX name) RT_Object_Class_Thread 0)
    (new_thread k' t entry parameter s stack_size priority tick)).
Proof.
  intros HK Hirq Hu Hp E1 Ht E2 Hs k'. set (h := Object _ _ _).
  assert (HK' : kbut X P lo k') by (by eapply kbut_frame).
  assert (Hm1 : kmalloc 128 k = Done t (upd_heap (fun _ => h1) k)).
  { unfold kmalloc, not_in_interrupt. repeat mstep. rewrite Hirq. cbn [Z.eqb rt_assert]. mstep.
    unfold heap_call, zoom. by rewrite E1. }
  assert (Ha : rt_object_allocate RT_Object_Class_Thread name k = Done t (k_attach (upd_heap (fun _ => h1) k) t h)).
  { unfold rt_object_allocate, not_in_interrupt. repeat mstep. rewrite Hirq. cbn [Z.eqb rt_assert]. mstep.
    cbn [rt_object_get_information rt_object_container get_information fst].
    change (RT_Object_Class_Thread =? RT_Object_Class_Thread) with true. cbn iota. rewrite (after Hm1).
    destruct (Z.eqb_spec t RT_NULL); [done|]. unfold put_hdr. mstep. unfold cont_insert.
    destruct (proj2 (oi_tab _ _ (kb_obj _ _ _ _ HK) RT_Object_Class_Thread)) as [l Hl]; [by vm_compute; eauto|].
    rewrite bind_assoc. rewrite (bind_done _ _ _ l _) by (by apply deref_some). rewrite bind_assoc. mstep.
    destruct Hu as (Hc & _). cbn [upd_hdr upd_heap k_cont]. rewrite Hc. done. }
  unfold rt_thread_create. rewrite (after Ha). destruct (Z.eqb_spec t RT_NULL); [done|].
  rewrite (bind_done _ _ _ s (k_attach k' t h)).
  2: { unfold kmalloc, not_in_interrupt. repeat mstep. change (k_irq _) with (k_irq k). rewrite Hirq. cbn [Z.eqb rt_assert]. mstep.
       unfold heap_call, zoom. change (k_heap _) with h1. by rewrite E2. }
  destruct (Z.eqb_spec s RT_NULL); [done|].
  rewrite (after (setup_run X P lo k' t h name entry parameter s stack_size priority tick HK' Hu ltac:(split_and!; [done|apply strncpy_list_length|done|done]) Hp)).
  done.
Qed.
