(* ===== verification/Clock.v ===== *)
(** * Clock tick and timer expiry (src/clock.c, [rt_timer_check] of src/timer.c)

    [rt_tick_increase] is the body of the tick interrupt: it advances the
    clock, charges the running thread for its time slice, lets it yield when
    the slice is used up, and fires the timers that are due.  The callbacks of
    application timers are a parameter, [user f p], run by [rt_timer_check]
    inside the interrupt; [user_ok] says what the kernel expects of them.

    A timer is due when its timeout is not in the future.  [timer_check_due]
    shows that [rt_timer_check] ends after as many rounds as there are due
    timers and leaves none, and that every thread that was waiting on one is
    ready. *)

From Stdlib Require Import Sorting.Sorted.
From S2P Require Import Prelude RtList Exec KService Mem Kernel Object Scheduler Timer Thread.

Definition rt_tick_get : K Z := gets k_tick.
Definition rt_tick_set (tick : Z) : K unit := modify (upd_tick (fun _ => tick)).

Section clock.
Context (user : Z -> Z -> K unit).

(** [t->timeout_func(t->parameter)]. *)
Definition timeout_call (tm : rt_timer) : K unit :=
  match timeout_func tm with
  | ThreadTimeout => rt_thread_timeout (tparameter tm)
  | UserTimeout f => user f (tparameter tm)
  end.

(** What the loop of [rt_timer_check] does with a due timer. *)
Definition timer_fire (o : oid) (tm : rt_timer) : K unit :=
  _rt_timer_remove o;;;
  timeout_call tm;;;
  h <- hdr o;;
  if (nz (Z.land (oflag h) RT_TIMER_FLAG_PERIODIC) && nz (Z.land (oflag h) RT_TIMER_FLAG_ACTIVATED))%bool
  then set_flag o clear_active;;; rt_timer_start o;;; ret tt
  else set_flag o clear_active.

(** The loop of [rt_timer_check], at most [fuel] rounds. *)
Fixpoint timer_check_loop (fuel : nat) (current_tick : Z) : K unit :=
  match fuel with
  | O => stuck Diverge
  | S fuel =>
      l <- gets k_tmlist;;
      match l with
      | [] => ret tt
      | o :: _ =>
          tm <- tmr o;;
          if u32 (current_tick - timeout_tick tm) <? RT_TICK_MAX / 2
          then timer_fire o tm;;; tick <- rt_tick_get;; timer_check_loop fuel tick
          else ret tt
      end
  end.

Definition rt_timer_check (fuel : nat) : K unit :=
  tick <- rt_tick_get;; timer_check_loop fuel tick.

Definition rt_tick_increase (fuel : nat) : K unit :=
  modify (upd_tick (fun t => u32 (t + 1)));;;
  t <- rt_thread_self;;
  mod_thr t (fun th => set_remaining_tick (u32 (remaining_tick th - 1)) th);;;
  th <- thr t;;
  when (remaining_tick th =? 0)
    (mod_thr t (set_remaining_tick (init_tick th));;; _ <- rt_thread_yield;; ret tt);;;
  rt_timer_check fuel.

(** ** What is due, and what callbacks may do *)

Definition due (k : kernel) (o : oid) : Prop := o ∈ k_tmlist k /\ toff (k_tm k) (k_tick k) o <= 0.

Definition ready (k : kernel) (t : Z) : Prop := exists th, k_thr k !! t = Some th /\ statm th = RT_THREAD_READY.

(** Thread timers belong to live threads and are one-shot; application timers
    have an application callback and, if periodic, a period of at least a tick. *)
Definition timer_wf (k : kernel) (o : oid) : Prop :=
  match o with
  | TimerOf t => (exists th, k_thr k !! t = Some th /\ statm th <> RT_THREAD_CLOSE) /\
      forall h, k_hdr k !! o = Some h -> Z.testbit (oflag h) 1 = false
  | Obj a => a <> RT_NULL /\ exists tm f, k_tm k !! o = Some tm /\ timeout_func tm = UserTimeout f /\
      forall h, k_hdr k !! o = Some h -> Z.testbit (oflag h) 1 = true -> 1 <= tinit_tick tm <= max_off
  end.

(** The state during [rt_timer_check]: [P] holds of the timer being processed. *)
Record clock_ok (P : oid -> Prop) (k : kernel) : Prop := ClockOk {
  ck_inv : kbut none P (-1) k;
  ck_cur : k_cur k <> RT_NULL;
  ck_wf : forall o, o ∈ k_tmlist k \/ P o -> timer_wf k o
}.

(** A step between two such states that fires no new timer. *)
Record clock_step (P : oid -> Prop) (k k' : kernel) : Prop := ClockStep {
  cs_tick : k_tick k' = k_tick k;
  cs_due : forall o, due k' o -> due k o;
  cs_wake : forall t, due k (TimerOf t) -> due k' (TimerOf t) \/ ready k' t;
  cs_ready : forall t, ready k t -> ready k' t;
  cs_own : forall o, P o -> k_hdr k' !! o = k_hdr k !! o /\ k_tm k' !! o = k_tm k !! o
}.

(** Application callbacks return, keep the kernel state well formed, leave the
    timer being processed alone, do not set back the clock, arm no timer with a
    timeout of zero and suspend no thread: the rules for timer callbacks, which
    run in interrupt context. *)
Definition user_ok : Prop := forall f p o k, clock_ok (eq o) k ->
  exists k', user f p k = Done tt k' /\ clock_ok (eq o) k' /\ clock_step (eq o) k k'.

(** ** Steps of the loop *)

Lemma check_test now d : 0 <= now < 2 ^ 32 -> -1 <= s32 (d - now) <= max_off ->
  (u32 (now - d) <? RT_TICK_MAX / 2) = (s32 (d - now) <=? 0).
Proof.
  intros Hn. change (RT_TICK_MAX / 2) with (2 ^ 31 - 1). change max_off with (2 ^ 31 - 2).
  unfold s32, u32. intros Hd. apply eq_true_iff_eq. rewrite Z.ltb_lt, Z.leb_le.
  revert Hd. Z.div_mod_to_equations. lia.
Qed.

Lemma thr_ok_exempt P Q H TM t th : (forall o, P o -> Q o) -> thr_ok P H TM t th -> thr_ok Q H TM t th.
Proof.
  intros HPQ (? & ? & HC). split_and!; [done..|]. intros Hs. destruct (HC Hs) as [(h & tm & ? & ? & ? & ? & ? & ? & Ha) ?].
  split; [|done]. exists h, tm. split_and!; try done. intros. apply Ha; auto.
Qed.

(** The head of the list is taken off. *)
Lemma kbut_take k o : kbut none none (-1) k -> kbut none (eq o) (-1) (upd_tmlist (lremove o) k).
Proof.
  intros [HS HO HF HT HA]. split; try done; cbn.
  - eapply tm_weaken; [apply tm_unlink; exact HT|]. intros x. split; [by intros [[]| ->]|by intros ->; right].
  - intros t th Ht. eapply thr_ok_exempt; [|by apply HA]. by intros ? [].
Qed.

(** The flag of the timer that was processed is cleared. *)
Lemma kbut_clear lo k o h :
  kbut none (eq o) lo k -> k_hdr k !! o = Some h ->
  kbut none none lo (upd_hdr (<[o := set_oflag (clear_active (oflag h)) h]>) k).
Proof.
  intros HK Hh. pose proof HK as [HS HO HF HT HA].
  assert (Hno : o ∉ k_tmlist k) by (intros Hin; by destruct (tv_mem _ _ _ _ _ _ HT o Hin) as (? & ? & ? & ? & ? & ? & ? & [])).
  split; [done|..]; cbn.
  - by apply obj_inv_flag.
  - apply flags_ok_insert; [done|]. by apply clear_active_range, (HF _ _ Hh).
  - rewrite <- (lremove_notin o (k_tmlist k)) by done. eapply tm_weaken; [eapply tm_remove; [exact HT|..]|].
    + intros o' Hne. by rewrite lookup_insert_ne.
    + intros h'. rewrite lookup_insert_eq. intros [= <-] _. apply active_clear.
    + intros x. split; [by intros [-> ?]|by intros []].
  - intros t th Ht. destruct (HA t th Ht) as (Hnz & (h0 & Hh0 & Hc0) & HC). split_and!; [done| |].
    + destruct (decide (o = Obj t)) as [->|]; [|exists h0; by rewrite lookup_insert_ne].
      rewrite Hh in Hh0. injection Hh0 as <-. eexists. by rewrite lookup_insert_eq.
    + intros Hs. destruct (HC Hs) as [(h1 & tm & Hh1 & Hc1 & Hs1 & Htm & Hf1 & Hp1 & Ha1) ?]. split; [|done].
      destruct (decide (o = TimerOf t)) as [->|].
      * rewrite Hh in Hh1. injection Hh1 as <-. eexists _, tm. rewrite lookup_insert_eq.
        split_and!; try done. intros Ha. by apply active_clear in Ha.
      * exists h1, tm. rewrite lookup_insert_ne by done. split_and!; try done. intros Ha _. apply Ha1; [done|]. congruence.
Qed.

(** Starting an application timer. *)
Lemma start_obj_done X P lo k a h tm :
  kbut X P lo k -> is_timer (Obj a) h k -> ~ P (Obj a) -> k_tm k !! Obj a = Some tm ->
  0 <= tinit_tick tm <= max_off -> -1 <= lo <= 0 ->
  exists l1 l2, lremove (Obj a) (k_tmlist k) = l1 ++ l2 /\
    let k' := k_start (Obj a) h tm (l1 ++ Obj a :: l2) k in
    rt_timer_start (Obj a) k = Done RT_EOK k' /\ kbut X P lo k' /\
    toff (k_tm k') (k_tick k') (Obj a) = tinit_tick tm /\
    (forall x, x ∈ l1 -> toff (k_tm k) (k_tick k) x <= tinit_tick tm) /\
    (forall x, x ∈ l2 -> tinit_tick tm < toff (k_tm k) (k_tick k) x).
Proof.
  intros HK Hi HP Htm Ht Hlo. pose proof HK as [HS HO HF HT HA]. pose proof Hi as (_ & Hh & Hc).
  destruct (rt_timer_start_done P lo (Obj a) h tm k Hi Htm Ht Hlo HT) as (l1 & l2 & El & E & HT' & H1 & H2).
  exists l1, l2. cbn zeta. split_and!; try done; [|unfold toff; cbn; rewrite lookup_insert_eq; cbn; apply s32_tick; [apply HT|done]].
  split; [done|..].
  - cbn. by apply obj_inv_flag.
  - cbn. apply flags_ok_insert; [done|]. by apply set_active_range, clear_active_range, (HF _ _ Hh).
  - eapply tm_weaken; [exact HT'|]. intros x. split; [tauto|]. intros. split; [done|]. by intros ->.
  - intros t th Hth. destruct (HA t th Hth) as (Hnz & (h0 & Hh0 & Hc0) & HC). cbn. split_and!; [done| |].
    + destruct (decide (t = a)) as [->|]; [rewrite Hh in Hh0; injection Hh0 as <-; rewrite Hc in Hc0; done|].
      exists h0. by rewrite lookup_insert_ne by congruence.
    + intros Hs. destruct (HC Hs) as [(h1 & tm1 & ?) ?]. split; [|done]. exists h1, tm1. by rewrite !lookup_insert_ne.
Qed.

Lemma clock_take k o : clock_ok none k -> o ∈ k_tmlist k -> clock_ok (eq o) (upd_tmlist (lremove o) k).
Proof.
  intros [HK Hc Hwf] Hin. split; [by apply kbut_take|done|].
  intros x Hx. apply Hwf. left. destruct Hx as [[? _]%elem_of_lremove| <-]; done.
Qed.

Lemma resched_nonnull X P lo k k' : resched k k' -> kbut X P lo k' -> k_cur k <> RT_NULL -> k_cur k' <> RT_NULL.
Proof.
  unfold resched. destruct (k_lock k =? 0); [|by intros ->]. intros (p & to & -> & _ & [l Hl] & _) HK Hc.
  unfold k_switch in *. destruct (Z.eqb_spec to (k_cur k)) as [->|]; [done|].
  apply (so_mem _ _ _ _ (kb_sched _ _ _ _ HK) (LReady p) (to :: l) to); [done|apply elem_of_cons; by left].
Qed.

(** A timeout of a waiting thread is a step of this kind. *)
Lemma timeout_step k t th k' :
  clock_ok (eq (TimerOf t)) k -> k_thr k !! t = Some th -> resched (k_timeout t th k) k' ->
  kbut none (eq (TimerOf t)) (-1) k' ->
  clock_ok (eq (TimerOf t)) k' /\ clock_step (eq (TimerOf t)) k k' /\ ready k' t.
Proof.
  intros [HK Hc Hwf] Ht HR HK'.
  pose proof (resched_nonnull _ _ _ _ _ HR HK' Hc) as Hnz.
  apply resched_cur in HR as (c & p & Ek).
  assert (Hth : forall x, ready k x \/ x = t -> ready k' x).
  { intros x Hx. subst k'. unfold ready. cbn. destruct (decide (x = t)) as [->|Hne].
    - eexists. rewrite lookup_insert_eq. split; [done|]. apply ready_stat_statm.
    - rewrite !lookup_insert_ne by done. by destruct Hx. }
  split_and!; [|split|auto].
  - split; [done|done|]. intros o Ho. specialize (Hwf o). subst k'. cbn in Ho. specialize (Hwf Ho).
    destruct o as [a|x]; [done|]. destruct Hwf as [(thx & Hx & Hs) ?]. split; [|done].
    cbn. destruct (decide (x = t)) as [->|]; [|exists thx; by rewrite !lookup_insert_ne].
    eexists. rewrite lookup_insert_eq. split; [done|]. by rewrite ready_stat_statm.
  - by subst k'.
  - by subst k'.
  - subst k'. by left.
  - auto.
  - by subst k'.
Qed.

Lemma call_done k o tm :
  user_ok -> clock_ok none k -> o ∈ k_tmlist k -> k_tm k !! o = Some tm ->
  exists k', timeout_call tm (upd_tmlist (lremove o) k) = Done tt k' /\ clock_ok (eq o) k' /\
    clock_step (eq o) (upd_tmlist (lremove o) k) k' /\ forall t, o = TimerOf t -> ready k' t.
Proof.
  intros HU HC Hin Htm. pose proof (clock_take k o HC Hin) as HC1. set (k1 := upd_tmlist (lremove o) k) in *.
  pose proof HC as [HK Hc Hwf]. specialize (Hwf o (or_introl Hin)). destruct o as [a|t].
  - destruct Hwf as (_ & tm' & f & Htm' & Hf & _). rewrite Htm in Htm'. injection Htm' as <-.
    unfold timeout_call. rewrite Hf. destruct (HU f (tparameter tm) (Obj a) k1 HC1) as (k' & ? & ? & ?).
    by exists k'.
  - destruct Hwf as [(th & Ht & Hs) _]. destruct (kb_thr _ _ _ _ HK t th Ht) as (_ & _ & HA).
    destruct (HA Hs) as [(h & tm' & Hh & Hcl & _ & Htm' & Hf & Hp & Ha) _].
    rewrite Htm in Htm'. injection Htm' as <-. unfold timeout_call. rewrite Hf, Hp.
    destruct (tv_mem _ _ _ _ _ _ (kb_tm _ _ _ _ HK) _ Hin) as (_ & h' & _ & Hh' & _ & Hact & _).
    rewrite Hh in Hh'. injection Hh' as <-.
    destruct (timeout_done (eq (TimerOf t)) (-1) k1 t th (ck_inv _ _ HC1) Ht) as (k' & E & HR & HK'); [|done..|].
    { apply Ha; [done|]. by intros []. }
    destruct (timeout_step k1 t th k' HC1 Ht HR HK') as (? & ? & ?).
    exists k'. split_and!; try done. by intros t' [= <-].
Qed.

Lemma clear_bit1 v : Z.testbit (clear_active v) 1 = Z.testbit v 1.
Proof. unfold clear_active. rewrite Z.land_spec. change (Z.testbit _ 1) with true at 2. by rewrite andb_true_r. Qed.
Lemma set_bit1 v : Z.testbit (set_active v) 1 = Z.testbit v 1.
Proof. unfold set_active. rewrite Z.lor_spec. change (Z.testbit _ 1) with false at 2. by rewrite orb_false_r. Qed.

(** Two states that differ in the active bit of [o] only. *)
Lemma timer_wf_flag k k' o h h' x :
  k_thr k' = k_thr k -> (forall y, tinit_tick <$> k_tm k' !! y = tinit_tick <$> k_tm k !! y) ->
  (forall y, timeout_func <$> k_tm k' !! y = timeout_func <$> k_tm k !! y) ->
  k_hdr k !! o = Some h -> k_hdr k' = <[o := h']> (k_hdr k) -> Z.testbit (oflag h') 1 = Z.testbit (oflag h) 1 ->
  timer_wf k x -> timer_wf k' x.
Proof.
  intros Et Ei Ef Hh Eh Hb. assert (Hx : forall hx, k_hdr k' !! x = Some hx ->
    exists hx0, k_hdr k !! x = Some hx0 /\ Z.testbit (oflag hx) 1 = Z.testbit (oflag hx0) 1).
  { intros hx. rewrite Eh. intros [[<- <-]|[? ?]]%lookup_insert_Some; eauto. }
  destruct x as [a|t]; unfold timer_wf.
  - intros (Ha & tm & f & Htm & Hf & Hp). split; [done|]. specialize (Ei (Obj a)). specialize (Ef (Obj a)).
    rewrite Htm in Ei, Ef. destruct (k_tm k' !! Obj a) as [tm'|]; [|done]. cbn in Ei, Ef.
    injection Ei as Ei. injection Ef as Ef. exists tm', f. rewrite Ef, Ei. split_and!; [done..|].
    intros hx (hx0 & ? & ->)%Hx. eauto.
  - intros [? Hp]. rewrite Et. split; [done|]. intros hx (hx0 & ? & ->)%Hx. eauto.
Qed.

(** The tail of [timer_fire]: the flag is cleared, a periodic timer restarted. *)
Lemma refire_done k o :
  clock_ok (eq o) k -> (exists h, is_timer o h k) ->
  exists k', (h <- hdr o;;
    if (nz (Z.land (oflag h) RT_TIMER_FLAG_PERIODIC) && nz (Z.land (oflag h) RT_TIMER_FLAG_ACTIVATED))%bool
    then set_flag o clear_active;;; rt_timer_start o;;; ret tt
    else set_flag o clear_active) k = Done tt k' /\
    clock_ok none k' /\ k_tick k' = k_tick k /\ k_thr k' = k_thr k /\
    (forall x, due k' x <-> due k x).
Proof.
  intros HC (h & Hn & Hh & Hcl). pose proof HC as [HK Hc Hwf].
  rewrite (after (hdr_done _ _ _ Hh)). change RT_TIMER_FLAG_PERIODIC with (2 ^ 1).
  rewrite (land_pow2_testbit _ 1) by lia. set (k1 := upd_hdr (<[o := set_oflag (clear_active (oflag h)) h]>) k).
  assert (Hno : o ∉ k_tmlist k).
  { intros Hin. by destruct (tv_mem _ _ _ _ _ _ (kb_tm _ _ _ _ HK) o Hin) as (? & ? & ? & ? & ? & ? & ? & []). }
  assert (Hw1 : forall x, timer_wf k x -> timer_wf k1 x).
  { intros x. eapply timer_wf_flag; [done..|exact Hh|done|]. apply clear_bit1. }
  pose proof (kbut_clear (-1) k o h HK Hh) as HK1. fold k1 in HK1.
  destruct (Z.testbit (oflag h) 1) eqn:Hb; cbn [andb]; [destruct (nz _)|].
  2,3: exists k1; split_and!; try done; [by apply set_flag_done|]; split; [done|done|]; intros x [?|[]]; auto.
  rewrite (after (set_flag_done _ _ _ _ Hh)). fold k1.
  destruct o as [a|t]; [|destruct (Hwf _ (or_intror eq_refl)) as [_ Hp]; by rewrite (Hp h Hh) in Hb].
  destruct (Hwf _ (or_intror eq_refl)) as (Ha & tm & f & Htm & Hf & Hp). specialize (Hp h Hh Hb).
  destruct (start_obj_done none none (-1) k1 a (set_oflag (clear_active (oflag h)) h) tm HK1)
    as (l1 & l2 & El & E & HK2 & Hoff & H1 & H2); [split_and!; [done|cbn; by rewrite lookup_insert_eq|done]|by intros []|done|lia|lia|].
  rewrite (after E). set (k2 := k_start _ _ _ _ _) in *.
  assert (El' : k_tmlist k = l1 ++ l2) by (rewrite <- El; symmetry; by apply lremove_notin).
  assert (Hlk : forall A (g : rt_timer -> A) y, (forall v, g (set_timeout_tick v tm) = g tm) -> g <$> k_tm k2 !! y = g <$> k_tm k1 !! y).
  { intros A g y Hg. cbn. destruct (decide (y = Obj a)) as [->|]; [|by rewrite lookup_insert_ne].
    rewrite lookup_insert_eq, Htm. cbn. by rewrite Hg. }
  exists k2. split_and!; try done.
  - split; [done|done|]. intros x Hx.
    eapply (timer_wf_flag k1); [done|intros y; by apply (Hlk _ tinit_tick)|intros y; by apply (Hlk _ timeout_func)|
      by cbn; apply lookup_insert_eq|done|cbn [oflag set_oflag]; by rewrite set_bit1, clear_bit1|].
    apply Hw1, Hwf. rewrite El'. destruct Hx as [Hx|[]]. cbn in Hx. set_solver.
  - intros x. unfold due. change (k_tmlist k2) with (l1 ++ Obj a :: l2). rewrite El'. destruct (decide (x = Obj a)) as [->|Hne].
    + rewrite Hoff. split; [lia|]. intros [? _]. by rewrite El' in Hno.
    + assert (toff (k_tm k2) (k_tick k2) x = toff (k_tm k) (k_tick k) x) as ->.
      { unfold toff. cbn. by rewrite lookup_insert_ne. }
      set_solver.
Qed.

Lemma fire_done k o tm :
  user_ok -> clock_ok none k -> due k o -> k_tm k !! o = Some tm ->
  exists k', timer_fire o tm k = Done tt k' /\ clock_ok none k' /\ k_tick k' = k_tick k /\
    (forall x, due k' x -> due k x /\ x <> o) /\
    (forall t, due k (TimerOf t) -> due k' (TimerOf t) \/ ready k' t) /\
    (forall t, ready k t -> ready k' t).
Proof.
  intros HU HC [Hin Ho] Htm. destruct (call_done k o tm HU HC Hin Htm) as (k2 & E & HC2 & HS & Hr).
  destruct (tv_mem _ _ _ _ _ _ (kb_tm _ _ _ _ (ck_inv _ _ HC)) o Hin) as (_ & h & _ & Hh & Hcl & _).
  destruct (refire_done k2 o HC2) as (k3 & E3 & HC3 & Et & Eth & Hd).
  { exists h. destruct (cs_own _ _ _ HS o eq_refl) as [Eh _]. split_and!; [|by rewrite Eh|done].
    pose proof (ck_wf _ _ HC o (or_introl Hin)) as Hw. destruct o as [a|]; [|done]. destruct Hw as (Ha & _).
    cbn. by destruct (Z.eqb_spec a RT_NULL). }
  exists k3. split_and!; try done.
  - unfold timer_fire, _rt_timer_remove. mstep. rewrite (after E). exact E3.
  - rewrite Et. apply (cs_tick _ _ _ HS).
  - intros x Hx%Hd%(cs_due _ _ _ HS).
    destruct Hx as [[Hx Hne]%elem_of_lremove Hle]. done.
  - intros t Ht. destruct (decide (o = TimerOf t)) as [->|Hne].
    + right. unfold ready. rewrite Eth. by apply Hr.
    + destruct (cs_wake _ _ _ HS t) as [Hd'|Hr']; [|left; by apply Hd|right; unfold ready; by rewrite Eth].
      destruct Ht as [Ht ?]. split; [|done]. apply elem_of_lremove. done.
  - intros t Ht. unfold ready. rewrite Eth. by apply (cs_ready _ _ _ HS).
Qed.

(** Only the head of the list has to be looked at. *)
Lemma head_not_due k o l x :
  kbut none none (-1) k -> k_tmlist k = o :: l -> ~ toff (k_tm k) (k_tick k) o <= 0 -> ~ due k x.
Proof.
  intros HK El Ho [Hin Hx]. pose proof (tv_sorted _ _ _ _ _ _ (kb_tm _ _ _ _ HK)) as HS. rewrite El in *.
  apply StronglySorted_inv in HS as [_ Hf]. rewrite Forall_forall in Hf.
  apply elem_of_cons in Hin as [->|Hin]; [lia|]. apply Hf in Hin. lia.
Qed.

Lemma timer_check_loop_done n k l :
  user_ok -> clock_ok none k -> (forall x, due k x -> x ∈ l) -> (length l < n)%nat ->
  exists k', timer_check_loop n (k_tick k) k = Done tt k' /\ clock_ok none k' /\ k_tick k' = k_tick k /\
    (forall x, ~ due k' x) /\ (forall t, due k (TimerOf t) \/ ready k t -> ready k' t).
Proof.
  intros HU. revert k l. induction n as [|n IH]; intros k l HC Hl Hn; [lia|]. cbn [timer_check_loop]. mstep.
  pose proof (ck_inv _ _ HC) as HK. pose proof (kb_tm _ _ _ _ HK) as HT. destruct (k_tmlist k) as [|o lt] eqn:El.
  { exists k. assert (forall x, ~ due k x) by (intros x [Hx _]; rewrite El in Hx; by apply elem_of_nil in Hx).
    split_and!; try done. intros t [?|?]; [naive_solver|done]. }
  destruct (tv_mem _ _ _ _ _ _ HT o) as (tm & h & Htm & _ & _ & _ & Hoff & _); [apply elem_of_cons; by left|].
  rewrite (after (tmr_done _ _ _ Htm)). unfold toff in Hoff. rewrite Htm in Hoff.
  rewrite check_test by (done || apply HT).
  destruct (Z.leb_spec (s32 (timeout_tick tm - k_tick k)) 0) as [Hle|Hgt].
  - assert (Hd : due k o) by (split; [rewrite El; apply elem_of_cons; by left|unfold toff; by rewrite Htm]).
    destruct (fire_done k o tm HU HC Hd Htm) as (k1 & E & HC1 & Et & Hd1 & Hw1 & Hr1).
    rewrite (after E). unfold rt_tick_get. mstep.
    destruct (IH k1 (lremove o l) HC1) as (k' & E' & HC' & Et' & Hd' & Hw').
    + intros x [? ?]%Hd1. apply elem_of_lremove. auto.
    + pose proof (lremove_length o l (Hl o Hd)). lia.
    + exists k'. split_and!; try done; [congruence|]. intros t [Ht|Ht]; apply Hw'; [|right; auto]. by apply Hw1.
  - assert (Hnd : forall x, ~ due k x).
    { intros x. eapply head_not_due; [exact HK|exact El|]. unfold toff. rewrite Htm. lia. }
    exists k. split_and!; try done. intros t [?|?]; [naive_solver|done].
Qed.

Lemma kinv_not_due k : kbut none none (-1) k -> (forall x, ~ due k x) -> kinv k.
Proof.
  intros [HS HO HF HT HA] Hd. split; try done. destruct HT as [Hn Hm Ha Hs Ht]. split; try done.
  intros o Hin. destruct (Hm o Hin) as (tm & h & ? & ? & ? & ? & ? & ?). exists tm, h. split_and!; try done; [|lia].
  destruct (Z.le_gt_cases 0 (toff (k_tm k) (k_tick k) o)); [done|]. destruct (Hd o). split; [done|lia].
Qed.

(** ** The tick *)

Lemma toff_tick TM now o : 0 <= now < 2 ^ 32 -> 0 <= toff TM now o <= max_off ->
  toff TM (u32 (now + 1)) o = toff TM now o - 1 \/ TM !! o = None.
Proof.
  unfold toff. destruct (TM !! o) as [tm|]; [|by right]. intros Hn. left. revert H.
  change max_off with (2 ^ 31 - 2). unfold s32, u32. Z.div_mod_to_equations. lia.
Qed.

(** The clock moves on by one: timeouts are at most one tick overdue. *)
Lemma kbut_tick k : kinv k -> kbut none none (-1) (upd_tick (fun t => u32 (t + 1)) k).
Proof.
  intros [HS HO HF HT HA]. split; try done. cbn. destruct HT as [Hn Hm Ha Hs Ht].
  assert (Hoff : forall o, o ∈ k_tmlist k -> toff (k_tm k) (u32 (k_tick k + 1)) o = toff (k_tm k) (k_tick k) o - 1).
  { intros o Hin. destruct (Hm o Hin) as (tm & h & Htm & _ & _ & _ & ? & _).
    destruct (toff_tick (k_tm k) (k_tick k) o) as [?|?]; [done|done|done|congruence]. }
  split; try done.
  - intros o Hin. destruct (Hm o Hin) as (tm & h & ? & ? & ? & ? & ? & ?). exists tm, h.
    rewrite Hoff by done. split_and!; (done || lia).
  - eapply StronglySorted_ext; [|exact Hs]. intros x y Hx Hy. rewrite !Hoff by done. lia.
  - unfold u32. pose proof (Z.mod_pos_bound (k_tick k + 1) (2 ^ 32)). lia.
Qed.

(** [rt_tick_increase] up to the timers: the clock has moved on, the running
    thread has been charged for the tick and may have yielded. *)
Lemma tick_slice_done k th :
  kinv k -> k_thr k !! k_cur k = Some th -> statm th = RT_THREAD_READY ->
  (forall o, o ∈ k_tmlist k -> timer_wf k o) ->
  exists k1, (forall n, rt_tick_increase n k = rt_timer_check n k1) /\ clock_ok none k1 /\
    k_tick k1 = u32 (k_tick k + 1) /\ k_tmlist k1 = k_tmlist k /\ k_tm k1 = k_tm k.
Proof.
  intros HK Ht Hs Hwf. set (t := k_cur k) in *. pose proof (kbut_tick k HK) as HK1.
  set (k1 := upd_tick _ k) in *. destruct (kb_thr _ _ _ _ HK t th Ht) as (Hnz & _).
  set (th1 := set_remaining_tick (u32 (remaining_tick th - 1)) th).
  set (k2 := upd_thr (<[t := th1]>) k1).
  assert (HK2 : kbut none none (-1) k2) by (by eapply kbut_thr_mod).
  assert (Hwf' : forall k', (exists th', k_thr k' = <[t := th']> (k_thr k) /\ statm th' = statm th) ->
    k_hdr k' = k_hdr k -> k_tm k' = k_tm k -> k_tmlist k' = k_tmlist k ->
    forall o, o ∈ k_tmlist k' \/ none o -> timer_wf k' o).
  { intros k' (th' & Eth & Es) Eh Em El o [Ho|[]]. rewrite El in Ho. specialize (Hwf o Ho).
    destruct o as [a|x]; unfold timer_wf in *; rewrite Eh; [by rewrite Em|].
    destruct Hwf as [(thx & Hx & ?) ?]. split; [|done]. rewrite Eth. destruct (decide (x = t)) as [->|].
    - exists th'. rewrite lookup_insert_eq. split; [done|]. rewrite Es. by rewrite Hs.
    - exists thx. by rewrite lookup_insert_ne. }
  assert (Hpre : forall n, rt_tick_increase n k =
    (when (remaining_tick th1 =? 0)
      (mod_thr t (set_remaining_tick (init_tick th1));;; _ <- rt_thread_yield;; ret tt);;; rt_timer_check n) k2).
  { intros n. unfold rt_tick_increase, rt_thread_self. do 2 mstep. fold k1. change (k_cur k1) with t.
    erewrite bind_done; [|apply mod_thr_done; exact Ht]. fold th1 k2.
    erewrite bind_done; [|apply thr_done; cbn; apply lookup_insert_eq]. done. }
  destruct (Z.eqb_spec (remaining_tick th1) 0) as [E0|E0].
  2: { exists k2. split_and!; try done. split; [done|done|]. apply Hwf'; eauto. }
  set (th2 := set_remaining_tick (init_tick th1) th1). set (k3 := upd_thr (<[t := th2]>) k2).
  assert (Ht2 : k_thr k2 !! t = Some th1) by (cbn; apply lookup_insert_eq).
  assert (HK3 : kbut none none (-1) k3) by (by eapply kbut_thr_mod).
  destruct (yield_done none (-1) k3 t th2) as (l & k4 & Hl & Hin & E & HK4 & HR);
    [done|done|cbn; apply lookup_insert_eq|done|].
  assert (Hk4 : (exists c p L, k4 = upd_cur (fun _ => c) (upd_curprio (fun _ => p) (upd_tl (fun _ => L) k3))) /\ k_cur k4 <> RT_NULL).
  { destruct (decide (l = [t])).
    - subst k4. split; [|done]. by exists (k_cur k3), (k_curprio k3), (k_tl k3).
    - split; [|by eapply resched_nonnull]. apply resched_cur in HR as (c & p & ->). by eexists c, p, _. }
  destruct Hk4 as [(c & p & L & Ek) Hnz4]. exists k4. split_and!; try (by rewrite Ek).
  - intros n. rewrite Hpre. cbn [when]. rewrite bind_assoc, (after (mod_thr_done _ _ _ _ Ht2)). fold th2 k3.
    rewrite bind_assoc, (after E). done.
  - split; [done|done|]. apply Hwf'; try (by rewrite Ek). exists th2. rewrite Ek. split; [|done].
    cbn. by rewrite insert_insert_eq.
Qed.

(** C7: The tick interrupt, with application callbacks that keep the rules
    [user_ok]: [rt_tick_increase] returns after at most one round per running
    timer, the clock has advanced by one modulo 2^32, the kernel invariant
    holds, no timer is left due, and every thread whose timeout has come is
    READY. *)
Theorem rt_tick_increase_fires k th n :
  user_ok -> kinv k -> k_thr k !! k_cur k = Some th -> statm th = RT_THREAD_READY ->
  (forall o, o ∈ k_tmlist k -> timer_wf k o) -> (length (k_tmlist k) < n)%nat ->
  exists k', rt_tick_increase n k = Done tt k' /\ kinv k' /\ k_tick k' = u32 (k_tick k + 1) /\
    (forall o, ~ due k' o) /\
    (forall t, TimerOf t ∈ k_tmlist k -> toff (k_tm k) (k_tick k) (TimerOf t) <= 1 -> ready k' t).
Proof.
  intros HU HK Ht Hs Hwf Hn. destruct (tick_slice_done k th HK Ht Hs Hwf) as (k1 & E & HC & Et & El & Em).
  destruct (timer_check_loop_done n k1 (k_tmlist k) HU HC) as (k' & E' & HC' & Et' & Hd & Hw).
  { intros x [Hx _]. by rewrite El in Hx. }
  { done. }
  exists k'. rewrite E. unfold rt_timer_check, rt_tick_get. mstep. split_and!; try done.
  - apply kinv_not_due; [apply HC'|done].
  - congruence.
  - intros t Hin Ho. apply Hw. left. unfold due. rewrite El, Em, Et. split; [done|].
    destruct (tv_mem _ _ _ _ _ _ (kb_tm _ _ _ _ HK) _ Hin) as (tm & h & Htm & _ & _ & _ & ? & _).
    destruct (toff_tick (k_tm k) (k_tick k) (TimerOf t)) as [->|?]; [apply HK|done|lia|congruence].
Qed.
End clock.
