(* ===== verification/Ipc.v ===== *)
(** * Waiting lists of IPC objects (src/ipc.c, lines 60-197)

    The inline functions every semaphore, mutex, event, mailbox and message
    queue is built on: [rt_ipc_list_suspend] queues the running thread in
    arrival or in priority order, [rt_ipc_list_resume] wakes the first waiting
    thread, [rt_ipc_list_resume_all] wakes all of them with an error.

    [ipc_wait_done] describes a whole wait: the thread is queued, its timer
    armed when the wait is bounded, and the scheduler switches away;
    [ipc_wake_done] a wake-up.  The components above are proved from these two. *)

From S2P Require Import Prelude RtList Exec KService Mem Kernel Object Scheduler Timer Thread.

(** ** Operations *)

(** Initialising the list of threads that are still waiting would lose them. *)
Definition rt_ipc_object_init (q : lhead) : K Z :=
  l <- gets (fun k => lget q (k_tl k));;
  match l with
  | [] => tl_init q;;; ret RT_EOK
  | _ => stuck Undefined
  end.

(** The search loop: the first thread of a lower priority than [cp]. *)
Fixpoint find_lower (cp : Z) (l : list Z) : K (option Z) :=
  match l with
  | [] => ret None
  | s :: l => sth <- thr s;; if cp <? current_priority sth then ret (Some s) else find_lower cp l
  end.

Definition rt_ipc_list_suspend (q : lhead) (t flag : Z) : K Z :=
  _ <- rt_thread_suspend t;;
  (if flag =? RT_IPC_FLAG_FIFO then tl_insert_before q t
   else if flag =? RT_IPC_FLAG_PRIO then
     th <- thr t;; l <- tlist q;; n <- find_lower (current_priority th) l;;
     match n with Some s => tl_link_before s t | None => tl_insert_before q t end
   else ret tt);;;
  ret RT_EOK.

(** [rt_list_entry] of an empty list is no thread. *)
Definition rt_ipc_list_resume (q : lhead) : K Z :=
  l <- tlist q;;
  match l with
  | [] => stuck Undefined
  | t :: _ => _ <- rt_thread_resume t;; ret RT_EOK
  end.

(** A round that does not shorten the list would be repeated for ever. *)
Fixpoint resume_all_loop (fuel : nat) (q : lhead) : K Z :=
  l <- tlist q;;
  match l with
  | [] => ret RT_EOK
  | t :: _ =>
      match fuel with
      | O => stuck Diverge
      | S fuel =>
          mod_thr t (set_error (- RT_ERROR));;;
          _ <- rt_thread_resume t;; resume_all_loop fuel q
      end
  end.
Definition rt_ipc_list_resume_all (q : lhead) : K Z :=
  l <- tlist q;; resume_all_loop (length l) q.

(** The end of every waiting call: the timer of the thread is armed when the
    wait is bounded, and the processor is given up. *)
Definition ipc_wait {A} (t time : Z) (rest : K A) : K (outcome A) :=
  when (0 <? time)
    (_ <- rt_timer_control (TimerOf t) RT_TIMER_CTRL_SET_TIME time;; _ <- rt_timer_start (TimerOf t);; ret tt);;;
  block t rest.

(** [if (!rt_list_isempty(list)) { rt_ipc_list_resume(list); rt_schedule(); }]. *)
Definition ipc_wake_first (q : lhead) : K unit :=
  l <- tlist q;;
  match l with
  | [] => ret tt
  | _ => _ <- rt_ipc_list_resume q;; rt_schedule
  end.

(** [if (timeout > 0) { tick_delta = rt_tick_get() - tick_delta; ... }]: what is
    left of a waiting time that started at [start]; negative times wait for ever. *)
Definition time_left (timeout start now : Z) : Z :=
  if 0 <? timeout then
    let t := s32 (timeout - u32 (now - start)) in if t <? 0 then 0 else t
  else timeout.

(** The code behind [rt_schedule] in the waiting loops of mailboxes, message
    queues and memory pools: return with an error, or go round the loop again
    with the time that is left. *)
Definition wait_resumed (t timeout start : Z) : K (Z + Z) :=
  th <- thr t;;
  if negb (error th =? RT_EOK) then ret (inl (error th))
  else now <- gets k_tick;; ret (inr (time_left timeout start now)).

(** The same for calls that return a value beside the error code. *)
Definition recv_resumed {A} (t timeout start : Z) : K (Z * option A + Z) :=
  r <- wait_resumed t timeout start;;
  ret (match r with inl e => inl (e, None) | inr more => inr more end).

(** [RT_ASSERT(ipc != RT_NULL)] and the check of the type. *)
Definition ipc_check_arg (a type : Z) : K unit :=
  rt_assert (negb (a =? RT_NULL));;; assert_type (Obj a) type.

(** ** Queueing *)

Definition waiting (q : lhead) : Prop := match q with LSuspend _ | LSender _ => True | _ => False end.

(** Where [rt_ipc_list_suspend] puts a thread of priority [cp]: at the end, or
    behind all threads of the same or a higher priority at the front. *)
Definition placed (T : gmap Z rt_thread) (flag cp : Z) (l1 l2 : list Z) : Prop :=
  (flag = RT_IPC_FLAG_FIFO -> l2 = []) /\
  (flag = RT_IPC_FLAG_PRIO ->
    (forall x th, x ∈ l1 -> T !! x = Some th -> current_priority th <= cp) /\
    (forall x l th, l2 = x :: l -> T !! x = Some th -> cp < current_priority th)).

Lemma find_lower_done cp l k :
  (forall x, x ∈ l -> is_Some (k_thr k !! x)) ->
  exists l1 l2, l = l1 ++ l2 /\ find_lower cp l k = Done (head l2) k /\
    (forall x th, x ∈ l1 -> k_thr k !! x = Some th -> current_priority th <= cp) /\
    (forall x l' th, l2 = x :: l' -> k_thr k !! x = Some th -> cp < current_priority th).
Proof.
  induction l as [|s l IH]; intros Hl.
  { exists [], []. split_and!; try done. by intros ? ? ?%elem_of_nil. }
  destruct (Hl s) as [sth Hs]; [apply elem_of_cons; by left|]. cbn [find_lower].
  rewrite (after (thr_done _ _ _ Hs)). destruct (Z.ltb_spec cp (current_priority sth)).
  - exists [], (s :: l). split_and!; try done; [by intros ? ? ?%elem_of_nil|].
    intros x l' th [= <- <-] Hx. congruence.
  - destruct IH as (l1 & l2 & -> & E & H1 & H2); [intros; apply Hl; apply elem_of_cons; by right|].
    exists (s :: l1), l2. split_and!; try done. intros x th [->|Hx]%elem_of_cons; [|by apply H1].
    rewrite Hs. by intros [= <-].
Qed.

Lemma llink_one X T L g h l1 l2 y x :
  sched_but X T L g -> L !! h = Some (l1 ++ y :: l2) -> llink_before y x L = <[h := l1 ++ x :: y :: l2]> L.
Proof.
  intros HS Hl. apply map_eq. intros h'. unfold llink_before. rewrite lookup_fmap. destruct (decide (h' = h)) as [->|].
  - rewrite lookup_insert_eq, Hl. cbn. rewrite linsert_before_split; [done|].
    pose proof (so_nodup _ _ _ _ HS _ _ Hl) as Hnd. apply NoDup_app in Hnd as (_ & Hd & _).
    intros Hy. apply (Hd y Hy). apply elem_of_cons. by left.
  - rewrite lookup_insert_ne by done. destruct (L !! h') eqn:E'; [|done]. cbn.
    rewrite linsert_before_notin; [done|]. intros ?.
    assert (h' = h); [|done]. eapply (so_disj _ _ _ _ HS); [done..|]. apply elem_of_app. right. apply elem_of_cons. by left.
Qed.

(** The state after [rt_ipc_list_suspend]. *)
Definition k_enqueue (q : lhead) (t : Z) (th : rt_thread) (h : rt_object) (l : list Z) (k : kernel) : kernel :=
  upd_tl (<[q := l]>) (k_suspend t th h k).

Lemma ready_not_waiting X T L g t th q l :
  sched_but X T L g -> T !! t = Some th -> statm th = RT_THREAD_READY -> waiting q -> L !! q = Some l -> t ∉ l.
Proof.
  intros HS Ht Hs Hq Hl Hin. destruct (so_mem _ _ _ _ HS q l t Hl Hin) as (_ & _ & th' & Ht' & Hm).
  rewrite Ht in Ht'. injection Ht' as <-. destruct q; try done; cbn in Hm; by rewrite Hs in Hm.
Qed.

Lemma suspend_wait_list k t th h q l :
  k_tl k !! q = Some l -> t ∉ l -> k_tl (k_suspend t th h k) !! q = Some l.
Proof.
  intros Hl Hno. change (lunlink t (k_tl k) !! q = Some l). unfold lunlink. rewrite lookup_fmap, Hl.
  cbn. by rewrite lremove_notin.
Qed.

(** A suspended thread may be put anywhere into a waiting list. *)
Lemma enqueue_kbut P lo k q t th h l1 l2 :
  kbut (eq t) P lo (k_suspend t th h k) -> waiting q -> k_tl k !! q = Some (l1 ++ l2) -> t ∉ l1 ++ l2 -> t <> RT_NULL ->
  kbut none P lo (k_enqueue q t th h (l1 ++ t :: l2) k).
Proof.
  intros HK1 Hq Hl Hno Hnz. pose proof (suspend_wait_list k t th h q _ Hl Hno) as Hl1. pose proof (kb_sched _ _ _ _ HK1) as HS1.
  set (k1 := k_suspend t th h k) in *. destruct HK1 as [_ HO HF HT HA]. split; try done.
  change (sched_inv (k_thr k1) (<[q := l1 ++ t :: l2]> (k_tl k1)) (k_group k1)).
  apply (sched_but_enqueue _ _ _ t (susp_stat th)); try done; [cbn; apply lookup_insert_eq|..|by destruct q].
  destruct q; try done; apply susp_stat_statm.
Qed.

Lemma ipc_suspend_done P lo k q t th flag l :
  kbut none P lo k -> k_thr k !! t = Some th -> statm th = RT_THREAD_READY -> ~ P (TimerOf t) ->
  waiting q -> k_tl k !! q = Some l -> flag = RT_IPC_FLAG_FIFO \/ flag = RT_IPC_FLAG_PRIO ->
  exists h l1 l2, l = l1 ++ l2 /\ placed (k_thr k) flag (current_priority th) l1 l2 /\
    let k' := k_enqueue q t th h (l1 ++ t :: l2) k in
    rt_ipc_list_suspend q t flag k = Done RT_EOK k' /\ kbut none P lo k'.
Proof.
  intros HK Ht Hs HP Hq Hl Hfl. destruct (suspend_done P lo k t th HK Ht Hs HP) as (h & _ & E & HK1).
  assert (Hno : t ∉ l) by (eapply ready_not_waiting; [apply (kb_sched _ _ _ _ HK)|done..]).
  destruct (kb_thr _ _ _ _ HK t th Ht) as (Hnz & _).
  set (k1 := k_suspend t th h k) in *. pose proof (kb_sched _ _ _ _ HK1) as HS1.
  assert (Ht1 : k_thr k1 !! t = Some (susp_stat th)) by (cbn; apply lookup_insert_eq).
  assert (Hl1 : k_tl k1 !! q = Some l) by (by apply suspend_wait_list).
  pose proof (sched_but_queued _ _ _ t HS1) as Hqf.
  assert (Hfin : forall l1 l2, l = l1 ++ l2 -> kbut none P lo (k_enqueue q t th h (l1 ++ t :: l2) k)).
  { intros l1 l2 ->. by apply (enqueue_kbut P lo k q t th h l1 l2). }
  assert (Hback : tl_insert_before q t k1 = Done tt (k_enqueue q t th h (l ++ [t]) k)).
  { rewrite tl_insert_before_done by eauto. f_equal. unfold k_enqueue. fold k1. kext.
    unfold lpush_back, lget. by rewrite Hl1. }
  assert (Hpre : rt_ipc_list_suspend q t flag k = ((if flag =? RT_IPC_FLAG_FIFO then tl_insert_before q t
   else if flag =? RT_IPC_FLAG_PRIO then
     th <- thr t;; l <- tlist q;; n <- find_lower (current_priority th) l;;
     match n with Some s => tl_link_before s t | None => tl_insert_before q t end
   else ret tt);;; ret RT_EOK) k1) by (unfold rt_ipc_list_suspend; by rewrite (after E)).
  exists h. destruct Hfl as [-> | ->].
  - exists l, []. rewrite app_nil_r. split; [done|]. split; [by split|]. split; [|apply Hfin; by rewrite app_nil_r].
    rewrite Hpre. cbn. by rewrite (after Hback).
  - destruct (find_lower_done (current_priority th) l k1) as (l1 & l2 & El & Ef & H1 & H2).
    { intros x Hx. destruct (so_mem _ _ _ _ HS1 q l x Hl1 Hx) as (_ & _ & thx & ? & _). eauto. }
    assert (Hold : forall x, x ∈ l -> k_thr k1 !! x = k_thr k !! x).
    { intros x Hx. change (<[t := susp_stat th]> (k_thr k) !! x = k_thr k !! x). rewrite lookup_insert_ne; [done|]. by intros ->. }
    exists l1, l2. split; [done|]. split; [|split; [|by apply Hfin]].
    { split; [done|]. intros _. split; [intros x thx Hx|intros x l' thx Hx]; rewrite <- Hold by (rewrite El, ?Hx; set_solver); eauto. }
    rewrite Hpre. change (RT_IPC_FLAG_PRIO =? RT_IPC_FLAG_FIFO) with false. change (RT_IPC_FLAG_PRIO =? RT_IPC_FLAG_PRIO) with true.
    cbn iota. rewrite bind_assoc, (after (thr_done _ _ _ Ht1)), bind_assoc, (after (tlist_done _ _ _ Hl1)).
    change (current_priority (susp_stat th)) with (current_priority th). rewrite bind_assoc, (after Ef).
    destruct l2 as [|s l2]; cbn [head].
    + rewrite app_nil_r in El. subst l1. by rewrite (after Hback).
    + erewrite bind_done; [|apply tl_link_before_done; [|by eauto|done]].
      * unfold ret. f_equal. unfold k_enqueue. fold k1. kext. rewrite El in Hl1. by eapply llink_one.
      * destruct (so_mem _ _ _ _ HS1 q l s Hl1) as (_ & _ & thx & ? & _); [rewrite El; set_solver|]. eauto.
Qed.

(** ** Waiting *)

(** What waiting and waking leave alone: the IPC objects themselves, their
    headers, the heap and the context of the call. *)
Record frame (k k' : kernel) : Prop := Frame {
  fr_hdr : forall a, k_hdr k' !! Obj a = k_hdr k !! Obj a;
  fr_sem : k_sem k' = k_sem k; fr_mtx : k_mtx k' = k_mtx k; fr_evt : k_evt k' = k_evt k;
  fr_mb : k_mb k' = k_mb k; fr_mq : k_mq k' = k_mq k; fr_mp : k_mp k' = k_mp k;
  fr_heap : k_heap k' = k_heap k; fr_tick : k_tick k' = k_tick k; fr_irq : k_irq k' = k_irq k;
  fr_lock : k_lock k' = k_lock k; fr_cont : k_cont k' = k_cont k
}.

#[export] Instance frame_preorder : PreOrder frame.
Proof.
  split; [by intros k; split|]. intros k1 k2 k3 [] []. split; try congruence.
Qed.

Lemma frame_resched k k' : resched k k' -> frame k k'.
Proof. intros (c & p & ->)%resched_cur. by split. Qed.

Lemma frame_enqueue q t th h l k : frame k (k_enqueue q t th h l k).
Proof. split; try done. intros a. cbn. by rewrite lookup_insert_ne. Qed.

Lemma frame_arm t h tm tick l k : frame k (k_arm t h tm tick l k).
Proof. split; try done. intros a. cbn. by rewrite lookup_insert_ne. Qed.

(** [ipc_wait] of a thread that has been queued. *)
Lemma ipc_block_done {A} P lo k t th time (rest : K A) :
  kbut none P lo k -> k_cur k = t -> k_thr k !! t = Some th -> statm th = RT_THREAD_SUSPEND -> ~ P (TimerOf t) ->
  -1 <= lo <= 0 -> k_lock k = 0 -> some_ready (k_thr k) -> time <= max_off ->
  exists k', ipc_wait t time rest k = Done Blocked k' /\ kbut none P lo k' /\ frame k k' /\
    k_thr k' = k_thr k /\ k_tl k' = k_tl k /\ k_cur k' <> t /\
    (0 < time -> TimerOf t ∈ k_tmlist k' /\ toff (k_tm k') (k_tick k') (TimerOf t) = time).
Proof.
  intros HK Hc Ht Hs HP Hlo Hlk Hr Htm. destruct (kb_thr _ _ _ _ HK t th Ht) as (Hnz & _).
  assert (Hno : forall p l, k_tl k !! LReady p = Some l -> t ∉ l).
  { intros p l Hl Hin. destruct (so_mem _ _ _ _ (kb_sched _ _ _ _ HK) _ _ _ Hl Hin) as (_ & _ & th' & Ht' & Hm & _).
    rewrite Ht in Ht'. injection Ht' as <-. by rewrite Hs in Hm. }
  unfold ipc_wait. destruct (Z.ltb_spec 0 time); cbn [when].
  - destruct (arm_done none P lo k t th time HK Ht Hs HP Hlo) as (h & tm & l & E1 & E2 & HK2 & Hin & Hoff); [lia|].
    destruct (block_done P lo _ t rest HK2) as (k' & E & HK' & HR & Hcur); try done.
    exists k'. rewrite bind_assoc, (after E1), bind_assoc, (after E2). mstep. rewrite E.
    pose proof (frame_resched _ _ HR) as HF. apply resched_cur in HR as (c & p & Ek).
    split_and!; try done; try (by rewrite Ek). etrans; [apply frame_arm|exact HF].
  - destruct (block_done P lo k t rest HK) as (k' & E & HK' & HR & Hcur); try done.
    exists k'. mstep. rewrite E. pose proof (frame_resched _ _ HR) as HF.
    apply resched_cur in HR as (c & p & Ek). split_and!; try done; try (by rewrite Ek); lia.
Qed.

(** A whole wait of the running thread. *)
Lemma ipc_wait_done {A} k q th flag l time (rest : K A) i thi :
  kinv k -> k_thr k !! k_cur k = Some th -> statm th = RT_THREAD_READY -> k_lock k = 0 ->
  k_thr k !! i = Some thi -> statm thi = RT_THREAD_READY -> i <> k_cur k ->
  waiting q -> k_tl k !! q = Some l -> flag = RT_IPC_FLAG_FIFO \/ flag = RT_IPC_FLAG_PRIO -> time <= max_off ->
  exists k' l1 l2, l = l1 ++ l2 /\ placed (k_thr k) flag (current_priority th) l1 l2 /\
    (_ <- rt_ipc_list_suspend q (k_cur k) flag;; ipc_wait (k_cur k) time rest) k = Done Blocked k' /\
    kinv k' /\ frame k k' /\ k_thr k' = <[k_cur k := susp_stat th]> (k_thr k) /\
    k_tl k' = <[q := l1 ++ k_cur k :: l2]> (lunlink (k_cur k) (k_tl k)) /\ k_cur k' <> k_cur k /\
    (0 < time -> TimerOf (k_cur k) ∈ k_tmlist k' /\ toff (k_tm k') (k_tick k') (TimerOf (k_cur k)) = time).
Proof.
  intros HK Ht Hs Hlk Hi His Hne Hq Hl Hfl Htm. set (t := k_cur k) in *.
  destruct (ipc_suspend_done none 0 k q t th flag l HK Ht Hs (fun f => f) Hq Hl Hfl) as (h & l1 & l2 & El & Hp & E & HK1).
  set (k1 := k_enqueue q t th h (l1 ++ t :: l2) k) in *.
  destruct (ipc_block_done none 0 k1 t (susp_stat th) time rest HK1) as (k' & E' & HK' & HF & Eth & Etl & Hcur & Htime); try done.
  - cbn. apply lookup_insert_eq.
  - apply susp_stat_statm.
  - by intros [].
  - exists i, thi. cbn. by rewrite lookup_insert_ne by congruence.
  - exists k', l1, l2. split; [done|]. split; [done|]. rewrite (after E), E'.
    split_and!; try done. etrans; [apply frame_enqueue|exact HF].
Qed.

(** ** Waking *)

Lemma frame_resume t th h k : frame k (k_resume t th h k).
Proof. split; try done. intros a. cbn. by rewrite lookup_insert_ne. Qed.

(** A waiting thread leaves its list only. *)
Lemma resume_lists X k t th h q l r :
  sched_but X (k_thr k) (k_tl k) (k_group k) -> waiting q -> k_tl k !! q = Some l -> t ∈ l -> waiting r ->
  k_tl (k_resume t th h k) !! r = if decide (r = q) then Some (lremove t l) else k_tl k !! r.
Proof.
  intros HS Hq Hl Hin Hr. change (lpush_back (LReady (current_priority th)) t (lunlink t (k_tl k)) !! r =
    if decide (r = q) then Some (lremove t l) else k_tl k !! r).
  unfold lpush_back. rewrite lookup_insert_ne by (by destruct r).
  rewrite (lunlink_one _ q l); [|done|].
  - destruct (decide (r = q)) as [->|]; [by rewrite lookup_insert_eq|by rewrite lookup_insert_ne].
  - intros h' l' Hl' Hne Hin'. apply Hne. by eapply (so_disj _ _ _ _ HS).
Qed.

(** [rt_ipc_list_resume] wakes the thread at the head of the list. *)
Lemma ipc_wake_done P lo k q t l th :
  kbut none P lo k -> waiting q -> k_tl k !! q = Some (t :: l) -> k_thr k !! t = Some th -> ~ P (TimerOf t) ->
  exists k', rt_ipc_list_resume q k = Done RT_EOK k' /\ kbut none P lo k' /\ frame k k' /\
    k_thr k' = <[t := ready_stat th]> (k_thr k) /\ k_cur k' = k_cur k /\
    (forall r, waiting r -> k_tl k' !! r = if decide (r = q) then Some l else k_tl k !! r) /\
    (exists h, k' = k_resume t th h k).
Proof.
  intros HK Hq Hl Ht HP. pose proof (kb_sched _ _ _ _ HK) as HS.
  assert (Hin : t ∈ t :: l) by (apply elem_of_cons; by left).
  destruct (so_mem _ _ _ _ HS q _ t Hl Hin) as (_ & _ & th' & Ht' & Hm). rewrite Ht in Ht'. injection Ht' as <-.
  destruct (resume_done P lo k t th HK Ht) as (h & _ & E & HK1); [by destruct q|done|].
  exists (k_resume t th h k). split_and!; try done.
  - unfold rt_ipc_list_resume. rewrite (after (tlist_done _ _ _ Hl)). by rewrite (after E).
  - apply frame_resume.
  - intros r Hr. rewrite (resume_lists none k t th h q (t :: l) r HS Hq Hl Hin Hr).
    by rewrite lremove_head by (by apply (so_nodup _ _ _ _ HS) in Hl).
  - by exists h.
Qed.

(** A woken thread together with the switch that follows. *)
Lemma ipc_wake_schedule P lo k q t l th :
  kbut none P lo k -> waiting q -> k_tl k !! q = Some (t :: l) -> k_thr k !! t = Some th -> ~ P (TimerOf t) ->
  k_cur k <> RT_NULL ->
  exists k1 k', rt_ipc_list_resume q k = Done RT_EOK k1 /\ rt_schedule k1 = Done tt k' /\
    kbut none P lo k' /\ frame k k' /\ (k_lock k = 0 -> exists p, highest (k_tl k') p (k_cur k')) /\
    k_thr k' = <[t := ready_stat th]> (k_thr k) /\
    (forall r, waiting r -> k_tl k' !! r = if decide (r = q) then Some l else k_tl k !! r).
Proof.
  intros HK Hq Hl Ht HP Hc. destruct (ipc_wake_done P lo k q t l th HK Hq Hl Ht HP) as (k1 & E & HK1 & HF & Eth & Ec & Etl & _).
  destruct (schedule_done P lo k1 HK1) as (k' & E' & HR).
  - by rewrite Ec.
  - exists t, (ready_stat th). rewrite Eth, lookup_insert_eq. split; [done|]. apply ready_stat_statm.
  - exists k1, k'. pose proof (frame_resched _ _ HR) as HF'. split_and!; try done.
    + by eapply resched_kbut.
    + by etrans.
    + intros Hlk. eapply resched_highest; [exact HR|]. by rewrite (fr_lock _ _ HF).
    + apply resched_cur in HR as (c & p & ->). done.
    + apply resched_cur in HR as (c & p & ->). done.
Qed.

(** The effect of waking the first of the threads [l], if there is one. *)
Definition woke_first (k k' : kernel) (l : list Z) : Prop :=
  match l with
  | [] => k_thr k' = k_thr k /\ k_cur k' = k_cur k
  | t :: _ => exists th, k_thr k !! t = Some th /\ k_thr k' = <[t := ready_stat th]> (k_thr k) /\
      (k_lock k = 0 -> exists p, highest (k_tl k') p (k_cur k'))
  end.

Lemma wake_first_done k q l :
  kinv k -> waiting q -> k_tl k !! q = Some l -> k_cur k <> RT_NULL ->
  exists k', ipc_wake_first q k = Done tt k' /\ kinv k' /\ frame k k' /\ woke_first k k' l /\
    (forall r, waiting r -> k_tl k' !! r = if decide (r = q) then Some (tail l) else k_tl k !! r).
Proof.
  intros HK Hq Hl Hc. unfold ipc_wake_first. rewrite (after (tlist_done _ _ _ Hl)). destruct l as [|t l].
  - exists k. split_and!; try done. intros r Hr. by destruct (decide (r = q)) as [->|].
  - destruct (so_mem _ _ _ _ (kb_sched _ _ _ _ HK) _ _ t Hl) as (_ & _ & th & Ht & _); [apply elem_of_cons; by left|].
    destruct (ipc_wake_schedule none 0 k q t l th HK Hq Hl Ht (fun f => f) Hc) as (k1 & k' & E1 & E2 & HK' & HF & Hhi & Eth & Etl).
    exists k'. rewrite (after E1), E2. split_and!; try done. by exists th.
Qed.

(** The record of a thread woken because its object goes away. *)
Definition woken_error (th : rt_thread) : rt_thread := ready_stat (set_error (- RT_ERROR) th).

Lemma set_error_kbut X P lo k t th e :
  kbut X P lo k -> k_thr k !! t = Some th -> kbut X P lo (upd_thr (<[t := set_error e th]>) k).
Proof. intros HK Ht. eapply kbut_thr_mod; try done. Qed.

Lemma resume_all_loop_done P lo q l : forall k,
  kbut none P lo k -> waiting q -> k_tl k !! q = Some l -> (forall t, t ∈ l -> ~ P (TimerOf t)) ->
  exists k', resume_all_loop (length l) q k = Done RT_EOK k' /\ kbut none P lo k' /\ frame k k' /\ k_cur k' = k_cur k /\
    (forall r, waiting r -> k_tl k' !! r = if decide (r = q) then Some [] else k_tl k !! r) /\
    (forall t, k_thr k' !! t = if decide (t ∈ l) then woken_error <$> k_thr k !! t else k_thr k !! t).
Proof.
  induction l as [|t l IH]; intros k HK Hq Hl HP.
  { exists k. cbn [length resume_all_loop]. rewrite (after (tlist_done _ _ _ Hl)).
    split_and!; try done. intros r Hr. by destruct (decide (r = q)) as [->|]. }
  pose proof (so_nodup _ _ _ _ (kb_sched _ _ _ _ HK) _ _ Hl) as [Hno _]%NoDup_cons.
  destruct (so_mem _ _ _ _ (kb_sched _ _ _ _ HK) q _ t Hl) as (_ & _ & th & Ht & _); [apply elem_of_cons; by left|].
  cbn [length resume_all_loop]. rewrite (after (tlist_done _ _ _ Hl)).
  rewrite (after (mod_thr_done _ _ _ _ Ht)).
  set (k0 := upd_thr (<[t := set_error (- RT_ERROR) th]>) k).
  assert (HK0 : kbut none P lo k0) by (by apply set_error_kbut).
  destruct (ipc_wake_done P lo k0 q t l (set_error (- RT_ERROR) th) HK0 Hq Hl) as (k1 & E & HK1 & HF & Eth & Ec & Etl & _);
    [by cbn; apply lookup_insert_eq|apply HP, elem_of_cons; by left|].
  unfold rt_ipc_list_resume in E. rewrite (after (tlist_done q k0 (t :: l) Hl)) in E.
  destruct (rt_thread_resume t k0) as [v kx|] eqn:E2; [|unfold bind in E; by rewrite E2 in E].
  rewrite (after E2) in E. injection E as ->. rewrite (after E2).
  destruct (IH k1 HK1 Hq) as (k' & E' & HK' & HF' & Ec' & Etl' & Eth').
  { rewrite Etl by done. by rewrite decide_True. }
  { intros x Hx. apply HP, elem_of_cons. by right. }
  exists k'. split_and!; try done.
  - etrans; [|exact HF']. etrans; [|exact HF]. by split.
  - by rewrite Ec', Ec.
  - intros r Hr. rewrite Etl', Etl by done. by destruct (decide (r = q)).
  - intros x. rewrite Eth', Eth. cbn [k0 upd_thr k_thr]. rewrite insert_insert_eq.
    destruct (decide (x = t)) as [->|Hne].
    + rewrite decide_False, decide_True by set_solver. by rewrite lookup_insert_eq, Ht.
    + rewrite lookup_insert_ne by done. destruct (decide (x ∈ l)), (decide (x ∈ t :: l)); set_solver.
Qed.

Lemma resume_all_done P lo k q l :
  kbut none P lo k -> waiting q -> k_tl k !! q = Some l -> (forall t, t ∈ l -> ~ P (TimerOf t)) ->
  exists k', rt_ipc_list_resume_all q k = Done RT_EOK k' /\ kbut none P lo k' /\ frame k k' /\ k_cur k' = k_cur k /\
    (forall r, waiting r -> k_tl k' !! r = if decide (r = q) then Some [] else k_tl k !! r) /\
    (forall t, k_thr k' !! t = if decide (t ∈ l) then woken_error <$> k_thr k !! t else k_thr k !! t).
Proof.
  intros HK Hq Hl HP. unfold rt_ipc_list_resume_all. rewrite (after (tlist_done _ _ _ Hl)).
  by apply resume_all_loop_done.
Qed.

(** ** What the operations assume *)

(** An IPC object of class [type] at address [a]. *)
Definition ipc_obj (k : kernel) (a type : Z) : Prop :=
  a <> RT_NULL /\ exists h, k_hdr k !! Obj a = Some h /\ class_of h = type /\
    (oflag h = RT_IPC_FLAG_FIFO \/ oflag h = RT_IPC_FLAG_PRIO).

Lemma ipc_check_done k a type : ipc_obj k a type -> ipc_check_arg a type k = Done tt k.
Proof.
  intros (Hnz & h & Hh & Hc & _). unfold ipc_check_arg. destruct (Z.eqb_spec a RT_NULL); [done|]. cbn [negb rt_assert]. mstep.
  eapply assert_type_done; try done. cbn. by destruct (Z.eqb_spec a RT_NULL).
Qed.

Lemma ipc_obj_frame k k' a type : frame k k' -> ipc_obj k a type -> ipc_obj k' a type.
Proof. intros HF (Hnz & h & Hh & ?). split; [done|]. exists h. by rewrite (fr_hdr _ _ HF). Qed.


(** The calling thread [th] runs in thread context with the scheduler unlocked,
    and there is another thread (the idle thread at least) to switch to. *)
Record running (k : kernel) (th : rt_thread) : Prop := Running {
  rn_inv : kinv k;
  rn_thr : k_thr k !! k_cur k = Some th;
  rn_ready : statm th = RT_THREAD_READY;
  rn_lock : k_lock k = 0;
  rn_irq : k_irq k = 0;
  rn_other : exists i thi, k_thr k !! i = Some thi /\ statm thi = RT_THREAD_READY /\ i <> k_cur k
}.

Lemma running_nonnull k th : running k th -> k_cur k <> RT_NULL.
Proof. intros []. by destruct (kb_thr _ _ _ _ rn_inv0 _ _ rn_thr0). Qed.

Lemma running_mod k th th' :
  running k th -> stat th' = stat th -> current_priority th' = current_priority th -> number_mask th' = number_mask th ->
  (stack_ok th -> stack_ok th') -> running (upd_thr (<[k_cur k := th']>) k) th'.
Proof.
  intros [HK Ht Hs Hl Hi (i & thi & Hi' & His & Hne)] E1 E2 E3 E4. split; try done.
  - by eapply kbut_thr_mod.
  - cbn. apply lookup_insert_eq.
  - unfold statm. by rewrite E1.
  - exists i, thi. cbn. by rewrite lookup_insert_ne.
Qed.

Lemma running_error k th e : running k th -> running (upd_thr (<[k_cur k := set_error e th]>) k) (set_error e th).
Proof. intros HR. by apply (running_mod k th). Qed.

Lemma thread_context_done k th : running k th -> in_thread_context k = Done tt k.
Proof.
  intros HR. pose proof (running_nonnull _ _ HR). unfold in_thread_context, not_in_interrupt. mstep.
  destruct (Z.eqb_spec (k_cur k) RT_NULL); [done|]. cbn [negb rt_assert]. do 2 mstep. by rewrite (rn_irq _ _ HR).
Qed.

(** A wait by the running thread, its error number reset first. *)
Lemma running_wait {A} k th q flag l time (rest : K A) :
  running k th -> waiting q -> k_tl k !! q = Some l ->
  flag = RT_IPC_FLAG_FIFO \/ flag = RT_IPC_FLAG_PRIO -> time <= max_off ->
  exists k' l1 l2, l = l1 ++ l2 /\ placed (k_thr k) flag (current_priority th) l1 l2 /\
    (_ <- rt_ipc_list_suspend q (k_cur k) flag;; ipc_wait (k_cur k) time rest) k = Done Blocked k' /\
    kinv k' /\ frame k k' /\ k_thr k' = <[k_cur k := susp_stat th]> (k_thr k) /\
    (forall r, waiting r -> k_tl k' !! r = if decide (r = q) then Some (l1 ++ k_cur k :: l2) else k_tl k !! r) /\
    k_cur k' <> k_cur k /\
    (0 < time -> TimerOf (k_cur k) ∈ k_tmlist k' /\ toff (k_tm k') (k_tick k') (TimerOf (k_cur k)) = time).
Proof.
  intros [HK Ht Hs Hl Hi (i & thi & Hi' & His & Hne)] Hq Hlq Hfl Htm.
  destruct (ipc_wait_done k q th flag l time rest i thi) as (k' & l1 & l2 & El & Hp & E & HK' & HF & Eth & Etl & ?); try done.
  exists k', l1, l2. split; [done|]. split; [done|]. split_and!; try done; [|naive_solver..].
  intros r Hr. rewrite Etl. destruct (decide (r = q)) as [->|]; [by rewrite lookup_insert_eq|].
  rewrite lookup_insert_ne by done. rewrite lunlink_lookup. destruct (k_tl k !! r) as [lr|] eqn:Er; [|done].
  cbn. f_equal. apply lremove_notin. eapply ready_not_waiting; [apply (kb_sched _ _ _ _ HK)|done..].
Qed.

(** ** Changing the priority of a thread *)

(** A thread of another priority, otherwise the same to the kernel. *)
Definition reprio (arg : Z) (th th' : rt_thread) : Prop :=
  current_priority th' = arg /\ statm th' = statm th /\ error th' = error th /\ init_priority th' = init_priority th.

Lemma reprio_done k t th arg :
  kinv k -> k_thr k !! t = Some th -> 0 <= arg < RT_THREAD_PRIORITY_MAX ->
  exists k' th', rt_thread_control t RT_THREAD_CTRL_CHANGE_PRIORITY arg k = Done RT_EOK k' /\
    kinv k' /\ frame k k' /\ k_cur k' = k_cur k /\ k_thr k' = <[t := th']> (k_thr k) /\ reprio arg th th' /\
    (forall r, waiting r -> k_tl k' !! r = k_tl k !! r).
Proof.
  intros HK Ht Ha. destruct (change_priority_done none 0 k t th arg HK Ht Ha) as (k' & E & HK' & Ek).
  exists k'. destruct (Z.eqb_spec (statm th) RT_THREAD_READY) as [Hs|Hs].
  - exists (ready_stat (set_priority arg (2 ^ arg) th)). split_and!; try done; subst k'; try done.
    + cbn. by rewrite insert_insert_eq.
    + split_and!; try done. by rewrite ready_stat_statm.
    + intros r Hr. change (lpush_back (LReady arg) t (lunlink t (k_tl k)) !! r = k_tl k !! r).
      unfold lpush_back. rewrite lookup_insert_ne by (by destruct r). rewrite lunlink_lookup.
      destruct (k_tl k !! r) as [l|] eqn:El; [|done]. cbn. f_equal. apply lremove_notin.
      eapply ready_not_waiting; [apply (kb_sched _ _ _ _ HK)|done..].
  - exists (set_priority arg (2 ^ arg) th). split_and!; try done; by subst k'.
Qed.

Lemma running_upd k k' th th' :
  running k th -> kinv k' -> k_cur k' = k_cur k -> frame k k' -> k_thr k' !! k_cur k = Some th' -> statm th' = statm th ->
  (forall x thx, x <> k_cur k -> k_thr k !! x = Some thx -> exists thx', k_thr k' !! x = Some thx' /\ statm thx' = statm thx) ->
  running k' th'.
Proof.
  intros [HK Ht Hs Hl Hi (i & thi & Hi' & His & Hne)] HK' Hc HF Ht' Hs' Hx. split; try done.
  - by rewrite Hc.
  - by rewrite Hs'.
  - by rewrite (fr_lock _ _ HF).
  - by rewrite (fr_irq _ _ HF).
  - destruct (Hx i thi Hne Hi') as (thi' & ? & E). exists i, thi'. by rewrite Hc, E.
Qed.

(** Changing a priority keeps the caller running. *)
Lemma running_reprio k k' th t oth oth' arg :
  running k th -> k_thr k !! t = Some oth -> reprio arg oth oth' ->
  kinv k' -> frame k k' -> k_cur k' = k_cur k -> k_thr k' = <[t := oth']> (k_thr k) ->
  running k' (if decide (t = k_cur k) then oth' else th).
Proof.
  intros HR Ho (_ & Es & _) HK' HF Hc Eth. eapply running_upd; [exact HR|done|done|done|..].
  - rewrite Eth. destruct (decide (t = k_cur k)) as [->|]; [apply lookup_insert_eq|]. rewrite lookup_insert_ne by done. apply HR.
  - destruct (decide (t = k_cur k)) as [->|]; [|done]. rewrite (rn_thr _ _ HR) in Ho. by injection Ho as ->.
  - intros x thx Hne Hx. rewrite Eth. destruct (decide (x = t)) as [->|].
    + rewrite Ho in Hx. injection Hx as <-. exists oth'. by rewrite lookup_insert_eq.
    + exists thx. by rewrite lookup_insert_ne.
Qed.

(** The order of a waiting list depends on the priorities of its threads only. *)
Lemma placed_ext T T' flag cp l1 l2 :
  (forall x, x ∈ l1 ++ l2 -> current_priority <$> T' !! x = current_priority <$> T !! x) ->
  placed T flag cp l1 l2 -> placed T' flag cp l1 l2.
Proof.
  intros HT [H1 H2]. split; [done|]. intros Hf. destruct (H2 Hf) as [Ha Hb]. split.
  - intros x th Hx Hth. specialize (HT x). rewrite Hth in HT. destruct (T !! x) as [th0|] eqn:E; [|set_solver].
    assert (current_priority th = current_priority th0) as -> by (cbn in HT; set_solver). eauto.
  - intros x l th -> Hth. specialize (HT x). rewrite Hth in HT. destruct (T !! x) as [th0|] eqn:E; [|set_solver].
    assert (current_priority th = current_priority th0) as -> by (cbn in HT; set_solver). eauto.
Qed.

(** ** Waiting loops *)

(** A wait as the loops of mailboxes, queues and pools do it: the error number
    is reset, the thread queued, and the start of the wait noted. *)
Definition loop_wait {A} (a t timeout : Z) (q : lhead) (rest : Z -> K A) : K (outcome A) :=
  in_thread_context;;;
  h <- hdr (Obj a);;
  _ <- rt_ipc_list_suspend q t (oflag h);;
  start <- gets k_tick;;
  ipc_wait t timeout (rest start).

(** What becomes of the caller, the threads and the timers. *)
Definition waits (k k' : kernel) (th : rt_thread) (timeout : Z) : Prop :=
  k_cur k' <> k_cur k /\ k_thr k' = <[k_cur k := susp_stat (set_error RT_EOK th)]> (k_thr k) /\
  (0 < timeout -> TimerOf (k_cur k) ∈ k_tmlist k' /\ toff (k_tm k') (k_tick k') (TimerOf (k_cur k)) = timeout).

Lemma loop_wait_done {A} k th a type q l timeout (rest : Z -> K A) h :
  running k th -> ipc_obj k a type -> k_hdr k !! Obj a = Some h -> waiting q -> k_tl k !! q = Some l -> timeout <= max_off ->
  let k1 := upd_thr (<[k_cur k := set_error RT_EOK th]>) k in
  exists k' l1 l2, loop_wait a (k_cur k) timeout q rest k1 = Done Blocked k' /\ kinv k' /\ frame k k' /\
    l = l1 ++ l2 /\ placed (k_thr k) (oflag h) (current_priority th) l1 l2 /\ waits k k' th timeout /\
    (forall r, waiting r -> k_tl k' !! r = if decide (r = q) then Some (l1 ++ k_cur k :: l2) else k_tl k !! r).
Proof.
  intros HR Ho Hh Hq Hl Htm k1. pose proof (running_error k th RT_EOK HR) as HR1. fold k1 in HR1.
  assert (Hfl : oflag h = RT_IPC_FLAG_FIFO \/ oflag h = RT_IPC_FLAG_PRIO).
  { destruct Ho as (_ & h' & Hh' & _ & Hf). congruence. }
  destruct (running_wait k1 _ q (oflag h) l timeout (rest (k_tick k)) HR1 Hq Hl Hfl Htm)
    as (k' & l1 & l2 & El & Hp & E & HK' & HF & Eth & Etl & Hc & Htime).
  destruct (ipc_suspend_done none 0 k1 q (k_cur k) _ (oflag h) l (rn_inv _ _ HR1) (rn_thr _ _ HR1) (rn_ready _ _ HR1) (fun f => f) Hq Hl Hfl)
    as (hs & m1 & m2 & _ & _ & Es & _).
  assert (Hno : k_cur k ∉ l) by (eapply ready_not_waiting; [apply (kb_sched _ _ _ _ (rn_inv _ _ HR))|apply HR|apply HR|exact Hq|exact Hl]).
  exists k', l1, l2. split.
  { unfold loop_wait. rewrite (after (thread_context_done _ _ HR1)), (after (hdr_done _ k1 _ Hh)).
    rewrite <- E. change (k_cur k1) with (k_cur k). rewrite !(after Es). by mstep. }
  split; [done|]. split; [etrans; [|exact HF]; by split|]. split; [done|]. split; [|split; [|done]].
  - eapply placed_ext; [|exact Hp]. intros x Hx. cbn. rewrite lookup_insert_ne; [done|]. intros <-. by rewrite El in Hno.
  - split; [done|]. split; [|done]. rewrite Eth. cbn. by rewrite insert_insert_eq.
Qed.
