(* ===== verification/Sem.v ===== *)
(** * Semaphores (src/ipc.c, lines 211-526)

    [sem_at k a v l] is the contract of a semaphore: at address [a] there is a
    semaphore object of value [v] on which the threads [l] wait, in this order,
    and nobody waits while the value is positive.  The theorems show that every
    operation takes the semaphore from one such state to the next the way a
    counting semaphore does. *)

From S2P Require Import Prelude RtList Exec KService Mem Kernel Object Scheduler Timer Thread Ipc.

(** ** Operations *)

Definition sem (a : Z) : K rt_semaphore := deref (fun k => k_sem k !! a).
Definition set_sem (a v : Z) : K unit := modify (upd_sem (<[a := Semaphore v]>)).

Definition rt_sem_init (a : Z) (name : list Z) (value flag : Z) : K Z :=
  rt_assert (negb (a =? RT_NULL));;;
  rt_object_init (Obj a) RT_Object_Class_Semaphore name;;;
  rt_ipc_object_init (LSuspend a);;;
  set_sem a (u16 value);;;
  set_flag (Obj a) (fun _ => u8 flag);;;
  ret RT_EOK.

Definition rt_sem_detach (a : Z) : K Z :=
  ipc_check_arg a RT_Object_Class_Semaphore;;;
  s <- rt_object_is_systemobject (Obj a);; rt_assert s;;;
  rt_ipc_list_resume_all (LSuspend a);;;
  rt_object_detach (Obj a);;;
  ret RT_EOK.

Definition rt_sem_create (name : list Z) (value flag : Z) : K Z :=
  not_in_interrupt;;;
  a <- rt_object_allocate RT_Object_Class_Semaphore name;;
  if a =? RT_NULL then ret a
  else
    rt_ipc_object_init (LSuspend a);;;
    set_sem a (u16 value);;;
    set_flag (Obj a) (fun _ => u8 flag);;;
    ret a.

Definition rt_sem_delete (a : Z) : K Z :=
  not_in_interrupt;;;
  ipc_check_arg a RT_Object_Class_Semaphore;;;
  s <- rt_object_is_systemobject (Obj a);; rt_assert (negb s);;;
  rt_ipc_list_resume_all (LSuspend a);;;
  rt_object_delete a;;;
  ret RT_EOK.

(** [if (thread->error != RT_EOK) return thread->error;] and what follows. *)
Definition rt_sem_take_resumed (t : Z) : K Z :=
  th <- thr t;; if negb (error th =? RT_EOK) then ret (error th) else ret RT_EOK.

Definition rt_sem_take (a time : Z) : K (outcome Z) :=
  ipc_check_arg a RT_Object_Class_Semaphore;;;
  s <- sem a;;
  if 0 <? sem_value s then set_sem a (sem_value s - 1);;; ret (Returned RT_EOK)
  else if time =? 0 then ret (Returned (- RT_ETIMEOUT))
  else
    in_thread_context;;;
    t <- rt_thread_self;;
    mod_thr t (set_error RT_EOK);;;
    h <- hdr (Obj a);;
    _ <- rt_ipc_list_suspend (LSuspend a) t (oflag h);;
    ipc_wait t time (rt_sem_take_resumed t).

Definition rt_sem_trytake (a : Z) : K (outcome Z) := rt_sem_take a 0.

Definition rt_sem_release (a : Z) : K Z :=
  ipc_check_arg a RT_Object_Class_Semaphore;;;
  l <- tlist (LSuspend a);;
  need_schedule <- match l with
    | [] => s <- sem a;; set_sem a (u16 (sem_value s + 1));;; ret false
    | _ => rt_ipc_list_resume (LSuspend a);;; ret true
    end;;
  when need_schedule rt_schedule;;;
  ret RT_EOK.

Definition rt_sem_control (a cmd arg : Z) : K Z :=
  ipc_check_arg a RT_Object_Class_Semaphore;;;
  if cmd =? RT_IPC_CMD_RESET then
    rt_ipc_list_resume_all (LSuspend a);;;
    set_sem a (u16 arg);;;
    rt_schedule;;;
    ret RT_EOK
  else ret (- RT_ERROR).

(** ** The contract *)

Record sem_at (k : kernel) (a v : Z) (l : list Z) : Prop := SemAt {
  sa_obj : ipc_obj k a RT_Object_Class_Semaphore;
  sa_val : k_sem k !! a = Some (Semaphore v);
  sa_wait : k_tl k !! LSuspend a = Some l;
  sa_range : 0 <= v < 2 ^ 16;
  sa_excl : 0 < v -> l = []
}.

Lemma sem_done k a s : k_sem k !! a = Some s -> sem a k = Done s k.
Proof. intros. unfold sem. by apply deref_some. Qed.

(** Changing the value of a semaphore touches nothing else. *)
Lemma kbut_set_sem X P lo k a s : kbut X P lo k -> kbut X P lo (upd_sem (<[a := s]>) k).
Proof. intros HK. by eapply kbut_frame. Qed.

(** The semaphore after a wait or a wake-up. *)
Lemma sem_at_frame k k' a v l l' :
  frame k k' -> sem_at k a v l -> k_tl k' !! LSuspend a = Some l' -> (0 < v -> l' = []) -> sem_at k' a v l'.
Proof.
  intros HF [Ho Hv _ Hr _] Hl Hx. split; try done; [by eapply ipc_obj_frame|by rewrite (fr_sem _ _ HF)].
Qed.

(** What a counting semaphore does on a take: [r] is the outcome, [v'] and [l']
    the new value and the new waiting threads. *)
Inductive sem_take_spec (T : gmap Z rt_thread) (flag cp t v : Z) (l : list Z) (time : Z) :
    outcome Z -> Z -> list Z -> Prop :=
| TakeNow : 0 < v -> sem_take_spec T flag cp t v l time (Returned RT_EOK) (v - 1) l
| TakeFail : v = 0 -> time = 0 -> sem_take_spec T flag cp t v l time (Returned (- RT_ETIMEOUT)) v l
| TakeWait l1 l2 : v = 0 -> time <> 0 -> l = l1 ++ l2 -> placed T flag cp l1 l2 ->
    sem_take_spec T flag cp t v l time Blocked v (l1 ++ t :: l2).

Lemma sem_take_done k th a v l time h :
  running k th -> sem_at k a v l -> k_hdr k !! Obj a = Some h -> time <= max_off ->
  exists r k' v' l', rt_sem_take a time k = Done r k' /\ kinv k' /\ sem_at k' a v' l' /\
    sem_take_spec (k_thr k) (oflag h) (current_priority th) (k_cur k) v l time r v' l' /\
    match r with
    | Returned _ => k_thr k' = k_thr k /\ k_cur k' = k_cur k
    | Blocked => k_thr k' = <[k_cur k := susp_stat (set_error RT_EOK th)]> (k_thr k) /\ k_cur k' <> k_cur k /\
        (0 < time -> TimerOf (k_cur k) ∈ k_tmlist k' /\ toff (k_tm k') (k_tick k') (TimerOf (k_cur k)) = time)
    end.
Proof.
  intros HR HA Hh Htm. pose proof HA as [Ho Hv Hl Hrg Hx]. pose proof (rn_inv _ _ HR) as HK.
  unfold rt_sem_take. rewrite (after (ipc_check_done _ _ _ Ho)).
  rewrite (after (sem_done _ _ _ Hv)). cbn [sem_value].
  destruct (Z.ltb_spec 0 v); [|destruct (Z.eqb_spec time 0) as [Et|Et]].
  - eexists _, _, (v - 1), l. split; [done|]. split; [by apply kbut_set_sem|]. split; [|by split; [apply TakeNow|]].
    split; [done|cbn; apply lookup_insert_eq|done|lia|auto].
  - eexists _, _, v, l. split; [done|]. split; [done|]. split; [done|]. split; [apply TakeFail; lia|done].
  - rewrite (after (thread_context_done _ _ HR)). unfold rt_thread_self. mstep.
    rewrite (after (mod_thr_done _ _ _ _ (rn_thr _ _ HR))).
    pose proof (running_error k th RT_EOK HR) as HR1. set (k1 := upd_thr _ k) in *.
    rewrite (after (hdr_done (Obj a) k1 h Hh)).
    destruct (running_wait k1 (set_error RT_EOK th) (LSuspend a) (oflag h) l time (rt_sem_take_resumed (k_cur k)))
      as (k' & l1 & l2 & El & Hp & E & HK' & HF & Eth & Etl & Hc & Htime); try done.
    { destruct Ho as (_ & h' & Hh' & _ & Hf). congruence. }
    change (k_cur k1) with (k_cur k) in *. rewrite E. exists Blocked, k', v, (l1 ++ k_cur k :: l2).
    assert (Hold : forall x, x ∈ l -> k_thr k1 !! x = k_thr k !! x).
    { intros x Hin. cbn. rewrite lookup_insert_ne; [done|]. intros <-.
      eapply (ready_not_waiting _ _ _ _ _ _ (LSuspend a)); [apply HK|apply HR|apply HR|done|exact Hl|exact Hin]. }
    split; [done|]. split; [done|]. split; [|split; [|split_and!; try done]].
    + apply (sem_at_frame k1 k' a v l); [done|by split|by rewrite Etl, decide_True|lia].
    + apply TakeWait; [lia|done|done|]. destruct Hp as [Hp1 Hp2]. split; [done|]. intros Hf. destruct (Hp2 Hf) as [H1 H2].
      split; [intros x thx Hin|intros x l' thx ->]; rewrite <- Hold by (rewrite El; set_solver); eauto.
    + rewrite Eth. cbn. by rewrite insert_insert_eq.
Qed.

(** What it does on a release: the first waiting thread gets the semaphore,
    without the value ever showing it, or else the 16-bit value goes up. *)
Inductive sem_release_spec (v : Z) : list Z -> option Z -> Z -> list Z -> Prop :=
| ReleaseFree : sem_release_spec v [] None (u16 (v + 1)) []
| ReleaseWake t l : sem_release_spec v (t :: l) (Some t) v l.

Lemma sem_release_done k a v l :
  kinv k -> k_cur k <> RT_NULL -> sem_at k a v l ->
  exists w k' v' l', rt_sem_release a k = Done RT_EOK k' /\ kinv k' /\ sem_at k' a v' l' /\
    sem_release_spec v l w v' l' /\
    match w with
    | None => k_thr k' = k_thr k /\ k_cur k' = k_cur k
    | Some t => exists th, k_thr k !! t = Some th /\ k_thr k' = <[t := ready_stat th]> (k_thr k) /\
        (k_lock k = 0 -> exists p, highest (k_tl k') p (k_cur k'))
    end.
Proof.
  intros HK Hc HA. pose proof HA as [Ho Hv Hl Hrg Hx].
  unfold rt_sem_release. rewrite (after (ipc_check_done _ _ _ Ho)).
  rewrite (after (tlist_done _ _ _ Hl)). destruct l as [|t l].
  - rewrite bind_assoc, (after (sem_done _ _ _ Hv)). unfold set_sem. repeat mstep. cbn [when sem_value].
    eexists None, _, (u16 (v + 1)), []. split; [done|]. split; [by apply kbut_set_sem|]. split; [|by split; [constructor|]].
    split; [done|cbn; apply lookup_insert_eq|done|apply Z.mod_pos_bound; lia|done].
  - destruct (so_mem _ _ _ _ (kb_sched _ _ _ _ HK) _ _ t Hl) as (_ & _ & th & Ht & _); [apply elem_of_cons; by left|].
    destruct (ipc_wake_schedule none 0 k (LSuspend a) t l th HK) as (k1 & k' & E1 & E2 & HK' & HF & Hhi & Eth & Etl); try done.
    { by intros []. }
    rewrite bind_assoc, (after E1). mstep. cbn [when]. rewrite (after E2).
    eexists (Some t), k', v, l. split; [done|]. split; [done|]. split; [|split; [constructor|]].
    + apply (sem_at_frame k k' a v (t :: l)); [done|done|by rewrite Etl, decide_True|]. by intros ?%Hx.
    + by exists th.
Qed.

(** C10: [rt_sem_take] by the running thread behaves as a counting semaphore: with
    a positive value it takes one unit at once; with none and no waiting time it
    reports a timeout and changes nothing; otherwise the thread is suspended,
    queued behind the threads the flag of the semaphore puts before it, its
    timer armed for exactly the waiting time, and another thread runs. *)
Theorem rt_sem_take_correct k th a v l time h :
  running k th -> sem_at k a v l -> k_hdr k !! Obj a = Some h -> time <= max_off ->
  exists r k' v' l', rt_sem_take a time k = Done r k' /\ kinv k' /\ sem_at k' a v' l' /\
    sem_take_spec (k_thr k) (oflag h) (current_priority th) (k_cur k) v l time r v' l' /\
    match r with
    | Returned _ => k_thr k' = k_thr k /\ k_cur k' = k_cur k
    | Blocked => k_thr k' = <[k_cur k := susp_stat (set_error RT_EOK th)]> (k_thr k) /\ k_cur k' <> k_cur k /\
        (0 < time -> TimerOf (k_cur k) ∈ k_tmlist k' /\ toff (k_tm k') (k_tick k') (TimerOf (k_cur k)) = time)
    end.
Proof. apply sem_take_done. Qed.

(** [rt_sem_release] hands the semaphore to the first waiting thread, which
    becomes READY while the highest ready priority gets the processor, and counts
    up, modulo 2^16, when nobody waits. *)
Theorem rt_sem_release_correct k a v l :
  kinv k -> k_cur k <> RT_NULL -> sem_at k a v l ->
  exists w k' v' l', rt_sem_release a k = Done RT_EOK k' /\ kinv k' /\ sem_at k' a v' l' /\
    sem_release_spec v l w v' l' /\
    match w with
    | None => k_thr k' = k_thr k /\ k_cur k' = k_cur k
    | Some t => exists th, k_thr k !! t = Some th /\ k_thr k' = <[t := ready_stat th]> (k_thr k) /\
        (k_lock k = 0 -> exists p, highest (k_tl k') p (k_cur k'))
    end.
Proof. apply sem_release_done. Qed.

(** [rt_sem_detach] of a static semaphore wakes every waiting thread with the
    error -RT_ERROR, so that no thread waits for ever on an object that is gone,
    and takes the semaphore out of its container; nothing else changes. *)
Theorem rt_sem_detach_wakes k a v l h :
  kinv k -> sem_at k a v l -> k_hdr k !! Obj a = Some h -> is_static h = true ->
  exists k', rt_sem_detach a k = Done RT_EOK k' /\ kinv k' /\
    k_tl k' !! LSuspend a = Some [] /\ contained (Obj a) (k_cont k') = false /\
    (forall t, t ∈ l -> exists th, k_thr k !! t = Some th /\ k_thr k' !! t = Some (woken_error th)) /\
    (forall t, t ∉ l -> k_thr k' !! t = k_thr k !! t).
Proof.
  intros HK [Ho _ Hl _ _] Hh Hst. pose proof Ho as (Hnz & h' & Hh' & Hc & _). rewrite Hh in Hh'. injection Hh' as <-.
  assert (Hn : is_null (Obj a) = false) by (cbn; by destruct (Z.eqb_spec a RT_NULL)).
  destruct (resume_all_done none 0 k (LSuspend a) l HK I Hl) as (k1 & E & HK1 & HF & _ & Etl & Eth).
  { by intros ? ? []. }
  assert (Hh1 : k_hdr k1 !! Obj a = Some h) by (by rewrite (fr_hdr _ _ HF)).
  eexists. unfold rt_sem_detach. rewrite (after (ipc_check_done _ _ _ Ho)).
  rewrite (after (is_systemobject_done _ _ _ Hn Hh)), Hst. cbn [rt_assert]. mstep.
  rewrite (after E), (after (rt_object_detach_done _ _ _ Hn Hh1)). split; [done|].
  split_and!.
  - apply kbut_odetach; [done|done|by rewrite Hc].
  - cbn. by rewrite Etl, decide_True.
  - apply contained_false. intros c lc. cbn. unfold lunlink. rewrite lookup_fmap.
    intros (l0 & _ & ->)%fmap_Some. by intros [? ?]%elem_of_lremove.
  - intros t Ht. cbn. rewrite Eth, decide_True by done.
    destruct (so_mem _ _ _ _ (kb_sched _ _ _ _ HK) _ _ t Hl Ht) as (_ & _ & th & Hth & _). exists th. by rewrite Hth.
  - intros t Ht. cbn. by rewrite Eth, decide_False.
Qed.

(** ** Conservation *)

(** Anything else the kernel does leaves a semaphore's value alone and brings no
    new waiting thread. *)
Definition sem_quiet (a : Z) (k k' : kernel) : Prop :=
  kinv k' /\ k_cur k' <> RT_NULL /\
  (forall v l, sem_at k a v l -> exists l', sem_at k' a v l' /\ l' ⊆ l).

(** An execution as seen by the semaphore [a]: takes by whichever thread is
    running, releases, and other activity in between.  [rel] counts the calls of
    [rt_sem_release], [acq] the threads that got the semaphore, by a take that
    returned RT_EOK or by a release that woke them. *)
Inductive sem_trace (a : Z) : kernel -> Z -> Z -> kernel -> Prop :=
| TraceNil k : sem_trace a k 0 0 k
| TraceTake k th time r k1 rel acq k' :
    running k th -> time <= max_off -> rt_sem_take a time k = Done r k1 -> sem_trace a k1 rel acq k' ->
    sem_trace a k rel (match r with Returned e => if e =? RT_EOK then acq + 1 else acq | Blocked => acq end) k'
| TraceRelease k l e k1 rel acq k' :
    k_cur k <> RT_NULL -> k_tl k !! LSuspend a = Some l -> rt_sem_release a k = Done e k1 -> sem_trace a k1 rel acq k' ->
    sem_trace a k (rel + 1) (match l with [] => acq | _ => acq + 1 end) k'
| TraceOther k k1 rel acq k' :
    sem_quiet a k k1 -> sem_trace a k1 rel acq k' -> sem_trace a k rel acq k'.

Lemma sem_trace_pos a k rel acq k' : sem_trace a k rel acq k' -> 0 <= rel /\ 0 <= acq.
Proof. induction 1 as [|? ? ? r| ? l| ]; try lia; [destruct r as [e|]; [destruct (e =? RT_EOK)|]; lia|destruct l; lia]. Qed.

