(* ===== verification/Mutex.v ===== *)
(** * Mutexes with priority inheritance (src/ipc.c, lines 541-911)

    A mutex is free or held by one thread a number of times ([mstate]);
    [mutex_at k a m l] says that the object at [a] is in state [m] and that the
    threads [l] wait for it.  The theorems give every branch of
    [rt_mutex_take] and [rt_mutex_release], hand-over and priority restoration
    included, and show that with RT_IPC_FLAG_PRIO the owner always runs at
    least at the priority of the threads that wait ([inherits]). *)

From Stdlib Require Import Sorting.Sorted.
From S2P Require Import Prelude RtList Exec KService Mem Kernel Object Scheduler Timer Thread Ipc.

(** ** Operations *)

Definition mtx (a : Z) : K rt_mutex := deref (fun k => k_mtx k !! a).
Definition set_mtx (a : Z) (m : rt_mutex) : K unit := modify (upd_mtx (<[a := m]>)).

Definition mutex_reset (a flag : Z) : K unit :=
  rt_ipc_object_init (LSuspend a);;;
  set_mtx a (Mutex 1 0xff 0 RT_NULL);;;
  set_flag (Obj a) (fun _ => u8 flag).

Definition rt_mutex_init (a : Z) (name : list Z) (flag : Z) : K Z :=
  rt_assert (negb (a =? RT_NULL));;;
  rt_object_init (Obj a) RT_Object_Class_Mutex name;;;
  mutex_reset a flag;;;
  ret RT_EOK.

Definition rt_mutex_detach (a : Z) : K Z :=
  ipc_check_arg a RT_Object_Class_Mutex;;;
  s <- rt_object_is_systemobject (Obj a);; rt_assert s;;;
  rt_ipc_list_resume_all (LSuspend a);;;
  rt_object_detach (Obj a);;;
  ret RT_EOK.

Definition rt_mutex_create (name : list Z) (flag : Z) : K Z :=
  not_in_interrupt;;;
  a <- rt_object_allocate RT_Object_Class_Mutex name;;
  if a =? RT_NULL then ret a else mutex_reset a flag;;; ret a.

Definition rt_mutex_delete (a : Z) : K Z :=
  not_in_interrupt;;;
  ipc_check_arg a RT_Object_Class_Mutex;;;
  s <- rt_object_is_systemobject (Obj a);; rt_assert (negb s);;;
  rt_ipc_list_resume_all (LSuspend a);;;
  rt_object_delete a;;;
  ret RT_EOK.

(** The code behind [rt_schedule]: [None] is [goto __again]. *)
Definition rt_mutex_take_resumed (t : Z) : K (option Z) :=
  th <- thr t;;
  if negb (error th =? RT_EOK) then
    if error th =? - RT_EINTR then ret None else ret (Some (error th))
  else ret (Some RT_EOK).

(** From the label [__again] on. *)
Definition mutex_again (a t time : Z) : K (outcome (option Z)) :=
  m <- mtx a;;
  if 0 <? mtx_value m then
    th <- thr t;;
    set_mtx a (Mutex (mtx_value m - 1) (current_priority th) (u8 (hold m + 1)) t);;;
    ret (Returned (Some RT_EOK))
  else if time =? 0 then
    mod_thr t (set_error (- RT_ETIMEOUT));;;
    ret (Returned (Some (- RT_ETIMEOUT)))
  else
    th <- thr t;; oth <- thr (owner m);;
    when (current_priority th <? current_priority oth)
      (_ <- rt_thread_control (owner m) RT_THREAD_CTRL_CHANGE_PRIORITY (current_priority th);; ret tt);;;
    h <- hdr (Obj a);;
    _ <- rt_ipc_list_suspend (LSuspend a) t (oflag h);;
    ipc_wait t time (rt_mutex_take_resumed t).

Definition rt_mutex_take (a time : Z) : K (outcome (option Z)) :=
  in_thread_context;;;
  ipc_check_arg a RT_Object_Class_Mutex;;;
  t <- rt_thread_self;;
  mod_thr t (set_error RT_EOK);;;
  m <- mtx a;;
  if owner m =? t then
    set_mtx a (Mutex (mtx_value m) (original_priority m) (u8 (hold m + 1)) (owner m));;;
    ret (Returned (Some RT_EOK))
  else mutex_again a t time.

(** The last release: hand over to the first waiting thread, or free. *)
Definition release_tail (a : Z) (m : rt_mutex) (hold' : Z) : K bool :=
  l <- tlist (LSuspend a);;
  match l with
  | w :: _ =>
      wth <- thr w;;
      set_mtx a (Mutex (mtx_value m) (current_priority wth) (u8 (hold' + 1)) w);;;
      _ <- rt_ipc_list_resume (LSuspend a);;
      ret true
  | [] =>
      set_mtx a (Mutex (u16 (mtx_value m + 1)) 0xff hold' RT_NULL);;;
      ret false
  end.

Definition rt_mutex_release (a : Z) : K Z :=
  ipc_check_arg a RT_Object_Class_Mutex;;;
  in_thread_context;;;
  t <- rt_thread_self;;
  m <- mtx a;;
  if negb (t =? owner m) then mod_thr t (set_error (- RT_ERROR));;; ret (- RT_ERROR)
  else
    let hold' := u8 (hold m - 1) in
    set_mtx a (Mutex (mtx_value m) (original_priority m) hold' (owner m));;;
    need_schedule <-
      (if hold' =? 0 then
         oth <- thr (owner m);;
         when (negb (original_priority m =? current_priority oth))
           (_ <- rt_thread_control (owner m) RT_THREAD_CTRL_CHANGE_PRIORITY (original_priority m);; ret tt);;;
         release_tail a m hold'
       else ret false);;
    when need_schedule rt_schedule;;;
    ret RT_EOK.

Definition rt_mutex_control (a cmd arg : Z) : K Z :=
  ipc_check_arg a RT_Object_Class_Mutex;;; ret (- RT_ERROR).

(** ** The contract *)

(** Free, or held [n] times by [t], whose own priority is [orig]. *)
Inductive mstate := MFree | MHeld (t n orig : Z).

Definition mutex_rep (m : mstate) : rt_mutex :=
  match m with
  | MFree => Mutex 1 0xff 0 RT_NULL
  | MHeld t n orig => Mutex 0 orig n t
  end.

Record mutex_at (k : kernel) (a : Z) (m : mstate) (l : list Z) : Prop := MutexAt {
  ma_obj : ipc_obj k a RT_Object_Class_Mutex;
  ma_val : k_mtx k !! a = Some (mutex_rep m);
  ma_wait : k_tl k !! LSuspend a = Some l;
  ma_state : match m with
    | MFree => l = []
    | MHeld t n orig => 1 <= n <= 255 /\ 0 <= orig < RT_THREAD_PRIORITY_MAX /\ t ∉ l /\
        exists th, k_thr k !! t = Some th
    end
}.

Lemma mtx_done k a m : k_mtx k !! a = Some m -> mtx a k = Done m k.
Proof. intros. unfold mtx. by apply deref_some. Qed.

Lemma kbut_set_mtx X P lo k a m : kbut X P lo k -> kbut X P lo (upd_mtx (<[a := m]>) k).
Proof. intros HK. by eapply kbut_frame. Qed.

Lemma mutex_at_frame k k' a m l l' :
  frame k k' -> mutex_at k a m l -> k_tl k' !! LSuspend a = Some l' ->
  (match m with MFree => l' = [] | MHeld t _ _ => t ∉ l' /\ is_Some (k_thr k' !! t) end) -> mutex_at k' a m l'.
Proof.
  intros HF [Ho Hv _ Hs] Hl Hm. split; try done; [by eapply ipc_obj_frame|by rewrite (fr_mtx _ _ HF)|].
  destruct m; [done|]. destruct Hs as (? & ? & _). by destruct Hm as (? & ?).
Qed.

(** The owner is lifted to priority [cp] if that is higher than its own. *)
Lemma inherit_done k th o oth :
  running k th -> k_thr k !! o = Some oth -> o <> k_cur k ->
  exists k' oth', when (current_priority th <? current_priority oth)
      (_ <- rt_thread_control o RT_THREAD_CTRL_CHANGE_PRIORITY (current_priority th);; ret tt) k = Done tt k' /\
    running k' th /\ frame k k' /\ k_cur k' = k_cur k /\ k_thr k' = <[o := oth']> (k_thr k) /\
    reprio (Z.min (current_priority th) (current_priority oth)) oth oth' /\
    (forall r, waiting r -> k_tl k' !! r = k_tl k !! r).
Proof.
  intros HR Ho Hne. destruct (Z.ltb_spec (current_priority th) (current_priority oth)); cbn [when].
  - destruct (reprio_done k o oth (current_priority th) (rn_inv _ _ HR) Ho) as (k' & oth' & E & HK' & HF & Hc & Eth & Hrp & Hw).
    { apply (so_prio _ _ _ _ (kb_sched _ _ _ _ (rn_inv _ _ HR)) _ _ (rn_thr _ _ HR)). }
    exists k', oth'. rewrite (after E), Z.min_l by lia. split_and!; try done.
    pose proof (running_reprio k k' th o oth oth' _ HR Ho Hrp HK' HF Hc Eth) as HR'. by rewrite decide_False in HR'.
  - exists k, oth. rewrite Z.min_r by lia. split_and!; try done. by rewrite insert_id.
Qed.

Lemma mutex_wait_done k th a o n orig l time h oth :
  running k th -> mutex_at k a (MHeld o n orig) l -> o <> k_cur k -> time <> 0 -> time <= max_off ->
  k_hdr k !! Obj a = Some h -> k_thr k !! o = Some oth ->
  exists k' oth' l1 l2, mutex_again a (k_cur k) time k = Done Blocked k' /\ kinv k' /\
    mutex_at k' a (MHeld o n orig) (l1 ++ k_cur k :: l2) /\ l = l1 ++ l2 /\ frame k k' /\
    placed (<[o := oth']> (k_thr k)) (oflag h) (current_priority th) l1 l2 /\
    k_thr k' = <[k_cur k := susp_stat th]> (<[o := oth']> (k_thr k)) /\
    reprio (Z.min (current_priority th) (current_priority oth)) oth oth' /\ k_cur k' <> k_cur k /\
    (0 < time -> TimerOf (k_cur k) ∈ k_tmlist k' /\ toff (k_tm k') (k_tick k') (TimerOf (k_cur k)) = time).
Proof.
  intros HR HA Hne Ht0 Htm Hh Ho. pose proof HA as [Hob Hv Hl (Hn & Hor & Hno & _)].
  destruct (inherit_done k th o oth HR Ho Hne) as (k1 & oth' & E1 & HR1 & HF1 & Hc1 & Eth1 & Hrp & Hw1).
  assert (Hh1 : k_hdr k1 !! Obj a = Some h) by (by rewrite (fr_hdr _ _ HF1)).
  destruct (running_wait k1 th (LSuspend a) (oflag h) l time (rt_mutex_take_resumed (k_cur k1)) HR1)
    as (k' & l1 & l2 & El & Hp & E & HK' & HF & Eth & Etl & Hc & Htime); try done.
  { by rewrite Hw1. }
  { destruct Hob as (_ & h' & Hh' & _ & Hf). congruence. }
  rewrite Hc1 in *. exists k', oth', l1, l2. split.
  { unfold mutex_again. rewrite (after (mtx_done _ _ _ Hv)). cbn [mutex_rep mtx_value owner].
    change (0 <? 0) with false. cbn iota. destruct (Z.eqb_spec time 0); [done|].
    rewrite (after (thr_done _ _ _ (rn_thr _ _ HR))), (after (thr_done _ _ _ Ho)).
    rewrite (after E1), (after (hdr_done _ _ _ Hh1)). exact E. }
  assert (HF2 : frame k k') by (by etrans).
  rewrite Eth1 in *. split; [done|]. split; [|by split_and!; try done; destruct Hp].
  apply (mutex_at_frame k k' a _ l); [by etrans|done|by rewrite Etl, decide_True|].
  split; [rewrite El in Hno; set_solver|]. rewrite Eth, lookup_insert_ne by done. rewrite lookup_insert_eq. eauto.
Qed.

(** What a recursive mutex does on a take by thread [t] of priority [cp]. *)
Inductive mutex_take_spec (cp t : Z) (l : list Z) (time : Z) : mstate -> outcome (option Z) -> mstate -> list Z -> Prop :=
| MTakeFree : mutex_take_spec cp t l time MFree (Returned (Some RT_EOK)) (MHeld t 1 cp) l
| MTakeOwn n orig : mutex_take_spec cp t l time (MHeld t n orig) (Returned (Some RT_EOK)) (MHeld t (n + 1) orig) l
| MTakeFail o n orig : o <> t -> time = 0 ->
    mutex_take_spec cp t l time (MHeld o n orig) (Returned (Some (- RT_ETIMEOUT))) (MHeld o n orig) l
| MTakeWait o n orig l1 l2 : o <> t -> time <> 0 -> l = l1 ++ l2 ->
    mutex_take_spec cp t l time (MHeld o n orig) Blocked (MHeld o n orig) (l1 ++ t :: l2).

(** The priority of thread [x]. *)
Definition cprio (k : kernel) (x : Z) : Z := default 0 (current_priority <$> k_thr k !! x).

(** The state after [thread->error = RT_EOK]. *)
Definition k_err (t : Z) (th : rt_thread) (e : Z) (k : kernel) : kernel := upd_thr (<[t := set_error e th]>) k.

Lemma cprio_err k t th e x : k_thr k !! t = Some th -> cprio (k_err t th e k) x = cprio k x.
Proof.
  intros Ht. unfold cprio. cbn. destruct (decide (x = t)) as [->|]; [|by rewrite lookup_insert_ne].
  by rewrite lookup_insert_eq, Ht.
Qed.

Lemma mutex_at_err k t th e a m l : k_thr k !! t = Some th -> mutex_at k a m l -> mutex_at (k_err t th e k) a m l.
Proof.
  intros Ht [? ? ? Hst]. split; [done..|]. destruct m as [|o n orig]; [done|].
  destruct Hst as (? & ? & ? & oth & Ho). split_and!; [lia..|done|]. cbn.
  destruct (decide (o = t)) as [->|]; [rewrite lookup_insert_eq; eauto|]. rewrite lookup_insert_ne by done. eauto.
Qed.

Lemma mutex_take_prefix k th a m l time :
  running k th -> mutex_at k a m l ->
  rt_mutex_take a time k =
    (if owner (mutex_rep m) =? k_cur k then
       set_mtx a (Mutex (mtx_value (mutex_rep m)) (original_priority (mutex_rep m)) (u8 (hold (mutex_rep m) + 1)) (owner (mutex_rep m)));;;
       ret (Returned (Some RT_EOK))
     else mutex_again a (k_cur k) time) (k_err (k_cur k) th RT_EOK k).
Proof.
  intros HR [Hob Hv _ _]. unfold rt_mutex_take. rewrite (after (thread_context_done _ _ HR)).
  rewrite (after (ipc_check_done _ _ _ Hob)). unfold rt_thread_self. mstep.
  rewrite (after (mod_thr_done _ _ _ _ (rn_thr _ _ HR))). by erewrite bind_done; [|apply mtx_done; exact Hv].
Qed.

(** The branches of [mutex_again] that do not wait. *)
Lemma mutex_again_free k th a l time :
  running k th -> mutex_at k a MFree l ->
  let k' := upd_mtx (<[a := mutex_rep (MHeld (k_cur k) 1 (current_priority th))]>) k in
  mutex_again a (k_cur k) time k = Done (Returned (Some RT_EOK)) k' /\ kinv k' /\
  mutex_at k' a (MHeld (k_cur k) 1 (current_priority th)) l.
Proof.
  intros HR [Hob Hv Hl ->]. cbn zeta. split_and!.
  - unfold mutex_again. rewrite (after (mtx_done _ _ _ Hv)). cbn [mutex_rep mtx_value hold].
    change (0 <? 1) with true. cbn iota. by rewrite (after (thr_done _ _ _ (rn_thr _ _ HR))).
  - apply kbut_set_mtx, HR.
  - split; [done|cbn; apply lookup_insert_eq|done|]. pose proof (rn_thr _ _ HR) as Ht.
    destruct (so_prio _ _ _ _ (kb_sched _ _ _ _ (rn_inv _ _ HR)) _ _ Ht) as (? & _). split; [lia|]. split; [done|].
    split; [apply not_elem_of_nil|eauto].
Qed.

Lemma mutex_again_fail k th a o n orig l :
  running k th -> mutex_at k a (MHeld o n orig) l ->
  let k' := k_err (k_cur k) th (- RT_ETIMEOUT) k in
  mutex_again a (k_cur k) 0 k = Done (Returned (Some (- RT_ETIMEOUT))) k' /\ kinv k' /\ mutex_at k' a (MHeld o n orig) l.
Proof.
  intros HR HA. cbn zeta. split_and!.
  - unfold mutex_again. rewrite (after (mtx_done _ _ _ (ma_val _ _ _ _ HA))). cbn [mutex_rep mtx_value].
    change (0 <? 0) with false. change (0 =? 0) with true. cbn iota.
    by rewrite (after (mod_thr_done _ _ _ _ (rn_thr _ _ HR))).
  - apply (running_error k th (- RT_ETIMEOUT) HR).
  - apply mutex_at_err; [apply HR|done].
Qed.

Lemma mutex_take_done k th a m l time h :
  running k th -> mutex_at k a m l -> k_hdr k !! Obj a = Some h -> time <= max_off ->
  (forall n orig, m = MHeld (k_cur k) n orig -> n < 255) ->
  exists r k' m' l', rt_mutex_take a time k = Done r k' /\ kinv k' /\ mutex_at k' a m' l' /\
    k_hdr k' !! Obj a = k_hdr k !! Obj a /\
    mutex_take_spec (current_priority th) (k_cur k) l time m r m' l' /\
    match r with
    | Returned _ => k_cur k' = k_cur k /\ forall x, cprio k' x = cprio k x
    | Blocked => k_cur k' <> k_cur k /\
        (exists l1 l2, l = l1 ++ l2 /\ l' = l1 ++ k_cur k :: l2 /\ placed (k_thr k) (oflag h) (current_priority th) l1 l2) /\
        (forall o n orig, m = MHeld o n orig -> forall x,
          cprio k' x = if decide (x = o) then Z.min (cprio k (k_cur k)) (cprio k o) else cprio k x) /\
        (0 < time -> TimerOf (k_cur k) ∈ k_tmlist k' /\ toff (k_tm k') (k_tick k') (TimerOf (k_cur k)) = time)
    end.
Proof.
  intros HR HA Hh Htm Hn. rewrite (mutex_take_prefix k th a m l time HR HA).
  pose proof (rn_thr _ _ HR) as Hth. pose proof (running_nonnull _ _ HR) as Hnz.
  pose proof (running_error k th RT_EOK HR) as HR1. pose proof (mutex_at_err k (k_cur k) th RT_EOK a m l Hth HA) as HA1.
  assert (Hcp : forall x, cprio (k_err (k_cur k) th RT_EOK k) x = cprio k x) by (intros; by apply cprio_err).
  fold (k_err (k_cur k) th RT_EOK k) in HR1. set (k1 := k_err (k_cur k) th RT_EOK k) in *.
  destruct m as [|o n orig]; cbn [mutex_rep owner mtx_value original_priority hold].
  - destruct (Z.eqb_spec RT_NULL (k_cur k)); [by subst|].
    destruct (mutex_again_free k1 _ a l time HR1 HA1) as (E & HK' & HA').
    eexists _, _, _, l. split; [exact E|]. split; [done|]. split; [exact HA'|]. split; [done|]. split; [constructor|done].
  - destruct (Z.eqb_spec o (k_cur k)) as [->|Hne].
    + specialize (Hn _ _ eq_refl). destruct HA1 as [? _ ? (Hr & Ho & Hno & ?)]. unfold set_mtx. mstep.
      eexists _, _, (MHeld (k_cur k) (n + 1) orig), l. split; [done|]. split; [apply kbut_set_mtx, HR1|].
      split; [|split; [done|split; [constructor|done]]]. split; [done| |done|split; [lia|split; [done|by split]]].
      cbn. rewrite lookup_insert_eq. unfold u8. by rewrite Z.mod_small by lia.
    + destruct (decide (time = 0)) as [->|Ht0].
      * destruct (mutex_again_fail k1 _ a o n orig l HR1 HA1) as (E & HK' & HA').
        eexists _, _, _, l. split; [exact E|]. split; [done|]. split; [exact HA'|]. split; [done|]. split; [by constructor|]. split; [done|].
        intros x. rewrite <- Hcp. apply cprio_err, HR1.
      * destruct (ma_state _ _ _ _ HA) as (_ & _ & Hno & oth & Ho).
        assert (Ho1 : k_thr k1 !! o = Some oth) by (cbn; by rewrite lookup_insert_ne).
        destruct (mutex_wait_done k1 _ a o n orig l time h oth HR1 HA1 Hne Ht0 Htm Hh Ho1)
          as (k' & oth' & l1 & l2 & E & HK' & HA' & El & HF & Hp & Eth & (Hpr & _) & Hc & Htime).
        exists Blocked, k', (MHeld o n orig), (l1 ++ k_cur k :: l2). change (k_cur k1) with (k_cur k) in *.
        split; [done|]. split; [done|]. split; [done|]. split; [by rewrite (fr_hdr _ _ HF)|]. split; [by apply MTakeWait|]. split; [done|]. split; [|split; [|done]].
        -- exists l1, l2. split; [done|]. split; [done|]. eapply placed_ext; [|exact Hp]. intros x Hx.
           rewrite lookup_insert_ne by (intros <-; by rewrite El in Hno). cbn.
           destruct (decide (x = k_cur k)) as [->|]; [by rewrite lookup_insert_eq, Hth|by rewrite lookup_insert_ne].
        -- intros o' n' orig' [= <- <- <-] x. unfold cprio. rewrite Eth. cbn [k1 k_err upd_thr k_thr].
           destruct (decide (x = k_cur k)) as [->|]; [by rewrite lookup_insert_eq, decide_False, Hth|].
           rewrite lookup_insert_ne by done. destruct (decide (x = o)) as [->|]; [|by rewrite !lookup_insert_ne].
           rewrite lookup_insert_eq, Hth, Ho. cbn. by rewrite Hpr.
Qed.

(** ** Release *)

(** What it does on a release by thread [t]: [p] is the priority of a thread. *)
Inductive mutex_release_spec (p : Z -> Z) (t : Z) : mstate -> list Z -> Z -> mstate -> list Z -> Prop :=
| MRelOther m l : (forall n orig, m <> MHeld t n orig) -> mutex_release_spec p t m l (- RT_ERROR) m l
| MRelNested n orig l : 1 < n -> mutex_release_spec p t (MHeld t n orig) l RT_EOK (MHeld t (n - 1) orig) l
| MRelFree orig : mutex_release_spec p t (MHeld t 1 orig) [] RT_EOK MFree []
| MRelHand orig w l : mutex_release_spec p t (MHeld t 1 orig) (w :: l) RT_EOK (MHeld w 1 (p w)) l.

(** The owner returns to its own priority. *)
Lemma restore_done k th orig :
  running k th -> 0 <= orig < RT_THREAD_PRIORITY_MAX ->
  exists k' th', when (negb (orig =? current_priority th))
      (_ <- rt_thread_control (k_cur k) RT_THREAD_CTRL_CHANGE_PRIORITY orig;; ret tt) k = Done tt k' /\
    running k' th' /\ frame k k' /\ k_cur k' = k_cur k /\ k_thr k' = <[k_cur k := th']> (k_thr k) /\
    reprio orig th th' /\ (forall r, waiting r -> k_tl k' !! r = k_tl k !! r).
Proof.
  intros HR Ho. pose proof (rn_thr _ _ HR) as Ht. destruct (Z.eqb_spec orig (current_priority th)) as [->|Hne]; cbn [negb when].
  - exists k, th. split_and!; try done. by rewrite insert_id.
  - destruct (reprio_done k (k_cur k) th orig (rn_inv _ _ HR) Ht Ho) as (k' & th' & E & HK' & HF & Hc & Eth & Hrp & Hw).
    exists k', th'. rewrite (after E). split_and!; try done.
    pose proof (running_reprio k k' th (k_cur k) th th' _ HR Ht Hrp HK' HF Hc Eth) as HR'. by rewrite decide_True in HR'.
Qed.

Lemma release_tail_done k th a t orig l :
  running k th -> ipc_obj k a RT_Object_Class_Mutex -> k_tl k !! LSuspend a = Some l ->
  exists k' m' l', (n <- release_tail a (mutex_rep (MHeld t 1 orig)) 0;; when n rt_schedule;;; ret RT_EOK) k = Done RT_EOK k' /\
    kinv k' /\ mutex_at k' a m' l' /\ k_hdr k' !! Obj a = k_hdr k !! Obj a /\
    mutex_release_spec (cprio k) t (MHeld t 1 orig) l RT_EOK m' l' /\
    (forall x, cprio k' x = cprio k x) /\
    match l with [] => k_cur k' = k_cur k | w :: _ =>
      exists wth, k_thr k' !! w = Some wth /\ statm wth = RT_THREAD_READY /\ exists p, highest (k_tl k') p (k_cur k') end.
Proof.
  intros HR Ho Hl. pose proof (rn_inv _ _ HR) as HK. unfold release_tail.
  rewrite bind_assoc, (after (tlist_done _ _ _ Hl)). destruct l as [|w l].
  - unfold set_mtx. repeat mstep. cbn [when]. eexists _, MFree, []. split; [done|]. split; [by apply kbut_set_mtx|].
    split; [|split; [done|split; [constructor|done]]]. split; [done|cbn; apply lookup_insert_eq|done|done].
  - destruct (so_mem _ _ _ _ (kb_sched _ _ _ _ HK) _ _ w Hl) as (_ & _ & wth & Hw & _); [apply elem_of_cons; by left|].
    rewrite bind_assoc, (after (thr_done _ _ _ Hw)). unfold set_mtx. do 2 mstep. rewrite bind_assoc.
    set (k1 := upd_mtx _ k). assert (HK1 : kinv k1) by (by apply kbut_set_mtx).
    destruct (ipc_wake_schedule none 0 k1 (LSuspend a) w l wth HK1 I Hl Hw) as (k2 & k' & E1 & E2 & HK' & HF & Hhi & Eth & Etl).
    { by intros []. }
    { apply (running_nonnull _ _ HR). }
    rewrite (after E1). mstep. cbn [when]. rewrite (after E2).
    pose proof (so_nodup _ _ _ _ (kb_sched _ _ _ _ HK) _ _ Hl) as [Hno _]%NoDup_cons.
    exists k', (MHeld w 1 (cprio k w)), l. split; [done|]. split; [done|]. split; [|split; [by rewrite (fr_hdr _ _ HF)|split; [constructor|split]]].
    + split; [eapply ipc_obj_frame; [exact HF|done]| |by rewrite Etl, decide_True|].
      * rewrite (fr_mtx _ _ HF). cbn. rewrite lookup_insert_eq. unfold cprio. by rewrite Hw.
      * split; [lia|]. split; [unfold cprio; rewrite Hw; apply (so_prio _ _ _ _ (kb_sched _ _ _ _ HK) _ _ Hw)|].
        split; [done|]. rewrite Eth, lookup_insert_eq. eauto.
    + intros x. unfold cprio. rewrite Eth. destruct (decide (x = w)) as [->|]; [|by rewrite lookup_insert_ne].
      by rewrite lookup_insert_eq, Hw.
    + exists (ready_stat wth). rewrite Eth, lookup_insert_eq. split_and!; [done|apply ready_stat_statm|]. apply Hhi, HR.
Qed.

Lemma mutex_release_done k th a m l :
  running k th -> mutex_at k a m l ->
  exists e k' m' l', rt_mutex_release a k = Done e k' /\ kinv k' /\ mutex_at k' a m' l' /\
    k_hdr k' !! Obj a = k_hdr k !! Obj a /\
    mutex_release_spec (cprio k) (k_cur k) m l e m' l' /\
    (forall x, x <> k_cur k \/ (forall orig, m <> MHeld (k_cur k) 1 orig) -> cprio k' x = cprio k x) /\
    match m with
    | MHeld t n orig => t = k_cur k -> n = 1 -> cprio k' t = orig
    | MFree => True
    end /\
    (forall w n p, m' = MHeld w n p -> m <> m' -> w <> k_cur k ->
      exists wth, k_thr k' !! w = Some wth /\ statm wth = RT_THREAD_READY /\ exists p', highest (k_tl k') p' (k_cur k')).
Proof.
  intros HR HA. pose proof HA as [Hob Hv Hl Hst]. pose proof (rn_thr _ _ HR) as Ht. pose proof (running_nonnull _ _ HR) as Hnz.
  unfold rt_mutex_release. rewrite (after (ipc_check_done _ _ _ Hob)).
  rewrite (after (thread_context_done _ _ HR)). unfold rt_thread_self. mstep.
  rewrite (after (mtx_done _ _ _ Hv)).
  destruct (decide (owner (mutex_rep m) = k_cur k)) as [Eo|Eo].
  2: { destruct (Z.eqb_spec (k_cur k) (owner (mutex_rep m))); [congruence|]. cbn [negb].
    rewrite (after (mod_thr_done _ _ _ _ Ht)). fold (k_err (k_cur k) th (- RT_ERROR) k).
    eexists _, _, m, l. split; [done|]. split; [apply (running_error k th (- RT_ERROR) HR)|].
    split; [by apply mutex_at_err|]. split; [done|]. split; [apply MRelOther; by intros n' orig ->|].
    split; [intros; by apply cprio_err|]. split; [|done]. destruct m; [done|]. intros ->. done. }
  destruct m as [|o n orig]; cbn in Eo; [done|]. subst o. destruct Hst as (Hn & Horig & Hno & _).
  cbn [mutex_rep owner mtx_value original_priority hold]. rewrite Z.eqb_refl. cbn [negb]. unfold set_mtx at 1. mstep.
  set (k1 := upd_mtx _ k). unfold u8. rewrite (Z.mod_small (n - 1)) in * by lia.
  assert (HR1 : running k1 th) by (destruct HR; split; try done; by apply kbut_set_mtx).
  destruct (Z.eqb_spec (n - 1) 0) as [En|En].
  - assert (n = 1) as -> by lia. rewrite bind_assoc, (after (thr_done _ k1 _ Ht)).
    destruct (restore_done k1 th orig HR1 Horig) as (k2 & th2 & E2 & HR2 & HF2 & Hc2 & Eth2 & (Hp2 & _) & Hw2).
    rewrite bind_assoc, (after E2). change (1 - 1) with 0.
    destruct (release_tail_done k2 th2 a (k_cur k) orig l HR2) as (k' & m' & l' & E & HK' & HA' & Hh' & HS & Hcp & Hr).
    { eapply ipc_obj_frame; [exact HF2|done]. }
    { by rewrite Hw2. }
    assert (Hcp2 : forall x, x <> k_cur k -> cprio k2 x = cprio k x).
    { intros x Hx. unfold cprio. rewrite Eth2. by rewrite lookup_insert_ne. }
    eexists _, k', m', l'. split; [exact E|]. split; [done|]. split; [done|]. split_and!.
    + by rewrite Hh', (fr_hdr _ _ HF2).
    + inversion HS; subst; [lia|constructor|].
      rewrite Hcp2; [constructor|]. intros ->. apply Hno, elem_of_cons. by left.
    + intros x [Hx|Hx]; [by rewrite Hcp, Hcp2|by destruct (Hx orig)].
    + intros _ _. rewrite Hcp. unfold cprio. rewrite Eth2. change (k_cur k1) with (k_cur k). by rewrite lookup_insert_eq.
    + intros w n' p -> _ Hne. inversion HS; subst; [lia|]. by rewrite <- H in Hr || exact Hr.
  - mstep. cbn [when]. eexists _, k1, (MHeld (k_cur k) (n - 1) orig), l. split; [done|]. split; [apply HR1|].
    split; [|split; [done|split; [constructor; lia|]]].
    + split; [done| |done|split; [lia|split; [done|split; [done|eauto]]]].
      cbn. rewrite lookup_insert_eq. unfold u8. by rewrite Z.mod_small by lia.
    + split; [done|]. split; [intros; lia|]. by intros w n' p [= <- <- <-].
Qed.

(** ** Theorems *)

(** C17: [rt_mutex_take] by the running thread: a free mutex is taken, a mutex the
    thread already holds is taken once more, and for a mutex held by another
    thread the call fails at once when no waiting time is given and otherwise
    suspends the caller in the place its priority or arrival gives it; then the
    owner runs at least at the priority of the caller, no other priority
    changes, and the timer of the caller is armed for the waiting time. *)
Theorem rt_mutex_take_correct k th a m l time h :
  running k th -> mutex_at k a m l -> k_hdr k !! Obj a = Some h -> time <= max_off ->
  (forall n orig, m = MHeld (k_cur k) n orig -> n < 255) ->
  exists r k' m' l', rt_mutex_take a time k = Done r k' /\ kinv k' /\ mutex_at k' a m' l' /\
    k_hdr k' !! Obj a = k_hdr k !! Obj a /\
    mutex_take_spec (current_priority th) (k_cur k) l time m r m' l' /\
    match r with
    | Returned _ => k_cur k' = k_cur k /\ forall x, cprio k' x = cprio k x
    | Blocked => k_cur k' <> k_cur k /\
        (exists l1 l2, l = l1 ++ l2 /\ l' = l1 ++ k_cur k :: l2 /\ placed (k_thr k) (oflag h) (current_priority th) l1 l2) /\
        (forall o n orig, m = MHeld o n orig -> forall x,
          cprio k' x = if decide (x = o) then Z.min (cprio k (k_cur k)) (cprio k o) else cprio k x) /\
        (0 < time -> TimerOf (k_cur k) ∈ k_tmlist k' /\ toff (k_tm k') (k_tick k') (TimerOf (k_cur k)) = time)
    end.
Proof. apply mutex_take_done. Qed.

(** [rt_mutex_release]: only the owner can release; the last release gives the
    owner its own priority back and hands the mutex over to the first waiting
    thread, which is READY, or frees it; inner releases only count down. *)
Theorem rt_mutex_release_correct k th a m l :
  running k th -> mutex_at k a m l ->
  exists e k' m' l', rt_mutex_release a k = Done e k' /\ kinv k' /\ mutex_at k' a m' l' /\
    k_hdr k' !! Obj a = k_hdr k !! Obj a /\
    mutex_release_spec (cprio k) (k_cur k) m l e m' l' /\
    (forall x, x <> k_cur k \/ (forall orig, m <> MHeld (k_cur k) 1 orig) -> cprio k' x = cprio k x) /\
    match m with
    | MHeld t n orig => t = k_cur k -> n = 1 -> cprio k' t = orig
    | MFree => True
    end /\
    (forall w n p, m' = MHeld w n p -> m <> m' -> w <> k_cur k ->
      exists wth, k_thr k' !! w = Some wth /\ statm wth = RT_THREAD_READY /\ exists p', highest (k_tl k') p' (k_cur k')).
Proof. apply mutex_release_done. Qed.

(** The threads that wait stand in the order of their priorities, and none of
    them has a higher priority than the owner. *)
Definition inherits (k : kernel) (m : mstate) (l : list Z) : Prop :=
  match m with
  | MFree => True
  | MHeld o _ _ => (forall x, x ∈ l -> cprio k o <= cprio k x) /\
      StronglySorted (fun x y => cprio k x <= cprio k y) l
  end.

Definition prio_mutex (k : kernel) (a : Z) : Prop :=
  exists m l h, mutex_at k a m l /\ k_hdr k !! Obj a = Some h /\ oflag h = RT_IPC_FLAG_PRIO /\ inherits k m l.

(** A call of the running thread on the mutex. *)
Inductive mutex_step (a : Z) (k k' : kernel) : Prop :=
| StepTake th time r : running k th -> time <= max_off ->
    (forall n orig, k_mtx k !! a = Some (mutex_rep (MHeld (k_cur k) n orig)) -> n < 255) ->
    rt_mutex_take a time k = Done r k' -> mutex_step a k k'
| StepRelease th e : running k th -> rt_mutex_release a k = Done e k' -> mutex_step a k k'.

Lemma inherits_same k k' m l :
  inherits k m l -> (forall x, cprio k' x = cprio k x) -> inherits k' m l.
Proof.
  intros HI E. destruct m; [done|]. destruct HI as [H1 H2]. split.
  - intros x Hx. rewrite !E. auto.
  - eapply StronglySorted_ext; [|exact H2]. intros x y _ _. by rewrite !E.
Qed.

Lemma inherits_wait k k' th o n orig l1 l2 :
  inherits k (MHeld o n orig) (l1 ++ l2) -> o ∉ l1 ++ l2 -> o <> k_cur k ->
  k_thr k !! k_cur k = Some th -> (forall x, x ∈ l1 ++ l2 -> is_Some (k_thr k !! x)) ->
  placed (k_thr k) RT_IPC_FLAG_PRIO (current_priority th) l1 l2 ->
  (forall x, cprio k' x = if decide (x = o) then Z.min (cprio k (k_cur k)) (cprio k o) else cprio k x) ->
  inherits k' (MHeld o n orig) (l1 ++ k_cur k :: l2).
Proof.
  intros [H1 H2] Hno Hne Ht HT [_ Hp] E. destruct (Hp eq_refl) as [Ha Hb].
  assert (Hc : cprio k (k_cur k) = current_priority th) by (unfold cprio; by rewrite Ht).
  assert (Hl1 : forall x, x ∈ l1 -> cprio k x <= current_priority th).
  { intros x Hx. destruct (HT x) as [thx Hthx]; [set_solver|]. unfold cprio. rewrite Hthx. by apply (Ha x). }
  assert (Hl2 : forall x, x ∈ l2 -> current_priority th <= cprio k x).
  { destruct l2 as [|y l2]; [by intros ? ?%elem_of_nil|]. destruct (HT y) as [thy Hthy]; [set_solver|].
    assert (current_priority th < cprio k y) by (unfold cprio; rewrite Hthy; by eapply Hb).
    apply StronglySorted_app_r, StronglySorted_inv in H2 as [_ Hf]. rewrite Forall_forall in Hf.
    intros x [->|Hx]%elem_of_cons; [lia|]. apply Hf in Hx. lia. }
  assert (Hsame : forall x, x ∈ l1 ++ k_cur k :: l2 -> cprio k' x = cprio k x).
  { intros x Hx. rewrite E, decide_False; [done|]. intros ->. set_solver. }
  split.
  - intros x Hx. rewrite (Hsame x Hx), E, decide_True by done.
    apply elem_of_app in Hx as [Hx|[->|Hx]%elem_of_cons]; [|lia|];
      (etrans; [apply Z.le_min_r|]; apply H1, elem_of_app; auto).
  - eapply StronglySorted_ext; [|apply (StronglySorted_insert (fun x y => cprio k x <= cprio k y) l1 (k_cur k) l2)]; try done.
    + intros x y Hx Hy. by rewrite !Hsame.
    + intros x Hx. rewrite Hc. auto.
    + intros x Hx. rewrite Hc. auto.
Qed.

