(* ===== verification/Event.v ===== *)
(** * Events (src/ipc.c, lines 926-1288)

    An event object is a set of 32 flags; a thread waits for all or for one of
    the flags it names, and may clear them when it gets them.  [event_wake] is
    the reference definition of a send: which waiting threads it satisfies, in
    the order of the list, each with the flags the earlier ones have left.
    [event_at] says that nobody waits whose condition holds, an invariant that
    every operation keeps: no wake-up is lost. *)

From S2P Require Import Prelude RtList Exec KService Mem Kernel Object Scheduler Timer Thread Ipc.

Definition RT_EVENT_FLAG_AND : Z := 1.
Definition RT_EVENT_FLAG_OR : Z := 2.
Definition RT_EVENT_FLAG_CLEAR : Z := 4.

(** ** Operations *)

Definition evt (a : Z) : K rt_event := deref (fun k => k_evt k !! a).
Definition set_evt (a s : Z) : K unit := modify (upd_evt (<[a := Event s]>)).

Definition rt_event_init (a : Z) (name : list Z) (flag : Z) : K Z :=
  rt_assert (negb (a =? RT_NULL));;;
  rt_object_init (Obj a) RT_Object_Class_Event name;;;
  set_flag (Obj a) (fun _ => u8 flag);;;
  rt_ipc_object_init (LSuspend a);;;
  set_evt a 0;;;
  ret RT_EOK.

Definition rt_event_detach (a : Z) : K Z :=
  ipc_check_arg a RT_Object_Class_Event;;;
  s <- rt_object_is_systemobject (Obj a);; rt_assert s;;;
  rt_ipc_list_resume_all (LSuspend a);;;
  rt_object_detach (Obj a);;;
  ret RT_EOK.

Definition rt_event_create (name : list Z) (flag : Z) : K Z :=
  not_in_interrupt;;;
  a <- rt_object_allocate RT_Object_Class_Event name;;
  if a =? RT_NULL then ret a
  else
    set_flag (Obj a) (fun _ => u8 flag);;;
    rt_ipc_object_init (LSuspend a);;;
    set_evt a 0;;;
    ret a.

Definition rt_event_delete (a : Z) : K Z :=
  ipc_check_arg a RT_Object_Class_Event;;;
  s <- rt_object_is_systemobject (Obj a);; rt_assert (negb s);;;
  not_in_interrupt;;;
  rt_ipc_list_resume_all (LSuspend a);;;
  rt_object_delete a;;;
  ret RT_EOK.

(** The test of [rt_event_send] on a waiting thread that wants [eset] with the
    options [info], and the flags it gets. *)
Definition event_status (info eset set : Z) : option Z :=
  if nz (Z.land info RT_EVENT_FLAG_AND) then
    if Z.land eset set =? eset then Some eset else None
  else if nz (Z.land info RT_EVENT_FLAG_OR) then
    if nz (Z.land eset set) then Some (Z.land eset set) else None
  else None.

(** The loop over the waiting threads: the cursor moves on before a thread is
    resumed, so it passes over the threads that waited at the start; the result
    is [need_schedule]. *)
Fixpoint event_scan (a : Z) (l : list Z) : K bool :=
  match l with
  | [] => ret false
  | t :: l =>
      th <- thr t;; e <- evt a;;
      match event_status (event_info th) (event_set th) (evt_set e) with
      | None => event_scan a l
      | Some es =>
          mod_thr t (set_event_set es);;;
          when (nz (Z.land (event_info th) RT_EVENT_FLAG_CLEAR)) (set_evt a (Z.land (evt_set e) (not32 es)));;;
          _ <- rt_thread_resume t;;
          _ <- event_scan a l;;
          ret true
      end
  end.

Definition rt_event_send (a set : Z) : K Z :=
  ipc_check_arg a RT_Object_Class_Event;;;
  if set =? 0 then ret (- RT_ERROR)
  else
    e <- evt a;;
    set_evt a (Z.lor (evt_set e) set);;;
    l <- tlist (LSuspend a);;
    need_schedule <- event_scan a l;;
    when need_schedule rt_schedule;;;
    ret RT_EOK.

(** The code behind [rt_schedule]: the error code and the flags stored to
    [*recved], if any. *)
Definition rt_event_recv_resumed (t : Z) : K (Z * option Z) :=
  th <- thr t;;
  if negb (error th =? RT_EOK) then ret (error th, None) else ret (error th, Some (event_set th)).

Definition rt_event_recv (a set opt timeout : Z) : K (outcome (Z * option Z)) :=
  in_thread_context;;;
  ipc_check_arg a RT_Object_Class_Event;;;
  if set =? 0 then ret (Returned (- RT_ERROR, None))
  else
    t <- rt_thread_self;;
    mod_thr t (set_error RT_EOK);;;
    e <- evt a;;
    status <- (if nz (Z.land opt RT_EVENT_FLAG_AND) then ret (Z.land (evt_set e) set =? set)
               else if nz (Z.land opt RT_EVENT_FLAG_OR) then ret (nz (Z.land (evt_set e) set))
               else stuck Assertion);;
    if (status : bool) then
      when (nz (Z.land opt RT_EVENT_FLAG_CLEAR)) (set_evt a (Z.land (evt_set e) (not32 set)));;;
      th <- thr t;; ret (Returned (error th, Some (Z.land (evt_set e) set)))
    else if timeout =? 0 then
      mod_thr t (set_error (- RT_ETIMEOUT));;;
      th <- thr t;; ret (Returned (error th, None))
    else
      mod_thr t (set_event_set set);;;
      mod_thr t (set_event_info opt);;;
      h <- hdr (Obj a);;
      _ <- rt_ipc_list_suspend (LSuspend a) t (oflag h);;
      ipc_wait t timeout (rt_event_recv_resumed t).

Definition rt_event_control (a cmd arg : Z) : K Z :=
  ipc_check_arg a RT_Object_Class_Event;;;
  if cmd =? RT_IPC_CMD_RESET then
    rt_ipc_list_resume_all (LSuspend a);;;
    set_evt a 0;;;
    rt_schedule;;;
    ret RT_EOK
  else ret (- RT_ERROR).

(** ** The contract *)

(** The reference of a send: the flags left, the threads that are satisfied with
    the flags each one gets, and the threads that go on waiting. *)
Fixpoint event_wake (T : gmap Z rt_thread) (s : Z) (l : list Z) : Z * list (Z * Z) * list Z :=
  match l with
  | [] => (s, [], [])
  | t :: l =>
      let go_on := let '(s', w, r) := event_wake T s l in (s', w, t :: r) in
      match T !! t with
      | None => go_on
      | Some th =>
          match event_status (event_info th) (event_set th) s with
          | None => go_on
          | Some es =>
              let s1 := if nz (Z.land (event_info th) RT_EVENT_FLAG_CLEAR) then Z.land s (not32 es) else s in
              let '(s', w, r) := event_wake T s1 l in (s', (t, es) :: w, r)
          end
      end
  end.

(** The condition of thread [t] does not hold of the flags [s]. *)
Definition unsatisfied (T : gmap Z rt_thread) (s t : Z) : Prop :=
  forall th, T !! t = Some th -> event_status (event_info th) (event_set th) s = None.

Record event_at (k : kernel) (a s : Z) (l : list Z) : Prop := EventAt {
  ea_obj : ipc_obj k a RT_Object_Class_Event;
  ea_val : k_evt k !! a = Some (Event s);
  ea_wait : k_tl k !! LSuspend a = Some l;
  ea_range : 0 <= s < 2 ^ 32;
  ea_lost : forall t, t ∈ l -> unsatisfied (k_thr k) s t
}.

(** ** A send *)

Lemma evt_done k a e : k_evt k !! a = Some e -> evt a k = Done e k.
Proof. intros. unfold evt. by apply deref_some. Qed.

Lemma kbut_set_evt X P lo k a e : kbut X P lo k -> kbut X P lo (upd_evt (<[a := e]>) k).
Proof. intros HK. by eapply kbut_frame. Qed.

(** Fewer flags satisfy fewer threads. *)
Definition submask (s' s : Z) : Prop := Z.land s' s = s'.

Lemma land_submask x s' s : submask s' s -> Z.land x s' = Z.land (Z.land x s) s'.
Proof. intros H. rewrite <- Z.land_assoc, (Z.land_comm s s'), H. done. Qed.

Lemma event_status_mono info eset s' s :
  submask s' s -> event_status info eset s = None -> event_status info eset s' = None.
Proof.
  intros Hs. unfold event_status. rewrite (land_submask eset s' s Hs). destruct (nz (Z.land info RT_EVENT_FLAG_AND)).
  - destruct (Z.eqb_spec (Z.land eset s) eset) as [|Hne]; [done|]. intros _.
    destruct (Z.eqb_spec (Z.land (Z.land eset s) s') eset) as [E|]; [|done]. destruct Hne.
    rewrite <- E at 1. rewrite <- !Z.land_assoc, (Z.land_comm s' s), (Z.land_assoc s s), Z.land_diag, Z.land_assoc. exact E.
  - destruct (nz (Z.land info RT_EVENT_FLAG_OR)); [|done]. unfold nz.
    destruct (Z.eqb_spec (Z.land eset s) 0) as [->|]; [|done]. by rewrite Z.land_0_l.
Qed.

Lemma submask_land s x : submask (Z.land s x) s.
Proof. unfold submask. by rewrite <- Z.land_assoc, (Z.land_comm x s), Z.land_assoc, Z.land_diag. Qed.
Lemma submask_trans a b c : submask a b -> submask b c -> submask a c.
Proof. unfold submask. intros H1 H2. rewrite <- H1 at 1. rewrite <- Z.land_assoc, H2. exact H1. Qed.

Lemma event_wake_ext T T' s l :
  (forall t, t ∈ l -> T' !! t = T !! t) -> event_wake T' s l = event_wake T s l.
Proof.
  revert s. induction l as [|t l IH]; intros s HT; [done|]. cbn [event_wake].
  rewrite HT by (apply elem_of_cons; by left). assert (HT' : forall t, t ∈ l -> T' !! t = T !! t) by (intros; apply HT, elem_of_cons; by right).
  destruct (T !! t) as [th|]; [|by rewrite IH]. destruct (event_status _ _ _); [|by rewrite IH]. by rewrite IH.
Qed.

(** What [event_wake] computes: the satisfied threads and the others split the
    list in order, flags only get fewer, and nobody is left whose condition
    holds at the end. *)
Lemma event_wake_spec T s l s' w r :
  event_wake T s l = (s', w, r) ->
  submask s' s /\ r `sublist_of` l /\ (w.*1) `sublist_of` l /\
  (forall t, t ∈ l <-> t ∈ w.*1 \/ t ∈ r) /\ (forall t, t ∈ r -> unsatisfied T s' t).
Proof.
  revert s s' w r. induction l as [|t l IH]; intros s s' w r; cbn [event_wake].
  { intros [= <- <- <-]. split_and!; try done; [apply Z.land_diag|set_solver|by intros ? ?%not_elem_of_nil]. }
  assert (Hno : (forall th, T !! t = Some th -> event_status (event_info th) (event_set th) s = None) ->
    (let '(s', w, r) := event_wake T s l in (s', w, t :: r)) = (s', w, r) ->
    submask s' s /\ r `sublist_of` t :: l /\ (w.*1) `sublist_of` t :: l /\
    (forall x, x ∈ t :: l <-> x ∈ w.*1 \/ x ∈ r) /\ (forall x, x ∈ r -> unsatisfied T s' x)).
  { intros Hun. destruct (event_wake T s l) as [[s1 w1] r1] eqn:E. intros [= <- <- <-].
    destruct (IH _ _ _ _ E) as (H1 & H2 & H3 & H4 & H5). split_and!; try done; [by constructor|by constructor|set_solver|].
    intros x [->|Hx]%elem_of_cons; [|by apply H5]. intros th Hth. eapply event_status_mono; eauto. }
  destruct (T !! t) as [th|] eqn:Et; [|by apply Hno]. destruct (event_status _ _ _) as [es|] eqn:Ees; [|apply Hno; by intros ? [= <-]].
  set (s1 := if nz _ then _ else s). destruct (event_wake T s1 l) as [[s2 w2] r2] eqn:E. intros [= <- <- <-].
  destruct (IH _ _ _ _ E) as (H1 & H2 & H3 & H4 & H5).
  assert (Hs1 : submask s1 s) by (unfold s1; destruct (nz _); [apply submask_land|apply Z.land_diag]).
  split_and!; try done; [by eapply submask_trans|by constructor|by constructor|set_solver].
Qed.

(** One satisfied thread is resumed. *)
Lemma event_resume_done k a s lq t th es :
  kinv k -> k_evt k !! a = Some (Event s) -> k_tl k !! LSuspend a = Some lq -> t ∈ lq -> k_thr k !! t = Some th ->
  let s1 := if nz (Z.land (event_info th) RT_EVENT_FLAG_CLEAR) then Z.land s (not32 es) else s in
  exists k', (forall A (f : Z -> K A),
    (mod_thr t (set_event_set es);;;
     when (nz (Z.land (event_info th) RT_EVENT_FLAG_CLEAR)) (set_evt a (Z.land s (not32 es)));;;
     x <- rt_thread_resume t;; f x) k = f RT_EOK k') /\
    kinv k' /\ frame (upd_evt (<[a := Event s1]>) k) k' /\ k_cur k' = k_cur k /\
    k_thr k' = <[t := ready_stat (set_event_set es th)]> (k_thr k) /\
    (forall q, waiting q -> k_tl k' !! q = if decide (q = LSuspend a) then Some (lremove t lq) else k_tl k !! q).
Proof.
  intros HK Hv Hl Hin Ht s1. set (k1 := upd_thr (<[t := set_event_set es th]>) (upd_evt (<[a := Event s1]>) k)).
  assert (HK1 : kinv k1) by (eapply kbut_thr_mod; [by apply kbut_set_evt|done..]).
  assert (Ht1 : k_thr k1 !! t = Some (set_event_set es th)) by (cbn; apply lookup_insert_eq).
  destruct (so_mem _ _ _ _ (kb_sched _ _ _ _ HK) _ _ _ Hl Hin) as (_ & _ & th' & Ht' & Hm).
  rewrite Ht in Ht'. injection Ht' as <-.
  destruct (resume_done none 0 k1 t _ HK1 Ht1 Hm (fun f => f)) as (h & _ & E & HK2).
  exists (k_resume t (set_event_set es th) h k1). split_and!; try done.
  - intros A f. rewrite (after (mod_thr_done _ _ _ _ Ht)). unfold set_evt, s1 in *.
    destruct (nz (Z.land (event_info th) RT_EVENT_FLAG_CLEAR)); cbn [when].
    + mstep. by rewrite (after E).
    + mstep. rewrite (bind_done _ _ _ RT_EOK (k_resume t (set_event_set es th) h k1)); [done|]. rewrite <- E. f_equal.
      unfold k1. kext. by rewrite insert_id.
  - etrans; [|apply frame_resume]. by split.
  - change (k_thr (k_resume t (set_event_set es th) h k1)) with (<[t := ready_stat (set_event_set es th)]> (k_thr k1)).
    cbn. by rewrite insert_insert_eq.
  - intros q Hq. by rewrite (resume_lists none k1 t _ h (LSuspend a) lq q (kb_sched _ _ _ _ HK1) I Hl Hin Hq).
Qed.

Lemma event_scan_done a l : forall k s r0 s' w r,
  kinv k -> k_evt k !! a = Some (Event s) -> k_tl k !! LSuspend a = Some (r0 ++ l) ->
  event_wake (k_thr k) s l = (s', w, r) ->
  exists k', event_scan a l k = Done (negb (bool_decide (w = []))) k' /\ kinv k' /\
    frame (upd_evt (<[a := Event s']>) k) k' /\ k_cur k' = k_cur k /\
    (forall q, waiting q -> k_tl k' !! q = if decide (q = LSuspend a) then Some (r0 ++ r) else k_tl k !! q) /\
    (forall t es, (t, es) ∈ w -> exists th, k_thr k !! t = Some th /\
      k_thr k' !! t = Some (ready_stat (set_event_set es th))) /\
    (forall t, t ∉ w.*1 -> k_thr k' !! t = k_thr k !! t).
Proof.
  induction l as [|t l IH]; intros k s r0 s' w r HK Hv Hl Hw.
  { injection Hw as <- <- <-. exists k. split_and!; try done.
    - split; try done. cbn. by rewrite insert_id.
    - intros q Hq. by destruct (decide (q = LSuspend a)) as [->|].
    - by intros ? ? ?%not_elem_of_nil. }
  destruct (so_mem _ _ _ _ (kb_sched _ _ _ _ HK) _ _ t Hl) as (_ & _ & th & Ht & _); [set_solver|].
  pose proof (so_nodup _ _ _ _ (kb_sched _ _ _ _ HK) _ _ Hl) as Hnd.
  cbn [event_wake] in Hw. rewrite Ht in Hw. cbn [event_scan]. rewrite (after (thr_done _ _ _ Ht)).
  rewrite (after (evt_done _ _ _ Hv)). cbn [evt_set].
  destruct (event_status (event_info th) (event_set th) s) as [es|] eqn:Ees.
  - destruct (event_resume_done k a s (r0 ++ t :: l) t th es HK Hv Hl ltac:(set_solver) Ht) as (k1 & E1 & HK1 & HF1 & Hc1 & Eth1 & Etl1).
    set (s1 := if nz _ then _ else s) in *. destruct (event_wake (k_thr k) s1 l) as [[s2 w2] r2] eqn:E. injection Hw as <- <- <-.
    assert (Hno : t ∉ r0 /\ t ∉ l) by (apply NoDup_app in Hnd as (_ & Hd & [? _]%NoDup_cons); split; [|done]; intros Hx; apply (Hd t Hx); set_solver).
    destruct (IH k1 s1 r0 s2 w2 r2 HK1) as (k' & E2 & HK' & HF' & Hc' & Etl' & Hw' & Ho').
    + rewrite (fr_evt _ _ HF1). cbn. apply lookup_insert_eq.
    + rewrite Etl1, decide_True by done. by rewrite lremove_middle by tauto.
    + rewrite <- E. apply event_wake_ext. intros x Hx. rewrite Eth1, lookup_insert_ne; [done|]. intros ->. tauto.
    + assert (Hw2 : t ∉ w2.*1).
      { destruct (event_wake_spec _ _ _ _ _ _ E) as (_ & _ & _ & Hx & _). intros Hin. apply Hno. apply Hx. by left. }
      exists k'. split_and!.
      * rewrite E1, (after E2). done.
      * done.
      * etrans; [|exact HF']. destruct HF1 as [H1 H2 H3 H4 H5 H6 H7 H8 H9 H10 H11 H12]. split; try done. cbn in *. rewrite H4. by rewrite insert_insert_eq.
      * congruence.
      * intros q Hq. rewrite Etl', Etl1 by done. by destruct (decide (q = LSuspend a)).
      * intros x ex [[= -> ->]|Hx]%elem_of_cons.
        { exists th. split; [done|]. rewrite Ho' by done. by rewrite Eth1, lookup_insert_eq. }
        destruct (Hw' x ex Hx) as (thx & Hthx & ?). exists thx. split; [|done].
        rewrite Eth1, lookup_insert_ne in Hthx; [done|]. intros ->. apply Hw2, list_elem_of_fmap. by exists (x, ex).
      * intros x. cbn. rewrite not_elem_of_cons. intros [Hne Hx]. rewrite Ho' by done. by rewrite Eth1, lookup_insert_ne.
  - destruct (event_wake (k_thr k) s l) as [[s2 w2] r2] eqn:E. injection Hw as <- <- <-.
    destruct (IH k s (r0 ++ [t]) s2 w2 r2 HK Hv) as (k' & E2 & Hk'); [by rewrite <- app_assoc|done|].
    exists k'. rewrite <- app_assoc in Hk'. split; [exact E2|exact Hk'].
Qed.


(** ** A receive *)

(** What a receive of [set] with the options [opt] does. *)
Inductive event_recv_spec (set opt timeout t s : Z) (l : list Z) : outcome (Z * option Z) -> Z -> list Z -> Prop :=
| RecvGot got : event_status opt set s = Some got ->
    event_recv_spec set opt timeout t s l (Returned (RT_EOK, Some got))
      (if nz (Z.land opt RT_EVENT_FLAG_CLEAR) then Z.land s (not32 set) else s) l
| RecvFail : event_status opt set s = None -> timeout = 0 ->
    event_recv_spec set opt timeout t s l (Returned (- RT_ETIMEOUT, None)) s l
| RecvWait l1 l2 : event_status opt set s = None -> timeout <> 0 -> l = l1 ++ l2 ->
    event_recv_spec set opt timeout t s l Blocked s (l1 ++ t :: l2).

(** The options name a condition. *)
Definition valid_option (opt : Z) : Prop :=
  nz (Z.land opt RT_EVENT_FLAG_AND) = true \/ nz (Z.land opt RT_EVENT_FLAG_OR) = true.

(** The test of [rt_event_recv] is that of [rt_event_send]. *)
Lemma recv_status opt set s :
  valid_option opt ->
  (if nz (Z.land opt RT_EVENT_FLAG_AND) then ret (Z.land s set =? set)
   else if nz (Z.land opt RT_EVENT_FLAG_OR) then ret (nz (Z.land s set)) else stuck Assertion : K bool) =
    ret (bool_decide (is_Some (event_status opt set s))) /\
  (forall got, event_status opt set s = Some got -> got = Z.land s set).
Proof.
  intros Ho. unfold event_status. rewrite (Z.land_comm set s). unfold valid_option in Ho.
  destruct (nz (Z.land opt RT_EVENT_FLAG_AND)).
  - destruct (Z.eqb_spec (Z.land s set) set) as [E|E]; split.
    + by rewrite bool_decide_eq_true_2.
    + by intros got [= <-].
    + rewrite bool_decide_eq_false_2; [done|]. by intros [].
    + done.
  - destruct (nz (Z.land opt RT_EVENT_FLAG_OR)); [|by destruct Ho]. destruct (nz (Z.land s set)); split.
    + by rewrite bool_decide_eq_true_2.
    + by intros got [= <-].
    + rewrite bool_decide_eq_false_2; [done|]. by intros [].
    + done.
Qed.

(** The thread records that waits for flags. *)
Definition waits_for (set opt : Z) (th : rt_thread) : rt_thread :=
  set_event_info opt (set_event_set set (set_error RT_EOK th)).

Lemma event_recv_wait k th a s l set opt timeout h :
  running k th -> event_at k a s l -> k_hdr k !! Obj a = Some h -> timeout <= max_off ->
  event_status opt set s = None ->
  let k1 := upd_thr (<[k_cur k := waits_for set opt th]>) k in
  exists k' l1 l2, (_ <- rt_ipc_list_suspend (LSuspend a) (k_cur k) (oflag h);;
      ipc_wait (k_cur k) timeout (rt_event_recv_resumed (k_cur k))) k1 = Done Blocked k' /\
    kinv k' /\ event_at k' a s (l1 ++ k_cur k :: l2) /\ l = l1 ++ l2 /\
    placed (k_thr k) (oflag h) (current_priority th) l1 l2 /\
    k_thr k' = <[k_cur k := susp_stat (waits_for set opt th)]> (k_thr k) /\ k_cur k' <> k_cur k /\
    (0 < timeout -> TimerOf (k_cur k) ∈ k_tmlist k' /\ toff (k_tm k') (k_tick k') (TimerOf (k_cur k)) = timeout).
Proof.
  intros HR [Ho Hv Hl Hr Hlost] Hh Htm Hst k1. assert (HR1 : running k1 (waits_for set opt th)) by (by apply (running_mod k th)).
  destruct (running_wait k1 _ (LSuspend a) (oflag h) l timeout (rt_event_recv_resumed (k_cur k)) HR1)
    as (k' & l1 & l2 & El & Hp & E & HK' & HF & Eth & Etl & Hc & Htime); try done.
  { destruct Ho as (_ & h' & Hh' & _ & Hf). congruence. }
  assert (Hno : k_cur k ∉ l) by (eapply (ready_not_waiting _ _ _ _ _ _ (LSuspend a)); [apply (kb_sched _ _ _ _ (rn_inv _ _ HR))|apply HR|apply HR|done|exact Hl]).
  assert (Eth' : k_thr k' = <[k_cur k := susp_stat (waits_for set opt th)]> (k_thr k)) by (rewrite Eth; cbn; by rewrite insert_insert_eq).
  assert (Hp' : placed (k_thr k) (oflag h) (current_priority th) l1 l2).
  { eapply placed_ext; [|exact Hp]. intros x Hx. cbn. rewrite lookup_insert_ne; [done|]. intros <-. by rewrite El in Hno. }
  exists k', l1, l2. split; [exact E|]. split; [done|]. split; [|split; [done|by split]].
  split; [by eapply ipc_obj_frame; [exact HF|]|by rewrite (fr_evt _ _ HF)|by rewrite Etl, decide_True|done|].
  intros t Ht thx. rewrite Eth'. destruct (decide (t = k_cur k)) as [->|Hne].
  - rewrite lookup_insert_eq. by intros [= <-].
  - rewrite lookup_insert_ne by done. apply Hlost. rewrite El. set_solver.
Qed.

(** [rt_event_recv] by the running thread: when its condition holds it gets the
    flags at once and, if it asked for that, clears them; otherwise it reports a
    timeout when no waiting time is given, or waits in the place the flag of the
    event gives it, with its timer armed.  In every case nobody is left waiting
    whose condition holds. *)
Theorem rt_event_recv_correct k th a s l set opt timeout h :
  running k th -> event_at k a s l -> k_hdr k !! Obj a = Some h -> timeout <= max_off ->
  0 < set < 2 ^ 32 -> valid_option opt ->
  exists r k' s' l', rt_event_recv a set opt timeout k = Done r k' /\ kinv k' /\ event_at k' a s' l' /\
    event_recv_spec set opt timeout (k_cur k) s l r s' l' /\
    match r with
    | Returned _ => k_cur k' = k_cur k
    | Blocked => k_cur k' <> k_cur k /\
        k_thr k' = <[k_cur k := susp_stat (waits_for set opt th)]> (k_thr k) /\
        (0 < timeout -> TimerOf (k_cur k) ∈ k_tmlist k' /\ toff (k_tm k') (k_tick k') (TimerOf (k_cur k)) = timeout)
    end.
Proof.
  intros HR HA Hh Htm Hset Hopt. pose proof HA as [Ho Hv Hl Hr Hlost]. pose proof (rn_thr _ _ HR) as Ht.
  pose proof (running_error k th RT_EOK HR) as HR1. set (k1 := upd_thr _ k) in *.
  destruct (recv_status opt set s Hopt) as [Est Hgot].
  assert (Hno : k_cur k ∉ l) by (eapply (ready_not_waiting _ _ _ _ _ _ (LSuspend a)); [apply (kb_sched _ _ _ _ (rn_inv _ _ HR))|apply HR|apply HR|done|exact Hl]).
  assert (Hl1 : forall s' T, submask s' s -> (forall t, t <> k_cur k -> T !! t = k_thr k !! t) -> forall t, t ∈ l -> unsatisfied T s' t).
  { intros s' T Hs HT t Hin thx. rewrite HT by (by intros ->). intros Hx. eapply event_status_mono; [exact Hs|]. by eapply Hlost. }
  unfold rt_event_recv. rewrite (after (thread_context_done _ _ HR)).
  rewrite (after (ipc_check_done _ _ _ Ho)). destruct (Z.eqb_spec set 0); [lia|]. unfold rt_thread_self. mstep.
  rewrite (after (mod_thr_done _ _ _ _ Ht)). fold k1. rewrite (after (evt_done k1 _ _ Hv)).
  cbn [evt_set]. rewrite Est. mstep. destruct (event_status opt set s) as [got|] eqn:Ees.
  - rewrite bool_decide_eq_true_2 by eauto. cbn iota. rewrite <- (Hgot got eq_refl).
    set (s' := if nz (Z.land opt RT_EVENT_FLAG_CLEAR) then Z.land s (not32 set) else s).
    set (k2 := upd_evt (<[a := Event s']>) k1).
    rewrite (bind_done _ _ _ tt k2).
    2: { unfold k2, s', set_evt. destruct (nz (Z.land opt RT_EVENT_FLAG_CLEAR)); cbn [when]; [done|]. unfold ret. f_equal. kext. by rewrite insert_id. }
    rewrite (after (thr_done _ k2 _ (rn_thr _ _ HR1))). cbn [error set_error].
    eexists _, k2, s', l. split; [done|]. split; [apply kbut_set_evt, HR1|]. split; [|by split; [apply RecvGot|]].
    split; [done|cbn; apply lookup_insert_eq|done| |].
    + unfold s'. destruct (nz (Z.land opt RT_EVENT_FLAG_CLEAR)); [|done]. by apply land_u32_range.
    + apply Hl1; [unfold s'; destruct (nz (Z.land opt RT_EVENT_FLAG_CLEAR)); [apply submask_land|apply Z.land_diag]|]. intros t Hne. cbn. by rewrite lookup_insert_ne.
  - rewrite bool_decide_eq_false_2 by (by intros []). cbn iota. destruct (Z.eqb_spec timeout 0) as [->|Ht0].
    + rewrite (after (mod_thr_done _ _ _ _ (rn_thr _ _ HR1))).
      pose proof (running_error k1 _ (- RT_ETIMEOUT) HR1) as HR2. set (k2 := upd_thr _ k1) in *.
      rewrite (after (thr_done _ k2 _ (rn_thr _ _ HR2))). cbn [error set_error].
      eexists _, k2, s, l. split; [done|]. split; [apply HR2|]. split; [|by split; [apply RecvFail|]].
      split; [done..|]. apply Hl1; [apply Z.land_diag|]. intros t Hne. cbn. by rewrite !lookup_insert_ne.
    + rewrite (after (mod_thr_done _ _ _ _ (rn_thr _ _ HR1))).
      erewrite bind_done; [|apply mod_thr_done; cbn; apply lookup_insert_eq].
      erewrite bind_done; [|apply hdr_done; exact Hh].
      destruct (event_recv_wait k th a s l set opt timeout h HR HA Hh Htm Ees) as (k' & l1 & l2 & E & HK' & HA' & El & _ & Eth & Hc & Htime).
      eexists Blocked, k', s, (l1 ++ k_cur k :: l2). split; [|split; [done|split; [done|split; [by apply RecvWait|done]]]].
      rewrite <- E. f_equal. unfold k1. kext. by rewrite !insert_insert_eq.
Qed.
