(* ===== verification/Circ.v ===== *)
(** * Circular buffers

    The data structure behind mailboxes and ring buffers: a queue [q] stored in
    an array from index [out] on, modulo the length of the array. *)

From S2P Require Import Prelude.

Section circ.
Context {A : Type}.
Implicit Types (buf q : list A) (out : Z).

Definition blen buf : Z := Z.of_nat (length buf).

Lemma blen_app buf buf' : blen (buf ++ buf') = blen buf + blen buf'.
Proof. unfold blen. rewrite length_app. lia. Qed.

(** [buf] holds [q] from [out] on. *)
Definition circ buf out q : Prop :=
  0 <= out < blen buf /\ (length q <= length buf)%nat /\
  forall i x, q !! i = Some x -> buf !! Z.to_nat ((out + Z.of_nat i) mod blen buf) = Some x.

(** [++i; if (i >= size) i = 0;]. *)
Definition wrap_incr (i size : Z) : Z := if size <=? i + 1 then 0 else i + 1.

Lemma wrap_incr_mod i size : 0 <= i < size -> wrap_incr i size = (i + 1) mod size.
Proof.
  intros Hi. unfold wrap_incr. destruct (Z.leb_spec size (i + 1)).
  - replace (i + 1) with size by lia. by rewrite Z.mod_same by lia.
  - by rewrite Z.mod_small by lia.
Qed.

Lemma circ_index_inj n out i j :
  0 <= out < n -> 0 <= i < n -> 0 <= j < n -> (out + i) mod n = (out + j) mod n -> i = j.
Proof.
  intros Ho Hi Hj E. pose proof (Z.div_mod (out + i) n ltac:(lia)) as H1. pose proof (Z.div_mod (out + j) n ltac:(lia)) as H2.
  rewrite E in H1. assert (Hd : i - j = n * ((out + i) / n - (out + j) / n)) by lia.
  destruct (Z.lt_trichotomy ((out + i) / n - (out + j) / n) 0) as [?|[Hz|?]]; [nia|rewrite Hz in Hd; lia|nia].
Qed.

(** Appending at the in-offset. *)
Lemma circ_push buf out q x :
  circ buf out q -> (length q < length buf)%nat ->
  circ (<[Z.to_nat ((out + Z.of_nat (length q)) mod blen buf) := x]> buf) out (q ++ [x]).
Proof.
  intros (Ho & Hl & Hq) Hlt. unfold circ, blen in *. rewrite length_insert. rewrite length_app. cbn.
  split_and!; [lia..|]. intros i y [Hi|[Hge Hi]]%lookup_app_Some.
  - rewrite list_lookup_insert_ne; [by apply Hq|]. apply lookup_lt_Some in Hi. intros E.
    assert (Z.of_nat (length q) = Z.of_nat i); [|lia].
    eapply (circ_index_inj (Z.of_nat (length buf)) out); [lia..|].
    pose proof (Z.mod_pos_bound (out + Z.of_nat (length q)) (Z.of_nat (length buf))).
    pose proof (Z.mod_pos_bound (out + Z.of_nat i) (Z.of_nat (length buf))). lia.
  - apply list_lookup_singleton_Some in Hi as [Hi ->]. replace i with (length q) by lia.
    apply list_lookup_insert_eq. pose proof (Z.mod_pos_bound (out + Z.of_nat (length q)) (Z.of_nat (length buf))). lia.
Qed.

(** Taking at the out-offset. *)
Lemma circ_pop buf out x q :
  circ buf out (x :: q) -> buf !! Z.to_nat out = Some x /\ circ buf ((out + 1) mod blen buf) q.
Proof.
  intros (Ho & Hl & Hq). cbn in Hl. split.
  - specialize (Hq 0%nat x eq_refl). by rewrite Z.add_0_r, Z.mod_small in Hq.
  - split_and!; [apply Z.mod_pos_bound; lia..|lia|]. intros i y Hi. specialize (Hq (S i) y Hi).
    rewrite Zplus_mod_idemp_l. by replace (out + 1 + Z.of_nat i) with (out + Z.of_nat (S i)) by lia.
Qed.

Lemma circ_nil buf out : 0 <= out < blen buf -> circ buf out [].
Proof. intros. split_and!; [lia..|cbn; lia|]. by intros i x. Qed.

(** ** Blocks of elements *)

(** The last [n] elements. *)
Definition lastn (n : nat) (l : list A) : list A := drop (length l - n) l.

Lemma lastn_all n l : (length l <= n)%nat -> lastn n l = l.
Proof. intros. unfold lastn. by replace (length l - n)%nat with 0%nat by lia. Qed.

Lemma lastn_app n l l' : lastn n (lastn n l ++ l') = lastn n (l ++ l').
Proof.
  unfold lastn. rewrite !length_app, length_drop, !drop_app, length_drop. rewrite drop_drop. f_equal; f_equal; lia.
Qed.

Lemma length_lastn n l : (n <= length l)%nat -> length (lastn n l) = n.
Proof. intros. unfold lastn. rewrite length_drop. lia. Qed.

(** [buf'] is [buf] with [xs] written from index [w] on, around the end. *)
Definition written buf (w : Z) (xs : list A) buf' : Prop :=
  length buf' = length buf /\
  (forall k x, xs !! k = Some x -> buf' !! Z.to_nat ((w + Z.of_nat k) mod blen buf) = Some x) /\
  (forall j : Z, 0 <= j < blen buf -> (forall k, 0 <= k < blen xs -> (w + k) mod blen buf <> j) ->
     buf' !! Z.to_nat j = buf !! Z.to_nat j).

(** Whatever part of the stored data and the block written behind it still fits. *)
Lemma written_cells buf out q xs buf' p x :
  circ buf out q -> written buf ((out + blen q) mod blen buf) xs buf' ->
  (length xs <= length buf)%nat -> (length q + length xs <= p + length buf)%nat ->
  (q ++ xs) !! p = Some x -> buf' !! Z.to_nat ((out + Z.of_nat p) mod blen buf) = Some x.
Proof.
  intros (Ho & Hl & Hq) (Hlen & Hin & Hout) Hxs Hp [Hi|[Hge Hi]]%lookup_app_Some; unfold blen in *.
  - rewrite Hout; [by apply Hq|by apply Z.mod_pos_bound; lia|]. apply lookup_lt_Some in Hi.
    intros k Hk E. rewrite Zplus_mod_idemp_l, <- Z.add_assoc in E.
    destruct (Z.lt_ge_cases (Z.of_nat (length q) + k) (Z.of_nat (length buf))).
    + apply circ_index_inj in E; lia.
    + replace (out + (Z.of_nat (length q) + k))
        with (out + (Z.of_nat (length q) + k - Z.of_nat (length buf)) + 1 * Z.of_nat (length buf)) in E by lia.
      rewrite Z_mod_plus_full in E. apply circ_index_inj in E; lia.
  - specialize (Hin _ _ Hi). rewrite Zplus_mod_idemp_l in Hin. rewrite <- Hin. do 3 f_equal. lia.
Qed.

Lemma circ_write buf out q xs buf' :
  circ buf out q -> written buf ((out + blen q) mod blen buf) xs buf' ->
  (length q + length xs <= length buf)%nat -> circ buf' out (q ++ xs).
Proof.
  intros Hc Hw Hle. pose proof Hc as (Ho & _ & _). pose proof Hw as (Hlen & _ & _).
  unfold circ, blen. rewrite Hlen, length_app. split_and!; [apply Ho|apply Ho|lia|].
  intros i x Hi. eapply written_cells; eauto; lia.
Qed.

(** A block that overtakes the read position leaves a full buffer. *)
Lemma circ_over buf out q xs buf' :
  circ buf out q -> written buf ((out + blen q) mod blen buf) xs buf' ->
  (length xs <= length buf <= length q + length xs)%nat ->
  circ buf' ((out + blen q + blen xs) mod blen buf) (lastn (length buf) (q ++ xs)).
Proof.
  intros Hc Hw Hle. pose proof Hc as (Ho & _ & _). pose proof Hw as (Hlen & _ & _).
  unfold blen in *. rewrite <- Hlen.
  assert (Hl : length (lastn (length buf') (q ++ xs)) = length buf')
    by (apply length_lastn; rewrite length_app; lia).
  unfold circ. rewrite Hl. split_and!; unfold blen; [apply Z.mod_pos_bound; lia..|lia|].
  intros i x Hi. unfold lastn in Hi. rewrite lookup_drop, length_app in Hi.
  assert ((i < length buf')%nat) by (apply lookup_lt_Some in Hi; rewrite length_app in Hi; lia).
  rewrite <- (written_cells buf out q xs buf' (length q + length xs - length buf' + i) x Hc Hw
    ltac:(lia) ltac:(lia) Hi). unfold blen.
  rewrite Zplus_mod_idemp_l, Hlen. do 2 f_equal.
  rewrite <- (Z_mod_plus_full (out + Z.of_nat (length q + length xs - length buf + i)) 1). f_equal. lia.
Qed.

Lemma circ_drop buf out q n :
  circ buf out q -> (n <= length q)%nat -> circ buf ((out + Z.of_nat n) mod blen buf) (drop n q).
Proof.
  intros (Ho & Hl & Hq) Hn. split_and!; [apply Z.mod_pos_bound; lia..|rewrite length_drop; lia|].
  intros i x Hi. rewrite lookup_drop in Hi. rewrite Zplus_mod_idemp_l.
  rewrite <- (Hq _ _ Hi). do 3 f_equal. lia.
Qed.

(** The block behind the read position, before and around the end of the array. *)
Lemma circ_take_lin buf out q n :
  circ buf out q -> (n <= length q)%nat -> out + Z.of_nat n <= blen buf ->
  take n (drop (Z.to_nat out) buf) = take n q.
Proof.
  intros (Ho & Hl & Hq) Hn Hb. unfold blen in *. apply list_eq_same_length with n.
  - rewrite length_take. lia.
  - rewrite length_take, length_drop. lia.
  - intros i x y Hi. rewrite !lookup_take_lt, lookup_drop by lia. intros Hx Hy.
    specialize (Hq _ _ Hy). rewrite Z.mod_small in Hq by lia.
    replace (Z.to_nat (out + Z.of_nat i)) with (Z.to_nat out + i)%nat in Hq by lia. congruence.
Qed.

Lemma circ_take_wrap buf out q n d :
  circ buf out q -> n <= blen q -> d = blen buf - out -> d <= n ->
  take (Z.to_nat d) (drop (Z.to_nat out) buf) ++
  take (Z.to_nat (n - d)) (drop (Z.to_nat 0) buf) = take (Z.to_nat n) q.
Proof.
  intros Hc Hn -> Hd. pose proof Hc as (Ho & Hl & _). unfold blen in *.
  set (d := Z.to_nat (Z.of_nat (length buf) - out)).
  rewrite (circ_take_lin buf out q) by (unfold blen; first [done|lia]).
  assert (Hc' := circ_drop buf out q d Hc ltac:(lia)). unfold blen in Hc'.
  replace (out + Z.of_nat d) with (Z.of_nat (length buf)) in Hc' by lia. rewrite Z_mod_same_full in Hc'.
  rewrite (circ_take_lin buf 0 (drop d q)) by (rewrite ?length_drop; unfold blen; first [done|lia]).
  rewrite take_drop_commute. replace (d + _)%nat with (Z.to_nat n) by lia.
  rewrite <- (take_drop d (take (Z.to_nat n) q)) at 2. rewrite take_take. do 2 f_equal. lia.
Qed.
End circ.
