(* ===== verification/Mailbox.v ===== *)
(** * Mailboxes (src/ipc.c, lines 1305-1769)

    A mailbox is a bounded FIFO of 32-bit words in a circular array with two
    lists of waiting threads, receivers and senders.  [mb_at k a cap q rcv snd]
    is its contract: the mailbox at [a] has room for [cap] words and holds the
    words [q].  The theorems show that [rt_mb_send_wait] appends to [q],
    [rt_mb_recv] takes from its front, and that the array indices never leave
    the array. *)

From S2P Require Import Prelude RtList Exec KService Mem Kernel Object Scheduler Timer Thread Ipc Circ.

(** ** Operations *)

Definition mbx (a : Z) : K rt_mailbox := deref (fun k => k_mb k !! a).
Definition set_mbx (a : Z) (m : rt_mailbox) : K unit := modify (upd_mb (<[a := m]>)).

(** [msgpool] points to the array [buf]. *)
Definition rt_mb_init (a : Z) (name : list Z) (msgpool : Z) (buf : list Z) (size flag : Z) : K Z :=
  rt_assert (negb (a =? RT_NULL));;;
  rt_object_init (Obj a) RT_Object_Class_MailBox name;;;
  set_flag (Obj a) (fun _ => u8 flag);;;
  rt_ipc_object_init (LSuspend a);;;
  set_mbx a (Mailbox msgpool buf (u16 size) 0 0 0);;;
  rt_ipc_object_init (LSender a);;;
  ret RT_EOK.

Definition rt_mb_detach (a : Z) : K Z :=
  ipc_check_arg a RT_Object_Class_MailBox;;;
  s <- rt_object_is_systemobject (Obj a);; rt_assert s;;;
  rt_ipc_list_resume_all (LSuspend a);;;
  rt_ipc_list_resume_all (LSender a);;;
  rt_object_detach (Obj a);;;
  ret RT_EOK.

(** The words of a fresh array are arbitrary; [pool] gives them. *)
Definition rt_mb_create (pool : Z -> list Z) (name : list Z) (size flag : Z) : K Z :=
  not_in_interrupt;;;
  a <- rt_object_allocate RT_Object_Class_MailBox name;;
  if a =? RT_NULL then ret a
  else
    set_flag (Obj a) (fun _ => u8 flag);;;
    rt_ipc_object_init (LSuspend a);;;
    p <- kmalloc (u32 (u16 size * 4));;
    if p =? RT_NULL then rt_object_delete a;;; ret RT_NULL
    else
      set_mbx a (Mailbox p (pool (u16 size)) (u16 size) 0 0 0);;;
      rt_ipc_object_init (LSender a);;;
      ret a.

Definition rt_mb_delete (a : Z) : K Z :=
  not_in_interrupt;;;
  ipc_check_arg a RT_Object_Class_MailBox;;;
  s <- rt_object_is_systemobject (Obj a);; rt_assert (negb s);;;
  rt_ipc_list_resume_all (LSuspend a);;;
  rt_ipc_list_resume_all (LSender a);;;
  m <- mbx a;; kfree (mb_pool m);;;
  rt_object_delete a;;;
  ret RT_EOK.

(** The word goes in, behind the loop of [rt_mb_send_wait]. *)
Definition mb_put (a value : Z) : K unit :=
  m <- mbx a;;
  if (0 <=? in_offset m) && (in_offset m <? blen (mb_buf m)) then
    set_mbx a (Mailbox (mb_pool m) (<[Z.to_nat (in_offset m) := value]> (mb_buf m)) (mb_size m)
      (u16 (mb_entry m + 1)) (wrap_incr (in_offset m) (mb_size m)) (out_offset m));;;
    ipc_wake_first (LSuspend a)
  else stuck Undefined.

(** The head of the loop of [rt_mb_send_wait]; [inr] goes back to it. *)
Definition mb_send_loop (a t value timeout : Z) : K (outcome (Z + Z)) :=
  m <- mbx a;;
  if mb_entry m =? mb_size m then
    mod_thr t (set_error RT_EOK);;;
    if timeout =? 0 then ret (Returned (inl (- RT_EFULL)))
    else loop_wait a t timeout (LSender a) (wait_resumed t timeout)
  else mb_put a value;;; ret (Returned (inl RT_EOK)).

Definition rt_mb_send_wait (a value timeout : Z) : K (outcome (Z + Z)) :=
  ipc_check_arg a RT_Object_Class_MailBox;;;
  t <- rt_thread_self;;
  m <- mbx a;;
  if (mb_entry m =? mb_size m) && (timeout =? 0) then ret (Returned (inl (- RT_EFULL)))
  else mb_send_loop a t value timeout.

Definition rt_mb_send (a value : Z) : K (outcome (Z + Z)) := rt_mb_send_wait a value 0.

(** The word comes out, behind the loop of [rt_mb_recv]. *)
Definition mb_get (a : Z) : K Z :=
  m <- mbx a;;
  value <- deref (fun _ => if 0 <=? out_offset m then mb_buf m !! Z.to_nat (out_offset m) else None);;
  set_mbx a (Mailbox (mb_pool m) (mb_buf m) (mb_size m)
    (u16 (mb_entry m - 1)) (in_offset m) (wrap_incr (out_offset m) (mb_size m)));;;
  ipc_wake_first (LSender a);;;
  ret value.

(** The error code, and the word stored to [*value] on success. *)
Definition mb_recv_loop (a t timeout : Z) : K (outcome (Z * option Z + Z)) :=
  m <- mbx a;;
  if mb_entry m =? 0 then
    mod_thr t (set_error RT_EOK);;;
    if timeout =? 0 then
      mod_thr t (set_error (- RT_ETIMEOUT));;; ret (Returned (inl (- RT_ETIMEOUT, None)))
    else loop_wait a t timeout (LSuspend a) (recv_resumed t timeout)
  else v <- mb_get a;; ret (Returned (inl (RT_EOK, Some v))).

Definition rt_mb_recv (a timeout : Z) : K (outcome (Z * option Z + Z)) :=
  ipc_check_arg a RT_Object_Class_MailBox;;;
  t <- rt_thread_self;;
  m <- mbx a;;
  if (mb_entry m =? 0) && (timeout =? 0) then ret (Returned (inl (- RT_ETIMEOUT, None)))
  else mb_recv_loop a t timeout.

Definition rt_mb_control (a cmd arg : Z) : K Z :=
  ipc_check_arg a RT_Object_Class_MailBox;;;
  if cmd =? RT_IPC_CMD_RESET then
    rt_ipc_list_resume_all (LSuspend a);;;
    rt_ipc_list_resume_all (LSender a);;;
    m <- mbx a;;
    set_mbx a (Mailbox (mb_pool m) (mb_buf m) (mb_size m) 0 0 0);;;
    rt_schedule;;;
    ret RT_EOK
  else ret (- RT_ERROR).

(** ** The contract *)

Definition qlen (q : list Z) : Z := Z.of_nat (length q).

(** The mailbox record stores the queue [q] in an array of [cap] words. *)
Record mb_rep (m : rt_mailbox) (cap : Z) (q : list Z) : Prop := MbRep {
  mr_cap : 0 < cap < 2 ^ 16;
  mr_size : mb_size m = cap;
  mr_len : blen (mb_buf m) = cap;
  mr_entry : mb_entry m = qlen q;
  mr_in : in_offset m = (out_offset m + qlen q) mod cap;
  mr_circ : circ (mb_buf m) (out_offset m) q
}.

Record mb_at (k : kernel) (a cap : Z) (q rcv snd : list Z) : Prop := MbAt {
  mt_obj : ipc_obj k a RT_Object_Class_MailBox;
  mt_val : exists m, k_mb k !! a = Some m /\ mb_rep m cap q;
  mt_rcv : k_tl k !! LSuspend a = Some rcv;
  mt_snd : k_tl k !! LSender a = Some snd
}.

Lemma mbx_done k a m : k_mb k !! a = Some m -> mbx a k = Done m k.
Proof. intros. unfold mbx. by apply deref_some. Qed.

Lemma kbut_set_mb X P lo k a m : kbut X P lo k -> kbut X P lo (upd_mb (<[a := m]>) k).
Proof. intros HK. by eapply kbut_frame. Qed.

Lemma mb_rep_bounds m cap q : mb_rep m cap q -> 0 <= qlen q <= cap /\ 0 <= out_offset m < cap /\ 0 <= in_offset m < cap.
Proof.
  intros [Hc _ Hl _ Hi (Ho & Hq & _)]. unfold blen, qlen in *. rewrite Hi.
  pose proof (Z.mod_pos_bound (out_offset m + Z.of_nat (length q)) cap). lia.
Qed.

(** The record after a put and after a get. *)
Lemma mb_rep_put m cap q v :
  mb_rep m cap q -> qlen q < cap ->
  mb_rep (Mailbox (mb_pool m) (<[Z.to_nat (in_offset m) := v]> (mb_buf m)) (mb_size m)
    (u16 (mb_entry m + 1)) (wrap_incr (in_offset m) (mb_size m)) (out_offset m)) cap (q ++ [v]).
Proof.
  intros HR Hlt. destruct (mb_rep_bounds _ _ _ HR) as (H1 & H2 & H3). destruct HR as [Hc Hs Hl He Hi Hq].
  assert (Hlen : qlen (q ++ [v]) = qlen q + 1) by (unfold qlen; rewrite length_app; cbn; lia).
  split; cbn [mb_size mb_buf mb_entry in_offset out_offset]; [done|done| | | |].
  - unfold blen in *. by rewrite length_insert.
  - rewrite He, Hlen. unfold u16. apply Z.mod_small. lia.
  - rewrite Hs, wrap_incr_mod, Hlen, Hi by done. by rewrite Zplus_mod_idemp_l, Z.add_assoc.
  - rewrite Hi. unfold qlen. rewrite <- Hl. apply circ_push; [done|]. unfold blen, qlen in *. lia.
Qed.

Lemma mb_rep_get m cap v q :
  mb_rep m cap (v :: q) ->
  mb_buf m !! Z.to_nat (out_offset m) = Some v /\
  mb_rep (Mailbox (mb_pool m) (mb_buf m) (mb_size m) (u16 (mb_entry m - 1)) (in_offset m)
    (wrap_incr (out_offset m) (mb_size m))) cap q.
Proof.
  intros HR. destruct (mb_rep_bounds _ _ _ HR) as (H1 & H2 & H3). destruct HR as [Hc Hs Hl He Hi Hq].
  assert (Hlen : qlen (v :: q) = qlen q + 1) by (unfold qlen; cbn; lia).
  destruct (circ_pop _ _ _ _ Hq) as [Hv Hq']. split; [done|].
  split; cbn [mb_size mb_buf mb_entry in_offset out_offset]; [done..| | |].
  - rewrite He, Hlen. unfold u16. rewrite Z.mod_small; [lia|]. unfold qlen in *. lia.
  - rewrite Hs, wrap_incr_mod, Hi, Hlen by done. rewrite Zplus_mod_idemp_l. f_equal. lia.
  - rewrite Hs, wrap_incr_mod, <- Hl by lia. done.
Qed.

Lemma mb_at_frame k k' a cap q rcv snd rcv' snd' :
  frame k k' -> mb_at k a cap q rcv snd -> k_tl k' !! LSuspend a = Some rcv' -> k_tl k' !! LSender a = Some snd' ->
  mb_at k' a cap q rcv' snd'.
Proof. intros HF [Ho Hv _ _] Hr Hs. split; try done; [by eapply ipc_obj_frame|by rewrite (fr_mb _ _ HF)]. Qed.

Lemma mb_put_done k a cap q rcv snd v :
  kinv k -> k_cur k <> RT_NULL -> mb_at k a cap q rcv snd -> qlen q < cap ->
  exists k', mb_put a v k = Done tt k' /\ kinv k' /\ mb_at k' a cap (q ++ [v]) (tail rcv) snd /\ woke_first k k' rcv.
Proof.
  intros HK Hc [Ho (m & Hv & HR) Hr Hs] Hlt. destruct (mb_rep_bounds _ _ _ HR) as (_ & _ & Hin).
  pose proof (mb_rep_put m cap q v HR Hlt) as HR'. set (m' := Mailbox _ _ _ _ _ _) in HR'.
  set (k1 := upd_mb (<[a := m']>) k). assert (HK1 : kinv k1) by (by apply kbut_set_mb).
  destruct (wake_first_done k1 (LSuspend a) rcv HK1 I Hr Hc) as (k' & E & HK' & HF & Hw & Etl).
  exists k'. split_and!; try done.
  - unfold mb_put. rewrite (after (mbx_done _ _ _ Hv)). rewrite (mr_len _ _ _ HR).
    destruct (Z.leb_spec 0 (in_offset m)); [|lia]. destruct (Z.ltb_spec (in_offset m) cap); [|lia].
    cbn [andb]. unfold set_mbx. mstep. exact E.
  - eapply (mb_at_frame k1 k' a cap (q ++ [v]) rcv snd); [done| |by rewrite Etl, decide_True|by rewrite Etl, decide_False].
    split; [done| |done|done]. exists m'. split; [cbn; apply lookup_insert_eq|done].
Qed.

Lemma mb_get_done k a cap v q rcv snd :
  kinv k -> k_cur k <> RT_NULL -> mb_at k a cap (v :: q) rcv snd ->
  exists k', mb_get a k = Done v k' /\ kinv k' /\ mb_at k' a cap q rcv (tail snd) /\ woke_first k k' snd.
Proof.
  intros HK Hc [Ho (m & Hv & HR) Hr Hs]. destruct (mb_rep_bounds _ _ _ HR) as (_ & Hout & _).
  destruct (mb_rep_get m cap v q HR) as [Hval HR']. set (m' := Mailbox _ _ _ _ _ _) in HR'.
  set (k1 := upd_mb (<[a := m']>) k). assert (HK1 : kinv k1) by (by apply kbut_set_mb).
  destruct (wake_first_done k1 (LSender a) snd HK1 I Hs Hc) as (k' & E & HK' & HF & Hw & Etl).
  exists k'. split_and!; try done.
  - unfold mb_get. rewrite (after (mbx_done _ _ _ Hv)).
    destruct (Z.leb_spec 0 (out_offset m)); [|lia]. erewrite bind_done; [|apply deref_some; exact Hval].
    unfold set_mbx. mstep. by rewrite (after E).
  - eapply (mb_at_frame k1 k' a cap q rcv snd); [done| |by rewrite Etl, decide_False|by rewrite Etl, decide_True].
    split; [done| |done|done]. exists m'. split; [cbn; apply lookup_insert_eq|done].
Qed.

(** C19: [rt_mb_send_wait] by the running thread: with room in the mailbox the word
    is appended behind all words sent before, and the first waiting receiver is
    woken; a full mailbox makes the call fail at once without a waiting time and
    otherwise queues the caller among the senders, with its timer armed.  The
    mailbox never holds more than its capacity and stays inside its array. *)
Theorem rt_mb_send_wait_correct k th a cap q rcv snd v timeout h :
  running k th -> mb_at k a cap q rcv snd -> k_hdr k !! Obj a = Some h -> timeout <= max_off ->
  exists r k', rt_mb_send_wait a v timeout k = Done r k' /\ kinv k' /\
    if decide (qlen q < cap) then
      r = Returned (inl RT_EOK) /\ mb_at k' a cap (q ++ [v]) (tail rcv) snd /\ woke_first k k' rcv
    else if decide (timeout = 0) then
      r = Returned (inl (- RT_EFULL)) /\ k' = k
    else
      r = Blocked /\ waits k k' th timeout /\
      exists l1 l2, snd = l1 ++ l2 /\ placed (k_thr k) (oflag h) (current_priority th) l1 l2 /\
        mb_at k' a cap q rcv (l1 ++ k_cur k :: l2).
Proof.
  intros HR HA Hh Htm. pose proof HA as [Ho (m & Hv & Hrep) Hr Hs]. pose proof (rn_inv _ _ HR) as HK.
  destruct (mb_rep_bounds _ _ _ Hrep) as (Hq & _).
  unfold rt_mb_send_wait. rewrite (after (ipc_check_done _ _ _ Ho)). unfold rt_thread_self. mstep.
  rewrite (after (mbx_done _ _ _ Hv)). rewrite (mr_size _ _ _ Hrep), (mr_entry _ _ _ Hrep).
  unfold mb_send_loop. destruct (Z.eqb_spec (qlen q) cap) as [Ef|Ef]; cbn [andb].
  - destruct (decide (qlen q < cap)); [lia|]. destruct (Z.eqb_spec timeout 0) as [->|Ht0]; [by eexists _, k|].
    destruct (decide (timeout = 0)); [done|]. rewrite (after (mbx_done _ _ _ Hv)).
    rewrite (mr_size _ _ _ Hrep), (mr_entry _ _ _ Hrep), Ef, Z.eqb_refl.
    rewrite (after (mod_thr_done _ _ _ _ (rn_thr _ _ HR))). destruct (Z.eqb_spec timeout 0); [done|].
    destruct (loop_wait_done k th a _ (LSender a) snd timeout (wait_resumed (k_cur k) timeout) h HR Ho Hh I Hs Htm)
      as (k' & l1 & l2 & E & HK' & HF & El & Hp & Hw & Etl).
    eexists Blocked, k'. split; [exact E|]. split; [done|]. split; [done|]. split; [done|]. exists l1, l2. split; [done|]. split; [done|].
    eapply mb_at_frame; [exact HF|done|by rewrite Etl, decide_False|by rewrite Etl, decide_True].
  - destruct (decide (qlen q < cap)); [|lia]. rewrite (after (mbx_done _ _ _ Hv)).
    rewrite (mr_size _ _ _ Hrep), (mr_entry _ _ _ Hrep). destruct (Z.eqb_spec (qlen q) cap); [lia|].
    destruct (mb_put_done k a cap q rcv snd v HK (running_nonnull _ _ HR) HA ltac:(lia)) as (k' & E & HK' & HA' & Hw).
    rewrite (after E). by eexists _, k'.
Qed.

(** [rt_mb_recv] by the running thread: it gets the word that was sent first,
    and the first waiting sender is woken; an empty mailbox makes the call fail
    at once without a waiting time and otherwise queues the caller among the
    receivers, with its timer armed. *)
Theorem rt_mb_recv_correct k th a cap q rcv snd timeout h :
  running k th -> mb_at k a cap q rcv snd -> k_hdr k !! Obj a = Some h -> timeout <= max_off ->
  exists r k', rt_mb_recv a timeout k = Done r k' /\ kinv k' /\
    match q with
    | v :: q' => r = Returned (inl (RT_EOK, Some v)) /\ mb_at k' a cap q' rcv (tail snd) /\ woke_first k k' snd
    | [] =>
        if decide (timeout = 0) then r = Returned (inl (- RT_ETIMEOUT, None)) /\ k' = k
        else r = Blocked /\ waits k k' th timeout /\
          exists l1 l2, rcv = l1 ++ l2 /\ placed (k_thr k) (oflag h) (current_priority th) l1 l2 /\
            mb_at k' a cap [] (l1 ++ k_cur k :: l2) snd
    end.
Proof.
  intros HR HA Hh Htm. pose proof HA as [Ho (m & Hv & Hrep) Hr Hs]. pose proof (rn_inv _ _ HR) as HK.
  unfold rt_mb_recv. rewrite (after (ipc_check_done _ _ _ Ho)). unfold rt_thread_self. mstep.
  rewrite (after (mbx_done _ _ _ Hv)). rewrite (mr_entry _ _ _ Hrep).
  unfold mb_recv_loop. destruct q as [|v q].
  - change (qlen [] =? 0) with true. cbn [andb]. destruct (Z.eqb_spec timeout 0) as [->|Ht0]; [by eexists _, k|].
    destruct (decide (timeout = 0)); [done|]. rewrite (after (mbx_done _ _ _ Hv)).
    rewrite (mr_entry _ _ _ Hrep). change (qlen [] =? 0) with true. cbn iota.
    rewrite (after (mod_thr_done _ _ _ _ (rn_thr _ _ HR))). destruct (Z.eqb_spec timeout 0); [done|].
    destruct (loop_wait_done k th a _ (LSuspend a) rcv timeout (recv_resumed (A := Z) (k_cur k) timeout) h HR Ho Hh I Hr Htm)
      as (k' & l1 & l2 & E & HK' & HF & El & Hp & Hw & Etl).
    eexists Blocked, k'. split; [exact E|]. split; [done|]. split; [done|]. split; [done|]. exists l1, l2. split; [done|]. split; [done|].
    eapply mb_at_frame; [exact HF|done|by rewrite Etl, decide_True|by rewrite Etl, decide_False].
  - assert (Hne : (qlen (v :: q) =? 0) = false) by (unfold qlen; apply Z.eqb_neq; cbn; lia). rewrite Hne. cbn [andb].
    rewrite (after (mbx_done _ _ _ Hv)), (mr_entry _ _ _ Hrep), Hne.
    destruct (mb_get_done k a cap v q rcv snd HK (running_nonnull _ _ HR) HA) as (k' & E & HK' & HA' & Hw).
    rewrite (after E). by eexists _, k'.
Qed.
