(* ===== verification/Slist.v ===== *)
(** * Singly linked lists threaded through memory

    The free lists of message queues and memory pools and the list of queued
    messages: [lseg nx h l] says that following the links [nx] from [h] visits
    the nodes [l] and ends at RT_NULL. *)

From S2P Require Import Prelude Kernel.

Fixpoint lseg (nx : Z -> option Z) (h : Z) (l : list Z) : Prop :=
  match l with
  | [] => h = RT_NULL
  | x :: l => h = x /\ x <> RT_NULL /\ exists n, nx x = Some n /\ lseg nx n l
  end.

Lemma lseg_ext nx nx' h l : lseg nx h l -> (forall x, x ∈ l -> nx' x = nx x) -> lseg nx' h l.
Proof.
  revert h. induction l as [|x l IH]; intros h; [done|]. intros (-> & Hx & n & Hn & Hl) HE.
  split; [done|]. split; [done|]. exists n. split; [by rewrite HE by (apply elem_of_cons; by left)|].
  apply IH; [done|]. intros y Hy. apply HE, elem_of_cons. by right.
Qed.

Lemma lseg_null nx h : lseg nx h [] <-> h = RT_NULL.
Proof. done. Qed.

(** An empty list is the one whose head is RT_NULL. *)
Lemma lseg_head nx h l : lseg nx h l -> h = RT_NULL <-> l = [].
Proof. destruct l; cbn; [tauto|]. intros (-> & ? & _). split; [done|]. discriminate. Qed.

Lemma lseg_nonnull nx h l : lseg nx h l -> RT_NULL ∉ l.
Proof.
  revert h. induction l as [|x l IH]; intros h; [by intros _ ?%not_elem_of_nil|]. intros (_ & Hx & n & _ & Hl).
  apply not_elem_of_cons. split; [done|eauto].
Qed.

Lemma lseg_defined nx h l x : lseg nx h l -> x ∈ l -> is_Some (nx x).
Proof.
  revert h. induction l as [|y l IH]; intros h; [by intros _ ?%not_elem_of_nil|]. intros (_ & _ & n & Hn & Hl).
  intros [->|Hin]%elem_of_cons; eauto.
Qed.

(** A node is linked behind the last one. *)
Lemma lseg_snoc nx nx' h l y x :
  lseg nx h (l ++ [y]) -> y ∉ l -> (forall z, z ∈ l -> nx' z = nx z) -> nx' y = Some x -> nx' x = Some RT_NULL -> x <> RT_NULL ->
  lseg nx' h (l ++ [y; x]).
Proof.
  revert h. induction l as [|z l IH]; intros h; cbn [app].
  - intros (-> & Hy & _) _ _ H1 H2 Hx. split; [done|]. split; [done|]. exists x. split; [done|].
    split; [done|]. split; [done|]. by exists RT_NULL.
  - intros (-> & Hz & n & Hn & Hl) Hy HE H1 H2 Hx. apply not_elem_of_cons in Hy as [_ Hy]. split; [done|]. split; [done|].
    exists n. split; [by rewrite HE by (apply elem_of_cons; by left)|]. apply IH; try done.
    intros w Hw. apply HE, elem_of_cons. by right.
Qed.
