(* ===== verification/MsgQueue.v ===== *)
(** * Message queues (src/ipc.c, lines 1792-2337)

    A message queue keeps its messages in a pool of nodes of equal size: a list
    of the queued messages, with a pointer to its last node, and a list of the
    free nodes.  [mq_rep m qs] says that the record [m] with its pool holds the
    messages [qs], oldest first, that every node of the pool is in exactly one
    of the two lists, and that the counters agree; [mq_at] adds the receivers.
    The theorems show that [rt_mq_send] appends, [rt_mq_urgent] puts in front,
    [rt_mq_recv] takes the first, and that no node is ever lost. *)

From S2P Require Import Prelude RtList Exec KService Mem Kernel Object Scheduler Timer Thread Ipc Slist.

(** ** Operations *)

Definition mqx (a : Z) : K rt_messagequeue := deref (fun k => k_mq k !! a).
Definition set_mqx (a : Z) (m : rt_messagequeue) : K unit := modify (upd_mq (<[a := m]>)).

(** The size of [struct rt_mq_message]. *)
Definition MQ_HEADER : Z := 4.

(** Writes to single fields. *)
Definition set_node (x : Z) (n : rt_mq_message) (m : rt_messagequeue) : rt_messagequeue :=
  MessageQueue (mq_pool m) (<[x := n]> (mq_nodes m)) (msg_size m) (max_msgs m) (mq_entry m)
    (msg_queue_head m) (msg_queue_tail m) (msg_queue_free m).
Definition set_lists (entry head tail free : Z) (m : rt_messagequeue) : rt_messagequeue :=
  MessageQueue (mq_pool m) (mq_nodes m) (msg_size m) (max_msgs m) entry head tail free.

(** The loop that threads the free list through the pool; [stale x] are the bytes
    that memory holds behind a node at [x]. *)
Fixpoint mq_init_loop (stale : Z -> list Z) (n : nat) (temp : Z) (m : rt_messagequeue) : rt_messagequeue :=
  match n with
  | O => m
  | S n =>
      let head := mq_pool m + temp * (msg_size m + MQ_HEADER) in
      let m := set_node head (MqMessage (msg_queue_free m) (stale head)) m in
      mq_init_loop stale n (temp + 1) (set_lists (mq_entry m) (msg_queue_head m) (msg_queue_tail m) head m)
  end.

Definition mq_setup (stale : Z -> list Z) (pool msg_size max_msgs : Z) : rt_messagequeue :=
  mq_init_loop stale (Z.to_nat max_msgs) 0 (MessageQueue pool ∅ msg_size max_msgs 0 RT_NULL RT_NULL RT_NULL).

Definition rt_mq_init (stale : Z -> list Z) (a : Z) (name : list Z) (msgpool msg_size pool_size flag : Z) : K Z :=
  rt_assert (negb (a =? RT_NULL));;;
  rt_object_init (Obj a) RT_Object_Class_MessageQueue name;;;
  set_flag (Obj a) (fun _ => u8 flag);;;
  rt_ipc_object_init (LSuspend a);;;
  let size := u16 (RT_ALIGN msg_size RT_ALIGN_SIZE) in
  set_mqx a (mq_setup stale msgpool size (u16 (pool_size / (size + MQ_HEADER))));;;
  ret RT_EOK.

Definition rt_mq_detach (a : Z) : K Z :=
  ipc_check_arg a RT_Object_Class_MessageQueue;;;
  s <- rt_object_is_systemobject (Obj a);; rt_assert s;;;
  rt_ipc_list_resume_all (LSuspend a);;;
  rt_object_detach (Obj a);;;
  ret RT_EOK.

Definition rt_mq_delete (a : Z) : K Z :=
  not_in_interrupt;;;
  ipc_check_arg a RT_Object_Class_MessageQueue;;;
  s <- rt_object_is_systemobject (Obj a);; rt_assert (negb s);;;
  rt_ipc_list_resume_all (LSuspend a);;;
  m <- mqx a;; kfree (mq_pool m);;;
  rt_object_delete a;;;
  ret RT_EOK.

Definition rt_mq_create (stale : Z -> list Z) (name : list Z) (msg_size max_msgs flag : Z) : K Z :=
  not_in_interrupt;;;
  a <- rt_object_allocate RT_Object_Class_MessageQueue name;;
  if a =? RT_NULL then ret a
  else
    set_flag (Obj a) (fun _ => u8 flag);;;
    rt_ipc_object_init (LSuspend a);;;
    let size := u16 (RT_ALIGN msg_size RT_ALIGN_SIZE) in
    p <- kmalloc (u32 ((size + MQ_HEADER) * u16 max_msgs));;
    if p =? RT_NULL then
      set_mqx a (MessageQueue p ∅ size (u16 max_msgs) 0 RT_NULL RT_NULL RT_NULL);;;
      rt_mq_delete a;;; ret RT_NULL
    else set_mqx a (mq_setup stale p size (u16 max_msgs));;; ret a.

(** A node of the pool. *)
Definition mq_node (m : rt_messagequeue) (x : Z) : K rt_mq_message := deref (fun _ => mq_nodes m !! x).

(** The first free node is taken: [msg_queue_free = msg->next]. *)
Definition mq_take_free (a : Z) : K Z :=
  m <- mqx a;;
  let msg := msg_queue_free m in
  if msg =? RT_NULL then ret RT_NULL
  else
    n <- mq_node m msg;;
    set_mqx a (set_lists (mq_entry m) (msg_queue_head m) (msg_queue_tail m) (mq_next n) m);;;
    ret msg.

(** [rt_memcpy(msg + 1, buffer, size)]: bytes behind the message keep their value. *)
Definition mq_copy (a msg : Z) (buffer : list Z) : K unit :=
  m <- mqx a;; n <- mq_node m msg;;
  set_mqx a (set_node msg (MqMessage (mq_next n) (buffer ++ drop (length buffer) (mq_data n))) m).

(** [x->next = next]. *)
Definition mq_set_next (a x next : Z) : K unit :=
  m <- mqx a;; n <- mq_node m x;; set_mqx a (set_node x (MqMessage next (mq_data n)) m).

(** The message is linked at the tail of the queue. *)
Definition mq_link_tail (a msg : Z) : K unit :=
  m <- mqx a;;
  when (negb (msg_queue_tail m =? RT_NULL)) (mq_set_next a (msg_queue_tail m) msg);;;
  m <- mqx a;;
  set_mqx a (set_lists (u16 (mq_entry m + 1))
    (if msg_queue_head m =? RT_NULL then msg else msg_queue_head m) msg (msg_queue_free m) m).

(** The message is linked at the head of the queue. *)
Definition mq_link_head (a msg : Z) : K unit :=
  m <- mqx a;;
  mq_set_next a msg (msg_queue_head m);;;
  m <- mqx a;;
  set_mqx a (set_lists (u16 (mq_entry m + 1)) msg
    (if msg_queue_tail m =? RT_NULL then msg else msg_queue_tail m) (msg_queue_free m) m).

(** The checks of [rt_mq_send] and [rt_mq_urgent]; [None] is a null buffer, and
    a buffer has [size] bytes. *)
Definition mq_checks (a : Z) (buffer : option (list Z)) : K (list Z) :=
  ipc_check_arg a RT_Object_Class_MessageQueue;;;
  match buffer with
  | None => stuck Assertion
  | Some buffer => rt_assert (negb (Z.of_nat (length buffer) =? 0));;; ret buffer
  end.

Definition rt_mq_send (a : Z) (buffer : option (list Z)) : K Z :=
  buffer <- mq_checks a buffer;;
  m <- mqx a;;
  if msg_size m <? Z.of_nat (length buffer) then ret (- RT_ERROR)
  else
    msg <- mq_take_free a;;
    if msg =? RT_NULL then ret (- RT_EFULL)
    else
      mq_set_next a msg RT_NULL;;;
      mq_copy a msg buffer;;;
      mq_link_tail a msg;;;
      ipc_wake_first (LSuspend a);;;
      ret RT_EOK.

Definition rt_mq_urgent (a : Z) (buffer : option (list Z)) : K Z :=
  buffer <- mq_checks a buffer;;
  m <- mqx a;;
  if msg_size m <? Z.of_nat (length buffer) then ret (- RT_ERROR)
  else
    msg <- mq_take_free a;;
    if msg =? RT_NULL then ret (- RT_EFULL)
    else
      mq_copy a msg buffer;;;
      mq_link_head a msg;;;
      ipc_wake_first (LSuspend a);;;
      ret RT_EOK.

(** The first message is unlinked. *)
Definition mq_unlink_head (a : Z) : K Z :=
  m <- mqx a;;
  let msg := msg_queue_head m in
  n <- mq_node m msg;;
  set_mqx a (set_lists (mq_entry m) (mq_next n)
    (if msg_queue_tail m =? msg then RT_NULL else msg_queue_tail m) (msg_queue_free m) m);;;
  ret msg.

(** A node goes back to the free list. *)
Definition mq_put_free (a msg : Z) : K unit :=
  m <- mqx a;;
  mq_set_next a msg (msg_queue_free m);;;
  m <- mqx a;;
  set_mqx a (set_lists (mq_entry m) (msg_queue_head m) (msg_queue_tail m) msg m).

(** Behind the loop of [rt_mq_recv]: the bytes copied to the buffer. *)
Definition mq_get (a size : Z) : K (list Z) :=
  msg <- mq_unlink_head a;;
  m <- mqx a;;
  set_mqx a (set_lists (u16 (mq_entry m - 1)) (msg_queue_head m) (msg_queue_tail m) (msg_queue_free m) m);;;
  n <- mq_node m msg;;
  let data := take (Z.to_nat (if msg_size m <? size then msg_size m else size)) (mq_data n) in
  mq_put_free a msg;;;
  ret data.

Definition mq_recv_loop (a t size timeout : Z) : K (outcome (Z * option (list Z) + Z)) :=
  m <- mqx a;;
  if mq_entry m =? 0 then
    in_thread_context;;;
    mod_thr t (set_error RT_EOK);;;
    if timeout =? 0 then
      mod_thr t (set_error (- RT_ETIMEOUT));;; ret (Returned (inl (- RT_ETIMEOUT, None)))
    else loop_wait a t timeout (LSuspend a) (recv_resumed t timeout)
  else v <- mq_get a size;; ret (Returned (inl (RT_EOK, Some v))).

(** [buffer_ok]: the buffer is not null. *)
Definition rt_mq_recv (a : Z) (buffer_ok : bool) (size timeout : Z) : K (outcome (Z * option (list Z) + Z)) :=
  ipc_check_arg a RT_Object_Class_MessageQueue;;;
  rt_assert buffer_ok;;;
  rt_assert (negb (size =? 0));;;
  t <- rt_thread_self;;
  m <- mqx a;;
  if (mq_entry m =? 0) && (timeout =? 0) then ret (Returned (inl (- RT_ETIMEOUT, None)))
  else mq_recv_loop a t size timeout.

(** The loop of [rt_mq_control] that frees the queued messages. *)
Fixpoint mq_reset_loop (fuel : nat) (a : Z) : K unit :=
  m <- mqx a;;
  if msg_queue_head m =? RT_NULL then ret tt
  else
    match fuel with
    | O => stuck Diverge
    | S fuel => msg <- mq_unlink_head a;; mq_put_free a msg;;; mq_reset_loop fuel a
    end.

Definition rt_mq_control (a cmd arg : Z) : K Z :=
  ipc_check_arg a RT_Object_Class_MessageQueue;;;
  if cmd =? RT_IPC_CMD_RESET then
    rt_ipc_list_resume_all (LSuspend a);;;
    m <- mqx a;;
    mq_reset_loop (Z.to_nat (max_msgs m)) a;;;
    m <- mqx a;;
    set_mqx a (set_lists 0 (msg_queue_head m) (msg_queue_tail m) (msg_queue_free m) m);;;
    rt_schedule;;;
    ret RT_EOK
  else ret (- RT_ERROR).

(** ** Representation *)

(** The links of the pool. *)
Definition nx (m : rt_messagequeue) (x : Z) : option Z := mq_next <$> mq_nodes m !! x.
(** The bytes of the message in node [x]. *)
Definition msg_of (m : rt_messagequeue) (x : Z) : list Z := default [] (mq_data <$> mq_nodes m !! x).

(** The nodes [qa] are queued, the nodes [fa] free. *)
Record mq_lists (m : rt_messagequeue) (qa fa : list Z) : Prop := MqLists {
  ml_q : lseg (nx m) (msg_queue_head m) qa;
  ml_tail : msg_queue_tail m = default RT_NULL (last qa);
  ml_f : lseg (nx m) (msg_queue_free m) fa;
  ml_nodup : NoDup (qa ++ fa);
  ml_entry : mq_entry m = Z.of_nat (length qa);
  ml_max : Z.of_nat (length (qa ++ fa)) = max_msgs m;
  ml_range : max_msgs m < 2 ^ 16 /\ 0 <= msg_size m;
  ml_data : forall x, x ∈ qa ++ fa -> length (msg_of m x) = Z.to_nat (msg_size m)
}.

Definition mq_rep (m : rt_messagequeue) (qs : list (list Z)) : Prop :=
  exists qa fa, mq_lists m qa fa /\ msg_of m <$> qa = qs.

Record mq_at (k : kernel) (a size cap : Z) (qs : list (list Z)) (rcv : list Z) : Prop := MqAt {
  qt_obj : ipc_obj k a RT_Object_Class_MessageQueue;
  qt_val : exists m, k_mq k !! a = Some m /\ mq_rep m qs /\ msg_size m = size /\ max_msgs m = cap;
  qt_rcv : k_tl k !! LSuspend a = Some rcv
}.

Lemma nx_insert m x n y : nx (set_node x n m) y = if decide (y = x) then Some (mq_next n) else nx m y.
Proof. unfold nx. cbn. destruct (decide (y = x)) as [->|]; [by rewrite lookup_insert_eq|by rewrite lookup_insert_ne]. Qed.
Lemma msg_of_insert m x n y : msg_of (set_node x n m) y = if decide (y = x) then mq_data n else msg_of m y.
Proof. unfold msg_of. cbn. destruct (decide (y = x)) as [->|]; [by rewrite lookup_insert_eq|by rewrite lookup_insert_ne]. Qed.

Lemma mq_lists_node m qa fa x : mq_lists m qa fa -> x ∈ qa ++ fa -> exists n, mq_nodes m !! x = Some n.
Proof.
  intros HL [Hx|Hx]%elem_of_app.
  - destruct (lseg_defined _ _ _ _ (ml_q _ _ _ HL) Hx) as [n Hn]. unfold nx in Hn. destruct (mq_nodes m !! x); [eauto|done].
  - destruct (lseg_defined _ _ _ _ (ml_f _ _ _ HL) Hx) as [n Hn]. unfold nx in Hn. destruct (mq_nodes m !! x); [eauto|done].
Qed.

Lemma mqx_done k a m : k_mq k !! a = Some m -> mqx a k = Done m k.
Proof. intros. unfold mqx. by apply deref_some. Qed.
Lemma kbut_set_mq X P lo k a m : kbut X P lo k -> kbut X P lo (upd_mq (<[a := m]>) k).
Proof. intros HK. by eapply kbut_frame. Qed.
Lemma mq_node_done m x n k : mq_nodes m !! x = Some n -> mq_node m x k = Done n k.
Proof. intros. unfold mq_node. by apply deref_some. Qed.

(** The kernel with the message queue [a] in state [m]. *)
Definition kmq (a : Z) (m : rt_messagequeue) (k : kernel) : kernel := upd_mq (<[a := m]>) k.
Lemma kmq_kmq a m m' k : kmq a m' (kmq a m k) = kmq a m' k.
Proof. unfold kmq. kext. apply insert_insert_eq. Qed.
Lemma kmq_at a m k : k_mq (kmq a m k) !! a = Some m.
Proof. apply lookup_insert_eq. Qed.

Lemma set_next_done k a m x n v : mq_nodes m !! x = Some n ->
  mq_set_next a x v (kmq a m k) = Done tt (kmq a (set_node x (MqMessage v (mq_data n)) m) k).
Proof.
  intros Hn. unfold mq_set_next. rewrite (after (mqx_done _ _ _ (kmq_at a m k))).
  rewrite (after (mq_node_done m x n _ Hn)). exact (f_equal (Done tt) (kmq_kmq a m _ k)).
Qed.

(** ** Sending *)

(** The record after the node [x] was taken from the free list. *)
Definition m_take (m : rt_messagequeue) (n : rt_mq_message) : rt_messagequeue :=
  set_lists (mq_entry m) (msg_queue_head m) (msg_queue_tail m) (mq_next n) m.

Lemma take_free_done k a m x n : msg_queue_free m = x -> x <> RT_NULL -> mq_nodes m !! x = Some n ->
  mq_take_free a (kmq a m k) = Done x (kmq a (m_take m n) k).
Proof.
  intros Hf Hx Hn. unfold mq_take_free. rewrite (after (mqx_done _ _ _ (kmq_at a m k))). rewrite Hf.
  destruct (Z.eqb_spec x RT_NULL); [done|]. rewrite (after (mq_node_done m x n _ Hn)).
  exact (f_equal (Done x) (kmq_kmq a m _ k)).
Qed.

Lemma take_free_none k a m : msg_queue_free m = RT_NULL -> mq_take_free a (kmq a m k) = Done RT_NULL (kmq a m k).
Proof.
  intros Hf. unfold mq_take_free. rewrite (after (mqx_done _ _ _ (kmq_at a m k))). by rewrite Hf.
Qed.

Lemma copy_done k a m x n buffer : mq_nodes m !! x = Some n ->
  mq_copy a x buffer (kmq a m k) =
  Done tt (kmq a (set_node x (MqMessage (mq_next n) (buffer ++ drop (length buffer) (mq_data n))) m) k).
Proof.
  intros Hn. unfold mq_copy. rewrite (after (mqx_done _ _ _ (kmq_at a m k))).
  rewrite (after (mq_node_done m x n _ Hn)). exact (f_equal (Done tt) (kmq_kmq a m _ k)).
Qed.

(** The record after the node [x] with the bytes [d] was linked at the tail, and
    at the head. *)
Definition m_append (m : rt_messagequeue) (x : Z) (d : list Z) : rt_messagequeue :=
  let m1 := set_node x (MqMessage RT_NULL d) m in
  let m2 := if msg_queue_tail m =? RT_NULL then m1
            else set_node (msg_queue_tail m) (MqMessage x (msg_of m (msg_queue_tail m))) m1 in
  set_lists (u16 (mq_entry m + 1)) (if msg_queue_head m =? RT_NULL then x else msg_queue_head m) x (msg_queue_free m) m2.
Definition m_push (m : rt_messagequeue) (x : Z) (d : list Z) : rt_messagequeue :=
  set_lists (u16 (mq_entry m + 1)) x (if msg_queue_tail m =? RT_NULL then x else msg_queue_tail m) (msg_queue_free m)
    (set_node x (MqMessage (msg_queue_head m) d) m).

Lemma m_append_sizes m x d : max_msgs (m_append m x d) = max_msgs m /\ msg_size (m_append m x d) = msg_size m.
Proof. unfold m_append. cbn. by destruct (msg_queue_tail m =? RT_NULL). Qed.

(** Both keep the representation: the node goes from the free list into the queue. *)
Lemma m_append_rep m qa x fa d :
  mq_lists m qa (x :: fa) -> length d = Z.to_nat (msg_size m) ->
  forall n, mq_nodes m !! x = Some n ->
  mq_lists (m_append (m_take m n) x d) (qa ++ [x]) fa /\
  (forall y, msg_of (m_append (m_take m n) x d) y = if decide (y = x) then d else msg_of m y).
Proof.
  intros [Hq Ht (Hf & Hx & n' & Hn' & Hfl) Hnd He Hmax Hr Hd] Hlen n Hn.
  unfold nx in Hn'. rewrite Hn in Hn'. injection Hn' as <-.
  assert (Hxq : x ∉ qa /\ x ∉ fa).
  { apply NoDup_app in Hnd as (_ & Hdis & [? _]%NoDup_cons). split; [|done]. intros Hin. apply (Hdis x Hin), elem_of_cons. by left. }
  assert (Hmsg : forall y, msg_of (m_append (m_take m n) x d) y = if decide (y = x) then d else msg_of m y).
  { intros y. unfold m_append. cbn [m_take set_lists msg_queue_tail]. destruct (Z.eqb_spec (msg_queue_tail m) RT_NULL) as [E|E].
    - change (msg_of (set_node x (MqMessage RT_NULL d) m) y = if decide (y = x) then d else msg_of m y). by rewrite msg_of_insert.
    - change (msg_of (set_node (msg_queue_tail m) (MqMessage x (msg_of m (msg_queue_tail m))) (set_node x (MqMessage RT_NULL d) m)) y
        = if decide (y = x) then d else msg_of m y). rewrite !msg_of_insert. cbn [mq_data].
      destruct (decide (y = msg_queue_tail m)) as [->|]; [|done]. rewrite decide_False; [done|]. intros <-.
      apply (proj1 Hxq). rewrite Ht. destruct (last qa) as [z|] eqn:El; [|by rewrite Ht in E]. cbn. apply last_Some in El as [l' ->]. set_solver. }
  split; [|done].
  assert (Hnx : forall y, nx (m_append (m_take m n) x d) y =
    if decide (y = msg_queue_tail m /\ msg_queue_tail m <> RT_NULL) then Some x else if decide (y = x) then Some RT_NULL else nx m y).
  { intros y. unfold m_append. cbn [m_take set_lists msg_queue_tail]. destruct (Z.eqb_spec (msg_queue_tail m) RT_NULL) as [E|E].
    - etrans; [apply (nx_insert m x (MqMessage RT_NULL d) y)|]. by rewrite (decide_False (P := y = _ /\ _)) by tauto.
    - etrans; [apply (nx_insert (set_node x (MqMessage RT_NULL d) m) (msg_queue_tail m) (MqMessage x (msg_of m (msg_queue_tail m))) y)|].
      rewrite nx_insert. cbn [mq_next]. destruct (decide (y = msg_queue_tail m)) as [->|]; [by rewrite decide_True|].
      by rewrite (decide_False (P := y = _ /\ _)) by tauto. }
  assert (Hfa : forall y, y ∈ fa -> nx (m_append (m_take m n) x d) y = nx m y).
  { intros y Hy. rewrite Hnx. rewrite (decide_False (P := y = x)) by (intros ->; tauto). rewrite decide_False; [done|].
    intros [-> Hne]. rewrite Ht in Hy, Hne. destruct (last qa) as [z|] eqn:El; [|done]. cbn in *. apply last_Some in El as [l' ->].
    apply NoDup_app in Hnd as (_ & Hdis & _). apply (Hdis z); set_solver. }
  split.
  - cbn [m_append set_lists msg_queue_head m_take]. destruct (last qa) as [z|] eqn:El.
    + cbn in Ht. apply last_Some in El as [l' ->]. pose proof (lseg_nonnull _ _ _ Hq) as Hnn.
      destruct (Z.eqb_spec (msg_queue_head m) RT_NULL) as [E|E]; [apply (lseg_head _ _ _ Hq) in E; by destruct l'|].
      rewrite <- app_assoc. apply NoDup_app in Hnd as ((_ & Hz & _)%NoDup_app & _ & _).
      eapply lseg_snoc; [exact Hq|intros Hin; apply (Hz z Hin); set_solver|..|done].
      * intros w Hw. rewrite Hnx. rewrite decide_False; [rewrite decide_False; [done|]|].
        -- intros ->. set_solver.
        -- rewrite Ht. intros [-> _]. apply (Hz z Hw). set_solver.
      * rewrite Hnx, decide_True; [done|]. rewrite Ht. split; [done|]. intros ->. set_solver.
      * rewrite Hnx, decide_False, decide_True; [done|done|]. rewrite Ht. intros [-> _]. set_solver.
    + apply last_None in El as ->. cbn in Hq. rewrite Hq. change (RT_NULL =? RT_NULL) with true. cbn iota. split; [done|]. split; [done|].
      exists RT_NULL. split; [|done]. rewrite Hnx, decide_False, decide_True; [done|done|]. rewrite Ht. tauto.
  - cbn. by rewrite last_snoc.
  - eapply lseg_ext; [exact Hfl|exact Hfa].
  - rewrite <- app_assoc. exact Hnd.
  - cbn. rewrite He. rewrite length_app in *. cbn in *. unfold u16. rewrite Z.mod_small; lia.
  - rewrite <- app_assoc, (proj1 (m_append_sizes _ _ _)). exact Hmax.
  - destruct (m_append_sizes (m_take m n) x d) as [-> ->]. exact Hr.
  - intros y Hy. rewrite Hmsg, (proj2 (m_append_sizes _ _ _)). destruct (decide (y = x)); [done|]. apply Hd. set_solver.
Qed.

Lemma m_push_rep m qa x fa d :
  mq_lists m qa (x :: fa) -> length d = Z.to_nat (msg_size m) ->
  forall n, mq_nodes m !! x = Some n ->
  mq_lists (m_push (m_take m n) x d) (x :: qa) fa /\
  (forall y, msg_of (m_push (m_take m n) x d) y = if decide (y = x) then d else msg_of m y).
Proof.
  intros [Hq Ht (Hf & Hx & n' & Hn' & Hfl) Hnd He Hmax Hr Hd] Hlen n Hn.
  unfold nx in Hn'. rewrite Hn in Hn'. injection Hn' as <-.
  assert (Hxq : x ∉ qa /\ x ∉ fa).
  { apply NoDup_app in Hnd as (_ & Hdis & [? _]%NoDup_cons). split; [|done]. intros Hin. apply (Hdis x Hin), elem_of_cons. by left. }
  assert (Hmsg : forall y, msg_of (m_push (m_take m n) x d) y = if decide (y = x) then d else msg_of m y).
  { intros y. etrans; [apply (msg_of_insert m x (MqMessage (msg_queue_head m) d) y)|]. done. }
  assert (Hnx : forall y, y <> x -> nx (m_push (m_take m n) x d) y = nx m y).
  { intros y Hy. etrans; [apply (nx_insert m x (MqMessage (msg_queue_head m) d) y)|]. by rewrite decide_False. }
  split; [|done]. split.
  - split; [done|]. split; [done|]. exists (msg_queue_head m). split.
    + etrans; [apply (nx_insert m x (MqMessage (msg_queue_head m) d) x)|]. by rewrite decide_True.
    + eapply lseg_ext; [exact Hq|]. intros y Hy. apply Hnx. intros ->. tauto.
  - cbn. rewrite Ht. destruct qa as [|z qa]; cbn; [done|]. destruct (last (z :: qa)) as [w|] eqn:El; [|by apply last_None in El].
    change (default RT_NULL (Some w)) with w.
    destruct (Z.eqb_spec w RT_NULL) as [->|]; [|done]. destruct (lseg_nonnull _ _ _ Hq). apply last_Some in El as [l' ->]. set_solver.
  - eapply lseg_ext; [exact Hfl|]. intros y Hy. apply Hnx. intros ->. tauto.
  - cbn [app]. apply NoDup_cons. apply NoDup_app in Hnd as (H1 & H2 & [H3 H4]%NoDup_cons). split; [set_solver|].
    apply NoDup_app. split_and!; [done| |done]. intros y Hy Hy'. apply (H2 y Hy), elem_of_cons. by right.
  - cbn. rewrite He. rewrite length_app in *. cbn in *. unfold u16. rewrite Z.mod_small; lia.
  - cbn. rewrite length_app in *. cbn in *. lia.
  - exact Hr.
  - intros y Hy. rewrite Hmsg. destruct (decide (y = x)); [done|]. apply Hd. set_solver.
Qed.

Lemma set_node_twice x n n' m : set_node x n' (set_node x n m) = set_node x n' m.
Proof. unfold set_node. cbn. by rewrite insert_insert_eq. Qed.

Lemma link_tail_done k a m x d :
  (msg_queue_tail m <> RT_NULL -> msg_queue_tail m <> x /\ exists n, mq_nodes m !! msg_queue_tail m = Some n) ->
  mq_link_tail a x (kmq a (set_node x (MqMessage RT_NULL d) m) k) = Done tt (kmq a (m_append m x d) k).
Proof.
  intros Ht. unfold mq_link_tail. set (m1 := set_node x _ m). rewrite (after (mqx_done _ _ _ (kmq_at a m1 k))).
  change (msg_queue_tail m1) with (msg_queue_tail m). unfold m_append. fold m1.
  destruct (Z.eqb_spec (msg_queue_tail m) RT_NULL) as [E|E]; cbn [negb when].
  - mstep. rewrite (after (mqx_done _ _ _ (kmq_at a m1 k))). exact (f_equal (Done tt) (kmq_kmq a m1 _ k)).
  - destruct (Ht E) as [Hne [n Hn]]. assert (Hn1 : mq_nodes m1 !! msg_queue_tail m = Some n) by (cbn; by rewrite lookup_insert_ne).
    rewrite (after (set_next_done k a m1 _ n x Hn1)). set (m2 := set_node _ _ m1).
    rewrite (after (mqx_done _ _ _ (kmq_at a m2 k))). unfold msg_of. rewrite Hn. cbn [option_fmap option_map default].
    exact (f_equal (Done tt) (kmq_kmq a m2 _ k)).
Qed.

Lemma link_head_done k a m x n d :
  mq_nodes m !! x = Some n -> mq_data n = d ->
  mq_link_head a x (kmq a m k) = Done tt (kmq a (m_push m x d) k).
Proof.
  intros Hn Hd. unfold mq_link_head. rewrite (after (mqx_done _ _ _ (kmq_at a m k))).
  rewrite (after (set_next_done k a m x n _ Hn)). rewrite Hd. set (m1 := set_node _ _ m).
  rewrite (after (mqx_done _ _ _ (kmq_at a m1 k))). exact (f_equal (Done tt) (kmq_kmq a m1 _ k)).
Qed.

(** The bytes a message of [buffer] leaves in a node that held [old]. *)
Definition stored (buffer old : list Z) : list Z := buffer ++ drop (length buffer) old.

(** Taking a node, filling it and linking it. *)
Lemma mq_send_run k a m qa x fa buffer n :
  mq_lists m qa (x :: fa) -> mq_nodes m !! x = Some n ->
  (x' <- mq_take_free a;; mq_set_next a x' RT_NULL;;; mq_copy a x' buffer;;; mq_link_tail a x') (kmq a m k) =
  Done tt (kmq a (m_append (m_take m n) x (stored buffer (mq_data n))) k).
Proof.
  intros HL Hn. pose proof HL as [Hq Ht (Hf & Hx & _) Hnd _ _ _ _].
  rewrite (after (take_free_done k a m x n Hf Hx Hn)).
  rewrite (after (set_next_done k a (m_take m n) x n RT_NULL Hn)). set (m1 := set_node x _ (m_take m n)).
  assert (Hn1 : mq_nodes m1 !! x = Some (MqMessage RT_NULL (mq_data n))) by (cbn; apply lookup_insert_eq).
  rewrite (after (copy_done k a m1 x _ buffer Hn1)). unfold m1. rewrite set_node_twice.
  apply link_tail_done. cbn. rewrite Ht. destruct (last qa) as [z|] eqn:El; [|done]. cbn. intros _. apply last_Some in El as [l' ->].
  split; [|apply (mq_lists_node m _ _ z HL); set_solver]. intros ->. apply NoDup_app in Hnd as (_ & Hd & _). apply (Hd x); set_solver.
Qed.

Lemma mq_urgent_run k a m qa x fa buffer n :
  mq_lists m qa (x :: fa) -> mq_nodes m !! x = Some n ->
  (x' <- mq_take_free a;; mq_copy a x' buffer;;; mq_link_head a x') (kmq a m k) =
  Done tt (kmq a (m_push (m_take m n) x (stored buffer (mq_data n))) k).
Proof.
  intros HL Hn. pose proof HL as [Hq Ht (Hf & Hx & _) Hnd _ _ _ _].
  rewrite (after (take_free_done k a m x n Hf Hx Hn)).
  rewrite (after (copy_done k a (m_take m n) x n buffer Hn)). fold (stored buffer (mq_data n)). set (m1 := set_node x _ _).
  rewrite (link_head_done k a m1 x (MqMessage (mq_next n) (stored buffer (mq_data n))) (stored buffer (mq_data n)));
    [|cbn; apply lookup_insert_eq|done]. do 2 f_equal.
  unfold m_push, m1. cbn [msg_queue_head set_node mq_entry msg_queue_tail msg_queue_free]. by rewrite set_node_twice.
Qed.

Lemma kmq_id a m k : k_mq k !! a = Some m -> kmq a m k = k.
Proof. intros Hm. unfold kmq. kext. by apply insert_id. Qed.

Lemma mq_at_frame k k' a size cap qs rcv rcv' :
  frame k k' -> mq_at k a size cap qs rcv -> k_tl k' !! LSuspend a = Some rcv' -> mq_at k' a size cap qs rcv'.
Proof. intros HF [Ho Hv _] Hr. split; try done; [by eapply ipc_obj_frame|by rewrite (fr_mq _ _ HF)]. Qed.

(** The queue is replaced, then the first receiver is woken. *)
Lemma mq_wake_done k a size cap qs qs' rcv m :
  kinv k -> k_cur k <> RT_NULL -> mq_at k a size cap qs rcv ->
  mq_rep m qs' -> msg_size m = size -> max_msgs m = cap ->
  exists k', ipc_wake_first (LSuspend a) (kmq a m k) = Done tt k' /\ kinv k' /\
    mq_at k' a size cap qs' (tail rcv) /\ woke_first k k' rcv.
Proof.
  intros HK Hc [Ho _ Hr] Hm Hs Hx. assert (HK1 : kinv (kmq a m k)) by (by apply kbut_set_mq).
  destruct (wake_first_done (kmq a m k) (LSuspend a) rcv HK1 I Hr Hc) as (k' & E & HK' & HF & Hw & Etl).
  exists k'. split_and!; try done.
  eapply (mq_at_frame (kmq a m k) k' a size cap qs' rcv); [done| |by rewrite Etl, decide_True].
  split; [done| |done]. exists m. split; [apply kmq_at|done].
Qed.

Lemma mq_checks_done k a buffer :
  ipc_obj k a RT_Object_Class_MessageQueue -> buffer <> [] -> mq_checks a (Some buffer) k = Done buffer k.
Proof.
  intros Ho Hb. unfold mq_checks. rewrite (after (ipc_check_done _ _ _ Ho)). by destruct buffer.
Qed.

Lemma stored_length buffer old n :
  length old = n -> (length buffer <= n)%nat -> length (stored buffer old) = n.
Proof. intros. unfold stored. rewrite length_app, length_drop. lia. Qed.

(** The cases of a send: no free node exactly when the queue is full. *)
Lemma mq_free_cases m qs : mq_rep m qs ->
  (Z.of_nat (length qs) = max_msgs m /\ msg_queue_free m = RT_NULL) \/
  (Z.of_nat (length qs) < max_msgs m /\ exists qa x fa n, mq_lists m qa (x :: fa) /\ msg_of m <$> qa = qs /\
     msg_queue_free m = x /\ x <> RT_NULL /\ mq_nodes m !! x = Some n /\ length (mq_data n) = Z.to_nat (msg_size m) /\ x ∉ qa).
Proof.
  intros (qa & [|x fa] & HL & <-); rewrite length_fmap; pose proof HL as [Hq Ht Hf Hnd He Hmax Hr Hd]; rewrite length_app in Hmax; cbn in Hmax.
  - left. split; [lia|]. exact Hf.
  - right. split; [lia|]. destruct (mq_lists_node m qa (x :: fa) x HL) as [n Hn]; [set_solver|].
    exists qa, x, fa, n. destruct Hf as (Hf & Hx & _). split_and!; try done.
    + specialize (Hd x ltac:(set_solver)). unfold msg_of in Hd. by rewrite Hn in Hd.
    + intros Hin. apply NoDup_app in Hnd as (_ & Hdis & _). apply (Hdis x); set_solver.
Qed.

Lemma msg_of_fresh m m' x d (qa : list Z) :
  (forall y, msg_of m' y = if decide (y = x) then d else msg_of m y) -> x ∉ qa ->
  msg_of m' <$> qa = msg_of m <$> qa /\ msg_of m' x = d.
Proof.
  intros H Hx. split; [|by rewrite H, decide_True]. apply list_fmap_ext. intros i y Hy. rewrite H, decide_False; [done|].
  intros ->. apply list_elem_of_lookup_2 in Hy. done.
Qed.

Lemma bind_prefix2 {A} (p q : K unit) (r : K A) k k' :
  (p;;; q) k = Done tt k' -> (p;;; q;;; r) k = r k'.
Proof. unfold bind. destruct (p k); [|done]. by intros ->. Qed.
Lemma bind_prefix3 {A} (p q r : K unit) (u : K A) k k' :
  (p;;; q;;; r) k = Done tt k' -> (p;;; q;;; r;;; u) k = u k'.
Proof. unfold bind. destruct (p k) as [? k1|]; [|done]. destruct (q k1); [|done]. by intros ->. Qed.

(** What sending [buffer] does to a queue; [put] places the new message. *)
Definition mq_send_spec (put : list (list Z) -> list Z -> list (list Z)) (k : kernel) (a size cap : Z)
    (qs : list (list Z)) (rcv buffer : list Z) (r : Z) (k' : kernel) : Prop :=
  if decide (size < Z.of_nat (length buffer)) then r = - RT_ERROR /\ k' = k
  else if decide (Z.of_nat (length qs) = cap) then r = - RT_EFULL /\ k' = k
  else r = RT_EOK /\ woke_first k k' rcv /\
    exists rest, Z.of_nat (length (buffer ++ rest)) = size /\ mq_at k' a size cap (put qs (buffer ++ rest)) (tail rcv).

(** [rt_mq_send]: a message longer than the queue's message size is refused with
    [-RT_ERROR] and a full queue with [-RT_EFULL], both without any effect;
    otherwise the message becomes the last of the queue, in a node taken from
    the free list (so that queued and free nodes are still all nodes of the
    pool), and the first waiting receiver is woken. *)
Theorem rt_mq_send_correct k a size cap qs rcv buffer :
  kinv k -> k_cur k <> RT_NULL -> mq_at k a size cap qs rcv -> buffer <> [] ->
  exists r k', rt_mq_send a (Some buffer) k = Done r k' /\ kinv k' /\
    mq_send_spec (fun qs d => qs ++ [d]) k a size cap qs rcv buffer r k'.
Proof.
  intros HK Hc HA Hb. pose proof HA as [Ho (m & Hm & Hrep & Hs & Hx) Hr]. unfold rt_mq_send, mq_send_spec.
  rewrite (after (mq_checks_done _ _ _ Ho Hb)), (after (mqx_done _ _ _ Hm)), Hs.
  destruct (Z.ltb_spec size (Z.of_nat (length buffer))), (decide (size < Z.of_nat (length buffer))) as [?|Hle]; [by eexists _, k|lia|lia|].
  destruct (mq_free_cases m qs Hrep) as [[Hfull Hf]|(Hroom & qa & x & fa & n & HL & Hqs & Hf & Hnz & Hn & Hd & Hxq)].
  - destruct (decide _); [|congruence]. pose proof (take_free_none k a m Hf) as E. rewrite (kmq_id a m k Hm) in E.
    rewrite (after E). by eexists _, k.
  - destruct (decide _); [lia|]. assert (Hlen : length (stored buffer (mq_data n)) = Z.to_nat (msg_size m)) by (apply stored_length; [done|lia]).
    pose proof (mq_send_run k a m qa x fa buffer n HL Hn) as E. rewrite (kmq_id a m k Hm) in E.
    destruct (m_append_rep m qa x fa _ HL Hlen n Hn) as [HL' Hmsg]. destruct (m_append_sizes (m_take m n) x (stored buffer (mq_data n))) as [E1 E2].
    destruct (msg_of_fresh m _ x _ qa Hmsg Hxq) as [M1 M2].
    destruct (mq_wake_done k a size cap qs (qs ++ [stored buffer (mq_data n)]) rcv _ HK Hc HA
      ltac:(exists (qa ++ [x]), fa; split; [exact HL'|]; rewrite fmap_app, M1, Hqs; cbn; by rewrite M2)
      ltac:(rewrite E2; exact Hs) ltac:(rewrite E1; exact Hx)) as (k' & Ew & HK' & HA' & Hw).
    exists RT_EOK, k'. split; [|split; [done|split; [done|split; [done|]]]].
    + pose proof (take_free_done k a m x n Hf Hnz Hn) as Et. rewrite (kmq_id a m k Hm) in Et.
      rewrite (after Et). rewrite (after Et) in E. destruct (Z.eqb_spec x RT_NULL); [done|].
      rewrite (bind_prefix3 _ _ _ _ _ _ E). by rewrite (after Ew).
    + eexists. split; [|exact HA']. fold (stored buffer (mq_data n)). rewrite Hlen. destruct (ml_range _ _ _ HL). lia.
Qed.

(** [rt_mq_urgent]: as [rt_mq_send], but the message becomes the first of the
    queue. *)
Theorem rt_mq_urgent_correct k a size cap qs rcv buffer :
  kinv k -> k_cur k <> RT_NULL -> mq_at k a size cap qs rcv -> buffer <> [] ->
  exists r k', rt_mq_urgent a (Some buffer) k = Done r k' /\ kinv k' /\
    mq_send_spec (fun qs d => d :: qs) k a size cap qs rcv buffer r k'.
Proof.
  intros HK Hc HA Hb. pose proof HA as [Ho (m & Hm & Hrep & Hs & Hx) Hr]. unfold rt_mq_urgent, mq_send_spec.
  rewrite (after (mq_checks_done _ _ _ Ho Hb)), (after (mqx_done _ _ _ Hm)), Hs.
  destruct (Z.ltb_spec size (Z.of_nat (length buffer))), (decide (size < Z.of_nat (length buffer))) as [?|Hle]; [by eexists _, k|lia|lia|].
  destruct (mq_free_cases m qs Hrep) as [[Hfull Hf]|(Hroom & qa & x & fa & n & HL & Hqs & Hf & Hnz & Hn & Hd & Hxq)].
  - destruct (decide _); [|congruence]. pose proof (take_free_none k a m Hf) as E. rewrite (kmq_id a m k Hm) in E.
    rewrite (after E). by eexists _, k.
  - destruct (decide _); [lia|]. assert (Hlen : length (stored buffer (mq_data n)) = Z.to_nat (msg_size m)) by (apply stored_length; [done|lia]).
    pose proof (mq_urgent_run k a m qa x fa buffer n HL Hn) as E. rewrite (kmq_id a m k Hm) in E.
    destruct (m_push_rep m qa x fa _ HL Hlen n Hn) as [HL' Hmsg].
    destruct (msg_of_fresh m _ x _ qa Hmsg Hxq) as [M1 M2].
    destruct (mq_wake_done k a size cap qs (stored buffer (mq_data n) :: qs) rcv _ HK Hc HA
      ltac:(exists (x :: qa), fa; split; [exact HL'|]; rewrite fmap_cons, M1, Hqs; by rewrite M2)
      Hs Hx) as (k' & Ew & HK' & HA' & Hw).
    exists RT_EOK, k'. split; [|split; [done|split; [done|split; [done|]]]].
    + pose proof (take_free_done k a m x n Hf Hnz Hn) as Et. rewrite (kmq_id a m k Hm) in Et.
      rewrite (after Et). rewrite (after Et) in E. destruct (Z.eqb_spec x RT_NULL); [done|].
      rewrite (bind_prefix2 _ _ _ _ _ E). by rewrite (after Ew).
    + eexists. split; [|exact HA']. fold (stored buffer (mq_data n)). rewrite Hlen. destruct (ml_range _ _ _ HL). lia.
Qed.

(** ** Receiving *)

(** The record after the first message was taken and its node freed. *)
Definition m_pop (m : rt_messagequeue) (x : Z) (n : rt_mq_message) : rt_messagequeue :=
  set_lists (u16 (mq_entry m - 1)) (mq_next n) (if msg_queue_tail m =? x then RT_NULL else msg_queue_tail m) x
    (set_node x (MqMessage (msg_queue_free m) (mq_data n)) m).

Lemma m_pop_rep m qa x fa n :
  mq_lists m (x :: qa) fa -> mq_nodes m !! x = Some n ->
  mq_lists (m_pop m x n) qa (x :: fa) /\ (forall y, msg_of (m_pop m x n) y = msg_of m y).
Proof.
  intros [(Hh & Hx & n' & Hn' & Hq) Ht Hf Hnd He Hmax Hr Hd] Hn. unfold nx in Hn'. rewrite Hn in Hn'. injection Hn' as <-.
  assert (Hmsg : forall y, msg_of (m_pop m x n) y = msg_of m y).
  { intros y. etrans; [apply (msg_of_insert m x (MqMessage (msg_queue_free m) (mq_data n)) y)|].
    destruct (decide (y = x)) as [->|]; [|done]. unfold msg_of. by rewrite Hn. }
  assert (Hnx : forall y, y <> x -> nx (m_pop m x n) y = nx m y).
  { intros y Hy. etrans; [apply (nx_insert m x (MqMessage (msg_queue_free m) (mq_data n)) y)|]. by rewrite decide_False. }
  pose proof Hnd as [Hxn Hnd']%NoDup_cons. rewrite not_elem_of_app in Hxn.
  split; [|done]. split.
  - eapply lseg_ext; [exact Hq|]. intros y Hy. apply Hnx. intros ->. tauto.
  - cbn. rewrite Ht. destruct (last qa) as [z|] eqn:El.
    + rewrite last_cons, El. change (default RT_NULL (Some z)) with z. destruct (Z.eqb_spec z x) as [->|]; [|done].
      destruct Hxn as [[]]. apply last_Some in El as [l' ->]. set_solver.
    + rewrite last_cons, El. change (default RT_NULL (Some x)) with x. by rewrite Z.eqb_refl.
  - split; [done|]. split; [done|]. exists (msg_queue_free m). split.
    + etrans; [apply (nx_insert m x (MqMessage (msg_queue_free m) (mq_data n)) x)|]. by rewrite decide_True.
    + eapply lseg_ext; [exact Hf|]. intros y Hy. apply Hnx. intros ->. tauto.
  - rewrite <- Permutation_middle. exact Hnd.
  - cbn. rewrite He. rewrite length_app in *. cbn in *. unfold u16. rewrite Z.mod_small; lia.
  - rewrite <- Permutation_middle. exact Hmax.
  - exact Hr.
  - intros y Hy. rewrite Hmsg. apply Hd. rewrite <- Permutation_middle in Hy. exact Hy.
Qed.

Lemma unlink_head_done k a m x n : msg_queue_head m = x -> mq_nodes m !! x = Some n ->
  mq_unlink_head a (kmq a m k) = Done x (kmq a (set_lists (mq_entry m) (mq_next n)
    (if msg_queue_tail m =? x then RT_NULL else msg_queue_tail m) (msg_queue_free m) m) k).
Proof.
  intros Hh Hn. unfold mq_unlink_head. rewrite (after (mqx_done _ _ _ (kmq_at a m k))). rewrite Hh.
  rewrite (after (mq_node_done m x n _ Hn)). exact (f_equal (Done x) (kmq_kmq a m _ k)).
Qed.

Lemma put_free_done k a m x n : mq_nodes m !! x = Some n ->
  mq_put_free a x (kmq a m k) = Done tt (kmq a (set_lists (mq_entry m) (msg_queue_head m) (msg_queue_tail m) x
    (set_node x (MqMessage (msg_queue_free m) (mq_data n)) m)) k).
Proof.
  intros Hn. unfold mq_put_free. rewrite (after (mqx_done _ _ _ (kmq_at a m k))).
  rewrite (after (set_next_done k a m x n _ Hn)). set (m1 := set_node _ _ m).
  rewrite (after (mqx_done _ _ _ (kmq_at a m1 k))). exact (f_equal (Done tt) (kmq_kmq a m1 _ k)).
Qed.

Lemma mq_get_done k a m x n size : msg_queue_head m = x -> mq_nodes m !! x = Some n ->
  mq_get a size (kmq a m k) = Done (take (Z.to_nat (Z.min (msg_size m) size)) (mq_data n)) (kmq a (m_pop m x n) k).
Proof.
  intros Hh Hn. unfold mq_get. rewrite (after (unlink_head_done k a m x n Hh Hn)). set (m1 := set_lists _ _ _ _ m).
  rewrite (after (mqx_done _ _ _ (kmq_at a m1 k))).
  change (set_mqx a ?m (kmq a m1 k)) with (Done tt (kmq a m (kmq a m1 k))). unfold set_mqx. mstep.
  change (upd_mq (<[a := ?m]>) (kmq a m1 k)) with (kmq a m (kmq a m1 k)). rewrite kmq_kmq. set (m2 := set_lists _ _ _ _ m1).
  rewrite (after (mq_node_done m1 x n _ Hn)), (after (put_free_done k a m2 x n Hn)).
  unfold ret. f_equal. f_equal. f_equal. cbn. destruct (Z.ltb_spec (msg_size m) size); lia.
Qed.

(** C20: [rt_mq_recv] by the running thread: it gets the bytes of the first message, as
    many as the buffer holds, and the node goes back to the free list; an empty
    queue makes the call fail at once without a waiting time and otherwise
    queues the caller among the receivers, with its timer armed.  A successful receive
    touches nothing but the queue. *)
Theorem rt_mq_recv_correct k th a size cap qs rcv n timeout h :
  running k th -> mq_at k a size cap qs rcv -> k_hdr k !! Obj a = Some h -> timeout <= max_off -> 0 < n ->
  exists r k', rt_mq_recv a true n timeout k = Done r k' /\ kinv k' /\
    match qs with
    | d :: qs' => r = Returned (inl (RT_EOK, Some (take (Z.to_nat (Z.min size n)) d))) /\ mq_at k' a size cap qs' rcv /\
        (exists m', k' = kmq a m' k)
    | [] =>
        if decide (timeout = 0) then r = Returned (inl (- RT_ETIMEOUT, None)) /\ k' = k
        else r = Blocked /\ waits k k' th timeout /\
          exists l1 l2, rcv = l1 ++ l2 /\ placed (k_thr k) (oflag h) (current_priority th) l1 l2 /\
            mq_at k' a size cap [] (l1 ++ k_cur k :: l2)
    end.
Proof.
  intros HR HA Hh Htm Hn0. pose proof HA as [Ho (m & Hv & (qa & fa & HL & <-) & Hs & Hx) Hr]. pose proof (rn_inv _ _ HR) as HK.
  unfold rt_mq_recv. rewrite (after (ipc_check_done _ _ _ Ho)). unfold rt_thread_self. cbn [rt_assert]. mstep.
  destruct (Z.eqb_spec n 0); [lia|]. cbn [negb rt_assert]. do 2 mstep.
  rewrite (after (mqx_done _ _ _ Hv)). rewrite (ml_entry _ _ _ HL). unfold mq_recv_loop. destruct qa as [|x qa].
  - change (Z.of_nat (length (A := Z) []) =? 0) with true. cbn [andb fmap list_fmap]. destruct (Z.eqb_spec timeout 0) as [->|Ht0]; [by eexists _, k|].
    destruct (decide (timeout = 0)); [done|]. rewrite (after (mqx_done _ _ _ Hv)), (ml_entry _ _ _ HL).
    change (Z.of_nat (length (A := Z) []) =? 0) with true. cbn iota. rewrite (after (thread_context_done _ _ HR)).
    rewrite (after (mod_thr_done _ _ _ _ (rn_thr _ _ HR))). destruct (Z.eqb_spec timeout 0); [done|].
    destruct (loop_wait_done k th a _ (LSuspend a) rcv timeout (recv_resumed (A := list Z) (k_cur k) timeout) h HR Ho Hh I Hr Htm)
      as (k' & l1 & l2 & E & HK' & HF & El & Hp & Hw & Etl).
    eexists Blocked, k'. split; [exact E|]. split; [done|]. split; [done|]. split; [done|]. exists l1, l2. split; [done|]. split; [done|].
    eapply mq_at_frame; [exact HF|exact HA|by rewrite Etl, decide_True].
  - destruct (Z.eqb_spec (Z.of_nat (length (x :: qa))) 0) as [E0|E0]; [cbn in E0; lia|]. cbn [andb].
    rewrite (after (mqx_done _ _ _ Hv)), (ml_entry _ _ _ HL). destruct (Z.eqb_spec (Z.of_nat (length (x :: qa))) 0); [done|].
    destruct (mq_lists_node m (x :: qa) fa x HL) as [nd Hnd]; [set_solver|]. destruct (m_pop_rep m qa x fa nd HL Hnd) as [HL' Hmsg].
    pose proof (mq_get_done k a m x nd n (proj1 (ml_q _ _ _ HL)) Hnd) as E. rewrite (kmq_id a m k Hv) in E.
    rewrite (after E). eexists _, _. split; [done|]. split; [by apply kbut_set_mq|]. split; [|split; [|by eexists]].
    + unfold msg_of. rewrite Hnd, Hs. done.
    + split; [done| |done]. exists (m_pop m x nd). split; [apply kmq_at|]. split; [|done]. exists qa, (x :: fa). split; [done|].
      apply list_fmap_ext. intros; apply Hmsg.
Qed.

(** ** Setting up and emptying *)

Lemma init_loop_lists stale n : forall temp m fa,
  0 < mq_pool m -> 0 <= msg_size m -> 0 <= temp ->
  lseg (nx m) (msg_queue_free m) fa -> NoDup fa ->
  (forall x, x ∈ fa -> exists i, 0 <= i < temp /\ x = mq_pool m + i * (msg_size m + MQ_HEADER)) ->
  (forall x, length (stale x) = Z.to_nat (msg_size m)) -> (forall x, x ∈ fa -> length (msg_of m x) = Z.to_nat (msg_size m)) ->
  let m' := mq_init_loop stale n temp m in
  exists fa', lseg (nx m') (msg_queue_free m') fa' /\ NoDup fa' /\ length fa' = (length fa + n)%nat /\
    (forall x, x ∈ fa' -> length (msg_of m' x) = Z.to_nat (msg_size m)) /\
    msg_queue_head m' = msg_queue_head m /\ msg_queue_tail m' = msg_queue_tail m /\ mq_entry m' = mq_entry m /\
    max_msgs m' = max_msgs m /\ msg_size m' = msg_size m.
Proof.
  induction n as [|n IH]; intros temp m fa Hp Hs Ht Hf Hnd Hin Hst Hd m'.
  - exists fa. split_and!; try done.
  - cbn [mq_init_loop] in m'. set (x := mq_pool m + _) in m'. set (m1 := set_node x _ m) in m'. set (m2 := set_lists _ _ _ x m1) in m'.
    assert (Hx : x <> RT_NULL) by (unfold x, MQ_HEADER, RT_NULL; nia).
    assert (Hxf : x ∉ fa) by (intros (i & Hi & E)%Hin; unfold x, MQ_HEADER in E; nia).
    assert (Hnx : forall y, nx m2 y = if decide (y = x) then Some (msg_queue_free m) else nx m y) by apply nx_insert.
    assert (Hmsg : forall y, msg_of m2 y = if decide (y = x) then stale x else msg_of m y) by apply msg_of_insert.
    destruct (IH (temp + 1) m2 (x :: fa)) as (fa' & H1 & H2 & H3 & H4 & H5); try done; [lia|..].
    + split; [done|]. split; [done|]. exists (msg_queue_free m). split; [by rewrite Hnx, decide_True|].
      eapply lseg_ext; [exact Hf|]. intros y Hy. rewrite Hnx, decide_False; [done|]. by intros ->.
    + by apply NoDup_cons.
    + intros y [->|Hy]%elem_of_cons; [by exists temp; split; [lia|]|]. destruct (Hin y Hy) as (i & ? & ?). exists i. split; [lia|done].
    + intros y [->|Hy]%elem_of_cons; rewrite Hmsg; [by rewrite decide_True|]. rewrite decide_False; [by apply Hd|]. by intros ->.
    + exists fa'. split_and!; try done; [cbn in H3; lia|apply H5..].
Qed.

Lemma mq_setup_rep stale pool size cap :
  0 < pool -> 0 <= size -> 0 <= cap < 2 ^ 16 -> (forall x, length (stale x) = Z.to_nat size) ->
  let m := mq_setup stale pool size cap in
  mq_rep m [] /\ msg_size m = size /\ max_msgs m = cap.
Proof.
  intros Hp Hs Hc Hst m. destruct (init_loop_lists stale (Z.to_nat cap) 0 (MessageQueue pool ∅ size cap 0 RT_NULL RT_NULL RT_NULL) [])
    as (fa & H1 & H2 & H3 & H4 & H5 & H6 & H7 & H8 & H9); try done; [by apply NoDup_nil|by intros x ?%not_elem_of_nil..|].
  split; [|done]. exists [], fa. split; [|done]. split; try done.
  - cbn [app]. unfold m, mq_setup. rewrite H3, H8. cbn. lia.
  - unfold m, mq_setup. rewrite H8, H9. cbn. lia.
  - intros x Hx. unfold m, mq_setup. rewrite H9. by apply H4.
Qed.

(** The pool set up by [rt_mq_init] or [rt_mq_create] is an empty queue in which
    all [max_msgs] nodes of the pool are free and distinct: the loop that threads
    the free list through the pool loses none and reuses none. *)
Theorem mq_setup_correct stale pool size cap :
  0 < pool -> 0 <= size -> 0 <= cap < 2 ^ 16 -> (forall x, length (stale x) = Z.to_nat size) ->
  let m := mq_setup stale pool size cap in
  mq_rep m [] /\ msg_size m = size /\ max_msgs m = cap.
Proof. apply mq_setup_rep. Qed.

(** The loop of the reset frees the nodes one by one. *)
Lemma reset_loop_done k a : forall qa fuel m fa, (length qa <= fuel)%nat -> lseg (nx m) (msg_queue_head m) qa -> lseg (nx m) (msg_queue_free m) fa ->
  NoDup (qa ++ fa) -> msg_queue_tail m = default RT_NULL (last qa) ->
  exists m' fa', mq_reset_loop fuel a (kmq a m k) = Done tt (kmq a m' k) /\ fa' ≡ₚ qa ++ fa /\
    lseg (nx m') (msg_queue_free m') fa' /\ msg_queue_head m' = RT_NULL /\ msg_queue_tail m' = RT_NULL /\
    (forall y, msg_of m' y = msg_of m y) /\ max_msgs m' = max_msgs m /\ msg_size m' = msg_size m.
Proof.
  induction qa as [|x qa IH]; intros fuel m fa Hfu Hq Hf Hnd Ht.
  - exists m, fa. destruct fuel; cbn [mq_reset_loop]; rewrite (after (mqx_done _ _ _ (kmq_at a m k))), Hq; done.
  - destruct fuel as [|fuel]; [cbn in Hfu; lia|]. destruct Hq as (Hh & Hx & n' & Hn' & Hq). unfold nx in Hn'.
    destruct (mq_nodes m !! x) as [n|] eqn:Hn; [|done]. injection Hn' as <-.
    cbn [mq_reset_loop]. rewrite (after (mqx_done _ _ _ (kmq_at a m k))), Hh. destruct (Z.eqb_spec x RT_NULL); [done|].
    rewrite (after (unlink_head_done k a m x n Hh Hn)). set (m1 := set_lists _ _ _ _ m).
    rewrite (after (put_free_done k a m1 x n Hn)). set (m2 := set_lists _ _ _ x _).
    assert (Hnx : forall y, nx m2 y = if decide (y = x) then Some (msg_queue_free m) else nx m y) by exact (nx_insert m x (MqMessage (msg_queue_free m) (mq_data n))).
    assert (Hmsg : forall y, msg_of m2 y = msg_of m y).
    { intros y. etrans; [apply (msg_of_insert m x (MqMessage (msg_queue_free m) (mq_data n)) y)|].
      destruct (decide (y = x)) as [->|]; [|done]. unfold msg_of. by rewrite Hn. }
    pose proof Hnd as [[Hxq Hxf]%not_elem_of_app Hnd']%NoDup_cons.
    destruct (IH fuel m2 (x :: fa)) as (m' & fa' & E & Hperm & H1 & H2 & H3 & H4 & H5).
    + cbn in Hfu. lia.
    + eapply lseg_ext; [exact Hq|]. intros y Hy. rewrite Hnx, decide_False; [done|]. by intros ->.
    + split; [done|]. split; [done|]. exists (msg_queue_free m). split; [by rewrite Hnx, decide_True|].
      eapply lseg_ext; [exact Hf|]. intros y Hy. rewrite Hnx, decide_False; [done|]. by intros ->.
    + by rewrite <- Permutation_middle.
    + cbn. rewrite Ht, last_cons. destruct (last qa) as [z|] eqn:El; change (default RT_NULL (Some ?z)) with z.
      * destruct (Z.eqb_spec z x) as [->|]; [|done]. apply last_Some in El as [l' ->]. set_solver.
      * by rewrite Z.eqb_refl.
    + exists m', fa'. split; [exact E|]. split; [rewrite Hperm; symmetry; apply Permutation_middle|].
      split_and!; try done; [|apply H5..]. intros y. by rewrite H4, Hmsg.
Qed.

(** [rt_mq_control] with [RT_IPC_CMD_RESET], called by a running thread, empties
    the queue, giving every node back to the free list (the loop ends after as
    many rounds as there are messages), and wakes all waiting receivers with
    [-RT_ERROR]. *)
Theorem rt_mq_control_reset k th a size cap qs rcv arg :
  running k th -> mq_at k a size cap qs rcv ->
  exists k', rt_mq_control a RT_IPC_CMD_RESET arg k = Done RT_EOK k' /\ kinv k' /\ mq_at k' a size cap [] [] /\
    forall t, k_thr k' !! t = if decide (t ∈ rcv) then woken_error <$> k_thr k !! t else k_thr k !! t.
Proof.
  intros HR [Ho (m & Hm & (qa & fa & HL & _) & Hs & Hx) Hr]. pose proof HL as [Hq Ht Hf Hnd He Hmax Hrg Hd].
  destruct (resume_all_done none 0 k (LSuspend a) rcv (rn_inv _ _ HR) I Hr) as (k1 & E & HK1 & HF & Ec & Etl & Eth); [by intros ? ? []|].
  assert (Hm1 : k_mq k1 !! a = Some m) by (by rewrite (fr_mq _ _ HF)).
  destruct (reset_loop_done k1 a qa (Z.to_nat (max_msgs m)) m fa) as (m' & fa' & El & Hp & H1 & H2 & H3 & H4 & H5 & H6); try done.
  { rewrite length_app in Hmax. lia. }
  rewrite (kmq_id a m k1 Hm1) in El. set (m2 := set_lists 0 (msg_queue_head m') (msg_queue_tail m') (msg_queue_free m') m').
  assert (HK2 : kinv (kmq a m2 k1)) by (by apply kbut_set_mq).
  assert (Hno : k_cur k ∉ rcv) by (apply (ready_not_waiting _ _ _ _ _ _ (LSuspend a) _ (kb_sched _ _ _ _ (rn_inv _ _ HR)) (rn_thr _ _ HR) (rn_ready _ _ HR) I Hr)).
  destruct (schedule_done none 0 (kmq a m2 k1) HK2) as (k' & Es & Hre).
  { cbn. rewrite Ec. by eapply running_nonnull. }
  { exists (k_cur k), th. cbn. rewrite Eth, decide_False by done. split; apply HR. }
  exists k'. split; [|split; [by eapply resched_kbut|split]].
  - unfold rt_mq_control. rewrite (after (ipc_check_done _ _ _ Ho)). change (RT_IPC_CMD_RESET =? RT_IPC_CMD_RESET) with true. cbn iota.
    rewrite (after E), (after (mqx_done _ _ _ Hm1)), (after El), (after (mqx_done _ _ _ (kmq_at a m' k1))).
    unfold set_mqx. mstep. change (upd_mq (<[a := ?m]>) (kmq a m' k1)) with (kmq a m (kmq a m' k1)). rewrite kmq_kmq. by rewrite (after Es).
  - pose proof (frame_resched _ _ Hre) as HF'. apply resched_cur in Hre as (c & p & ->).
    split; [eapply ipc_obj_frame; [exact HF'|exact (ipc_obj_frame _ _ _ _ HF Ho)]| |cbn; by rewrite Etl, decide_True].
    exists m2. split; [apply kmq_at|]. split; [|cbn; by rewrite H5, H6]. exists [], fa'. split; [|done]. split; cbn; try done.
    + by rewrite Hp.
    + rewrite H5, Hp. exact Hmax.
    + by rewrite H5, H6.
    + intros x Hx'. rewrite H6. etrans; [apply (f_equal length (H4 x))|]. apply Hd. by rewrite <- Hp.
  - apply resched_cur in Hre as (c & p & ->). exact Eth.
Qed.
