(* ===== verification/MemPool.v ===== *)
(** * Memory pools (src/mempool.c)

    A memory pool hands out blocks of equal size.  Every block is preceded by a
    word that links the free blocks and, once the block is allocated, points
    back to the pool, which is how [rt_mp_free] finds it.  [mp_rep m a fa ua]
    says that the blocks [fa] are free, in the order of the list, and the blocks
    [ua] handed out.  The theorems show that allocation hands out a free block
    or waits, that a freed block is free again and wakes a waiting thread, that
    a new pool has all its blocks, and that the counter of waiting threads goes
    stale when a wait times out. *)

From S2P Require Import Prelude RtList Exec KService Mem Kernel Object Scheduler Timer Thread Ipc Slist.

(** ** Operations *)

Definition mpx (a : Z) : K rt_mempool := deref (fun k => k_mp k !! a).
Definition set_mpx (a : Z) (m : rt_mempool) : K unit := modify (upd_mp (<[a := m]>)).

(** [sizeof(rt_uint8_t * )]. *)
Definition MP_WORD : Z := 4.

(** Writes to the word in front of a block, to the head of the free list with its
    counter, and to the counter of the waiting threads. *)
Definition set_link (x v : Z) (m : rt_mempool) : rt_mempool :=
  Mempool (start_address m) (mp_size m) (mp_block_size m) (block_list m) (<[x := v]> (mp_links m))
    (block_total_count m) (block_free_count m) (suspend_thread_count m).
Definition set_blocks (head free : Z) (m : rt_mempool) : rt_mempool :=
  Mempool (start_address m) (mp_size m) (mp_block_size m) head (mp_links m)
    (block_total_count m) free (suspend_thread_count m).
Definition set_suspended (n : Z) (m : rt_mempool) : rt_mempool :=
  Mempool (start_address m) (mp_size m) (mp_block_size m) (block_list m) (mp_links m)
    (block_total_count m) (block_free_count m) n.

(** The word at address [x], with the pool whose memory it is in. *)
Fixpoint owner_of (x : Z) (l : list (Z * rt_mempool)) : option (Z * Z) :=
  match l with
  | [] => None
  | (a, m) :: l => match mp_links m !! x with Some v => Some (a, v) | None => owner_of x l end
  end.
Definition mp_word (x : Z) : K (Z * Z) := deref (fun k => owner_of x (map_to_list (k_mp k))).
Definition mp_store (x v : Z) : K unit :=
  w <- mp_word x;; m <- mpx (fst w);; set_mpx (fst w) (set_link x v m).

(** The loop that threads the free list through the pool. *)
Fixpoint mp_init_loop (n : nat) (offset : Z) (m : rt_mempool) : rt_mempool :=
  match n with
  | O => m
  | S n =>
      let w := mp_block_size m + MP_WORD in
      mp_init_loop n (offset + 1) (set_link (start_address m + offset * w) (start_address m + (offset + 1) * w) m)
  end.

(** The end of [rt_mp_init] and [rt_mp_create].  A pool without a block makes the
    write behind the loop miss the pool. *)
Definition mp_setup (a start size block_size total : Z) : K unit :=
  let m := mp_init_loop (Z.to_nat total) 0 (Mempool start size block_size RT_NULL ∅ total total 0) in
  if total =? 0 then stuck Undefined
  else set_mpx a (set_blocks start total (set_link (start + (total - 1) * (block_size + MP_WORD)) RT_NULL m)).

Definition rt_mp_init (a : Z) (name : list Z) (start size block_size : Z) : K Z :=
  rt_assert (negb (a =? RT_NULL));;;
  rt_object_init (Obj a) RT_Object_Class_MemPool name;;;
  let size := RT_ALIGN_DOWN size RT_ALIGN_SIZE in
  let block_size := RT_ALIGN block_size RT_ALIGN_SIZE in
  _ <- rt_ipc_object_init (LSuspend a);;
  mp_setup a start size block_size (size / u32 (block_size + MP_WORD));;;
  ret RT_EOK.

(** The loop that wakes the waiting threads with an error. *)
Fixpoint mp_resume_loop (fuel : nat) (a : Z) : K unit :=
  l <- tlist (LSuspend a);;
  match l with
  | [] => ret tt
  | t :: _ =>
      match fuel with
      | O => stuck Diverge
      | S fuel =>
          mod_thr t (set_error (- RT_ERROR));;;
          _ <- rt_thread_resume t;;
          m <- mpx a;; set_mpx a (set_suspended (u32 (suspend_thread_count m - 1)) m);;;
          mp_resume_loop fuel a
      end
  end.

Definition rt_mp_detach (a : Z) : K Z :=
  ipc_check_arg a RT_Object_Class_MemPool;;;
  s <- rt_object_is_systemobject (Obj a);; rt_assert s;;;
  l <- tlist (LSuspend a);; mp_resume_loop (length l) a;;;
  rt_object_detach (Obj a);;;
  ret RT_EOK.

(** The size is computed in 32 bits: when it overflows the loop writes behind the
    memory that was allocated. *)
Definition rt_mp_create (name : list Z) (block_count block_size : Z) : K Z :=
  not_in_interrupt;;;
  a <- rt_object_allocate RT_Object_Class_MemPool name;;
  if a =? RT_NULL then ret RT_NULL
  else
    let block_size := RT_ALIGN block_size RT_ALIGN_SIZE in
    let size := u32 ((block_size + MP_WORD) * block_count) in
    start <- kmalloc size;;
    if start =? RT_NULL then rt_object_delete a;;; ret RT_NULL
    else
      _ <- rt_ipc_object_init (LSuspend a);;
      (if size =? (block_size + MP_WORD) * block_count then mp_setup a start size block_size block_count
       else stuck Undefined);;;
      ret a.

Definition rt_mp_delete (a : Z) : K Z :=
  not_in_interrupt;;;
  ipc_check_arg a RT_Object_Class_MemPool;;;
  s <- rt_object_is_systemobject (Obj a);; rt_assert (negb s);;;
  l <- tlist (LSuspend a);; mp_resume_loop (length l) a;;;
  m <- mpx a;; kfree (start_address m);;;
  rt_object_delete a;;;
  ret RT_EOK.

(** Behind [rt_schedule]: the call gives up, or goes round its loop again. *)
Definition rt_mp_alloc_resumed (errno t time start : Z) : K (Z * Z + Z) :=
  r <- wait_resumed t time start;;
  ret (match r with inl _ => inl (RT_NULL, errno) | inr more => inr more end).

(** Behind the loop: the first free block is taken. *)
Definition mp_take (a : Z) : K Z :=
  m <- mpx a;; set_mpx a (set_blocks (block_list m) (u32 (block_free_count m - 1)) m);;;
  m <- mpx a;;
  let block_ptr := block_list m in
  rt_assert (negb (block_ptr =? RT_NULL));;;
  w <- mp_word block_ptr;;
  m <- mpx a;; set_mpx a (set_blocks (snd w) (block_free_count m) m);;;
  mp_store block_ptr a;;;
  ret (block_ptr + MP_WORD).

(** The result is the block and the value of [__rt_errno]; [inr] is another round
    of the loop with the time that is left.  The waiting threads are put in front. *)
Definition rt_mp_alloc (errno a time : Z) : K (outcome (Z * Z + Z)) :=
  t <- rt_thread_self;;
  m <- mpx a;;
  if block_free_count m =? 0 then
    if time =? 0 then e <- rt_set_errno errno (- RT_ETIMEOUT);; ret (Returned (inl (RT_NULL, e)))
    else
      not_in_interrupt;;;
      mod_thr t (set_error RT_EOK);;;
      _ <- rt_thread_suspend t;;
      tl_insert_after (LSuspend a) t;;;
      m <- mpx a;; set_mpx a (set_suspended (u32 (suspend_thread_count m + 1)) m);;;
      start <- gets k_tick;;
      ipc_wait t time (rt_mp_alloc_resumed errno t time start)
  else b <- mp_take a;; ret (Returned (inl (b, errno))).

Definition rt_mp_free (block : Z) : K unit :=
  let block_ptr := block - MP_WORD in
  w <- mp_word block_ptr;;
  let a := snd w in
  m <- mpx a;; set_mpx a (set_blocks (block_list m) (u32 (block_free_count m + 1)) m);;;
  m <- mpx a;; mp_store block_ptr (block_list m);;;
  m <- mpx a;; set_mpx a (set_blocks block_ptr (block_free_count m) m);;;
  m <- mpx a;;
  if 0 <? suspend_thread_count m then
    l <- tlist (LSuspend a);;
    match l with
    | [] => stuck Undefined
    | t :: _ =>
        mod_thr t (set_error RT_EOK);;;
        _ <- rt_thread_resume t;;
        m <- mpx a;; set_mpx a (set_suspended (u32 (suspend_thread_count m - 1)) m);;;
        rt_schedule
    end
  else ret tt.

(** ** Representation *)

(** The blocks (by the address of their word) [fa] are free, [ua] handed out. *)
Record mp_rep (m : rt_mempool) (a : Z) (fa ua : list Z) : Prop := MpRep {
  mp_free : lseg (fun x => mp_links m !! x) (block_list m) fa;
  mp_used : forall x, x ∈ ua -> mp_links m !! x = Some a;
  mp_dom : forall x, is_Some (mp_links m !! x) -> x ∈ fa ++ ua;
  mp_nodup : NoDup (fa ++ ua);
  mp_nonnull : RT_NULL ∉ ua;
  mp_count : block_free_count m = Z.of_nat (length fa);
  mp_total : block_total_count m = Z.of_nat (length (fa ++ ua));
  mp_range : block_total_count m < 2 ^ 32
}.

(** No other pool has a block at [x]. *)
Definition mp_only (k : kernel) (a x : Z) : Prop :=
  forall b m, k_mp k !! b = Some m -> is_Some (mp_links m !! x) -> b = a.

(** The pool [a] with the threads [l] waiting for a block. *)
Record mp_at (k : kernel) (a : Z) (fa ua l : list Z) : Prop := MpAt {
  pt_val : exists m, k_mp k !! a = Some m /\ mp_rep m a fa ua /\ suspend_thread_count m = Z.of_nat (length l) /\
    Z.of_nat (length l) < 2 ^ 32 - 1;
  pt_only : forall x, x ∈ fa ++ ua -> mp_only k a x;
  pt_wait : k_tl k !! LSuspend a = Some l
}.

Lemma mpx_done k a m : k_mp k !! a = Some m -> mpx a k = Done m k.
Proof. intros. unfold mpx. by apply deref_some. Qed.

(** The kernel with the pool [a] in state [m]. *)
Definition kmp (a : Z) (m : rt_mempool) (k : kernel) : kernel := upd_mp (<[a := m]>) k.
Lemma kmp_kmp a m m' k : kmp a m' (kmp a m k) = kmp a m' k.
Proof. unfold kmp. kext. apply insert_insert_eq. Qed.
Lemma kmp_at a m k : k_mp (kmp a m k) !! a = Some m.
Proof. apply lookup_insert_eq. Qed.
Lemma kmp_id a m k : k_mp k !! a = Some m -> kmp a m k = k.
Proof. intros Hm. unfold kmp. kext. by apply insert_id. Qed.
Lemma kbut_kmp X P lo k a m : kbut X P lo k -> kbut X P lo (kmp a m k).
Proof. intros HK. by eapply kbut_frame. Qed.

Lemma set_mpx_done k a m m' : set_mpx a m' (kmp a m k) = Done tt (kmp a m' k).
Proof. exact (f_equal (Done tt) (kmp_kmp a m m' k)). Qed.

Lemma mp_only_kmp k a m x : mp_only k a x -> mp_only (kmp a m k) a x.
Proof.
  intros Ho b m' Hb Hx. destruct (decide (b = a)) as [->|]; [done|]. cbn in Hb. rewrite lookup_insert_ne in Hb by done. eauto.
Qed.

Lemma owner_of_done x a m v l :
  (a, m) ∈ l -> mp_links m !! x = Some v ->
  (forall b m', (b, m') ∈ l -> is_Some (mp_links m' !! x) -> b = a /\ m' = m) -> owner_of x l = Some (a, v).
Proof.
  intros Hin Hv. induction l as [|[b m'] l IH]; intros Ho; [by apply not_elem_of_nil in Hin|]. cbn [owner_of].
  destruct (mp_links m' !! x) as [v'|] eqn:E.
  - destruct (Ho b m') as [-> ->]; [by apply elem_of_cons; left|by eauto|]. congruence.
  - apply elem_of_cons in Hin as [[= -> ->]|Hin]; [congruence|]. apply IH; [done|]. intros b' m'' Hb. apply Ho. by apply elem_of_cons; right.
Qed.

Lemma mp_word_done k a m x v :
  mp_only k a x -> mp_links m !! x = Some v -> mp_word x (kmp a m k) = Done (a, v) (kmp a m k).
Proof.
  intros Ho Hv. unfold mp_word. apply deref_some. apply (owner_of_done x a m v).
  - apply elem_of_map_to_list. apply kmp_at.
  - done.
  - intros b m' Hb%elem_of_map_to_list Hx. assert (b = a) as -> by (by eapply (mp_only_kmp k a m x Ho)).
    split; [done|]. rewrite kmp_at in Hb. congruence.
Qed.

Lemma mp_store_done k a m x v w :
  mp_only k a x -> mp_links m !! x = Some v -> mp_store x w (kmp a m k) = Done tt (kmp a (set_link x w m) k).
Proof.
  intros Ho Hv. unfold mp_store. rewrite (after (mp_word_done k a m x v Ho Hv)). cbn [fst].
  rewrite (after (mpx_done _ _ _ (kmp_at a m k))). apply set_mpx_done.
Qed.

(** ** Taking and giving back a block *)

(** The record after the block [x], followed by [v], was taken, and given back. *)
Definition m_alloc (a x v : Z) (m : rt_mempool) : rt_mempool :=
  set_link x a (set_blocks v (u32 (block_free_count m - 1)) m).
Definition m_release (x : Z) (m : rt_mempool) : rt_mempool :=
  set_blocks x (u32 (block_free_count m + 1)) (set_link x (block_list m) m).

Lemma mp_take_done k a m fa ua x :
  mp_rep m a (x :: fa) ua -> mp_only k a x ->
  exists v, mp_take a (kmp a m k) = Done (x + MP_WORD) (kmp a (m_alloc a x v m) k) /\ mp_rep (m_alloc a x v m) a fa (x :: ua).
Proof.
  intros [(Hb & Hx & v & Hv & Hf) Hu Hd Hnd Hnn Hc Ht Hr] Ho. exists v.
  pose proof Hnd as [[Hxf Hxu]%not_elem_of_app _]%NoDup_cons. split.
  - unfold mp_take. rewrite (after (mpx_done _ _ _ (kmp_at a m k))), (after (set_mpx_done k a m _)).
    set (m1 := set_blocks _ _ m). rewrite (after (mpx_done _ _ _ (kmp_at a m1 k))). change (block_list m1) with (block_list m). rewrite Hb.
    destruct (Z.eqb_spec x RT_NULL); [done|]. cbn [negb rt_assert]. mstep.
    rewrite (after (mp_word_done k a m1 x v Ho Hv)), (after (mpx_done _ _ _ (kmp_at a m1 k))).
    rewrite (after (set_mpx_done k a m1 _)). set (m2 := set_blocks _ _ m1).
    by rewrite (after (mp_store_done k a m2 x v a Ho Hv)).
  - assert (Hl : forall y, y <> x -> mp_links (m_alloc a x v m) !! y = mp_links m !! y) by (intros y Hy; cbn; by rewrite lookup_insert_ne).
    split; cbn [m_alloc set_link set_blocks block_list block_free_count block_total_count].
    + eapply lseg_ext; [exact Hf|]. intros y Hy. apply Hl. by intros ->.
    + intros y [->|Hy]%elem_of_cons; [apply lookup_insert_eq|]. etrans; [|apply Hu, Hy]. apply Hl. by intros ->.
    + intros y Hy. destruct (decide (y = x)) as [->|Hne]; [set_solver|]. rewrite (Hl y Hne) in Hy. specialize (Hd y Hy). set_solver.
    + by rewrite <- Permutation_middle.
    + apply not_elem_of_cons. by split.
    + rewrite Hc. cbn [length]. unfold u32. rewrite Z.mod_small; rewrite ?length_app in *; cbn [length] in *; lia.
    + by rewrite <- Permutation_middle.
    + done.
Qed.

Lemma mp_release_rep a m fa ua1 ua2 x :
  mp_rep m a fa (ua1 ++ x :: ua2) -> mp_rep (m_release x m) a (x :: fa) (ua1 ++ ua2).
Proof.
  intros [Hf Hu Hd Hnd Hnn Hc Ht Hr].
  assert (Hp : fa ++ ua1 ++ x :: ua2 ≡ₚ (x :: fa) ++ ua1 ++ ua2) by (rewrite <- (Permutation_middle ua1), <- Permutation_middle; done).
  assert (Hnd' : NoDup ((x :: fa) ++ ua1 ++ ua2)) by (by rewrite <- Hp).
  pose proof Hnd' as [[Hxf Hxu]%not_elem_of_app _]%NoDup_cons.
  assert (Hl : forall y, y <> x -> mp_links (m_release x m) !! y = mp_links m !! y) by (intros y Hy; cbn; by rewrite lookup_insert_ne).
  split; cbn [m_release set_link set_blocks block_list block_free_count block_total_count].
  - split; [done|]. split; [intros ->; set_solver|]. exists (block_list m). split; [apply lookup_insert_eq|].
    eapply lseg_ext; [exact Hf|]. intros y Hy. apply Hl. by intros ->.
  - intros y Hy. etrans; [apply Hl; by intros ->|]. apply Hu. set_solver.
  - intros y Hy. destruct (decide (y = x)) as [->|Hne]; [set_solver|]. rewrite (Hl y Hne) in Hy. rewrite <- Hp. by apply Hd.
  - done.
  - set_solver.
  - rewrite Hc. cbn [length]. unfold u32. rewrite Z.mod_small; rewrite ?length_app in *; cbn [length] in *; lia.
  - by rewrite <- Hp.
  - done.
Qed.

Lemma mp_at_kmp k a fa ua l m' fa' ua' :
  mp_at k a fa ua l -> mp_rep m' a fa' ua' -> suspend_thread_count m' = Z.of_nat (length l) -> fa' ++ ua' ≡ₚ fa ++ ua ->
  mp_at (kmp a m' k) a fa' ua' l.
Proof.
  intros [(m & Hm & HR & Hs & Hb) Ho Hw] HR' Hs' Hp. split; [|intros x; rewrite Hp; intros Hx; by apply mp_only_kmp, Ho|done].
  exists m'. split; [apply kmp_at|done].
Qed.

(** The running thread waits for a block, in front of those that wait already. *)
Lemma mp_wait_done {A} k th a m l time (rest : Z -> K A) :
  running k th -> k_mp k !! a = Some m -> k_tl k !! LSuspend a = Some l -> time <= max_off ->
  exists k' k1, (_ <- rt_thread_suspend (k_cur k);; tl_insert_after (LSuspend a) (k_cur k);;;
      m <- mpx a;; set_mpx a (set_suspended (u32 (suspend_thread_count m + 1)) m);;;
      start <- gets k_tick;; ipc_wait (k_cur k) time (rest start)) k = Done Blocked k' /\ kinv k' /\
    frame k k1 /\ frame (kmp a (set_suspended (u32 (suspend_thread_count m + 1)) m) k1) k' /\
    k_tl k' !! LSuspend a = Some (k_cur k :: l) /\ k_cur k' <> k_cur k /\
    k_thr k' = <[k_cur k := susp_stat th]> (k_thr k) /\
    (0 < time -> TimerOf (k_cur k) ∈ k_tmlist k' /\ toff (k_tm k') (k_tick k') (TimerOf (k_cur k)) = time).
Proof.
  intros [HK Ht Hs Hlk Hirq (i & thi & Hi & His & Hne)] Hm Hl Htm. set (t := k_cur k) in *.
  destruct (suspend_done none 0 k t th HK Ht Hs (fun f => f)) as (h & _ & E & HK1). destruct (kb_thr _ _ _ _ HK t th Ht) as (Hnz & _).
  assert (Hno : t ∉ l) by (apply (ready_not_waiting _ _ _ _ _ _ (LSuspend a) _ (kb_sched _ _ _ _ HK) Ht Hs I Hl)).
  pose proof (enqueue_kbut none 0 k (LSuspend a) t th h [] l HK1 I Hl Hno Hnz) as HK2.
  set (k1 := k_enqueue (LSuspend a) t th h ([] ++ t :: l) k) in *. set (m' := set_suspended _ m).
  assert (Hm1 : k_mp k1 !! a = Some m) by done.
  destruct (ipc_block_done none 0 (kmp a m' k1) t (susp_stat th) time (rest (k_tick k))) as (k' & E' & HK' & HF & Eth & Etl & Hcur & Htime);
    try done; [by apply kbut_kmp|cbn; apply lookup_insert_eq|apply susp_stat_statm|by intros []|
      exists i, thi; cbn; by rewrite lookup_insert_ne by congruence|].
  exists k', k1. split; [|split; [done|split; [apply frame_enqueue|split; [done|split; [|split; [done|split; done]]]]]].
  - rewrite (after E). erewrite bind_done; [|apply tl_insert_after_done].
    + assert (Ek : upd_tl (lpush_front (LSuspend a) t) (k_suspend t th h k) = k1).
      { unfold k1, k_enqueue. kext. unfold lpush_front, lget. by rewrite (suspend_wait_list k t th h _ _ Hl Hno). }
      rewrite Ek, (after (mpx_done _ _ _ Hm1)). unfold set_mpx. do 2 mstep. exact E'.
    + cbn. rewrite lookup_insert_eq. by eauto.
    + rewrite (suspend_wait_list k t th h _ _ Hl Hno). by eauto.
    + apply (sched_but_queued _ _ _ t (kb_sched _ _ _ _ HK1)).
  - rewrite Etl. cbn. apply lookup_insert_eq.
Qed.

(** [rt_mp_alloc] by the running thread takes the first free block, marks it as
    the pool's and counts it, changing nothing but the pool; in an exhausted pool
    it fails at once without a waiting time, with the error number set, and
    otherwise suspends the caller in front of the threads that wait already (the
    last to come is the first served), with its timer armed. *)
Theorem rt_mp_alloc_correct k th errno a fa ua l time :
  running k th -> mp_at k a fa ua l -> time <= max_off -> Z.of_nat (length l) < 2 ^ 32 - 2 ->
  exists r k', rt_mp_alloc errno a time k = Done r k' /\ kinv k' /\
    match fa with
    | x :: fa' => r = Returned (inl (x + MP_WORD, errno)) /\ mp_at k' a fa' (x :: ua) l /\ exists m, k' = kmp a m k
    | [] =>
        if decide (time = 0) then
          r = Returned (inl (RT_NULL, errno)) /\ k' = upd_thr (<[k_cur k := set_error (- RT_ETIMEOUT) th]>) k
        else r = Blocked /\ waits k k' th time /\ mp_at k' a [] ua (k_cur k :: l)
    end.
Proof.
  intros HR HA Htm Hln. pose proof HA as [(m & Hm & Hrep & Hs & Hb) Ho Hl]. pose proof (rn_inv _ _ HR) as HK.
  unfold rt_mp_alloc, rt_thread_self. mstep. rewrite (after (mpx_done _ _ _ Hm)), (mp_count _ _ _ _ Hrep).
  destruct fa as [|x fa].
  - change (Z.of_nat (length (A := Z) []) =? 0) with true. cbn iota. destruct (Z.eqb_spec time 0) as [->|Ht0].
    + eexists _, _. split; [|split; [|done]].
      * unfold rt_set_errno. rewrite bind_assoc. mstep. rewrite (rn_irq _ _ HR). change (nz 0) with false. cbn iota. rewrite bind_assoc. mstep.
        destruct (Z.eqb_spec (k_cur k) RT_NULL); [by destruct (running_nonnull _ _ HR)|].
        rewrite bind_assoc, (after (mod_thr_done _ _ _ _ (rn_thr _ _ HR))). done.
      * by eapply set_error_kbut, HR.
    + destruct (decide (time = 0)); [done|]. unfold not_in_interrupt. rewrite bind_assoc. mstep. rewrite (rn_irq _ _ HR). cbn [Z.eqb rt_assert]. mstep.
      rewrite (after (mod_thr_done _ _ _ _ (rn_thr _ _ HR))). pose proof (running_error k th RT_EOK HR) as HR1.
      destruct (mp_wait_done _ _ a m l time (rt_mp_alloc_resumed errno (k_cur k) time) HR1 Hm Hl Htm)
        as (k' & k1 & E & HK' & HF1 & HF2 & Etl & Hcur & Eth & Htime).
      exists Blocked, k'. split; [exact E|]. split; [done|]. split; [done|]. split.
      * split; [done|]. split; [|done]. rewrite Eth. cbn. by rewrite insert_insert_eq.
      * split; [|intros x Hx b mb; rewrite (fr_mp _ _ HF2); intros Hb1 Hb2|done].
        -- exists (set_suspended (u32 (suspend_thread_count m + 1)) m). rewrite (fr_mp _ _ HF2). split; [apply kmp_at|].
           split; [by destruct Hrep|]. cbn. rewrite Hs. unfold u32. rewrite Z.mod_small by lia. lia.
        -- eapply (mp_only_kmp k1 a _ x); [|exact Hb1|exact Hb2]. intros b' mb'. rewrite (fr_mp _ _ HF1). by apply Ho.
  - destruct (Z.eqb_spec (Z.of_nat (length (x :: fa))) 0) as [E0|_]; [cbn in E0; lia|].
    destruct (mp_take_done k a m fa ua x Hrep) as (v & E & HR'); [apply Ho; set_solver|]. rewrite (kmp_id a m k Hm) in E.
    rewrite (after E). eexists _, _. split; [done|]. split; [by apply kbut_kmp|]. split; [done|]. split; [|by eexists].
    eapply mp_at_kmp; [exact HA|done|done|]. by rewrite <- Permutation_middle.
Qed.

(** [rt_mp_free] up to the wake-up. *)
Lemma mp_give_done k a m x : mp_only k a x -> mp_links m !! x = Some a ->
  rt_mp_free (x + MP_WORD) (kmp a m k) =
  (m <- mpx a;;
   if 0 <? suspend_thread_count m then
     l <- tlist (LSuspend a);;
     match l with
     | [] => stuck Undefined
     | t :: _ =>
         mod_thr t (set_error RT_EOK);;; _ <- rt_thread_resume t;;
         m <- mpx a;; set_mpx a (set_suspended (u32 (suspend_thread_count m - 1)) m);;; rt_schedule
     end
   else ret tt) (kmp a (m_release x m) k).
Proof.
  intros Ho Hx. unfold rt_mp_free. rewrite Z.add_simpl_r. rewrite (after (mp_word_done k a m x a Ho Hx)). cbn [snd].
  rewrite (after (mpx_done _ _ _ (kmp_at a m k))), (after (set_mpx_done k a m _)). set (m1 := set_blocks _ _ m).
  rewrite (after (mpx_done _ _ _ (kmp_at a m1 k))), (after (mp_store_done k a m1 x a _ Ho Hx)). set (m2 := set_link _ _ m1).
  by rewrite (after (mpx_done _ _ _ (kmp_at a m2 k))), (after (set_mpx_done k a m2 _)).
Qed.

(** The wake-up: the first waiting thread becomes READY without an error. *)
Lemma mp_wake_done k a m t l th :
  kinv k -> k_cur k <> RT_NULL -> k_mp k !! a = Some m -> k_tl k !! LSuspend a = Some (t :: l) -> k_thr k !! t = Some th ->
  let m' := set_suspended (u32 (suspend_thread_count m - 1)) m in
  exists k1 k', (mod_thr t (set_error RT_EOK);;; _ <- rt_thread_resume t;;
      m <- mpx a;; set_mpx a (set_suspended (u32 (suspend_thread_count m - 1)) m);;; rt_schedule) k = Done tt k' /\
    kinv k' /\ frame k k1 /\ frame (kmp a m' k1) k' /\ k_tl k' !! LSuspend a = Some l /\
    k_thr k' = <[t := ready_stat (set_error RT_EOK th)]> (k_thr k) /\
    (k_lock k = 0 -> exists p, highest (k_tl k') p (k_cur k')).
Proof.
  intros HK Hc Hm Hl Ht m'. set (th0 := set_error RT_EOK th). set (k0 := upd_thr (<[t := th0]>) k).
  assert (HK0 : kinv k0) by (by apply set_error_kbut). assert (Ht0 : k_thr k0 !! t = Some th0) by (cbn; apply lookup_insert_eq).
  destruct (ipc_wake_done none 0 k0 (LSuspend a) t l th0 HK0 I Hl Ht0 (fun f => f)) as (k1 & E & HK1 & HF & Eth & Ec & Etl & _).
  assert (E1 : rt_thread_resume t k0 = Done RT_EOK k1).
  { unfold rt_ipc_list_resume in E. rewrite (after (tlist_done (LSuspend a) k0 _ Hl)) in E.
    destruct (so_mem _ _ _ _ (kb_sched _ _ _ _ HK0) _ _ t Hl) as (_ & _ & th' & Ht' & Hst); [apply elem_of_cons; by left|].
    destruct (resume_done none 0 k0 t th' HK0 Ht' Hst (fun f => f)) as (h & _ & Er & _). rewrite Er. rewrite (after Er) in E. by injection E as ->. }
  assert (Hm1 : k_mp k1 !! a = Some m) by (by rewrite (fr_mp _ _ HF)).
  destruct (schedule_done none 0 (kmp a m' k1)) as (k' & Es & Hre).
  { by apply kbut_kmp. }
  { cbn. by rewrite Ec. }
  { exists t, (ready_stat th0). cbn. rewrite Eth, lookup_insert_eq. split; [done|]. apply ready_stat_statm. }
  exists k1, k'. split.
  { rewrite (after (mod_thr_done _ _ _ _ Ht)), (after E1), (after (mpx_done _ _ _ Hm1)).
    unfold set_mpx. mstep. exact Es. }
  split; [eapply resched_kbut; [exact Hre|by apply kbut_kmp]|]. split; [etrans; [|exact HF]; by split|]. split; [by apply frame_resched|].
  pose proof (resched_highest _ _ Hre) as Hhi. apply resched_cur in Hre as (c & p & ->). split_and!.
  - cbn. by rewrite Etl, decide_True.
  - cbn. rewrite Eth. cbn. by rewrite insert_insert_eq.
  - intros Hlk. apply Hhi. cbn. rewrite (fr_lock _ _ HF). done.
Qed.

(** [rt_mp_free] of a block that was handed out puts it back in front of the free
    list of its own pool, which it finds through the word in front of the block;
    a waiting thread, if there is one, leaves the list and becomes READY, and the
    highest ready priority gets the processor. *)
Theorem rt_mp_free_correct k a fa ua1 x ua2 l :
  kinv k -> k_cur k <> RT_NULL -> mp_at k a fa (ua1 ++ x :: ua2) l ->
  exists k', rt_mp_free (x + MP_WORD) k = Done tt k' /\ kinv k' /\ mp_at k' a (x :: fa) (ua1 ++ ua2) (tail l) /\
    match l with
    | [] => k_thr k' = k_thr k /\ k_cur k' = k_cur k
    | t :: _ => exists th, k_thr k !! t = Some th /\ k_thr k' = <[t := ready_stat (set_error RT_EOK th)]> (k_thr k) /\
        (k_lock k = 0 -> exists p, highest (k_tl k') p (k_cur k'))
    end.
Proof.
  intros HK Hc HA. pose proof HA as [(m & Hm & Hrep & Hs & Hb) Ho Hl].
  assert (Hp : (x :: fa) ++ ua1 ++ ua2 ≡ₚ fa ++ ua1 ++ x :: ua2) by (rewrite <- (Permutation_middle ua1), <- Permutation_middle; done).
  pose proof (mp_release_rep a m fa ua1 ua2 x Hrep) as HR'. set (m1 := m_release x m) in *.
  pose proof (mp_at_kmp k a _ _ l m1 _ _ HA HR' Hs Hp) as HA1. assert (HK1 : kinv (kmp a m1 k)) by (by apply kbut_kmp).
  pose proof (mp_give_done k a m x (Ho x ltac:(set_solver)) (mp_used _ _ _ _ Hrep x ltac:(set_solver))) as E. rewrite (kmp_id a m k Hm) in E.
  fold m1 in E. rewrite E, (after (mpx_done _ _ _ (kmp_at a m1 k))). change (suspend_thread_count m1) with (suspend_thread_count m).
  rewrite Hs. destruct l as [|t l].
  - change (0 <? Z.of_nat (length (A := Z) [])) with false. cbn iota. by eexists.
  - destruct (Z.ltb_spec 0 (Z.of_nat (length (t :: l)))) as [_|H0]; [|cbn in H0; lia].
    rewrite (after (tlist_done _ (kmp a m1 k) _ Hl)).
    destruct (so_mem _ _ _ _ (kb_sched _ _ _ _ HK) _ _ t Hl) as (_ & _ & th & Ht & _); [apply elem_of_cons; by left|].
    destruct (mp_wake_done (kmp a m1 k) a m1 t l th HK1 Hc (kmp_at a m1 k) Hl Ht) as (k1 & k' & E' & HK' & HF1 & HF2 & Etl & Eth & Hhi).
    exists k'. split; [exact E'|]. split; [done|]. split; [|exists th; split_and!; try done]. split; [|intros y Hy b mb Hb1 Hb2|done].
    + exists (set_suspended (u32 (suspend_thread_count m1 - 1)) m1). rewrite (fr_mp _ _ HF2). split; [apply kmp_at|]. split; [by destruct HR'|].
      cbn [tail set_suspended suspend_thread_count]. change (suspend_thread_count m1) with (suspend_thread_count m). rewrite Hs. cbn [length] in *.
      unfold u32. rewrite Z.mod_small; lia.
    + rewrite (fr_mp _ _ HF2) in Hb1. eapply (mp_only_kmp k1 a _ y); [|exact Hb1|exact Hb2].
      intros b' mb'. rewrite (fr_mp _ _ HF1). apply (pt_only _ _ _ _ _ HA1 y Hy).
Qed.

(** ** A new pool *)

Lemma mp_init_loop_links n : forall offset m, 0 <= mp_block_size m ->
  let w := mp_block_size m + MP_WORD in let m' := mp_init_loop n offset m in
  (forall i, offset <= i < offset + Z.of_nat n -> mp_links m' !! (start_address m + i * w) = Some (start_address m + (i + 1) * w)) /\
  (forall y, is_Some (mp_links m' !! y) ->
     is_Some (mp_links m !! y) \/ exists i, offset <= i < offset + Z.of_nat n /\ y = start_address m + i * w) /\
  (forall y, (forall i, offset <= i < offset + Z.of_nat n -> y <> start_address m + i * w) -> mp_links m' !! y = mp_links m !! y) /\
  block_total_count m' = block_total_count m /\ suspend_thread_count m' = suspend_thread_count m.
Proof.
  induction n as [|n IH]; intros offset m Hb w m'; unfold m'; cbn [mp_init_loop].
  { split; [lia|]. split; [by left|]. done. }
  fold w. set (m1 := set_link _ _ m). destruct (IH (offset + 1) m1 Hb) as (H1 & H2 & H3 & H4).
  change (start_address m1) with (start_address m) in *. change (mp_block_size m1) with (mp_block_size m) in *. fold w in H1, H2, H3.
  assert (Hm1 : forall y, mp_links m1 !! y = if decide (y = start_address m + offset * w) then Some (start_address m + (offset + 1) * w) else mp_links m !! y).
  { intros y. cbn. destruct (decide _) as [->|]; [by rewrite lookup_insert_eq|by rewrite lookup_insert_ne]. }
  split_and!; [| | |apply H4..].
  - intros i Hi. destruct (decide (i = offset)) as [->|]; [|apply H1; lia]. rewrite H3, Hm1, decide_True; [done|done|].
    intros j Hj. unfold w, MP_WORD. nia.
  - intros y Hy. destruct (H2 y Hy) as [Hy'|(i & ? & ->)]; [|right; exists i; split; [lia|done]].
    rewrite Hm1 in Hy'. destruct (decide _) as [->|]; [right; exists offset; split; [lia|done]|by left].
  - intros y Hy. rewrite H3, Hm1, decide_False; [done|apply Hy; lia|intros i Hi; apply Hy; lia].
Qed.

Lemma lseg_chain nx (f : Z -> Z) n : forall i,
  (forall j, i <= j < i + Z.of_nat n -> nx (f j) = Some (if decide (j = i + Z.of_nat n - 1) then RT_NULL else f (j + 1)) /\ f j <> RT_NULL) ->
  lseg nx (if decide (n = 0%nat) then RT_NULL else f i) (f <$> seqZ i (Z.of_nat n)).
Proof.
  induction n as [|n IH]; intros i H; [done|]. rewrite seqZ_cons by lia. cbn [fmap list_fmap lseg].
  destruct (H i) as [Hn Hz]; [lia|]. split; [done|]. split; [done|]. eexists. split; [exact Hn|].
  replace (Z.pred (Z.of_nat (S n))) with (Z.of_nat n) by lia. specialize (IH (Z.succ i)).
  destruct n as [|n]; cbn [decide]; [by rewrite decide_True by lia|]. rewrite decide_False by lia. apply IH.
  intros j Hj. destruct (H j) as [Hj' ?]; [lia|]. split; [|done]. rewrite Hj'.
  destruct (decide (j = i + _ - 1)), (decide (j = Z.succ i + _ - 1)); try done; lia.
Qed.

Lemma mp_setup_rep k a start size block_size total :
  0 < start -> 0 <= block_size -> 0 <= total < 2 ^ 32 ->
  if decide (total = 0) then mp_setup a start size block_size total k = Stop Undefined
  else exists m, mp_setup a start size block_size total k = Done tt (kmp a m k) /\
    mp_rep m a ((fun i => start + i * (block_size + MP_WORD)) <$> seqZ 0 total) [] /\ suspend_thread_count m = 0.
Proof.
  intros Hs Hb Ht. unfold mp_setup. destruct (decide (total = 0)) as [->|Hne]; [done|]. destruct (Z.eqb_spec total 0); [done|].
  set (m0 := Mempool start size block_size RT_NULL ∅ total total 0). set (f := fun i => start + i * (block_size + MP_WORD)).
  destruct (mp_init_loop_links (Z.to_nat total) 0 m0 Hb) as (H1 & H2 & _ & H4). cbn [start_address mp_block_size m0] in H1, H2. fold m0.
  set (m1 := mp_init_loop _ _ m0) in *. set (m2 := set_link _ _ m1).
  assert (Hf : forall j, start + j * (block_size + MP_WORD) = f j) by done. rewrite Z2Nat.id in H1, H2 by lia.
  assert (Hinj : forall i j, f i = f j -> i = j) by (intros i j; unfold f, MP_WORD; nia).
  assert (Hin : forall y, y ∈ f <$> seqZ 0 total <-> exists i, 0 <= i < total /\ y = f i).
  { intros y. rewrite list_elem_of_fmap. split; intros (i & H & H'); exists i; [rewrite elem_of_seqZ in H'|rewrite elem_of_seqZ]; split; try done; lia. }
  eexists. split; [done|]. split; [|exact (proj2 H4)]. split; cbn [set_blocks set_link block_list block_free_count block_total_count mp_links].
  - pose proof (lseg_chain (fun x => mp_links m2 !! x) f (Z.to_nat total) 0) as HL. rewrite Z2Nat.id, decide_False in HL by lia.
    replace (f 0) with start in HL by (unfold f; lia). apply HL. intros j Hj. split; [|unfold f, MP_WORD, RT_NULL; nia].
    unfold m2. cbn. rewrite Hf. destruct (decide (j = 0 + total - 1)) as [->|Hj']; [by rewrite lookup_insert_eq|].
    rewrite lookup_insert_ne; [apply H1; lia|]. intros E%Hinj. lia.
  - by intros x ?%not_elem_of_nil.
  - intros y Hy. rewrite app_nil_r, Hin. cbn in Hy. rewrite Hf in Hy. destruct (decide (y = f (total - 1))) as [->|]; [exists (total - 1); split; [lia|done]|].
    rewrite lookup_insert_ne in Hy by done. destruct (H2 y Hy) as [He|(i & ? & ->)]; [by destruct He|].
    exists i. split; [lia|done].
  - rewrite app_nil_r. apply NoDup_fmap_2_strong; [intros ????; apply Hinj|apply NoDup_seqZ].
  - by apply not_elem_of_nil.
  - rewrite length_fmap, length_seqZ. lia.
  - etrans; [exact (proj1 H4)|]. rewrite app_nil_r, length_fmap, length_seqZ. cbn. lia.
  - change (block_total_count m2) with (block_total_count m1). rewrite (proj1 H4). cbn. lia.
Qed.

(** The pool set up by [rt_mp_init] or [rt_mp_create] has all its blocks free, from
    the start of the memory on, one [block_size + 4] behind the other and in that
    order; a pool too small for one block makes the code write in front of the
    memory it was given. *)
Theorem mp_setup_correct k a start size block_size total :
  0 < start -> 0 <= block_size -> 0 <= total < 2 ^ 32 ->
  if decide (total = 0) then mp_setup a start size block_size total k = Stop Undefined
  else exists m, mp_setup a start size block_size total k = Done tt (kmp a m k) /\
    mp_rep m a ((fun i => start + i * (block_size + MP_WORD)) <$> seqZ 0 total) [] /\ suspend_thread_count m = 0.
Proof. apply mp_setup_rep. Qed.
