(* ===== verification/Startup.v ===== *)
(** * Start-up and the idle thread (src/components.c, src/idle.c)

    [rtthread_startup] brings the kernel up: board initialisation, timer and
    scheduler tables, the main thread, the idle thread, and the first switch.
    [rt_thread_idle_excute] reclaims the threads of the defunct list.

    The board initialisation, the entry points and the cleanup functions of
    threads are parameters. *)

From S2P Require Import Prelude RtList Exec KService Mem Kernel Object Scheduler Timer Thread.

(** ** The idle thread *)

Definition RT_IDEL_HOOK_LIST_SIZE : nat := 4.

(** The search loops over [idle_hook_list]; the result is the new list and the
    value returned. *)
Fixpoint sethook_loop (hooks : list Z) (hook : Z) : list Z * Z :=
  match hooks with
  | [] => ([], - RT_EFULL)
  | h :: hooks =>
      if h =? RT_NULL then (hook :: hooks, RT_EOK)
      else let r := sethook_loop hooks hook in (h :: fst r, snd r)
  end.
Definition rt_thread_idle_sethook (hooks : list Z) (hook : Z) : list Z * Z := sethook_loop hooks hook.

Fixpoint delhook_loop (hooks : list Z) (hook : Z) : list Z * Z :=
  match hooks with
  | [] => ([], - RT_ENOSYS)
  | h :: hooks =>
      if h =? hook then (RT_NULL :: hooks, RT_EOK)
      else let r := delhook_loop hooks hook in (h :: fst r, snd r)
  end.
Definition rt_thread_idle_delhook (hooks : list Z) (hook : Z) : list Z * Z := delhook_loop hooks hook.

Section idle.
(** [thread->cleanup(thread)]. *)
Context (run_cleanup : Z -> Z -> K unit).

(** At most [fuel] threads are reclaimed. *)
Fixpoint idle_excute_loop (fuel : nat) : K unit :=
  l <- tlist LDefunct;;
  match l with
  | [] => ret tt
  | t :: _ =>
      match fuel with
      | O => stuck Diverge
      | S fuel =>
          not_in_interrupt;;;
          tl_remove t;;;
          rt_enter_critical;;;
          th <- thr t;;
          when (negb (cleanup th =? RT_NULL)) (run_cleanup (cleanup th) t);;;
          s <- rt_object_is_systemobject (Obj t);;
          rt_exit_critical;;;
          if (s : bool) then ret tt
          else
            th <- thr t;;
            kfree (stack_addr th);;;
            rt_object_delete t;;;
            modify (upd_thr (delete t));;;
            idle_excute_loop fuel
      end
  end.
Definition rt_thread_idle_excute : K unit :=
  l <- tlist LDefunct;; idle_excute_loop (length l).
End idle.

(** ** Start-up *)

Definition RT_MAIN_THREAD_STACK_SIZE : Z := 2048.
Definition IDLE_THREAD_STACK_SIZE : Z := 256.
Definition main_name : list Z := [109; 97; 105; 110].
Definition tidle_name : list Z := [116; 105; 100; 108; 101].

Section startup.
Context (rt_hw_board_init : K unit) (main_thread_entry rt_thread_idle_entry : Z).
(** The addresses of [idle] and of [rt_thread_stack]. *)
Context (idle rt_thread_stack : Z).

Definition rt_thread_idle_init : K unit :=
  rt_thread_init idle tidle_name rt_thread_idle_entry RT_NULL rt_thread_stack
    IDLE_THREAD_STACK_SIZE (RT_THREAD_PRIORITY_MAX - 1) 32;;;
  rt_thread_startup idle;;;
  ret tt.

Definition rt_thread_idle_gethandler : Z := idle.

Definition rt_application_init : K unit :=
  tid <- rt_thread_create main_name main_thread_entry RT_NULL
    RT_MAIN_THREAD_STACK_SIZE (RT_THREAD_PRIORITY_MAX / 3) 20;;
  rt_assert (negb (tid =? RT_NULL));;;
  rt_thread_startup tid;;;
  ret tt.

Definition rtthread_startup : K Z :=
  rt_hw_board_init;;;
  rt_system_timer_init;;;
  rt_system_scheduler_init;;;
  rt_application_init;;;
  rt_thread_idle_init;;;
  rt_system_scheduler_start;;;
  ret 0.
End startup.

(** ** The first states *)

(** The kernel after reset and board initialisation: no thread, no object. *)
Record reset (k : kernel) : Prop := Reset {
  rs_thr : k_thr k = ∅; rs_tl : k_tl k = ∅; rs_hdr : k_hdr k = ∅;
  rs_tab : forall c, is_Some (k_cont k !! c) <-> is_Some (rt_object_get_information c);
  rs_cont : forall c l, k_cont k !! c = Some l -> l = [];
  rs_tick : 0 <= k_tick k < 2 ^ 32; rs_irq : k_irq k = 0
}.

(** The kernel once the tables are set up. *)
Definition k_tables (k : kernel) : kernel := k_sched_init (upd_tmlist (fun _ => []) k).

Lemma tables_lookup k h : reset k -> k_tl (k_tables k) !! h =
  match h with
  | LReady p => if decide (0 <= p < RT_THREAD_PRIORITY_MAX) then Some [] else None
  | LDefunct => Some []
  | _ => None
  end.
Proof. intros HR. unfold k_tables. rewrite sched_init_lookup. cbn [upd_tmlist k_tl]. rewrite (rs_tl _ HR). by destruct h. Qed.

Lemma tables_kinv k : reset k -> kinv (k_tables k).
Proof.
  intros HR. assert (Hnil : forall h l, k_tl (k_tables k) !! h = Some l -> l = []).
  { intros h l. rewrite tables_lookup by done. destruct h; [destruct (decide _)|..]; congruence. }
  split; cbn [k_tables k_sched_init upd_tl upd_group upd_cur upd_curprio upd_lock upd_tmlist k_thr k_hdr k_cont k_tm k_tmlist k_tick].
  - change (sched_but none (k_thr k) (k_tl (k_tables k)) 0). rewrite (rs_thr _ HR). split; try done.
    + intros p. rewrite tables_lookup by done. destruct (decide _) as [?|Hn]; [by split; eauto|]. split; [by intros []|done].
    + rewrite tables_lookup by done. eauto.
    + intros h l ->%Hnil. constructor.
    + intros h1 h2 l1 l2 t ->%Hnil _ ?%not_elem_of_nil. done.
    + intros h l t ->%Hnil ?%not_elem_of_nil. done.
    + intros p l ->%Hnil. by rewrite Z.bits_0.
  - split; [apply HR|by intros c l ->%(rs_cont _ HR); constructor|]. by intros c l o ->%(rs_cont _ HR) ?%not_elem_of_nil.
  - intros o h. by rewrite (rs_hdr _ HR).
  - split; [constructor|by intros o ?%not_elem_of_nil|by intros o h _; rewrite (rs_hdr _ HR)|constructor|apply HR].
  - intros t th. by rewrite (rs_thr _ HR).
Qed.

(** A new thread is started before the scheduler runs. *)
Lemma start_new_done k t h entry parameter stack_start stack_size priority tick :
  kinv k -> k_cur k = RT_NULL -> unlinked t k -> thread_hdr h -> t <> RT_NULL ->
  0 < stack_start -> 76 <= stack_size -> stack_start + stack_size < 2 ^ 32 ->
  0 <= priority < RT_THREAD_PRIORITY_MAX ->
  exists k', rt_thread_startup t (k_thread_init k t h (new_thread k t entry parameter stack_start stack_size priority tick)) = Done RT_EOK k' /\
    kinv k' /\ k_cur k' = RT_NULL /\ k_tl k' = lpush_back (LReady priority) t (k_tl k) /\
    k_tmlist k' = k_tmlist k /\ k_irq k' = k_irq k /\
    k_cont k' = lpush_front RT_Object_Class_Timer (TimerOf t) (lpush_front RT_Object_Class_Thread (Obj t) (k_cont k)).
Proof.
  intros HK Hc Hu Hh Hnz H1 H2 H3 Hp. set (th := new_thread _ _ _ _ _ _ _ _).
  assert (HK1 : kinv (k_thread_init k t h th)) by (by apply thread_init_kbut).
  set (k1 := k_thread_init k t h th) in *.
  assert (Ht1 : k_thr k1 !! t = Some th) by (cbn; apply lookup_insert_eq).
  destruct (startup_done none 0 k1 t th HK1 Ht1 eq_refl Hp (fun f => f)) as (h' & k2 & E & HK2 & HR).
  change (k_cur k1) with (k_cur k) in HR. rewrite Hc, Z.eqb_refl in HR. exists k2. split; [done|]. split; [done|].
  destruct Hu as (_ & _ & Hq & _ & Hm). rewrite queued_false in Hq. subst k2. split_and!; try done.
  - cbn -[lpush_back lunlink]. by rewrite lunlink_none.
  - cbn -[lremove]. by rewrite lremove_notin.
Qed.

Lemma contained_nil o C : (forall c l, C !! c = Some l -> l = []) -> contained o C = false.
Proof. intros HC. apply contained_false. intros c l ->%HC. apply not_elem_of_nil. Qed.

Lemma unlinked_tables k t : reset k -> unlinked t (k_tables k).
Proof.
  intros HR. split_and!; try (apply contained_nil, HR); try apply not_elem_of_nil.
  apply queued_false. intros h l. rewrite tables_lookup by done.
  destruct h; [destruct (decide _)|..]; intros [= <-]; apply not_elem_of_nil.
Qed.

(** A second thread is linked nowhere after the first was started. *)
Lemma unlinked_after k k' t u p :
  unlinked u k -> u <> t ->
  k_tl k' = lpush_back (LReady p) t (k_tl k) -> k_tmlist k' = k_tmlist k ->
  k_cont k' = lpush_front RT_Object_Class_Timer (TimerOf t) (lpush_front RT_Object_Class_Thread (Obj t) (k_cont k)) ->
  unlinked u k'.
Proof.
  intros (HO & HT & Hq & Hm1 & Hm2) Hne El Em Ec. unfold unlinked. rewrite El, Em, Ec. split_and!; try done.
  - by repeat apply contained_push; try congruence.
  - by repeat apply contained_push; try congruence.
  - rewrite queued_false in *. intros h l. unfold lpush_back, lget. intros [[<- <-]|[_ Hl]]%lookup_insert_Some; [|eauto].
    intros [Hin|Hin]%elem_of_app; [|set_solver]. destruct (k_tl k !! LReady p) eqn:E; [by eapply Hq|by apply not_elem_of_nil in Hin].
Qed.

Section boot.
Context (rt_hw_board_init : K unit) (main_thread_entry rt_thread_idle_entry idle rt_thread_stack : Z).

(** [rt_application_init] when the heap has room for the main thread. *)
Lemma application_init_done k t s h1 h2 :
  kinv k -> k_cur k = RT_NULL -> k_irq k = 0 -> unlinked t k ->
  rt_malloc 128 (k_heap k) = Done t h1 -> t <> RT_NULL ->
  rt_malloc RT_MAIN_THREAD_STACK_SIZE h1 = Done s h2 -> 0 < s -> s + RT_MAIN_THREAD_STACK_SIZE < 2 ^ 32 ->
  exists k', rt_application_init main_thread_entry k = Done tt k' /\ kinv k' /\ k_cur k' = RT_NULL /\
    k_tl k' = lpush_back (LReady 10) t (k_tl k) /\ k_tmlist k' = k_tmlist k /\ k_irq k' = k_irq k /\
    k_cont k' = lpush_front RT_Object_Class_Timer (TimerOf t) (lpush_front RT_Object_Class_Thread (Obj t) (k_cont k)).
Proof.
  intros HK Hc Hi Hu E1 Ht E2 Hs Hs2.
  set (k1 := upd_heap (fun _ => h2) k). assert (HK1 : kinv k1) by (by eapply kbut_frame).
  destruct (start_new_done k1 t (Object (strncpy_list RT_NAME_MAX main_name) RT_Object_Class_Thread 0) main_thread_entry
    RT_NULL s RT_MAIN_THREAD_STACK_SIZE 10 20 HK1) as (k' & E & HK' & Hrest); try done.
  exists k'. split; [|by split]. unfold rt_application_init. erewrite bind_done.
  2: { eapply (create_done none none 0 k); [exact HK|done|exact Hu|done|exact E1|done|exact E2|]. intros Hz. by rewrite Hz in Hs. }
  destruct (Z.eqb_spec t RT_NULL); [done|]. cbn [negb rt_assert]. mstep. by rewrite (after E).
Qed.

End boot.
