(* ===== verification/Decide.v ===== *)
(** * Deciding the kernel invariant

    [kinv_check] evaluates the invariant [kinv] on a concrete kernel state;
    [kinv_check_sound] is what the examples of Demo.v rest on. *)

From Stdlib Require Import Sorting.Sorted.
From S2P Require Import Prelude RtList Exec KService Mem Kernel Object Scheduler Timer Thread Clock Ipc.

(** ** Generic checks *)

Definition all_of {K A} `{Countable K} (m : gmap K A) (f : K -> A -> bool) : bool :=
  forallb (fun p => f (fst p) (snd p)) (map_to_list m).

Lemma all_of_sound {K A} `{Countable K} (m : gmap K A) f :
  all_of m f = true -> forall i x, m !! i = Some x -> f i x = true.
Proof.
  unfold all_of. rewrite forallb_forall. intros Hf i x Hx.
  apply (Hf (i, x)). apply list_elem_of_In. by apply elem_of_map_to_list.
Qed.

Definition mem_of {A} `{EqDecision A} (x : A) (l : list A) : bool := existsb (fun y => bool_decide (x = y)) l.
Lemma mem_of_iff {A} `{EqDecision A} (x : A) l : mem_of x l = true <-> x ∈ l.
Proof.
  unfold mem_of. rewrite existsb_exists. split.
  - intros (y & Hy & ->%bool_decide_eq_true). by apply list_elem_of_In.
  - intros Hx. exists x. rewrite bool_decide_eq_true. split; [by apply list_elem_of_In|done].
Qed.

Fixpoint nodup_of {A} `{EqDecision A} (l : list A) : bool :=
  match l with [] => true | x :: l => negb (mem_of x l) && nodup_of l end.
Lemma nodup_of_sound {A} `{EqDecision A} (l : list A) : nodup_of l = true -> NoDup l.
Proof.
  induction l as [|x l IH]; cbn; [constructor|]. rewrite andb_true_iff, negb_true_iff. intros [Hx Hl].
  apply NoDup_cons. split; [|auto]. rewrite <- mem_of_iff, Hx. done.
Qed.

Fixpoint sorted_of {A} (f : A -> Z) (l : list A) : bool :=
  match l with [] => true | x :: l => forallb (fun y => f x <=? f y) l && sorted_of f l end.
Lemma sorted_of_sound {A} (f : A -> Z) l : sorted_of f l = true -> StronglySorted (fun x y => f x <= f y) l.
Proof.
  induction l as [|x l IH]; cbn; [constructor|]. rewrite andb_true_iff, forallb_forall. intros [Hx Hl].
  constructor; [auto|]. apply Forall_forall. intros y Hy%list_elem_of_In%Hx. lia.
Qed.

(** ** The scheduler *)

Definition prio_check (th : rt_thread) : bool :=
  (0 <=? current_priority th) && (current_priority th <? RT_THREAD_PRIORITY_MAX) &&
  (if (statm th =? RT_THREAD_READY) || (statm th =? RT_THREAD_SUSPEND) then false else number_mask th =? 0) ||
  (0 <=? current_priority th) && (current_priority th <? RT_THREAD_PRIORITY_MAX) &&
  (number_mask th =? 2 ^ current_priority th).

Definition member_check (h : lhead) (th : rt_thread) : bool :=
  match h with
  | LReady p => (statm th =? RT_THREAD_READY) && (current_priority th =? p)
  | LDefunct => statm th =? RT_THREAD_CLOSE
  | LSuspend _ | LSender _ => statm th =? RT_THREAD_SUSPEND
  end.

Definition sched_check (T : gmap Z rt_thread) (L : gmap lhead (list Z)) (g : Z) : bool :=
  forallb (fun p => bool_decide (is_Some (L !! LReady p))) (seqZ 0 RT_THREAD_PRIORITY_MAX) &&
  bool_decide (is_Some (L !! LDefunct)) &&
  all_of L (fun h l => nodup_of l &&
    match h with LReady p => (0 <=? p) && (p <? RT_THREAD_PRIORITY_MAX) && Bool.eqb (Z.testbit g p) (negb (bool_decide (l = []))) | _ => true end &&
    forallb (fun t => negb (t =? RT_NULL) && match T !! t with Some th => member_check h th | None => false end &&
      all_of L (fun h' l' => bool_decide (h = h') || negb (mem_of t l'))) l) &&
  all_of T (fun t th => prio_check th &&
    (if statm th =? RT_THREAD_READY then match L !! LReady (current_priority th) with Some l => mem_of t l | None => false end else true)) &&
  (0 <=? g) && (g <? 2 ^ 32).

Lemma prio_check_sound th : prio_check th = true -> prio_ok th.
Proof.
  unfold prio_check, prio_ok. rewrite orb_true_iff, !andb_true_iff, !Z.leb_le, !Z.ltb_lt, !Z.eqb_eq.
  intros [[[? ?] Hm]|[[? ?] Hm]].
  - destruct (Z.eqb_spec (statm th) RT_THREAD_READY); [done|]. destruct (Z.eqb_spec (statm th) RT_THREAD_SUSPEND); [done|].
    cbn in Hm. apply Z.eqb_eq in Hm. split; [lia|]. split; [by left|]. tauto.
  - split; [lia|]. split; [by right|done].
Qed.

Lemma member_check_sound h th : member_check h th = true -> member_ok h th.
Proof. destruct h; cbn; rewrite ?andb_true_iff, ?Z.eqb_eq; done. Qed.

Lemma sched_check_sound T L g : sched_check T L g = true -> sched_but none T L g.
Proof.
  unfold sched_check. rewrite !andb_true_iff, forallb_forall, Z.leb_le, Z.ltb_lt.
  intros [[[[[Htab Hdef] HL] HT] Hg0] Hg1]. apply bool_decide_eq_true in Hdef.
  pose proof (all_of_sound _ _ HL) as HL'. pose proof (all_of_sound _ _ HT) as HT'. clear HL HT.
  assert (HH : forall h l, L !! h = Some l -> NoDup l /\
    match h with LReady p => 0 <= p < RT_THREAD_PRIORITY_MAX /\ (Z.testbit g p = true <-> l <> []) | _ => True end /\
    forall t, t ∈ l -> t <> RT_NULL /\ (exists th, T !! t = Some th /\ member_ok h th) /\
      forall h' l', L !! h' = Some l' -> t ∈ l' -> h = h').
  { intros h l Hl. specialize (HL' h l Hl). rewrite !andb_true_iff, forallb_forall in HL'. destruct HL' as [[H1 H2] H3].
    split; [by apply nodup_of_sound|]. split.
    - destruct h; try done. rewrite !andb_true_iff, Z.leb_le, Z.ltb_lt, Bool.eqb_true_iff in H2. destruct H2 as [? ->].
      split; [done|]. rewrite negb_true_iff, bool_decide_eq_false. done.
    - intros t Ht%list_elem_of_In%H3. rewrite !andb_true_iff, negb_true_iff, Z.eqb_neq in Ht. destruct Ht as [[? Hm] Hd].
      split; [done|]. split.
      + destruct (T !! t) as [th|]; [|done]. exists th. split; [done|]. by apply member_check_sound.
      + intros h' l' Hl' Hin. pose proof (all_of_sound _ _ Hd h' l' Hl') as Hx. apply orb_true_iff in Hx as [Hx|Hx].
        * by apply bool_decide_eq_true in Hx.
        * apply negb_true_iff in Hx. apply mem_of_iff in Hin. congruence. }
  split.
  - intros p. split.
    + intros [l Hl]. by destruct (HH _ _ Hl) as (_ & [? _] & _).
    + intros Hp. apply (bool_decide_eq_true (is_Some (L !! LReady p))), Htab, list_elem_of_In, elem_of_seqZ. lia.
  - done.
  - intros h l Hl. apply (HH _ _ Hl).
  - intros h1 h2 l1 l2 t H1 H2 Ht1 Ht2. destruct (HH _ _ H1) as (_ & _ & Hm). destruct (Hm t Ht1) as (_ & _ & Hd). eauto.
  - intros h l t Hl Ht. destruct (HH _ _ Hl) as (_ & _ & Hm). destruct (Hm t Ht) as (? & ? & _). split_and!; try done. by intros [].
  - intros t th _ Ht Hs. specialize (HT' t th Ht). apply andb_true_iff in HT' as [_ Hr]. rewrite Hs in Hr. cbn in Hr.
    destruct (L !! LReady (current_priority th)) as [l|]; [|done]. exists l. split; [done|]. by apply mem_of_iff.
  - intros t th Ht. specialize (HT' t th Ht). apply andb_true_iff in HT' as [Hp _]. by apply prio_check_sound.
  - done.
  - intros p l Hl. by destruct (HH _ _ Hl) as (_ & [_ ?] & _).
Qed.

(** ** Objects, timers, threads *)

Definition obj_check (H : gmap oid rt_object) (C : gmap Z (list oid)) : bool :=
  forallb (fun i => bool_decide (is_Some (C !! fst i))) rt_object_container &&
  all_of C (fun c l => bool_decide (is_Some (rt_object_get_information c)) && nodup_of l &&
    forallb (fun o => match H !! o with Some h => (class_of h =? c) && bool_decide (length (oname h) = RT_NAME_MAX) | None => false end) l).

Lemma information_in c i : rt_object_get_information c = Some i -> fst i = c /\ In i rt_object_container.
Proof.
  unfold rt_object_get_information. generalize rt_object_container. intros l. induction l as [|j l IH]; [done|].
  cbn. destruct (Z.eqb_spec (fst j) c); [intros [= <-]; auto|]. intros [? ?]%IH. auto.
Qed.

Lemma obj_check_sound H C : obj_check H C = true -> obj_inv H C.
Proof.
  unfold obj_check. rewrite andb_true_iff, forallb_forall. intros [Ht HC]. pose proof (all_of_sound _ _ HC) as HC'. split.
  - intros c. split.
    + intros [l Hl]. specialize (HC' c l Hl). rewrite !andb_true_iff, bool_decide_eq_true in HC'. apply HC'.
    + intros [i Hi]. destruct (information_in c i Hi) as [<- Hin]. by apply Ht, bool_decide_eq_true in Hin.
  - intros c l Hl. specialize (HC' c l Hl). rewrite !andb_true_iff in HC'. apply nodup_of_sound, HC'.
  - intros c l o Hl Ho. specialize (HC' c l Hl). rewrite !andb_true_iff, forallb_forall in HC'. destruct HC' as [_ Hf].
    apply list_elem_of_In, Hf in Ho. destruct (H !! o) as [h|]; [|done]. exists h.
    rewrite andb_true_iff, Z.eqb_eq, bool_decide_eq_true in Ho. tauto.
Qed.

Definition tm_check (lo : Z) (H : gmap oid rt_object) (TM : gmap oid rt_timer) (l : list oid) (now : Z) : bool :=
  nodup_of l && (0 <=? now) && (now <? 2 ^ 32) && sorted_of (toff TM now) l &&
  forallb (fun o => match TM !! o, H !! o with
    | Some _, Some h => (class_of h =? RT_Object_Class_Timer) && Z.testbit (oflag h) 0 &&
        (lo <=? toff TM now o) && (toff TM now o <=? max_off)
    | _, _ => false end) l &&
  all_of H (fun o h => if (class_of h =? RT_Object_Class_Timer) && Z.testbit (oflag h) 0 then mem_of o l else true).

Lemma tm_check_sound lo H TM l now : tm_check lo H TM l now = true -> tm_but none lo H TM l now.
Proof.
  unfold tm_check. rewrite !andb_true_iff, forallb_forall, Z.leb_le, Z.ltb_lt. intros [[[[[Hn H0] H1] Hs] Hm] HA].
  pose proof (all_of_sound _ _ HA) as HA'. split.
  - by apply nodup_of_sound.
  - intros o Ho%list_elem_of_In%Hm. destruct (TM !! o) as [tm|]; [|done]. destruct (H !! o) as [h|]; [|done].
    rewrite !andb_true_iff, Z.eqb_eq, !Z.leb_le in Ho. exists tm, h. destruct Ho as [[[? ?] ?] ?]. split_and!; try done. by intros [].
  - intros o h _ Ho Hc Ha. specialize (HA' o h Ho). cbv beta in HA'. unfold active in Ha. rewrite Hc, Ha in HA'. by apply mem_of_iff.
  - by apply sorted_of_sound.
  - done.
Qed.

Definition thr_check (H : gmap oid rt_object) (TM : gmap oid rt_timer) (t : Z) (th : rt_thread) : bool :=
  negb (t =? RT_NULL) && match H !! Obj t with Some h => class_of h =? RT_Object_Class_Thread | None => false end &&
  ((statm th =? RT_THREAD_CLOSE) ||
   match H !! TimerOf t, TM !! TimerOf t with
   | Some h, Some tm => (class_of h =? RT_Object_Class_Timer) && is_static h &&
       match timeout_func tm with ThreadTimeout => true | _ => false end && (tparameter tm =? t) &&
       (negb (Z.testbit (oflag h) 0) || (statm th =? RT_THREAD_SUSPEND))
   | _, _ => false
   end &&
   (stack_guard th =? 35) && (stack_addr th <? sp th) && (sp th <=? stack_addr th + stack_size th)).

Lemma thr_check_sound H TM t th : thr_check H TM t th = true -> thr_ok none H TM t th.
Proof.
  unfold thr_check. rewrite !andb_true_iff, orb_true_iff, negb_true_iff, Z.eqb_neq, Z.eqb_eq. intros [[Hnz Ho] HC].
  split; [done|]. split; [destruct (H !! Obj t) as [h|]; [|done]; exists h; by rewrite Z.eqb_eq in Ho|].
  intros Hs. destruct HC as [?|HC]; [done|]. rewrite !andb_true_iff, Z.eqb_eq, Z.ltb_lt, Z.leb_le in HC.
  destruct HC as [[[Ht ?] ?] ?]. split; [|done]. destruct (H !! TimerOf t) as [h|] eqn:Eh; [|done].
  destruct (TM !! TimerOf t) as [tm|] eqn:Em; [|done]. rewrite !andb_true_iff, orb_true_iff, negb_true_iff, !Z.eqb_eq in Ht.
  destruct Ht as [[[[? ?] Hf] ?] Ha]. exists h, tm. split_and!; try done.
  - by destruct (timeout_func tm).
  - intros Hact _. destruct Ha as [Ha|Ha]; [|done]. unfold active in Hact. congruence.
Qed.

Definition kinv_check (k : kernel) : bool :=
  sched_check (k_thr k) (k_tl k) (k_group k) && obj_check (k_hdr k) (k_cont k) &&
  all_of (k_hdr k) (fun _ h => (0 <=? oflag h) && (oflag h <? 2 ^ 8)) &&
  tm_check 0 (k_hdr k) (k_tm k) (k_tmlist k) (k_tick k) &&
  all_of (k_thr k) (thr_check (k_hdr k) (k_tm k)).

Lemma kinv_check_sound k : kinv_check k = true -> kinv k.
Proof.
  unfold kinv_check. rewrite !andb_true_iff. intros [[[[H1 H2] H3] H4] H5]. split.
  - by apply sched_check_sound.
  - by apply obj_check_sound.
  - intros o h Ho. pose proof (all_of_sound _ _ H3 o h Ho) as Hf. cbv beta in Hf. rewrite andb_true_iff, Z.leb_le, Z.ltb_lt in Hf. done.
  - by apply tm_check_sound.
  - intros t th Ht. by apply thr_check_sound, (all_of_sound _ _ H5).
Qed.

(** ** Contexts of calls *)

(** The current thread runs in thread context, [i] is another ready thread. *)
Definition running_check (k : kernel) (i : Z) : bool :=
  kinv_check k && (k_lock k =? 0) && (k_irq k =? 0) && negb (i =? k_cur k) &&
  match k_thr k !! k_cur k, k_thr k !! i with
  | Some th, Some thi => (statm th =? RT_THREAD_READY) && (statm thi =? RT_THREAD_READY)
  | _, _ => false
  end.

Lemma running_check_sound k i : running_check k i = true -> exists th, running k th.
Proof.
  unfold running_check. rewrite !andb_true_iff, negb_true_iff, !Z.eqb_eq, Z.eqb_neq. intros [[[[HK Hl] Hi] Hne] Ht].
  destruct (k_thr k !! k_cur k) as [th|] eqn:E; [|done]. destruct (k_thr k !! i) as [thi|] eqn:Ei; [|done].
  rewrite andb_true_iff, !Z.eqb_eq in Ht. exists th. split; try done; [by apply kinv_check_sound|apply Ht|]. exists i, thi. tauto.
Qed.

(** An IPC object of class [type]. *)
Definition ipc_obj_check (k : kernel) (a type : Z) : bool :=
  negb (a =? RT_NULL) && match k_hdr k !! Obj a with
  | Some h => (class_of h =? type) && ((oflag h =? RT_IPC_FLAG_FIFO) || (oflag h =? RT_IPC_FLAG_PRIO))
  | None => false end.

Lemma ipc_obj_check_sound k a type : ipc_obj_check k a type = true -> ipc_obj k a type.
Proof.
  unfold ipc_obj_check. rewrite andb_true_iff, negb_true_iff, Z.eqb_neq. intros [Hnz Hh]. split; [done|].
  destruct (k_hdr k !! Obj a) as [h|]; [|done]. exists h. by rewrite andb_true_iff, orb_true_iff, !Z.eqb_eq in Hh.
Qed.
