(* ===== verification/Demo.v ===== *)
(** * Concrete kernel states

    A small system brought up by the start-up code itself: the main thread (in
    the heap), the idle thread and a worker thread of priority 20.  The theorems
    of the components are applied to these states. *)

From S2P Require Import Prelude RtList Exec KService Mem Kernel Object Scheduler Timer Thread Clock Ipc Sem Mutex Event Circ Mailbox Slist MsgQueue MemPool Startup Decide.

Definition final {S A} (d : S) (e : exec S A) : S := match e with Done _ s => s | Stop _ => d end.

(** Memory after reset: ten empty object containers, nothing else. *)
Definition k_reset : kernel :=
  Kernel ∅ (list_to_map ((fun i => (fst i, [])) <$> rt_object_container)) ∅ ∅ ∅ [] 0 RT_NULL 0 0 0 0 0
    heap0 ∅ ∅ ∅ ∅ ∅ ∅.

(** The board gives the kernel a heap of 6 KB. *)
Definition board : K unit := heap_call (rt_system_heap_init 0x10000 0x11800).

Definition idle_addr : Z := 0x1000.
Definition worker_addr : Z := 0x2000.

(** The main thread runs, the idle thread is ready. *)
Definition k_up : kernel := Eval vm_compute in
  final k_reset (rtthread_startup board 0x8000 0x8100 idle_addr 0x1100 k_reset).
Definition main_addr : Z := Eval vm_compute in k_cur k_up.

(** Main starts a worker of priority 20. *)
Definition spawn (t stack prio : Z) : K unit :=
  rt_thread_init t [119] 0x8200 0 stack 512 prio 10;;; rt_thread_startup t;;; ret tt.
Definition k_two : kernel := Eval vm_compute in final k_reset (spawn worker_addr 0x2100 20 k_up).


Ltac by_check := first [apply kinv_check_sound; concrete | apply ipc_obj_check_sound; concrete].
(** A conjunction of hypotheses, without unfolding the conjuncts. *)
Ltac conjs := repeat match goal with |- _ /\ _ => split end; first [assumption | reflexivity | idtac].
Ltac nonnull := vm_compute; discriminate.

Lemma k_two_inv : kinv k_two.
Proof. by_check. Qed.
Lemma k_two_running : exists th, running k_two th.
Proof. apply (running_check_sound _ idle_addr). concrete. Qed.
Lemma k_two_main : k_cur k_two = main_addr.
Proof. concrete. Qed.
Lemma k_two_timers : k_tmlist k_two = [].
Proof. concrete. Qed.
#[local] Opaque k_up k_two.

(** ** Scheduler and threads *)

Lemma rt_schedule_runs_highest_witness :
  exists k' p th l, rt_schedule k_two = Done tt k' /\ k' = k_switch p (k_cur k') k_two /\
    k_thr k_two !! k_cur k' = Some th /\ statm th = RT_THREAD_READY /\
    k_tl k_two !! LReady (current_priority th) = Some (k_cur k' :: l) /\
    forall t' th', k_thr k_two !! t' = Some th' -> statm th' = RT_THREAD_READY ->
      current_priority th <= current_priority th'.
Proof.
  destruct k_two_running as [th HR]. pose proof (rn_inv _ _ HR) as HK.
  exact (rt_schedule_runs_highest k_two (k_cur k_two) th (kb_sched _ _ _ _ HK) (rn_lock _ _ HR) (running_nonnull _ _ HR)
    (kbut_stacks _ _ _ _ HK) (rn_thr _ _ HR) (rn_ready _ _ HR)).
Defined.

Lemma rt_system_scheduler_init_establishes_witness :
  exists k', rt_system_scheduler_init k_reset = Done tt k' /\ sched_inv (k_thr k') (k_tl k') (k_group k') /\ k_cur k' = RT_NULL.
Proof.
  destruct (rt_system_scheduler_init_establishes k_reset) as (k' & E & HS & Hc & _).
  - intros t th Ht. by destruct (lookup_empty_Some (A := rt_thread) t th Ht).
  - intros h l Hl. by destruct (lookup_empty_Some (A := list Z) h l Hl).
  - exists k'. conjs.
Defined.

Lemma rt_thread_sleep_suspends_witness :
  exists k' th', rt_thread_sleep 5 k_two = Done Blocked k' /\ kinv k' /\ k_cur k' <> k_cur k_two /\
    k_thr k' !! k_cur k_two = Some th' /\ statm th' = RT_THREAD_SUSPEND /\ TimerOf (k_cur k_two) ∈ k_tmlist k'.
Proof.
  destruct k_two_running as [th [HK Ht Hs Hl Hi (i & thi & Hti & Hsi & Hne)]].
  destruct (rt_thread_sleep_suspends k_two th 5 i thi HK Ht Hs Hl Hti Hsi Hne ltac:(by vm_compute)) as (k' & th' & E & HK' & Hc & Ht' & Hs' & _ & Hin & _).
  exists k', th'. conjs.
Defined.

Lemma rt_thread_exit_closes_witness :
  exists k' th', rt_thread_exit k_two = Done tt k' /\ kinv k' /\
    k_thr k' !! k_cur k_two = Some th' /\ statm th' = RT_THREAD_CLOSE /\ k_cur k' <> k_cur k_two.
Proof.
  destruct k_two_running as [th [HK Ht Hs Hl Hi (i & thi & Hti & Hsi & Hne)]].
  destruct (rt_thread_exit_closes k_two th i thi HK Ht Hs Hti Hsi Hne) as (k' & th' & E & HK' & Ht' & Hs' & _ & _ & Hc).
  exists k', th'. conjs. apply Hc, Hl.
Defined.

(** Main starts another thread from the heap, which can be deleted. *)
Definition k_dyn : kernel := Eval vm_compute in
  final k_reset ((t <- rt_thread_create [100] 0x8300 0 256 21 10;; rt_thread_startup t) k_two).
Definition dyn_addr : Z := Eval vm_compute in
  match (rt_thread_create [100] 0x8300 0 256 21 10 k_two) with Done t _ => t | _ => 0 end.

Lemma rt_thread_delete_defuncts_witness :
  exists k' l, rt_thread_delete dyn_addr k_dyn = Done RT_EOK k' /\ kinv k' /\ k_tl k' !! LDefunct = Some (dyn_addr :: l).
Proof.
  assert (exists th h0, k_thr k_dyn !! dyn_addr = Some th /\ statm th <> RT_THREAD_CLOSE /\ k_hdr k_dyn !! Obj dyn_addr = Some h0 /\ is_static h0 = false)
    as (th & h0 & Ht & Hs & Hh & Hst) by (eexists _, _; split_and!; [concrete|nonnull|concrete|concrete]).
  destruct (rt_thread_delete_defuncts k_dyn dyn_addr th h0 ltac:(by_check) Ht Hs Hh Hst) as (k' & l & E & HK' & _ & Hl & _).
  exists k', l. conjs.
Defined.

Lemma rt_thread_init_startup_witness :
  exists k' l, (r <- rt_thread_init 0x2800 [120] 0x8400 0 0x2900 512 20 10;; s <- rt_thread_startup 0x2800;; ret (r, s)) k_two
    = Done (RT_EOK, RT_EOK) k' /\ kinv k' /\ k_tl k' !! LReady 20 = Some (l ++ [0x2800]).
Proof.
  assert (Hu : unlinked 0x2800 k_two).
  { unfold unlinked. split; [concrete|]. split; [concrete|]. split; [concrete|]. rewrite k_two_timers. split; apply not_elem_of_nil. }
  destruct (rt_thread_init_startup k_two 0x2800 [120] 0x8400 0 0x2900 512 20 10 k_two_inv Hu ltac:(nonnull) ltac:(lia) ltac:(lia) ltac:(lia)
    ltac:(done)) as (k' & th' & l & E & HK' & _ & _ & _ & _ & Hl & _).
  exists k', l. conjs.
Defined.

(** Main sleeps; the clock reaches the end of its sleep. *)
Definition k_sleep : kernel := Eval vm_compute in final k_reset (rt_thread_sleep 1 k_two).
Definition no_user (f p : Z) : K unit := ret tt.

Lemma no_user_ok : user_ok no_user.
Proof. intros f p o k Hk. exists k. split; [reflexivity|]. split; [assumption|]. split; auto. Qed.

Lemma rt_tick_increase_fires_witness :
  exists k', rt_tick_increase no_user 2 k_sleep = Done tt k' /\ kinv k' /\ k_tick k' = u32 (k_tick k_sleep + 1) /\ ready k' main_addr.
Proof.
  assert (exists th, k_thr k_sleep !! k_cur k_sleep = Some th /\ statm th = RT_THREAD_READY) as (th & Ht & Hs) by (eexists; split; concrete).
  assert (Hl : k_tmlist k_sleep = [TimerOf main_addr]) by concrete.
  destruct (rt_tick_increase_fires no_user k_sleep th 2 no_user_ok ltac:(by_check) Ht Hs) as (k' & E & HK & Etk & _ & Hr).
  - rewrite Hl. intros o ->%list_elem_of_singleton. split; [eexists; split; [concrete|nonnull]|].
    intros h Hh. vm_compute in Hh. injection Hh as <-. concrete.
  - rewrite Hl. cbn. lia.
  - exists k'. conjs. apply Hr; [rewrite Hl; by apply list_elem_of_singleton|]. vm_compute. discriminate.
Defined.

Definition k_board : kernel := Eval vm_compute in final k_reset (board k_reset).
Lemma k_board_reset : reset k_board.
Proof.
  assert (HO : obj_inv (k_hdr k_board) (k_cont k_board)) by (apply obj_check_sound; concrete).
  split; [concrete..|apply HO| |by vm_compute|concrete].
  intros c l Hl. assert (HA : all_of (k_cont k_board) (fun _ l => bool_decide (l = [])) = true) by concrete.
  exact (bool_decide_eq_true_1 _ (all_of_sound _ _ HA c l Hl)).
Qed.

