(* ===== verification/DemoIpc.v ===== *)
(** * Concrete states of the IPC objects

    The theorems on semaphores, mutexes, events, mailboxes, message queues and
    memory pools, applied to objects that the initialisation functions set up in
    the system of Demo.v. *)

From S2P Require Import Prelude RtList Exec KService Mem Kernel Object Scheduler Timer Thread Clock Ipc Sem Mutex Event Circ Mailbox Slist MsgQueue MemPool Startup Decide Demo.

(** ** Semaphores *)

Definition sem_addr : Z := 0x3000.
(** A semaphore of value 1, taken by main, for which main then waits. *)
Definition k_sem1 : kernel := Eval vm_compute in final k_reset (rt_sem_init sem_addr [115] 1 RT_IPC_FLAG_FIFO k_two).
Definition k_sem0 : kernel := Eval vm_compute in final k_reset (rt_sem_take sem_addr 0 k_sem1).
Definition k_semw : kernel := Eval vm_compute in final k_reset (rt_sem_take sem_addr 5 k_sem0).

Lemma sem1_at : sem_at k_sem1 sem_addr 1 [].
Proof. split; [by_check|concrete|concrete|lia|done]. Qed.
Lemma sem0_at : sem_at k_sem0 sem_addr 0 [].
Proof. split; [by_check|concrete|concrete|lia|done]. Qed.
Lemma semw_at : sem_at k_semw sem_addr 0 [main_addr].
Proof. split; [by_check|concrete|concrete|lia|lia]. Qed.
Lemma sem1_running : exists th, running k_sem1 th.
Proof. apply (running_check_sound _ idle_addr). concrete. Qed.
Lemma sem0_running : exists th, running k_sem0 th.
Proof. apply (running_check_sound _ idle_addr). concrete. Qed.

Lemma rt_sem_take_correct_witness :
  exists r k' v' l', rt_sem_take sem_addr 5 k_sem0 = Done r k' /\ kinv k' /\ sem_at k' sem_addr v' l'.
Proof.
  destruct sem0_running as [th HR]. assert (exists h, k_hdr k_sem0 !! Obj sem_addr = Some h) as [h Hh] by (eexists; concrete).
  destruct (rt_sem_take_correct k_sem0 th sem_addr 0 [] 5 h HR sem0_at Hh ltac:(by vm_compute)) as (r & k' & v' & l' & E & HK & HA & _).
  exists r, k', v', l'. conjs.
Defined.

Lemma rt_sem_release_correct_witness :
  exists k' v' l', rt_sem_release sem_addr k_semw = Done RT_EOK k' /\ kinv k' /\ sem_at k' sem_addr v' l'.
Proof.
  destruct (rt_sem_release_correct k_semw sem_addr 0 [main_addr] ltac:(by_check) ltac:(nonnull) semw_at) as (w & k' & v' & l' & E & HK & HA & _).
  exists k', v', l'. conjs.
Defined.

Lemma rt_sem_detach_wakes_witness :
  exists k' th, rt_sem_detach sem_addr k_semw = Done RT_EOK k' /\ k_thr k' !! main_addr = Some (woken_error th).
Proof.
  assert (exists h, k_hdr k_semw !! Obj sem_addr = Some h /\ is_static h = true) as (h & Hh & Hst) by (eexists; split; concrete).
  destruct (rt_sem_detach_wakes k_semw sem_addr 0 [main_addr] h ltac:(by_check) semw_at Hh Hst) as (k' & E & _ & _ & _ & Hw & _).
  destruct (Hw main_addr) as (th & _ & Ht); [by apply list_elem_of_singleton|]. exists k', th. conjs.
Defined.


(** ** Mutexes *)

Definition mtx_addr : Z := 0x3100.
(** The worker holds the mutex, main waits for it. *)
Definition k_mtx0 : kernel := Eval vm_compute in final k_reset (rt_mutex_init mtx_addr [109] RT_IPC_FLAG_PRIO k_two).
Definition k_mtx1 : kernel := Eval vm_compute in
  final k_reset ((_ <- rt_thread_sleep 5;; _ <- rt_mutex_take mtx_addr 0;; _ <- rt_thread_resume main_addr;; rt_schedule) k_mtx0).
Definition k_mtxw : kernel := Eval vm_compute in final k_reset (rt_mutex_take mtx_addr 5 k_mtx1).

Lemma mtx1_at : mutex_at k_mtx1 mtx_addr (MHeld worker_addr 1 20) [].
Proof. split; [by_check|concrete|concrete|]. split; [lia|]. split; [by vm_compute|]. split; [apply not_elem_of_nil|]. eexists. concrete. Qed.
Lemma mtxw_at : mutex_at k_mtxw mtx_addr (MHeld worker_addr 1 20) [main_addr].
Proof.
  split; [by_check|concrete|concrete|]. split; [lia|]. split; [by vm_compute|]. split; [by intros ?%list_elem_of_singleton|]. eexists. concrete.
Qed.
Lemma mtx1_running : exists th, running k_mtx1 th.
Proof. apply (running_check_sound _ idle_addr). concrete. Qed.
Lemma mtxw_running : exists th, running k_mtxw th.
Proof. apply (running_check_sound _ idle_addr). concrete. Qed.

Lemma rt_mutex_take_correct_witness :
  exists r k' m' l', rt_mutex_take mtx_addr 5 k_mtx1 = Done r k' /\ kinv k' /\ mutex_at k' mtx_addr m' l'.
Proof.
  destruct mtx1_running as [th HR]. assert (exists h, k_hdr k_mtx1 !! Obj mtx_addr = Some h) as [h Hh] by (eexists; concrete).
  destruct (rt_mutex_take_correct k_mtx1 th mtx_addr _ [] 5 h HR mtx1_at Hh ltac:(by vm_compute)) as (r & k' & m' & l' & E & HK & HA & _).
  - intros n orig Hm. vm_compute in Hm. discriminate Hm.
  - exists r, k', m', l'. conjs.
Defined.

Lemma rt_mutex_release_correct_witness :
  exists e k' m' l', rt_mutex_release mtx_addr k_mtxw = Done e k' /\ kinv k' /\ mutex_at k' mtx_addr m' l'.
Proof.
  destruct mtxw_running as [th HR].
  destruct (rt_mutex_release_correct k_mtxw th mtx_addr _ [main_addr] HR mtxw_at) as (e & k' & m' & l' & E & HK & HA & _).
  exists e, k', m', l'. conjs.
Defined.


(** ** Events *)

Definition evt_addr : Z := 0x3200.
(** Main waits for one of the flags 1 and 4. *)
Definition k_evt0 : kernel := Eval vm_compute in final k_reset (rt_event_init evt_addr [101] RT_IPC_FLAG_FIFO k_two).
Definition k_evtw : kernel := Eval vm_compute in
  final k_reset (rt_event_recv evt_addr 5 (Z.lor RT_EVENT_FLAG_OR RT_EVENT_FLAG_CLEAR) 5 k_evt0).

Lemma evt0_at : event_at k_evt0 evt_addr 0 [].
Proof. split; [by_check|concrete|concrete|lia|by intros t ?%not_elem_of_nil]. Qed.
Lemma evtw_at : event_at k_evtw evt_addr 0 [main_addr].
Proof.
  split; [by_check|concrete|concrete|lia|]. intros t ->%list_elem_of_singleton th Ht. vm_compute in Ht. injection Ht as <-. concrete.
Qed.


Lemma rt_event_recv_correct_witness :
  exists r k' s' l', rt_event_recv evt_addr 5 RT_EVENT_FLAG_OR 5 k_evt0 = Done r k' /\ kinv k' /\ event_at k' evt_addr s' l'.
Proof.
  destruct (running_check_sound k_evt0 idle_addr ltac:(concrete)) as [th HR].
  assert (exists h, k_hdr k_evt0 !! Obj evt_addr = Some h) as [h Hh] by (eexists; concrete).
  destruct (rt_event_recv_correct k_evt0 th evt_addr 0 [] 5 RT_EVENT_FLAG_OR 5 h HR evt0_at Hh ltac:(by vm_compute) ltac:(lia) ltac:(by vm_compute; auto))
    as (r & k' & s' & l' & E & HK & HA & _).
  exists r, k', s', l'. conjs.
Defined.

(** ** Mailboxes *)

Definition mb_addr : Z := 0x3300.
(** A mailbox of two words that holds 7. *)
Definition k_mb1 : kernel := Eval vm_compute in
  final k_reset ((_ <- rt_mb_init mb_addr [98] 0x3340 [0; 0] 2 RT_IPC_FLAG_FIFO;; rt_mb_send mb_addr 7) k_two).

Lemma mb1_at : mb_at k_mb1 mb_addr 2 [7] [] [].
Proof.
  split; [by_check| |concrete|concrete]. eexists. split; [concrete|].
  split; [lia|reflexivity|reflexivity|reflexivity|reflexivity|]. split; [vm_compute; split; [discriminate|reflexivity]|]. split; [cbn; lia|].
  intros [|i] x Hx; [injection Hx as <-; concrete|]. destruct i; discriminate Hx.
Qed.
Lemma mb1_running : exists th, running k_mb1 th.
Proof. apply (running_check_sound _ idle_addr). concrete. Qed.

Lemma rt_mb_send_wait_correct_witness :
  exists r k', rt_mb_send_wait mb_addr 8 5 k_mb1 = Done r k' /\ kinv k' /\ mb_at k' mb_addr 2 [7; 8] [] [].
Proof.
  destruct mb1_running as [th HR]. assert (exists h, k_hdr k_mb1 !! Obj mb_addr = Some h) as [h Hh] by (eexists; concrete).
  destruct (rt_mb_send_wait_correct k_mb1 th mb_addr 2 [7] [] [] 8 5 h HR mb1_at Hh ltac:(by vm_compute)) as (r & k' & E & HK & HA).
  rewrite decide_True in HA by (vm_compute; reflexivity). destruct HA as (_ & HA & _). exists r, k'. conjs.
Defined.

Lemma rt_mb_recv_correct_witness :
  exists k', rt_mb_recv mb_addr 5 k_mb1 = Done (Returned (inl (RT_EOK, Some 7))) k' /\ kinv k' /\ mb_at k' mb_addr 2 [] [] [].
Proof.
  destruct mb1_running as [th HR]. assert (exists h, k_hdr k_mb1 !! Obj mb_addr = Some h) as [h Hh] by (eexists; concrete).
  destruct (rt_mb_recv_correct k_mb1 th mb_addr 2 [7] [] [] 5 h HR mb1_at Hh ltac:(by vm_compute)) as (r & k' & E & HK & -> & HA & _).
  exists k'. conjs.
Defined.

(** ** Message queues *)

Definition mq_addr : Z := 0x3400.
Definition stale4 (x : Z) : list Z := [0; 0; 0; 0].
Definition mq0 : rt_messagequeue := mq_setup stale4 0x3440 4 2.
(** A queue of two messages of four bytes. *)
Definition k_mq0 : kernel := Eval vm_compute in
  final k_reset (rt_mq_init stale4 mq_addr [113] 0x3440 4 16 RT_IPC_FLAG_FIFO k_two).
Definition k_mq1 : kernel := Eval vm_compute in final k_reset (rt_mq_send mq_addr (Some [1; 2]) k_mq0).

Lemma mq_setup_correct_witness : mq_rep mq0 [] /\ msg_size mq0 = 4 /\ max_msgs mq0 = 2.
Proof. apply (mq_setup_correct stale4 0x3440 4 2); [lia|lia|lia|reflexivity]. Defined.

Lemma mq0_at : mq_at k_mq0 mq_addr 4 2 [] [].
Proof.
  split; [by_check| |concrete]. exists mq0. split; [concrete|]. apply (mq_setup_rep stale4 0x3440 4 2); [lia|lia|lia|reflexivity].
Qed.
Lemma mq1_at : mq_at k_mq1 mq_addr 4 2 [[1; 2; 0; 0]] [].
Proof.
  split; [by_check| |concrete]. eexists. split; [concrete|]. split; [|split; reflexivity]. exists [0x3448], [0x3440]. split; [|concrete].
  assert (HN : forall x, x ∈ [0x3448] ++ [0x3440] -> x = 0x3448 \/ x = 0x3440) by (intros x; cbn; set_solver).
  split; [|concrete| |decided|concrete|concrete|by vm_compute|intros x [-> | ->]%HN; concrete].
  - split; [concrete|]. split; [nonnull|]. eexists. split; concrete.
  - split; [concrete|]. split; [nonnull|]. eexists. split; concrete.
Qed.
Lemma mq1_running : exists th, running k_mq1 th.
Proof. apply (running_check_sound _ idle_addr). concrete. Qed.

Lemma rt_mq_send_correct_witness :
  exists r k', rt_mq_send mq_addr (Some [3; 4; 5]) k_mq1 = Done r k' /\ kinv k' /\
    mq_send_spec (fun qs d => qs ++ [d]) k_mq1 mq_addr 4 2 [[1; 2; 0; 0]] [] [3; 4; 5] r k'.
Proof. apply (rt_mq_send_correct k_mq1 mq_addr 4 2 [[1; 2; 0; 0]] [] [3; 4; 5]); [by_check|nonnull|exact mq1_at|discriminate]. Defined.

Lemma rt_mq_urgent_correct_witness :
  exists r k', rt_mq_urgent mq_addr (Some [3; 4; 5]) k_mq1 = Done r k' /\ kinv k' /\
    mq_send_spec (fun qs d => d :: qs) k_mq1 mq_addr 4 2 [[1; 2; 0; 0]] [] [3; 4; 5] r k'.
Proof. apply (rt_mq_urgent_correct k_mq1 mq_addr 4 2 [[1; 2; 0; 0]] [] [3; 4; 5]); [by_check|nonnull|exact mq1_at|discriminate]. Defined.

Lemma rt_mq_recv_correct_witness :
  exists k', rt_mq_recv mq_addr true 8 0 k_mq1 = Done (Returned (inl (RT_EOK, Some [1; 2; 0; 0]))) k' /\ kinv k' /\ mq_at k' mq_addr 4 2 [] [].
Proof.
  destruct mq1_running as [th HR]. assert (exists h, k_hdr k_mq1 !! Obj mq_addr = Some h) as [h Hh] by (eexists; concrete).
  destruct (rt_mq_recv_correct k_mq1 th mq_addr 4 2 _ [] 8 0 h HR mq1_at Hh ltac:(by vm_compute) ltac:(lia)) as (r & k' & E & HK & -> & HA & _).
  exists k'. conjs.
Defined.

Lemma rt_mq_control_reset_witness :
  exists k', rt_mq_control mq_addr RT_IPC_CMD_RESET 0 k_mq1 = Done RT_EOK k' /\ kinv k' /\ mq_at k' mq_addr 4 2 [] [].
Proof.
  destruct mq1_running as [th HR]. destruct (rt_mq_control_reset k_mq1 th mq_addr 4 2 _ [] 0 HR mq1_at) as (k' & E & HK & HA & _). exists k'. conjs.
Defined.

(** ** Memory pools *)

Definition mp_addr : Z := 0x3500.
(** A pool of two blocks of eight bytes, one of them handed out. *)
Definition k_mp0 : kernel := Eval vm_compute in final k_reset (rt_mp_init mp_addr [112] 0x3540 24 8 k_two).
Definition k_mp1 : kernel := Eval vm_compute in final k_reset (rt_mp_alloc 0 mp_addr 0 k_mp0).

Lemma mp_setup_correct_witness :
  exists m, mp_setup mp_addr 0x3540 24 8 2 k_two = Done tt (kmp mp_addr m k_two) /\ mp_rep m mp_addr [0x3540; 0x354c] [].
Proof.
  pose proof (mp_setup_correct k_two mp_addr 0x3540 24 8 2 ltac:(lia) ltac:(lia) ltac:(lia)) as H. rewrite decide_False in H by lia.
  destruct H as (m & E & HR & _). exists m. conjs.
Defined.

Lemma mp1_at : mp_at k_mp1 mp_addr [0x354c] [0x3540] [].
Proof.
  assert (HN : forall x, x ∈ [0x354c] ++ [0x3540] <-> x = 0x354c \/ x = 0x3540) by (intros x; cbn; set_solver). split; [| |concrete].
  - eexists. split; [concrete|]. split; [|split; [concrete|cbn; lia]].
    split; [|intros x ->%list_elem_of_singleton; concrete| |decided|by intros ?%list_elem_of_singleton|concrete|concrete|by vm_compute].
    + split; [concrete|]. split; [nonnull|]. eexists. split; concrete.
    + intros x [v Hx]. rewrite HN. apply elem_of_map_to_list in Hx. vm_compute in Hx. set_solver.
  - intros x Hx b m Hb _. apply elem_of_map_to_list in Hb. vm_compute in Hb. apply list_elem_of_singleton in Hb. by injection Hb.
Qed.

Lemma rt_mp_alloc_correct_witness :
  exists k', rt_mp_alloc 0 mp_addr 5 k_mp1 = Done (Returned (inl (0x3550, 0))) k' /\ kinv k' /\ mp_at k' mp_addr [] [0x354c; 0x3540] [].
Proof.
  destruct (running_check_sound k_mp1 idle_addr ltac:(concrete)) as [th HR].
  destruct (rt_mp_alloc_correct k_mp1 th 0 mp_addr [0x354c] [0x3540] [] 5 HR mp1_at ltac:(by vm_compute) ltac:(cbn; lia)) as (r & k' & E & HK & -> & HA & _).
  exists k'. conjs.
Defined.

Lemma rt_mp_free_correct_witness :
  exists k', rt_mp_free 0x3544 k_mp1 = Done tt k' /\ kinv k' /\ mp_at k' mp_addr [0x3540; 0x354c] [] [].
Proof.
  destruct (rt_mp_free_correct k_mp1 mp_addr [0x354c] [] 0x3540 [] [] ltac:(by_check) ltac:(nonnull) mp1_at) as (k' & E & HK & HA & _).
  exists k'. conjs.
Defined.

(** ** A pool whose counter goes stale *)

(** Main takes the last block, then waits one tick for another one, in vain. *)
Definition mp_timeout : K (outcome (Z * Z + Z) * outcome (Z * Z + Z)) :=
  r1 <- rt_mp_alloc 0 mp_addr 0;; r2 <- rt_mp_alloc 0 mp_addr 1;; rt_tick_increase no_user 2;;; ret (r1, r2).
Definition k_mp_late : kernel := Eval vm_compute in final k_reset (mp_timeout k_mp1).

(** A wait for a block that times out leaves [suspend_thread_count] one too high:
    the next [rt_mp_free] takes the head of the empty list of waiting threads for
    a thread.  (Here main waits one tick for a block of an exhausted pool, the
    clock wakes it, and the block is given back.) *)
Theorem rt_mp_free_stale :
  mp_timeout k_mp1 = Done (Returned (inl (0x3550, 0)), Blocked) k_mp_late /\
  k_tl k_mp_late !! LSuspend mp_addr = Some [] /\
  (exists th, k_thr k_mp_late !! main_addr = Some th /\ statm th = RT_THREAD_READY /\ error th = - RT_ETIMEOUT) /\
  rt_mp_free 0x3550 k_mp_late = Stop Undefined.
Proof. split; [concrete|]. split; [concrete|]. split; [eexists; split; [concrete|split; concrete]|concrete]. Qed.
