(* ===== verification/MemHeap.v ===== *)
(** * Memory heaps (src/memheap.c)

    A memory heap manages a pool of memory given to it.  Every block of the pool
    has a 24-byte header [struct rt_memheap_item]; the headers are the nodes of two
    circular lists, one of all blocks in the order of their addresses, which ends
    with a used block without payload, and one of the free blocks, whose head is a
    header inside [struct rt_memheap] itself.

    The model keeps the headers in a map from addresses to records and the bytes
    of the payloads in a byte memory.  A header that a merge or the next request
    has made part of a payload stays in the map, as the bytes stay in the memory.
    The semaphore [lock] is free between calls, and the object header is reduced to
    the type the assertions look at.

    [lay h cs fl] relates the two pointer structures to the sequence [cs] of the
    blocks, as addresses with the mark of use, and the sequence [fl] of the free
    list; [memheap_inv h bs fl] relates these in turn to a tiling [bs] of the pool.
    The theorems state what each call does to the tiling. *)

From S2P Require Import Kernel Prelude RtList Exec KService Mem.

(** ** Data *)

Definition RT_MEMHEAP_MAGIC : Z := 0x1ea01ea0.
Definition RT_MEMHEAP_MASK : Z := 0xfffffffe.
Definition RT_MEMHEAP_USED : Z := 1.
Definition RT_MEMHEAP_MINIALLOC : Z := 12.
Definition RT_MEMHEAP_SIZE : Z := 24.

Record rt_memheap_item := MemItem {
  mi_magic : Z;
  mi_pool : Z;
  mi_next : Z;
  mi_prev : Z;
  mi_next_free : Z;
  mi_prev_free : Z
}.

Record rt_memheap := MemHeap {
  mh_self : Z;           (** the address of the structure *)
  mh_type : Z;           (** [parent.type] *)
  start_addr : Z;
  pool_size : Z;
  available_size : Z;
  max_used_size : Z;
  block_list : Z;
  free_list : Z;
  free_header : Z;       (** the address of [free_header] *)
  mh_items : gmap Z rt_memheap_item;
  mh_data : mem
}.

Definition set_mi_magic v i := MemItem v (mi_pool i) (mi_next i) (mi_prev i) (mi_next_free i) (mi_prev_free i).
Definition set_mi_next v i := MemItem (mi_magic i) (mi_pool i) v (mi_prev i) (mi_next_free i) (mi_prev_free i).
Definition set_mi_prev v i := MemItem (mi_magic i) (mi_pool i) (mi_next i) v (mi_next_free i) (mi_prev_free i).
Definition set_mi_next_free v i := MemItem (mi_magic i) (mi_pool i) (mi_next i) (mi_prev i) v (mi_prev_free i).
Definition set_mi_prev_free v i := MemItem (mi_magic i) (mi_pool i) (mi_next i) (mi_prev i) (mi_next_free i) v.

Definition with_items (it : gmap Z rt_memheap_item) (h : rt_memheap) : rt_memheap :=
  MemHeap (mh_self h) (mh_type h) (start_addr h) (pool_size h) (available_size h) (max_used_size h)
    (block_list h) (free_list h) (free_header h) it (mh_data h).
Definition set_available (v : Z) (h : rt_memheap) : rt_memheap :=
  MemHeap (mh_self h) (mh_type h) (start_addr h) (pool_size h) (u32 v) (max_used_size h)
    (block_list h) (free_list h) (free_header h) (mh_items h) (mh_data h).
Definition set_mh_data (d : mem) (h : rt_memheap) : rt_memheap :=
  MemHeap (mh_self h) (mh_type h) (start_addr h) (pool_size h) (available_size h) (max_used_size h)
    (block_list h) (free_list h) (free_header h) (mh_items h) d.

(** A load of a field through a pointer and an assignment to one. *)
Definition fld (f : rt_memheap_item -> Z) (p : Z) : M rt_memheap Z :=
  i <- deref (fun h => mh_items h !! p);; ret (f i).
Definition fput (p : Z) (g : rt_memheap_item -> rt_memheap_item) : M rt_memheap unit :=
  i <- deref (fun h => mh_items h !! p);;
  modify (fun h => with_items (alter g p (mh_items h)) h).

Definition RT_MEMHEAP_IS_USED (p : Z) : M rt_memheap bool :=
  m <- fld mi_magic p;; ret (nz (Z.land m RT_MEMHEAP_USED)).
Definition MEMITEM_SIZE (p : Z) : M rt_memheap Z :=
  n <- fld mi_next p;; ret (u32 (n - p - RT_MEMHEAP_SIZE)).

Definition is_memheap : M rt_memheap unit :=
  t <- gets mh_type;;
  rt_assert (Z.land t (not8 RT_Object_Class_Static) =? RT_Object_Class_MemHeap).

(** ** Operations *)

(** [p->next_free->prev_free = p->prev_free; p->prev_free->next_free = p->next_free;] *)
Definition unlink_free (p : Z) : M rt_memheap unit :=
  n <- fld mi_next_free p;; v <- fld mi_prev_free p;; fput n (set_mi_prev_free v);;;
  b <- fld mi_prev_free p;; w <- fld mi_next_free p;; fput b (set_mi_next_free w).

(** Insertion of a block at the head of the free list. *)
Definition insert_free (p : Z) : M rt_memheap unit :=
  l <- gets free_list;;
  n <- fld mi_next_free l;; fput p (set_mi_next_free n);;;
  fput p (set_mi_prev_free l);;;
  n <- fld mi_next_free l;; fput n (set_mi_prev_free p);;;
  fput l (set_mi_next_free p).

(** A new free block at [new], behind the block [p]. *)
Definition split_off (p new : Z) : M rt_memheap unit :=
  self <- gets mh_self;; n <- fld mi_next p;;
  modify (fun h => with_items (<[new := MemItem RT_MEMHEAP_MAGIC self n p 0 0]> (mh_items h)) h);;;
  n <- fld mi_next p;; fput n (set_mi_prev new);;;
  fput p (set_mi_next new).

(** [available_size = v], with the high-water mark. *)
Definition take_available (v : Z) (h : rt_memheap) : rt_memheap :=
  let a := u32 v in
  let used := u32 (pool_size h - a) in
  MemHeap (mh_self h) (mh_type h) (start_addr h) (pool_size h) a
    (if max_used_size h <? used then used else max_used_size h)
    (block_list h) (free_list h) (free_header h) (mh_items h) (mh_data h).

Definition rt_memheap_init (memheap header start size : Z) : M rt_memheap Z :=
  rt_assert (nz memheap);;;
  let pool := RT_ALIGN_DOWN size RT_ALIGN_SIZE in
  let avail := u32 (pool - 2 * RT_MEMHEAP_SIZE) in
  let tailer := start + avail + RT_MEMHEAP_SIZE in
  modify (fun h =>
    MemHeap memheap (Z.lor RT_Object_Class_MemHeap RT_Object_Class_Static) start pool avail
      (u32 (pool - avail)) (block_list h) header header
      (<[header := MemItem RT_MEMHEAP_MAGIC memheap 0 0 header header]> (mh_items h)) (mh_data h));;;
  modify (fun h => with_items
    (<[start := MemItem RT_MEMHEAP_MAGIC memheap tailer tailer start start]> (mh_items h)) h);;;
  modify (fun h =>
    MemHeap (mh_self h) (mh_type h) (start_addr h) (pool_size h) (available_size h) (max_used_size h)
      start (free_list h) (free_header h) (mh_items h) (mh_data h));;;
  insert_free start;;;
  tailer <- fld mi_next start;;
  modify (fun h => with_items
    (<[tailer := MemItem (Z.lor RT_MEMHEAP_MAGIC RT_MEMHEAP_USED) memheap start start 0 0]> (mh_items h)) h);;;
  ret RT_EOK.

(** The object headers of the heap and of its lock leave their containers; of that the type of the
    heap is what the model has. *)
Definition rt_memheap_detach : M rt_memheap Z :=
  is_memheap;;;
  t <- gets mh_type;; rt_assert (nz (Z.land t RT_Object_Class_Static));;;
  modify (fun h => MemHeap (mh_self h) 0 (start_addr h) (pool_size h) (available_size h) (max_used_size h)
    (block_list h) (free_list h) (free_header h) (mh_items h) (mh_data h));;;
  ret RT_EOK.

(** The search on the free list: [while (header_ptr != heap->free_list && free_size < size)]. *)
Fixpoint alloc_search (fuel : nat) (header_ptr free_size size : Z) : M rt_memheap (Z * Z) :=
  l <- gets free_list;;
  if (negb (header_ptr =? l) && (free_size <? size))%bool then
    match fuel with
    | O => stuck Diverge
    | S fuel =>
        free_size <- MEMITEM_SIZE header_ptr;;
        if free_size <? size then
          n <- fld mi_next_free header_ptr;; alloc_search fuel n free_size size
        else alloc_search fuel header_ptr free_size size
    end
  else ret (header_ptr, free_size).

Definition memheap_size (size : Z) : Z :=
  let size := RT_ALIGN size RT_ALIGN_SIZE in
  if size <? RT_MEMHEAP_MINIALLOC then RT_MEMHEAP_MINIALLOC else size.

(** What follows a successful search. *)
Definition alloc_take (header_ptr free_size size : Z) : M rt_memheap Z :=
  (if u32 (size + RT_MEMHEAP_SIZE + RT_MEMHEAP_MINIALLOC) <=? free_size then
     let new_ptr := header_ptr + size + RT_MEMHEAP_SIZE in
     split_off header_ptr new_ptr;;;
     unlink_free header_ptr;;;
     fput header_ptr (set_mi_next_free 0);;;
     fput header_ptr (set_mi_prev_free 0);;;
     insert_free new_ptr;;;
     a <- gets available_size;; modify (take_available (a - size - RT_MEMHEAP_SIZE))
   else
     a <- gets available_size;; modify (take_available (a - free_size));;;
     unlink_free header_ptr;;;
     fput header_ptr (set_mi_next_free 0);;;
     fput header_ptr (set_mi_prev_free 0));;;
  fput header_ptr (fun i => set_mi_magic (Z.lor (mi_magic i) RT_MEMHEAP_USED) i);;;
  ret (header_ptr + RT_MEMHEAP_SIZE).

Definition rt_memheap_alloc (size : Z) : M rt_memheap Z :=
  is_memheap;;;
  let size := memheap_size size in
  a <- gets available_size;;
  if size <? a then
    l <- gets free_list;; first <- fld mi_next_free l;;
    n <- gets (fun h => S (base.size (mh_items h)));;
    r <- alloc_search n first 0 size;;
    if size <=? snd r then alloc_take (fst r) (snd r) size else ret 0
  else ret 0.

(** Merge with a free predecessor; the result is the block that remains and
    whether it still has to be inserted in the free list. *)
Definition merge_left (header_ptr : Z) : M rt_memheap (Z * bool) :=
  p <- fld mi_prev header_ptr;; u <- RT_MEMHEAP_IS_USED p;;
  if negb u then
    a <- gets available_size;; modify (set_available (a + RT_MEMHEAP_SIZE));;;
    p <- fld mi_prev header_ptr;; n <- fld mi_next header_ptr;; fput p (set_mi_next n);;;
    n <- fld mi_next header_ptr;; p <- fld mi_prev header_ptr;; fput n (set_mi_prev p);;;
    p <- fld mi_prev header_ptr;; ret (p, false)
  else ret (header_ptr, true).

Definition merge_right (header_ptr : Z) : M rt_memheap unit :=
  n <- fld mi_next header_ptr;; u <- RT_MEMHEAP_IS_USED n;;
  when (negb u)
    (a <- gets available_size;; modify (set_available (a + RT_MEMHEAP_SIZE));;;
     new_ptr <- fld mi_next header_ptr;;
     n <- fld mi_next new_ptr;; fput n (set_mi_prev header_ptr);;;
     n <- fld mi_next new_ptr;; fput header_ptr (set_mi_next n);;;
     unlink_free new_ptr).

(** The heap is the one the header names; the model has this one only. *)
Definition rt_memheap_free (ptr : Z) : M rt_memheap unit :=
  if ptr =? 0 then ret tt else
  let header_ptr := ptr - RT_MEMHEAP_SIZE in
  m <- fld mi_magic header_ptr;;
  rt_assert (Z.land m RT_MEMHEAP_MASK =? RT_MEMHEAP_MAGIC);;;
  rt_assert (nz (Z.land m RT_MEMHEAP_USED));;;
  n <- fld mi_next header_ptr;; m <- fld mi_magic n;;
  rt_assert (Z.land m RT_MEMHEAP_MASK =? RT_MEMHEAP_MAGIC);;;
  heap <- fld mi_pool header_ptr;;
  rt_assert (nz heap);;;
  self <- gets mh_self;;
  if negb (heap =? self) then stuck Undefined else
  is_memheap;;;
  fput header_ptr (fun i => set_mi_magic (Z.land (mi_magic i) (not32 RT_MEMHEAP_USED)) i);;;
  s <- MEMITEM_SIZE header_ptr;; a <- gets available_size;; modify (set_available (a + s));;;
  r <- merge_left header_ptr;;
  merge_right (fst r);;;
  when (snd r) (insert_free (fst r)).

(** The part of [rt_memheap_realloc] that grows a block into its free successor. *)
Definition realloc_expand (header_ptr ptr oldsize newsize : Z) : M rt_memheap unit :=
  next_ptr <- fld mi_next header_ptr;;
  a <- gets available_size;; modify (take_available (a - (newsize - oldsize)));;;
  unlink_free next_ptr;;;
  n <- fld mi_next next_ptr;; p <- fld mi_prev next_ptr;; fput n (set_mi_prev p);;;
  p <- fld mi_prev next_ptr;; n <- fld mi_next next_ptr;; fput p (set_mi_next n);;;
  let next_ptr := u32 (ptr + newsize) in
  split_off header_ptr next_ptr;;;
  insert_free next_ptr.

(** The part that cuts a block and joins the rest with a free successor. *)
Definition realloc_shrink (header_ptr newsize : Z) : M rt_memheap unit :=
  let new_ptr := header_ptr + newsize + RT_MEMHEAP_SIZE in
  split_off header_ptr new_ptr;;;
  n <- fld mi_next new_ptr;; u <- RT_MEMHEAP_IS_USED n;;
  when (negb u)
    (free_ptr <- fld mi_next new_ptr;;
     a <- gets available_size;; s <- MEMITEM_SIZE free_ptr;; modify (set_available (a - s));;;
     n <- fld mi_next free_ptr;; fput n (set_mi_prev new_ptr);;;
     n <- fld mi_next free_ptr;; fput new_ptr (set_mi_next n);;;
     unlink_free free_ptr);;;
  insert_free new_ptr;;;
  a <- gets available_size;; s <- MEMITEM_SIZE new_ptr;; modify (set_available (a + s)).

Definition memheap_memcpy (dst src n : Z) : M rt_memheap unit :=
  fun h => match rt_memcpy (mh_data h) dst src n with
           | Some d => Done tt (set_mh_data d h)
           | None => Stop Undefined
           end.

Definition rt_memheap_realloc (ptr newsize : Z) : M rt_memheap Z :=
  is_memheap;;;
  if newsize =? 0 then rt_memheap_free ptr;;; ret 0 else
  let newsize := memheap_size newsize in
  if ptr =? 0 then rt_memheap_alloc newsize else
  let header_ptr := ptr - RT_MEMHEAP_SIZE in
  oldsize <- MEMITEM_SIZE header_ptr;;
  if oldsize <? newsize then
    next_ptr <- fld mi_next header_ptr;;
    rt_assert (header_ptr <? next_ptr);;;
    u <- RT_MEMHEAP_IS_USED next_ptr;;
    nextsize <- (if negb u then s <- MEMITEM_SIZE next_ptr;; rt_assert (0 <? next_ptr);;; ret (s32 s) else ret 0);;
    if (negb u && (u32 (newsize + RT_MEMHEAP_MINIALLOC) <? u32 (nextsize + oldsize)))%bool then
      realloc_expand header_ptr ptr oldsize newsize;;; ret ptr
    else
      new_ptr <- rt_memheap_alloc newsize;;
      when (nz new_ptr)
        (memheap_memcpy new_ptr ptr (if oldsize <? newsize then oldsize else newsize);;;
         rt_memheap_free ptr);;;
      ret new_ptr
  else if oldsize <=? u32 (newsize + RT_MEMHEAP_SIZE + RT_MEMHEAP_MINIALLOC) then ret ptr
  else realloc_shrink header_ptr newsize;;; ret ptr.

(** ** The pointer structures *)

Notation headers := (gmap Z rt_memheap_item).

Definition field (f : rt_memheap_item -> Z) (it : headers) (q : Z) : option Z := f <$> it !! q.

Definition blocks_of (it : headers) : gmap Z (rt_list_node Z) :=
  (fun i => ListNode (mi_next i) (mi_prev i)) <$> it.
Definition frees_of (it : headers) : gmap Z (rt_list_node Z) :=
  (fun i => ListNode (mi_next_free i) (mi_prev_free i)) <$> it.

(** The circular list of all blocks. *)
Definition ring (it : headers) (l : list Z) : Prop :=
  match l with [] => False | s :: l => clist (blocks_of it) s l end.

(** A block: its address and whether it is used. *)
Notation cell := (Z * bool)%type.

Definition mark (u : bool) : Z := if u then Z.lor RT_MEMHEAP_MAGIC RT_MEMHEAP_USED else RT_MEMHEAP_MAGIC.

Definition marked (it : headers) (self : Z) (cs : list cell) : Prop :=
  Forall (fun c => field mi_magic it c.1 = Some (mark c.2) /\ field mi_pool it c.1 = Some self) cs.

Record lay (h : rt_memheap) (cs : list cell) (fl : list Z) : Prop := Lay {
  lay_ring : ring (mh_items h) cs.*1;
  lay_free : clist (frees_of (mh_items h)) (free_header h) fl;
  lay_mark : marked (mh_items h) (mh_self h) cs
}.

(** *** Loads and assignments *)

Lemma field_dom f it q : is_Some (field f it q) <-> is_Some (it !! q).
Proof. unfold field. by rewrite fmap_is_Some. Qed.

Lemma field_other f g p it q : (forall i, f (g i) = f i) -> field f (alter g p it) q = field f it q.
Proof.
  intros E. unfold field. destruct (decide (p = q)) as [->|].
  - rewrite lookup_alter_eq. destruct (it !! q); cbn; [by rewrite E|done].
  - by rewrite lookup_alter_ne.
Qed.

Lemma field_alter f g p v it q : is_Some (it !! p) -> (forall i, f (g i) = v) ->
  field f (alter g p it) q = if decide (q = p) then Some v else field f it q.
Proof.
  intros [i Hi] E. unfold field. case_decide as D.
  - subst. rewrite lookup_alter_eq, Hi. cbn. by rewrite E.
  - by rewrite lookup_alter_ne.
Qed.

Lemma field_insert f p i it q : field f (<[p := i]> it) q = if decide (q = p) then Some (f i) else field f it q.
Proof.
  unfold field. case_decide as D; [subst; by rewrite lookup_insert_eq|by rewrite lookup_insert_ne].
Qed.

Lemma dom_alter g p (it : headers) q : is_Some (alter g p it !! q) <-> is_Some (it !! q).
Proof.
  destruct (decide (p = q)) as [->|]; [rewrite lookup_alter_eq; apply fmap_is_Some|by rewrite lookup_alter_ne].
Qed.

Lemma fld_done f p v h : field f (mh_items h) p = Some v -> fld f p h = Done v h.
Proof.
  unfold field. intros E. destruct (mh_items h !! p) as [i|] eqn:Ei; [|done]. cbn in E. injection E as <-.
  unfold fld. by rewrite (after (deref_some (fun h => mh_items h !! p) h i Ei)).
Qed.

Lemma fput_done p g h : is_Some (mh_items h !! p) -> fput p g h = Done tt (with_items (alter g p (mh_items h)) h).
Proof. intros [i Hi]. unfold fput. by rewrite (after (deref_some (fun h => mh_items h !! p) h i Hi)). Qed.

Lemma fput_with p g it h : is_Some (it !! p) -> fput p g (with_items it h) = Done tt (with_items (alter g p it) h).
Proof. intros H. by rewrite fput_done. Qed.

Lemma get_next_blocks it q : get_next (blocks_of it) q = field mi_next it q.
Proof. unfold get_next, blocks_of, field. rewrite lookup_fmap. by destruct (it !! q). Qed.
Lemma get_prev_blocks it q : get_prev (blocks_of it) q = field mi_prev it q.
Proof. unfold get_prev, blocks_of, field. rewrite lookup_fmap. by destruct (it !! q). Qed.
Lemma get_next_frees it q : get_next (frees_of it) q = field mi_next_free it q.
Proof. unfold get_next, frees_of, field. rewrite lookup_fmap. by destruct (it !! q). Qed.
Lemma get_prev_frees it q : get_prev (frees_of it) q = field mi_prev_free it q.
Proof. unfold get_prev, frees_of, field. rewrite lookup_fmap. by destruct (it !! q). Qed.

(** A circular list of which no link changes. *)
Lemma clist_same (m m' : gmap Z (rt_list_node Z)) h l :
  clist m h l -> (forall q, q ∈ h :: l -> get_next m' q = get_next m q) ->
  (forall q, q ∈ h :: l -> get_prev m' q = get_prev m q) -> clist m' h l.
Proof.
  intros [Hd HL] Hn Hp. split; [done|]. eapply linked_ext; [done| |]; intros x y Hx E.
  - rewrite Hn; [done|set_solver].
  - rewrite Hp; [done|set_solver].
Qed.

Lemma ring_same it it' l : ring it l ->
  (forall q, q ∈ l -> field mi_next it' q = field mi_next it q) ->
  (forall q, q ∈ l -> field mi_prev it' q = field mi_prev it q) -> ring it' l.
Proof.
  destruct l as [|s l]; [done|]. intros H Hn Hp. eapply clist_same; [done| |]; intros q Hq.
  - rewrite !get_next_blocks. auto.
  - rewrite !get_prev_blocks. auto.
Qed.

Lemma ring_NoDup it l : ring it l -> NoDup l.
Proof. by destruct l as [|s l]; [|intros [? _]]. Qed.

Lemma ring_step it A a b B : ring it (A ++ a :: b :: B) ->
  field mi_next it a = Some b /\ field mi_prev it b = Some a.
Proof.
  rewrite <- get_next_blocks, <- get_prev_blocks. destruct A as [|s A]; intros [_ HL]; cbn in HL.
  - destruct HL as (?&?&_). done.
  - rewrite <- app_assoc in HL. cbn in HL.
    split; [by apply (linked_next _ (s :: A) a b (B ++ [s]))|by apply (linked_prev _ (s :: A) a b (B ++ [s]))].
Qed.

Lemma ring_first it s l t : ring it (s :: l ++ [t]) -> field mi_prev it s = Some t.
Proof.
  rewrite <- get_prev_blocks. intros [_ HL]. rewrite <- app_assoc in HL. cbn in HL.
  by apply (linked_prev _ (s :: l) t s []).
Qed.

Lemma ring_dom it l q : ring it l -> q ∈ l -> is_Some (it !! q).
Proof.
  destruct l as [|s l]; [done|]. intros H Hq. apply (clist_dom _ _ _ _ H) in Hq.
  unfold blocks_of in Hq. by rewrite lookup_fmap, fmap_is_Some in Hq.
Qed.

Lemma ring_ends (A : list Z) a b B : exists s L L' T,
  A ++ a :: b :: B = s :: L ++ b :: B /\ (forall n, A ++ a :: n :: b :: B = s :: L ++ n :: b :: B) /\
  s :: L = A ++ [a] /\ (b :: B) ++ [s] = b :: T /\ L' = b :: B.
Proof.
  destruct A as [|s A].
  - by exists a, [], (b :: B), (B ++ [a]).
  - exists s, (A ++ [a]), (b :: B), (B ++ [s]). rewrite <- !app_assoc. split_and!; try done.
    intros n. cbn. by rewrite <- app_assoc.
Qed.

Lemma ring_insert it it' A a b B n : ring it (A ++ a :: b :: B) -> n ∉ A ++ a :: b :: B ->
  (forall q, field mi_next it' q = if decide (q = n) then Some b
                                   else if decide (q = a) then Some n else field mi_next it q) ->
  (forall q, field mi_prev it' q = if decide (q = n) then Some a
                                   else if decide (q = b) then Some n else field mi_prev it q) ->
  ring it' (A ++ a :: n :: b :: B).
Proof.
  destruct (ring_ends A a b B) as (s & L & L' & T & E1 & E2 & E3 & E4 & _).
  rewrite E1, E2. intros H Hn HN HP. cbn [ring] in *.
  eapply (clist_insert (blocks_of it) _ s L (b :: B) A T a b n E3 E4); [done|done| |].
  - intros q. by rewrite !get_next_blocks.
  - intros q. by rewrite !get_prev_blocks.
Qed.

Lemma ring_remove it it' A a b B n : ring it (A ++ a :: n :: b :: B) ->
  (forall q, q <> n -> field mi_next it' q = if decide (q = a) then Some b else field mi_next it q) ->
  (forall q, q <> n -> field mi_prev it' q = if decide (q = b) then Some a else field mi_prev it q) ->
  ring it' (A ++ a :: b :: B).
Proof.
  destruct (ring_ends A a b B) as (s & L & L' & T & E1 & E2 & E3 & E4 & _).
  rewrite E1, E2. intros H HN HP. cbn [ring] in *.
  eapply (clist_remove (blocks_of it) _ s L (b :: B) A T a b n E3 E4); [done| |].
  - intros q. rewrite !get_next_blocks. auto.
  - intros q. rewrite !get_prev_blocks. auto.
Qed.

(** Run loads and assignments; the fields of a store are computed from the assignments. *)
Ltac fields :=
  repeat first
    [ rewrite field_other by (intros []; reflexivity)
    | erewrite field_alter by (first [intros ?; cbn; reflexivity | rewrite ?dom_alter; assumption])
    | rewrite field_insert ].
Ltac flds := cbn [mh_items with_items mi_magic mi_pool mi_next mi_prev mi_next_free mi_prev_free]; fields.
Ltac fcase := repeat first [rewrite decide_False by congruence | rewrite decide_True by congruence].
Ltac fload := erewrite (bind_done (fld _ _)) by (apply fld_done; flds; fcase; first [eassumption | reflexivity]).
Ltac fside := cbn [mh_items with_items]; rewrite ?dom_alter; assumption.
Ltac fstore := first [erewrite (bind_done (fput _ _)) by (apply fput_with; fside)
                     | erewrite (bind_done (fput _ _)) by (apply fput_done; fside)].
Ltac fend := first [rewrite fput_with by fside | rewrite fput_done by fside]; reflexivity.

(** Two stores with the same blocks, and with the same free list links but at [p]. *)
Definition same_blocks (it it' : headers) : Prop := forall q,
  field mi_magic it' q = field mi_magic it q /\ field mi_pool it' q = field mi_pool it q /\
  field mi_next it' q = field mi_next it q /\ field mi_prev it' q = field mi_prev it q.
Definition same_frees (p : Z) (it it' : headers) : Prop := forall q, q <> p ->
  field mi_next_free it' q = field mi_next_free it q /\ field mi_prev_free it' q = field mi_prev_free it q.

Lemma lay_frees h it cs fl fl' : lay h cs fl -> same_blocks (mh_items h) it ->
  clist (frees_of it) (free_header h) fl' -> lay (with_items it h) cs fl'.
Proof.
  intros [Hr _ Hm] HS HF. split; cbn; [|done|].
  - eapply ring_same; [done| |]; intros q _; apply HS.
  - eapply Forall_impl; [done|]. intros c [? ?]. destruct (HS c.1) as (-> & -> & _). done.
Qed.

Lemma frees_dom it fh fl q : clist (frees_of it) fh fl -> q ∈ fh :: fl -> is_Some (it !! q).
Proof.
  intros H Hq. apply (clist_dom _ _ _ _ H) in Hq.
  unfold frees_of in Hq. by rewrite lookup_fmap, fmap_is_Some in Hq.
Qed.

Lemma frees_insert it it' fh fl n B p : fl ++ [fh] = n :: B ->
  clist (frees_of it) fh fl -> p ∉ fh :: fl ->
  (forall q, field mi_next_free it' q = if decide (q = p) then Some n
                                   else if decide (q = fh) then Some p else field mi_next_free it q) ->
  (forall q, field mi_prev_free it' q = if decide (q = p) then Some fh
                                   else if decide (q = n) then Some p else field mi_prev_free it q) ->
  clist (frees_of it') fh (p :: fl).
Proof.
  intros HB H Hp HN HP. eapply (clist_insert (frees_of it) _ fh [] fl [] B fh n p); [done..| |].
  - intros q. by rewrite !get_next_frees.
  - intros q. by rewrite !get_prev_frees.
Qed.

Lemma insert_free_done h fl p : free_list h = free_header h ->
  clist (frees_of (mh_items h)) (free_header h) fl -> is_Some (mh_items h !! p) -> p ∉ free_header h :: fl ->
  exists it, insert_free p h = Done tt (with_items it h) /\ same_blocks (mh_items h) it /\
    clist (frees_of it) (free_header h) (p :: fl).
Proof.
  intros Hl HF Hp Hn. set (fh := free_header h) in *.
  destruct (fl ++ [fh]) as [|n B] eqn:HB; [by destruct fl|].
  assert (Hfn : field mi_next_free (mh_items h) fh = Some n).
  { rewrite <- get_next_frees. by eapply (clist_ends _ fh [] fl [] fh n B). }
  assert (Hfh : is_Some (mh_items h !! fh)) by (eapply frees_dom; [done|set_solver]).
  assert (Hdn : is_Some (mh_items h !! n)).
  { eapply frees_dom; [done|]. assert (n ∈ fl ++ [fh]) by (rewrite HB; set_solver). set_solver. }
  assert (Hpf : p <> fh) by set_solver.
  assert (p <> n) by (assert (n ∈ fl ++ [fh]) by (rewrite HB; set_solver); set_solver).
  eexists. split; [|split].
  - unfold insert_free. mstep. rewrite Hl. fold fh. fload. fstore. fstore.
    fload. fstore. fend.
  - intros q. by flds.
  - eapply frees_insert; [done..| |]; intros q; flds; repeat case_decide; congruence.
Qed.

Lemma insert_free_lay h cs fl p : lay h cs fl -> free_list h = free_header h -> p ∈ cs.*1 ->
  p ∉ free_header h :: fl ->
  exists it, insert_free p h = Done tt (with_items it h) /\ lay (with_items it h) cs (p :: fl).
Proof.
  intros HL Hl Hp Hn. destruct (insert_free_done h fl p Hl (lay_free _ _ _ HL)) as (it & E & HS & HF); [|done|].
  - eapply ring_dom; [apply HL|done].
  - exists it. split; [done|]. by eapply lay_frees.
Qed.

Lemma unlink_free_lay h cs l1 p l2 : lay h cs (l1 ++ p :: l2) ->
  exists it, unlink_free p h = Done tt (with_items it h) /\ lay (with_items it h) cs (l1 ++ l2).
Proof.
  intros HL. pose proof (lay_free _ _ _ HL) as HF. set (fh := free_header h) in *.
  destruct (split_ends fh l1 (p :: l2)) as (A & a & _ & _ & HA & _).
  destruct (split_ends fh (l1 ++ [p]) l2) as (_ & _ & b & B & _ & HB).
  assert (Ha : field mi_prev_free (mh_items h) p = Some a).
  { rewrite <- get_prev_frees. by eapply (clist_ends _ fh l1 (p :: l2) A a p (l2 ++ [fh])). }
  assert (Hb : field mi_next_free (mh_items h) p = Some b).
  { rewrite <- get_next_frees. eapply (clist_ends _ fh (l1 ++ [p]) l2 (fh :: l1) p b B); [|done|done].
    by rewrite <- app_assoc. }
  assert (Hda : a ∈ fh :: l1) by (rewrite HA; set_solver).
  assert (Hdb : b ∈ l2 ++ [fh]) by (rewrite HB; set_solver).
  assert (Hnd := proj1 HF). assert (p <> a /\ p <> b) as [Hpa Hpb].
  { rewrite NoDup_cons, NoDup_app, NoDup_cons in Hnd. set_solver. }
  assert (is_Some (mh_items h !! a)) by (eapply frees_dom; [done|set_solver]).
  assert (is_Some (mh_items h !! b)) by (eapply frees_dom; [done|set_solver]).
  eexists. split.
  - unfold unlink_free. fload. fload. fstore. fload. fload. fend.
  - eapply lay_frees; [done|intros q; by flds|].
    eapply (clist_remove (frees_of (mh_items h)) _ fh l1 l2 A B a b p); [done..| |]; intros q Hq.
    + rewrite !get_next_frees. flds. by repeat case_decide.
    + rewrite !get_prev_frees. flds. by repeat case_decide.
Qed.

Lemma marked_cons it self a u cs : marked it self ((a, u) :: cs) <->
  (field mi_magic it a = Some (mark u) /\ field mi_pool it a = Some self) /\ marked it self cs.
Proof. unfold marked. by rewrite Forall_cons. Qed.
Lemma marked_app it self c1 c2 : marked it self (c1 ++ c2) <-> marked it self c1 /\ marked it self c2.
Proof. apply Forall_app. Qed.

Lemma marked_keep it it' self cs p : marked it self cs -> p ∉ cs.*1 ->
  (forall q, q <> p -> field mi_magic it' q = field mi_magic it q /\ field mi_pool it' q = field mi_pool it q) ->
  marked it' self cs.
Proof.
  intros H Hp HS. apply Forall_forall. intros c Hc.
  destruct (HS c.1) as [-> ->]; [|by apply (proj1 (Forall_forall _ _) H)].
  intros <-. apply Hp. by apply list_elem_of_fmap_2.
Qed.

(** Changes to the blocks that leave the free list alone. *)
Lemma lay_blocks h it cs cs' fl p : lay h cs fl -> p ∉ free_header h :: fl ->
  same_frees p (mh_items h) it -> ring it cs'.*1 ->
  marked it (mh_self h) cs' -> lay (with_items it h) cs' fl.
Proof.
  intros [_ HF _] Hp HS HR HM. split; [done| |done]. cbn. eapply clist_same; [done| |]; intros q Hq.
  - rewrite !get_next_frees. apply HS. set_solver.
  - rewrite !get_prev_frees. apply HS. set_solver.
Qed.

Lemma lay_next h c1 a u b v c2 fl : lay h (c1 ++ (a, u) :: (b, v) :: c2) fl ->
  field mi_next (mh_items h) a = Some b /\ field mi_prev (mh_items h) b = Some a.
Proof. intros [H _ _]. rewrite fmap_app in H. by apply ring_step in H. Qed.

Lemma lay_dom h cs fl q : lay h cs fl -> q ∈ cs.*1 -> is_Some (mh_items h !! q).
Proof. intros [H _ _]. by apply ring_dom. Qed.

Lemma lay_NoDup h cs fl : lay h cs fl -> NoDup cs.*1.
Proof. intros [H _ _]. by eapply ring_NoDup. Qed.

Lemma lay_marked h c1 a u c2 fl : lay h (c1 ++ (a, u) :: c2) fl ->
  field mi_magic (mh_items h) a = Some (mark u) /\ field mi_pool (mh_items h) a = Some (mh_self h).
Proof. intros [_ _ H]. rewrite marked_app, marked_cons in H. tauto. Qed.

Lemma split_off_lay h c1 a u b v c2 fl new : lay h (c1 ++ (a, u) :: (b, v) :: c2) fl ->
  new ∉ (c1 ++ (a, u) :: (b, v) :: c2).*1 -> new ∉ free_header h :: fl ->
  exists it, split_off a new h = Done tt (with_items it h) /\
    lay (with_items it h) (c1 ++ (a, u) :: (new, false) :: (b, v) :: c2) fl.
Proof.
  intros HL Hn Hf. destruct (lay_next _ _ _ _ _ _ _ _ HL) as [Hnx Hpv].
  assert (Hda : is_Some (mh_items h !! a)) by (eapply lay_dom; [done|rewrite fmap_app; set_solver]).
  assert (Hdb : is_Some (mh_items h !! b)) by (eapply lay_dom; [done|rewrite fmap_app; set_solver]).
  assert (Hne : new <> a /\ new <> b) by (rewrite fmap_app in Hn; set_solver).
  assert (Hab : a <> b).
  { pose proof (lay_NoDup _ _ _ HL) as Hd. rewrite fmap_app, NoDup_app in Hd. cbn in Hd.
    rewrite NoDup_cons in Hd. set_solver. }
  destruct Hne as [Hna Hnb].
  set (it1 := <[new := MemItem RT_MEMHEAP_MAGIC (mh_self h) b a 0 0]> (mh_items h)).
  assert (Ha1 : is_Some (it1 !! a)) by (unfold it1; by rewrite lookup_insert_ne).
  assert (Hb1 : is_Some (it1 !! b)) by (unfold it1; by rewrite lookup_insert_ne).
  assert (H1 : field mi_next it1 a = Some b) by (unfold it1; flds; by fcase).
  eexists. split.
  - unfold split_off. mstep. fload. mstep. fold it1. fload. fstore. fend.
  - eapply lay_blocks; [done|exact Hf| | |].
    + intros q Hq. flds. unfold it1. flds. by fcase.
    + rewrite fmap_app. cbn. eapply ring_insert.
      * pose proof (lay_ring _ _ _ HL) as R. by rewrite fmap_app in R.
      * by rewrite fmap_app in Hn.
      * intros q. flds. unfold it1. flds. cbn. repeat case_decide; congruence.
      * intros q. flds. unfold it1. flds. cbn. repeat case_decide; congruence.
    + assert (HM : marked (alter (set_mi_next new) a (alter (set_mi_prev new) b it1)) (mh_self h)
                     (c1 ++ (a, u) :: (b, v) :: c2)).
      { eapply marked_keep; [apply HL|exact Hn|]. intros q Hq. flds. unfold it1. flds. by fcase. }
      rewrite marked_app, marked_cons in *. rewrite marked_cons. split_and!; try apply HM.
      all: flds; unfold it1; flds; by fcase.
Qed.

(** Taking a block out of the ring: [a->next = b] and [b->prev = a], in either order. *)
Lemma bypass_lay h c1 a u x w b v c2 fl it : lay h (c1 ++ (a, u) :: (x, w) :: (b, v) :: c2) fl ->
  (forall q, field mi_next it q = if decide (q = a) then Some b else field mi_next (mh_items h) q) ->
  (forall q, field mi_prev it q = if decide (q = b) then Some a else field mi_prev (mh_items h) q) ->
  (forall q, field mi_magic it q = field mi_magic (mh_items h) q /\ field mi_pool it q = field mi_pool (mh_items h) q) ->
  (forall q, field mi_next_free it q = field mi_next_free (mh_items h) q /\
             field mi_prev_free it q = field mi_prev_free (mh_items h) q) ->
  lay (with_items it h) (c1 ++ (a, u) :: (b, v) :: c2) fl.
Proof.
  intros [HR HF HM] HN HP HMg HFr. split; cbn.
  - rewrite fmap_app in *. eapply ring_remove; [exact HR|auto..].
  - eapply clist_same; [exact HF| |]; intros q _.
    + rewrite !get_next_frees. apply HFr.
    + rewrite !get_prev_frees. apply HFr.
  - assert (marked it (mh_self h) (c1 ++ (a, u) :: (x, w) :: (b, v) :: c2)) as HM'.
    { eapply Forall_impl; [exact HM|]. intros c [? ?]. destruct (HMg c.1) as [-> ->]. done. }
    rewrite marked_app, !marked_cons in *. tauto.
Qed.

(** The mark of a block. *)
Lemma mark_lay h c1 a u v c2 fl g : lay h (c1 ++ (a, u) :: c2) fl ->
  (forall i, g i = set_mi_magic (mi_magic (g i)) i) -> (forall i, mi_magic i = mark u -> mi_magic (g i) = mark v) ->
  exists it, fput a g h = Done tt (with_items it h) /\ lay (with_items it h) (c1 ++ (a, v) :: c2) fl.
Proof.
  intros HL Hg Hm. assert (is_Some (mh_items h !! a)) as Hd by (eapply lay_dom; [done|rewrite fmap_app; set_solver]).
  eexists. split; [by apply fput_done|].
  assert (HK : forall f, (forall m i, f (set_mi_magic m i) = f i) -> forall q,
             field f (alter g a (mh_items h)) q = field f (mh_items h) q).
  { intros f Hf q. apply field_other. intros i. by rewrite Hg. }
  pose proof (lay_NoDup _ _ _ HL) as Hnd. rewrite fmap_app in Hnd. cbn in Hnd.
  destruct HL as [HR HF HM]. split; cbn.
  - rewrite fmap_app in *. eapply ring_same; [exact HR| |]; intros q _; by apply HK.
  - eapply clist_same; [exact HF| |]; intros q _; rewrite ?get_next_frees, ?get_prev_frees; by apply HK.
  - rewrite marked_app, marked_cons in *. destruct HM as (HM1 & [HMa HMp] & HM2).
    apply NoDup_app in Hnd as (_ & Hnd & [Hn2 _]%NoDup_cons).
    assert (HO : forall q, q <> a -> field mi_magic (alter g a (mh_items h)) q = field mi_magic (mh_items h) q /\
               field mi_pool (alter g a (mh_items h)) q = field mi_pool (mh_items h) q).
    { intros q Hq. split; [|by apply HK]. unfold field. by rewrite lookup_alter_ne. }
    split_and!.
    + eapply marked_keep; [exact HM1| |exact HO]. intros ?. eapply Hnd; [done|]. set_solver.
    + unfold field in HMa |- *. destruct Hd as [i Hi]. rewrite lookup_alter_eq, Hi in *. cbn in *.
      rewrite Hm; [done|congruence].
    + by rewrite HK.
    + eapply marked_keep; [exact HM2|exact Hn2|exact HO].
Qed.

(** The free list links of a block that is not in the free list. *)
Lemma clear_lay h cs fl p : lay h cs fl -> p ∈ cs.*1 -> p ∉ free_header h :: fl ->
  exists it, (forall B (k : M rt_memheap B),
      (fput p (set_mi_next_free 0);;; fput p (set_mi_prev_free 0);;; k) h = k (with_items it h)) /\
    lay (with_items it h) cs fl.
Proof.
  intros HL Hp Hn. assert (is_Some (mh_items h !! p)) by (by eapply lay_dom).
  eexists. split.
  - intros B k. fstore. fstore. reflexivity.
  - eapply lay_frees; [done|intros q; by flds|]. eapply clist_same; [apply HL| |]; intros q Hq.
    + rewrite !get_next_frees. flds. rewrite decide_False; [done|]. by intros ->.
    + rewrite !get_prev_frees. flds. rewrite decide_False; [done|]. by intros ->.
Qed.

(** ** The tiling of the pool *)

(** The cells of a tiling that begins at [p]; [all_cells] has the block at the end too. *)
Fixpoint cells (p : Z) (bs : list blk) : list cell :=
  match bs with [] => [] | (n, u) :: bs => (p, u) :: cells (p + n) bs end.
Definition all_cells (p : Z) (bs : list blk) : list cell := cells p bs ++ [(p + total bs, true)].
Fixpoint free_cells (cs : list cell) : list Z :=
  match cs with [] => [] | (a, u) :: cs => if (u : bool) then free_cells cs else a :: free_cells cs end.
Definition head_used (bs : list blk) : bool := match bs with [] => true | (_, u) :: _ => u end.

(** The bytes of the free blocks, headers not counted. *)
Fixpoint free_bytes (bs : list blk) : Z :=
  match bs with [] => 0 | (n, u) :: bs => (if (u : bool) then 0 else n - 24) + free_bytes bs end.

Definition mblk_ok (b : blk) : Prop := 36 <= fst b /\ fst b mod 4 = 0.

(** The heap is tiled by [bs]; its free list is [fl], and the blocks [out] are free but
    not in that list, which is the case in the middle of a call only. *)
Record tiled (h : rt_memheap) (bs : list blk) (fl out : list Z) : Prop := Tiled {
  mv_self : mh_self h <> 0 /\ Z.land (mh_type h) (not8 RT_Object_Class_Static) = RT_Object_Class_MemHeap /\
            free_list h = free_header h;
  mv_pool : 0 < start_addr h /\ start_addr h mod 4 = 0 /\ start_addr h + pool_size h <= 2 ^ 32 /\
            pool_size h = total bs + 24;
  mv_header : free_header h < start_addr h \/ start_addr h + pool_size h <= free_header h;
  mv_blk : Forall mblk_ok bs;
  mv_lay : lay h (all_cells (start_addr h) bs) fl;
  mv_free : out ++ fl ≡ₚ free_cells (all_cells (start_addr h) bs);
  mv_avail : available_size h = free_bytes bs;
  mv_max : pool_size h - available_size h <= max_used_size h <= pool_size h
}.
Arguments mv_self {h bs fl out}.
Arguments mv_pool {h bs fl out}.
Arguments mv_header {h bs fl out}.
Arguments mv_blk {h bs fl out}.
Arguments mv_lay {h bs fl out}.
Arguments mv_free {h bs fl out}.
Arguments mv_avail {h bs fl out}.
Arguments mv_max {h bs fl out}.

Definition memheap_inv (h : rt_memheap) (bs : list blk) (fl : list Z) : Prop :=
  tiled h bs fl [] /\ coalesced bs.

Lemma mblk_blk bs : Forall mblk_ok bs -> Forall blk_ok bs.
Proof. intros H. eapply Forall_impl; [exact H|]. intros b [? ?]. split; [lia|done]. Qed.

Lemma cells_app p b1 b2 : cells p (b1 ++ b2) = cells p b1 ++ cells (p + total b1) b2.
Proof.
  revert p. induction b1 as [|[n u] b1 IH]; intros p; cbn; [by rewrite Z.add_0_r|].
  by rewrite IH, Z.add_assoc.
Qed.
Lemma all_cells_app p b1 b2 : all_cells p (b1 ++ b2) = cells p b1 ++ all_cells (p + total b1) b2.
Proof. unfold all_cells. by rewrite cells_app, total_app, <- app_assoc, Z.add_assoc. Qed.
Lemma all_cells_cons p n u bs : all_cells p ((n, u) :: bs) = (p, u) :: all_cells (p + n) bs.
Proof. unfold all_cells. cbn. by rewrite Z.add_assoc. Qed.
Lemma all_cells_head p bs : exists c, all_cells p bs = (p, head_used bs) :: c.
Proof.
  destruct bs as [|[n u] bs]; [exists []; unfold all_cells; cbn; by rewrite Z.add_0_r|].
  rewrite all_cells_cons. eauto.
Qed.
Lemma free_cells_app c1 c2 : free_cells (c1 ++ c2) = free_cells c1 ++ free_cells c2.
Proof. induction c1 as [|[a []] c1 IH]; cbn; [done..|]. by rewrite IH. Qed.
Lemma free_bytes_app b1 b2 : free_bytes (b1 ++ b2) = free_bytes b1 + free_bytes b2.
Proof. induction b1 as [|[n u] b1 IH]; cbn; lia. Qed.
Lemma free_bytes_bounds bs : Forall mblk_ok bs -> 0 <= free_bytes bs <= total bs.
Proof. induction 1 as [|[n []] bs [? _] _ IH]; cbn in *; lia. Qed.
Lemma all_cells_offs p bs : (all_cells p bs).*1 = offs p bs.
Proof.
  revert p. induction bs as [|[n u] bs IH]; intros p; [unfold all_cells; cbn; by rewrite Z.add_0_r|].
  rewrite all_cells_cons. cbn. by rewrite IH.
Qed.

Lemma free_cells_elem a cs : a ∈ free_cells cs <-> (a, false) ∈ cs.
Proof. induction cs as [|[b []] cs IH]; cbn; rewrite ?elem_of_cons; set_solver. Qed.

Lemma free_cells_block a p bs : a ∈ free_cells (all_cells p bs) ->
  exists b1 n b2, bs = b1 ++ (n, false) :: b2 /\ a = p + total b1.
Proof.
  rewrite free_cells_elem. revert p. induction bs as [|[n u] bs IH]; intros p.
  { unfold all_cells. cbn. rewrite list_elem_of_singleton. naive_solver. }
  rewrite all_cells_cons, elem_of_cons. intros [[= -> <-]|(b1 & m & b2 & -> & ->)%IH].
  - exists [], n, bs. split; [done|]. cbn. lia.
  - exists ((n, u) :: b1), m, b2. split; [done|]. cbn. lia.
Qed.

Definition same_pool (h h' : rt_memheap) : Prop :=
  mh_self h' = mh_self h /\ mh_type h' = mh_type h /\ start_addr h' = start_addr h /\
  pool_size h' = pool_size h /\ block_list h' = block_list h /\ free_list h' = free_list h /\
  free_header h' = free_header h /\ mh_data h' = mh_data h.

(** What is left to show after a call that keeps the pool. *)
Lemma tiled_keep h bs fl out h' bs' fl' out' : tiled h bs fl out -> same_pool h h' ->
  total bs' = total bs -> Forall mblk_ok bs' ->
  lay h' (all_cells (start_addr h) bs') fl' -> out' ++ fl' ≡ₚ free_cells (all_cells (start_addr h) bs') ->
  available_size h' = free_bytes bs' ->
  pool_size h - available_size h' <= max_used_size h' <= pool_size h -> tiled h' bs' fl' out'.
Proof.
  intros [? ? ? ? ? ? ? ?] (E1 & E2 & E3 & E4 & E5 & E6 & E7 & E8) HT HB HL HF HA HM.
  split; rewrite ?E1, ?E2, ?E3, ?E4, ?E6, ?E7, ?HT; done.
Qed.

Section tiling.
Context {h b1 n u b2 fl out} (HI : tiled h (b1 ++ (n, u) :: b2) fl out).
#[local] Notation a := (start_addr h + total b1).

Lemma tiling_cells : all_cells (start_addr h) (b1 ++ (n, u) :: b2) =
  cells (start_addr h) b1 ++ (a, u) :: all_cells (a + n) b2.
Proof using. by rewrite all_cells_app, all_cells_cons. Qed.

Lemma tiling_bounds : Forall mblk_ok b1 /\ Forall mblk_ok b2 /\ 36 <= n /\ n mod 4 = 0 /\
  0 < start_addr h <= a /\ a mod 4 = 0 /\ a + n + 24 <= 2 ^ 32 /\ 0 <= total b2 /\
  a + n + total b2 + 24 = start_addr h + pool_size h.
Proof using HI.
  pose proof (mv_pool HI) as (H0 & H4 & H32 & Ht).
  pose proof (mv_blk HI) as [B1 [[Hn Hn4] B2]%Forall_cons]%Forall_app. cbn in Hn, Hn4.
  rewrite total_app in Ht. cbn in Ht.
  pose proof (total_nonneg _ (mblk_blk _ B1)). pose proof (total_nonneg _ (mblk_blk _ B2)).
  pose proof (total_mod4 _ (mblk_blk _ B1)).
  split_and!; try done; try lia. Z.div_mod_to_equations; lia.
Qed.

Lemma tiling_next : field mi_next (mh_items h) a = Some (a + n).
Proof using HI.
  pose proof (mv_lay HI) as HL. rewrite tiling_cells in HL.
  destruct (all_cells_head (a + n) b2) as [c Ec]. rewrite Ec in HL. by apply lay_next in HL as [? _].
Qed.

Lemma tiling_marked : field mi_magic (mh_items h) a = Some (mark u) /\ field mi_pool (mh_items h) a = Some (mh_self h).
Proof using HI. pose proof (mv_lay HI) as HL. rewrite tiling_cells in HL. by eapply lay_marked. Qed.

Lemma tiling_inside q : q ∈ (all_cells (start_addr h) (b1 ++ (n, u) :: b2)).*1 ->
  start_addr h <= q /\ (q <= a \/ a + n <= q) /\ q <= a + n + total b2 /\ q <> free_header h.
Proof using HI.
  destruct tiling_bounds as (B1 & B2 & Hn & _). apply mblk_blk in B1, B2. pose proof (mv_header HI) as Hh.
  pose proof tiling_bounds as (_ & _ & _ & _ & Ha & _ & _ & Ht & He).
  rewrite all_cells_offs, elem_of_offs_app. cbn [offs]. rewrite elem_of_cons.
  pose proof (total_nonneg _ B1).
  intros [Hq|[->|Hq]]; [apply (offs_ge _ _ _ B1) in Hq|..|apply (offs_ge _ _ _ B2) in Hq]; lia.
Qed.

Lemma tiling_in : a ∈ (all_cells (start_addr h) (b1 ++ (n, u) :: b2)).*1.
Proof using. rewrite tiling_cells, fmap_app. apply elem_of_app. right. left. Qed.

(** The free list holds the block just if it is free. *)
Lemma tiling_in_free : a ∈ out ++ fl <-> u = false.
Proof using HI.
  rewrite (mv_free HI), free_cells_elem. pose proof (lay_NoDup _ _ _ (mv_lay HI)) as Hd.
  rewrite tiling_cells in *. split; [|intros ->; set_solver]. intros Hin.
  rewrite fmap_app in Hd. apply NoDup_app in Hd as (_ & Hd & [Hn _]%NoDup_cons).
  apply elem_of_app in Hin as [Hin|[[= ->]|Hin]%elem_of_cons]; [|done|].
  - destruct (Hd a); [|set_solver]. by apply (list_elem_of_fmap_2 fst) in Hin.
  - destruct Hn. by apply (list_elem_of_fmap_2 fst) in Hin.
Qed.

(** An address inside the block is no header. *)
Lemma tiling_fresh q : a < q < a + n ->
  q ∉ (all_cells (start_addr h) (b1 ++ (n, u) :: b2)).*1 /\ q ∉ free_header h :: fl.
Proof using HI.
  intros Hq. assert (q ∉ (all_cells (start_addr h) (b1 ++ (n, u) :: b2)).*1) as Hc.
  { intros Hin. apply tiling_inside in Hin. lia. }
  split; [done|]. pose proof tiling_bounds as (_ & _ & _ & _ & Ha & _ & _ & Ht & He).
  apply not_elem_of_cons. split; [pose proof (mv_header HI); lia|].
  intros Hin. assert (q ∈ out ++ fl) as Hq' by set_solver.
  rewrite (mv_free HI), free_cells_elem in Hq'. by apply (list_elem_of_fmap_2 fst) in Hq'.
Qed.
End tiling.

Lemma free_cells_NoDup cs : NoDup cs.*1 -> NoDup (free_cells cs).
Proof.
  induction cs as [|[a []] cs IH]; cbn; [constructor|intros [_ ?]%NoDup_cons; auto|].
  intros [Hn ?]%NoDup_cons. constructor; [|auto]. rewrite free_cells_elem.
  intros Hin%(list_elem_of_fmap_2 fst). done.
Qed.

Lemma tiled_out h bs fl a : tiled h bs fl [a] -> a ∉ free_header h :: fl.
Proof.
  intros HI. pose proof (free_cells_NoDup _ (lay_NoDup _ _ _ (mv_lay HI))) as Hd.
  rewrite <- (mv_free HI) in Hd. cbn in Hd. apply NoDup_cons in Hd as [Hd _]. apply not_elem_of_cons. split; [|done].
  assert (a ∈ [a] ++ fl) as Hin by set_solver. rewrite (mv_free HI) in Hin.
  apply free_cells_block in Hin as (b1 & n & b2 & -> & ->). apply (tiling_inside HI), tiling_in.
Qed.

(** ** rt_memheap_alloc *)

Lemma MEMITEM_SIZE_done a n h : field mi_next (mh_items h) a = Some (a + n) -> 24 <= n < 2 ^ 32 ->
  MEMITEM_SIZE a h = Done (n - 24) h.
Proof.
  intros E Hn. unfold MEMITEM_SIZE. rewrite (after (fld_done _ _ _ _ E)). unfold ret.
  f_equal. unfold u32, RT_MEMHEAP_SIZE. rewrite Z.mod_small; lia.
Qed.

Lemma free_first h cs fl : lay h cs fl ->
  field mi_next_free (mh_items h) (free_header h) = Some (default (free_header h) (head fl)).
Proof.
  intros [_ HF _]. rewrite <- get_next_frees. destruct HF as [_ HL]. destruct fl as [|x fl]; by destruct HL.
Qed.

Lemma free_next h cs l1 x l2 : lay h cs (l1 ++ x :: l2) ->
  field mi_next_free (mh_items h) x = Some (default (free_header h) (head l2)).
Proof.
  intros [_ [_ HL] _]. rewrite <- get_next_frees. rewrite <- app_assoc in HL. cbn in HL.
  destruct l2 as [|y l2]; cbn in *.
  - by apply (linked_next _ (free_header h :: l1) x (free_header h) []).
  - by apply (linked_next _ (free_header h :: l1) x y (l2 ++ [free_header h])).
Qed.

Lemma alloc_search_stop fuel p fs s h : p = free_list h \/ s <= fs -> alloc_search fuel p fs s h = Done (p, fs) h.
Proof.
  intros H. assert ((negb (p =? free_list h) && (fs <? s))%bool = false) as E.
  { destruct H as [->|H]; [by rewrite Z.eqb_refl|]. rewrite (proj2 (Z.ltb_ge _ _) H). apply andb_false_r. }
  destruct fuel; cbn [alloc_search]; mstep; by rewrite E.
Qed.

Lemma alloc_search_spec h bs fl s : tiled h bs fl [] -> forall l2 fuel l1 fs,
  fl = l1 ++ l2 -> fs < s -> (length l2 <= fuel)%nat ->
  exists r, alloc_search fuel (default (free_header h) (head l2)) fs s h = Done r h /\
    ((r.2 < s /\ forall b1 n b2, bs = b1 ++ (n, false) :: b2 -> start_addr h + total b1 ∈ l2 -> n - 24 < s) \/
     exists b1 n b2, bs = b1 ++ (n, false) :: b2 /\ r = (start_addr h + total b1, n - 24) /\ s <= n - 24).
Proof.
  intros HI. pose proof (mv_self HI) as (_ & _ & Hl).
  induction l2 as [|x l2 IH]; intros fuel l1 fs Hfl Hfs Hfu.
  - exists (free_header h, fs). cbn. rewrite alloc_search_stop by (rewrite Hl; auto). split; [done|]. left.
    split; [done|]. intros b1 n b2 _ Hin. by apply not_elem_of_nil in Hin.
  - destruct fuel as [|fuel]; [cbn in Hfu; lia|]. cbn [alloc_search]. mstep.
    change (default (free_header h) (head (x :: l2))) with x.
    assert (x ∈ fl) as Hx by (rewrite Hfl; set_solver).
    pose proof Hx as Hx'. rewrite (mv_free HI) in Hx'.
    apply free_cells_block in Hx' as (b1 & n & b2 & -> & Ex).
    pose proof (tiling_bounds HI) as (_ & _ & Hn & _ & Ha & _ & H32 & _).
    rewrite (proj2 (Z.eqb_neq x (free_list h))), (proj2 (Z.ltb_lt fs s) Hfs); cbn [negb andb].
    2: { rewrite Hl, Ex. apply (tiling_inside HI), tiling_in. }
    erewrite (bind_done (MEMITEM_SIZE _)); [|rewrite Ex; apply MEMITEM_SIZE_done; [by eapply tiling_next|lia]].
    pose proof (mv_lay HI) as HL. rewrite Hfl in HL. pose proof (free_next _ _ _ _ _ HL) as Hnx.
    destruct (Z.ltb_spec (n - 24) s) as [Hlt|Hge].
    + rewrite (after (fld_done _ _ _ _ Hnx)).
      destruct (IH fuel (l1 ++ [x]) (n - 24)) as (r & -> & Hr); [by rewrite <- app_assoc|done|cbn in Hfu; lia|].
      exists r. split; [done|]. destruct Hr as [[Hr1 Hr2]|Hr]; [left|by right]. split; [done|].
      intros c1 m c2 Hc [E|Hin]%elem_of_cons; [|by eapply Hr2].
      pose proof (tiling_next HI) as N1. rewrite Hc in HI. apply tiling_next in HI as N2.
      rewrite <- Ex in N1. rewrite E in N2. rewrite N1 in N2. injection N2. lia.
    + rewrite alloc_search_stop by auto. eexists. split; [done|]. right. rewrite Ex. by exists b1, n, b2.
Qed.

Lemma lay_take v h cs fl : lay h cs fl -> lay (take_available v h) cs fl.
Proof. intros [? ? ?]. by split. Qed.
Lemma lay_set v h cs fl : lay h cs fl -> lay (set_available v h) cs fl.
Proof. intros [? ? ?]. by split. Qed.

(** The blocks a free block of [n] bytes becomes when [s] bytes are taken from it. *)
Definition take_block (n s : Z) : list blk :=
  if s + 60 <=? n then [(s + 24, true); (n - s - 24, false)] else [(n, true)].

Lemma take_block_total n s : total (take_block n s) = n.
Proof. unfold take_block. destruct (s + 60 <=? n); cbn; lia. Qed.

Lemma take_block_ok n s b1 b2 : 12 <= s -> s mod 4 = 0 ->
  Forall mblk_ok (b1 ++ (n, false) :: b2) -> Forall mblk_ok (b1 ++ take_block n s ++ b2).
Proof.
  intros Hs Hs4 [H1 [[Hn Hn4] H2]%Forall_cons]%Forall_app. cbn in Hn, Hn4.
  apply Forall_app_2; [done|]. unfold take_block, mblk_ok.
  destruct (Z.leb_spec (s + 60) n); cbn [app]; rewrite ?Forall_cons; cbn [fst];
    split_and!; try done; try lia; Z.div_mod_to_equations; lia.
Qed.

Lemma take_block_coalesced n s b1 b2 :
  coalesced (b1 ++ (n, false) :: b2) -> coalesced (b1 ++ take_block n s ++ b2).
Proof.
  intros (H1 & H2 & H3)%coalesced_app_iff. apply coalesced_app_iff. split_and!; [done| |].
  - unfold take_block. destruct (s + 60 <=? n); cbn [app].
    + cbn. split; [done|]. by destruct b2 as [|[? ?] ?].
    + destruct b2 as [|[? ?] ?]; [done|]. by destruct H2.
  - unfold sep. destruct (last b1) as [[? u]|]; [|done]. unfold take_block.
    destruct (s + 60 <=? n); cbn; apply orb_true_r.
Qed.

Lemma mark_used m u : mark u = m -> Z.lor m RT_MEMHEAP_USED = mark true.
Proof. by destruct u; intros <-. Qed.

Lemma max_used_keep h bs fl out b b' : tiled h bs fl out ->
  b = free_bytes b' -> Forall mblk_ok b' -> total b' = total bs ->
  let h' := take_available b h in
  available_size h' = free_bytes b' /\ pool_size h - available_size h' <= max_used_size h' <= pool_size h.
Proof.
  intros HI -> Hok Ht h'. pose proof (free_bytes_bounds _ Hok). pose proof (mv_pool HI) as (? & ? & ? & ?).
  pose proof (mv_max HI). subst h'. unfold take_available. cbn.
  assert (u32 (free_bytes b') = free_bytes b') as -> by (apply Z.mod_small; lia).
  assert (u32 (pool_size h - free_bytes b') = pool_size h - free_bytes b') as -> by (apply Z.mod_small; lia).
  split; [done|]. zcase; lia.
Qed.

(** A free block in the two lists. *)
Lemma free_block_lists h b1 n b2 fl a : tiled h (b1 ++ (n, false) :: b2) fl [] ->
  a = start_addr h + total b1 ->
  exists l1 l2 c, fl = l1 ++ a :: l2 /\ all_cells (a + n) b2 = (a + n, head_used b2) :: c /\
    lay h (cells (start_addr h) b1 ++ (a, false) :: (a + n, head_used b2) :: c) (l1 ++ a :: l2) /\
    l1 ++ l2 ≡ₚ free_cells (cells (start_addr h) b1) ++ free_cells (all_cells (a + n) b2) /\
    a ∉ free_header h :: l1 ++ l2.
Proof.
  intros HI Ea. assert (a ∈ fl) as Hin by (rewrite Ea; by apply (tiling_in_free HI)).
  apply list_elem_of_split in Hin as (l1 & l2 & ->).
  pose proof (mv_lay HI) as HL. rewrite tiling_cells, <- Ea in HL.
  destruct (all_cells_head (a + n) b2) as [c Ec]. exists l1, l2, c.
  pose proof (mv_free HI) as HF. rewrite tiling_cells, free_cells_app, <- Ea in HF. cbn [free_cells] in HF.
  rewrite <- !Permutation_middle in HF. apply Permutation_cons_inv in HF.
  split_and!; [done|done|by rewrite <- Ec|done|].
  pose proof (proj1 (lay_free _ _ _ HL)) as Hd. rewrite <- Permutation_middle in Hd.
  rewrite !NoDup_cons in Hd. set_solver.
Qed.

Lemma alloc_whole h b1 n b2 fl a : tiled h (b1 ++ (n, false) :: b2) fl [] ->
  a = start_addr h + total b1 ->
  exists h' fl',
    (unlink_free a;;; fput a (set_mi_next_free 0);;; fput a (set_mi_prev_free 0);;;
     fput a (fun i => set_mi_magic (Z.lor (mi_magic i) RT_MEMHEAP_USED) i)) 
      (take_available (available_size h - (n - 24)) h) = Done tt h' /\
    same_pool h h' /\ tiled h' (b1 ++ (n, true) :: b2) fl' [].
Proof.
  intros HI Ea. destruct (free_block_lists _ _ _ _ _ _ HI Ea) as (l1 & l2 & c & -> & Ec & HL & HP & Hout).
  apply (lay_take (available_size h - (n - 24))) in HL.
  destruct (unlink_free_lay _ _ _ _ _ HL) as (it1 & E1 & HL1).
  destruct (clear_lay _ _ _ a HL1) as (it2 & E2 & HL2); [rewrite fmap_app; set_solver|done|].
  destruct (mark_lay _ _ _ _ true _ _ (fun i => set_mi_magic (Z.lor (mi_magic i) RT_MEMHEAP_USED) i) HL2)
    as (it3 & E3 & HL3); [done|intros i Hi; by eapply mark_used|].
  eexists _, _. rewrite (after E1), E2, E3. split; [done|]. split; [done|].
  pose proof (mv_blk HI) as Hok.
  assert (HB : Forall mblk_ok (b1 ++ (n, true) :: b2)).
  { rewrite Forall_app, Forall_cons in *. done. }
  destruct (max_used_keep _ _ _ _ (available_size h - (n - 24)) (b1 ++ (n, true) :: b2) HI) as [HA HM].
  { rewrite (mv_avail HI), !free_bytes_app. cbn. lia. }
  { done. }
  { rewrite !total_app. done. }
  eapply tiled_keep; [exact HI|done|by rewrite !total_app|done| | |done|done].
  - rewrite tiling_cells, <- Ea, Ec. exact HL3.
  - rewrite tiling_cells, <- Ea, free_cells_app. exact HP.
Qed.

Lemma alloc_split h b1 n b2 fl a s : tiled h (b1 ++ (n, false) :: b2) fl [] ->
  a = start_addr h + total b1 -> 12 <= s -> s mod 4 = 0 -> s + 60 <= n ->
  exists h' fl', (forall B (k : M rt_memheap B),
    (split_off a (a + s + 24);;; unlink_free a;;;
     fput a (set_mi_next_free 0);;; fput a (set_mi_prev_free 0);;;
     insert_free (a + s + 24);;;
     av <- gets available_size;; modify (take_available (av - s - 24));;;
     fput a (fun i => set_mi_magic (Z.lor (mi_magic i) RT_MEMHEAP_USED) i);;; k) h = k h') /\
    same_pool h h' /\ tiled h' (b1 ++ [(s + 24, true); (n - s - 24, false)] ++ b2) fl' [].
Proof.
  intros HI Ea Hs Hs4 Hn. set (new := a + s + 24).
  destruct (free_block_lists _ _ _ _ _ _ HI Ea) as (l1 & l2 & c & -> & Ec & HL & HP & Hout).
  pose proof (mv_self HI) as (_ & _ & Hl).
  destruct (tiling_fresh HI new) as [Hf1 Hf2]; [lia|].
  rewrite tiling_cells, <- Ea, Ec in Hf1.
  destruct (split_off_lay _ _ _ _ _ _ _ _ new HL Hf1 Hf2) as (it1 & E1 & HL1).
  destruct (unlink_free_lay _ _ _ _ _ HL1) as (it2 & E2 & HL2).
  destruct (clear_lay _ _ _ a HL2) as (it3 & E3 & HL3); [rewrite fmap_app; set_solver|done|].
  destruct (insert_free_lay _ _ _ new HL3 Hl) as (it4 & E4 & HL4); [rewrite fmap_app; set_solver|set_solver|].
  apply (lay_take (available_size h - s - 24)) in HL4.
  destruct (mark_lay _ _ _ _ true _ _ (fun i => set_mi_magic (Z.lor (mi_magic i) RT_MEMHEAP_USED) i) HL4)
    as (it5 & E5 & HL5); [done|intros i Hi; by eapply mark_used|].
  eexists _, _. split.
  { intros B k. rewrite (after E1), (after E2), E3, (after E4). do 2 mstep. by rewrite (after E5). }
  split; [done|].
  pose proof (take_block_ok n s b1 b2 Hs Hs4 (mv_blk HI)) as HB.
  assert (take_block n s = [(s + 24, true); (n - s - 24, false)]) as ET.
  { unfold take_block. by rewrite (proj2 (Z.leb_le _ _) Hn). }
  destruct (max_used_keep _ _ _ _ (available_size h - s - 24) (b1 ++ take_block n s ++ b2) HI) as [HA HM];
    [|done|by rewrite !total_app, take_block_total|].
  { rewrite (mv_avail HI), ET, !free_bytes_app. cbn. lia. }
  rewrite ET in *.
  assert (all_cells (start_addr h) (b1 ++ [(s + 24, true); (n - s - 24, false)] ++ b2) =
          cells (start_addr h) b1 ++ (a, true) :: (new, false) :: all_cells (a + n) b2) as EC.
  { cbn [app]. rewrite tiling_cells, all_cells_cons, <- Ea. subst new. do 3 f_equal; [f_equal; lia|f_equal; lia]. }
  eapply tiled_keep; [exact HI|done| |done| | |done|done].
  - rewrite !total_app. cbn. lia.
  - rewrite EC, Ec. exact HL5.
  - rewrite EC, free_cells_app. cbn [free_cells app]. rewrite <- Permutation_middle. by constructor.
Qed.

Lemma alloc_take_spec h b1 n b2 fl s : tiled h (b1 ++ (n, false) :: b2) fl [] ->
  12 <= s -> s mod 4 = 0 -> s <= n - 24 ->
  exists h' fl', alloc_take (start_addr h + total b1) (n - 24) s h = Done (start_addr h + total b1 + 24) h' /\
    same_pool h h' /\ tiled h' (b1 ++ take_block n s ++ b2) fl' [].
Proof.
  intros HI Hs Hs4 Hn. pose proof (tiling_bounds HI) as (_ & _ & _ & _ & Ha & _ & H32 & _).
  unfold alloc_take, take_block, RT_MEMHEAP_SIZE, RT_MEMHEAP_MINIALLOC. rewrite u32_small by lia.
  destruct (Z.leb_spec (s + 24 + 12) (n - 24)) as [Hsp|Hsp].
  - rewrite (proj2 (Z.leb_le (s + 60) n)) by lia.
    destruct (alloc_split _ _ _ _ _ _ s HI eq_refl Hs Hs4) as (h' & fl' & E & HA & HI'); [lia|].
    exists h', fl'. rewrite !bind_assoc. split; [|done].
    etransitivity; [|apply (E Z (ret (start_addr h + total b1 + 24)))].
    repeat (rewrite ?bind_assoc; apply bind_ext; intros ? ?). done.
  - rewrite (proj2 (Z.leb_gt (s + 60) n)) by lia.
    destruct (alloc_whole _ _ _ _ _ _ HI eq_refl) as (h' & fl' & E & HA & HI').
    exists h', fl'. split; [|done]. msteps.
    etransitivity; [|exact (bind_done _ (fun _ => ret (start_addr h + total b1 + 24)) _ _ _ E)].
    rewrite !bind_assoc.
    repeat (rewrite ?bind_assoc; apply bind_ext; intros ? ?). done.
Qed.

Lemma free_list_fuel h bs fl : tiled h bs fl [] -> (length fl <= S (base.size (mh_items h)))%nat.
Proof.
  intros HI. pose proof (lay_free _ _ _ (mv_lay HI)) as HF.
  pose proof (proj1 HF) as [_ Hd]%NoDup_cons. apply le_S. rewrite <- size_dom.
  rewrite <- (size_list_to_set (C := gset Z) fl) by done.
  apply subseteq_size. intros q Hq%elem_of_list_to_set. apply elem_of_dom. eapply frees_dom; [exact HF|set_solver].
Qed.

Lemma is_memheap_done h bs fl out : tiled h bs fl out -> is_memheap h = Done tt h.
Proof.
  intros HI. destruct (mv_self HI) as (_ & Ht & _). unfold is_memheap. mstep. by rewrite Ht, Z.eqb_refl.
Qed.

(** A free block [(n, false)] that the request takes. *)
Lemma rt_memheap_alloc_spec h bs fl size s : memheap_inv h bs fl -> s = memheap_size size ->
  12 <= s -> s mod 4 = 0 ->
  (rt_memheap_alloc size h = Done 0 h /\
   (available_size h <= s \/ forall b1 n b2, bs = b1 ++ (n, false) :: b2 -> n - 24 < s)) \/
  exists h' fl' b1 n b2, bs = b1 ++ (n, false) :: b2 /\ s <= n - 24 /\
    rt_memheap_alloc size h = Done (start_addr h + total b1 + 24) h' /\
    same_pool h h' /\ memheap_inv h' (b1 ++ take_block n s ++ b2) fl'.
Proof.
  intros [HI HC] Es Hs Hs4. unfold rt_memheap_alloc. rewrite (after (is_memheap_done _ _ _ _ HI)), <- Es. mstep.
  destruct (Z.ltb_spec s (available_size h)) as [Hav|Hav]; [|left; split; [done|by left]]. mstep.
  destruct (mv_self HI) as (_ & _ & Hl). rewrite Hl.
  pose proof (free_first _ _ _ (mv_lay HI)) as Hf. rewrite (after (fld_done _ _ _ _ Hf)). mstep.
  destruct (alloc_search_spec h bs fl s HI fl (S (base.size (mh_items h))) [] 0) as (r & E & Hr);
    [done|lia|by eapply free_list_fuel|].
  rewrite (after E). destruct Hr as [[Hr1 Hr2]|(b1 & n & b2 & -> & -> & Hn)].
  - left. rewrite (proj2 (Z.leb_gt _ _) Hr1). split; [done|]. right. intros b1 n b2 ->.
    apply (Hr2 b1 n b2 eq_refl). by apply (tiling_in_free HI).
  - right. cbn [fst snd]. rewrite (proj2 (Z.leb_le _ _) Hn).
    destruct (alloc_take_spec _ _ _ _ _ s HI Hs Hs4 Hn) as (h' & fl' & E' & HA & HI').
    exists h', fl', b1, n, b2. split_and!; try done. split; [done|]. by apply take_block_coalesced.
Qed.

(** ** rt_memheap_free *)

Lemma RT_MEMHEAP_IS_USED_done p u h : field mi_magic (mh_items h) p = Some (mark u) ->
  RT_MEMHEAP_IS_USED p h = Done u h.
Proof. intros E. unfold RT_MEMHEAP_IS_USED. rewrite (after (fld_done _ _ _ _ E)). by destruct u. Qed.

Lemma merge_left_used x p h : field mi_prev (mh_items h) x = Some p ->
  field mi_magic (mh_items h) p = Some (mark true) -> merge_left x h = Done (x, true) h.
Proof.
  intros Ep Em. unfold merge_left. rewrite (after (fld_done _ _ _ _ Ep)).
  by rewrite (after (RT_MEMHEAP_IS_USED_done _ _ _ Em)).
Qed.

Lemma lay_distinct h c1 a u b v c2 fl : lay h (c1 ++ (a, u) :: (b, v) :: c2) fl -> a <> b.
Proof.
  intros Hd%lay_NoDup. rewrite fmap_app, NoDup_app in Hd. cbn in Hd. rewrite NoDup_cons in Hd. set_solver.
Qed.

Lemma lay_distinct2 h c1 a u b v d w c2 fl : lay h (c1 ++ (a, u) :: (b, v) :: (d, w) :: c2) fl -> a <> d /\ b <> d.
Proof.
  intros Hd%lay_NoDup. rewrite fmap_app, NoDup_app in Hd. cbn in Hd. rewrite !NoDup_cons in Hd. set_solver.
Qed.

Lemma merge_left_free h c1 p x w b v c2 fl : lay h (c1 ++ (p, false) :: (x, w) :: (b, v) :: c2) fl ->
  exists it, merge_left x h = Done (p, false) (with_items it (set_available (available_size h + 24) h)) /\
    lay (with_items it h) (c1 ++ (p, false) :: (b, v) :: c2) fl.
Proof.
  intros HL. destruct (lay_next _ _ _ _ _ _ _ _ HL) as [_ Hp]. pose proof HL as HL'.
  change (c1 ++ (p, false) :: (x, w) :: (b, v) :: c2) with (c1 ++ [(p, false)] ++ (x, w) :: (b, v) :: c2) in HL'.
  rewrite app_assoc in HL'. destruct (lay_next _ _ _ _ _ _ _ _ HL') as [Hn _].
  pose proof (proj1 (lay_marked _ _ _ _ _ _ HL)) as Hm.
  destruct (lay_distinct2 _ _ _ _ _ _ _ _ _ _ HL) as [Hpb Hxb]. pose proof (lay_distinct _ _ _ _ _ _ _ _ HL) as Hpx.
  assert (is_Some (mh_items h !! p)) by (eapply lay_dom; [exact HL|rewrite fmap_app; set_solver]).
  assert (is_Some (mh_items h !! b)) by (eapply lay_dom; [exact HL|rewrite fmap_app; set_solver]).
  eexists. split.
  - unfold merge_left. rewrite (after (fld_done _ _ _ _ Hp)), (after (RT_MEMHEAP_IS_USED_done _ _ _ Hm)). cbn [negb].
    mstep. mstep. set (h1 := set_available _ h). change (mh_items h) with (mh_items h1) in *.
    fload. fload. fstore. fload. fload. fstore. fload. reflexivity.
  - eapply bypass_lay; [done|..]; intros q; flds; done.
Qed.

Lemma merge_right_used x y h : field mi_next (mh_items h) x = Some y ->
  field mi_magic (mh_items h) y = Some (mark true) -> merge_right x h = Done tt h.
Proof.
  intros Ep Em. unfold merge_right. rewrite (after (fld_done _ _ _ _ Ep)).
  by rewrite (after (RT_MEMHEAP_IS_USED_done _ _ _ Em)).
Qed.

(** A free block [y] becomes part of the block [x] before it. *)
Lemma join_right h c1 x u y b v c2 l1 l2 :
  lay h (c1 ++ (x, u) :: (y, false) :: (b, v) :: c2) (l1 ++ y :: l2) ->
  exists it, (n <- fld mi_next y;; fput n (set_mi_prev x);;; n <- fld mi_next y;; fput x (set_mi_next n);;;
              unlink_free y) h = Done tt (with_items it h) /\
    lay (with_items it h) (c1 ++ (x, u) :: (b, v) :: c2) (l1 ++ l2).
Proof.
  intros HL. pose proof HL as HL'.
  change (c1 ++ (x, u) :: (y, false) :: (b, v) :: c2) with (c1 ++ [(x, u)] ++ (y, false) :: (b, v) :: c2) in HL'.
  rewrite app_assoc in HL'. destruct (lay_next _ _ _ _ _ _ _ _ HL') as [Hn _].
  destruct (lay_distinct2 _ _ _ _ _ _ _ _ _ _ HL) as [Hxb Hyb]. pose proof (lay_distinct _ _ _ _ _ _ _ _ HL) as Hxy.
  assert (is_Some (mh_items h !! x)) by (eapply lay_dom; [exact HL|rewrite fmap_app; set_solver]).
  assert (is_Some (mh_items h !! b)) by (eapply lay_dom; [exact HL|rewrite fmap_app; set_solver]).
  set (it1 := alter (set_mi_next b) x (alter (set_mi_prev x) b (mh_items h))).
  assert (HL1 : lay (with_items it1 h) (c1 ++ (x, u) :: (b, v) :: c2) (l1 ++ y :: l2)).
  { eapply bypass_lay; [done|..]; intros q; unfold it1; flds; done. }
  destruct (unlink_free_lay _ _ _ _ _ HL1) as (it2 & E2 & HL2). exists it2. split; [|by destruct HL2].
  fload. fstore. fload. fstore. exact E2.
Qed.

Lemma merge_right_free h c1 x u y b v c2 l1 l2 :
  lay h (c1 ++ (x, u) :: (y, false) :: (b, v) :: c2) (l1 ++ y :: l2) ->
  exists it, merge_right x h = Done tt (with_items it (set_available (available_size h + 24) h)) /\
    lay (with_items it h) (c1 ++ (x, u) :: (b, v) :: c2) (l1 ++ l2).
Proof.
  intros HL. destruct (lay_next _ _ _ _ _ _ _ _ HL) as [Hy _].
  assert (Hm : field mi_magic (mh_items h) y = Some (mark false)).
  { apply (lay_marked h (c1 ++ [(x, u)]) _ false ((b, v) :: c2) (l1 ++ y :: l2)). by rewrite <- app_assoc. }
  destruct (join_right _ _ _ _ _ _ _ _ _ _ (lay_set (available_size h + 24) _ _ _ HL)) as (it & E & HL1).
  exists it. split; [|by destruct HL1].
  unfold merge_right. rewrite (after (fld_done _ _ _ _ Hy)), (after (RT_MEMHEAP_IS_USED_done _ _ _ Hm)).
  cbn [negb when]. mstep. mstep. rewrite (bind_done (fld _ _) _ _ y (set_available (available_size h + 24) h)); [exact E|].
  by apply fld_done.
Qed.

(** A step of a call that adds [v] to the free bytes. *)
Lemma tiled_grow h bs fl out h' bs' fl' out' v it : tiled h bs fl out ->
  h' = with_items it (set_available v h) -> v = free_bytes bs' -> free_bytes bs <= v ->
  total bs' = total bs -> Forall mblk_ok bs' -> lay (with_items it h) (all_cells (start_addr h) bs') fl' ->
  out' ++ fl' ≡ₚ free_cells (all_cells (start_addr h) bs') -> same_pool h h' /\ tiled h' bs' fl' out'.
Proof.
  intros HI -> Hv Hle HT HB [HL1 HL2 HL3] HF. split; [done|].
  pose proof (free_bytes_bounds _ HB). pose proof (mv_pool HI) as (? & ? & ? & ?). pose proof (mv_max HI) as Hm.
  assert (u32 v = v) as Ev by (apply u32_small; lia).
  eapply tiled_keep; [exact HI|done|done|done|by split|done|cbn; congruence|].
  cbn. rewrite Ev. rewrite (mv_avail HI) in Hm. lia.
Qed.

Lemma all_cells_merge p b1 l (u : bool) n b2 :
  all_cells p (b1 ++ (l + n, u) :: b2) =
  cells p b1 ++ (p + total b1, u) :: all_cells (p + total b1 + l + n) b2.
Proof. rewrite all_cells_app, all_cells_cons. do 2 f_equal. by rewrite Z.add_assoc. Qed.

Lemma blocks_merge b1 l (u v w : bool) n b2 : Forall mblk_ok (b1 ++ (l, u) :: (n, v) :: b2) ->
  Forall mblk_ok (b1 ++ (l + n, w) :: b2).
Proof.
  rewrite !Forall_app, !Forall_cons. unfold mblk_ok. cbn. intros (B1 & [? ?] & [? ?] & B2).
  split_and!; try done; [lia|]. Z.div_mod_to_equations; lia.
Qed.

Lemma merge_left_spec h b1 n b2 fl a : a = start_addr h + total b1 -> 
  tiled h (b1 ++ (n, false) :: b2) fl [a] ->
  exists h' B1 N (ins : bool), merge_left a h = Done (start_addr h + total B1, ins) h' /\ same_pool h h' /\
    tiled h' (B1 ++ (N, false) :: b2) fl (if ins then [start_addr h + total B1] else []) /\
    plug b1 n b2 = B1 ++ ((join_next N b2).1, false) :: (join_next N b2).2.
Proof.
  intros Ea HI. pose proof (mv_lay HI) as HL. rewrite tiling_cells, <- Ea in HL.
  assert (HU : forall p, field mi_prev (mh_items h) a = Some p -> field mi_magic (mh_items h) p = Some (mark true) ->
    (forall k c, join_prev b1 k c = b1 ++ (k, false) :: c) ->
    exists h' B1 N (ins : bool), merge_left a h = Done (start_addr h + total B1, ins) h' /\ same_pool h h' /\
    tiled h' (B1 ++ (N, false) :: b2) fl (if ins then [start_addr h + total B1] else []) /\
    plug b1 n b2 = B1 ++ ((join_next N b2).1, false) :: (join_next N b2).2).
  { intros p Hp Hm HJ. exists h, b1, n, true. rewrite (merge_left_used _ _ _ Hp Hm), <- Ea. split_and!; try done.
    destruct (join_next n b2) as [n' b2'] eqn:EJ. by rewrite (plug_join _ _ _ _ _ EJ). }
  destruct b1 as [|[l u] r _] using rev_ind.
  - cbn [cells app] in HL. apply (HU (a + n + total b2)); [| |done].
    + apply (ring_first _ a (cells (a + n) b2).*1). destruct HL as [HR _ _]. unfold all_cells in HR.
      cbn in HR. by rewrite fmap_app in HR.
    + unfold all_cells in HL. rewrite app_comm_cons in HL. by apply lay_marked in HL as [? _].
  - rewrite cells_app, <- app_assoc in HL. cbn [cells app] in HL.
    destruct (lay_next _ _ _ _ _ _ _ _ HL) as [_ Hp]. destruct u.
    { apply (HU (start_addr h + total r)); [done|by apply lay_marked in HL as [? _]|].
      intros k c. unfold join_prev. by rewrite reverse_snoc. }
    clear HU. destruct (all_cells_head (a + n) b2) as [c Ec]. rewrite Ec in HL.
    destruct (merge_left_free _ _ _ _ _ _ _ _ _ HL) as (it & E & HL1).
    exists (with_items it (set_available (available_size h + 24) h)), r, (l + n), false. split; [done|].
    rewrite <- app_assoc in HI. cbn [app] in HI. rewrite total_app in Ea. cbn in Ea.
    assert (a + n = start_addr h + total r + l + n) as En by lia. apply and_assoc. split.
    + eapply tiled_grow; [exact HI|done| | | | | |].
      * rewrite (mv_avail HI), !free_bytes_app. cbn. lia.
      * rewrite (mv_avail HI). lia.
      * rewrite !total_app. cbn. lia.
      * eapply blocks_merge, HI.
      * rewrite all_cells_merge, <- En, Ec. exact HL1.
      * pose proof (mv_free HI) as HF. rewrite all_cells_merge, <- En.
        rewrite tiling_cells, all_cells_cons, !free_cells_app in HF. cbn [free_cells] in HF.
        replace (start_addr h + total r + l) with a in HF by lia.
        rewrite !free_cells_app. cbn [free_cells app] in *.
        apply (Permutation_cons_inv (a := a)). rewrite HF. solve_Permutation.
    + destruct (join_next n b2) as [n' b2'] eqn:EJ. rewrite (plug_join _ _ _ _ _ EJ). unfold join_prev.
      rewrite reverse_snoc, reverse_involutive.
      destruct b2 as [|[m []] b2]; cbn in EJ |- *; injection EJ as <- <-; [done..|]. by rewrite Z.add_assoc.
Qed.

Lemma merge_right_spec h b1 n b2 fl out a : a = start_addr h + total b1 -> out = [a] \/ out = [] ->
  tiled h (b1 ++ (n, false) :: b2) fl out ->
  exists h' fl', merge_right a h = Done tt h' /\ same_pool h h' /\
    tiled h' (b1 ++ ((join_next n b2).1, false) :: (join_next n b2).2) fl' out.
Proof.
  intros Ea Hout HI. pose proof (mv_lay HI) as HL. rewrite tiling_cells, <- Ea in HL.
  pose proof (tiling_bounds HI) as (_ & _ & Hn & _).
  destruct (all_cells_head (a + n) b2) as [c Ec]. destruct (head_used b2) eqn:Hu.
  { exists h, fl. rewrite Ec in HL. destruct (lay_next _ _ _ _ _ _ _ _ HL) as [Hnx _].
    rewrite (merge_right_used _ _ _ Hnx).
    2: { apply (lay_marked h (cells (start_addr h) b1 ++ [(a, false)]) _ true c fl). by rewrite <- app_assoc. }
    split_and!; try done. by destruct b2 as [|[m []] b2]. }
  destruct b2 as [|[m []] b2]; [done..|]. cbn [join_next fst snd]. clear Ec c.
  rewrite all_cells_cons in HL. destruct (all_cells_head (a + n + m) b2) as [c Ec]. rewrite Ec in HL.
  pose proof (mv_free HI) as HF. rewrite tiling_cells, all_cells_cons, <- Ea, free_cells_app in HF. cbn [free_cells] in HF.
  assert (a + n ∈ fl) as Hin.
  { assert (a + n ∈ out ++ fl) as [Hin|Hin]%elem_of_app by (rewrite HF; set_solver); [|done].
    exfalso. destruct Hout as [-> | ->]; [apply list_elem_of_singleton in Hin; lia|by apply not_elem_of_nil in Hin]. }
  apply list_elem_of_split in Hin as (l1 & l2 & ->).
  destruct (merge_right_free _ _ _ _ _ _ _ _ _ _ HL) as (it & E & HL1).
  eexists _, (l1 ++ l2). split; [done|]. eapply tiled_grow; [exact HI|done| | | | | |].
  - rewrite (mv_avail HI), !free_bytes_app. cbn. lia.
  - rewrite (mv_avail HI). lia.
  - rewrite !total_app. cbn. lia.
  - eapply blocks_merge, HI.
  - rewrite all_cells_merge, <- Ea, Ec. exact HL1.
  - rewrite all_cells_merge, <- Ea, free_cells_app. cbn [free_cells].
    apply (Permutation_cons_inv (a := a + n)).
    transitivity (out ++ l1 ++ a + n :: l2); [solve_Permutation|]. rewrite HF. solve_Permutation.
Qed.

Lemma mark_magic u : Z.land (mark u) RT_MEMHEAP_MASK = RT_MEMHEAP_MAGIC.
Proof. by destruct u. Qed.

Lemma free_bytes_used b1 n b2 : free_bytes (b1 ++ (n, false) :: b2) = free_bytes (b1 ++ (n, true) :: b2) + (n - 24).
Proof. rewrite !free_bytes_app. cbn. lia. Qed.

(** The checks and the first assignments of [rt_memheap_free]. *)
Lemma memheap_free_start h b1 n b2 fl a : a = start_addr h + total b1 -> tiled h (b1 ++ (n, true) :: b2) fl [] ->
  exists h1, tiled h1 (b1 ++ (n, false) :: b2) fl [a] /\ same_pool h h1 /\
    rt_memheap_free (a + 24) h =
      (r <- merge_left a;; merge_right (fst r);;; when (snd r) (insert_free (fst r))) h1.
Proof.
  intros Ea HI. pose proof (tiling_bounds HI) as (_ & _ & Hn & _ & Ha & _ & H32 & _).
  pose proof (tiling_marked HI) as [Hm Hp]. rewrite <- Ea in Hm, Hp.
  pose proof (tiling_next HI) as Hnx. rewrite <- Ea in Hnx. pose proof (mv_lay HI) as HL.
  rewrite tiling_cells, <- Ea in HL.
  assert (Hm2 : field mi_magic (mh_items h) (a + n) = Some (mark (head_used b2))).
  { destruct (all_cells_head (a + n) b2) as [c Ec]. rewrite Ec in HL.
    apply (lay_marked h (cells (start_addr h) b1 ++ [(a, true)]) _ (head_used b2) c fl). by rewrite <- app_assoc. }
  destruct (mark_lay _ _ _ _ false _ _ (fun i => set_mi_magic (Z.land (mi_magic i) (not32 RT_MEMHEAP_USED)) i) HL)
    as (it & E & HL1); [done|by intros i ->|].
  destruct (tiled_grow _ _ _ _ _ (b1 ++ (n, false) :: b2) fl [a] (available_size h + (n - 24)) it HI eq_refl) as [HS HT].
  { by rewrite (mv_avail HI), free_bytes_used. }
  { rewrite (mv_avail HI). lia. }
  { by rewrite !total_app. }
  { pose proof (mv_blk HI) as Hok. rewrite Forall_app, Forall_cons in *. done. }
  { by rewrite tiling_cells, <- Ea. }
  { pose proof (mv_free HI) as HF. rewrite tiling_cells, <- Ea, free_cells_app in HF.
    rewrite tiling_cells, <- Ea, free_cells_app. cbn [free_cells app] in *. rewrite HF. solve_Permutation. }
  eexists. split; [exact HT|]. split; [exact HS|]. unfold rt_memheap_free, RT_MEMHEAP_SIZE.
  rewrite (proj2 (Z.eqb_neq (a + 24) 0)) by lia. replace (a + 24 - 24) with a by lia.
  rewrite (after (fld_done _ _ _ _ Hm)), mark_magic, Z.eqb_refl. cbn [rt_assert]. mstep.
  change (nz (Z.land (mark true) RT_MEMHEAP_USED)) with true. cbn [rt_assert]. mstep.
  rewrite (after (fld_done _ _ _ _ Hnx)), (after (fld_done _ _ _ _ Hm2)), mark_magic, Z.eqb_refl. cbn [rt_assert]. mstep.
  rewrite (after (fld_done _ _ _ _ Hp)). unfold nz. rewrite (proj2 (Z.eqb_neq _ _) (proj1 (mv_self HI))). cbn [negb rt_assert].
  do 2 mstep. rewrite Z.eqb_refl. cbn [negb]. rewrite (after (is_memheap_done _ _ _ _ HI)), (after E).
  rewrite (bind_done (MEMITEM_SIZE a) _ _ (n - 24) (with_items it h)); [by do 2 mstep|].
  apply MEMITEM_SIZE_done; [|lia]. destruct (all_cells_head (a + n) b2) as [c Ec]. rewrite Ec in HL1.
  by apply lay_next in HL1 as [? _].
Qed.

Lemma rt_memheap_free_spec h b1 n b2 fl : memheap_inv h (b1 ++ (n, true) :: b2) fl ->
  exists h' fl', rt_memheap_free (start_addr h + total b1 + 24) h = Done tt h' /\ same_pool h h' /\
    memheap_inv h' (plug b1 n b2) fl'.
Proof.
  intros [HI HC]. destruct (memheap_free_start _ _ _ _ _ _ eq_refl HI) as (h1 & HI1 & HS1 & ->).
  assert (Es : start_addr h1 = start_addr h) by apply HS1.
  rewrite <- Es in *. destruct (merge_left_spec _ _ _ _ _ _ eq_refl HI1) as (h2 & B1 & N & ins & E2 & HS2 & HI2 & EP).
  rewrite (after E2). cbn [fst snd].
  assert (Es2 : start_addr h2 = start_addr h1) by apply HS2. rewrite <- Es2 in *.
  destruct (merge_right_spec h2 B1 N b2 fl (if ins then [start_addr h2 + total B1] else []) _ eq_refl)
    as (h3 & fl3 & E3 & HS3 & HI3); [destruct ins; auto|exact HI2|].
  rewrite (after E3), EP.
  assert (HS : same_pool h h3) by (unfold same_pool in *; intuition congruence).
  assert (HC' : coalesced (plug b1 n b2)).
  { apply coalesced_app_iff in HC as (C1 & C2 & _). apply plug_coalesced; [done|].
    by apply (coalesced_app_iff [(n, true)]) in C2 as (_ & ? & _). }
  rewrite EP in HC'. destruct ins; cbn [when].
  - assert (start_addr h3 = start_addr h2) as Es3 by apply HS3. rewrite <- Es3 in *.
    destruct (insert_free_lay _ _ _ (start_addr h3 + total B1) (mv_lay HI3)) as (it & E4 & HL4).
    + apply HI3.
    + apply tiling_in.
    + by eapply tiled_out.
    + eexists _, _. split; [exact E4|]. split; [done|]. split; [|done].
      eapply tiled_keep; [exact HI3|done|done|apply HI3|exact HL4| |apply HI3|apply HI3]. apply HI3.
  - exists h3, fl3. split; [done|]. split; [done|]. by split.
Qed.

(** ** rt_memheap_realloc *)

Lemma free_in_list h b1 n u m b2 fl a : a = start_addr h + total b1 ->
  tiled h (b1 ++ (n, u) :: (m, false) :: b2) fl [] ->
  exists l1 l2 c, fl = l1 ++ a + n :: l2 /\ all_cells (a + n + m) b2 = (a + n + m, head_used b2) :: c /\
    lay h (cells (start_addr h) b1 ++ (a, u) :: (a + n, false) :: (a + n + m, head_used b2) :: c) (l1 ++ a + n :: l2) /\
    l1 ++ l2 ≡ₚ free_cells (cells (start_addr h) b1 ++ [(a, u)]) ++ free_cells (all_cells (a + n + m) b2).
Proof.
  intros Ea HI. assert (EB : b1 ++ (n, u) :: (m, false) :: b2 = (b1 ++ [(n, u)]) ++ (m, false) :: b2) by (by rewrite <- app_assoc).
  rewrite EB in HI. destruct (free_block_lists _ _ _ _ _ (a + n) HI) as (l1 & l2 & c & -> & Ec & HL & HP & _).
  { rewrite total_app. cbn. lia. }
  exists l1, l2, c. rewrite cells_app, <- app_assoc, <- Ea in HL. rewrite cells_app, <- Ea in HP. done.
Qed.

(** Taking a block [y] out of the ring by its own links. *)
Lemma drop_block h c1 x u y w b v c2 fl : lay h (c1 ++ (x, u) :: (y, w) :: (b, v) :: c2) fl ->
  exists it, (forall B (k : M rt_memheap B),
      (n <- fld mi_next y;; p <- fld mi_prev y;; fput n (set_mi_prev p);;;
       p <- fld mi_prev y;; n <- fld mi_next y;; fput p (set_mi_next n);;; k) h = k (with_items it h)) /\
    lay (with_items it h) (c1 ++ (x, u) :: (b, v) :: c2) fl.
Proof.
  intros HL. destruct (lay_next _ _ _ _ _ _ _ _ HL) as [_ Hp]. pose proof HL as HL'.
  change (c1 ++ (x, u) :: (y, w) :: (b, v) :: c2) with (c1 ++ [(x, u)] ++ (y, w) :: (b, v) :: c2) in HL'.
  rewrite app_assoc in HL'. destruct (lay_next _ _ _ _ _ _ _ _ HL') as [Hn _].
  destruct (lay_distinct2 _ _ _ _ _ _ _ _ _ _ HL) as [Hxb Hyb]. pose proof (lay_distinct _ _ _ _ _ _ _ _ HL) as Hxy.
  assert (is_Some (mh_items h !! x)) by (eapply lay_dom; [exact HL|rewrite fmap_app; set_solver]).
  assert (is_Some (mh_items h !! b)) by (eapply lay_dom; [exact HL|rewrite fmap_app; set_solver]).
  eexists. split.
  - intros B k. fload. fload. fstore. fload. fload. fstore. reflexivity.
  - eapply bypass_lay; [done|..]; intros q; flds; done.
Qed.

(** [realloc_expand] on the two lists, wherever the new free block comes to lie. *)
Lemma realloc_expand_lay h b1 o m b2 fl ns new a : a = start_addr h + total b1 ->
  tiled h (b1 ++ (o, true) :: (m, false) :: b2) fl [] -> new = u32 (a + 24 + ns) ->
  new ∉ (all_cells (start_addr h) (b1 ++ (o, true) :: (m, false) :: b2)).*1 -> new ∉ free_header h :: fl ->
  let v := available_size h - (ns - (o - 24)) in
  exists it fl', realloc_expand a (a + 24) (o - 24) ns h = Done tt (with_items it (take_available v h)) /\
    lay (with_items it (take_available v h))
      (cells (start_addr h) b1 ++ (a, true) :: (new, false) :: all_cells (a + o + m) b2) (new :: fl') /\
    fl' ≡ₚ free_cells (cells (start_addr h) b1) ++ free_cells (all_cells (a + o + m) b2).
Proof.
  intros Ea HI En Hf1 Hf2 v.
  destruct (free_in_list _ _ _ _ _ _ _ _ Ea HI) as (l1 & l2 & c & -> & Ec & HL & HP).
  pose proof (mv_self HI) as (_ & _ & Hl).
  pose proof (lay_take v _ _ _ HL) as HL0. destruct (unlink_free_lay _ _ _ _ _ HL0) as (it1 & E1 & HL1).
  destruct (drop_block _ _ _ _ _ _ _ _ _ _ HL1) as (it2 & E2 & HL2).
  rewrite tiling_cells, all_cells_cons, <- Ea, Ec, fmap_app in Hf1. cbn in Hf1.
  destruct (split_off_lay _ _ _ _ _ _ _ _ new HL2) as (it3 & E3 & HL3).
  { rewrite fmap_app. cbn. set_solver. }
  { cbn. set_solver. }
  destruct (insert_free_lay _ _ _ new HL3 Hl) as (it4 & E4 & HL4); [rewrite fmap_app; set_solver|cbn; set_solver|].
  exists it4, (l1 ++ l2). split_and!.
  - unfold realloc_expand. assert (Hnx : field mi_next (mh_items h) a = Some (a + o)) by (by apply lay_next in HL as [? _]).
    rewrite (after (fld_done _ _ _ _ Hnx)). do 2 mstep. fold v. rewrite (after E1), E2, <- En, (after E3). exact E4.
  - rewrite Ec. exact HL4.
  - rewrite HP, free_cells_app. cbn [free_cells]. by rewrite app_nil_r.
Qed.

Lemma realloc_expand_spec h b1 o m b2 fl ns a : a = start_addr h + total b1 ->
  tiled h (b1 ++ (o, true) :: (m, false) :: b2) fl [] -> ns mod 4 = 0 -> o - 24 < ns -> ns + 12 < (o - 24) + (m - 24) ->
  exists h' fl', realloc_expand a (a + 24) (o - 24) ns h = Done tt h' /\ same_pool h h' /\
    tiled h' (b1 ++ (ns + 24, true) :: (o + m - ns - 24, false) :: b2) fl' [].
Proof.
  intros Ea HI Hn4 Hlt Hfit.
  pose proof (tiling_bounds HI) as (_ & [[Hm Hm4] B2]%Forall_cons & Ho & Ho4 & Ha & _ & _ & Ht & He). cbn in Hm, Hm4, Ht, He.
  pose proof (mv_pool HI) as (_ & _ & H32 & _). rewrite <- Ea in Ha, He.
  pose proof (total_nonneg _ (mblk_blk _ B2)) as Hb2. set (new := a + 24 + ns).
  assert (EB : b1 ++ (o, true) :: (m, false) :: b2 = (b1 ++ [(o, true)]) ++ (m, false) :: b2) by (by rewrite <- app_assoc).
  pose proof HI as HI'. rewrite EB in HI'. destruct (tiling_fresh HI' new) as [Hf1 Hf2].
  { rewrite total_app. cbn. lia. }
  rewrite <- EB in Hf1.
  destruct (realloc_expand_lay _ _ _ _ _ _ ns new _ Ea HI) as (it & fl' & E & HL & HP); [by rewrite u32_small by lia|done|done|].
  set (v := available_size h - (ns - (o - 24))) in *.
  set (bs' := b1 ++ (ns + 24, true) :: (o + m - ns - 24, false) :: b2).
  assert (HT : total bs' = total (b1 ++ (o, true) :: (m, false) :: b2)).
  { unfold bs'. rewrite !total_app. cbn. lia. }
  assert (HB : Forall mblk_ok bs').
  { pose proof (mv_blk HI) as Hok. unfold bs'. rewrite Forall_app, !Forall_cons in *. unfold mblk_ok. cbn.
    split_and!; try apply Hok; try lia; Z.div_mod_to_equations; lia. }
  destruct (max_used_keep _ _ _ _ v bs' HI) as [HA HM]; [|done|done|].
  { unfold v, bs'. rewrite (mv_avail HI), !free_bytes_app. cbn. lia. }
  assert (EC : all_cells (start_addr h) bs' = cells (start_addr h) b1 ++ (a, true) :: (new, false) :: all_cells (a + o + m) b2).
  { unfold bs'. rewrite tiling_cells, all_cells_cons, <- Ea. unfold new. do 3 f_equal; f_equal; lia. }
  exists (with_items it (take_available v h)), (new :: fl'). split; [done|]. split; [done|].
  eapply tiled_keep; [exact HI|done|exact HT|exact HB|by rewrite EC| |exact HA|exact HM].
  rewrite EC, free_cells_app. cbn [free_cells app]. rewrite HP. solve_Permutation.
Qed.

(** The end of [realloc_shrink]: the rest of the block goes to the free list. *)
Lemma shrink_finish h c1 new N v c2 fl : lay h (c1 ++ (new, false) :: (new + N, v) :: c2) fl ->
  free_list h = free_header h -> new ∉ free_header h :: fl -> 24 <= N < 2 ^ 32 ->
  exists it, (insert_free new;;; a <- gets available_size;; s <- MEMITEM_SIZE new;; modify (set_available (a + s))) h =
      Done tt (set_available (available_size h + (N - 24)) (with_items it h)) /\
    lay (with_items it h) (c1 ++ (new, false) :: (new + N, v) :: c2) (new :: fl).
Proof.
  intros HL Hl Hf HN. destruct (insert_free_lay _ _ _ new HL Hl) as (it & E & HL1); [rewrite fmap_app; set_solver|done|].
  exists it. split; [|done]. rewrite (after E). mstep.
  rewrite (bind_done (MEMITEM_SIZE new) _ _ (N - 24) (with_items it h)); [done|].
  apply MEMITEM_SIZE_done; [|done]. by apply lay_next in HL1 as [? _].
Qed.

Lemma shrink_tiled h b1 o b2 fl ns a new N B2 x it fl2 h' : tiled h (b1 ++ (o, true) :: b2) fl [] ->
  h' = with_items it (set_available x h) ->
  a = start_addr h + total b1 -> new = a + ns + 24 -> 12 <= ns -> ns mod 4 = 0 -> mblk_ok (N, false) ->
  Forall mblk_ok B2 -> ns + 24 + N + total B2 = o + total b2 ->
  x = free_bytes b1 + (N - 24) + free_bytes B2 -> free_bytes b2 <= N - 24 + free_bytes B2 ->
  lay (with_items it h) (cells (start_addr h) b1 ++ (a, true) :: (new, false) :: all_cells (new + N) B2) (new :: fl2) ->
  fl2 ≡ₚ free_cells (cells (start_addr h) b1) ++ free_cells (all_cells (new + N) B2) ->
  same_pool h h' /\ tiled h' (b1 ++ (ns + 24, true) :: (N, false) :: B2) (new :: fl2) [].
Proof.
  intros HI -> Ea En Hns Hn4 HN HB HT Hx Hle HL HP.
  assert (EC : all_cells (start_addr h) (b1 ++ (ns + 24, true) :: (N, false) :: B2) =
    cells (start_addr h) b1 ++ (a, true) :: (new, false) :: all_cells (new + N) B2).
  { rewrite tiling_cells, all_cells_cons, <- Ea. replace (a + (ns + 24)) with new by lia. done. }
  eapply tiled_grow; [exact HI|done|..].
  - rewrite free_bytes_app. cbn. lia.
  - rewrite free_bytes_app. cbn. lia.
  - rewrite !total_app. cbn. lia.
  - pose proof (mv_blk HI) as Hok. rewrite Forall_app, !Forall_cons in *. split_and!; try done; [apply Hok|].
    split; cbn; [lia|]. Z.div_mod_to_equations; lia.
  - by rewrite EC.
  - rewrite EC, free_cells_app. cbn [free_cells app]. rewrite HP. solve_Permutation.
Qed.

Lemma realloc_shrink_spec h b1 o b2 fl ns a : a = start_addr h + total b1 ->
  tiled h (b1 ++ (o, true) :: b2) fl [] -> ns mod 4 = 0 -> 12 <= ns -> ns + 60 < o ->
  exists h' fl', realloc_shrink a ns h = Done tt h' /\ same_pool h h' /\
    tiled h' (b1 ++ (ns + 24, true) :: ((join_next (o - ns - 24) b2).1, false) :: (join_next (o - ns - 24) b2).2) fl' [].
Proof.
  intros Ea HI Hn4 Hn Ho. pose proof (tiling_bounds HI) as (_ & B2 & _ & Ho4 & Ha & _ & _ & Ht & He). rewrite <- Ea in Ha, He.
  pose proof (mv_pool HI) as (_ & _ & H32 & _). pose proof (mv_self HI) as (_ & _ & Hl).
  pose proof (mv_lay HI) as HL. rewrite tiling_cells, <- Ea in HL. set (new := a + ns + 24).
  destruct (tiling_fresh HI new) as [Hf1 Hf2]; [lia|]. rewrite tiling_cells, <- Ea in Hf1.
  destruct (all_cells_head (a + o) b2) as [c Ec]. rewrite Ec in HL, Hf1.
  destruct (split_off_lay _ _ _ _ _ _ _ _ new HL Hf1 Hf2) as (it1 & E1 & HL1).
  assert (HL1' : lay (with_items it1 h) ((cells (start_addr h) b1 ++ [(a, true)]) ++ (new, false) :: (a + o, head_used b2) :: c) fl)
    by (by rewrite <- app_assoc).
  assert (Hn1 : field mi_next it1 new = Some (a + o)) by (by apply lay_next in HL1' as [? _]).
  assert (Hm1 : field mi_magic it1 (a + o) = Some (mark (head_used b2))).
  { apply (lay_marked (with_items it1 h) ((cells (start_addr h) b1 ++ [(a, true)]) ++ [(new, false)]) _ _ c fl).
    by rewrite <- app_assoc. }
  unfold realloc_shrink, RT_MEMHEAP_SIZE. fold new. rewrite (after E1).
  rewrite (bind_done (fld _ _) _ _ _ _ (fld_done mi_next new (a + o) (with_items it1 h) Hn1)).
  rewrite (bind_done (RT_MEMHEAP_IS_USED _) _ _ _ _ (RT_MEMHEAP_IS_USED_done _ _ (with_items it1 h) Hm1)).
  destruct (head_used b2) eqn:Hu; cbn [negb when].
  - mstep. replace (a + o) with (new + (o - ns - 24)) in HL1' by (unfold new; lia).
    destruct (shrink_finish _ _ _ _ _ _ _ HL1' Hl Hf2) as (it2 & E2 & HL2); [lia|].
    assert (join_next (o - ns - 24) b2 = (o - ns - 24, b2)) as -> by (by destruct b2 as [|[? []] ?]). cbn [fst snd].
    eexists _, _. split; [exact E2|]. cbn [available_size with_items].
    eapply (shrink_tiled _ _ _ _ _ _ a new); [exact HI|reflexivity|exact Ea|done|lia|done|by split; cbn; [lia|Z.div_mod_to_equations; lia]|done|lia| |lia| |].
    + rewrite (mv_avail HI), free_bytes_app. cbn. lia.
    + replace (new + (o - ns - 24)) with (a + o) in * by (unfold new; lia). rewrite Ec.
      rewrite <- app_assoc in HL2. exact HL2.
    + replace (new + (o - ns - 24)) with (a + o) in * by (unfold new; lia).
      pose proof (mv_free HI) as HF. by rewrite tiling_cells, <- Ea, free_cells_app in HF.
  - destruct b2 as [|[m []] b2]; [done..|]. cbn [join_next fst snd head_used] in *.
    destruct (free_in_list _ _ _ _ _ _ _ _ Ea HI) as (l1 & l2 & c' & -> & Ec' & _ & HP).
    rewrite all_cells_cons, Ec' in Ec. injection Ec as <-. apply Forall_cons in B2 as [[Hm Hm4] B2]. cbn in Hm, Hm4, Ht, He.
    pose proof (total_nonneg _ (mblk_blk _ B2)) as Hb2.
    assert (Hs : MEMITEM_SIZE (a + o) (with_items it1 h) = Done (m - 24) (with_items it1 h)).
    { apply MEMITEM_SIZE_done; [|lia]. change ((new, false) :: ?l) with ([(new, false)] ++ l) in HL1'.
      rewrite app_assoc in HL1'. by apply lay_next in HL1' as [? _]. }
    set (h1 := set_available (available_size h - (m - 24)) (with_items it1 h)).
    assert (HL2 : lay h1 ((cells (start_addr h) b1 ++ [(a, true)]) ++ (new, false) :: (a + o, false) ::
                          (a + o + m, head_used b2) :: c') (l1 ++ a + o :: l2)) by (by apply lay_set).
    destruct (join_right _ _ _ _ _ _ _ _ _ _ HL2) as (it2 & E2 & HL3).
    replace (a + o + m) with (new + (o - ns - 24 + m)) in HL3 by (unfold new; lia).
    destruct (shrink_finish _ _ _ _ _ _ _ HL3 Hl) as (it3 & E3 & HL4); [cbn; set_solver|lia|].
    eexists _, _. split.
    { erewrite bind_done; [exact E3|].
      rewrite (bind_done (fld _ _) _ _ _ _ (fld_done mi_next new (a + o) (with_items it1 h) Hn1)). mstep.
      rewrite (after Hs). mstep. exact E2. }
    eapply (shrink_tiled _ _ _ _ _ _ a new _ _ _ it3 (l1 ++ l2)); [exact HI|reflexivity|exact Ea|done|lia|done| |done|cbn; lia| |cbn; lia| |].
    + split; cbn; [lia|Z.div_mod_to_equations; lia].
    + cbn. pose proof (mv_avail HI) as Hav. rewrite free_bytes_app in Hav. cbn in Hav.
      pose proof (free_bytes_bounds _ (mv_blk HI)) as Hfb. rewrite free_bytes_app in Hfb. cbn in Hfb.
      pose proof (mv_blk HI) as [B1 _]%Forall_app. pose proof (free_bytes_bounds _ B1). pose proof (free_bytes_bounds _ B2).
      pose proof (mv_pool HI) as (_ & _ & _ & Hps). rewrite total_app in *. cbn in *. rewrite u32_small; lia.
    + replace (new + (o - ns - 24 + m)) with (a + o + m) in * by (unfold new; lia). rewrite Ec'.
      rewrite <- app_assoc in HL4. destruct HL4. by split.
    + replace (new + (o - ns - 24 + m)) with (a + o + m) in * by (unfold new; lia).
      rewrite free_cells_app in HP. cbn in HP. by rewrite app_nil_r in HP.
Qed.

(** ** What the calls promise *)

(** The memory handed out: address and length of the payload of every used block. *)
Fixpoint payloads (p : Z) (bs : list blk) : list (Z * Z) :=
  match bs with
  | [] => []
  | (n, u) :: bs => (if (u : bool) then [(p + 24, n - 24)] else []) ++ payloads (p + n) bs
  end.

Lemma payloads_regions p bs : payloads p bs = (fun r => (r.1 + 12, r.2 - 12)) <$> regions p bs.
Proof.
  revert p. induction bs as [|[n []] bs IH]; intros p; cbn; [done| |apply IH]. rewrite IH. do 2 f_equal; lia.
Qed.

Lemma payloads_app p b1 b2 : payloads p (b1 ++ b2) = payloads p b1 ++ payloads (p + total b1) b2.
Proof. by rewrite !payloads_regions, regions_app, fmap_app. Qed.

Lemma payloads_plug p b1 n b2 : payloads p (plug b1 n b2) = payloads p b1 ++ payloads (p + total b1 + n) b2.
Proof. by rewrite !payloads_regions, regions_plug, fmap_app. Qed.

Lemma payloads_inv p bs q k : (q, k) ∈ payloads p bs ->
  exists b1 n b2, bs = b1 ++ (n, true) :: b2 /\ q = p + total b1 + 24 /\ k = n - 24.
Proof.
  rewrite payloads_regions. intros ([q' k'] & [= -> ->] & (b1 & n & b2 & -> & -> & ->)%regions_inv)%list_elem_of_fmap.
  exists b1, n, b2. split_and!; [done|lia|lia].
Qed.

Lemma payloads_bounds p bs q k : Forall mblk_ok bs -> (q, k) ∈ payloads p bs ->
  p + 24 <= q /\ 12 <= k /\ q + k <= p + total bs.
Proof.
  intros Hok (b1 & n & b2 & -> & -> & ->)%payloads_inv.
  apply Forall_app in Hok as [H1 [[Hn _] H2]%Forall_cons]. cbn in Hn.
  apply mblk_blk, total_nonneg in H1, H2. rewrite total_app. cbn. lia.
Qed.

Lemma payloads_mid p b1 n b2 : (p + total b1 + 24, n - 24) ∈ payloads p (b1 ++ (n, true) :: b2).
Proof. rewrite payloads_app. cbn. set_solver. Qed.

Lemma payloads_take p n s b2 : s + 24 <= n ->
  exists k, s <= k <= n - 24 /\ payloads p (take_block n s ++ b2) = (p + 24, k) :: payloads (p + n) b2.
Proof.
  intros. unfold take_block. destruct (s + 60 <=? n); cbn.
  - exists (s + 24 - 24). split; [lia|]. do 2 f_equal. lia.
  - exists (n - 24). split; [lia|]. done.
Qed.

Lemma memheap_size_ok size : 0 < size -> size + 3 < 2 ^ 32 ->
  12 <= memheap_size size /\ size <= memheap_size size /\ memheap_size size mod 4 = 0.
Proof. apply malloc_size_ok. Qed.

Lemma payloads_apart p bs r1 r2 : Forall mblk_ok bs -> r1 ∈ payloads p bs -> r2 ∈ payloads p bs ->
  r1 = r2 \/ disjoint r1 r2.
Proof.
  intros Hok Hr1 Hr2. destruct r1 as [q1 k1], r2 as [q2 k2].
  apply payloads_inv in Hr1 as (b1 & n1 & c1 & -> & -> & ->).
  pose proof Hok as [H1 [[Hn1 _] H2]%Forall_cons]%Forall_app. cbn in Hn1.
  rewrite payloads_app in Hr2. cbn [payloads app] in Hr2.
  apply elem_of_app in Hr2 as [Hr|[[= -> ->]|Hr]%elem_of_cons]; [|by left|].
  - right. unfold disjoint. cbn. pose proof (payloads_bounds _ _ _ _ H1 Hr). lia.
  - right. unfold disjoint. cbn. pose proof (payloads_bounds _ _ _ _ H2 Hr). lia.
Qed.

Lemma memheap_alloc_done h bs fl size :
  memheap_inv h bs fl -> 0 < size -> size + 3 < 2 ^ 32 ->
  exists p h' bs' fl', rt_memheap_alloc size h = Done p h' /\ memheap_inv h' bs' fl' /\ same_pool h h' /\
    ((p = 0 /\ h' = h /\ bs' = bs /\
      (available_size h <= memheap_size size \/
       forall b1 n b2, bs = b1 ++ (n, false) :: b2 -> n - 24 < memheap_size size)) \/
     (p mod 4 = 0 /\ exists l1 n l2, size <= n /\
        payloads (start_addr h) bs = l1 ++ l2 /\ payloads (start_addr h) bs' = l1 ++ (p, n) :: l2)).
Proof.
  intros HI H0 H32. destruct (memheap_size_ok size H0 H32) as (Hs & Hs' & Hs4).
  destruct (rt_memheap_alloc_spec h bs fl size _ HI eq_refl Hs Hs4)
    as [[E Hno]|(h' & fl' & b1 & n & b2 & -> & Hn & E & HS & HI')].
  { exists 0, h, bs, fl. split_and!; try done. left. split_and!; done. }
  exists (start_addr h + total b1 + 24), h', (b1 ++ take_block n (memheap_size size) ++ b2), fl'.
  split_and!; try done. right. pose proof (tiling_bounds (proj1 HI)) as (_ & _ & _ & _ & _ & H4 & _).
  split; [Z.div_mod_to_equations; lia|].
  destruct (payloads_take (start_addr h + total b1) n (memheap_size size) b2) as (k & Hk & Ek); [lia|].
  exists (payloads (start_addr h) b1), k, (payloads (start_addr h + total b1 + n) b2).
  split; [lia|]. split; [by rewrite payloads_app|]. by rewrite payloads_app, Ek.
Qed.

Lemma memheap_free_done h bs fl p n :
  memheap_inv h bs fl -> (p, n) ∈ payloads (start_addr h) bs ->
  exists h' bs' fl' l1 l2, rt_memheap_free p h = Done tt h' /\ memheap_inv h' bs' fl' /\ same_pool h h' /\
    payloads (start_addr h) bs = l1 ++ (p, n) :: l2 /\ payloads (start_addr h) bs' = l1 ++ l2.
Proof.
  intros HI (b1 & m & b2 & -> & -> & ->)%payloads_inv.
  destruct (rt_memheap_free_spec h b1 m b2 fl HI) as (h' & fl' & E & HS & HI').
  exists h', (plug b1 m b2), fl', (payloads (start_addr h) b1), (payloads (start_addr h + total b1 + m) b2).
  split_and!; try done; [by rewrite payloads_app|by rewrite payloads_plug].
Qed.

Lemma memheap_init_done h memheap header start size :
  memheap <> 0 -> 0 < start -> start mod 4 = 0 -> 60 <= size - size mod 4 -> start + size <= 2 ^ 32 ->
  header < start \/ start + size <= header ->
  let pool := size - size mod 4 in
  exists h', rt_memheap_init memheap header start size h = Done RT_EOK h' /\
    memheap_inv h' [(pool - 24, false)] [start] /\ start_addr h' = start /\ pool_size h' = pool /\
    mh_data h' = mh_data h.
Proof.
  intros Hm Hs Hs4 Hp H32 Hh pool. unfold rt_memheap_init. rewrite nz_true by done. cbn [rt_assert]. mstep.
  assert (0 <= size mod 4 < 4) by (apply Z.mod_pos_bound; lia).
  rewrite RT_ALIGN_DOWN_spec by lia. fold pool. unfold RT_MEMHEAP_SIZE.
  rewrite (u32_small (pool - 2 * 24)) by lia. set (avail := pool - 2 * 24). set (tailer := start + avail + 24).
  rewrite u32_small by lia. do 3 mstep.
  assert (header <> start /\ tailer <> start /\ tailer <> header) as (N1 & N2 & N3) by (unfold tailer, avail; lia).
  match goal with |- context [bind (insert_free start) _ ?s] => set (h1 := s) end.
  destruct (insert_free_done h1 [] start) as (it & E & HB & HF).
  { done. }
  { split; [apply NoDup_singleton|]. cbn. rewrite get_next_frees, get_prev_frees. cbn. fields. by fcase. }
  { cbn. by rewrite lookup_insert_eq. }
  { cbn. set_solver. }
  rewrite (after E). assert (Ht : field mi_next (mh_items (with_items it h1)) start = Some tailer).
  { cbn. destruct (HB start) as (_ & _ & -> & _). cbn. fields. by fcase. }
  rewrite (after (fld_done _ _ _ _ Ht)). mstep. eexists. split; [reflexivity|]. split; [|done].
  assert (Ec : all_cells start [(pool - 24, false)] = [(start, false); (tailer, true)]).
  { unfold all_cells, tailer, avail. cbn. do 3 f_equal. lia. }
  assert (HS : forall f i, field f (<[tailer := i]> it) start = field f it start) by (intros; fields; by fcase).
  split; [|done]. split; cbn [mh_self mh_type start_addr pool_size available_size max_used_size block_list
    free_list free_header mh_items mh_data with_items h1 total free_bytes].
  - split; [done|]. split; [|done]. by vm_compute.
  - split_and!; try done; unfold pool; lia.
  - unfold pool. lia.
  - apply Forall_singleton. split; cbn; [unfold pool; lia|]. unfold pool. Z.div_mod_to_equations. lia.
  - rewrite Ec. destruct (HB start) as (B1 & B2 & B3 & B4). cbn in B1, B2, B3, B4. split.
    + split; [cbn; apply NoDup_cons; split; [by rewrite list_elem_of_singleton|apply NoDup_singleton]|].
      cbn -[blocks_of get_next get_prev]. rewrite !get_next_blocks, !get_prev_blocks, !HS, B3, B4.
      rewrite !field_insert. by fcase.
    + eapply clist_same; [exact HF| |]; intros q Hq; rewrite ?get_next_frees, ?get_prev_frees; flds;
        rewrite decide_False; [done|cbn in Hq; set_solver|done|cbn in Hq; set_solver].
    + rewrite !marked_cons. cbn [mh_items mh_self with_items]. rewrite !HS, B1, B2. flds. fcase. split_and!; try done. constructor.
  - rewrite Ec. done.
  - unfold avail. lia.
  - unfold avail, pool. lia.
Qed.

Definition memheap_data_ok (h : rt_memheap) : Prop :=
  bytes_ok (mh_data h) /\ valid (mh_data h) (start_addr h) (pool_size h).

(** What [rt_memheap_realloc] promises: the block [q] takes the place of [p] among the live
    blocks, is large enough and starts with the bytes of the old one, and no byte outside it
    changes. *)
Definition memheap_realloc_ok (h : rt_memheap) (bs : list blk) (p old newsize q : Z) (h' : rt_memheap) (bs' : list blk) : Prop :=
  (q = 0 /\ h' = h /\ bs' = bs) \/
  exists n rest, payloads (start_addr h) bs ≡ₚ (p, old) :: rest /\ payloads (start_addr h) bs' ≡ₚ (q, n) :: rest /\
    newsize <= n /\
    (forall i, 0 <= i < Z.min old newsize -> mh_data h' !! (q + i) = mh_data h !! (p + i)) /\
    (forall x, x < q \/ q + n <= x -> mh_data h' !! x = mh_data h !! x).

Lemma coalesced_flags bs bs' : bs.*2 = bs'.*2 -> coalesced bs -> coalesced bs'.
Proof.
  revert bs'. induction bs as [|[n u] bs IH]; intros [|[n' u'] bs']; [done..|].
  intros [= <- E] H. destruct bs as [|[m v] bs], bs' as [|[m' v'] bs']; try done.
  destruct H as [H1 H2]. injection E as <- E. split; [done|]. apply IH; [cbn; by f_equal|done].
Qed.

Lemma realloc_expand_coalesced b1 o m b2 x y :
  coalesced (b1 ++ (o, true) :: (m, false) :: b2) -> coalesced (b1 ++ (x, true) :: (y, false) :: b2).
Proof. apply coalesced_flags. by rewrite !fmap_app. Qed.

Lemma realloc_shrink_coalesced b1 o b2 x N : coalesced (b1 ++ (o, true) :: b2) ->
  coalesced (b1 ++ (x, true) :: ((join_next N b2).1, false) :: (join_next N b2).2).
Proof.
  intros (H1 & H2 & _)%coalesced_app_iff. apply coalesced_app_iff. split_and!; [done| |].
  - apply (coalesced_app_iff [(o, true)]) in H2 as (_ & H2 & _). destruct (join_next N b2) as [n' b2'] eqn:E.
    split; [done|]. by eapply join_next_coalesced.
  - unfold sep. destruct (last b1) as [[? ?]|]; [|done]. cbn. apply orb_true_r.
Qed.

Lemma payloads_join p N b2 :
  payloads p (((join_next N b2).1, false) :: (join_next N b2).2) = payloads (p + N) b2.
Proof. destruct b2 as [|[m []] b2]; cbn; [done..|]. f_equal. lia. Qed.

Lemma payloads_NoDup p bs : Forall mblk_ok bs -> NoDup (payloads p bs).
Proof.
  intros H. revert p. induction H as [|[n []] bs [Hn _] Hok IH]; intros p; cbn; [constructor| |apply IH].
  constructor; [|apply IH]. intros Hin. pose proof (payloads_bounds _ _ _ _ Hok Hin). cbn in Hn. lia.
Qed.

Lemma memheap_inv_data d h bs fl : memheap_inv h bs fl -> memheap_inv (set_mh_data d h) bs fl.
Proof. intros [[? ? ? ? [? ? ?] ? ? ?] ?]. by repeat (split; try done). Qed.

(** The part of [rt_memheap_realloc] that moves the block. *)
Lemma memheap_move h b1 o b2 fl ns p : memheap_inv h (b1 ++ (o, true) :: b2) fl -> memheap_data_ok h ->
  12 <= ns -> ns + 3 < 2 ^ 32 -> p = start_addr h + total b1 + 24 ->
  exists q h' bs' fl',
    (new_ptr <- rt_memheap_alloc ns;;
     when (nz new_ptr) (memheap_memcpy new_ptr p (Z.min (o - 24) ns);;; rt_memheap_free p);;; ret new_ptr) h = Done q h' /\
    memheap_inv h' bs' fl' /\ start_addr h' = start_addr h /\ memheap_data_ok h' /\
    memheap_realloc_ok h (b1 ++ (o, true) :: b2) p (o - 24) ns q h' bs'.
Proof.
  intros HI HD Hns H32 Ep. set (bs := b1 ++ (o, true) :: b2) in *.
  destruct (memheap_alloc_done h bs fl ns HI) as (q & h1 & bs1 & fl1 & E & HI1 & HS & Hq); [lia|lia|].
  rewrite (after E). destruct Hq as [(-> & -> & -> & _)|(Hq4 & l1 & k & l2 & Hk & EP0 & EP1)].
  { exists 0, h, bs, fl. split_and!; try done. by left. }
  destruct HS as (S1 & S2 & S3 & S4 & S5 & S6 & S7 & S8).
  assert (Hp0 : (p, o - 24) ∈ payloads (start_addr h) bs) by (rewrite Ep; apply payloads_mid).
  assert (Hp1 : (p, o - 24) ∈ payloads (start_addr h) bs1) by (rewrite EP1; rewrite EP0 in Hp0; set_solver).
  assert (Hq1 : (q, k) ∈ payloads (start_addr h) bs1) by (rewrite EP1; set_solver).
  pose proof (mv_blk (proj1 HI1)) as Hok1. pose proof (mv_pool (proj1 HI)) as (Hst & _ & _ & _).
  pose proof (mv_pool (proj1 HI1)) as (_ & _ & _ & Htot). rewrite S4 in Htot.
  pose proof (payloads_bounds _ _ _ _ Hok1 Hp1) as Hpb. pose proof (payloads_bounds _ _ _ _ Hok1 Hq1) as Hqb.
  assert (Hne : (q, k) <> (p, o - 24)).
  { pose proof (payloads_NoDup (start_addr h) _ Hok1) as Hd. rewrite EP1 in Hd. rewrite EP0 in Hp0. intros Eq. rewrite <- Eq in Hp0.
    rewrite NoDup_app, NoDup_cons in Hd. set_solver. }
  destruct (payloads_apart _ _ _ _ Hok1 Hq1 Hp1) as [|Hap]; [done|]. unfold disjoint in Hap. cbn in Hap.
  destruct HD as [HD1 HD2].
  destruct (rt_memcpy_spec (mh_data h1) q p (Z.min (o - 24) ns)) as (d & Ed & Hc);
    [lia|by rewrite S8|rewrite S8; eapply valid_sub; [exact HD2|lia..]|rewrite S8; eapply valid_sub; [exact HD2|lia..]|lia|].
  destruct (memheap_free_done (set_mh_data d h1) bs1 fl1 p (o - 24) (memheap_inv_data d _ _ _ HI1))
    as (h2 & bs2 & fl2 & m1 & m2 & E2 & HI2 & HS2 & EP2 & EP3); [cbn; by rewrite S3|].
  cbn in EP2, EP3. rewrite S3 in EP2, EP3.
  exists q, h2, bs2, fl2. split.
  { rewrite nz_true by lia. cbn [when]. unfold bind at 1.
    rewrite (bind_done _ _ _ tt (set_mh_data d h1)) by (unfold memheap_memcpy; by rewrite Ed). by rewrite E2. }
  assert (mh_data h2 = d /\ start_addr h2 = start_addr h1 /\ pool_size h2 = pool_size h1) as (D1 & D2 & D3).
  { by destruct HS2 as (_ & _ & ? & ? & _ & _ & _ & ?). }
  split; [done|]. split; [congruence|]. split.
  { split; [rewrite D1|rewrite D1, D2, D3, S3, S4].
    - intros x v. rewrite (Hc x), S8. case_decide; apply HD1.
    - intros x Hx. rewrite (Hc x), S8. case_decide; apply HD2; lia. }
  right. apply elem_of_Permutation in Hp0 as [rest Hp0]. exists k, rest. split; [done|]. split.
  { apply (Permutation_cons_inv (a := (p, o - 24))). rewrite EP3, Permutation_middle, <- EP2, EP1, <- Permutation_middle, <- EP0, Hp0.
    constructor. }
  split; [done|]. rewrite D1. split; intros x Hx; rewrite (Hc _), S8; case_decide; try lia; [f_equal; lia|done].
Qed.

Lemma memheap_size_le size : 0 < size -> size + 3 < 2 ^ 32 -> memheap_size size <= Z.max 12 (size + 3).
Proof.
  intros H0 H32. unfold memheap_size, RT_ALIGN_SIZE, RT_MEMHEAP_MINIALLOC. rewrite RT_ALIGN_spec by lia.
  assert (0 <= (size + 3) mod 4) by (apply Z.mod_pos_bound; lia). zcase; lia.
Qed.

Lemma memheap_size_twice size : 0 < size -> size + 6 < 2 ^ 32 -> memheap_size (memheap_size size) = memheap_size size.
Proof.
  intros H0 H32. destruct (memheap_size_ok size) as (H1 & H2 & H3); [lia|lia|].
  pose proof (memheap_size_le size H0). unfold memheap_size at 1.
  unfold RT_ALIGN_SIZE. rewrite RT_ALIGN_aligned by lia. unfold RT_MEMHEAP_MINIALLOC. zcase; lia.
Qed.

(** [rt_memheap_realloc] of a used block, up to the choice of what to do. *)
Lemma memheap_realloc_cases h b1 o b2 fl newsize ns a :
  tiled h (b1 ++ (o, true) :: b2) fl [] -> a = start_addr h + total b1 -> newsize <> 0 ->
  ns = memheap_size newsize -> 12 <= ns ->
  rt_memheap_realloc (a + 24) newsize h =
    if o - 24 <? ns then
      if (negb (head_used b2) && (u32 (ns + 12) <? total (take 1 b2) - 24 + (o - 24)))%bool
      then (realloc_expand a (a + 24) (o - 24) ns;;; ret (a + 24)) h
      else (new_ptr <- rt_memheap_alloc ns;;
            when (nz new_ptr) (memheap_memcpy new_ptr (a + 24) (Z.min (o - 24) ns);;; rt_memheap_free (a + 24));;;
            ret new_ptr) h
    else if o - 24 <=? u32 (ns + 24 + 12) then Done (a + 24) h
    else (realloc_shrink a ns;;; ret (a + 24)) h.
Proof.
  intros HI Ea Hnz Ens Hns. unfold rt_memheap_realloc. rewrite (after (is_memheap_done _ _ _ _ HI)).
  pose proof (tiling_bounds HI) as (_ & B2 & Ho & Ho4 & Ha & _ & H32' & Ht & He). rewrite <- Ea in Ha, He, H32'.
  pose proof (mv_pool HI) as (_ & _ & Hp32 & _).
  rewrite (proj2 (Z.eqb_neq newsize 0) Hnz), <- Ens. unfold RT_MEMHEAP_SIZE, RT_MEMHEAP_MINIALLOC.
  rewrite (proj2 (Z.eqb_neq (a + 24) 0)) by lia. replace (a + 24 - 24) with a by lia.
  pose proof (tiling_next HI) as Hnx. rewrite <- Ea in Hnx.
  rewrite (bind_done (MEMITEM_SIZE a) _ _ (o - 24) h) by (apply MEMITEM_SIZE_done; [done|lia]).
  pose proof (mv_lay HI) as HL. rewrite tiling_cells, <- Ea in HL.
  destruct (Z.ltb_spec (o - 24) ns) as [Hlt|Hge]; [|by destruct (o - 24 <=? u32 _)].
  rewrite (after (fld_done _ _ _ _ Hnx)). rewrite (proj2 (Z.ltb_lt a (a + o))) by lia. cbn [rt_assert]. mstep.
  destruct (all_cells_head (a + o) b2) as [c Ec]. rewrite Ec in HL.
  assert (Hm : field mi_magic (mh_items h) (a + o) = Some (mark (head_used b2))).
  { apply (lay_marked h (cells (start_addr h) b1 ++ [(a, true)]) _ _ c fl). by rewrite <- app_assoc. }
  rewrite (after (RT_MEMHEAP_IS_USED_done _ _ _ Hm)).
  replace (Z.min (o - 24) ns) with (o - 24) by lia.
  destruct (head_used b2) eqn:Hu; cbn [negb andb]; [by mstep|].
  destruct b2 as [|[m []] b2]; [done..|]. cbn [take total]. apply Forall_cons in B2 as [[Hm36 _] B2]. cbn in Hm36, Ht, He.
  pose proof (total_nonneg _ (mblk_blk _ B2)).
  rewrite all_cells_cons in Ec. injection Ec as <-. destruct (all_cells_head (a + o + m) b2) as [c' Ec']. rewrite Ec' in HL.
  rewrite bind_assoc, (bind_done (MEMITEM_SIZE (a + o)) _ _ (m - 24) h).
  2: { apply MEMITEM_SIZE_done; [|lia]. change ((a, true) :: ?l) with ([(a, true)] ++ l) in HL.
       rewrite app_assoc in HL. by apply lay_next in HL as [? _]. }
  rewrite (proj2 (Z.ltb_lt 0 (a + o))) by lia. cbn [rt_assert]. do 3 mstep.
  replace (u32 (s32 (m - 24) + (o - 24))) with (m + 0 - 24 + (o - 24)); [by destruct (u32 (ns + 12) <? _)|].
  unfold u32. rewrite <- (Zplus_mod_idemp_l (s32 _)). fold (u32 (s32 (m - 24))). rewrite u32_s32.
  unfold u32. rewrite Zplus_mod_idemp_l, Z.mod_small; lia.
Qed.

(** A block resized where it is. *)
Lemma realloc_in_place h h' bs bs' p old ns newsize rest : same_pool h h' -> newsize <= ns ->
  payloads (start_addr h) bs ≡ₚ (p, old) :: rest -> payloads (start_addr h) bs' ≡ₚ (p, ns) :: rest ->
  memheap_data_ok h ->
  start_addr h' = start_addr h /\ memheap_data_ok h' /\ memheap_realloc_ok h bs p old newsize p h' bs'.
Proof.
  intros (_ & _ & S3 & S4 & _ & _ & _ & S8) Hn H1 H2 HD. split; [done|]. split; [unfold memheap_data_ok; by rewrite S3, S4, S8|].
  right. exists ns, rest. rewrite S8. by split_and!.
Qed.

Lemma memheap_realloc_done h bs fl p old newsize :
  memheap_inv h bs fl -> memheap_data_ok h -> (p, old) ∈ payloads (start_addr h) bs ->
  0 < newsize -> newsize + 40 < 2 ^ 32 ->
  exists q h' bs' fl', rt_memheap_realloc p newsize h = Done q h' /\ memheap_inv h' bs' fl' /\
    start_addr h' = start_addr h /\ memheap_data_ok h' /\ memheap_realloc_ok h bs p old newsize q h' bs'.
Proof.
  intros [HI HC] HD (b1 & o & b2 & -> & -> & ->)%payloads_inv H0 H32.
  destruct (memheap_size_ok newsize H0) as (Hs & Hs' & Hs4); [lia|]. pose proof (memheap_size_le newsize H0) as Hle.
  set (ns := memheap_size newsize) in *. set (a := start_addr h + total b1) in *.
  set (rest := payloads (start_addr h) b1 ++ payloads (a + o) b2).
  assert (HP : payloads (start_addr h) (b1 ++ (o, true) :: b2) ≡ₚ (a + 24, o - 24) :: rest).
  { rewrite payloads_app. cbn. fold a. unfold rest. solve_Permutation. }
  rewrite (memheap_realloc_cases h b1 o b2 fl newsize ns a HI) by (done || lia).
  rewrite (u32_small (ns + 12)), (u32_small (ns + 24 + 12)) by lia. replace (ns + 24 + 12) with (ns + 36) by lia.
  destruct (Z.ltb_spec (o - 24) ns) as [Hlt|Hge]; [|destruct (Z.leb_spec (o - 24) (ns + 36)) as [Hk|Hk]].
  - destruct (negb (head_used b2) && _)%bool eqn:Hb.
    + apply andb_prop in Hb as [Hb1 Hb2%Z.ltb_lt]. destruct b2 as [|[m []] b2]; [done..|].
      rewrite firstn_cons, take_0 in Hb2; cbn [total] in Hb2.
      destruct (realloc_expand_spec h b1 o m b2 fl ns a eq_refl HI Hs4 Hlt) as (h' & fl' & E & HS & HI'); [lia|].
      eexists (a + 24), h', _, fl'. rewrite (after E). split; [done|].
      split; [split; [exact HI'|by eapply realloc_expand_coalesced]|].
      eapply realloc_in_place; [done|exact Hs'|exact HP| |done].
      rewrite payloads_app. unfold rest. cbn. fold a. replace (ns + 24 - 24) with ns by lia.
      replace (a + (ns + 24) + (o + m - ns - 24)) with (a + o + m) by lia. solve_Permutation.
    + destruct (memheap_move h b1 o b2 fl ns (a + 24)) as (q & h' & bs' & fl' & E & HI' & HS & HD' & HR);
        [done|done|lia|lia|done|].
      exists q, h', bs', fl'. split_and!; try done. destruct HR as [HR|(n & r & R1 & R2 & R3 & R4 & R5)]; [by left|right].
      exists n, r. split_and!; try done; [lia|]. intros i Hi. apply R4. lia.
  - eexists (a + 24), h, _, fl. split; [done|]. split; [by split|].
    eapply realloc_in_place; [done| |exact HP|exact HP|done]. lia.
  - destruct (realloc_shrink_spec h b1 o b2 fl ns a eq_refl HI Hs4 Hs) as (h' & fl' & E & HS & HI'); [lia|].
    eexists (a + 24), h', _, fl'. rewrite (after E). split; [done|].
    split; [split; [exact HI'|by eapply realloc_shrink_coalesced]|].
    eapply realloc_in_place; [done|exact Hs'|exact HP| |done].
    rewrite payloads_app. change (payloads ?x ((ns + 24, true) :: ?l)) with ((x + 24, ns + 24 - 24) :: payloads (x + (ns + 24)) l).
    rewrite payloads_join. fold a. unfold rest. replace (ns + 24 - 24) with ns by lia.
    replace (a + (ns + 24) + (o - ns - 24)) with (a + o) by lia. solve_Permutation.
Qed.

(** [rt_memheap_realloc] of a live block keeps the heap well formed on every path - growing into a free
    neighbour, moving, keeping and cutting the block: it returns RT_NULL and changes nothing, or a live
    block of the new size that begins with the bytes of the old one; no other live block moves and no
    byte outside the block changes. *)
Theorem rt_memheap_realloc_correct h bs fl p old newsize :
  memheap_inv h bs fl -> memheap_data_ok h -> (p, old) ∈ payloads (start_addr h) bs ->
  0 < newsize -> newsize + 40 < 2 ^ 32 ->
  exists q h' bs' fl', rt_memheap_realloc p newsize h = Done q h' /\ memheap_inv h' bs' fl' /\
    start_addr h' = start_addr h /\ memheap_data_ok h' /\ memheap_realloc_ok h bs p old newsize q h' bs'.
Proof. apply memheap_realloc_done. Qed.

(** ** Clients of a heap *)

(** The states a client can bring a heap to, with the addresses it holds. *)
Inductive client : rt_memheap -> list Z -> Prop :=
| client_init h0 memheap header start size h :
    memheap <> 0 -> 0 < start -> start mod 4 = 0 -> 60 <= size - size mod 4 -> start + size <= 2 ^ 32 ->
    header < start \/ start + size <= header -> bytes_ok (mh_data h0) -> valid (mh_data h0) start size ->
    rt_memheap_init memheap header start size h0 = Done RT_EOK h -> client h []
| client_alloc h live size p h' : client h live -> 0 < size -> size + 3 < 2 ^ 32 ->
    rt_memheap_alloc size h = Done p h' -> client h' (if p =? 0 then live else p :: live)
| client_free h l1 p l2 h' : client h (l1 ++ p :: l2) -> rt_memheap_free p h = Done tt h' -> client h' (l1 ++ l2)
| client_realloc h l1 p l2 size q h' : client h (l1 ++ p :: l2) -> 0 < size -> size + 40 < 2 ^ 32 ->
    rt_memheap_realloc p size h = Done q h' -> client h' (l1 ++ (if q =? 0 then p else q) :: l2)
| client_store h live x v : client h live -> is_Some (mh_data h !! x) -> 0 <= v < 2 ^ 8 ->
    client (set_mh_data (<[x := v]> (mh_data h)) h) live.

Definition held (h : rt_memheap) (live : list Z) : Prop := exists bs fl,
  memheap_inv h bs fl /\ memheap_data_ok h /\ (payloads (start_addr h) bs).*1 ≡ₚ live.

Lemma held_block h live p : held h live -> p ∈ live -> exists bs fl n,
  memheap_inv h bs fl /\ memheap_data_ok h /\ (payloads (start_addr h) bs).*1 ≡ₚ live /\
  (p, n) ∈ payloads (start_addr h) bs.
Proof.
  intros (bs & fl & HI & HD & HP) Hp. rewrite <- HP in Hp. apply list_elem_of_fmap in Hp as ([p' n] & -> & Hin).
  by exists bs, fl, n.
Qed.

Lemma same_pool_data h h' : same_pool h h' -> memheap_data_ok h -> memheap_data_ok h'.
Proof. intros (_ & _ & S3 & S4 & _ & _ & _ & S8). unfold memheap_data_ok. by rewrite S3, S4, S8. Qed.

Lemma held_alloc h live size : held h live -> 0 < size -> size + 3 < 2 ^ 32 ->
  exists p h', rt_memheap_alloc size h = Done p h' /\ held h' (if p =? 0 then live else p :: live).
Proof.
  intros (bs & fl & HI & HD & HP) H0 H32.
  destruct (memheap_alloc_done h bs fl size HI H0 H32) as (p & h' & bs' & fl' & E & HI' & HS & Hp).
  exists p, h'. split; [done|]. exists bs', fl'. split; [done|]. split; [by eapply same_pool_data|].
  assert (start_addr h' = start_addr h) as -> by apply HS.
  destruct Hp as [(-> & -> & -> & _)|(_ & l1 & n & l2 & Hn & E0 & E1)]; [done|].
  pose proof (payloads_bounds (start_addr h) bs' p n (mv_blk (proj1 HI'))) as Hb. rewrite E1 in Hb.
  pose proof (mv_pool (proj1 HI)) as (? & _). rewrite (proj2 (Z.eqb_neq p 0)).
  - rewrite E1, <- Permutation_middle. cbn. by rewrite <- E0, HP.
  - destruct Hb; [set_solver|lia].
Qed.

Lemma held_free h l1 p l2 : held h (l1 ++ p :: l2) -> exists h', rt_memheap_free p h = Done tt h' /\ held h' (l1 ++ l2).
Proof.
  intros HH. destruct (held_block h _ p HH) as (bs & fl & n & HI & HD & HP & Hin); [set_solver|].
  destruct (memheap_free_done h bs fl p n HI Hin) as (h' & bs' & fl' & m1 & m2 & E & HI' & HS & E0 & E1).
  exists h'. split; [done|]. exists bs', fl'. split; [done|]. split; [by eapply same_pool_data|].
  assert (start_addr h' = start_addr h) as -> by apply HS. rewrite E1. rewrite E0 in HP.
  rewrite fmap_app in *. cbn in HP. rewrite <- !Permutation_middle in HP. by apply Permutation_cons_inv in HP.
Qed.

Lemma held_realloc h l1 p l2 size : held h (l1 ++ p :: l2) -> 0 < size -> size + 40 < 2 ^ 32 ->
  exists q h', rt_memheap_realloc p size h = Done q h' /\ held h' (l1 ++ (if q =? 0 then p else q) :: l2).
Proof.
  intros HH H0 H32. destruct (held_block h _ p HH) as (bs & fl & n & HI & HD & HP & Hin); [set_solver|].
  destruct (memheap_realloc_done h bs fl p n size HI HD Hin H0 H32) as (q & h' & bs' & fl' & E & HI' & Es & HD' & HR).
  exists q, h'. split; [done|]. exists bs', fl'. split; [done|]. split; [done|]. rewrite Es.
  destruct HR as [(-> & -> & ->)|(k & rest & R1 & R2 & _)]; [done|].
  pose proof (payloads_bounds (start_addr h) bs' q k (mv_blk (proj1 HI'))) as Hb. rewrite R2 in Hb.
  pose proof (mv_pool (proj1 HI)) as (? & _). rewrite (proj2 (Z.eqb_neq q 0)).
  - rewrite R2. rewrite R1 in HP. cbn in HP |- *. rewrite <- Permutation_middle in HP |- *.
    apply Permutation_cons_inv in HP. by rewrite HP.
  - destruct Hb; [set_solver|lia].
Qed.

Lemma client_held h live : client h live -> held h live.
Proof.
  induction 1 as [h0 mh hd st size h H1 H2 H3 H4 H5 H6 HB HV E|h live size p h' _ IH H0 H32 E
                 |h l1 p l2 h' _ IH E|h l1 p l2 size q h' _ IH H0 H32 E|h live x v _ IH Hx Hv].
  - destruct (memheap_init_done h0 mh hd st size H1 H2 H3 H4 H5 H6) as (h' & E' & HI & Es & Ep & Ed).
    rewrite E in E'. injection E' as <-. eexists _, _. split; [exact HI|]. split; [|done].
    unfold memheap_data_ok. rewrite Ed, Es, Ep. split; [done|].
    assert (0 <= size mod 4) by (apply Z.mod_pos_bound; lia). eapply valid_sub; [exact HV|lia..].
  - destruct (held_alloc _ _ _ IH H0 H32) as (p' & h'' & E' & HH). rewrite E in E'. by injection E' as <- <-.
  - destruct (held_free _ _ _ _ IH) as (h'' & E' & HH). rewrite E in E'. by injection E' as <-.
  - destruct (held_realloc _ _ _ _ _ IH H0 H32) as (q' & h'' & E' & HH). rewrite E in E'. by injection E' as <- <-.
  - destruct IH as (bs & fl & HI & [HB HV] & HP). exists bs, fl. split; [by apply memheap_inv_data|].
    split; [|done]. split; cbn.
    + intros y w. rewrite lookup_insert_Some. intros [[_ <-]|[_ Hy]]; [done|by eapply HB].
    + intros y Hy. apply lookup_insert_is_Some'. right. by apply HV.
Qed.

Lemma payloads_addr_NoDup p bs : Forall mblk_ok bs -> NoDup (payloads p bs).*1.
Proof.
  intros H. revert p. induction H as [|[n []] bs [Hn _] Hok IH]; intros p; cbn; [constructor| |apply IH].
  constructor; [|apply IH]. intros ([q k] & Eq & Hin)%list_elem_of_fmap. cbn in Eq.
  pose proof (payloads_bounds _ _ _ _ Hok Hin). cbn in Hn. lia.
Qed.

Lemma held_regions h live : held h live -> 0 ∉ live /\ NoDup live /\ exists rs : list (Z * Z), rs.*1 ≡ₚ live /\
    (forall r, r ∈ rs -> r.1 mod 4 = 0 /\ start_addr h <= r.1 /\ r.1 + r.2 <= start_addr h + pool_size h) /\
    (forall r1 r2, r1 ∈ rs -> r2 ∈ rs -> r1 = r2 \/ disjoint r1 r2).
Proof.
  intros (bs & fl & [HI _] & _ & HP). pose proof (mv_blk HI) as Hok. pose proof (mv_pool HI) as (H0 & _ & _ & Ht).
  split; [|split; [|exists (payloads (start_addr h) bs); split; [done|split]]].
  - rewrite <- HP. intros ([q k] & Eq & Hin)%list_elem_of_fmap. cbn in Eq.
    pose proof (payloads_bounds _ _ _ _ Hok Hin). lia.
  - rewrite <- HP. by apply payloads_addr_NoDup.
  - intros [q k] Hin. cbn. pose proof (payloads_bounds _ _ _ _ Hok Hin). split; [|lia].
    apply payloads_inv in Hin as (b1 & n & b2 & -> & -> & _).
    pose proof (tiling_bounds HI) as (_ & _ & _ & _ & _ & H4 & _). Z.div_mod_to_equations; lia.
  - intros r1 r2. by apply payloads_apart.
Qed.


(** Freeing what was just taken restores the tiling. *)
Lemma plug_take_block b1 n s b2 : coalesced (b1 ++ (n, false) :: b2) ->
  exists k c2, take_block n s ++ b2 = (k, true) :: c2 /\ plug b1 k c2 = b1 ++ (n, false) :: b2.
Proof.
  intros (H1 & H2 & H3)%coalesced_app_iff.
  assert (Hprev : forall k, join_prev b1 k b2 = b1 ++ (k, false) :: b2).
  { intros k. unfold join_prev. destruct b1 as [|[l []] r _] using rev_ind; [done|rewrite reverse_snoc..]; [done|].
    unfold sep in H3. rewrite last_snoc in H3. done. }
  unfold take_block. destruct (s + 60 <=? n); cbn [app].
  - exists (s + 24), ((n - s - 24, false) :: b2). split; [done|].
    rewrite (plug_join b1 (s + 24) _ n b2); [apply Hprev|]. cbn. f_equal. lia.
  - exists n, b2. split; [done|]. rewrite (plug_join b1 n b2 n b2); [apply Hprev|].
    destruct b2 as [|[m []] b2]; [done..|]. by destruct H2.
Qed.

(** [rt_memheap_alloc] and [rt_memheap_free] undo each other: freeing the block just allocated brings back
    the tiling of the pool and the free bytes, whatever block was taken and however it was cut. *)
Theorem memheap_alloc_free_roundtrip h bs fl size p h' :
  memheap_inv h bs fl -> 0 < size -> size + 3 < 2 ^ 32 -> rt_memheap_alloc size h = Done p h' -> p <> 0 ->
  exists h'' fl'', rt_memheap_free p h' = Done tt h'' /\ memheap_inv h'' bs fl'' /\
    available_size h'' = available_size h /\ same_pool h h''.
Proof.
  intros HI H0 H32 E Hp. destruct (memheap_size_ok size H0 H32) as (Hs & _ & Hs4).
  destruct (rt_memheap_alloc_spec h bs fl size _ HI eq_refl Hs Hs4) as [[E' _]|(h1 & fl1 & b1 & n & b2 & -> & Hn & E' & HS & HI')].
  { rewrite E in E'. by injection E' as -> _. }
  rewrite E in E'. injection E' as -> ->.
  destruct (plug_take_block b1 n (memheap_size size) b2 (proj2 HI)) as (k & c2 & Ek & Epl). rewrite Ek in HI'.
  destruct (rt_memheap_free_spec h1 b1 k c2 fl1 HI') as (h2 & fl2 & E2 & HS2 & HI2).
  assert (start_addr h1 = start_addr h) as Es by apply HS. rewrite Es in E2. rewrite Epl in HI2.
  exists h2, fl2. split; [done|]. split; [done|]. split.
  - by rewrite (mv_avail (proj1 HI)), (mv_avail (proj1 HI2)).
  - unfold same_pool in *. intuition congruence.
Qed.

(** a size close to 2^32, such as a negative count turned into a size, defeats [rt_memheap_realloc]: with a free
    block behind the block, the sum [newsize + RT_MEMHEAP_MINIALLOC] wraps, the call reports success, and it
    enters in the free list a block that lies inside the header of the block itself. *)
Theorem rt_memheap_realloc_overflow h b1 o m b2 fl :
  memheap_inv h (b1 ++ (o, true) :: (m, false) :: b2) fl ->
  let p := start_addr h + total b1 + 24 in
  exists h', rt_memheap_realloc p (2 ^ 32 - 8) h = Done p h' /\
    field mi_next_free (mh_items h') (free_list h') = Some (p - 8) /\
    available_size h' = u32 (available_size h + (o - 24) + 8).
Proof.
  intros [HI _]. set (a := start_addr h + total b1). set (new := a + 16).
  pose proof (tiling_bounds HI) as (_ & [[Hm _] B2]%Forall_cons & Ho & _ & Ha & _ & H32 & Ht & He). fold a in Ha, H32, He.
  pose proof (mv_pool HI) as (_ & _ & Hp32 & _). cbn in Hm, Ht, He. pose proof (total_nonneg _ (mblk_blk _ B2)).
  destruct (tiling_fresh HI new) as [Hf1 Hf2]; [unfold new, a; lia|].
  destruct (realloc_expand_lay _ _ _ _ _ _ (2 ^ 32 - 8) new a eq_refl HI) as (it & fl' & E & HL & _); [|done|done|].
  { unfold u32. replace (a + 24 + (2 ^ 32 - 8)) with (a + 16 + 1 * 2 ^ 32) by lia.
    rewrite Z_mod_plus_full, Z.mod_small by lia. done. }
  eexists. split; [|split].
  - rewrite (memheap_realloc_cases h b1 o ((m, false) :: b2) fl (2 ^ 32 - 8) (2 ^ 32 - 8) a HI) by done.
    rewrite (proj2 (Z.ltb_lt (o - 24) (2 ^ 32 - 8))) by lia. cbn [head_used negb andb].
    rewrite firstn_cons, take_0. cbn [total]. rewrite (proj2 (Z.ltb_lt _ _)); [by rewrite (after E)|].
    change (u32 (2 ^ 32 - 8 + 12)) with 4. lia.
  - pose proof (mv_self HI) as (_ & _ & Hl). pose proof (free_first _ _ _ HL) as Hf. cbn in Hf |- *.
    rewrite Hl, Hf. f_equal. unfold new. lia.
  - cbn. unfold u32. replace (available_size h + (o - 24) + 8) with (available_size h - (2 ^ 32 - 8 - (o - 24)) + 1 * 2 ^ 32) by lia.
    by rewrite Z_mod_plus_full.
Qed.

(** ** A small heap *)

(** A pool of 240 bytes with one block of 20 bytes in use. *)
Definition mh_demo : rt_memheap := MemHeap 0x100 0x86 0x1000 240 148 92 0x1000 0x120 0x120
  (list_to_map [(0x120, MemItem RT_MEMHEAP_MAGIC 0x100 0 0 0x102c 0x102c);
                (0x1000, MemItem (mark true) 0x100 0x102c 0x10d8 0 0);
                (0x102c, MemItem RT_MEMHEAP_MAGIC 0x100 0x10d8 0x1000 0x120 0x120);
                (0x10d8, MemItem (mark true) 0x100 0x1000 0x102c 0 0)]) demo_data.
Definition mh_demo_blocks : list blk := [(44, true); (172, false)].

Lemma mh_demo_inv : memheap_inv mh_demo mh_demo_blocks [0x102c].
Proof.
  split; [|done]. split; [done|done|by left| |split|done|done|done].
  - repeat (apply Forall_cons; split; [done|]). constructor.
  - split; [decided|]. by repeat split.
  - split; [decided|]. by repeat split.
  - repeat (apply Forall_cons; split; [done|]). constructor.
Qed.

Lemma rt_memheap_realloc_correct_witness :
  exists q h' bs' fl', rt_memheap_realloc 0x1018 100 mh_demo = Done q h' /\ memheap_inv h' bs' fl' /\
    start_addr h' = start_addr mh_demo /\ memheap_data_ok h' /\
    memheap_realloc_ok mh_demo mh_demo_blocks 0x1018 20 100 q h' bs'.
Proof.
  apply (rt_memheap_realloc_correct mh_demo _ _ 0x1018 20 100 mh_demo_inv demo_data_bytes); [cbn; set_solver|lia|lia].
Defined.

(** The heap without the bytes of the payloads, and with a second block allocated. *)
Definition mh_bare : rt_memheap := set_mh_data ∅ mh_demo.
Definition mh_two : rt_memheap :=
  Eval vm_compute in match rt_memheap_alloc 100 mh_bare with Done _ h => h | Stop _ => mh_bare end.

Lemma memheap_alloc_free_roundtrip_witness : rt_memheap_alloc 100 mh_bare = Done 0x1044 mh_two /\
  exists h'' fl'', rt_memheap_free 0x1044 mh_two = Done tt h'' /\ memheap_inv h'' mh_demo_blocks fl'' /\
  available_size h'' = available_size mh_bare /\ same_pool mh_bare h''.
Proof.
  assert (E : rt_memheap_alloc 100 mh_bare = Done 0x1044 mh_two) by (vm_compute; reflexivity). split; [exact E|].
  apply (memheap_alloc_free_roundtrip mh_bare mh_demo_blocks [0x102c] 100 0x1044 mh_two); [|lia|lia|exact E|lia].
  apply memheap_inv_data, mh_demo_inv.
Defined.

Lemma rt_memheap_realloc_overflow_witness :
  exists h', rt_memheap_realloc 0x1018 (2 ^ 32 - 8) mh_demo = Done 0x1018 h' /\
    field mi_next_free (mh_items h') (free_list h') = Some (0x1018 - 8) /\
    available_size h' = u32 (available_size mh_demo + (44 - 24) + 8).
Proof. apply (rt_memheap_realloc_overflow mh_demo [] 44 172 [] _ mh_demo_inv). Defined.

Definition mh_fresh : rt_memheap := MemHeap 0 0 0 0 0 0 0 0 0 ∅ demo_data.

