(* ===== verification/Printf.v ===== *)
(** * Formatted output (src/kservice.c)

    [rt_vsnprintf] and the functions around it.  The state of a call is the output
    cursor [str], the memory it writes to, what is left of the format, a list of
    bytes that stands for the bytes before the terminating NUL, and the arguments not
    taken yet.  An argument of the wrong kind, an advance past the NUL and a store
    outside the memory are undefined.  The configuration has RT_PRINTF_PRECISION and
    neither RT_PRINTF_SPECIAL nor RT_PRINTF_LONGLONG; signed arithmetic wraps, as on
    the target.

    The specification is a grammar: a format is a sequence of [item]s, and
    [item_text] is the text of an item, without any buffer.  The theorems relate the
    bytes in the buffer, the length returned and the text. *)

From Stdlib Require Import Ascii String.
From S2P Require Import Prelude Exec KService Mem.

(** ** Data *)

Definition ch (a : ascii) : Z := Z.of_N (N_of_ascii a).
Arguments ch _%_char.

(** A string constant. *)
Definition chars_of (s : string) : list Z := (fun c => ch c) <$> list_ascii_of_string s.
Arguments chars_of _%_string.

Definition ZEROPAD : Z := Z.shiftl 1 0.
Definition SIGN : Z := Z.shiftl 1 1.
Definition PLUS : Z := Z.shiftl 1 2.
Definition SPACE : Z := Z.shiftl 1 3.
Definition LEFT : Z := Z.shiftl 1 4.
Definition SPECIAL : Z := Z.shiftl 1 5.
Definition LARGE : Z := Z.shiftl 1 6.

(** What [va_arg] can find: an integer, or a string, [None] for a null pointer. *)
Inductive arg := AInt (v : Z) | AStr (s : option (list Z)).

Record vsn := Vsn { str : Z; obuf : mem; fmt : list Z; args : list arg }.

Definition set_out (p : Z) (m : mem) (s : vsn) : vsn := Vsn p m (fmt s) (args s).
Definition set_fmt (f : list Z) (s : vsn) : vsn := Vsn (str s) (obuf s) f (args s).
Definition set_args (a : list arg) (s : vsn) : vsn := Vsn (str s) (obuf s) (fmt s) a.

(** [*fmt] and [++fmt]. *)
Definition peek : M vsn Z := gets (fun s => hd 0 (fmt s)).
Definition advance : M vsn unit :=
  f <- gets fmt;; match f with [] => stuck Undefined | _ :: f => modify (set_fmt f) end.

Definition va_int : M vsn Z :=
  a <- gets args;; match a with AInt v :: a => modify (set_args a);;; ret v | _ => stuck Undefined end.
Definition va_str : M vsn (option (list Z)) :=
  a <- gets args;; match a with AStr v :: a => modify (set_args a);;; ret v | _ => stuck Undefined end.

Definition isdigit (c : Z) : bool := u32 (c - ch "0") <? 10.

(** ** Output *)

Definition store (p c : Z) : M vsn unit :=
  fun s => match st (obuf s) p (u8 c) with Some m => Done tt (set_out (str s) m s) | None => Stop Undefined end.
(** [++str] *)
Definition inc_str : M vsn unit := modify (fun s => set_out (str s + 1) (obuf s) s).

(** [if (str <= end) *str = c; ++str;] *)
Definition put (e c : Z) : M vsn unit :=
  p <- gets str;; when (p <=? e) (store p c);;; inc_str.

(** [while (size-- > 0) { if (buf <= end) *buf = c; ++buf; }]; the result is [size] after it. *)
Fixpoint pad (fuel : nat) (e size c : Z) : M vsn Z :=
  if 0 <? size then
    match fuel with O => stuck Diverge | S fuel => put e c;;; pad fuel e (s32 (size - 1)) c end
  else ret (s32 (size - 1)).
Definition pads (e size c : Z) : M vsn Z := pad (Z.to_nat size) e size c.

(** [divide(&n, base)]: the remainder and the new [n]. *)
Definition divide (n base : Z) : Z * Z :=
  if base =? 10 then (u32 n mod 10, s32 (u32 n / 10)) else (u32 n mod 16, s32 (u32 n / 16)).

Definition digit (large : bool) (d : Z) : Z :=
  if d <? 10 then ch "0" + d else (if large then ch "A" else ch "a") + (d - 10).

(** [while (num != 0) tmp[i++] = digits[divide(&num, base)];] with the room left in [tmp]. *)
Fixpoint number_digits (room : nat) (large : bool) (num base : Z) : option (list Z) :=
  if num =? 0 then Some []
  else match room with
       | O => None
       | S room => let '(r, num) := divide num base in
                   l ← number_digits room large num base; Some (digit large r :: l)
       end.

(** [while (i < precision--)] *)
Fixpoint zeros (fuel : nat) (e i precision : Z) : M vsn unit :=
  if i <? precision then
    match fuel with O => stuck Diverge | S fuel => put e (ch "0");;; zeros fuel e i (precision - 1) end
  else ret tt.

(** [while (i-- > 0)], over the part of [tmp] that is in use, last digit first. *)
Fixpoint put_digits (e : Z) (tmp : list Z) : M vsn unit :=
  match tmp with [] => ret tt | c :: tmp => put_digits e tmp;;; put e c end.

(** What follows the computation of the digits in [print_number]. *)
Definition print_body (e sign size c i precision type : Z) (tmp : list Z) : M vsn unit :=
  size <- (if negb (nz (Z.land type (Z.lor ZEROPAD LEFT))) then
             pads e (if (nz sign && (0 <? size))%bool then size - 1 else size) (ch " ")
           else ret size);;
  size <- (if nz sign then
             p <- gets str;;
             size <- (if p <=? e then store p sign;;; ret (s32 (size - 1)) else ret size);;
             inc_str;;; ret size
           else ret size);;
  size <- (if negb (nz (Z.land type LEFT)) then pads e size c else ret size);;
  zeros (Z.to_nat (precision - i)) e i precision;;;
  put_digits e tmp;;;
  _ <- pads e size (ch " ");;
  ret tt.

Definition print_number (e num base s precision type : Z) : M vsn unit :=
  let large := nz (Z.land type LARGE) in
  let type := if nz (Z.land type LEFT) then Z.land type (not32 ZEROPAD) else type in
  let c := if nz (Z.land type ZEROPAD) then ch "0" else ch " " in
  let '(sign, num) :=
    if nz (Z.land type SIGN) then
      if num <? 0 then (ch "-", s32 (- num))
      else if nz (Z.land type PLUS) then (ch "+", num)
      else if nz (Z.land type SPACE) then (ch " ", num) else (0, num)
    else (0, num) in
  tmp <- match (if num =? 0 then Some [ch "0"] else number_digits 16 large num base) with
         | Some tmp => ret tmp | None => stuck Undefined end;;
  let i := Z.of_nat (length tmp) in
  let precision := if precision <? i then i else precision in
  let size := s32 (s - precision) in
  print_body e sign size c i precision type tmp.

(** ** rt_vsnprintf *)

(** [while (1) { ++fmt; ... }] *)
Fixpoint get_flags (fuel : nat) (flags : Z) : M vsn Z :=
  match fuel with
  | O => stuck Diverge
  | S fuel =>
      advance;;; c <- peek;;
      if c =? ch "-" then get_flags fuel (Z.lor flags LEFT)
      else if c =? ch "+" then get_flags fuel (Z.lor flags PLUS)
      else if c =? ch " " then get_flags fuel (Z.lor flags SPACE)
      else if c =? ch "#" then get_flags fuel (Z.lor flags SPECIAL)
      else if c =? ch "0" then get_flags fuel (Z.lor flags ZEROPAD)
      else ret flags
  end.

Fixpoint skip_atoi (fuel : nat) (i : Z) : M vsn Z :=
  c <- peek;;
  if isdigit c then
    match fuel with O => stuck Diverge | S fuel => advance;;; skip_atoi fuel (s32 (i * 10 + c - ch "0")) end
  else ret i.

Definition get_width (flags : Z) : M vsn (Z * Z) :=
  c <- peek;; n <- gets (fun s => length (fmt s));;
  if isdigit c then w <- skip_atoi n 0;; ret (w, flags)
  else if c =? ch "*" then
    advance;;; w <- va_int;;
    if s32 w <? 0 then ret (s32 (- s32 w), Z.lor flags LEFT) else ret (s32 w, flags)
  else ret (-1, flags).

Definition get_precision : M vsn Z :=
  c <- peek;;
  if c =? ch "." then
    advance;;; c <- peek;; n <- gets (fun s => length (fmt s));;
    p <- (if isdigit c then skip_atoi n 0
          else if c =? ch "*" then advance;;; p <- va_int;; ret (s32 p)
          else ret (-1));;
    ret (if p <? 0 then 0 else p)
  else ret (-1).

Definition get_qualifier : M vsn Z :=
  c <- peek;; if ((c =? ch "h") || (c =? ch "l"))%bool then advance;;; ret c else ret 0.

(** [while (--field_width > 0)] with a blank each round. *)
Fixpoint blanks (fuel : nat) (e field_width : Z) : M vsn Z :=
  let field_width := s32 (field_width - 1) in
  if 0 <? field_width then
    match fuel with O => stuck Diverge | S fuel => put e (ch " ");;; blanks fuel e field_width end
  else ret field_width.

(** [while (len < field_width--)] with a blank each round. *)
Fixpoint blanks_from (fuel : nat) (e len field_width : Z) : M vsn Z :=
  if len <? field_width then
    match fuel with O => stuck Diverge
    | S fuel => put e (ch " ");;; blanks_from fuel e len (s32 (field_width - 1)) end
  else ret (s32 (field_width - 1)).

Fixpoint put_string (e : Z) (l : list Z) : M vsn unit :=
  match l with [] => ret tt | c :: l => put e c;;; put_string e l end.

(** The text for a null pointer. *)
Definition NULL_text : list Z := [ch "("; ch "N"; ch "U"; ch "L"; ch "L"; ch ")"].

Definition print_char (e flags field_width : Z) : M vsn unit :=
  field_width <- (if negb (nz (Z.land flags LEFT)) then blanks (Z.to_nat field_width) e field_width else ret field_width);;
  c <- va_int;;
  put e (u8 c);;;
  _ <- blanks (Z.to_nat field_width) e field_width;;
  ret tt.

Definition print_string (e flags field_width precision : Z) : M vsn unit :=
  s <- va_str;;
  let s := match s with Some s => s | None => NULL_text end in
  let len := Z.of_nat (length s) in
  let len := if ((0 <? precision) && (precision <? len))%bool then precision else len in
  field_width <- (if negb (nz (Z.land flags LEFT)) then blanks_from (Z.to_nat field_width) e len field_width
                  else ret field_width);;
  put_string e (take (Z.to_nat len) s);;;
  _ <- blanks_from (Z.to_nat field_width) e len field_width;;
  ret tt.

(** The integer conversions. *)
Definition print_int (e flags qualifier base field_width precision : Z) : M vsn unit :=
  v <- va_int;;
  let num := if qualifier =? ch "h"
             then let n := u16 v in if nz (Z.land flags SIGN) then u32 (s16 n) else n
             else u32 v in
  print_number e (s32 num) base field_width precision flags.

(** A directive, from the character that says what to print; the result is whether [fmt] is left
    where it is, which [--fmt] amounts to. *)
Definition directive (e flags field_width precision qualifier : Z) : M vsn bool :=
  c <- peek;;
  if c =? ch "c" then print_char e flags field_width;;; ret false
  else if c =? ch "s" then print_string e flags field_width precision;;; ret false
  else if c =? ch "p" then
    let '(field_width, flags) := if field_width =? -1 then (8, Z.lor flags ZEROPAD) else (field_width, flags) in
    v <- va_int;; print_number e (s32 v) 16 field_width precision flags;;; ret false
  else if c =? ch "%" then put e (ch "%");;; ret false
  else if c =? ch "o" then print_int e flags qualifier 8 field_width precision;;; ret false
  else if c =? ch "X" then print_int e (Z.lor flags LARGE) qualifier 16 field_width precision;;; ret false
  else if c =? ch "x" then print_int e flags qualifier 16 field_width precision;;; ret false
  else if ((c =? ch "d") || (c =? ch "i"))%bool then
    print_int e (Z.lor flags SIGN) qualifier 10 field_width precision;;; ret false
  else if c =? ch "u" then print_int e flags qualifier 10 field_width precision;;; ret false
  else
    put e (ch "%");;;
    if nz c then put e c;;; ret false else ret true.

(** The body of the loop over the format and [++fmt]. *)
Definition format_step (e : Z) : M vsn unit :=
  c <- peek;;
  if negb (c =? ch "%") then put e c;;; advance
  else
    n <- gets (fun s => length (fmt s));;
    flags <- get_flags n 0;;
    wf <- get_width flags;;
    precision <- get_precision;;
    qualifier <- get_qualifier;;
    stay <- directive e (snd wf) (fst wf) precision qualifier;;
    if (stay : bool) then ret tt else advance.

(** [for (; *fmt; ++fmt)] *)
Fixpoint format_loop (fuel : nat) (e : Z) : M vsn unit :=
  c <- peek;;
  if nz c then
    match fuel with O => stuck Diverge | S fuel => format_step e;;; format_loop fuel e end
  else ret tt.

(** [end] for a buffer at [buf] of [size] bytes. *)
Definition buffer_end (buf size : Z) : Z :=
  let e := u32 (buf + size - 1) in if e <? buf then 2 ^ 32 - 1 else e.

Definition rt_vsnprintf (m : mem) (buf size : Z) (f : list Z) (a : list arg) : exec mem Z :=
  let e := buffer_end buf size in
  match (format_loop (S (length f)) e;;;
         p <- gets str;; store (if p <=? e then p else e) 0;;; ret (s32 (p - buf))) (Vsn buf m f a) with
  | Done n s => Done n (obuf s)
  | Stop w => Stop w
  end.

Definition rt_snprintf (m : mem) (buf size : Z) (f : list Z) (a : list arg) : exec mem Z := rt_vsnprintf m buf size f a.
Definition rt_vsprintf (m : mem) (buf : Z) (f : list Z) (a : list arg) : exec mem Z :=
  rt_vsnprintf m buf (u32 (-1)) f a.
Definition rt_sprintf (m : mem) (buf : Z) (f : list Z) (a : list arg) : exec mem Z := rt_vsprintf m buf f a.

(** ** Text that goes to a buffer *)

(** The memory after [l] is put at [p], no byte behind [e]. *)
Fixpoint wr (e p : Z) (l : list Z) (m : mem) : mem :=
  match l with [] => m | c :: l => wr e (p + 1) l (if p <=? e then <[p := u8 c]> m else m) end.

Lemma wr_app e p l1 l2 m : wr e p (l1 ++ l2) m = wr e (p + Z.of_nat (length l1)) l2 (wr e p l1 m).
Proof.
  revert p m. induction l1 as [|c l1 IH]; intros p m; cbn [app wr length]; [by rewrite Z.add_0_r|].
  rewrite IH. f_equal. lia.
Qed.

Lemma wr_over e p l m : e < p -> wr e p l m = m.
Proof.
  revert p m. induction l as [|c l IH]; intros p m H; [done|]. cbn. rewrite (proj2 (Z.leb_gt p e)) by lia. apply IH. lia.
Qed.

Lemma wr_valid e p l m a n : valid m a n -> valid (wr e p l m) a n.
Proof.
  revert p m. induction l as [|c l IH]; intros p m H; [done|]. cbn. apply IH. intros i Hi. destruct (p <=? e); [|by apply H].
  apply lookup_insert_is_Some'. right. by apply H.
Qed.

Lemma wr_lookup e l p m x : wr e p l m !! x =
  if decide (p <= x <= e /\ x < p + Z.of_nat (length l)) then u8 <$> l !! Z.to_nat (x - p) else m !! x.
Proof.
  revert p m. induction l as [|c l IH]; intros p m; cbn [wr length].
  { case_decide; [lia|done]. }
  rewrite IH. destruct (decide (x = p)) as [->|Hx].
  - rewrite decide_False by lia. destruct (Z.leb_spec p e).
    + rewrite decide_True by lia. by rewrite lookup_insert_eq, Z.sub_diag.
    + by rewrite decide_False by lia.
  - destruct (decide (p + 1 <= x <= e /\ x < p + 1 + Z.of_nat (length l))) as [D|D].
    + rewrite decide_True by lia. replace (Z.to_nat (x - p)) with (S (Z.to_nat (x - (p + 1)))) by lia. done.
    + rewrite decide_False by lia. destruct (p <=? e); [by rewrite lookup_insert_ne|done].
Qed.

(** [s'] is [s] after [txt] was printed.  The cursor is behind the text; where that is past the end
    of the buffer it may have been moved too far. *)
Definition outs (e : Z) (s : vsn) (txt : list Z) (s' : vsn) : Prop :=
  let x := str s + Z.of_nat (length txt) in
  obuf s' = wr e (str s) txt (obuf s) /\ (str s' = x \/ e < x <= str s').

Definition ready (e b : Z) (s : vsn) : Prop := b <= str s /\ valid (obuf s) b (e - b + 1).

Lemma outs_nil e s s' : obuf s' = obuf s -> str s' = str s -> outs e s [] s'.
Proof. intros E1 E2. split; [done|]. left. cbn. lia. Qed.

Lemma outs_app e s t1 s1 t2 s2 : outs e s t1 s1 -> outs e s1 t2 s2 -> outs e s (t1 ++ t2) s2.
Proof.
  intros [M1 P1] [M2 P2]. unfold outs. rewrite wr_app, length_app, Nat2Z.inj_add, <- M1.
  destruct P1 as [P1|P1].
  - rewrite <- P1. split; [done|]. lia.
  - rewrite M2, !wr_over by lia. split; [done|]. lia.
Qed.

Lemma outs_ready e b s txt s' : ready e b s -> outs e s txt s' -> ready e b s'.
Proof. intros [Hp HV] [M P]. split; [lia|]. rewrite M. by apply wr_valid. Qed.

(** [m] prints [txt], takes no argument and returns a value that satisfies [Q]. *)
Definition emits {A} (e b : Z) (m : M vsn A) (txt : list Z) (Q : A -> Prop) (s : vsn) : Prop :=
  ready e b s -> exists a s', m s = Done a s' /\ outs e s txt s' /\ fmt s' = fmt s /\ args s' = args s /\ Q a.

Section emits.
Context (e b : Z).

Lemma emits_ret {A} (a : A) (Q : A -> Prop) s : Q a -> emits e b (ret a) [] Q s.
Proof. intros HQ _. exists a, s. split_and!; try done. by apply outs_nil. Qed.

Lemma emits_bind {A B} (m : M vsn A) (f : A -> M vsn B) t1 t2 Q R s :
  emits e b m t1 Q s -> (forall a s', Q a -> outs e s t1 s' -> emits e b (f a) t2 R s') -> emits e b (bind m f) (t1 ++ t2) R s.
Proof.
  intros H1 H2 Hr. destruct (H1 Hr) as (a & s1 & E1 & O1 & F1 & A1 & HQ).
  destruct (H2 a s1 HQ O1 (outs_ready _ _ _ _ _ Hr O1)) as (c & s2 & E2 & O2 & F2 & A2 & HR).
  exists c, s2. rewrite (after E1). split; [done|]. split; [by eapply outs_app|]. split_and!; [congruence|congruence|done].
Qed.

Lemma emits_mono {A} (m : M vsn A) t (Q R : A -> Prop) s : emits e b m t Q s -> (forall a, Q a -> R a) -> emits e b m t R s.
Proof. intros H HR Hr. destruct (H Hr) as (a & s' & ? & ? & ? & ? & ?). exists a, s'. split_and!; auto. Qed.

(** Behind the end of the buffer, a text that is longer than the one asked for does no harm. *)
Lemma emits_over {A} (m : M vsn A) t t' Q s : emits e b m t' Q s -> e < str s -> (length t <= length t')%nat ->
  emits e b m t Q s.
Proof.
  intros H Hs Hl Hr. destruct (H Hr) as (a & s' & E & [M P] & F & A' & HQ). exists a, s'. split_and!; try done. split.
  - rewrite M, !wr_over by lia. done.
  - right. lia.
Qed.

Lemma put_emits c s : emits e b (put e c) [c] (fun _ => True) s.
Proof.
  intros [Hp HV]. unfold put. mstep. destruct (Z.leb_spec (str s) e) as [Hle|Hgt]; cbn [when].
  - destruct (HV (str s)) as [v Hv]; [lia|].
    assert (E : store (str s) c s = Done tt (set_out (str s) (<[str s := u8 c]> (obuf s)) s)).
    { unfold store, st. by rewrite Hv. }
    eexists _, _. rewrite (after E). split; [reflexivity|]. split_and!; try done.
    split; cbn; [by rewrite (proj2 (Z.leb_le _ _) Hle)|by left].
  - mstep. eexists _, _. split; [reflexivity|]. split_and!; try done.
    split; cbn; [by rewrite (proj2 (Z.leb_gt _ _) Hgt)|by left].
Qed.

Lemma pad_emits fuel size c s : (Z.to_nat size <= fuel)%nat -> - 2 ^ 31 < size < 2 ^ 31 ->
  emits e b (pad fuel e size c) (replicate (Z.to_nat size) c) (fun r => r = Z.min size 0 - 1) s.
Proof.
  revert size s. induction fuel as [|fuel IH]; intros size s Hf Hs; cbn [pad]; destruct (Z.ltb_spec 0 size) as [H|H].
  - lia.
  - rewrite Z2Nat.nonpos by lia. apply emits_ret. rewrite s32_small; lia.
  - replace (Z.to_nat size) with (S (Z.to_nat (size - 1))) by lia. cbn [replicate].
    apply (emits_bind _ _ [c] _ (fun _ => True)); [apply put_emits|]. intros [] s' _ _. rewrite s32_small by lia.
    eapply emits_mono; [apply IH; lia|]. cbn. lia.
  - rewrite Z2Nat.nonpos by lia. apply emits_ret. rewrite s32_small; lia.
Qed.

Lemma pads_emits size c s : - 2 ^ 31 < size < 2 ^ 31 ->
  emits e b (pads e size c) (replicate (Z.to_nat size) c) (fun r => r = Z.min size 0 - 1) s.
Proof. by apply pad_emits. Qed.

Lemma zeros_emits fuel i precision s : (Z.to_nat (precision - i) <= fuel)%nat ->
  emits e b (zeros fuel e i precision) (replicate (Z.to_nat (precision - i)) (ch "0")) (fun _ => True) s.
Proof.
  revert precision s. induction fuel as [|fuel IH]; intros precision s Hf; cbn [zeros]; destruct (Z.ltb_spec i precision) as [H|H].
  - lia.
  - rewrite Z2Nat.nonpos by lia. by apply emits_ret.
  - replace (Z.to_nat (precision - i)) with (S (Z.to_nat (precision - 1 - i))) by lia. cbn [replicate].
    apply (emits_bind _ _ [ch "0"] _ (fun _ => True)); [apply put_emits|]. intros [] s' _ _. apply IH. lia.
  - rewrite Z2Nat.nonpos by lia. by apply emits_ret.
Qed.

Lemma put_digits_emits tmp s : emits e b (put_digits e tmp) (reverse tmp) (fun _ => True) s.
Proof.
  revert s. induction tmp as [|c tmp IH]; intros s; cbn [put_digits]; [by apply emits_ret|].
  rewrite reverse_cons. eapply emits_bind; [apply IH|]. intros [] s' _ _. apply put_emits.
Qed.

Lemma put_string_emits l s : emits e b (put_string e l) l (fun _ => True) s.
Proof.
  revert s. induction l as [|c l IH]; intros s; cbn [put_string]; [by apply emits_ret|].
  apply (emits_bind _ _ [c] l (fun _ => True)); [apply put_emits|]. intros [] s' _ _. apply IH.
Qed.
End emits.

(** ** Numbers *)

(** The digits of [n] in base [b], least significant first, and in the order of writing. *)
Fixpoint to_digits (fuel : nat) (b n : Z) : list Z :=
  match fuel with O => [] | S fuel => if n <? b then [n] else n mod b :: to_digits fuel b (n / b) end.
Definition numeral (b n : Z) : list Z := reverse (to_digits 16 b n).
(** The number a sequence of digits stands for. *)
Definition value (b : Z) (ds : list Z) : Z := fold_left (fun v d => v * b + d) ds 0.

(** The base [divide] works in. *)
Definition radix (base : Z) : Z := if base =? 10 then 10 else 16.

Lemma radix_bounds base : 10 <= radix base <= 16.
Proof. unfold radix. destruct (base =? 10); lia. Qed.

Lemma divide_radix n base : 0 <= n < 2 ^ 32 -> divide (s32 n) base = (n mod radix base, s32 (n / radix base)).
Proof.
  intros Hn. unfold divide, radix. rewrite u32_s32, u32_small by done. by destruct (base =? 10).
Qed.

Lemma s32_eq0 n : 0 <= n < 2 ^ 32 -> (s32 n =? 0) = (n =? 0).
Proof. intros Hn. pose proof (s32_cases n). rewrite u32_small in * by done. destruct (Z.eqb_spec (s32 n) 0), (Z.eqb_spec n 0); (done || lia). Qed.

Lemma number_digits_spec fuel large base : forall n, 0 < n < 2 ^ 32 -> n < radix base ^ Z.of_nat fuel ->
  number_digits fuel large (s32 n) base = Some (digit large <$> to_digits fuel (radix base) n).
Proof.
  pose proof (radix_bounds base) as Hb. induction fuel as [|fuel IH]; intros n Hn Hf; [cbn in Hf; lia|].
  cbn [number_digits to_digits]. rewrite s32_eq0, divide_radix by lia. rewrite (proj2 (Z.eqb_neq n 0)) by lia.
  destruct (Z.ltb_spec n (radix base)) as [Hlt|Hge].
  - rewrite Z.mod_small, Z.div_small by lia. by destruct fuel.
  - rewrite IH; [done| |].
    + split; [apply Z.div_str_pos; lia|]. apply Z.div_lt_upper_bound; [lia|]. nia.
    + apply Z.div_lt_upper_bound; [lia|]. rewrite Nat2Z.inj_succ, Z.pow_succ_r in Hf by lia. lia.
Qed.

Lemma value_snoc b ds d : value b (ds ++ [d]) = value b ds * b + d.
Proof. unfold value. by rewrite fold_left_app. Qed.

Lemma to_digits_value fuel b : forall n, 2 <= b -> 0 <= n < b ^ Z.of_nat fuel -> value b (reverse (to_digits fuel b n)) = n.
Proof.
  induction fuel as [|fuel IH]; intros n Hb Hn; [cbn in *; lia|]. cbn [to_digits].
  destruct (Z.ltb_spec n b) as [Hlt|Hge]; [cbn; lia|]. rewrite reverse_cons, value_snoc, IH; [|lia|].
  - pose proof (Z.div_mod n b). lia.
  - rewrite Nat2Z.inj_succ, Z.pow_succ_r in Hn by lia. split; [apply Z.div_pos; lia|].
    apply Z.div_lt_upper_bound; lia.
Qed.

Lemma to_digits_range fuel b n : 2 <= b -> 0 <= n -> Forall (fun d => 0 <= d < b) (to_digits fuel b n).
Proof.
  revert n. induction fuel as [|fuel IH]; intros n Hb Hn; cbn [to_digits]; [constructor|].
  destruct (Z.ltb_spec n b); constructor; [lia|constructor|apply Z.mod_pos_bound; lia|]. apply IH; [lia|]. apply Z.div_pos; lia.
Qed.

Lemma numeral_value b n : 10 <= b <= 16 -> 0 <= n < 2 ^ 32 -> value b (numeral b n) = n.
Proof.
  intros Hb Hn. apply to_digits_value; [lia|]. assert (10 ^ 16 <= b ^ 16) by (apply Z.pow_le_mono_l; lia). lia.
Qed.

(** The text of a number: [sign], blanks or zeros up to the width, zeros up to the precision, digits. *)
Definition number_text (sign ds : list Z) (width precision type : Z) : list Z :=
  let body := replicate (Z.to_nat (precision - Z.of_nat (length ds))) (ch "0") ++ ds in
  let gap := Z.to_nat (width - Z.of_nat (length body) - Z.of_nat (length sign)) in
  if nz (Z.land type LEFT) then sign ++ body ++ replicate gap (ch " ")
  else if nz (Z.land type ZEROPAD) then sign ++ replicate gap (ch "0") ++ body
  else replicate gap (ch " ") ++ sign ++ body.

Definition sign_text (type num : Z) : list Z :=
  if nz (Z.land type SIGN) then
    if num <? 0 then [ch "-"]
    else if nz (Z.land type PLUS) then [ch "+"]
    else if nz (Z.land type SPACE) then [ch " "] else []
  else [].
(** The magnitude that is printed of the [long] value [num]. *)
Definition magnitude (type num : Z) : Z := if nz (Z.land type SIGN) then Z.abs num else u32 num.

Definition int_text (num base width precision type : Z) : list Z :=
  number_text (sign_text type num) (digit (nz (Z.land type LARGE)) <$> numeral (radix base) (magnitude type num))
    width precision type.

Lemma nz_lor a b : nz (Z.lor a b) = (nz a || nz b)%bool.
Proof.
  unfold nz. destruct (Z.eqb_spec (Z.lor a b) 0) as [E|E].
  - apply Z.lor_eq_0_iff in E as [-> ->]. done.
  - destruct (Z.eqb_spec a 0), (Z.eqb_spec b 0); subst; done.
Qed.

Lemma land_clear type f : Z.land (not32 ZEROPAD) f = f -> Z.land (Z.land type (not32 ZEROPAD)) f = Z.land type f.
Proof. intros E. by rewrite <- Z.land_assoc, E. Qed.

Lemma nz_sign (c : Z) : c <> 0 -> nz c = true.
Proof. apply nz_true. Qed.

Lemma length_to_digits b n : (length (to_digits 16 b n) <= 16)%nat.
Proof.
  generalize 16%nat. intros fuel. revert n. induction fuel as [|fuel IH]; intros n; cbn [to_digits]; [done|].
  destruct (n <? b); cbn; [lia|]. specialize (IH (n / b)). lia.
Qed.

Section body.
Context (e b sign c i precision : Z) (tmp : list Z) (l : bool).
#[local] Notation body := (replicate (Z.to_nat (precision - i)) (ch "0") ++ reverse tmp).

(** The digits and what is in front of and behind them. *)
Lemma digits_emits size s : - 2 ^ 31 + 1 < size < 2 ^ 31 ->
  emits e b (size <- (if negb l then pads e size c else ret size);;
             zeros (Z.to_nat (precision - i)) e i precision;;; put_digits e tmp;;;
             _ <- pads e size (ch " ");; ret tt)
    (if l then body ++ replicate (Z.to_nat size) (ch " ") else replicate (Z.to_nat size) c ++ body) (fun _ => True) s.
Proof.
  intros Hs. destruct l; cbn [negb].
  - rewrite <- app_assoc. apply (emits_bind _ _ _ _ [] _ (fun r => r = size)); [by apply emits_ret|]. intros ? s1 -> _.
    eapply emits_bind; [by apply zeros_emits|]. intros [] s2 _ _. eapply emits_bind; [apply put_digits_emits|]. intros [] s3 _ _.
    rewrite <- (app_nil_r (replicate _ _)). eapply emits_bind; [apply pads_emits; lia|]. intros ? s4 _ _. by apply emits_ret.
  - eapply emits_bind; [apply pads_emits; lia|]. intros ? s1 -> _.
    eapply emits_bind; [by apply zeros_emits|]. intros [] s2 _ _. rewrite <- (app_nil_r (reverse tmp)).
    eapply emits_bind; [apply put_digits_emits|]. intros [] s3 _ _.
    apply (emits_bind _ _ _ _ [] [] (fun _ => True)); [|intros; by apply emits_ret].
    pose proof (pads_emits e b (size `min` 0 - 1) (ch " ") s3) as HP. rewrite Z2Nat.nonpos in HP by lia.
    eapply emits_mono; [apply HP; lia|done].
Qed.

Lemma sign_emits size s : sign <> 0 -> - 2 ^ 31 + 2 < size < 2 ^ 31 ->
  emits e b (size <- (p <- gets str;;
             size <- (if p <=? e then store p sign;;; ret (s32 (size - 1)) else ret size);; inc_str;;; ret size);;
             size <- (if negb l then pads e size c else ret size);;
             zeros (Z.to_nat (precision - i)) e i precision;;; put_digits e tmp;;;
             _ <- pads e size (ch " ");; ret tt)
    ([sign] ++ if l then body ++ replicate (Z.to_nat (size - 1)) (ch " ") else replicate (Z.to_nat (size - 1)) c ++ body)
    (fun _ => True) s.
Proof.
  intros Hs0 Hs Hr. destruct (put_emits e b sign s Hr) as ([] & s1 & E & O & F & A & _).
  assert (Hr1 : ready e b s1) by (by eapply outs_ready).
  set (size' := if str s <=? e then size - 1 else size).
  assert (Es : (p <- gets str;; size <- (if p <=? e then store p sign;;; ret (s32 (size - 1)) else ret size);;
                inc_str;;; ret size) s = Done size' s1).
  { revert E. unfold put, size', bind, gets. cbn. destruct (str s <=? e); cbn [when].
    - unfold bind, ret. destruct (store (str s) sign s); [|done]. unfold inc_str, modify. intros [= <-].
      by rewrite s32_small by lia.
    - unfold ret, inc_str, modify. by intros [= <-]. }
  rewrite (after Es). assert (Hd : emits e b (size <- (if negb l then pads e size' c else ret size');;
             zeros (Z.to_nat (precision - i)) e i precision;;; put_digits e tmp;;; _ <- pads e size (ch " ");; ret tt)
    (if l then body ++ replicate (Z.to_nat (size - 1)) (ch " ") else replicate (Z.to_nat (size - 1)) c ++ body) (fun _ => True) s1).
  { unfold size'. destruct (Z.leb_spec (str s) e) as [Hle|Hgt]; [apply digits_emits; lia|].
    eapply emits_over; [apply (digits_emits size); lia| |].
    - destruct O as [_ O]. cbn in O. lia.
    - destruct l; rewrite !length_app, !length_replicate; lia. }
  destruct (Hd Hr1) as ([] & s2 & E2 & O2 & F2 & A2 & _).
  exists tt, s2. split; [done|]. split; [by eapply outs_app|]. split_and!; [congruence|congruence|done].
Qed.

End body.

Lemma print_body_emits e b sign c i precision type tmp sg l z s width :
  i = Z.of_nat (length tmp) -> i <= precision <= 2 ^ 30 -> sg = (if nz sign then [sign] else []) ->
  nz (Z.land type LEFT) = l -> nz (Z.land type ZEROPAD) = z -> (l = true -> z = false) ->
  c = (if z then ch "0" else ch " ") -> -1 <= width <= 2 ^ 30 ->
  let body := replicate (Z.to_nat (precision - i)) (ch "0") ++ reverse tmp in
  emits e b (print_body e sign (width - precision) c i precision type tmp)
    (if l then sg ++ body ++ replicate (Z.to_nat (width - precision - Z.of_nat (length sg))) (ch " ")
     else if z then sg ++ replicate (Z.to_nat (width - precision - Z.of_nat (length sg))) (ch "0") ++ body
     else replicate (Z.to_nat (width - precision - Z.of_nat (length sg))) (ch " ") ++ sg ++ body) (fun _ => True) s.
Proof.
  intros Hi Hp Hsg Hl Hz Hlz Hc Hw body. unfold print_body. rewrite Z.land_lor_distr_r, nz_lor, Hl, Hz. set (size := width - precision).
  assert (Hs : - 2 ^ 31 + 2 < size < 2 ^ 31 - 1) by lia.
  destruct (nz sign) eqn:Hn; subst sg; cbn [length].
  - assert (sign <> 0) by (intros ->; done).
    destruct (z || l)%bool eqn:Hzl; cbn [negb].
    + apply (emits_bind _ _ _ _ [] _ (fun r => r = size)); [by apply emits_ret|]. intros ? s1 -> _.
      assert (HE := sign_emits e b sign c i precision tmp l size s1 H ltac:(lia)). subst c. destruct l.
      * exact HE.
      * rewrite orb_false_r in Hzl. rewrite Hzl in *. exact HE.
    + apply orb_false_elim in Hzl as [-> ->]. cbn [andb].
      replace (Z.to_nat (size - Z.of_nat 1)) with (Z.to_nat (if 0 <? size then size - 1 else size)) by (destruct (Z.ltb_spec 0 size); lia).
      eapply emits_bind; [apply pads_emits; destruct (Z.ltb_spec 0 size); lia|]. intros size1 s1 Hs1 _.
      assert (HE := sign_emits e b sign c i precision tmp false size1 s1 H).
      assert (size1 < 0 /\ - 2 ^ 31 + 2 < size1 < 2 ^ 31) as [Hneg Hr] by (destruct (Z.ltb_spec 0 size); lia).
      specialize (HE Hr). rewrite (Z2Nat.nonpos (size1 - 1)) in HE by lia. exact HE.
  - cbn [andb]. rewrite Z.sub_0_r. destruct (z || l)%bool eqn:Hzl; cbn [negb].
    + apply (emits_bind _ _ _ _ [] _ (fun r => r = size)); [by apply emits_ret|]. intros ? s1 -> _.
      apply (emits_bind _ _ _ _ [] _ (fun r => r = size)); [by apply emits_ret|]. intros ? s2 -> _.
      assert (HE := digits_emits e b c i precision tmp l size s2 ltac:(lia)). subst c. destruct l.
      * exact HE.
      * rewrite orb_false_r in Hzl. rewrite Hzl in *. exact HE.
    + apply orb_false_elim in Hzl as [-> ->].
      eapply emits_bind; [apply pads_emits; lia|]. intros size1 s1 Hs1 _. cbn in Hs1.
      apply (emits_bind _ _ _ _ [] _ (fun r => r = size1)); [by apply emits_ret|]. intros ? s2 -> _.
      assert (HE := digits_emits e b c i precision tmp false size1 s2 ltac:(lia)). rewrite (Z2Nat.nonpos size1) in HE by lia. exact HE.
Qed.

Lemma digits_done large base mag : 0 <= mag < 2 ^ 32 ->
  exists tmp, (if s32 mag =? 0 then Some [ch "0"] else number_digits 16 large (s32 mag) base) = Some tmp /\
    reverse tmp = digit large <$> numeral (radix base) mag /\ (length tmp <= 16)%nat.
Proof.
  intros Hm. pose proof (radix_bounds base). rewrite s32_eq0 by done. exists (digit large <$> to_digits 16 (radix base) mag).
  split; [|split].
  - destruct (Z.eqb_spec mag 0) as [->|Hne].
    + cbn [to_digits]. by rewrite (proj2 (Z.ltb_lt 0 (radix base))) by lia.
    + apply number_digits_spec; [lia|]. assert (10 ^ 16 <= radix base ^ 16) by (apply Z.pow_le_mono_l; lia). cbn. lia.
  - unfold numeral. by rewrite <- fmap_reverse.
  - rewrite length_fmap. apply length_to_digits.
Qed.

Lemma print_number_emits e b num base width precision type s :
  - 2 ^ 31 <= num < 2 ^ 31 -> -1 <= width <= 2 ^ 30 -> -1 <= precision <= 2 ^ 30 ->
  emits e b (print_number e num base width precision type) (int_text num base width precision type) (fun _ => True) s.
Proof.
  intros Hn Hw Hp. set (type' := if nz (Z.land type LEFT) then Z.land type (not32 ZEROPAD) else type).
  assert (HT : forall f, Z.land (not32 ZEROPAD) f = f -> Z.land type' f = Z.land type f).
  { intros f Hf. unfold type'. destruct (nz _); [by apply land_clear|done]. }
  assert (HZ : nz (Z.land type' ZEROPAD) = (negb (nz (Z.land type LEFT)) && nz (Z.land type ZEROPAD))%bool).
  { unfold type'. destruct (nz (Z.land type LEFT)); [|done]. rewrite <- Z.land_assoc. by rewrite Z.land_0_r. }
  set (mag := magnitude type num).
  assert (Hmag : 0 <= mag < 2 ^ 32).
  { clear -Hn. unfold mag, magnitude. destruct (nz (Z.land type SIGN)); [lia|]. apply u32_range. }
  assert (Hsn : exists sign, (if nz (Z.land type' SIGN) then
      if num <? 0 then (ch "-", s32 (- num)) else if nz (Z.land type' PLUS) then (ch "+", num)
      else if nz (Z.land type' SPACE) then (ch " ", num) else (0, num) else (0, num)) = (sign, s32 mag) /\
      sign_text type num = if nz sign then [sign] else []).
  { unfold sign_text, mag, magnitude. rewrite !HT by done. destruct (nz (Z.land type SIGN)).
    - destruct (Z.ltb_spec num 0) as [H|H].
      + eexists. rewrite Z.abs_neq by lia. done.
      + rewrite Z.abs_eq, s32_small by lia. destruct (nz (Z.land type PLUS)), (nz (Z.land type SPACE)); eexists; done.
    - exists 0. unfold u32. assert (s32 (num mod 2 ^ 32) = num) as ->; [|done].
      rewrite <- (s32_small num) at 2 by lia. unfold s32. by rewrite Zplus_mod_idemp_l. }
  destruct Hsn as (sign & Hsn & Hst).
  destruct (digits_done (nz (Z.land type LARGE)) base mag Hmag) as (tmp & Et & Er & Hlen).
  set (i := Z.of_nat (length tmp)). set (prec := if precision <? i then i else precision).
  assert (Hprec : i <= prec <= 2 ^ 30) by (unfold prec, i; destruct (Z.ltb_spec precision (Z.of_nat (length tmp))); lia).
  assert (E : forall s, print_number e num base width precision type s =
    print_body e sign (width - prec) (if nz (Z.land type' ZEROPAD) then ch "0" else ch " ") i prec type' tmp s).
  { intros s0. unfold print_number. fold type'. rewrite Hsn. cbv iota beta. rewrite Et. mstep.
    fold i prec. rewrite s32_small by lia. reflexivity. }
  intros Hr. rewrite E. revert Hr.
  change (emits e b (print_body e sign (width - prec) (if nz (Z.land type' ZEROPAD) then ch "0" else ch " ") i prec type' tmp)
    (int_text num base width precision type) (fun _ => True) s).
  pose proof (print_body_emits e b sign (if nz (Z.land type' ZEROPAD) then ch "0" else ch " ") i prec type' tmp
    (sign_text type num) (nz (Z.land type LEFT)) (nz (Z.land type' ZEROPAD)) s width eq_refl Hprec Hst) as HB.
  specialize (HB ltac:(by rewrite HT) eq_refl). rewrite HZ in HB.
  specialize (HB ltac:(by destruct (nz (Z.land type LEFT))) eq_refl Hw).
  unfold int_text, number_text. fold mag. rewrite <- Er, HZ. rewrite length_reverse. fold i.
  rewrite !length_app, length_replicate, length_reverse.
  replace (Z.to_nat (precision - i)) with (Z.to_nat (prec - i)) by (unfold prec; destruct (Z.ltb_spec precision i); lia).
  replace (width - Z.of_nat (Z.to_nat (prec - i) + length tmp) - Z.of_nat (length (sign_text type num)))
    with (width - prec - Z.of_nat (length (sign_text type num))) by lia.
  cbn zeta in HB. destruct (nz (Z.land type LEFT)); cbn [negb andb] in *; [|exact HB]. exact HB.
Qed.

(** ** Formats *)

(** A format is a sequence of characters and directives; a directive is a percent sign, flags, a
    width, a precision, a qualifier and the character that says what to print. *)
Inductive width := WNone | WNum (ds : list Z) | WStar.
Inductive precision := PNone | PDot | PNum (ds : list Z) | PStar.
Inductive item := Lit (c : Z) | Dir (fs : list Z) (w : width) (p : precision) (q : list Z) (c : Z).

Definition chars (ds : list Z) : list Z := (fun d => ch "0" + d) <$> ds.
Definition width_fmt (w : width) : list Z :=
  match w with WNone => [] | WNum ds => chars ds | WStar => [ch "*"] end.
Definition precision_fmt (p : precision) : list Z :=
  match p with PNone => [] | PDot => [ch "."] | PNum ds => ch "." :: chars ds | PStar => [ch "."; ch "*"] end.
Definition item_fmt (i : item) : list Z :=
  match i with
  | Lit c => [c]
  | Dir fs w p q c => ch "%" :: fs ++ width_fmt w ++ precision_fmt p ++ q ++ [c]
  end.
Definition items_fmt (l : list item) : list Z := l ≫= item_fmt.

Definition flag_bit (c : Z) : option Z :=
  if c =? ch "-" then Some LEFT else if c =? ch "+" then Some PLUS else if c =? ch " " then Some SPACE
  else if c =? ch "#" then Some SPECIAL else if c =? ch "0" then Some ZEROPAD else None.
Fixpoint flags_of (flags : Z) (fs : list Z) : Z :=
  match fs with [] => flags | c :: fs => flags_of (Z.lor flags (default 0 (flag_bit c))) fs end.

(** The characters that cannot stand for what to print. *)
Definition reserved (c : Z) : bool :=
  bool_decide (is_Some (flag_bit c)) || isdigit c || (c =? ch "*") || (c =? ch ".") || (c =? ch "h") || (c =? ch "l").

Definition digits_ok (ds : list Z) : Prop := ds <> [] /\ Forall (fun d => 0 <= d < 10) ds /\ value 10 ds <= 2 ^ 30.
Definition item_ok (i : item) : Prop :=
  match i with
  | Lit c => 0 < c < 2 ^ 8 /\ c <> ch "%"
  | Dir fs w p q c =>
      Forall (fun c => is_Some (flag_bit c)) fs /\
      match w with WNum ds => digits_ok ds /\ hd 0 ds <> 0 | _ => True end /\
      match p with PNum ds => digits_ok ds | _ => True end /\
      (q = [] \/ q = [ch "h"] \/ q = [ch "l"]) /\ 0 < c < 2 ^ 8 /\ reserved c = false
  end.

(** The width and the precision a directive asks for, with the arguments that are left. *)
Definition width_val (w : width) (flags : Z) (a : list arg) : option (Z * Z * list arg) :=
  match w, a with
  | WNone, _ => Some (-1, flags, a)
  | WNum ds, _ => Some (value 10 ds, flags, a)
  | WStar, AInt v :: a => Some (if s32 v <? 0 then (- s32 v, Z.lor flags LEFT, a) else (s32 v, flags, a))
  | _, _ => None
  end.
Definition precision_val (p : precision) (a : list arg) : option (Z * list arg) :=
  match p, a with
  | PNone, _ => Some (-1, a)
  | PDot, _ => Some (0, a)
  | PNum ds, _ => Some (value 10 ds, a)
  | PStar, AInt v :: a => Some (Z.max 0 (s32 v), a)
  | _, _ => None
  end.

(** [l] in a field of [width] characters. *)
Definition field_text (flags width : Z) (l : list Z) : list Z :=
  let gap := replicate (Z.to_nat (width - Z.of_nat (length l))) (ch " ") in
  if nz (Z.land flags LEFT) then l ++ gap else gap ++ l.
(** The value of an integer argument. *)
Definition int_arg (signed : bool) (q : list Z) (v : Z) : Z :=
  if bool_decide (q = [ch "h"]) then (if signed then s16 v else u16 v) else (if signed then s32 v else u32 v).

Definition conv_text (flags width precision : Z) (q : list Z) (c : Z) (a : list arg) : option (list Z * list arg) :=
  if c =? ch "c" then match a with AInt v :: a => Some (field_text flags width [u8 v], a) | _ => None end
  else if c =? ch "s" then
    match a with
    | AStr s :: a => let s := default NULL_text s in
                     Some (field_text flags width (if 0 <? precision then take (Z.to_nat precision) s else s), a)
    | _ => None
    end
  else if c =? ch "%" then Some ([ch "%"], a)
  else if bool_decide (c ∈ [ch "p"; ch "o"; ch "X"; ch "x"; ch "d"; ch "i"; ch "u"]) then
    match a with
    | AInt v :: a =>
        Some (if c =? ch "p" then
                if width =? -1 then int_text (u32 v) 16 8 precision (Z.lor flags ZEROPAD)
                else int_text (u32 v) 16 width precision flags
              else if (c =? ch "d") || (c =? ch "i") then int_text (int_arg true q v) 10 width precision (Z.lor flags SIGN)
              else if c =? ch "u" then int_text (int_arg false q v) 10 width precision flags
              else if c =? ch "X" then int_text (int_arg false q v) 16 width precision (Z.lor flags LARGE)
              else int_text (int_arg false q v) (if c =? ch "o" then 8 else 16) width precision flags, a)
    | _ => None
    end
  else Some ([ch "%"; c], a).

Definition item_text (i : item) (a : list arg) : option (list Z * list arg) :=
  match i with
  | Lit c => Some ([c], a)
  | Dir fs w p q c =>
      '(width, flags, a) ← width_val w (flags_of 0 fs) a;
      '(precision, a) ← precision_val p a;
      if (width <=? 2 ^ 30) && (precision <=? 2 ^ 30) then conv_text flags width precision q c a else None
  end.
Fixpoint items_text (l : list item) (a : list arg) : option (list Z) :=
  match l with
  | [] => Some []
  | i :: l => '(t, a) ← item_text i a; u ← items_text l a; Some (t ++ u)
  end.

(** ** The parts of rt_vsnprintf *)

Lemma s32_u32 v : s32 (u32 v) = s32 v.
Proof. unfold u32, s32. by rewrite Zplus_mod_idemp_l. Qed.
Lemma u32_u32 v : u32 (u32 v) = u32 v.
Proof. unfold u32. by rewrite Zmod_mod. Qed.
Lemma s16_u16 v : s16 (u16 v) = s16 v.
Proof. unfold u16, s16. by rewrite Zplus_mod_idemp_l. Qed.

Section parts.
Context (e b : Z).

Lemma blanks_emits fuel fw s : (Z.to_nat fw <= fuel)%nat -> - 2 ^ 31 < fw <= 2 ^ 30 ->
  emits e b (blanks fuel e fw) (replicate (Z.to_nat (fw - 1)) (ch " ")) (fun r => r = Z.min (fw - 1) 0) s.
Proof.
  revert fw s. induction fuel as [|fuel IH]; intros fw s Hf Hs; cbn [blanks]; rewrite s32_small by lia;
    destruct (Z.ltb_spec 0 (fw - 1)) as [H|H].
  - lia.
  - rewrite Z2Nat.nonpos by lia. apply emits_ret. lia.
  - replace (Z.to_nat (fw - 1)) with (S (Z.to_nat (fw - 1 - 1))) by lia. cbn [replicate].
    apply (emits_bind _ _ _ _ [ch " "] _ (fun _ => True)); [apply put_emits|]. intros [] s' _ _.
    eapply emits_mono; [apply IH; lia|]. cbn. lia.
  - rewrite Z2Nat.nonpos by lia. apply emits_ret. lia.
Qed.

Lemma blanks_from_emits fuel len fw s : (Z.to_nat fw <= fuel)%nat -> -2 ^ 31 < fw <= 2 ^ 30 -> 0 <= len ->
  emits e b (blanks_from fuel e len fw) (replicate (Z.to_nat (fw - len)) (ch " ")) (fun r => r = Z.min fw len - 1) s.
Proof.
  revert fw s. induction fuel as [|fuel IH]; intros fw s Hf Hs Hl; cbn [blanks_from];
    destruct (Z.ltb_spec len fw) as [H|H]; rewrite ?s32_small by lia.
  - lia.
  - rewrite Z2Nat.nonpos by lia. apply emits_ret. lia.
  - replace (Z.to_nat (fw - len)) with (S (Z.to_nat (fw - 1 - len))) by lia. cbn [replicate].
    apply (emits_bind _ _ _ _ [ch " "] _ (fun _ => True)); [apply put_emits|]. intros [] s' _ _.
    eapply emits_mono; [apply IH; lia|]. cbn. lia.
  - rewrite Z2Nat.nonpos by lia. apply emits_ret. lia.
Qed.

(** [m] prints [txt] and leaves the arguments [a]. *)
Definition prints {A} (m : M vsn A) (txt : list Z) (a : list arg) (Q : A -> Prop) (s : vsn) : Prop :=
  ready e b s -> exists r s', m s = Done r s' /\ outs e s txt s' /\ fmt s' = fmt s /\ args s' = a /\ Q r.

Lemma emits_prints {A} (m : M vsn A) txt Q s a : emits e b m txt Q s -> args s = a -> prints m txt a Q s.
Proof. intros H <- Hr. destruct (H Hr) as (r & s' & ? & ? & ? & ? & ?). exists r, s'. by split_and!. Qed.

Lemma prints_bind {A B} (m : M vsn A) (f : A -> M vsn B) t1 t2 a1 a2 Q R s :
  prints m t1 a1 Q s -> (forall r s', Q r -> args s' = a1 -> prints (f r) t2 a2 R s') -> prints (bind m f) (t1 ++ t2) a2 R s.
Proof.
  intros H1 H2 Hr. destruct (H1 Hr) as (r & s1 & E1 & O1 & F1 & A1 & HQ).
  destruct (H2 r s1 HQ A1 (outs_ready _ _ _ _ _ Hr O1)) as (c & s2 & E2 & O2 & F2 & A2 & HR).
  exists c, s2. rewrite (after E1). split; [done|]. split; [by eapply outs_app|]. split_and!; [congruence|done|done].
Qed.

Lemma prints_then {A B} (m : M vsn A) (f : A -> M vsn B) t a1 a2 Q R s :
  prints m t a1 Q s -> (forall r s', Q r -> args s' = a1 -> prints (f r) [] a2 R s') -> prints (bind m f) t a2 R s.
Proof. intros H1 H2. rewrite <- (app_nil_r t). by eapply prints_bind. Qed.

Lemma prints_first {A B} (m : M vsn A) (f : A -> M vsn B) t a1 a2 Q R s :
  prints m [] a1 Q s -> (forall r s', Q r -> args s' = a1 -> prints (f r) t a2 R s') -> prints (bind m f) t a2 R s.
Proof. intros H1 H2. by eapply (prints_bind m f [] t). Qed.

Lemma va_int_prints v a s : args s = AInt v :: a -> prints va_int [] a (fun r => r = v) s.
Proof.
  intros E _. unfold va_int. mstep. rewrite E. mstep. exists v, (set_args a s). split_and!; try done. by apply outs_nil.
Qed.
Lemma va_str_prints v a s : args s = AStr v :: a -> prints va_str [] a (fun r => r = v) s.
Proof.
  intros E _. unfold va_str. mstep. rewrite E. mstep. exists v, (set_args a s). split_and!; try done. by apply outs_nil.
Qed.

Lemma print_char_prints flags width v a s : -1 <= width <= 2 ^ 30 -> args s = AInt v :: a ->
  prints (print_char e flags width) (field_text flags width [u8 v]) a (fun _ => True) s.
Proof.
  intros Hw Ha. unfold print_char, field_text. cbn [length]. change (Z.of_nat 1) with 1. destruct (nz (Z.land flags LEFT)); cbn [negb].
  - apply (prints_bind _ _ [] _ (AInt v :: a) _ (fun r => r = width)); [apply emits_prints; [by apply emits_ret|done]|].
    intros ? s1 -> A1. apply (prints_bind _ _ [] _ a _ (fun r => r = v)); [by apply va_int_prints|]. intros ? s2 -> A2.
    apply (prints_bind _ _ [u8 v] _ a _ (fun _ => True)); [apply emits_prints; [apply put_emits|exact A2]|]. intros [] s3 _ A3.
    rewrite <- (app_nil_r (replicate _ _)). eapply prints_bind; [apply emits_prints; [apply blanks_emits; lia|exact A3]|].
    intros ? s4 _ A4. apply emits_prints; [by apply emits_ret|done].
  - eapply prints_bind; [apply emits_prints; [apply blanks_emits; lia|exact Ha]|].
    intros ? s1 -> A1. apply (prints_bind _ _ [] _ a _ (fun r => r = v)); [by apply va_int_prints|]. intros ? s2 -> A2.
    apply (prints_bind _ _ [u8 v] [] a _ (fun _ => True)); [apply emits_prints; [apply put_emits|exact A2]|]. intros [] s3 _ A3.
    pose proof (blanks_emits (Z.to_nat (Z.min (width - 1) 0)) (Z.min (width - 1) 0) s3) as HB.
    rewrite (Z2Nat.nonpos (Z.min (width - 1) 0 - 1)) in HB by lia. apply (prints_bind _ _ [] [] a _ (fun _ => True)).
    { apply emits_prints; [|exact A3]. eapply emits_mono; [apply HB; lia|done]. }
    intros ? s4 _ A4. apply emits_prints; [by apply emits_ret|done].
Qed.

Lemma print_string_prints flags width precision v a s : -1 <= width <= 2 ^ 30 -> args s = AStr v :: a ->
  let l := default NULL_text v in
  prints (print_string e flags width precision)
    (field_text flags width (if 0 <? precision then take (Z.to_nat precision) l else l)) a (fun _ => True) s.
Proof.
  intros Hw Ha l. unfold print_string.
  apply (prints_bind _ _ [] _ a _ (fun r => r = v)); [by apply va_str_prints|]. intros ? s0 -> A0.
  assert ((match v with Some s => s | None => NULL_text end) = l) as -> by (by destruct v).
  set (txt := if 0 <? precision then take (Z.to_nat precision) l else l).
  set (len := if ((0 <? precision) && (precision <? Z.of_nat (length l)))%bool then precision else Z.of_nat (length l)).
  assert (len = Z.of_nat (length txt) /\ take (Z.to_nat len) l = txt) as [El Et].
  { unfold len, txt. destruct (Z.ltb_spec 0 precision); cbn [andb].
    - rewrite length_take. destruct (Z.ltb_spec precision (Z.of_nat (length l))); [split; [lia|done]|].
      split; [lia|]. rewrite !take_ge by lia. done.
    - split; [done|]. rewrite take_ge by lia. done. }
  rewrite Et. unfold field_text. rewrite <- El. assert (0 <= len) by lia. destruct (nz (Z.land flags LEFT)); cbn [negb].
  - apply (prints_bind _ _ [] _ a _ (fun r => r = width)); [apply emits_prints; [by apply emits_ret|done]|].
    intros ? s1 -> A1. eapply prints_bind; [apply emits_prints; [apply put_string_emits|exact A1]|]. intros [] s3 _ A3.
    rewrite <- (app_nil_r (replicate _ _)). eapply prints_bind; [apply emits_prints; [apply blanks_from_emits; lia|exact A3]|].
    intros ? s4 _ A4. apply emits_prints; [by apply emits_ret|done].
  - eapply prints_bind; [apply emits_prints; [apply blanks_from_emits; lia|exact A0]|].
    intros fw s1 -> A1. eapply prints_then; [apply emits_prints; [apply put_string_emits|exact A1]|]. intros [] s3 _ A3.
    pose proof (blanks_from_emits (Z.to_nat (Z.min width len - 1)) len (Z.min width len - 1) s3) as HB.
    rewrite (Z2Nat.nonpos (Z.min width len - 1 - len)) in HB by lia.
    eapply prints_then; [apply emits_prints; [apply HB; lia|exact A3]|].
    intros ? s4 _ A4. apply emits_prints; [by apply emits_ret|done].
Qed.

Lemma number_prints num base width precision flags v a s : args s = a ->
  - 2 ^ 31 <= s32 num < 2 ^ 31 -> -1 <= width <= 2 ^ 30 -> -1 <= precision <= 2 ^ 30 ->
  (nz (Z.land flags SIGN) = true -> s32 num = v) -> u32 num = u32 v ->
  prints (print_number e (s32 num) base width precision flags) (int_text v base width precision flags) a (fun _ => True) s.
Proof.
  intros Ha Hn Hw Hp Hs Hu. apply emits_prints; [|done].
  replace (int_text v base width precision flags) with (int_text (s32 num) base width precision flags).
  - by apply print_number_emits.
  - unfold int_text, sign_text, magnitude. destruct (nz (Z.land flags SIGN)); [by rewrite Hs|]. by rewrite u32_s32, Hu.
Qed.

Lemma print_int_prints flags q base width precision v a s qc :
  (q = [] /\ qc = 0 \/ q = [ch "h"] /\ qc = ch "h" \/ q = [ch "l"] /\ qc = ch "l") ->
  args s = AInt v :: a -> -1 <= width <= 2 ^ 30 -> -1 <= precision <= 2 ^ 30 ->
  prints (print_int e flags qc base width precision)
    (int_text (int_arg (nz (Z.land flags SIGN)) q v) base width precision flags) a (fun _ => True) s.
Proof.
  intros Hq Ha Hw Hp. unfold print_int. eapply prints_first; [by apply va_int_prints|]. intros ? s1 -> A1.
  apply number_prints; [done|apply s32_range|done|done| |].
  - intros Hs. rewrite Hs. destruct Hq as [[-> ->]|[[-> ->]|[-> ->]]].
    + apply s32_u32.
    + change (s32 (u32 (s16 (u16 v))) = s16 v). rewrite s32_u32, s16_u16. apply s32_small.
      unfold s16. pose proof (Z.mod_pos_bound (v + 2 ^ 15) (2 ^ 16)). lia.
    + apply s32_u32.
  - destruct Hq as [[-> ->]|[[-> ->]|[-> ->]]], (nz (Z.land flags SIGN)).
    + change (u32 (u32 v) = u32 (s32 v)). by rewrite u32_s32, u32_u32.
    + done.
    + change (u32 (u32 (s16 (u16 v))) = u32 (s16 v)). by rewrite u32_u32, s16_u16.
    + done.
    + change (u32 (u32 v) = u32 (s32 v)). by rewrite u32_s32, u32_u32.
    + done.
Qed.
End parts.

Lemma prints_peek {A} e b (f : Z -> M vsn A) c rest t a Q s : fmt s = c :: rest ->
  prints e b (f c) t a Q s -> prints e b (bind peek f) t a Q s.
Proof. intros Hf H Hr. destruct (H Hr) as (r & s' & E & X). exists r, s'. split; [|exact X]. unfold peek. mstep. by rewrite Hf. Qed.

Lemma directive_prints e b flags width precision q qc c rest a t a' s :
  fmt s = c :: rest -> c <> 0 -> args s = a -> nz (Z.land flags SIGN) = false ->
  (q = [] /\ qc = 0 \/ q = [ch "h"] /\ qc = ch "h" \/ q = [ch "l"] /\ qc = ch "l") ->
  -1 <= width <= 2 ^ 30 -> -1 <= precision <= 2 ^ 30 -> conv_text flags width precision q c a = Some (t, a') ->
  prints e b (directive e flags width precision qc) t a' (fun stay => stay = false) s.
Proof.
  intros Hf Hc Ha Hsg Hq Hw Hp Ht.
  assert (HD : forall m : M vsn unit, prints e b m t a' (fun _ => True) s -> prints e b (m;;; ret false) t a' (fun r => r = false) s).
  { intros m Hm. eapply prints_then; [exact Hm|]. intros ? s1 _ A1. apply emits_prints; [by apply emits_ret|done]. }
  assert (HS : forall f, Z.land f SIGN = 0 -> nz (Z.land (Z.lor flags f) SIGN) = false).
  { intros f Hz. by rewrite Z.land_lor_distr_l, Hz, Z.lor_0_r. }
  unfold directive. apply (prints_peek e b _ c rest _ _ _ s Hf). revert Ht. unfold conv_text.
  destruct (Z.eqb_spec c (ch "c")) as [->|].
  { destruct a as [|[v|] a0]; [done| |done]. intros [= <- <-]. by apply HD, print_char_prints. }
  destruct (Z.eqb_spec c (ch "s")) as [->|].
  { destruct a as [|[|v] a0]; [done|done|]. intros [= <- <-]. by apply HD, print_string_prints. }
  destruct (Z.eqb_spec c (ch "p")) as [->|].
  { change (ch "p" =? ch "%") with false. cbv iota. rewrite bool_decide_true by set_solver.
    destruct a as [|[v|] a0]; [done| |done]. intros [= <- <-].
    destruct (width =? -1); (eapply prints_first; [by apply va_int_prints|]); intros ? s1 -> A1; eapply prints_then;
      try (intros ? s2 _ A2; apply emits_prints; [by apply emits_ret|exact A2]);
      (apply number_prints; [exact A1|apply s32_range|lia|done| |by rewrite u32_u32]).
    - by rewrite HS.
    - by rewrite Hsg. }
  destruct (Z.eqb_spec c (ch "%")) as [->|].
  { intros [= <- <-]. by apply HD, emits_prints; [apply put_emits|]. }
  assert (HI : forall fl base sg, nz (Z.land fl SIGN) = sg -> forall v a0, a = AInt v :: a0 ->
    prints e b (print_int e fl qc base width precision) (int_text (int_arg sg q v) base width precision fl) a0 (fun _ => True) s).
  { intros fl base sg <- v a0 E. apply print_int_prints; [done|congruence|done|done]. }
  assert (HSg : nz (Z.land (Z.lor flags SIGN) SIGN) = true).
  { rewrite Z.land_lor_distr_l, nz_lor. apply orb_true_r. }
  case_bool_decide as Hin.
  - destruct a as [|[v|] a0]; [done| |done].
    destruct (Z.eqb_spec c (ch "o")) as [->|]; [intros [= <- <-]; by apply HD, HI|].
    destruct (Z.eqb_spec c (ch "X")) as [->|]; [intros [= <- <-]; by apply HD, HI; [apply HS|]|].
    destruct (Z.eqb_spec c (ch "x")) as [->|]; [intros [= <- <-]; by apply HD, HI|].
    destruct (Z.eqb_spec c (ch "d")) as [->|]; [intros [= <- <-]; by apply HD, HI|].
    destruct (Z.eqb_spec c (ch "i")) as [->|]; [intros [= <- <-]; by apply HD, HI|].
    destruct (Z.eqb_spec c (ch "u")) as [->|]; [intros [= <- <-]; by apply HD, HI|].
    exfalso. set_solver.
  - intros [= <- <-]. repeat (rewrite (proj2 (Z.eqb_neq c _)) by set_solver). cbn [orb].
    apply (prints_bind _ _ _ _ [ch "%"] [c] (args s) _ (fun _ => True)); [by apply emits_prints; [apply put_emits|]|].
    intros [] s1 _ A1. rewrite nz_true by done. eapply prints_then; [apply emits_prints; [apply put_emits|exact A1]|].
    intros ? s2 _ A2. apply emits_prints; [by apply emits_ret|congruence].
Qed.

(** *** Reading a directive *)

Lemma set_fmt_twice f g s : set_fmt f (set_fmt g s) = set_fmt f s.
Proof. done. Qed.

Lemma peek_done s c r : fmt s = c :: r -> peek s = Done c s.
Proof. intros E. unfold peek, gets. by rewrite E. Qed.
Lemma peek_hd s : peek s = Done (hd 0 (fmt s)) s.
Proof. done. Qed.
Lemma advance_done s c r : fmt s = c :: r -> advance s = Done tt (set_fmt r s).
Proof. intros E. unfold advance. mstep. by rewrite E. Qed.

Lemma get_flags_done fs : forall fuel x rest flags s, fmt s = x :: fs ++ rest ->
  Forall (fun c => is_Some (flag_bit c)) fs -> flag_bit (hd 0 rest) = None -> (length fs < fuel)%nat ->
  get_flags fuel flags s = Done (flags_of flags fs) (set_fmt rest s).
Proof.
  induction fs as [|c fs IH]; intros fuel x rest flags s Hf Hfs Hr Hfu; (destruct fuel as [|fuel]; [cbn in Hfu; lia|]); cbn [get_flags].
  - rewrite (after (advance_done _ _ _ Hf)), (after (peek_hd _)). cbn [fmt set_fmt app].
    revert Hr. unfold flag_bit. repeat (destruct (_ =? _); [done|]). done.
  - apply Forall_cons in Hfs as [Hc Hfs]. rewrite (after (advance_done _ _ _ Hf)), (after (peek_hd _)).
    cbn [fmt set_fmt app hd]. cbn [flags_of]. cbn in Hfu.
    assert (H : forall fl, get_flags fuel fl (set_fmt (c :: fs ++ rest) s) = Done (flags_of fl fs) (set_fmt rest s)).
    { intros fl. rewrite (IH fuel c rest fl); [done|done|done|done|lia]. }
    revert Hc. unfold flag_bit. repeat (destruct (_ =? _); [intros _; apply H|]). by intros [? ?].
Qed.

Lemma isdigit_char d : 0 <= d < 10 -> isdigit (ch "0" + d) = true.
Proof. intros Hd. unfold isdigit. replace (ch "0" + d - ch "0") with d by lia. rewrite u32_small by lia. apply Z.ltb_lt. lia. Qed.

Lemma fold_value_ge ds : forall i, 0 <= i -> Forall (fun d => 0 <= d < 10) ds -> i <= fold_left (fun v d => v * 10 + d) ds i.
Proof.
  induction ds as [|d ds IH]; intros i Hi Hd; cbn; [lia|]. apply Forall_cons in Hd as [Hd Hds].
  specialize (IH (i * 10 + d) ltac:(lia) Hds). lia.
Qed.

Lemma skip_atoi_done ds : forall fuel i rest s, fmt s = chars ds ++ rest -> Forall (fun d => 0 <= d < 10) ds ->
  isdigit (hd 0 rest) = false -> (length ds <= fuel)%nat -> 0 <= i -> fold_left (fun v d => v * 10 + d) ds i < 2 ^ 31 ->
  skip_atoi fuel i s = Done (fold_left (fun v d => v * 10 + d) ds i) (set_fmt rest s).
Proof.
  induction ds as [|d ds IH]; intros fuel i rest s Hf Hds Hr Hfu Hi Hv.
  - destruct fuel; cbn [skip_atoi]; rewrite (after (peek_hd s)), Hf; cbn [chars fmap list_fmap app]; rewrite Hr;
      unfold ret; f_equal; destruct s; cbn in *; by subst.
  - destruct fuel as [|fuel]; [cbn in Hfu; lia|]. cbn [skip_atoi]. apply Forall_cons in Hds as [Hd Hds].
    cbn [chars fmap list_fmap app] in Hf. rewrite (after (peek_done _ _ _ Hf)), isdigit_char by done.
    rewrite (after (advance_done _ _ _ Hf)). cbn [fold_left] in *.
    replace (i * 10 + (ch "0" + d) - ch "0") with (i * 10 + d) by lia.
    pose proof (fold_value_ge ds (i * 10 + d) ltac:(lia) Hds).
    rewrite s32_small by lia. rewrite (IH fuel _ rest); [done|done|done|done|cbn in Hfu; lia|lia|done].
Qed.

(** What can follow the width: not a digit and not a star. *)
Definition ends (c : Z) : Prop := isdigit c = false /\ c <> ch "*".

Lemma get_width_done w flags rest s w' fl' a' : fmt s = width_fmt w ++ rest ->
  match w with WNum ds => digits_ok ds | _ => True end -> ends (hd 0 rest) ->
  width_val w flags (args s) = Some (w', fl', a') -> w' <= 2 ^ 30 ->
  get_width flags s = Done (w', fl') (Vsn (str s) (obuf s) rest a').
Proof.
  intros Hf Hw [Hd Hs] Hv Hb. unfold get_width. rewrite (after (peek_hd s)). mstep. destruct w as [|ds|]; cbn in Hf, Hv.
  - rewrite Hf, Hd, (proj2 (Z.eqb_neq _ _) Hs). injection Hv as <- <- <-. unfold ret. do 2 f_equal. by rewrite <- Hf; destruct s.
  - destruct Hw as (Hne & Hds & Hle). destruct ds as [|d ds]; [done|].
    assert (isdigit (hd 0 (fmt s)) = true) as ->.
    { rewrite Hf. cbn. apply isdigit_char. by apply Forall_cons in Hds as [? _]. }
    rewrite (after (skip_atoi_done (d :: ds) (length (fmt s)) 0 rest s Hf Hds Hd ltac:(rewrite Hf, length_app; unfold chars; rewrite length_fmap; lia) ltac:(lia) ltac:(unfold value in Hle; lia))).
    injection Hv as <- <- <-. done.
  - rewrite Hf. cbn [app hd]. change (isdigit (ch "*")) with false. rewrite Z.eqb_refl. cbv iota.
    rewrite (after (advance_done _ _ _ Hf)). unfold va_int. repeat mstep. cbn [args set_fmt].
    destruct (args s) as [|[v|] a]; [done| |done]. repeat mstep. injection Hv as Hv.
    destruct (Z.ltb_spec (s32 v) 0); injection Hv as <- <- <-; [|done].
    rewrite s32_small by (pose proof (s32_range v); lia). done.
Qed.

Lemma get_precision_done p rest s p' a' : fmt s = precision_fmt p ++ rest ->
  match p with PNum ds => digits_ok ds | _ => True end -> ends (hd 0 rest) -> hd 0 rest <> ch "." ->
  precision_val p (args s) = Some (p', a') -> get_precision s = Done p' (Vsn (str s) (obuf s) rest a').
Proof.
  intros Hf Hp [Hd Hs] Hdot Hv. unfold get_precision. rewrite (after (peek_hd s)). destruct p as [| |ds|]; cbn in Hf, Hv.
  - rewrite Hf, (proj2 (Z.eqb_neq _ _) Hdot). injection Hv as <- <-. unfold ret. f_equal. by rewrite <- Hf; destruct s.
  - rewrite Hf. cbn [hd]. rewrite Z.eqb_refl, (after (advance_done _ _ _ Hf)), (after (peek_hd _)). mstep. cbn [fmt set_fmt].
    rewrite Hd, (proj2 (Z.eqb_neq _ _) Hs). mstep. by injection Hv as <- <-.
  - rewrite Hf. cbn [hd]. rewrite Z.eqb_refl, (after (advance_done _ _ _ Hf)), (after (peek_hd _)). mstep. cbn [fmt set_fmt].
    destruct Hp as (Hne & Hds & Hle). destruct ds as [|d ds]; [done|].
    assert (isdigit (hd 0 (chars (d :: ds) ++ rest)) = true) as ->.
    { cbn. apply isdigit_char. by apply Forall_cons in Hds as [? _]. }
    rewrite (after (skip_atoi_done (d :: ds) (length (chars (d :: ds) ++ rest)) 0 rest (set_fmt (chars (d :: ds) ++ rest) s) eq_refl Hds Hd
      ltac:(rewrite length_app; unfold chars; rewrite length_fmap; lia) ltac:(lia) ltac:(unfold value in Hle; lia))).
    injection Hv as <- <-. pose proof (fold_value_ge (d :: ds) 0 ltac:(lia) Hds). fold (value 10 (d :: ds)) in *.
    rewrite (proj2 (Z.ltb_ge _ _)) by lia. done.
  - rewrite Hf. cbn [hd app]. rewrite Z.eqb_refl, (after (advance_done _ _ _ Hf)), (after (peek_hd _)). mstep. cbn [fmt set_fmt hd].
    change (isdigit (ch "*")) with false. rewrite Z.eqb_refl. cbv iota.
    rewrite bind_assoc, (after (advance_done (set_fmt (ch "*" :: rest) s) _ _ eq_refl)). unfold va_int. repeat mstep. cbn [args set_fmt].
    destruct (args s) as [|[v|] a]; [done| |done]. repeat mstep. injection Hv as <- <-.
    unfold ret. f_equal. destruct (Z.ltb_spec (s32 v) 0); lia.
Qed.

Lemma get_qualifier_done q qc rest s : fmt s = q ++ rest ->
  (q = [] /\ qc = 0 \/ q = [ch "h"] /\ qc = ch "h" \/ q = [ch "l"] /\ qc = ch "l") ->
  hd 0 rest <> ch "h" -> hd 0 rest <> ch "l" -> get_qualifier s = Done qc (set_fmt rest s).
Proof.
  intros Hf Hq Hh Hl. unfold get_qualifier. rewrite (after (peek_hd s)). destruct Hq as [[-> ->]|[[-> ->]|[-> ->]]]; cbn in Hf; rewrite Hf.
  - rewrite (proj2 (Z.eqb_neq _ _) Hh), (proj2 (Z.eqb_neq _ _) Hl). cbn [orb]. unfold ret. f_equal. by rewrite <- Hf; destruct s.
  - cbn [hd]. change ((ch "h" =? ch "h") || (ch "h" =? ch "l"))%bool with true. cbv iota. by rewrite (after (advance_done _ _ _ Hf)).
  - cbn [hd]. change ((ch "l" =? ch "h") || (ch "l" =? ch "l"))%bool with true. cbv iota. by rewrite (after (advance_done _ _ _ Hf)).
Qed.

Lemma reserved_false c : reserved c = false ->
  flag_bit c = None /\ ends c /\ c <> ch "." /\ c <> ch "h" /\ c <> ch "l".
Proof.
  unfold reserved, ends. rewrite !orb_false_iff, !Z.eqb_neq, bool_decide_eq_false, <- eq_None_not_Some. tauto.
Qed.

(** What a directive begins with behind its flags, its width and its precision. *)
Lemma qualifier_head q c rest : (q = [] \/ q = [ch "h"] \/ q = [ch "l"]) -> reserved c = false ->
  let x := hd 0 (q ++ c :: rest) in flag_bit x = None /\ ends x /\ x <> ch ".".
Proof. intros [->|[->| ->]] Hc; [by apply reserved_false in Hc as (? & ? & ? & _)|done|done]. Qed.

Lemma precision_head p q c rest : (q = [] \/ q = [ch "h"] \/ q = [ch "l"]) -> reserved c = false ->
  let x := hd 0 (precision_fmt p ++ q ++ c :: rest) in flag_bit x = None /\ ends x.
Proof. intros Hq Hc. destruct p; cbn; [|done..]. by apply (qualifier_head q c rest) in Hq as (? & ? & _). Qed.

Lemma width_head w p q c rest : match w with WNum ds => digits_ok ds /\ hd 0 ds <> 0 | _ => True end ->
  (q = [] \/ q = [ch "h"] \/ q = [ch "l"]) -> reserved c = false ->
  flag_bit (hd 0 (width_fmt w ++ precision_fmt p ++ q ++ c :: rest)) = None.
Proof.
  intros Hw Hq Hc. destruct w as [|ds|]; [by apply (precision_head p q c rest)| |done].
  destruct Hw as ((Hne & Hds & _) & H0). destruct ds as [|d ds]; [done|]. cbn in H0 |- *.
  apply Forall_cons in Hds as [Hd _]. unfold flag_bit, ch. cbn. repeat (rewrite (proj2 (Z.eqb_neq _ _)) by lia). done.
Qed.

Lemma flags_of_nosign fs : forall flags, nz (Z.land flags SIGN) = false -> nz (Z.land (flags_of flags fs) SIGN) = false.
Proof.
  induction fs as [|c fs IH]; intros flags H; [done|]. cbn. apply IH. rewrite Z.land_lor_distr_l, nz_lor, H. cbn [orb].
  unfold flag_bit. by repeat (destruct (_ =? _); [done|]).
Qed.

Lemma width_val_nosign w flags a w' fl' a' : nz (Z.land flags SIGN) = false -> width_val w flags a = Some (w', fl', a') ->
  nz (Z.land fl' SIGN) = false.
Proof.
  intros H E. destruct w as [|ds|]; cbn in E; [by injection E as <- <- <-..|]. destruct a as [|[v|] a]; [done| |done].
  injection E as E. destruct (s32 v <? 0); injection E as <- <- <-; [|done]. by rewrite Z.land_lor_distr_l, nz_lor, H.
Qed.

Lemma value_nonneg ds : Forall (fun d => 0 <= d < 10) ds -> 0 <= value 10 ds.
Proof. intros H. apply (fold_value_ge ds 0); [lia|done]. Qed.

Lemma format_step_item e b i rest t a' s : item_ok i -> fmt s = item_fmt i ++ rest -> item_text i (args s) = Some (t, a') ->
  ready e b s -> exists s', format_step e s = Done tt s' /\ outs e s t s' /\ fmt s' = rest /\ args s' = a'.
Proof.
  intros Hok Hf Ht Hr. unfold format_step. rewrite (after (peek_hd s)). destruct i as [c|fs w p q c].
  - destruct Hok as [Hc Hne]. cbn in Hf, Ht. rewrite Hf. cbn [hd]. rewrite (proj2 (Z.eqb_neq _ _) Hne). cbn [negb].
    injection Ht as <- <-. destruct (put_emits e b c s Hr) as ([] & s1 & E & O & F & A & _).
    rewrite (after E). exists (set_fmt rest s1). split; [apply advance_done with c; congruence|]. done.
  - destruct Hok as (Hfs & Hw & Hp & Hq & Hc & Hres). cbn [item_fmt] in Hf. cbn [app] in Hf. rewrite <- !app_assoc in Hf.
    cbn [app] in Hf. assert (hd 0 (fmt s) = ch "%") as -> by (by rewrite Hf). rewrite Z.eqb_refl. cbn [negb]. mstep.
    rewrite (after (get_flags_done fs (length (fmt s)) _ _ 0 s Hf Hfs (width_head _ _ _ _ _ Hw Hq Hres)
      ltac:(rewrite Hf; cbn [length]; rewrite length_app; lia))).
    cbn [item_text] in Ht. destruct (width_val w (flags_of 0 fs) (args s)) as [[[w' fl'] a1]|] eqn:Ew; [|done].
    cbn in Ht. destruct (precision_val p a1) as [[p' a2]|] eqn:Ep; [|done]. cbn in Ht.
    destruct (Z.leb_spec w' (2 ^ 30)) as [Hwb|]; [|done]. destruct (Z.leb_spec p' (2 ^ 30)) as [Hpb|]; [|done]. cbn [andb] in Ht.
    assert (Hw' : -1 <= w').
    { destruct w as [|ds|]; cbn in Ew; [injection Ew as <- _ _; lia|injection Ew as <- _ _|].
      - destruct Hw as ((_ & Hds & _) & _). pose proof (value_nonneg ds Hds). lia.
      - destruct (args s) as [|[v|] ?]; [done| |done]. injection Ew as Ew.
        destruct (Z.ltb_spec (s32 v) 0); injection Ew as <- _ _; lia. }
    assert (Hp' : -1 <= p').
    { destruct p as [| |ds|]; cbn in Ep; [injection Ep as <- _; lia|injection Ep as <- _; lia|injection Ep as <- _|].
      - destruct Hp as (_ & Hds & _). pose proof (value_nonneg ds Hds). lia.
      - destruct a1 as [|[v|] ?]; [done| |done]. injection Ep as <- _. lia. }
    pose proof (precision_head p q c rest Hq Hres) as [_ He1]. pose proof (qualifier_head q c rest Hq Hres) as (_ & He2 & Hdot).
    rewrite (after (get_width_done w _ (precision_fmt p ++ q ++ c :: rest)
      (set_fmt (width_fmt w ++ precision_fmt p ++ q ++ c :: rest) s) w' fl' a1 eq_refl ltac:(destruct w; [done|apply Hw|done]) He1 Ew Hwb)).
    rewrite (after (get_precision_done p (q ++ c :: rest) (Vsn _ _ (precision_fmt p ++ q ++ c :: rest) a1) p' a2 eq_refl Hp He2 Hdot Ep)).
    pose proof (reserved_false c Hres) as (_ & _ & _ & Hh & Hll).
    assert (exists qc, q = [] /\ qc = 0 \/ q = [ch "h"] /\ qc = ch "h" \/ q = [ch "l"] /\ qc = ch "l") as [qc Hqc].
    { destruct Hq as [->|[->| ->]]; eauto 10. }
    rewrite (after (get_qualifier_done q qc (c :: rest) (Vsn _ _ (q ++ c :: rest) a2) eq_refl Hqc Hh Hll)). cbn [fst snd set_fmt str obuf args].
    set (s1 := Vsn (str s) (obuf s) (c :: rest) a2).
    destruct (directive_prints e b fl' w' p' q qc c rest a2 t a' s1) as (stay & s2 & E & O & F & A & ->);
      [done|lia|done|eapply width_val_nosign; [|exact Ew]; by apply flags_of_nosign|done|done|done|done|exact Hr|].
    rewrite (after E). exists (set_fmt rest s2). split; [apply advance_done with c; by rewrite F|]. by split.
Qed.

(** *** The loop *)

Lemma item_fmt_head i : item_ok i -> exists c r, item_fmt i = c :: r /\ c <> 0.
Proof. destruct i as [c|]; cbn; [intros [? _]; exists c; eauto with lia|intros _; by do 2 eexists]. Qed.

Lemma length_items_fmt l : Forall item_ok l -> (length l <= length (items_fmt l))%nat.
Proof.
  induction 1 as [|i l Hi Hl IH]; [done|]. destruct (item_fmt_head i Hi) as (c & r & E & _).
  unfold items_fmt in *. rewrite bind_cons, length_app, E. cbn. lia.
Qed.

Lemma format_loop_items e b l : Forall item_ok l -> forall fuel s txt, (length l <= fuel)%nat -> fmt s = items_fmt l ->
  items_text l (args s) = Some txt -> ready e b s -> exists s', format_loop fuel e s = Done tt s' /\ outs e s txt s'.
Proof.
  induction 1 as [|i l Hi Hl IH]; intros fuel s txt Hfu Hf Ht Hr.
  - injection Ht as <-. exists s. split; [|by apply outs_nil].
    destruct fuel; cbn [format_loop]; rewrite (after (peek_hd s)), Hf; done.
  - destruct fuel as [|fuel]; [cbn in Hfu; lia|]. cbn [format_loop]. rewrite (after (peek_hd s)).
    destruct (item_fmt_head i Hi) as (c & r & E & Hc). assert (hd 0 (fmt s) = c) as -> by (rewrite Hf; cbn; by rewrite E).
    rewrite nz_true by done. cbn in Ht. destruct (item_text i (args s)) as [[t a]|] eqn:Et; [|done]. cbn in Ht.
    destruct (items_text l a) as [u|] eqn:Eu; [|done]. injection Ht as <-.
    destruct (format_step_item e b i (items_fmt l) t a s Hi Hf Et Hr) as (s1 & E1 & O1 & F1 & A1). rewrite (after E1).
    destruct (IH fuel s1 u) as (s2 & E2 & O2); [cbn in Hfu; lia|done|by rewrite A1|by eapply outs_ready|].
    exists s2. split; [done|]. by eapply outs_app.
Qed.

(** ** The formatted text *)

(** [m'] is [m] with [l] and a NUL at [buf], cut to [size] bytes. *)
Definition printed (m : mem) (buf size : Z) (l : list Z) (m' : mem) : Prop :=
  let k := Z.min (Z.of_nat (length l)) (size - 1) in
  (forall i, 0 <= i < k -> m' !! (buf + i) = u8 <$> l !! Z.to_nat i) /\ m' !! (buf + k) = Some 0 /\
  (forall x, x < buf \/ buf + k < x -> m' !! x = m !! x).

Lemma buffer_end_small buf size : 0 < size -> 0 <= buf -> buf + size <= 2 ^ 32 -> buffer_end buf size = buf + size - 1.
Proof. intros. unfold buffer_end. rewrite u32_small by lia. by rewrite (proj2 (Z.ltb_ge _ _)) by lia. Qed.

Lemma outs_printed m buf size txt s : 0 < size -> outs (buf + size - 1) (Vsn buf m (fmt s) (args s)) txt s ->
  let e := buf + size - 1 in printed m buf size txt (<[(if str s <=? e then str s else e) := 0]> (obuf s)).
Proof.
  intros Hs [HM HP] e. cbn in HM, HP. set (k := Z.min (Z.of_nat (length txt)) (size - 1)).
  assert ((if str s <=? e then str s else e) = buf + k) as -> by (destruct (Z.leb_spec (str s) e); lia).
  rewrite HM. split_and!; fold k.
  - intros i Hi. rewrite lookup_insert_ne by lia. rewrite wr_lookup, decide_True by lia. by replace (buf + i - buf) with i by lia.
  - by rewrite lookup_insert_eq.
  - intros x Hx. rewrite lookup_insert_ne by lia. rewrite wr_lookup. by rewrite decide_False by lia.
Qed.

Lemma rt_vsnprintf_done items a txt m buf size : Forall item_ok items -> items_text items a = Some txt ->
  0 < size -> 0 <= buf -> buf + size <= 2 ^ 32 -> valid m buf size ->
  exists k m', rt_vsnprintf m buf size (items_fmt items) a = Done (s32 k) m' /\ printed m buf size txt m' /\
    (k = Z.of_nat (length txt) \/ size <= Z.of_nat (length txt) <= k).
Proof.
  intros Hok Ht Hs Hb Hbs HV. unfold rt_vsnprintf. rewrite buffer_end_small by done. set (s0 := Vsn buf m _ a).
  assert (Hr : ready (buf + size - 1) buf s0). { split; [done|]. cbn. by replace (buf + size - 1 - buf + 1) with size by lia. }
  destruct (format_loop_items (buf + size - 1) buf items Hok (S (length (items_fmt items))) s0 txt) as (s & E & O);
    [pose proof (length_items_fmt items Hok); lia|done|done|done|].
  rewrite (after E). mstep. pose proof (outs_ready _ _ _ _ _ Hr O) as [Hp HV'].
  set (p := if str s <=? buf + size - 1 then str s else buf + size - 1).
  assert (Es : store p 0 s = Done tt (set_out (str s) (<[p := 0]> (obuf s)) s)).
  { unfold store, st. destruct (HV' p) as [v ->]; [|done]. unfold p. destruct (Z.leb_spec (str s) (buf + size - 1)); lia. }
  rewrite (after Es). exists (str s - buf), (<[p := 0]> (obuf s)). split; [done|]. split.
  - apply outs_printed; [done|]. exact O.
  - destruct O as [_ HP]. cbn in HP. lia.
Qed.


Definition demo_out : mem := list_to_map ((fun x => (x, 7)) <$> seqZ 0x100 8).

Lemma demo_out_valid : valid demo_out 0x100 8.
Proof.
  intros x Hx. unfold demo_out. apply elem_of_dom. rewrite dom_list_to_map_L. apply elem_of_list_to_set, list_elem_of_fmap.
  exists (x, 7). split; [done|]. apply list_elem_of_fmap. exists x. split; [done|]. apply elem_of_seqZ. lia.
Qed.


(** ** Decimal numbers are read back *)

Lemma length_to_digits_le fuel b n k : 2 <= b -> 0 <= n < b ^ Z.of_nat k -> (0 < k)%nat -> (length (to_digits fuel b n) <= k)%nat.
Proof.
  revert n k. induction fuel as [|fuel IH]; intros n k Hb Hn Hk; cbn [to_digits length]; [lia|].
  destruct (Z.ltb_spec n b); cbn [length]; [lia|]. destruct k as [|k]; [lia|]. apply le_n_S, IH; [done| |].
  - rewrite Nat2Z.inj_succ, Z.pow_succ_r in Hn by lia. split; [apply Z.div_pos; lia|]. apply Z.div_lt_upper_bound; lia.
  - destruct k; [|lia]. cbn in Hn. lia.
Qed.

Lemma length_numeral n : 0 <= n < 2 ^ 31 -> (length (numeral 10 n) <= 10)%nat.
Proof. intros Hn. unfold numeral. rewrite length_reverse. apply length_to_digits_le; lia. Qed.

Lemma numeral_range n : 0 <= n -> Forall (fun d => 0 <= d < 10) (numeral 10 n).
Proof. intros Hn. unfold numeral. apply Forall_reverse, to_digits_range; lia. Qed.

Lemma digit_chars large ds : Forall (fun d => 0 <= d < 10) ds -> digit large <$> ds = chars ds.
Proof.
  intros H. unfold chars. apply list_fmap_ext. intros i d Hi. unfold digit.
  pose proof (Forall_lookup_1 _ _ _ _ H Hi) as Hd. cbn in Hd. by rewrite (proj2 (Z.ltb_lt _ _)) by lia.
Qed.

Definition percent (c : Z) : item := Dir [] WNone PNone [] c.

Lemma percent_d_text v : 0 <= v < 2 ^ 31 -> items_text [percent (ch "d")] [AInt v] = Some (chars (numeral 10 v)).
Proof.
  intros Hv. change (items_text _ _) with (Some (int_text (s32 v) 10 (-1) (-1) SIGN ++ [])).
  rewrite app_nil_r, s32_small by lia. unfold int_text, sign_text, magnitude. change (nz (Z.land SIGN SIGN)) with true. cbv iota.
  rewrite (proj2 (Z.ltb_ge v 0)) by lia. change (radix 10) with 10. rewrite Z.abs_eq by lia.
  rewrite digit_chars by (apply numeral_range; lia). unfold number_text. cbn [app length].
  rewrite !Z2Nat.nonpos by lia. done.
Qed.

Lemma rt_vsnprintf_skip_atoi_done v m buf size : 0 <= v < 2 ^ 31 -> 10 < size -> 0 <= buf -> buf + size <= 2 ^ 32 -> valid m buf size ->
  exists l m', rt_vsnprintf m buf size (items_fmt [percent (ch "d")]) [AInt v] = Done (Z.of_nat (length l)) m' /\
    (forall i, 0 <= i < Z.of_nat (length l) -> m' !! (buf + i) = l !! Z.to_nat i) /\ m' !! (buf + Z.of_nat (length l)) = Some 0 /\
    (forall p mm a, skip_atoi (length l) 0 (Vsn p mm l a) = Done v (Vsn p mm [] a)).
Proof.
  intros Hv Hs Hb Hbs HV. pose proof (numeral_range v ltac:(lia)) as Hd. pose proof (length_numeral v Hv) as Hl.
  assert (Hlen : length (chars (numeral 10 v)) = length (numeral 10 v)) by (unfold chars; by rewrite length_fmap).
  destruct (rt_vsnprintf_done [percent (ch "d")] [AInt v] (chars (numeral 10 v)) m buf size) as (k & m' & E & (P1 & P2 & _) & Hk);
    [|by apply percent_d_text|lia|done|done|done|].
  { repeat constructor; done. }
  exists (chars (numeral 10 v)), m'. rewrite Z.min_l in P1, P2 by lia. rewrite E. split_and!.
  - f_equal. rewrite s32_small; lia.
  - intros i Hi. rewrite P1 by lia. destruct (chars (numeral 10 v) !! Z.to_nat i) as [c|] eqn:Ec; [|done]. cbn. f_equal.
    unfold chars in Ec. rewrite list_lookup_fmap in Ec. destruct (numeral 10 v !! Z.to_nat i) as [d|] eqn:Edd; [|done].
    injection Ec as <-. pose proof (Forall_lookup_1 _ _ _ _ Hd Edd) as Hdd. cbn in Hdd. unfold u8. rewrite Z.mod_small; [done|]. unfold ch. cbn. lia.
  - done.
  - intros p mm a. rewrite (skip_atoi_done (numeral 10 v) _ 0 []); cbn [fmt]; [|by rewrite app_nil_r|done|done|lia|done|].
    + f_equal. apply (numeral_value 10 v); lia.
    + fold (value 10 (numeral 10 v)). rewrite numeral_value by lia. lia.
Qed.

(** a number that [%d] prints is read back by [skip_atoi]: the buffer holds its digits and a
    NUL, the length returned is theirs, and reading those characters gives the number. *)
Theorem rt_vsnprintf_skip_atoi v m buf size : 0 <= v < 2 ^ 31 -> 10 < size -> 0 <= buf -> buf + size <= 2 ^ 32 -> valid m buf size ->
  exists l m', rt_vsnprintf m buf size (items_fmt [percent (ch "d")]) [AInt v] = Done (Z.of_nat (length l)) m' /\
    (forall i, 0 <= i < Z.of_nat (length l) -> m' !! (buf + i) = l !! Z.to_nat i) /\ m' !! (buf + Z.of_nat (length l)) = Some 0 /\
    (forall p mm a, skip_atoi (length l) 0 (Vsn p mm l a) = Done v (Vsn p mm [] a)).
Proof. apply rt_vsnprintf_skip_atoi_done. Qed.

Lemma rt_vsnprintf_skip_atoi_witness :
  exists l m', rt_vsnprintf demo_data 0x1000 16 (items_fmt [percent (ch "d")]) [AInt 1234567890] = Done (Z.of_nat (length l)) m' /\
    (forall i, 0 <= i < Z.of_nat (length l) -> m' !! (0x1000 + i) = l !! Z.to_nat i) /\ m' !! (0x1000 + Z.of_nat (length l)) = Some 0 /\
    (forall p mm a, skip_atoi (length l) 0 (Vsn p mm l a) = Done 1234567890 (Vsn p mm [] a)).
Proof.
  apply (rt_vsnprintf_skip_atoi 1234567890 demo_data 0x1000 16); [lia|lia|lia|lia|].
  intros x Hx. apply demo_data_bytes. lia.
Defined.

(** ** Nothing is written outside the buffer *)

Section inside.
Context (e b : Z).

(** [m] writes from [b] to [e] only, whatever its result. *)
Definition inside {A} (m : M vsn A) : Prop :=
  forall s a s', b <= str s -> m s = Done a s' -> b <= str s' /\ forall x, x < b \/ e < x -> obuf s' !! x = obuf s !! x.

Lemma inside_ret {A} (a : A) : inside (ret a).
Proof. by intros s ? s' Hb [= <- <-]. Qed.
Lemma inside_gets {A} (f : vsn -> A) : inside (gets f).
Proof. by intros s ? s' Hb [= <- <-]. Qed.
Lemma inside_stuck {A} w : inside (@stuck vsn A w).
Proof. done. Qed.
Lemma inside_bind {A B} (m : M vsn A) (f : A -> M vsn B) : inside m -> (forall a, inside (f a)) -> inside (bind m f).
Proof.
  intros Hm Hf s c s' Hb E. apply bind_inv in E as (a & s1 & E1 & E2).
  destruct (Hm _ _ _ Hb E1) as [Hb1 H1]. destruct (Hf _ _ _ _ Hb1 E2) as [Hb2 H2]. split; [done|]. intros x Hx. by rewrite H2, H1.
Qed.
Lemma inside_keep {A} (m : M vsn A) : (forall s a s', m s = Done a s' -> str s' = str s /\ obuf s' = obuf s) -> inside m.
Proof. intros H s a s' Hb E. destruct (H _ _ _ E) as [-> ->]. done. Qed.

Lemma inside_advance : inside advance.
Proof. apply inside_keep. intros s a s'. unfold advance. mstep. destruct (fmt s); [done|]. by intros [= <- <-]. Qed.
Lemma inside_va_int : inside va_int.
Proof. apply inside_keep. intros s a s'. unfold va_int. mstep. destruct (args s) as [|[v|] l]; [done| |done]. by intros [= <- <-]. Qed.
Lemma inside_va_str : inside va_str.
Proof. apply inside_keep. intros s a s'. unfold va_str. mstep. destruct (args s) as [|[v|v] l]; [done|done|]. by intros [= <- <-]. Qed.
Lemma inside_inc : inside inc_str.
Proof. intros s a s' Hb [= <- <-]. cbn. split; [lia|done]. Qed.

(** A store at the cursor, when it is not behind the end. *)
Lemma inside_store {A} c (k l : M vsn A) : inside k -> inside l ->
  inside (p <- gets str;; if p <=? e then store p c;;; k else l).
Proof.
  intros Hk Hl s a s' Hb. mstep. destruct (Z.leb_spec (str s) e) as [Hle|]; [|by apply Hl].
  intros E. apply bind_inv in E as ([] & s1 & E1 & E2). unfold store in E1. destruct (st _ _ _) as [m'|] eqn:Est; [|done].
  injection E1 as <-. destruct (Hk (set_out (str s) m' s) _ _ Hb E2) as [Hb2 H2]. split; [done|]. intros x Hx. rewrite H2 by done. cbn.
  unfold st in Est. destruct (obuf s !! str s); [|done]. injection Est as <-. by rewrite lookup_insert_ne by lia.
Qed.

Lemma inside_put c : inside (put e c).
Proof.
  intros s a s' Hb E. eapply (inside_store c inc_str inc_str); [apply inside_inc..|exact Hb|]. rewrite <- E. unfold put. mstep. mstep.
  by destruct (str s <=? e).
Qed.
End inside.

Create HintDb inside.
#[export] Hint Resolve inside_ret inside_gets inside_stuck inside_advance inside_va_int inside_va_str inside_inc inside_put : inside.
Ltac inside := repeat (intros; first [solve [eauto with inside] | apply inside_bind | case_match]).

Section inside_parts.
Context (e b : Z).

Lemma inside_pad fuel size c : inside e b (pad fuel e size c).
Proof. revert size. induction fuel; intros size; cbn [pad]; inside. Qed.
Lemma inside_zeros fuel i p : inside e b (zeros fuel e i p).
Proof. revert p. induction fuel; intros p; cbn [zeros]; inside. Qed.
Lemma inside_put_digits tmp : inside e b (put_digits e tmp).
Proof. induction tmp; cbn [put_digits]; inside. Qed.
Lemma inside_put_string l : inside e b (put_string e l).
Proof. induction l; cbn [put_string]; inside. Qed.
Lemma inside_blanks fuel w : inside e b (blanks fuel e w).
Proof. revert w. induction fuel; intros w; cbn [blanks]; inside. Qed.
Lemma inside_blanks_from fuel len w : inside e b (blanks_from fuel e len w).
Proof. revert w. induction fuel; intros w; cbn [blanks_from]; inside. Qed.
Lemma inside_skip_atoi fuel i : inside e b (skip_atoi fuel i).
Proof. revert i. induction fuel; intros i; cbn [skip_atoi]; unfold peek; inside. Qed.
Lemma inside_get_flags fuel fl : inside e b (get_flags fuel fl).
Proof. revert fl. induction fuel; intros fl; cbn [get_flags]; unfold peek; inside. Qed.
Hint Resolve inside_pad inside_zeros inside_put_digits inside_put_string inside_blanks inside_blanks_from
  inside_skip_atoi inside_get_flags : inside.

Lemma inside_sign sign size : inside e b
  (p <- gets str;; size <- (if p <=? e then store p sign;;; ret (s32 (size - 1)) else ret size);; inc_str;;; ret size).
Proof.
  intros s a s' Hb E. eapply (inside_store e b sign (inc_str;;; ret (s32 (size - 1))) (inc_str;;; ret size)); [inside|inside|exact Hb|].
  rewrite <- E. mstep. mstep. destruct (str s <=? e); [|done]. rewrite bind_assoc. apply bind_ext. done.
Qed.
Hint Resolve inside_sign : inside.

Lemma inside_print_number num base w p type : inside e b (print_number e num base w p type).
Proof. unfold print_number, print_body, pads. inside. Qed.
Hint Resolve inside_print_number : inside.

Lemma inside_format_step : inside e b (format_step e).
Proof.
  unfold format_step, peek, get_width, get_precision, get_qualifier, directive, print_char, print_string, print_int, peek. inside.
Qed.
Hint Resolve inside_format_step : inside.

Lemma inside_format_loop fuel : inside e b (format_loop fuel e).
Proof. induction fuel; cbn [format_loop]; unfold peek; inside. Qed.
End inside_parts.

(** whatever the format, even one no directive of which is understood or with arguments that do
    not fit it, [rt_vsnprintf] writes to no byte outside the buffer. *)
Theorem rt_vsnprintf_inside m buf size f a n m' : 0 < size -> 0 <= buf -> buf + size <= 2 ^ 32 ->
  rt_vsnprintf m buf size f a = Done n m' -> forall x, x < buf \/ buf + size <= x -> m' !! x = m !! x.
Proof.
  intros Hs Hb Hbs. unfold rt_vsnprintf. rewrite buffer_end_small by done. intros E x Hx.
  destruct ((_;;; _) _) as [n' s'|] eqn:E1 in E; [|done]. injection E as _ <-. apply bind_inv in E1 as ([] & s1 & E1 & E2).
  destruct (inside_format_loop (buf + size - 1) buf (S (length f)) (Vsn buf m f a) tt s1 (Z.le_refl buf) E1) as [Hb1 H1].
  transitivity (obuf s1 !! x); [|apply (H1 x); lia]. revert E2. mstep. unfold store.
  set (p := if str s1 <=? _ then _ else _). intros E2. apply bind_inv in E2 as (? & s2 & E2 & [= _ <-]).
  destruct (st _ _ _) as [mm|] eqn:Est; [|done]. injection E2 as _ <-. cbn. unfold st in Est. destruct (_ !! p); [|done].
  injection Est as <-. rewrite lookup_insert_ne; [done|]. unfold p. destruct (Z.leb_spec (str s1) (buf + size - 1)); lia.
Qed.

Definition demo_printed : mem := <[0x107 := 0]> (wr 0x107 0x100 (replicate 7 (ch "x")) demo_out).

Lemma rt_vsnprintf_inside_witness : rt_vsnprintf demo_out 0x100 8 (replicate 7 (ch "x")) [] = Done 7 demo_printed /\
  forall x, x < 0x100 \/ 0x100 + 8 <= x -> demo_printed !! x = demo_out !! x.
Proof.
  assert (E : rt_vsnprintf demo_out 0x100 8 (replicate 7 (ch "x")) [] = Done 7 demo_printed) by (vm_compute; reflexivity).
  split; [exact E|]. apply (rt_vsnprintf_inside demo_out 0x100 8 (replicate 7 (ch "x")) [] 7 demo_printed); [lia|lia|lia|exact E].
Defined.

(** ** Where it is not what its callers expect *)

(** The octal conversion prints hexadecimal digits: [divide] knows the bases ten and sixteen only. *)
Lemma percent_o_hexadecimal m buf size v : 16 < size -> 0 <= buf -> buf + size <= 2 ^ 32 -> valid m buf size ->
  exists m', rt_snprintf m buf size [ch "%"; ch "o"] [AInt v] = Done (Z.of_nat (length (numeral 16 (u32 v)))) m' /\
    printed m buf size (digit false <$> numeral 16 (u32 v)) m'.
Proof.
  intros Hs Hb Hbs HV.
  assert (Hl : (length (numeral 16 (u32 v)) <= 16)%nat) by (unfold numeral; rewrite length_reverse; apply length_to_digits).
  destruct (rt_vsnprintf_done [percent (ch "o")] [AInt v] (digit false <$> numeral 16 (u32 v)) m buf size)
    as (k & m' & E & P & Hk); [by repeat constructor| |lia|done|done|done|].
  - change (items_text _ _) with (Some (int_text (u32 v) 8 (-1) (-1) 0 ++ [])). rewrite app_nil_r. unfold int_text, magnitude, number_text.
    change (nz (Z.land 0 SIGN)) with false. cbv iota. rewrite u32_u32. change (radix 8) with 16. cbn [sign_text nz app].
    rewrite !Z2Nat.nonpos by lia. done.
  - exists m'. split; [|done]. rewrite length_fmap in Hk. unfold rt_snprintf. change [ch "%"; ch "o"] with (items_fmt [percent (ch "o")]).
    rewrite E. f_equal. rewrite s32_small; lia.
Qed.

(** With a size of zero the end of the buffer is the end of the address space. *)
Lemma rt_snprintf_size_zero : exists m', rt_snprintf demo_out 0x100 0 [ch "a"; ch "b"] [] = Done 2 m' /\
  m' !! 0x100 = Some (ch "a") /\ m' !! 0x102 = Some 0.
Proof. eexists. vm_compute. split; [reflexivity|done]. Qed.
