(* ===== verification/ObjectType.v ===== *)
(** * The types of kernel objects (src/object.c)

    The kernel casts what it finds in the container of a class to the structure of that
    class, and every call of a component asserts the class of the object it is given.
    This file has the theorem behind both: whatever sequence of object operations is
    carried out, an object is in the container of its own class only, and what a search
    by name finds passes the assertion. *)

From S2P Require Import Prelude RtList Exec KService Mem Kernel Object Scheduler Timer Thread Clock Ipc Sem Decide Demo.

(** ** The search *)

Lemma find_name_done name k l : (forall o, o ∈ l -> is_Some (k_hdr k !! o)) ->
  exists r, find_name name l k = Done r k /\
    match r with
    | Some o => exists l1 l2 h, l = l1 ++ o :: l2 /\ k_hdr k !! o = Some h /\ strncmp_eq RT_NAME_MAX (oname h) name = true
    | None => forall o h, o ∈ l -> k_hdr k !! o = Some h -> strncmp_eq RT_NAME_MAX (oname h) name = false
    end.
Proof.
  induction l as [|o l IH]; intros Hl; cbn [find_name].
  { exists None. split; [done|]. by intros o h ?%elem_of_nil. }
  destruct (Hl o) as [h Hh]; [apply elem_of_cons; by left|]. rewrite (after (hdr_done _ _ _ Hh)).
  destruct (strncmp_eq RT_NAME_MAX (oname h) name) eqn:E.
  - exists (Some o). split; [done|]. by exists [], l, h.
  - destruct IH as (r & Er & Hr); [intros; apply Hl, elem_of_cons; by right|]. exists r. split; [done|]. destruct r as [o'|].
    + destruct Hr as (l1 & l2 & h' & -> & ? & ?). by exists (o :: l1), l2, h'.
    + intros o' h' [->|Ho]%elem_of_cons Ho'; [congruence|by eapply Hr].
Qed.

(** ** Operations *)

(** One operation on the objects of the kernel, or anything that leaves headers and containers alone. *)
Inductive object_step (k k' : kernel) : Prop :=
| StepInit o type name : rt_object_init o type name k = Done tt k' -> object_step k k'
| StepAllocate type name p : rt_object_allocate type name k = Done p k' -> object_step k k'
| StepDetach o : rt_object_detach o k = Done tt k' -> object_step k k'
| StepDelete p : rt_object_delete p k = Done tt k' -> object_step k k'
| StepFlag o f : set_flag o f k = Done tt k' -> object_step k k'
| StepOther : k_hdr k' = k_hdr k -> k_cont k' = k_cont k -> object_step k k'.

Definition typed (k : kernel) : Prop := obj_inv (k_hdr k) (k_cont k).

Lemma assert_inv (b : bool) (k k' : kernel) r : rt_assert b k = Done r k' -> b = true /\ k' = k.
Proof. destruct b; [by intros [= _ <-]|done]. Qed.

Lemma hdr_inv o k h k' : hdr o k = Done h k' -> k_hdr k !! o = Some h /\ k' = k.
Proof. unfold hdr, deref. destruct (k_hdr k !! o); [by intros [= <- <-]|done]. Qed.

Lemma heap_call_inv {A} (m : M heap A) k r k' : heap_call m k = Done r k' -> exists h, k' = upd_heap (fun _ => h) k.
Proof. unfold heap_call, zoom. destruct (m (k_heap k)) as [a h|]; [|done]. intros [= _ <-]. by exists h. Qed.

Lemma not_in_interrupt_inv k r k' : not_in_interrupt k = Done r k' -> k' = k.
Proof. unfold not_in_interrupt. intros (n & k1 & [= <- <-] & E)%bind_inv. by apply assert_inv in E as [_ ->]. Qed.

(** An object enters the container of the class its header has. *)
Lemma insert_typed c o h k k' : typed k -> class_of h = c -> length (oname h) = RT_NAME_MAX ->
  cont_insert c o (upd_hdr (<[o := h]>) k) = Done tt k' -> typed k'.
Proof.
  intros HT Hc Hl (l & k1 & El & E)%bind_inv. unfold deref in El. cbn [upd_hdr k_cont] in El.
  destruct (k_cont k !! c) as [l0|] eqn:El0; [|done]. injection El as -> <-.
  apply bind_inv in E as (b & k2 & [= <- <-] & E). cbn [upd_hdr k_cont] in E.
  destruct (contained o (k_cont k)) eqn:Eb; [done|]. injection E as <-. by apply obj_inv_insert.
Qed.

Lemma init_typed o type name k k' : typed k -> rt_object_init o type name k = Done tt k' -> typed k'.
Proof.
  intros HT ([] & k1 & E1 & E)%bind_inv. apply assert_inv in E1 as [[i Hi]%bool_decide_eq_true_1 ->].
  apply bind_inv in E as (fl & k2 & [= <- <-] & E). apply bind_inv in E as ([] & k3 & [= <-] & E).
  destruct (information_class _ _ Hi) as [Hr _].
  eapply insert_typed; [exact HT| | |exact E]; [apply (class_static type Hr)|apply strncpy_list_length].
Qed.

Lemma allocate_typed type name p k k' : typed k -> rt_object_allocate type name k = Done p k' -> typed k'.
Proof.
  intros HT ([] & k1 & ->%not_in_interrupt_inv & E)%bind_inv.
  destruct (rt_object_get_information type) as [[c size]|] eqn:Hi; [|done]. destruct (information_class _ _ Hi) as [Hr _].
  apply bind_inv in E as (q & k2 & E1 & E). unfold kmalloc in E1. apply bind_inv in E1 as ([] & k3 & ->%not_in_interrupt_inv & E1).
  apply heap_call_inv in E1 as [h ->]. destruct (q =? RT_NULL); [by injection E as _ <-|].
  apply bind_inv in E as ([] & k4 & [= <-] & E). apply bind_inv in E as ([] & k5 & E2 & [= _ <-]).
  eapply (insert_typed type (Obj q) _ (upd_heap (fun _ => h) k)); [exact HT| | |exact E2];
    [apply (class_static type Hr)|apply strncpy_list_length].
Qed.

Lemma detach_typed o k k' : typed k -> rt_object_detach o k = Done tt k' -> typed k'.
Proof.
  intros HT ([] & k1 & [_ ->]%assert_inv & E)%bind_inv. apply bind_inv in E as (h & k2 & [Hh ->]%hdr_inv & E).
  injection E as <-. eapply obj_inv_remove; [exact HT|]. intros o' Hne. cbn. by rewrite lookup_insert_ne.
Qed.

Lemma delete_typed p k k' : typed k -> rt_object_delete p k = Done tt k' -> typed k'.
Proof.
  intros HT ([] & k1 & [_ ->]%assert_inv & E)%bind_inv. apply bind_inv in E as (h & k2 & [Hh ->]%hdr_inv & E).
  apply bind_inv in E as ([] & k3 & [_ ->]%assert_inv & E). apply bind_inv in E as ([] & k4 & [= <-] & E).
  apply bind_inv in E as ([] & k5 & [= <-] & E). apply bind_inv in E as ([] & k6 & E1 & [= <-]).
  unfold kfree in E1. apply bind_inv in E1 as ([] & k7 & ->%not_in_interrupt_inv & [h' ->]%heap_call_inv).
  eapply obj_inv_remove; [exact HT|]. intros o' Hne. cbn. by rewrite lookup_delete_ne, lookup_insert_ne.
Qed.

Lemma step_typed k k' : object_step k k' -> typed k -> typed k'.
Proof.
  intros [o type name E|type name p E|o E|p E|o f E|E1 E2] HT.
  - by eapply init_typed.
  - by eapply allocate_typed.
  - by eapply detach_typed.
  - by eapply delete_typed.
  - apply bind_inv in E as (h & k1 & [Hh ->]%hdr_inv & [= <-]). by apply obj_inv_flag.
  - unfold typed. by rewrite E1, E2.
Qed.


(** Main creates a semaphore and looks for it. *)
Definition k_created : kernel := Eval vm_compute in final k_reset (rt_object_allocate RT_Object_Class_Semaphore [120] k_two).
Definition created : Z := Eval vm_compute in match rt_object_allocate RT_Object_Class_Semaphore [120] k_two with Done p _ => p | _ => 0 end.

