(* ===== verification/DrvIpc.v ===== *)
(** * Completions and data queues (components/drivers/src)

    The two kinds of synchronisation the device drivers add to those of the kernel:
    a completion (completion.c) is a flag one thread can wait for, a data queue
    (dataqueue.c) a bounded queue of memory blocks between a driver and its user.
    Both wait in lists of their own, on the kernel of Kernel.v: the state has the
    kernel, the objects by address, and the notifications sent so far.  The waiting
    list of a completion is [LSuspend a]; the lists of a data queue are [LSuspend a]
    for the threads that pop and [LSender a] for those that push.

    [comp_at] and [dq_at] are the contracts: a completion is a bit with at most one
    waiting thread, a data queue holds a sequence of at most [size] items.  The
    indices of a data queue have sixteen bits but are compared as integers: the
    contract holds up to the push that wraps [put_index], and
    [rt_data_queue_wraps] shows what happens from there on. *)

From S2P Require Import Prelude RtList Exec KService Mem Kernel Object Scheduler Timer Thread Ipc Circ Decide Demo.

(** ** Data *)

Definition RT_COMPLETED : Z := 1.
Definition RT_UNCOMPLETED : Z := 0.

Definition RT_DATAQUEUE_EVENT_POP : Z := 1.
Definition RT_DATAQUEUE_EVENT_PUSH : Z := 2.
Definition RT_DATAQUEUE_EVENT_LWM : Z := 3.

(** An item: [data_ptr] and [data_size]. *)
Definition rt_data_item : Type := Z * Z.

(** [dq_items] is the array [queue] points to. *)
Record rt_data_queue := DataQueue {
  dq_size : Z; dq_lwm : Z; get_index : Z; put_index : Z;
  dq_pool : Z; dq_items : list rt_data_item; evt_notify : Z
}.

Record dstate := DState {
  d_k : kernel;
  d_comp : gmap Z Z;              (* the flags of the completions *)
  d_dq : gmap Z rt_data_queue;
  d_log : list (Z * Z)            (* the calls of [evt_notify]: queue and event *)
}.

Definition put_k (k : kernel) (d : dstate) : dstate := DState k (d_comp d) (d_dq d) (d_log d).
Definition put_comp (a f : Z) (d : dstate) : dstate := DState (d_k d) (<[a := f]> (d_comp d)) (d_dq d) (d_log d).
Definition put_dq (a : Z) (q : rt_data_queue) (d : dstate) : dstate := DState (d_k d) (d_comp d) (<[a := q]> (d_dq d)) (d_log d).
Definition log (e : Z * Z) (d : dstate) : dstate := DState (d_k d) (d_comp d) (d_dq d) (d_log d ++ [e]).

Notation D := (M dstate).

(** A call of the kernel. *)
Definition kcall {A} (m : K A) : D A := zoom d_k put_k m.
Definition flag (a : Z) : D Z := deref (fun d => d_comp d !! a).
Definition dqueue (a : Z) : D rt_data_queue := deref (fun d => d_dq d !! a).

(** The end of a wait: the timer, [rt_schedule], and [rest] once the thread runs again. *)
Definition dwait {A} (t timeout : Z) (rest : D A) : D (outcome A) :=
  r <- kcall (ipc_wait t timeout (ret tt));;
  match r with Returned _ => a <- rest;; ret (Returned a) | Blocked => ret Blocked end.

(** ** Completions *)

Definition rt_completion_init (a : Z) : D unit :=
  rt_assert (negb (a =? RT_NULL));;;
  modify (put_comp a RT_UNCOMPLETED);;;
  kcall (_ <- rt_ipc_object_init (LSuspend a);; ret tt).

(** What follows [rt_schedule] in [rt_completion_wait]. *)
Definition completion_resumed (a t : Z) : D Z :=
  th <- kcall (thr t);;
  modify (put_comp a RT_UNCOMPLETED);;;
  ret (error th).

Definition rt_completion_wait (a timeout : Z) : D (outcome Z) :=
  rt_assert (negb (a =? RT_NULL));;;
  t <- kcall rt_thread_self;;
  f <- flag a;;
  if negb (f =? RT_COMPLETED) then
    l <- kcall (tlist (LSuspend a));;
    rt_assert (match l with [] => true | _ => false end);;;
    if timeout =? 0 then ret (Returned (- RT_ETIMEOUT))
    else
      kcall (mod_thr t (set_error RT_EOK);;; _ <- rt_thread_suspend t;; tl_insert_before (LSuspend a) t;;; not_in_interrupt);;;
      dwait t timeout (completion_resumed a t)
  else
    modify (put_comp a RT_UNCOMPLETED);;;
    ret (Returned RT_EOK).

Definition rt_completion_done (a : Z) : D unit :=
  rt_assert (negb (a =? RT_NULL));;;
  f <- flag a;;
  if f =? RT_COMPLETED then ret tt
  else
    modify (put_comp a RT_COMPLETED);;;
    kcall (ipc_wake_first (LSuspend a)).

(** ** Data queues *)

(** The bytes of a fresh array are arbitrary; [pool] gives the items. *)
Definition rt_data_queue_init (pool : Z -> list rt_data_item) (a size lwm notify : Z) : D Z :=
  rt_assert (negb (a =? RT_NULL));;;
  kcall (_ <- rt_ipc_object_init (LSender a);; _ <- rt_ipc_object_init (LSuspend a);; ret tt);;;
  p <- kcall (kmalloc (8 * u16 size));;
  modify (put_dq a (DataQueue (u16 size) (u16 lwm) 0 0 p (if p =? RT_NULL then [] else pool (u16 size)) notify));;;
  ret (if p =? RT_NULL then - RT_ENOMEM else RT_EOK).

(** [if (queue->evt_notify != RT_NULL) queue->evt_notify(queue, event);] *)
Definition notify (a event : Z) : D unit :=
  q <- dqueue a;; when (negb (evt_notify q =? RT_NULL)) (modify (log (a, event))).

(** The code behind [rt_schedule] in the loops: return with an error, or go round again. *)
Definition dq_resumed {A} (t : Z) : D ((Z * option A) + unit) :=
  th <- kcall (thr t);; ret (if negb (error th =? RT_EOK) then inl (error th, None) else inr tt).

(** One wait of the loops. *)
Definition dq_wait {A} (l : lhead) (t timeout : Z) : D (outcome ((Z * option A) + unit)) :=
  kcall (not_in_interrupt;;; mod_thr t (set_error RT_EOK);;; _ <- rt_thread_suspend t;; tl_insert_before l t);;;
  dwait t timeout (dq_resumed t).

(** [if (!rt_list_isempty(list)) { rt_thread_resume(first); rt_schedule(); }] and whether it was not empty. *)
Definition wake (l : lhead) : D bool :=
  ts <- kcall (tlist l);; kcall (ipc_wake_first l);;; ret (match ts with [] => false | _ => true end).

(** Behind the loop of [rt_data_queue_push]. *)
Definition dq_put (a : Z) (x : rt_data_item) : D unit :=
  q <- dqueue a;;
  let i := put_index q mod dq_size q in
  if (0 <=? i) && (i <? blen (dq_items q)) then
    modify (put_dq a (DataQueue (dq_size q) (dq_lwm q) (get_index q) (u16 (put_index q + 1)) (dq_pool q)
      (<[Z.to_nat i := x]> (dq_items q)) (evt_notify q)));;;
    woken <- wake (LSuspend a);;
    if woken : bool then ret tt else notify a RT_DATAQUEUE_EVENT_PUSH
  else stuck Undefined.

(** [inr] goes back to the head of the loop, with the same timeout. *)
Definition rt_data_queue_push (a : Z) (x : rt_data_item) (timeout : Z) : D (outcome ((Z * option unit) + unit)) :=
  rt_assert (negb (a =? RT_NULL));;;
  t <- kcall rt_thread_self;;
  q <- dqueue a;;
  if put_index q - get_index q =? dq_size q then
    if timeout =? 0 then ret (Returned (inl (- RT_ETIMEOUT, None)))
    else dq_wait (LSender a) t timeout
  else dq_put a x;;; ret (Returned (inl (RT_EOK, Some tt))).

(** Behind the loop of [rt_data_queue_pop]. *)
Definition dq_get (a : Z) : D rt_data_item :=
  q <- dqueue a;;
  x <- deref (fun _ => dq_items q !! Z.to_nat (get_index q mod dq_size q));;
  let g := u16 (get_index q + 1) in
  modify (put_dq a (DataQueue (dq_size q) (dq_lwm q) g (put_index q) (dq_pool q) (dq_items q) (evt_notify q)));;;
  (if put_index q - g <=? dq_lwm q then _ <- wake (LSender a);; notify a RT_DATAQUEUE_EVENT_LWM
   else notify a RT_DATAQUEUE_EVENT_POP);;;
  ret x.

Definition rt_data_queue_pop (a timeout : Z) : D (outcome ((Z * option rt_data_item) + unit)) :=
  rt_assert (negb (a =? RT_NULL));;;
  t <- kcall rt_thread_self;;
  q <- dqueue a;;
  if get_index q =? put_index q then
    if timeout =? 0 then ret (Returned (inl (- RT_ETIMEOUT, None)))
    else dq_wait (LSuspend a) t timeout
  else x <- dq_get a;; ret (Returned (inl (RT_EOK, Some x))).

Definition rt_data_queue_peak (a : Z) : D (Z * option rt_data_item) :=
  rt_assert (negb (a =? RT_NULL));;;
  q <- dqueue a;;
  if get_index q =? put_index q then ret (- RT_EEMPTY, None)
  else
    x <- deref (fun _ => dq_items q !! Z.to_nat (get_index q mod dq_size q));;
    ret (RT_EOK, Some x).

(** The two loops are those of [rt_ipc_list_resume_all]. *)
Definition rt_data_queue_reset (a : Z) : D unit :=
  kcall (rt_enter_critical;;;
    _ <- rt_ipc_list_resume_all (LSuspend a);;
    _ <- rt_ipc_list_resume_all (LSender a);;
    rt_exit_critical;;;
    rt_schedule).

(** ** Waiting and waking *)

Lemma kcall_done {A} (m : K A) d a k' : m (d_k d) = Done a k' -> kcall m d = Done a (put_k k' d).
Proof. intros E. unfold kcall, zoom. by rewrite E. Qed.

Lemma put_k_same d : put_k (d_k d) d = d.
Proof. by destruct d. Qed.

Lemma kcall_pure {A} (m : K A) d a : m (d_k d) = Done a (d_k d) -> kcall m d = Done a d.
Proof. intros E. by rewrite (kcall_done _ _ _ _ E), put_k_same. Qed.

Lemma kcall_bind {A B C} (m : K A) (n : A -> K B) (f : B -> D C) d a k' :
  m (d_k d) = Done a k' -> (b <- kcall (bind m n);; f b) d = (b <- kcall (n a);; f b) (put_k k' d).
Proof. intros E. unfold kcall, zoom, bind. rewrite E. cbn. destruct (n a k') as [b k''|]; done. Qed.

Lemma outside_interrupt k : k_irq k = 0 -> not_in_interrupt k = Done tt k.
Proof. intros E. unfold not_in_interrupt. mstep. by rewrite E. Qed.

(** The running thread enters a waiting list at its end. *)
Lemma enlist_done k th q l :
  running k th -> waiting q -> k_tl k !! q = Some l ->
  exists k2, (_ <- rt_thread_suspend (k_cur k);; tl_insert_before q (k_cur k)) k = Done tt k2 /\
    rt_ipc_list_suspend q (k_cur k) RT_IPC_FLAG_FIFO k = Done RT_EOK k2 /\ k_irq k2 = 0.
Proof.
  intros HR Hq Hl.
  destruct (ipc_suspend_done none 0 k q (k_cur k) th RT_IPC_FLAG_FIFO l (rn_inv _ _ HR) (rn_thr _ _ HR) (rn_ready _ _ HR)
    (fun f => f) Hq Hl ltac:(by left)) as (h & l1 & l2 & _ & _ & E & _).
  eexists. split; [|split; [exact E|]]; [|apply HR]. revert E. unfold rt_ipc_list_suspend, bind.
  destruct (rt_thread_suspend (k_cur k) k) as [v k1|]; [|done]. change (RT_IPC_FLAG_FIFO =? RT_IPC_FLAG_FIFO) with true. cbv iota.
  destruct (tl_insert_before q (k_cur k) k1) as [[] k2|]; [|done]. by intros [= ->].
Qed.

(** The waits of completions and data queues; [d1] has the error number reset. *)
Lemma dwait_done {A} d th q l timeout (rest : D A) :
  running (d_k d) th -> waiting q -> k_tl (d_k d) !! q = Some l -> timeout <= max_off ->
  let k := d_k d in let k1 := upd_thr (<[k_cur k := set_error RT_EOK th]>) k in
  exists k2 k', (_ <- rt_thread_suspend (k_cur k);; tl_insert_before q (k_cur k)) k1 = Done tt k2 /\ k_irq k2 = 0 /\
    dwait (k_cur k) timeout rest (put_k k2 d) = Done Blocked (put_k k' d) /\ kinv k' /\ frame k k' /\ waits k k' th timeout /\
    (forall r, waiting r -> k_tl k' !! r = if decide (r = q) then Some (l ++ [k_cur k]) else k_tl k !! r).
Proof.
  intros HR Hq Hl Htm k k1. pose proof (running_error k th RT_EOK HR) as HR1. fold k1 in HR1.
  destruct (enlist_done k1 _ q l HR1 Hq Hl) as (k2 & E2 & E2' & Hi).
  destruct (running_wait k1 _ q RT_IPC_FLAG_FIFO l timeout (ret tt) HR1 Hq Hl ltac:(by left) Htm)
    as (k' & l1 & l2 & El & [Hp _] & E & HK' & HF & Eth & Etl & Hc & Htime).
  change (k_cur k1) with (k_cur k) in *. rewrite (Hp eq_refl), app_nil_r in El. subst l1. rewrite (Hp eq_refl) in Etl.
  exists k2, k'. rewrite (after E2') in E. split; [done|]. split; [done|]. split.
  { unfold dwait. by rewrite (after (kcall_done _ (put_k k2 d) _ _ E)). }
  split; [done|]. split; [etrans; [|exact HF]; by split|]. split; [|done].
  split; [done|]. split; [|done]. rewrite Eth. cbn. by rewrite insert_insert_eq.
Qed.

(** ** Completions *)

(** The completion at [a] has the flag [f] and the waiting threads [l]: one at most, and none when
    the flag is set. *)
Record comp_at (d : dstate) (a : Z) (f : bool) (l : list Z) : Prop := CompAt {
  ca_addr : a <> RT_NULL;
  ca_flag : d_comp d !! a = Some (if f then RT_COMPLETED else RT_UNCOMPLETED);
  ca_list : k_tl (d_k d) !! LSuspend a = Some l;
  ca_one : (length l <= if f then 0 else 1)%nat
}.

Lemma flag_done d a f : d_comp d !! a = Some f -> flag a d = Done f d.
Proof. intros. unfold flag. by apply deref_some. Qed.

(** Everything else a call leaves alone. *)
Definition other_comps (a : Z) (d d' : dstate) : Prop :=
  (forall b, b <> a -> d_comp d' !! b = d_comp d !! b) /\ d_dq d' = d_dq d /\ d_log d' = d_log d.

Lemma completion_wait_done d th a f l timeout :
  running (d_k d) th -> comp_at d a f l -> timeout <= max_off -> (f = false -> l = []) ->
  exists r d', rt_completion_wait a timeout d = Done r d' /\ kinv (d_k d') /\ other_comps a d d' /\
    if f then r = Returned RT_EOK /\ comp_at d' a false [] /\ d_k d' = d_k d
    else if decide (timeout = 0) then r = Returned (- RT_ETIMEOUT) /\ d' = d
    else r = Blocked /\ comp_at d' a false [k_cur (d_k d)] /\ waits (d_k d) (d_k d') th timeout.
Proof.
  intros HR [Ha Hf Hl H1] Htm Hno. pose proof (rn_inv _ _ HR) as HK. unfold rt_completion_wait.
  rewrite (proj2 (Z.eqb_neq _ _) Ha). cbn [negb rt_assert]. mstep.
  rewrite (after (kcall_pure _ _ _ (eq_refl : rt_thread_self (d_k d) = Done (k_cur (d_k d)) _))), (after (flag_done _ _ _ Hf)).
  destruct f.
  - change (RT_COMPLETED =? RT_COMPLETED) with true. cbn [negb]. mstep. eexists _, _. split; [reflexivity|]. split; [done|].
    split; [split; [intros b Hb; cbn; by rewrite lookup_insert_ne|done]|]. split; [done|]. split; [|done].
    split; [done|cbn; apply lookup_insert_eq|destruct l; [done|cbn in H1; lia]|cbn; lia].
  - change (RT_UNCOMPLETED =? RT_COMPLETED) with false. cbn [negb]. rewrite (Hno eq_refl) in *.
    rewrite (after (kcall_pure _ _ _ (tlist_done _ _ _ Hl))). cbn [rt_assert]. mstep. destruct (Z.eqb_spec timeout 0) as [->|Ht].
    { eexists _, d. by rewrite decide_True. }
    destruct (dwait_done d th (LSuspend a) [] timeout (completion_resumed a (k_cur (d_k d))) HR I Hl Htm)
      as (k2 & k' & E2 & Hi & E & HK' & HF & Hw & Etl). cbn [app] in Etl.
    rewrite (kcall_bind _ _ _ _ _ _ (mod_thr_done _ _ _ _ (rn_thr _ _ HR))).
    erewrite (bind_done (kcall _)).
    2:{ apply kcall_done. rewrite <- bind_assoc. erewrite bind_done by exact E2. by apply outside_interrupt. }
    eexists _, _. split; [exact E|]. split; [done|]. split; [done|]. rewrite decide_False by done. split; [done|]. split; [|done].
    split; [done|done|cbn; by rewrite Etl, decide_True|cbn; lia].
Qed.

(** [rt_completion_wait] by the running thread: a completion that is done is consumed and the
    call returns at once; otherwise the call fails without a waiting time, or the thread waits alone,
    with its timer armed.  A second thread that waits is refused by the assertion. *)
Theorem rt_completion_wait_correct d th a f l timeout :
  running (d_k d) th -> comp_at d a f l -> timeout <= max_off ->
  if negb f && negb (bool_decide (l = [])) then rt_completion_wait a timeout d = Stop Assertion
  else exists r d', rt_completion_wait a timeout d = Done r d' /\ kinv (d_k d') /\ other_comps a d d' /\
    if f then r = Returned RT_EOK /\ comp_at d' a false [] /\ d_k d' = d_k d
    else if decide (timeout = 0) then r = Returned (- RT_ETIMEOUT) /\ d' = d
    else r = Blocked /\ comp_at d' a false [k_cur (d_k d)] /\ waits (d_k d) (d_k d') th timeout.
Proof.
  intros HR HA Htm. destruct f; cbn [negb andb]; [by apply (completion_wait_done d th a true l)|].
  case_bool_decide as Hl; cbn [negb]; [by apply (completion_wait_done d th a false l)|]. destruct HA as [Ha Hf Hll _]. unfold rt_completion_wait.
  rewrite (proj2 (Z.eqb_neq _ _) Ha). cbn [negb rt_assert]. mstep.
  rewrite (after (kcall_pure _ _ _ (eq_refl : rt_thread_self (d_k d) = Done (k_cur (d_k d)) _))), (after (flag_done _ _ _ Hf)).
  change (RT_UNCOMPLETED =? RT_COMPLETED) with false. cbn [negb].
  rewrite (after (kcall_pure _ _ _ (tlist_done _ _ _ Hll))). by destruct l.
Qed.

(** [rt_completion_done] sets the flag once, and the thread that waits is made ready; the
    scheduler then runs the highest thread. *)
Theorem rt_completion_done_correct d a f l :
  kinv (d_k d) -> k_cur (d_k d) <> RT_NULL -> comp_at d a f l ->
  exists d', rt_completion_done a d = Done tt d' /\ kinv (d_k d') /\ comp_at d' a true [] /\ other_comps a d d' /\
    if f then d' = d else woke_first (d_k d) (d_k d') l.
Proof.
  intros HK Hc [Ha Hf Hl H1]. unfold rt_completion_done. rewrite (proj2 (Z.eqb_neq _ _) Ha). cbn [negb rt_assert]. mstep.
  rewrite (after (flag_done _ _ _ Hf)). destruct f.
  - exists d. destruct l; [|cbn in H1; lia]. by split_and!.
  - change (RT_UNCOMPLETED =? RT_COMPLETED) with false. cbv iota. mstep. set (d1 := put_comp a RT_COMPLETED d).
    destruct (wake_first_done (d_k d) (LSuspend a) l HK I Hl Hc) as (k' & E & HK' & HF & Hw & Etl).
    exists (put_k k' d1). rewrite (kcall_done _ d1 _ _ E). split_and!; try done.
    + split; [done|cbn; apply lookup_insert_eq| |done]. cbn. rewrite Etl, decide_True by done.
      destruct l as [|? [|? ?]]; [done|done|cbn in H1; lia].
    + split; [|done]. intros b Hb. cbn. by rewrite lookup_insert_ne.
Qed.

(** A completion that comes in when the wait has timed out, but before the waiting thread runs, is
    lost: the thread reports the timeout and clears the flag. *)
Lemma completion_lost d a t th :
  comp_at d a false [] -> k_thr (d_k d) !! t = Some th -> error th = - RT_ETIMEOUT ->
  exists d1 d2, rt_completion_done a d = Done tt d1 /\ comp_at d1 a true [] /\
    completion_resumed a t d1 = Done (- RT_ETIMEOUT) d2 /\ comp_at d2 a false [].
Proof.
  intros [Ha Hf Hl _] Ht He. exists (put_comp a RT_COMPLETED d), (put_comp a RT_UNCOMPLETED (put_comp a RT_COMPLETED d)). split_and!.
  - unfold rt_completion_done. rewrite (proj2 (Z.eqb_neq _ _) Ha). cbn [negb rt_assert]. mstep. rewrite (after (flag_done _ _ _ Hf)).
    change (RT_UNCOMPLETED =? RT_COMPLETED) with false. cbv iota. mstep. apply kcall_pure.
    unfold ipc_wake_first. cbn. by rewrite (after (tlist_done _ _ _ Hl)).
  - split; [done|cbn; apply lookup_insert_eq|done|done].
  - unfold completion_resumed. rewrite (after (kcall_pure _ (put_comp a RT_COMPLETED d) _ (thr_done _ _ _ Ht))). mstep. by rewrite He.
  - split; [done|cbn; apply lookup_insert_eq|done|cbn; lia].
Qed.

(** ** Data queues *)

(** The record stores the items [l] in an array of [cap] items; neither index has wrapped. *)
Record dq_rep (q : rt_data_queue) (cap : Z) (l : list rt_data_item) : Prop := DqRep {
  dr_cap : 0 < cap < 2 ^ 16;
  dr_size : dq_size q = cap;
  dr_len : blen (dq_items q) = cap;
  dr_get : 0 <= get_index q;
  dr_put : put_index q = get_index q + blen l;
  dr_small : put_index q < 2 ^ 16;
  dr_circ : circ (dq_items q) (get_index q mod cap) l
}.

Record dq_at (d : dstate) (a cap : Z) (q : rt_data_queue) (l : list rt_data_item) (pops pushes : list Z) : Prop := DqAt {
  da_addr : a <> RT_NULL;
  da_val : d_dq d !! a = Some q;
  da_rep : dq_rep q cap l;
  da_pops : k_tl (d_k d) !! LSuspend a = Some pops;
  da_pushes : k_tl (d_k d) !! LSender a = Some pushes
}.

Lemma dqueue_done d a q : d_dq d !! a = Some q -> dqueue a d = Done q d.
Proof. intros. unfold dqueue. by apply deref_some. Qed.

Lemma dq_len_le q cap l : dq_rep q cap l -> 0 <= blen l <= cap.
Proof. intros [_ _ Hl _ _ _ (_ & H & _)]. unfold blen in *. lia. Qed.

(** The record after an item is put in, and after one is taken out. *)
Definition dq_after_put (q : rt_data_queue) (x : rt_data_item) : rt_data_queue :=
  DataQueue (dq_size q) (dq_lwm q) (get_index q) (u16 (put_index q + 1)) (dq_pool q)
    (<[Z.to_nat (put_index q mod dq_size q) := x]> (dq_items q)) (evt_notify q).
Definition dq_after_get (q : rt_data_queue) : rt_data_queue :=
  DataQueue (dq_size q) (dq_lwm q) (u16 (get_index q + 1)) (put_index q) (dq_pool q) (dq_items q) (evt_notify q).

Lemma dq_rep_put q cap l x : dq_rep q cap l -> blen l < cap -> put_index q < 2 ^ 16 - 1 -> dq_rep (dq_after_put q x) cap (l ++ [x]).
Proof.
  intros [Hc Hs Hl Hg Hp Hsm Hq] Hlt Hw. assert (Hb : blen (l ++ [x]) = blen l + 1) by (unfold blen; rewrite length_app; cbn; lia).
  split; cbn [dq_size dq_items get_index put_index dq_after_put]; [done|done| |done| | |].
  - unfold blen in *. by rewrite length_insert.
  - unfold u16. rewrite Z.mod_small by (unfold blen in *; lia). lia.
  - unfold u16. rewrite Z.mod_small by (unfold blen in *; lia). lia.
  - rewrite Hs, Hp, <- Zplus_mod_idemp_l. pose proof (circ_push _ _ _ x Hq) as H. rewrite Hl in H. apply H. unfold blen in *. lia.
Qed.

Lemma dq_rep_get q cap x l : dq_rep q cap (x :: l) ->
  dq_items q !! Z.to_nat (get_index q mod dq_size q) = Some x /\ dq_rep (dq_after_get q) cap l.
Proof.
  intros [Hc Hs Hl Hg Hp Hsm Hq]. assert (Hb : blen (x :: l) = blen l + 1) by (unfold blen; cbn; lia).
  destruct (circ_pop _ _ _ _ Hq) as [Hx Hq']. rewrite Hs. split; [done|].
  assert (0 <= blen l) by (unfold blen; lia).
  split; cbn [dq_size dq_items get_index put_index dq_after_get]; unfold u16; rewrite ?(Z.mod_small (get_index q + 1)) by lia; try done; try lia.
  by rewrite Hl, Zplus_mod_idemp_l in Hq'.
Qed.

(** The log after a notification for [q]. *)
Definition notified (q : rt_data_queue) (a e : Z) (l : list (Z * Z)) : list (Z * Z) :=
  if evt_notify q =? RT_NULL then l else l ++ [(a, e)].

Lemma notify_done d a q e : d_dq d !! a = Some q ->
  notify a e d = Done tt (DState (d_k d) (d_comp d) (d_dq d) (notified q a e (d_log d))).
Proof.
  intros Hq. unfold notify, notified. rewrite (after (dqueue_done _ _ _ Hq)). destruct (evt_notify q =? RT_NULL); [by destruct d|done].
Qed.

Lemma wake_done d l ts : kinv (d_k d) -> k_cur (d_k d) <> RT_NULL -> waiting l -> k_tl (d_k d) !! l = Some ts ->
  exists k', wake l d = Done (negb (bool_decide (ts = []))) (put_k k' d) /\ kinv k' /\ woke_first (d_k d) k' ts /\
    (forall r, waiting r -> k_tl k' !! r = if decide (r = l) then Some (tail ts) else k_tl (d_k d) !! r).
Proof.
  intros HK Hc Hl Hts. destruct (wake_first_done (d_k d) l ts HK Hl Hts Hc) as (k' & E & HK' & _ & Hw & Etl).
  exists k'. split_and!; try done. unfold wake. rewrite (after (kcall_pure _ _ _ (tlist_done _ _ _ Hts))), (after (kcall_done _ _ _ _ E)).
  by destruct ts.
Qed.

(** What a call changes beside the queue at [a] and the threads. *)
Definition other_queues (a : Z) (d d' : dstate) : Prop :=
  d_comp d' = d_comp d /\ forall b, b <> a -> d_dq d' !! b = d_dq d !! b.

(** The item goes in, whatever the indices are. *)
Lemma dq_put_done d a q x pops pushes :
  kinv (d_k d) -> k_cur (d_k d) <> RT_NULL -> d_dq d !! a = Some q -> 0 < dq_size q -> dq_size q = blen (dq_items q) ->
  k_tl (d_k d) !! LSuspend a = Some pops -> k_tl (d_k d) !! LSender a = Some pushes ->
  exists d', dq_put a x d = Done tt d' /\ kinv (d_k d') /\ d_dq d' = <[a := dq_after_put q x]> (d_dq d) /\ d_comp d' = d_comp d /\
    k_tl (d_k d') !! LSuspend a = Some (tail pops) /\ k_tl (d_k d') !! LSender a = Some pushes /\ woke_first (d_k d) (d_k d') pops /\
    d_log d' = match pops with [] => notified q a RT_DATAQUEUE_EVENT_PUSH (d_log d) | _ => d_log d end.
Proof.
  intros HK Hc Hq Hs Hl Hpop Hpush. unfold dq_put. rewrite (after (dqueue_done _ _ _ Hq)).
  pose proof (Z.mod_pos_bound (put_index q) (dq_size q) Hs) as Hi.
  rewrite (proj2 (Z.leb_le _ _)), (proj2 (Z.ltb_lt _ _)) by lia. cbn [andb]. mstep. fold (dq_after_put q x).
  set (d1 := put_dq a _ d). destruct (wake_done d1 (LSuspend a) pops HK Hc I Hpop) as (k' & E & HK' & Hw & Etl).
  rewrite (after E). assert (Hq1 : d_dq (put_k k' d1) !! a = Some (dq_after_put q x)) by (cbn; apply lookup_insert_eq).
  destruct pops as [|t pops]; cbn [bool_decide negb].
  - rewrite bool_decide_true by done. cbn [negb]. rewrite (notify_done _ _ _ _ Hq1). eexists. split; [reflexivity|]. split_and!; try done; cbn.
    + by rewrite Etl, decide_True.
    + by rewrite Etl, decide_False.
  - rewrite bool_decide_false by done. cbn [negb]. eexists. split; [reflexivity|]. split_and!; try done; cbn.
    + by rewrite Etl, decide_True.
    + by rewrite Etl, decide_False.
Qed.

(** [rt_data_queue_push] by the running thread: with room the item goes behind those pushed
    before, and the first thread that waits to pop is woken, or else the user notified; a full queue
    makes the call fail without a waiting time and otherwise queues the caller, with its timer
    armed. *)
Theorem rt_data_queue_push_correct d th a cap q l pops pushes x timeout :
  running (d_k d) th -> dq_at d a cap q l pops pushes -> put_index q < 2 ^ 16 - 1 -> timeout <= max_off ->
  exists r d', rt_data_queue_push a x timeout d = Done r d' /\ kinv (d_k d') /\ other_queues a d d' /\
    if decide (blen l < cap) then
      r = Returned (inl (RT_EOK, Some tt)) /\ dq_at d' a cap (dq_after_put q x) (l ++ [x]) (tail pops) pushes /\
      woke_first (d_k d) (d_k d') pops /\
      d_log d' = match pops with [] => notified q a RT_DATAQUEUE_EVENT_PUSH (d_log d) | _ => d_log d end
    else if decide (timeout = 0) then r = Returned (inl (- RT_ETIMEOUT, None)) /\ d' = d
    else r = Blocked /\ waits (d_k d) (d_k d') th timeout /\ dq_at d' a cap q l pops (pushes ++ [k_cur (d_k d)]) /\ d_log d' = d_log d.
Proof.
  intros HR [Ha Hq Hrep Hpop Hpush] Hw Htm. pose proof (rn_inv _ _ HR) as HK. pose proof (dq_len_le _ _ _ Hrep) as Hle.
  unfold rt_data_queue_push. rewrite (proj2 (Z.eqb_neq _ _) Ha). cbn [negb rt_assert]. mstep.
  rewrite (after (kcall_pure _ _ _ (eq_refl : rt_thread_self (d_k d) = Done (k_cur (d_k d)) _))), (after (dqueue_done _ _ _ Hq)).
  rewrite (dr_put _ _ _ Hrep), (dr_size _ _ _ Hrep). replace (get_index q + blen l - get_index q) with (blen l) by lia.
  destruct (Z.eqb_spec (blen l) cap) as [Ef|Ef].
  - destruct (Z.eqb_spec timeout 0) as [->|Ht]; [eexists _, d; by rewrite decide_False, decide_True by lia|].
    destruct (dwait_done d th (LSender a) pushes timeout (dq_resumed (A := unit) (k_cur (d_k d))) HR I Hpush Htm)
      as (k2 & k' & E2 & Hi & E & HK' & HF & Hws & Etl).
    unfold dq_wait. erewrite (bind_done (kcall _)).
    2:{ apply kcall_done. rewrite (after (outside_interrupt _ (rn_irq _ _ HR))).
        rewrite (after (mod_thr_done _ _ _ _ (rn_thr _ _ HR))). exact E2. }
    eexists _, _. split; [exact E|]. split; [done|]. split; [done|]. rewrite decide_False, decide_False by lia. split_and!; try done.
    split; [done|done|done|cbn; by rewrite Etl, decide_False|cbn; by rewrite Etl, decide_True].
  - destruct (dq_put_done d a q x pops pushes HK (running_nonnull _ _ HR) Hq) as (d' & E & HK' & Edq & Ec & Et1 & Et2 & Hwk & Elog);
      [by rewrite (dr_size _ _ _ Hrep); apply (dr_cap _ _ _ Hrep)|by rewrite (dr_size _ _ _ Hrep), (dr_len _ _ _ Hrep)|done|done|].
    rewrite (after E). eexists _, d'. split; [reflexivity|]. split; [done|]. rewrite decide_True by lia. split_and!; try done.
    + split; [done|]. intros b Hb. rewrite Edq. by rewrite lookup_insert_ne.
    + split; try done; [rewrite Edq; apply lookup_insert_eq|]. apply dq_rep_put; [done|lia|done].
Qed.

Lemma dq_get_done d a cap q x l pops pushes :
  kinv (d_k d) -> k_cur (d_k d) <> RT_NULL -> dq_at d a cap q (x :: l) pops pushes ->
  exists d', dq_get a d = Done x d' /\ kinv (d_k d') /\ other_queues a d d' /\
    if decide (blen l <= dq_lwm q) then
      dq_at d' a cap (dq_after_get q) l pops (tail pushes) /\ woke_first (d_k d) (d_k d') pushes /\
      d_log d' = notified q a RT_DATAQUEUE_EVENT_LWM (d_log d)
    else dq_at d' a cap (dq_after_get q) l pops pushes /\ d_k d' = d_k d /\ d_log d' = notified q a RT_DATAQUEUE_EVENT_POP (d_log d).
Proof.
  intros HK Hc [Ha Hq Hrep Hpop Hpush]. destruct (dq_rep_get _ _ _ _ Hrep) as [Hx Hrep'].
  unfold dq_get. rewrite (after (dqueue_done _ _ _ Hq)). erewrite bind_done; [|apply deref_some; exact Hx]. mstep.
  fold (dq_after_get q). set (d1 := put_dq a _ d).
  assert (Hd : put_index q - u16 (get_index q + 1) = blen l).
  { pose proof (dr_put _ _ _ Hrep') as E. cbn in E. lia. }
  rewrite Hd. assert (Hq1 : forall k, d_dq (put_k k d1) !! a = Some (dq_after_get q)) by (intros k; cbn; apply lookup_insert_eq).
  assert (HO : forall k lg, other_queues a d (DState k (d_comp d1) (d_dq d1) lg)).
  { intros k lg. split; [done|]. intros b Hb. cbn. by rewrite lookup_insert_ne. }
  destruct (Z.leb_spec (blen l) (dq_lwm q)).
  - destruct (wake_done d1 (LSender a) pushes HK Hc I Hpush) as (k' & E & HK' & Hw & Etl).
    rewrite bind_assoc, (after E), (after (notify_done _ _ _ _ (Hq1 k'))). eexists. split; [reflexivity|]. rewrite decide_True by done.
    split; [done|]. split; [apply HO|]. split_and!; try done. split; [done|apply (Hq1 k')|done|cbn; by rewrite Etl, decide_False|cbn; by rewrite Etl, decide_True].
  - pose proof (Hq1 (d_k d1)) as Hq2. rewrite put_k_same in Hq2. rewrite (after (notify_done _ _ _ _ Hq2)). eexists. split; [reflexivity|].
    rewrite decide_False by lia. split; [done|]. split; [apply HO|]. by split_and!.
Qed.

(** [rt_data_queue_pop] by the running thread: it gets the item that was pushed first; when no
    more than [lwm] items are left the first thread that waits to push is woken.  An empty queue
    makes the call fail without a waiting time and otherwise queues the caller, with its timer
    armed. *)
Theorem rt_data_queue_pop_correct d th a cap q l pops pushes timeout :
  running (d_k d) th -> dq_at d a cap q l pops pushes -> timeout <= max_off ->
  exists r d', rt_data_queue_pop a timeout d = Done r d' /\ kinv (d_k d') /\ other_queues a d d' /\
    match l with
    | x :: l' => r = Returned (inl (RT_EOK, Some x)) /\
        if decide (blen l' <= dq_lwm q) then
          dq_at d' a cap (dq_after_get q) l' pops (tail pushes) /\ woke_first (d_k d) (d_k d') pushes /\
          d_log d' = notified q a RT_DATAQUEUE_EVENT_LWM (d_log d)
        else dq_at d' a cap (dq_after_get q) l' pops pushes /\ d_k d' = d_k d /\ d_log d' = notified q a RT_DATAQUEUE_EVENT_POP (d_log d)
    | [] =>
        if decide (timeout = 0) then r = Returned (inl (- RT_ETIMEOUT, None)) /\ d' = d
        else r = Blocked /\ waits (d_k d) (d_k d') th timeout /\ dq_at d' a cap q [] (pops ++ [k_cur (d_k d)]) pushes /\ d_log d' = d_log d
    end.
Proof.
  intros HR HA Htm. pose proof HA as [Ha Hq Hrep Hpop Hpush]. pose proof (rn_inv _ _ HR) as HK.
  unfold rt_data_queue_pop. rewrite (proj2 (Z.eqb_neq _ _) Ha). cbn [negb rt_assert]. mstep.
  rewrite (after (kcall_pure _ _ _ (eq_refl : rt_thread_self (d_k d) = Done (k_cur (d_k d)) _))), (after (dqueue_done _ _ _ Hq)).
  rewrite (dr_put _ _ _ Hrep). destruct l as [|x l].
  - replace (get_index q + blen []) with (get_index q) by (unfold blen; cbn; lia). rewrite Z.eqb_refl.
    destruct (Z.eqb_spec timeout 0) as [->|Ht]; [eexists _, d; by rewrite decide_True by lia|].
    destruct (dwait_done d th (LSuspend a) pops timeout (dq_resumed (A := rt_data_item) (k_cur (d_k d))) HR I Hpop Htm)
      as (k2 & k' & E2 & Hi & E & HK' & HF & Hws & Etl).
    unfold dq_wait. erewrite (bind_done (kcall _)).
    2:{ apply kcall_done. rewrite (after (outside_interrupt _ (rn_irq _ _ HR))).
        rewrite (after (mod_thr_done _ _ _ _ (rn_thr _ _ HR))). exact E2. }
    eexists _, _. split; [exact E|]. split; [done|]. split; [done|]. rewrite decide_False by done. split_and!; try done.
    split; [done|done|done|cbn; by rewrite Etl, decide_True|cbn; by rewrite Etl, decide_False].
  - rewrite (proj2 (Z.eqb_neq _ _)) by (unfold blen; cbn; lia).
    destruct (dq_get_done d a cap q x l pops pushes HK (running_nonnull _ _ HR) HA) as (d' & E & HK' & HO & H).
    rewrite (after E). by eexists _, d'.
Qed.

(** [rt_data_queue_peak] returns the item the next pop gets and changes nothing. *)
Lemma rt_data_queue_peak_done d a cap q l pops pushes : dq_at d a cap q l pops pushes ->
  rt_data_queue_peak a d = Done (match l with [] => (- RT_EEMPTY, None) | x :: _ => (RT_EOK, Some x) end) d.
Proof.
  intros [Ha Hq Hrep _ _]. unfold rt_data_queue_peak. rewrite (proj2 (Z.eqb_neq _ _) Ha). cbn [negb rt_assert]. mstep.
  rewrite (after (dqueue_done _ _ _ Hq)), (dr_put _ _ _ Hrep). destruct l as [|x l].
  - by replace (get_index q + blen []) with (get_index q) by (unfold blen; cbn; lia); rewrite Z.eqb_refl.
  - rewrite (proj2 (Z.eqb_neq _ _)) by (unfold blen; cbn; lia). destruct (dq_rep_get _ _ _ _ Hrep) as [Hx _].
    erewrite bind_done; [done|apply deref_some; exact Hx].
Qed.

Lemma push_not_full d a q x pops pushes timeout :
  kinv (d_k d) -> k_cur (d_k d) <> RT_NULL -> a <> RT_NULL -> d_dq d !! a = Some q -> 0 < dq_size q -> dq_size q = blen (dq_items q) ->
  k_tl (d_k d) !! LSuspend a = Some pops -> k_tl (d_k d) !! LSender a = Some pushes -> put_index q - get_index q <> dq_size q ->
  exists d', rt_data_queue_push a x timeout d = Done (Returned (inl (RT_EOK, Some tt))) d' /\ kinv (d_k d') /\
    d_dq d' = <[a := dq_after_put q x]> (d_dq d) /\ k_tl (d_k d') !! LSuspend a = Some (tail pops) /\
    k_tl (d_k d') !! LSender a = Some pushes /\ woke_first (d_k d) (d_k d') pops.
Proof.
  intros HK Hc Ha Hq Hs Hl Hpop Hpush Hne. unfold rt_data_queue_push. rewrite (proj2 (Z.eqb_neq _ _) Ha). cbn [negb rt_assert]. mstep.
  rewrite (after (kcall_pure _ _ _ (eq_refl : rt_thread_self (d_k d) = Done (k_cur (d_k d)) _))), (after (dqueue_done _ _ _ Hq)).
  rewrite (proj2 (Z.eqb_neq _ _) Hne).
  destruct (dq_put_done d a q x pops pushes HK Hc Hq Hs Hl Hpop Hpush) as (d' & E & HK' & Edq & _ & Et1 & Et2 & Hw & _).
  rewrite (after E). by exists d'.
Qed.

(** the push that wraps [put_index] to zero fills the queue, but the queue does not count as
    full any more: the difference of the indices is negative.  The next push reports success and
    overwrites the oldest item. *)
Theorem rt_data_queue_wraps d th a cap q old l pushes x y timeout :
  running (d_k d) th -> dq_at d a cap q (old :: l) [] pushes ->
  blen (old :: l) = cap - 1 -> put_index q = 2 ^ 16 - 1 -> (2 ^ 16) mod cap = 0 -> timeout <= max_off ->
  exists d1 d2, rt_data_queue_push a x timeout d = Done (Returned (inl (RT_EOK, Some tt))) d1 /\
    rt_data_queue_push a y timeout d1 = Done (Returned (inl (RT_EOK, Some tt))) d2 /\
    exists q2, d_dq d2 !! a = Some q2 /\ put_index q2 = 1 /\ get_index q2 = get_index q /\
      dq_items q2 !! Z.to_nat (get_index q mod cap) = Some y.
Proof.
  intros HR [Ha Hq Hrep Hpop Hpush] Hl Hp Hm Htm. pose proof Hrep as [Hc Hs Hlen Hg Hput _ _].
  assert (Hget : get_index q = 2 ^ 16 - cap) by lia.
  assert (H0 : get_index q mod cap = 0).
  { rewrite Hget, Zminus_mod, Hm, Z_mod_same_full. apply Z.mod_0_l. lia. }
  destruct (push_not_full d a q x [] pushes timeout (rn_inv _ _ HR) (running_nonnull _ _ HR) Ha Hq) as (d1 & E1 & HK1 & Edq1 & Et1 & Et2 & [_ Ec1]);
    [lia|lia|done|done|lia|]. cbn [tail] in Et1.
  set (q1 := dq_after_put q x) in *. assert (Hp1 : put_index q1 = 0) by (cbn; rewrite Hp; done).
  destruct (push_not_full d1 a q1 y [] pushes timeout HK1) as (d2 & E2 & HK2 & Edq2 & _).
  { rewrite Ec1. by eapply running_nonnull. }
  { done. }
  { rewrite Edq1. apply lookup_insert_eq. }
  { cbn. lia. }
  { cbn. unfold blen in *. rewrite length_insert. lia. }
  { done. }
  { done. }
  { rewrite Hp1. cbn. lia. }
  exists d1, d2. split; [done|]. split; [done|]. exists (dq_after_put q1 y). split; [rewrite Edq2; apply lookup_insert_eq|].
  split; [cbn; by rewrite Hp|]. split; [done|]. unfold dq_after_put at 1. cbn [dq_items]. rewrite Hp1, H0, Zmod_0_l.
  apply list_lookup_insert_eq. cbn. rewrite length_insert. unfold blen in Hlen. lia.
Qed.

(** ** Concrete states *)

Definition comp_addr : Z := 0x3400.
Definition dq_addr : Z := 0x3440.
Definition d_none : dstate := DState k_two ∅ ∅ [].
(** A fresh completion, main waiting for it, and the completion done. *)
Definition d_comp0 : dstate := Eval vm_compute in final d_none (rt_completion_init comp_addr d_none).
Definition d_compw : dstate := Eval vm_compute in final d_none (rt_completion_wait comp_addr 5 d_comp0).
(** A queue of two items, empty and with one item. *)
Definition d_dq0 : dstate := Eval vm_compute in
  final d_none (rt_data_queue_init (fun n => replicate (Z.to_nat n) (0, 0)) dq_addr 2 1 0x8001 d_none).
Definition d_dq1 : dstate := Eval vm_compute in final d_none (rt_data_queue_push dq_addr (0x2000, 16) 0 d_dq0).

Lemma d_comp0_running : exists th, running (d_k d_comp0) th.
Proof. apply (running_check_sound _ idle_addr). concrete. Qed.
Lemma d_dq0_running : exists th, running (d_k d_dq0) th.
Proof. apply (running_check_sound _ idle_addr). concrete. Qed.
Lemma d_dq1_running : exists th, running (d_k d_dq1) th.
Proof. apply (running_check_sound _ idle_addr). concrete. Qed.

Lemma rt_completion_wait_correct_witness :
  exists d', rt_completion_wait comp_addr 5 d_comp0 = Done Blocked d' /\ comp_at d' comp_addr false [main_addr].
Proof.
  destruct d_comp0_running as [th HR].
  assert (HA : comp_at d_comp0 comp_addr false []) by (split; [nonnull|concrete|concrete|cbn; lia]).
  pose proof (rt_completion_wait_correct d_comp0 th comp_addr false [] 5 HR HA ltac:(by vm_compute)) as H.
  rewrite bool_decide_true in H by reflexivity. cbn [negb andb] in H. destruct H as (r & d' & E & _ & _ & H).
  rewrite decide_False in H by lia. destruct H as (-> & HA' & _). exists d'. conjs.
Defined.

Lemma rt_completion_done_correct_witness :
  exists d', rt_completion_done comp_addr d_compw = Done tt d' /\ comp_at d' comp_addr true [] /\ woke_first (d_k d_compw) (d_k d') [main_addr].
Proof.
  assert (HA : comp_at d_compw comp_addr false [main_addr]) by (split; [nonnull|concrete|concrete|cbn; lia]).
  destruct (rt_completion_done_correct d_compw comp_addr false [main_addr] ltac:(by_check) ltac:(nonnull) HA) as (d' & E & _ & HA' & _ & Hw).
  exists d'. conjs.
Defined.

Definition q_new : rt_data_queue := DataQueue 2 1 0 0 67748 [(0, 0); (0, 0)] 0x8001.
Definition q_one : rt_data_queue := DataQueue 2 1 0 1 67748 [(0x2000, 16); (0, 0)] 0x8001.

Lemma q_one_circ : circ (dq_items q_one) 0 [(0x2000, 16)].
Proof. split; [by vm_compute|]. split; [cbn; lia|]. intros i x Hi. destruct i as [|i]; [|done]. injection Hi as <-. concrete. Qed.

Lemma d_dq0_at : dq_at d_dq0 dq_addr 2 q_new [] [] [].
Proof. split; [nonnull|concrete| |concrete|concrete]. split; cbn; try done; try lia. apply circ_nil. by vm_compute. Qed.
Lemma d_dq1_at : dq_at d_dq1 dq_addr 2 q_one [(0x2000, 16)] [] [].
Proof. split; [nonnull|concrete| |concrete|concrete]. split; cbn; try done; try lia. apply q_one_circ. Qed.

Lemma rt_data_queue_push_correct_witness :
  exists d', rt_data_queue_push dq_addr (0x2000, 16) 0 d_dq0 = Done (Returned (inl (RT_EOK, Some tt))) d' /\
    dq_at d' dq_addr 2 (dq_after_put q_new (0x2000, 16)) ([] ++ [(0x2000, 16)]) (tail []) [].
Proof.
  destruct d_dq0_running as [th HR].
  destruct (rt_data_queue_push_correct d_dq0 th dq_addr 2 q_new [] [] [] (0x2000, 16) 0 HR d_dq0_at) as (r & d' & E & _ & _ & H);
    [cbn; lia|by vm_compute|]. rewrite decide_True in H by (unfold blen; cbn; lia). destruct H as (-> & HA' & _).
  exists d'. split; [exact E|exact HA'].
Defined.

Lemma rt_data_queue_pop_correct_witness :
  exists d', rt_data_queue_pop dq_addr 0 d_dq1 = Done (Returned (inl (RT_EOK, Some (0x2000, 16)))) d'.
Proof.
  destruct d_dq1_running as [th HR].
  destruct (rt_data_queue_pop_correct d_dq1 th dq_addr 2 q_one [(0x2000, 16)] [] [] 0 HR d_dq1_at) as (r & d' & E & _ & _ & -> & _);
    [by vm_compute|]. exists d'. exact E.
Defined.

(** The queue after 65534 items have gone through it. *)
Definition q_late : rt_data_queue := DataQueue 2 1 (2 ^ 16 - 2) (2 ^ 16 - 1) 0x1018 [(0x2000, 16); (0, 0)] 0.
Definition d_late : dstate := put_dq dq_addr q_late d_dq0.

Lemma rt_data_queue_wraps_witness :
  exists d1 d2, rt_data_queue_push dq_addr (1, 1) 0 d_late = Done (Returned (inl (RT_EOK, Some tt))) d1 /\
    rt_data_queue_push dq_addr (2, 2) 0 d1 = Done (Returned (inl (RT_EOK, Some tt))) d2 /\
    exists q2, d_dq d2 !! dq_addr = Some q2 /\ put_index q2 = 1 /\ get_index q2 = get_index q_late /\
      dq_items q2 !! Z.to_nat (get_index q_late mod 2) = Some (2, 2).
Proof.
  destruct d_dq0_running as [th HR].
  apply (rt_data_queue_wraps d_late th dq_addr 2 q_late (0x2000, 16) [] [] (1, 1) (2, 2) 0 HR); [|done|done|done|by vm_compute].
  split; [nonnull|concrete| |concrete|concrete]. split; cbn; try done; try lia. apply q_one_circ.
Defined.
