(* ===== verification/Workqueue.v ===== *)
(** * Work queues (components/drivers/src/workqueue.c)

    A work queue is a list of works and a thread that runs them, with a semaphore for
    callers that wait for the work being run.  The state is that of one queue, on the
    kernel of Kernel.v: [work_list] is the sequence of its works, [work_current] the
    work being run.  The thread is a loop; its parts between two points where other
    code can run are separate definitions, and the function of a work is a parameter.

    [work_completion_wakes] shows that the acknowledgement loop ends with every waiting
    caller woken and the semaphore at zero; [rt_workqueue_dowork_correct] and
    [worker_turn_correct] that works are run in the order they are handed in.
    Two interleavings the code does not handle are theorems: [workqueue_cancel_race] and [workqueue_lost_wakeup]. *)

From S2P Require Import Prelude RtList Exec KService Mem Kernel Object Scheduler Timer Thread Clock Ipc Sem Decide Demo.

Definition sizeof_rt_workqueue : Z := 48.

Record rt_workqueue := Workqueue {
  q_k : kernel; q_addr : Z; work_list : list Z; work_current : Z; work_thread : Z
}.

(** [&queue->sem] *)
Definition q_sem (q : rt_workqueue) : Z := q_addr q + 12.

Definition put_q_k (k : kernel) (q : rt_workqueue) : rt_workqueue := Workqueue k (q_addr q) (work_list q) (work_current q) (work_thread q).
Definition put_list (l : list Z) (q : rt_workqueue) : rt_workqueue := Workqueue (q_k q) (q_addr q) l (work_current q) (work_thread q).
Definition put_current (w : Z) (q : rt_workqueue) : rt_workqueue := Workqueue (q_k q) (q_addr q) (work_list q) w (work_thread q).

Notation Q := (M rt_workqueue).
Definition qcall {A} (m : K A) : Q A := zoom q_k put_q_k m.

(** ** Operations *)

(** The loop of [_workqueue_work_completion]. *)
Fixpoint completion_loop (fuel : nat) (a : Z) : K Z :=
  match fuel with
  | O => stuck Diverge
  | S fuel =>
      r <- rt_sem_trytake a;;
      match r with
      | Returned e =>
          if e =? - RT_ETIMEOUT then _ <- rt_sem_release a;; completion_loop fuel a
          else if e =? RT_EOK then ret RT_EOK else ret (- RT_ERROR)
      | Blocked => stuck Undefined
      end
  end.
Definition _workqueue_work_completion (a : Z) : K Z :=
  rt_enter_critical;;;
  n <- gets (fun k => length (lget (LSuspend a) (k_tl k)));;
  result <- completion_loop (S (S n)) a;;
  rt_exit_critical;;;
  ret result.

(** The parts of [_workqueue_thread_entry].  With an empty list [work] would be the queue itself, and
    what is called as its function is the address of the queue: undefined. *)
Definition worker_take : Q Z :=
  l <- gets work_list;;
  match l with
  | [] => stuck Undefined
  | w :: l => modify (put_list l);;; modify (put_current w);;; ret w
  end.
Definition worker_done : Q unit :=
  modify (put_current RT_NULL);;;
  a <- gets q_sem;; qcall (_ <- _workqueue_work_completion a;; ret tt).

(** The work of one turn, from line 79 on: this is also where the thread goes on after its wait. *)
Definition worker_round (work_func : Z -> Q unit) : Q unit := w <- worker_take;; work_func w;;; worker_done.

Definition worker_empty : Q bool := gets (fun q => match work_list q with [] => true | _ => false end).
Definition worker_wait : Q unit := qcall (t <- rt_thread_self;; _ <- rt_thread_suspend t;; rt_schedule).

(** One turn of the loop; [Blocked] when the thread waits. *)
Definition _workqueue_thread_entry (work_func : Z -> Q unit) : Q (outcome unit) :=
  e <- worker_empty;;
  if e then worker_wait;;; ret Blocked else worker_round work_func;;; ret (Returned tt).

Definition workqueue_entry : Z := 0x7000.
Definition wqueue_name : list Z := [119; 113; 117; 101; 117; 101].

Definition rt_workqueue_create (name : list Z) (stack_size priority : Z) : Q Z :=
  p <- qcall (kmalloc sizeof_rt_workqueue);;
  if p =? RT_NULL then ret RT_NULL
  else
    modify (fun q => Workqueue (q_k q) p [] RT_NULL (work_thread q));;;
    qcall (_ <- rt_sem_init (p + 12) wqueue_name 0 RT_IPC_FLAG_FIFO;; ret tt);;;
    t <- qcall (rt_thread_create name workqueue_entry p (u16 stack_size) (u8 priority) 10);;
    modify (fun q => Workqueue (q_k q) (q_addr q) (work_list q) (work_current q) t);;;
    if t =? RT_NULL then qcall (kfree p);;; ret RT_NULL
    else qcall (_ <- rt_thread_startup t;; ret tt);;; ret p.

Definition rt_workqueue_destroy : Q Z :=
  a <- gets q_addr;; rt_assert (negb (a =? RT_NULL));;;
  t <- gets work_thread;; qcall (_ <- rt_thread_delete t;; kfree a);;;
  ret RT_EOK.

Definition q_check (w : Z) : Q unit :=
  a <- gets q_addr;; rt_assert (negb (a =? RT_NULL));;; rt_assert (negb (w =? RT_NULL)).

(** [rt_list_remove] of a work and its insertion at the end. *)
Definition enqueue (w : Z) : Q unit := modify (fun q => put_list (lremove w (work_list q) ++ [w]) q).

Definition rt_workqueue_dowork (w : Z) : Q Z :=
  q_check w;;;
  c <- gets work_current;;
  if c =? w then ret (- RT_EBUSY)
  else
    enqueue w;;;
    (if c =? RT_NULL then t <- gets work_thread;; qcall (_ <- rt_thread_resume t;; rt_schedule) else ret tt);;;
    ret RT_EOK.

(** The same statements again. *)
Definition rt_workqueue_critical_work (w : Z) : Q Z := rt_workqueue_dowork w.

Definition rt_workqueue_cancel_work (w : Z) : Q Z :=
  q_check w;;;
  c <- gets work_current;;
  if c =? w then ret (- RT_EBUSY)
  else modify (fun q => put_list (lremove w (work_list q)) q);;; ret RT_EOK.

(** The interrupts are off around [rt_sem_take]: the switch to another thread happens when they are on
    again, before the return. *)
Definition rt_workqueue_cancel_work_sync (w : Z) : Q (outcome Z) :=
  q_check w;;;
  c <- gets work_current;;
  if c =? w then
    a <- gets q_sem;; r <- qcall (rt_sem_take a RT_WAITING_FOREVER);;
    ret (match r with Returned _ => Returned RT_EOK | Blocked => Blocked end)
  else modify (fun q => put_list (lremove w (work_list q)) q);;; ret (Returned RT_EOK).

Definition rt_workqueue_cancel_all_work : Q Z :=
  a <- gets q_addr;; rt_assert (negb (a =? RT_NULL));;;
  qcall rt_enter_critical;;; modify (put_list []);;; qcall rt_exit_critical;;;
  ret RT_EOK.

(** ** The acknowledgement *)

Lemma trytake_none k a l : sem_at k a 0 l -> rt_sem_trytake a k = Done (Returned (- RT_ETIMEOUT)) k.
Proof.
  intros [Ho Hv _ _ _]. unfold rt_sem_trytake, rt_sem_take.
  by rewrite (after (ipc_check_done _ _ _ Ho)), (after (sem_done _ _ _ Hv)).
Qed.

Lemma trytake_one k a : sem_at k a 1 [] ->
  rt_sem_trytake a k = Done (Returned RT_EOK) (upd_sem (<[a := Semaphore 0]>) k).
Proof.
  intros [Ho Hv _ _ _]. unfold rt_sem_trytake, rt_sem_take.
  by rewrite (after (ipc_check_done _ _ _ Ho)), (after (sem_done _ _ _ Hv)).
Qed.

Lemma release_free k a : sem_at k a 0 [] ->
  rt_sem_release a k = Done RT_EOK (upd_sem (<[a := Semaphore 1]>) k).
Proof.
  intros [Ho Hv Hl _ _]. unfold rt_sem_release.
  by rewrite (after (ipc_check_done _ _ _ Ho)), (after (tlist_done _ _ _ Hl)), bind_assoc, (after (sem_done _ _ _ Hv)).
Qed.

Lemma sem_at_set k a v v' : sem_at k a v [] -> 0 <= v' < 2 ^ 16 ->
  sem_at (upd_sem (<[a := Semaphore v']>) k) a v' [].
Proof. intros [Ho _ Hl _ _] Hr. split; try done. cbn. apply lookup_insert_eq. Qed.

(** With the scheduler locked, a release only makes the first waiting thread ready. *)
Lemma release_locked k a t l :
  kinv k -> k_lock k <> 0 -> sem_at k a 0 (t :: l) ->
  exists th k', k_thr k !! t = Some th /\ rt_sem_release a k = Done RT_EOK k' /\ kinv k' /\ sem_at k' a 0 l /\
    k_lock k' = k_lock k /\ k_cur k' = k_cur k /\ k_thr k' = <[t := ready_stat th]> (k_thr k).
Proof.
  intros HK Hlk HA. pose proof HA as [Ho _ Hl _ _].
  destruct (so_mem _ _ _ _ (kb_sched _ _ _ _ HK) _ _ t Hl) as (_ & _ & th & Ht & _); [apply elem_of_cons; by left|].
  destruct (ipc_wake_done none 0 k (LSuspend a) t l th HK I Hl Ht (fun f => f)) as (k' & E & HK' & HF & Eth & Ec & Etl & _).
  exists th, k'. pose proof (fr_lock _ _ HF) as El. split_and!; try done.
  - unfold rt_sem_release. rewrite (after (ipc_check_done _ _ _ Ho)), (after (tlist_done _ _ _ Hl)), bind_assoc, (after E).
    mstep. cbn [when]. by rewrite (after (rt_schedule_locked k' ltac:(by rewrite El))).
  - apply (sem_at_frame k k' a 0 (t :: l)); [done|done|by rewrite Etl, decide_True|done].
Qed.

Lemma ready_again th : ready_stat (ready_stat th) = ready_stat th.
Proof.
  destruct th. unfold ready_stat, set_stat. cbn. f_equal. apply Z.bits_inj'. intros n Hn.
  rewrite !Z.lor_spec, !Z.land_spec, !Z.lor_spec, !Z.land_spec. repeat destruct (Z.testbit _ n); done.
Qed.

(** Every thread of [l] is ready, the others are as they were. *)
Definition all_ready (l : list Z) (T T' : gmap Z rt_thread) : Prop :=
  forall t, T' !! t = if decide (t ∈ l) then ready_stat <$> T !! t else T !! t.

Lemma completion_loop_done a l : forall k,
  kinv k -> k_lock k <> 0 -> sem_at k a 0 l ->
  exists k', completion_loop (S (S (length l))) a k = Done RT_EOK k' /\ kinv k' /\ sem_at k' a 0 [] /\
    k_lock k' = k_lock k /\ k_cur k' = k_cur k /\ all_ready l (k_thr k) (k_thr k').
Proof.
  induction l as [|t l IH]; intros k HK Hlk HA; cbn [length].
  - assert (HA1 := sem_at_set k a 0 1 HA ltac:(lia)).
    eexists. remember 1%nat as n. cbn [completion_loop]. rewrite (after (trytake_none _ _ _ HA)), Z.eqb_refl.
    rewrite (after (release_free _ _ HA)). subst n. cbn [completion_loop]. rewrite (after (trytake_one _ _ HA1)).
    split; [done|]. split; [by do 2 apply kbut_set_sem|]. split; [by eapply sem_at_set|]. done.
  - destruct (release_locked k a t l HK Hlk HA) as (th & k1 & Ht & E & HK1 & HA1 & El & Ec & Eth).
    destruct (IH k1 HK1) as (k' & E' & HK' & HA' & El' & Ec' & Hr); [by rewrite El|done|].
    exists k'. remember (S (S (length l))) as n. cbn [completion_loop]. rewrite (after (trytake_none _ _ _ HA)), Z.eqb_refl.
    rewrite (after E). split_and!; try done; [congruence..|].
    intros x. rewrite (Hr x), Eth. destruct (decide (x = t)) as [->|Hne].
    + rewrite lookup_insert_eq, Ht, (decide_True (P := t ∈ t :: l)) by set_solver.
      destruct (decide _); [|done]. cbn. by rewrite ready_again.
    + rewrite lookup_insert_ne by done. destruct (decide (x ∈ l)); [rewrite decide_True by set_solver|rewrite decide_False by set_solver]; done.
Qed.

Lemma exit_critical_schedule k k' r : k_lock k = 1 ->
  rt_schedule (upd_lock (fun _ => 0) (upd_lock (fun n => s16 (n - 1)) k)) = Done r k' -> rt_exit_critical k = Done r k'.
Proof.
  intros El E. unfold rt_exit_critical. do 2 mstep. change (k_lock (upd_lock _ k)) with (s16 (k_lock k - 1)).
  rewrite El. cbn [when]. change (s16 (1 - 1) <=? 0) with true. cbn [when]. by mstep.
Qed.

Lemma completion_done k th a l :
  running k th -> sem_at k a 0 l ->
  exists k' p, _workqueue_work_completion a k = Done RT_EOK k' /\ kinv k' /\ sem_at k' a 0 [] /\
    all_ready l (k_thr k) (k_thr k') /\ highest (k_tl k') p (k_cur k').
Proof.
  intros HR HA. pose proof HR as [HK Ht Hs Hlk _ _]. pose proof (running_nonnull _ _ HR) as Hc.
  set (k1 := upd_lock (fun n => s16 (n + 1)) k). assert (El1 : k_lock k1 = 1) by (cbn; by rewrite Hlk).
  destruct (completion_loop_done a l k1) as (k2 & E & HK2 & HA2 & El & Ec & Hr);
    [by eapply kbut_frame|by rewrite El1|by destruct HA|].
  set (k3 := upd_lock (fun _ => 0) (upd_lock (fun n => s16 (n - 1)) k2)).
  destruct (schedule_done none 0 k3) as (k' & E' & HS); [by eapply kbut_frame|cbn; by rewrite Ec| |].
  { exists (k_cur k). cbn. rewrite (Hr (k_cur k)). change (k_thr k1) with (k_thr k). rewrite Ht.
    destruct (decide _); cbn; eexists; (split; [done|]); [apply ready_stat_statm|done]. }
  destruct (resched_highest _ _ HS eq_refl) as (p & Hp). exists k', p.
  assert (HK' : kinv k') by (eapply resched_kbut; [done|by eapply kbut_frame]). apply resched_cur in HS as (c & p' & ->).
  split_and!; try done; [|by destruct HA2].
  unfold _workqueue_work_completion, rt_enter_critical. do 2 mstep. fold k1. unfold lget. change (k_tl k1) with (k_tl k).
  rewrite (sa_wait _ _ _ _ HA). cbn [default]. rewrite (after E). by rewrite (after (exit_critical_schedule _ _ _ (eq_trans El El1) E')).
Qed.

(** C28: When a work is done, the loop that acknowledges it ends, within as many turns as there are waiting
    callers and two more: every caller that waits in [rt_workqueue_cancel_work_sync] is READY, no
    other thread is changed, the semaphore is at zero with nobody waiting, and the highest ready priority runs. *)
Theorem work_completion_wakes k th a l :
  running k th -> sem_at k a 0 l ->
  exists k' p, _workqueue_work_completion a k = Done RT_EOK k' /\ kinv k' /\ sem_at k' a 0 [] /\
    all_ready l (k_thr k) (k_thr k') /\ highest (k_tl k') p (k_cur k').
Proof. apply completion_done. Qed.

(** ** Handing in works *)

Lemma qcall_done {A} (m : K A) q a k' : m (q_k q) = Done a k' -> qcall m q = Done a (put_q_k k' q).
Proof. intros E. unfold qcall, zoom. by rewrite E. Qed.

Lemma q_check_done q w : q_addr q <> RT_NULL -> w <> RT_NULL -> q_check w q = Done tt q.
Proof.
  intros Ha Hw. unfold q_check. mstep. destruct (Z.eqb_spec (q_addr q) RT_NULL); [done|].
  destruct (Z.eqb_spec w RT_NULL); [done|]. by repeat mstep.
Qed.

(** The thread of the queue is ready, or it waits for works. *)
Definition worker_alive (q : rt_workqueue) : Prop :=
  exists th, k_thr (q_k q) !! work_thread q = Some th /\ (statm th = RT_THREAD_READY \/ statm th = RT_THREAD_SUSPEND).
Definition worker_ready (q : rt_workqueue) : Prop :=
  exists th, k_thr (q_k q) !! work_thread q = Some th /\ statm th = RT_THREAD_READY.

Lemma enqueued_NoDup (w : Z) l : NoDup l -> NoDup (lremove w l ++ [w]).
Proof.
  intros Hd. apply NoDup_app. split; [by apply NoDup_lremove|]. split; [|apply NoDup_singleton].
  intros x [? ?]%elem_of_lremove. by rewrite list_elem_of_singleton.
Qed.

Definition dowork_spec (q q' : rt_workqueue) (w r : Z) : Prop :=
  if work_current q =? w then r = - RT_EBUSY /\ q' = q
  else r = RT_EOK /\ work_list q' = lremove w (work_list q) ++ [w] /\ work_current q' = work_current q /\
    work_thread q' = work_thread q /\ q_addr q' = q_addr q /\
    if work_current q =? RT_NULL
    then worker_ready q' /\ (k_lock (q_k q) = 0 -> exists p, highest (k_tl (q_k q')) p (k_cur (q_k q')))
    else q_k q' = q_k q.

Lemma dowork_done q w :
  kinv (q_k q) -> k_cur (q_k q) <> RT_NULL -> q_addr q <> RT_NULL -> w <> RT_NULL -> worker_alive q ->
  exists r q', rt_workqueue_dowork w q = Done r q' /\ kinv (q_k q') /\ dowork_spec q q' w r.
Proof.
  intros HK Hc Ha Hw (th & Ht & Hs). unfold rt_workqueue_dowork, dowork_spec. rewrite (after (q_check_done _ _ Ha Hw)). mstep.
  destruct (work_current q =? w); [by eexists _, _|]. unfold enqueue. mstep.
  set (q1 := put_list _ q). destruct (work_current q =? RT_NULL); [|by eexists _, q1].
  destruct (resume_schedule _ _ _ HK Hc Ht Hs) as (k' & th' & E & HK' & Eth & Hs' & Hh).
  exists RT_EOK, (put_q_k k' q1). rewrite bind_assoc. mstep. change (work_thread q1) with (work_thread q).
  rewrite (after (qcall_done _ q1 _ k' E)). split_and!; try done. exists th'. cbn. by rewrite Eth, lookup_insert_eq.
Qed.

(** [rt_workqueue_dowork] refuses the work that is being run; any other work is afterwards in the list once,
    behind all the others, which keep their order.  If no work is being run the thread of the queue is READY
    and the highest ready priority runs. *)
Theorem rt_workqueue_dowork_correct q w :
  kinv (q_k q) -> k_cur (q_k q) <> RT_NULL -> q_addr q <> RT_NULL -> w <> RT_NULL -> worker_alive q -> NoDup (work_list q) ->
  exists r q', rt_workqueue_dowork w q = Done r q' /\ kinv (q_k q') /\ NoDup (work_list q') /\ dowork_spec q q' w r.
Proof.
  intros HK Hc Ha Hw HA Hd. destruct (dowork_done q w HK Hc Ha Hw HA) as (r & q' & E & HK' & HS).
  exists r, q'. split_and!; try done. unfold dowork_spec in HS. destruct (_ =? w); [by destruct HS as [_ ->]|].
  destruct HS as (_ & -> & _). by apply enqueued_NoDup.
Qed.

(** ** The thread *)

Lemma worker_take_done q w l :
  work_list q = w :: l -> worker_take q = Done w (Workqueue (q_k q) (q_addr q) l w (work_thread q)).
Proof. intros El. unfold worker_take. mstep. rewrite El. by do 2 mstep. Qed.

(** A turn of the thread with works in the list runs the first of them, which is out of the list and the
    current work while its function runs, and then acknowledges it: no work is current, and every caller
    that waits for it by then is READY. *)
Theorem worker_turn_correct (f : Z -> Q unit) q w l q1 th1 ws :
  work_list q = w :: l ->
  f w (Workqueue (q_k q) (q_addr q) l w (work_thread q)) = Done tt q1 ->
  running (q_k q1) th1 -> sem_at (q_k q1) (q_sem q1) 0 ws ->
  exists q' p, _workqueue_thread_entry f q = Done (Returned tt) q' /\ kinv (q_k q') /\
    work_list q' = work_list q1 /\ work_current q' = RT_NULL /\ sem_at (q_k q') (q_sem q') 0 [] /\
    all_ready ws (k_thr (q_k q1)) (k_thr (q_k q')) /\ highest (k_tl (q_k q')) p (k_cur (q_k q')).
Proof.
  intros El E HR HA. destruct (completion_done _ _ _ _ HR HA) as (k' & p & E' & HK & HA' & Hr & Hh).
  exists (put_q_k k' (put_current RT_NULL q1)), p. split; [|by split_and!].
  assert (E2 : worker_done q1 = Done tt (put_q_k k' (put_current RT_NULL q1))).
  { unfold worker_done. do 2 mstep. apply qcall_done. change (q_k (put_current RT_NULL q1)) with (q_k q1).
    change (q_sem (put_current RT_NULL q1)) with (q_sem q1). by rewrite (after E'). }
  assert (E1 : worker_round f q = Done tt (put_q_k k' (put_current RT_NULL q1))).
  { unfold worker_round. by rewrite (after (worker_take_done _ _ _ El)), (after E). }
  unfold _workqueue_thread_entry, worker_empty. mstep. rewrite El. by rewrite (after E1).
Qed.

(** The states of the two interleavings: the thread waits for works, or it runs and is about to. *)
Record worker_idle (q : rt_workqueue) (th : rt_thread) : Prop := WorkerIdle {
  wi_list : work_list q = []; wi_current : work_current q = RT_NULL;
  wi_thr : k_thr (q_k q) !! work_thread q = Some th; wi_stat : statm th = RT_THREAD_SUSPEND
}.
Record worker_runs (q : rt_workqueue) (th : rt_thread) (p : Z) : Prop := WorkerRuns {
  wr_list : work_list q = []; wr_current : work_current q = RT_NULL; wr_cur : k_cur (q_k q) = work_thread q;
  wr_running : running (q_k q) th; wr_highest : highest (k_tl (q_k q)) p (k_cur (q_k q))
}.

Lemma cancel_done q w : q_addr q <> RT_NULL -> w <> RT_NULL -> work_current q <> w ->
  rt_workqueue_cancel_work w q = Done RT_EOK (put_list (lremove w (work_list q)) q).
Proof.
  intros Ha Hw Hc. unfold rt_workqueue_cancel_work. rewrite (after (q_check_done _ _ Ha Hw)). mstep.
  by destruct (Z.eqb_spec (work_current q) w).
Qed.

(** A work that is handed in to a waiting queue and cancelled again before the thread of the queue has run
    leaves that thread READY with an empty list: it does not test the list again after its wait, and runs
    whatever the address of the queue itself is as a work. *)
Theorem workqueue_cancel_race q th w :
  kinv (q_k q) -> k_cur (q_k q) <> RT_NULL -> q_addr q <> RT_NULL -> w <> RT_NULL -> worker_idle q th ->
  exists q1 q2, rt_workqueue_dowork w q = Done RT_EOK q1 /\ rt_workqueue_cancel_work w q1 = Done RT_EOK q2 /\
    worker_ready q2 /\ work_list q2 = [] /\ forall f, worker_round f q2 = Stop Undefined.
Proof.
  intros HK Hc Ha Hw [El Ec Ht Hs]. destruct (dowork_done q w HK Hc Ha Hw) as (r & q1 & E & _ & HS); [by exists th; auto|].
  unfold dowork_spec in HS. rewrite El, Ec in HS. destruct (Z.eqb_spec RT_NULL w) as [|_]; [congruence|].
  destruct HS as (-> & El1 & Ec1 & _ & Ea1 & Hr & _). exists q1, (put_list [] q1).
  split; [done|]. split; [|split_and!; try done].
  rewrite cancel_done; [|by rewrite Ea1|done|by rewrite Ec1; congruence]. rewrite El1. cbn.
  by rewrite decide_False by naive_solver.
Qed.

Lemma highest_unique L p p' t t' : highest L p t -> highest L p' t' -> t = t'.
Proof.
  intros (Hp & (l & Hl) & Hlow) (Hp' & (l' & Hl') & Hlow').
  destruct (Z.lt_trichotomy p p') as [?|[->|?]]; [|congruence|].
  - by specialize (Hlow' p _ ltac:(lia) Hl).
  - by specialize (Hlow p' _ ltac:(lia) Hl').
Qed.

(** Scheduling while the running thread is the one to run does nothing. *)
Lemma schedule_idle k th p : running k th -> highest (k_tl k) p (k_cur k) -> rt_schedule k = Done tt k.
Proof.
  intros HR Hh. pose proof HR as [HK Ht Hs Hlk _ _].
  destruct (schedule_done none 0 k HK (running_nonnull _ _ HR)) as (k' & E & HS); [by eexists _, _|].
  unfold resched in HS. rewrite Hlk in HS. destruct HS as (p' & to & -> & Hh'). rewrite E.
  rewrite (highest_unique _ _ _ _ _ Hh' Hh). unfold k_switch. by rewrite Z.eqb_refl.
Qed.

Lemma worker_wait_done q th : running (q_k q) th -> 
  exists k' th', worker_wait q = Done tt (put_q_k k' q) /\ kinv k' /\ k_cur k' <> k_cur (q_k q) /\
    k_thr k' !! k_cur (q_k q) = Some th' /\ statm th' = RT_THREAD_SUSPEND.
Proof.
  intros HR. pose proof HR as [HK Ht Hs Hlk _ (i & thi & Hi & His & Hne)]. set (k := q_k q) in *.
  destruct (suspend_done none 0 k (k_cur k) th HK Ht Hs (fun f => f)) as (h & _ & E1 & HK1).
  set (k1 := k_suspend (k_cur k) th h k) in *.
  assert (Ht1 : k_thr k1 !! k_cur k = Some (susp_stat th)) by (cbn; by rewrite lookup_insert_eq).
  pose proof (sched_but_queued _ _ _ _ (kb_sched _ _ _ _ HK1)) as Hq. rewrite queued_false in Hq.
  assert (HK2 : kinv k1) by (eapply kbut_idle; [exact HK1|exact Ht1|by rewrite susp_stat_statm]).
  destruct (schedule_done none 0 k1 HK2) as (k' & E2 & HS); [by apply (running_nonnull _ _ HR)| |].
  { exists i, thi. cbn. by rewrite lookup_insert_ne by congruence. }
  exists k', (susp_stat th). assert (HK' : kinv k') by (by eapply resched_kbut).
  destruct (resched_highest _ _ HS Hlk) as (p & _ & (l & Hl) & _). apply resched_cur in HS as (c & p' & ->).
  split_and!; try done; [|intros Ec|apply susp_stat_statm].
  - unfold worker_wait. apply qcall_done. unfold rt_thread_self. mstep. fold k. by rewrite (after E1).
  - eapply Hq; [exact Hl|]. rewrite <- Ec. apply elem_of_cons. by left.
Qed.

(** A work that an interrupt hands in between the test of the list and the suspension of the thread is not
    run: the resumption finds the thread READY and is refused, and the thread then waits with the work in its list. *)
Theorem workqueue_lost_wakeup q th p w :
  worker_runs q th p -> q_addr q <> RT_NULL -> w <> RT_NULL ->
  exists q1 q2 th', worker_empty q = Done true q /\ rt_workqueue_dowork w q = Done RT_EOK q1 /\
    worker_wait q1 = Done tt q2 /\ work_list q2 = [w] /\ work_current q2 = RT_NULL /\ kinv (q_k q2) /\
    k_thr (q_k q2) !! work_thread q2 = Some th' /\ statm th' = RT_THREAD_SUSPEND /\ k_cur (q_k q2) <> work_thread q2.
Proof.
  intros [El Ec Ew HR Hh] Ha Hw. pose proof HR as [HK Ht Hs _ _ _].
  destruct (worker_wait_done (put_list [w] q) th HR) as (k' & th' & E & HK' & Hc & Ht' & Hs'). cbn [q_k put_list] in *.
  exists (put_list [w] q), (put_q_k k' (put_list [w] q)), th'.
  split; [unfold worker_empty, gets; by rewrite El|]. split; [|split_and!; try done; cbn; by rewrite <- Ew].
  unfold rt_workqueue_dowork. rewrite (after (q_check_done _ _ Ha Hw)). mstep. rewrite Ec.
  destruct (Z.eqb_spec RT_NULL w); [congruence|]. unfold enqueue. mstep. rewrite El, Z.eqb_refl, bind_assoc. mstep.
  change (lremove w [] ++ [w]) with [w].
  assert (E1 : (_ <- rt_thread_resume (work_thread q);; rt_schedule) (q_k q) = Done tt (q_k q)).
  { rewrite <- Ew, (after (resume_refused _ _ _ HK Ht ltac:(by rewrite Hs))). by eapply schedule_idle. }
  rewrite (after (qcall_done _ (put_list [w] q) _ _ E1)). by destruct q.
Qed.

(** ** Concrete queues *)

(** Main creates a queue whose thread has priority 20 and sleeps; the thread of the queue runs. *)
Definition q_reset : rt_workqueue := Workqueue k_up RT_NULL [] RT_NULL RT_NULL.
Definition q_made : rt_workqueue := Eval vm_compute in final q_reset (rt_workqueue_create [119] 256 20 q_reset).
Definition q_runs : rt_workqueue := Eval vm_compute in final q_reset (qcall (rt_thread_sleep 1) q_made).
(** It waits for works, and main wakes. *)
Definition q_idle : rt_workqueue := Eval vm_compute in
  final q_reset ((worker_wait;;; qcall (rt_tick_increase no_user 2)) q_runs).
(** Main hands in a work; once main sleeps the thread takes it. *)
Definition work_addr : Z := 0x5000.
Definition q_work : rt_workqueue := Eval vm_compute in
  final q_reset ((_ <- rt_workqueue_dowork work_addr;; qcall (rt_thread_sleep 1)) q_idle).
(** While the work runs, main wakes and waits for its end. *)
Definition q_sync : rt_workqueue := Eval vm_compute in
  final q_reset ((_ <- worker_take;; qcall (rt_tick_increase no_user 2);;; _ <- rt_workqueue_cancel_work_sync work_addr;; ret tt) q_work).
(** What happens while the work runs. *)
Definition meanwhile (_ : Z) : Q unit :=
  qcall (rt_tick_increase no_user 2);;; _ <- rt_workqueue_cancel_work_sync work_addr;; ret tt.

Lemma q_sync_running : exists th, running (q_k q_sync) th.
Proof. apply (running_check_sound _ idle_addr). concrete. Qed.
Lemma q_sync_at : sem_at (q_k q_sync) (q_sem q_sync) 0 [main_addr].
Proof. split; [by_check|concrete|concrete|lia|lia]. Qed.
Lemma q_runs_running : exists th, running (q_k q_runs) th.
Proof. apply (running_check_sound _ idle_addr). concrete. Qed.
Lemma q_idle_worker : exists th, k_thr (q_k q_idle) !! work_thread q_idle = Some th /\ statm th = RT_THREAD_SUSPEND.
Proof. eexists. split; concrete. Qed.
#[local] Opaque q_sync q_runs q_idle q_work.

Lemma work_completion_wakes_witness :
  exists k' p, _workqueue_work_completion (q_sem q_sync) (q_k q_sync) = Done RT_EOK k' /\
    all_ready [main_addr] (k_thr (q_k q_sync)) (k_thr k') /\ highest (k_tl k') p (k_cur k').
Proof.
  destruct q_sync_running as [th HR].
  destruct (work_completion_wakes (q_k q_sync) th (q_sem q_sync) [main_addr] HR q_sync_at) as (k' & p & E & _ & _ & Hr & Hh).
  exists k', p. conjs.
Defined.

Lemma rt_workqueue_dowork_correct_witness :
  exists r q', rt_workqueue_dowork work_addr q_idle = Done r q' /\ NoDup (work_list q') /\ dowork_spec q_idle q' work_addr r.
Proof.
  destruct q_idle_worker as (th & Ht & Hs). assert (El : work_list q_idle = []) by concrete.
  destruct (rt_workqueue_dowork_correct q_idle work_addr ltac:(by_check) ltac:(nonnull) ltac:(nonnull) ltac:(nonnull)) as (r & q' & E & _ & Hd & HS).
  - exists th. auto.
  - rewrite El. apply NoDup_nil_2.
  - exists r, q'. conjs.
Defined.

Lemma worker_turn_correct_witness :
  exists q', _workqueue_thread_entry meanwhile q_work = Done (Returned tt) q' /\ work_current q' = RT_NULL /\
    all_ready [main_addr] (k_thr (q_k q_sync)) (k_thr (q_k q')).
Proof.
  destruct q_sync_running as [th HR]. 
  destruct (worker_turn_correct meanwhile q_work work_addr [] q_sync th [main_addr] ltac:(concrete) ltac:(concrete) HR q_sync_at)
    as (q' & p & E & _ & _ & Ec & _ & Hr & _).
  exists q'. conjs.
Defined.

Lemma workqueue_cancel_race_witness :
  exists q1 q2, rt_workqueue_dowork work_addr q_idle = Done RT_EOK q1 /\ k_cur (q_k q1) = main_addr /\
    rt_workqueue_cancel_work work_addr q1 = Done RT_EOK q2 /\ worker_round (fun _ => ret tt) q2 = Stop Undefined.
Proof.
  destruct q_idle_worker as (th & Ht & Hs).
  destruct (workqueue_cancel_race q_idle th work_addr ltac:(by_check) ltac:(nonnull) ltac:(nonnull) ltac:(nonnull)) as (q1 & q2 & E1 & E2 & _ & _ & Hf).
  - split; [concrete|concrete|exact Ht|exact Hs].
  - assert (Ec : k_cur (q_k (final q_reset (rt_workqueue_dowork work_addr q_idle))) = main_addr) by concrete.
    rewrite E1 in Ec. exists q1, q2. conjs. exact (Hf _).
Defined.

Lemma workqueue_lost_wakeup_witness :
  exists q1 q2, worker_empty q_runs = Done true q_runs /\ rt_workqueue_dowork work_addr q_runs = Done RT_EOK q1 /\
    worker_wait q1 = Done tt q2 /\ work_list q2 = [work_addr].
Proof.
  destruct q_runs_running as [th HR].
  assert (Hh : highest (k_tl (q_k q_runs)) 20 (k_cur (q_k q_runs))).
  { split; [by vm_compute|]. split; [eexists; concrete|]. intros p l Hp Hl.
    assert (HA : all_of (k_tl (q_k q_runs)) (fun h l => match h with LReady p => (20 <=? p) || bool_decide (l = []) | _ => true end) = true) by concrete.
    pose proof (all_of_sound _ _ HA _ _ Hl) as Hb. cbv beta iota in Hb. apply orb_true_iff in Hb as [Hb%Z.leb_le|Hb]; [lia|].
    exact (bool_decide_eq_true_1 _ Hb). }
  destruct (workqueue_lost_wakeup q_runs th 20 work_addr) as (q1 & q2 & th' & E0 & E1 & E2 & El & _).
  - split; [concrete|concrete|concrete|exact HR|exact Hh].
  - nonnull.
  - nonnull.
  - exists q1, q2. conjs.
Defined.
