(* ===== verification/Waitqueue.v ===== *)
(** * Wait queues (components/drivers/src/waitqueue.c)

    A wait queue is a flag and a list of nodes; a node names the thread that waits and the
    function that decides whether a wake-up is meant for it.  The state has the kernel, the
    queues and the nodes by address.  The functions of the nodes other than the default one
    are a parameter.  The node of [rt_wqueue_wait] is a local variable: its address is an
    argument of the model.

    [wqueue_no_lost_wakeup] is what the flag is for: of a wake-up and a wait, whichever comes
    first, the waiting thread is ready afterwards. *)

From S2P Require Import Prelude RtList Exec KService Mem Kernel Object Scheduler Timer Thread Clock Ipc Decide Demo.

Definition RT_WQ_FLAG_CLEAN : Z := 0.
Definition RT_WQ_FLAG_WAKEUP : Z := 1.

Record rt_wqueue := Wqueue { wq_flag : Z; waiting_list : list Z }.
Record rt_wqueue_node := WqueueNode { polling_thread : Z; node_wakeup : Z; node_key : Z }.

Record wstate := WState { w_k : kernel; w_queues : gmap Z rt_wqueue; w_nodes : gmap Z rt_wqueue_node }.
Definition put_w_k (k : kernel) (s : wstate) : wstate := WState k (w_queues s) (w_nodes s).
Definition put_queue (a : Z) (q : rt_wqueue) (s : wstate) : wstate := WState (w_k s) (<[a := q]> (w_queues s)) (w_nodes s).
Definition put_node (n : Z) (x : rt_wqueue_node) (s : wstate) : wstate := WState (w_k s) (w_queues s) (<[n := x]> (w_nodes s)).

Notation WQ := (M wstate).
Definition wcall {A} (m : K A) : WQ A := zoom w_k put_w_k m.
Definition wqueue (a : Z) : WQ rt_wqueue := deref (fun s => w_queues s !! a).
Definition set_wq_flag (a f : Z) : WQ unit := q <- wqueue a;; modify (put_queue a (Wqueue f (waiting_list q))).

(** ** Operations *)

Definition rt_wqueue_init (a : Z) : WQ unit :=
  rt_assert (negb (a =? RT_NULL));;; modify (put_queue a (Wqueue RT_WQ_FLAG_CLEAN [])).

Definition rt_wqueue_add (a n : Z) : WQ unit :=
  q <- wqueue a;; modify (put_queue a (Wqueue (wq_flag q) (waiting_list q ++ [n]))).

(** The node is taken out of the list it is in. *)
Definition rt_wqueue_remove (n : Z) : WQ unit :=
  modify (fun s => WState (w_k s) ((fun q => Wqueue (wq_flag q) (lremove n (waiting_list q))) <$> w_queues s) (w_nodes s)).

(** The address of the default function, and what it returns. *)
Definition wqueue_default_wake_addr : Z := 0x8801.
Definition __wqueue_default_wake : WQ Z := ret 0.

Section wakeup.
Context (wake_func : Z -> Z -> Z -> WQ Z).

Definition call_wakeup (n key : Z) : WQ Z :=
  x <- deref (fun s => w_nodes s !! n);;
  if node_wakeup x =? wqueue_default_wake_addr then __wqueue_default_wake else wake_func (node_wakeup x) n key.

(** The loop of [rt_wqueue_wakeup]; the result is [need_schedule]. *)
Fixpoint wakeup_loop (l : list Z) (key : Z) : WQ bool :=
  match l with
  | [] => ret false
  | n :: l =>
      r <- call_wakeup n key;;
      if r =? 0 then
        x <- deref (fun s => w_nodes s !! n);;
        _ <- wcall (rt_thread_resume (polling_thread x));;
        rt_wqueue_remove n;;;
        ret true
      else wakeup_loop l key
  end.

Definition rt_wqueue_wakeup (a key : Z) : WQ unit :=
  set_wq_flag a RT_WQ_FLAG_WAKEUP;;;
  q <- wqueue a;;
  need_schedule <- wakeup_loop (waiting_list q) key;;
  when need_schedule (wcall rt_schedule).
End wakeup.

(** From the label [__exit_wakeup] on. *)
Definition wqueue_resumed (a n : Z) : WQ Z :=
  set_wq_flag a RT_WQ_FLAG_CLEAN;;; rt_wqueue_remove n;;; ret 0.

Definition rt_wqueue_wait (a n condition msec : Z) : WQ (outcome Z) :=
  t <- wcall rt_thread_self;;
  wcall not_in_interrupt;;;
  let tick := rt_tick_from_millisecond msec in
  if nz condition || (tick =? 0) then ret (Returned 0)
  else
    modify (put_node n (WqueueNode t wqueue_default_wake_addr 0));;;
    q <- wqueue a;;
    if wq_flag q =? RT_WQ_FLAG_WAKEUP then r <- wqueue_resumed a n;; ret (Returned r)
    else
      rt_wqueue_add a n;;;
      _ <- wcall (rt_thread_suspend t);;
      wcall (when (negb (tick =? RT_WAITING_FOREVER))
        (_ <- rt_timer_control (TimerOf t) RT_TIMER_CTRL_SET_TIME (u32 tick);; _ <- rt_timer_start (TimerOf t);; ret tt);;; rt_schedule);;;
      c <- wcall rt_thread_self;;
      if c =? t then r <- wqueue_resumed a n;; ret (Returned r) else ret Blocked.

(** ** What they do *)

Lemma wcall_done {A} (m : K A) s a k' : m (w_k s) = Done a k' -> wcall m s = Done a (put_w_k k' s).
Proof. intros E. unfold wcall, zoom. by rewrite E. Qed.

Lemma wcall_pure {A} (m : K A) s a : m (w_k s) = Done a (w_k s) -> wcall m s = Done a s.
Proof. intros E. rewrite (wcall_done _ _ _ _ E). by destruct s. Qed.

Lemma wqueue_done a q s : w_queues s !! a = Some q -> wqueue a s = Done q s.
Proof. intros. by apply deref_some. Qed.

(** The queues without the node [n]. *)
Definition without (n : Z) (q : rt_wqueue) : rt_wqueue := Wqueue (wq_flag q) (lremove n (waiting_list q)).

Lemma resumed_done a n q s : w_queues s !! a = Some q ->
  wqueue_resumed a n s = Done 0 (WState (w_k s) (without n <$> <[a := Wqueue RT_WQ_FLAG_CLEAN (waiting_list q)]> (w_queues s)) (w_nodes s)).
Proof. intros Hq. unfold wqueue_resumed, set_wq_flag. rewrite bind_assoc, (after (wqueue_done _ _ _ Hq)). by repeat mstep. Qed.

(** A suspended thread gives up the processor. *)
Lemma schedule_elsewhere k t th :
  kinv k -> k_cur k = t -> k_thr k !! t = Some th -> statm th = RT_THREAD_SUSPEND -> k_lock k = 0 -> some_ready (k_thr k) ->
  exists k', rt_schedule k = Done tt k' /\ kinv k' /\ resched k k' /\ k_cur k' <> t /\ k_cur k' <> RT_NULL.
Proof.
  intros HK Hc Ht Hs Hlk Hr. destruct (kb_thr _ _ _ _ HK t th Ht) as (Hnz & _).
  destruct (schedule_done none 0 k HK) as (k' & E & HR); [by rewrite Hc|done|]. exists k'.
  assert (HK' : kinv k') by (by eapply resched_kbut). split_and!; try done.
  - destruct (resched_highest _ _ HR Hlk) as (p & _ & (l & Hl) & _). intros Ec. rewrite Ec in Hl.
    destruct (so_mem _ _ _ _ (kb_sched _ _ _ _ HK') _ _ t Hl) as (_ & _ & th' & Ht' & Hm & _); [apply elem_of_cons; by left|].
    apply resched_cur in HR as (c & p' & ->). cbn in Ht'. rewrite Ht in Ht'. injection Ht' as <-. by rewrite Hs in Hm.
  - eapply resched_nonnull; [exact HR|exact HK'|by rewrite Hc].
Qed.

(** The timer and the switch, for a thread that is suspended. *)
Lemma wait_timer_done k t th tick :
  kinv k -> k_cur k = t -> k_thr k !! t = Some th -> statm th = RT_THREAD_SUSPEND -> k_lock k = 0 -> some_ready (k_thr k) ->
  tick = RT_WAITING_FOREVER \/ 0 < tick <= max_off ->
  exists k', (when (negb (tick =? RT_WAITING_FOREVER))
        (_ <- rt_timer_control (TimerOf t) RT_TIMER_CTRL_SET_TIME (u32 tick);; _ <- rt_timer_start (TimerOf t);; ret tt);;; rt_schedule) k = Done tt k' /\
    kinv k' /\ k_thr k' = k_thr k /\ k_cur k' <> t /\ k_cur k' <> RT_NULL /\
    (0 < tick -> TimerOf t ∈ k_tmlist k' /\ toff (k_tm k') (k_tick k') (TimerOf t) = tick).
Proof.
  intros HK Hc Ht Hs Hlk Hr Htk. destruct (kb_thr _ _ _ _ HK t th Ht) as (Hnz & _).
  destruct Htk as [->|[Hp Hm]].
  - destruct (schedule_elsewhere k t th HK Hc Ht Hs Hlk Hr) as (k' & E & HK' & HR & Hne & Hn). exists k'.
    apply resched_cur in HR as (c & p & ->). by split_and!.
  - assert (Hu : u32 tick = tick) by (apply Z.mod_small; split; [lia|]; eapply Z.le_lt_trans; [exact Hm|by vm_compute]).
    destruct (arm_done none none 0 k t th tick HK Ht Hs (fun f => f)) as (h & tm & l & E1 & E2 & HK2 & Hin & Hoff); [lia..|].
    destruct (schedule_elsewhere _ t th HK2 Hc Ht Hs Hlk Hr) as (k' & E & HK' & HR & Hne & Hn). exists k'.
    rewrite Hu, (proj2 (Z.eqb_neq tick RT_WAITING_FOREVER)) by (unfold RT_WAITING_FOREVER; lia). cbn [when negb].
    rewrite bind_assoc, (after E1), bind_assoc, (after E2). mstep. rewrite E.
    apply resched_cur in HR as (c & p & ->). by split_and!.
Qed.

(** What a wait does, on a queue with the flag [f] and the nodes [l]. *)
Inductive wait_spec (s : wstate) (th : rt_thread) (a n condition tick f : Z) (l : list Z) : outcome Z -> wstate -> Prop :=
| WaitNot : nz condition = true \/ tick = 0 -> wait_spec s th a n condition tick f l (Returned 0) s
| WaitFlag s' : nz condition = false -> tick <> 0 -> f = RT_WQ_FLAG_WAKEUP ->
    w_queues s' !! a = Some (Wqueue RT_WQ_FLAG_CLEAN (lremove n l)) -> w_k s' = w_k s ->
    wait_spec s th a n condition tick f l (Returned 0) s'
| WaitBlocked s' : nz condition = false -> tick <> 0 -> f <> RT_WQ_FLAG_WAKEUP ->
    w_queues s' !! a = Some (Wqueue f (l ++ [n])) ->
    w_nodes s' !! n = Some (WqueueNode (k_cur (w_k s)) wqueue_default_wake_addr 0) ->
    k_thr (w_k s') = <[k_cur (w_k s) := susp_stat th]> (k_thr (w_k s)) -> k_cur (w_k s') <> k_cur (w_k s) ->
    k_cur (w_k s') <> RT_NULL ->
    (0 < tick -> TimerOf (k_cur (w_k s)) ∈ k_tmlist (w_k s') /\
      toff (k_tm (w_k s')) (k_tick (w_k s')) (TimerOf (k_cur (w_k s))) = tick) ->
    wait_spec s th a n condition tick f l Blocked s'.

Lemma wait_done s th a n condition msec f l :
  running (w_k s) th -> w_queues s !! a = Some (Wqueue f l) ->
  let tick := rt_tick_from_millisecond msec in
  tick = RT_WAITING_FOREVER \/ 0 <= tick <= max_off ->
  exists r s', rt_wqueue_wait a n condition msec s = Done r s' /\ kinv (w_k s') /\ wait_spec s th a n condition tick f l r s'.
Proof.
  intros HR Hq tick Htk. pose proof HR as [HK Ht Hs Hlk Hi (i & thi & Hti & His & Hne)]. set (t := k_cur (w_k s)) in *.
  assert (E0 : wcall rt_thread_self s = Done t s) by (by apply wcall_pure).
  assert (E1 : wcall not_in_interrupt s = Done tt s) by (apply wcall_pure; unfold not_in_interrupt; mstep; by rewrite Hi).
  unfold rt_wqueue_wait. rewrite (after E0), (after E1). fold tick. destruct (nz condition || (tick =? 0)) eqn:Eb.
  { exists (Returned 0), s. split_and!; try done. apply WaitNot. apply orb_true_iff in Eb as [?|?%Z.eqb_eq]; auto. }
  apply orb_false_iff in Eb as [Hcd Ht0%Z.eqb_neq]. mstep. set (s1 := put_node n _ s).
  rewrite (after (wqueue_done a _ s1 Hq)). cbn [wq_flag]. destruct (Z.eqb_spec f RT_WQ_FLAG_WAKEUP) as [Ef|Ef].
  { eexists _, _. rewrite (after (resumed_done a n _ s1 Hq)). split; [done|]. split; [done|]. apply WaitFlag; try done.
    cbn. by rewrite lookup_fmap, lookup_insert_eq. }
  unfold rt_wqueue_add. rewrite bind_assoc, (after (wqueue_done a _ s1 Hq)). mstep. cbn [wq_flag waiting_list]. set (s2 := put_queue a _ s1).
  destruct (suspend_done none 0 (w_k s) t th HK Ht Hs (fun f => f)) as (h & _ & E2 & HK1). set (k1 := k_suspend t th h (w_k s)) in *.
  assert (Ht1 : k_thr k1 !! t = Some (susp_stat th)) by (cbn; by rewrite lookup_insert_eq).
  assert (HK2 : kinv k1) by (eapply kbut_idle; [exact HK1|exact Ht1|by rewrite susp_stat_statm]).
  destruct (wait_timer_done k1 t (susp_stat th) tick HK2) as (k' & E3 & HK' & Eth & Hc & Hcn & Htm); try done.
  { apply susp_stat_statm. } { exists i, thi. cbn. by rewrite lookup_insert_ne by congruence. } { lia. }
  rewrite (after (wcall_done _ s2 _ k1 E2)), (after (wcall_done _ (put_w_k k1 s2) _ k' E3)).
  set (s3 := put_w_k k' _). assert (E4 : wcall rt_thread_self s3 = Done (k_cur k') s3) by (by apply wcall_pure).
  rewrite (after E4). destruct (Z.eqb_spec (k_cur k') t); [done|]. exists Blocked, s3. split_and!; try done.
  apply WaitBlocked; try done; cbn; rewrite ?lookup_insert_eq; try done.
Qed.

(** [rt_wqueue_wait] returns at once when its condition holds or it is not to wait, and when a wake-up came
    before it, which it takes; otherwise the thread is suspended with its node behind the others, its timer
    armed for the time asked for, and another thread runs. *)
Theorem rt_wqueue_wait_correct s th a n condition msec f l :
  running (w_k s) th -> w_queues s !! a = Some (Wqueue f l) ->
  let tick := rt_tick_from_millisecond msec in
  tick = RT_WAITING_FOREVER \/ 0 <= tick <= max_off ->
  exists r s', rt_wqueue_wait a n condition msec s = Done r s' /\ kinv (w_k s') /\ wait_spec s th a n condition tick f l r s'.
Proof. apply wait_done. Qed.

(** The thread [t] exists and is ready or suspended. *)
Definition alive (k : kernel) (t : Z) : Prop :=
  exists th, k_thr k !! t = Some th /\ (statm th = RT_THREAD_READY \/ statm th = RT_THREAD_SUSPEND).

Section wakeup_spec.
Context (wake_func : Z -> Z -> Z -> WQ Z).

(** The nodes that refuse a wake-up, and one that accepts it. *)
Definition refuses (s : wstate) (key n : Z) : Prop := exists r, call_wakeup wake_func n key s = Done r s /\ r <> 0.
Definition accepts (s : wstate) (key n t : Z) : Prop :=
  call_wakeup wake_func n key s = Done 0 s /\ exists x, w_nodes s !! n = Some x /\ polling_thread x = t.

Lemma wakeup_loop_done s key l1 n l2 t :
  (forall m, m ∈ l1 -> refuses s key m) -> accepts s key n t ->
  wakeup_loop wake_func (l1 ++ n :: l2) key s = (_ <- wcall (rt_thread_resume t);; rt_wqueue_remove n;;; ret true) s.
Proof.
  intros H1 [Ea (x & Hx & <-)]. induction l1 as [|m l1 IH]; cbn [app wakeup_loop].
  - rewrite (after Ea). cbn [Z.eqb]. erewrite bind_done; [done|]. by apply deref_some.
  - destruct (H1 m) as (r & Er & Hr); [apply elem_of_cons; by left|]. rewrite (after Er). destruct (Z.eqb_spec r 0); [done|].
    apply IH. intros m' Hm. apply H1, elem_of_cons. by right.
Qed.

Lemma wakeup_done s a key f l1 n l2 t :
  kinv (w_k s) -> k_cur (w_k s) <> RT_NULL -> w_queues s !! a = Some (Wqueue f (l1 ++ n :: l2)) -> NoDup (l1 ++ n :: l2) ->
  let s1 := put_queue a (Wqueue RT_WQ_FLAG_WAKEUP (l1 ++ n :: l2)) s in
  (forall m, m ∈ l1 -> refuses s1 key m) -> accepts s1 key n t -> alive (w_k s) t ->
  exists s' th', rt_wqueue_wakeup wake_func a key s = Done tt s' /\ kinv (w_k s') /\
    w_queues s' !! a = Some (Wqueue RT_WQ_FLAG_WAKEUP (l1 ++ l2)) /\
    k_thr (w_k s') = <[t := th']> (k_thr (w_k s)) /\ statm th' = RT_THREAD_READY /\
    (k_lock (w_k s) = 0 -> exists p, highest (k_tl (w_k s')) p (k_cur (w_k s'))).
Proof.
  intros HK Hc Hq Hd s1 H1 Ha (th & Ht & Hs).
  destruct (resume_schedule _ _ _ HK Hc Ht Hs) as (k' & th' & E & HK' & Eth & Hs' & Hh).
  apply bind_inv in E as (r & k1 & E1 & E2).
  eexists _, th'. unfold rt_wqueue_wakeup, set_wq_flag. rewrite bind_assoc, (after (wqueue_done _ _ _ Hq)). mstep. cbn [waiting_list]. fold s1.
  assert (Hq1 : w_queues s1 !! a = Some (Wqueue RT_WQ_FLAG_WAKEUP (l1 ++ n :: l2))) by (cbn; apply lookup_insert_eq).
  rewrite (after (wqueue_done _ _ _ Hq1)). cbn [waiting_list].
  assert (El : wakeup_loop wake_func (l1 ++ n :: l2) key s1 = Done true (WState k1 (without n <$> w_queues s1) (w_nodes s1))).
  { rewrite (wakeup_loop_done s1 key l1 n l2 t H1 Ha). by rewrite (after (wcall_done _ s1 _ k1 E1)). }
  rewrite (after El). cbn [when]. erewrite wcall_done by exact E2. split; [done|]. split_and!; try done.
  cbn [put_w_k w_queues]. rewrite lookup_fmap, Hq1. unfold without. cbn [fmap option_fmap option_map wq_flag waiting_list]. apply NoDup_app in Hd as (Hd1 & Hn & [Hn2 _]%NoDup_cons).
  rewrite lremove_middle; [done| |done]. intros Hin. apply (Hn _ Hin). apply elem_of_cons. by left.
Qed.

(** [rt_wqueue_wakeup] sets the flag of the queue and wakes the first thread whose node accepts the key: its
    node leaves the list, the others stay in their order, the thread is READY, no other thread changes and the
    highest ready priority runs. *)
Theorem rt_wqueue_wakeup_correct s a key f l1 n l2 t :
  kinv (w_k s) -> k_cur (w_k s) <> RT_NULL -> w_queues s !! a = Some (Wqueue f (l1 ++ n :: l2)) -> NoDup (l1 ++ n :: l2) ->
  let s1 := put_queue a (Wqueue RT_WQ_FLAG_WAKEUP (l1 ++ n :: l2)) s in
  (forall m, m ∈ l1 -> refuses s1 key m) -> accepts s1 key n t -> alive (w_k s) t ->
  exists s' th', rt_wqueue_wakeup wake_func a key s = Done tt s' /\ kinv (w_k s') /\
    w_queues s' !! a = Some (Wqueue RT_WQ_FLAG_WAKEUP (l1 ++ l2)) /\
    k_thr (w_k s') = <[t := th']> (k_thr (w_k s)) /\ statm th' = RT_THREAD_READY /\
    (k_lock (w_k s) = 0 -> exists p, highest (k_tl (w_k s')) p (k_cur (w_k s'))).
Proof. apply wakeup_done. Qed.

(** C29: No wake-up is lost: on a queue with nobody in it, a wait behind a wake-up returns at once, and a wake-up
    behind a wait leaves the thread that waited READY and out of the queue. *)
Theorem wqueue_no_lost_wakeup s th a n key msec :
  running (w_k s) th -> w_queues s !! a = Some (Wqueue RT_WQ_FLAG_CLEAN []) ->
  let tick := rt_tick_from_millisecond msec in
  tick = RT_WAITING_FOREVER \/ 0 < tick <= max_off ->
  (exists s1 s2, rt_wqueue_wakeup wake_func a key s = Done tt s1 /\ rt_wqueue_wait a n 0 msec s1 = Done (Returned 0) s2 /\
    w_queues s2 !! a = Some (Wqueue RT_WQ_FLAG_CLEAN []) /\ w_k s2 = w_k s) /\
  (exists s1 s2 th', rt_wqueue_wait a n 0 msec s = Done Blocked s1 /\ rt_wqueue_wakeup wake_func a key s1 = Done tt s2 /\
    w_queues s2 !! a = Some (Wqueue RT_WQ_FLAG_WAKEUP []) /\
    k_thr (w_k s2) !! k_cur (w_k s) = Some th' /\ statm th' = RT_THREAD_READY /\ kinv (w_k s2)).
Proof.
  intros HR Hq tick Htk. assert (Hz0 : tick <> 0) by (unfold RT_WAITING_FOREVER in Htk; lia). split.
  - set (s1 := put_queue a (Wqueue RT_WQ_FLAG_WAKEUP []) s).
    assert (Hq1 : w_queues s1 !! a = Some (Wqueue RT_WQ_FLAG_WAKEUP [])) by (cbn; apply lookup_insert_eq).
    assert (E1 : rt_wqueue_wakeup wake_func a key s = Done tt s1).
    { unfold rt_wqueue_wakeup, set_wq_flag. rewrite bind_assoc, (after (wqueue_done _ _ _ Hq)). mstep. by rewrite (after (wqueue_done _ _ _ Hq1)). }
    destruct (wait_done s1 th a n 0 msec _ _ HR Hq1) as (r & s2 & E2 & _ & HS); [fold tick; lia|]. exists s1, s2.
    destruct HS as [[?|Hz]|s2 _ _ _ Hq2 Hk2|s2 ? ? Hf]; [done|by destruct Hz0| |done]. by split_and!.
  - destruct (wait_done s th a n 0 msec _ _ HR Hq) as (r & s1 & E1 & HK1 & HS); [fold tick; lia|].
    destruct HS as [[?|Hz]|s1 ? ? Hf|s1 _ _ _ Hq1 Hn1 Eth Hc Hcn Htm]; [done|by destruct Hz0|done|]. cbn in Hq1.
    destruct (wakeup_done s1 a key RT_WQ_FLAG_CLEAN [] n [] (k_cur (w_k s)) HK1) as (s2 & th' & E2 & HK2 & Hq2 & Eth2 & Hs2 & _); try done.
    + apply NoDup_singleton.
    + by intros m ?%elem_of_nil.
    + split; [|by eexists]. unfold call_wakeup. erewrite bind_done; [|apply deref_some; exact Hn1]. cbn [node_wakeup]. by rewrite Z.eqb_refl.
    + exists (susp_stat th). rewrite Eth, lookup_insert_eq. split; [done|]. right. apply susp_stat_statm.
    + exists s1, s2, th'. split_and!; try done. by rewrite Eth2, lookup_insert_eq.
Qed.
End wakeup_spec.

(** ** Concrete queues *)

Definition wq_addr : Z := 0x4800.
Definition wait_node : Z := 0x4900.
Definition no_func (f n key : Z) : WQ Z := ret 1.
Definition w_none : wstate := WState k_two ∅ ∅.
Definition w_new : wstate := Eval vm_compute in final w_none (rt_wqueue_init wq_addr w_none).
(** A node of another function, which refuses, is in front of the one of main. *)
Definition poll_node : Z := 0x4a00.
Definition w_poll : wstate := Eval vm_compute in
  final w_none ((modify (put_node poll_node (WqueueNode worker_addr 0x8901 0));;; rt_wqueue_add wq_addr poll_node;;;
    rt_wqueue_wait wq_addr wait_node 0 5) w_new).

Lemma w_new_queue : w_queues w_new !! wq_addr = Some (Wqueue RT_WQ_FLAG_CLEAN []).
Proof. concrete. Qed.
Lemma w_new_running : exists th, running (w_k w_new) th.
Proof. apply (running_check_sound _ idle_addr). concrete. Qed.
Lemma w_poll_main : alive (w_k w_poll) main_addr.
Proof. eexists. split; [concrete|]. right. concrete. Qed.
#[local] Opaque w_new w_poll.

Lemma rt_wqueue_wait_correct_witness :
  exists th r s', rt_wqueue_wait wq_addr wait_node 0 5 w_new = Done r s' /\ kinv (w_k s') /\
    wait_spec w_new th wq_addr wait_node 0 5 RT_WQ_FLAG_CLEAN [] r s'.
Proof.
  destruct w_new_running as [th HR].
  destruct (rt_wqueue_wait_correct w_new th wq_addr wait_node 0 5 RT_WQ_FLAG_CLEAN [] HR w_new_queue) as (r & s' & E & HK & HS).
  - right. split; vm_compute; discriminate.
  - exists th, r, s'. conjs.
Defined.

Lemma rt_wqueue_wakeup_correct_witness :
  exists s' th', rt_wqueue_wakeup no_func wq_addr 1 w_poll = Done tt s' /\
    w_queues s' !! wq_addr = Some (Wqueue RT_WQ_FLAG_WAKEUP [poll_node]) /\
    k_thr (w_k s') = <[main_addr := th']> (k_thr (w_k w_poll)) /\ statm th' = RT_THREAD_READY.
Proof.
  destruct (rt_wqueue_wakeup_correct no_func w_poll wq_addr 1 RT_WQ_FLAG_CLEAN [poll_node] wait_node [] main_addr
    ltac:(by_check) ltac:(nonnull) ltac:(concrete)) as (s' & th' & E & _ & Hq & Eth & Hs & _).
  - apply (bool_decide_eq_true_1 (NoDup [poll_node; wait_node])). concrete.
  - intros m ->%list_elem_of_singleton. exists 1. split; [concrete|discriminate].
  - split; [concrete|]. exists (WqueueNode main_addr wqueue_default_wake_addr 0). split; concrete.
  - exact w_poll_main.
  - exists s', th'. conjs.
Defined.

Lemma wqueue_no_lost_wakeup_witness :
  exists s1 s2 th', rt_wqueue_wait wq_addr wait_node 0 5 w_new = Done Blocked s1 /\ rt_wqueue_wakeup no_func wq_addr 1 s1 = Done tt s2 /\
    k_thr (w_k s2) !! k_cur (w_k w_new) = Some th' /\ statm th' = RT_THREAD_READY.
Proof.
  destruct w_new_running as [th HR].
  destruct (wqueue_no_lost_wakeup no_func w_new th wq_addr wait_node 1 5 HR w_new_queue) as (_ & s1 & s2 & th' & E1 & E2 & _ & Ht & Hs & _).
  - right. split; vm_compute; [reflexivity|discriminate].
  - exists s1, s2, th'. conjs.
Defined.
