(* ===== verification/KHeap.v ===== *)
(** * Aligned blocks and copies of strings (src/kservice.c)

    [rt_malloc_align] takes a larger block from the heap and returns an aligned address
    inside it, with the address of the block in the word before; [rt_free_align] reads
    it back.  [rt_strdup] copies a string to a new block.  The theorems show that the
    aligned area lies inside the block, that a free gives back exactly that block, and
    that the copy is the string. *)

From S2P Require Import Prelude Exec KService Mem.

(** ** Operations *)

(** A store of a word, and a load, in the memory of the heap. *)
Definition heap_st32 (a w : Z) : M heap unit :=
  fun h => match st32 (data h) a w with Some d => Done tt (set_data d h) | None => Stop Undefined end.
Definition heap_ld32 (a : Z) : M heap Z := deref (fun h => ld32 (data h) a).

Definition rt_malloc_align (size align : Z) : M heap Z :=
  let align := Z.land (u32 (align + 3)) (not32 3) in
  let align_size := u32 (Z.land (u32 (size + 3)) (not32 3) + align) in
  ptr <- rt_malloc align_size;;
  if negb (ptr =? 0) then
    let mask := u32 (align - 1) in
    let align_ptr := if Z.land ptr mask =? 0 then u32 (ptr + align) else Z.land (u32 (ptr + mask)) (not32 mask) in
    heap_st32 (u32 (align_ptr - 4)) ptr;;;
    ret align_ptr
  else ret ptr.

Definition rt_free_align (ptr : Z) : M heap unit :=
  real_ptr <- heap_ld32 (u32 (ptr - 4));; rt_free real_ptr.

(** [fuel] bounds the length of the string. *)
Definition rt_strdup (fuel : nat) (s : Z) : M heap Z :=
  n <- deref (fun h => rt_strlen fuel (data h) s s);;
  let len := u32 (n + 1) in
  tmp <- rt_malloc len;;
  if negb (nz tmp) then ret 0
  else heap_memcpy tmp s len;;; ret tmp.

(** ** Words in memory *)

Lemma st32_done m a w : valid m a 4 -> exists m', st32 m a w = Some m' /\
  (forall x, x < a \/ a + 4 <= x -> m' !! x = m !! x) /\ (0 <= w < 2 ^ 32 -> ld32 m' a = Some w) /\ (bytes_ok m -> bytes_ok m').
Proof.
  intros HV. destruct (HV a ltac:(lia)) as [v0 H0]. destruct (HV (a + 1) ltac:(lia)) as [v1 H1].
  destruct (HV (a + 2) ltac:(lia)) as [v2 H2]. destruct (HV (a + 3) ltac:(lia)) as [v3 H3].
  set (m' := <[a + 3 := u8 (w / 2 ^ 24)]> (<[a + 2 := u8 (w / 2 ^ 16)]> (<[a + 1 := u8 (w / 2 ^ 8)]> (<[a := u8 w]> m)))).
  exists m'. split_and!.
  - unfold st32, st. rewrite H0. cbn. rewrite lookup_insert_ne, H1 by lia. cbn. rewrite !lookup_insert_ne, H2 by lia. cbn.
    rewrite !lookup_insert_ne, H3 by lia. done.
  - intros x Hx. unfold m'. by rewrite !lookup_insert_ne by lia.
  - intros Hw. assert (E0 : m' !! a = Some (u8 w)) by (unfold m'; (do 3 rewrite lookup_insert_ne by lia); apply lookup_insert_eq).
    assert (E1 : m' !! (a + 1) = Some (u8 (w / 2 ^ 8))) by (unfold m'; (do 2 rewrite lookup_insert_ne by lia); apply lookup_insert_eq).
    assert (E2 : m' !! (a + 2) = Some (u8 (w / 2 ^ 16))) by (unfold m'; rewrite lookup_insert_ne by lia; apply lookup_insert_eq).
    assert (E3 : m' !! (a + 3) = Some (u8 (w / 2 ^ 24))) by apply lookup_insert_eq.
    unfold ld32, ld. rewrite E0, E1, E2, E3. cbn. f_equal. unfold u8. clear -Hw. Z.div_mod_to_equations. lia.
  - intros HB x v. unfold m'. rewrite !lookup_insert_Some. unfold u8.
    intros [[_ <-]|[_ [[_ <-]|[_ [[_ <-]|[_ [[_ <-]|[_ Hx]]]]]]]]; [apply Z.mod_pos_bound; lia..|by eapply HB].
Qed.

(** ** Aligned blocks *)

(** The address that is returned for a block at [p]: the next multiple of [2 ^ j] behind it. *)
Definition align_up (p j : Z) : Z := p - p mod 2 ^ j + 2 ^ j.

Lemma align_up_bounds p j : 2 <= j -> 0 <= p -> p mod 4 = 0 -> align_up p j mod 2 ^ j = 0 /\ p + 4 <= align_up p j <= p + 2 ^ j.
Proof.
  intros Hj Hp H4. unfold align_up. assert (HP : 2 ^ j = 4 * 2 ^ (j - 2)) by (replace j with (2 + (j - 2)) at 1 by lia; by rewrite Z.pow_add_r by lia).
  assert (0 < 2 ^ (j - 2)) by (apply Z.pow_pos_nonneg; lia). pose proof (Z.mod_pos_bound p (2 ^ j) ltac:(lia)) as Hm.
  assert (Hm4 : (p mod 2 ^ j) mod 4 = 0). { rewrite HP, Z.rem_mul_r by lia. rewrite H4. rewrite Z.add_0_l, Z.mul_comm. apply Z.mod_mul. lia. }
  split.
  - rewrite <- Z.add_mod_idemp_r, Z_mod_same_full, Z.add_0_r, Zminus_mod_idemp_r, Z.sub_diag by lia. apply Z.mod_0_l. lia.
  - assert (p mod 2 ^ j <= 2 ^ j - 4); [|lia]. rewrite HP in *. Z.div_mod_to_equations. lia.
Qed.

Lemma aligned_address p j : 2 <= j <= 31 -> 0 <= p -> p mod 4 = 0 -> p + 2 ^ j < 2 ^ 32 ->
  let mask := u32 (2 ^ j - 1) in
  (if Z.land p mask =? 0 then u32 (p + 2 ^ j) else Z.land (u32 (p + mask)) (not32 mask)) = align_up p j.
Proof.
  intros Hj Hp H4 Hb mask. assert (0 < 2 ^ j) by (apply Z.pow_pos_nonneg; lia).
  unfold mask. rewrite (u32_small (2 ^ j - 1)) by lia. replace (2 ^ j - 1) with (Z.ones j) at 1 by (rewrite Z.ones_equiv; lia).
  rewrite Z.land_ones by lia. unfold align_up. destruct (Z.eqb_spec (p mod 2 ^ j) 0) as [E|E].
  - rewrite E, u32_small by lia. lia.
  - rewrite u32_small by lia. rewrite land_align_down by lia. pose proof (Z.mod_pos_bound p (2 ^ j) ltac:(lia)) as Hm.
    assert ((p + (2 ^ j - 1)) mod 2 ^ j = p mod 2 ^ j - 1); [|lia].
    replace (p + (2 ^ j - 1)) with (p - 1 + 1 * 2 ^ j) by lia. rewrite Z_mod_plus_full. pose proof (Z.div_mod p (2 ^ j) ltac:(lia)) as Hd.
    symmetry. apply (Z.mod_unique_pos _ _ (p / 2 ^ j)); lia.
Qed.

Lemma aligned_size size j : 2 <= j <= 30 -> 0 < size -> size + 2 ^ j + 8 < 2 ^ 32 ->
  exists n, Z.land (u32 (2 ^ j + 3)) (not32 3) = 2 ^ j /\ u32 (Z.land (u32 (size + 3)) (not32 3) + 2 ^ j) = n + 2 ^ j /\ size <= n <= size + 3.
Proof.
  intros Hj Hs Hb. assert (HP : 2 ^ j = 4 * 2 ^ (j - 2)) by (replace j with (2 + (j - 2)) at 1 by lia; by rewrite Z.pow_add_r by lia).
  assert (0 < 2 ^ (j - 2)) by (apply Z.pow_pos_nonneg; lia). change 3 with (2 ^ 2 - 1) at 2 4.
  exists (size + 3 - (size + 3) mod 4). pose proof (Z.mod_pos_bound (size + 3) 4 ltac:(lia)). split_and!; [| |lia|lia].
  - rewrite u32_small by lia. rewrite land_align_down by lia. change (2 ^ 2) with 4. rewrite HP. Z.div_mod_to_equations. lia.
  - rewrite (u32_small (size + 3)) by lia. rewrite land_align_down by lia. change (2 ^ 2) with 4. by rewrite u32_small by lia.
Qed.

Lemma free_align_done h bs p n q : heap_inv h bs -> (p, n) ∈ regions (heap_ptr h) bs -> ld32 (data h) (u32 (q - 4)) = Some p ->
  exists h' bs', rt_free_align q h = Done tt h' /\ heap_inv h' bs' /\ heap_ptr h' = heap_ptr h /\ data h' = data h /\
    regions (heap_ptr h) bs ≡ₚ (p, n) :: regions (heap_ptr h) bs'.
Proof.
  intros HI Hin Hld. destruct (free_done h bs p n HI Hin) as (h' & bs' & l1 & l2 & E & HI' & Ep & Ed & _ & E1 & E2).
  exists h', bs'. split; [|split_and!; try done].
  - unfold rt_free_align, heap_ld32. by erewrite bind_done by (apply deref_some; exact Hld).
  - rewrite E1, E2. by rewrite Permutation_middle.
Qed.

(** [rt_malloc_align] for an alignment that is a power of two fails without touching the heap,
    or returns a multiple of it with [size] bytes behind it that lie, with the word before them, in
    one new block; [rt_free_align] then takes exactly this block off the live ones again. *)
Theorem rt_malloc_align_correct h bs size j :
  heap_inv h bs -> data_ok h -> 2 <= j <= 30 -> 0 < size -> size + 2 ^ j + 8 < 2 ^ 32 ->
  exists q h' bs', rt_malloc_align size (2 ^ j) h = Done q h' /\ heap_inv h' bs' /\ heap_ptr h' = heap_ptr h /\
    ((q = 0 /\ h' = h /\ bs' = bs) \/
     (q mod 2 ^ j = 0 /\ exists p n, regions (heap_ptr h) bs' ≡ₚ (p, n) :: regions (heap_ptr h) bs /\
        p + 4 <= q /\ q + size <= p + n /\ (forall x, x < q - 4 \/ q <= x -> data h' !! x = data h !! x) /\
        exists h'' bs'', rt_free_align q h' = Done tt h'' /\ heap_inv h'' bs'' /\ regions (heap_ptr h) bs'' ≡ₚ regions (heap_ptr h) bs)).
Proof.
  intros HI HD Hj Hs Hb. destruct (aligned_size size j Hj Hs Hb) as (a & E1 & E2 & Ha). assert (0 < 2 ^ j) by (apply Z.pow_pos_nonneg; lia).
  unfold rt_malloc_align. rewrite E1, E2.
  destruct (malloc_done h bs (a + 2 ^ j) HI ltac:(lia) ltac:(lia)) as (p & h1 & bs1 & E & HI1 & (Ep & Ee & _ & Ed) & _ & Hr).
  rewrite (after E). destruct Hr as [(-> & -> & ->)|(Hp & Hp4 & l1 & n & l2 & Hn & R & R1)].
  { exists 0, h, bs. cbn. split_and!; try done. by left. }
  assert (Hin : (p, n) ∈ regions (heap_ptr h1) bs1) by (rewrite Ep, R1; set_solver).
  assert (HD1 : data_ok h1) by (unfold data_ok; by rewrite Ed, Ep, Ee).
  pose proof (regions_bounds _ _ _ _ (hi_blk _ _ HI1) Hin) as (B1 & _ & B2). pose proof (hi_ptr _ _ HI1) as (P1 & _ & P2).
  pose proof (hi_tail _ _ HI1) as (_ & Ht & _).
  rewrite (proj2 (Z.eqb_neq _ _) Hp). cbn [negb]. rewrite (aligned_address p j) by lia.
  destruct (align_up_bounds p j ltac:(lia) ltac:(lia) Hp4) as [Hm Hq]. set (q := align_up p j) in *. rewrite (u32_small (q - 4)) by lia.
  destruct (st32_done (data h1) (q - 4) p) as (d & Es & Hd & Hl & _).
  { eapply valid_sub; [eapply (regions_valid h1 bs1 p n n HI1 HD1 Hin); lia|lia|lia]. }
  erewrite bind_done by (unfold heap_st32; by rewrite Es). set (h2 := set_data d h1).
  assert (HI2 : heap_inv h2 bs1) by (by apply heap_inv_set_data).
  exists q, h2, bs1. split; [done|]. split; [done|]. split; [done|]. right. split; [done|]. exists p, n.
  assert (HP : regions (heap_ptr h) bs1 ≡ₚ (p, n) :: regions (heap_ptr h) bs) by (rewrite R, R1; by rewrite Permutation_middle).
  split_and!; try done; try lia.
  - intros x Hx. cbn. rewrite Hd by lia. by rewrite Ed.
  - destruct (free_align_done h2 bs1 p n q HI2 Hin) as (h3 & bs3 & E3 & HI3 & _ & _ & HP3).
    { cbn. rewrite (u32_small (q - 4)) by lia. apply Hl. lia. }
    exists h3, bs3. split; [done|]. split; [done|]. change (heap_ptr h2) with (heap_ptr h1) in HP3. rewrite Ep, HP in HP3.
    symmetry. by eapply Permutation_cons_inv.
Qed.

Lemma regions_NoDup bs : forall p, Forall blk_ok bs -> NoDup (regions p bs).
Proof.
  induction bs as [|[n u] bs IH]; intros p Hok; [constructor|]. apply Forall_cons in Hok as [[Hn _] Hok]. cbn in Hn. cbn [regions].
  specialize (IH (p + n) Hok). destruct u; [|done]. apply NoDup_cons. split; [|done].
  intros Hin. pose proof (regions_bounds _ _ _ _ Hok Hin). lia.
Qed.

Lemma cstr_copied m m' p s l n : copied m p s n m' -> cstr m s l -> Z.of_nat (length l) + 1 <= n -> cstr m' p l.
Proof.
  revert p s n. assert (H : forall p s n i, 0 <= i -> copied m p s n m' -> cstr m (s + i) l -> i + Z.of_nat (length l) + 1 <= n -> cstr m' (p + i) l).
  { induction l as [|c l IH]; intros p s n i Hi Hc Hs Hl; cbn in *.
    - rewrite (Hc (p + i)), decide_True by lia. by replace (s + (p + i - p)) with (s + i) by lia.
    - destruct Hs as (H1 & H2 & H3). split; [|split; [done|]].
      + rewrite (Hc (p + i)), decide_True by lia. by replace (s + (p + i - p)) with (s + i) by lia.
      + rewrite <- Z.add_assoc. apply (IH p s n); [lia|done|by rewrite Z.add_assoc|lia]. }
  intros p s n Hc Hs Hl. rewrite <- (Z.add_0_r p). apply (H p s n 0); [lia|done|by rewrite Z.add_0_r|lia].
Qed.

(** [rt_strdup] of a string in a live block fails without touching the heap, or returns a new
    block that holds the string and its NUL; every byte outside it is unchanged. *)
Theorem rt_strdup_correct fuel h bs s l r k :
  heap_inv h bs -> data_ok h -> (r, k) ∈ regions (heap_ptr h) bs -> cstr (data h) s l ->
  r <= s -> s + Z.of_nat (length l) + 1 <= r + k -> (length l < fuel)%nat ->
  exists p h' bs', rt_strdup fuel s h = Done p h' /\ heap_inv h' bs' /\
    ((p = 0 /\ h' = h /\ bs' = bs) \/
     exists n, regions (heap_ptr h) bs' ≡ₚ (p, n) :: regions (heap_ptr h) bs /\ Z.of_nat (length l) + 1 <= n /\
       copied (data h) p s (Z.of_nat (length l) + 1) (data h') /\ cstr (data h') p l).
Proof.
  intros HI HD Hr Hs H1 H2 Hf. pose proof (regions_bounds _ _ _ _ (hi_blk _ _ HI) Hr) as (B1 & _ & B2).
  pose proof (hi_ptr _ _ HI) as (P1 & _ & P2). pose proof (hi_tail _ _ HI) as (_ & Ht & _).
  unfold rt_strdup. erewrite bind_done by (apply deref_some, rt_strlen_spec; [exact Hs|exact Hf]).
  rewrite Z.sub_diag, Z.add_0_l, u32_small by lia. set (len := Z.of_nat (length l) + 1) in *.
  destruct (malloc_done h bs len HI ltac:(lia) ltac:(lia)) as (p & h1 & bs1 & E & HI1 & (Ep & Ee & _ & Ed) & _ & HR).
  rewrite (after E). destruct HR as [(-> & -> & ->)|(Hp & Hp4 & l1 & n & l2 & Hn & R & R1)].
  { exists 0, h, bs. cbn. split_and!; try done. by left. }
  rewrite nz_true by done. cbn [negb].
  assert (Hin : (p, n) ∈ regions (heap_ptr h1) bs1) by (rewrite Ep, R1; set_solver).
  assert (Hin' : (r, k) ∈ regions (heap_ptr h1) bs1) by (rewrite Ep, R1; rewrite R in Hr; set_solver).
  assert (HD1 : data_ok h1) by (unfold data_ok; by rewrite Ed, Ep, Ee).
  assert (Hne : (p, n) <> (r, k)).
  { intros [= -> ->]. pose proof (regions_NoDup bs1 (heap_ptr h) (hi_blk _ _ HI1)) as HN. rewrite R1 in HN. rewrite R in Hr.
    apply NoDup_app in HN as (_ & HN1 & [HN2 _]%NoDup_cons). apply elem_of_app in Hr as [Hr|Hr]; [|done]. apply (HN1 _ Hr), elem_of_cons. by left. }
  destruct (heap_regions_disjoint h1 bs1 (p, n) (r, k) HI1 Hin Hin') as (_ & _ & _ & [?|Hdis]); [done|].
  unfold disjoint in Hdis. cbn in Hdis.
  destruct (rt_memcpy_spec (data h1) p s len) as (d & Ec & Hc); [lia|apply HD1| | |lia|].
  { eapply (regions_valid h1 bs1 p n); [done|done|done|lia]. }
  { eapply valid_sub; [eapply (regions_valid h1 bs1 r k k HI1 HD1 Hin'); lia|lia|lia]. }
  rewrite Ed in Hc. exists p, (set_data d h1), bs1. split; [unfold heap_memcpy, bind; by rewrite Ec|]. split; [by apply heap_inv_set_data|].
  right. exists n. split_and!; [rewrite R, R1; by rewrite Permutation_middle|done|exact Hc|]. eapply cstr_copied; [exact Hc|exact Hs|lia].
Qed.

(** ** Concrete heaps *)

Lemma rt_malloc_align_correct_witness :
  exists q h' bs', rt_malloc_align 20 (2 ^ 6) demo_free = Done q h' /\ heap_inv h' bs' /\ heap_ptr h' = 0x1000 /\
    ((q = 0 /\ h' = demo_free /\ bs' = [(228, false)]) \/
     (q mod 2 ^ 6 = 0 /\ exists p n, regions 0x1000 bs' ≡ₚ (p, n) :: regions 0x1000 [(228, false)] /\
        p + 4 <= q /\ q + 20 <= p + n /\ (forall x, x < q - 4 \/ q <= x -> data h' !! x = demo_data !! x) /\
        exists h'' bs'', rt_free_align q h' = Done tt h'' /\ heap_inv h'' bs'' /\ regions 0x1000 bs'' ≡ₚ regions 0x1000 [(228, false)])).
Proof. apply (rt_malloc_align_correct demo_free [(228, false)] 20 6 demo_free_inv); [by apply demo_data_ok|lia|lia|lia]. Defined.

(** The block at 0x100c holds the string of the characters 104 and 105. *)
Definition demo_text : heap := set_data (<[0x100c := 104]> (<[0x100d := 105]> (<[0x100e := 0]> demo_data))) demo_one.

Lemma demo_text_ok : data_ok demo_text.
Proof.
  destruct demo_data_bytes as [HB HV]. split.
  - intros a v. cbn. rewrite !lookup_insert_Some. intros [[_ <-]|[_ [[_ <-]|[_ [[_ <-]|[_ Ha]]]]]]; [lia..|by eapply HB].
  - intros i Hi. cbn in *. rewrite !lookup_insert_is_Some'. right. right. right. apply HV. lia.
Qed.

Lemma rt_strdup_correct_witness :
  exists p h' bs', rt_strdup 8 0x100c demo_text = Done p h' /\ heap_inv h' bs' /\
    ((p = 0 /\ h' = demo_text /\ bs' = [(112, true); (116, false)]) \/
     exists n, regions 0x1000 bs' ≡ₚ (p, n) :: regions 0x1000 [(112, true); (116, false)] /\ 3 <= n /\
       copied (data demo_text) p 0x100c 3 (data h') /\ cstr (data h') p [104; 105]).
Proof.
  apply (rt_strdup_correct 8 demo_text [(112, true); (116, false)] 0x100c [104; 105] 0x100c 100).
  - apply heap_inv_set_data, demo_one_inv.
  - exact demo_text_ok.
  - cbn. set_solver.
  - repeat split; done.
  - lia.
  - cbn. lia.
  - cbn. lia.
Defined.
