(* ===== verification/Device.v ===== *)
(** * Devices and the console (src/device.c, src/kservice.c)

    The device manager keeps the devices in the container of their object class and
    calls the functions of their drivers.  The state has the kernel, the device
    structures by address, the console and the buffer of [rt_kprintf], and the world
    of the drivers, a type the development knows nothing of.  A driver is a record
    [device_ops] of functions on this state; which driver a device has is part of its
    structure, and what the numbers stand for is a parameter.

    [Driver] is what the manager relies on: a function of a driver returns and leaves
    the bookkeeping of the manager alone.  [open_trace] relates the reference count
    to the calls made; the theorems show that a driver is asked to read or write only
    between an open and the close that goes with it, that names are unique among the
    registered devices, and what [rt_kprintf] hands to the console. *)

From Stdlib Require Import Ascii String.
From S2P Require Import Prelude RtList Exec KService Mem Kernel Object Scheduler Timer Thread Ipc Decide Demo Printf ObjectType.

(** ** Data *)

Definition RT_DEVICE_FLAG_STANDALONE : Z := 0x008.
Definition RT_DEVICE_FLAG_ACTIVATED : Z := 0x010.
Definition RT_DEVICE_FLAG_STREAM : Z := 0x040.
Definition RT_DEVICE_OFLAG_CLOSE : Z := 0x000.
Definition RT_DEVICE_OFLAG_RDWR : Z := 0x003.
Definition RT_DEVICE_OFLAG_OPEN : Z := 0x008.
Definition RT_DEVICE_OFLAG_MASK : Z := 0xf0f.
Definition RT_CONSOLEBUF_SIZE : Z := 128.
Definition sizeof_rt_device : Z := 84.

(** [dev_driver] identifies the functions the device points to; [wq_flag] is the flag of its
    waiting queue, which the manager initialises only. *)
Record rt_device := Device {
  dev_type : Z; dev_flag : Z; open_flag : Z; ref_count : Z;
  rx_indicate : Z; tx_complete : Z; dev_driver : Z; fops : Z; wq_flag : Z
}.

Definition set_dev_flag (v : Z) (d : rt_device) : rt_device :=
  Device (dev_type d) v (open_flag d) (ref_count d) (rx_indicate d) (tx_complete d) (dev_driver d) (fops d) (wq_flag d).
Definition set_open_flag (v : Z) (d : rt_device) : rt_device :=
  Device (dev_type d) (dev_flag d) v (ref_count d) (rx_indicate d) (tx_complete d) (dev_driver d) (fops d) (wq_flag d).
Definition set_ref_count (v : Z) (d : rt_device) : rt_device :=
  Device (dev_type d) (dev_flag d) (open_flag d) v (rx_indicate d) (tx_complete d) (dev_driver d) (fops d) (wq_flag d).
Definition set_rx_indicate (v : Z) (d : rt_device) : rt_device :=
  Device (dev_type d) (dev_flag d) (open_flag d) (ref_count d) v (tx_complete d) (dev_driver d) (fops d) (wq_flag d).
Definition set_tx_complete (v : Z) (d : rt_device) : rt_device :=
  Device (dev_type d) (dev_flag d) (open_flag d) (ref_count d) (rx_indicate d) v (dev_driver d) (fops d) (wq_flag d).

(** [v_log] is the memory of [rt_log_buf], at [v_logbuf]; [v_hw] what went to
    [rt_hw_console_output]. *)
Record devices (W : Type) := Devices {
  v_k : kernel; v_dev : gmap Z rt_device; v_errno : Z;
  v_console : Z; v_logbuf : Z; v_log : mem; v_hw : list (list Z);
  v_world : W
}.
Arguments Devices {W} _ _ _ _ _ _ _ _.
Arguments v_k {W} _.
Arguments v_dev {W} _.
Arguments v_errno {W} _.
Arguments v_console {W} _.
Arguments v_logbuf {W} _.
Arguments v_log {W} _.
Arguments v_hw {W} _.
Arguments v_world {W} _.

Section setters.
Context {W : Type}.
Implicit Types s : devices W.
Definition put_kernel (k : kernel) s : devices W :=
  Devices k (v_dev s) (v_errno s) (v_console s) (v_logbuf s) (v_log s) (v_hw s) (v_world s).
Definition put_dev (f : gmap Z rt_device -> gmap Z rt_device) s : devices W :=
  Devices (v_k s) (f (v_dev s)) (v_errno s) (v_console s) (v_logbuf s) (v_log s) (v_hw s) (v_world s).
Definition put_errno (e : Z) s : devices W :=
  Devices (v_k s) (v_dev s) e (v_console s) (v_logbuf s) (v_log s) (v_hw s) (v_world s).
Definition put_console (c : Z) s : devices W :=
  Devices (v_k s) (v_dev s) (v_errno s) c (v_logbuf s) (v_log s) (v_hw s) (v_world s).
Definition put_log (m : mem) s : devices W :=
  Devices (v_k s) (v_dev s) (v_errno s) (v_console s) (v_logbuf s) m (v_hw s) (v_world s).
Definition put_hw (t : list Z) s : devices W :=
  Devices (v_k s) (v_dev s) (v_errno s) (v_console s) (v_logbuf s) (v_log s) (v_hw s ++ [t]) (v_world s).
End setters.

(** The functions of a driver, with the address of the device; [None] for RT_NULL.  [write] gets the
    bytes the buffer holds, [read] returns the bytes it stored. *)
Record device_ops (W : Type) := DeviceOps {
  init : option (Z -> M (devices W) Z);
  open : option (Z -> Z -> M (devices W) Z);
  close : option (Z -> M (devices W) Z);
  read : option (Z -> Z -> Z -> M (devices W) (Z * list Z));
  write : option (Z -> Z -> list Z -> M (devices W) Z);
  control : option (Z -> Z -> Z -> M (devices W) Z)
}.
Arguments DeviceOps {W} _ _ _ _ _ _.
Arguments init {W} _.
Arguments open {W} _.
Arguments close {W} _.
Arguments read {W} _.
Arguments write {W} _.
Arguments control {W} _.

(** ** Operations *)

Section operations.
Context {W : Type} (ops : Z -> device_ops W).
Notation V := (M (devices W)).

Definition kern {A} (m : K A) : V A := zoom v_k put_kernel m.
Definition dev (a : Z) : V rt_device := deref (fun s => v_dev s !! a).
Definition mod_dev (a : Z) (f : rt_device -> rt_device) : V unit :=
  d <- dev a;; modify (put_dev (<[a := f d]>)).
Definition set_errno (e : Z) : V unit :=
  g <- gets v_errno;; g <- kern (rt_set_errno g e);; modify (put_errno g).
(** [RT_ASSERT(dev != RT_NULL)] and the check of the object class. *)
Definition dev_check (a : Z) : V unit :=
  rt_assert (negb (a =? RT_NULL));;; kern (assert_type (Obj a) RT_Object_Class_Device).

(** The functions a device points to. *)
Definition driver (a : Z) : V (device_ops W) := d <- dev a;; ret (ops (dev_driver d)).

(** The search of [rt_device_find]. *)
Definition device_search (name : list Z) : K Z :=
  rt_assert (bool_decide (is_Some (rt_object_get_information RT_Object_Class_Device)));;;
  l <- deref (fun k => k_cont k !! RT_Object_Class_Device);;
  r <- find_name name l;;
  ret (match r with Some (Obj a) => a | _ => RT_NULL end).

Definition rt_device_find (name : list Z) : V Z :=
  kern (self <- rt_thread_self;;
    when (negb (self =? RT_NULL)) rt_enter_critical;;;
    a <- device_search name;;
    self <- rt_thread_self;;
    when (negb (self =? RT_NULL)) rt_exit_critical;;;
    ret a).

(** The driver writes its functions to the structure before it registers it. *)
Definition rt_device_register (a : Z) (name : list Z) (flags : Z) : V Z :=
  if a =? RT_NULL then ret (- RT_ERROR)
  else
    other <- rt_device_find name;;
    if negb (other =? RT_NULL) then ret (- RT_ERROR)
    else
      kern (rt_object_init (Obj a) RT_Object_Class_Device name);;;
      mod_dev a (fun d => Device (dev_type d) (u16 flags) 0 0 (rx_indicate d) (tx_complete d) (dev_driver d) RT_NULL 0);;;
      ret RT_EOK.

Definition rt_device_unregister (a : Z) : V Z :=
  dev_check a;;;
  s <- kern (rt_object_is_systemobject (Obj a));; rt_assert s;;;
  kern (rt_object_detach (Obj a));;;
  ret RT_EOK.

Definition rt_device_create (type attach_size : Z) : V Z :=
  let size := s32 (sizeof_rt_device + s32 (RT_ALIGN (u32 attach_size) RT_ALIGN_SIZE)) in
  p <- kern (kmalloc (u32 size));;
  when (negb (p =? RT_NULL))
    (kern (put_hdr (Obj p) (Object (replicate RT_NAME_MAX 0) 0 0));;;
     modify (put_dev (<[p := Device type 0 0 0 0 0 0 0 0]>)));;;
  ret p.

Definition rt_device_destroy (a : Z) : V unit :=
  dev_check a;;;
  s <- kern (rt_object_is_systemobject (Obj a));; rt_assert (negb s);;;
  kern (rt_object_detach (Obj a);;; kfree a).

Definition rt_device_read (a pos size : Z) : V (Z * list Z) :=
  dev_check a;;;
  d <- dev a;;
  if ref_count d =? 0 then set_errno (- RT_ERROR);;; ret (0, [])
  else o <- driver a;;
    match read o with
    | Some f => f a pos size
    | None => set_errno (- RT_ENOSYS);;; ret (0, [])
    end.

Definition rt_device_write (a pos : Z) (buffer : list Z) : V Z :=
  dev_check a;;;
  d <- dev a;;
  if ref_count d =? 0 then set_errno (- RT_ERROR);;; ret 0
  else o <- driver a;;
    match write o with
    | Some f => f a pos buffer
    | None => set_errno (- RT_ENOSYS);;; ret 0
    end.

Definition rt_device_control (a cmd arg : Z) : V Z :=
  dev_check a;;;
  o <- driver a;;
  match control o with Some f => f a cmd arg | None => ret (- RT_ENOSYS) end.

Definition rt_device_set_rx_indicate (a rx_ind : Z) : V Z := dev_check a;;; mod_dev a (set_rx_indicate rx_ind);;; ret RT_EOK.
Definition rt_device_set_tx_complete (a tx_done : Z) : V Z := dev_check a;;; mod_dev a (set_tx_complete tx_done);;; ret RT_EOK.

(** *** The console *)

(** The output of a text on the console: with the device in stream mode for the call. *)
Definition console_put (hw dev_text : list Z) : V unit :=
  c <- gets v_console;;
  if c =? RT_NULL then modify (put_hw hw)
  else
    d <- dev c;;
    let old_flag := open_flag d in
    mod_dev c (fun d => set_open_flag (Z.lor (open_flag d) RT_DEVICE_FLAG_STREAM) d);;;
    _ <- rt_device_write c 0 dev_text;;
    mod_dev c (set_open_flag old_flag).

(** [str] is [None] for RT_NULL. *)
Definition rt_kputs (str : option (list Z)) : V unit :=
  match str with None => ret tt | Some t => console_put t t end.

(** The bytes from [p] on, [n] of them, and up to the terminating NUL. *)
Definition bytes_at (m : mem) (p n : Z) : option (list Z) := mapM (fun i => m !! (p + i)) (seqZ 0 n).
Fixpoint text_of (l : list Z) : list Z := match l with [] => [] | c :: l => if c =? 0 then [] else c :: text_of l end.

Definition rt_kprintf (fmt : list Z) (args : list arg) : V unit :=
  p <- gets v_logbuf;; m <- gets v_log;;
  match rt_vsnprintf m p (RT_CONSOLEBUF_SIZE - 1) fmt args with
  | Done n m =>
      modify (put_log m);;;
      let length := if RT_CONSOLEBUF_SIZE - 1 <? u32 n then RT_CONSOLEBUF_SIZE - 1 else u32 n in
      all <- deref (fun _ => bytes_at m p (RT_CONSOLEBUF_SIZE - 1));;
      out <- deref (fun _ => bytes_at m p length);;
      console_put (text_of all) out
  | Stop w => stuck w
  end.

(** [date] is the compiler's __DATE__. *)
Definition rt_show_version (date : list Z) : V unit :=
  rt_kprintf ([10] ++ chars_of " \ | /" ++ [10]) [];;;
  rt_kprintf (chars_of "- RT -     Thread Operating System" ++ [10]) [];;;
  rt_kprintf (chars_of " / | \     %d.%d.%d build %s" ++ [10]) [AInt 3; AInt 1; AInt 0; AStr (Some date)];;;
  rt_kprintf (chars_of " 2006 - 2018 Copyright by rt-thread team" ++ [10]) [].

(** *** Initialisation, open and close *)

Definition rt_device_init_all : V Z := ret RT_EOK.

(** The name of a device as a C string: an array without NUL is followed by the type and the flag
    of the object. *)
Definition dev_name (a : Z) : V (list Z) :=
  h <- kern (hdr (Obj a));; ret (text_of (oname h ++ [otype h; oflag h])).

Definition init_message : list Z := chars_of "To initialize device:%s failed. The error code is %d".
Definition report_init (a result : Z) : V unit :=
  n <- dev_name a;; rt_kprintf (init_message ++ [10]) [AStr (Some n); AInt result].

Definition activated (d : rt_device) : bool := nz (Z.land (dev_flag d) RT_DEVICE_FLAG_ACTIVATED).
Definition activate (d : rt_device) : rt_device := set_dev_flag (Z.lor (dev_flag d) RT_DEVICE_FLAG_ACTIVATED) d.

Definition rt_device_init (a : Z) : V Z :=
  rt_assert (negb (a =? RT_NULL));;;
  o <- driver a;;
  match init o with
  | None => ret RT_EOK
  | Some f =>
      d <- dev a;;
      if activated d then ret RT_EOK
      else
        result <- f a;;
        (if negb (result =? RT_EOK) then report_init a result else mod_dev a activate);;;
        ret result
  end.

(** The initialisation in [rt_device_open]: an error code to return, or [None] to go on. *)
Definition open_init (a : Z) : V (option Z) :=
  d <- dev a;;
  if activated d then ret None
  else
    o <- driver a;;
    result <- match init o with Some f => f a | None => ret RT_EOK end;;
    if negb (result =? RT_EOK) then report_init a result;;; ret (Some result)
    else mod_dev a activate;;; ret None.

Definition rt_device_open (a oflag : Z) : V Z :=
  dev_check a;;;
  failed <- open_init a;;
  match failed with
  | Some e => ret e
  | None =>
      d <- dev a;;
      if nz (Z.land (dev_flag d) RT_DEVICE_FLAG_STANDALONE) && nz (Z.land (open_flag d) RT_DEVICE_OFLAG_OPEN) then ret (- RT_EBUSY)
      else
        o <- driver a;;
        result <- match open o with
                  | Some f => f a oflag
                  | None => mod_dev a (set_open_flag (Z.land oflag RT_DEVICE_OFLAG_MASK));;; ret RT_EOK
                  end;;
        when ((result =? RT_EOK) || (result =? - RT_ENOSYS))
          (mod_dev a (fun d => set_ref_count (u8 (ref_count d + 1)) (set_open_flag (Z.lor (open_flag d) RT_DEVICE_OFLAG_OPEN) d));;;
           d <- dev a;; rt_assert (negb (ref_count d =? 0)));;;
        ret result
  end.

Definition rt_device_close (a : Z) : V Z :=
  dev_check a;;;
  d <- dev a;;
  if ref_count d =? 0 then ret (- RT_ERROR)
  else
    mod_dev a (fun d => set_ref_count (u8 (ref_count d - 1)) d);;;
    d <- dev a;;
    if negb (ref_count d =? 0) then ret RT_EOK
    else
      o <- driver a;;
      result <- match close o with Some f => f a | None => ret RT_EOK end;;
      when ((result =? RT_EOK) || (result =? - RT_ENOSYS)) (mod_dev a (set_open_flag RT_DEVICE_OFLAG_CLOSE));;;
      ret result.

Definition rt_console_get_device : V Z := gets v_console.

Definition rt_console_set_device (name : list Z) : V Z :=
  old <- gets v_console;;
  new <- rt_device_find name;;
  when (negb (new =? RT_NULL))
    (c <- gets v_console;;
     when (negb (c =? RT_NULL)) (_ <- rt_device_close c;; ret tt);;;
     _ <- rt_device_open new (Z.lor RT_DEVICE_OFLAG_RDWR RT_DEVICE_FLAG_STREAM);;
     modify (put_console new));;;
  ret old.
End operations.

(** ** What the manager relies on *)

(** [rt_set_errno] finds a place for the error number. *)
Definition errno_able (k : kernel) : Prop := nz (k_irq k) = true \/ k_cur k = RT_NULL \/ is_Some (k_thr k !! k_cur k).

(** The bookkeeping of the manager is untouched; the open flag of the device [x] may change. *)
Record keeps {W} (x : option Z) (s s' : devices W) : Prop := Keeps {
  kp_hdr : k_hdr (v_k s') = k_hdr (v_k s);
  kp_cont : k_cont (v_k s') = k_cont (v_k s);
  kp_console : v_console s' = v_console s;
  kp_logbuf : v_logbuf s' = v_logbuf s;
  kp_errno : errno_able (v_k s) -> errno_able (v_k s');
  kp_log : forall p n, valid (v_log s) p n -> valid (v_log s') p n;
  kp_dev : forall b d, v_dev s !! b = Some d -> exists d', v_dev s' !! b = Some d' /\
    ref_count d' = ref_count d /\ dev_flag d' = dev_flag d /\ dev_driver d' = dev_driver d /\
    (x <> Some b -> open_flag d' = open_flag d)
}.

#[export] Instance keeps_preorder {W} (x : option Z) : PreOrder (@keeps W x).
Proof.
  split.
  - intros s. split; try done. intros b d Hd. by exists d.
  - intros s1 s2 s3 [] []. split; try congruence; [by auto..|]. intros b d Hd. destruct (kp_dev0 b d Hd) as (d2 & Hd2 & ? & ? & ? & Ho2).
    destruct (kp_dev1 b d2 Hd2) as (d3 & Hd3 & ? & ? & ? & Ho3). exists d3. split_and!; try congruence. intros Hx. by rewrite Ho3, Ho2.
Qed.

Lemma keeps_weaken {W} x (s s' : devices W) : keeps None s s' -> keeps x s s'.
Proof.
  intros []. split; try done. intros b d Hd. destruct (kp_dev0 b d Hd) as (d' & ? & ? & ? & ? & Ho). exists d'. split_and!; try done. intros _. by apply Ho.
Qed.

(** The functions of a driver return; [init], [open] and [close] may set the open flag. *)
Class Driver {W} (o : device_ops W) : Prop := {
  init_ok f a s : init o = Some f -> exists r s', f a s = Done r s' /\ keeps (Some a) s s';
  open_ok f a oflag s : open o = Some f -> exists r s', f a oflag s = Done r s' /\ keeps (Some a) s s';
  close_ok f a s : close o = Some f -> exists r s', f a s = Done r s' /\ keeps (Some a) s s';
  read_ok f a pos n s : read o = Some f -> exists r s', f a pos n s = Done r s' /\ keeps None s s';
  write_ok f a pos l s : write o = Some f -> exists r s', f a pos l s = Done r s' /\ keeps None s s';
  control_ok f a cmd arg s : control o = Some f -> exists r s', f a cmd arg s = Done r s' /\ keeps None s s'
}.

(** A device that is registered. *)
Record dev_at {W} (s : devices W) (a : Z) (d : rt_device) : Prop := DevAt {
  dv_addr : a <> RT_NULL;
  dv_val : v_dev s !! a = Some d;
  dv_hdr : exists h, k_hdr (v_k s) !! Obj a = Some h /\ class_of h = RT_Object_Class_Device;
  dv_ref : 0 <= ref_count d < 2 ^ 8
}.

Lemma keeps_dev_at {W} x (s s' : devices W) a d : keeps x s s' -> dev_at s a d ->
  exists d', dev_at s' a d' /\ ref_count d' = ref_count d /\ dev_flag d' = dev_flag d /\ dev_driver d' = dev_driver d /\
    (x <> Some a -> open_flag d' = open_flag d).
Proof.
  intros HK [Ha Hv (h & Hh & Hc) Hr]. destruct (kp_dev _ _ _ HK a d Hv) as (d' & Hv' & E1 & E2 & E3 & E4). exists d'.
  split; [|done]. split; [done|done|exists h; by rewrite (kp_hdr _ _ _ HK)|by rewrite E1].
Qed.

(** The buffer of [rt_kprintf] and the console are there, and a system error number can be set. *)
Record dev_inv {W} (s : devices W) : Prop := DevInv {
  di_log : 0 <= v_logbuf s /\ v_logbuf s + RT_CONSOLEBUF_SIZE <= 2 ^ 32 /\ valid (v_log s) (v_logbuf s) RT_CONSOLEBUF_SIZE;
  di_console : v_console s = RT_NULL \/ exists d, dev_at s (v_console s) d;
  di_errno : errno_able (v_k s)
}.

Lemma keeps_inv {W} x (s s' : devices W) : keeps x s s' -> dev_inv s -> dev_inv s'.
Proof.
  intros HK [(H1 & H2 & H3) HC HE]. split; [| |by apply (kp_errno _ _ _ HK)].
  - rewrite (kp_logbuf _ _ _ HK). split_and!; try done. by apply (kp_log _ _ _ HK).
  - rewrite (kp_console _ _ _ HK). destruct HC as [HC|[d Hd]]; [by left|right].
    destruct (keeps_dev_at _ _ _ _ _ HK Hd) as (d' & Hd' & _). by exists d'.
Qed.

Section lemmas.
Context {W : Type} (ops : Z -> device_ops W) `{HD : forall p, Driver (ops p)}.
Implicit Types s : devices W.
Notation V := (M (devices W)).

Lemma kern_pure {A} (m : K A) s a : m (v_k s) = Done a (v_k s) -> kern m s = Done a s.
Proof. intros E. unfold kern, zoom. rewrite E. by destruct s. Qed.

Lemma dev_done a s d : v_dev s !! a = Some d -> dev a s = Done d s.
Proof. intros. unfold dev. by apply deref_some. Qed.
Lemma mod_dev_done a f s d : v_dev s !! a = Some d -> mod_dev a f s = Done tt (put_dev (<[a := f d]>) s).
Proof. intros H. unfold mod_dev. by rewrite (after (dev_done _ _ _ H)). Qed.
Lemma driver_done a s d : v_dev s !! a = Some d -> driver ops a s = Done (ops (dev_driver d)) s.
Proof. intros H. unfold driver. by rewrite (after (dev_done _ _ _ H)). Qed.
Lemma dev_check_done a s d : dev_at s a d -> dev_check a s = Done tt s.
Proof.
  intros [Ha _ (h & Hh & Hc) _]. unfold dev_check. rewrite (proj2 (Z.eqb_neq _ _) Ha). cbn [negb rt_assert]. mstep.
  apply kern_pure. eapply assert_type_done; try done. cbn. by apply Z.eqb_neq.
Qed.

(** A change of the structure of one device. *)
Lemma put_dev_at a f s d b e : dev_at s a d -> 0 <= ref_count (f d) < 2 ^ 8 -> dev_at s b e ->
  dev_at (put_dev (<[a := f d]>) s) b (if decide (b = a) then f d else e).
Proof.
  intros [Ha Hv Hh Hr] Hf [Hb Hvb Hhb Hrb]. split; try done.
  - cbn. destruct (decide (b = a)) as [->|]; [apply lookup_insert_eq|by rewrite lookup_insert_ne].
  - by destruct (decide (b = a)).
Qed.

Lemma put_dev_inv a f s d : dev_at s a d -> 0 <= ref_count (f d) < 2 ^ 8 -> dev_inv s -> dev_inv (put_dev (<[a := f d]>) s).
Proof.
  intros Ha Hf [HL HC HE]. split; [done| |done]. destruct HC as [HC|[e He]]; [by left|right]. eexists. by eapply (put_dev_at a f s d).
Qed.

Lemma put_dev_keeps a v s d : v_dev s !! a = Some d -> keeps (Some a) s (put_dev (<[a := set_open_flag v d]>) s).
Proof.
  intros Hd. split; try done. intros b e He. cbn. destruct (decide (b = a)) as [->|Hne].
  - exists (set_open_flag v d). rewrite lookup_insert_eq. rewrite Hd in He. injection He as <-. by split_and!.
  - exists e. by rewrite lookup_insert_ne.
Qed.

Lemma rt_set_errno_done g e k : errno_able k ->
  exists g' T, rt_set_errno g e k = Done g' (upd_thr (fun _ => T) k) /\ errno_able (upd_thr (fun _ => T) k).
Proof.
  intros HE. unfold rt_set_errno. mstep. destruct (nz (k_irq k)) eqn:Ei.
  { exists e, (k_thr k). rewrite upd_thr_id by done. done. }
  mstep. destruct (Z.eqb_spec (k_cur k) RT_NULL) as [Ec|Ec].
  { exists e, (k_thr k). rewrite upd_thr_id by done. done. }
  destruct HE as [?|[?|[th Ht]]]; [congruence|done|]. rewrite (after (mod_thr_done _ _ _ _ Ht)). eexists g, _. split; [reflexivity|].
  right. right. cbn. rewrite lookup_insert_eq. eauto.
Qed.

Lemma set_errno_done e s : errno_able (v_k s) -> exists s', set_errno e s = Done tt s' /\ keeps None s s' /\ v_world s' = v_world s.
Proof.
  intros HE. destruct (rt_set_errno_done (v_errno s) e (v_k s) HE) as (g & T & E & HE'). unfold set_errno. mstep.
  assert (Ek : kern (rt_set_errno (v_errno s) e) s = Done g (put_kernel (upd_thr (fun _ => T) (v_k s)) s)) by (unfold kern, zoom; by rewrite E).
  rewrite (after Ek). eexists. split; [reflexivity|]. split; [|done]. split; try done. intros b d Hd. by exists d.
Qed.

(** A read or write on a device that is not open does not reach the driver. *)
Lemma write_closed a pos l s d : dev_at s a d -> ref_count d = 0 -> errno_able (v_k s) ->
  exists s', rt_device_write ops a pos l s = Done 0 s' /\ keeps None s s' /\ v_world s' = v_world s.
Proof.
  intros Hd H0 HE. destruct (set_errno_done (- RT_ERROR) s HE) as (s' & E & HK & HW). exists s'. split; [|done].
  unfold rt_device_write. rewrite (after (dev_check_done _ _ _ Hd)), (after (dev_done _ _ _ (dv_val _ _ _ Hd))), H0. cbn [Z.eqb].
  by rewrite (after E).
Qed.

Lemma write_open a pos l s d f : dev_at s a d -> ref_count d <> 0 -> write (ops (dev_driver d)) = Some f ->
  rt_device_write ops a pos l s = f a pos l s.
Proof.
  intros Hd H0 Hf. unfold rt_device_write. rewrite (after (dev_check_done _ _ _ Hd)), (after (dev_done _ _ _ (dv_val _ _ _ Hd))).
  rewrite (proj2 (Z.eqb_neq _ _) H0), (after (driver_done _ _ _ (dv_val _ _ _ Hd))). by rewrite Hf.
Qed.

Lemma read_closed a pos n s d : dev_at s a d -> ref_count d = 0 -> errno_able (v_k s) ->
  exists s', rt_device_read ops a pos n s = Done (0, []) s' /\ keeps None s s' /\ v_world s' = v_world s.
Proof.
  intros Hd H0 HE. destruct (set_errno_done (- RT_ERROR) s HE) as (s' & E & HK & HW). exists s'. split; [|done].
  unfold rt_device_read. rewrite (after (dev_check_done _ _ _ Hd)), (after (dev_done _ _ _ (dv_val _ _ _ Hd))), H0. cbn [Z.eqb].
  by rewrite (after E).
Qed.

Lemma read_open a pos n s d f : dev_at s a d -> ref_count d <> 0 -> read (ops (dev_driver d)) = Some f ->
  rt_device_read ops a pos n s = f a pos n s.
Proof.
  intros Hd H0 Hf. unfold rt_device_read. rewrite (after (dev_check_done _ _ _ Hd)), (after (dev_done _ _ _ (dv_val _ _ _ Hd))).
  rewrite (proj2 (Z.eqb_neq _ _) H0), (after (driver_done _ _ _ (dv_val _ _ _ Hd))). by rewrite Hf.
Qed.

Lemma write_done a pos l s d : dev_at s a d -> errno_able (v_k s) ->
  exists r s', rt_device_write ops a pos l s = Done r s' /\ keeps None s s'.
Proof.
  intros Hd HE. destruct (decide (ref_count d = 0)) as [H0|H0].
  { destruct (write_closed a pos l s d Hd H0 HE) as (s' & E & HK & _). by exists 0, s'. }
  destruct (write (ops (dev_driver d))) as [f|] eqn:Ef.
  - rewrite (write_open a pos l s d f Hd H0 Ef). by apply (write_ok f).
  - destruct (set_errno_done (- RT_ENOSYS) s HE) as (s' & E & HK & _). exists 0, s'. split; [|done].
    unfold rt_device_write. rewrite (after (dev_check_done _ _ _ Hd)), (after (dev_done _ _ _ (dv_val _ _ _ Hd))).
    rewrite (proj2 (Z.eqb_neq _ _) H0), (after (driver_done _ _ _ (dv_val _ _ _ Hd))), Ef. by rewrite (after E).
Qed.

Lemma read_done a pos n s d : dev_at s a d -> errno_able (v_k s) ->
  exists r s', rt_device_read ops a pos n s = Done r s' /\ keeps None s s'.
Proof.
  intros Hd HE. destruct (decide (ref_count d = 0)) as [H0|H0].
  { destruct (read_closed a pos n s d Hd H0 HE) as (s' & E & HK & _). by exists (0, []), s'. }
  destruct (read (ops (dev_driver d))) as [f|] eqn:Ef.
  - rewrite (read_open a pos n s d f Hd H0 Ef). by apply (read_ok f).
  - destruct (set_errno_done (- RT_ENOSYS) s HE) as (s' & E & HK & _). exists (0, []), s'. split; [|done].
    unfold rt_device_read. rewrite (after (dev_check_done _ _ _ Hd)), (after (dev_done _ _ _ (dv_val _ _ _ Hd))).
    rewrite (proj2 (Z.eqb_neq _ _) H0), (after (driver_done _ _ _ (dv_val _ _ _ Hd))), Ef. by rewrite (after E).
Qed.

Lemma control_done a cmd arg s d : dev_at s a d -> exists r s', rt_device_control ops a cmd arg s = Done r s' /\ keeps None s s'.
Proof.
  intros Hd. unfold rt_device_control. rewrite (after (dev_check_done _ _ _ Hd)), (after (driver_done _ _ _ (dv_val _ _ _ Hd))).
  destruct (control _) as [f|] eqn:Ef; [by apply (control_ok f)|]. by exists (- RT_ENOSYS), s.
Qed.
End lemmas.

(** ** The console *)

Section console.
Context {W : Type} (ops : Z -> device_ops W) `{HD : forall p, Driver (ops p)}.
Implicit Types s : devices W.

(** The state in which the driver is called. *)
Definition streaming (c : Z) (d : rt_device) s : devices W :=
  put_dev (<[c := set_open_flag (Z.lor (open_flag d) RT_DEVICE_FLAG_STREAM) d]>) s.

Lemma console_device hw out s c d : v_console s = c -> dev_at s c d -> errno_able (v_k s) ->
  exists r s2 d2, rt_device_write ops c 0 out (streaming c d s) = Done r s2 /\ v_dev s2 !! c = Some d2 /\
    console_put ops hw out s = Done tt (put_dev (<[c := set_open_flag (open_flag d) d2]>) s2) /\
    keeps None s (put_dev (<[c := set_open_flag (open_flag d) d2]>) s2).
Proof.
  intros Hc Hd HE. assert (Hd1 : dev_at (streaming c d s) c (set_open_flag (Z.lor (open_flag d) RT_DEVICE_FLAG_STREAM) d)).
  { pose proof (put_dev_at c (set_open_flag (Z.lor (open_flag d) RT_DEVICE_FLAG_STREAM)) s d c d Hd (dv_ref _ _ _ Hd) Hd) as H.
    by rewrite decide_True in H. }
  destruct (write_done ops c 0 out (streaming c d s) _ Hd1 HE) as (r & s2 & E & HK).
  destruct (kp_dev _ _ _ HK c _ (dv_val _ _ _ Hd1)) as (d2 & Hd2 & R1 & R2 & R3 & _). exists r, s2, d2. split; [done|]. split; [done|]. split.
  { unfold console_put. mstep. rewrite Hc, (proj2 (Z.eqb_neq _ _) (dv_addr _ _ _ Hd)).
    rewrite (after (dev_done _ _ _ (dv_val _ _ _ Hd))), (after (mod_dev_done _ _ _ _ (dv_val _ _ _ Hd))).
    fold (streaming c d s). rewrite (after E). by apply mod_dev_done. }
  destruct HK. split; cbn; try done. intros b e He. destruct (decide (b = c)) as [->|Hne].
  - exists (set_open_flag (open_flag d) d2). rewrite lookup_insert_eq. rewrite (dv_val _ _ _ Hd) in He. injection He as <-. by split_and!.
  - destruct (kp_dev0 b e) as (e' & He' & ?); [cbn; by rewrite lookup_insert_ne|]. exists e'. by rewrite lookup_insert_ne.
Qed.

Lemma console_put_done hw out s : dev_inv s -> exists s', console_put ops hw out s = Done tt s' /\ keeps None s s'.
Proof.
  intros [_ [HC|[d Hd]] HE].
  - unfold console_put. mstep. rewrite HC. cbn. eexists. split; [reflexivity|]. split; try done. intros b d Hd. by exists d.
  - destruct (console_device hw out s _ d eq_refl Hd HE) as (r & s2 & d2 & _ & _ & E & HK). by eexists.
Qed.

Lemma bytes_at_done m p n : 0 <= n -> valid m p n -> exists l, bytes_at m p n = Some l.
Proof.
  intros Hn HV. unfold bytes_at. apply mapM_is_Some, Forall_forall. intros i Hi%elem_of_seqZ. apply HV. lia.
Qed.

Lemma bytes_at_text m p l : (forall i, 0 <= i < Z.of_nat (length l) -> m !! (p + i) = l !! Z.to_nat i) ->
  bytes_at m p (Z.of_nat (length l)) = Some l.
Proof.
  intros H. unfold bytes_at. apply mapM_Some, Forall2_same_length_lookup. split; [by rewrite length_seqZ, Nat2Z.id|].
  intros i x y Hx Hy. apply lookup_seqZ in Hx as [-> Hi]. rewrite H by lia. rewrite <- Hy. f_equal. lia.
Qed.

Lemma bytes_at_app m p k n l : 0 <= k <= n -> bytes_at m p n = Some l -> bytes_at m p k = Some (take (Z.to_nat k) l).
Proof.
  intros Hk H. unfold bytes_at in *. apply mapM_Some in H. apply mapM_Some.
  replace (seqZ 0 k) with (take (Z.to_nat k) (seqZ 0 n)); [by apply Forall2_take|].
  replace n with (k + (n - k)) by lia. rewrite seqZ_app by lia. rewrite take_app_le by (rewrite length_seqZ; lia).
  apply take_ge. rewrite length_seqZ. lia.
Qed.

Lemma text_of_app l rest : Forall (fun c => c <> 0) l -> text_of (l ++ 0 :: rest) = l.
Proof. induction 1 as [|c l Hc _ IH]; [done|]. cbn. by rewrite (proj2 (Z.eqb_neq _ _) Hc), IH. Qed.

(** The buffer of [rt_kprintf] once a text was printed to it. *)
Lemma printed_bytes m p txt m' l : printed m p 127 txt m' -> Forall (fun c => 0 < c < 2 ^ 8) txt -> bytes_at m' p 127 = Some l ->
  exists rest, l = take 126 txt ++ 0 :: rest.
Proof.
  intros (H1 & H2 & _) Htx Hl. set (k := Z.min (Z.of_nat (length txt)) (127 - 1)) in *.
  assert (Hlen : length (take 126 txt) = Z.to_nat k) by (rewrite length_take; lia).
  assert (E : bytes_at m' p (Z.of_nat (length (take 126 txt ++ [0]))) = Some (take 126 txt ++ [0])).
  { apply bytes_at_text. intros i Hi. rewrite length_app, Hlen in Hi. cbn in Hi. destruct (decide (i = k)) as [->|Hne].
    - rewrite H2. rewrite lookup_app_r by lia. by replace (Z.to_nat k - length (take 126 txt))%nat with 0%nat by lia.
    - rewrite H1 by lia. rewrite lookup_app_l by lia. rewrite lookup_take_lt by lia.
      destruct (txt !! Z.to_nat i) as [c|] eqn:Ec; [|done]. cbn. f_equal. apply Z.mod_small.
      pose proof (Forall_lookup_1 _ _ _ _ Htx Ec) as Hb. cbn in Hb. lia. }
  rewrite length_app, Hlen in E. cbn in E.
  rewrite (bytes_at_app m' p (Z.of_nat (Z.to_nat k + 1)) 127 l) in E by (first [done|lia]). injection E as E.
  exists (drop (Z.to_nat k + 1) l). rewrite Nat2Z.id in E. rewrite <- (take_drop (Z.to_nat k + 1) l) at 1. by rewrite E, <- app_assoc.
Qed.

(** The text is handed over from the buffer, 127 bytes at most. *)
Lemma kprintf_run items args txt s :
  Forall item_ok items -> items_text items args = Some txt -> dev_inv s ->
  exists m' l n, printed (v_log s) (v_logbuf s) 127 txt m' /\ valid m' (v_logbuf s) RT_CONSOLEBUF_SIZE /\
    bytes_at m' (v_logbuf s) 127 = Some l /\ 0 <= n <= 127 /\ ((length txt <= 126)%nat -> n = Z.of_nat (length txt)) /\
    rt_kprintf ops (items_fmt items) args s = console_put ops (text_of l) (take (Z.to_nat n) l) (put_log m' s).
Proof.
  intros Hok Ht [(Hp & Hb & HV) _ _]. unfold RT_CONSOLEBUF_SIZE in *.
  destruct (rt_vsnprintf_done items args txt (v_log s) (v_logbuf s) 127 Hok Ht) as (k & m' & E & HP & Hk);
    [lia|done|lia|by intros i Hi; apply HV; lia|].
  assert (HV' : valid m' (v_logbuf s) 128).
  { pose proof HP as (P1 & P2 & P3). intros i Hi. set (j := Z.min _ _) in *. destruct (decide (i = v_logbuf s + j)) as [->|]; [by eexists|].
    destruct (decide (i < v_logbuf s + j)).
    - replace i with (v_logbuf s + (i - v_logbuf s)) by lia. rewrite P1 by lia. destruct (lookup_lt_is_Some_2 txt (Z.to_nat (i - v_logbuf s))) as [c ->]; [lia|by eexists].
    - rewrite P3 by lia. apply HV. lia. }
  destruct (bytes_at_done m' (v_logbuf s) 127 ltac:(lia)) as [l Hl]; [intros i Hi; apply HV'; lia|].
  set (n := if 127 <? u32 (s32 k) then 127 else u32 (s32 k)).
  assert (Hn : 0 <= n <= 127) by (unfold n; pose proof (u32_range (s32 k)); destruct (Z.ltb_spec 127 (u32 (s32 k))); lia).
  exists m', l, n. split_and!; try done; try apply Hn.
  - intros Hlen. assert (Ek : k = Z.of_nat (length txt)) by lia. unfold n. rewrite Ek, s32_small, u32_small by lia.
    destruct (Z.ltb_spec 127 (Z.of_nat (length txt))); lia.
  - unfold rt_kprintf. do 2 mstep. change (RT_CONSOLEBUF_SIZE - 1) with 127. rewrite E. mstep. fold n.
    erewrite bind_done by (apply deref_some; exact Hl).
    by erewrite bind_done by (apply deref_some; apply (bytes_at_app m' (v_logbuf s) n 127 l); [lia|exact Hl]).
Qed.

Lemma kprintf_spec items args txt s :
  Forall item_ok items -> items_text items args = Some txt -> Forall (fun c => 0 < c < 2 ^ 8) txt -> dev_inv s ->
  exists m' out, printed (v_log s) (v_logbuf s) 127 txt m' /\
    ((length txt <= 126)%nat -> out = txt) /\ out `prefix_of` take 126 txt ++ [0] /\
    rt_kprintf ops (items_fmt items) args s = console_put ops (take 126 txt) out (put_log m' s).
Proof.
  intros Hok Ht Htx HI. destruct (kprintf_run items args txt s Hok Ht HI) as (m' & l & n & HP & _ & Hl & Hn & Hnt & E).
  destruct (printed_bytes _ _ _ _ _ HP Htx Hl) as [rest El]. exists m', (take (Z.to_nat n) l). split; [done|].
  assert (Hll : length l = 127%nat). { unfold bytes_at in Hl. apply mapM_Some, Forall2_length in Hl. by rewrite length_seqZ in Hl. }
  assert (Hsh : (length txt <= 126)%nat -> take (Z.to_nat n) l = txt).
  { intros Hlen. rewrite (Hnt Hlen), El, Nat2Z.id, (take_ge txt) by lia. by rewrite take_app_length. }
  split; [done|]. split.
  - destruct (decide (length txt <= 126)%nat) as [Hlen|Hlen].
    + rewrite (Hsh Hlen), (take_ge txt) by lia. by apply prefix_app_r.
    + assert (rest = []) as ->. { apply nil_length_inv. rewrite El, length_app, length_take in Hll. cbn [length] in Hll. lia. }
      rewrite El. apply prefix_take.
  - rewrite E, El at 1. rewrite text_of_app; [by rewrite El|]. apply Forall_take. eapply Forall_impl; [exact Htx|]. cbn. lia.
Qed.

Lemma kprintf_done items args txt s : Forall item_ok items -> items_text items args = Some txt -> dev_inv s ->
  exists s', rt_kprintf ops (items_fmt items) args s = Done tt s' /\ keeps None s s'.
Proof.
  intros Hok Ht HI. destruct (kprintf_run items args txt s Hok Ht HI) as (m' & l & n & HP & HV & Hl & Hn & Hnt & E).
  assert (HK : keeps None s (put_log m' s)).
  { split; try done; [|intros b d Hd; by exists d]. intros p k Hv i Hi. destruct HP as (P1 & P2 & P3). cbn.
    destruct (decide (v_logbuf s <= i < v_logbuf s + 128)); [apply HV; unfold RT_CONSOLEBUF_SIZE; lia|]. rewrite P3 by lia. by apply Hv. }
  destruct (console_put_done (text_of l) (take (Z.to_nat n) l) (put_log m' s)) as (s' & E' & HK'); [by eapply keeps_inv|].
  exists s'. rewrite E, E'. split; [done|]. by etrans.
Qed.
End console.

(** ** Open and close *)

Section open_close.
Context {W : Type} (ops : Z -> device_ops W) `{HD : forall p, Driver (ops p)}.
Implicit Types s : devices W.

Definition init_items : list item :=
  (Lit <$> chars_of "To initialize device:") ++ percent (ch "s") :: (Lit <$> chars_of " failed. The error code is ") ++ [percent (ch "d"); Lit 10].

Lemma report_init_done a r s d : dev_at s a d -> dev_inv s -> exists s', report_init ops a r s = Done tt s' /\ keeps None s s'.
Proof.
  intros [_ _ (h & Hh & _) _] HI. unfold report_init, dev_name. rewrite bind_assoc, (after (kern_pure _ _ _ (hdr_done _ _ _ Hh))). mstep.
  assert (init_message ++ [10] = items_fmt init_items) as -> by concrete. set (n := text_of _).
  assert (exists txt, items_text init_items [AStr (Some n); AInt r] = Some txt) as [txt Ht] by (eexists; reflexivity).
  apply (kprintf_done ops init_items _ txt s); [|done|done]. apply Forall_forall. unfold init_items, item_ok. intros i Hi.
  repeat (apply elem_of_cons in Hi as [->|Hi]; [first [by split_and!; try constructor; auto | done]|]). by apply not_elem_of_nil in Hi.
Qed.

(** The device is still there, with the reference count [n]. *)
Definition stays (a : Z) (d : rt_device) (n : Z) s' : Prop :=
  dev_inv s' /\ exists d', dev_at s' a d' /\ ref_count d' = n /\ dev_driver d' = dev_driver d.

Lemma keeps_stays x a d s s' : keeps x s s' -> dev_at s a d -> dev_inv s -> stays a d (ref_count d) s'.
Proof.
  intros HK Hd HI. split; [by eapply keeps_inv|]. destruct (keeps_dev_at _ _ _ _ _ HK Hd) as (d' & Hd' & E1 & _ & E3 & _). by exists d'.
Qed.

Lemma put_stays a d s f n : dev_at s a d -> dev_inv s -> ref_count (f d) = n -> 0 <= n < 2 ^ 8 -> dev_driver (f d) = dev_driver d ->
  stays a d n (put_dev (<[a := f d]>) s).
Proof.
  intros Hd HI Hn Hr Hf. split; [by apply put_dev_inv; [| rewrite Hn|]|]. exists (f d). split_and!; try done.
  pose proof (put_dev_at a f s d a d Hd) as H. rewrite decide_True in H by done. apply H; [by rewrite Hn|done].
Qed.

Lemma open_init_done a s d : dev_at s a d -> dev_inv s ->
  exists r s', open_init ops a s = Done r s' /\ stays a d (ref_count d) s' /\ r <> Some RT_EOK.
Proof.
  intros Hd HI. pose proof (dv_ref _ _ _ Hd) as Hr. unfold open_init. rewrite (after (dev_done _ _ _ (dv_val _ _ _ Hd))).
  destruct (activated d); [exists None, s; split; [done|]; split; [by eapply (keeps_stays None)|done]|].
  rewrite (after (driver_done _ _ _ _ (dv_val _ _ _ Hd))).
  assert (exists r s1, (match init (ops (dev_driver d)) with Some f => f a | None => ret RT_EOK end) s = Done r s1 /\ keeps (Some a) s s1) as (r & s1 & E & HK).
  { destruct (init _) as [f|] eqn:Ef; [by apply (init_ok f)|]. by exists RT_EOK, s. }
  rewrite (after E). destruct (keeps_stays _ _ _ _ _ HK Hd HI) as (HI1 & d1 & Hd1 & R1 & D1).
  destruct (Z.eqb_spec r RT_EOK) as [->|Hne]; cbn [negb].
  - rewrite (after (mod_dev_done _ _ _ _ (dv_val _ _ _ Hd1))). eexists _, _. split; [reflexivity|]. split; [|done].
    destruct (put_stays a d1 s1 activate (ref_count d1) Hd1 HI1) as (HI2 & d2 & ? & ? & ?); [done|by rewrite R1|done|].
    split; [done|]. exists d2. split_and!; congruence.
  - destruct (report_init_done a r s1 d1 Hd1 HI1) as (s2 & E2 & HK2). rewrite (after E2). eexists _, _. split; [reflexivity|].
    destruct (keeps_stays _ _ _ _ _ HK2 Hd1 HI1) as (HI2 & d2 & ? & ? & ?). split; [|congruence]. split; [done|]. exists d2. split_and!; congruence.
Qed.

Lemma stays_trans a d d1 n s : stays a d1 n s -> dev_driver d1 = dev_driver d -> stays a d n s.
Proof. intros (HI & d' & ? & ? & E) E1. split; [done|]. exists d'. by rewrite E, E1. Qed.

(** The last part of [rt_device_open]: the device is counted as open. *)
Lemma count_open a s d : dev_at s a d -> dev_inv s ->
  let f := fun d => set_ref_count (u8 (ref_count d + 1)) (set_open_flag (Z.lor (open_flag d) RT_DEVICE_OFLAG_OPEN) d) in
  let m := (mod_dev a f;;; d <- dev a;; rt_assert (negb (ref_count d =? 0))) in
  if decide (ref_count d = 255) then m s = Stop Assertion
  else exists s', m s = Done tt s' /\ stays a d (ref_count d + 1) s'.
Proof.
  intros Hd HI f m. pose proof (dv_ref _ _ _ Hd) as Hr. unfold m. rewrite (after (mod_dev_done _ _ _ _ (dv_val _ _ _ Hd))).
  assert (Hv : v_dev (put_dev (<[a := f d]>) s) !! a = Some (f d)) by (cbn; apply lookup_insert_eq).
  rewrite (after (dev_done _ _ _ Hv)). cbn [ref_count f set_ref_count]. destruct (decide (ref_count d = 255)) as [E|E].
  - by rewrite E.
  - unfold u8. rewrite Z.mod_small by lia. rewrite (proj2 (Z.eqb_neq _ _)) by lia. cbn [negb rt_assert]. eexists. split; [reflexivity|].
    apply (put_stays a d s f); [done|done| |lia|done]. cbn. unfold u8. apply Z.mod_small. lia.
Qed.

Lemma open_done a oflag s d : dev_at s a d -> dev_inv s ->
  (exists r s', rt_device_open ops a oflag s = Done r s' /\
     stays a d (if r =? RT_EOK then ref_count d + 1 else ref_count d) s' \/ rt_device_open ops a oflag s = Done (- RT_ENOSYS) s') \/
  rt_device_open ops a oflag s = Stop Assertion /\ ref_count d = 255.
Proof.
  intros Hd HI. unfold rt_device_open. rewrite (after (dev_check_done _ _ _ Hd)).
  destruct (open_init_done a s d Hd HI) as (r & s1 & E1 & (HI1 & d1 & Hd1 & R1 & D1) & Hr). rewrite (after E1).
  assert (HS1 : stays a d (ref_count d) s1) by (split; [done|by exists d1]).
  destruct r as [e|].
  { left. exists e, s1. left. split; [done|]. destruct (Z.eqb_spec e RT_EOK); [congruence|done]. }
  rewrite (after (dev_done _ _ _ (dv_val _ _ _ Hd1))). destruct (_ && _); [left; by exists (- RT_EBUSY), s1; left|].
  rewrite (after (driver_done _ _ _ _ (dv_val _ _ _ Hd1))).
  assert (exists r s2, (match open (ops (dev_driver d1)) with Some f => f a oflag
    | None => mod_dev a (set_open_flag (Z.land oflag RT_DEVICE_OFLAG_MASK));;; ret RT_EOK end) s1 = Done r s2 /\ keeps (Some a) s1 s2) as (r & s2 & E2 & HK2).
  { destruct (open _) as [f|] eqn:Ef; [by apply (open_ok f)|]. rewrite (after (mod_dev_done _ _ _ _ (dv_val _ _ _ Hd1))).
    eexists _, _. split; [reflexivity|]. apply put_dev_keeps. by apply Hd1. }
  rewrite (after E2). destruct (keeps_stays _ _ _ _ _ HK2 Hd1 HI1) as (HI2 & d2 & Hd2 & R2 & D2).
  pose proof (count_open a s2 d2 Hd2 HI2) as HC. cbv zeta in HC. destruct (Z.eqb_spec r RT_EOK) as [->|Hne]; cbn [orb when].
  - destruct (decide (ref_count d2 = 255)) as [Hf|Hf].
    + right. split; [|congruence]. unfold bind at 1. by rewrite HC.
    + destruct HC as (s3 & E3 & HS3). left. exists RT_EOK, s3. left. split; [by rewrite (after E3)|]. rewrite Z.eqb_refl.
      rewrite <- R1, <- R2. by eapply stays_trans; [|rewrite D2].
  - destruct (Z.eqb_spec r (- RT_ENOSYS)) as [->|Hn2]; cbn [when].
    + destruct (decide (ref_count d2 = 255)) as [Hf|Hf].
      * right. split; [|congruence]. unfold bind at 1. by rewrite HC.
      * destruct HC as (s3 & E3 & _). left. exists (- RT_ENOSYS), s3. right. by rewrite (after E3).
    + left. exists r, s2. left. mstep. split; [done|]. rewrite (proj2 (Z.eqb_neq _ _) Hne). split; [done|]. exists d2. split_and!; congruence.
Qed.

Lemma close_done a s d : dev_at s a d -> dev_inv s ->
  exists r s', rt_device_close ops a s = Done r s' /\ stays a d (if ref_count d =? 0 then 0 else ref_count d - 1) s' /\
    (ref_count d = 0 -> r = - RT_ERROR /\ s' = s).
Proof.
  intros Hd HI. pose proof (dv_ref _ _ _ Hd) as Hr. unfold rt_device_close. rewrite (after (dev_check_done _ _ _ Hd)).
  rewrite (after (dev_done _ _ _ (dv_val _ _ _ Hd))). destruct (Z.eqb_spec (ref_count d) 0) as [H0|H0].
  { exists (- RT_ERROR), s. split; [done|]. split; [|done]. split; [done|]. by exists d. }
  set (f := fun d => set_ref_count (u8 (ref_count d - 1)) d). rewrite (after (mod_dev_done _ _ _ _ (dv_val _ _ _ Hd))). fold (f d).
  destruct (put_stays a d s f (ref_count d - 1) Hd HI) as (HI1 & d1 & Hd1 & R1 & D1); [cbn; unfold u8; apply Z.mod_small; lia|lia|done|].
  set (s1 := put_dev _ s) in *. rewrite (after (dev_done _ _ _ (dv_val _ _ _ Hd1))). destruct (Z.eqb_spec (ref_count d1) 0) as [H1|H1]; cbn [negb].
  2:{ exists RT_EOK, s1. split; [done|]. split; [|done]. split; [done|]. by exists d1. }
  rewrite (after (driver_done _ _ _ _ (dv_val _ _ _ Hd1))).
  assert (exists r s2, (match close (ops (dev_driver d1)) with Some f => f a | None => ret RT_EOK end) s1 = Done r s2 /\ keeps (Some a) s1 s2) as (r & s2 & E2 & HK2).
  { destruct (close _) as [g|] eqn:Eg; [by apply (close_ok g)|]. by exists RT_EOK, s1. }
  rewrite (after E2). destruct (keeps_stays _ _ _ _ _ HK2 Hd1 HI1) as (HI2 & d2 & Hd2 & R2 & D2).
  assert (HS : stays a d (ref_count d - 1) s2) by (split; [done|exists d2; split_and!; congruence]).
  destruct ((r =? RT_EOK) || (r =? - RT_ENOSYS)); cbn [when]; [|exists r, s2; mstep; by split_and!].
  rewrite (after (mod_dev_done _ _ _ _ (dv_val _ _ _ Hd2))). eexists r, _. split; [reflexivity|]. split; [|done].
  eapply stays_trans; [apply (put_stays a d2 s2 (set_open_flag RT_DEVICE_OFLAG_CLOSE)); [done|done|cbn; congruence|lia|done]|congruence].
Qed.
End open_close.

Section traces.
Context {W : Type} (ops : Z -> device_ops W).
Implicit Types s : devices W.

(** [open_trace a s n]: after calls on the device at [a], [n] opens have succeeded that no close goes
    with yet.  A result of -RT_ENOSYS does not say whether the device was opened. *)
Inductive open_trace (a : Z) : devices W -> Z -> Prop :=
| ot_start s d : dev_at s a d -> ref_count d = 0 -> dev_inv s -> open_trace a s 0
| ot_open s n oflag r s' : open_trace a s n -> rt_device_open ops a oflag s = Done r s' -> r <> - RT_ENOSYS ->
    open_trace a s' (if r =? RT_EOK then n + 1 else n)
| ot_close s n r s' : open_trace a s n -> rt_device_close ops a s = Done r s' -> open_trace a s' (if n =? 0 then 0 else n - 1)
| ot_read s n pos size r s' : open_trace a s n -> rt_device_read ops a pos size s = Done r s' -> open_trace a s' n
| ot_write s n pos l r s' : open_trace a s n -> rt_device_write ops a pos l s = Done r s' -> open_trace a s' n
| ot_control s n cmd arg r s' : open_trace a s n -> rt_device_control ops a cmd arg s = Done r s' -> open_trace a s' n.

Context `{HD : forall p, Driver (ops p)}.

Lemma open_trace_counts a s n : open_trace a s n -> dev_inv s /\ exists d, dev_at s a d /\ ref_count d = n.
Proof.
  assert (HS : forall d k s, stays a d k s -> dev_inv s /\ exists d, dev_at s a d /\ ref_count d = k).
  { intros d k s0 (HI & d' & ? & ? & _). split; [done|]. by exists d'. }
  induction 1 as [s d Hd H0 HI|s n oflag r s' _ (HI & d & Hd & <-) E Hr|s n r s' _ (HI & d & Hd & <-) E
    |s n pos size r s' _ (HI & d & Hd & <-) E|s n pos l r s' _ (HI & d & Hd & <-) E|s n cmd arg r s' _ (HI & d & Hd & <-) E].
  - split; [done|]. by exists d.
  - destruct (open_done ops a oflag s d Hd HI) as [(r1 & s1 & [[E1 H1]|E1])|[E1 _]]; rewrite E in E1; simplify_eq; by eapply HS.
  - destruct (close_done ops a s d Hd HI) as (r1 & s1 & E1 & H1 & _). rewrite E in E1. simplify_eq. by eapply HS.
  - destruct (read_done ops a pos size s d Hd (di_errno _ HI)) as (r1 & s1 & E1 & HK). rewrite E in E1. simplify_eq. eapply HS. by eapply keeps_stays.
  - destruct (write_done ops a pos l s d Hd (di_errno _ HI)) as (r1 & s1 & E1 & HK). rewrite E in E1. simplify_eq. eapply HS. by eapply keeps_stays.
  - destruct (control_done ops a cmd arg s d Hd) as (r1 & s1 & E1 & HK). rewrite E in E1. simplify_eq. eapply HS. by eapply keeps_stays.
Qed.

End traces.

(** a text that fits the buffer of [rt_kprintf] goes to the console as it is: to the hardware
    output without a console device, and otherwise to the driver of the console, in stream mode,
    with the open flag put back afterwards. *)
Theorem rt_kprintf_reaches_console {W} (ops : Z -> device_ops W) `{HD : forall p, Driver (ops p)} items args txt (s : devices W) :
  Forall item_ok items -> items_text items args = Some txt -> Forall (fun c => 0 < c < 2 ^ 8) txt -> (length txt <= 126)%nat -> dev_inv s ->
  exists m' s', printed (v_log s) (v_logbuf s) 127 txt m' /\ rt_kprintf ops (items_fmt items) args s = Done tt s' /\
    if decide (v_console s = RT_NULL) then s' = put_hw txt (put_log m' s)
    else forall d, dev_at s (v_console s) d ->
      exists r s2 d2, rt_device_write ops (v_console s) 0 txt (streaming (v_console s) d (put_log m' s)) = Done r s2 /\
        v_dev s2 !! v_console s = Some d2 /\ s' = put_dev (<[v_console s := set_open_flag (open_flag d) d2]>) s2.
Proof.
  intros Hok Ht Htx Hlen HI. destruct (kprintf_spec ops items args txt s Hok Ht Htx HI) as (m' & out & HP & Hout & _ & E).
  rewrite (Hout Hlen), (take_ge txt) in E by lia. destruct (kprintf_done ops items args txt s Hok Ht HI) as (s' & E' & _).
  exists m', s'. split; [done|]. split; [done|]. rewrite E' in E. destruct (decide (v_console s = RT_NULL)) as [Hc|Hc].
  - revert E. unfold console_put. mstep. cbn. rewrite Hc. cbn. by intros [= ->].
  - intros d Hd. destruct (console_device ops txt txt (put_log m' s) (v_console s) d eq_refl) as (r & s2 & d2 & Ew & Hd2 & Ec & _);
      [by destruct Hd|exact (di_errno _ HI)|]. exists r, s2, d2. split; [done|]. split; [done|]. congruence.
Qed.

(** when the driver of a standalone device fails to close it, the device is lost: it is not
    counted as open any more, so that it cannot be closed again, but its open flag stays, so that
    every further open reports it as busy. *)
Theorem standalone_close_failure {W} (ops : Z -> device_ops W) a (s s2 : devices W) d d2 f e :
  dev_at s a d -> ref_count d = 1 -> close (ops (dev_driver d)) = Some f ->
  f a (put_dev (<[a := set_ref_count 0 d]>) s) = Done e s2 -> e <> RT_EOK -> e <> - RT_ENOSYS ->
  dev_at s2 a d2 -> ref_count d2 = 0 -> activated d2 = true ->
  nz (Z.land (dev_flag d2) RT_DEVICE_FLAG_STANDALONE) = true -> nz (Z.land (open_flag d2) RT_DEVICE_OFLAG_OPEN) = true ->
  rt_device_close ops a s = Done e s2 /\ (forall oflag, rt_device_open ops a oflag s2 = Done (- RT_EBUSY) s2) /\
  rt_device_close ops a s2 = Done (- RT_ERROR) s2.
Proof.
  intros Hd H1 Hf Ef He1 He2 Hd2 H0 Ha Hs Ho. split_and!.
  - unfold rt_device_close. rewrite (after (dev_check_done _ _ _ Hd)), (after (dev_done _ _ _ (dv_val _ _ _ Hd))), H1. cbn [Z.eqb].
    rewrite (after (mod_dev_done _ _ _ _ (dv_val _ _ _ Hd))), H1. change (u8 (1 - 1)) with 0.
    assert (Hv : v_dev (put_dev (<[a := set_ref_count 0 d]>) s) !! a = Some (set_ref_count 0 d)) by (cbn; apply lookup_insert_eq).
    rewrite (after (dev_done _ _ _ Hv)). cbn [ref_count set_ref_count Z.eqb negb]. rewrite (after (driver_done _ _ _ _ Hv)).
    cbn [dev_driver set_ref_count]. rewrite Hf, (after Ef). rewrite (proj2 (Z.eqb_neq _ _) He1), (proj2 (Z.eqb_neq _ _) He2). cbn [orb when]. by mstep.
  - intros oflag. unfold rt_device_open. rewrite (after (dev_check_done _ _ _ Hd2)). 
    assert (E : open_init ops a s2 = Done None s2) by (unfold open_init; by rewrite (after (dev_done _ _ _ (dv_val _ _ _ Hd2))), Ha).
    rewrite (after E), (after (dev_done _ _ _ (dv_val _ _ _ Hd2))), Hs, Ho. done.
  - unfold rt_device_close. rewrite (after (dev_check_done _ _ _ Hd2)), (after (dev_done _ _ _ (dv_val _ _ _ Hd2))), H0. done.
Qed.

(** ** Names *)

Lemma strncmp_eq_cpy n a b : strncmp_eq n (strncpy_list n a) b = strncmp_eq n a b.
Proof.
  unfold strncpy_list. assert (H : forall m, (n <= m)%nat -> strncmp_eq n (take n (a ++ replicate m 0)) b = strncmp_eq n a b).
  { revert a b. induction n as [|n IH]; intros a b m Hm; [done|]. destruct m as [|m]; [lia|]. destruct a as [|x a]; cbn -[replicate].
    - by destruct b.
    - destruct (x =? _); [|done]. destruct (x =? 0); [done|]. apply IH. lia. }
  by apply H.
Qed.

Lemma strncmp_eq_sym n : forall a b, strncmp_eq n a b = strncmp_eq n b a.
Proof.
  induction n as [|n IH]; intros a b; [done|]. cbn. rewrite Z.eqb_sym. destruct (Z.eqb_spec (default 0 (head b)) (default 0 (head a))) as [E|]; [|done].
  rewrite <- E. destruct (_ =? 0); [done|]. apply IH.
Qed.

Lemma strncmp_eq_refl n : forall a, strncmp_eq n a a = true.
Proof. induction n as [|n IH]; intros a; [done|]. cbn. rewrite Z.eqb_refl. destruct (_ =? 0); [done|]. apply IH. Qed.

(** The scheduler does not run when the critical section of [rt_device_find] ends: before the start
    of the system, or within a critical section of the caller. *)
Definition quiet (k : kernel) : Prop := k_cur k = RT_NULL \/ 0 < k_lock k < 2 ^ 15 - 1.

(** The devices [l] are registered, with names that differ within RT_NAME_MAX characters. *)
Record names_ok {W} (s : devices W) (l : list oid) : Prop := NamesOk {
  nm_obj : obj_inv (k_hdr (v_k s)) (k_cont (v_k s));
  nm_list : k_cont (v_k s) !! RT_Object_Class_Device = Some l;
  nm_addr : forall o, o ∈ l -> exists a, o = Obj a /\ a <> RT_NULL;
  nm_unique : forall o1 o2 h1 h2, o1 ∈ l -> o2 ∈ l -> k_hdr (v_k s) !! o1 = Some h1 -> k_hdr (v_k s) !! o2 = Some h2 ->
    strncmp_eq RT_NAME_MAX (oname h1) (oname h2) = true -> o1 = o2
}.

Section names.
Context {W : Type}.
Implicit Types s : devices W.

Lemma s16_small n : - 2 ^ 15 <= n < 2 ^ 15 -> s16 n = n.
Proof. intros Hn. unfold s16. rewrite Z.mod_small; lia. Qed.

Lemma critical_quiet k {A} (m : K A) r : quiet k -> (forall n, m (upd_lock n k) = Done r (upd_lock n k)) ->
  (self <- rt_thread_self;; when (negb (self =? RT_NULL)) rt_enter_critical;;; x <- m;;
   self <- rt_thread_self;; when (negb (self =? RT_NULL)) rt_exit_critical;;; ret x) k = Done r k.
Proof.
  intros HQ Hm. unfold rt_thread_self. mstep. destruct (Z.eqb_spec (k_cur k) RT_NULL) as [Hc|Hc]; cbn [negb when].
  - mstep. assert (E : m k = Done r k). { specialize (Hm (fun n => n)). by destruct k. }
    rewrite (after E). mstep. rewrite Hc. by cbn.
  - destruct HQ as [?|Hl]; [done|]. unfold rt_enter_critical. mstep. rewrite (after (Hm _)). mstep.
    change (k_cur (upd_lock _ k)) with (k_cur k). rewrite (proj2 (Z.eqb_neq _ _) Hc). cbn [negb when]. unfold rt_exit_critical.
    rewrite bind_assoc. mstep. rewrite bind_assoc. mstep. cbn [k_lock upd_lock].
    assert (Hs : s16 (s16 (k_lock k + 1) - 1) = k_lock k) by (rewrite (s16_small (k_lock k + 1)), s16_small by lia; lia).
    rewrite Hs, (proj2 (Z.leb_gt _ _)) by lia. cbn [when]. mstep. unfold ret. f_equal. kext. by rewrite Hs.
Qed.

Lemma find_name_lock name l n k r : find_name name l k = Done r k -> find_name name l (upd_lock n k) = Done r (upd_lock n k).
Proof.
  induction l as [|o l IH]; cbn [find_name]; [by intros [= ->]|]. destruct (k_hdr k !! o) as [h|] eqn:Eh.
  - rewrite (after (hdr_done _ _ _ Eh)). erewrite bind_done; [|apply hdr_done; exact Eh]. destruct (strncmp_eq _ _ _); [by intros [= ->]|done].
  - unfold hdr at 1, deref, bind. by rewrite Eh.
Qed.

Lemma device_find_done name s l : quiet (v_k s) -> names_ok s l ->
  exists r, rt_device_find name s = Done r s /\
    ((r = RT_NULL /\ forall o h, o ∈ l -> k_hdr (v_k s) !! o = Some h -> strncmp_eq RT_NAME_MAX (oname h) name = false) \/
     (r <> RT_NULL /\ exists h, Obj r ∈ l /\ k_hdr (v_k s) !! Obj r = Some h /\ strncmp_eq RT_NAME_MAX (oname h) name = true)).
Proof.
  intros HQ [HO Hl Ha _]. set (k := v_k s) in *.
  assert (Hh : forall o, o ∈ l -> is_Some (k_hdr k !! o)) by (intros o Ho; destruct (oi_class _ _ HO _ _ _ Hl Ho) as (h & -> & _); by eexists).
  destruct (find_name_done name k l Hh) as (r & E & Hr).
  exists (match r with Some (Obj a) => a | _ => RT_NULL end). split.
  - apply kern_pure, critical_quiet; [done|]. intros n. unfold device_search. rewrite bool_decide_true by (by eexists). cbn [rt_assert]. mstep.
    erewrite bind_done; [|apply deref_some; exact Hl]. by rewrite (after (find_name_lock _ _ n _ _ E)).
  - destruct r as [o|]; [right|by left]. destruct Hr as (l1 & l2 & h & -> & Ho & Hs).
    destruct (Ha o) as (a & -> & Hnz); [set_solver|]. split; [done|]. exists h. split_and!; [set_solver|done|done].
Qed.

(** The record of a device that was just registered. *)
Definition fresh_dev (flags : Z) (d : rt_device) : rt_device :=
  Device (dev_type d) (u16 flags) 0 0 (rx_indicate d) (tx_complete d) (dev_driver d) RT_NULL 0.

Lemma names_ok_insert s l a name d fl flags : names_ok s l -> a <> RT_NULL -> contained (Obj a) (k_cont (v_k s)) = false ->
  (forall o h, o ∈ l -> k_hdr (v_k s) !! o = Some h -> strncmp_eq RT_NAME_MAX (oname h) name = false) ->
  let k1 := upd_cont (lpush_front RT_Object_Class_Device (Obj a)) (upd_hdr (<[Obj a := init_hdr RT_Object_Class_Device name fl]>) (v_k s)) in
  names_ok (put_dev (<[a := fresh_dev flags d]>) (put_kernel k1 s)) (Obj a :: l).
Proof.
  intros [HO Hl Ha HU] Hnz Hno Hnew k1. set (hn := init_hdr RT_Object_Class_Device name fl).
  assert (Hnl : Obj a ∉ l) by (eapply contained_false; [exact Hno|exact Hl]).
  split; cbn [v_k put_dev put_kernel].
  - unfold k1. cbn [upd_cont upd_hdr k_hdr k_cont]. apply obj_inv_insert; [done|done|by eexists|done|apply strncpy_list_length].
  - unfold k1. cbn. unfold lpush_front, lget. rewrite lookup_insert_eq. by rewrite Hl.
  - intros o [->|Ho]%elem_of_cons; [by exists a|by apply Ha].
  - intros o1 o2 h1 h2 H1 H2 E1 E2 Hs. cbn in E1, E2. apply elem_of_cons in H1 as [->|H1]; apply elem_of_cons in H2 as [->|H2]; [done| | |].
    + rewrite lookup_insert_eq in E1. injection E1 as <-. rewrite lookup_insert_ne in E2 by (intros Heq; apply Hnl; by rewrite Heq). cbn [oname init_hdr] in Hs.
      rewrite strncmp_eq_cpy, strncmp_eq_sym in Hs. by rewrite (Hnew _ _ H2 E2) in Hs.
    + rewrite lookup_insert_eq in E2. injection E2 as <-. rewrite lookup_insert_ne in E1 by (intros Heq; apply Hnl; by rewrite Heq). cbn [oname init_hdr] in Hs.
      rewrite strncmp_eq_sym, strncmp_eq_cpy, strncmp_eq_sym in Hs. by rewrite (Hnew _ _ H1 E1) in Hs.
    + rewrite lookup_insert_ne in E1 by (intros Heq; apply Hnl; by rewrite Heq). rewrite lookup_insert_ne in E2 by (intros Heq; apply Hnl; by rewrite Heq). by eapply HU.
Qed.

(** [rt_device_register] refuses a name that is in use, within the characters that are stored,
    and changes nothing then; otherwise the device is registered, closed, the names stay distinct,
    and [rt_device_find] finds the device under its name. *)
Theorem rt_device_register_correct s l a name flags d : quiet (v_k s) -> names_ok s l -> a <> RT_NULL -> v_dev s !! a = Some d ->
  contained (Obj a) (k_cont (v_k s)) = false ->
  exists r s', rt_device_register a name flags s = Done r s' /\
    ((r = - RT_ERROR /\ s' = s /\ exists b h, Obj b ∈ l /\ k_hdr (v_k s) !! Obj b = Some h /\ strncmp_eq RT_NAME_MAX (oname h) name = true) \/
     (r = RT_EOK /\ names_ok s' (Obj a :: l) /\ dev_at s' a (fresh_dev flags d) /\ rt_device_find name s' = Done a s')).
Proof.
  intros HQ HN Hnz Hv Hno. unfold rt_device_register. rewrite (proj2 (Z.eqb_neq _ _) Hnz).
  destruct (device_find_done name s l HQ HN) as (r & E & Hr). rewrite (after E). destruct Hr as [[-> Hnew]|[Hr (h & Hin & Hh & Hs)]].
  2:{ rewrite (proj2 (Z.eqb_neq _ _) Hr). cbn [negb]. exists (- RT_ERROR), s. split; [done|]. left. split_and!; try done. by exists r, h. }
  change (RT_NULL =? RT_NULL) with true. cbn [negb].
  set (fl := default 0 (oflag <$> k_hdr (v_k s) !! Obj a)).
  set (k1 := upd_cont (lpush_front RT_Object_Class_Device (Obj a)) (upd_hdr (<[Obj a := init_hdr RT_Object_Class_Device name fl]>) (v_k s))).
  assert (E1 : kern (rt_object_init (Obj a) RT_Object_Class_Device name) s = Done tt (put_kernel k1 s)).
  { unfold kern, zoom. by rewrite (rt_object_init_done _ _ _ _ (nm_obj _ _ HN)) by (done || by eexists). }
  rewrite (after E1). rewrite (after (mod_dev_done a _ (put_kernel k1 s) d Hv)). fold (fresh_dev flags d).
  pose proof (names_ok_insert s l a name d fl flags HN Hnz Hno Hnew) as HN'. fold k1 in HN'. set (s' := put_dev _ _) in *.
  exists RT_EOK, s'. split; [done|]. right. split_and!; try done.
  - split; [done|cbn; apply lookup_insert_eq|eexists; cbn; split; [apply lookup_insert_eq|done]|by vm_compute].
  - destruct (device_find_done name s' (Obj a :: l) HQ HN') as (r & E' & Hr). rewrite E'. f_equal.
    assert (Ha : k_hdr (v_k s') !! Obj a = Some (init_hdr RT_Object_Class_Device name fl)) by (cbn; apply lookup_insert_eq).
    assert (Hmatch : strncmp_eq RT_NAME_MAX (oname (init_hdr RT_Object_Class_Device name fl)) name = true).
    { cbn [oname init_hdr]. rewrite strncmp_eq_cpy. apply strncmp_eq_refl. }
    destruct Hr as [[_ Hn]|[_ (h & Hin & Hh & Hs)]].
    + rewrite (Hn (Obj a) _ ltac:(apply elem_of_cons; by left) Ha) in Hmatch. done.
    + apply elem_of_cons in Hin as [[= ->]|Hin]; [done|]. exfalso.
      assert (Hne : Obj r <> Obj a). { intros Heq. rewrite Heq in Hin. eapply contained_false; [exact Hno|apply (nm_list _ _ HN)|exact Hin]. }
      cbn in Hh. rewrite lookup_insert_ne in Hh by congruence. by rewrite (Hnew _ _ Hin Hh) in Hs.
Qed.
End names.

(** A device made by [rt_device_create] cannot be destroyed: before it is registered its object has
    no class, and afterwards it counts as static; [rt_device_destroy] asserts in both cases. *)
Lemma device_destroy_asserts {W} (s : devices W) a h : a <> RT_NULL -> k_hdr (v_k s) !! Obj a = Some h ->
  otype h = 0 \/ otype h = Z.lor RT_Object_Class_Device RT_Object_Class_Static -> rt_device_destroy a s = Stop Assertion.
Proof.
  intros Ha Hh Ht. unfold rt_device_destroy, dev_check. rewrite (proj2 (Z.eqb_neq _ _) Ha). cbn [negb rt_assert]. rewrite bind_assoc. mstep.
  assert (Hn : is_null (Obj a) = false) by (cbn; by apply Z.eqb_neq). destruct Ht as [Ht|Ht].
  - unfold kern at 1, zoom, bind at 1. assert (assert_type (Obj a) RT_Object_Class_Device (v_k s) = Stop Assertion) as ->; [|done].
    unfold assert_type, rt_object_get_type. rewrite Hn. cbn [negb rt_assert]. rewrite bind_assoc. mstep. rewrite bind_assoc, (after (hdr_done _ _ _ Hh)).
    mstep. by rewrite Ht.
  - assert (Hc : class_of h = RT_Object_Class_Device) by (unfold class_of; by rewrite Ht).
    rewrite (after (kern_pure _ _ _ (assert_type_done _ _ _ _ Hn Hh Hc))).
    rewrite (after (kern_pure _ _ _ (is_systemobject_done _ _ _ Hn Hh))). unfold is_static. by rewrite Ht.
Qed.

(** ** A concrete system *)

(** A driver that keeps what is written to it, and fails to close. *)
Definition demo_ops (p : Z) : device_ops (list (list Z)) :=
  DeviceOps (Some (fun _ => ret RT_EOK)) None (Some (fun _ => ret (- RT_ERROR))) None
    (Some (fun _ _ l => modify (fun s => Devices (v_k s) (v_dev s) (v_errno s) (v_console s) (v_logbuf s) (v_log s) (v_hw s) (v_world s ++ [l]));;;
                        ret (Z.of_nat (length l))))
    None.

#[export] Instance demo_driver p : Driver (demo_ops p).
Proof.
  assert (HK : forall (s : devices (list (list Z))) w, keeps None s
    (Devices (v_k s) (v_dev s) (v_errno s) (v_console s) (v_logbuf s) (v_log s) (v_hw s) w)).
  { intros s w. split; try done. intros b d Hd. by exists d. }
  split; cbn; try done.
  - intros f a s [= <-]. by exists RT_EOK, s.
  - intros f a s [= <-]. by exists (- RT_ERROR), s.
  - intros f a pos l s [= <-]. mstep. eexists _, _. split; [reflexivity|]. apply HK.
Qed.

Definition uart_addr : Z := 0x4000.
Definition uart0 : rt_device := Device 0 0 0 0 0 0 7 0 0.
Definition uart_flags : Z := RT_DEVICE_FLAG_STANDALONE.
Definition s_boot : devices (list (list Z)) := Devices k_board {[uart_addr := uart0]} 0 RT_NULL 0x1000 demo_data [] [].
Definition s_reg : devices (list (list Z)) := Eval vm_compute in final s_boot (rt_device_register uart_addr (chars_of "uart1") uart_flags s_boot).
Definition s_open : devices (list (list Z)) := Eval vm_compute in final s_boot (rt_device_open demo_ops uart_addr RT_DEVICE_OFLAG_RDWR s_reg).

Lemma s_boot_names : names_ok s_boot [].
Proof. split; [apply obj_check_sound; concrete|concrete|by intros o ?%not_elem_of_nil|by intros o1 o2 h1 h2 ?%not_elem_of_nil]. Qed.

Lemma rt_device_register_correct_witness :
  exists r s', rt_device_register uart_addr (chars_of "uart1") uart_flags s_boot = Done r s' /\ r = RT_EOK /\
    names_ok s' [Obj uart_addr] /\ rt_device_find (chars_of "uart1") s' = Done uart_addr s'.
Proof.
  destruct (rt_device_register_correct s_boot [] uart_addr (chars_of "uart1") uart_flags uart0) as (r & s' & E & [(_ & _ & b & h & Hb & _)|(-> & HN & _ & HF)]);
    [left; concrete|exact s_boot_names|nonnull|concrete|concrete|by apply not_elem_of_nil in Hb|]. exists RT_EOK, s'. conjs.
Defined.

Definition uart1 : rt_device := Device 0 (Z.lor uart_flags RT_DEVICE_FLAG_ACTIVATED) (Z.lor RT_DEVICE_OFLAG_RDWR RT_DEVICE_OFLAG_OPEN) 1 0 0 7 0 0.

Lemma log_ok : 0 <= 0x1000 /\ 0x1000 + RT_CONSOLEBUF_SIZE <= 2 ^ 32 /\ valid demo_data 0x1000 RT_CONSOLEBUF_SIZE.
Proof. split; [lia|]. split; [unfold RT_CONSOLEBUF_SIZE; lia|]. intros i Hi. apply demo_data_bytes. unfold RT_CONSOLEBUF_SIZE in Hi. lia. Qed.

Lemma uart_at s d : v_dev s !! uart_addr = Some d -> k_hdr (v_k s) = k_hdr (v_k s_reg) -> 0 <= ref_count d < 2 ^ 8 -> dev_at (W := list (list Z)) s uart_addr d.
Proof. intros Hd Hh Hr. split; [nonnull|done| |done]. rewrite Hh. eexists. split; concrete. Qed.

Lemma s_reg_inv : dev_inv s_reg.
Proof. split; [apply log_ok|by left|right; left; concrete]. Qed.

Lemma s_open_trace : open_trace demo_ops uart_addr s_open 1.
Proof.
  apply (ot_open demo_ops uart_addr s_reg 0 RT_DEVICE_OFLAG_RDWR RT_EOK s_open); [|concrete|done].
  apply (ot_start demo_ops uart_addr s_reg (fresh_dev uart_flags uart0)); [apply uart_at; [concrete|concrete|by vm_compute]|concrete|exact s_reg_inv].
Qed.


Lemma rt_kprintf_reaches_console_witness :
  let items := [percent (ch "d"); Lit 10] in let txt := chars_of "42" ++ [10] in
  exists m' s', rt_kprintf demo_ops (items_fmt items) [AInt 42] s_reg = Done tt s' /\ s' = put_hw txt (put_log m' s_reg).
Proof.
  intros items txt. assert (E : items_text items [AInt 42] = Some txt) by concrete.
  destruct (rt_kprintf_reaches_console demo_ops items [AInt 42] txt s_reg) as (m' & s' & _ & Ek & H);
    [repeat constructor; done|exact E|repeat constructor; by vm_compute|cbn; lia|exact s_reg_inv|].
  exists m', s'. split; [exact Ek|]. rewrite decide_True in H by concrete. exact H.
Defined.

(** The device opened once, and what its close leaves. *)
Definition s_lost : devices (list (list Z)) := put_dev (<[uart_addr := set_ref_count 0 uart1]>) s_open.

Lemma standalone_close_failure_witness :
  rt_device_close demo_ops uart_addr s_open = Done (- RT_ERROR) s_lost /\
  (forall oflag, rt_device_open demo_ops uart_addr oflag s_lost = Done (- RT_EBUSY) s_lost) /\
  rt_device_close demo_ops uart_addr s_lost = Done (- RT_ERROR) s_lost.
Proof.
  apply (standalone_close_failure demo_ops uart_addr s_open s_lost uart1 (set_ref_count 0 uart1) (fun _ => ret (- RT_ERROR)) (- RT_ERROR));
    first [reflexivity|discriminate|idtac].
  - apply uart_at; [concrete|concrete|by vm_compute].
  - apply uart_at; [concrete|concrete|by vm_compute].
Defined.

(** The third line of the banner. *)
Example rt_show_version_text :
  v_hw (final s_reg (rt_show_version demo_ops (chars_of "Jul  2 2018") s_reg)) !! 2%nat
  = Some (chars_of " / | \     3.1.0 build Jul  2 2018" ++ [10]).
Proof. concrete. Qed.
