(* ===== verification/Serial.v ===== *)
(** * Serial ports (components/drivers/serial/serial.c, BOX/drivers/drv_usart.c)

    The driver behind the serial ports of the box, as functions of the device manager of
    Device.v: the world of the manager has, for every serial device, its configuration, the
    receive buffer and the port itself.  A port is the sequence of bytes that have arrived and
    were not read ([line_in]) and the sequence of bytes sent ([line_out]).

    [serial_rx_refines] is the receive buffer in interrupt mode: any interleaving of receive
    interrupts and reads behaves as a queue that keeps the last [bufsz - 1] bytes.
    [rt_serial_write_line] is what a write puts on the line, [dma_put_correct] and
    [serial_dma_rx_correct] are the buffer in DMA mode, and [usart_late_byte_lost] and
    [proto_config_refused] two things the code does not mean to do.  Sending by DMA is left
    out: the driver of the box has no function for it. *)

From Stdlib Require Import Ascii String.
From S2P Require Import Prelude RtList Exec KService Mem Kernel Object Scheduler Timer Thread Ipc Circ Decide Demo DrvIpc Printf ObjectType Device.

(** ** Data *)

Definition RT_DEVICE_FLAG_SUSPENDED : Z := 0x020.
Definition RT_DEVICE_FLAG_INT_RX : Z := 0x100.
Definition RT_DEVICE_FLAG_DMA_RX : Z := 0x200.
Definition RT_DEVICE_FLAG_INT_TX : Z := 0x400.
Definition RT_DEVICE_FLAG_DMA_TX : Z := 0x800.
Definition RT_DEVICE_CTRL_RESUME : Z := 0x01.
Definition RT_DEVICE_CTRL_SUSPEND : Z := 0x02.
Definition RT_DEVICE_CTRL_CONFIG : Z := 0x03.
Definition RT_DEVICE_CTRL_SET_INT : Z := 0x10.
Definition RT_DEVICE_CTRL_CLR_INT : Z := 0x11.
Definition RT_SERIAL_EVENT_RX_IND : Z := 0x01.
Definition RT_SERIAL_EVENT_TX_DONE : Z := 0x02.
Definition RT_SERIAL_EVENT_RX_DMADONE : Z := 0x03.

Record serial_configure := SerialConfigure {
  baud_rate : Z; data_bits : Z; stop_bits : Z; parity : Z; bit_order : Z; invert : Z; bufsz : Z
}.

(** [RT_SERIAL_CONFIG_DEFAULT] *)
Definition serial_config_default : serial_configure := SerialConfigure 115200 8 0 0 0 0 64.

(** [buffer] is the array behind the structure. *)
Record rt_serial_rx_fifo := RxFifo { buffer : list Z; rx_put : Z; rx_get : Z; is_full : bool }.

(** What [HAL_UART_Init] is given. *)
Record uart_init := UartInit { BaudRate : Z; WordLength : Z; StopBits : Z; Parity : Z }.

(** [serial_rx] and [serial_tx] are the addresses of the structures for receiving and sending, RT_NULL
    when there is none; [rx_fifo] is the first of them in interrupt and buffered DMA mode. *)
Record rt_serial_device := SerialDevice {
  config : serial_configure; serial_rx : Z; serial_tx : Z; rx_fifo : rt_serial_rx_fifo; rx_activated : bool;
  UartHandle : uart_init; rx_it : bool; line_in : list Z; line_out : list Z
}.

Section setters.
Implicit Types d : rt_serial_device.
Definition set_config c d := SerialDevice c (serial_rx d) (serial_tx d) (rx_fifo d) (rx_activated d) (UartHandle d) (rx_it d) (line_in d) (line_out d).
Definition set_serial_rx p d := SerialDevice (config d) p (serial_tx d) (rx_fifo d) (rx_activated d) (UartHandle d) (rx_it d) (line_in d) (line_out d).
Definition set_serial_tx p d := SerialDevice (config d) (serial_rx d) p (rx_fifo d) (rx_activated d) (UartHandle d) (rx_it d) (line_in d) (line_out d).
Definition set_rx_fifo f d := SerialDevice (config d) (serial_rx d) (serial_tx d) f (rx_activated d) (UartHandle d) (rx_it d) (line_in d) (line_out d).
Definition set_rx_activated b d := SerialDevice (config d) (serial_rx d) (serial_tx d) (rx_fifo d) b (UartHandle d) (rx_it d) (line_in d) (line_out d).
Definition set_UartHandle u d := SerialDevice (config d) (serial_rx d) (serial_tx d) (rx_fifo d) (rx_activated d) u (rx_it d) (line_in d) (line_out d).
Definition set_rx_it b d := SerialDevice (config d) (serial_rx d) (serial_tx d) (rx_fifo d) (rx_activated d) (UartHandle d) b (line_in d) (line_out d).
Definition set_line_in l d := SerialDevice (config d) (serial_rx d) (serial_tx d) (rx_fifo d) (rx_activated d) (UartHandle d) (rx_it d) l (line_out d).
Definition set_line_out l d := SerialDevice (config d) (serial_rx d) (serial_tx d) (rx_fifo d) (rx_activated d) (UartHandle d) (rx_it d) (line_in d) l.
End setters.

(** The serial devices by address, the completions and data queues of DrvIpc, the words stored through
    the argument of a control command, and what the callbacks work on. *)
Record ports (R : Type) := Ports {
  p_serial : gmap Z rt_serial_device; p_comp : gmap Z Z; p_dq : gmap Z rt_data_queue; p_log : list (Z * Z); p_args : gmap Z Z;
  p_rest : R
}.
Arguments Ports {R} _ _ _ _ _ _.
Arguments p_serial {R} _.
Arguments p_comp {R} _.
Arguments p_dq {R} _.
Arguments p_log {R} _.
Arguments p_args {R} _.
Arguments p_rest {R} _.

Section serial.
Context {R : Type}.
Notation P := (M (devices (ports R))).

Definition put_serial (a : Z) (d : rt_serial_device) (s : devices (ports R)) : devices (ports R) :=
  Devices (v_k s) (v_dev s) (v_errno s) (v_console s) (v_logbuf s) (v_log s) (v_hw s)
    (Ports (<[a := d]> (p_serial (v_world s))) (p_comp (v_world s)) (p_dq (v_world s)) (p_log (v_world s)) (p_args (v_world s)) (p_rest (v_world s))).
Definition put_arg (p v : Z) (s : devices (ports R)) : devices (ports R) :=
  Devices (v_k s) (v_dev s) (v_errno s) (v_console s) (v_logbuf s) (v_log s) (v_hw s)
    (Ports (p_serial (v_world s)) (p_comp (v_world s)) (p_dq (v_world s)) (p_log (v_world s)) (<[p := v]> (p_args (v_world s))) (p_rest (v_world s))).
Definition serial (a : Z) : P rt_serial_device := deref (fun s => p_serial (v_world s) !! a).
Definition mod_serial (a : Z) (f : rt_serial_device -> rt_serial_device) : P unit :=
  d <- serial a;; modify (put_serial a (f d)).

(** A call of DrvIpc. *)
Definition dcall {A} (m : D A) : P A :=
  zoom (fun s => DState (v_k s) (p_comp (v_world s)) (p_dq (v_world s)) (p_log (v_world s)))
    (fun d s => Devices (d_k d) (v_dev s) (v_errno s) (v_console s) (v_logbuf s) (v_log s) (v_hw s)
      (Ports (p_serial (v_world s)) (d_comp d) (d_dq d) (d_log d) (p_args (v_world s)) (p_rest (v_world s)))) m.

(** ** The port *)

Definition UART_WORDLENGTH_8B : Z := 0.
Definition UART_WORDLENGTH_9B : Z := 0x1000.
Definition UART_STOPBITS_1 : Z := 0.
Definition UART_STOPBITS_2 : Z := 0x2000.
Definition UART_PARITY_NONE : Z := 0.
Definition UART_PARITY_EVEN : Z := 0x400.
Definition UART_PARITY_ODD : Z := 0x600.

Definition init_of (cfg : serial_configure) : uart_init :=
  UartInit (baud_rate cfg)
    (if data_bits cfg =? 8 then UART_WORDLENGTH_8B else if data_bits cfg =? 9 then UART_WORDLENGTH_9B else UART_WORDLENGTH_8B)
    (if stop_bits cfg =? 0 then UART_STOPBITS_1 else if stop_bits cfg =? 1 then UART_STOPBITS_2 else UART_STOPBITS_1)
    (if parity cfg =? 0 then UART_PARITY_NONE else if parity cfg =? 1 then UART_PARITY_ODD
     else if parity cfg =? 2 then UART_PARITY_EVEN else UART_PARITY_NONE).

(** The next byte that has arrived, or -1. *)
Definition drv_getc (a : Z) : P Z :=
  rt_assert (negb (a =? RT_NULL));;;
  d <- serial a;;
  match line_in d with
  | [] => ret (-1)
  | b :: l => mod_serial a (set_line_in l);;; ret (Z.land b 0xff)
  end.

Definition drv_putc (a c : Z) : P Z :=
  rt_assert (negb (a =? RT_NULL));;;
  mod_serial a (fun d => set_line_out (line_out d ++ [u8 c]) d);;; ret 1.

Definition drv_control (a cmd : Z) : P Z :=
  rt_assert (negb (a =? RT_NULL));;;
  (if cmd =? RT_DEVICE_CTRL_CLR_INT then mod_serial a (set_rx_it false)
   else if cmd =? RT_DEVICE_CTRL_SET_INT then mod_serial a (set_rx_it true)
   else ret tt);;;
  ret RT_EOK.

(** ** The receive buffer *)

(** [if (i >= bufsz) i = 0;] *)
Definition wrap_index (n i : Z) : Z := if n <=? i then 0 else i.

(** A byte is stored; [None] outside the array. *)
Definition fifo_store (n ch : Z) (f : rt_serial_rx_fifo) : option rt_serial_rx_fifo :=
  if rx_put f <? blen (buffer f) then
    let b := <[Z.to_nat (rx_put f) := u8 ch]> (buffer f) in
    let p := wrap_index n (u16 (rx_put f + 1)) in
    Some (if p =? rx_get f then RxFifo b p (wrap_index n (u16 (rx_get f + 1))) true else RxFifo b p (rx_get f) (is_full f))
  else None.

(** A byte is taken: the empty buffer, an access outside the array, or the byte and the rest. *)
Definition fifo_take (n : Z) (f : rt_serial_rx_fifo) : option (option (Z * rt_serial_rx_fifo)) :=
  if (rx_get f =? rx_put f) && negb (is_full f) then Some None
  else match buffer f !! Z.to_nat (rx_get f) with
       | Some ch => Some (Some (Z.land ch 0xff, RxFifo (buffer f) (rx_put f) (wrap_index n (u16 (rx_get f + 1))) false))
       | None => None
       end.

Definition fifo_length (n : Z) (f : rt_serial_rx_fifo) : Z :=
  if rx_put f =? rx_get f then if is_full f then n else 0
  else if rx_get f <? rx_put f then rx_put f - rx_get f else n - (rx_get f - rx_put f).

Definition _serial_fifo_calc_recved_len (a : Z) : P Z :=
  d <- serial a;; rt_assert (negb (serial_rx d =? RT_NULL));;; ret (fifo_length (bufsz (config d)) (rx_fifo d)).

(** [rt_dma_recv_update_get_index] and [rt_dma_recv_update_put_index] on the buffer. *)
Definition dma_get (n len : Z) (f : rt_serial_rx_fifo) : rt_serial_rx_fifo :=
  let full := if is_full f && negb (len =? 0) then false else is_full f in
  let g := u16 (rx_get f + len) in
  RxFifo (buffer f) (rx_put f) (if n <=? g then g mod n else g) full.

Definition dma_put (n len : Z) (f : rt_serial_rx_fifo) : rt_serial_rx_fifo :=
  let p := u16 (rx_put f + len) in
  let '(p, full) :=
    if rx_get f <=? rx_put f then
      if n <=? p then (p mod n, if rx_get f <=? p mod n then true else is_full f) else (p, is_full f)
    else if rx_get f <=? p then (if n <=? p then p mod n else p, true) else (p, is_full f) in
  let g := if full : bool then p else rx_get f in
  RxFifo (buffer f) p (wrap_index n g) full.

Definition rt_dma_recv_update_get_index (a len : Z) : P unit :=
  m <- _serial_fifo_calc_recved_len a;; rt_assert (len <=? m);;;
  mod_serial a (fun d => set_rx_fifo (dma_get (bufsz (config d)) len (rx_fifo d)) d).

Definition rt_dma_recv_update_put_index (a len : Z) : P unit :=
  d <- serial a;; rt_assert (negb (serial_rx d =? RT_NULL));;;
  mod_serial a (fun d => set_rx_fifo (dma_put (bufsz (config d)) len (rx_fifo d)) d).

(** ** Receiving and sending *)

(** The parameters: whether [HAL_UART_Init] succeeds, the configuration an argument points to, and the
    functions [rx_indicate] can point to. *)
Section operations.
Context (hal_init : uart_init -> bool) (config_at : Z -> serial_configure) (indicate : Z -> Z -> Z -> P unit).
Context (pool : Z -> list rt_data_item).

Definition drv_configure (a : Z) (cfg : serial_configure) : P Z :=
  rt_assert (negb (a =? RT_NULL));;;
  mod_serial a (set_UartHandle (init_of cfg));;;
  ret (if hal_init (init_of cfg) then RT_EOK else RT_ERROR).

(** Polling: up to [n] bytes, up to the end of a line. *)
Fixpoint poll_rx_loop (n : nat) (a : Z) : P (list Z) :=
  match n with
  | O => ret []
  | S n => ch <- drv_getc a;;
      if ch =? -1 then ret []
      else if ch =? 10 then ret [ch] else l <- poll_rx_loop n a;; ret (ch :: l)
  end.
Definition _serial_poll_rx (a length : Z) : P (Z * list Z) :=
  rt_assert (negb (a =? RT_NULL));;; l <- poll_rx_loop (Z.to_nat length) a;; ret (blen l, l).

(** With a carriage return in front of a line feed in stream mode. *)
Fixpoint _serial_poll_tx (a : Z) (data : list Z) : P unit :=
  match data with
  | [] => ret tt
  | c :: data =>
      d <- dev a;;
      (if (c =? 10) && nz (Z.land (open_flag d) RT_DEVICE_FLAG_STREAM) then _ <- drv_putc a 13;; ret tt else ret tt);;;
      _ <- drv_putc a c;; _serial_poll_tx a data
  end.

(** From the buffer: up to [n] bytes. *)
Fixpoint int_rx_loop (n : nat) (a : Z) : P (list Z) :=
  match n with
  | O => ret []
  | S n =>
      d <- serial a;;
      r <- deref (fun _ => fifo_take (bufsz (config d)) (rx_fifo d));;
      match r with
      | None => ret []
      | Some (ch, f) => mod_serial a (set_rx_fifo f);;; l <- int_rx_loop n a;; ret (ch :: l)
      end
  end.
Definition _serial_int_rx (a length : Z) : P (Z * list Z) :=
  d <- serial a;; rt_assert (negb (serial_rx d =? RT_NULL));;;
  l <- int_rx_loop (Z.to_nat length) a;; ret (blen l, l).

(** [drv_putc] never returns -1: the wait for the completion is not reached. *)
Fixpoint int_tx_loop (a : Z) (data : list Z) : P unit :=
  match data with
  | [] => ret tt
  | c :: data => r <- drv_putc a c;; if r =? -1 then stuck Diverge else int_tx_loop a data
  end.
Definition _serial_int_tx (a : Z) (data : list Z) : P Z :=
  d <- serial a;; rt_assert (negb (serial_tx d =? RT_NULL));;; int_tx_loop a data;;; ret (blen data).

(** Without a buffer the transfer needs [dma_transmit], which the driver of the box does not have. *)
Definition _serial_dma_rx (a length : Z) : P (Z * list Z) :=
  d <- serial a;;
  let n := bufsz (config d) in
  if n =? 0 then
    rt_assert (negb (serial_rx d =? RT_NULL));;;
    if rx_activated d then set_errno (- RT_EBUSY);;; ret (0, [])
    else mod_serial a (set_rx_activated true);;; stuck Assertion
  else
    fifo_recved_len <- _serial_fifo_calc_recved_len a;;
    let recv_len := if length <? fifo_recved_len then length else fifo_recved_len in
    let f := rx_fifo d in
    let bytes := if rx_get f + recv_len <? n then take (Z.to_nat recv_len) (drop (Z.to_nat (rx_get f)) (buffer f))
      else take (Z.to_nat (n - rx_get f)) (drop (Z.to_nat (rx_get f)) (buffer f)) ++
           take (Z.to_nat (recv_len - (n - rx_get f))) (drop (Z.to_nat 0) (buffer f)) in
    rt_dma_recv_update_get_index a recv_len;;;
    ret (recv_len, bytes).

(** ** The functions of the device *)

Definition rt_serial_init (a : Z) : P Z :=
  rt_assert (negb (a =? RT_NULL));;;
  mod_serial a (fun d => set_serial_tx RT_NULL (set_serial_rx RT_NULL d));;;
  d <- serial a;; drv_configure a (config d).

Definition has (flags f : Z) : bool := nz (Z.land flags f).
Definition open_with (a f : Z) : P unit := mod_dev a (fun d => set_open_flag (Z.lor (open_flag d) f) d).

(** [rt_malloc] of the receive structure with [n] bytes behind it. *)
Definition new_fifo (a n : Z) : P unit :=
  p <- kern (kmalloc (12 + n));; rt_assert (negb (p =? RT_NULL));;;
  mod_serial a (fun d => set_serial_rx p (set_rx_fifo (RxFifo (replicate (Z.to_nat n) 0) 0 0 false) d)).

Definition open_rx (a oflag : Z) : P unit :=
  d <- serial a;;
  let n := bufsz (config d) in
  if serial_rx d =? RT_NULL then
    if has oflag RT_DEVICE_FLAG_DMA_RX then
      (if n =? 0 then
         p <- kern (kmalloc 4);; rt_assert (negb (p =? RT_NULL));;;
         mod_serial a (fun d => set_serial_rx p (set_rx_activated false d))
       else new_fifo a n;;; _ <- drv_control a RT_DEVICE_CTRL_CONFIG;; ret tt);;;
      open_with a RT_DEVICE_FLAG_DMA_RX
    else if has oflag RT_DEVICE_FLAG_INT_RX then
      new_fifo a n;;; open_with a RT_DEVICE_FLAG_INT_RX;;; _ <- drv_control a RT_DEVICE_CTRL_SET_INT;; ret tt
    else mod_serial a (set_serial_rx RT_NULL)
  else if has oflag RT_DEVICE_FLAG_DMA_RX then open_with a RT_DEVICE_FLAG_DMA_RX
  else if has oflag RT_DEVICE_FLAG_INT_RX then open_with a RT_DEVICE_FLAG_INT_RX
  else ret tt.

Definition open_tx (a oflag : Z) : P unit :=
  d <- serial a;;
  if serial_tx d =? RT_NULL then
    if has oflag RT_DEVICE_FLAG_DMA_TX then
      p <- kern (kmalloc 36);; rt_assert (negb (p =? RT_NULL));;;
      _ <- dcall (rt_data_queue_init pool (p + 4) 8 4 RT_NULL);;
      mod_serial a (set_serial_tx p);;; open_with a RT_DEVICE_FLAG_DMA_TX
    else if has oflag RT_DEVICE_FLAG_INT_TX then
      p <- kern (kmalloc 12);; rt_assert (negb (p =? RT_NULL));;;
      dcall (rt_completion_init p);;;
      mod_serial a (set_serial_tx p);;; open_with a RT_DEVICE_FLAG_INT_TX;;;
      _ <- drv_control a RT_DEVICE_CTRL_SET_INT;; ret tt
    else mod_serial a (set_serial_tx RT_NULL)
  else if has oflag RT_DEVICE_FLAG_DMA_TX then open_with a RT_DEVICE_FLAG_DMA_TX
  else if has oflag RT_DEVICE_FLAG_INT_TX then open_with a RT_DEVICE_FLAG_INT_TX
  else ret tt.

Definition lacks (oflag flag f : Z) : bool := has oflag f && negb (has flag f).

Definition rt_serial_open (a oflag : Z) : P Z :=
  rt_assert (negb (a =? RT_NULL));;;
  d <- dev a;;
  if lacks oflag (dev_flag d) RT_DEVICE_FLAG_DMA_RX || lacks oflag (dev_flag d) RT_DEVICE_FLAG_DMA_TX ||
     lacks oflag (dev_flag d) RT_DEVICE_FLAG_INT_RX || lacks oflag (dev_flag d) RT_DEVICE_FLAG_INT_TX then ret (- RT_EIO)
  else
    let stream_flag := if has oflag RT_DEVICE_FLAG_STREAM || has (open_flag d) RT_DEVICE_FLAG_STREAM then RT_DEVICE_FLAG_STREAM else 0 in
    mod_dev a (set_open_flag (Z.land oflag 0xff));;;
    open_rx a oflag;;; open_tx a oflag;;;
    open_with a stream_flag;;;
    ret RT_EOK.

Definition close_with (a f : Z) : P unit := mod_dev a (fun d => set_open_flag (Z.land (open_flag d) (u16 (not32 f))) d).

Definition close_rx (a : Z) : P unit :=
  v <- dev a;; d <- serial a;;
  if has (open_flag v) RT_DEVICE_FLAG_INT_RX then
    rt_assert (negb (serial_rx d =? RT_NULL));;;
    kern (kfree (serial_rx d));;; mod_serial a (set_serial_rx RT_NULL);;; close_with a RT_DEVICE_FLAG_INT_RX;;;
    _ <- drv_control a RT_DEVICE_CTRL_CLR_INT;; ret tt
  else if has (open_flag v) RT_DEVICE_FLAG_DMA_RX then
    rt_assert (negb (serial_rx d =? RT_NULL));;;
    kern (kfree (serial_rx d));;; _ <- drv_control a RT_DEVICE_CTRL_CLR_INT;;
    mod_serial a (set_serial_rx RT_NULL);;; close_with a RT_DEVICE_FLAG_DMA_RX
  else ret tt.

Definition close_tx (a : Z) : P unit :=
  v <- dev a;; d <- serial a;;
  if has (open_flag v) RT_DEVICE_FLAG_INT_TX then
    rt_assert (negb (serial_tx d =? RT_NULL));;;
    kern (kfree (serial_tx d));;; mod_serial a (set_serial_tx RT_NULL);;; close_with a RT_DEVICE_FLAG_INT_TX;;;
    _ <- drv_control a RT_DEVICE_CTRL_CLR_INT;; ret tt
  else if has (open_flag v) RT_DEVICE_FLAG_DMA_TX then
    rt_assert (negb (serial_tx d =? RT_NULL));;;
    kern (kfree (serial_tx d));;; mod_serial a (set_serial_tx RT_NULL);;; close_with a RT_DEVICE_FLAG_DMA_TX
  else ret tt.

Definition rt_serial_close (a : Z) : P Z :=
  rt_assert (negb (a =? RT_NULL));;;
  v <- dev a;;
  if 1 <? ref_count v then ret RT_EOK else close_rx a;;; close_tx a;;; ret RT_EOK.

Definition rt_serial_read (a pos size : Z) : P (Z * list Z) :=
  rt_assert (negb (a =? RT_NULL));;;
  if size =? 0 then ret (0, [])
  else
    v <- dev a;;
    if has (open_flag v) RT_DEVICE_FLAG_INT_RX then _serial_int_rx a size
    else if has (open_flag v) RT_DEVICE_FLAG_DMA_RX then _serial_dma_rx a size
    else _serial_poll_rx a size.

(** A DMA transfer calls [dma_transmit], which is RT_NULL in [drv_uart_ops]. *)
Definition rt_serial_write (a pos : Z) (data : list Z) : P Z :=
  rt_assert (negb (a =? RT_NULL));;;
  if blen data =? 0 then ret 0
  else
    v <- dev a;;
    if has (open_flag v) RT_DEVICE_FLAG_INT_TX then _serial_int_tx a data
    else if has (open_flag v) RT_DEVICE_FLAG_DMA_TX then stuck Undefined
    else _serial_poll_tx a data;;; ret (blen data).

(** [_IOR('f', 127, int)] as a value of type int. *)
Definition FIONREAD : Z := s32 0x8004667f.

Definition rt_serial_control (a cmd args : Z) : P Z :=
  rt_assert (negb (a =? RT_NULL));;;
  if cmd =? RT_DEVICE_CTRL_SUSPEND then
    mod_dev a (fun d => set_dev_flag (Z.lor (dev_flag d) RT_DEVICE_FLAG_SUSPENDED) d);;; ret RT_EOK
  else if cmd =? RT_DEVICE_CTRL_RESUME then
    mod_dev a (fun d => set_dev_flag (Z.land (dev_flag d) (u16 (not32 RT_DEVICE_FLAG_SUSPENDED))) d);;; ret RT_EOK
  else if cmd =? RT_DEVICE_CTRL_CONFIG then
    if args =? RT_NULL then ret RT_EOK
    else
      d <- serial a;; v <- dev a;;
      let pconfig := config_at args in
      if negb (bufsz pconfig =? bufsz (config d)) && nz (ref_count v) then ret RT_EBUSY
      else
        mod_serial a (set_config pconfig);;;
        when (nz (ref_count v)) (_ <- drv_configure a pconfig;; ret tt);;;
        ret RT_EOK
  else if cmd =? FIONREAD then
    recved <- _serial_fifo_calc_recved_len a;; modify (put_arg args recved);;; ret RT_EOK
  else drv_control a cmd.

(** The functions of a serial device. *)
Definition serial_ops : device_ops (ports R) :=
  DeviceOps (Some rt_serial_init) (Some rt_serial_open) (Some rt_serial_close)
    (Some rt_serial_read) (Some rt_serial_write) (Some rt_serial_control).

Definition RT_Device_Class_Char : Z := 0.
Definition serial_fops_addr : Z := 0x8c00.

Definition rt_hw_serial_register (driver_id a : Z) (name : list Z) (flag : Z) : P Z :=
  rt_assert (negb (a =? RT_NULL));;;
  mod_dev a (fun d => Device RT_Device_Class_Char (dev_flag d) (open_flag d) (ref_count d) RT_NULL RT_NULL driver_id (fops d) (wq_flag d));;;
  r <- rt_device_register a name flag;;
  mod_dev a (fun d => Device (dev_type d) (dev_flag d) (open_flag d) (ref_count d) (rx_indicate d) (tx_complete d) (dev_driver d) serial_fops_addr (wq_flag d));;;
  ret r.

(** ** Interrupts *)

(** The loop of the receive interrupt. *)
Fixpoint isr_rx_loop (fuel : nat) (a : Z) : P unit :=
  match fuel with
  | O => stuck Diverge
  | S fuel =>
      ch <- drv_getc a;;
      if ch =? -1 then ret tt
      else
        d <- serial a;;
        f <- deref (fun _ => fifo_store (bufsz (config d)) ch (rx_fifo d));;
        mod_serial a (set_rx_fifo f);;;
        isr_rx_loop fuel a
  end.

(** [if (serial->parent.rx_indicate != RT_NULL) rx_indicate(&serial->parent, length);] *)
Definition call_indicate (a length : Z) : P unit :=
  v <- dev a;; when (negb (rx_indicate v =? RT_NULL)) (indicate (rx_indicate v) a length).

Definition isr_rx (a : Z) : P unit :=
  d <- serial a;; rt_assert (negb (serial_rx d =? RT_NULL));;;
  isr_rx_loop (S (List.length (line_in d))) a;;;
  d <- serial a;;
  let f := rx_fifo d in
  call_indicate a (if rx_get f <=? rx_put f then rx_put f - rx_get f else bufsz (config d) - (rx_get f - rx_put f)).

Definition isr_rx_dma (a length : Z) : P unit :=
  d <- serial a;;
  if bufsz (config d) =? 0 then
    rt_assert (negb (serial_rx d =? RT_NULL));;;
    v <- dev a;; rt_assert (negb (rx_indicate v =? RT_NULL));;;
    indicate (rx_indicate v) a length;;; mod_serial a (set_rx_activated false)
  else
    rt_dma_recv_update_put_index a length;;;
    length <- _serial_fifo_calc_recved_len a;; call_indicate a length.

(** The end of a DMA transfer that sends is not modelled: there is none without [dma_transmit]. *)
Definition rt_hw_serial_isr (a event : Z) : P unit :=
  let e := Z.land event 0xff in
  if e =? RT_SERIAL_EVENT_RX_IND then isr_rx a
  else if e =? RT_SERIAL_EVENT_TX_DONE then d <- serial a;; dcall (rt_completion_done (serial_tx d))
  else if e =? RT_SERIAL_EVENT_RX_DMADONE then isr_rx_dma a (Z.shiftr event 8)
  else if e =? 4 then stuck Undefined
  else ret tt.

(** [late] arrives between the end of the loop and the instruction that clears the flag of the receiver. *)
Definition USART_IRQHandler (a : Z) (late : list Z) : P unit :=
  kern rt_interrupt_enter;;;
  d <- serial a;;
  when (match line_in d with [] => false | _ => rx_it d end)
    (rt_hw_serial_isr a RT_SERIAL_EVENT_RX_IND;;;
     mod_serial a (fun d => set_line_in (line_in d ++ late) d);;;
     mod_serial a (set_line_in []));;;
  kern rt_interrupt_leave.

(** *** The ports of the box *)

Definition usart_flags : Z := Z.lor 0x003 (Z.lor RT_DEVICE_FLAG_INT_RX RT_DEVICE_FLAG_DMA_RX).

Definition usart_register (driver_id a : Z) (name : list Z) : P unit :=
  mod_serial a (set_config serial_config_default);;;
  _ <- rt_hw_serial_register driver_id a name usart_flags;; ret tt.
Definition hw_usart_init (driver_id serial1 serial2 serial6 : Z) : P Z :=
  usart_register driver_id serial1 (chars_of "uart1");;;
  usart_register driver_id serial2 (chars_of "uart2");;;
  usart_register driver_id serial6 (chars_of "uart6");;;
  ret 0.
End operations.
End serial.

(** ** The buffer as a queue *)

(** In interrupt mode the buffer of [n] bytes holds the bytes [q], fewer than [n]. *)
Record fifo_rep (n : Z) (f : rt_serial_rx_fifo) (q : list Z) : Prop := FifoRep {
  fr_size : 2 <= n < 2 ^ 16;
  fr_len : blen (buffer f) = n;
  fr_circ : circ (buffer f) (rx_get f) q;
  fr_put : rx_put f = (rx_get f + blen q) mod n;
  fr_room : blen q < n;
  fr_full : is_full f = true -> blen q = n - 1;
  fr_bytes : Forall (fun b => 0 <= b < 256) q
}.

Lemma wrap_index_mod n i : 2 <= n < 2 ^ 16 -> 0 <= i < n -> wrap_index n (u16 (i + 1)) = (i + 1) mod n.
Proof.
  intros Hn Hi. unfold u16. rewrite (Z.mod_small (i + 1)) by lia. unfold wrap_index. destruct (Z.leb_spec n (i + 1)).
  - replace (i + 1) with n by lia. by rewrite Z.mod_same by lia.
  - by rewrite Z.mod_small by lia.
Qed.

Lemma store_rep n f q ch : fifo_rep n f q -> 0 <= ch < 256 ->
  exists f', fifo_store n ch f = Some f' /\ fifo_rep n f' (lastn (Z.to_nat (n - 1)) (q ++ [ch])).
Proof.
  intros [Hn Hl Hc Hp Hr Hf Hb] Hch. pose proof Hc as (Hg & _ & _). rewrite Hl in Hg.
  assert (Hpr : 0 <= rx_put f < n) by (rewrite Hp; apply Z.mod_pos_bound; lia).
  unfold fifo_store. rewrite Hl. destruct (Z.ltb_spec (rx_put f) n); [|lia]. eexists. split; [done|].
  rewrite !wrap_index_mod by lia. assert (Hu : u8 ch = ch) by (apply Z.mod_small; lia). rewrite Hu.
  pose proof (circ_push _ _ _ ch Hc ltac:(unfold blen in *; lia)) as Hc'. change (Z.of_nat (length q)) with (blen q) in Hc'.
  rewrite Hl, <- Hp in Hc'. set (b := <[Z.to_nat (rx_put f) := ch]> (buffer f)) in *.
  assert (Hlb : blen b = n) by (unfold blen, b in *; by rewrite length_insert).
  assert (Hb' : Forall (fun b => 0 <= b < 256) (q ++ [ch])) by (apply Forall_app; by rewrite Forall_singleton).
  assert (Ep : (rx_put f + 1) mod n = (rx_get f + (blen q + 1)) mod n) by (rewrite Hp, Zplus_mod_idemp_l; f_equal; lia).
  destruct (Z.eqb_spec ((rx_put f + 1) mod n) (rx_get f)) as [E|E].
  - assert (Hq : blen q = n - 1).
    { destruct (Z.eq_dec (blen q + 1) n); [lia|]. exfalso. rewrite Ep in E. assert (blen q + 1 = 0); [|unfold blen in *; lia].
      apply (circ_index_inj n (rx_get f)); [done|unfold blen in *; lia|lia|]. by rewrite Z.add_0_r, (Z.mod_small (rx_get f)). }
    assert (El : lastn (Z.to_nat (n - 1)) (q ++ [ch]) = drop 1 (q ++ [ch])).
    { unfold lastn. rewrite length_app. cbn [length]. f_equal. unfold blen in *. lia. }
    rewrite El. assert (Hd : blen (drop 1 (q ++ [ch])) = n - 1) by (unfold blen in *; rewrite length_drop, length_app; cbn; lia).
    split; cbn [buffer rx_put rx_get is_full]; try done; try lia.
    + pose proof (circ_drop _ _ _ 1 Hc' ltac:(rewrite length_app; cbn; lia)) as H1. by rewrite Hlb in H1.
    + rewrite Hd, Ep, Zplus_mod_idemp_l. rewrite Hq. f_equal. lia.
    + by apply Forall_drop.
  - assert (Hq : blen q + 1 < n).
    { destruct (Z.eq_dec (blen q + 1) n) as [E'|]; [|lia]. exfalso. apply E. rewrite Ep, E'.
      replace (rx_get f + n) with (rx_get f + 1 * n) by lia. by rewrite Z_mod_plus_full, Z.mod_small. }
    rewrite lastn_all by (unfold blen in *; rewrite length_app; cbn; lia).
    assert (Hd : blen (q ++ [ch]) = blen q + 1) by (rewrite blen_app; done).
    split; cbn [buffer rx_put rx_get is_full]; try done; rewrite ?Hd; try done; try lia.
    intros Hff. specialize (Hf Hff). lia.
Qed.

Lemma land_byte b : 0 <= b < 256 -> Z.land b 0xff = b.
Proof. intros Hb. change 255 with (Z.ones 8). rewrite Z.land_ones by lia. apply Z.mod_small. cbn. lia. Qed.

Lemma take_rep n f q : fifo_rep n f q ->
  match q with
  | [] => fifo_take n f = Some None
  | b :: q' => exists f', fifo_take n f = Some (Some (b, f')) /\ fifo_rep n f' q'
  end.
Proof.
  intros [Hn Hl Hc Hp Hr Hf Hb]. pose proof Hc as (Hg & _ & _). rewrite Hl in Hg. unfold fifo_take. destruct q as [|b q].
  - rewrite Hp. change (blen (A := Z) []) with 0. rewrite Z.add_0_r, Z.mod_small, Z.eqb_refl by lia.
    destruct (is_full f) eqn:E; [|done]. specialize (Hf eq_refl). change (blen (A := Z) []) with 0 in Hf. lia.
  - apply circ_pop in Hc as [Hx Hc']. assert (Hbl : blen (b :: q) = blen q + 1) by (unfold blen; cbn [length]; lia).
    assert (Hne : rx_get f <> rx_put f).
    { rewrite Hp. intros E. assert (0 = blen (b :: q)); [|unfold blen in *; lia].
      apply (circ_index_inj n (rx_get f)); [done|lia|unfold blen in *; lia|]. by rewrite Z.add_0_r, (Z.mod_small (rx_get f)). }
    destruct (Z.eqb_spec (rx_get f) (rx_put f)); [done|]. cbn [andb]. rewrite Hx.
    apply Forall_cons in Hb as [Hb0 Hb]. rewrite (land_byte b Hb0).
    eexists. split; [done|]. rewrite wrap_index_mod by lia. rewrite Hl in Hc'.
    split; cbn [buffer rx_put rx_get is_full]; try done; try lia.
    rewrite Hp, Zplus_mod_idemp_l, Hbl. f_equal. lia.
Qed.

Lemma length_rep n f q : fifo_rep n f q ->
  (if rx_get f <=? rx_put f then rx_put f - rx_get f else n - (rx_get f - rx_put f)) = blen q /\ fifo_length n f = blen q.
Proof.
  intros [Hn Hl Hc Hp Hr Hf _]. destruct Hc as (Hg & _ & _). rewrite Hl in Hg.
  assert (E : rx_put f = rx_get f + blen q \/ rx_put f = rx_get f + blen q - n /\ n <= rx_get f + blen q).
  { rewrite Hp. destruct (Z.lt_ge_cases (rx_get f + blen q) n); [left; apply Z.mod_small; unfold blen in *; lia|right].
    split; [|done]. symmetry. apply (Z.mod_unique _ _ 1); lia. }
  unfold fifo_length. destruct (Z.leb_spec (rx_get f) (rx_put f)), (Z.eqb_spec (rx_put f) (rx_get f)), (Z.ltb_spec (rx_get f) (rx_put f));
    destruct (is_full f); try specialize (Hf eq_refl); unfold blen in *; lia.
Qed.

(** ** A port *)

Section port.
Context {R : Type}.
Implicit Types s : devices (ports R).

(** The device [a] is open in interrupt mode, and its buffer holds [q]. *)
Record port_at s (a : Z) (v : rt_device) (d : rt_serial_device) (q : list Z) : Prop := PortAt {
  pa_dev : dev_at s a v;
  pa_open : ref_count v <> 0;
  pa_mode : has (open_flag v) RT_DEVICE_FLAG_INT_RX = true;
  pa_ser : p_serial (v_world s) !! a = Some d;
  pa_rx : serial_rx d <> RT_NULL;
  pa_it : rx_it d = true;
  pa_fifo : fifo_rep (bufsz (config d)) (rx_fifo d) q
}.

Lemma serial_done s a d : p_serial (v_world s) !! a = Some d -> serial a s = Done d s.
Proof. intros. by apply deref_some. Qed.

Lemma mod_serial_done s a d f : p_serial (v_world s) !! a = Some d -> mod_serial a f s = Done tt (put_serial a (f d) s).
Proof. intros H. unfold mod_serial. by rewrite (after (serial_done _ _ _ H)). Qed.

Lemma put_serial_lookup s a d : p_serial (v_world (put_serial a d s)) !! a = Some d.
Proof. cbn. apply lookup_insert_eq. Qed.

Lemma put_serial_twice s a d d' : put_serial a d' (put_serial a d s) = put_serial a d' s.
Proof. unfold put_serial. cbn. by rewrite insert_insert_eq. Qed.

Lemma put_serial_same s a d : p_serial (v_world s) !! a = Some d -> put_serial a d s = s.
Proof. intros H. destruct s as [k dv e c lb l h [w1 w2 w3 w4 w5 w6]]. unfold put_serial. cbn in *. by rewrite insert_id. Qed.

(** Reading from the buffer. *)
Lemma int_rx_done n : forall s a d q,
  p_serial (v_world s) !! a = Some d -> fifo_rep (bufsz (config d)) (rx_fifo d) q ->
  exists f, int_rx_loop n a s = Done (take n q) (put_serial a (set_rx_fifo f d) s) /\ fifo_rep (bufsz (config d)) f (drop n q).
Proof.
  induction n as [|n IH]; intros s a d q Hd Hq; cbn [int_rx_loop].
  { exists (rx_fifo d). split; [|by rewrite drop_0]. rewrite put_serial_same; [done|]. rewrite Hd. by destruct d. }
  rewrite (after (serial_done _ _ _ Hd)). pose proof (take_rep _ _ _ Hq) as Ht. destruct q as [|b q].
  - exists (rx_fifo d). erewrite bind_done by (apply deref_some; exact Ht). split; [|done].
    rewrite put_serial_same; [done|]. rewrite Hd. by destruct d.
  - destruct Ht as (f & Ef & Hf). erewrite bind_done by (apply deref_some; exact Ef). cbv beta iota. rewrite (after (mod_serial_done _ _ _ _ Hd)).
    destruct (IH (put_serial a (set_rx_fifo f d) s) a (set_rx_fifo f d) q) as (f' & E & Hf'); [apply put_serial_lookup|done|].
    exists f'. rewrite (after E). cbn [take drop]. rewrite put_serial_twice. by split.
Qed.

(** The loop of the receive interrupt stores every byte that has arrived. *)
Lemma isr_rx_done bs : forall s a d q,
  a <> RT_NULL -> p_serial (v_world s) !! a = Some d -> fifo_rep (bufsz (config d)) (rx_fifo d) q ->
  line_in d = bs -> Forall (fun b => 0 <= b < 256) bs ->
  exists f, isr_rx_loop (S (length bs)) a s = Done tt (put_serial a (set_line_in [] (set_rx_fifo f d)) s) /\
    fifo_rep (bufsz (config d)) f (lastn (Z.to_nat (bufsz (config d) - 1)) (q ++ bs)).
Proof.
  induction bs as [|b bs IH]; intros s a d q Ha Hd Hq Hl Hb; cbn [length].
  - exists (rx_fifo d). unfold isr_rx_loop, drv_getc. rewrite (proj2 (Z.eqb_neq _ _) Ha). cbn [negb rt_assert].
    rewrite bind_assoc. mstep. rewrite bind_assoc, (after (serial_done _ _ _ Hd)), Hl. mstep. split.
    + rewrite put_serial_same; [done|]. rewrite Hd. destruct d. cbn in Hl. by rewrite Hl.
    + rewrite app_nil_r, lastn_all; [done|]. pose proof (fr_room _ _ _ Hq). unfold blen in *. lia.
  - apply Forall_cons in Hb as [Hb0 Hb]. remember (S (length bs)) as n eqn:En. cbn [isr_rx_loop].
    assert (E0 : drv_getc a s = Done b (put_serial a (set_line_in bs d) s)).
    { unfold drv_getc. rewrite (proj2 (Z.eqb_neq _ _) Ha). cbn [negb rt_assert]. mstep. rewrite (after (serial_done _ _ _ Hd)), Hl.
      rewrite (after (mod_serial_done _ _ _ _ Hd)). by rewrite (land_byte b Hb0). }
    rewrite (after E0). destruct (Z.eqb_spec b (-1)); [lia|]. rewrite (after (serial_done _ _ _ (put_serial_lookup _ _ _))).
    destruct (store_rep _ _ _ _ Hq Hb0) as (f & Ef & Hf). erewrite bind_done by (apply deref_some; exact Ef).
    rewrite (after (mod_serial_done _ _ _ _ (put_serial_lookup _ _ _))), put_serial_twice. subst n.
    destruct (IH (put_serial a (set_rx_fifo f (set_line_in bs d)) s) a (set_rx_fifo f (set_line_in bs d)) _
      Ha (put_serial_lookup _ _ _) Hf eq_refl Hb) as (f' & E & Hf').
    exists f'. rewrite E, put_serial_twice. split; [done|]. by rewrite lastn_app, <- app_assoc in Hf'.
Qed.

(** A port after a change of its serial device. *)
Lemma port_at_put s a v d q d' q' :
  port_at s a v d q -> serial_rx d' = serial_rx d -> rx_it d' = rx_it d -> config d' = config d ->
  fifo_rep (bufsz (config d)) (rx_fifo d') q' -> port_at (put_serial a d' s) a v d' q'.
Proof.
  intros [HD Ho Hm Hs Hx Hi Hq] E1 E2 E3 Hq'. split; try done.
  - destruct HD as [? ? ? ?]. by split.
  - apply put_serial_lookup.
  - by rewrite E1.
  - by rewrite E2.
  - by rewrite E3.
Qed.

Section functions.
Context (hal_init : uart_init -> bool) (config_at : Z -> serial_configure) (indicate : Z -> Z -> Z -> M (devices (ports R)) unit).
Context (pool : Z -> list rt_data_item) (ops : Z -> device_ops (ports R)).

(** [rt_device_read] takes the first bytes out of the buffer. *)
Lemma device_read_done s a v d q pos n :
  port_at s a v d q -> ops (dev_driver v) = serial_ops hal_init config_at pool -> 0 <= n ->
  exists f, rt_device_read ops a pos n s = Done (blen (take (Z.to_nat n) q), take (Z.to_nat n) q) (put_serial a (set_rx_fifo f d) s) /\
    fifo_rep (bufsz (config d)) f (drop (Z.to_nat n) q).
Proof.
  intros [HD Ho Hm Hs Hx Hi Hq] Hops Hn. pose proof HD as [Ha Hv _ _]. unfold rt_device_read.
  rewrite (after (dev_check_done _ _ _ HD)), (after (dev_done _ _ _ Hv)), (proj2 (Z.eqb_neq _ _) Ho).
  rewrite (after (driver_done ops _ _ _ Hv)), Hops. cbn [read serial_ops]. unfold rt_serial_read.
  rewrite (proj2 (Z.eqb_neq _ _) Ha). cbn [negb rt_assert]. mstep. destruct (Z.eqb_spec n 0) as [->|Hn0].
  - exists (rx_fifo d). rewrite put_serial_same by (rewrite Hs; by destruct d). by rewrite drop_0.
  - rewrite (after (dev_done _ _ _ Hv)), Hm. unfold _serial_int_rx. rewrite (after (serial_done _ _ _ Hs)), (proj2 (Z.eqb_neq _ _) Hx).
    cbn [negb rt_assert]. mstep. destruct (int_rx_done (Z.to_nat n) s a d q Hs Hq) as (f & E & Hf). exists f. by rewrite (after E).
Qed.

(** The receive interrupt stores the bytes and reports how many there are. *)
Lemma isr_done s a v d q :
  port_at s a v d q -> Forall (fun b => 0 <= b < 256) (line_in d) ->
  let q' := lastn (Z.to_nat (bufsz (config d) - 1)) (q ++ line_in d) in
  exists f, fifo_rep (bufsz (config d)) f q' /\
    rt_hw_serial_isr indicate a RT_SERIAL_EVENT_RX_IND s
    = call_indicate indicate a (blen q') (put_serial a (set_line_in [] (set_rx_fifo f d)) s).
Proof.
  intros [HD Ho Hm Hs Hx Hi Hq] Hb q'. pose proof HD as [Ha Hv _ _].
  destruct (isr_rx_done (line_in d) s a d q Ha Hs Hq eq_refl Hb) as (f & E & Hf). exists f. split; [done|].
  change (rt_hw_serial_isr indicate a RT_SERIAL_EVENT_RX_IND s) with (isr_rx indicate a s). unfold isr_rx.
  rewrite (after (serial_done _ _ _ Hs)), (proj2 (Z.eqb_neq _ _) Hx). cbn [negb rt_assert]. mstep. rewrite (after E).
  rewrite (after (serial_done _ _ _ (put_serial_lookup _ _ _))). cbn [rx_fifo config set_line_in set_rx_fifo].
  by rewrite (proj1 (length_rep _ _ _ Hf)).
Qed.

Definition in_irq s : devices (ports R) := put_kernel (upd_irq (fun n => u8 (n + 1)) (v_k s)) s.
Definition out_irq s : devices (ports R) := put_kernel (upd_irq (fun n => u8 (n - 1)) (v_k s)) s.

Lemma out_in_irq s a d : 0 <= k_irq (v_k s) < 2 ^ 8 -> out_irq (put_serial a d (in_irq s)) = put_serial a d s.
Proof.
  intros Hi. destruct s as [[] ? ? ? ? ? ? ?]. unfold out_irq, in_irq, put_serial, put_kernel, upd_irq. cbn in *. do 2 f_equal.
  unfold u8. rewrite Zminus_mod_idemp_l. rewrite Z.mod_small; lia.
Qed.

Lemma in_irq_port s a v d q : port_at s a v d q -> port_at (in_irq s) a v d q.
Proof. intros [HD Ho Hm Hs Hx Hi Hq]. split; try done. destruct HD as [? ? ? ?]. by split. Qed.

(** The interrupt of a port at which bytes have arrived; [s'] is the state the callback leaves. *)
Lemma irq_done s a v d q late :
  port_at s a v d q -> line_in d <> [] -> Forall (fun b => 0 <= b < 256) (line_in d) ->
  let q' := lastn (Z.to_nat (bufsz (config d) - 1)) (q ++ line_in d) in
  exists f, fifo_rep (bufsz (config d)) f q' /\ forall s' d',
    call_indicate indicate a (blen q') (put_serial a (set_line_in [] (set_rx_fifo f d)) (in_irq s)) = Done tt s' ->
    p_serial (v_world s') !! a = Some d' ->
    USART_IRQHandler indicate a late s = Done tt (out_irq (put_serial a (set_line_in [] d') s')).
Proof.
  intros HP Hl Hb q'. destruct (isr_done _ _ _ _ _ (in_irq_port _ _ _ _ _ HP) Hb) as (f & Hf & E). exists f. split; [done|].
  intros s' d' Ec Hd'. pose proof (eq_trans E Ec) as E'. pose proof (in_irq_port _ _ _ _ _ HP) as [_ _ _ Hs _ Hi _].
  unfold USART_IRQHandler. change ((kern rt_interrupt_enter) s) with (Done tt (in_irq s)).
  rewrite (bind_done (kern rt_interrupt_enter) _ s tt (in_irq s) eq_refl), (after (serial_done _ _ _ Hs)), Hi.
  destruct (line_in d) as [|b0 l0]; [done|]. cbn [when]. rewrite bind_assoc, (after E'), bind_assoc.
  rewrite (after (mod_serial_done _ _ _ _ Hd')), (after (mod_serial_done _ _ _ _ (put_serial_lookup _ _ _))), put_serial_twice.
  by destruct d'.
Qed.

(** Without a callback. *)
Lemma irq_quiet s a v d q late :
  port_at s a v d q -> rx_indicate v = RT_NULL -> 0 <= k_irq (v_k s) < 2 ^ 8 -> line_in d <> [] -> Forall (fun b => 0 <= b < 256) (line_in d) ->
  exists f, fifo_rep (bufsz (config d)) f (lastn (Z.to_nat (bufsz (config d) - 1)) (q ++ line_in d)) /\
    USART_IRQHandler indicate a late s = Done tt (put_serial a (set_line_in [] (set_rx_fifo f d)) s).
Proof.
  intros HP Hn Hi Hne Hb. destruct (irq_done s a v d q late HP Hne Hb) as (f & Hf & E). exists f. split; [done|].
  rewrite (E (put_serial a (set_line_in [] (set_rx_fifo f d)) (in_irq s)) (set_line_in [] (set_rx_fifo f d))).
  - rewrite put_serial_twice, out_in_irq by done. by destruct d.
  - unfold call_indicate. erewrite bind_done by (apply dev_done; exact (dv_val _ _ _ (pa_dev _ _ _ _ _ HP))). by rewrite Hn.
  - apply put_serial_lookup.
Qed.

(** ** Receiving *)

(** What happens to a port: bytes arrive, which is an interrupt, or a thread reads. *)
Inductive port_op := Arrive (bytes : list Z) | Take (size : Z).
Definition op_ok (o : port_op) : Prop :=
  match o with Arrive bs => bs <> [] /\ Forall (fun b => 0 <= b < 256) bs | Take n => 0 <= n end.

Definition arrive (a : Z) (bs : list Z) : M (devices (ports R)) unit :=
  mod_serial a (fun d => set_line_in (line_in d ++ bs) d);;; USART_IRQHandler indicate a [].

(** The bytes of each read. *)
Fixpoint run_port (a : Z) (l : list port_op) : M (devices (ports R)) (list (list Z)) :=
  match l with
  | [] => ret []
  | Arrive bs :: l => arrive a bs;;; run_port a l
  | Take n :: l => r <- rt_device_read ops a 0 n;; rs <- run_port a l;; ret (snd r :: rs)
  end.

(** A queue that keeps the last [cap] bytes. *)
Fixpoint run_queue (cap : nat) (l : list port_op) (q : list Z) : list (list Z) :=
  match l with
  | [] => []
  | Arrive bs :: l => run_queue cap l (lastn cap (q ++ bs))
  | Take n :: l => take (Z.to_nat n) q :: run_queue cap l (drop (Z.to_nat n) q)
  end.

Lemma arrive_done s a v d q bs :
  port_at s a v d q -> rx_indicate v = RT_NULL -> 0 <= k_irq (v_k s) < 2 ^ 8 -> line_in d = [] -> op_ok (Arrive bs) ->
  exists f, arrive a bs s = Done tt (put_serial a (set_rx_fifo f d) s) /\
    fifo_rep (bufsz (config d)) f (lastn (Z.to_nat (bufsz (config d) - 1)) (q ++ bs)).
Proof.
  intros HP Hn Hi Hl [Hne Hb]. unfold arrive. rewrite (after (mod_serial_done _ _ _ _ (pa_ser _ _ _ _ _ HP))), Hl. cbn [app].
  pose proof (port_at_put _ _ _ _ _ (set_line_in bs d) q HP eq_refl eq_refl eq_refl (pa_fifo _ _ _ _ _ HP)) as HP1.
  set (d1 := set_line_in bs d) in *. set (s1 := put_serial a d1 s) in *.
  destruct (irq_quiet s1 a v d1 q [] HP1 Hn Hi Hne Hb) as (f & Hf & E).
  exists f. rewrite E. split; [|done]. unfold s1. rewrite put_serial_twice.
  do 2 f_equal. destruct d. cbn in Hl. by rewrite Hl.
Qed.

Lemma run_port_done l : forall s a v d q,
  port_at s a v d q -> ops (dev_driver v) = serial_ops hal_init config_at pool -> rx_indicate v = RT_NULL ->
  0 <= k_irq (v_k s) < 2 ^ 8 -> line_in d = [] -> Forall op_ok l ->
  exists s', run_port a l s = Done (run_queue (Z.to_nat (bufsz (config d) - 1)) l q) s'.
Proof.
  induction l as [|[bs|n] l IH]; intros s a v d q HP Hops Hn Hi Hl Hok; cbn [run_port run_queue]; [by eexists| |];
    apply Forall_cons in Hok as [Ho Hok].
  - destruct (arrive_done s a v d q bs HP Hn Hi Hl Ho) as (f & E & Hf). rewrite (after E).
    by eapply (IH _ a v (set_rx_fifo f d)); [eapply port_at_put; done|..].
  - destruct (device_read_done s a v d q 0 n HP Hops Ho) as (f & E & Hf). rewrite (after E).
    destruct (IH (put_serial a (set_rx_fifo f d) s) a v (set_rx_fifo f d) (drop (Z.to_nat n) q)) as (s' & E'); try done.
    { by eapply port_at_put. }
    exists s'. by rewrite (after E').
Qed.


(** A byte that arrives after the loop of the receive interrupt has found the receiver empty, and before the
    handler clears the flag of the receiver, is lost: it is neither in the buffer nor at the port. *)
Theorem usart_late_byte_lost s a v d q bs late :
  port_at s a v d q -> rx_indicate v = RT_NULL -> 0 <= k_irq (v_k s) < 2 ^ 8 ->
  line_in d = bs -> bs <> [] -> Forall (fun b => 0 <= b < 256) bs ->
  exists s' f, USART_IRQHandler indicate a late s = Done tt s' /\
    port_at s' a v (set_line_in [] (set_rx_fifo f d)) (lastn (Z.to_nat (bufsz (config d) - 1)) (q ++ bs)).
Proof.
  intros HP Hn Hi <- Hne Hb.
  destruct (irq_quiet s a v d q late HP Hn Hi Hne Hb) as (f & Hf & E).
  eexists _, f. split; [exact E|]. by eapply port_at_put.
Qed.

(** ** Sending *)

(** The bytes on the line for a text. *)
Fixpoint crlf (stream : bool) (l : list Z) : list Z :=
  match l with [] => [] | c :: l => (if (c =? 10) && stream then [13; c] else [c]) ++ crlf stream l end.

Lemma putc_done s a d c : a <> RT_NULL -> p_serial (v_world s) !! a = Some d ->
  drv_putc a c s = Done 1 (put_serial a (set_line_out (line_out d ++ [u8 c]) d) s).
Proof.
  intros Ha Hd. unfold drv_putc. rewrite (proj2 (Z.eqb_neq _ _) Ha). cbn [negb rt_assert]. mstep. by rewrite (after (mod_serial_done _ _ _ _ Hd)).
Qed.

Lemma poll_tx_done l : forall s a v d, a <> RT_NULL -> v_dev s !! a = Some v -> p_serial (v_world s) !! a = Some d ->
  Forall (fun b => 0 <= b < 256) l ->
  _serial_poll_tx a l s = Done tt (put_serial a (set_line_out (line_out d ++ crlf (has (open_flag v) RT_DEVICE_FLAG_STREAM) l) d) s).
Proof.
  induction l as [|c l IH]; intros s a v d Ha Hv Hd Hb; cbn [_serial_poll_tx crlf].
  { rewrite app_nil_r, put_serial_same; [done|]. rewrite Hd. by destruct d. }
  apply Forall_cons in Hb as [Hc Hb]. rewrite (after (dev_done _ _ _ Hv)).
  fold (has (open_flag v) RT_DEVICE_FLAG_STREAM). destruct ((c =? 10) && has (open_flag v) RT_DEVICE_FLAG_STREAM).
  - rewrite bind_assoc, (after (putc_done _ _ _ 13 Ha Hd)). mstep. rewrite (after (putc_done _ _ _ c Ha (put_serial_lookup _ _ _))), put_serial_twice.
    rewrite (IH (put_serial a _ s) a v _ Ha Hv (put_serial_lookup _ _ _) Hb), put_serial_twice. do 2 f_equal. cbn. unfold u8. rewrite (Z.mod_small c) by lia.
    rewrite <- !app_assoc. by destruct d.
  - mstep. rewrite (after (putc_done _ _ _ c Ha Hd)), (IH (put_serial a _ s) a v _ Ha Hv (put_serial_lookup _ _ _) Hb), put_serial_twice.
    do 2 f_equal. cbn. unfold u8. rewrite (Z.mod_small c) by lia. rewrite <- !app_assoc. by destruct d.
Qed.

(** A write to a serial device that is open without interrupt or DMA for sending puts the bytes on the line in their
    order, with a carriage return in front of every line feed when the device is in stream mode, and reports them all. *)
Theorem rt_serial_write_line s a v d pos data :
  dev_at s a v -> ref_count v <> 0 -> p_serial (v_world s) !! a = Some d ->
  ops (dev_driver v) = serial_ops hal_init config_at pool ->
  has (open_flag v) RT_DEVICE_FLAG_INT_TX = false -> has (open_flag v) RT_DEVICE_FLAG_DMA_TX = false ->
  Forall (fun b => 0 <= b < 256) data ->
  rt_device_write ops a pos data s = Done (blen data)
    (put_serial a (set_line_out (line_out d ++ crlf (has (open_flag v) RT_DEVICE_FLAG_STREAM) data) d) s).
Proof.
  intros HD Ho Hs Hops H1 H2 Hb. pose proof HD as [Ha Hv _ _]. unfold rt_device_write.
  rewrite (after (dev_check_done _ _ _ HD)), (after (dev_done _ _ _ Hv)), (proj2 (Z.eqb_neq _ _) Ho).
  rewrite (after (driver_done ops _ _ _ Hv)), Hops. cbn [write serial_ops]. unfold rt_serial_write.
  rewrite (proj2 (Z.eqb_neq _ _) Ha). cbn [negb rt_assert]. mstep. destruct (Z.eqb_spec (blen data) 0) as [E|E].
  - destruct data; [|unfold blen in E; cbn [length] in E; lia]. cbn [crlf]. rewrite app_nil_r, put_serial_same; [done|]. rewrite Hs. by destruct d.
  - rewrite (after (dev_done _ _ _ Hv)), H1, H2. by rewrite (after (poll_tx_done _ _ _ _ _ Ha Hv Hs Hb)).
Qed.
End functions.
End port.

(** ** Receiving by DMA *)

(** The controller writes the array around its end; the buffer holds up to [n] bytes. *)
Record dma_rep (n : Z) (f : rt_serial_rx_fifo) (q : list Z) : Prop := DmaRep {
  dm_size : 0 < n <= 2 ^ 15;
  dm_len : blen (buffer f) = n;
  dm_circ : circ (buffer f) (rx_get f) q;
  dm_put : rx_put f = (rx_get f + blen q) mod n;
  dm_full : is_full f = true <-> blen q = n
}.

Lemma dma_rep_cases n f q : dma_rep n f q -> 0 <= rx_get f < n /\ 0 <= blen q <= n /\
  (rx_put f = rx_get f + blen q /\ rx_put f < n \/ rx_put f = rx_get f + blen q - n /\ 0 <= rx_put f).
Proof.
  intros [Hn Hl (Hg & Hq & _) Hp _]. rewrite Hl in Hg. assert (0 <= blen q <= n) by (unfold blen in *; lia). split_and!; try lia.
  rewrite Hp. destruct (Z.lt_ge_cases (rx_get f + blen q) n); [left|right]; [rewrite Z.mod_small; lia|].
  assert (E : rx_get f + blen q - n = (rx_get f + blen q) mod n) by (apply (Z.mod_unique _ _ 1); lia). lia.
Qed.

(** The indices after [len] bytes: the buffer is full when they do not fit, and reading starts behind the last one. *)
Lemma dma_put_indices n f q len : dma_rep n f q -> 0 <= len <= n ->
  dma_put n len f = RxFifo (buffer f) ((rx_get f + blen q + len) mod n)
    (if n <=? blen q + len then (rx_get f + blen q + len) mod n else rx_get f) (n <=? blen q + len).
Proof.
  intros HR Hlen. pose proof (dma_rep_cases _ _ _ HR) as (Hg & Hq & Hp). destruct HR as [Hn Hl Hc Ep Hf].
  unfold dma_put. assert (Hu : u16 (rx_put f + len) = rx_put f + len) by (apply Z.mod_small; lia). rewrite Hu. clear Hu.
  assert (Em : (rx_get f + blen q + len) mod n = if n <=? rx_put f + len then rx_put f + len - n else rx_put f + len).
  { rewrite <- Zplus_mod_idemp_l, <- Ep. destruct (Z.leb_spec n (rx_put f + len)); [|apply Z.mod_small; lia].
    symmetry. apply (Z.mod_unique _ _ 1); lia. }
  assert (Em' : (rx_put f + len) mod n = if n <=? rx_put f + len then rx_put f + len - n else rx_put f + len)
    by (by rewrite <- Em, <- (Zplus_mod_idemp_l (rx_get f + blen q)), <- Ep).
  rewrite Em, Em'. clear Em Em' Ep Hc Hl. unfold wrap_index. destruct (is_full f) eqn:Ef;
    [assert (blen q = n) by (by apply Hf)|assert (blen q <> n) by (rewrite <- Hf; done)]; clear Hf.
  all: repeat (match goal with |- context [?x <=? ?y] => destruct (Z.leb_spec x y) end; try lia; cbv beta iota).
  all: f_equal; lia.
Qed.

(** When the DMA controller has written [bs] behind the bytes of the buffer, around its end, the update of the
    put index makes the buffer hold the last [n] of all the bytes, in their order. *)
Theorem dma_put_correct n f q bs buf :
  dma_rep n f q -> blen bs <= n -> written (buffer f) (rx_put f) bs buf ->
  dma_rep n (dma_put n (blen bs) (RxFifo buf (rx_put f) (rx_get f) (is_full f))) (lastn (Z.to_nat n) (q ++ bs)).
Proof.
  intros HR Hb Hw. pose proof (dma_rep_cases _ _ _ HR) as (Hg & Hq & _). pose proof HR as [Hn Hl Hc Hp Hf].
  pose proof Hw as (Hlb & _ & _). set (f1 := RxFifo buf (rx_put f) (rx_get f) (is_full f)).
  assert (Hl1 : blen buf = n) by (unfold blen in *; lia).
  assert (Hp1 : rx_put f = (rx_get f + blen q) mod blen (buffer f)) by (by rewrite Hl). rewrite Hp1 in Hw.
  assert (E : dma_put n (blen bs) f1 = RxFifo buf ((rx_get f + blen q + blen bs) mod n)
    (if n <=? blen q + blen bs then (rx_get f + blen q + blen bs) mod n else rx_get f) (n <=? blen q + blen bs)).
  { pose proof (dma_put_indices n f q (blen bs) HR ltac:(unfold blen in *; lia)) as E0. unfold dma_put, f1 in *. cbn [buffer rx_put rx_get is_full] in *.
    destruct (if rx_get f <=? rx_put f then _ else _) as [p fl]. by injection E0 as -> -> ->. }
  rewrite E. clear E. destruct (Z.leb_spec n (blen q + blen bs)) as [Ho|Ho].
  - pose proof (circ_over _ _ _ _ _ Hc Hw ltac:(unfold blen in *; lia)) as Hc'. rewrite Hl in Hc'.
    replace (length (buffer f)) with (Z.to_nat n) in Hc' by (unfold blen in *; lia).
    assert (Hd : blen (lastn (Z.to_nat n) (q ++ bs)) = n) by (unfold blen in *; rewrite length_lastn; [lia|rewrite length_app; lia]).
    split; cbn [buffer rx_put rx_get is_full]; try done. rewrite Hd, Zplus_mod_idemp_l.
    by replace (rx_get f + blen q + blen bs + n) with (rx_get f + blen q + blen bs + 1 * n) by lia; rewrite Z_mod_plus_full.
  - rewrite lastn_all by (unfold blen in *; rewrite length_app; lia).
    pose proof (circ_write _ _ _ _ _ Hc Hw ltac:(unfold blen in *; lia)) as Hc'.
    split; cbn [buffer rx_put rx_get is_full]; try done; rewrite blen_app; [f_equal; lia|]. split; [done|lia].
Qed.

Lemma dma_get_rep n f q m : dma_rep n f q -> (m <= length q)%nat -> dma_rep n (dma_get n (Z.of_nat m) f) (drop m q).
Proof.
  intros HR Hm. pose proof (dma_rep_cases _ _ _ HR) as (Hg & Hq & _). destruct HR as [Hn Hl Hc Hp Hf].
  assert (E : (if n <=? u16 (rx_get f + Z.of_nat m) then u16 (rx_get f + Z.of_nat m) mod n else u16 (rx_get f + Z.of_nat m)) = (rx_get f + Z.of_nat m) mod n).
  { unfold u16, blen in *. rewrite (Z.mod_small _ (2 ^ 16)) by lia. destruct (Z.leb_spec n (rx_get f + Z.of_nat m)); [done|]. rewrite Z.mod_small; lia. }
  unfold dma_get. rewrite E. pose proof (circ_drop _ _ _ m Hc Hm) as Hc'. rewrite Hl in Hc'.
  assert (Hd : blen (drop m q) = blen q - Z.of_nat m) by (unfold blen in *; rewrite length_drop; lia).
  split; cbn [buffer rx_put rx_get is_full]; try done.
  - rewrite Hd, Hp, Zplus_mod_idemp_l. f_equal. lia.
  - rewrite Hd. destruct (Z.eqb_spec (Z.of_nat m) 0) as [->|Hm0]; cbn [negb].
    + rewrite andb_false_r, Z.sub_0_r. done.
    + rewrite andb_true_r. destruct (is_full f) eqn:Ef; split; try done; unfold blen in *; lia.
Qed.

Lemma dma_length n f q : dma_rep n f q -> fifo_length n f = blen q.
Proof.
  intros HR. pose proof (dma_rep_cases _ _ _ HR) as (Hg & Hq & Hp). destruct HR as [Hn _ _ _ Hf]. unfold fifo_length.
  destruct (is_full f) eqn:Ef; [assert (blen q = n) by (by apply Hf)|assert (blen q <> n) by (rewrite <- Hf; done)];
    destruct (Z.eqb_spec (rx_put f) (rx_get f)), (Z.ltb_spec (rx_get f) (rx_put f)); lia.
Qed.

(** A read in DMA mode copies the first bytes of the buffer, around its end, and takes them out of it. *)
Theorem serial_dma_rx_correct {R} (s : devices (ports R)) a d q len :
  p_serial (v_world s) !! a = Some d -> serial_rx d <> RT_NULL -> dma_rep (bufsz (config d)) (rx_fifo d) q -> 0 <= len ->
  exists f, _serial_dma_rx a len s = Done (blen (take (Z.to_nat len) q), take (Z.to_nat len) q) (put_serial a (set_rx_fifo f d) s) /\
    dma_rep (bufsz (config d)) f (drop (Z.to_nat len) q).
Proof.
  intros Hs Hx HR Hlen. pose proof (dma_rep_cases _ _ _ HR) as (Hg & Hq & _). pose proof HR as [Hn Hl Hc _ _]. set (n := bufsz (config d)) in *.
  set (m := Nat.min (Z.to_nat len) (length q)).
  assert (Et : take (Z.to_nat len) q = take m q /\ drop (Z.to_nat len) q = drop m q).
  { unfold m. destruct (Nat.le_ge_cases (Z.to_nat len) (length q)); [by rewrite Nat.min_l|].
    rewrite Nat.min_r by done. by rewrite !take_ge, !drop_ge by lia. }
  destruct Et as [-> ->]. exists (dma_get n (Z.of_nat m) (rx_fifo d)). split; [|apply dma_get_rep; [done|lia]].
  assert (Er : (if len <? blen q then len else blen q) = Z.of_nat m) by (unfold m, blen in *; destruct (Z.ltb_spec len (Z.of_nat (length q))); lia).
  assert (Ec : _serial_fifo_calc_recved_len a s = Done (blen q) s).
  { unfold _serial_fifo_calc_recved_len. rewrite (after (serial_done _ _ _ Hs)), (proj2 (Z.eqb_neq _ _) Hx). cbn [negb rt_assert]. mstep.
    by rewrite (dma_length (bufsz (config d)) _ _ HR). }
  assert (Eu : rt_dma_recv_update_get_index a (Z.of_nat m) s = Done tt (put_serial a (set_rx_fifo (dma_get n (Z.of_nat m) (rx_fifo d)) d) s)).
  { unfold rt_dma_recv_update_get_index. rewrite (after Ec), (proj2 (Z.leb_le (Z.of_nat m) (blen q))) by (unfold m, blen; lia).
    cbn [rt_assert]. mstep. by rewrite (mod_serial_done _ _ _ _ Hs). }
  unfold _serial_dma_rx. rewrite (after (serial_done _ _ _ Hs)). fold n. destruct (Z.eqb_spec n 0); [lia|]. rewrite (after Ec), Er.
  rewrite (after Eu). assert (Hb : blen (take m q) = Z.of_nat m) by (unfold blen; rewrite length_take; lia). rewrite Hb.
  assert (Hm : (m <= length q)%nat) by lia. do 2 f_equal. destruct (Z.ltb_spec (rx_get (rx_fifo d) + Z.of_nat m) n).
  - rewrite Nat2Z.id, (circ_take_lin _ _ _ _ Hc Hm); [done|lia].
  - rewrite (circ_take_wrap _ _ _ (Z.of_nat m) _ Hc); [by rewrite Nat2Z.id|unfold blen; lia|by rewrite Hl|lia].
Qed.

(** ** A wrong argument *)

(** The eight bytes an argument of RT_DEVICE_CTRL_CONFIG points to, as a configuration. *)
Definition config_of (bytes : list Z) : serial_configure :=
  let word i := foldr (fun b w => b + 256 * w) 0 (take 4 (drop i bytes)) in
  let field lo n := Z.land (Z.shiftr (word 4%nat) lo) (Z.ones n) in
  SerialConfigure (word 0%nat) (field 0 4) (field 4 2) (field 6 2) (field 8 1) (field 9 1) (field 10 16).

(** [proto_init] of the application passes the serial device where [rt_serial_control] expects a configuration: what
    it reads is the name of the device, whose buffer size differs; the command is refused and changes nothing. *)
Theorem proto_config_refused {R} hal_init config_at (s : devices (ports R)) a v d :
  a <> RT_NULL -> v_dev s !! a = Some v -> p_serial (v_world s) !! a = Some d -> ref_count v <> 0 ->
  bufsz (config d) = bufsz serial_config_default ->
  config_at a = config_of (strncpy_list RT_NAME_MAX (chars_of "uart2")) ->
  rt_serial_control hal_init config_at a RT_DEVICE_CTRL_CONFIG a s = Done RT_EBUSY s.
Proof.
  intros Ha Hv Hs Ho Hb Hc. unfold rt_serial_control. rewrite (proj2 (Z.eqb_neq _ _) Ha). cbn [negb rt_assert]. mstep.
  change (RT_DEVICE_CTRL_CONFIG =? RT_DEVICE_CTRL_SUSPEND) with false. change (RT_DEVICE_CTRL_CONFIG =? RT_DEVICE_CTRL_RESUME) with false.
  cbv iota. rewrite Z.eqb_refl, (after (serial_done _ _ _ Hs)), (after (dev_done _ _ _ Hv)), Hc, Hb.
  unfold nz. rewrite (proj2 (Z.eqb_neq _ _) Ho). done.
Qed.

(** ** The ports of the box, set up by its own code *)

Definition serial_addr (i : Z) : Z := 0x5000 + 0x100 * i.
Definition serial_reset : rt_serial_device :=
  SerialDevice (SerialConfigure 0 0 0 0 0 0 0) RT_NULL RT_NULL (RxFifo [] 0 0 false) false (UartInit 0 0 0 0) false [] [].
Definition dev_reset : rt_device := Device 0 0 0 0 0 0 0 0 0.
Definition box_reset : devices (ports unit) :=
  Devices k_two (list_to_map ((fun i => (serial_addr i, dev_reset)) <$> [1; 2; 6])) 0 RT_NULL 0x1000 ∅ []
    (Ports (list_to_map ((fun i => (serial_addr i, serial_reset)) <$> [1; 2; 6])) ∅ ∅ [] ∅ tt).

Definition hal_ok (_ : uart_init) : bool := true.
Definition name_config (_ : Z) : serial_configure := config_of (strncpy_list RT_NAME_MAX (chars_of "uart2")).
Definition no_pool (_ : Z) : list rt_data_item := [].
Definition no_indicate (_ _ _ : Z) : M (devices (ports unit)) unit := ret tt.
Definition box_ops (_ : Z) : device_ops (ports unit) := serial_ops hal_ok name_config no_pool.

(** The second port is opened as [proto_init] does. *)
Definition uart2 : Z := serial_addr 2.
Definition box_open : devices (ports unit) := Eval vm_compute in
  final box_reset ((_ <- hw_usart_init 1 (serial_addr 1) uart2 (serial_addr 6);; kern rt_enter_critical;;; p <- rt_device_find (chars_of "uart2");;
    _ <- rt_device_open box_ops p (Z.lor RT_DEVICE_OFLAG_RDWR RT_DEVICE_FLAG_INT_RX);; kern rt_exit_critical) box_reset).
Definition uart2_dev : rt_device := Eval vm_compute in default dev_reset (v_dev box_open !! uart2).
Definition uart2_ser : rt_serial_device := Eval vm_compute in default serial_reset (p_serial (v_world box_open) !! uart2).

Lemma uart2_dev_at : dev_at box_open uart2 uart2_dev.
Proof. split; [nonnull|concrete|eexists; split; concrete|vm_compute; split; [discriminate|reflexivity]]. Qed.
Lemma uart2_port : port_at box_open uart2 uart2_dev uart2_ser [].
Proof.
  split; [exact uart2_dev_at|vm_compute; discriminate|concrete|concrete|nonnull|concrete|].
  split; [by vm_compute|concrete|apply circ_nil; by vm_compute|concrete|by vm_compute|discriminate|apply Forall_nil_2].
Qed.
#[local] Opaque box_open.


(** A byte at the port, and one that comes late. *)
Definition ser_byte : rt_serial_device := set_line_in [165] uart2_ser.
Lemma usart_late_byte_lost_witness :
  exists s' f, USART_IRQHandler no_indicate uart2 [7] (put_serial uart2 ser_byte box_open) = Done tt s' /\
    port_at s' uart2 uart2_dev (set_line_in [] (set_rx_fifo f ser_byte)) [165].
Proof.
  apply (usart_late_byte_lost no_indicate (put_serial uart2 ser_byte box_open) uart2 uart2_dev ser_byte [] [165] [7]).
  - apply (port_at_put _ _ _ _ _ ser_byte [] uart2_port); [reflexivity|reflexivity|reflexivity|exact (pa_fifo _ _ _ _ _ uart2_port)].
  - concrete.
  - vm_compute. split; [discriminate|reflexivity].
  - concrete.
  - discriminate.
  - repeat constructor; lia.
Defined.

Lemma rt_serial_write_line_witness :
  exists s', rt_device_write box_ops uart2 0 [72; 105; 10] box_open = Done 3 s' /\
    s' = put_serial uart2 (set_line_out [72; 105; 10] uart2_ser) box_open.
Proof.
  eexists. split; [|reflexivity].
  exact (rt_serial_write_line hal_ok name_config no_pool box_ops box_open uart2 uart2_dev uart2_ser 0 [72; 105; 10] uart2_dev_at
    ltac:(vm_compute; discriminate) ltac:(concrete) eq_refl ltac:(concrete) ltac:(concrete) ltac:(repeat constructor; lia)).
Defined.

(** A buffer of four bytes with two in it; three more wrap around its end. *)
Definition dma_two : rt_serial_rx_fifo := RxFifo [0; 1; 2; 0] 3 1 false.
Lemma dma_two_rep : dma_rep 4 dma_two [1; 2].
Proof.
  split; [lia|concrete| |concrete|split; discriminate]. split_and!; [by vm_compute..|cbn; lia|].
  intros [|[|i]] x Hx; [injection Hx as <-; concrete|injection Hx as <-; concrete|done].
Qed.
Lemma dma_put_correct_witness :
  dma_rep 4 (dma_put 4 3 (RxFifo [4; 5; 2; 3] 3 1 false)) [2; 3; 4; 5].
Proof.
  apply (dma_put_correct 4 dma_two [1; 2] [3; 4; 5] [4; 5; 2; 3] dma_two_rep); [by vm_compute|]. split_and!; [concrete| |].
  - intros [|[|[|k]]] x Hx; [injection Hx as <-; concrete..|done].
  - intros j Hj Hk. assert (j = 2) as ->; [|concrete]. change (blen [0; 1; 2; 0]) with 4 in *. cbn [rx_put buffer dma_two] in Hk.
    pose proof (Hk 0 ltac:(by vm_compute)) as H0. pose proof (Hk 1 ltac:(by vm_compute)) as H1. pose proof (Hk 2 ltac:(by vm_compute)) as H2.
    vm_compute in H0, H1, H2. change (blen (buffer dma_two)) with 4 in Hj. lia.
Defined.

Definition ser_dma : rt_serial_device := set_rx_fifo dma_two (set_config (SerialConfigure 115200 8 0 0 0 0 4) uart2_ser).
Lemma serial_dma_rx_correct_witness :
  exists f, _serial_dma_rx uart2 64 (put_serial uart2 ser_dma box_open) = Done (2, [1; 2]) (put_serial uart2 (set_rx_fifo f ser_dma) box_open) /\ dma_rep 4 f [].
Proof.
  destruct (serial_dma_rx_correct (put_serial uart2 ser_dma box_open) uart2 ser_dma [1; 2] 64 (put_serial_lookup _ _ _) ltac:(nonnull) dma_two_rep ltac:(lia)) as (f & E & Hf).
  exists f. rewrite put_serial_twice in E. split; [exact E|exact Hf].
Defined.

Lemma proto_config_refused_witness :
  rt_serial_control hal_ok name_config uart2 RT_DEVICE_CTRL_CONFIG uart2 box_open = Done RT_EBUSY box_open.
Proof.
  apply (proto_config_refused hal_ok name_config box_open uart2 uart2_dev uart2_ser); [nonnull|concrete|concrete|nonnull|concrete|reflexivity].
Defined.
