(* ===== verification/RingBuffer.v ===== *)
(** * Ring buffers (components/drivers/src/ringbuffer.c)

    A ring buffer is an array with a read and a write position; one mirror bit
    per position tells a full buffer from an empty one.  The model keeps the
    bit fields at their widths, and every copy checks the bounds of both
    arrays.  [rb_rep rb q] relates the record to the queue of bytes it stores;
    the theorems state what each operation does to that queue. *)

From S2P Require Import Prelude Exec Circ Mem.

Record ringbuffer := RB {
  buffer_ptr : list Z;
  read_mirror : Z;
  read_index : Z;
  write_mirror : Z;
  write_index : Z;
  buffer_size : Z }.

Inductive rt_ringbuffer_state := RT_RINGBUFFER_EMPTY | RT_RINGBUFFER_FULL | RT_RINGBUFFER_HALFFULL.

#[global] Instance rt_ringbuffer_state_eq_dec : EqDecision rt_ringbuffer_state.
Proof. solve_decision. Defined.

(** Stores to the one-bit and fifteen-bit fields. *)
Definition u15 (z : Z) : Z := z mod 2 ^ 15.
Definition not1 (z : Z) : Z := Z.lnot z mod 2.

Definition set_read (m i : Z) (rb : ringbuffer) : ringbuffer :=
  RB (buffer_ptr rb) m i (write_mirror rb) (write_index rb) (buffer_size rb).
Definition set_write (m i : Z) (rb : ringbuffer) : ringbuffer :=
  RB (buffer_ptr rb) (read_mirror rb) (read_index rb) m i (buffer_size rb).
Definition set_buffer (b : list Z) (rb : ringbuffer) : ringbuffer :=
  RB b (read_mirror rb) (read_index rb) (write_mirror rb) (write_index rb) (buffer_size rb).

(** [memcpy(&rb->buffer_ptr[at], src, n)]. *)
Definition copy_in (at_ : Z) (src : list Z) (n : Z) : M ringbuffer unit := fun rb =>
  if (0 <=? at_) && (0 <=? n) && (n <=? blen src) && (at_ + n <=? blen (buffer_ptr rb))
  then Done tt (set_buffer (list_inserts (Z.to_nat at_) (take (Z.to_nat n) src) (buffer_ptr rb)) rb)
  else Stop Undefined.

(** The [n] bytes a [memcpy] reads from [&rb->buffer_ptr[at]]. *)
Definition copy_out (at_ n : Z) : M ringbuffer (list Z) := fun rb =>
  if (0 <=? at_) && (0 <=? n) && (at_ + n <=? blen (buffer_ptr rb))
  then Done (take (Z.to_nat n) (drop (Z.to_nat at_) (buffer_ptr rb))) rb
  else Stop Undefined.

Definition rt_ringbuffer_status (rb : ringbuffer) : rt_ringbuffer_state :=
  if read_index rb =? write_index rb then
    if read_mirror rb =? write_mirror rb then RT_RINGBUFFER_EMPTY else RT_RINGBUFFER_FULL
  else RT_RINGBUFFER_HALFFULL.

Definition rt_ringbuffer_data_len (rb : ringbuffer) : Z :=
  match rt_ringbuffer_status rb with
  | RT_RINGBUFFER_EMPTY => 0
  | RT_RINGBUFFER_FULL => u32 (buffer_size rb)
  | RT_RINGBUFFER_HALFFULL =>
      if read_index rb <? write_index rb then u32 (write_index rb - read_index rb)
      else u32 (buffer_size rb - (read_index rb - write_index rb))
  end.

Definition rt_ringbuffer_space_len (rb : ringbuffer) : Z :=
  u32 (buffer_size rb - rt_ringbuffer_data_len rb).

Definition rt_ringbuffer_get_size (rb : ringbuffer) : Z := u16 (buffer_size rb).

Definition rt_ringbuffer_init (pool : list Z) (size : Z) : M ringbuffer unit :=
  rt_assert (0 <? size);;;
  modify (fun _ => RB pool 0 0 0 0 (s16 (RT_ALIGN_DOWN size RT_ALIGN_SIZE))).

Definition rt_ringbuffer_reset : M ringbuffer unit :=
  modify (set_read 0 0);;; modify (set_write 0 0).

Definition rt_ringbuffer_put (ptr : list Z) (length : Z) : M ringbuffer Z :=
  size <- gets (fun rb => u16 (rt_ringbuffer_space_len rb));;
  if size =? 0 then ret 0
  else
    let length := if size <? length then size else length in
    bs <- gets buffer_size;;
    wi <- gets write_index;;
    wm <- gets write_mirror;;
    if length <? bs - wi then
      copy_in wi ptr length;;;
      modify (set_write wm (u15 (wi + length)));;;
      ret length
    else
      copy_in wi ptr (bs - wi);;;
      copy_in 0 (drop (Z.to_nat (bs - wi)) ptr) (length - (bs - wi));;;
      modify (set_write (not1 wm) (u15 (length - (bs - wi))));;;
      ret length.

Definition rt_ringbuffer_put_force (ptr : list Z) (length : Z) : M ringbuffer Z :=
  space_length <- gets (fun rb => u16 (rt_ringbuffer_space_len rb));;
  bs <- gets buffer_size;;
  let ptr := if bs <? length then drop (Z.to_nat (length - bs)) ptr else ptr in
  let length := if bs <? length then u16 bs else length in
  wi <- gets write_index;;
  wm <- gets write_mirror;;
  rm <- gets read_mirror;;
  if length <? bs - wi then
    copy_in wi ptr length;;;
    modify (set_write wm (u15 (wi + length)));;;
    when (space_length <? length) (modify (fun rb => set_read rm (write_index rb) rb));;;
    ret length
  else
    copy_in wi ptr (bs - wi);;;
    copy_in 0 (drop (Z.to_nat (bs - wi)) ptr) (length - (bs - wi));;;
    modify (set_write (not1 wm) (u15 (length - (bs - wi))));;;
    when (space_length <? length) (modify (fun rb => set_read (not1 rm) (write_index rb) rb));;;
    ret length.

(** The count and the bytes copied to [ptr]. *)
Definition rt_ringbuffer_get (length : Z) : M ringbuffer (Z * list Z) :=
  size <- gets rt_ringbuffer_data_len;;
  if size =? 0 then ret (0, [])
  else
    let length := if size <? length then u16 size else length in
    bs <- gets buffer_size;;
    ri <- gets read_index;;
    rm <- gets read_mirror;;
    if length <? bs - ri then
      out <- copy_out ri length;;
      modify (set_read rm (u15 (ri + length)));;;
      ret (length, out)
    else
      out1 <- copy_out ri (bs - ri);;
      out2 <- copy_out 0 (length - (bs - ri));;
      modify (set_read (not1 rm) (u15 (length - (bs - ri))));;;
      ret (length, out1 ++ out2).

Definition rt_ringbuffer_putchar (ch : Z) : M ringbuffer Z :=
  space <- gets rt_ringbuffer_space_len;;
  if space =? 0 then ret 0
  else
    wi <- gets write_index;;
    wm <- gets write_mirror;;
    bs <- gets buffer_size;;
    copy_in wi [ch] 1;;;
    (if wi =? bs - 1 then modify (set_write (not1 wm) 0)
     else modify (set_write wm (u15 (wi + 1))));;;
    ret 1.

Definition rt_ringbuffer_putchar_force (ch : Z) : M ringbuffer Z :=
  old_state <- gets rt_ringbuffer_status;;
  wi <- gets write_index;;
  wm <- gets write_mirror;;
  rm <- gets read_mirror;;
  bs <- gets buffer_size;;
  copy_in wi [ch] 1;;;
  (if wi =? bs - 1 then
     modify (set_write (not1 wm) 0);;;
     when (bool_decide (old_state = RT_RINGBUFFER_FULL))
       (modify (fun rb => set_read (not1 rm) (write_index rb) rb))
   else
     modify (set_write wm (u15 (wi + 1)));;;
     when (bool_decide (old_state = RT_RINGBUFFER_FULL))
       (modify (fun rb => set_read rm (write_index rb) rb)));;;
  ret 1.

(** [None] is the return value 0, with [*ch] left as it was. *)
Definition rt_ringbuffer_getchar : M ringbuffer (option Z) :=
  n <- gets rt_ringbuffer_data_len;;
  if n =? 0 then ret None
  else
    ri <- gets read_index;;
    rm <- gets read_mirror;;
    bs <- gets buffer_size;;
    ch <- deref (fun rb => buffer_ptr rb !! Z.to_nat ri);;
    (if ri =? bs - 1 then modify (set_read (not1 rm) 0)
     else modify (set_read rm (u15 (ri + 1))));;;
    ret (Some ch).

(** ** The queue of bytes in a ring buffer *)

Definition rb_area (rb : ringbuffer) : list Z := take (Z.to_nat (buffer_size rb)) (buffer_ptr rb).

Definition rb_rep (rb : ringbuffer) (q : list Z) : Prop :=
  0 < buffer_size rb < 2 ^ 15 /\ buffer_size rb <= blen (buffer_ptr rb) /\
  circ (rb_area rb) (read_index rb) q /\
  write_index rb = (read_index rb + blen q) mod buffer_size rb /\
  (read_mirror rb = 0 \/ read_mirror rb = 1) /\
  write_mirror rb = (if read_index rb + blen q <? buffer_size rb then read_mirror rb
                     else not1 (read_mirror rb)).

Lemma mod_wrap a s : 0 <= a < 2 * s -> a mod s = if a <? s then a else a - s.
Proof.
  intros. destruct (Z.ltb_spec a s); [by rewrite Z.mod_small by lia|].
  replace a with (a - s + 1 * s) at 1 by lia. rewrite Z_mod_plus_full. by apply Z.mod_small; lia.
Qed.

Lemma not1_bit m : m = 0 \/ m = 1 -> not1 m = 1 - m.
Proof. by intros [-> | ->]. Qed.

Lemma not1_range m : not1 m = 0 \/ not1 m = 1.
Proof. unfold not1. pose proof (Z.mod_pos_bound (Z.lnot m) 2). lia. Qed.

Lemma u15_small z : 0 <= z < 2 ^ 15 -> u15 z = z.
Proof. apply Z.mod_small. Qed.

Lemma blen_nonneg {A} (l : list A) : 0 <= blen l.
Proof. unfold blen. lia. Qed.

Lemma blen_area rb : 0 <= buffer_size rb <= blen (buffer_ptr rb) -> blen (rb_area rb) = buffer_size rb.
Proof. intros. unfold rb_area, blen in *. rewrite length_take. lia. Qed.

(** The arithmetic of the positions, from the representation. *)
Lemma rb_rep_pos rb q : rb_rep rb q ->
  0 <= read_index rb < buffer_size rb /\ 0 <= blen q <= buffer_size rb /\
  write_index rb = (if read_index rb + blen q <? buffer_size rb then read_index rb + blen q
                    else read_index rb + blen q - buffer_size rb) /\
  0 <= write_index rb < buffer_size rb /\ not1 (read_mirror rb) = 1 - read_mirror rb /\
  blen (rb_area rb) = buffer_size rb.
Proof.
  intros (Hs & Hb & (Ho & Hl & _) & Hw & Hm & _). pose proof (blen_area rb ltac:(lia)) as Ha.
  rewrite Ha in Ho. assert (blen q <= buffer_size rb) by (rewrite <- Ha; unfold blen; lia).
  pose proof (blen_nonneg q). rewrite Hw. rewrite mod_wrap by lia.
  split_and!; try lia; try (by apply not1_bit); zcase; lia.
Qed.

Lemma rb_data_len rb q : rb_rep rb q -> rt_ringbuffer_data_len rb = blen q.
Proof.
  intros Hr. pose proof (rb_rep_pos rb q Hr) as (Hri & Hq & Hw & Hwi & Hn & _).
  destruct Hr as (Hs & Hb & _ & _ & Hm & Hwm).
  unfold rt_ringbuffer_data_len, rt_ringbuffer_status.
  destruct (Z.eqb_spec (read_index rb) (write_index rb)); [destruct (Z.eqb_spec (read_mirror rb) (write_mirror rb))|];
    destruct (Z.ltb_spec (read_index rb + blen q) (buffer_size rb));
    try destruct (Z.ltb_spec (read_index rb) (write_index rb)); try lia; rewrite u32_small; lia.
Qed.

Lemma rb_space_len rb q : rb_rep rb q -> rt_ringbuffer_space_len rb = buffer_size rb - blen q.
Proof.
  intros Hr. unfold rt_ringbuffer_space_len. rewrite (rb_data_len rb q Hr).
  pose proof (rb_rep_pos rb q Hr). destruct Hr. rewrite u32_small; lia.
Qed.

Lemma rb_status_full rb q : rb_rep rb q ->
  (rt_ringbuffer_status rb = RT_RINGBUFFER_FULL <-> blen q = buffer_size rb).
Proof.
  intros Hr. pose proof (rb_rep_pos rb q Hr) as (Hri & Hq & Hw & Hwi & Hn & _).
  destruct Hr as (Hs & Hb & _ & _ & Hm & Hwm). unfold rt_ringbuffer_status.
  destruct (Z.eqb_spec (read_index rb) (write_index rb)); [destruct (Z.eqb_spec (read_mirror rb) (write_mirror rb))|];
    destruct (Z.ltb_spec (read_index rb + blen q) (buffer_size rb)); (split; intros; first [done|lia]).
Qed.

(** ** What a copy into the array does *)

Lemma written_lin (n : nat) (buf : list Z) w xs :
  (n <= length buf)%nat -> 0 <= w -> w + blen xs <= Z.of_nat n ->
  written (take n buf) w xs (take n (list_inserts (Z.to_nat w) xs buf)).
Proof.
  intros Hn Hw Hx. unfold written, blen in *.
  assert (Hl : length (take n buf) = n) by (rewrite length_take; lia). rewrite !Hl.
  split_and!; [rewrite length_take, length_inserts; lia| |].
  - intros k x Hk. pose proof (lookup_lt_Some _ _ _ Hk). rewrite Z.mod_small by lia.
    rewrite lookup_take_lt, list_lookup_inserts by lia. rewrite <- Hk. f_equal. lia.
  - intros j Hj Hne. rewrite !lookup_take_lt by lia.
    destruct (Z.lt_ge_cases j w); [by rewrite list_lookup_inserts_lt by lia|].
    destruct (Z.lt_ge_cases j (w + Z.of_nat (length xs))); [|by rewrite list_lookup_inserts_ge by lia].
    destruct (Hne (j - w)); [lia|]. rewrite Z.mod_small; lia.
Qed.

Lemma written_wrap (n : nat) (buf : list Z) w xs :
  (n <= length buf)%nat -> 0 <= w < Z.of_nat n -> Z.of_nat n - w <= blen xs <= Z.of_nat n ->
  written (take n buf) w xs
    (take n (list_inserts 0 (drop (Z.to_nat (Z.of_nat n - w)) xs)
              (list_inserts (Z.to_nat w) (take (Z.to_nat (Z.of_nat n - w)) xs) buf))).
Proof.
  intros Hn Hw Hx. unfold written, blen in *. set (d := Z.to_nat (Z.of_nat n - w)).
  assert (Hl : length (take n buf) = n) by (rewrite length_take; lia). rewrite !Hl.
  assert (Hld : length (drop d xs) = (length xs - d)%nat) by apply length_drop.
  assert (Hlt : length (take d xs) = d) by (rewrite length_take; lia).
  split_and!; [rewrite length_take, !length_inserts; lia| |].
  - intros k x Hk. pose proof (lookup_lt_Some _ _ _ Hk). rewrite mod_wrap by lia.
    destruct (Z.ltb_spec (w + Z.of_nat k) (Z.of_nat n)); rewrite lookup_take_lt by lia.
    + rewrite list_lookup_inserts_ge, list_lookup_inserts, lookup_take_lt by lia.
      rewrite <- Hk. f_equal. lia.
    + rewrite list_lookup_inserts, lookup_drop by (rewrite ?length_inserts; lia). rewrite <- Hk. f_equal. lia.
  - intros j Hj Hne. rewrite !lookup_take_lt by lia.
    destruct (Z.lt_ge_cases j w); [|destruct (Hne (j - w)); [lia|rewrite Z.mod_small; lia]].
    destruct (Z.lt_ge_cases j (Z.of_nat (length xs - d))).
    { destruct (Hne (j + Z.of_nat d)); [lia|]. rewrite mod_wrap by lia. zcase; lia. }
    by rewrite list_lookup_inserts_ge, list_lookup_inserts_lt by lia.
Qed.

(** ** How the queue changes *)

(** The write position after [n] more bytes, and its mirror. *)
Definition wr_index (rb : ringbuffer) (n : Z) : Z :=
  if write_index rb + n <? buffer_size rb then write_index rb + n
  else write_index rb + n - buffer_size rb.
Definition wr_mirror (rb : ringbuffer) (n : Z) : Z :=
  if write_index rb + n <? buffer_size rb then write_mirror rb else not1 (write_mirror rb).

Definition overwritten (rb : ringbuffer) (xs buf' : list Z) : Prop :=
  length buf' = length (buffer_ptr rb) /\
  written (rb_area rb) (write_index rb) xs (take (Z.to_nat (buffer_size rb)) buf').

Lemma rep_push rb q xs buf' :
  rb_rep rb q -> overwritten rb xs buf' -> blen q + blen xs <= buffer_size rb ->
  rb_rep (RB buf' (read_mirror rb) (read_index rb) (wr_mirror rb (blen xs)) (wr_index rb (blen xs))
            (buffer_size rb)) (q ++ xs).
Proof.
  intros Hr [Hlen Hw] Hle. pose proof (rb_rep_pos rb q Hr) as (Hri & Hq & Hwi & Hwr & Hn & Ha).
  destruct Hr as (Hs & Hb & Hc & Hwm & Hm & Hmm). pose proof (blen_nonneg xs). unfold rb_rep, rb_area.
  cbn [buffer_ptr read_mirror read_index write_mirror write_index buffer_size].
  rewrite blen_app. unfold wr_index, wr_mirror. split_and!; try lia.
  - unfold blen in *. lia.
  - apply (circ_write (rb_area rb)); [done|rewrite Ha, <- Hwm; done|]. unfold blen in *. lia.
  - rewrite mod_wrap, Hwi by lia. repeat zcase; lia.
  - rewrite Hmm, Hwi. assert (not1 (not1 (read_mirror rb)) = read_mirror rb) by (by destruct Hm as [-> | ->]).
    repeat zcase; first [done|lia].
Qed.

Lemma rep_over rb q xs buf' m :
  rb_rep rb q -> overwritten rb xs buf' -> blen xs <= buffer_size rb <= blen q + blen xs ->
  m = 0 \/ m = 1 ->
  rb_rep (RB buf' m (wr_index rb (blen xs)) (not1 m) (wr_index rb (blen xs)) (buffer_size rb))
         (lastn (Z.to_nat (buffer_size rb)) (q ++ xs)).
Proof.
  intros Hr [Hlen Hw] Hle Hm'. pose proof (rb_rep_pos rb q Hr) as (Hri & Hq & Hwi & Hwr & Hn & Ha).
  destruct Hr as (Hs & Hb & Hc & Hwm & Hm & Hmm). pose proof (blen_nonneg xs). unfold rb_rep, rb_area.
  cbn [buffer_ptr read_mirror read_index write_mirror write_index buffer_size].
  assert (Hl : blen (lastn (Z.to_nat (buffer_size rb)) (q ++ xs)) = buffer_size rb).
  { unfold blen in *. rewrite length_lastn; [lia|]. rewrite length_app. lia. }
  assert (Hi : (read_index rb + blen q + blen xs) mod buffer_size rb = wr_index rb (blen xs)).
  { rewrite <- Zplus_mod_idemp_l, <- Hwm. unfold wr_index. by rewrite mod_wrap by lia. }
  assert (Hir : 0 <= wr_index rb (blen xs) < buffer_size rb) by (unfold wr_index; zcase; lia).
  rewrite Hl. split_and!; try lia.
  - unfold blen in *. lia.
  - rewrite <- Hi, <- Ha. replace (Z.to_nat (blen (rb_area rb))) with (length (rb_area rb)) by (unfold blen; lia).
    apply circ_over; [done|..]; unfold blen in *; [|lia]. rewrite Ha, <- Hwm.
    replace (length (rb_area rb)) with (Z.to_nat (buffer_size rb)) by lia. done.
  - rewrite mod_wrap by lia. zcase; lia.
  - zcase; [lia|done].
Qed.

Lemma rep_pop rb q n :
  rb_rep rb q -> 0 <= n <= blen q ->
  let i := read_index rb + n in
  rb_rep (RB (buffer_ptr rb) (if i <? buffer_size rb then read_mirror rb else not1 (read_mirror rb))
            (if i <? buffer_size rb then i else i - buffer_size rb)
            (write_mirror rb) (write_index rb) (buffer_size rb)) (drop (Z.to_nat n) q).
Proof.
  intros Hr Hle i. pose proof (rb_rep_pos rb q Hr) as (Hri & Hq & Hwi & Hwr & Hn & Ha).
  destruct Hr as (Hs & Hb & Hc & Hwm & Hm & Hmm). unfold rb_rep, rb_area.
  cbn [buffer_ptr read_mirror read_index write_mirror write_index buffer_size].
  assert (Hl : blen (drop (Z.to_nat n) q) = blen q - n) by (unfold blen in *; rewrite length_drop; lia).
  rewrite Hl. fold (rb_area rb). split_and!; try lia.
  - replace (if i <? buffer_size rb then i else i - buffer_size rb)
      with ((read_index rb + Z.of_nat (Z.to_nat n)) mod blen (rb_area rb)).
    + apply circ_drop; [done|]. unfold blen in *. lia.
    + rewrite Ha, mod_wrap by lia. replace (Z.of_nat (Z.to_nat n)) with n by lia. done.
  - rewrite Hwi. unfold i. rewrite mod_wrap by (zcase; lia). repeat zcase; lia.
  - zcase; [done|apply not1_range].
  - rewrite Hmm. unfold i. assert (not1 (not1 (read_mirror rb)) = read_mirror rb) by (by destruct Hm as [-> | ->]).
    repeat zcase; first [done|lia].
Qed.

(** ** The copies *)

Lemma blen_take {A} (l : list A) n : 0 <= n <= blen l -> blen (take (Z.to_nat n) l) = n.
Proof. unfold blen. intros. rewrite length_take. lia. Qed.

Lemma copy_in_done at_ src n rb :
  0 <= at_ -> 0 <= n <= blen src -> at_ + n <= blen (buffer_ptr rb) ->
  copy_in at_ src n rb =
    Done tt (set_buffer (list_inserts (Z.to_nat at_) (take (Z.to_nat n) src) (buffer_ptr rb)) rb).
Proof.
  intros. unfold copy_in. rewrite (proj2 (Z.leb_le _ _)), (proj2 (Z.leb_le _ _)), (proj2 (Z.leb_le _ _)),
    (proj2 (Z.leb_le _ _)) by lia. done.
Qed.

Lemma copy_in_lin rb q ptr n :
  rb_rep rb q -> 0 <= n <= blen ptr -> write_index rb + n <= buffer_size rb ->
  exists buf', copy_in (write_index rb) ptr n rb = Done tt (set_buffer buf' rb) /\
               overwritten rb (take (Z.to_nat n) ptr) buf'.
Proof.
  intros Hr Hn Hle. pose proof (rb_rep_pos rb q Hr) as (_ & _ & _ & Hwr & _ & Ha).
  destruct Hr as (Hs & Hb & _). eexists. split; [apply copy_in_done; lia|].
  split; [by rewrite length_inserts|]. apply written_lin; unfold blen in *; [lia..|].
  rewrite length_take. lia.
Qed.

Lemma copy_in_wrap rb q ptr n :
  rb_rep rb q -> buffer_size rb - write_index rb <= n <= buffer_size rb -> n <= blen ptr ->
  let d := buffer_size rb - write_index rb in
  exists buf', (copy_in (write_index rb) ptr d;;; copy_in 0 (drop (Z.to_nat d) ptr) (n - d)) rb
                 = Done tt (set_buffer buf' rb) /\
               overwritten rb (take (Z.to_nat n) ptr) buf'.
Proof.
  intros Hr Hn Hp d. pose proof (rb_rep_pos rb q Hr) as (_ & _ & _ & Hwr & _ & Ha).
  destruct Hr as (Hs & Hb & _). assert (Hd : blen (drop (Z.to_nat d) ptr) = blen ptr - d)
    by (unfold blen in *; rewrite length_drop; lia).
  eexists. split.
  - rewrite (bind_done _ _ _ _ _ (copy_in_done (write_index rb) ptr d rb ltac:(lia) ltac:(lia) ltac:(lia))).
    rewrite copy_in_done; [cbn [buffer_ptr set_buffer]; reflexivity|lia..|].
    unfold blen in *. cbn [buffer_ptr set_buffer]. rewrite length_inserts. lia.
  - split; [cbn [buffer_ptr]; by rewrite !length_inserts|].
    rewrite take_drop_commute. replace (Z.to_nat d + Z.to_nat (n - d))%nat with (Z.to_nat n) by lia.
    assert (Et : take (Z.to_nat d) ptr = take (Z.to_nat d) (take (Z.to_nat n) ptr))
      by (rewrite take_take; f_equal; lia).
    rewrite Et. unfold d, rb_area in *.
    replace (buffer_size rb - write_index rb)
      with (Z.of_nat (Z.to_nat (buffer_size rb)) - write_index rb) by lia.
    apply written_wrap; unfold blen in *; rewrite ?length_take; lia.
Qed.

Lemma copy_out_done at_ n rb :
  0 <= at_ -> 0 <= n -> at_ + n <= blen (buffer_ptr rb) ->
  copy_out at_ n rb = Done (take (Z.to_nat n) (drop (Z.to_nat at_) (buffer_ptr rb))) rb.
Proof.
  intros. unfold copy_out. rewrite (proj2 (Z.leb_le _ _)), (proj2 (Z.leb_le _ _)),
    (proj2 (Z.leb_le _ _)) by lia. done.
Qed.

(** A read below [buffer_size] reads the area. *)
Lemma rb_area_slice rb at_ n :
  0 <= at_ -> 0 <= n -> at_ + n <= buffer_size rb <= blen (buffer_ptr rb) ->
  take (Z.to_nat n) (drop (Z.to_nat at_) (buffer_ptr rb)) = take (Z.to_nat n) (drop (Z.to_nat at_) (rb_area rb)).
Proof.
  intros. unfold rb_area. rewrite !take_drop_commute, take_take. do 2 f_equal. lia.
Qed.

(** ** Putting and getting *)

(** The two ways a block goes in: before the end of the array and around it. *)
Lemma push_lin rb q ptr n :
  rb_rep rb q -> 0 <= n <= blen ptr -> write_index rb + n < buffer_size rb -> blen q + n <= buffer_size rb ->
  exists rb', (forall B (k : M ringbuffer B),
      (copy_in (write_index rb) ptr n;;;
       modify (set_write (write_mirror rb) (u15 (write_index rb + n)));;; k) rb = k rb') /\
    rb_rep rb' (q ++ take (Z.to_nat n) ptr) /\ buffer_size rb' = buffer_size rb.
Proof.
  intros Hr Hn Hlin Hfit. pose proof (rb_rep_pos rb q Hr) as (_ & _ & _ & Hwr & _ & _).
  pose proof Hr as (Hs & _). destruct (copy_in_lin rb q ptr n Hr) as (buf' & Hc & Ho); [lia..|].
  eexists. split; [intros B k; rewrite (after Hc); mstep; reflexivity|]. split; [|done].
  pose proof (blen_take ptr n ltac:(lia)) as Hbt.
  pose proof (rep_push rb q _ buf' Hr Ho ltac:(lia)) as Hf. rewrite Hbt in Hf. unfold wr_mirror, wr_index in Hf.
  rewrite (proj2 (Z.ltb_lt (write_index rb + n) (buffer_size rb))) in Hf by lia. by rewrite u15_small by lia.
Qed.

Lemma push_wrap rb q ptr n :
  rb_rep rb q -> n <= blen ptr -> buffer_size rb - write_index rb <= n -> blen q + n <= buffer_size rb ->
  let d := buffer_size rb - write_index rb in
  exists rb', (forall B (k : M ringbuffer B),
      (copy_in (write_index rb) ptr d;;; copy_in 0 (drop (Z.to_nat d) ptr) (n - d);;;
       modify (set_write (not1 (write_mirror rb)) (u15 (n - d)));;; k) rb = k rb') /\
    rb_rep rb' (q ++ take (Z.to_nat n) ptr) /\ buffer_size rb' = buffer_size rb.
Proof.
  intros Hr Hn Hwrap Hfit d. pose proof (rb_rep_pos rb q Hr) as (_ & Hq & _ & Hwr & _ & _).
  pose proof Hr as (Hs & _). destruct (copy_in_wrap rb q ptr n Hr) as (buf' & Hc & Ho); [lia..|].
  eexists. split; [intros B k; rewrite <- bind_assoc, (after Hc); mstep; reflexivity|]. split; [|done].
  pose proof (blen_take ptr n ltac:(lia)) as Hbt.
  pose proof (rep_push rb q _ buf' Hr Ho ltac:(lia)) as Hf. rewrite Hbt in Hf. unfold wr_mirror, wr_index in Hf.
  rewrite (proj2 (Z.ltb_ge (write_index rb + n) (buffer_size rb))) in Hf by lia. rewrite u15_small by lia.
  replace (n - d) with (write_index rb + n - buffer_size rb) by lia. done.
Qed.

Lemma rt_ringbuffer_put_done rb q ptr len :
  rb_rep rb q -> 0 <= len < 2 ^ 16 -> len <= blen ptr ->
  let n := Z.min len (buffer_size rb - blen q) in
  exists rb', rt_ringbuffer_put ptr len rb = Done n rb' /\
              rb_rep rb' (q ++ take (Z.to_nat n) ptr) /\ buffer_size rb' = buffer_size rb.
Proof.
  intros Hr Hlen Hp n. pose proof (rb_rep_pos rb q Hr) as (Hri & Hq & _ & Hwr & Hm & Ha).
  pose proof Hr as (Hs & _). unfold rt_ringbuffer_put. mstep. rewrite (rb_space_len rb q Hr).
  rewrite u16_small by lia. destruct (Z.eqb_spec (buffer_size rb - blen q) 0) as [E|E].
  { exists rb. unfold n. rewrite E, Z.min_r, app_nil_r by lia. done. }
  replace (if buffer_size rb - blen q <? len then buffer_size rb - blen q else len) with n
    by (unfold n; zcase; lia).
  cbv zeta. msteps. zcase.
  - destruct (push_lin rb q ptr n Hr) as (rb' & Hk & Hf); [lia..|]. rewrite Hk. by exists rb'.
  - destruct (push_wrap rb q ptr n Hr) as (rb' & Hk & Hf); [lia..|]. rewrite Hk. by exists rb'.
Qed.

Lemma rt_ringbuffer_get_done rb q len :
  rb_rep rb q -> 0 <= len < 2 ^ 16 ->
  let n := Z.min len (blen q) in
  exists rb', rt_ringbuffer_get len rb = Done (n, take (Z.to_nat n) q) rb' /\
              rb_rep rb' (drop (Z.to_nat n) q) /\ buffer_size rb' = buffer_size rb.
Proof.
  intros Hr Hlen n. pose proof (rb_rep_pos rb q Hr) as (Hri & Hq & _ & Hwr & Hm & Ha).
  pose proof Hr as (Hs & Hb & Hc & _). unfold rt_ringbuffer_get. mstep. rewrite (rb_data_len rb q Hr).
  destruct (Z.eqb_spec (blen q) 0) as [E|E].
  { exists rb. destruct q; [|unfold blen in E; cbn in E; lia]. unfold n. rewrite Z.min_r by (cbn; lia). done. }
  rewrite (u16_small (blen q)) by lia.
  replace (if blen q <? len then blen q else len) with n by (unfold n; zcase; lia).
  assert (Hn : (Z.to_nat n <= length q)%nat) by (unfold blen in *; lia).
  cbv zeta. msteps. pose proof (rep_pop rb q n Hr ltac:(lia)) as Hf. cbv zeta in Hf. zcase.
  - rewrite (bind_done _ _ _ _ _ (copy_out_done (read_index rb) n rb ltac:(lia) ltac:(lia) ltac:(lia))). msteps.
    rewrite rb_area_slice by lia. rewrite (circ_take_lin _ _ _ _ Hc Hn) by lia.
    eexists. split; [reflexivity|]. split; [|done]. rewrite u15_small by lia.
    rewrite (proj2 (Z.ltb_lt (read_index rb + n) (buffer_size rb))) in Hf by lia. done.
  - rewrite (bind_done _ _ _ _ _ (copy_out_done (read_index rb) (buffer_size rb - read_index rb) rb
      ltac:(lia) ltac:(lia) ltac:(lia))).
    rewrite (bind_done _ _ _ _ _ (copy_out_done 0 (n - (buffer_size rb - read_index rb)) rb
      ltac:(lia) ltac:(lia) ltac:(lia))). msteps.
    rewrite !rb_area_slice by lia.
    rewrite (circ_take_wrap _ _ _ _ (buffer_size rb - read_index rb) Hc) by lia.
    eexists. split; [reflexivity|]. split; [|done]. rewrite u15_small by lia.
    rewrite (proj2 (Z.ltb_ge (read_index rb + n) (buffer_size rb))) in Hf by lia.
    replace (n - (buffer_size rb - read_index rb)) with (read_index rb + n - buffer_size rb) by lia. done.
Qed.

(** ** One byte at a time *)

Lemma rt_ringbuffer_putchar_done rb q ch :
  rb_rep rb q -> 
  exists rb', rt_ringbuffer_putchar ch rb = Done (if blen q =? buffer_size rb then 0 else 1) rb' /\
    rb_rep rb' (if blen q =? buffer_size rb then q else q ++ [ch]) /\ buffer_size rb' = buffer_size rb.
Proof.
  intros Hr. pose proof (rb_rep_pos rb q Hr) as (Hri & Hq & _ & Hwr & Hm & Ha).
  pose proof Hr as (Hs & _). unfold rt_ringbuffer_putchar. mstep. rewrite (rb_space_len rb q Hr).
  destruct (Z.eqb_spec (buffer_size rb - blen q) 0), (Z.eqb_spec (blen q) (buffer_size rb)); [|lia..|].
  { by exists rb. }
  assert (Hone : blen [ch] = 1) by done.
  destruct (copy_in_lin rb q [ch] 1 Hr) as (buf' & Hc & Ho); [lia..|]. msteps.
  change (take (Z.to_nat 1) [ch]) with [ch] in Ho.
  pose proof (rep_push rb q _ buf' Hr Ho ltac:(lia)) as Hf. rewrite Hone in Hf.
  unfold wr_mirror, wr_index in Hf.
  destruct (Z.eqb_spec (write_index rb) (buffer_size rb - 1)) as [E|E]; msteps;
    (eexists; split; [reflexivity|]; split; [|done]).
  - rewrite (proj2 (Z.ltb_ge (write_index rb + 1) (buffer_size rb))) in Hf by lia.
    replace (write_index rb + 1 - buffer_size rb) with 0 in Hf by lia. done.
  - rewrite (proj2 (Z.ltb_lt (write_index rb + 1) (buffer_size rb))) in Hf by lia. by rewrite u15_small by lia.
Qed.

Lemma rt_ringbuffer_getchar_done rb q :
  rb_rep rb q ->
  exists rb', rt_ringbuffer_getchar rb = Done (head q) rb' /\ rb_rep rb' (tail q) /\
              buffer_size rb' = buffer_size rb.
Proof.
  intros Hr. pose proof (rb_rep_pos rb q Hr) as (Hri & Hq & _ & Hwr & Hm & Ha).
  pose proof Hr as (Hs & Hb & Hc & _). unfold rt_ringbuffer_getchar. mstep. rewrite (rb_data_len rb q Hr).
  destruct q as [|ch q]; [by exists rb|]. change (blen (ch :: q) =? 0) with false.
  destruct (circ_pop _ _ _ _ Hc) as [Hch _]. unfold rb_area in Hch. rewrite lookup_take_lt in Hch by lia.
  msteps. rewrite (bind_done _ _ _ _ _ (deref_some _ rb ch Hch)).
  pose proof (rep_pop rb (ch :: q) 1 Hr ltac:(unfold blen in *; cbn in *; lia)) as Hf. cbv zeta in Hf.
  destruct (Z.eqb_spec (read_index rb) (buffer_size rb - 1)); msteps;
    (eexists; split; [reflexivity|]; split; [|done]).
  - rewrite (proj2 (Z.ltb_ge (read_index rb + 1) (buffer_size rb))) in Hf by lia.
    replace (read_index rb + 1 - buffer_size rb) with 0 in Hf by lia. done.
  - rewrite (proj2 (Z.ltb_lt (read_index rb + 1) (buffer_size rb))) in Hf by lia. by rewrite u15_small by lia.
Qed.

Lemma rt_ringbuffer_putchar_force_done rb q ch :
  rb_rep rb q ->
  exists rb', rt_ringbuffer_putchar_force ch rb = Done 1 rb' /\
    rb_rep rb' (lastn (Z.to_nat (buffer_size rb)) (q ++ [ch])) /\ buffer_size rb' = buffer_size rb.
Proof.
  intros Hr. pose proof (rb_rep_pos rb q Hr) as (Hri & Hq & Hwi & Hwr & Hm & Ha).
  pose proof Hr as (Hs & _ & _ & _ & Hbit & Hmm). unfold rt_ringbuffer_putchar_force.
  assert (Hone : blen [ch] = 1) by done.
  destruct (copy_in_lin rb q [ch] 1 Hr) as (buf' & Hc & Ho); [lia..|]. msteps.
  change (take (Z.to_nat 1) [ch]) with [ch] in Ho.
  assert (Hi : wr_index rb 1 = if write_index rb =? buffer_size rb - 1 then 0 else write_index rb + 1).
  { unfold wr_index. destruct (Z.eqb_spec (write_index rb) (buffer_size rb - 1)); zcase; lia. }
  assert (Hw : wr_mirror rb 1 = if write_index rb =? buffer_size rb - 1 then not1 (write_mirror rb) else write_mirror rb).
  { unfold wr_mirror. destruct (Z.eqb_spec (write_index rb) (buffer_size rb - 1)); zcase; lia. }
  destruct (decide (rt_ringbuffer_status rb = RT_RINGBUFFER_FULL)) as [Hf|Hf].
  - rewrite bool_decide_true by done. apply (rb_status_full rb q Hr) in Hf.
    rewrite (proj2 (Z.ltb_ge _ _)) in Hmm by lia. rewrite Hmm.
    pose proof (fun m => rep_over rb q [ch] buf' m Hr Ho ltac:(lia)) as Hrep.
    rewrite Hone in Hrep. rewrite Hi in Hrep.
    destruct (write_index rb =? buffer_size rb - 1) eqn:E; zb; msteps; (eexists; split; [reflexivity|]; split; [|done]).
    + apply Hrep, not1_range.
    + rewrite u15_small by lia. by apply Hrep.
  - rewrite bool_decide_false by done.
    assert (blen q < buffer_size rb) by (rewrite (rb_status_full rb q Hr) in Hf; lia).
    rewrite lastn_all by (rewrite length_app; unfold blen in *; cbn; lia).
    pose proof (rep_push rb q [ch] buf' Hr Ho ltac:(lia)) as Hrep.
    rewrite Hone in Hrep. rewrite Hi, Hw in Hrep.
    destruct (write_index rb =? buffer_size rb - 1) eqn:E; zb; msteps; (eexists; split; [reflexivity|]; split; [|done]); [done|].
    by rewrite u15_small by lia.
Qed.

(** ** Overwriting *)

(** What [rt_ringbuffer_put_force] leaves in the buffer: the newest bytes, unless
    the block overtakes the read position while both positions are in the same
    mirror; then the mirror bits end up equal and the buffer reads as empty. *)
Definition forced (rb : ringbuffer) (q xs : list Z) : list Z :=
  if (read_mirror rb =? write_mirror rb) && (buffer_size rb <? blen q + blen xs) then []
  else lastn (Z.to_nat (buffer_size rb)) (q ++ xs).

Lemma rep_nil buf m i bs :
  0 < bs < 2 ^ 15 -> bs <= blen buf -> 0 <= i < bs -> m = 0 \/ m = 1 -> rb_rep (RB buf m i m i bs) [].
Proof.
  intros. unfold rb_rep, rb_area. cbn [buffer_ptr read_mirror read_index write_mirror write_index buffer_size].
  change (@blen Z []) with 0. rewrite Z.add_0_r, Z.mod_small, (proj2 (Z.ltb_lt i bs)) by lia.
  split_and!; try done; try lia. apply circ_nil. unfold blen in *. rewrite length_take. lia.
Qed.

(** No wrap: an overtaking block finds the positions in different mirrors. *)
Lemma force_lin rb q n :
  rb_rep rb q -> write_index rb + n < buffer_size rb ->
  buffer_size rb - blen q < n -> write_mirror rb = not1 (read_mirror rb) /\ read_mirror rb <> write_mirror rb.
Proof.
  intros Hr Hlt Ho. pose proof (rb_rep_pos rb q Hr) as (Hri & Hq & Hwi & Hwr & Hm & _).
  destruct Hr as (_ & _ & _ & _ & Hbit & Hmm). rewrite Hmm, Hm. revert Hwi. zcase; lia.
Qed.

(** The block overtakes the read position. *)
Lemma over_lin rb q ptr n :
  rb_rep rb q -> 0 <= n <= blen ptr -> write_index rb + n < buffer_size rb -> buffer_size rb - blen q < n ->
  exists rb', (forall B (k : M ringbuffer B),
      (copy_in (write_index rb) ptr n;;;
       modify (set_write (write_mirror rb) (u15 (write_index rb + n)));;;
       modify (fun r => set_read (read_mirror rb) (write_index r) r);;; k) rb = k rb') /\
    rb_rep rb' (forced rb q (take (Z.to_nat n) ptr)) /\ buffer_size rb' = buffer_size rb.
Proof.
  intros Hr Hn Hlin Hov. pose proof (rb_rep_pos rb q Hr) as (_ & _ & _ & Hwr & _ & _).
  pose proof Hr as (Hs & _ & _ & _ & Hbit & _). destruct (force_lin rb q n Hr) as [Hwm Hne]; [lia..|].
  destruct (copy_in_lin rb q ptr n Hr) as (buf' & Hc & Ho); [lia..|]. unfold forced.
  rewrite (proj2 (Z.eqb_neq _ _) Hne). cbn [andb]. rewrite Hwm.
  eexists. split; [intros B k; rewrite (after Hc); msteps; reflexivity|]. split; [|done].
  pose proof (blen_take ptr n ltac:(lia)) as Hbt.
  pose proof (rep_over rb q _ buf' (read_mirror rb) Hr Ho ltac:(lia) Hbit) as Hf.
  rewrite Hbt in Hf. unfold wr_index in Hf.
  rewrite (proj2 (Z.ltb_lt (write_index rb + n) (buffer_size rb))) in Hf by lia.
  unfold set_read, set_write, set_buffer. cbn [buffer_ptr read_mirror read_index write_mirror write_index buffer_size].
  by rewrite u15_small by lia.
Qed.

Lemma over_wrap rb q ptr n :
  rb_rep rb q -> buffer_size rb - write_index rb <= n <= buffer_size rb -> n <= blen ptr -> buffer_size rb - blen q < n ->
  let d := buffer_size rb - write_index rb in
  exists rb', (forall B (k : M ringbuffer B),
      (copy_in (write_index rb) ptr d;;; copy_in 0 (drop (Z.to_nat d) ptr) (n - d);;;
       modify (set_write (not1 (write_mirror rb)) (u15 (n - d)));;;
       modify (fun r => set_read (not1 (read_mirror rb)) (write_index r) r);;; k) rb = k rb') /\
    rb_rep rb' (forced rb q (take (Z.to_nat n) ptr)) /\ buffer_size rb' = buffer_size rb.
Proof.
  intros Hr Hn Hp Hov d. pose proof (rb_rep_pos rb q Hr) as (_ & Hq & _ & Hwr & _ & _).
  pose proof Hr as (Hs & Hb & _ & _ & Hbit & Hmm).
  destruct (copy_in_wrap rb q ptr n Hr) as (buf' & Hc & Ho); [lia..|].
  eexists. split; [intros B k; rewrite <- bind_assoc, (after Hc); msteps; reflexivity|]. split; [|done].
  pose proof (blen_take ptr n ltac:(lia)) as Hbt. unfold forced. rewrite Hbt.
  unfold set_read, set_write, set_buffer. cbn [buffer_ptr read_mirror read_index write_mirror write_index buffer_size].
  rewrite u15_small by lia. replace (n - d) with (write_index rb + n - buffer_size rb) by lia.
  destruct (Z.eqb_spec (read_mirror rb) (write_mirror rb)) as [E|E]; cbn [andb].
  - rewrite (proj2 (Z.ltb_lt (buffer_size rb) (blen q + n))) by lia. rewrite E.
    destruct Ho as [Hl _]. apply rep_nil; [lia|unfold blen in *; lia|lia|apply not1_range].
  - replace (write_mirror rb) with (not1 (read_mirror rb)) by (rewrite Hmm; revert E; rewrite Hmm; by zcase).
    pose proof (rep_over rb q _ buf' (not1 (read_mirror rb)) Hr Ho ltac:(lia) (not1_range _)) as Hf.
    rewrite Hbt in Hf. unfold wr_index in Hf.
    by rewrite (proj2 (Z.ltb_ge (write_index rb + n) (buffer_size rb))) in Hf by lia.
Qed.

Lemma forced_fits rb q xs : blen q + blen xs <= buffer_size rb -> forced rb q xs = q ++ xs.
Proof.
  intros. unfold forced. rewrite (proj2 (Z.ltb_ge _ _)), andb_false_r by lia.
  apply lastn_all. rewrite length_app. unfold blen in *. lia.
Qed.

Lemma put_force_block rb q ptr len :
  rb_rep rb q -> 0 <= len <= buffer_size rb -> len <= blen ptr ->
  exists rb', rt_ringbuffer_put_force ptr len rb = Done len rb' /\
    rb_rep rb' (forced rb q (take (Z.to_nat len) ptr)) /\ buffer_size rb' = buffer_size rb.
Proof.
  intros Hr Hlen Hp. pose proof (rb_rep_pos rb q Hr) as (Hri & Hq & Hwi & Hwr & Hm & Ha).
  pose proof Hr as (Hs & _). unfold rt_ringbuffer_put_force. mstep.
  rewrite (rb_space_len rb q Hr), u16_small by lia. mstep.
  rewrite (proj2 (Z.ltb_ge (buffer_size rb) len)) by lia. cbv zeta. msteps.
  destruct (Z.ltb_spec len (buffer_size rb - write_index rb)) as [Hlin|Hwrap];
    destruct (Z.ltb_spec (buffer_size rb - blen q) len) as [Hov|Hfit]; cbn [when];
    try rewrite (forced_fits rb q (take (Z.to_nat len) ptr)) by (rewrite blen_take; lia).
  - destruct (over_lin rb q ptr len Hr) as (rb' & Hk & Hf); [lia..|]. rewrite Hk. by exists rb'.
  - destruct (push_lin rb q ptr len Hr) as (rb' & Hk & Hf); [lia..|]. rewrite Hk. by exists rb'.
  - destruct (over_wrap rb q ptr len Hr) as (rb' & Hk & Hf); [lia..|]. rewrite Hk. by exists rb'.
  - destruct (push_wrap rb q ptr len Hr) as (rb' & Hk & Hf); [lia..|]. rewrite Hk. by exists rb'.
Qed.

(** [rt_ringbuffer_put_force] takes the whole block and keeps the newest bytes,
    except when the block overtakes the read position while both positions are in the same
    mirror: then every byte is lost, and the buffer reads as empty. *)
Theorem rt_ringbuffer_put_force_behaviour rb q ptr len :
  rb_rep rb q -> 0 <= len < 2 ^ 16 -> len <= blen ptr ->
  let n := Z.min len (buffer_size rb) in
  exists rb', rt_ringbuffer_put_force ptr len rb = Done n rb' /\ buffer_size rb' = buffer_size rb /\
    rb_rep rb' (if (read_mirror rb =? write_mirror rb) && (buffer_size rb <? blen q + n) then []
                else lastn (Z.to_nat (buffer_size rb)) (q ++ take (Z.to_nat len) ptr)).
Proof.
  intros Hr Hlen Hp n. pose proof Hr as (Hs & _). destruct (Z.le_gt_cases len (buffer_size rb)) as [Hle|Hgt].
  - destruct (put_force_block rb q ptr len Hr ltac:(lia) Hp) as (rb' & E & Hf & Hb). unfold n. rewrite Z.min_l by lia.
    exists rb'. split; [done|]. split; [done|]. unfold forced in Hf. by rewrite blen_take in Hf by lia.
  - set (ptr' := drop (Z.to_nat (len - buffer_size rb)) ptr).
    assert (Hp' : blen ptr' = blen ptr - (len - buffer_size rb)) by (unfold ptr', blen in *; rewrite length_drop; lia).
    destruct (put_force_block rb q ptr' (buffer_size rb) Hr ltac:(lia) ltac:(lia)) as (rb' & E & Hf & Hb).
    unfold n. rewrite Z.min_r by lia. exists rb'. split; [|split; [done|]].
    + rewrite <- E. unfold rt_ringbuffer_put_force. msteps.
      rewrite (proj2 (Z.ltb_lt _ len)), (proj2 (Z.ltb_ge _ (buffer_size rb))), u16_small by lia. done.
    + unfold forced in Hf. rewrite blen_take in Hf by lia.
      replace (lastn _ (q ++ take (Z.to_nat len) ptr))
        with (lastn (Z.to_nat (buffer_size rb)) (q ++ take (Z.to_nat (buffer_size rb)) ptr')); [done|].
      unfold lastn. rewrite !length_app, !length_take. unfold blen in *.
      rewrite !drop_app_ge by lia. unfold ptr'. rewrite take_drop_commute, drop_drop.
      f_equal; [lia|]. f_equal. lia.
Qed.

(** ** Sequences of operations against a bounded queue *)

Inductive rb_op :=
| Put (xs : list Z) | Get (n : Z) | Putchar (ch : Z) | Putchar_force (ch : Z) | Getchar | Data_len | Reset.

(** A caller's call: the number returned and the bytes delivered. *)
Definition rb_run (op : rb_op) : M ringbuffer (Z * list Z) :=
  match op with
  | Put xs => n <- rt_ringbuffer_put xs (blen xs);; ret (n, [])
  | Get n => rt_ringbuffer_get n
  | Putchar ch => n <- rt_ringbuffer_putchar ch;; ret (n, [])
  | Putchar_force ch => n <- rt_ringbuffer_putchar_force ch;; ret (n, [])
  | Getchar => o <- rt_ringbuffer_getchar;; ret (match o with Some c => (1, [c]) | None => (0, []) end)
  | Data_len => n <- gets rt_ringbuffer_data_len;; ret (n, [])
  | Reset => rt_ringbuffer_reset;;; ret (0, [])
  end.

(** The same call on a queue of at most [cap] bytes. *)
Definition rb_spec (cap : Z) (op : rb_op) (q : list Z) : Z * list Z * list Z :=
  match op with
  | Put xs => let n := Z.min (blen xs) (cap - blen q) in (n, [], q ++ take (Z.to_nat n) xs)
  | Get n => let n := Z.min n (blen q) in (n, take (Z.to_nat n) q, drop (Z.to_nat n) q)
  | Putchar ch => if blen q =? cap then (0, [], q) else (1, [], q ++ [ch])
  | Putchar_force ch => (1, [], lastn (Z.to_nat cap) (q ++ [ch]))
  | Getchar => match q with [] => (0, [], []) | c :: q => (1, [c], q) end
  | Data_len => (blen q, [], q)
  | Reset => (0, [], [])
  end.

(** The lengths passed fit [rt_uint16_t]. *)
Definition rb_op_ok (op : rb_op) : Prop :=
  match op with Put xs => blen xs < 2 ^ 16 | Get n => 0 <= n < 2 ^ 16 | _ => True end.

Fixpoint rb_runs (ops : list rb_op) : M ringbuffer (list (Z * list Z)) :=
  match ops with
  | [] => ret []
  | op :: ops => r <- rb_run op;; rs <- rb_runs ops;; ret (r :: rs)
  end.

Fixpoint rb_specs (cap : Z) (ops : list rb_op) (q : list Z) : list (Z * list Z) * list Z :=
  match ops with
  | [] => ([], q)
  | op :: ops =>
      let '(r, q) := rb_spec cap op q in let '(rs, q) := rb_specs cap ops q in (r :: rs, q)
  end.

Lemma rb_run_done rb q op :
  rb_rep rb q -> rb_op_ok op ->
  exists rb', rb_run op rb = Done (rb_spec (buffer_size rb) op q).1 rb' /\
    rb_rep rb' (rb_spec (buffer_size rb) op q).2 /\ buffer_size rb' = buffer_size rb.
Proof.
  intros Hr Hok. destruct op as [xs|n|ch|ch| | |]; cbn [rb_run rb_spec rb_op_ok] in *.
  - destruct (rt_ringbuffer_put_done rb q xs (blen xs) Hr) as (rb' & E & Hf); [pose proof (blen_nonneg xs); lia|lia|].
    rewrite (after E). by exists rb'.
  - destruct (rt_ringbuffer_get_done rb q n Hr Hok) as (rb' & E & Hf). by exists rb'.
  - destruct (rt_ringbuffer_putchar_done rb q ch Hr) as (rb' & E & Hf). rewrite (after E). exists rb'.
    by destruct (blen q =? buffer_size rb).
  - destruct (rt_ringbuffer_putchar_force_done rb q ch Hr) as (rb' & E & Hf). rewrite (after E). by exists rb'.
  - destruct (rt_ringbuffer_getchar_done rb q Hr) as (rb' & E & Hf). rewrite (after E). exists rb'. by destruct q.
  - exists rb. msteps. by rewrite (rb_data_len rb q Hr).
  - eexists. split; [reflexivity|]. split; [|done]. destruct Hr as (Hs & Hb & _).
    change (rb_rep (RB (buffer_ptr rb) 0 0 0 0 (buffer_size rb)) []). apply rep_nil; [lia..|by left].
Qed.

(** C32: a ring buffer is a bounded queue of bytes: every sequence of puts, gets, single
    byte operations, length queries and resets runs without a fault, returns the counts
    and the bytes the queue of capacity [buffer_size] returns, and leaves the buffer
    holding the queue's contents. *)
Theorem rt_ringbuffer_refines rb q ops :
  rb_rep rb q -> Forall rb_op_ok ops ->
  exists rb', rb_runs ops rb = Done (rb_specs (buffer_size rb) ops q).1 rb' /\
    rb_rep rb' (rb_specs (buffer_size rb) ops q).2.
Proof.
  intros Hr Hok. revert rb q Hr. induction Hok as [|op ops Hop _ IH]; intros rb q Hr; [by exists rb|].
  cbn [rb_runs rb_specs]. destruct (rb_run_done rb q op Hr Hop) as (rb1 & E1 & Hr1 & Hb1). rewrite (after E1).
  destruct (rb_spec (buffer_size rb) op q) as [r q1]. cbn in Hr1.
  destruct (IH rb1 q1 Hr1) as (rb2 & E2 & Hr2). rewrite (after E2). rewrite Hb1 in *.
  destruct (rb_specs (buffer_size rb) ops q1) as [rs q2]. by exists rb2.
Qed.

Lemma rt_ringbuffer_init_done pool size rb :
  4 <= size < 2 ^ 15 -> size <= blen pool ->
  exists rb', rt_ringbuffer_init pool size rb = Done tt rb' /\ rb_rep rb' [] /\
              buffer_size rb' = size - size mod 4.
Proof.
  intros Hs Hp. unfold rt_ringbuffer_init. rewrite (after (assert_true (0 <? size) rb (proj2 (Z.ltb_lt 0 size) ltac:(lia)))).
  pose proof (Z.mod_pos_bound size 4 ltac:(lia)). unfold RT_ALIGN_SIZE. rewrite RT_ALIGN_DOWN_spec by lia.
  assert (Es : s16 (size - size mod 4) = size - size mod 4) by (unfold s16; rewrite Z.mod_small; lia).
  eexists. split; [reflexivity|]. rewrite Es. split; [|done].
  assert (4 <= size - size mod 4) by (Z.div_mod_to_equations; lia).
  apply rep_nil; first [lia|by left].
Qed.

(** ** Ring buffers on the heap *)

Definition SIZEOF_RINGBUFFER : Z := 12.

(** The pointer returned, and the pool and size the structure behind it was initialised with. *)
Definition rt_ringbuffer_create (size : Z) : M heap (Z * option (Z * Z)) :=
  rt_assert (0 <? size);;;
  let size := u16 (RT_ALIGN_DOWN size RT_ALIGN_SIZE) in
  rb <- rt_malloc SIZEOF_RINGBUFFER;;
  if rb =? 0 then ret (rb, None)
  else
    pool <- rt_malloc size;;
    if pool =? 0 then rt_free rb;;; ret (rb, None)
    else
      rt_assert (0 <? s16 size);;;
      ret (rb, Some (pool, s16 (RT_ALIGN_DOWN (s16 size) RT_ALIGN_SIZE))).

Definition rt_ringbuffer_destroy (rb pool : Z) : M heap unit := rt_free pool;;; rt_free rb.

(** when the second allocation of [rt_ringbuffer_create] fails, the control block is given
    back to the heap and its address is returned all the same: the caller gets a non-null
    pointer to memory that is not allocated. *)
Theorem rt_ringbuffer_create_dangling h bs size rb h1 :
  heap_inv h bs -> lowest h bs -> 4 <= size < 2 ^ 16 ->
  rt_malloc SIZEOF_RINGBUFFER h = Done rb h1 -> rb <> 0 -> rt_malloc (size - size mod 4) h1 = Done 0 h1 ->
  exists h2, rt_ringbuffer_create size h = Done (rb, None) h2 /\ heap_inv h2 bs /\
    lfree h2 = lfree h /\ used_mem h2 = used_mem h.
Proof.
  intros HI HL Hs E Hrb E2. unfold rt_ringbuffer_create.
  rewrite (after (assert_true (0 <? size) h (proj2 (Z.ltb_lt 0 size) ltac:(lia)))). cbv zeta.
  pose proof (Z.mod_pos_bound size 4 ltac:(lia)). unfold RT_ALIGN_SIZE.
  rewrite RT_ALIGN_DOWN_spec, u16_small by lia. rewrite (after E).
  rewrite (proj2 (Z.eqb_neq _ _) Hrb). rewrite (after E2). cbn [Z.eqb].
  destruct (malloc_free_restores h bs SIZEOF_RINGBUFFER rb h1 HI HL) as (h2 & E3 & HI2 & Hl & Hu & _); [done..|].
  rewrite (after E3). by exists h2.
Qed.

(** ** Concrete buffers *)

(** Eight bytes, the bytes 12 to 15 stored at indices 2 to 5. *)
Definition rb_demo : ringbuffer := RB [10; 11; 12; 13; 14; 15; 16; 17] 0 2 0 6 8.

Lemma rb_demo_rep : rb_rep rb_demo [12; 13; 14; 15].
Proof.
  split; [done|]. split; [done|]. split; [|split; [done|]; split; [by left|done]].
  split; [done|]. split; [vm_compute; lia|].
  intros i x. do 4 (destruct i as [|i]; [by intros [= <-]|]). done.
Qed.

Lemma rt_ringbuffer_refines_witness :
  exists rb', rb_runs [Put [1; 2; 3; 4; 5]; Get 6; Putchar_force 9; Data_len; Getchar] rb_demo
      = Done [(4, []); (6, [12; 13; 14; 15; 1; 2]); (1, []); (3, []); (1, [3])] rb' /\
    rb_rep rb' [4; 9].
Proof.
  apply (rt_ringbuffer_refines rb_demo [12; 13; 14; 15]
           [Put [1; 2; 3; 4; 5]; Get 6; Putchar_force 9; Data_len; Getchar] rb_demo_rep).
  repeat constructor; cbn; lia.
Defined.

(** Six bytes forced into [rb_demo]: nothing is left. *)
Lemma rt_ringbuffer_put_force_behaviour_witness :
  exists rb', rt_ringbuffer_put_force [1; 2; 3; 4; 5; 6] 6 rb_demo = Done 6 rb' /\ buffer_size rb' = 8 /\
    rb_rep rb' [].
Proof.
  apply (rt_ringbuffer_put_force_behaviour rb_demo [12; 13; 14; 15] [1; 2; 3; 4; 5; 6] 6 rb_demo_rep); vm_compute; done.
Defined.

(** A heap of one free block, and the same heap with the control block taken. *)
Definition heap_small : heap := Heap 0x1000 228 0 216 0 0
  {[0 := HeapMem HEAP_MAGIC 0 228 0; 228 := HeapMem HEAP_MAGIC 1 228 0]} ∅.
Definition heap_small_rb : heap :=
  Eval vm_compute in match rt_malloc SIZEOF_RINGBUFFER heap_small with Done _ h => h | Stop _ => heap_small end.

Lemma heap_small_inv : heap_inv heap_small [(228, false)].
Proof.
  constructor; try done; [repeat split; by eexists|by repeat constructor|cbn; set_solver].
Qed.

Lemma rt_ringbuffer_create_dangling_witness :
  exists h2, rt_ringbuffer_create 203 heap_small = Done (0x100c, None) h2 /\ heap_inv h2 [(228, false)] /\
    lfree h2 = 0 /\ used_mem h2 = 0.
Proof.
  apply (rt_ringbuffer_create_dangling heap_small [(228, false)] 203 0x100c heap_small_rb heap_small_inv);
    [reflexivity|lia|concrete|lia|concrete].
Defined.
