(* ===== verification/Gpio.v ===== *)
(** * Pins and delays of the board

    The drivers under bsp/stm32f4xx-HAL-BOX/Board_SYX talk to their chips by
    writing levels to pins, reading pins and waiting.  The state of the model is
    the time in microseconds and the pin writes so far, newest first; the level
    an input pin has at a time is a parameter of the functions that read it.
    Instructions take no time, and a call of [HAL_Delay_us] takes what it is asked
    for ([wait_us]); the last section models the function itself, a busy wait on the
    SysTick down-counter, and shows that it ends, and never early. *)

From S2P Require Import Prelude Exec.

Inductive port := GPIOA | GPIOB | GPIOC | GPIOD | GPIOE | GPIOF | GPIOG.

#[global] Instance port_eq_dec : EqDecision port.
Proof. solve_decision. Defined.

(** A write of [GPIO_PIN_SET] ([true]) or [GPIO_PIN_RESET] to pin [pin] of a port. *)
Record edge := Edge { e_port : port; e_pin : Z; e_level : bool }.

#[global] Instance edge_eq_dec : EqDecision edge.
Proof. solve_decision. Defined.

Record board := Board { now : Z; trace : list (Z * edge) }.

Definition HAL_GPIO_WritePin (p : port) (pin : Z) (v : bool) : M board unit :=
  modify (fun b => Board (now b) ((now b, Edge p pin v) :: trace b)).

(** [HAL_Delay_us(n)] and [HAL_Delay(ms)], as their callers rely on them. *)
Definition wait_us (n : Z) : M board unit := modify (fun b => Board (now b + n) (trace b)).
Definition wait_ms (ms : Z) : M board unit := wait_us (1000 * ms).

(** The level of an input pin at the present time. *)
Definition HAL_GPIO_ReadPin (line : Z -> bool) : M board bool := gets (fun b => line (now b)).

(** ** Bits of a byte *)

(** The value of bits with the least significant one first. *)
Fixpoint bits_val (bs : list bool) : Z :=
  match bs with [] => 0 | b :: bs => Z.b2z b + 2 * bits_val bs end.

(** The bits of a byte, most significant first, as the loops take them off. *)
Fixpoint msb_first (n : nat) (d : Z) : list bool :=
  match n with O => [] | S n => negb (Z.shiftr d 7 =? 0) :: msb_first n (u8 (Z.shiftl d 1)) end.

(** A statement about every byte, by going through them. *)
Ltac every_byte d Hd :=
  match goal with |- ?P =>
    let Q := eval pattern d in P in
    match Q with ?F _ =>
      let HF := fresh in assert (HF : Forall F (seqZ 0 256)) by decided;
      apply (proj1 (Forall_forall F _) HF d); apply elem_of_seqZ; lia
    end
  end.

Lemma msb_first_val d : 0 <= d < 256 -> bits_val (rev (msb_first 8 d)) = d.
Proof.
  intros Hd. every_byte d Hd.
Qed.

Lemma msb_first_length n d : length (msb_first n d) = n.
Proof. revert d. induction n as [|n IH]; intros d; cbn; [done|]. by rewrite IH. Qed.

(** ** The busy wait of [HAL_Delay_us] *)

Section delay.
(** [SysTick->LOAD], and the cycle at which the loop reads [SysTick->VAL] for the
    [i]-th time. *)
Context (reload : Z) (cycle : nat -> Z).

(** The counter runs from [reload] down to zero and starts again. *)
Definition VAL (c : Z) : Z := reload - c mod (reload + 1).

(** One pass of the [while(1)] loop: the new [first_value] and [change_number], and
    whether it leaves the loop. *)
Definition delay_pass (nus_number first_value change_number current_value : Z) : Z * Z * bool :=
  if negb (current_value =? first_value) then
    let change_number :=
      if current_value <? first_value then u32 (change_number + (first_value - current_value))
      else u32 (change_number + (reload - current_value + first_value)) in
    (current_value, change_number, nus_number <=? change_number)
  else (first_value, change_number, false).

(** The loop from its [i]-th read on, for at most [fuel] passes: the number of the read
    after which it leaves. *)
Fixpoint delay_loop (fuel i : nat) (nus_number first_value change_number : Z) : option nat :=
  match fuel with
  | O => None
  | S fuel =>
      let '(f, c, leave) := delay_pass nus_number first_value change_number (VAL (cycle i)) in
      if leave then Some i else delay_loop fuel (S i) nus_number f c
  end.

Definition nus_number (delay_us : Z) : Z := u32 (delay_us * ((reload + 1) / 1000)).

(** [HAL_Delay_us(delay_us)]: the read number 0 is the one before the loop. *)
Definition HAL_Delay_us (fuel : nat) (delay_us : Z) : option nat :=
  delay_loop fuel 1 (nus_number delay_us) (VAL (cycle 0)) 0.

Hypothesis Hreload : 0 < reload < 2 ^ 24.
Hypothesis Hcycle : forall i, cycle i < cycle (S i) <= cycle i + reload.

(** How often the counter has been reloaded between two cycles. *)
Definition reloads (a b : Z) : Z := b / (reload + 1) - a / (reload + 1).

Lemma reloads_bound a b : a <= b -> 0 <= reloads a b /\ 2 * reloads a b <= b - a + 2.
Proof.
  intros Hab. unfold reloads.
  pose proof (Z.div_mod a (reload + 1) ltac:(lia)). pose proof (Z.mod_pos_bound a (reload + 1) ltac:(lia)).
  pose proof (Z.div_mod b (reload + 1) ltac:(lia)). pose proof (Z.mod_pos_bound b (reload + 1) ltac:(lia)).
  split; nia.
Qed.

(** What one pass adds to [change_number]: the cycles since the last read, less one when
    the counter has been reloaded in between. *)
Lemma pass_counts nus change a b :
  a < b <= a + reload -> 0 <= change -> change + (b - a) < 2 ^ 32 ->
  let change' := change + (b - a) - reloads a b in
  delay_pass nus (VAL a) change (VAL b) = (VAL b, change', nus <=? change') /\ 0 <= change'.
Proof.
  intros Hab Hc Hov change'.
  pose proof (Z.div_mod a (reload + 1) ltac:(lia)). pose proof (Z.mod_pos_bound a (reload + 1) ltac:(lia)).
  pose proof (Z.div_mod b (reload + 1) ltac:(lia)). pose proof (Z.mod_pos_bound b (reload + 1) ltac:(lia)).
  unfold delay_pass, VAL, change', reloads. set (qa := a / (reload + 1)) in *. set (qb := b / (reload + 1)) in *.
  assert (qb = qa \/ qb = qa + 1) as [E|E] by nia; rewrite E in *; split; try lia;
    (destruct (Z.eqb_spec (reload - b mod (reload + 1)) (reload - a mod (reload + 1))); [nia|]); cbn [negb].
  - rewrite (proj2 (Z.ltb_lt _ _)) by nia. cbv zeta. rewrite u32_small by nia.
    replace (change + _) with (change + (b - a) - (qa - qa)) by nia. done.
  - rewrite (proj2 (Z.ltb_ge _ _)) by nia. cbv zeta. rewrite u32_small by nia.
    replace (change + _) with (change + (b - a) - (qa + 1 - qa)) by nia. done.
Qed.

(** [change_number] after read number [i]. *)
Definition counted (i : nat) : Z := cycle i - cycle 0 - reloads (cycle 0) (cycle i).

Lemma cycle_mono i : cycle 0 + Z.of_nat i <= cycle i.
Proof. induction i as [|i IH]; [lia|]. pose proof (Hcycle i). lia. Qed.

Lemma loop_ends nus fuel i :
  0 <= nus -> nus + reload < 2 ^ 32 -> 0 <= counted i -> counted i < nus \/ i = 0%nat ->
  2 * nus + 4 <= Z.of_nat fuel + (cycle i - cycle 0) ->
  exists j, delay_loop fuel (S i) nus (VAL (cycle i)) (counted i) = Some (S j) /\
    nus <= counted (S j) /\ (counted j < nus \/ j = 0%nat).
Proof.
  intros Hn Hov. revert i. induction fuel as [|fuel IH]; intros i H0 Hlt Hf.
  - pose proof (cycle_mono i). pose proof (reloads_bound (cycle 0) (cycle i) ltac:(lia)).
    destruct Hlt as [Hlt| ->]; unfold counted in *; lia.
  - pose proof (Hcycle i). pose proof (cycle_mono i). pose proof (reloads_bound (cycle 0) (cycle i) ltac:(lia)).
    destruct (pass_counts nus (counted i) (cycle i) (cycle (S i))) as [E Hc]; [lia|done|..].
    { destruct Hlt as [Hlt| ->]; [lia|]. unfold counted, reloads. lia. }
    cbn [delay_loop]. rewrite E.
    replace (counted i + (cycle (S i) - cycle i) - reloads (cycle i) (cycle (S i))) with (counted (S i)) in *
      by (unfold counted, reloads; lia).
    destruct (Z.leb_spec nus (counted (S i))) as [Hle|Hgt].
    + exists i. split_and!; [done|lia|done].
    + apply IH; [done|by left|]. lia.
Qed.

Lemma HAL_Delay_us_done delay_us :
  0 <= delay_us -> delay_us * ((reload + 1) / 1000) + reload < 2 ^ 32 ->
  let n := delay_us * ((reload + 1) / 1000) in
  exists j, HAL_Delay_us (Z.to_nat (2 * n + 4)) delay_us = Some (S j) /\
    n <= cycle (S j) - cycle 0 /\
    (cycle j - cycle 0 < n + reloads (cycle 0) (cycle j) \/ j = 0%nat).
Proof.
  intros Hd Hov n. assert (0 <= n) by (unfold n; pose proof (Z.div_pos (reload + 1) 1000); nia).
  unfold HAL_Delay_us, nus_number. rewrite u32_small by lia. fold n.
  assert (E0 : counted 0 = 0) by (unfold counted, reloads; lia).
  destruct (loop_ends n (Z.to_nat (2 * n + 4)) 0) as (j & E & Hge & Hlt); [lia|lia|lia|by right|lia|].
  rewrite E0 in E. exists j. pose proof (cycle_mono (S j)).
  pose proof (reloads_bound (cycle 0) (cycle (S j)) ltac:(lia)). unfold counted in *.
  split_and!; [done|lia|]. destruct Hlt as [Hlt| ->]; [left; lia|by right].
Qed.
End delay.

(** the busy wait of [HAL_Delay_us] on the SysTick counter ends, not before the requested
    number of cycles has passed, and at the first read of the counter at which the cycles counted,
    one short per reload of the counter, reach it; the counter need only be read once per period. *)
Theorem HAL_Delay_us_waits (reload : Z) (cycle : nat -> Z) (delay_us : Z) :
  0 < reload < 2 ^ 24 -> (forall i, cycle i < cycle (S i) <= cycle i + reload) ->
  0 <= delay_us -> delay_us * ((reload + 1) / 1000) + reload < 2 ^ 32 ->
  let n := delay_us * ((reload + 1) / 1000) in
  exists j, HAL_Delay_us reload cycle (Z.to_nat (2 * n + 4)) delay_us = Some (S j) /\
    n <= cycle (S j) - cycle 0%nat /\
    (cycle j - cycle 0%nat < n + reloads reload (cycle 0%nat) (cycle j) \/ j = 0%nat).
Proof. intros. by apply HAL_Delay_us_done. Qed.

(** 168 MHz, a tick of one millisecond, a read of the counter every 13 cycles. *)
Lemma HAL_Delay_us_waits_witness :
  exists j, HAL_Delay_us 167999 (fun i => 13 * Z.of_nat i) (Z.to_nat (2 * (40 * 168) + 4)) 40 = Some (S j) /\
    40 * 168 <= 13 * Z.of_nat (S j) - 0 /\
    (13 * Z.of_nat j - 0 < 40 * 168 + reloads 167999 0 (13 * Z.of_nat j) \/ j = 0%nat).
Proof.
  apply (HAL_Delay_us_waits 167999 (fun i => 13 * Z.of_nat i) 40); [lia| |lia|by vm_compute].
  intros i. lia.
Defined.
