(* ===== verification/Display.v ===== *)
(** * The displays of the board

    The two LED matrices (Board_SYX/src/max7219.c and dzp1.c) and the seven-segment
    display (Board_SYX/src/SMG.c) are written bit by bit through three pins.  The
    drivers are modelled at the level of pin writes.  The chips on the other side are
    modelled by [chip]: a shift register that takes its data pin at a rising clock and
    hands over its last sixteen bits at a rising load pin.  The theorems say what the
    chip has received after a driver call, whatever was shifted in before. *)

From S2P Require Import Prelude Exec Gpio.

(** ** The drivers *)

Definition Max7219_pinCS (v : bool) := HAL_GPIO_WritePin GPIOE 15 v.
Definition Max7219_pinCLK (v : bool) := HAL_GPIO_WritePin GPIOE 12 v.
Definition Max7219_pinDIN (v : bool) := HAL_GPIO_WritePin GPIOE 10 v.

(** The [for(i=8;i>=1;i--)] loop, with [n] bits to go. *)
Fixpoint Max7219_bits (n : nat) (DATA : Z) : M board unit :=
  match n with
  | O => ret tt
  | S n =>
      Max7219_pinCLK false;;;
      (if Z.shiftr DATA 7 =? 0 then Max7219_pinDIN false else Max7219_pinDIN true);;;
      Max7219_pinCLK true;;;
      Max7219_bits n (u8 (Z.shiftl DATA 1))
  end.

Definition Write_Max7219_byte (DATA : Z) : M board unit :=
  Max7219_pinCS false;;; Max7219_bits 8 DATA.

Definition Write_Max7219 (address dat : Z) : M board unit :=
  Max7219_pinCS false;;;
  Write_Max7219_byte (u8 address);;;
  wait_us 10;;;
  Write_Max7219_byte (u8 dat);;;
  wait_us 10;;;
  Max7219_pinCS true.

Definition Init_MAX7219 : M board unit :=
  Write_Max7219 0x09 0x00;;;
  Write_Max7219 0x0a 0x03;;;
  Write_Max7219 0x0b 0x06;;;
  Write_Max7219 0x0c 0x01;;;
  Write_Max7219 0x0f 0x00.

Definition DZP1_pinCS (v : bool) := HAL_GPIO_WritePin GPIOE 2 v.
Definition DZP1_pinCLK (v : bool) := HAL_GPIO_WritePin GPIOE 4 v.
Definition DZP1_pinDIN (v : bool) := HAL_GPIO_WritePin GPIOE 3 v.

Fixpoint DZP1_bits (n : nat) (DATA : Z) : M board unit :=
  match n with
  | O => ret tt
  | S n =>
      DZP1_pinCLK false;;;
      wait_us 2;;;
      (if Z.shiftr DATA 7 =? 0 then DZP1_pinDIN false else DZP1_pinDIN true);;;
      wait_us 2;;;
      DZP1_pinCLK true;;;
      wait_us 2;;;
      DZP1_bits n (u8 (Z.shiftl DATA 1))
  end.

Definition Write_DZP1_byte (DATA : Z) : M board unit :=
  DZP1_pinCS false;;; wait_us 2;;; DZP1_bits 8 DATA.

Definition Write_DZP1 (address dat : Z) : M board unit :=
  DZP1_pinCS false;;;
  Write_DZP1_byte (u8 address);;;
  wait_us 10;;;
  Write_DZP1_byte (u8 dat);;;
  wait_us 10;;;
  DZP1_pinCS true.

Definition Init_DZP1 : M board unit :=
  wait_ms 200;;;
  Write_DZP1 0x09 0x00;;;
  Write_DZP1 0x0a 0x03;;;
  Write_DZP1 0x0b 0x06;;;
  Write_DZP1 0x0c 0x01;;;
  Write_DZP1 0x0f 0x00.

Definition SMG_OF : list Z :=
  [0x3f; 0x06; 0x5b; 0x4f; 0x66; 0x6d; 0x7d; 0x07; 0x7f; 0x6f; 0x73; 0x40; 0x39; 0x5e; 0x79; 0x00; 0x40].
Definition SMG_COD : list Z := [0xfe; 0xfd; 0xfb; 0xf7].

Definition SMG_DIN (v : bool) := HAL_GPIO_WritePin GPIOB 2 v.
Definition SMG_STCLK (v : bool) := HAL_GPIO_WritePin GPIOB 0 v.
Definition SMG_SHCLK (v : bool) := HAL_GPIO_WritePin GPIOB 1 v.

Fixpoint SMG_bits (n : nat) (data : Z) : M board unit :=
  match n with
  | O => ret tt
  | S n =>
      (if nz (Z.land data 0x80) then SMG_DIN true else SMG_DIN false);;;
      SMG_SHCLK false;;;
      SMG_SHCLK true;;;
      SMG_bits n (u8 (Z.shiftl data 1))
  end.

Definition SMG_out (data : Z) : M board unit := SMG_bits 8 data.

(** An element of a constant array. *)
Definition at_index (a : list Z) (i : Z) : M board Z :=
  if 0 <=? i then deref (fun _ => a !! Z.to_nat i) else stuck Undefined.

Definition SMG_Display (addr count : Z) : M board unit :=
  c <- at_index SMG_OF count;; SMG_out c;;;
  wait_ms 4;;;
  d <- at_index SMG_COD (addr - 1);; SMG_out d;;;
  SMG_STCLK false;;;
  SMG_STCLK true.

(** The loop [for(i=4;i>0;i--)] of [SMG_Display_off]. *)
Fixpoint SMG_off_loop (i : nat) : M board unit :=
  match i with
  | O => ret tt
  | S j =>
      SMG_out 0x00;;;
      SMG_out (Z.land 0xff (Z.lnot (Z.shiftl 1 (Z.of_nat i - 1))));;;
      SMG_STCLK false;;;
      SMG_STCLK true;;;
      SMG_off_loop j
  end.

Definition SMG_Display_off : M board unit := SMG_off_loop 4.

Definition SMG_show (count : Z) : M board unit :=
  if 200 <=? count then ret tt
  else
    let display_count :=
      if 10000 <=? count then 5
      else if 1000 <=? count then 4
      else if 100 <=? count then 3
      else if 10 <=? count then 2
      else 1 in
    let led2 := (count mod 1000) / 100 in
    let led1 := (count mod 100) / 10 in
    let led0 := count mod 10 in
    if display_count =? 1 then SMG_Display 3 led0
    else if display_count =? 2 then
      SMG_Display 3 led0;;; wait_us 7000;;; SMG_Display 2 led1
    else if display_count =? 3 then
      SMG_Display 3 led0;;; wait_us 5000;;; SMG_Display 2 led1;;; wait_us 5000;;; SMG_Display 1 led2
    else ret tt.

(** ** The chips *)

Record chip_pins := ChipPins { c_port : port; c_load : Z; c_clk : Z; c_din : Z }.

Definition max7219_pins : chip_pins := ChipPins GPIOE 15 12 10.
Definition dzp1_pins : chip_pins := ChipPins GPIOE 2 4 3.
Definition hc595_pins : chip_pins := ChipPins GPIOB 0 1 2.

(** The levels of the three pins, the bits shifted in, newest first, and the pairs of
    bytes handed over, oldest first. *)
Record chip := Chip { load : bool; clk : bool; din : bool; shifted : list bool; received : list (Z * Z) }.

Definition handover (bs : list bool) : Z * Z := (bits_val (take 8 (drop 8 bs)), bits_val (take 8 bs)).

Definition chip_step (ps : chip_pins) (e : edge) (c : chip) : chip :=
  if decide (e_port e = c_port ps) then
    if e_pin e =? c_din ps then Chip (load c) (clk c) (e_level e) (shifted c) (received c)
    else if e_pin e =? c_clk ps then
      Chip (load c) (e_level e) (din c)
        (if e_level e && negb (clk c) then din c :: shifted c else shifted c) (received c)
    else if e_pin e =? c_load ps then
      Chip (e_level e) (clk c) (din c) (shifted c)
        (if e_level e && negb (load c) then received c ++ [handover (shifted c)] else received c)
    else c
  else c.

(** The chip after a trace of pin writes, newest first. *)
Definition chip_of (ps : chip_pins) (tr : list (Z * edge)) : chip :=
  foldr (fun e => chip_step ps (e.2)) (Chip false false false [] []) tr.

(** ** What a driver does to a chip *)

Section does.
Context (ps : chip_pins).

Definition does (m : M board unit) (f : chip -> chip) : Prop :=
  forall b, exists b', m b = Done tt b' /\ chip_of ps (trace b') = f (chip_of ps (trace b)).

(** [m] makes the chip receive [l]. *)
Definition sends (m : M board unit) (l : list (Z * Z)) : Prop :=
  forall b, exists b', m b = Done tt b' /\
    received (chip_of ps (trace b')) = received (chip_of ps (trace b)) ++ l.

Lemma does_ret : does (ret tt) id.
Proof. intros b. by exists b. Qed.

Lemma does_bind m k f g : does m f -> does k g -> does (m;;; k) (fun c => g (f c)).
Proof.
  intros Hm Hk b. destruct (Hm b) as (b1 & E1 & H1). destruct (Hk b1) as (b2 & E2 & H2).
  exists b2. rewrite (after E1). split; [done|]. by rewrite H2, H1.
Qed.

Lemma does_wait n : does (wait_us n) id.
Proof. intros b. by eexists. Qed.

Lemma does_write p n v : does (HAL_GPIO_WritePin p n v) (chip_step ps (Edge p n v)).
Proof. intros b. by eexists. Qed.

Lemma does_ext m f g : does m f -> (forall c, f c = g c) -> does m g.
Proof. intros Hm Hfg b. destruct (Hm b) as (b' & E & H). exists b'. by rewrite H, Hfg. Qed.

Lemma does_sends m f l : does m f -> (forall c, received (f c) = received c ++ l) -> sends m l.
Proof. intros Hm Hf b. destruct (Hm b) as (b' & E & H). exists b'. by rewrite H, Hf. Qed.

Lemma sends_ret : sends (ret tt) [].
Proof. intros b. exists b. by rewrite app_nil_r. Qed.

Lemma sends_bind m k l l' : sends m l -> sends k l' -> sends (m;;; k) (l ++ l').
Proof.
  intros Hm Hk b. destruct (Hm b) as (b1 & E1 & H1). destruct (Hk b1) as (b2 & E2 & H2).
  exists b2. rewrite (after E1). split; [done|]. by rewrite H2, H1, app_assoc.
Qed.

Lemma sends_wait n : sends (wait_us n) [].
Proof. eapply does_sends; [apply does_wait|]. intros c. by rewrite app_nil_r. Qed.

(** The bits clocked in one after the other. *)
Fixpoint shift_in (bs : list bool) (c : chip) : chip :=
  match bs with
  | [] => c
  | b :: bs => shift_in bs (Chip (load c) true b (b :: shifted c) (received c))
  end.

Lemma shift_in_shifted bs c : shifted (shift_in bs c) = rev bs ++ shifted c.
Proof.
  revert c. induction bs as [|b bs IH]; intros c; [done|]. cbn [shift_in]. rewrite IH. cbn. by rewrite <- app_assoc.
Qed.

Lemma shift_in_kept bs c : received (shift_in bs c) = received c /\ load (shift_in bs c) = load c.
Proof. revert c. induction bs as [|b bs IH]; intros c; [done|]. cbn [shift_in]. by destruct (IH (Chip (load c) true b (b :: shifted c) (received c))). Qed.
End does.

Lemma land_0x80 d : 0 <= d < 256 -> nz (Z.land d 0x80) = negb (Z.shiftr d 7 =? 0).
Proof.
  intros Hd. every_byte d Hd.
Qed.

(** Two bytes in a row, then the load pin. *)
Lemma handover_bytes a d bs :
  0 <= a < 256 -> 0 <= d < 256 ->
  handover (rev (msb_first 8 d) ++ rev (msb_first 8 a) ++ bs) = (a, d).
Proof.
  intros Ha Hd. unfold handover.
  rewrite drop_app_length', take_app_length' by (by rewrite length_rev, msb_first_length).
  rewrite take_app_length' by (by rewrite length_rev, msb_first_length). by rewrite !msb_first_val.
Qed.

#[export] Hint Resolve does_bind does_wait does_write does_ret sends_bind sends_wait sends_ret : rt.

(** The two matrix drivers differ in their pins and delays only. *)
Lemma Max7219_bits_does n d : does max7219_pins (Max7219_bits n d) (shift_in (msb_first n d)).
Proof.
  revert d. induction n as [|n IH]; intros d; [apply does_ret|]. cbn [Max7219_bits msb_first shift_in].
  destruct (Z.shiftr d 7 =? 0); (eapply does_ext; [eauto 20 with rt|]); intros c; reflexivity.
Qed.

Lemma DZP1_bits_does n d : does dzp1_pins (DZP1_bits n d) (shift_in (msb_first n d)).
Proof.
  revert d. induction n as [|n IH]; intros d; [apply does_ret|]. cbn [DZP1_bits msb_first shift_in].
  destruct (Z.shiftr d 7 =? 0); (eapply does_ext; [eauto 20 with rt|]); intros c; reflexivity.
Qed.

Lemma SMG_bits_does n d : 0 <= d < 256 -> does hc595_pins (SMG_bits n d) (shift_in (msb_first n d)).
Proof.
  revert d. induction n as [|n IH]; intros d Hd; [apply does_ret|]. cbn [SMG_bits msb_first shift_in].
  rewrite land_0x80 by done. specialize (IH (u8 (Z.shiftl d 1)) (u8_range _)).
  destruct (Z.shiftr d 7 =? 0); cbn [negb]; (eapply does_ext; [eauto 20 with rt|]); intros c; reflexivity.
Qed.

(** Two bytes between a falling and a rising load pin. *)
Definition two_bytes (a d : Z) (c : chip) : chip :=
  let c' := shift_in (msb_first 8 d) (shift_in (msb_first 8 a) (Chip false (clk c) (din c) (shifted c) (received c))) in
  Chip true (clk c') (din c') (shifted c') (received c ++ [handover (shifted c')]).

Lemma two_bytes_received a d c :
  0 <= a < 256 -> 0 <= d < 256 -> received (two_bytes a d c) = received c ++ [(a, d)].
Proof.
  intros. unfold two_bytes. cbn [received]. rewrite !shift_in_shifted. cbn [shifted]. by rewrite handover_bytes.
Qed.

(** The levels the load pin has seen, once the bytes are in. *)
Lemma two_bytes_load ps a d c :
  c_load ps <> c_din ps -> c_load ps <> c_clk ps ->
  let c' := shift_in (msb_first 8 d) (shift_in (msb_first 8 a) (Chip false (clk c) (din c) (shifted c) (received c))) in
  chip_step ps (Edge (c_port ps) (c_load ps) true) c' = two_bytes a d c.
Proof.
  intros H1 H2 c'. unfold chip_step. cbn [e_port e_pin e_level]. rewrite decide_True by done.
  rewrite (proj2 (Z.eqb_neq _ _) H1), (proj2 (Z.eqb_neq _ _) H2), Z.eqb_refl. unfold two_bytes. fold c'.
  unfold c'. pose proof (shift_in_kept (msb_first 8 d)) as Hk. pose proof (shift_in_kept (msb_first 8 a)) as Hk'.
  rewrite (proj2 (Hk _)), (proj2 (Hk' _)), (proj1 (Hk _)), (proj1 (Hk' _)). done.
Qed.

Lemma Write_Max7219_sends a d : sends max7219_pins (Write_Max7219 a d) [(u8 a, u8 d)].
Proof.
  apply (does_sends _ _ (two_bytes (u8 a) (u8 d))); [|intros c; apply two_bytes_received; apply u8_range].
  eapply does_ext.
  - unfold Write_Max7219, Write_Max7219_byte. eauto 20 using Max7219_bits_does with rt.
  - intros c. by rewrite <- (two_bytes_load max7219_pins).
Qed.

Lemma Write_DZP1_sends a d : sends dzp1_pins (Write_DZP1 a d) [(u8 a, u8 d)].
Proof.
  apply (does_sends _ _ (two_bytes (u8 a) (u8 d))); [|intros c; apply two_bytes_received; apply u8_range].
  eapply does_ext.
  - unfold Write_DZP1, Write_DZP1_byte. eauto 20 using DZP1_bits_does with rt.
  - intros c. by rewrite <- (two_bytes_load dzp1_pins).
Qed.

(** The drivers of one matrix do not disturb the other one. *)
Definition undisturbed (ps : chip_pins) (m : M board unit) : Prop := does ps m id.

Lemma Write_Max7219_apart a d : undisturbed dzp1_pins (Write_Max7219 a d).
Proof.
  assert (HB : forall n d, does dzp1_pins (Max7219_bits n d) id).
  { induction n as [|n IH]; intros d'; [apply does_ret|]. cbn [Max7219_bits].
    destruct (Z.shiftr d' 7 =? 0); (eapply does_ext; [eauto 20 with rt|done]). }
  unfold undisturbed, Write_Max7219, Write_Max7219_byte. eapply does_ext; [eauto 20 with rt|done].
Qed.

Lemma Write_DZP1_apart a d : undisturbed max7219_pins (Write_DZP1 a d).
Proof.
  assert (HB : forall n d, does max7219_pins (DZP1_bits n d) id).
  { induction n as [|n IH]; intros d'; [apply does_ret|]. cbn [DZP1_bits].
    destruct (Z.shiftr d' 7 =? 0); (eapply does_ext; [eauto 20 with rt|done]). }
  unfold undisturbed, Write_DZP1, Write_DZP1_byte. eapply does_ext; [eauto 20 with rt|done].
Qed.

Lemma undisturbed_sends ps m : undisturbed ps m -> sends ps m [].
Proof. intros Hm. eapply does_sends; [done|]. intros c. by rewrite app_nil_r. Qed.

#[export] Hint Resolve Write_Max7219_sends Write_DZP1_sends Write_Max7219_apart Write_DZP1_apart
  undisturbed_sends : rt.

(** The registers both matrices are set up with. *)
Definition matrix_setup : list (Z * Z) := [(0x09, 0x00); (0x0a, 0x03); (0x0b, 0x06); (0x0c, 0x01); (0x0f, 0x00)].

Lemma Init_MAX7219_sends : sends max7219_pins Init_MAX7219 matrix_setup /\ sends dzp1_pins Init_MAX7219 [].
Proof.
  split; unfold Init_MAX7219.
  - change matrix_setup with ([(u8 0x09, u8 0x00)] ++ [(u8 0x0a, u8 0x03)] ++ [(u8 0x0b, u8 0x06)] ++
      [(u8 0x0c, u8 0x01)] ++ [(u8 0x0f, u8 0x00)]). eauto 20 with rt.
  - change (@nil (Z * Z)) with (@nil (Z * Z) ++ [] ++ [] ++ [] ++ []). eauto 20 with rt.
Qed.

Lemma Init_DZP1_sends : sends dzp1_pins Init_DZP1 matrix_setup /\ sends max7219_pins Init_DZP1 [].
Proof.
  split; unfold Init_DZP1, wait_ms.
  - change matrix_setup with ([] ++ [(u8 0x09, u8 0x00)] ++ [(u8 0x0a, u8 0x03)] ++ [(u8 0x0b, u8 0x06)] ++
      [(u8 0x0c, u8 0x01)] ++ [(u8 0x0f, u8 0x00)]). eauto 20 with rt.
  - change (@nil (Z * Z)) with (@nil (Z * Z) ++ [] ++ [] ++ [] ++ [] ++ []). eauto 20 with rt.
Qed.

(** ** The seven-segment display *)

Lemma SMG_word_sends a d :
  0 <= a < 256 -> 0 <= d < 256 ->
  sends hc595_pins (SMG_out a;;; wait_ms 4;;; SMG_out d;;; SMG_STCLK false;;; SMG_STCLK true) [(a, d)].
Proof.
  intros Ha Hd. eapply does_sends.
  - unfold SMG_out, wait_ms. eauto 20 using SMG_bits_does with rt.
  - intros c. cbv beta. unfold id.
    set (c' := shift_in (msb_first 8 d) (shift_in (msb_first 8 a) c)).
    change (received c' ++ [handover (shifted c')] = received c ++ [(a, d)]). unfold c'.
    rewrite !shift_in_shifted, handover_bytes by done. do 2 rewrite (proj1 (shift_in_kept _ _)). done.
Qed.

Lemma SMG_OF_byte i c : SMG_OF !! i = Some c -> 0 <= c < 256.
Proof.
  intros Hc. apply list_elem_of_lookup_2 in Hc. revert c Hc. apply Forall_forall. decided.
Qed.

Lemma SMG_COD_byte i c : SMG_COD !! i = Some c -> 0 <= c < 256.
Proof.
  intros Hc. apply list_elem_of_lookup_2 in Hc. revert c Hc. apply Forall_forall. decided.
Qed.

Lemma at_index_done l i c b : 0 <= i -> l !! Z.to_nat i = Some c -> at_index l i b = Done c b.
Proof. intros Hi Hc. unfold at_index. rewrite (proj2 (Z.leb_le 0 i)) by done. by apply deref_some. Qed.

(** The segments of a digit, and the code of the position it lights up at. *)
Definition segments (digit : Z) : Z := default 0 (SMG_OF !! Z.to_nat digit).
Definition position (addr : Z) : Z := default 0 (SMG_COD !! Z.to_nat (addr - 1)).

Lemma SMG_Display_sends addr count :
  1 <= addr <= 4 -> 0 <= count <= 16 ->
  sends hc595_pins (SMG_Display addr count) [(segments count, position addr)].
Proof.
  intros Ha Hc. unfold segments, position.
  destruct (lookup_lt_is_Some_2 SMG_OF (Z.to_nat count)) as [c Ec]; [cbn; lia|].
  destruct (lookup_lt_is_Some_2 SMG_COD (Z.to_nat (addr - 1))) as [d Ed]; [cbn; lia|].
  rewrite Ec, Ed. pose proof (SMG_OF_byte _ _ Ec). pose proof (SMG_COD_byte _ _ Ed).
  intros b. destruct (SMG_word_sends c d ltac:(done) ltac:(done) b) as (b' & E & Hr). exists b'.
  split; [|done]. rewrite <- E. unfold SMG_Display. rewrite (after (at_index_done _ _ _ b (proj1 Hc) Ec)).
  apply bind_ext. intros [] b1. apply bind_ext. intros [] b2.
  by rewrite (after (at_index_done _ (addr - 1) _ b2 ltac:(lia) Ed)).
Qed.

(** The digits of a number below 1000, least significant first. *)
Definition digits (count : Z) : list Z :=
  (count mod 10) ::
  (if 10 <=? count then [(count / 10) mod 10] else []) ++
  (if 100 <=? count then [(count / 100) mod 10] else []).

(** What the display receives for them: the last digit at position 3, the one before at 2 and so on. *)
Definition shown (count : Z) : list (Z * Z) :=
  imap (fun i d => (segments d, position (3 - Z.of_nat i))) (digits count).

Lemma led_digits count : 0 <= count < 200 ->
  (count mod 100) / 10 = (count / 10) mod 10 /\ (count mod 1000) / 100 = (count / 100) mod 10.
Proof. intros. Z.div_mod_to_equations. lia. Qed.

(** a number below 200 is shown in decimal: every digit of it, and nothing else, is sent to
    the shift registers of the seven-segment display, last digit first, with its segments and
    the position it belongs to; a larger number leaves the display alone. *)
Theorem SMG_show_digits count b :
  0 <= count < 2 ^ 16 ->
  exists b', SMG_show count b = Done tt b' /\
    received (chip_of hc595_pins (trace b')) =
      received (chip_of hc595_pins (trace b)) ++ (if count <? 200 then shown count else []).
Proof.
  intros Hc. unfold SMG_show. destruct (Z.leb_spec 200 count) as [Hge|Hlt].
  { exists b. rewrite (proj2 (Z.ltb_ge _ _)), app_nil_r by lia. done. }
  rewrite (proj2 (Z.ltb_lt count 200)) by lia. cbv zeta. unfold shown, digits.
  destruct (led_digits count) as [-> ->]; [lia|].
  pose proof (Z.mod_pos_bound count 10). pose proof (Z.mod_pos_bound (count / 10) 10).
  pose proof (Z.mod_pos_bound (count / 100) 10).
  rewrite (proj2 (Z.leb_gt 10000 count)), (proj2 (Z.leb_gt 1000 count)) by lia.
  destruct (Z.leb_spec 100 count), (Z.leb_spec 10 count); try lia; cbn [Z.eqb app imap].
  - apply (sends_bind _ _ _ [_] ([] ++ [_] ++ [] ++ [_])); [apply SMG_Display_sends; lia|].
    repeat apply sends_bind; first [apply sends_wait|apply SMG_Display_sends; lia].
  - apply (sends_bind _ _ _ [_] ([] ++ [_])); [apply SMG_Display_sends; lia|].
    repeat apply sends_bind; first [apply sends_wait|apply SMG_Display_sends; lia].
  - apply SMG_Display_sends; lia.
Qed.

Lemma SMG_show_digits_witness :
  exists b', SMG_show 107 (Board 0 []) = Done tt b' /\
    received (chip_of hc595_pins (trace b')) = [] ++ [(0x07, 0xfb); (0x3f, 0xfd); (0x06, 0xfe)].
Proof. apply (SMG_show_digits 107 (Board 0 [])). lia. Defined.
