(* ===== verification/Sensors.v ===== *)
(** * The digital sensors of the board

    The DHT11 (temperature and humidity, Board_SYX/src/dht11.c) answers on one pin with
    pulses whose length is the bit; the DS18B20 (temperature, Board_SYX/src/ds18b20.c) is a
    one-wire device that is written with long and short pulses and read in time slots; the
    infrared receiver (Board_SYX/src/vs1838b.c) measures the length of pulses.  The level of
    the input pin over time, [line], is a parameter of every function that reads it, and the
    theorems say what the drivers return when the line carries a given sequence of bytes. *)

From S2P Require Import Prelude Exec Gpio.

(** ** DHT11 *)

Definition DHT11_Rst : M board unit :=
  HAL_GPIO_WritePin GPIOD 15 false;;;
  wait_us 20000;;;
  HAL_GPIO_WritePin GPIOD 15 true;;;
  wait_us 30.

(** [while (pin == level && retry < max) { retry++; HAL_Delay_us(1); }], with [more] the
    increments of [retry] still allowed; the value of [retry] after the loop. *)
Fixpoint poll (line : Z -> bool) (level : bool) (more : nat) (retry : Z) : M board Z :=
  l <- HAL_GPIO_ReadPin line;;
  if negb (eqb l level) then ret retry
  else
    match more with
    | O => ret retry
    | S more => wait_us 1;;; poll line level more (u8 (retry + 1))
    end.

Definition DHT11_Check (line : Z -> bool) : M board Z :=
  retry <- poll line true 100 0;;
  if 100 <=? retry then ret 1
  else
    retry <- poll line false 100 0;;
    if 100 <=? retry then ret 1 else ret 0.

Definition DHT11_Read_Bit (line : Z -> bool) : M board Z :=
  poll line true 100 0;;;
  poll line false 100 0;;;
  wait_us 40;;;
  l <- HAL_GPIO_ReadPin line;;
  ret (if l : bool then 1 else 0).

(** The [for] loop of [DHT11_Read_Byte], with [n] bits to go. *)
Fixpoint DHT11_read_bits (line : Z -> bool) (n : nat) (dat : Z) : M board Z :=
  match n with
  | O => ret dat
  | S n =>
      b <- DHT11_Read_Bit line;;
      DHT11_read_bits line n (Z.lor (u8 (Z.shiftl dat 1)) b)
  end.

Definition DHT11_Read_Byte (line : Z -> bool) : M board Z := DHT11_read_bits line 8 0.

Fixpoint DHT11_read_bytes (line : Z -> bool) (n : nat) : M board (list Z) :=
  match n with
  | O => ret []
  | S n => b <- DHT11_Read_Byte line;; bs <- DHT11_read_bytes line n;; ret (b :: bs)
  end.

(** The return value, and the values of [*temp] and [*humi] when they are written. *)
Definition DHT11_Read_Data (line : Z -> bool) : M board (Z * option (Z * Z)) :=
  DHT11_Rst;;;
  c <- DHT11_Check line;;
  if c =? 0 then
    buf <- DHT11_read_bytes line 5;;
    match buf with
    | [b0; b1; b2; b3; b4] =>
        if b0 + b1 + b2 + b3 =? b4 then ret (0, Some (b2, b0)) else ret (1, None)
    | _ => stuck Undefined
    end
  else ret (1, None).

Definition DHT11_Init (line : Z -> bool) : M board Z := DHT11_Rst;;; DHT11_Check line.

(** ** DS18B20 *)

Definition DS18B20_DQ_OUT (v : bool) : M board unit := HAL_GPIO_WritePin GPIOG 5 v.

Definition DS18B20_Rst : M board unit :=
  DS18B20_DQ_OUT false;;; wait_us 750;;; DS18B20_DQ_OUT true;;; wait_us 15.

Definition DS18B20_Check (line : Z -> bool) : M board Z :=
  retry <- poll line true 200 0;;
  if 200 <=? retry then ret 1
  else
    retry <- poll line false 240 0;;
    if 240 <=? retry then ret 1 else ret 0.

Definition DS18B20_Read_Bit (line : Z -> bool) : M board Z :=
  DS18B20_DQ_OUT false;;;
  wait_us 2;;;
  DS18B20_DQ_OUT true;;;
  wait_us 12;;;
  l <- HAL_GPIO_ReadPin line;;
  wait_us 50;;;
  ret (if l : bool then 1 else 0).

Fixpoint DS18B20_read_bits (line : Z -> bool) (n : nat) (dat : Z) : M board Z :=
  match n with
  | O => ret dat
  | S n =>
      j <- DS18B20_Read_Bit line;;
      DS18B20_read_bits line n (u8 (Z.lor (Z.shiftl j 7) (Z.shiftr dat 1)))
  end.

Definition DS18B20_Read_Byte (line : Z -> bool) : M board Z := DS18B20_read_bits line 8 0.

Fixpoint DS18B20_write_bits (n : nat) (dat : Z) : M board unit :=
  match n with
  | O => ret tt
  | S n =>
      (if nz (Z.land dat 0x01) then
         DS18B20_DQ_OUT false;;; wait_us 2;;; DS18B20_DQ_OUT true;;; wait_us 60
       else
         DS18B20_DQ_OUT false;;; wait_us 60;;; DS18B20_DQ_OUT true;;; wait_us 2);;;
      DS18B20_write_bits n (Z.shiftr dat 1)
  end.

Definition DS18B20_Write_Byte (dat : Z) : M board unit := DS18B20_write_bits 8 dat.

Definition DS18B20_Start (line : Z -> bool) : M board unit :=
  DS18B20_Rst;;;
  DS18B20_Check line;;;
  DS18B20_Write_Byte 0xcc;;;
  DS18B20_Write_Byte 0x44.

Definition DS18B20_Init (line : Z -> bool) : M board Z := DS18B20_Rst;;; DS18B20_Check line.

(** The arithmetic of [DS18B20_Get_Temp]: [tem] is a [short], and its product with 0.625 is
    exact in a [double] and truncated when it is stored back. *)
Definition DS18B20_convert (TL TH : Z) : Z :=
  let temp := negb (7 <? TH) in
  let TH := if temp then TH else not8 TH in
  let TL := if temp then TL else not8 TL in
  let tem := s16 (s16 (Z.shiftl TH 8) + TL) in
  let tem := s16 (Z.quot (tem * 5) 8) in
  if temp then tem else s16 (- tem).

Definition DS18B20_Get_Temp (line : Z -> bool) : M board Z :=
  DS18B20_Start line;;;
  DS18B20_Rst;;;
  DS18B20_Check line;;;
  DS18B20_Write_Byte 0xcc;;;
  DS18B20_Write_Byte 0xbe;;;
  TL <- DS18B20_Read_Byte line;;
  TH <- DS18B20_Read_Byte line;;
  ret (DS18B20_convert TL TH).

(** ** Infrared receiver *)

(** The variables of [EXTI1_IRQHandler] and the two globals it writes. *)
Record remote := Remote { hw_jsm : Z; hw_jsbz : Z; r_Ok : Z; r_Data : Z; r_Num : Z }.

(** One pulse of length [Tim] (the result of [HW_jssj], in units of 20 us): the variables
    after it, and whether the handler leaves its loop. *)
Definition EXTI1_pulse (Tim : Z) (r : remote) : remote * bool :=
  if 250 <=? Tim then (r, true)
  else
    let lead := (200 <=? Tim) && (Tim <? 250) in
    let Ok := if lead then 1 else r_Ok r in
    let Data :=
      if lead then r_Data r
      else if (60 <=? Tim) && (Tim <? 90) then 1
      else if (10 <=? Tim) && (Tim <? 50) then 0
      else r_Data r in
    let jsm := if Ok =? 1 then u32 (u32 (Z.shiftl (hw_jsm r) 1) + Data) else hw_jsm r in
    if (Ok =? 1) && (32 <=? r_Num r) then (Remote jsm 1 Ok Data (r_Num r), true)
    else (Remote jsm (hw_jsbz r) Ok Data (u8 (r_Num r + 1)), false).

(** The handler on the pulses it sees; [None] when it is still in its loop after the last one. *)
Fixpoint EXTI1_loop (Tims : list Z) (r : remote) : option remote :=
  match Tims with
  | [] => None
  | Tim :: Tims => let '(r, leave) := EXTI1_pulse Tim r in if leave then Some r else EXTI1_loop Tims r
  end.

(** [Data] is not initialised: [d] is what the variable happens to hold. *)
Definition EXTI1_IRQHandler (Tims : list Z) (jsm jsbz d : Z) : option remote :=
  EXTI1_loop Tims (Remote jsm jsbz 0 d 0).

(** The key, and [hw_jsm] after the call. *)
Definition Remote_Process (jsm : Z) : Z * Z :=
  let t1 := Z.land (Z.shiftr jsm 8) 0xff in
  let t2 := Z.land (Z.shiftr jsm 0) 0xff in
  (if t1 =? u8 (Z.lnot t2) then t1 else 0xff, 0).

(** ** Polling *)

(** The level of the line on an interval, and the level at its end. *)
Definition stays (line : Z -> bool) (v : bool) (a b : Z) : Prop :=
  a <= b /\ (forall u, a <= u < b -> line u = v) /\ line b = negb v.

Lemma eqb_negb v : eqb (negb v) v = false.
Proof. by destruct v. Qed.

(** The loop ends when the line changes, having counted the microseconds until then. *)
Lemma poll_stays line v more retry b r :
  stays line v (now b) r -> r - now b <= Z.of_nat more -> 0 <= retry -> retry + Z.of_nat more < 256 ->
  poll line v more retry b = Done (retry + (r - now b)) (Board r (trace b)).
Proof.
  revert retry b. induction more as [|more IH]; intros retry b (Hle & Hv & Hr) Hm H0 H8.
  - assert (r = now b) as -> by lia. cbn [poll]. unfold HAL_GPIO_ReadPin. mstep. rewrite Hr, eqb_negb. cbn [negb].
    unfold ret. f_equal; [lia|by destruct b].
  - cbn [poll]. unfold HAL_GPIO_ReadPin, wait_us. mstep. destruct (Z.eq_dec (now b) r) as [E|E].
    + rewrite <- E in *. rewrite Hr, eqb_negb. cbn [negb]. unfold ret. f_equal; [lia|by destruct b].
    + rewrite (Hv (now b)), eqb_reflx by lia. cbn [negb]. mstep. rewrite u8_small by lia.
      rewrite IH; cbn [now trace]; [f_equal; lia| |lia..].
      split; [lia|]. split; [|done]. intros u Hu. apply Hv. lia.
Qed.

(** It gives up when the line does not change in time. *)
Lemma poll_stuck line v more retry b :
  (forall u, now b <= u <= now b + Z.of_nat more -> line u = v) -> 0 <= retry -> retry + Z.of_nat more < 256 ->
  poll line v more retry b = Done (retry + Z.of_nat more) (Board (now b + Z.of_nat more) (trace b)).
Proof.
  revert retry b. induction more as [|more IH]; intros retry b Hv H0 H8; cbn [poll];
    unfold HAL_GPIO_ReadPin, wait_us; mstep; rewrite (Hv (now b)), eqb_reflx by lia; cbn [negb].
  - unfold ret. rewrite !Z.add_0_r. by destruct b.
  - mstep. rewrite u8_small by lia. rewrite IH; cbn [now trace]; [f_equal; [lia|f_equal; lia]| |lia..].
    intros u Hu. apply Hv. lia.
Qed.

(** Either way it ends, within its bound. *)
Lemma poll_total line v more retry b :
  exists r t, poll line v more retry b = Done r (Board t (trace b)) /\ now b <= t <= now b + Z.of_nat more.
Proof.
  revert retry b. induction more as [|more IH]; intros retry b; cbn [poll]; unfold HAL_GPIO_ReadPin, wait_us; mstep;
    destruct (negb (eqb (line (now b)) v)).
  1-3: exists retry, (now b); destruct b; cbn; split; [done|lia].
  mstep. destruct (IH (u8 (retry + 1)) (Board (now b + 1) (trace b))) as (r & t & E & Ht). cbn [now trace] in *.
  exists r, t. split; [done|lia].
Qed.

(** ** Reading the DHT11 *)

(** From time [t] on the line carries [bits]: for each one it goes low within 100 us (it may be
    low already), high again within 100 us, and 40 us later it is high for a one and low for a zero. *)
Fixpoint carries (line : Z -> bool) (t : Z) (bits : list bool) : Prop :=
  match bits with
  | [] => True
  | b :: bits =>
      exists a r, stays line true t a /\ a - t <= 100 /\ stays line false a r /\ r - a <= 100 /\
        line (r + 40) = b /\ carries line (r + 40) bits
  end.

(** The sensor answers to the start signal that ends at time [t]: low within 100 us, high again
    within 100 us, then the bits. *)
Definition answers (line : Z -> bool) (t : Z) (bits : list bool) : Prop :=
  exists a r, stays line true t a /\ a - t < 100 /\ stays line false a r /\ r - a < 100 /\ carries line r bits.

Lemma DHT11_Read_Bit_done line b bit bits :
  carries line (now b) (bit :: bits) ->
  exists t, DHT11_Read_Bit line b = Done (if bit then 1 else 0) (Board t (trace b)) /\ carries line t bits.
Proof.
  intros (a & r & H1 & H2 & H3 & H4 & H5 & H6). exists (r + 40). split; [|done]. unfold DHT11_Read_Bit.
  rewrite (after (poll_stays line true 100 0 b a H1 ltac:(lia) ltac:(lia) ltac:(lia))).
  rewrite (after (poll_stays line false 100 0 (Board a (trace b)) r H3 ltac:(cbn; lia) ltac:(lia) ltac:(lia))).
  unfold wait_us, HAL_GPIO_ReadPin. msteps. cbn [now trace]. by rewrite H5.
Qed.

(** The byte the loop assembles. *)
Definition assemble (dat : Z) (bits : list bool) : Z :=
  foldl (fun dat (b : bool) => Z.lor (u8 (Z.shiftl dat 1)) (if b then 1 else 0)) dat bits.

Lemma assemble_byte d : 0 <= d < 256 -> assemble 0 (msb_first 8 d) = d.
Proof. intros Hd. every_byte d Hd. Qed.

Lemma DHT11_read_bits_done line b bits bits' dat :
  carries line (now b) (bits ++ bits') ->
  exists t, DHT11_read_bits line (length bits) dat b = Done (assemble dat bits) (Board t (trace b)) /\
            carries line t bits'.
Proof.
  revert b dat. induction bits as [|bit bits IH]; intros b dat Hc; [exists (now b); by destruct b|].
  destruct (DHT11_Read_Bit_done line b bit (bits ++ bits') Hc) as (t & E & Hc').
  cbn [length DHT11_read_bits]. rewrite (after E). apply (IH (Board t (trace b))). done.
Qed.

Lemma DHT11_read_bytes_done line b ds :
  Forall (fun d => 0 <= d < 256) ds -> carries line (now b) (flat_map (msb_first 8) ds) ->
  exists t, DHT11_read_bytes line (length ds) b = Done ds (Board t (trace b)).
Proof.
  intros Hds. revert b. induction Hds as [|d ds Hd _ IH]; intros b Hc; [exists (now b); by destruct b|].
  cbn [flat_map] in Hc. destruct (DHT11_read_bits_done line b _ _ 0 Hc) as (t & E & Hc').
  rewrite msb_first_length, assemble_byte in E by done.
  destruct (IH (Board t (trace b)) Hc') as (t' & E'). exists t'. cbn [length DHT11_read_bytes].
  unfold DHT11_Read_Byte. rewrite (after E), (after E'). done.
Qed.

Lemma DHT11_Rst_done b :
  DHT11_Rst b = Done tt (Board (now b + 20030)
    ((now b + 20000, Edge GPIOD 15 true) :: (now b, Edge GPIOD 15 false) :: trace b)).
Proof. unfold DHT11_Rst, HAL_GPIO_WritePin, wait_us. msteps. cbn. unfold modify. cbn. do 2 f_equal. lia. Qed.

(** C33: when the DHT11 answers and its line carries the bytes [b0] to [b4], a read returns them:
    temperature [b2] and humidity [b0] if the other four bytes add up to [b4], and an error
    otherwise; a line that stays high after the start signal is an error. *)
Theorem DHT11_Read_Data_correct line b :
  (forall b0 b1 b2 b3 b4, Forall (fun d => 0 <= d < 256) [b0; b1; b2; b3; b4] ->
     answers line (now b + 20030) (flat_map (msb_first 8) [b0; b1; b2; b3; b4]) ->
     exists b', DHT11_Read_Data line b =
       Done (if b0 + b1 + b2 + b3 =? b4 then (0, Some (b2, b0)) else (1, None)) b') /\
  ((forall u, now b + 20030 <= u <= now b + 20130 -> line u = true) ->
     exists b', DHT11_Read_Data line b = Done (1, None) b').
Proof.
  unfold DHT11_Read_Data, DHT11_Check. rewrite (after (DHT11_Rst_done b)). set (s := Board _ _). split.
  - intros b0 b1 b2 b3 b4 Hb (a & r & H1 & H2 & H3 & H4 & Hc). rewrite bind_assoc.
    rewrite (after (poll_stays line true 100 0 s a H1 ltac:(cbn; lia) ltac:(lia) ltac:(lia))).
    rewrite (proj2 (Z.leb_gt _ _)) by (cbn; lia). rewrite bind_assoc.
    rewrite (after (poll_stays line false 100 0 (Board a (trace s)) r H3 ltac:(cbn; lia) ltac:(lia) ltac:(lia))).
    rewrite (proj2 (Z.leb_gt _ _)) by (cbn; lia). mstep. cbn [Z.eqb].
    destruct (DHT11_read_bytes_done line (Board r (trace s)) [b0; b1; b2; b3; b4] Hb Hc) as (t & E).
    cbn [length trace] in E. rewrite (after E). destruct (b0 + b1 + b2 + b3 =? b4); by eexists.
  - intros Hh. rewrite bind_assoc.
    rewrite (after (poll_stuck line true 100 0 s ltac:(intros u Hu; apply Hh; cbn in Hu; lia) ltac:(lia) ltac:(lia))).
    cbn [Z.leb]. by eexists.
Qed.

(** A line that carries given bits, checked by following it. *)
Fixpoint scan (line : Z -> bool) (v : bool) (n : nat) (t : Z) : option Z :=
  if eqb (line t) v then match n with O => None | S n => scan line v n (t + 1) end else Some t.

Fixpoint carries_check (line : Z -> bool) (t : Z) (bits : list bool) : bool :=
  match bits with
  | [] => true
  | b :: bits =>
      match scan line true 100 t with
      | Some a =>
          match scan line false 100 a with
          | Some r => eqb (line (r + 40)) b && carries_check line (r + 40) bits
          | None => false
          end
      | None => false
      end
  end.

Lemma scan_stays line v n t r : scan line v n t = Some r -> stays line v t r /\ r - t <= Z.of_nat n.
Proof.
  revert t. induction n as [|n IH]; intros t; cbn [scan]; destruct (eqb (line t) v) eqn:E; try done.
  2: intros (H & Hn)%IH; apply eqb_prop in E.
  1,3: intros [= <-]; apply eqb_false_iff in E; split; [|lia];
       split; [lia|]; split; [intros u Hu; lia|]; by destruct (line t), v.
  destruct H as (Hle & Hv & Hr). split; [|lia]. split; [lia|]. split; [|done].
  intros u Hu. destruct (Z.eq_dec u t) as [->|]; [done|]. apply Hv. lia.
Qed.

Lemma carries_checked line t bits : carries_check line t bits = true -> carries line t bits.
Proof.
  revert t. induction bits as [|b bits IH]; intros t; cbn [carries_check carries]; [done|].
  destruct (scan line true 100 t) as [a|] eqn:Ea; [|done]. destruct (scan line false 100 a) as [r|] eqn:Er; [|done].
  intros [Hb Hc]%andb_true_iff. apply eqb_prop in Hb. apply scan_stays in Ea as [? ?], Er as [? ?].
  exists a, r. split_and!; eauto.
Qed.

(** A signal given as the levels and lengths of its pieces. *)
Fixpoint signal (pieces : list (bool * Z)) (u : Z) : bool :=
  match pieces with [] => true | (v, d) :: pieces => if u <? d then v else signal pieces (u - d) end.

(** The DHT11 in time: 80 us low and 80 us high, then for each bit 50 us low and 27 us (zero)
    or 70 us (one) high, and 50 us low at the end. *)
Definition dht11_signal (bits : list bool) : list (bool * Z) :=
  (true, 20050) :: (false, 80) :: (true, 80) ::
  flat_map (fun b : bool => [(false, 50); (true, if b then 70 else 27)]) bits ++ [(false, 50)].

(** 45% and 26 degrees. *)
Definition dht11_line : Z -> bool := signal (dht11_signal (flat_map (msb_first 8) [45; 0; 26; 0; 71])).

Lemma DHT11_Read_Data_correct_witness :
  exists b', DHT11_Read_Data dht11_line (Board 0 []) = Done (0, Some (26, 45)) b'.
Proof.
  apply (proj1 (DHT11_Read_Data_correct dht11_line (Board 0 [])) 45 0 26 0 71); [by repeat constructor|].
  exists 20050, 20130.
  assert (H1 : scan dht11_line true 100 20030 = Some 20050) by concrete.
  assert (H2 : scan dht11_line false 100 20050 = Some 20130) by concrete.
  apply scan_stays in H1 as [? ?], H2 as [? ?].
  split_and!; try done. apply carries_checked. concrete.
Defined.

(** ** The DS18B20 *)

(** Reading byte by byte: the line in the [i]-th time slot of 64 us from [t] on, 14 us into it. *)
Definition slots (line : Z -> bool) (t : Z) (bits : list bool) : Prop :=
  forall i b, bits !! i = Some b -> line (t + 64 * Z.of_nat i + 14) = b.

(** The bits of a byte, least significant first. *)
Definition lsb_first (d : Z) : list bool := rev (msb_first 8 d).

Definition assemble_lsb (dat : Z) (bits : list bool) : Z :=
  foldl (fun dat (b : bool) => u8 (Z.lor (Z.shiftl (if b then 1 else 0) 7) (Z.shiftr dat 1))) dat bits.

Lemma assemble_lsb_byte d : 0 <= d < 256 -> assemble_lsb 0 (lsb_first d) = d.
Proof. intros Hd. every_byte d Hd. Qed.

Lemma slots_app line t bits bits' :
  slots line t (bits ++ bits') -> slots line t bits /\ slots line (t + 64 * Z.of_nat (length bits)) bits'.
Proof.
  intros H. split; intros i b Hi.
  - apply H. by apply lookup_app_l_Some.
  - rewrite <- (H (length bits + i)%nat b); [f_equal; lia|]. rewrite lookup_app_r by lia.
    by replace (length bits + i - length bits)%nat with i by lia.
Qed.

(** The pulses on the wire: the falling edge that is open, and the lengths of the low pulses,
    newest first. *)
Definition wire_step (e : Z * edge) (w : option Z * list Z) : option Z * list Z :=
  if decide (e_port (e.2) = GPIOG) then
    if e_pin (e.2) =? 5 then
      if e_level (e.2) then match w.1 with Some t => (None, e.1 - t :: w.2) | None => w end
      else (Some (e.1), w.2)
    else w
  else w.

Definition wire (b : board) : option Z * list Z := foldr wire_step (None, []) (trace b).

(** A command that takes [d] microseconds and puts the pulses [ps] (oldest first) on the wire. *)
Definition pulses {A} (m : M board A) (b : board) (a : A) (d : Z) (ps : list Z) : Prop :=
  exists b', m b = Done a b' /\ now b' = now b + d /\ (wire b').2 = rev ps ++ (wire b).2.

Lemma pulses_bind {A B} (m : M board A) (f : A -> M board B) b a c d d' ps ps' :
  pulses m b a d ps ->
  (forall b', m b = Done a b' -> now b' = now b + d -> pulses (f a) b' c d' ps') ->
  pulses (bind m f) b c (d + d') (ps ++ ps').
Proof.
  intros (b1 & E1 & T1 & W1) Hf. destruct (Hf b1 E1 T1) as (b2 & E2 & T2 & W2).
  exists b2. rewrite (after E1). split; [done|]. split; [lia|]. rewrite W2, W1, rev_app_distr. by rewrite app_assoc.
Qed.

(** A low pulse of [l] microseconds followed by a pause. *)
Lemma pulses_low b l p :
  pulses (DS18B20_DQ_OUT false;;; wait_us l;;; DS18B20_DQ_OUT true;;; wait_us p) b tt (l + p) [l].
Proof.
  unfold DS18B20_DQ_OUT, HAL_GPIO_WritePin, wait_us. eexists. split; [reflexivity|].
  split; [cbn; lia|]. change (now b + l - now b :: (wire b).2 = l :: (wire b).2). f_equal. lia.
Qed.

(** The same with a condition, as the write loop has it. *)
Fixpoint lsb_bits (n : nat) (d : Z) : list bool :=
  match n with O => [] | S n => nz (Z.land d 0x01) :: lsb_bits n (Z.shiftr d 1) end.

Lemma lsb_bits_byte d : 0 <= d < 256 -> lsb_bits 8 d = lsb_first d.
Proof. intros Hd. every_byte d Hd. Qed.

(** A one is a low pulse of 2 us, a zero one of 60 us. *)
Definition pulse_of (b : bool) : Z := if b then 2 else 60.

Lemma write_bits_pulses n b dat :
  pulses (DS18B20_write_bits n dat) b tt (62 * Z.of_nat n) (map pulse_of (lsb_bits n dat)).
Proof.
  revert b dat. induction n as [|n IH]; intros b dat.
  - exists b. split; [done|]. split; [lia|done].
  - replace (62 * Z.of_nat (S n)) with (62 + 62 * Z.of_nat n) by lia. cbn [DS18B20_write_bits lsb_bits map].
    apply (pulses_bind _ _ _ tt _ _ _ [_]); [|auto]. destruct (nz (Z.land dat 1)); apply pulses_low.
Qed.

Lemma Write_Byte_pulses b dat :
  0 <= dat < 256 -> pulses (DS18B20_Write_Byte dat) b tt 496 (map pulse_of (lsb_first dat)).
Proof. intros Hd. rewrite <- lsb_bits_byte by done. apply write_bits_pulses. Qed.

Lemma Read_Bit_pulses line b :
  pulses (DS18B20_Read_Bit line) b (if line (now b + 14) then 1 else 0) 64 [2].
Proof.
  unfold DS18B20_Read_Bit, DS18B20_DQ_OUT, HAL_GPIO_WritePin, HAL_GPIO_ReadPin, wait_us.
  eexists. split.
  { msteps. cbn [now trace]. replace (now b + 2 + 12) with (now b + 14) by lia. reflexivity. }
  split; [cbn; lia|].
  change (now b + 2 - now b :: (wire b).2 = 2 :: (wire b).2). f_equal. lia.
Qed.

Lemma read_bits_pulses line bits b dat :
  slots line (now b) bits ->
  pulses (DS18B20_read_bits line (length bits) dat) b (assemble_lsb dat bits)
    (64 * Z.of_nat (length bits)) (replicate (length bits) 2).
Proof.
  revert b dat. induction bits as [|bit bits IH]; intros b dat Hs.
  - exists b. split; [done|]. split; [cbn; lia|done].
  - replace (64 * Z.of_nat (length (bit :: bits))) with (64 + 64 * Z.of_nat (length bits)) by (cbn; lia).
    destruct (slots_app line (now b) [bit] bits Hs) as [Hb Hs'].
    cbn [length DS18B20_read_bits replicate].
    apply (pulses_bind _ _ _ (if bit then 1 else 0) _ _ _ [2]).
    + specialize (Hb 0%nat bit eq_refl). rewrite Z.mul_0_r, Z.add_0_r in Hb. rewrite <- Hb. apply Read_Bit_pulses.
    + intros b' _ T. apply (IH b'). rewrite T. done.
Qed.

Lemma Read_Byte_pulses line b d :
  0 <= d < 256 -> slots line (now b) (lsb_first d) ->
  pulses (DS18B20_Read_Byte line) b d 512 (replicate 8 2).
Proof.
  intros Hd Hs. pose proof (read_bits_pulses line (lsb_first d) b 0 Hs) as H.
  rewrite assemble_lsb_byte in H by done. unfold lsb_first in H. rewrite length_rev, msb_first_length in H. done.
Qed.

Lemma Check_pulses line b :
  exists r d, pulses (DS18B20_Check line) b r d [] /\ 0 <= d <= 440.
Proof.
  unfold DS18B20_Check. destruct (poll_total line true 200 0 b) as (r1 & t1 & E1 & H1).
  destruct (200 <=? r1) eqn:L1.
  - exists 1, (t1 - now b). split; [|lia]. eexists. rewrite (after E1), L1. split; [reflexivity|]. split; [cbn; lia|done].
  - destruct (poll_total line false 240 0 (Board t1 (trace b))) as (r2 & t2 & E2 & H2). cbn [now trace] in *.
    exists (if 240 <=? r2 then 1 else 0), (t2 - now b). split; [|lia].
    eexists. rewrite (after E1), L1, (after E2). split; [by destruct (240 <=? r2)|]. split; [cbn; lia|done].
Qed.

(** A reset followed by the presence check and two command bytes. *)
Definition command_pulses (c1 c2 : Z) : list Z :=
  750 :: map pulse_of (lsb_first c1) ++ map pulse_of (lsb_first c2).

Lemma command_sent line b c1 c2 :
  0 <= c1 < 256 -> 0 <= c2 < 256 ->
  exists d, pulses (DS18B20_Rst;;; DS18B20_Check line;;; DS18B20_Write_Byte c1;;; DS18B20_Write_Byte c2) b tt d
              (command_pulses c1 c2) /\ 1757 <= d <= 2197.
Proof.
  intros H1 H2. destruct (pulses_low b 750 15) as (b1 & E1 & T1 & W1).
  destruct (Check_pulses line b1) as (r & d & HC & Hd).
  exists (765 + (d + (496 + 496))). split; [|lia].
  apply (pulses_bind _ _ _ tt _ _ _ [750]); [by exists b1|]. intros b' E' _.
  assert (b' = b1) as -> by (unfold DS18B20_Rst in E'; congruence).
  set (p1 := map pulse_of (lsb_first c1)). set (p2 := map pulse_of (lsb_first c2)).
  apply (pulses_bind _ _ _ r _ _ _ [] (p1 ++ p2)); [done|]. intros b2 _ _.
  apply (pulses_bind _ _ _ tt _ _ _ p1 p2); [by apply Write_Byte_pulses|]. intros b3 _ _. by apply Write_Byte_pulses.
Qed.

(** reading the temperature always ends; it sends a reset and the commands 0xcc 0x44, another reset
    and the commands 0xcc 0xbe, and reads sixteen time slots; and when the sensor puts the bytes
    [TL] and [TH] into those slots, the result is their conversion. *)
Theorem DS18B20_Get_Temp_correct line b :
  exists t1, now b + 3514 <= t1 <= now b + 4394 /\
    forall TL TH, 0 <= TL < 256 -> 0 <= TH < 256 -> slots line t1 (lsb_first TL ++ lsb_first TH) ->
      exists b', DS18B20_Get_Temp line b = Done (DS18B20_convert TL TH) b' /\
        now b' = t1 + 1024 /\
        (wire b').2 = rev (command_pulses 0xcc 0x44 ++ command_pulses 0xcc 0xbe ++ replicate 16 2) ++ (wire b).2.
Proof.
  destruct (command_sent line b 0xcc 0x44) as (d1 & (b1 & E1 & T1 & W1) & Hd1); [lia..|].
  destruct (command_sent line b1 0xcc 0xbe) as (d2 & (b2 & E2 & T2 & W2) & Hd2); [lia..|].
  exists (now b2). split; [lia|]. intros TL TH HL HH [Hs1 Hs2]%slots_app.
  destruct (Read_Byte_pulses line b2 TL HL Hs1) as (b3 & E3 & T3 & W3).
  unfold lsb_first at 1 in Hs2. rewrite length_rev, msb_first_length in Hs2.
  destruct (Read_Byte_pulses line b3 TH HH) as (b4 & E4 & T4 & W4); [by rewrite T3|].
  exists b4. split; [|split; [lia|]].
  - unfold DS18B20_Get_Temp, DS18B20_Start. rewrite (after E1). revert E2. unfold bind.
    destruct (DS18B20_Rst b1) as [[] c1|]; [|done]. destruct (DS18B20_Check line c1) as [r c2|]; [|done].
    destruct (DS18B20_Write_Byte 0xcc c2) as [[] c3|]; [|done]. intros ->. by rewrite E3, E4.
  - rewrite W4, W3, W2, W1. rewrite !rev_app_distr, <- !app_assoc. done.
Qed.

Lemma DS18B20_Get_Temp_correct_witness :
  exists t1 b', DS18B20_Get_Temp (fun _ => true) (Board 0 []) = Done (-0) b' /\ now b' = t1 + 1024.
Proof.
  destruct (DS18B20_Get_Temp_correct (fun _ => true) (Board 0 [])) as (t1 & _ & H).
  destruct (H 0xff 0xff) as (b' & E & T & _); [lia|lia| |by exists t1, b'].
  intros i b. assert (HF : Forall (eq true) (lsb_first 0xff ++ lsb_first 0xff)) by decided.
  intros Hi. exact (proj1 (Forall_lookup _ _) HF i b Hi).
Defined.

(** over the range of the sensor (-55 to 125 degrees, in sixteenths) the result is the temperature in
    tenths of a degree, rounded towards zero, for a reading that is not negative; for a negative
    one it is the value of the reading one sixteenth higher, so that -0.5 degrees reads as -4, and
    the documented minimum -550 is never returned. *)
Theorem DS18B20_convert_value raw :
  -880 <= raw <= 2000 ->
  DS18B20_convert (raw mod 256) ((raw / 256) mod 256) =
    (if 0 <=? raw then raw * 10 / 16 else - ((- raw - 1) * 10 / 16)) /\
  -549 <= DS18B20_convert (raw mod 256) ((raw / 256) mod 256) <= 1250.
Proof.
  intros Hr.
  assert (HF : Forall (fun raw =>
      DS18B20_convert (raw mod 256) ((raw / 256) mod 256) =
        (if 0 <=? raw then raw * 10 / 16 else - ((- raw - 1) * 10 / 16)) /\
      -549 <= DS18B20_convert (raw mod 256) ((raw / 256) mod 256) <= 1250) (seqZ (-880) 2881)) by decided.
  apply (proj1 (Forall_forall _ _) HF). apply elem_of_seqZ. lia.
Qed.

Lemma DS18B20_convert_value_witness :
  DS18B20_convert 0xf8 0xff = -4 /\ -549 <= DS18B20_convert 0xf8 0xff <= 1250.
Proof. apply (DS18B20_convert_value (-8)). lia. Defined.

(** ** The infrared receiver *)

(** The number bits denote, most significant first. *)
Definition msb_val (v : Z) (bits : list bool) : Z := foldl (fun v b => 2 * v + Z.b2z b) v bits.

(** A pulse that stands for a bit. *)
Definition pulse_bit (Tim : Z) (b : bool) : Prop := if b then 60 <= Tim < 90 else 10 <= Tim < 50.

Lemma EXTI1_pulse_bit Tim b jsm jsbz d num :
  pulse_bit Tim b -> 0 <= num <= 32 ->
  EXTI1_pulse Tim (Remote jsm jsbz 1 d num) =
    if 32 <=? num then (Remote (u32 (2 * jsm + Z.b2z b)) 1 1 (Z.b2z b) num, true)
    else (Remote (u32 (2 * jsm + Z.b2z b)) jsbz 1 (Z.b2z b) (num + 1), false).
Proof.
  intros Hb Hn. unfold EXTI1_pulse, pulse_bit in *. cbn [hw_jsm hw_jsbz r_Ok r_Data r_Num].
  assert (Tim < 200) by (destruct b; lia). rewrite (proj2 (Z.leb_gt 250 Tim)), (proj2 (Z.leb_gt 200 Tim)) by lia. cbn [andb].
  assert ((if (60 <=? Tim) && (Tim <? 90) then 1 else if (10 <=? Tim) && (Tim <? 50) then 0 else d) = Z.b2z b) as ->.
  { destruct b; [by rewrite (proj2 (Z.leb_le 60 Tim)), (proj2 (Z.ltb_lt Tim 90)) by lia|].
    rewrite (proj2 (Z.leb_gt 60 Tim)), (proj2 (Z.leb_le 10 Tim)), (proj2 (Z.ltb_lt Tim 50)) by lia. done. }
  rewrite Z.shiftl_mul_pow2 by lia. unfold u32. rewrite Zplus_mod_idemp_l. rewrite (Z.mul_comm jsm).
  change (2 ^ 1) with 2. cbn [Z.eqb andb]. rewrite u8_small by lia. done.
Qed.

Lemma msb_val_app v bits : msb_val v bits = v * 2 ^ Z.of_nat (length bits) + msb_val 0 bits.
Proof.
  revert v. induction bits as [|b bits IH]; intros v; [cbn; lia|]. cbn [msb_val foldl length].
  change (msb_val (2 * v + Z.b2z b) bits = v * 2 ^ Z.of_nat (S (length bits)) + msb_val (2 * 0 + Z.b2z b) bits).
  rewrite (IH (2 * v + _)), (IH (2 * 0 + _)). rewrite Nat2Z.inj_succ, Z.pow_succ_r by lia. lia.
Qed.

Lemma EXTI1_bits Tims bits jsm jsbz d num :
  Forall2 pulse_bit Tims bits -> 0 <= num -> num + Z.of_nat (length bits) = 33 -> bits <> [] ->
  exists d', EXTI1_loop Tims (Remote jsm jsbz 1 d num) = Some (Remote (u32 (msb_val jsm bits)) 1 1 d' 32).
Proof.
  intros HF. revert jsm d num. induction HF as [|Tim b Tims bits Hb HF IH]; intros jsm d num Hn Hl Hne; [done|].
  cbn [EXTI1_loop]. cbn [length] in Hl. rewrite (EXTI1_pulse_bit Tim b) by (first [done|lia]).
  destruct bits as [|b' bits].
  - cbn [length] in Hl. rewrite (proj2 (Z.leb_le 32 num)) by lia. assert (num = 32) as -> by lia. by exists (Z.b2z b).
  - rewrite (proj2 (Z.leb_gt 32 num)) by (cbn [length] in Hl; lia).
    destruct (IH (u32 (2 * jsm + Z.b2z b)) (Z.b2z b) (num + 1)) as (d' & ->); [lia|lia|done|].
    exists d'. do 2 f_equal. change (msb_val jsm (b :: b' :: bits)) with (msb_val (2 * jsm + Z.b2z b) (b' :: bits)).
    rewrite (msb_val_app (u32 _)), (msb_val_app (2 * jsm + _)). unfold u32.
    by rewrite <- Zplus_mod_idemp_l, Zmult_mod_idemp_l, Zplus_mod_idemp_l.
Qed.

(** A frame of the remote control: the device, its complement, the key, its complement. *)
Definition remote_bits (dev key : Z) : list bool :=
  msb_first 8 dev ++ msb_first 8 (not8 dev) ++ msb_first 8 key ++ msb_first 8 (not8 key).

Lemma msb_val_byte v d : 0 <= d < 256 -> msb_val v (msb_first 8 d) = 256 * v + d.
Proof.
  intros Hd. rewrite msb_val_app, msb_first_length. change (2 ^ Z.of_nat 8) with 256.
  assert (msb_val 0 (msb_first 8 d) = d) as -> by every_byte d Hd. lia.
Qed.

Lemma remote_bits_val dev key : 0 <= dev < 256 -> 0 <= key < 256 ->
  msb_val 0 (remote_bits dev key) = ((256 * dev + (255 - dev)) * 256 + key) * 256 + (255 - key).
Proof.
  intros Hd Hk. assert (Hn : forall d, 0 <= d < 256 -> not8 d = 255 - d) by (intros d H; every_byte d H).
  assert (Ha : forall v l l', msb_val v (l ++ l') = msb_val (msb_val v l) l') by (intros; apply foldl_app).
  unfold remote_bits. rewrite !Ha, !Hn, !msb_val_byte by lia. lia.
Qed.

Lemma Remote_Process_key x key :
  0 <= key < 256 -> Remote_Process ((x * 256 + key) * 256 + (255 - key)) = (key, 0).
Proof.
  intros Hk. unfold Remote_Process.
  assert (HL : forall a, Z.land a 0xff = a mod 256) by (intros a; apply (Z.land_ones a 8); lia).
  rewrite !HL, !Z.shiftr_div_pow2 by lia. change (2 ^ 8) with 256. change (2 ^ 0) with 1. rewrite Z.div_1_r.
  rewrite (Z.add_comm _ (255 - key)), Z_div_plus_full, Z_mod_plus_full, Z.div_small, (Z.mod_small (255 - key)) by lia.
  rewrite Z.add_0_l, (Z.add_comm _ key), Z_mod_plus_full, Z.mod_small by lia.
  assert (u8 (Z.lnot (255 - key)) = key) as ->.
  { unfold u8, Z.lnot. replace (Z.pred (- (255 - key))) with (key + (-1) * 256) by lia.
    change (2 ^ 8) with 256. rewrite Z_mod_plus_full. apply Z.mod_small. lia. }
  by rewrite Z.eqb_refl.
Qed.

(** a remote control frame comes through: after a start pulse and the 32 pulses of a frame the
    interrupt handler has set [hw_jsbz] and [Remote_Process] returns the key, whatever [hw_jsm] and the
    uninitialised [Data] held before. *)
Theorem remote_key_received Tlead Tims dev key jsm jsbz d :
  200 <= Tlead < 250 -> Forall2 pulse_bit Tims (remote_bits dev key) -> 0 <= dev < 256 -> 0 <= key < 256 ->
  exists r, EXTI1_IRQHandler (Tlead :: Tims) jsm jsbz d = Some r /\ hw_jsbz r = 1 /\
    Remote_Process (hw_jsm r) = (key, 0).
Proof.
  intros Hl HF Hd Hk. unfold EXTI1_IRQHandler. cbn [EXTI1_loop]. unfold EXTI1_pulse at 1.
  cbn [hw_jsm hw_jsbz r_Ok r_Data r_Num].
  rewrite (proj2 (Z.leb_gt 250 Tlead)), (proj2 (Z.leb_le 200 Tlead)), (proj2 (Z.ltb_lt Tlead 250)) by lia.
  set (j := u32 _). cbn -[j]. change (u8 (0 + 1)) with 1.
  destruct (EXTI1_bits Tims (remote_bits dev key) j jsbz d 1) as (d' & ->); [done|lia|done|done|].
  eexists. split; [reflexivity|]. split; [done|]. cbn [hw_jsm].
  rewrite msb_val_app. change (2 ^ Z.of_nat (length (remote_bits dev key))) with (2 ^ 32).
  rewrite remote_bits_val by done. unfold u32. rewrite Z.add_comm, Z_mod_plus_full, Z.mod_small by lia.
  by apply Remote_Process_key.
Qed.

Lemma remote_key_received_witness :
  exists r, EXTI1_IRQHandler (225 :: map (fun b : bool => if b then 80 else 25) (remote_bits 0 0x45)) 7 0 99 = Some r /\
    hw_jsbz r = 1 /\ Remote_Process (hw_jsm r) = (0x45, 0).
Proof.
  apply (remote_key_received 225 _ 0 0x45); [lia| |lia|lia].
  apply Forall2_fmap_l, Forall_Forall2_diag, Forall_forall. intros [] _; cbn; lia.
Defined.
