(* ===== verification/Proto.v ===== *)
(** * The box protocol (bsp/stm32f4xx-HAL-BOX/applications/proto.c)

    The box is driven by a host over a serial line.  Bytes arrive in the receive
    indication of the port ([_proto_rx_ind] of applications/main.c), which feeds them one by
    one to [Proto_data_analyze_byte]; each complete command releases a semaphore, on which
    the thread [mega32u4_uart_thread] waits to carry the command out and to send the reply
    ([Proto_sensor_cmd_deal]).  Commands that take time only leave a note, which the sensor
    thread ([thread_sensor_entry]) acts on in its next round, where it also reads the sensors.

    [recv] holds the variables of the receiver, [panel] the remaining ones, the pins
    ([Gpio.board]) and the calls of peripherals that have no model of their own. *)

From S2P Require Import Prelude Exec Gpio Display Sensors.

Definition PROTO_HEAD : Z := 0x5a.
Definition PROTO_TAIL : Z := 0xa5.

Definition RGB_LED := 1.
Definition PASSIVE_BUZZER := 2.
Definition QXKG := 3.
Definition SMG := 4.
Definition MOTOR := 5.
Definition DZP := 6.
Definition YG := 7.
Definition TFTLCD := 8.
Definition SOUND_SENSOR := 9.
Definition PIR := 10.
Definition DHT11 := 11.
Definition DS18B20 := 12.
Definition LIGHT := 13.
Definition JJCGQ := 14.
Definition ROTARY_ENCODERS := 15.
Definition GDKG := 16.
Definition DZP1 := 17.
Definition KEY5 := 18.
Definition Dial := 19.
Definition traffic_light := 20.
Definition GUI_clear := 21.

(** ** Receiving *)

(** [p_realdata]: null, into [_byte_recvbuf], or into an array of the caller of
    [Proto_data_analyze]. *)
Inductive data_ptr := NoData | Recvbuf (off : Z) | Caller (a : list Z) (off : Z).

Record recv := Recv {
  r_state : Z;
  byte_length : Z;
  byte_recvbuf : list Z;
  byte_recvbuf_index : Z;
  realcmd : Z;
  p_realdata : data_ptr;
  realdatalength : Z }.

Definition set_state (n : Z) (r : recv) : recv :=
  Recv n (byte_length r) (byte_recvbuf r) (byte_recvbuf_index r) (realcmd r) (p_realdata r) (realdatalength r).

(** The static variables at start-up; [_byte_recvbuf] has 64 elements. *)
Definition recv0 : recv := Recv 0 0 (replicate 64 0) 0 0 NoData 0.

Definition Proto_data_analyze_byte (data : Z) : M recv Z :=
  state <- gets r_state;;
  if state =? 0 then
    (if data =? PROTO_HEAD then
       modify (fun r => Recv 1 0 (byte_recvbuf r) 0 (realcmd r) (p_realdata r) (realdatalength r))
     else modify (set_state 0));;;
    ret 0
  else if state =? 1 then
    modify (fun r => Recv 2 data (byte_recvbuf r) (byte_recvbuf_index r) (realcmd r) (p_realdata r) (realdatalength r));;;
    ret 0
  else if state =? 2 then
    (if data =? 0x01 then modify (set_state 3) else modify (set_state 0));;;
    ret 0
  else if state =? 3 then
    i <- gets byte_recvbuf_index;;
    buf <- gets byte_recvbuf;;
    (if (Z.to_nat i <? length buf)%nat then ret tt else stuck Undefined);;;
    modify (fun r => Recv 3 (byte_length r) (<[Z.to_nat i := data]> buf) (u8 (i + 1))
                       (realcmd r) (p_realdata r) (realdatalength r));;;
    len <- gets byte_length;;
    when (len - 5 <=? u8 (i + 1)) (modify (set_state 4));;;
    ret 0
  else if state =? 4 then
    (if data =? 0xff then modify (set_state 5) else modify (set_state 0));;;
    ret 0
  else if state =? 5 then
    if data =? PROTO_TAIL then
      cmd <- deref (fun r => byte_recvbuf r !! 0%nat);;
      modify (fun r => Recv 0 (byte_length r) (byte_recvbuf r) (byte_recvbuf_index r)
                         cmd (Recvbuf 1) (u8 (byte_length r - 6)));;;
      ret 1
    else modify (set_state 0);;; ret 0
  else ret 0.

(** [data[i]], for an array of the caller. *)
Definition elem {S} (a : list Z) (i : Z) : M S Z :=
  if 0 <=? i then deref (fun _ => a !! Z.to_nat i) else stuck Undefined.

(** The loop of [Proto_data_analyze] from index [i] on, [n] elements being left. *)
Fixpoint analyze_from (n : nat) (data : list Z) (i : Z) : M recv Z :=
  match n with
  | O => ret 0
  | S n =>
      h <- elem data i;;
      if h =? PROTO_HEAD then
        length <- elem data (i + 1);;
        t <- elem data (i + length - 1);;
        if t =? PROTO_TAIL then
          c <- elem data (i + 3);;
          modify (fun r => Recv (r_state r) (byte_length r) (byte_recvbuf r) (byte_recvbuf_index r)
                             c (Caller data (i + 4)) (u8 (length - 6)));;;
          ret 1
        else analyze_from n data (u8 (i + 1))
      else analyze_from n data (u8 (i + 1))
  end.

Definition Proto_data_analyze (data : list Z) (size : Z) : M recv Z :=
  analyze_from (Z.to_nat size) data 0.

(** ** The panel *)

(** The other static variables of proto.c. *)
Inductive static :=
| value89 | dzp_flag | dzp1_flag | speed | motor_flag | dial_value | dial_flag | tem1 | hum1 | dht11_tick
| tem | ds18b20_tick | yg_x | yg_y | yg_z | jiujing_value | xzdwq_value | sound | sound_tick
| Clear_flag | tl_r | tl_yellow | tl_g | traffic_light_flag | GUI_flag.

#[global] Instance static_eq_dec : EqDecision static.
Proof. solve_decision. Defined.

(** Calls of peripherals: the pin driver, the timers, the display library, the serial port. *)
Inductive call :=
| rt_pin_write (pin value : Z)
| TIM3_Set_freq (arr : Z)
| TIM3_PWM_Init (arr psc : Z)
| TIM_SetTIM4Compare1 (compare : Z)
| TIM4_PWM_Init (arr psc : Z)
| dwq_task
| GUI_SetBkColor (white : bool)
| GUI_Clear
| GUI_SetColor_BLUE
| GUI_FillRoundedRect (x0 y0 x1 y1 r : Z)
| Traffic_light (r y g : Z)
| proto_send (frame : list Z).

Record panel := Panel {
  rcv : recv;
  vars : static -> Z;
  dzp_buf : list Z;
  dzp1_buf : list Z;
  send_func : bool;
  brd : board;
  calls : list call }.

Definition panel0 : panel := Panel recv0 (fun _ => 0) (replicate 5 0) (replicate 5 0) false (Board 0 []) [].

(** The widths of the variables. *)
Definition fit (v : static) (z : Z) : Z :=
  match v with dht11_tick | ds18b20_tick | sound_tick => u32 z | tem => u16 z | _ => u8 z end.

Definition setv (v : static) (z : Z) : M panel unit :=
  modify (fun p => Panel (rcv p) (fun w => if decide (w = v) then fit v z else vars p w)
                     (dzp_buf p) (dzp1_buf p) (send_func p) (brd p) (calls p)).
Definition getv (v : static) : M panel Z := gets (fun p => vars p v).
Definition docall (c : call) : M panel unit :=
  modify (fun p => Panel (rcv p) (vars p) (dzp_buf p) (dzp1_buf p) (send_func p) (brd p) (calls p ++ [c])).
Definition on_board {A} (m : M board A) : M panel A :=
  zoom brd (fun b p => Panel (rcv p) (vars p) (dzp_buf p) (dzp1_buf p) (send_func p) b (calls p)) m.
Definition on_recv {A} (m : M recv A) : M panel A :=
  zoom rcv (fun r p => Panel r (vars p) (dzp_buf p) (dzp1_buf p) (send_func p) (brd p) (calls p)) m.

(** What the inputs of the board deliver during a call. *)
Record inputs := Inputs {
  rt_pin_read : Z -> Z;
  HAL_GPIO_ReadPin : port -> Z -> Z;
  Get_Adc1 : Z -> Z;
  Get_Adc3 : Z -> Z;
  dht11_pin : Z -> bool;
  ds18b20_pin : Z -> bool }.

Definition RGB_R := 67.
Definition RGB_G := 66.
Definition RGB_B := 64.
Definition SY_D0 := 85.
Definition GMDZ := 19.
Definition YG_KEY := 26.

(** [data[i]] through [p_realdata]. *)
Definition data (i : Z) : M panel Z :=
  p <- gets (fun p => p_realdata (rcv p));;
  match p with
  | NoData => stuck Undefined
  | Recvbuf off => deref (fun p => byte_recvbuf (rcv p) !! Z.to_nat (off + i))
  | Caller a off => elem a (off + i)
  end.

(** [memcpy(buf, data, 5)]. *)
Definition data5 : M panel (list Z) :=
  a <- data 0;; b <- data 1;; c <- data 2;; d <- data 3;; e <- data 4;; ret [a; b; c; d; e].

(** ** Carrying out commands *)

(** [_send]: [sendbuf] has 20 elements. *)
Definition _send (cmd : Z) (data : list Z) : M panel Z :=
  let size := Z.of_nat (length data) in
  (if 5 + size <? 20 then ret tt else stuck Undefined);;;
  f <- gets send_func;;
  when f (docall (proto_send ([PROTO_HEAD; u8 (size + 6); 0x81; cmd] ++ data ++ [0xff; PROTO_TAIL])));;;
  ret 0.

Definition proto_set_sendFunc : M panel unit :=
  modify (fun p => Panel (rcv p) (vars p) (dzp_buf p) (dzp1_buf p) true (brd p) (calls p)).

Definition DZP_set : M panel unit :=
  d <- data5;;
  modify (fun p => Panel (rcv p) (vars p) d (dzp1_buf p) (send_func p) (brd p) (calls p));;;
  setv dzp_flag 1.

Definition DZP1_set : M panel unit :=
  d <- data5;;
  modify (fun p => Panel (rcv p) (vars p) (dzp_buf p) d (send_func p) (brd p) (calls p));;;
  setv dzp1_flag 1.

Definition MOTOR_set (d : Z) : M panel unit := setv speed d;;; setv motor_flag 1.
Definition Dial_set (d : Z) : M panel unit := setv dial_value d;;; setv dial_flag 1.
Definition Dial_value_get : M panel Z := getv dial_value.
Definition DHT11_get : M panel (Z * Z) := t <- getv tem1;; h <- getv hum1;; ret (t, h).
Definition DS18B20_get : M panel Z := getv tem.
Definition YG_set : M panel (Z * Z * Z) := x <- getv yg_x;; y <- getv yg_y;; z <- getv yg_z;; ret (x, y, z).
Definition jiujing_set : M panel Z := getv jiujing_value.
Definition XZDWQ_set : M panel Z := getv xzdwq_value.
Definition SOUNDSENSOR_set : M panel Z := getv sound.
Definition traffic_light_set (r y g : Z) : M panel unit :=
  setv tl_r r;;; setv tl_yellow y;;; setv tl_g g;;; setv traffic_light_flag 1.
Definition GUI_set : M panel unit := setv GUI_flag 1;;; setv Clear_flag 1.

(** The [switch] of [Proto_sensor_cmd_deal]: what it leaves in [_data[0 .. sendlength-1]]. *)
Definition cmd_switch (hw : inputs) (cmd : Z) : M panel (list Z) :=
  if cmd =? RGB_LED then
    r <- data 0;; docall (rt_pin_write RGB_R r);;;
    g <- data 1;; docall (rt_pin_write RGB_G g);;;
    b <- data 2;; docall (rt_pin_write RGB_B b);;;
    ret [1]
  else if cmd =? PASSIVE_BUZZER then
    i <- data 0;;
    (if nz i then docall (TIM3_Set_freq i) else docall (TIM3_PWM_Init (500 - 1) (84 - 1)));;;
    ret [i]
  else if cmd =? QXKG then ret [HAL_GPIO_ReadPin hw GPIOF 6]
  else if cmd =? SMG then d <- data 0;; setv value89 d;;; ret [0]
  else if cmd =? MOTOR then i <- data 0;; MOTOR_set i;;; ret [i]
  else if cmd =? DZP then DZP_set;;; ret [0]
  else if cmd =? DZP1 then DZP1_set;;; ret [0]
  else if cmd =? YG then v <- YG_set;; ret [v.1.1; v.1.2; v.2]
  else if cmd =? TFTLCD then ret [0]
  else if cmd =? SOUND_SENSOR then
    let sound_d := u8 (rt_pin_read hw SY_D0) in
    sound_a <- SOUNDSENSOR_set;; ret [sound_d; sound_a]
  else if cmd =? PIR then ret [HAL_GPIO_ReadPin hw GPIOB 15]
  else if cmd =? DHT11 then v <- DHT11_get;; ret [v.1; v.2]
  else if cmd =? DS18B20 then t <- DS18B20_get;; ret [u8 (Z.shiftr t 8); u8 t]
  else if cmd =? LIGHT then ret [u8 (rt_pin_read hw GMDZ)]
  else if cmd =? JJCGQ then
    on_board (HAL_GPIO_WritePin GPIOF 3 true);;; v <- jiujing_set;; ret [v]
  else if cmd =? ROTARY_ENCODERS then v <- XZDWQ_set;; ret [v]
  else if cmd =? GDKG then ret [HAL_GPIO_ReadPin hw GPIOF 8]
  else if cmd =? KEY5 then
    ret [HAL_GPIO_ReadPin hw GPIOG 9; HAL_GPIO_ReadPin hw GPIOG 8; HAL_GPIO_ReadPin hw GPIOG 10;
         HAL_GPIO_ReadPin hw GPIOG 11; HAL_GPIO_ReadPin hw GPIOG 12]
  else if cmd =? Dial then i <- data 0;; Dial_set i;;; ret [i]
  else if cmd =? traffic_light then
    r <- data 0;; y <- data 1;; g <- data 2;; traffic_light_set r y g;;; ret [0]
  else if cmd =? GUI_clear then GUI_set;;; ret [0]
  else ret [].

Definition Proto_sensor_cmd_deal (hw : inputs) : M panel Z :=
  cmd <- gets (fun p => realcmd (rcv p));;
  _data <- cmd_switch hw cmd;;
  _send cmd _data;;;
  ret cmd.

(** ** The rounds of the sensor thread *)

Definition buf_at (b : list Z) (i : nat) : M panel Z := deref (fun _ => b !! i).

Definition DZP_deal : M panel unit :=
  f <- getv dzp_flag;;
  when (f =? 1)
    (setv dzp_flag 0;;;
     on_board Init_MAX7219;;;
     b <- gets dzp_buf;;
     d0 <- buf_at b 0;; on_board (Write_Max7219 1 (Z.shiftl d0 1));;;
     d1 <- buf_at b 1;; on_board (Write_Max7219 2 (Z.shiftl d1 1));;;
     d2 <- buf_at b 2;; on_board (Write_Max7219 3 (Z.shiftl d2 1));;;
     d3 <- buf_at b 3;; on_board (Write_Max7219 4 (Z.shiftl d3 1));;;
     d4 <- buf_at b 4;; on_board (Write_Max7219 5 (Z.shiftl d4 1))).

Definition DZP1_deal : M panel unit :=
  f <- getv dzp1_flag;;
  when (f =? 1)
    (setv dzp1_flag 0;;;
     on_board Init_DZP1;;;
     b <- gets dzp1_buf;;
     d0 <- buf_at b 0;; on_board (Write_DZP1 1 (Z.shiftl d0 1));;;
     d1 <- buf_at b 1;; on_board (Write_DZP1 2 (Z.shiftl d1 1));;;
     d2 <- buf_at b 2;; on_board (Write_DZP1 3 (Z.shiftl d2 1));;;
     d3 <- buf_at b 3;; on_board (Write_DZP1 4 (Z.shiftl d3 1));;;
     d4 <- buf_at b 4;; on_board (Write_DZP1 5 (Z.shiftl d4 1))).

Definition MOTOR_deal : M panel unit :=
  f <- getv motor_flag;;
  when (f =? 1)
    (s <- getv speed;;
     (if nz s then docall (TIM_SetTIM4Compare1 s) else docall (TIM4_PWM_Init (500 - 1) (84 - 1)));;;
     setv motor_flag 0).

Definition Dial_deal : M panel unit :=
  f <- getv dial_flag;;
  when (f =? 1) (docall dwq_task;;; setv dial_flag 0).

Definition DHT11_deal (hw : inputs) : M panel unit :=
  t <- getv dht11_tick;; setv dht11_tick (t + 1);;;
  t <- getv dht11_tick;;
  when (200 <=? t)
    (setv dht11_tick 0;;;
     v <- on_board (DHT11_Read_Data (dht11_pin hw));;
     match v.2 with Some (t, h) => setv tem1 t;;; setv hum1 h | None => ret tt end).

Definition DS18B20_deal (hw : inputs) : M panel unit :=
  t <- getv ds18b20_tick;; setv ds18b20_tick (t + 1);;;
  t <- getv ds18b20_tick;;
  when (200 <=? t)
    (setv ds18b20_tick 0;;;
     v <- on_board (DS18B20_Get_Temp (ds18b20_pin hw));; setv tem v).

Definition YG_deal (hw : inputs) : M panel unit :=
  setv yg_x (Get_Adc1 hw 0);;; setv yg_y (Get_Adc1 hw 1);;; setv yg_z (rt_pin_read hw YG_KEY).

Definition jiujing_deal (hw : inputs) : M panel unit := setv jiujing_value (Get_Adc3 hw 15).
Definition XZDWQ_deal (hw : inputs) : M panel unit := setv xzdwq_value (Get_Adc1 hw 3).

Definition SOUNDSENSOR_deal (hw : inputs) : M panel unit :=
  t <- getv sound_tick;; setv sound_tick (t + 1);;;
  t <- getv sound_tick;;
  when (200 <=? t) (setv sound_tick 0;;; setv sound (Get_Adc1 hw 2)).

Definition traffic_deal : M panel unit :=
  f <- getv traffic_light_flag;;
  when (f =? 1)
    (c <- getv Clear_flag;;
     when (c =? 1)
       (setv Clear_flag 0;;;
        docall (GUI_SetBkColor true);;; docall GUI_Clear;;; docall GUI_SetColor_BLUE;;;
        docall (GUI_FillRoundedRect 30 80 209 160 10));;;
     r <- getv tl_r;; y <- getv tl_yellow;; g <- getv tl_g;;
     docall (Traffic_light r y g);;;
     setv traffic_light_flag 0).

Definition GUI_deal : M panel unit :=
  f <- getv GUI_flag;;
  when (f =? 1) (docall (GUI_SetBkColor false);;; docall GUI_Clear;;; setv GUI_flag 0).

(** One pass of the loop of [thread_sensor_entry] (applications/main.c), up to its delay. *)
Definition sensor_round (hw : inputs) : M panel unit :=
  DZP_deal;;; DZP1_deal;;; MOTOR_deal;;; DHT11_deal hw;;; DS18B20_deal hw;;; YG_deal hw;;; jiujing_deal hw;;;
  XZDWQ_deal hw;;; SOUNDSENSOR_deal hw;;; Dial_deal;;; traffic_deal;;; GUI_deal.

(** ** The serial port *)

(** [_proto_rx_ind] (applications/main.c) on the bytes read from the port: the number of times
    the semaphore is released. *)
Fixpoint _proto_rx_ind (bytes : list Z) : M recv nat :=
  match bytes with
  | [] => ret 0%nat
  | b :: bytes => r <- Proto_data_analyze_byte b;; n <- _proto_rx_ind bytes;; ret ((if nz r then 1 else 0) + n)%nat
  end.

(** * The receiver *)

(** A command as the host sends it. *)
Definition host_frame (cmd : Z) (data : list Z) : list Z :=
  [PROTO_HEAD; Z.of_nat (length data) + 6; 0x01; cmd] ++ data ++ [0xff; PROTO_TAIL].

(** The command and the data of it in the receiver. *)
Definition current (r : recv) : Z * list Z :=
  (realcmd r, take (Z.to_nat (realdatalength r)) (drop 1 (byte_recvbuf r))).

(** The receiver on a sequence of bytes: what it holds each time it reports a command. *)
Fixpoint listen (bytes : list Z) : M recv (list (Z * list Z)) :=
  match bytes with
  | [] => ret []
  | b :: bytes =>
      r <- Proto_data_analyze_byte b;;
      c <- gets current;;
      l <- listen bytes;;
      ret (if nz r then c :: l else l)
  end.

Lemma rx_ind_listen bytes r :
  _proto_rx_ind bytes r = match listen bytes r with Done l r' => Done (length l) r' | Stop w => Stop w end.
Proof.
  revert r. induction bytes as [|b bytes IH]; intros r; [done|]. cbn [_proto_rx_ind listen].
  unfold bind at 1. unfold bind at 2. destruct (Proto_data_analyze_byte b r) as [x r1|]; [|done]. mstep.
  unfold bind. rewrite IH. destruct (listen bytes r1) as [l r2|]; [|done]. cbn. by destruct (nz x).
Qed.

Definition recv_buf_ok (r : recv) : Prop := length (byte_recvbuf r) = 64%nat.

(** The steps of the receiver that report nothing. *)
Lemma listen_step b bytes r r' :
  Proto_data_analyze_byte b r = Done 0 r' -> listen (b :: bytes) r = listen bytes r'.
Proof.
  intros E. cbn [listen]. rewrite (after E). mstep. unfold bind. by destruct (listen bytes r').
Qed.

Lemma listen_hit b bytes r r' :
  Proto_data_analyze_byte b r = Done 1 r' ->
  listen (b :: bytes) r = (l <- listen bytes;; ret (current r' :: l)) r'.
Proof. intros E. cbn [listen]. by rewrite (after E). Qed.

Lemma analyze_tail r cmd :
  r_state r = 5 -> byte_recvbuf r !! 0%nat = Some cmd ->
  Proto_data_analyze_byte PROTO_TAIL r =
    Done 1 (Recv 0 (byte_length r) (byte_recvbuf r) (byte_recvbuf_index r) cmd (Recvbuf 1) (u8 (byte_length r - 6))).
Proof.
  intros Hs Hc. unfold Proto_data_analyze_byte. mstep. rewrite Hs. cbn [Z.eqb Pos.eqb]. rewrite Z.eqb_refl.
  unfold bind at 1, deref. rewrite Hc. done.
Qed.

Lemma analyze_payload d r i :
  r_state r = 3 -> byte_recvbuf_index r = i -> 0 <= i < 64 -> recv_buf_ok r ->
  Proto_data_analyze_byte d r =
    Done 0 (Recv (if byte_length r - 5 <=? i + 1 then 4 else 3) (byte_length r)
              (<[Z.to_nat i := d]> (byte_recvbuf r)) (i + 1) (realcmd r) (p_realdata r) (realdatalength r)).
Proof.
  intros Hs Hi Hr Hb. unfold Proto_data_analyze_byte. mstep. rewrite Hs. cbn [Z.eqb Pos.eqb]. msteps. rewrite Hi.
  rewrite (proj2 (Nat.ltb_lt _ _)) by (rewrite Hb; lia). msteps. cbn [byte_length].
  rewrite u8_small by lia. by destruct (byte_length r - 5 <=? i + 1).
Qed.

(** A payload of the announced length, stored from index [i] on. *)
Lemma listen_payload ps rest r i :
  r_state r = 3 -> byte_recvbuf_index r = i -> 0 <= i -> recv_buf_ok r -> ps <> [] ->
  i + Z.of_nat (length ps) <= 64 -> byte_length r - 5 = i + Z.of_nat (length ps) ->
  listen (ps ++ rest) r =
    listen rest (Recv 4 (byte_length r) (list_inserts (Z.to_nat i) ps (byte_recvbuf r))
                   (i + Z.of_nat (length ps)) (realcmd r) (p_realdata r) (realdatalength r)).
Proof.
  revert r i. induction ps as [|p ps IH]; intros r i Hs Hi H0 Hb Hne Hle Hl; [done|]. cbn [length] in *.
  change ((p :: ps) ++ rest) with (p :: (ps ++ rest)).
  erewrite listen_step by (apply (analyze_payload p r i); first [done|lia]).
  destruct ps as [|q ps].
  - cbn [length] in *. rewrite (proj2 (Z.leb_le _ _)) by lia. cbn [app].
    done.
  - rewrite (proj2 (Z.leb_gt _ _)) by (cbn [length] in *; lia).
    assert (Ei : list_inserts (Z.to_nat i) (p :: q :: ps) (byte_recvbuf r) =
                 list_inserts (Z.to_nat (i + 1)) (q :: ps) (<[Z.to_nat i := p]> (byte_recvbuf r))).
    { replace (Z.to_nat (i + 1)) with (S (Z.to_nat i)) by lia. apply list_insert_inserts_lt. lia. }
    rewrite (IH _ (i + 1)), Ei; cbn [r_state byte_recvbuf_index byte_length byte_recvbuf realcmd p_realdata realdatalength];
      try done; try lia.
    + by replace (i + 1 + Z.of_nat (length (q :: ps))) with (i + Z.of_nat (S (length (q :: ps)))) by lia.
    + unfold recv_buf_ok. cbn. by rewrite length_insert.
Qed.

(** The bytes of a command frame. *)
Definition frame_ok (cmd : Z) (data : list Z) : Prop := (length data <= 63)%nat.

Lemma listen_frame cmd data rest r :
  r_state r = 0 -> recv_buf_ok r -> frame_ok cmd data ->
  exists r', r_state r' = 0 /\ recv_buf_ok r' /\ current r' = (cmd, data) /\ p_realdata r' = Recvbuf 1 /\
    byte_recvbuf r' = list_inserts 0 (cmd :: data) (byte_recvbuf r) /\
    listen (host_frame cmd data ++ rest) r = (l <- listen rest;; ret ((cmd, data) :: l)) r'.
Proof.
  intros Hs Hb Hd. unfold frame_ok in Hd. unfold host_frame. cbn [app].
  set (n := Z.of_nat (length data)). set (buf := list_inserts 0 (cmd :: data) (byte_recvbuf r)).
  assert (Hlen : length buf = 64%nat) by (unfold buf; by rewrite length_inserts).
  assert (Hlk : forall i x, (cmd :: data) !! i = Some x -> buf !! i = Some x).
  { intros i x Hi. pose proof (lookup_lt_Some _ _ _ Hi). unfold buf. rewrite list_lookup_inserts by (rewrite ?Hb; cbn in *; lia).
    by rewrite Nat.sub_0_r. }
  assert (Hcur : current (Recv 0 (n + 6) buf (n + 1) cmd (Recvbuf 1) n) = (cmd, data)).
  { unfold current. cbn [realcmd byte_recvbuf realdatalength]. f_equal.
    apply list_eq_same_length with (length data); [done|rewrite length_take, length_drop, Hlen; unfold n; lia|].
    intros i x y Hi. rewrite lookup_take_lt, lookup_drop by (unfold n; lia). intros Hx Hy.
    rewrite (Hlk (1 + i)%nat y Hy) in Hx. congruence. }
  eexists. split_and!; [..|]; [| |exact Hcur| | |]; try done.
  rewrite (listen_step PROTO_HEAD _ r (Recv 1 0 (byte_recvbuf r) 0 (realcmd r) (p_realdata r) (realdatalength r)))
      by (unfold Proto_data_analyze_byte; mstep; by rewrite Hs).
    erewrite listen_step by reflexivity. erewrite listen_step by reflexivity. unfold set_state.
    cbn [r_state byte_recvbuf_index byte_length byte_recvbuf realcmd p_realdata realdatalength].
    rewrite <- app_assoc. change (cmd :: data ++ [0xff; PROTO_TAIL] ++ rest) with ((cmd :: data) ++ [0xff; PROTO_TAIL] ++ rest).
    rewrite (listen_payload (cmd :: data) ([0xff; PROTO_TAIL] ++ rest) _ 0);
      cbn [r_state byte_recvbuf_index byte_length byte_recvbuf realcmd p_realdata realdatalength length]; try done; [|unfold n; lia..].
    cbn [app]. erewrite listen_step by reflexivity.
    erewrite listen_hit; [|by apply (analyze_tail _ cmd); [|apply (Hlk 0%nat)]].
    unfold set_state. cbn [r_state byte_recvbuf_index byte_length byte_recvbuf realcmd p_realdata realdatalength].
    replace (u8 (n + 6 - 6)) with n by (rewrite u8_small; unfold n; lia).
    replace (0 + Z.of_nat (S (length data))) with (n + 1) by (unfold n; lia).
    change (list_inserts (Z.to_nat 0) (cmd :: data) (byte_recvbuf r)) with buf. by rewrite Hcur.
Qed.

Lemma listen_app bs bs' r l r1 l' r2 :
  listen bs r = Done l r1 -> listen bs' r1 = Done l' r2 -> listen (bs ++ bs') r = Done (l ++ l') r2.
Proof.
  revert r l. induction bs as [|b bs IH]; intros r l E E'; [by injection E as <- <-|].
  cbn [app listen] in *. unfold bind at 1 in E. unfold bind at 1.
  destruct (Proto_data_analyze_byte b r) as [x r0|]; [|done]. revert E. msteps. unfold bind.
  destruct (listen bs r0) as [l0 r3|] eqn:E0; [|done]. intros [= <- <-].
  rewrite (IH r0 l0 E0 E'). by destruct (nz x).
Qed.

(** What comes in over the line: frames, and stray bytes between them. *)
Inductive item := Noise (b : Z) | Frame (cmd : Z) (data : list Z).

Definition item_ok (i : item) : Prop :=
  match i with Noise b => b <> PROTO_HEAD | Frame cmd data => frame_ok cmd data end.
Definition item_bytes (i : item) : list Z :=
  match i with Noise b => [b] | Frame cmd data => host_frame cmd data end.
Definition item_cmd (i : item) : list (Z * list Z) :=
  match i with Noise _ => [] | Frame cmd data => [(cmd, data)] end.

Lemma listen_items items r :
  r_state r = 0 -> recv_buf_ok r -> Forall item_ok items ->
  exists r', listen (flat_map item_bytes items) r = Done (flat_map item_cmd items) r' /\
    r_state r' = 0 /\ recv_buf_ok r'.
Proof.
  intros Hs Hb Hok. revert r Hs Hb. induction Hok as [|i items Hi _ IH]; intros r Hs Hb; [by exists r|].
  destruct i as [b|cmd data]; cbn [flat_map item_bytes item_cmd item_ok] in *.
  - cbn [app]. rewrite (listen_step b _ r (set_state 0 r)).
    + by apply IH.
    + unfold Proto_data_analyze_byte. mstep. rewrite Hs. cbn [Z.eqb]. by rewrite (proj2 (Z.eqb_neq _ _) Hi).
  - destruct (listen_frame cmd data (flat_map item_bytes items) r Hs Hb Hi) as (r1 & Hs1 & Hb1 & _ & _ & _ & ->).
    destruct (IH r1 Hs1 Hb1) as (r2 & E & H2). exists r2. by rewrite (after E).
Qed.

(** C30: the receiver recognises every command: on any sequence of frames with up to 63 bytes of data, and
    of stray bytes other than the start byte between them, it reports exactly the commands of the frames,
    in order and with their data, and the semaphore is released once for each. *)
Theorem proto_stream_received items r :
  r_state r = 0 -> recv_buf_ok r -> Forall item_ok items ->
  exists r', listen (flat_map item_bytes items) r = Done (flat_map item_cmd items) r' /\
    _proto_rx_ind (flat_map item_bytes items) r = Done (length (flat_map item_cmd items)) r' /\ r_state r' = 0.
Proof.
  intros Hs Hb Hok. destruct (listen_items items r Hs Hb Hok) as (r' & E & Hs' & _).
  exists r'. split; [done|]. by rewrite rx_ind_listen, E.
Qed.

Lemma proto_stream_received_witness :
  exists r', listen (flat_map item_bytes [Noise 7; Frame 5 [30]; Frame 20 [1; 0; 1]]) recv0
      = Done [(5, [30]); (20, [1; 0; 1])] r' /\
    _proto_rx_ind (flat_map item_bytes [Noise 7; Frame 5 [30]; Frame 20 [1; 0; 1]]) recv0 = Done 2%nat r' /\
    r_state r' = 0.
Proof.
  apply (proto_stream_received [Noise 7; Frame 5 [30]; Frame 20 [1; 0; 1]] recv0); [done|done|].
  repeat constructor; cbn; unfold frame_ok, PROTO_HEAD; cbn; lia.
Defined.

(** ** Only commands are reported *)

(** The length of the payload a length byte announces. *)
Definition payload_len (L : Z) : Z := Z.max 1 (L - 5).

(** How the variables of the receiver relate to the bytes it has consumed. *)
Definition history (r : recv) (bs : list Z) : Prop :=
  recv_buf_ok r /\ 0 <= r_state r <= 5 /\
  (r_state r = 1 -> exists pre, bs = pre ++ [PROTO_HEAD] /\ byte_recvbuf_index r = 0) /\
  (r_state r = 2 -> exists pre, bs = pre ++ [PROTO_HEAD; byte_length r] /\ byte_recvbuf_index r = 0) /\
  (3 <= r_state r -> exists pre ps,
     bs = pre ++ [PROTO_HEAD; byte_length r; 0x01] ++ ps ++ (if r_state r =? 5 then [0xff] else []) /\
     take (length ps) (byte_recvbuf r) = ps /\ (length ps <= 64)%nat /\
     byte_recvbuf_index r = Z.of_nat (length ps) /\
     (r_state r = 3 -> Z.of_nat (length ps) < payload_len (byte_length r)) /\
     (3 < r_state r -> Z.of_nat (length ps) = payload_len (byte_length r))).

Lemma history_start r bs : recv_buf_ok r -> r_state r = 0 -> history r bs.
Proof. intros Hb Hs. unfold history. rewrite Hs. split_and!; try done; lia. Qed.

Lemma take_insert_snoc (l : list Z) n x : (n < length l)%nat -> take (S n) (<[n := x]> l) = take n l ++ [x].
Proof.
  intros Hn. rewrite (take_S_r _ n x) by (by apply list_lookup_insert_eq). by rewrite take_insert_ge by lia.
Qed.

(** The steps of the automaton. *)
Lemma history_step3 r bs d x r' :
  history r bs -> r_state r = 3 -> Proto_data_analyze_byte d r = Done x r' -> x = 0 /\ history r' (bs ++ [d]).
Proof.
  intros (Hb & _ & _ & _ & H3) Hs E. destruct H3 as (pre & ps & -> & Htk & Hle & Hi & Hlt & _); [lia|].
  specialize (Hlt Hs). rewrite Hs in *. cbn [Z.eqb Pos.eqb app] in *. rewrite app_nil_r in *.
  destruct (decide (length ps = 64%nat)) as [E64|Hn].
  { unfold Proto_data_analyze_byte in E. revert E. mstep. rewrite Hs. cbn [Z.eqb Pos.eqb]. msteps.
    rewrite Hi, Nat2Z.id, E64. unfold recv_buf_ok in Hb. by rewrite Hb. }
  rewrite (analyze_payload d r _ Hs Hi) in E by (first [done|lia]). injection E as <- <-. split; [done|].
  rewrite Nat2Z.id. unfold history, recv_buf_ok. cbn [r_state byte_recvbuf byte_length byte_recvbuf_index].
  rewrite length_insert. split; [done|]. unfold payload_len in *.
  assert (Hp : take (length (ps ++ [d])) (<[length ps := d]> (byte_recvbuf r)) = ps ++ [d]).
  { rewrite length_app, Nat.add_1_r, take_insert_snoc by (rewrite Hb; lia). by rewrite Htk. }
  destruct (Z.leb_spec (byte_length r - 5) (Z.of_nat (length ps) + 1)) as [Hd|Hd];
    (split; [lia|]; split; [lia|]; split; [lia|]; intros _; exists pre, (ps ++ [d]));
    cbn [Z.eqb Pos.eqb]; rewrite app_nil_r;
    (split; [by rewrite <- !app_assoc|]; split; [exact Hp|]); rewrite length_app; cbn [length]; split_and!; lia.
Qed.

Lemma history_step r bs d x r' :
  history r bs -> Proto_data_analyze_byte d r = Done x r' ->
  history r' (bs ++ [d]) /\ (x = 0 \/ x = 1 /\ r_state r = 5 /\ d = PROTO_TAIL /\
    exists cmd, byte_recvbuf r !! 0%nat = Some cmd /\
      r' = Recv 0 (byte_length r) (byte_recvbuf r) (byte_recvbuf_index r) cmd (Recvbuf 1) (u8 (byte_length r - 6))).
Proof.
  intros HH E. destruct (decide (r_state r = 3)) as [Hs|Hs].
  { destruct (history_step3 r bs d x r' HH Hs E) as [-> H]. split; [done|by left]. }
  pose proof HH as (Hb & Hr & H1 & H2 & H3). unfold Proto_data_analyze_byte in E. revert E. mstep.
  assert (r_state r = 0 \/ r_state r = 1 \/ r_state r = 2 \/ r_state r = 4 \/ r_state r = 5)
    as [E0|[E1|[E2|[E4|E5]]]] by lia.
  - rewrite E0. cbn [Z.eqb]. destruct (Z.eqb_spec d PROTO_HEAD) as [->|]; msteps; intros [= <- <-]; (split; [|by left]).
    + split; [done|]. cbn. split; [lia|]. split; [intros _; by exists bs|]. split; intros; lia.
    + by apply history_start.
  - rewrite E1. cbn [Z.eqb Pos.eqb]. msteps. intros [= <- <-]. split; [|by left].
    destruct (H1 E1) as (pre & -> & Hi). split; [done|]. cbn. split; [lia|]. split; [intros; lia|].
    split; [|intros; lia]. intros _. exists pre. by rewrite <- app_assoc.
  - rewrite E2. cbn [Z.eqb Pos.eqb]. destruct (H2 E2) as (pre & -> & Hi).
    destruct (Z.eqb_spec d 1) as [->|]; msteps; intros [= <- <-]; (split; [|by left]); [|by apply history_start].
    split; [done|]. cbn [r_state set_state]. split; [lia|]. split; [intros; lia|]. split; [intros; lia|].
    intros _. exists pre, []. cbn. unfold payload_len. rewrite <- app_assoc. split_and!; first [done|lia].
  - rewrite E4. cbn [Z.eqb Pos.eqb]. destruct H3 as (pre & ps & -> & Htk & Hle & Hi & _ & Hlt); [lia|].
    destruct (Z.eqb_spec d 0xff) as [->|]; msteps; intros [= <- <-]; (split; [|by left]); [|by apply history_start].
    split; [done|]. cbn [r_state set_state]. split; [lia|]. split; [intros; lia|]. split; [intros; lia|].
    intros _. exists pre, ps. rewrite E4. cbn [Z.eqb Pos.eqb byte_length byte_recvbuf byte_recvbuf_index set_state].
    split_and!; try done; [|intros _; apply Hlt; lia]. by rewrite app_nil_r, <- !app_assoc.
  - rewrite E5. cbn [Z.eqb Pos.eqb]. destruct (Z.eqb_spec d PROTO_TAIL) as [->|].
    + unfold bind at 1, deref. destruct (byte_recvbuf r !! 0%nat) as [cmd|] eqn:Ec; [|done]. msteps.
      intros [= <- <-]. split; [by apply history_start|]. right. split_and!; try done. by exists cmd.
    + msteps. intros [= <- <-]. split; [by apply history_start|by left].
Qed.

Lemma rx_ind_history bytes pre r n r' :
  history r pre -> _proto_rx_ind bytes r = Done n r' -> history r' (pre ++ bytes).
Proof.
  revert pre r n. induction bytes as [|b bytes IH]; intros pre r n HH E.
  { injection E as _ <-. by rewrite app_nil_r. }
  cbn [_proto_rx_ind] in E. unfold bind at 1 in E.
  destruct (Proto_data_analyze_byte b r) as [x r1|] eqn:E1; [|done].
  destruct (history_step r pre b x r1 HH E1) as [H1 _]. unfold bind in E.
  destruct (_proto_rx_ind bytes r1) as [m r2|] eqn:E2; [|done]. injection E as _ <-.
  replace (pre ++ b :: bytes) with ((pre ++ [b]) ++ bytes) by (by rewrite <- app_assoc). by eapply IH.
Qed.

(** the receiver reports nothing but commands: whenever a byte makes it report one, the bytes received
    so far end in a frame, from start byte to end byte, with the announced number of payload bytes;
    the command reported is the first of them, and they lie in the receive buffer. *)
Theorem proto_reports_frames r bytes n r1 d r2 :
  r_state r = 0 -> recv_buf_ok r -> _proto_rx_ind bytes r = Done n r1 -> Proto_data_analyze_byte d r1 = Done 1 r2 ->
  exists pre L cmd ps, bytes ++ [d] = pre ++ [PROTO_HEAD; L; 0x01] ++ (cmd :: ps) ++ [0xff; PROTO_TAIL] /\
    Z.of_nat (length (cmd :: ps)) = payload_len L /\ realcmd r2 = cmd /\ p_realdata r2 = Recvbuf 1 /\
    realdatalength r2 = u8 (L - 6) /\ take (length ps) (drop 1 (byte_recvbuf r2)) = ps.
Proof.
  intros Hs Hb E Ed. pose proof (rx_ind_history bytes [] r n r1 (history_start r [] Hb Hs) E) as HH. cbn [app] in HH.
  destruct (history_step r1 bytes d 1 r2 HH Ed) as [_ [?|(_ & H5 & -> & cmd & Hc & ->)]]; [done|].
  destruct HH as (_ & _ & _ & _ & H3). destruct H3 as (pre & ps & -> & Htk & Hle & Hi & _ & Hl); [lia|].
  rewrite H5 in Hl. specialize (Hl ltac:(lia)). rewrite H5. cbn [Z.eqb Pos.eqb]. unfold payload_len in *.
  destruct ps as [|c ps]; [cbn in Hl; lia|].
  destruct (byte_recvbuf r1) as [|c' buf]; [done|]. cbn in Hc. injection Hc as ->. cbn in Htk. injection Htk as -> Htk.
  exists pre, (byte_length r1), c, ps. cbn [realcmd p_realdata realdatalength byte_recvbuf drop].
  split_and!; try done. by rewrite <- !app_assoc.
Qed.

Lemma proto_reports_frames_witness :
  exists pre L cmd ps, [0; 0x5a; 8; 1; 20; 1; 0; 0xff; 0xa5] = pre ++ [PROTO_HEAD; L; 0x01] ++ (cmd :: ps) ++ [0xff; PROTO_TAIL] /\
    Z.of_nat (length (cmd :: ps)) = payload_len L /\ 20 = cmd /\ Recvbuf 1 = Recvbuf 1 /\
    2 = u8 (L - 6) /\ take (length ps) (1 :: 0 :: replicate 61 0) = ps.
Proof.
  apply (proto_reports_frames recv0 [0; 0x5a; 8; 1; 20; 1; 0; 0xff] 0%nat
    (Recv 5 8 ([20; 1; 0] ++ replicate 61 0) 3 0 NoData 0) 0xa5
    (Recv 0 8 ([20; 1; 0] ++ replicate 61 0) 3 20 (Recvbuf 1) 2)); [done|done|reflexivity|reflexivity].
Defined.

(** ** The receive buffer *)

(** Inside the buffer: a length byte below 70, and an index that has not reached the end. *)
Definition recv_safe (r : recv) : Prop :=
  recv_buf_ok r /\ 0 <= byte_recvbuf_index r /\
  (r_state r = 1 \/ r_state r = 2 -> byte_recvbuf_index r = 0) /\
  (r_state r = 2 \/ r_state r = 3 -> byte_length r < 70) /\
  (r_state r = 3 -> byte_recvbuf_index r < payload_len (byte_length r)).

Lemma payload_len_64 L : L < 70 -> payload_len L <= 64.
Proof. unfold payload_len. lia. Qed.

Lemma analyze_byte_safe r d :
  recv_safe r -> (r_state r = 1 -> d < 70) ->
  exists x r', Proto_data_analyze_byte d r = Done x r' /\ recv_safe r' /\ (r_state r' = 1 -> d = PROTO_HEAD).
Proof.
  intros (Hb & H0 & H12 & HL & H3) Hd. destruct (decide (r_state r = 3)) as [Hs|Hs].
  { pose proof (payload_len_64 (byte_length r) ltac:(auto)). specialize (H3 Hs). specialize (HL (or_intror Hs)).
    rewrite (analyze_payload d r _ Hs eq_refl) by (first [done|lia]). eexists _, _. split; [done|].
    split; [|cbn; zcase; lia]. unfold recv_safe, recv_buf_ok. cbn [r_state byte_recvbuf byte_recvbuf_index byte_length]. rewrite length_insert.
    unfold payload_len in *. split; [done|]. destruct (Z.leb_spec (byte_length r - 5) (byte_recvbuf_index r + 1)); split_and!; lia. }
  unfold Proto_data_analyze_byte. mstep.
  destruct (Z.eqb_spec (r_state r) 0); [|destruct (Z.eqb_spec (r_state r) 1) as [E1|];
    [|destruct (Z.eqb_spec (r_state r) 2) as [E2|]; [|destruct (Z.eqb_spec (r_state r) 3); [done|];
    destruct (Z.eqb_spec (r_state r) 4); [|destruct (Z.eqb_spec (r_state r) 5)]]]].
  - destruct (Z.eqb_spec d PROTO_HEAD); msteps; eexists _, _; (split; [done|]); (split; [|cbn; first [done|lia]]);
      unfold recv_safe; cbn; split_and!; first [done|lia].
  - msteps. eexists _, _. split; [done|]. split; [|cbn; lia]. specialize (Hd E1). specialize (H12 (or_introl E1)).
    unfold recv_safe; cbn; split_and!; first [done|lia].
  - specialize (H12 (or_intror E2)). specialize (HL (or_introl E2)).
    destruct (d =? 1); msteps; eexists _, _; (split; [done|]); (split; [|cbn; lia]);
      unfold recv_safe, payload_len; cbn; split_and!; first [done|lia].
  - destruct (d =? 0xff); msteps; eexists _, _; (split; [done|]); (split; [|cbn; lia]);
      unfold recv_safe; cbn; split_and!; first [done|lia].
  - destruct (d =? PROTO_TAIL); msteps.
    + destruct (lookup_lt_is_Some_2 (byte_recvbuf r) 0) as [c Hc]; [rewrite Hb; lia|].
      unfold bind at 1, deref. rewrite Hc. msteps. eexists _, _. split; [done|]. split; [|cbn; lia].
      unfold recv_safe; cbn; split_and!; first [done|lia].
    + eexists _, _. split; [done|]. split; [|cbn; lia]. unfold recv_safe; cbn; split_and!; first [done|lia].
  - msteps. exists 0, r. split; [done|]. split; [|lia]. unfold recv_safe. split_and!; first [done|lia|auto].
Qed.

Lemma receive_safe bytes :
  (forall i L, bytes !! i = Some PROTO_HEAD -> bytes !! S i = Some L -> L < 70) ->
  exists n r', _proto_rx_ind bytes recv0 = Done n r' /\ recv_safe r'.
Proof.
  intros HL. assert (Hr : recv_safe recv0) by (unfold recv_safe; cbn; split_and!; first [done|lia]).
  assert (H1 : r_state recv0 = 1 -> forall L, bytes !! 0%nat = Some L -> L < 70) by done.
  revert Hr H1. generalize recv0. induction bytes as [|b bytes IH]; intros r Hr H1; [by eexists _, _|].
  destruct (analyze_byte_safe r b Hr) as (x & r1 & E & Hr1 & H1'); [intros Hs; by apply (H1 Hs)|].
  destruct (IH (fun i L Hi => HL (S i) L Hi) r1 Hr1) as (n & r2 & E2 & Hr2).
  { intros Hs L. apply (HL 0%nat L). by rewrite (H1' Hs). }
  cbn [_proto_rx_ind]. rewrite (after E), (after E2). by eexists _, _.
Qed.

Lemma payload_overflows ps r :
  r_state r = 3 -> recv_buf_ok r -> 0 <= byte_recvbuf_index r <= 64 -> 70 <= byte_length r ->
  byte_recvbuf_index r + Z.of_nat (length ps) = 65 -> forall rest, _proto_rx_ind (ps ++ rest) r = Stop Undefined.
Proof.
  revert r. induction ps as [|p ps IH]; intros r Hs Hb Hi HL Hlen rest; cbn [length] in *; [lia|].
  change ((p :: ps) ++ rest) with (p :: (ps ++ rest)). cbn [_proto_rx_ind].
  destruct (Z.eq_dec (byte_recvbuf_index r) 64) as [E|E].
  - unfold bind at 1. unfold Proto_data_analyze_byte. mstep. rewrite Hs. cbn [Z.eqb Pos.eqb]. msteps.
    rewrite E. unfold recv_buf_ok in Hb. by rewrite Hb.
  - erewrite bind_done by (apply (analyze_payload p r); first [done|lia]).
    rewrite (proj2 (Z.leb_gt _ _)) by lia. unfold bind.
    rewrite IH; cbn [r_state byte_recvbuf_index byte_length]; first [done|lia|idtac].
    unfold recv_buf_ok. cbn. by rewrite length_insert.
Qed.

Lemma receive_overflow r L ps :
  r_state r = 0 -> recv_buf_ok r -> 70 <= L -> (65 <= length ps)%nat ->
  _proto_rx_ind ([PROTO_HEAD; L; 0x01] ++ ps) r = Stop Undefined.
Proof.
  intros Hs Hb HL Hp. cbn [app _proto_rx_ind].
  erewrite bind_done by (unfold Proto_data_analyze_byte; mstep; rewrite Hs; reflexivity). cbn [app _proto_rx_ind].
  erewrite bind_ext; [|intros a s'; reflexivity].
  rewrite <- (take_drop 65 ps). unfold bind. cbn -[_proto_rx_ind].
  rewrite (payload_overflows (take 65 ps)); cbn; first [done|lia|idtac]. rewrite length_take. lia.
Qed.

(** the receive buffer is safe as long as no byte that follows a start byte exceeds 69, whatever else
    arrives; but a frame that announces a length of 70 or more makes the receiver write past the end of its
    64-byte buffer at the 65th payload byte: any host can corrupt the memory behind it. *)
Theorem proto_receive_buffer :
  (forall bytes, (forall i L, bytes !! i = Some PROTO_HEAD -> bytes !! S i = Some L -> L < 70) ->
     exists n r', _proto_rx_ind bytes recv0 = Done n r' /\ recv_safe r') /\
  (forall r L ps, r_state r = 0 -> recv_buf_ok r -> 70 <= L -> (65 <= length ps)%nat ->
     _proto_rx_ind ([PROTO_HEAD; L; 0x01] ++ ps) r = Stop Undefined).
Proof. split; [exact receive_safe|exact receive_overflow]. Qed.

Lemma proto_receive_buffer_witness :
  (exists n r', _proto_rx_ind [1; 0x5a; 9; 1; 1; 0x5a; 0x20; 1; 0xff; 0xa5] recv0 = Done n r' /\ recv_safe r') /\
  _proto_rx_ind ([PROTO_HEAD; 0xff; 0x01] ++ replicate 65 0) recv0 = Stop Undefined.
Proof.
  split.
  - apply (proj1 proto_receive_buffer [1; 0x5a; 9; 1; 1; 0x5a; 0x20; 1; 0xff; 0xa5]). intros i L.
    do 9 (destruct i as [|i]; [cbn; intros; simplify_eq; lia|]). done.
  - apply (proj2 proto_receive_buffer recv0 0xff (replicate 65 0)); [done|done|lia|cbn; lia].
Defined.
