(* ===== verification/Panel.v ===== *)
(** * What the box does with commands

    The theorems about the two threads of the box: every command is answered by one
    well-formed reply ([Proto_sensor_cmd_deal]), and a round of the sensor thread
    ([sensor_round]) carries out what the commands have left to do, once.  The model is in
    [Proto]. *)

From S2P Require Import Prelude Exec Gpio Display Sensors Proto.

(** ** Replies *)

(** The frames sent to the host. *)
Definition sent (cs : list call) : list (list Z) :=
  omap (fun c => match c with proto_send f => Some f | _ => None end) cs.

Definition reply_frame (cmd : Z) (body : list Z) : list Z :=
  [PROTO_HEAD; Z.of_nat (length body) + 6; 0x81; cmd] ++ body ++ [0xff; PROTO_TAIL].

(** The number of data bytes in the reply to a command; none for an unknown one. *)
Definition reply_len (cmd : Z) : nat :=
  if decide (cmd = YG) then 3
  else if decide (cmd = SOUND_SENSOR \/ cmd = DHT11 \/ cmd = DS18B20) then 2
  else if decide (cmd = KEY5) then 5
  else if decide (1 <= cmd <= 21) then 1
  else 0.

(** The byte [data[i]] of the current command. *)
Definition datum (r : recv) (i : Z) : option Z :=
  match p_realdata r with
  | NoData => None
  | Recvbuf off => byte_recvbuf r !! Z.to_nat (off + i)
  | Caller a off => if 0 <=? off + i then a !! Z.to_nat (off + i) else None
  end.

Lemma data_spec i p : data i p = match datum (rcv p) i with Some v => Done v p | None => Stop Undefined end.
Proof.
  unfold data, datum. mstep. destruct (p_realdata (rcv p)) as [|off|a off]; [done..|].
  unfold elem. by destruct (0 <=? off + i).
Qed.

(** The first five data bytes can be read, unless no command has come in yet. *)
Definition cmd_ready (r : recv) : Prop :=
  realcmd r = 0 \/ forall i, 0 <= i < 5 -> is_Some (datum r i).

Definition panel_ok (p : panel) : Prop := cmd_ready (rcv p) /\ length (dzp_buf p) = 5%nat /\ length (dzp1_buf p) = 5%nat.

(** What a command changes besides sending its reply. *)
Definition switched (p p' : panel) : Prop :=
  rcv p' = rcv p /\ send_func p' = send_func p /\ sent (calls p') = sent (calls p) /\
  length (dzp_buf p') = length (dzp_buf p) /\ length (dzp1_buf p') = length (dzp1_buf p).

Lemma sent_app cs c : sent (cs ++ [c]) = sent cs ++ sent [c].
Proof. apply omap_app. Qed.

Ltac cmds := unfold RGB_LED, PASSIVE_BUZZER, QXKG, SMG, MOTOR, DZP, YG, TFTLCD, SOUND_SENSOR, PIR, DHT11, DS18B20,
  LIGHT, JJCGQ, ROTARY_ENCODERS, GDKG, DZP1, KEY5, Dial, traffic_light, GUI_clear in *.

Lemma reply_len_unknown cmd : ~ (1 <= cmd <= 21) -> reply_len cmd = 0%nat.
Proof. intros H. unfold reply_len. cmds. repeat (rewrite decide_False by lia). done. Qed.

Lemma cmd_switch_done hw cmd p :
  (cmd = 0 \/ forall i, 0 <= i < 5 -> is_Some (datum (rcv p) i)) ->
  length (dzp_buf p) = 5%nat -> length (dzp1_buf p) = 5%nat ->
  exists body p', cmd_switch hw cmd p = Done body p' /\ length body = reply_len cmd /\ switched p p'.
Proof.
  intros [->|Hd] H5 H5'; [by eexists _, _|].
  destruct (Hd 0 ltac:(lia)) as [d0 E0]. destruct (Hd 1 ltac:(lia)) as [d1 E1]. destruct (Hd 2 ltac:(lia)) as [d2 E2].
  destruct (Hd 3 ltac:(lia)) as [d3 E3]. destruct (Hd 4 ltac:(lia)) as [d4 E4].
  unfold cmd_switch, DZP_set, DZP1_set, data5, MOTOR_set, Dial_set, DHT11_get, DS18B20_get, YG_set, jiujing_set,
    XZDWQ_set, SOUNDSENSOR_set, traffic_light_set, GUI_set, setv, getv, docall, on_board, zoom, HAL_GPIO_WritePin.
  assert (HD : forall i v q, rcv q = rcv p -> datum (rcv p) i = Some v -> data i q = Done v q)
    by (intros i v q Eq Ev; rewrite data_spec, Eq, Ev; done).
  repeat match goal with |- context [if cmd =? ?k then _ else _] => destruct (Z.eqb_spec cmd k) as [->|] end;
    repeat first [mstep | erewrite bind_done by (apply HD; [reflexivity|eassumption])
                 | match goal with |- context [if nz ?x then _ else _] => destruct (nz x) end].
  all: eexists _, _; split; [reflexivity|]; split; [first [reflexivity | symmetry; apply reply_len_unknown; cmds; lia]|]; unfold switched; cbn [rcv send_func calls dzp_buf dzp1_buf];
    split_and!; first [reflexivity | rewrite !sent_app; cbn; by rewrite !app_nil_r | by symmetry | idtac].
Qed.

(** The handler, from what its [switch] does. *)
Lemma deal_switch hw cmd body p p1 :
  realcmd (rcv p) = cmd -> cmd_switch hw cmd p = Done body p1 -> (length body <= 8)%nat -> send_func p1 = true ->
  Proto_sensor_cmd_deal hw p = Done cmd
    (Panel (rcv p1) (vars p1) (dzp_buf p1) (dzp1_buf p1) (send_func p1) (brd p1)
       (calls p1 ++ [proto_send (reply_frame cmd body)])).
Proof.
  intros Hc E Hl Hs. unfold Proto_sensor_cmd_deal. mstep. rewrite Hc, (after E). unfold _send.
  rewrite (proj2 (Z.ltb_lt _ _)) by lia. msteps. rewrite Hs. cbn [when]. unfold docall. msteps.
  unfold reply_frame, ret. rewrite u8_small by lia. by rewrite Hs.
Qed.

Lemma deal_replies hw p :
  panel_ok p -> send_func p = true ->
  exists body p', Proto_sensor_cmd_deal hw p = Done (realcmd (rcv p)) p' /\ length body = reply_len (realcmd (rcv p)) /\
    sent (calls p') = sent (calls p) ++ [reply_frame (realcmd (rcv p)) body] /\ rcv p' = rcv p /\
    send_func p' = true /\ panel_ok p'.
Proof.
  intros (Hr & H5 & H5') Hs. set (cmd := realcmd (rcv p)).
  destruct (cmd_switch_done hw cmd p Hr H5 H5') as (body & p1 & E & Hl & Hp & Hf & Hc & Hz & Hz').
  assert (Hl5 : (length body <= 5)%nat).
  { rewrite Hl. unfold reply_len. repeat case_decide; lia. }
  rewrite (deal_switch hw cmd body p p1) by (first [done|lia|congruence]).
  eexists body, _. split; [reflexivity|]. split; [done|]. cbn [calls rcv dzp_buf dzp1_buf send_func].
  split; [by rewrite sent_app, Hc|]. split; [done|]. split; [congruence|].
  unfold panel_ok; cbn [rcv dzp_buf dzp1_buf]; by rewrite Hp, Hz, Hz'.
Qed.

(** every command is answered: the handler returns it and sends exactly one reply, a frame that
    carries the command and, for a known one, the data bytes of its reply; it leaves the receiver
    and the readiness of the panel as they are. *)
Theorem proto_deal_replies hw p :
  panel_ok p -> send_func p = true ->
  exists body p', Proto_sensor_cmd_deal hw p = Done (realcmd (rcv p)) p' /\ length body = reply_len (realcmd (rcv p)) /\
    sent (calls p') = sent (calls p) ++ [reply_frame (realcmd (rcv p)) body] /\ rcv p' = rcv p /\ panel_ok p'.
Proof.
  intros Hok Hs. destruct (deal_replies hw p Hok Hs) as (body & p' & ? & ? & ? & ? & ? & ?). by exists body, p'.
Qed.

(** ** Reading the sensors leaves the displays alone *)

Section keeps.
Context (ps : chip_pins) (Hport : c_port ps = GPIOE).

(** [m] ends with a result that satisfies [P] and changes nothing for the chip. *)
Definition keeps {A} (m : M board A) (P : A -> Prop) : Prop :=
  forall b, exists a b', m b = Done a b' /\ P a /\ chip_of ps (trace b') = chip_of ps (trace b).

Lemma keeps_ret {A} (a : A) (P : A -> Prop) : P a -> keeps (ret a) P.
Proof. intros Ha b. by exists a, b. Qed.

Lemma keeps_bind {A B} (m : M board A) (f : A -> M board B) P Q :
  keeps m P -> (forall a, P a -> keeps (f a) Q) -> keeps (bind m f) Q.
Proof.
  intros Hm Hf b. destruct (Hm b) as (a & b1 & E1 & Ha & H1). destruct (Hf a Ha b1) as (c & b2 & E2 & Hc & H2).
  exists c, b2. rewrite (after E1). split; [done|]. split; [done|]. by rewrite H2.
Qed.

Definition any {A} (_ : A) : Prop := True.

Lemma keeps_wait n : keeps (wait_us n) any.
Proof. intros b. by eexists _, _. Qed.

Lemma keeps_read line : keeps (Gpio.HAL_GPIO_ReadPin line) any.
Proof. intros b. by eexists _, _. Qed.

Lemma keeps_write p n v : p <> GPIOE -> keeps (HAL_GPIO_WritePin p n v) any.
Proof.
  intros Hp b. eexists _, _. split; [reflexivity|]. split; [done|]. cbn. unfold chip_step. cbn.
  by rewrite decide_False by congruence.
Qed.

Lemma keeps_poll line v n r : keeps (poll line v n r) any.
Proof. intros b. destruct (poll_total line v n r b) as (x & t & E & _). by eexists _, _. Qed.

Ltac keep :=
  match goal with
  | |- keeps (bind _ _) _ => apply keeps_bind with (P := any); [|intros ? _]
  | |- keeps (wait_us _) _ => apply keeps_wait
  | |- keeps (Gpio.HAL_GPIO_ReadPin _) _ => apply keeps_read
  | |- keeps (poll _ _ _ _) _ => apply keeps_poll
  | |- keeps (HAL_GPIO_WritePin _ _ _) _ => apply keeps_write; discriminate
  | |- keeps (ret _) _ => apply keeps_ret; exact I
  | |- keeps (if ?b then _ else _) _ => destruct b
  | H : context [keeps ?m _] |- keeps ?m _ => apply H
  end.

Lemma keeps_dht_bit line : keeps (DHT11_Read_Bit line) any.
Proof. unfold DHT11_Read_Bit. repeat keep. Qed.

Lemma keeps_dht_byte line n d : keeps (DHT11_read_bits line n d) any.
Proof.
  revert d. induction n as [|n IH]; intros d; cbn [DHT11_read_bits]; [by apply keeps_ret|].
  apply keeps_bind with (P := any); [apply keeps_dht_bit|]. intros a _. apply IH.
Qed.

Lemma keeps_dht_bytes line n : keeps (DHT11_read_bytes line n) (fun l => length l = n).
Proof.
  induction n as [|n IH]; cbn [DHT11_read_bytes]; [by apply keeps_ret|].
  apply keeps_bind with (P := any); [apply keeps_dht_byte|]. intros a _.
  eapply keeps_bind; [apply IH|]. intros l Hl. apply keeps_ret. cbn. by rewrite Hl.
Qed.

Lemma keeps_dht line : keeps (DHT11_Read_Data line) any.
Proof.
  unfold DHT11_Read_Data, DHT11_Rst, DHT11_Check.
  apply keeps_bind with (P := any); [repeat keep|]. intros [] _.
  apply keeps_bind with (P := any); [repeat keep|]. intros c _. destruct (c =? 0); [|by apply keeps_ret].
  eapply keeps_bind; [apply keeps_dht_bytes|]. intros l Hl.
  destruct l as [|b0 [|b1 [|b2 [|b3 [|b4 [|]]]]]]; try done. repeat keep.
Qed.

Lemma keeps_ds_read line n d : keeps (DS18B20_read_bits line n d) any.
Proof.
  revert d. induction n as [|n IH]; intros d; cbn [DS18B20_read_bits]; [by apply keeps_ret|].
  apply keeps_bind with (P := any); [unfold DS18B20_Read_Bit, DS18B20_DQ_OUT; repeat keep|]. intros a _. apply IH.
Qed.

Lemma keeps_ds_write n d : keeps (DS18B20_write_bits n d) any.
Proof.
  revert d. induction n as [|n IH]; intros d; cbn [DS18B20_write_bits]; [by apply keeps_ret|].
  apply keeps_bind with (P := any); [unfold DS18B20_DQ_OUT; repeat keep|]. intros a _. apply IH.
Qed.

Lemma keeps_ds line : keeps (DS18B20_Get_Temp line) any.
Proof.
  assert (HR : keeps DS18B20_Rst any) by (unfold DS18B20_Rst, DS18B20_DQ_OUT; repeat keep).
  assert (HC : keeps (DS18B20_Check line) any) by (unfold DS18B20_Check; repeat keep).
  assert (HW : forall d, keeps (DS18B20_Write_Byte d) any) by (intros; apply keeps_ds_write).
  assert (HB : keeps (DS18B20_Read_Byte line) any) by apply keeps_ds_read.
  unfold DS18B20_Get_Temp, DS18B20_Start. repeat first [apply HW|keep].
Qed.
End keeps.

(** ** Rounds of the sensor thread *)

(** What a part of a round changes: the variables [vs], the calls [cs], and what the two matrices
    receive. *)
Record part (vs : list static) (cs : list call) (l l1 : list (Z * Z)) (p p' : panel) : Prop := Part {
  part_rcv : rcv p' = rcv p;
  part_buf : dzp_buf p' = dzp_buf p;
  part_buf1 : dzp1_buf p' = dzp1_buf p;
  part_send : send_func p' = send_func p;
  part_calls : calls p' = calls p ++ cs;
  part_dzp : received (chip_of max7219_pins (trace (brd p'))) = received (chip_of max7219_pins (trace (brd p))) ++ l;
  part_dzp1 : received (chip_of dzp1_pins (trace (brd p'))) = received (chip_of dzp1_pins (trace (brd p))) ++ l1;
  part_vars : forall v, v ∉ vs -> vars p' v = vars p v }.

Arguments part_rcv {vs cs l l1 p p'}.
Arguments part_buf {vs cs l l1 p p'}.
Arguments part_buf1 {vs cs l l1 p p'}.
Arguments part_send {vs cs l l1 p p'}.
Arguments part_calls {vs cs l l1 p p'}.
Arguments part_dzp {vs cs l l1 p p'}.
Arguments part_dzp1 {vs cs l l1 p p'}.
Arguments part_vars {vs cs l l1 p p'}.

Lemma part_refl p : part [] [] [] [] p p.
Proof. constructor; rewrite ?app_nil_r; done. Qed.

Lemma part_trans vs vs' cs cs' l l' l1 l1' p q r :
  part vs cs l l1 p q -> part vs' cs' l' l1' q r ->
  part (vs ++ vs') (cs ++ cs') (l ++ l') (l1 ++ l1') p r.
Proof.
  intros H H'. constructor.
  - by rewrite (part_rcv H'), (part_rcv H).
  - by rewrite (part_buf H'), (part_buf H).
  - by rewrite (part_buf1 H'), (part_buf1 H).
  - by rewrite (part_send H'), (part_send H).
  - by rewrite (part_calls H'), (part_calls H), app_assoc.
  - by rewrite (part_dzp H'), (part_dzp H), app_assoc.
  - by rewrite (part_dzp1 H'), (part_dzp1 H), app_assoc.
  - intros v [Hv Hv']%not_elem_of_app. by rewrite (part_vars H'), (part_vars H).
Qed.

Arguments part_trans {vs vs' cs cs' l l' l1 l1' p q r}.

(** A board computation as part of a round. *)
Lemma on_board_sends m l l1 p :
  (exists b, m (brd p) = Done tt b /\
     received (chip_of max7219_pins (trace b)) = received (chip_of max7219_pins (trace (brd p))) ++ l /\
     received (chip_of dzp1_pins (trace b)) = received (chip_of dzp1_pins (trace (brd p))) ++ l1) ->
  exists p', on_board m p = Done tt p' /\ part [] [] l l1 p p'.
Proof.
  intros (b & E & H & H1). unfold on_board, zoom. rewrite E. eexists. split; [reflexivity|].
  constructor; cbn; rewrite ?app_nil_r; done.
Qed.

Lemma sends_both m l l1 :
  sends max7219_pins m l -> sends dzp1_pins m l1 -> forall p,
  exists p', on_board m p = Done tt p' /\ part [] [] l l1 p p'.
Proof.
  intros Hm Hm1 p. apply on_board_sends. destruct (Hm (brd p)) as (b & E & H). destruct (Hm1 (brd p)) as (b1 & E1 & H1).
  exists b. split_and!; [done|done|]. congruence.
Qed.

Lemma keeps_both {A} (m : M board A) :
  keeps max7219_pins m any -> keeps dzp1_pins m any -> forall p,
  exists a p', on_board m p = Done a p' /\ part [] [] [] [] p p'.
Proof.
  intros Hm Hm1 p. destruct (Hm (brd p)) as (a & b & E & _ & H). destruct (Hm1 (brd p)) as (a1 & b1 & E1 & _ & H1).
  unfold on_board, zoom. rewrite E. eexists _, _. split; [reflexivity|].
  constructor; cbn; rewrite ?app_nil_r; try congruence.
Qed.

Lemma setv_part v z p : exists p', setv v z p = Done tt p' /\ part [v] [] [] [] p p' /\ vars p' v = fit v z.
Proof.
  unfold setv, modify. eexists. split; [reflexivity|]. split; [|cbn; by rewrite decide_True].
  constructor; cbn; rewrite ?app_nil_r; try done. intros w Hw. rewrite decide_False; [done|set_solver].
Qed.

Lemma docall_part c p : exists p', docall c p = Done tt p' /\ part [] [c] [] [] p p' /\ vars p' = vars p.
Proof.
  unfold docall, modify. eexists. split; [reflexivity|]. split; [|done]. constructor; cbn; rewrite ?app_nil_r; done.
Qed.

(** Run the next command, with what it changes. *)
Ltac part_step H p' P :=
  let E := fresh "E" in destruct H as (p' & E & P); rewrite (after E); clear E.

(** The rows of a matrix. *)
Definition rows (buf : list Z) : list (Z * Z) := imap (fun i d => (Z.of_nat i + 1, u8 (Z.shiftl d 1))) buf.

Lemma buf_at_done b i d p : b !! i = Some d -> buf_at b i p = Done d p.
Proof. intros E. unfold buf_at, deref. by rewrite E. Qed.

(** Five rows written one after the other. *)
Lemma write_rows (W : Z -> Z -> M board unit) (f g : Z * Z -> list (Z * Z)) b p :
  (forall i d q, exists q', on_board (W i d) q = Done tt q' /\ part [] [] (f (u8 i, u8 d)) (g (u8 i, u8 d)) q q') ->
  length b = 5%nat ->
  exists p',
    (d0 <- buf_at b 0;; on_board (W 1 (Z.shiftl d0 1));;;
     d1 <- buf_at b 1;; on_board (W 2 (Z.shiftl d1 1));;;
     d2 <- buf_at b 2;; on_board (W 3 (Z.shiftl d2 1));;;
     d3 <- buf_at b 3;; on_board (W 4 (Z.shiftl d3 1));;;
     d4 <- buf_at b 4;; on_board (W 5 (Z.shiftl d4 1))) p = Done tt p' /\
    part [] [] (flat_map f (rows b)) (flat_map g (rows b)) p p'.
Proof.
  intros HW H5. destruct b as [|d0 [|d1 [|d2 [|d3 [|d4 [|]]]]]]; try done. set (b := [d0; d1; d2; d3; d4]).
  rewrite (after (buf_at_done b 0 d0 p eq_refl)). part_step (HW 1 (Z.shiftl d0 1) p) p1 P1.
  rewrite (after (buf_at_done b 1 d1 p1 eq_refl)). part_step (HW 2 (Z.shiftl d1 1) p1) p2 P2.
  rewrite (after (buf_at_done b 2 d2 p2 eq_refl)). part_step (HW 3 (Z.shiftl d2 1) p2) p3 P3.
  rewrite (after (buf_at_done b 3 d3 p3 eq_refl)). part_step (HW 4 (Z.shiftl d3 1) p3) p4 P4.
  rewrite (after (buf_at_done b 4 d4 p4 eq_refl)). destruct (HW 5 (Z.shiftl d4 1) p4) as (p5 & E5 & P5).
  exists p5. split; [done|]. pose proof (part_trans P1 (part_trans P2 (part_trans P3 (part_trans P4 P5)))) as PT.
  cbn [rows b imap flat_map]. unfold rows, b. cbn [imap flat_map]. rewrite !app_nil_r. exact PT.
Qed.

Lemma flat_map_nil {A B} (l : list A) : flat_map (fun _ => @nil B) l = [].
Proof. by induction l. Qed.

Lemma flat_map_one {A} (l : list A) : flat_map (fun x => [x]) l = l.
Proof. induction l as [|x l IH]; [done|]. cbn. by rewrite IH. Qed.

Lemma DZP_deal_part p :
  length (dzp_buf p) = 5%nat ->
  exists p', DZP_deal p = Done tt p' /\
    part [dzp_flag] [] (if vars p dzp_flag =? 1 then matrix_setup ++ rows (dzp_buf p) else []) [] p p' /\
    vars p' dzp_flag <> 1.
Proof.
  intros H5. unfold DZP_deal, getv. mstep. destruct (Z.eqb_spec (vars p dzp_flag) 1) as [E|E]; cbn [when].
  2: { exists p. split; [done|]. split; [|done]. constructor; rewrite ?app_nil_r; done. }
  destruct (setv_part dzp_flag 0 p) as (p1 & E1 & P1 & V1). rewrite (after E1).
  destruct (sends_both _ _ _ (proj1 Init_MAX7219_sends) (proj2 Init_MAX7219_sends) p1) as (p2 & E2 & P2).
  rewrite (after E2). mstep. rewrite (part_buf P2), (part_buf P1).
  destruct (write_rows Write_Max7219 (fun x => [x]) (fun _ => []) (dzp_buf p) p2) as (p3 & -> & P3);
    [intros i d q; apply sends_both; auto with rt|done|]. rewrite flat_map_one, flat_map_nil in P3.
  pose proof (part_trans P2 P3) as PT. exists p3. split; [done|]. split; [exact (part_trans P1 PT)|].
  rewrite (part_vars PT), V1; [done|]. decided.
Qed.

Lemma DZP1_deal_part p :
  length (dzp1_buf p) = 5%nat ->
  exists p', DZP1_deal p = Done tt p' /\
    part [dzp1_flag] [] [] (if vars p dzp1_flag =? 1 then matrix_setup ++ rows (dzp1_buf p) else []) p p' /\
    vars p' dzp1_flag <> 1.
Proof.
  intros H5. unfold DZP1_deal, getv. mstep. destruct (Z.eqb_spec (vars p dzp1_flag) 1) as [E|E]; cbn [when].
  2: { exists p. split; [done|]. split; [|done]. constructor; rewrite ?app_nil_r; done. }
  destruct (setv_part dzp1_flag 0 p) as (p1 & E1 & P1 & V1). rewrite (after E1).
  destruct (sends_both _ _ _ (proj2 Init_DZP1_sends) (proj1 Init_DZP1_sends) p1) as (p2 & E2 & P2).
  rewrite (after E2). mstep. rewrite (part_buf1 P2), (part_buf1 P1).
  destruct (write_rows Write_DZP1 (fun _ => []) (fun x => [x]) (dzp1_buf p) p2) as (p3 & -> & P3);
    [intros i d q; apply sends_both; auto with rt|done|]. rewrite flat_map_one, flat_map_nil in P3.
  pose proof (part_trans P2 P3) as PT. exists p3. split; [done|]. split; [exact (part_trans P1 PT)|].
  rewrite (part_vars PT), V1; [done|]. decided.
Qed.

Lemma part_weaken vs vs' cs l l1 p p' : (forall v, v ∉ vs' -> v ∉ vs) -> part vs cs l l1 p p' -> part vs' cs l l1 p p'.
Proof. intros Hv [? ? ? ? ? ? ? Hk]. constructor; try done. intros v Hn. apply Hk, Hv, Hn. Qed.

Lemma part_skip vs p : part vs [] [] [] p p.
Proof. apply (part_weaken []); [set_solver|apply part_refl]. Qed.

(** The calls that pending commands stand for. *)
Definition motor_calls (s : static -> Z) : list call :=
  if s motor_flag =? 1 then [if nz (s speed) then TIM_SetTIM4Compare1 (s speed) else TIM4_PWM_Init 499 83] else [].
Definition dial_calls (s : static -> Z) : list call := if s dial_flag =? 1 then [dwq_task] else [].
Definition traffic_calls (s : static -> Z) : list call :=
  if s traffic_light_flag =? 1 then
    (if s Clear_flag =? 1 then [GUI_SetBkColor true; GUI_Clear; GUI_SetColor_BLUE; GUI_FillRoundedRect 30 80 209 160 10]
     else []) ++ [Traffic_light (s tl_r) (s tl_yellow) (s tl_g)]
  else [].
Definition gui_calls (s : static -> Z) : list call :=
  if s GUI_flag =? 1 then [GUI_SetBkColor false; GUI_Clear] else [].

Lemma MOTOR_deal_part p :
  exists p', MOTOR_deal p = Done tt p' /\ part [motor_flag] (motor_calls (vars p)) [] [] p p' /\ vars p' motor_flag <> 1.
Proof.
  unfold MOTOR_deal, getv, motor_calls. mstep. destruct (Z.eqb_spec (vars p motor_flag) 1) as [E|E]; cbn [when].
  2: { exists p. split; [done|]. split; [apply part_skip|done]. }
  mstep. set (c := if nz (vars p speed) then _ else _). set (c' := if nz (vars p speed) then TIM_SetTIM4Compare1 _ else _).
  replace c with (docall c') by (unfold c, c'; by destruct (nz (vars p speed))).
  destruct (docall_part c' p) as (p1 & E1 & P1 & _). rewrite (after E1).
  destruct (setv_part motor_flag 0 p1) as (p2 & E2 & P2 & V2). exists p2. split; [done|].
  split; [exact (part_trans P1 P2)|]. by rewrite V2.
Qed.

Lemma Dial_deal_part p :
  exists p', Dial_deal p = Done tt p' /\ part [dial_flag] (dial_calls (vars p)) [] [] p p' /\ vars p' dial_flag <> 1.
Proof.
  unfold Dial_deal, getv, dial_calls. mstep. destruct (Z.eqb_spec (vars p dial_flag) 1) as [E|E]; cbn [when].
  2: { exists p. split; [done|]. split; [apply part_skip|done]. }
  destruct (docall_part dwq_task p) as (p1 & E1 & P1 & _). rewrite (after E1).
  destruct (setv_part dial_flag 0 p1) as (p2 & E2 & P2 & V2). exists p2. split; [done|].
  split; [exact (part_trans P1 P2)|]. by rewrite V2.
Qed.

Lemma GUI_deal_part p :
  exists p', GUI_deal p = Done tt p' /\ part [GUI_flag] (gui_calls (vars p)) [] [] p p' /\ vars p' GUI_flag <> 1.
Proof.
  unfold GUI_deal, getv, gui_calls. mstep. destruct (Z.eqb_spec (vars p GUI_flag) 1) as [E|E]; cbn [when].
  2: { exists p. split; [done|]. split; [apply part_skip|done]. }
  destruct (docall_part (GUI_SetBkColor false) p) as (p1 & E1 & P1 & _). rewrite (after E1).
  destruct (docall_part GUI_Clear p1) as (p2 & E2 & P2 & _). rewrite (after E2).
  destruct (setv_part GUI_flag 0 p2) as (p3 & E3 & P3 & V3). exists p3. split; [done|].
  split; [exact (part_trans P1 (part_trans P2 P3))|]. by rewrite V3.
Qed.

(** The white background and the frame of the traffic light, when the screen was cleared. *)
Lemma traffic_background_part p :
  exists p',
    (c <- getv Clear_flag;;
     when (c =? 1)
       (setv Clear_flag 0;;; docall (GUI_SetBkColor true);;; docall GUI_Clear;;; docall GUI_SetColor_BLUE;;;
        docall (GUI_FillRoundedRect 30 80 209 160 10))) p = Done tt p' /\
    part [Clear_flag] (if vars p Clear_flag =? 1
      then [GUI_SetBkColor true; GUI_Clear; GUI_SetColor_BLUE; GUI_FillRoundedRect 30 80 209 160 10] else []) [] [] p p'.
Proof.
  unfold getv. mstep. destruct (vars p Clear_flag =? 1); cbn [when]; [|exists p; split; [done|apply part_skip]].
  destruct (setv_part Clear_flag 0 p) as (p1 & E1 & P1 & _). rewrite (after E1).
  destruct (docall_part (GUI_SetBkColor true) p1) as (p2 & E2 & P2 & _). rewrite (after E2).
  destruct (docall_part GUI_Clear p2) as (p3 & E3 & P3 & _). rewrite (after E3).
  destruct (docall_part GUI_SetColor_BLUE p3) as (p4 & E4 & P4 & _). rewrite (after E4).
  destruct (docall_part (GUI_FillRoundedRect 30 80 209 160 10) p4) as (p5 & E5 & P5 & _).
  exists p5. split; [done|]. exact (part_trans P1 (part_trans P2 (part_trans P3 (part_trans P4 P5)))).
Qed.

Lemma traffic_deal_part p :
  exists p', traffic_deal p = Done tt p' /\
    part [Clear_flag; traffic_light_flag] (traffic_calls (vars p)) [] [] p p' /\ vars p' traffic_light_flag <> 1.
Proof.
  unfold traffic_deal, traffic_calls. unfold getv at 1. mstep.
  destruct (Z.eqb_spec (vars p traffic_light_flag) 1) as [E|E]; cbn [when].
  2: { exists p. split; [done|]. split; [apply part_skip|done]. }
  destruct (traffic_background_part p) as (p1 & E1 & P1). rewrite <- bind_assoc, (after E1). unfold getv. msteps.
  rewrite !(part_vars P1) by decided.
  destruct (docall_part (Traffic_light (vars p tl_r) (vars p tl_yellow) (vars p tl_g)) p1) as (p2 & E2 & P2 & _).
  rewrite (after E2). destruct (setv_part traffic_light_flag 0 p2) as (p3 & E3 & P3 & V3).
  exists p3. split; [done|]. split; [exact (part_trans P1 (part_trans P2 P3))|by rewrite V3].
Qed.

(** The parts of a round that only sample a sensor. *)
Definition samples (m : M panel unit) (vs : list static) : Prop :=
  forall p, exists p', m p = Done tt p' /\ part vs [] [] [] p p'.

Lemma samples_set v z : samples (setv v z) [v].
Proof. intros p. destruct (setv_part v z p) as (p1 & E1 & P1 & _). eauto. Qed.

Lemma samples_ret : samples (ret tt) [].
Proof. intros p. exists p. split; [done|apply part_refl]. Qed.

Lemma samples_bind m k vs vs' : samples m vs -> samples k vs' -> samples (m;;; k) (vs ++ vs').
Proof.
  intros Hm Hk p. destruct (Hm p) as (p1 & E1 & P1). destruct (Hk p1) as (p2 & E2 & P2).
  exists p2. rewrite (after E1). split; [done|]. exact (part_trans P1 P2).
Qed.

Lemma samples_get v (k : Z -> M panel unit) vs : (forall z, samples (k z) vs) -> samples (z <- getv v;; k z) vs.
Proof. intros Hk p. unfold getv. mstep. apply Hk. Qed.

Lemma samples_when b m vs : samples m vs -> samples (when b m) vs.
Proof. intros Hm p. destruct b; [apply Hm|]. exists p. split; [done|apply part_skip]. Qed.

Lemma samples_board {A} (m : M board A) (k : A -> M panel unit) vs :
  (forall ps, c_port ps = GPIOE -> keeps ps m any) -> (forall a, samples (k a) vs) -> samples (a <- on_board m;; k a) vs.
Proof.
  intros Hm Hk p. destruct (keeps_both m (Hm max7219_pins eq_refl) (Hm dzp1_pins eq_refl) p) as (a & p1 & E1 & P1).
  destruct (Hk a p1) as (p2 & E2 & P2). exists p2. rewrite (after E1). split; [done|]. exact (part_trans P1 P2).
Qed.

#[local] Hint Resolve samples_set samples_ret samples_when keeps_dht keeps_ds : core.

Lemma DHT11_deal_samples hw : samples (DHT11_deal hw) [dht11_tick; dht11_tick; tem1; hum1].
Proof.
  apply samples_get. intros t. apply (samples_bind _ _ [_] [_; _; _]); [auto|].
  apply samples_get. intros t'. apply samples_when. apply (samples_bind _ _ [_] [_; _]); [auto|].
  apply samples_board; [auto|]. intros [r [[t1 h1]|]]; cbn [snd].
  - by apply (samples_bind _ _ [_] [_]).
  - intros p. exists p. split; [done|apply part_skip].
Qed.

Lemma DS18B20_deal_samples hw : samples (DS18B20_deal hw) [ds18b20_tick; ds18b20_tick; tem].
Proof.
  apply samples_get. intros t. apply (samples_bind _ _ [_] [_; _]); [auto|].
  apply samples_get. intros t'. apply samples_when. apply (samples_bind _ _ [_] [_]); [auto|].
  apply samples_board; auto.
Qed.

Lemma SOUNDSENSOR_deal_samples hw : samples (SOUNDSENSOR_deal hw) [sound_tick; sound_tick; sound].
Proof.
  apply samples_get. intros t. apply (samples_bind _ _ [_] [_; _]); [auto|].
  apply samples_get. intros t'. apply samples_when. by apply (samples_bind _ _ [_] [_]).
Qed.

Lemma YG_deal_samples hw : samples (YG_deal hw) [yg_x; yg_y; yg_z].
Proof. apply (samples_bind _ _ [_] [_; _]); [auto|]. by apply (samples_bind _ _ [_] [_]). Qed.

Definition sampled : list static :=
  [dht11_tick; dht11_tick; tem1; hum1; ds18b20_tick; ds18b20_tick; tem; yg_x; yg_y; yg_z; jiujing_value; xzdwq_value;
   sound_tick; sound_tick; sound].

Lemma samples_all hw p :
  exists p', part sampled [] [] [] p p' /\ forall B (k : M panel B),
    (DHT11_deal hw;;; DS18B20_deal hw;;; YG_deal hw;;; jiujing_deal hw;;; XZDWQ_deal hw;;; SOUNDSENSOR_deal hw;;; k) p = k p'.
Proof.
  destruct (DHT11_deal_samples hw p) as (p1 & E1 & P1). destruct (DS18B20_deal_samples hw p1) as (p2 & E2 & P2).
  destruct (YG_deal_samples hw p2) as (p3 & E3 & P3).
  destruct (samples_set jiujing_value (Get_Adc3 hw 15) p3) as (p4 & E4 & P4).
  destruct (samples_set xzdwq_value (Get_Adc1 hw 3) p4) as (p5 & E5 & P5).
  destruct (SOUNDSENSOR_deal_samples hw p5) as (p6 & E6 & P6). exists p6. split.
  - exact (part_trans P1 (part_trans P2 (part_trans P3 (part_trans P4 (part_trans P5 P6))))).
  - intros B k. unfold jiujing_deal, XZDWQ_deal.
    by rewrite (after E1), (after E2), (after E3), (after E4), (after E5), (after E6).
Qed.

(** The variables that tell a round what to do. *)
Definition flags : list static := [dzp_flag; dzp1_flag; motor_flag; dial_flag; traffic_light_flag; GUI_flag].

Definition round_calls (s : static -> Z) : list call :=
  motor_calls s ++ dial_calls s ++ traffic_calls s ++ gui_calls s.

Lemma sensor_round_done hw p :
  panel_ok p ->
  exists vs p', sensor_round hw p = Done tt p' /\
    part vs (round_calls (vars p))
      (if vars p dzp_flag =? 1 then matrix_setup ++ rows (dzp_buf p) else [])
      (if vars p dzp1_flag =? 1 then matrix_setup ++ rows (dzp1_buf p) else []) p p' /\
    Forall (fun f => vars p' f <> 1) flags.
Proof.
  intros (_ & H5 & H5'). unfold sensor_round.
  destruct (DZP_deal_part p H5) as (p1 & E1 & P1 & F1). rewrite (after E1).
  destruct (DZP1_deal_part p1) as (p2 & E2 & P2 & F2); [by rewrite (part_buf1 P1)|]. rewrite (after E2).
  rewrite (part_vars P1), (part_buf1 P1) in P2 by decided. pose proof (part_trans P1 P2) as Q2.
  destruct (MOTOR_deal_part p2) as (p3 & E3 & P3 & F3). rewrite (after E3).
  unfold motor_calls in P3. rewrite !(part_vars Q2) in P3 by decided. fold (motor_calls (vars p)) in P3.
  destruct (samples_all hw p3) as (p9 & PS & Ek). rewrite Ek. clear Ek.
  pose proof (part_trans Q2 (part_trans P3 PS)) as Q9.
  destruct (Dial_deal_part p9) as (p10 & E10 & P10 & F10). rewrite (after E10).
  unfold dial_calls in P10. rewrite !(part_vars Q9) in P10 by decided. fold (dial_calls (vars p)) in P10.
  pose proof (part_trans Q9 P10) as Q10.
  destruct (traffic_deal_part p10) as (p11 & E11 & P11 & F11). rewrite (after E11).
  unfold traffic_calls in P11. rewrite !(part_vars Q10) in P11 by decided. fold (traffic_calls (vars p)) in P11.
  pose proof (part_trans Q10 P11) as Q11.
  destruct (GUI_deal_part p11) as (p12 & E12 & P12 & F12). rewrite E12.
  unfold gui_calls in P12. rewrite !(part_vars Q11) in P12 by decided. fold (gui_calls (vars p)) in P12.
  pose proof (part_trans Q11 P12) as Q12. eexists _, p12. split; [done|]. split.
  - rewrite !app_nil_r in Q12. cbn [app] in Q12. unfold round_calls. rewrite !app_assoc. exact Q12.
  - repeat constructor; [..|done].
    + rewrite (part_vars P12), (part_vars P11), (part_vars P10), (part_vars PS), (part_vars P3), (part_vars P2) by decided. done.
    + rewrite (part_vars P12), (part_vars P11), (part_vars P10), (part_vars PS), (part_vars P3) by decided. done.
    + rewrite (part_vars P12), (part_vars P11), (part_vars P10), (part_vars PS) by decided. done.
    + rewrite (part_vars P12), (part_vars P11) by decided. done.
    + rewrite (part_vars P12) by decided. done.
Qed.

Lemma part_ok vs cs l l1 p p' : part vs cs l l1 p p' -> panel_ok p -> panel_ok p'.
Proof. intros P (H & H5 & H5'). unfold panel_ok. by rewrite (part_rcv P), (part_buf P), (part_buf1 P). Qed.

Lemma idle_calls s : Forall (fun f => s f <> 1) flags -> round_calls s = [].
Proof.
  intros HF. unfold flags in HF. rewrite !Forall_cons in HF. destruct HF as (_ & _ & Hm & Hd & Ht & Hg & _).
  unfold round_calls, motor_calls, dial_calls, traffic_calls, gui_calls.
  by rewrite (proj2 (Z.eqb_neq _ _) Hm), (proj2 (Z.eqb_neq _ _) Hd), (proj2 (Z.eqb_neq _ _) Ht), (proj2 (Z.eqb_neq _ _) Hg).
Qed.

(** What the two matrices have received. *)
Definition shown7219 (p : panel) : list (Z * Z) := received (chip_of max7219_pins (trace (brd p))).
Definition shown_dzp1 (p : panel) : list (Z * Z) := received (chip_of dzp1_pins (trace (brd p))).

(** a round of the sensor thread always ends and carries out every command that is pending: the calls for
    motor, dial, traffic light and screen, in this order, and the set-up and the five rows of each LED
    matrix; the following round, with no command in between, repeats none of it. *)
Theorem sensor_round_once hw hw2 p :
  panel_ok p ->
  exists p1 p2, sensor_round hw p = Done tt p1 /\ sensor_round hw2 p1 = Done tt p2 /\
    calls p1 = calls p ++ round_calls (vars p) /\ calls p2 = calls p1 /\
    shown7219 p1 = shown7219 p ++ (if vars p dzp_flag =? 1 then matrix_setup ++ rows (dzp_buf p) else []) /\
    shown_dzp1 p1 = shown_dzp1 p ++ (if vars p dzp1_flag =? 1 then matrix_setup ++ rows (dzp1_buf p) else []) /\
    shown7219 p2 = shown7219 p1 /\ shown_dzp1 p2 = shown_dzp1 p1 /\ panel_ok p2.
Proof.
  intros Hok. destruct (sensor_round_done hw p Hok) as (vs1 & p1 & E1 & P1 & F1).
  pose proof (part_ok _ _ _ _ _ _ P1 Hok) as Hok1.
  destruct (sensor_round_done hw2 p1 Hok1) as (vs2 & p2 & E2 & P2 & _). rewrite (idle_calls _ F1) in P2.
  unfold flags in F1. rewrite !Forall_cons in F1. destruct F1 as (Hz & Hz1 & _).
  rewrite (proj2 (Z.eqb_neq _ _) Hz), (proj2 (Z.eqb_neq _ _) Hz1) in P2.
  exists p1, p2. split_and!; [done|done|exact (part_calls P1)| |exact (part_dzp P1)|exact (part_dzp1 P1)|..].
  - by rewrite (part_calls P2), app_nil_r.
  - unfold shown7219. by rewrite (part_dzp P2), app_nil_r.
  - unfold shown_dzp1. by rewrite (part_dzp1 P2), app_nil_r.
  - exact (part_ok _ _ _ _ _ _ P2 Hok1).
Qed.

(** ** From the serial line to the displays *)

Definition receive (bytes : list Z) : M panel nat := on_recv (_proto_rx_ind bytes).

Definition recv_idle (r : recv) : Prop := r_state r = 0 /\ recv_buf_ok r.

(** Between commands. *)
Definition set_rcv (r : recv) (p : panel) : panel :=
  Panel r (vars p) (dzp_buf p) (dzp1_buf p) (send_func p) (brd p) (calls p).

Lemma receive_frames items p :
  recv_idle (rcv p) -> Forall item_ok items ->
  exists r, receive (flat_map item_bytes items) p = Done (length (flat_map item_cmd items)) (set_rcv r p) /\ recv_idle r.
Proof.
  intros [Hs Hb] Hok. destruct (listen_items items (rcv p) Hs Hb Hok) as (r & E & Hr). exists r. split; [|done].
  unfold receive, on_recv, zoom. by rewrite rx_ind_listen, E.
Qed.

Lemma receive_last items cmd data p :
  recv_idle (rcv p) -> Forall item_ok items -> frame_ok cmd data ->
  exists r, receive (flat_map item_bytes items ++ host_frame cmd data) p
      = Done (length (flat_map item_cmd items) + 1)%nat (set_rcv r p) /\
    recv_idle r /\ realcmd r = cmd /\ (forall i d, data !! i = Some d -> datum r (Z.of_nat i) = Some d) /\ cmd_ready r.
Proof.
  intros [Hs Hb] Hok Hf. destruct (listen_items items (rcv p) Hs Hb Hok) as (r1 & E1 & Hs1 & Hb1).
  destruct (listen_frame cmd data [] r1 Hs1 Hb1 Hf) as (r2 & Hs2 & Hb2 & Hc & Hp & Hbuf & E2). rewrite app_nil_r in E2.
  assert (E : listen (flat_map item_bytes items ++ host_frame cmd data) (rcv p)
              = Done (flat_map item_cmd items ++ [(cmd, data)]) r2) by (by apply (listen_app _ _ _ _ _ _ _ E1)).
  exists r2. split; [|split; [done|split; [by injection Hc|split]]].
  - unfold receive, on_recv, zoom. rewrite rx_ind_listen, E. by rewrite length_app.
  - intros i d Hi. unfold datum. rewrite Hp, Hbuf. replace (Z.to_nat (1 + Z.of_nat i)) with (S i) by lia.
    pose proof (lookup_lt_Some _ _ _ Hi). unfold frame_ok in Hf.
    rewrite list_lookup_inserts by (unfold recv_buf_ok in Hb1; rewrite ?Hb1; cbn; lia). by rewrite Nat.sub_0_r.
  - right. intros i Hi. unfold datum. rewrite Hp. apply lookup_lt_is_Some_2. unfold recv_buf_ok in Hb2. rewrite Hb2. lia.
Qed.

(** The commands of this section, carried out. *)
Lemma deal_DZP hw p pat :
  realcmd (rcv p) = DZP -> (forall i d, pat !! i = Some d -> datum (rcv p) (Z.of_nat i) = Some d) -> length pat = 5%nat ->
  send_func p = true ->
  exists p', Proto_sensor_cmd_deal hw p = Done DZP p' /\ dzp_buf p' = pat /\ vars p' dzp_flag = 1 /\ rcv p' = rcv p /\
    dzp1_buf p' = dzp1_buf p /\ brd p' = brd p /\ sent (calls p') = sent (calls p) ++ [reply_frame DZP [0]].
Proof.
  intros Hc Hd Hl Hs. destruct pat as [|d0 [|d1 [|d2 [|d3 [|d4 [|]]]]]]; try done.
  assert (D0 : datum (rcv p) 0 = Some d0) by (by apply (Hd 0%nat)).
  assert (D1 : datum (rcv p) 1 = Some d1) by (by apply (Hd 1%nat)).
  assert (D2 : datum (rcv p) 2 = Some d2) by (by apply (Hd 2%nat)).
  assert (D3 : datum (rcv p) 3 = Some d3) by (by apply (Hd 3%nat)).
  assert (D4 : datum (rcv p) 4 = Some d4) by (by apply (Hd 4%nat)).
  assert (E : exists q, cmd_switch hw DZP p = Done [0] q /\ dzp_buf q = [d0; d1; d2; d3; d4] /\ vars q dzp_flag = 1 /\ rcv q = rcv p /\
    dzp1_buf q = dzp1_buf p /\ brd q = brd p /\ calls q = calls p /\ send_func q = send_func p).
  { unfold cmd_switch. cbn [Z.eqb Pos.eqb DZP RGB_LED PASSIVE_BUZZER QXKG SMG MOTOR]. unfold DZP_set, data5.
    repeat first [mstep | erewrite bind_done by (rewrite data_spec, ?D0, ?D1, ?D2, ?D3, ?D4; reflexivity)].
    unfold setv. msteps. eexists. split; [reflexivity|]. split_and!; reflexivity. }
  destruct E as (q & E & Hb & Hv & Hr & Hb1 & Hbr & Hcs & Hsf).
  rewrite (deal_switch hw DZP [0] p q) by (first [done|cbn; lia|congruence]).
  eexists. split; [reflexivity|]. cbn [dzp_buf vars rcv dzp1_buf brd calls]. split_and!; try done. by rewrite sent_app, Hcs.
Qed.

(** C31: a pattern sent to the left LED matrix arrives there: after the frame has come in over the line, the
    command has been carried out and one round of the sensor thread has passed, the chip has received the set-up
    followed by the five rows of the pattern, and the host has its reply. *)
Theorem dzp_command_shown hw hw2 p pat :
  panel_ok p -> recv_idle (rcv p) -> send_func p = true -> length pat = 5%nat ->
  exists p', (receive (host_frame DZP pat);;; Proto_sensor_cmd_deal hw;;; sensor_round hw2) p = Done tt p' /\
    shown7219 p' = shown7219 p ++ matrix_setup ++ rows pat /\
    exists sent', sent (calls p') = sent (calls p) ++ reply_frame DZP [0] :: sent'.
Proof.
  intros (_ & H5 & H5') Hi Hs Hl.
  destruct (receive_last [] DZP pat p Hi (List.Forall_nil _)) as (r & E & _ & Hc & Hd & _);
    [unfold frame_ok; lia|]. cbn [flat_map app length] in E. rewrite (after E).
  destruct (deal_DZP hw (set_rcv r p) pat Hc Hd Hl Hs) as (p1 & E1 & Hb & Hv & Hr & Hb1 & Hbrd & Hsent). rewrite (after E1).
  destruct (sensor_round_done hw2 p1) as (vs & p2 & E2 & P2 & _).
  { split; [|rewrite Hb, Hb1; done]. rewrite Hr. cbn. right. intros i H. assert (exists d, pat !! Z.to_nat i = Some d) as [d Hd'].
    { apply lookup_lt_is_Some_2. lia. } specialize (Hd _ _ Hd'). rewrite Z2Nat.id in Hd by lia. by eexists. }
  exists p2. split; [done|]. split.
  - unfold shown7219. rewrite (part_dzp P2), Hv, Hb, Hbrd. done.
  - exists (sent (round_calls (vars p1))). rewrite (part_calls P2). unfold sent at 1. rewrite omap_app. fold (sent (calls p1)).
    rewrite Hsent. cbn [set_rcv calls]. rewrite <- app_assoc. done.
Qed.

(** commands can get lost: when two frames come in before the thread of the protocol runs, the semaphore is
    released twice, but the second command overwrites the first: both passes of the thread carry
    out the second command, and the first is neither carried out nor answered. *)
Theorem proto_command_lost hw hw2 p c1 d1 c2 d2 :
  panel_ok p -> recv_idle (rcv p) -> send_func p = true -> frame_ok c1 d1 -> frame_ok c2 d2 ->
  exists body body' p',
    (n <- receive (host_frame c1 d1 ++ host_frame c2 d2);;
     a <- Proto_sensor_cmd_deal hw;; b <- Proto_sensor_cmd_deal hw2;; ret (n, a, b)) p = Done (2%nat, c2, c2) p' /\
    sent (calls p') = sent (calls p) ++ [reply_frame c2 body; reply_frame c2 body'].
Proof.
  intros (_ & H5 & H5') Hi Hs Hf1 Hf2.
  destruct (receive_last [Frame c1 d1] c2 d2 p Hi) as (r & E & _ & Hc & _ & Hr); [by apply Forall_singleton|done|].
  cbn [flat_map item_bytes item_cmd app length] in E. rewrite app_nil_r in E. rewrite (after E).
  destruct (deal_replies hw (set_rcv r p)) as (body & p1 & E1 & _ & S1 & Hr1 & Hf & Hok1); [done|done|].
  cbn [set_rcv rcv calls] in *. rewrite Hc in E1, S1. rewrite (after E1).
  destruct (deal_replies hw2 p1) as (body' & p2 & E2 & _ & S2 & _); [done|congruence|].
  rewrite Hr1, Hc in E2, S2. rewrite (after E2). exists body, body', p2. split; [done|].
  by rewrite S2, S1, <- app_assoc.
Qed.

(** ** Clearing the screen and drawing *)

Lemma deal_GUI_clear hw p :
  realcmd (rcv p) = GUI_clear -> send_func p = true ->
  exists p', Proto_sensor_cmd_deal hw p = Done GUI_clear p' /\ vars p' GUI_flag = 1 /\
    (forall v, v <> GUI_flag -> v <> Clear_flag -> vars p' v = vars p v) /\
    rcv p' = rcv p /\ dzp_buf p' = dzp_buf p /\ dzp1_buf p' = dzp1_buf p /\ send_func p' = true /\
    calls p' = calls p ++ [proto_send (reply_frame GUI_clear [0])].
Proof.
  intros Hc Hs. erewrite (deal_switch hw GUI_clear [0] p); [|done| |cbn; lia|].
  2: { reflexivity. }
  2: { done. }
  eexists. split; [reflexivity|]. cbn [vars rcv dzp_buf dzp1_buf send_func calls]. split_and!; try done.
  intros v H1 H2. by rewrite !decide_False.
Qed.

Lemma deal_traffic hw p r y g :
  realcmd (rcv p) = traffic_light -> datum (rcv p) 0 = Some r -> datum (rcv p) 1 = Some y -> datum (rcv p) 2 = Some g ->
  send_func p = true ->
  exists p', Proto_sensor_cmd_deal hw p = Done traffic_light p' /\ vars p' traffic_light_flag = 1 /\
    vars p' tl_r = u8 r /\ vars p' tl_yellow = u8 y /\ vars p' tl_g = u8 g /\ vars p' GUI_flag = vars p GUI_flag /\
    rcv p' = rcv p /\ dzp_buf p' = dzp_buf p /\ dzp1_buf p' = dzp1_buf p /\
    calls p' = calls p ++ [proto_send (reply_frame traffic_light [0])].
Proof.
  intros Hc D0 D1 D2 Hs. erewrite (deal_switch hw traffic_light [0] p); [|done| |cbn; lia|].
  2: { unfold cmd_switch. cbv [traffic_light RGB_LED PASSIVE_BUZZER QXKG SMG MOTOR DZP YG TFTLCD SOUND_SENSOR PIR DHT11 DS18B20
         LIGHT JJCGQ ROTARY_ENCODERS GDKG DZP1 KEY5 Dial GUI_clear]. cbn [Z.eqb Pos.eqb].
       do 3 erewrite bind_done by (rewrite data_spec, ?D0, ?D1, ?D2; reflexivity). unfold traffic_light_set, setv. msteps.
       reflexivity. }
  2: done.
  eexists. split; [reflexivity|]. cbn [vars rcv dzp_buf dzp1_buf send_func calls]. split_and!; reflexivity.
Qed.

(** the order of two commands is not kept: when the host clears the screen and then sets the traffic light,
    and both commands arrive before the next round of the sensor thread, that round draws the traffic light first and then
    clears the screen, so that nothing of it is left. *)
Theorem traffic_light_wiped hw1 hw2 hw3 p r y g :
  panel_ok p -> recv_idle (rcv p) -> send_func p = true ->
  exists p' cs, (receive (host_frame GUI_clear []);;; Proto_sensor_cmd_deal hw1;;;
                 receive (host_frame traffic_light [r; y; g]);;; Proto_sensor_cmd_deal hw2;;;
                 sensor_round hw3) p = Done tt p' /\
    calls p' = calls p ++ cs ++ [Traffic_light (u8 r) (u8 y) (u8 g); GUI_SetBkColor false; GUI_Clear].
Proof.
  intros (_ & H5 & H5') Hi Hs.
  destruct (receive_last [] GUI_clear [] p Hi (List.Forall_nil _)) as (q & E & Hq & Hc & _);
    [unfold frame_ok; cbn; lia|]. cbn [flat_map app length] in E. rewrite (after E). clear E.
  destruct (deal_GUI_clear hw1 (set_rcv q p) Hc Hs) as (p1 & E1 & Hg & _ & Hr & Hb & Hb1 & Hs1 & Hcs). rewrite (after E1).
  destruct (receive_last [] traffic_light [r; y; g] p1) as (q2 & E2 & _ & Hc2 & Hd2 & Hok2);
    [by rewrite Hr|constructor|unfold frame_ok; cbn; lia|]. cbn [flat_map app length] in E2. rewrite (after E2).
  destruct (deal_traffic hw2 (set_rcv q2 p1) r y g Hc2 (Hd2 0%nat r eq_refl) (Hd2 1%nat y eq_refl) (Hd2 2%nat g eq_refl) Hs1)
    as (p3 & E3 & Ht & Vr & Vy & Vg & Hg3 & Hr3 & Hb3 & Hb31 & Hcs3). rewrite (after E3).
  cbn [set_rcv vars rcv calls dzp_buf dzp1_buf] in *.
  destruct (sensor_round_done hw3 p3) as (vs & p4 & E4 & P4 & _).
  { split; [by rewrite Hr3|]. by rewrite Hb3, Hb31, Hb, Hb1. }
  exists p4, ([proto_send (reply_frame GUI_clear [0])] ++ [proto_send (reply_frame traffic_light [0])] ++
    motor_calls (vars p3) ++ dial_calls (vars p3) ++
    (if vars p3 Clear_flag =? 1 then [GUI_SetBkColor true; GUI_Clear; GUI_SetColor_BLUE; GUI_FillRoundedRect 30 80 209 160 10]
     else [])).
  split; [exact E4|]. rewrite (part_calls P4), Hcs3, Hcs.
  unfold round_calls, traffic_calls, gui_calls. rewrite Ht, Hg3, Hg, Vr, Vy, Vg. cbn [Z.eqb Pos.eqb].
  by rewrite <- !app_assoc.
Qed.

(** ** A concrete box *)

(** Lines that stay high, converters that read 128. *)
Definition hw_demo : inputs := Inputs (fun _ => 1) (fun _ _ => 0) (fun _ => 128) (fun _ => 128) (fun _ => true) (fun _ => true).

(** Started, with a motor command and a pattern for the right matrix pending. *)
Definition panel_demo : panel :=
  Panel recv0 (fun v => match v with motor_flag | dzp1_flag => 1 | speed => 40 | _ => 0 end)
    [0; 0; 0; 0; 0] [0x1c; 0x14; 0x14; 0x14; 0x1c] true (Board 0 []) [].

Lemma panel_demo_ok : panel_ok panel_demo /\ recv_idle (rcv panel_demo).
Proof. split; [split; [by left|done]|done]. Qed.

Lemma proto_deal_replies_witness :
  exists body p', Proto_sensor_cmd_deal hw_demo panel_demo = Done 0 p' /\ length body = 0%nat /\
    sent (calls p') = [reply_frame 0 body] /\ rcv p' = recv0 /\ panel_ok p'.
Proof. apply (proto_deal_replies hw_demo panel_demo (proj1 panel_demo_ok) eq_refl). Defined.

Lemma sensor_round_once_witness :
  exists p1 p2, sensor_round hw_demo panel_demo = Done tt p1 /\ sensor_round hw_demo p1 = Done tt p2 /\
    calls p1 = [TIM_SetTIM4Compare1 40] /\ calls p2 = calls p1 /\
    shown7219 p1 = [] /\
    shown_dzp1 p1 = matrix_setup ++ [(1, 0x38); (2, 0x28); (3, 0x28); (4, 0x28); (5, 0x38)] /\
    shown7219 p2 = shown7219 p1 /\ shown_dzp1 p2 = shown_dzp1 p1 /\ panel_ok p2.
Proof. apply (sensor_round_once hw_demo hw_demo panel_demo (proj1 panel_demo_ok)). Defined.

Lemma dzp_command_shown_witness :
  exists p', (receive (host_frame DZP [1; 2; 3; 4; 5]);;; Proto_sensor_cmd_deal hw_demo;;; sensor_round hw_demo) panel_demo
      = Done tt p' /\
    shown7219 p' = matrix_setup ++ [(1, 2); (2, 4); (3, 6); (4, 8); (5, 10)] /\
    exists sent', sent (calls p') = reply_frame DZP [0] :: sent'.
Proof.
  apply (dzp_command_shown hw_demo hw_demo panel_demo [1; 2; 3; 4; 5] (proj1 panel_demo_ok) (proj2 panel_demo_ok)); done.
Defined.

Lemma proto_command_lost_witness :
  exists body body' p',
    (n <- receive (host_frame MOTOR [90] ++ host_frame SMG [12]);;
     a <- Proto_sensor_cmd_deal hw_demo;; b <- Proto_sensor_cmd_deal hw_demo;; ret (n, a, b)) panel_demo
      = Done (2%nat, SMG, SMG) p' /\
    sent (calls p') = [reply_frame SMG body; reply_frame SMG body'].
Proof.
  apply (proto_command_lost hw_demo hw_demo panel_demo MOTOR [90] SMG [12] (proj1 panel_demo_ok) (proj2 panel_demo_ok) eq_refl);
    unfold frame_ok; cbn; lia.
Defined.

Lemma traffic_light_wiped_witness :
  exists p' cs, (receive (host_frame GUI_clear []);;; Proto_sensor_cmd_deal hw_demo;;;
                 receive (host_frame traffic_light [1; 0; 1]);;; Proto_sensor_cmd_deal hw_demo;;;
                 sensor_round hw_demo) panel_demo = Done tt p' /\
    calls p' = cs ++ [Traffic_light 1 0 1; GUI_SetBkColor false; GUI_Clear].
Proof.
  apply (traffic_light_wiped hw_demo hw_demo hw_demo panel_demo 1 0 1 (proj1 panel_demo_ok) (proj2 panel_demo_ok) eq_refl).
Defined.
