(* ===== verification/BoxLine.v ===== *)
(** * From the line to the protocol (BOX/applications/main.c)

    The receive callback of the application, [_proto_rx_ind], as the serial driver of Serial.v
    calls it: it reads the port through the device manager, feeds the receiver of Proto.v byte by
    byte and releases the semaphore of the protocol thread for every command.  The callbacks of
    the ports work on the state of the receiver.

    [uart_stream_received]: however the bytes of a stream are spread over interrupts, the receiver
    sees all of them in order, and the semaphore is released once for each command. *)

From Stdlib Require Import Ascii String.
From S2P Require Import Prelude RtList Exec KService Mem Kernel Object Scheduler Timer Thread Clock Ipc Sem Circ Decide Demo DrvIpc Printf ObjectType Device Serial.
From S2P Require Proto.

Definition PROTO_BUFFER_SIZE : Z := 120.

Notation B := (M (devices (ports Proto.recv))).

Definition put_rest (r : Proto.recv) (s : devices (ports Proto.recv)) : devices (ports Proto.recv) :=
  let w := v_world s in
  Devices (v_k s) (v_dev s) (v_errno s) (v_console s) (v_logbuf s) (v_log s) (v_hw s)
    (Ports (p_serial w) (p_comp w) (p_dq w) (p_log w) (p_args w) r).
Definition on_recv {A} (m : M Proto.recv A) : B A := zoom (fun s => p_rest (v_world s)) put_rest m.

(** The loop of the callback. *)
Fixpoint feed (proto_sem : Z) (bytes : list Z) : B unit :=
  match bytes with
  | [] => ret tt
  | b :: bytes =>
      r <- on_recv (Proto.Proto_data_analyze_byte b);;
      when (nz r) (_ <- kern (rt_sem_release proto_sem);; ret tt);;;
      feed proto_sem bytes
  end.

Definition _proto_rx_ind (ops : Z -> device_ops (ports Proto.recv)) (proto_uart proto_sem : Z) (f dev size : Z) : B unit :=
  r <- rt_device_read ops proto_uart 0 PROTO_BUFFER_SIZE;; feed proto_sem (snd r).

(** *** Set-up *)

Section proto_init.
Context (ops : Z -> device_ops (ports Proto.recv)).

Definition use_error : list Z := chars_of "Init proto use uart error".
Definition open_error : list Z := chars_of "Init proto uart open error".

(** [rx_ind] is the address of the callback, [mega32u4_uart_thread] the entry of the thread; the values of
    [proto_uart] and [proto_sem] are returned. *)
Definition proto_init (rx_ind mega32u4_uart mega32u4_uart_thread stack stack_size : Z) : B (Z * Z) :=
  proto_uart <- rt_device_find (chars_of "uart2");;
  if proto_uart =? RT_NULL then rt_kprintf ops (use_error ++ [10]) [];;; ret (proto_uart, RT_NULL)
  else
    mod_serial proto_uart (fun d => let c := config d in
      set_config (SerialConfigure 38400 (data_bits c) (stop_bits c) (parity c) (bit_order c) (invert c) (bufsz c)) d);;;
    r <- rt_device_open ops proto_uart (Z.lor RT_DEVICE_OFLAG_RDWR RT_DEVICE_FLAG_INT_RX);;
    if negb (r =? RT_EOK) then rt_kprintf ops (open_error ++ [10]) [];;; ret (proto_uart, RT_NULL)
    else
      _ <- rt_device_set_rx_indicate proto_uart rx_ind;;
      _ <- rt_device_control ops proto_uart RT_DEVICE_CTRL_CONFIG proto_uart;;
      proto_sem <- kern (rt_sem_create (chars_of "mega32u4_proto_sem") 0 RT_IPC_FLAG_FIFO);;
      result <- kern (rt_thread_init mega32u4_uart (chars_of "mega32u4_uart") mega32u4_uart_thread RT_NULL stack stack_size 9 10);;
      when (result =? RT_EOK) (_ <- kern (rt_thread_startup mega32u4_uart);; ret tt);;;
      ret (proto_uart, proto_sem).
End proto_init.

(** ** The semaphore *)

(** What [n] releases do to a semaphore of value [fst x] with the waiting threads [snd x]. *)
Fixpoint releases (n : nat) (x : Z * list Z) : Z * list Z :=
  match n with
  | O => x
  | S n => releases n (match snd x with [] => (u16 (fst x + 1), []) | _ :: l => (fst x, l) end)
  end.

Lemma releases_add n m x : releases (n + m) x = releases m (releases n x).
Proof. revert x. induction n as [|n IH]; intros x; [done|apply IH]. Qed.

(** A kernel in which the semaphore can be released, from an interrupt as well. *)
Record sem_ready (k : kernel) (a : Z) (x : Z * list Z) : Prop := SemReady {
  sy_inv : kinv k; sy_cur : k_cur k <> RT_NULL; sy_lock : k_lock k = 0; sy_sem : sem_at k a (fst x) (snd x)
}.
(** What a release leaves alone. *)
Definition undisturbed (k k' : kernel) : Prop := k_irq k' = k_irq k /\ forall a, k_hdr k' !! Obj a = k_hdr k !! Obj a.

#[export] Instance undisturbed_preorder : PreOrder undisturbed.
Proof. split; [done|]. intros k1 k2 k3 [E1 H1] [E2 H2]. split; [congruence|]. intros a. by rewrite H2. Qed.

Lemma highest_nonnull k p : kinv k -> highest (k_tl k) p (k_cur k) -> k_cur k <> RT_NULL.
Proof.
  intros HK (_ & (l & Hl) & _). destruct (so_mem _ _ _ _ (kb_sched _ _ _ _ HK) _ _ (k_cur k) Hl) as (Hn & _); [|done].
  apply elem_of_cons. by left.
Qed.

Lemma release_ready k a x : sem_ready k a x ->
  exists k', rt_sem_release a k = Done RT_EOK k' /\ sem_ready k' a (releases 1 x) /\ undisturbed k k'.
Proof.
  intros [HK Hc Hlk HA]. destruct x as [v [|t l]]; cbn [fst snd releases] in *; pose proof HA as [Ho Hv Hl Hr Hx].
  - eexists. split; [unfold rt_sem_release; by rewrite (after (ipc_check_done _ _ _ Ho)), (after (tlist_done _ _ _ Hl)), bind_assoc, (after (sem_done _ _ _ Hv))|].
    split; [|done]. split; try done; [by apply kbut_set_sem|]. split; cbn [fst snd]; try done; [apply lookup_insert_eq|apply Z.mod_pos_bound; lia].
  - destruct (so_mem _ _ _ _ (kb_sched _ _ _ _ HK) _ _ t Hl) as (_ & _ & th & Ht & _); [apply elem_of_cons; by left|].
    destruct (ipc_wake_schedule none 0 k (LSuspend a) t l th HK I Hl Ht (fun f => f) Hc) as (k1 & k' & E1 & E2 & HK' & HF & Hhi & Eth & Etl).
    destruct (Hhi Hlk) as (p & Hp). exists k'. split_and!.
    + unfold rt_sem_release. rewrite (after (ipc_check_done _ _ _ Ho)), (after (tlist_done _ _ _ Hl)), bind_assoc, (after E1).
      mstep. cbn [when]. by rewrite (after E2).
    + split; [done|by eapply highest_nonnull|by rewrite (fr_lock _ _ HF)|]. cbn [fst snd].
      apply (sem_at_frame k k' a v (t :: l)); [done|done|by rewrite Etl, decide_True|]. by intros ?%Hx.
    + split; [apply (fr_irq _ _ HF)|apply (fr_hdr _ _ HF)].
Qed.

(** ** The callback *)

Lemma feed_done a bytes : forall s n r' x,
  Proto._proto_rx_ind bytes (p_rest (v_world s)) = Done n r' -> sem_ready (v_k s) a x ->
  exists k', feed a bytes s = Done tt (put_kernel k' (put_rest r' s)) /\ sem_ready k' a (releases n x) /\ undisturbed (v_k s) k'.
Proof.
  induction bytes as [|b bytes IH]; intros s n r' x E HS; cbn [Proto._proto_rx_ind feed] in *.
  { injection E as <- <-. exists (v_k s). split; [|done]. by destruct s as [? ? ? ? ? ? ? []]. }
  apply bind_inv in E as (e & r1 & E1 & E). apply bind_inv in E as (m & r2 & E2 & [= <- <-]).
  assert (E0 : on_recv (Proto.Proto_data_analyze_byte b) s = Done e (put_rest r1 s)) by (unfold on_recv, zoom; by rewrite E1).
  rewrite (after E0). destruct (nz e); cbn [when].
  - destruct (release_ready _ _ _ HS) as (k1 & Er & HS1 & HU1).
    assert (Ek : kern (rt_sem_release a) (put_rest r1 s) = Done RT_EOK (put_kernel k1 (put_rest r1 s))) by (unfold kern, zoom; cbn; by rewrite Er).
    rewrite bind_assoc, (after Ek). mstep.
    destruct (IH (put_kernel k1 (put_rest r1 s)) m r2 (releases 1 x) E2 HS1) as (k' & E' & HS' & HU'). exists k'. rewrite E'.
    split; [by destruct s|]. rewrite releases_add. split; [done|]. by etrans.
  - mstep. destruct (IH (put_rest r1 s) m r2 x E2 HS) as (k' & E' & HS' & HU'). exists k'. rewrite E'. by destruct s.
Qed.

Section line.
Context (hal_init : uart_init -> bool) (config_at : Z -> serial_configure) (pool : Z -> list rt_data_item).
Context (ops : Z -> device_ops (ports Proto.recv)) (uart sem : Z).
Implicit Types s : devices (ports Proto.recv).

Definition proto_indicate : Z -> Z -> Z -> B unit := _proto_rx_ind ops uart sem.

(** The port is open with the callback installed, its buffer is empty, and the semaphore can be released. *)
Record line_at s (v : rt_device) (d : rt_serial_device) (x : Z * list Z) : Prop := LineAt {
  la_port : port_at s uart v d [];
  la_ops : ops (dev_driver v) = serial_ops hal_init config_at pool;
  la_ind : rx_indicate v <> RT_NULL;
  la_idle : line_in d = [];
  la_size : bufsz (config d) - 1 <= PROTO_BUFFER_SIZE;
  la_irq : 0 <= k_irq (v_k s) < 2 ^ 8;
  la_sem : sem_ready (v_k s) sem x
}.

Lemma sem_ready_irq k n x : sem_ready k sem x -> sem_ready (upd_irq n k) sem x.
Proof. intros [HK Hc Hl HA]. split; try done; [by eapply kbut_frame|by destruct HA]. Qed.

(** The port does not depend on more of the kernel than the headers of the objects. *)
Lemma port_at_kernel s v d q k r :
  port_at s uart v d q -> (forall a, k_hdr k !! Obj a = k_hdr (v_k s) !! Obj a) -> port_at (put_kernel k (put_rest r s)) uart v d q.
Proof.
  intros [[Ha Hv (h & Hh & Hc) Hr] Ho Hm Hs Hx Hi Hq] Hk. split; try done. split; try done. exists h. cbn. by rewrite Hk.
Qed.

(** One interrupt: the bytes [bs] have arrived. *)
Lemma line_interrupt s v d x bs n r' :
  line_at s v d x -> op_ok (Arrive bs) -> blen bs < bufsz (config d) ->
  Proto._proto_rx_ind bs (p_rest (v_world s)) = Done n r' ->
  exists s' d', arrive proto_indicate uart bs s = Done tt s' /\ p_rest (v_world s') = r' /\
    line_at s' v d' (releases n x) /\ config d' = config d.
Proof.
  intros [HP Hops Hin Hl Hsz Hi HS] [Hne Hb] Hlen En. unfold arrive. rewrite (after (mod_serial_done _ _ _ _ (pa_ser _ _ _ _ _ HP))), Hl. cbn [app].
  pose proof (port_at_put _ _ _ _ _ (set_line_in bs d) [] HP eq_refl eq_refl eq_refl (pa_fifo _ _ _ _ _ HP)) as HP1.
  set (d1 := set_line_in bs d) in *. set (s1 := put_serial uart d1 s) in *.
  destruct (irq_done proto_indicate s1 uart v d1 [] [] HP1 Hne Hb) as (f & Hf & E). cbn [app line_in d1 set_line_in config] in *.
  assert (Hla : lastn (Z.to_nat (bufsz (config d) - 1)) bs = bs) by (apply lastn_all; unfold blen in *; lia). rewrite Hla in *.
  set (d2 := set_line_in [] (set_rx_fifo f d1)) in *. set (s2 := put_serial uart d2 (in_irq s1)) in *.
  assert (HP2 : port_at s2 uart v d2 bs) by (eapply port_at_put; [apply in_irq_port; exact HP1|done..]).
  destruct (device_read_done hal_init config_at pool ops s2 uart v d2 bs 0 PROTO_BUFFER_SIZE HP2 Hops ltac:(by vm_compute)) as (f3 & E3 & Hf3).
  assert (Ht : take (Z.to_nat PROTO_BUFFER_SIZE) bs = bs /\ drop (Z.to_nat PROTO_BUFFER_SIZE) bs = []).
  { assert ((length bs <= Z.to_nat PROTO_BUFFER_SIZE)%nat) by (unfold blen in *; lia). by rewrite take_ge, drop_ge. }
  destruct Ht as [Ht1 Ht2]. rewrite Ht1 in E3. rewrite Ht2 in Hf3. set (d3 := set_rx_fifo f3 d2) in *. set (s3 := put_serial uart d3 s2) in *.
  destruct (feed_done sem bs s3 n r' x En) as (k' & E4 & HS4 & HU4); [by apply sem_ready_irq|].
  assert (Ec : call_indicate proto_indicate uart (blen bs) s2 = Done tt (put_kernel k' (put_rest r' s3))).
  { unfold call_indicate. rewrite (after (dev_done _ _ _ (dv_val _ _ _ (pa_dev _ _ _ _ _ HP2)))), (proj2 (Z.eqb_neq _ _) Hin). cbn [negb when].
    unfold proto_indicate, _proto_rx_ind. rewrite (after E3). exact E4. }
  assert (HP3 : port_at s3 uart v d3 []) by (eapply port_at_put; [exact HP2|done..]).
  assert (HP4 : port_at (put_kernel k' (put_rest r' s3)) uart v d3 []) by (apply port_at_kernel; [done|apply HU4]).
  eexists _, d3. split; [apply (E _ d3 Ec); apply (pa_ser _ _ _ _ _ HP4)|]. 
  assert (Ed : set_line_in [] d3 = d3) by (by destruct d). rewrite Ed, (put_serial_same _ _ _ (pa_ser _ _ _ _ _ HP4)).
  split; [done|]. split; [|done]. split; try done.
  - destruct HP4 as [[? ? ? ?] ? ? ? ? ? ?]. by split.
  - cbn. apply Z.mod_pos_bound. lia.
  - by apply sem_ready_irq.
Qed.

(** The chunks [l] of a stream, each with an interrupt of its own. *)
Fixpoint chunks_arrive (l : list (list Z)) : B unit :=
  match l with [] => ret tt | bs :: l => arrive proto_indicate uart bs;;; chunks_arrive l end.

Lemma rx_ind_app bs bs' : forall r n r', Proto._proto_rx_ind (bs ++ bs') r = Done n r' ->
  exists n1 n2 r1, Proto._proto_rx_ind bs r = Done n1 r1 /\ Proto._proto_rx_ind bs' r1 = Done n2 r' /\ n = (n1 + n2)%nat.
Proof.
  induction bs as [|b bs IH]; intros r n r' E; cbn [app Proto._proto_rx_ind] in *; [by exists 0%nat, n, r|].
  apply bind_inv in E as (e & r1 & E1 & E). apply bind_inv in E as (m & r2 & E2 & [= <- <-]).
  destruct (IH _ _ _ E2) as (n1 & n2 & r3 & F1 & F2 & ->). exists ((if nz e then 1 else 0) + n1)%nat, n2, r3.
  rewrite (after E1), (after F1). split_and!; [done..|lia].
Qed.

Lemma chunks_done l : forall s v d x n r',
  line_at s v d x -> Forall (fun bs => op_ok (Arrive bs) /\ blen bs < bufsz (config d)) l ->
  Proto._proto_rx_ind (concat l) (p_rest (v_world s)) = Done n r' ->
  exists s' d', chunks_arrive l s = Done tt s' /\ p_rest (v_world s') = r' /\ line_at s' v d' (releases n x).
Proof.
  induction l as [|bs l IH]; intros s v d x n r' HL Hok E; cbn [concat chunks_arrive] in *.
  { injection E as <- <-. by exists s, d. }
  apply Forall_cons in Hok as [[Ho Hlen] Hok]. apply rx_ind_app in E as (n1 & n2 & r1 & E1 & E2 & ->).
  destruct (line_interrupt s v d x bs n1 r1 HL Ho Hlen E1) as (s1 & d1 & F1 & <- & HL1 & Ec). rewrite (after F1), releases_add.
  eapply IH; [exact HL1|by rewrite Ec|exact E2].
Qed.

End line.

(** ** The box, set up by its own code *)

Definition box_start : devices (ports Proto.recv) :=
  Devices k_two (v_dev box_reset) 0 RT_NULL 0x1000 ∅ [] (Ports (p_serial (v_world box_reset)) ∅ ∅ [] ∅ Proto.recv0).
Definition proto_ops (_ : Z) : device_ops (ports Proto.recv) := serial_ops hal_ok name_config no_pool.
Definition mega_thread : Z := 0x6000.

(** The ports are registered, and [proto_init] runs; the thread it starts waits for a command. *)
Definition setup : B (Z * Z) :=
  _ <- hw_usart_init 1 (serial_addr 1) uart2 (serial_addr 6);;
  proto_init proto_ops 0x8d01 mega_thread 0x8d11 0x6100 1024.
Definition box_sem : Z := Eval vm_compute in match setup box_start with Done r _ => snd r | _ => 0 end.
Definition box_line : devices (ports Proto.recv) := Eval vm_compute in
  final box_start ((_ <- setup;; _ <- kern (rt_sem_take box_sem RT_WAITING_FOREVER);; ret tt) box_start).
Definition line_dev : rt_device := Eval vm_compute in default dev_reset (v_dev box_line !! uart2).
Definition line_ser : rt_serial_device := Eval vm_compute in default serial_reset (p_serial (v_world box_line) !! uart2).

Lemma box_line_at : line_at hal_ok name_config no_pool proto_ops uart2 box_sem box_line line_dev line_ser (0, [mega_thread]).
Proof.
  assert (HD : dev_at box_line uart2 line_dev)
    by (split; [nonnull|concrete|eexists; split; concrete|vm_compute; split; [discriminate|reflexivity]]).
  split; [|reflexivity|nonnull|concrete|vm_compute; discriminate|vm_compute; split; [discriminate|reflexivity]|].
  - split; [exact HD|nonnull|concrete|concrete|nonnull|concrete|].
    split; [by vm_compute|concrete|apply circ_nil; by vm_compute|concrete|by vm_compute|discriminate|apply Forall_nil_2].
  - split; [by_check|nonnull|concrete|]. split; cbn [fst snd]; [by_check|concrete|concrete|lia|lia].
Qed.
#[local] Opaque box_line.

(** Two commands in three interrupts: the first wakes the thread, the second is counted. *)
Definition two_frames : list Proto.item := [Proto.Frame 5 [30]; Proto.Noise 7; Proto.Frame 20 [1; 0; 1]].
Definition three_chunks : list (list Z) := Eval vm_compute in
  let bs := flat_map Proto.item_bytes two_frames in [take 3 bs; take 7 (drop 3 bs); drop 10 bs].

