(* ===== verification/Flash.v ===== *)
(** * The program flash (applications/ef_flash_port.c of the boot loader and of the box, HAL flash driver)

    The flash controller is hardware: a memory of bytes, the lock bit of its control
    register, an error flag, and the outcomes of the operations to come ([f_faults]; an
    operation that sets an error flag is not carried out).  Programming can only clear
    bits; erasing a sector sets all of them.  On top of it stand the driver functions
    [HAL_FLASHEx_Erase] and [HAL_FLASH_Program] and the port that EasyFlash and the boot
    loader use.  The theorems give every branch of [ef_port_erase] and [ef_port_write],
    and show what becomes of a range that ends at the end of the flash. *)

From S2P Require Import Prelude RtList Exec KService Mem Kernel Object Scheduler Timer Thread Ipc Sem.

(** ** The controller *)

Record flash := Flash {
  f_mem : Z -> Z;  (* the bytes, by address *)
  f_locked : bool;  (* FLASH_CR_LOCK *)
  f_err : bool;  (* an error flag of FLASH_SR *)
  f_faults : list bool;  (* does the next operation end with an error flag? *)
  f_hal : bool  (* pFlash.Lock *)
}.

Definition set_mem (m : Z -> Z) (f : flash) : flash := Flash m (f_locked f) (f_err f) (f_faults f) (f_hal f).
Definition set_locked (b : bool) (f : flash) : flash := Flash (f_mem f) b (f_err f) (f_faults f) (f_hal f).
Definition set_err (b : bool) (f : flash) : flash := Flash (f_mem f) (f_locked f) b (f_faults f) (f_hal f).
Definition set_hal (b : bool) (f : flash) : flash := Flash (f_mem f) (f_locked f) (f_err f) (f_faults f) b.

(** One operation: with an error flag, or carried out by [g]. *)
Definition operate (g : (Z -> Z) -> Z -> Z) (f : flash) : flash :=
  if hd false (f_faults f) then Flash (f_mem f) (f_locked f) true (tail (f_faults f)) (f_hal f)
  else Flash (g (f_mem f)) (f_locked f) (f_err f) (tail (f_faults f)) (f_hal f).

(** The base addresses of the sectors, and the end of the flash of an STM32F407ZG. *)
Definition ADDR_FLASH_SECTOR (i : Z) : Z :=
  nth (Z.to_nat i) [0x08000000; 0x08004000; 0x08008000; 0x0800C000; 0x08010000; 0x08020000; 0x08040000;
                    0x08060000; 0x08080000; 0x080A0000; 0x080C0000; 0x080E0000; 0x08100000] 0.

Definition inside (lo hi a : Z) : bool := ((lo <=? a) && (a <? hi))%bool.
Definition flash_start : Z := 0x08000000.
Definition flash_end : Z := 0x08100000.

Definition erased (lo hi : Z) (m : Z -> Z) : Z -> Z := fun x => if inside lo hi x then 0xff else m x.

(** Byte [j] of the value [d]. *)
Definition byte_of (d j : Z) : Z := u8 (d / 2 ^ (8 * j)).
Definition programmed (n a d : Z) (m : Z -> Z) : Z -> Z :=
  fun x => if inside a (a + n) x then Z.land (m x) (byte_of d (x - a)) else m x.

(** ** The HAL driver *)

Definition HAL_OK : Z := 0.
Definition HAL_ERROR : Z := 1.
Definition HAL_BUSY : Z := 2.
Definition TYPEERASE_SECTORS : Z := 0.
Definition TYPEERASE_MASSERASE : Z := 1.
Definition TYPEPROGRAM_WORD : Z := 2.

Definition HAL_FLASH_Unlock : M flash Z := modify (set_locked false);;; ret HAL_OK.
Definition HAL_FLASH_Lock : M flash Z := modify (set_locked true);;; ret HAL_OK.

(** The operation has ended: look at the error flags, and clear them. *)
Definition FLASH_WaitForLastOperation : M flash Z :=
  e <- gets f_err;;
  if (e : bool) then modify (set_err false);;; ret HAL_ERROR else ret HAL_OK.

(** With the lock bit set the start bit cannot be written, and nothing happens. *)
Definition FLASH_Erase_Sector (s : Z) : M flash unit :=
  if inside 0 12 s then
    modify (fun f => if f_locked f then f else operate (erased (ADDR_FLASH_SECTOR s) (ADDR_FLASH_SECTOR (s + 1))) f)
  else stuck Undefined.
Definition FLASH_MassErase : M flash unit :=
  modify (fun f => if f_locked f then f else operate (erased flash_start flash_end) f).

(** With the lock bit set programming is not enabled: a store is a sequence error. *)
Definition FLASH_Program (n a d : Z) : M flash unit :=
  if (inside flash_start flash_end a && (a mod n =? 0))%bool then
    modify (fun f => if f_locked f then set_err true f else operate (programmed n a d) f)
  else stuck Undefined.

Record FLASH_EraseInitTypeDef := EraseInit { TypeErase : Z; Sector : Z; NbSectors : Z }.

(** [for (index = Sector; index < NbSectors + Sector; index++)] with [n] turns left. *)
Fixpoint erase_sectors (n : nat) (index status err : Z) : M flash (Z * Z) :=
  match n with
  | O => ret (status, err)
  | S n =>
      FLASH_Erase_Sector index;;;
      status <- FLASH_WaitForLastOperation;;
      if negb (status =? HAL_OK) then ret (status, index)
      else erase_sectors n (u32 (index + 1)) status err
  end.

(** The status and the value of [*SectorError]. *)
Definition HAL_FLASHEx_Erase (e : FLASH_EraseInitTypeDef) (SectorError : Z) : M flash (Z * Z) :=
  l <- gets f_hal;;
  if (l : bool) then ret (HAL_BUSY, SectorError)
  else
    modify (set_hal true);;;
    status <- FLASH_WaitForLastOperation;;
    r <- (if status =? HAL_OK then
            if TypeErase e =? TYPEERASE_MASSERASE then
              FLASH_MassErase;;;
              status <- FLASH_WaitForLastOperation;; ret (status, 0xFFFFFFFF)
            else erase_sectors (Z.to_nat (u32 (NbSectors e + Sector e) - Sector e)) (Sector e) status 0xFFFFFFFF
          else ret (status, SectorError));;
    modify (set_hal false);;;
    ret r.

(** The number of bytes of a program type: byte, half word, word, double word. *)
Definition type_bytes (TypeProgram : Z) : Z :=
  if TypeProgram =? 0 then 1 else if TypeProgram =? 1 then 2 else if TypeProgram =? 2 then 4 else 8.

Definition HAL_FLASH_Program (TypeProgram Address Data : Z) : M flash Z :=
  l <- gets f_hal;;
  if (l : bool) then ret HAL_BUSY
  else
    modify (set_hal true);;;
    status <- FLASH_WaitForLastOperation;;
    status <- (if status =? HAL_OK then
                 FLASH_Program (type_bytes TypeProgram) Address Data;;; FLASH_WaitForLastOperation
               else ret status);;
    modify (set_hal false);;;
    ret status.

(** ** The port *)

Inductive EfErrCode := EF_NO_ERR | EF_ERASE_ERR | EF_WRITE_ERR.
#[export] Instance EfErrCode_dec : EqDecision EfErrCode.
Proof. solve_decision. Defined.

Definition stm32_get_sector (a : Z) : Z :=
  if inside (ADDR_FLASH_SECTOR 0) (ADDR_FLASH_SECTOR 1) a then 0
  else if inside (ADDR_FLASH_SECTOR 1) (ADDR_FLASH_SECTOR 2) a then 1
  else if inside (ADDR_FLASH_SECTOR 2) (ADDR_FLASH_SECTOR 3) a then 2
  else if inside (ADDR_FLASH_SECTOR 3) (ADDR_FLASH_SECTOR 4) a then 3
  else if inside (ADDR_FLASH_SECTOR 4) (ADDR_FLASH_SECTOR 5) a then 4
  else if inside (ADDR_FLASH_SECTOR 5) (ADDR_FLASH_SECTOR 6) a then 5
  else if inside (ADDR_FLASH_SECTOR 6) (ADDR_FLASH_SECTOR 7) a then 6
  else if inside (ADDR_FLASH_SECTOR 7) (ADDR_FLASH_SECTOR 8) a then 7
  else if inside (ADDR_FLASH_SECTOR 8) (ADDR_FLASH_SECTOR 9) a then 8
  else if inside (ADDR_FLASH_SECTOR 9) (ADDR_FLASH_SECTOR 10) a then 9
  else if inside (ADDR_FLASH_SECTOR 10) (ADDR_FLASH_SECTOR 11) a then 10
  else if inside (ADDR_FLASH_SECTOR 11) (ADDR_FLASH_SECTOR 12) a then 11
  else 0.

Definition stm32_get_sector_size (s : Z) : M flash Z :=
  rt_assert (inside 0 12 s);;;
  ret (if s <? 4 then 16 * 1024 else if s =? 4 then 64 * 1024 else 128 * 1024).

(** A word of the flash; the processor is little-endian. *)
Definition word_at (m : Z -> Z) (a : Z) : Z := m a + 2 ^ 8 * m (a + 1) + 2 ^ 16 * m (a + 2) + 2 ^ 24 * m (a + 3).

Fixpoint read_words (n : nat) (addr : Z) : M flash (list Z) :=
  match n with
  | O => ret []
  | S n => w <- gets (fun f => word_at (f_mem f) addr);; l <- read_words n (u32 (addr + 4));; ret (w :: l)
  end.

(** The result and what has been stored in [buf]. *)
Definition ef_port_read (addr size : Z) : M flash (EfErrCode * list Z) :=
  rt_assert (size mod 4 =? 0);;;
  l <- read_words (Z.to_nat (size / 4)) addr;;
  ret (EF_NO_ERR, l).

(** [EF_ERASE_MIN_SIZE] is a constant of the configuration of EasyFlash. *)
Definition ef_port_erase (EF_ERASE_MIN_SIZE addr size : Z) : M flash EfErrCode :=
  rt_assert (addr mod EF_ERASE_MIN_SIZE =? 0);;;
  HAL_FLASH_Unlock;;;
  r <- HAL_FLASHEx_Erase (EraseInit TYPEERASE_SECTORS (stm32_get_sector addr)
         (u32 (stm32_get_sector (u32 (addr + size)) - stm32_get_sector addr + 1))) 0;;
  let result := if negb (r.1 =? HAL_OK) then EF_ERASE_ERR else EF_NO_ERR in
  HAL_FLASH_Lock;;;
  ret result.

(** [for (i = 0; i < size; i += 4, buf++, addr += 4)] with [n] turns left. *)
Fixpoint write_words (n : nat) (addr : Z) (buf : list Z) : M flash EfErrCode :=
  match n with
  | O => ret EF_NO_ERR
  | S n =>
      match buf with
      | [] => stuck Undefined
      | w :: buf =>
          status <- HAL_FLASH_Program TYPEPROGRAM_WORD addr w;;
          if negb (status =? HAL_OK) then ret EF_WRITE_ERR else write_words n (u32 (addr + 4)) buf
      end
  end.

Definition ef_port_write (addr : Z) (buf : list Z) (size : Z) : M flash EfErrCode :=
  rt_assert (size mod 4 =? 0);;;
  HAL_FLASH_Unlock;;;
  result <- write_words (Z.to_nat (size / 4)) addr buf;;
  HAL_FLASH_Lock;;;
  ret result.

(** The lock of the variables in RAM: a semaphore at the address [env_cache_lock]. *)
Definition env_name : list Z := [101; 110; 118; 32; 108; 111; 99; 107].
Definition ef_port_init (env_cache_lock : Z) : K EfErrCode :=
  rt_sem_init env_cache_lock env_name 1 RT_IPC_FLAG_PRIO;;; ret EF_NO_ERR.
Definition ef_port_env_lock (env_cache_lock : Z) : K (outcome Z) := rt_sem_take env_cache_lock RT_WAITING_FOREVER.
Definition ef_port_env_unlock (env_cache_lock : Z) : K Z := rt_sem_release env_cache_lock.

(** ** Sectors *)

Lemma insideP lo hi a : inside lo hi a = true <-> lo <= a < hi.
Proof. unfold inside. rewrite andb_true_iff, Z.leb_le, Z.ltb_lt. done. Qed.

Lemma inside_in lo hi a : lo <= a < hi -> inside lo hi a = true.
Proof. apply insideP. Qed.

Lemma inside_out lo hi a : a < lo \/ hi <= a -> inside lo hi a = false.
Proof. intros H. destruct (inside lo hi a) eqn:E; [|done]. apply insideP in E. lia. Qed.

Ltac sector_cases :=
  unfold stm32_get_sector;
  repeat match goal with |- context [inside ?l ?h ?a] =>
    let E := fresh "E" in destruct (inside l h a) eqn:E; [apply insideP in E|
      assert (a < l \/ h <= a) by (destruct (Z.lt_ge_cases a l); [by left|right; apply Z.nlt_ge; intros ?;
        rewrite inside_in in E by lia; discriminate]); clear E] end.

Ltac addrs :=
  repeat match goal with
  | |- context [ADDR_FLASH_SECTOR ?i] => let v := eval vm_compute in (ADDR_FLASH_SECTOR i) in change (ADDR_FLASH_SECTOR i) with v
  | H : context [ADDR_FLASH_SECTOR ?i] |- _ => let v := eval vm_compute in (ADDR_FLASH_SECTOR i) in change (ADDR_FLASH_SECTOR i) with v in H
  end.

(** Sector numbers and base addresses agree inside the flash, and sectors are numbered upwards. *)
Lemma get_sector_in a : flash_start <= a < flash_end ->
  0 <= stm32_get_sector a < 12 /\ ADDR_FLASH_SECTOR (stm32_get_sector a) <= a < ADDR_FLASH_SECTOR (stm32_get_sector a + 1).
Proof. intros H. unfold flash_start, flash_end in H. sector_cases; addrs; lia. Qed.

Lemma get_sector_out a : a < flash_start \/ flash_end <= a -> stm32_get_sector a = 0.
Proof. intros H. unfold flash_start, flash_end in H. sector_cases; addrs; lia. Qed.

Lemma ADDR_step i : 0 <= i < 12 -> ADDR_FLASH_SECTOR i + 16 * 1024 <= ADDR_FLASH_SECTOR (i + 1).
Proof.
  intros Hi. assert (i = 0 \/ i = 1 \/ i = 2 \/ i = 3 \/ i = 4 \/ i = 5 \/ i = 6 \/ i = 7 \/ i = 8 \/ i = 9 \/ i = 10 \/ i = 11) as HD by lia.
  repeat destruct HD as [->|HD]; subst; vm_compute; discriminate.
Qed.

Lemma ADDR_mono i j : 0 <= i <= j -> j <= 12 -> ADDR_FLASH_SECTOR i <= ADDR_FLASH_SECTOR j.
Proof.
  intros H Hj. replace j with (i + Z.of_nat (Z.to_nat (j - i))) in * by lia. remember (Z.to_nat (j - i)) as n. clear Heqn.
  induction n as [|n IH]; [rewrite Z.add_0_r; lia|]. pose proof (ADDR_step (i + Z.of_nat n) ltac:(lia)).
  replace (i + Z.of_nat (S n)) with (i + Z.of_nat n + 1) by lia. specialize (IH ltac:(lia) ltac:(lia)). lia.
Qed.

Lemma get_sector_mono a b : flash_start <= a -> a <= b < flash_end -> stm32_get_sector a <= stm32_get_sector b.
Proof.
  intros Ha Hb. destruct (get_sector_in a ltac:(lia)) as [Hs Ba]. destruct (get_sector_in b ltac:(lia)) as [Ht Bb].
  apply Z.nlt_ge. intros Hlt. pose proof (ADDR_mono (stm32_get_sector b + 1) (stm32_get_sector a) ltac:(lia) ltac:(lia)). lia.
Qed.

(** [stm32_get_sector] finds the sector an address of the flash lies in: it begins at or
    before the address and ends [stm32_get_sector_size] bytes later, behind it. *)
Theorem stm32_get_sector_correct a f : flash_start <= a < flash_end ->
  exists n, stm32_get_sector_size (stm32_get_sector a) f = Done n f /\
    ADDR_FLASH_SECTOR (stm32_get_sector a) <= a < ADDR_FLASH_SECTOR (stm32_get_sector a) + n.
Proof.
  intros H. unfold flash_start, flash_end in H.
  sector_cases; (eexists; split; [reflexivity|]); addrs; cbn; lia.
Qed.

(** ** Operations of the driver *)

(** The driver is idle: no error flag is set and no function of the driver runs. *)
Definition idle (f : flash) : Prop := f_err f = false /\ f_hal f = false.

(** How many of the next [n] operations succeed before the first that does not. *)
Fixpoint ok_ops (n : nat) (l : list bool) : nat :=
  match n with O => O | S n => if hd false l then O else S (ok_ops n (tail l)) end.

Lemma ok_ops_le n l : (ok_ops n l <= n)%nat.
Proof. revert l. induction n as [|n IH]; intros l; cbn; [lia|]. destruct (hd false l); [lia|]. specialize (IH (tail l)). lia. Qed.

Lemma ok_ops_all n l : Forall (eq false) (take n l) -> ok_ops n l = n.
Proof.
  revert l. induction n as [|n IH]; intros l H; [done|]. destruct l as [|b l]; cbn in *; [by rewrite IH by by rewrite take_nil|].
  inversion H; subst. by rewrite IH.
Qed.

(** The state behind an operation that leaves the memory as [m]. *)
Definition after_ops (f : flash) (k : nat) (m : Z -> Z) (f' : flash) : Prop :=
  (forall x, f_mem f' x = m x) /\ f_locked f' = f_locked f /\ idle f' /\ f_faults f' = drop k (f_faults f).

Lemma drop_tail {A} k (l : list A) : drop k (tail l) = drop (S k) l.
Proof. destruct l; cbn; [by rewrite drop_nil|done]. Qed.

(** One operation of an unlocked, idle controller, and the look at the flags behind it. *)
Lemma operate_wait g f : f_err f = false -> exists f',
  FLASH_WaitForLastOperation (operate g f) = Done (if hd false (f_faults f) then HAL_ERROR else HAL_OK) f' /\
  f' = Flash (if hd false (f_faults f) then f_mem f else g (f_mem f)) (f_locked f) false (tail (f_faults f)) (f_hal f).
Proof.
  intros He. unfold FLASH_WaitForLastOperation, operate. destruct f as [m l e fs h]; cbn in *. subst.
  destruct (hd false fs); cbn; eauto.
Qed.

Lemma erased_none lo m x : erased lo lo m x = m x.
Proof. unfold erased. by rewrite inside_out by lia. Qed.

Lemma erased_twice lo mid hi m x : lo <= mid <= hi -> erased mid hi (erased lo mid m) x = erased lo hi m x.
Proof. intros. unfold erased, inside. repeat case_match; zb; lia || done. Qed.

(** Erasing [n] sectors from sector [i] on stops at the first operation that fails. *)
Lemma erase_sectors_done err n : forall i f, f_err f = false -> f_locked f = false -> 0 <= i -> i + Z.of_nat n <= 12 ->
  let k := ok_ops n (f_faults f) in
  exists f', erase_sectors n i HAL_OK err f = Done (if bool_decide (k = n) then (HAL_OK, err) else (HAL_ERROR, i + Z.of_nat k)) f' /\
    f_locked f' = false /\ f_err f' = false /\ f_hal f' = f_hal f /\ f_faults f' = drop (if bool_decide (k = n) then n else S k) (f_faults f) /\
    (forall x, f_mem f' x = erased (ADDR_FLASH_SECTOR i) (ADDR_FLASH_SECTOR (i + Z.of_nat k)) (f_mem f) x).
Proof.
  induction n as [|n IH]; intros i f HE HL Hi Hn k; subst k.
  { exists f. cbn [ok_ops]. rewrite Z.add_0_r. split_and!; try done. intros x. by rewrite erased_none. }
  cbn [erase_sectors ok_ops]. unfold FLASH_Erase_Sector. rewrite inside_in by lia. mstep. rewrite HL.
  destruct (operate_wait (erased (ADDR_FLASH_SECTOR i) (ADDR_FLASH_SECTOR (i + 1))) f HE) as (f1 & E & ->). rewrite (after E).
  destruct (hd false (f_faults f)) eqn:Hf.
  - rewrite Z.add_0_r, bool_decide_false by done. eexists. split; [reflexivity|]. cbn [f_mem f_locked f_err f_hal f_faults]. split_and!; try done. intros x. by rewrite erased_none.
  - set (f1 := Flash _ _ _ _ _) in *. cbn [negb HAL_OK Z.eqb]. rewrite u32_small by lia.
    destruct (IH (i + 1) f1) as (f' & E' & Hl' & He' & Hh' & Hfs & Hm); [done|done|lia|lia|]. change (f_faults f1) with (tail (f_faults f)) in *.
    set (k := ok_ops n (tail (f_faults f))) in *. pose proof (ok_ops_le n (tail (f_faults f))). fold k in H.
    change (negb (HAL_OK =? HAL_OK)) with false. cbv iota. rewrite E'. exists f'.
    replace (i + Z.of_nat (S k)) with (i + 1 + Z.of_nat k) by lia. split.
    { f_equal. case_bool_decide; case_bool_decide; lia || done. }
    split_and!; try done.
    { rewrite Hfs, drop_tail. f_equal. case_bool_decide; case_bool_decide; lia || done. }
    intros x. rewrite Hm. cbn [f_mem f1]. apply erased_twice.
    pose proof (ADDR_step i ltac:(lia)). pose proof (ADDR_mono (i + 1) (i + 1 + Z.of_nat k) ltac:(lia) ltac:(lia)). lia.
Qed.

(** [HAL_FLASHEx_Erase] of the sectors from [i] to [j - 1]; none of them if [j] is not behind [i]. *)
Lemma hal_erase_done i j e0 f : idle f -> f_locked f = false -> 0 <= i <= 12 -> 0 <= j <= 12 ->
  let n := Z.to_nat (j - i) in
  let k := ok_ops n (f_faults f) in
  exists f' e, HAL_FLASHEx_Erase (EraseInit TYPEERASE_SECTORS i (u32 (j - i))) e0 f = Done (if bool_decide (k = n) then HAL_OK else HAL_ERROR, e) f' /\
    f_locked f' = false /\ idle f' /\ f_faults f' = drop (if bool_decide (k = n) then n else S k) (f_faults f) /\
    (forall x, f_mem f' x = erased (ADDR_FLASH_SECTOR i) (ADDR_FLASH_SECTOR (i + Z.of_nat k)) (f_mem f) x).
Proof.
  intros [He Hh] HL Hi Hj n k. unfold HAL_FLASHEx_Erase. mstep. rewrite Hh. mstep.
  set (f1 := set_hal true f). assert (E0 : FLASH_WaitForLastOperation f1 = Done HAL_OK f1).
  { unfold FLASH_WaitForLastOperation. mstep. change (f_err f1) with (f_err f). by rewrite He. }
  rewrite (after E0). change (HAL_OK =? HAL_OK) with true. change (TypeErase _ =? TYPEERASE_MASSERASE) with false. cbv iota. cbn [Sector NbSectors].
  assert (u32 (u32 (j - i) + i) = j) as -> by (unfold u32; rewrite Zplus_mod_idemp_l; rewrite Z.mod_small; lia). fold n.
  destruct (erase_sectors_done 0xFFFFFFFF n i f1) as (f' & E & Hl & He' & Hh' & Hfs & Hm); [done|done|lia|lia|]. rewrite (after E).
  mstep. change (f_faults f1) with (f_faults f) in *. fold k in E, Hfs, Hm |- *. exists (set_hal false f'), (if bool_decide (k = n) then 0xFFFFFFFF else i + Z.of_nat k). split.
  { unfold ret. f_equal. by case_bool_decide. }
  done.
Qed.

Lemma sector_range a : 0 <= stm32_get_sector a < 12.
Proof.
  destruct (decide (flash_start <= a < flash_end)); [by apply get_sector_in|]. rewrite get_sector_out; [done|].
  unfold flash_start, flash_end in *. lia.
Qed.

Lemma ef_erase_done min addr size f : idle f -> addr mod min = 0 -> 0 <= addr + size < 2 ^ 32 ->
  let s := stm32_get_sector addr in
  let n := Z.to_nat (stm32_get_sector (addr + size) + 1 - s) in
  let k := ok_ops n (f_faults f) in
  exists f', ef_port_erase min addr size f = Done (if bool_decide (k = n) then EF_NO_ERR else EF_ERASE_ERR) f' /\
    f_locked f' = true /\ idle f' /\ f_faults f' = drop (if bool_decide (k = n) then n else S k) (f_faults f) /\
    (forall x, f_mem f' x = erased (ADDR_FLASH_SECTOR s) (ADDR_FLASH_SECTOR (s + Z.of_nat k)) (f_mem f) x).
Proof.
  intros HI Hmin Hs s n k. unfold ef_port_erase. rewrite (proj2 (Z.eqb_eq _ _) Hmin). cbn [rt_assert]. msteps.
  rewrite (u32_small (addr + size)) by lia. fold s. set (t := stm32_get_sector (addr + size)) in *.
  pose proof (sector_range addr). pose proof (sector_range (addr + size)). fold s in H. fold t in H0.
  destruct (hal_erase_done s (t + 1) 0 (set_locked false f)) as (f' & e & E & Hl & HI' & Hfs & Hm); [done|done|lia|lia|].
  replace (t - s + 1) with (t + 1 - s) by lia. unfold HAL_FLASH_Unlock. msteps. unfold HAL_FLASH_Lock. msteps.
  cbn [f_faults set_locked] in *. fold n k in E, Hfs, Hm |- *. exists (set_locked true f'). split; [by destruct (bool_decide (k = n))|].
  by split_and!; destruct HI'.
Qed.

(** The sectors from the one of [addr] to the one of [addr + size] cover the range. *)
Lemma sectors_cover addr size x : flash_start <= addr -> addr + size < flash_end -> addr <= x <= addr + size ->
  let s := stm32_get_sector addr in
  let n := Z.to_nat (stm32_get_sector (addr + size) + 1 - s) in
  forall m, erased (ADDR_FLASH_SECTOR s) (ADDR_FLASH_SECTOR (s + Z.of_nat n)) m x = 0xff.
Proof.
  intros H1 H3 Hx s n m. unfold erased. rewrite inside_in; [done|].
  destruct (get_sector_in addr) as [Hs Ba]; [lia|]. destruct (get_sector_in (addr + size)) as [Ht Bt]; [lia|].
  pose proof (get_sector_mono addr (addr + size) H1 ltac:(lia)). fold s in Ba, Hs.
  replace (s + Z.of_nat n) with (stm32_get_sector (addr + size) + 1) by lia. lia.
Qed.

Lemma ef_erase_range min addr size f : idle f -> f_faults f = [] -> addr mod min = 0 -> flash_start <= addr -> 0 <= size -> addr + size < flash_end ->
  exists f', ef_port_erase min addr size f = Done EF_NO_ERR f' /\ idle f' /\ f_faults f' = [] /\
    (forall x, addr <= x <= addr + size -> f_mem f' x = 0xff) /\
    (forall x, x < addr -> stm32_get_sector x <> stm32_get_sector addr -> f_mem f' x = f_mem f x).
Proof.
  intros HI HF Hmin H1 H2 H3.
  destruct (ef_erase_done min addr size f HI Hmin) as (f' & E & _ & HI' & Hfs & Hm); [unfold flash_start, flash_end in *; lia|].
  rewrite HF, ok_ops_all in E, Hm by (by rewrite take_nil). rewrite HF, drop_nil in Hfs. rewrite bool_decide_true in E by done.
  exists f'. split_and!; try done.
  - intros x Hx. rewrite Hm. by apply sectors_cover.
  - intros x Hx Hne. rewrite Hm. unfold erased. rewrite inside_out; [done|]. left. apply Z.nle_gt. intros Hle. apply Hne.
    destruct (get_sector_in addr) as [Hs Ba]; [lia|]. destruct (decide (flash_start <= x)) as [Hx'|Hx'].
    + destruct (get_sector_in x) as [Ht Bt]; [lia|]. pose proof (get_sector_mono x addr Hx' ltac:(lia)).
      destruct (decide (stm32_get_sector x < stm32_get_sector addr)); [|lia].
      pose proof (ADDR_mono (stm32_get_sector x + 1) (stm32_get_sector addr) ltac:(lia) ltac:(lia)). lia.
    + pose proof (ADDR_mono 0 (stm32_get_sector addr) ltac:(lia) ltac:(lia)). change (ADDR_FLASH_SECTOR 0) with flash_start in *. lia.
Qed.

(** [ef_port_erase] of a range that ends before the end of the flash erases whole sectors, from the one of
    the first address to the one of the address behind the range, and stops with [EF_ERASE_ERR] at the first
    the controller refuses; nothing else changes, and the controller is locked again.  On success the
    range is erased. *)
Theorem ef_port_erase_correct min addr size f : idle f -> addr mod min = 0 -> flash_start <= addr -> 0 <= size -> addr + size < flash_end ->
  let s := stm32_get_sector addr in
  let n := Z.to_nat (stm32_get_sector (addr + size) + 1 - s) in
  let k := ok_ops n (f_faults f) in
  exists f', ef_port_erase min addr size f = Done (if bool_decide (k = n) then EF_NO_ERR else EF_ERASE_ERR) f' /\
    f_locked f' = true /\ idle f' /\
    (forall x, f_mem f' x = erased (ADDR_FLASH_SECTOR s) (ADDR_FLASH_SECTOR (s + Z.of_nat k)) (f_mem f) x) /\
    (k = n -> forall x, addr <= x <= addr + size -> f_mem f' x = 0xff).
Proof.
  intros HI Hmin H1 H2 H3 s n k.
  destruct (ef_erase_done min addr size f HI Hmin) as (f' & E & Hl & HI' & Hfs & Hm); [unfold flash_start, flash_end in *; lia|].
  exists f'. split_and!; try done. fold s n in Hm. fold k in Hm. intros Hk x Hx. rewrite Hm, Hk. by apply sectors_cover.
Qed.

(** a range that begins behind the first sector and reaches the end of the flash, even one that ends exactly
    there, is not erased at all, and [ef_port_erase] reports success. *)
Theorem ef_port_erase_to_the_end min addr size f : idle f -> addr mod min = 0 ->
  ADDR_FLASH_SECTOR 1 <= addr < flash_end -> flash_end <= addr + size < 2 ^ 32 ->
  exists f', ef_port_erase min addr size f = Done EF_NO_ERR f' /\ forall x, f_mem f' x = f_mem f x.
Proof.
  intros HI Hmin H1 H2. assert (1 <= stm32_get_sector addr).
  { destruct (get_sector_in addr) as [Hs Ba]; [unfold flash_start; revert H1; addrs; lia|].
    apply Z.nlt_ge. intros Hlt. assert (Z0 : stm32_get_sector addr = 0) by lia. rewrite Z0 in Ba. revert H1 Ba. addrs. lia. }
  destruct (ef_erase_done min addr size f HI Hmin) as (f' & E & Hl & HI' & Hfs & Hm); [unfold flash_end in *; lia|].
  rewrite (get_sector_out (addr + size)) in * by lia. replace (Z.to_nat (0 + 1 - stm32_get_sector addr)) with 0%nat in * by lia.
  exists f'. split; [exact E|]. intros x. rewrite Hm. cbn [ok_ops]. by rewrite Z.add_0_r, erased_none.
Qed.

(** ** Programming *)

(** Byte [i] of a buffer of words. *)
Definition wbyte (ws : list Z) (i : Z) : Z := byte_of (nth (Z.to_nat (i / 4)) ws 0) (i mod 4).

Lemma wbyte_head w ws i : 0 <= i < 4 -> wbyte (w :: ws) i = byte_of w i.
Proof. intros. unfold wbyte. rewrite Z.div_small, Z.mod_small by lia. done. Qed.

Lemma wbyte_tail w ws i : 4 <= i -> wbyte (w :: ws) i = wbyte ws (i - 4).
Proof.
  intros. unfold wbyte. replace i with (i - 4 + 1 * 4) at 1 2 by lia. rewrite Z.div_add, Z_mod_plus_full by lia.
  assert (0 <= (i - 4) / 4) by (apply Z.div_pos; lia). by replace (Z.to_nat ((i - 4) / 4 + 1)) with (S (Z.to_nat ((i - 4) / 4))) by lia.
Qed.

(** The memory behind the programming of [n] bytes of the buffer [ws] at [a]. *)
Definition burnt (a n : Z) (ws : list Z) (m : Z -> Z) (x : Z) : Z :=
  if inside a (a + n) x then Z.land (m x) (wbyte ws (x - a)) else m x.

Lemma hal_program_done a w f : idle f -> f_locked f = false -> flash_start <= a < flash_end -> a mod 4 = 0 ->
  HAL_FLASH_Program TYPEPROGRAM_WORD a w f = Done (if hd false (f_faults f) then HAL_ERROR else HAL_OK)
    (Flash (if hd false (f_faults f) then f_mem f else programmed 4 a w (f_mem f)) false false (tail (f_faults f)) false).
Proof.
  intros [He Hh] HL Ha H4. destruct f as [m l e fs h]. cbn in *. subst. unfold HAL_FLASH_Program, FLASH_Program. rewrite inside_in by done.
  change (type_bytes TYPEPROGRAM_WORD) with 4. rewrite (proj2 (Z.eqb_eq _ _) H4). unfold FLASH_WaitForLastOperation, bind, gets, modify, ret, operate. cbn. by destruct (hd false fs).
Qed.

Lemma write_words_done n : forall a ws f, idle f -> f_locked f = false -> n = length ws -> a mod 4 = 0 ->
  flash_start <= a -> a + 4 * Z.of_nat n <= flash_end ->
  let k := ok_ops n (f_faults f) in
  exists f', write_words n a ws f = Done (if bool_decide (k = n) then EF_NO_ERR else EF_WRITE_ERR) f' /\
    f_locked f' = false /\ idle f' /\ f_faults f' = drop (if bool_decide (k = n) then n else S k) (f_faults f) /\
    (forall x, f_mem f' x = burnt a (4 * Z.of_nat k) ws (f_mem f) x).
Proof.
  induction n as [|n IH]; intros a ws f HI HL Hn H4 Ha Hb k; subst k.
  { exists f. cbn. split_and!; try done. intros x. unfold burnt. by rewrite inside_out by lia. }
  destruct ws as [|w ws]; [done|]. injection Hn as Hn. cbn [write_words ok_ops].
  rewrite (after (hal_program_done a w f HI HL ltac:(lia) H4)). destruct (hd false (f_faults f)) eqn:Hf.
  - rewrite !bool_decide_false by done. eexists. split; [reflexivity|]. cbn [f_locked f_mem f_faults]. split_and!; try done.
    intros x. unfold burnt. by rewrite inside_out by lia.
  - set (f1 := Flash _ _ _ _ _). change (negb (HAL_OK =? HAL_OK)) with false. cbv iota. unfold flash_start, flash_end in *. rewrite u32_small by lia.
    destruct (IH (a + 4) ws f1) as (f' & E & Hl & HI' & Hfs & Hm); [done|done|done| |lia|lia|].
    { rewrite <- Z.add_mod_idemp_l, H4 by lia. done. }
    rewrite E. exists f'. change (f_faults f1) with (tail (f_faults f)) in *. set (k := ok_ops n (tail (f_faults f))) in *.
    split_and!; try done.
    + f_equal. case_bool_decide; case_bool_decide; lia || done.
    + rewrite Hfs, drop_tail. f_equal. case_bool_decide; case_bool_decide; lia || done.
    + intros x. rewrite Hm. cbn [f_mem f1]. unfold burnt, programmed. unfold inside.
      destruct (Z.leb_spec (a + 4) x), (Z.ltb_spec x (a + 4 + 4 * Z.of_nat k)), (Z.leb_spec a x), (Z.ltb_spec x (a + 4)),
        (Z.ltb_spec x (a + 4 * Z.of_nat (S k))); cbn; try lia; try done; f_equal.
      * rewrite wbyte_tail by lia. f_equal. lia.
      * by rewrite wbyte_head by lia.
Qed.

Lemma ef_write_done a ws f : idle f -> a mod 4 = 0 -> flash_start <= a -> a + 4 * Z.of_nat (length ws) <= flash_end ->
  let n := length ws in
  let k := ok_ops n (f_faults f) in
  exists f', ef_port_write a ws (4 * Z.of_nat n) f = Done (if bool_decide (k = n) then EF_NO_ERR else EF_WRITE_ERR) f' /\
    f_locked f' = true /\ idle f' /\ f_faults f' = drop (if bool_decide (k = n) then n else S k) (f_faults f) /\
    (forall x, f_mem f' x = burnt a (4 * Z.of_nat k) ws (f_mem f) x).
Proof.
  intros HI H4 Ha Hb n k. unfold ef_port_write. rewrite Z.mul_comm, Z_mod_mult, Z.div_mul by lia. cbn [rt_assert Z.eqb].
  unfold HAL_FLASH_Unlock, HAL_FLASH_Lock. msteps. rewrite Nat2Z.id.
  destruct (write_words_done n a ws (set_locked false f)) as (f' & E & Hl & HI' & Hfs & Hm); [done..|].
  rewrite (after E). msteps. by exists (set_locked true f').
Qed.

(** The bytes of a word. *)
Lemma word_bytes w : 0 <= w < 2 ^ 32 ->
  byte_of w 0 + 2 ^ 8 * byte_of w 1 + 2 ^ 16 * byte_of w 2 + 2 ^ 24 * byte_of w 3 = w.
Proof.
  intros. unfold byte_of, u8. change (2 ^ (8 * 0)) with 1. change (2 ^ (8 * 1)) with (2 ^ 8). change (2 ^ (8 * 2)) with (2 ^ 16).
  change (2 ^ (8 * 3)) with (2 ^ 24). Z.div_mod_to_equations. lia.
Qed.

Lemma land_ff b : 0 <= b < 256 -> Z.land 0xff b = b.
Proof. intros. rewrite Z.land_comm. change 0xff with (Z.ones 8). rewrite Z.land_ones by lia. apply Z.mod_small. lia. Qed.

Lemma read_words_done ws : forall a f, 0 <= a -> a + 4 * Z.of_nat (length ws) < 2 ^ 32 -> Forall (fun w => 0 <= w < 2 ^ 32) ws ->
  (forall x, a <= x < a + 4 * Z.of_nat (length ws) -> f_mem f x = wbyte ws (x - a)) ->
  read_words (length ws) a f = Done ws f.
Proof.
  induction ws as [|w ws IH]; intros a f Ha Hb HW HM; [done|]. cbn [length read_words] in *. inversion HW; subst. msteps.
  rewrite (u32_small (a + 4)) by lia. erewrite bind_done; [|apply IH; try done; try lia].
  - unfold ret. do 2 f_equal. unfold word_at. rewrite !HM by lia. replace (a - a) with 0 by lia. replace (a + 1 - a) with 1 by lia.
    replace (a + 2 - a) with 2 by lia. replace (a + 3 - a) with 3 by lia. rewrite !wbyte_head by lia. by apply word_bytes.
  - intros x Hx. rewrite HM by lia. rewrite wbyte_tail by lia. f_equal. lia.
Qed.

(** C16: words that are written to a range erased before, with no operation failing, are read back. *)
Theorem ef_port_round_trip min a ws f : idle f -> f_faults f = [] -> a mod min = 0 -> a mod 4 = 0 ->
  flash_start <= a -> a + 4 * Z.of_nat (length ws) < flash_end -> Forall (fun w => 0 <= w < 2 ^ 32) ws ->
  let size := 4 * Z.of_nat (length ws) in
  exists f', (ef_port_erase min a size;;; ef_port_write a ws size;;; ef_port_read a size) f = Done (EF_NO_ERR, ws) f'.
Proof.
  intros HI HF Hmin H4 Ha Hb HW size.
  destruct (ef_erase_range min a size f) as (f1 & E1 & HI1 & HF1 & Hm1 & _); try done; [lia|]. rewrite (after E1).
  destruct (ef_write_done a ws f1) as (f2 & E2 & _ & HI2 & _ & Hm2); [done..|unfold flash_end in *; lia|].
  rewrite HF1 in Hm2. rewrite ok_ops_all in Hm2 by (by rewrite take_nil). rewrite (after E2). exists f2. unfold ef_port_read.
  unfold size. rewrite Z.mul_comm, Z_mod_mult, Z.div_mul, Nat2Z.id by lia. cbn [rt_assert Z.eqb]. mstep.
  erewrite bind_done; [reflexivity|]. unfold flash_start, flash_end in *. apply read_words_done; [lia|lia|done|].
  intros x Hx. rewrite Hm2. unfold burnt. rewrite inside_in by lia. rewrite Hm1 by lia. apply land_ff. unfold wbyte. apply u8_range.
Qed.

(** ** Witnesses *)

Definition zero_flash : flash := Flash (fun _ => 0) true false [] false.

Lemma ef_port_round_trip_witness :
  exists f', (ef_port_erase 0x20000 0x08020000 8;;; ef_port_write 0x08020000 [0x20001000; 0x08020101] 8;;; ef_port_read 0x08020000 8) zero_flash
    = Done (EF_NO_ERR, [0x20001000; 0x08020101]) f'.
Proof.
  apply (ef_port_round_trip 0x20000 0x08020000 [0x20001000; 0x08020101] zero_flash); [done..|unfold flash_start; lia|vm_compute; done|].
  repeat constructor; lia.
Defined.

(** The last sector, erased as a whole. *)
Lemma ef_port_erase_to_the_end_witness :
  exists f', ef_port_erase 0x20000 0x080E0000 0x20000 zero_flash = Done EF_NO_ERR f' /\ forall x, f_mem f' x = f_mem zero_flash x.
Proof. apply (ef_port_erase_to_the_end 0x20000 0x080E0000 0x20000 zero_flash); [done|done|split; by vm_compute|split; by vm_compute]. Defined.
