(* ===== verification/Path.v ===== *)
(** * Paths of the device file system (components/dfs/src/dfs.c, dfs_fs.c)

    [dfs_normalize_path] rewrites a path in place: one index reads, another writes behind
    it.  The specification splits the path into its components and resolves them on a
    stack.  The theorems show that the two agree, including what becomes of a path that
    climbs above the root directory, and that [dfs_filesystem_lookup] finds the mounted file system
    with the longest path, under which [dfs_subdir] names the file. *)

From Stdlib Require Import Ascii String.
From S2P Require Import Prelude Exec Printf.

(** ** Normalising a path *)

(** The buffer [fullpath] and the pointers [src] and [dst], as indices. *)
Record np := Np { np_buf : list Z; np_src : nat; np_dst : nat }.

Definition slash : Z := 47.
Definition dot : Z := 46.

Definition rd (i : nat) : M np Z := deref (fun s => np_buf s !! i).
Definition wr (i : nat) (c : Z) : M np unit := fun s =>
  if bool_decide (i < length (np_buf s))%nat then Done tt (Np (<[i := c]> (np_buf s)) (np_src s) (np_dst s)) else Stop Undefined.
Definition src : M np nat := gets np_src.
Definition dst : M np nat := gets np_dst.
Definition set_src (n : nat) : M np unit := modify (fun s => Np (np_buf s) n (np_dst s)).
Definition set_dst (n : nat) : M np unit := modify (fun s => Np (np_buf s) (np_src s) n).

(** The next character, with [src] moved on. *)
Definition next : M np Z := i <- src;; c <- rd i;; set_src (S i);;; ret c.
(** A character stored, with [dst] moved on. *)
Definition emit (c : Z) : M np unit := i <- dst;; wr i c;;; set_dst (S i).

(** The loops run at most once for every character; [fuel] is the size of the buffer. *)

(** The loop that skips the slashes at [src]. *)
Fixpoint skip_slashes (fuel : nat) : M np unit :=
  match fuel with
  | O => stuck Diverge
  | S fuel => i <- src;; c <- rd i;; if ((c =? slash) && negb (c =? 0))%bool then set_src (S i);;; skip_slashes fuel else ret tt
  end.

(** The loop that copies up to the next slash or NUL, and this character. *)
Fixpoint copy_name (fuel : nat) : M np Z :=
  match fuel with
  | O => stuck Diverge
  | S fuel => c <- next;; if (negb (c =? 0) && negb (c =? slash))%bool then emit c;;; copy_name fuel else ret c
  end.

(** The loop that reads behind the slashes. *)
Fixpoint next_name (fuel : nat) (c : Z) : M np unit :=
  match fuel with
  | O => stuck Diverge
  | S fuel => if c =? slash then c <- next;; next_name fuel c else ret tt
  end.

(** [while (dst0 < dst && dst[-1] != '/') dst--;] *)
Fixpoint back_name (fuel : nat) : M np unit :=
  match fuel with
  | O => stuck Diverge
  | S fuel =>
      d <- dst;;
      match d with
      | O => ret tt
      | S d => c <- rd d;; if negb (c =? slash) then set_dst d;;; back_name fuel else ret tt
      end
  end.

Inductive turn := Continue | UpOne | Copy | Break | Null.

(** The tests for '.' at the beginning of a name. *)
Definition look_dots (fuel : nat) : M np turn :=
  i <- src;; c <- rd i;;
  if c =? dot then
    c1 <- rd (i + 1);;
    if c1 =? 0 then set_src (i + 1);;; ret Copy
    else if c1 =? slash then set_src (i + 2);;; skip_slashes fuel;;; ret Continue
    else if c1 =? dot then
      c2 <- rd (i + 2);;
      if c2 =? 0 then set_src (i + 2);;; ret UpOne
      else if c2 =? slash then set_src (i + 3);;; skip_slashes fuel;;; ret UpOne
      else ret Copy
    else ret Copy
  else ret Copy.

(** The statements behind the label [up_one]. *)
Definition up_one (fuel : nat) : M np turn :=
  d <- dst;; match d with O => ret Null | S d => set_dst d;;; back_name fuel;;; ret Continue end.

(** One turn of [while (1)]. *)
Definition path_turn (fuel : nat) : M np turn :=
  t <- look_dots fuel;;
  match t with
  | Copy =>
      c <- copy_name fuel;;
      if c =? slash then
        emit slash;;; next_name fuel c;;;
        i <- src;; set_src (i - 1);;; ret Continue
      else ret Break
  | UpOne => up_one fuel
  | t => ret t
  end.

Fixpoint path_loop (fuel turns : nat) : M np turn :=
  match turns with
  | O => stuck Diverge
  | S turns => t <- path_turn fuel;; match t with Continue => path_loop fuel turns | t => ret t end
  end.

(** The characters of a string in a buffer. *)
Fixpoint string_in (l : list Z) : list Z := match l with c :: l => if c =? 0 then [] else c :: string_in l | [] => [] end.

(** Behind the loop. *)
Definition path_end : M np (list Z) :=
  d <- dst;; wr d 0;;;
  match d with
  | O => stuck Undefined  (* the byte in front of the buffer *)
  | S d => c <- rd d;; when (negb (Nat.eqb d 0) && (c =? slash))%bool (wr d 0)
  end;;;
  c <- rd 0;;
  when (c =? 0) (wr 0 slash;;; wr 1 0);;;
  gets (fun s => string_in (np_buf s)).

(** The path to normalise: [filename], or [filename] below [directory]. *)
Definition full_path (directory filename : list Z) : list Z :=
  if hd 0 filename =? slash then filename else directory ++ [slash] ++ filename.

(** [room] says whether the heap has room for the path; [None] is NULL. *)
Definition dfs_normalize_path (room : bool) (directory filename : list Z) : exec np (option (list Z)) :=
  let p := full_path directory filename in
  let fuel := S (length p) in
  let s := Np (p ++ [0]) 0 0 in
  if negb room then Done None s
  else (t <- path_loop fuel (S fuel);; match t with Null => ret None | _ => r <- path_end;; ret (Some r) end) s.

(** ** Mounted file systems *)

(** [dfs_subdir]: [None] is NULL, otherwise the rest of [filename] from the position returned. *)
Definition dfs_subdir (directory filename : list Z) : option (list Z) :=
  if Nat.eqb (length directory) (length filename) then None
  else
    let dir := length directory in
    let dir := if (negb (nth dir filename 0 =? slash) && negb (Nat.eqb dir 0))%bool then (dir - 1)%nat else dir in
    Some (drop dir filename).

(** The entries of [filesystem_table]; [None] is one that is not in use. *)
Fixpoint lookup_from (i : nat) (path : list Z) (table : list (option (list Z))) (fs : option nat) (prefixlen : nat) : option nat :=
  match table with
  | [] => fs
  | None :: table => lookup_from (S i) path table fs prefixlen
  | Some mnt :: table =>
      let fspath := length mnt in
      if (bool_decide (fspath < prefixlen)%nat || negb (bool_decide (take fspath path = mnt)))%bool then lookup_from (S i) path table fs prefixlen
      else if (bool_decide (1 < fspath)%nat && bool_decide (fspath < length path)%nat && negb (nth fspath path 0 =? slash))%bool
      then lookup_from (S i) path table fs prefixlen
      else lookup_from (S i) path table (Some i) fspath
  end.
Definition dfs_filesystem_lookup (table : list (option (list Z))) (path : list Z) : option nat := lookup_from 0 path table None 0.

(** ** What a path means *)

(** The names of a path, in order; [cur] is the beginning of the next one. *)
Fixpoint comps (cur l : list Z) : list (list Z) :=
  match l with
  | [] => match cur with [] => [] | _ => [cur] end
  | c :: l => if c =? slash then match cur with [] => comps [] l | _ => cur :: comps [] l end else comps (cur ++ [c]) l
  end.

(** A place in the tree: the names from the root down, the last one first; and whether it lies below the root, or
    the root has been left by one step. *)
Definition place : Type := bool * list (list Z).

(** The parent; [None] is two steps above the root. *)
Definition parent (p : place) : option place :=
  match p.2 with
  | _ :: ns => Some (p.1, ns)
  | [] => if p.1 then Some (false, []) else None
  end.

Definition enter (p : place) (n : list Z) : option place :=
  if bool_decide (n = [dot]) then Some p
  else if bool_decide (n = [dot; dot]) then parent p
  else Some (p.1, n :: p.2).

Fixpoint resolve (p : place) (ns : list (list Z)) : option place :=
  match ns with [] => Some p | n :: ns => p ← enter p n; resolve p ns end.

(** The text of a place as a directory, and without the slash behind it. *)
Definition dir_text (p : place) : list Z := (if p.1 then [slash] else []) ++ concat ((fun n => n ++ [slash]) <$> reverse p.2).
Definition place_text (p : place) : list Z := match p.2 with [] => dir_text p | n :: ns => dir_text (p.1, ns) ++ n end.

(** ** The buffer *)

(** What has been written, what lies between the pointers, what is still to be read. *)
Definition mk (D G R : list Z) : np := Np (D ++ G ++ R) (length D + length G) (length D).

Lemma mk_eq D G R b i d : b = D ++ G ++ R -> i = (length D + length G)%nat -> d = length D -> Np b i d = mk D G R.
Proof. by intros -> -> ->. Qed.

Lemma rd_mk D G R j c : R !! j = Some c -> rd (length D + length G + j) (mk D G R) = Done c (mk D G R).
Proof.
  intros H. apply deref_some. cbn. rewrite app_assoc, lookup_app_r; rewrite length_app; [|lia].
  by replace (length D + length G + j - (length D + length G))%nat with j by lia.
Qed.

Lemma rd_mk_0 D G R c : rd (length D + length G) (mk D G (c :: R)) = Done c (mk D G (c :: R)).
Proof. rewrite <- (Nat.add_0_r (length D + length G)). by apply rd_mk. Qed.

Lemma set_src_mk D G A R : set_src (length D + length G + length A) (mk D G (A ++ R)) = Done tt (mk D (G ++ A) R).
Proof. unfold set_src, modify. f_equal. apply mk_eq; cbn; [by rewrite <- !app_assoc|rewrite length_app; lia|done]. Qed.

Lemma src_back_mk D G A R : set_src (length D + length (G ++ A) - length A) (mk D (G ++ A) R) = Done tt (mk D G (A ++ R)).
Proof. unfold set_src, modify. f_equal. apply mk_eq; cbn; [by rewrite <- !app_assoc|rewrite length_app; lia|done]. Qed.

Lemma set_dst_mk D A G R : set_dst (length D) (mk (D ++ A) G R) = Done tt (mk D (A ++ G) R).
Proof. unfold set_dst, modify. f_equal. apply mk_eq; cbn; [by rewrite <- !app_assoc|rewrite !length_app; lia|done]. Qed.

Lemma set_src_to k D G A R T : length A = k -> T = A ++ R -> set_src (length D + length G + k) (mk D G T) = Done tt (mk D (G ++ A) R).
Proof. intros <- ->. apply set_src_mk. Qed.

Lemma set_src_S D G c R : set_src (S (length D + length G)) (mk D G (c :: R)) = Done tt (mk D (G ++ [c]) R).
Proof. rewrite <- (set_src_mk D G [c] R). f_equal. cbn. lia. Qed.

Lemma next_mk D G c R : next (mk D G (c :: R)) = Done c (mk D (G ++ [c]) R).
Proof. unfold next, src. mstep. cbn [np_src mk]. rewrite (after (rd_mk_0 D G R c)). by rewrite (after (set_src_S D G c R)). Qed.

Lemma wr_mk D g G R c : wr (length D) c (mk D (g :: G) R) = Done tt (Np (D ++ (c :: G) ++ R) (length D + length (g :: G)) (length D)).
Proof.
  unfold wr. rewrite bool_decide_true by (cbn; rewrite length_app; cbn; lia). cbn. do 2 f_equal.
  rewrite insert_app_r_alt by lia. by rewrite Nat.sub_diag.
Qed.

Lemma emit_mk D g G R c : emit c (mk D (g :: G) R) = Done tt (mk (D ++ [c]) G R).
Proof.
  unfold emit, dst. mstep. cbn [np_dst mk]. rewrite (after (wr_mk D g G R c)). unfold set_dst, modify. cbn [np_buf np_src]. f_equal.
  apply mk_eq; [by rewrite <- !app_assoc|rewrite length_app; cbn; lia|rewrite length_app; cbn; lia].
Qed.

(** ** The inner loops *)

(** A text without slashes and NULs. *)
Definition plain (n : list Z) : Prop := Forall (fun c => c <> slash /\ c <> 0) n.

Lemma skip_slashes_mk k : forall fuel D G c R, (k < fuel)%nat -> c <> slash ->
  skip_slashes fuel (mk D G (replicate k slash ++ c :: R)) = Done tt (mk D (G ++ replicate k slash) (c :: R)).
Proof.
  induction k as [|k IH]; intros [|fuel] D G c R Hf Hc; try lia; cbn [skip_slashes replicate app]; unfold src; mstep; cbn [np_src mk].
  - rewrite (after (rd_mk_0 D G R c)). rewrite (proj2 (Z.eqb_neq _ _) Hc). cbn [andb]. by rewrite app_nil_r.
  - rewrite (after (rd_mk_0 D G _ slash)). change ((slash =? slash) && negb (slash =? 0))%bool with true. cbv iota.
    rewrite (after (set_src_S D G slash _)), IH by (done || lia). by rewrite <- app_assoc.
Qed.

Lemma copy_name_mk n : forall fuel D G c R, (length n < fuel)%nat -> plain n -> c = slash \/ c = 0 ->
  exists g G', copy_name fuel (mk D G (n ++ c :: R)) = Done c (mk (D ++ n) (g :: G') R) /\ length G' = length G.
Proof.
  induction n as [|x n IH]; intros [|fuel] D G c R Hf Hn Hc; cbn [length] in *; try lia; cbn [copy_name app]; rewrite (after (next_mk D G _ _)).
  - rewrite app_nil_r. destruct (G ++ [c]) as [|g G'] eqn:E; [by destruct G|]. exists g, G'. apply (f_equal length) in E. rewrite length_app in E. cbn in E. split; [by destruct Hc as [-> | ->]|lia].
  - apply Forall_cons in Hn as [[Hx1 Hx2] Hn]. rewrite (proj2 (Z.eqb_neq _ _) Hx1), (proj2 (Z.eqb_neq _ _) Hx2). cbn [negb andb].
    destruct (G ++ [x]) as [|g G'] eqn:E; [by destruct G|]. apply (f_equal length) in E. rewrite length_app in E. cbn in E. rewrite (after (emit_mk D g G' _ x)).
    destruct (IH fuel (D ++ [x]) G' c R) as (g1 & G1 & E1 & L1); [lia|done..|]. exists g1, G1. rewrite E1, <- app_assoc. split; [done|lia].
Qed.

Lemma next_name_mk k : forall fuel D G c R, (S k < fuel)%nat -> c <> slash ->
  next_name fuel slash (mk D G (replicate k slash ++ c :: R)) = Done tt (mk D (G ++ replicate k slash ++ [c]) R).
Proof.
  induction k as [|k IH]; intros [|[|fuel]] D G c R Hf Hc; try lia; cbn [next_name replicate app]; change (slash =? slash) with true; cbv iota; rewrite (after (next_mk D G _ _)).
  - by rewrite (proj2 (Z.eqb_neq _ _) Hc).
  - specialize (IH (S fuel) D (G ++ [slash]) c R ltac:(lia) Hc). cbn [next_name] in IH. change (slash =? slash) with true in IH. cbv iota in IH.
    change (slash =? slash) with true. cbv iota. rewrite IH. by rewrite <- app_assoc.
Qed.

(** A directory text: empty, or with a slash at the end. *)
Definition dir_like (P : list Z) : Prop := P = [] \/ exists P', P = P' ++ [slash].

Lemma back_name_mk n : forall fuel P G R, (length n < fuel)%nat -> plain n -> dir_like P ->
  back_name fuel (mk (P ++ n) G R) = Done tt (mk P (n ++ G) R).
Proof.
  induction n as [|x n IH] using rev_ind; intros [|fuel] P G R Hf Hn HP; rewrite ?length_app in Hf; cbn [length] in *; try lia; cbn [back_name]; unfold dst; mstep; cbn [np_dst mk].
  - rewrite app_nil_r. destruct HP as [-> | [P' ->]]; [done|]. rewrite length_app. cbn [length]. rewrite Nat.add_1_r.
    erewrite bind_done; [|apply deref_some; cbn; rewrite <- !app_assoc; by apply list_lookup_middle]. done.
  - apply Forall_app in Hn as [Hn [[Hx _] _]%Forall_cons]. rewrite app_assoc, length_app. cbn [length]. rewrite Nat.add_1_r.
    erewrite bind_done; [|apply deref_some; cbn; rewrite <- (app_assoc (P ++ n)); by apply list_lookup_middle].
    rewrite (proj2 (Z.eqb_neq _ _) Hx). cbn [negb]. rewrite (after (set_dst_mk (P ++ n) [x] G R)). rewrite IH by (done || lia). by rewrite <- app_assoc.
Qed.

(** ** One turn *)

(** The tests of known characters. *)
Ltac tests :=
  change (dot =? dot) with true; change (dot =? 0) with false; change (dot =? slash) with false; change (slash =? 0) with false;
  change (slash =? slash) with true; change (0 =? 0) with true; change (0 =? slash) with false; cbv iota.

Lemma look_copy fuel D G n c R : plain n -> c = slash \/ c = 0 -> n <> [dot] -> n <> [dot; dot] ->
  look_dots fuel (mk D G (n ++ c :: R)) = Done Copy (mk D G (n ++ c :: R)).
Proof.
  intros Hn Hc H1 H2. unfold look_dots, src. mstep. cbn [np_src mk]. destruct n as [|x n]; cbn [app].
  { rewrite (after (rd_mk_0 D G R c)). by destruct Hc as [-> | ->]. }
  rewrite (after (rd_mk_0 D G _ x)). destruct (Z.eqb_spec x dot) as [->|]; [|done]. apply Forall_cons in Hn as [_ Hn].
  destruct n as [|y n]; [done|]. apply Forall_cons in Hn as [[Hy1 Hy2] Hn].
  rewrite (after (rd_mk D G (dot :: (y :: n) ++ c :: R) 1 y eq_refl)).
  rewrite (proj2 (Z.eqb_neq _ _) Hy1), (proj2 (Z.eqb_neq _ _) Hy2). destruct (Z.eqb_spec y dot) as [->|]; [|done].
  destruct n as [|z n]; [done|]. apply Forall_cons in Hn as [[Hz1 Hz2] _].
  rewrite (after (rd_mk D G (dot :: (dot :: z :: n) ++ c :: R) 2 z eq_refl)). by rewrite (proj2 (Z.eqb_neq _ _) Hz1), (proj2 (Z.eqb_neq _ _) Hz2).
Qed.

Lemma look_dot_end fuel D G : look_dots fuel (mk D G [dot; 0]) = Done Copy (mk D (G ++ [dot]) [0]).
Proof.
  unfold look_dots, src. mstep. cbn [np_src mk]. rewrite (after (rd_mk_0 D G [0] dot)). tests.
  rewrite (after (rd_mk D G [dot; 0] 1 0 eq_refl)). tests. by rewrite (after (set_src_to 1 D G [dot] [0] [dot; 0] eq_refl eq_refl)).
Qed.

Lemma look_up_end fuel D G : look_dots fuel (mk D G [dot; dot; 0]) = Done UpOne (mk D (G ++ [dot; dot]) [0]).
Proof.
  unfold look_dots, src. mstep. cbn [np_src mk]. rewrite (after (rd_mk_0 D G [dot; 0] dot)). tests.
  rewrite (after (rd_mk D G [dot; dot; 0] 1 dot eq_refl)). tests.
  rewrite (after (rd_mk D G [dot; dot; 0] 2 0 eq_refl)). tests. by rewrite (after (set_src_to 2 D G [dot; dot] [0] [dot; dot; 0] eq_refl eq_refl)).
Qed.

Lemma look_dot fuel D G k x R : (k < fuel)%nat -> x <> slash ->
  look_dots fuel (mk D G (dot :: slash :: replicate k slash ++ x :: R)) = Done Continue (mk D (G ++ dot :: slash :: replicate k slash) (x :: R)).
Proof.
  intros Hk Hx. unfold look_dots, src. mstep. cbn [np_src mk]. rewrite (after (rd_mk_0 D G _ dot)). tests.
  rewrite (after (rd_mk D G (dot :: slash :: replicate k slash ++ x :: R) 1 slash eq_refl)). tests.
  rewrite (after (set_src_to 2 D G [dot; slash] (replicate k slash ++ x :: R) (dot :: slash :: replicate k slash ++ x :: R) eq_refl eq_refl)). rewrite (after (skip_slashes_mk k fuel D _ x R Hk Hx)). by rewrite <- app_assoc.
Qed.

Lemma look_up fuel D G k x R : (k < fuel)%nat -> x <> slash ->
  look_dots fuel (mk D G (dot :: dot :: slash :: replicate k slash ++ x :: R)) = Done UpOne (mk D (G ++ dot :: dot :: slash :: replicate k slash) (x :: R)).
Proof.
  intros Hk Hx. unfold look_dots, src. mstep. cbn [np_src mk]. rewrite (after (rd_mk_0 D G _ dot)). tests.
  rewrite (after (rd_mk D G (dot :: dot :: slash :: replicate k slash ++ x :: R) 1 dot eq_refl)). tests.
  rewrite (after (rd_mk D G (dot :: dot :: slash :: replicate k slash ++ x :: R) 2 slash eq_refl)). tests.
  rewrite (after (set_src_to 3 D G [dot; dot; slash] (replicate k slash ++ x :: R) (dot :: dot :: slash :: replicate k slash ++ x :: R) eq_refl eq_refl)). rewrite (after (skip_slashes_mk k fuel D _ x R Hk Hx)). by rewrite <- app_assoc.
Qed.

(** A place whose names are names. *)
Definition place_ok (p : place) : Prop := Forall (fun n => plain n /\ n <> []) p.2.

Lemma dir_text_cons r n ns : dir_text (r, n :: ns) = dir_text (r, ns) ++ n ++ [slash].
Proof. unfold dir_text. cbn [fst snd]. rewrite reverse_cons, fmap_app, concat_app. cbn. by rewrite app_nil_r, <- !app_assoc. Qed.

Lemma dir_text_like p : dir_like (dir_text p).
Proof.
  destruct p as [r [|n ns]]; [destruct r; [right; by exists []|by left]|]. right. exists (dir_text (r, ns) ++ n). by rewrite dir_text_cons, app_assoc.
Qed.

Lemma dir_text_nil p : place_ok p -> dir_text p = [] -> p = (false, []).
Proof. destruct p as [r [|n ns]]; [by destruct r|]. intros _ H. rewrite dir_text_cons in H. apply app_eq_nil in H as [_ H]. by apply app_eq_nil in H as [_ H]. Qed.

Lemma up_one_mk fuel p G R : place_ok p -> (length (dir_text p) <= fuel)%nat ->
  match parent p with
  | None => up_one fuel (mk (dir_text p) G R) = Done Null (mk (dir_text p) G R)
  | Some p' => place_ok p' /\ exists G', up_one fuel (mk (dir_text p) G R) = Done Continue (mk (dir_text p') G' R) /\
      (length (dir_text p') + length G' = length (dir_text p) + length G)%nat
  end.
Proof.
  intros HP Hf. unfold up_one, dst. destruct p as [r [|n ns]]; cbn [parent fst snd].
  - destruct r; [|done]. split; [done|]. mstep. cbn [np_dst mk]. change (dir_text (true, [])) with ([] ++ [slash]). cbn [length app].
    erewrite bind_done by apply (set_dst_mk [] [slash] G R). exists ([slash] ++ G).
    erewrite bind_done by (apply (back_name_mk [] fuel [] ([slash] ++ G) R); [cbn in *; lia|constructor|by left]). split; [done|cbn; lia].
  - apply Forall_cons in HP as [[Hn _] HP]. split; [done|]. mstep. cbn [np_dst mk]. rewrite dir_text_cons, app_assoc in *.
    rewrite !length_app in *. cbn [length] in *. replace (length (dir_text (r, ns)) + length n + 1)%nat with (S (length (dir_text (r, ns) ++ n))) by (rewrite length_app; lia).
    rewrite (after (set_dst_mk (dir_text (r, ns) ++ n) [slash] G R)). exists (n ++ [slash] ++ G).
    erewrite bind_done by (apply back_name_mk; [lia|done|apply dir_text_like]). split; [done|]. rewrite !length_app. cbn [length]. lia.
Qed.

(** A name with slashes behind it. *)
Lemma turn_mid fuel p G n k x R : place_ok p -> plain n -> n <> [] -> x <> slash ->
  (length (dir_text p) + length G + length n + k + 2 <= fuel)%nat ->
  match enter p n with
  | None => exists s, path_turn fuel (mk (dir_text p) G (n ++ slash :: replicate k slash ++ x :: R)) = Done Null s
  | Some p' => place_ok p' /\ exists G', path_turn fuel (mk (dir_text p) G (n ++ slash :: replicate k slash ++ x :: R)) = Done Continue (mk (dir_text p') G' (x :: R)) /\
      (length (dir_text p') + length G' = length (dir_text p) + length G + length n + k + 1)%nat
  end.
Proof.
  intros HP Hn Hn0 Hx Hf. unfold enter, path_turn. case_bool_decide as H1; [|case_bool_decide as H2].
  - subst n. cbn [app]. rewrite (after (look_dot fuel (dir_text p) G k x R ltac:(lia) Hx)). split; [done|]. eexists. split; [reflexivity|].
    rewrite length_app. cbn [length]. rewrite length_replicate. lia.
  - subst n. cbn [app]. rewrite (after (look_up fuel (dir_text p) G k x R ltac:(lia) Hx)). cbn [length] in Hf.
    pose proof (up_one_mk fuel p (G ++ dot :: dot :: slash :: replicate k slash) (x :: R) HP ltac:(lia)) as HU. destruct (parent p) as [p'|]; [|eauto].
    destruct HU as (HP' & G' & E & L). split; [done|]. exists G'. split; [exact E|]. rewrite length_app in L. cbn [length] in *. rewrite length_replicate in L. lia.
  - rewrite (after (look_copy fuel (dir_text p) G n slash _ Hn (or_introl eq_refl) H1 H2)).
    destruct (copy_name_mk n fuel (dir_text p) G slash (replicate k slash ++ x :: R) ltac:(lia) Hn (or_introl eq_refl)) as (g & G1 & E & L).
    rewrite (after E). tests. rewrite (after (emit_mk (dir_text p ++ n) g G1 _ slash)).
    rewrite (after (next_name_mk k fuel _ G1 x R ltac:(lia) Hx)). unfold src. mstep. cbn [np_src mk]. rewrite (app_assoc G1). 
    rewrite (after (src_back_mk ((dir_text p ++ n) ++ [slash]) (G1 ++ replicate k slash) [x] R)). split; [by constructor|].
    exists (G1 ++ replicate k slash). destruct p as [r ns]. cbn [fst snd]. rewrite dir_text_cons, <- app_assoc. split; [done|].
    rewrite !length_app, length_replicate. cbn [length]. lia.
Qed.

(** The slashes in front of a path. *)
Lemma turn_root fuel k x R : x <> slash -> (k + 2 <= fuel)%nat ->
  exists G', path_turn fuel (mk [] [] (slash :: replicate k slash ++ x :: R)) = Done Continue (mk [slash] G' (x :: R)) /\ length G' = k.
Proof.
  intros Hx Hf. unfold path_turn. assert (Hn : plain []) by constructor.
  rewrite (after (look_copy fuel [] [] [] slash (replicate k slash ++ x :: R) Hn (or_introl eq_refl) ltac:(done) ltac:(done))).
  destruct (copy_name_mk [] fuel [] [] slash (replicate k slash ++ x :: R) ltac:(cbn; lia) Hn (or_introl eq_refl)) as (g & G1 & E & L).
  cbn [app] in E. rewrite (after E). tests. rewrite (after (emit_mk [] g G1 _ slash)). rewrite (after (next_name_mk k fuel _ G1 x R ltac:(lia) Hx)).
  unfold src. mstep. cbn [np_src mk]. rewrite (app_assoc G1). rewrite (after (src_back_mk [slash] (G1 ++ replicate k slash) [x] R)).
  exists (G1 ++ replicate k slash). split; [done|]. rewrite length_app, length_replicate. cbn in L. lia.
Qed.

(** The last name. *)
Lemma turn_last fuel p G n : place_ok p -> plain n -> n <> [dot; dot] -> (length n < fuel)%nat ->
  let m := if bool_decide (n = [dot]) then [] else n in
  exists g G', path_turn fuel (mk (dir_text p) G (n ++ [0])) = Done Break (mk (dir_text p ++ m) (g :: G') []).
Proof.
  intros HP Hn H2 Hf m. unfold path_turn, m. case_bool_decide as H1.
  - subst n. cbn [app]. rewrite (after (look_dot_end fuel (dir_text p) G)).
    destruct (copy_name_mk [] fuel (dir_text p) (G ++ [dot]) 0 [] ltac:(cbn in *; lia) ltac:(constructor) (or_intror eq_refl)) as (g & G1 & E & _).
    cbn [app] in E. rewrite (after E). by exists g, G1.
  - rewrite (after (look_copy fuel (dir_text p) G n 0 [] Hn (or_intror eq_refl) H1 H2)).
    destruct (copy_name_mk n fuel (dir_text p) G 0 [] Hf Hn (or_intror eq_refl)) as (g & G1 & E & _). rewrite (after E). by exists g, G1.
Qed.

Lemma turn_last_up fuel p G : place_ok p -> (length (dir_text p) <= fuel)%nat ->
  match parent p with
  | None => exists s, path_turn fuel (mk (dir_text p) G [dot; dot; 0]) = Done Null s
  | Some p' => place_ok p' /\ exists G', path_turn fuel (mk (dir_text p) G [dot; dot; 0]) = Done Continue (mk (dir_text p') G' [0])
  end.
Proof.
  intros HP Hf. unfold path_turn. rewrite (after (look_up_end fuel (dir_text p) G)). pose proof (up_one_mk fuel p (G ++ [dot; dot]) [0] HP Hf) as HU.
  destruct (parent p) as [p'|]; [|eauto]. destruct HU as (HP' & G' & E & _). eauto.
Qed.

(** ** Names *)

Lemma comps_plain n : forall cur, plain n -> comps cur n = match cur ++ n with [] => [] | l => [l] end.
Proof.
  induction n as [|c n IH]; intros cur Hn; cbn [comps]; [rewrite app_nil_r; by destruct cur|].
  apply Forall_cons in Hn as [[Hc _] Hn]. rewrite (proj2 (Z.eqb_neq _ _) Hc), IH by done. by rewrite <- app_assoc.
Qed.

Lemma comps_mid n l : forall cur, plain n -> cur ++ n <> [] -> comps cur (n ++ slash :: l) = (cur ++ n) :: comps [] l.
Proof.
  induction n as [|c n IH]; intros cur Hn Hne; cbn [comps app]; [rewrite app_nil_r in *; by destruct cur|].
  apply Forall_cons in Hn as [[Hc _] Hn]. rewrite (proj2 (Z.eqb_neq _ _) Hc), IH; [by rewrite <- app_assoc|done|by destruct cur].
Qed.

Lemma comps_slashes k l : comps [] (replicate k slash ++ l) = comps [] l.
Proof. by induction k. Qed.

(** The text of a path has no NUL. *)
Definition path_chars (l : list Z) : Prop := Forall (fun c => c <> 0) l.

Lemma split_name r : path_chars r -> exists n, plain n /\
  (r = n \/ exists k r', r = n ++ slash :: replicate k slash ++ r' /\ hd 0 r' <> slash /\ path_chars r').
Proof.
  induction r as [|c r IH]; intros Hr; [exists []; split; [constructor|by left]|].
  apply Forall_cons in Hr as [Hc Hr]. destruct (IH Hr) as (n & Hn & HD). destruct (decide (c = slash)) as [->|Hs].
  - exists []. split; [constructor|]. right. destruct n as [|x n].
    + destruct HD as [-> | (k & r' & -> & Hh & Hp)]; [by exists 0%nat, []|]. by exists (S k), r'.
    + exists 0%nat, r. split; [done|]. split; [|done]. apply Forall_cons in Hn as [[Hx _] _].
      destruct HD as [-> | (k & r' & -> & _)]; exact Hx.
  - exists (c :: n). split; [by constructor|]. destruct HD as [-> | (k & r' & -> & Hh & Hp)]; [by left|]. right. by exists k, r'.
Qed.

(** ** The loop *)

(** The text written so far, when the loop ends at the place [q]. *)
Definition ends_at (D : list Z) (q : place) : Prop :=
  place_ok q /\ (D = dir_text q \/ exists n ns, q.2 = n :: ns /\ D = dir_text (q.1, ns) ++ n).

Lemma hd_zero r : path_chars r -> hd 0 r <> slash -> exists x R, r ++ [0] = x :: R /\ x <> slash.
Proof. intros Hr Hh. destruct r as [|x r]; [by exists 0, []|]. by exists x, (r ++ [0]). Qed.

Lemma last_turns fuel turns p G n : place_ok p -> plain n -> (2 <= turns)%nat -> (length (dir_text p) + length n < fuel)%nat ->
  match resolve p (comps [] n) with
  | None => exists s, path_loop fuel turns (mk (dir_text p) G (n ++ [0])) = Done Null s
  | Some q => exists D g G', path_loop fuel turns (mk (dir_text p) G (n ++ [0])) = Done Break (mk D (g :: G') []) /\ ends_at D q
  end.
Proof.
  intros HP Hn Ht Hf. destruct turns as [|[|turns]]; [lia|lia|]. rewrite comps_plain by done. cbn [app].
  destruct (decide (n = [dot; dot])) as [->|H2].
  - cbn [resolve]. change (enter p [dot; dot]) with (parent p). pose proof (turn_last_up fuel p G HP ltac:(cbn in Hf; lia)) as HU. cbn [app].
    destruct (parent p) as [p'|]; cbn [mbind option_bind].
    + destruct HU as (HP' & G' & E). destruct (turn_last fuel p' G' [] HP' ltac:(constructor) ltac:(done) ltac:(cbn in *; lia)) as (g & G2 & E2).
      cbn [path_loop]. rewrite (after E). cbn [app] in E2. rewrite bool_decide_false, app_nil_r in E2 by done. rewrite (after E2).
      exists (dir_text p'), g, G2. split; [done|]. split; [done|by left].
    + destruct HU as [s E]. exists s. cbn [path_loop]. by rewrite (after E).
  - destruct (turn_last fuel p G n HP Hn H2 ltac:(lia)) as (g & G' & E). 
    assert (HR : exists q, resolve p (match n with [] => [] | z :: l => [z :: l] end) = Some q /\ ends_at (dir_text p ++ (if bool_decide (n = [dot]) then [] else n)) q).
    { destruct n as [|c n]; [exists p; split; [done|]; split; [done|left; by rewrite bool_decide_false, app_nil_r]|].
      cbn [resolve]. unfold enter. case_bool_decide as H1; [exists p; split; [done|]; split; [done|left; by rewrite app_nil_r]|].
      rewrite bool_decide_false by done. eexists. split; [reflexivity|]. split; [by constructor|]. right. eexists _, _. split; [reflexivity|]. by destruct p. }
    destruct HR as (q & -> & Hq). exists (dir_text p ++ (if bool_decide (n = [dot]) then [] else n)), g, G'. split; [|done]. cbn [path_loop]. by rewrite (after E).
Qed.

Lemma path_loop_done turns : forall fuel r p G, place_ok p -> path_chars r -> hd 0 r <> slash -> (S (length r) < turns)%nat ->
  (length (dir_text p) + length G + length r + 1 <= fuel)%nat ->
  match resolve p (comps [] r) with
  | None => exists s, path_loop fuel turns (mk (dir_text p) G (r ++ [0])) = Done Null s
  | Some q => exists D g G', path_loop fuel turns (mk (dir_text p) G (r ++ [0])) = Done Break (mk D (g :: G') []) /\ ends_at D q
  end.
Proof.
  induction turns as [|turns IH]; intros fuel r p G HP Hr Hh Ht Hf; [lia|].
  destruct (split_name r Hr) as (n & Hn & [-> | (k & r' & -> & Hh' & Hr')]); [apply last_turns; [done|done|lia|lia]|].
  rewrite !length_app in *. cbn [length] in *. rewrite !length_app, length_replicate in *.
  assert (Hn0 : n <> []) by (by intros ->). rewrite comps_mid, comps_slashes by done. cbn [app resolve].
  destruct (hd_zero r' Hr' Hh') as (x & R & ER & Hx). rewrite <- !app_assoc. cbn [app]. rewrite <- app_assoc, ER.
  pose proof (turn_mid fuel p G n k x R HP Hn Hn0 Hx ltac:(lia)) as HT. destruct (enter p n) as [p'|]; cbn [mbind option_bind path_loop].
  - destruct HT as (HP' & G' & E & L). rewrite (after E). rewrite <- ER. apply IH; [done..|lia|lia].
  - destruct HT as [s E]. exists s. by rewrite (after E).
Qed.

(** ** The end *)

Lemma string_in_app T X : path_chars T -> string_in (T ++ 0 :: X) = T.
Proof. induction 1 as [|c T Hc _ IH]; cbn; [done|]. by rewrite (proj2 (Z.eqb_neq _ _) Hc), IH. Qed.

Lemma path_end_done T y g G : path_chars (T ++ [y]) ->
  exists s, path_end (mk (T ++ [y]) (g :: G) []) = Done (if (negb (Nat.eqb (length T) 0) && (y =? slash))%bool then T else T ++ [y]) s.
Proof.
  intros HC. unfold path_end, dst. mstep. cbn [np_dst mk]. rewrite (after (wr_mk (T ++ [y]) g G [] 0)).
  rewrite length_app. cbn [length]. rewrite Nat.add_1_r, app_nil_r, <- app_assoc. cbn [app]. set (i := (S (length T) + S (length G))%nat). set (d := S (length T)).
  assert (E0 : forall x X, T ++ y :: X = x :: tail (T ++ y :: X) -> x <> 0).
  { intros x X E. apply Forall_app in HC as [HT HY]. destruct T as [|t T]; cbn in E; injection E as <-; [by apply Forall_cons in HY as [? _]|by apply Forall_cons in HT as [? _]]. }
  rewrite bind_assoc. erewrite bind_done; [|apply deref_some; cbn; by apply list_lookup_middle].
  destruct (negb (Nat.eqb (length T) 0) && (y =? slash))%bool eqn:Ec; cbn [when].
  - apply andb_true_iff in Ec as [Hl _]. apply negb_true_iff, Nat.eqb_neq in Hl.
    assert (EW : wr (length T) 0 (Np (T ++ y :: 0 :: G) i d) = Done tt (Np (T ++ 0 :: 0 :: G) i d)).
    { unfold wr. cbn. rewrite bool_decide_true by (rewrite length_app; cbn; lia). rewrite insert_app_r_alt by lia. by rewrite Nat.sub_diag. }
    rewrite (after EW). destruct T as [|t T]; [done|]. unfold rd at 1. erewrite bind_done by (apply deref_some; reflexivity).
    rewrite (proj2 (Z.eqb_neq t 0)) by (by apply (E0 t [])). cbn [when]. msteps. eexists. unfold gets. cbn [np_buf]. f_equal. apply string_in_app. by apply Forall_app in HC as [HC _].
  - mstep. assert (exists t X, T ++ y :: 0 :: G = t :: X /\ t <> 0) as (t & X & ET & Ht).
    { destruct (T ++ y :: 0 :: G) as [|t X] eqn:E; [by destruct T|]. exists t, X. split; [done|]. apply (E0 t (0 :: G)). by rewrite E. }
    unfold rd at 1. erewrite bind_done by (apply deref_some; cbn; by rewrite ET). rewrite (proj2 (Z.eqb_neq t 0) Ht). cbn [when]. msteps.
    eexists. unfold gets. cbn [np_buf]. f_equal. change (y :: 0 :: G) with ([y] ++ 0 :: G). rewrite app_assoc. by apply string_in_app.
Qed.

Lemma dir_text_chars p : place_ok p -> path_chars (dir_text p).
Proof.
  destruct p as [r ns]. unfold place_ok. cbn [snd]. induction 1 as [|n ns [Hn _] _ IH]; [destruct r; by repeat constructor|].
  rewrite dir_text_cons. apply Forall_app. split; [done|]. apply Forall_app. split; [eapply Forall_impl; [exact Hn|naive_solver]|by repeat constructor].
Qed.

Lemma path_end_place D q g G : ends_at D q ->
  match q with
  | (false, []) => path_end (mk D (g :: G) []) = Stop Undefined
  | _ => exists s, path_end (mk D (g :: G) []) = Done (place_text q) s
  end.
Proof.
  intros [HP HD]. destruct q as [r [|n ns]]; cbn [fst snd] in *.
  - destruct HD as [-> | (n & ns & ? & _)]; [|done]. destruct r.
    + destruct (path_end_done [] slash g G) as (s & E); [by repeat constructor|]. by exists s.
    + unfold path_end, dst. mstep. cbn [np_dst mk]. by rewrite (after (wr_mk [] g G [] 0)).
  - assert (HG : exists s, path_end (mk D (g :: G) []) = Done (dir_text (r, ns) ++ n) s); [|destruct r; exact HG].
    pose proof (dir_text_chars _ HP) as HC. rewrite dir_text_cons in HC. apply Forall_cons in HP as [[Hn Hn0] _]. destruct HD as [-> | (n' & ns' & [= <- <-] & ->)].
    + rewrite dir_text_cons, app_assoc in *. destruct (path_end_done (dir_text (r, ns) ++ n) slash g G HC) as (s & E).
      exists s. rewrite E, length_app. destruct n; [done|]. cbn [length]. by rewrite Nat.add_succ_r.
    + destruct n as [|y n _] using rev_ind; [done|]. apply Forall_app in Hn as [_ [[Hy _] _]%Forall_cons]. rewrite !app_assoc in *.
      apply Forall_app in HC as [HC _]. destruct (path_end_done _ y g G HC) as (s & E). exists s. by rewrite E, (proj2 (Z.eqb_neq _ _) Hy), andb_false_r.
Qed.

(** What [dfs_normalize_path] gives for an absolute path. *)
Definition normal_form (path : list Z) : option (option (list Z)) :=
  match resolve (true, []) (comps [] path) with
  | None => Some None
  | Some (false, []) => None
  | Some p => Some (Some (place_text p))
  end.

Lemma normalize_done directory filename : hd 0 (full_path directory filename) = slash -> path_chars (full_path directory filename) ->
  match normal_form (full_path directory filename) with
  | Some r => exists s, dfs_normalize_path true directory filename = Done r s
  | None => dfs_normalize_path true directory filename = Stop Undefined
  end.
Proof.
  intros Hh HC. unfold dfs_normalize_path. cbn [negb]. set (path := full_path directory filename) in *. clearbody path.
  destruct path as [|c path]; [done|]. cbn in Hh. subst c. unfold normal_form.
  destruct (split_name (slash :: path) HC) as (n & Hn & [E|(k & r & E & Hr & HCr)]); [subst n; apply Forall_cons in Hn as [[? _] _]; done|].
  destruct n as [|c n]; [|injection E as <- _; apply Forall_cons in Hn as [[? _] _]; done]. cbn [app] in E. injection E as ->.
  change (comps [] (slash :: replicate k slash ++ r)) with (comps [] (replicate (S k) slash ++ r)). rewrite comps_slashes.
  set (fuel := S (length (slash :: replicate k slash ++ r))). assert (Hfu : fuel = (2 + k + length r)%nat) by (unfold fuel; cbn; rewrite length_app, length_replicate; lia).
  change (Np _ 0 0) with (mk [] [] ((slash :: replicate k slash ++ r) ++ [0])). cbn [app]. rewrite <- app_assoc.
  destruct (hd_zero r HCr Hr) as (x & R & ER & Hx). rewrite ER. destruct (turn_root fuel k x R Hx ltac:(lia)) as (G & E & LG).
  rewrite <- ER in *. change [slash] with (dir_text (true, [])) in E.
  pose proof (path_loop_done fuel fuel r (true, []) G ltac:(constructor) HCr Hr ltac:(lia) ltac:(cbn; lia)) as HL.
  change (path_loop fuel (S fuel)) with (t <- path_turn fuel;; match t with Continue => path_loop fuel fuel | t => ret t end).
  rewrite bind_assoc, (after E). destruct (resolve (true, []) (comps [] r)) as [q|].
  - destruct HL as (D & g & G' & EL & Hq). rewrite (after EL). pose proof (path_end_place D q g G' Hq) as HE.
    destruct q as [[|] [|n ns]]; try (destruct HE as (s & HE); exists s; by rewrite (after HE)). unfold bind. by rewrite HE.
  - destruct HL as (s & EL). exists s. by rewrite (after EL).
Qed.

(** ** Mounted file systems *)

(** [mnt] is the root, or [path] itself, or a directory above it. *)
Definition mounted_above (mnt path : list Z) : Prop := take (length mnt) path = mnt /\ ((length mnt <= 1)%nat \/ length path = length mnt \/ nth (length mnt) path 0 = slash).

#[export] Instance mounted_above_dec mnt path : Decision (mounted_above mnt path).
Proof. unfold mounted_above. solve_decision. Defined.

(** The two tests of an entry. *)
Lemma entry_tests mnt path prefixlen :
  let skip := (bool_decide (length mnt < prefixlen)%nat || negb (bool_decide (take (length mnt) path = mnt)))%bool in
  let cut := (bool_decide (1 < length mnt)%nat && bool_decide (length mnt < length path)%nat && negb (nth (length mnt) path 0 =? slash))%bool in
  (skip || cut)%bool = true <-> (length mnt < prefixlen)%nat \/ ~ mounted_above mnt path.
Proof.
  cbv zeta. unfold mounted_above. destruct (decide (take (length mnt) path = mnt)) as [E|E].
  2:{ rewrite (bool_decide_false (take _ _ = _)) by done. rewrite orb_true_r. cbn. split; [|done]. intros _. right. naive_solver. }
  rewrite (bool_decide_true (take _ _ = _)) by done. cbn [negb]. rewrite orb_false_r.
  assert (length mnt <= length path)%nat by (apply (f_equal length) in E; rewrite length_take in E; lia).
  rewrite orb_true_iff, !andb_true_iff, negb_true_iff, Z.eqb_neq, !bool_decide_eq_true. split.
  - intros [H1|[[H1 H2] H3]]; [by left|right]. intros [_ [?|[?|?]]]; lia || done.
  - intros [H1|H1]; [by left|]. destruct (decide (1 < length mnt)%nat); [|exfalso; apply H1; split; [done|lia]].
    destruct (decide (length path = length mnt)); [exfalso; apply H1; split; [done|lia]|].
    right. split; [lia|]. intros H2. apply H1. split; [done|]. by right; right.
Qed.

Lemma lookup_from_done path table : forall i fs prefixlen, let r := lookup_from i path table fs prefixlen in
  (r = fs /\ forall j mnt, table !! j = Some (Some mnt) -> mounted_above mnt path -> (length mnt < prefixlen)%nat) \/
  (exists j mnt, r = Some (i + j)%nat /\ table !! j = Some (Some mnt) /\ mounted_above mnt path /\ (prefixlen <= length mnt)%nat /\
    forall j' mnt', table !! j' = Some (Some mnt') -> mounted_above mnt' path -> (length mnt' <= length mnt)%nat).
Proof.
  induction table as [|e table IH]; intros i fs prefixlen; [by left|].
  assert (HS : (forall mnt, e = Some mnt -> (length mnt < prefixlen)%nat \/ ~ mounted_above mnt path) ->
    let r := lookup_from (S i) path table fs prefixlen in
    (r = fs /\ forall j mnt, (e :: table) !! j = Some (Some mnt) -> mounted_above mnt path -> (length mnt < prefixlen)%nat) \/
    (exists j mnt, r = Some (i + j)%nat /\ (e :: table) !! j = Some (Some mnt) /\ mounted_above mnt path /\ (prefixlen <= length mnt)%nat /\
      forall j' mnt', (e :: table) !! j' = Some (Some mnt') -> mounted_above mnt' path -> (length mnt' <= length mnt)%nat)).
  { intros He r. destruct (IH (S i) fs prefixlen) as [[E Hn]|(j & mnt & E & H1 & H2 & H3 & H4)].
    - left. split; [done|]. intros [|j] mnt Hj HM; [|by eapply Hn]. injection Hj as ->. by destruct (He _ eq_refl).
    - right. exists (S j), mnt. split_and!; try done; [rewrite Nat.add_succ_r; exact E|]. intros [|j'] mnt' Hj HM; [|by eapply H4].
      injection Hj as ->. destruct (He _ eq_refl); [lia|done]. }
  cbn [lookup_from]. destruct e as [mnt|]; [|by apply HS].
  pose proof (entry_tests mnt path prefixlen) as HT. cbv zeta in HT.
  destruct (bool_decide (length mnt < prefixlen)%nat || negb (bool_decide (take (length mnt) path = mnt)))%bool eqn:E1.
  { apply HS. intros ? [= <-]. by apply HT. }
  destruct (_ && _ && _)%bool eqn:E2. { apply HS. intros ? [= <-]. by apply HT. }
  assert (HM : (prefixlen <= length mnt)%nat /\ mounted_above mnt path).
  { destruct (decide (length mnt < prefixlen)%nat) as [Hl|Hl]; [discriminate (proj2 HT (or_introl Hl))|]. split; [lia|].
    destruct (decide (mounted_above mnt path)) as [?|Hm]; [done|]. discriminate (proj2 HT (or_intror Hm)). }
  right. destruct (IH (S i) (Some i) (length mnt)) as [[E Hn]|(j & mnt' & E & H1 & H2 & H3 & H4)].
  - exists 0%nat, mnt. split_and!; try done; [by rewrite Nat.add_0_r|apply HM|apply HM|]. intros [|j'] mnt' Hj Hm; [by injection Hj as ->|]. pose proof (Hn _ _ Hj Hm). lia.
  - exists (S j), mnt'. split_and!; try done; [rewrite Nat.add_succ_r; exact E|lia|]. intros [|j'] mnt2 Hj Hm; [by injection Hj as <-|]. by eapply H4.
Qed.

(** ** Normal paths *)

(** A name that is entered. *)
Definition real_name (n : list Z) : Prop := plain n /\ n <> [] /\ n <> [dot] /\ n <> [dot; dot].

Lemma comps_ok l : forall cur, path_chars l -> plain cur -> Forall (fun n => plain n /\ n <> []) (comps cur l).
Proof.
  induction l as [|c l IH]; intros cur Hl Hc; cbn [comps].
  - destruct cur; [constructor|]. by apply Forall_singleton.
  - apply Forall_cons in Hl as [Hx Hl]. destruct (Z.eqb_spec c slash) as [->|Hs].
    + destruct cur; [apply IH; [done|constructor]|]. constructor; [done|]. apply IH; [done|constructor].
    + apply IH; [done|]. apply Forall_app. split; [done|]. by repeat constructor.
Qed.

Lemma enter_real p n q : Forall real_name p.2 -> plain n -> n <> [] -> enter p n = Some q -> Forall real_name q.2.
Proof.
  intros HP Hn Hn0. unfold enter, parent. case_bool_decide as H1; [by intros [= <-]|]. case_bool_decide as H2; [|intros [= <-]; by constructor].
  destruct p as [r [|m ns]]; cbn [fst snd] in *; [destruct r; [|done]; intros [= <-]; constructor|]. intros [= <-]. by apply Forall_cons in HP as [_ HP].
Qed.

Lemma resolve_real ns : forall p q, Forall real_name p.2 -> Forall (fun n => plain n /\ n <> []) ns -> resolve p ns = Some q -> Forall real_name q.2.
Proof.
  induction ns as [|n ns IH]; intros p q HP HN; cbn [resolve]; [by intros [= <-]|]. apply Forall_cons in HN as [[Hn Hn0] HN].
  destruct (enter p n) as [p'|] eqn:E; [|done]. cbn [mbind option_bind]. apply IH; [by eapply enter_real|done].
Qed.

Lemma resolve_names ns : forall p, Forall real_name ns -> resolve p ns = Some (p.1, reverse ns ++ p.2).
Proof.
  induction ns as [|n ns IH]; intros p HN; cbn [resolve]; [by destruct p|]. apply Forall_cons in HN as [(_ & _ & H1 & H2) HN].
  unfold enter. rewrite !bool_decide_false by done. cbn [mbind option_bind]. rewrite IH by done. by rewrite reverse_cons, <- app_assoc.
Qed.

Lemma comps_dir ns l : Forall real_name ns -> comps [] (dir_text (true, ns) ++ l) = reverse ns ++ comps [] l.
Proof.
  revert l. induction ns as [|n ns IH]; intros l HN; [done|]. apply Forall_cons in HN as [(Hn & Hn0 & _) HN].
  rewrite dir_text_cons, <- !app_assoc. cbn [app]. rewrite IH by done. rewrite comps_mid by done. by rewrite reverse_cons, <- app_assoc.
Qed.

(** The text of a place below the root is a path in normal form. *)
Lemma place_text_normal ns : Forall real_name ns -> hd 0 (place_text (true, ns)) = slash /\ normal_form (place_text (true, ns)) = Some (Some (place_text (true, ns))).
Proof.
  intros HN. assert (HC : comps [] (place_text (true, ns)) = reverse ns).
  { destruct ns as [|n ns]; [done|]. unfold place_text. cbn [fst snd]. apply Forall_cons in HN as [(Hn & Hn0 & _) HN].
    rewrite comps_dir, comps_plain by done. rewrite reverse_cons. by destruct n. }
  split; [by destruct ns as [|n ns]|]. unfold normal_form. rewrite HC, resolve_names by (by apply Forall_reverse). by rewrite reverse_involutive, app_nil_r.
Qed.

(** ** Theorems *)

(** C14: [dfs_normalize_path] resolves a path, name by name, on a stack: empty names and "." are dropped, ".." removes
    the name before it.  A path that stays below the root becomes a path in normal form, which is left as it is
    by another call; a path that leaves the root by one step comes out without its leading slash (or, if nothing
    follows, the byte in front of the buffer is read), and two steps above the root give NULL. *)
Theorem dfs_normalize_path_correct directory filename :
  let path := full_path directory filename in hd 0 path = slash -> path_chars path ->
  match resolve (true, []) (comps [] path) with
  | Some (true, ns) => let t := place_text (true, ns) in
      (exists s, dfs_normalize_path true directory filename = Done (Some t) s) /\ hd 0 t = slash /\
      (exists s, dfs_normalize_path true directory t = Done (Some t) s)
  | Some (false, []) => dfs_normalize_path true directory filename = Stop Undefined
  | Some (false, ns) => exists s, dfs_normalize_path true directory filename = Done (Some (place_text (false, ns))) s
  | None => exists s, dfs_normalize_path true directory filename = Done None s
  end.
Proof.
  intros path Hh HC. pose proof (normalize_done directory filename Hh HC) as HN. fold path in HN. unfold normal_form in HN.
  destruct (resolve (true, []) (comps [] path)) as [[[|] ns]|] eqn:ER; [|by destruct ns|done].
  assert (HR : Forall real_name ns) by (apply (resolve_real _ (true, []) _ ltac:(constructor)) in ER; [done|apply comps_ok; [done|constructor]]).
  destruct (place_text_normal ns HR) as [H1 H2]. set (t := place_text (true, ns)) in *. cbv zeta. split_and!; [done|done|].
  assert (EF : full_path directory t = t) by (unfold full_path; by rewrite H1). pose proof (normalize_done directory t) as HT. rewrite EF, H2 in HT. apply HT; [done|].
  assert (HP : place_ok (true, ns)) by (eapply Forall_impl; [exact HR|intros ? (? & ? & _); done]).
  unfold t, place_text. cbn [fst snd]. destruct ns as [|n ns]; [by apply dir_text_chars|]. apply Forall_cons in HP as [[Hn _] HP].
  apply Forall_app. split; [by apply dir_text_chars|]. eapply Forall_impl; [exact Hn|naive_solver].
Qed.

(** C37: [dfs_filesystem_lookup] finds, among the file systems mounted at the root, at the path itself or at a directory
    above it, one with the longest path, and NULL only if there is none; [dfs_subdir] then gives the
    rest of the path below the mount point, or NULL for the mount point itself. *)
Theorem dfs_filesystem_lookup_correct table path : hd 0 path = slash -> nth 1 path 0 <> slash ->
  (forall j mnt, table !! j = Some (Some mnt) -> hd 0 mnt = slash) ->
  match dfs_filesystem_lookup table path with
  | None => forall j mnt, table !! j = Some (Some mnt) -> ~ mounted_above mnt path
  | Some j => exists mnt, table !! j = Some (Some mnt) /\ mounted_above mnt path /\
      (forall j' mnt', table !! j' = Some (Some mnt') -> mounted_above mnt' path -> (length mnt' <= length mnt)%nat) /\
      match dfs_subdir mnt path with
      | None => path = mnt
      | Some r => hd 0 r = slash /\ (if bool_decide (mnt = [slash]) then r = path else mnt ++ r = path)
      end
  end.
Proof.
  intros Hp Hp1 Hm. unfold dfs_filesystem_lookup. destruct (lookup_from_done path table 0 None 0) as [[-> HN]|(j & mnt & -> & Hj & HM & _ & HL)].
  { intros j mnt Hj HM. pose proof (HN j mnt Hj HM). lia. }
  cbn [Nat.add]. exists mnt. split_and!; try done. pose proof (Hm j mnt Hj) as Hs. destruct HM as [HT HB].
  pose proof (take_drop (length mnt) path) as HD. rewrite HT in HD. unfold dfs_subdir. destruct (Nat.eqb_spec (length mnt) (length path)) as [E|E].
  { rewrite drop_ge in HD by lia. by rewrite app_nil_r in HD. }
  destruct mnt as [|c mnt]; [done|]. cbn in Hs. subst c. cbn [length] in *. case_bool_decide as H1.
  - injection H1 as ->. cbn [length] in *. rewrite (proj2 (Z.eqb_neq _ _) Hp1). cbn. by rewrite drop_0.
  - assert (H2 : nth (S (length mnt)) path 0 = slash). { destruct HB as [HB|[HB|HB]]; [destruct mnt; [done|cbn in HB; lia]|lia|done]. }
    rewrite H2. cbn [Z.eqb negb andb slash Pos.eqb]. split; [|done]. 
    assert (S (length mnt) < length path)%nat by (apply (f_equal length) in HT; rewrite length_take in HT; cbn [length] in HT; lia).
    destruct (lookup_lt_is_Some_2 path (S (length mnt))) as [x Hx]; [lia|]. rewrite (drop_S _ _ _ Hx). cbn. by rewrite (nth_lookup_Some _ _ _ _ Hx) in H2.
Qed.

(** ** Witnesses *)

Lemma dfs_normalize_path_correct_witness :
  (exists s, dfs_normalize_path true (chars_of "/") (chars_of "a/./b//../c/") = Done (Some (chars_of "/a/c")) s) /\
  (exists s, dfs_normalize_path true (chars_of "/") (chars_of "/../a") = Done (Some (chars_of "a")) s).
Proof.
  split.
  - destruct (dfs_normalize_path_correct (chars_of "/") (chars_of "a/./b//../c/")) as (H & _); [done|unfold path_chars; decided|exact H].
  - apply (dfs_normalize_path_correct (chars_of "/") (chars_of "/../a")); [done|unfold path_chars; decided].
Defined.

(** A file system at "/sd" beside the root. *)
Lemma dfs_filesystem_lookup_correct_witness :
  let table := [Some (chars_of "/"); Some (chars_of "/sd")] in
  (exists mnt, table !! 1%nat = Some (Some mnt) /\ mounted_above mnt (chars_of "/sd/x") /\
    (forall j' mnt', table !! j' = Some (Some mnt') -> mounted_above mnt' (chars_of "/sd/x") -> (length mnt' <= length mnt)%nat) /\
    match dfs_subdir mnt (chars_of "/sd/x") with
    | None => chars_of "/sd/x" = mnt
    | Some r => hd 0 r = slash /\ (if bool_decide (mnt = [slash]) then r = chars_of "/sd/x" else mnt ++ r = chars_of "/sd/x")
    end).
Proof.
  intros table. apply (dfs_filesystem_lookup_correct table (chars_of "/sd/x")); [done|done|].
  intros [|[|j]] mnt Hj; [by injection Hj as <-|by injection Hj as <-|done].
Defined.
