(* ===== verification/Bootloader.v ===== *)
(** * The boot loader (bsp/stm32f4xx-HAL-bootloader/applications/main.c)

    The boot loader compares the versions in two configuration files, copies a newer
    image from the file system to the program flash, records its version, and jumps to
    the application.  The files are reached through an interface ([file_api], with its
    laws in [file_laws]); the image is erased by a function of EasyFlash, a parameter,
    and written by the port of Flash.v.  The local variables the code does not
    initialise are arguments.

    [boot_choice] says in terms of the contents of the files what is to be done; the
    theorems show that the code does it, with the image in flash byte for byte, that
    the version it records is found again at the next start, and where that fails. *)

From Stdlib Require Import Ascii String.
From S2P Require Import Prelude Exec Mem Flash Circ Printf Path.

(** ** The C library *)

(** [memcmp(a, b, n) == 0]; both objects have [n] bytes. *)
Definition memcmp_eq (a b : list Z) (n : Z) : option bool :=
  if ((n <=? blen a) && (n <=? blen b))%bool then Some (bool_decide (take (Z.to_nat n) a = take (Z.to_nat n) b)) else None.

Definition isspace (c : Z) : bool := ((c =? 32) || ((9 <=? c) && (c <=? 13)))%bool.

(** The value of a digit, in any base. *)
Definition digit_val (c : Z) : Z :=
  if ((48 <=? c) && (c <=? 57))%bool then c - 48
  else if ((97 <=? c) && (c <=? 122))%bool then c - 87
  else if ((65 <=? c) && (c <=? 90))%bool then c - 55
  else 36.

Fixpoint skip_space (l : list Z) : list Z :=
  match l with c :: l' => if isspace c then skip_space l' else l | [] => [] end.

(** The digits at the front; [None] when the array ends before the number does. *)
Fixpoint scan (base acc : Z) (l : list Z) : option Z :=
  match l with
  | [] => None
  | c :: l => if digit_val c <? base then scan base (acc * base + digit_val c) l else Some acc
  end.

Definition prefix_0x (l : list Z) : list Z :=
  match l with z :: x :: l' => if ((z =? 48) && ((x =? 120) || (x =? 88)))%bool then l' else l | _ => l end.

Definition sign_of (l : list Z) : bool * list Z :=
  match l with c :: l' => if c =? 45 then (true, l') else if c =? 43 then (false, l') else (false, l) | [] => (false, []) end.

Definition clamp (z : Z) : Z := Z.max (- 2 ^ 31) (Z.min z (2 ^ 31 - 1)).

(** [strtol(l, NULL, base)] for the bases 10 and 16. *)
Definition strtol (l : list Z) (base : Z) : option Z :=
  let l := skip_space l in
  let '(neg, l) := sign_of l in
  let l := if base =? 16 then prefix_0x l else l in
  v ← scan base 0 l; Some (clamp (if neg then - v else v)).
Definition atol (l : list Z) : option Z := strtol l 10.

(** What [sprintf] prints for [%d] and [%x]. *)
Definition print_d (v : Z) : list Z := if v <? 0 then 45 :: (digit false <$> numeral 10 (- v)) else digit false <$> numeral 10 v.
Definition print_x (v : Z) : list Z := digit false <$> numeral 16 v.

(** ** The file interface *)

Definition O_RDONLY : Z := 0.
Definition O_RDWR : Z := 2.
Definition O_BINARY : Z := 0x8000.
Definition SEEK_SET : Z := 0.
Definition SEEK_END : Z := 2.

(** [read] gives its result and the bytes it has stored in the buffer. *)
Class file_api (S : Type) := FileApi {
  dfs_mount : M S Z;
  dfs_mkfs : M S Z;
  dfs_unmount : M S Z;
  open : list Z -> Z -> M S Z;
  read : Z -> Z -> M S (Z * list Z);
  lseek : Z -> Z -> Z -> M S Z;
  write : Z -> list Z -> M S Z;
  close : Z -> M S Z
}.

(** ** Reading the configuration *)

Definition USER_APP_ADDRESS : Z := 0x08020000.
Definition CONFIG_FILE_MAX_SIZE : Z := 200.

(** [while (i <= src_len)] with [n] turns left; [i] is the length of [str]. *)
Fixpoint locate (n : nat) (src str : list Z) (i off : Z) : option Z :=
  match n with
  | O => Some 0
  | S n =>
      e ← memcmp_eq (drop (Z.to_nat off) src) str i;
      if (e : bool) then Some (u16 (off + i)) else locate n src str i (u16 (off + 1))
  end.
Definition LocateString (src str : list Z) (src_len : Z) : option Z :=
  let i := u16 (blen str) in locate (Z.to_nat (src_len - i + 1)) src str i 0.

Definition key_version : list Z := chars_of "version:".
Definition key_boot_addr : list Z := chars_of "boot_addr:".
Definition key_bin_size : list Z := chars_of "bin_size:".
Definition key_check_sum : list Z := chars_of "check_sum:".

(** [&p[offset]] *)
Definition at_off (offset : Z) (p : list Z) : list Z := drop (Z.to_nat offset) p.
Definition boot_range (a : Z) : bool := negb ((0x08060000 <? a) || (a <? 0x08000000))%bool.

(** The version and the boot address of system.cfg; [Some None] is [goto to_application], with
    [boot_addr] at USER_APP_ADDRESS. *)
Definition parse_system (buf : list Z) : option (option (Z * Z)) :=
  offset ← LocateString buf key_version 16;
  if offset =? 0 then Some None
  else
    system_version ← atol (at_off offset buf);
    let p := at_off offset buf in
    offset ← LocateString p key_boot_addr 50;
    if offset =? 0 then Some None
    else
      a ← strtol (at_off offset p) 16;
      let boot_addr := u32 a in
      if negb (boot_range boot_addr) then Some None else Some (Some (system_version, boot_addr)).

Record update := Update { update_version : Z; update_bin_size : Z; check_sum : Z; new_boot_addr : Z }.

(** The contents of update.cfg; [Some None] is [goto to_application]. *)
Definition parse_update (buf : list Z) (system_version : Z) : option (option update) :=
  offset ← LocateString buf key_version 16;
  if offset =? 0 then Some None
  else
    update_version ← atol (at_off offset buf);
    if update_version <=? system_version then Some None
    else
      let p := at_off offset buf in
      offset ← LocateString p key_bin_size 50;
      if offset =? 0 then Some None
      else
        n ← atol (at_off offset p);
        let update_bin_size := u32 n in
        if update_bin_size =? 0 then Some None
        else
          let p := at_off offset p in
          offset ← LocateString p key_check_sum 50;
          if offset =? 0 then Some None
          else
            c ← strtol (at_off offset p) 10;
            let check_sum := u16 c in
            let p := at_off offset p in
            offset ← LocateString p key_boot_addr 50;
            if offset =? 0 then Some None
            else
              a ← strtol (at_off offset p) 16;
              let new_boot_addr := u32 a in
              if negb (boot_range new_boot_addr) then Some None
              else Some (Some (Update update_version update_bin_size check_sum new_boot_addr)).

Definition system_cfg : list Z := chars_of "system.cfg".
Definition update_cfg : list Z := chars_of "update.cfg".
Definition bin_name (v : Z) : list Z := print_d v ++ chars_of ".bin".
(** The text written to system.cfg. *)
Definition system_text (v a : Z) : list Z := key_version ++ print_d v ++ [13; 10] ++ chars_of "boot_addr:0x" ++ print_x a.

(** ** The boot loader *)

(** The words of a buffer of bytes. *)
Fixpoint words (bs : list Z) : list Z :=
  match bs with
  | b0 :: b1 :: b2 :: b3 :: bs => (b0 + 2 ^ 8 * b1 + 2 ^ 16 * b2 + 2 ^ 24 * b3) :: words bs
  | _ => []
  end.

(** A buffer behind a [read] of the bytes [bs] into it. *)
Definition fill (bs buf : list Z) : list Z := bs ++ drop (length bs) buf.

Record boot (S : Type) := Boot { b_fs : S; b_flash : flash; b_buf : list Z (* file_read_buf *) }.
Arguments Boot {S} _ _ _.
Arguments b_fs {S} _.
Arguments b_flash {S} _.
Arguments b_buf {S} _.

(** The end: the stack pointer and the entry of the application, or the USB disk. *)
Inductive boot_end := Jumped (msp entry : Z) | UsbDisk.

(** [goto to_application], with the variables it uses. *)
Inductive exit := to_application (boot_addr file_system file_update bin_file : Z).

Section bootloader.
Context {S : Type} {A : file_api S}.
Variable ef_erase_user_app : Z -> Z -> M flash EfErrCode.

Definition fs {T} (m : M S T) : M (boot S) T := zoom b_fs (fun s b => Boot s (b_flash b) (b_buf b)) m.
Definition fl {T} (m : M flash T) : M (boot S) T := zoom b_flash (fun f b => Boot (b_fs b) f (b_buf b)) m.
Definition set_buf (f : list Z -> list Z) : M (boot S) unit := modify (fun b => Boot (b_fs b) (b_flash b) (f (b_buf b))).

(** [read(fd, file_read_buf, CONFIG_FILE_MAX_SIZE)] *)
Definition read_cfg (fd : Z) : M (boot S) Z :=
  r <- fs (read fd CONFIG_FILE_MAX_SIZE);;
  set_buf (fill r.2);;;
  ret r.1.

Definition clear_buf : M (boot S) unit := set_buf (fun _ => replicate (Z.to_nat CONFIG_FILE_MAX_SIZE) 0).

Definition iap_load_app (appxaddr : Z) : M (boot S) (option (Z * Z)) :=
  w <- gets (fun b => word_at (f_mem (b_flash b)) appxaddr);;
  if Z.land w 0x2FFE0000 =? 0x20000000 then
    jump2app <- gets (fun b => word_at (f_mem (b_flash b)) (u32 (appxaddr + 4)));;
    ret (Some (w, jump2app))
  else ret None.

Definition gotoApplication : M (boot S) (option (Z * Z)) := iap_load_app USER_APP_ADDRESS.

(** system.cfg: its descriptor, the version and the boot address. *)
Definition load_system (ju jb : Z) : M (boot S) (exit + Z * Z * Z) :=
  file_system <- fs (open system_cfg O_RDWR);;
  let leave := ret (inl (to_application USER_APP_ADDRESS file_system ju jb)) in
  if file_system =? -1 then leave
  else
    r <- read_cfg file_system;;
    if r =? -1 then leave
    else
      c <- deref (fun b => parse_system (b_buf b));;
      match c with
      | None => leave
      | Some (system_version, boot_addr) => ret (inr (file_system, system_version, boot_addr))
      end.

(** update.cfg: its descriptor and contents. *)
Definition load_update (file_system system_version boot_addr jb : Z) : M (boot S) (exit + Z * update) :=
  clear_buf;;;
  file_update <- fs (open update_cfg O_RDONLY);;
  let leave := ret (inl (to_application boot_addr file_system file_update jb)) in
  if file_update =? -1 then leave
  else
    r <- read_cfg file_update;;
    if r =? -1 then leave
    else
      c <- deref (fun b => parse_update (b_buf b) system_version);;
      match c with
      | None => leave
      | Some u => ret (inr (file_update, u))
      end.

(** [for (cur_size = 0; cur_size < bin_file_size; cur_size += sizeof(buff))] *)
Fixpoint copy_image (fuel : nat) (bin_file new_boot_addr size cur_size : Z) (buff : list Z) : M (boot S) EfErrCode :=
  if cur_size <? size then
    match fuel with
    | O => stuck Diverge
    | Datatypes.S fuel =>
        let app_cur_addr := u32 (new_boot_addr + cur_size) in
        r <- fs (read bin_file 128);;
        let buff := fill r.2 buff in
        result <- fl (ef_port_write app_cur_addr (words buff) 128);;
        if negb (bool_decide (result = EF_NO_ERR)) then ret result
        else copy_image fuel bin_file new_boot_addr size (u32 (cur_size + 128)) buff
    end
  else ret EF_NO_ERR.

(** From the opening of the image on; the result is what follows [goto to_application]. *)
Definition install (file_system file_update : Z) (u : update) (buff : list Z) : M (boot S) exit :=
  let boot_addr := new_boot_addr u in
  bin_file <- fs (open (bin_name (update_version u)) (Z.lor O_RDONLY O_BINARY));;
  let leave := ret (to_application boot_addr file_system file_update bin_file) in
  if bin_file =? -1 then leave
  else
    bin_file_size <- fs (lseek bin_file 0 SEEK_END);;
    if bin_file_size =? -1 then leave
    else if negb (update_bin_size u =? u32 bin_file_size) then leave
    else
      e <- fl (ef_erase_user_app USER_APP_ADDRESS (update_bin_size u));;
      if negb (bool_decide (e = EF_NO_ERR)) then leave
      else
        fs (lseek bin_file 0 SEEK_SET);;;
        copy_image (Z.to_nat (u32 bin_file_size / 128 + 1)) bin_file USER_APP_ADDRESS (u32 bin_file_size) 0 buff;;;
        fs (lseek file_system 0 SEEK_SET);;;
        clear_buf;;;
        set_buf (fill (system_text (update_version u) USER_APP_ADDRESS));;;
        fs (write file_system (system_text (update_version u) USER_APP_ADDRESS));;;
        leave.

Definition open_usb : M (boot S) boot_end := fs dfs_unmount;;; ret UsbDisk.

(** [if (fd != -1) close(fd);] *)
Definition close_fd (fd : Z) : M (boot S) unit := when (negb (fd =? -1)) (_ <- fs (close fd);; ret tt).

Definition leave_boot (e : exit) : M (boot S) boot_end :=
  match e with
  | to_application boot_addr file_system file_update bin_file =>
      close_fd file_system;;; close_fd file_update;;; close_fd bin_file;;;
      j <- iap_load_app boot_addr;;
      match j with
      | Some (msp, entry) => ret (Jumped msp entry)
      | None => open_usb
      end
  end.

(** [key] is what the pin of the key reads; [ju], [jb] and [buff] are the values of [file_update],
    [bin_file] and [buff] when nothing has been stored in them. *)
Definition bootloader (key ju jb : Z) (buff : list Z) : M (boot S) boot_end :=
  if key =? 1 then open_usb
  else
    m <- fs dfs_mount;;
    when (negb (m =? 0)) (fs dfs_mkfs;;; _ <- fs dfs_mount;; ret tt);;;
    r <- load_system ju jb;;
    match r with
    | inl e => leave_boot e
    | inr (file_system, system_version, boot_addr) =>
        r <- load_update file_system system_version boot_addr jb;;
        match r with
        | inl e => leave_boot e
        | inr (file_update, u) => e <- install file_system file_update u buff;; leave_boot e
        end
    end.
End bootloader.

(** ** What the file system promises *)

Abbreviation files := (gmap (list Z) (list Z)).

(** An open file: its name, the position, and whether it may be written. *)
Record ofile := OFile { of_name : list Z; of_pos : nat; of_rw : bool }.

(** A file behind a write of [bs] at [pos]; it is not cut off behind them.  A write never fails for want of space
    inside the first sector of a file that is not empty. *)
Definition overwrite (pos : nat) (bs c : list Z) : list Z := take pos c ++ bs ++ drop (pos + length bs) c.

(** Descriptors that are never given out; there are 16 of them from 3 on. *)
Definition no_fd (fd : Z) : Prop := fd < 3 \/ 19 <= fd.

(** The names of the files: the file system does not tell upper from lower case, names are short, and "dev" is
    the directory of the devices. *)
Definition file_name (n : list Z) : Prop :=
  real_name n /\ (length n <= 32)%nat /\ Forall (fun c => ~ (65 <= c <= 90)) n /\ n <> chars_of "dev".
(** The flags a file is opened with. *)
Definition open_flags (flags : Z) : Prop := flags = O_RDONLY \/ flags = O_RDWR \/ flags = Z.lor O_RDONLY O_BINARY.

Class file_laws {S : Type} (A : file_api S) := FileLaws {
  disk : S -> files -> Prop;
  mounted : S -> files -> gmap Z ofile -> Prop;
  mount_law s F : disk s F -> exists s', dfs_mount s = Done 0 s' /\ mounted s' F ∅;
  unmount_law s F : mounted s F ∅ -> exists s', dfs_unmount s = Done 0 s' /\ disk s' F;
  open_law s F O n c flags : mounted s F O -> file_name n -> F !! n = Some c -> (forall fd f, O !! fd = Some f -> of_name f <> n) ->
    (size O < 16)%nat -> open_flags flags ->
    exists fd s', open n flags s = Done fd s' /\ ~ no_fd fd /\ O !! fd = None /\
      mounted s' F (<[fd := OFile n 0 (bool_decide (flags = O_RDWR))]> O);
  open_missing s F O n flags : mounted s F O -> file_name n -> F !! n = None -> (size O < 16)%nat -> open_flags flags ->
    exists s', open n flags s = Done (-1) s' /\ mounted s' F O;
  read_law s F O fd f c len : mounted s F O -> O !! fd = Some f -> F !! of_name f = Some c -> 0 <= len < 2 ^ 31 ->
    let bs := take (Z.to_nat len) (drop (of_pos f) c) in
    exists s', read fd len s = Done (blen bs, bs) s' /\
      mounted s' F (<[fd := OFile (of_name f) (of_pos f + length bs) (of_rw f)]> O);
  seek_law s F O fd f c off : mounted s F O -> O !! fd = Some f -> F !! of_name f = Some c -> 0 <= off <= blen c -> off < 2 ^ 31 ->
    exists s', lseek fd off SEEK_SET s = Done off s' /\ mounted s' F (<[fd := OFile (of_name f) (Z.to_nat off) (of_rw f)]> O);
  seek_end_law s F O fd f c : mounted s F O -> O !! fd = Some f -> F !! of_name f = Some c -> blen c < 2 ^ 31 ->
    exists s', lseek fd 0 SEEK_END s = Done (blen c) s' /\ mounted s' F (<[fd := OFile (of_name f) (length c) (of_rw f)]> O);
  write_law s F O fd f c bs : mounted s F O -> O !! fd = Some f -> F !! of_name f = Some c -> of_rw f = true -> (of_pos f <= length c)%nat ->
    c <> [] -> (of_pos f + length bs <= 512)%nat ->
    exists s', write fd bs s = Done (blen bs) s' /\
      mounted s' (<[of_name f := overwrite (of_pos f) bs c]> F) (<[fd := OFile (of_name f) (of_pos f + length bs) true]> O);
  close_law s F O fd f : mounted s F O -> O !! fd = Some f -> exists s', close fd s = Done 0 s' /\ mounted s' F (delete fd O);
  close_none s F O fd : mounted s F O -> no_fd fd -> exists s', close fd s = Done (-1) s' /\ mounted s' F O
}.

(** ** The contract *)

(** The buffer a configuration file is read into. *)
Definition cfg_buf (c : list Z) : list Z := fill (take 200 c) (replicate 200 0).

(** Start the application at [a]; or install the image [img] first. *)
Inductive choice := Start (a : Z) | Install (u : update) (img : list Z).

Definition boot_choice (F : files) : option choice :=
  match F !! system_cfg with
  | None => Some (Start USER_APP_ADDRESS)
  | Some st =>
      s ← parse_system (cfg_buf st);
      match s with
      | None => Some (Start USER_APP_ADDRESS)
      | Some (v, a) =>
          match F !! update_cfg with
          | None => Some (Start a)
          | Some ut =>
              u ← parse_update (cfg_buf ut) v;
              match u with
              | None => Some (Start a)
              | Some u =>
                  match F !! bin_name (update_version u) with
                  | None => Some (Start (new_boot_addr u))
                  | Some img => if update_bin_size u =? u32 (blen img) then Some (Install u img) else Some (Start (new_boot_addr u))
                  end
              end
          end
      end
  end.

(** The end that [iap_load_app] gives with the flash contents [m]. *)
Definition jump_end (m : Z -> Z) (a : Z) : boot_end :=
  if Z.land (word_at m a) 0x2FFE0000 =? 0x20000000 then Jumped (word_at m a) (word_at m (u32 (a + 4))) else UsbDisk.

(** The file system behind the end [e]. *)
Definition ended {S} {A : file_api S} `{!file_laws A} (s : S) (F : files) (e : boot_end) : Prop :=
  match e with Jumped _ _ => mounted s F ∅ | UsbDisk => disk s F end.

(** The bytes [img] lie in flash at [a]. *)
Definition burnt_in (m : Z -> Z) (a : Z) (img : list Z) : Prop := forall i c, img !! i = Some c -> m (a + Z.of_nat i) = c.

(** EasyFlash's [ef_erase_user_app] on a flash that does its work: the area is erased, and nothing below it. *)
Definition erases_app (e : Z -> Z -> M flash EfErrCode) : Prop :=
  forall f n, idle f -> f_faults f = [] -> 0 <= n -> USER_APP_ADDRESS + n < flash_end ->
  exists f', e USER_APP_ADDRESS n f = Done EF_NO_ERR f' /\ idle f' /\ f_faults f' = [] /\
    (forall x, USER_APP_ADDRESS <= x < USER_APP_ADDRESS + n -> f_mem f' x = 0xff) /\
    (forall x, x < USER_APP_ADDRESS -> f_mem f' x = f_mem f x).

Definition is_byte (b : Z) : Prop := 0 <= b < 256.
#[export] Instance is_byte_dec b : Decision (is_byte b) := decide (0 <= b < 256).

(** ** Bytes and words *)

Lemma words_length m : forall bs, length bs = (4 * m)%nat -> length (words bs) = m.
Proof.
  induction m as [|m IH]; intros bs Hl; [by destruct bs|].
  destruct bs as [|b0 [|b1 [|b2 [|b3 bs]]]]; cbn in *; try lia. f_equal. apply IH. lia.
Qed.

Lemma byte_of_word b0 b1 b2 b3 j : is_byte b0 -> is_byte b1 -> is_byte b2 -> is_byte b3 -> 0 <= j < 4 ->
  byte_of (b0 + 2 ^ 8 * b1 + 2 ^ 16 * b2 + 2 ^ 24 * b3) j = nth (Z.to_nat j) [b0; b1; b2; b3] 0.
Proof.
  unfold is_byte. intros H0 H1 H2 H3 Hj. assert (j = 0 \/ j = 1 \/ j = 2 \/ j = 3) as HD by lia.
  unfold byte_of, u8. destruct HD as [-> | [-> | [-> | ->]]].
  - change (2 ^ (8 * 0)) with 1. change (nth _ _ _) with b0. Z.div_mod_to_equations. lia.
  - change (2 ^ (8 * 1)) with (2 ^ 8). change (nth _ _ _) with b1. Z.div_mod_to_equations. lia.
  - change (2 ^ (8 * 2)) with (2 ^ 16). change (nth _ _ _) with b2. Z.div_mod_to_equations. lia.
  - change (2 ^ (8 * 3)) with (2 ^ 24). change (nth _ _ _) with b3. Z.div_mod_to_equations. lia.
Qed.

Lemma words_byte m : forall bs i, length bs = (4 * m)%nat -> Forall is_byte bs -> 0 <= i < blen bs ->
  wbyte (words bs) i = nth (Z.to_nat i) bs 0.
Proof.
  unfold blen. induction m as [|m IH]; intros bs i Hl HB Hi; [lia|].
  destruct bs as [|b0 [|b1 [|b2 [|b3 bs]]]]; cbn [length] in *; try lia. cbn [words].
  rewrite !Forall_cons in HB. destruct HB as (B0 & B1 & B2 & B3 & HB). destruct (Z.lt_ge_cases i 4).
  - rewrite wbyte_head, byte_of_word by (done || lia). assert (i = 0 \/ i = 1 \/ i = 2 \/ i = 3) as HD by lia.
    by destruct HD as [-> | [-> | [-> | ->]]].
  - rewrite wbyte_tail, IH by (done || lia). replace (Z.to_nat i) with (4 + Z.to_nat (i - 4))%nat by lia. done.
Qed.

Lemma fill_length bs buf : (length bs <= length buf)%nat -> length (fill bs buf) = length buf.
Proof. intros. unfold fill. rewrite length_app, length_drop. lia. Qed.

(** ** The parts of the boot loader *)

Section refinement.
Context {S : Type} {A : file_api S} {L : file_laws A}.
Variable ef_erase_user_app : Z -> Z -> M flash EfErrCode.
Implicit Types (s : S) (F : files) (O : gmap Z ofile) (f : flash) (buf : list Z).

Lemma fs_done {T} (m : M S T) s s' f buf (a : T) : m s = Done a s' -> fs m (Boot s f buf) = Done a (Boot s' f buf).
Proof. intros E. unfold fs, zoom. cbn. by rewrite E. Qed.

Lemma fl_done {T} (m : M flash T) s f f' buf (a : T) : m f = Done a f' -> fl m (Boot s f buf) = Done a (Boot s f' buf).
Proof. intros E. unfold fl, zoom. cbn. by rewrite E. Qed.

(** One turn of the copy loop: the next 128 bytes, or what is left, at their place. *)
Lemma write_chunk_done bs buff f a : idle f -> a mod 4 = 0 -> flash_start <= a -> a + 128 <= flash_end ->
  length buff = 128%nat -> (length bs <= 128)%nat -> Forall is_byte buff -> Forall is_byte bs ->
  exists r f', ef_port_write a (words (fill bs buff)) 128 f = Done r f' /\ idle f' /\
    (forall x, x < a \/ a + 128 <= x -> f_mem f' x = f_mem f x) /\
    (f_faults f = [] -> r = EF_NO_ERR /\ f_faults f' = [] /\
      ((forall x, a <= x < a + blen bs -> f_mem f x = 0xff) -> burnt_in (f_mem f') a bs)).
Proof.
  intros HI H4 Ha Hb Hl Hbs HBf HB. set (buf := fill bs buff).
  assert (Hlb : length buf = (4 * 32)%nat) by (unfold buf; rewrite fill_length; lia).
  assert (HBb : Forall is_byte buf) by (unfold buf, fill; apply Forall_app; split; [done|by apply Forall_drop]).
  pose proof (words_length 32 buf Hlb) as Hw.
  destruct (ef_write_done a (words buf) f) as (f' & E & _ & HI' & Hfs & Hm); [done..|rewrite Hw; lia|]. rewrite Hw in *.
  pose proof (ok_ops_le 32 (f_faults f)). eexists _, f'. split; [exact E|]. split_and!; try done.
  - intros x Hx. rewrite Hm. unfold burnt. by rewrite inside_out by lia.
  - intros HF. rewrite HF, ok_ops_all, bool_decide_true, drop_nil in * by (by rewrite ?take_nil). split_and!; try done.
    intros Hff i c Hi. unfold blen in Hff. pose proof (lookup_lt_Some _ _ _ Hi). rewrite Hm. unfold burnt. rewrite inside_in by lia.
    replace (a + Z.of_nat i - a) with (Z.of_nat i) by lia. rewrite Hff by lia.
    rewrite (words_byte 32) by (done || unfold blen; lia). rewrite Nat2Z.id. unfold buf, fill. rewrite app_nth1 by lia.
    rewrite (nth_lookup_Some _ _ _ _ Hi). apply land_ff. by eapply Forall_lookup_1 in HB.
Qed.

(** The prefix of [img] up to [cur] is in flash, and the rest of its place is erased. *)
Definition half_burnt (f : flash) (img : list Z) (cur : Z) : Prop :=
  f_faults f = [] /\ (forall x, USER_APP_ADDRESS + cur <= x < USER_APP_ADDRESS + blen img -> f_mem f x = 0xff) /\
  burnt_in (f_mem f) USER_APP_ADDRESS (take (Z.to_nat cur) img).

Lemma half_burnt_step f f1 img cur : 0 <= cur < blen img -> half_burnt f img cur ->
  f_faults f1 = [] -> burnt_in (f_mem f1) (USER_APP_ADDRESS + cur) (take 128 (drop (Z.to_nat cur) img)) ->
  (forall x, x < USER_APP_ADDRESS + cur \/ USER_APP_ADDRESS + cur + 128 <= x -> f_mem f1 x = f_mem f x) -> half_burnt f1 img (cur + 128).
Proof.
  intros Hc (HF & Hff & Hin) HF1 Hb1 Hm1. split_and!; [done| |].
  - intros x Hx. rewrite Hm1 by lia. apply Hff. lia.
  - intros i c Hi. apply lookup_take_Some in Hi as [Hi Hlt']. destruct (decide (i < Z.to_nat cur)%nat) as [Hic|Hic].
    + rewrite Hm1 by lia. apply Hin. by apply lookup_take_Some.
    + replace (USER_APP_ADDRESS + Z.of_nat i) with (USER_APP_ADDRESS + cur + Z.of_nat (i - Z.to_nat cur)) by lia.
      apply Hb1. apply lookup_take_Some. split; [|lia]. rewrite lookup_drop. by replace (Z.to_nat cur + (i - Z.to_nat cur))%nat with i by lia.
Qed.

Lemma half_burnt_end f img cur : blen img <= cur -> half_burnt f img cur -> burnt_in (f_mem f) USER_APP_ADDRESS img.
Proof. unfold blen. intros Hc (_ & _ & Hin). by rewrite take_ge in Hin by lia. Qed.

(** The copy loop always ends; the image is in flash if every operation succeeds. *)
Lemma copy_image_done fuel img name F O fd buf :
  F !! name = Some img -> USER_APP_ADDRESS + blen img < flash_end -> Forall is_byte img ->
  forall cur s f buff p, mounted s F (<[fd := OFile name p false]> O) -> (cur < blen img -> p = Z.to_nat cur) ->
  0 <= cur -> cur mod 128 = 0 -> blen img <= cur + 128 * Z.of_nat fuel -> length buff = 128%nat -> Forall is_byte buff -> idle f ->
  exists r s' f' p', copy_image fuel fd USER_APP_ADDRESS (blen img) cur buff (Boot s f buf) = Done r (Boot s' f' buf) /\
    mounted s' F (<[fd := OFile name p' false]> O) /\ (forall x, x < USER_APP_ADDRESS -> f_mem f' x = f_mem f x) /\
    (half_burnt f img cur -> burnt_in (f_mem f') USER_APP_ADDRESS img).
Proof.
  intros Hn Hfit HB.
  induction fuel as [|fuel IH]; intros cur s f buff p HM Hp Hc0 Hc Hf Hl HBf HI; cbn [copy_image].
  { destruct (Z.ltb_spec cur (blen img)); [lia|]. exists EF_NO_ERR, s, f, p. split_and!; try done. by apply half_burnt_end. }
  destruct (Z.ltb_spec cur (blen img)) as [Hlt|Hge].
  2:{ exists EF_NO_ERR, s, f, p. split_and!; try done. by apply half_burnt_end. }
  specialize (Hp Hlt). subst p. set (o := OFile name (Z.to_nat cur) false) in *.
  destruct (read_law s F (<[fd := o]> O) fd o img 128 HM) as (s1 & E1 & HM1); [apply lookup_insert_eq|done|lia|].
  cbn [of_pos of_name of_rw o] in *. change (Z.to_nat 128) with 128%nat in *. set (bs := take 128 (drop (Z.to_nat cur) img)) in *.
  rewrite insert_insert_eq in HM1. rewrite (after (fs_done _ _ _ f buf _ E1)). cbn [snd fst].
  assert (Hbl : length bs = Nat.min 128 (length img - Z.to_nat cur)) by (unfold bs; rewrite length_take, length_drop; lia).
  assert (HBs : Forall is_byte bs) by (unfold bs; by apply Forall_take, Forall_drop).
  assert (Hc4 : (USER_APP_ADDRESS + cur) mod 4 = 0 /\ USER_APP_ADDRESS + cur + 128 <= flash_end)
    by (clear -Hc Hlt Hfit; unfold USER_APP_ADDRESS, flash_end in *; Z.div_mod_to_equations; lia).
  assert (HU : 0 <= USER_APP_ADDRESS + cur < 2 ^ 31) by (clear -Hc0 Hlt Hfit; unfold USER_APP_ADDRESS, flash_end in *; lia).
  rewrite (u32_small (USER_APP_ADDRESS + cur)) by lia.
  destruct (write_chunk_done bs buff f (USER_APP_ADDRESS + cur)) as (r & f1 & E2 & HI1 & Hm1 & HF1);
    [done|apply Hc4|unfold flash_start, USER_APP_ADDRESS; lia|apply Hc4|done|lia|done|done|].
  rewrite (after (fl_done _ _ _ _ _ _ E2)). case_bool_decide as Hr; cbn [negb].
  2:{ exists r, s1, f1. eexists. split; [reflexivity|]. split_and!; [exact HM1|intros x Hx; apply Hm1; lia|]. intros (HF & _). by destruct (HF1 HF). }
  rewrite u32_small by (unfold USER_APP_ADDRESS in HU; lia). unfold blen in *.
  destruct (IH (cur + 128) s1 f1 (fill bs buff) (Z.to_nat cur + length bs)%nat) as (r' & s' & f' & p' & E & HM' & Hm' & Hb'); try done; try lia.
  - rewrite Z.add_mod, Hc by lia. done.
  - rewrite fill_length; lia.
  - unfold fill. apply Forall_app. split; [done|by apply Forall_drop].
  - exists r', s', f', p'. split_and!; try done; [intros x Hx; rewrite Hm' by done; apply Hm1; lia|].
    intros HH. pose proof HH as (HF & Hff & _). destruct (HF1 HF) as (_ & HF1' & Hb1). apply Hb'.
    apply (half_burnt_step f); [unfold blen; lia|done|done| |done]. apply Hb1. intros x Hx. apply Hff. unfold blen. lia.
Qed.

Lemma to_digits_length b n fuel : (length (to_digits fuel b n) <= fuel)%nat.
Proof. revert n. induction fuel as [|fuel IH]; intros n; cbn; [lia|]. case_match; cbn; [lia|]. specialize (IH (n / b)). lia. Qed.

Lemma bin_name_file v : file_name (bin_name v).
Proof.
  assert (Hd : forall n, 0 <= n -> Forall (fun c => 45 <= c <= 57 /\ c <> 47) (digit false <$> numeral 10 n)).
  { intros n Hn. unfold numeral. apply Forall_fmap, Forall_reverse. eapply Forall_impl; [apply (to_digits_range 16 10 n); lia|].
    intros d Hd2. cbn in Hd2. unfold digit. cbn. rewrite (proj2 (Z.ltb_lt d 10)) by lia. change (ch "0") with 48. lia. }
  assert (Hp : Forall (fun c => 45 <= c <= 57 /\ c <> 47) (print_d v)).
  { unfold print_d. destruct (Z.ltb_spec v 0); [constructor; [done|]; apply Hd; lia|apply Hd; lia]. }
  assert (Hl : (4 <= length (bin_name v) <= 32)%nat).
  { unfold bin_name, print_d, numeral. rewrite length_app. change (length (chars_of ".bin")) with 4%nat.
    pose proof (to_digits_length 10 v 16). pose proof (to_digits_length 10 (- v) 16).
    case_match; cbn [length]; rewrite !length_fmap, !length_reverse; cbn [length]; lia. }
  split; [split_and!; [|intros E; rewrite E in Hl; cbn in Hl; lia..]|split_and!; [lia| |intros E; rewrite E in Hl; cbn in Hl; lia]].
  - apply Forall_app. split; [|repeat constructor; done]. eapply Forall_impl; [exact Hp|]. unfold slash. cbn. lia.
  - apply Forall_app. split; [|decided]. eapply Forall_impl; [exact Hp|]. cbn. lia.
Qed.

Lemma system_cfg_file : file_name system_cfg.
Proof. split; [split_and!; [repeat constructor; done|done..]|split_and!; [cbn; lia|decided|done]]. Qed.
Lemma update_cfg_file : file_name update_cfg.
Proof. split; [split_and!; [repeat constructor; done|done..]|split_and!; [cbn; lia|decided|done]]. Qed.

(** Open a configuration file and read it into the cleared buffer. *)
Lemma open_read_done s F O n c flags f : file_name n -> mounted s F O -> F !! n = Some c -> (forall fd o, O !! fd = Some o -> of_name o <> n) ->
  (size O < 16)%nat -> open_flags flags ->
  exists fd s1 s' r, fs (open n flags) (Boot s f (replicate 200 0)) = Done fd (Boot s1 f (replicate 200 0)) /\ fd <> -1 /\
    read_cfg fd (Boot s1 f (replicate 200 0)) = Done r (Boot s' f (cfg_buf c)) /\ r <> -1 /\ ~ no_fd fd /\ O !! fd = None /\
    mounted s' F (<[fd := OFile n (length (take 200 c)) (bool_decide (flags = O_RDWR))]> O).
Proof.
  intros Hr HM Hn Hd Hs Hfl. destruct (open_law s F O n c flags HM Hr Hn Hd Hs Hfl) as (fd & s1 & E1 & Hno & Hfd & HM1).
  set (o := OFile n 0 _) in *. destruct (read_law s1 F _ fd o c 200 HM1) as (s2 & E2 & HM2); [apply lookup_insert_eq|done|lia|].
  cbn [of_name of_pos of_rw o] in *. rewrite insert_insert_eq in HM2. change (Z.to_nat 200) with 200%nat in *. rewrite drop_0 in *.
  exists fd, s1, s2, (blen (take 200 c)). split; [by apply fs_done|]. unfold no_fd in Hno. split; [lia|]. split.
  { unfold read_cfg. rewrite (after (fs_done _ _ _ f _ _ E2)). done. }
  unfold blen. by split_and!; try done; lia.
Qed.

Lemma open_missing_done s F O n flags f buf : file_name n -> mounted s F O -> F !! n = None -> (size O < 16)%nat ->
  open_flags flags ->
  exists s', fs (open n flags) (Boot s f buf) = Done (-1) (Boot s' f buf) /\ mounted s' F O.
Proof. intros Hr HM Hn Hs Hfl. destruct (open_missing s F O n flags HM Hr Hn Hs Hfl) as (s' & E & HM'). exists s'. split; [by apply fs_done|done]. Qed.

(** A descriptor variable before it is closed: it is open, or none was ever given out with this number. *)
Definition closable (O : gmap Z ofile) (fd : Z) : Prop := (~ no_fd fd /\ is_Some (O !! fd)) \/ (no_fd fd /\ O !! fd = None).

Lemma close_fd_done s F O fd f buf : mounted s F O -> closable O fd ->
  exists s', close_fd fd (Boot s f buf) = Done tt (Boot s' f buf) /\ mounted s' F (delete fd O).
Proof.
  intros HM HC. unfold close_fd. destruct HC as [[Hn [o Ho]]|[Hn Ho]].
  - rewrite (proj2 (Z.eqb_neq fd (-1))) by (unfold no_fd in Hn; lia). cbn [negb when].
    destruct (close_law s F O fd o HM Ho) as (s' & E & HM'). exists s'. by rewrite (after (fs_done _ _ _ f buf _ E)).
  - rewrite delete_id by done. destruct (Z.eqb_spec fd (-1)); cbn [negb when]; [by exists s|].
    destruct (close_none s F O fd HM Hn) as (s' & E & HM'). exists s'. by rewrite (after (fs_done _ _ _ f buf _ E)).
Qed.

(** The descriptors are closed, and the application is entered if its first word is a stack address. *)
Lemma leave_done s F O a fs0 fu fb f buf : mounted s F O -> closable O fs0 -> closable (delete fs0 O) fu -> closable (delete fu (delete fs0 O)) fb ->
  delete fb (delete fu (delete fs0 O)) = ∅ ->
  exists s', leave_boot (to_application a fs0 fu fb) (Boot s f buf) = Done (jump_end (f_mem f) a) (Boot s' f buf) /\
    ended s' F (jump_end (f_mem f) a).
Proof.
  intros HM C1 C2 C3 HO. destruct (close_fd_done s F O fs0 f buf HM C1) as (s1 & E1 & HM1).
  destruct (close_fd_done s1 F _ fu f buf HM1 C2) as (s2 & E2 & HM2). destruct (close_fd_done s2 F _ fb f buf HM2 C3) as (s3 & E3 & HM3).
  rewrite HO in HM3. unfold leave_boot. rewrite (after E1), (after E2), (after E3). unfold iap_load_app, jump_end. msteps. cbn [b_flash].
  destruct (Z.eqb_spec (Z.land (word_at (f_mem f) a) 0x2FFE0000) 0x20000000).
  - msteps. by exists s3.
  - msteps. destruct (unmount_law s3 F HM3) as (s4 & E4 & HD). exists s4. unfold open_usb. by rewrite (after (fs_done _ _ _ f buf _ E4)).
Qed.

Lemma leave_none s F a x y z f buf : mounted s F ∅ -> no_fd x -> no_fd y -> no_fd z ->
  exists s', leave_boot (to_application a x y z) (Boot s f buf) = Done (jump_end (f_mem f) a) (Boot s' f buf) /\
    ended s' F (jump_end (f_mem f) a).
Proof. intros HM Hx Hy Hz. eapply leave_done; rewrite ?delete_empty; try done; right; by rewrite lookup_empty. Qed.

(** The descriptor [fd] is given out, and closed with the two others that never were. *)
Lemma leave_one s F a fd o x y f buf : mounted s F {[ fd := o ]} -> ~ no_fd fd -> no_fd x -> no_fd y ->
  exists s', leave_boot (to_application a fd x y) (Boot s f buf) = Done (jump_end (f_mem f) a) (Boot s' f buf) /\
    ended s' F (jump_end (f_mem f) a).
Proof.
  intros HM Hfd Hx Hy. eapply leave_done; [done|left; split; [done|by rewrite lookup_singleton_eq]|right; split; [done|]|right; split; [done|]|];
    by rewrite delete_singleton_eq, ?delete_empty, ?lookup_empty.
Qed.

Lemma leave_two s F a fd1 fd2 o1 o2 y f buf : mounted s F (<[fd2 := o2]> {[ fd1 := o1 ]}) -> fd1 <> fd2 -> ~ no_fd fd1 -> ~ no_fd fd2 -> no_fd y ->
  exists s', leave_boot (to_application a fd1 fd2 y) (Boot s f buf) = Done (jump_end (f_mem f) a) (Boot s' f buf) /\
    ended s' F (jump_end (f_mem f) a).
Proof.
  intros HM Hne H1 H2 Hy.
  assert (E1 : delete fd1 (<[fd2 := o2]> ({[ fd1 := o1 ]} : gmap Z ofile)) = {[ fd2 := o2 ]}).
  { rewrite delete_insert_ne by done. by rewrite delete_singleton_eq, insert_empty. }
  eapply leave_done; [done|left; split; [done|by rewrite lookup_insert_ne, lookup_singleton_eq by done]| | |]; rewrite E1.
  - left. by rewrite lookup_singleton_eq.
  - right. by rewrite delete_singleton_eq, lookup_empty.
  - by rewrite delete_singleton_eq, delete_empty.
Qed.

Lemma leave_three s F a fd1 fd2 fd3 o1 o2 o3 f buf : mounted s F (<[fd3 := o3]> (<[fd2 := o2]> {[ fd1 := o1 ]})) ->
  fd1 <> fd2 -> fd1 <> fd3 -> fd2 <> fd3 -> ~ no_fd fd1 -> ~ no_fd fd2 -> ~ no_fd fd3 ->
  exists s', leave_boot (to_application a fd1 fd2 fd3) (Boot s f buf) = Done (jump_end (f_mem f) a) (Boot s' f buf) /\
    ended s' F (jump_end (f_mem f) a).
Proof.
  intros HM N12 N13 N23 H1 H2 H3.
  assert (E1 : delete fd1 (<[fd3 := o3]> (<[fd2 := o2]> ({[ fd1 := o1 ]} : gmap Z ofile))) = <[fd3 := o3]> {[ fd2 := o2 ]}).
  { rewrite !delete_insert_ne by done. by rewrite delete_singleton_eq, insert_empty. }
  assert (E2 : delete fd2 (<[fd3 := o3]> ({[ fd2 := o2 ]} : gmap Z ofile)) = {[ fd3 := o3 ]}).
  { rewrite delete_insert_ne by done. by rewrite delete_singleton_eq, insert_empty. }
  eapply leave_done; [done|left; split; [done|by rewrite !lookup_insert_ne, lookup_singleton_eq by done]| | |]; rewrite E1, ?E2.
  - left. by rewrite lookup_insert_ne, lookup_singleton_eq by done.
  - left. by rewrite lookup_singleton_eq.
  - by rewrite delete_singleton_eq.
Qed.

(** ** Names and texts *)

Lemma bin_name_last v : last (bin_name v) = Some 110.
Proof. unfold bin_name. by rewrite last_app. Qed.

Lemma bin_name_system v : system_cfg <> bin_name v.
Proof. intros E. pose proof (bin_name_last v) as HL. by rewrite <- E in HL. Qed.

Lemma bin_name_update v : update_cfg <> bin_name v.
Proof. intros E. pose proof (bin_name_last v) as HL. by rewrite <- E in HL. Qed.

Lemma system_text_length v a : (length (system_text v a) <= 100)%nat.
Proof.
  unfold system_text, print_d, print_x, numeral. rewrite !length_app. pose proof (to_digits_length 16 a 16).
  pose proof (to_digits_length 10 v 16). pose proof (to_digits_length 10 (- v) 16).
  change (length key_version) with 8%nat. change (length (chars_of "boot_addr:0x")) with 12%nat.
  case_match; cbn [length]; rewrite !length_fmap, !length_reverse; cbn [length]; lia.
Qed.

(** ** Installing *)

(** The version is recorded in system.cfg. *)
Lemma record_done {T} s F O f buf fd p st v (k : M (boot S) T) : mounted s F O -> O !! fd = Some (OFile system_cfg p true) -> F !! system_cfg = Some st -> st <> [] ->
  let txt := system_text v USER_APP_ADDRESS in
  exists s' buf' o, (fs (lseek fd 0 SEEK_SET);;; clear_buf;;; set_buf (fill txt);;; fs (write fd txt);;; k) (Boot s f buf) = k (Boot s' f buf') /\
    mounted s' (<[system_cfg := overwrite 0 txt st]> F) (<[fd := o]> O).
Proof.
  intros HM HO Hst Hst0 txt. pose proof (system_text_length v USER_APP_ADDRESS) as Hlen. fold txt in Hlen.
  destruct (seek_law s F O fd _ st 0 HM HO Hst) as (s1 & E1 & HM1); [unfold blen; lia|lia|]. cbn [of_name of_rw] in HM1. change (Z.to_nat 0) with 0%nat in HM1.
  rewrite (after (fs_done _ _ _ f buf _ E1)). unfold clear_buf, set_buf. msteps. cbn [b_fs b_flash b_buf].
  destruct (write_law s1 F _ fd _ st txt HM1 ltac:(apply lookup_insert_eq) Hst) as (s2 & E2 & HM2); [done|cbn [of_pos]; lia|done|cbn [of_pos]; lia|].
  cbn [of_name of_rw of_pos] in HM2. rewrite insert_insert_eq in HM2. rewrite (after (fs_done _ _ _ f _ _ E2)). by do 3 eexists.
Qed.

(** The image is found and has the size announced. *)
Lemma open_image_done s F O f buf v img : mounted s F O -> (size O < 16)%nat -> (forall fd o, O !! fd = Some o -> of_name o <> bin_name v) ->
  F !! bin_name v = Some img -> blen img < 2 ^ 31 ->
  exists fb s1 s2, fs (open (bin_name v) (Z.lor O_RDONLY O_BINARY)) (Boot s f buf) = Done fb (Boot s1 f buf) /\ fb <> -1 /\ ~ no_fd fb /\ O !! fb = None /\
    fs (lseek fb 0 SEEK_END) (Boot s1 f buf) = Done (blen img) (Boot s2 f buf) /\ mounted s2 F (<[fb := OFile (bin_name v) (length img) false]> O).
Proof.
  intros HM Hs Hn Himg Hlen. destruct (open_law s F O (bin_name v) img (Z.lor O_RDONLY O_BINARY) HM (bin_name_file v) Himg Hn Hs) as (fb & s1 & E1 & Hfb & Hfo & HM1); [by right; right|].
  change (bool_decide (Z.lor O_RDONLY O_BINARY = O_RDWR)) with false in HM1.
  destruct (seek_end_law s1 F _ fb _ img HM1 ltac:(apply lookup_insert_eq) Himg Hlen) as (s2 & E2 & HM2). cbn [of_name of_rw] in HM2. rewrite insert_insert_eq in HM2.
  exists fb, s1, s2. split; [by apply fs_done|]. split; [unfold no_fd in Hfb; lia|]. split_and!; try done. by apply fs_done.
Qed.

Lemma install_done s F f f1 buf fs0 fu p q u img st buff :
  let O := <[fu := OFile update_cfg q false]> {[ fs0 := OFile system_cfg p true ]} in
  mounted s F O -> fs0 <> fu -> F !! system_cfg = Some st -> st <> [] -> F !! bin_name (update_version u) = Some img ->
  update_bin_size u = blen img -> USER_APP_ADDRESS + blen img < flash_end -> Forall is_byte img ->
  ef_erase_user_app USER_APP_ADDRESS (blen img) f = Done EF_NO_ERR f1 -> idle f1 -> length buff = 128%nat -> Forall is_byte buff ->
  exists fb s' f' buf' o1 o3, install ef_erase_user_app fs0 fu u buff (Boot s f buf) = Done (to_application (new_boot_addr u) fs0 fu fb) (Boot s' f' buf') /\
    ~ no_fd fb /\ O !! fb = None /\ (forall x, x < USER_APP_ADDRESS -> f_mem f' x = f_mem f1 x) /\
    (half_burnt f1 img 0 -> burnt_in (f_mem f') USER_APP_ADDRESS img) /\
    mounted s' (<[system_cfg := overwrite 0 (system_text (update_version u) USER_APP_ADDRESS) st]> F)
      (<[fs0 := o1]> (<[fb := o3]> O)).
Proof.
  intros O HM Hne Hst Hst0 Himg Hsz Hfit HB E3 HI1 Hlb HBb. unfold install. cbv zeta.
  assert (Hb0 : 0 <= blen img) by (unfold blen; lia). assert (Hb31 : blen img < 2 ^ 31) by (unfold USER_APP_ADDRESS, flash_end in *; lia).
  destruct (open_image_done s F O f buf (update_version u) img HM) as (fb & s1 & s2 & E1 & Hf1 & Hfb & Hfo & E2 & HM2); [| |done..|].
  { unfold O. rewrite map_size_insert_None, map_size_singleton by (by rewrite lookup_singleton_ne). lia. }
  { intros fd o. unfold O. intros [[_ <-]|[_ [_ <-]%lookup_singleton_Some]]%lookup_insert_Some; cbn; [apply bin_name_update|apply bin_name_system]. }
  rewrite (after E1), (proj2 (Z.eqb_neq fb (-1)) Hf1), (after E2), (proj2 (Z.eqb_neq (blen img) (-1))) by lia. rewrite (u32_small (blen img)) by lia.
  rewrite Hsz, Z.eqb_refl. cbn [negb]. rewrite (after (fl_done _ s2 _ _ buf _ E3)). rewrite bool_decide_true by done. cbn [negb].
  destruct (seek_law s2 F _ fb _ img 0 HM2 ltac:(apply lookup_insert_eq) Himg ltac:(lia) ltac:(lia)) as (s3 & E4 & HM3). cbn [of_name of_rw] in HM3. rewrite insert_insert_eq in HM3.
  rewrite (after (fs_done _ _ _ f1 buf _ E4)).
  destruct (copy_image_done (Z.to_nat (blen img / 128 + 1)) img (bin_name (update_version u)) F O fb buf Himg Hfit HB 0 s3 f1 buff 0%nat)
    as (r & s4 & f2 & p' & E5 & HM4 & Hlow & Hin); try done.
  { assert (0 <= blen img / 128) by (apply Z.div_pos; lia). rewrite Z2Nat.id by lia. clear -Hb0. Z.div_mod_to_equations. lia. }
  rewrite (after E5). assert (HO : (<[fb := OFile (bin_name (update_version u)) p' false]> O) !! fs0 = Some (OFile system_cfg p true)).
  { rewrite lookup_insert_ne by (intros ->; unfold O in Hfo; rewrite lookup_insert_ne, lookup_singleton_eq in Hfo by done; done).
    unfold O. by rewrite lookup_insert_ne, lookup_singleton_eq by done. }
  destruct (record_done (T := exit) s4 F _ f2 buf fs0 p st (update_version u) (ret (to_application (new_boot_addr u) fs0 fu fb)) HM4 HO Hst Hst0) as (s5 & buf' & o1 & E6 & HM5).
  by eexists fb, s5, f2, buf', o1, _.
Qed.

(** ** The whole boot loader *)

(** The contents of the files are bytes, and their sizes fit an [int]. *)
Definition files_ok (F : files) : Prop := forall n c, F !! n = Some c -> Forall is_byte c /\ blen c < 2 ^ 31.

Lemma parse_empty : parse_system (cfg_buf []) = Some None.
Proof. concrete. Qed.

(** How [load_system] ends. *)
Lemma load_system_done s F f ju jb : mounted s F ∅ -> 
  match F !! system_cfg with
  | None => exists s', load_system ju jb (Boot s f (replicate 200 0)) = Done (inl (to_application USER_APP_ADDRESS (-1) ju jb)) (Boot s' f (replicate 200 0)) /\ mounted s' F ∅
  | Some st => forall r, parse_system (cfg_buf st) = Some r ->
      exists fd s' p, load_system ju jb (Boot s f (replicate 200 0)) =
          Done (match r with None => inl (to_application USER_APP_ADDRESS fd ju jb) | Some (v, a) => inr (fd, v, a) end) (Boot s' f (cfg_buf st)) /\
        ~ no_fd fd /\ mounted s' F {[ fd := OFile system_cfg p true ]}
  end.
Proof.
  intros HM. unfold load_system. destruct (F !! system_cfg) as [st|] eqn:Hst.
  - intros r Hr. destruct (open_read_done s F ∅ system_cfg st O_RDWR f system_cfg_file HM Hst) as (fd & s1 & s2 & n & E1 & Hf1 & E2 & Hn & Hfd & _ & HM2);
      [by intros ?? ?%lookup_empty_Some|by rewrite map_size_empty; lia|by right; left|].
    change (bool_decide (Z.land O_RDWR 0x7fff = O_RDWR)) with true in HM2. rewrite insert_empty in HM2.
    rewrite (after E1), (proj2 (Z.eqb_neq fd (-1)) Hf1), (after E2), (proj2 (Z.eqb_neq n (-1)) Hn).
    rewrite (bind_done _ _ _ r (Boot s2 f (cfg_buf st))) by (apply deref_some; exact Hr).
    exists fd, s2. eexists. split; [|split; [exact Hfd|exact HM2]]. by destruct r as [[v a]|].
  - destruct (open_missing_done s F ∅ system_cfg O_RDWR f (replicate 200 0) system_cfg_file HM Hst) as (s1 & E1 & HM1); [by rewrite map_size_empty; lia|by right; left|]. rewrite (after E1). by exists s1.
Qed.

(** How [load_update] ends. *)
Lemma load_update_done s F f buf fs0 p v a jb : mounted s F {[ fs0 := OFile system_cfg p true ]} ->
  match F !! update_cfg with
  | None => exists s' buf', load_update fs0 v a jb (Boot s f buf) = Done (inl (to_application a fs0 (-1) jb)) (Boot s' f buf') /\
      mounted s' F {[ fs0 := OFile system_cfg p true ]}
  | Some ut => forall r, parse_update (cfg_buf ut) v = Some r ->
      exists fd s' buf' q, load_update fs0 v a jb (Boot s f buf) =
          Done (match r with None => inl (to_application a fs0 fd jb) | Some u => inr (fd, u) end) (Boot s' f buf') /\
        ~ no_fd fd /\ fs0 <> fd /\ mounted s' F (<[fd := OFile update_cfg q false]> {[ fs0 := OFile system_cfg p true ]})
  end.
Proof.
  intros HM. unfold load_update, clear_buf, set_buf. mstep. cbn [b_fs b_flash b_buf]. change (replicate (Z.to_nat CONFIG_FILE_MAX_SIZE) 0) with (replicate 200 0).
  destruct (F !! update_cfg) as [ut|] eqn:Hut.
  - intros r Hr. destruct (open_read_done s F _ update_cfg ut O_RDONLY f update_cfg_file HM Hut) as (fd & s1 & s2 & n & E1 & Hf1 & E2 & Hn & Hfd & Ho & HM2);
      [by intros ?? [_ <-]%lookup_singleton_Some|by rewrite map_size_singleton; lia|by left|].
    change (bool_decide (Z.land O_RDONLY 0x7fff = O_RDWR)) with false in HM2.
    rewrite (after E1), (proj2 (Z.eqb_neq fd (-1)) Hf1), (after E2), (proj2 (Z.eqb_neq n (-1)) Hn).
    rewrite (bind_done _ _ _ r (Boot s2 f (cfg_buf ut))) by (apply deref_some; exact Hr).
    exists fd, s2. do 2 eexists. split; [|split; [exact Hfd|split; [|exact HM2]]]; [by destruct r|]. by apply lookup_singleton_None in Ho.
  - destruct (open_missing_done s F _ update_cfg O_RDONLY f (replicate 200 0) update_cfg_file HM Hut) as (s1 & E1 & HM1); [by rewrite map_size_singleton; lia|by left|]. rewrite (after E1). by eexists _, _.
Qed.

(** The image is missing, or has another size: nothing is written. *)
Lemma install_refused s F f buf fs0 fu p q u buff :
  let O := <[fu := OFile update_cfg q false]> {[ fs0 := OFile system_cfg p true ]} in
  mounted s F O -> fs0 <> fu -> ~ no_fd fs0 -> ~ no_fd fu -> files_ok F ->
  match F !! bin_name (update_version u) with None => True | Some img => update_bin_size u <> blen img end ->
  exists s', (e <- install ef_erase_user_app fs0 fu u buff;; leave_boot e) (Boot s f buf) =
      Done (jump_end (f_mem f) (new_boot_addr u)) (Boot s' f buf) /\ ended s' F (jump_end (f_mem f) (new_boot_addr u)).
Proof.
  intros O HM Hne H1 H2 HFok Hc. unfold install. cbv zeta. rewrite bind_assoc.
  destruct (F !! bin_name (update_version u)) as [img|] eqn:Himg.
  - destruct (HFok _ _ Himg) as [_ Hlen].
    destruct (open_image_done s F O f buf (update_version u) img HM) as (fb & s1 & s2 & E1 & Hf1 & Hfb & Hfo & E2 & HM2); [| |done..|].
    { unfold O. rewrite map_size_insert_None, map_size_singleton by (by rewrite lookup_singleton_ne). lia. }
    { intros fd o. unfold O. intros [[_ <-]|[_ [_ <-]%lookup_singleton_Some]]%lookup_insert_Some; cbn; [apply bin_name_update|apply bin_name_system]. }
    rewrite (after E1), (proj2 (Z.eqb_neq fb (-1)) Hf1), bind_assoc, (after E2), (proj2 (Z.eqb_neq (blen img) (-1))) by (unfold blen; lia).
    rewrite (u32_small (blen img)) by (unfold blen in *; lia). rewrite (proj2 (Z.eqb_neq _ _) Hc). cbn [negb]. mstep.
    eapply leave_three; [exact HM2|done|..|done|done|done].
    + intros ->. unfold O in Hfo. by rewrite lookup_insert_ne, lookup_singleton_eq in Hfo by done.
    + intros ->. unfold O in Hfo. by rewrite lookup_insert_eq in Hfo.
  - destruct (open_missing_done s F O (bin_name (update_version u)) (Z.lor O_RDONLY O_BINARY) f buf (bin_name_file _) HM Himg) as (s1 & E1 & HM1); [unfold O; rewrite map_size_insert_None, map_size_singleton by (by rewrite lookup_singleton_ne); lia|by right; right|].
    rewrite (after E1). change (-1 =? -1) with true. cbv iota. mstep. eapply leave_two; [exact HM1|done|done|done|]. unfold no_fd. lia.
Qed.

(** An image that is installed fits into the flash. *)
Definition fits (c : choice) : Prop := match c with Start _ => True | Install _ img => USER_APP_ADDRESS + blen img < flash_end end.

(** The choice to install, taken apart. *)
Lemma install_inv F u img : boot_choice F = Some (Install u img) ->
  exists st v a ut, F !! system_cfg = Some st /\ parse_system (cfg_buf st) = Some (Some (v, a)) /\ F !! update_cfg = Some ut /\
    parse_update (cfg_buf ut) v = Some (Some u) /\ F !! bin_name (update_version u) = Some img /\ update_bin_size u = u32 (blen img).
Proof.
  unfold boot_choice. destruct (F !! system_cfg) as [st|]; [|done]. destruct (parse_system (cfg_buf st)) as [[[v a]|]|] eqn:E1; [|done..]. cbn [mbind option_bind].
  destruct (F !! update_cfg) as [ut|] eqn:E2; [|done]. destruct (parse_update (cfg_buf ut) v) as [[u'|]|] eqn:E3; [|done..]. cbn [mbind option_bind].
  destruct (F !! bin_name (update_version u')) as [img'|] eqn:E4; [|done]. destruct (Z.eqb_spec (update_bin_size u') (u32 (blen img'))); [|done]. intros [= -> ->].
  by exists st, v, a, ut.
Qed.

(** The whole path of an update whose area could be erased, whatever becomes of the writes. *)
Lemma bootloader_install s F f f1 ju jb buff u img : disk s F -> files_ok F -> boot_choice F = Some (Install u img) -> fits (Install u img) ->
  ef_erase_user_app USER_APP_ADDRESS (blen img) f = Done EF_NO_ERR f1 -> idle f1 -> length buff = 128%nat -> Forall is_byte buff ->
  exists b', bootloader ef_erase_user_app 0 ju jb buff (Boot s f (replicate 200 0)) = Done (jump_end (f_mem (b_flash b')) (new_boot_addr u)) b' /\
    ended (b_fs b') (alter (overwrite 0 (system_text (update_version u) USER_APP_ADDRESS)) system_cfg F) (jump_end (f_mem (b_flash b')) (new_boot_addr u)) /\
    (forall x, x < USER_APP_ADDRESS -> f_mem (b_flash b') x = f_mem f1 x) /\
    (half_burnt f1 img 0 -> burnt_in (f_mem (b_flash b')) USER_APP_ADDRESS img).
Proof.
  intros HD HFok HC Hfit HE HI1 Hlb HBb. destruct (install_inv _ _ _ HC) as (st & v & a & ut & Hst & Hps & Hut & Hpu & Himg & Hsz).
  destruct (HFok _ _ Himg) as [HB Hlen]. rewrite u32_small in Hsz by (unfold blen in *; lia).
  assert (Hst0 : st <> []) by (intros ->; by rewrite parse_empty in Hps).
  destruct (mount_law s F HD) as (s0 & E0 & HM0). unfold bootloader. cbn [Z.eqb]. rewrite (after (fs_done _ _ _ f _ _ E0)).
  change (negb (0 =? 0)) with false. cbn [when]. mstep. pose proof (load_system_done s0 F f ju jb HM0) as HS. rewrite Hst in HS.
  destruct (HS _ Hps) as (fd & s1 & p & E1 & Hfd & HM1). rewrite (after E1).
  pose proof (load_update_done s1 F f (cfg_buf st) fd p v a jb HM1) as HU. rewrite Hut in HU.
  destruct (HU _ Hpu) as (fu & s2 & buf2 & q & E2 & Hfu & Hne & HM2). rewrite (after E2).
  destruct (install_done s2 F f f1 buf2 fd fu p q u img st buff HM2 Hne Hst Hst0 Himg Hsz Hfit HB HE HI1 Hlb HBb)
    as (fb & s3 & f3 & buf3 & o1 & o3 & E & Hfb & Hfo & Hlow & Hin & HM3). rewrite (after E).
  assert (fb <> fu) by (intros ->; by rewrite lookup_insert_eq in Hfo).
  assert (fb <> fd) by (intros ->; by rewrite lookup_insert_ne, lookup_singleton_eq in Hfo by done).
  rewrite insert_insert_ne in HM3 by done. rewrite (insert_insert_ne _ fd fu) in HM3 by done. rewrite insert_singleton_eq in HM3.
  destruct (leave_three s3 _ (new_boot_addr u) fd fu fb _ _ _ f3 buf3 HM3) as (s4 & E4 & HD4); [done..|].
  exists (Boot s4 f3 buf3). split_and!; try done. cbn [b_fs b_flash].
  replace (alter _ system_cfg F) with (<[system_cfg := overwrite 0 (system_text (update_version u) USER_APP_ADDRESS) st]> F); [done|].
  apply map_eq. intros n. destruct (decide (n = system_cfg)) as [->|Hn]; [by rewrite lookup_insert_eq, lookup_alter_eq, Hst|].
  by rewrite lookup_insert_ne, lookup_alter_ne by done.
Qed.

(** What the boot loader has done when it has made the choice [c]. *)
Definition boot_done (F : files) (f : flash) (c : choice) (e : boot_end) (b : boot S) : Prop :=
  match c with
  | Start a => b_flash b = f /\ e = jump_end (f_mem f) a /\ ended (b_fs b) F e
  | Install u img =>
      burnt_in (f_mem (b_flash b)) USER_APP_ADDRESS img /\ (forall x, x < USER_APP_ADDRESS -> f_mem (b_flash b) x = f_mem f x) /\
      e = jump_end (f_mem (b_flash b)) (new_boot_addr u) /\
      ended (b_fs b) (alter (overwrite 0 (system_text (update_version u) USER_APP_ADDRESS)) system_cfg F) e
  end.

Lemma bootloader_start s F f ju jb buff a0 : disk s F -> files_ok F -> no_fd ju -> no_fd jb -> boot_choice F = Some (Start a0) ->
  exists e b', bootloader ef_erase_user_app 0 ju jb buff (Boot s f (replicate 200 0)) = Done e b' /\ boot_done F f (Start a0) e b'.
Proof.
  intros HD HFok Hju Hjb Hc. destruct (mount_law s F HD) as (s0 & E0 & HM0). unfold bootloader. cbn [Z.eqb].
  rewrite (after (fs_done _ _ _ f _ _ E0)). change (negb (0 =? 0)) with false. cbn [when]. mstep.
  pose proof (load_system_done s0 F f ju jb HM0) as HS. unfold boot_choice in Hc. destruct (F !! system_cfg) as [st|] eqn:Hst.
  2:{ injection Hc as <-. destruct HS as (s1 & E1 & HM1). rewrite (after E1).
      destruct (leave_none s1 F USER_APP_ADDRESS (-1) ju jb f (replicate 200 0) HM1) as (s2 & E2 & HD2); [unfold no_fd; lia|done..|].
      rewrite E2. by eexists _, _. }
  apply bind_Some in Hc as (r & Hr & Hc). destruct (HS r Hr) as (fd & s1 & p & E1 & Hfd & HM1). rewrite (after E1).
  destruct r as [[v a]|].
  2:{ injection Hc as <-. destruct (leave_one s1 F USER_APP_ADDRESS fd _ ju jb f (cfg_buf st) HM1) as (s2 & E2 & HD2); [done..|].
      rewrite E2. by eexists _, _. }
  pose proof (load_update_done s1 F f (cfg_buf st) fd p v a jb HM1) as HU. destruct (F !! update_cfg) as [ut|] eqn:Hut.
  2:{ injection Hc as <-. destruct HU as (s2 & buf2 & E2 & HM2). rewrite (after E2).
      destruct (leave_one s2 F a fd _ (-1) jb f buf2 HM2) as (s3 & E3 & HD3); [done|unfold no_fd; lia|done|]. rewrite E3. by eexists _, _. }
  apply bind_Some in Hc as (r & Hr' & Hc). destruct (HU r Hr') as (fu & s2 & buf2 & q & E2 & Hfu & Hne & HM2). rewrite (after E2).
  destruct r as [u|].
  2:{ injection Hc as <-. destruct (leave_two s2 F a fd fu _ _ jb f buf2 HM2) as (s3 & E3 & HD3); [done..|]. rewrite E3. by eexists _, _. }
  destruct (install_refused s2 F f buf2 fd fu p q u buff HM2 Hne Hfd Hfu HFok) as (s3 & E3 & HD3).
  - destruct (F !! bin_name (update_version u)) as [img|] eqn:Himg; [|done]. destruct (HFok _ _ Himg) as [_ Hlen].
    rewrite u32_small in Hc by (unfold blen in *; lia). by destruct (Z.eqb_spec (update_bin_size u) (blen img)).
  - rewrite E3. eexists _, _. split; [done|]. destruct (F !! bin_name (update_version u)) as [img|]; [destruct (update_bin_size u =? u32 (blen img)); [done|]|]; by injection Hc as <-.
Qed.

Lemma bootloader_done s F f ju jb buff c : erases_app ef_erase_user_app ->
  disk s F -> files_ok F -> idle f -> f_faults f = [] -> no_fd ju -> no_fd jb -> length buff = 128%nat -> Forall is_byte buff ->
  boot_choice F = Some c -> fits c ->
  exists e b', bootloader ef_erase_user_app 0 ju jb buff (Boot s f (replicate 200 0)) = Done e b' /\ boot_done F f c e b'.
Proof.
  intros HE HD HFok HI HF Hju Hjb Hlb HBb Hc Hfit. destruct c as [a|u img]; [by apply bootloader_start|].
  destruct (HE f (blen img) HI HF) as (f1 & E1 & HI1 & HF1 & Hff & Hlow); [unfold blen; lia|exact Hfit|].
  destruct (bootloader_install s F f f1 ju jb buff u img HD HFok Hc Hfit E1 HI1 Hlb HBb) as (b' & E & Hend & Hlow' & Hin).
  eexists _, b'. split; [exact E|]. cbn [boot_done]. split_and!; [|intros x Hx; rewrite Hlow' by done; by apply Hlow|done|done].
  apply Hin. split_and!; [done| |done]. intros x Hx. apply Hff. lia.
Qed.
End refinement.

(** ** Searching the configuration *)

(** The text [str] stands in [src] at [off]. *)
Definition occurs (str src : list Z) (off : nat) : Prop := take (length str) (drop off src) = str.

#[export] Instance occurs_dec str src off : Decision (occurs str src off) := decide (take (length str) (drop off src) = str).

(** [str] is first seen at [off]. *)
Definition first_at (str src : list Z) (off : nat) : Prop := occurs str src off /\ forall o, (o < off)%nat -> ~ occurs str src o.

Lemma memcmp_occurs src str off : (off + length str <= length src)%nat ->
  memcmp_eq (drop off src) str (blen str) = Some (bool_decide (occurs str src off)).
Proof.
  intros H. unfold memcmp_eq, blen, occurs. rewrite length_drop.
  rewrite (proj2 (Z.leb_le _ _)), (proj2 (Z.leb_le (Z.of_nat (length str)) _)) by lia. cbn. rewrite Nat2Z.id, (take_ge str) by lia. done.
Qed.

Lemma locate_done src str n : forall off, (off + n + length str <= length src + 1)%nat -> Z.of_nat (off + n + length str) < 2 ^ 16 ->
  exists r, locate n src str (blen str) (Z.of_nat off) = Some r /\
    ((r = 0 /\ forall o, (off <= o < off + n)%nat -> ~ occurs str src o) \/
     (exists o, r = Z.of_nat (o + length str) /\ (off <= o < off + n)%nat /\ occurs str src o /\ forall o', (off <= o' < o)%nat -> ~ occurs str src o')).
Proof.
  induction n as [|n IH]; intros off H1 H2; cbn [locate].
  { exists 0. split; [done|]. left. split; [done|]. intros o Ho. lia. }
  rewrite Nat2Z.id, memcmp_occurs by lia. cbn [mbind option_bind]. case_bool_decide as Ho.
  - eexists. split; [reflexivity|]. right. exists off. unfold blen. rewrite u16_small by lia. split_and!; [lia|lia|lia|done|]. intros o' Ho'. lia.
  - rewrite u16_small by lia. replace (Z.of_nat off + 1) with (Z.of_nat (Datatypes.S off)) by lia.
    destruct (IH (Datatypes.S off)) as (r & E & Hr); [lia|lia|]. exists r. split; [exact E|].
    destruct Hr as [[-> Hn]|(o & -> & Hb & Hoc & Hn)].
    + left. split; [done|]. intros o Ho'. destruct (decide (o = off)) as [->|]; [done|]. apply Hn. lia.
    + right. exists o. split_and!; try done; try lia. intros o' Ho'. destruct (decide (o' = off)) as [->|]; [done|]. apply Hn. lia.
Qed.

Lemma locate_string_done src str n : (n <= length src)%nat -> Z.of_nat n < 2 ^ 15 -> 0 < blen str < 2 ^ 15 ->
  exists r, LocateString src str (Z.of_nat n) = Some r /\
    ((r = 0 /\ forall o, (o + length str <= n)%nat -> ~ occurs str src o) \/
     (exists o, r = Z.of_nat (o + length str) /\ (o + length str <= n)%nat /\ first_at str src o)).
Proof.
  intros H1 H2 H3. unfold LocateString. assert (u16 (blen str) = blen str) as -> by (apply u16_small; lia). unfold blen in H3.
  destruct (decide (length str <= n)%nat) as [Hle|Hgt].
  - destruct (locate_done src str (Z.to_nat (Z.of_nat n - blen str + 1)) 0) as (r & E & Hr); [unfold blen; lia..|].
    exists r. split; [exact E|]. unfold blen in Hr. destruct Hr as [[-> Hn]|(o & -> & Hb & Ho & Hn)].
    + left. split; [done|]. intros o Ho. apply Hn. lia.
    + right. exists o. split_and!; [done|lia|]. split; [done|]. intros o' Ho'. apply Hn. lia.
  - exists 0. replace (Z.to_nat (Z.of_nat n - blen str + 1)) with 0%nat by (unfold blen; lia). split; [done|]. left. split; [done|]. lia.
Qed.

Lemma occurs_take str src n o : (o + length str <= n)%nat -> occurs str (take n src) o <-> occurs str src o.
Proof. intros H. unfold occurs. rewrite skipn_firstn_comm, take_take, Nat.min_l by lia. done. Qed.

(** [LocateString] returns the position behind the first occurrence of the text that lies in the part searched,
    or 0 if there is none; it reads nothing outside this part. *)
Theorem LocateString_correct src str n : (n <= length src)%nat -> Z.of_nat n < 2 ^ 15 -> 0 < blen str < 2 ^ 15 ->
  exists r, LocateString src str (Z.of_nat n) = Some r /\ LocateString (take n src) str (Z.of_nat n) = Some r /\
    ((r = 0 /\ forall o, (o + length str <= n)%nat -> ~ occurs str src o) \/
     (exists o, r = Z.of_nat (o + length str) /\ (o + length str <= n)%nat /\ first_at str src o)).
Proof.
  intros H1 H2 H3. destruct (locate_string_done src str n H1 H2 H3) as (r & E & Hr). exists r. split; [done|]. split; [|done].
  destruct (locate_string_done (take n src) str n) as (r' & E' & Hr'); [rewrite length_take; lia|done..|]. rewrite E'. f_equal.
  destruct Hr as [[-> Hn]|(o & -> & Hb & Ho & Hn)], Hr' as [[-> Hn']|(o' & -> & Hb' & Ho' & Hn')]; [done|..].
  - apply occurs_take in Ho'; [|done]. by destruct (Hn o').
  - apply (occurs_take _ _ n) in Ho; [|done]. by destruct (Hn' o).
  - destruct (lt_eq_lt_dec o o') as [[Hlt| ->]|Hlt]; [|done|].
    + destruct (Hn' o Hlt). by apply occurs_take.
    + destruct (Hn o' Hlt). by apply occurs_take in Ho'.
Qed.

(** ** Numbers *)

Lemma digit_val_digit d : 0 <= d < 16 -> digit_val (digit false d) = d.
Proof.
  intros Hd. assert (HD : d ∈ seqZ 0 16) by (apply elem_of_seqZ; lia). revert d HD Hd.
  apply (Forall_forall (fun d => 0 <= d < 16 -> digit_val (digit false d) = d) (seqZ 0 16)). repeat constructor; by intros _.
Qed.

Lemma scan_digits base c rest : base <= 16 -> base <= digit_val c -> forall ds acc, Forall (fun d => 0 <= d < base) ds ->
  scan base acc ((digit false <$> ds) ++ c :: rest) = Some (fold_left (fun v d => v * base + d) ds acc).
Proof.
  intros Hb Hc. induction ds as [|d ds IH]; intros acc HF; cbn.
  - by rewrite (proj2 (Z.ltb_ge _ _)) by lia.
  - apply Forall_cons in HF as [Hd HF]. rewrite digit_val_digit by lia. rewrite (proj2 (Z.ltb_lt _ _)) by lia. by apply IH.
Qed.

Lemma numeral_cons b n : exists d ds, numeral b n = d :: ds.
Proof.
  unfold numeral. destruct (reverse (to_digits 16 b n)) as [|d ds] eqn:E; [|eauto].
  apply (f_equal length) in E. rewrite length_reverse in E. cbn in E. by destruct (n <? b).
Qed.

Lemma numeral_digits b n : 2 <= b -> 0 <= n -> Forall (fun d => 0 <= d < b) (numeral b n).
Proof. intros. unfold numeral. by apply Forall_reverse, to_digits_range. Qed.

(** A digit is no white space and no sign. *)
Lemma digit_plain d : 0 <= d < 16 -> let c := digit false d in isspace c = false /\ (c =? 45) = false /\ (c =? 43) = false /\ 48 <= c /\ (d < 10 -> c <= 57).
Proof.
  intros Hd c. subst c. unfold digit. change (ch "0") with 48. change (ch "a") with 97.
  destruct (Z.ltb_spec d 10); unfold isspace; split_and!; repeat (apply orb_false_iff; split); try (apply andb_false_iff; right); try (apply Z.eqb_neq; lia); try (apply Z.leb_gt; lia); lia.
Qed.

Lemma clamp_id z : - 2 ^ 31 <= z < 2 ^ 31 -> clamp z = z.
Proof. intros. unfold clamp. lia. Qed.

(** The number [sprintf] prints is read back by [strtol]. *)
Lemma strtol_print_d v c rest : - 2 ^ 31 <= v < 2 ^ 31 -> 10 <= digit_val c -> strtol (print_d v ++ c :: rest) 10 = Some v.
Proof.
  intros Hv Hc. unfold strtol, print_d. destruct (Z.ltb_spec v 0).
  - cbn [app skip_space]. change (isspace 45) with false. cbv iota. unfold sign_of. change (45 =? 45) with true. cbv iota. change (10 =? 16) with false. cbv iota.
    rewrite (scan_digits 10) by (lia || done || by apply numeral_digits; lia). cbn [mbind option_bind]. fold (value 10 (numeral 10 (- v))).
    rewrite numeral_value by lia. by rewrite clamp_id, Z.opp_involutive by lia.
  - destruct (numeral_cons 10 v) as (d & ds & E). pose proof (numeral_digits 10 v ltac:(lia) ltac:(lia)) as HF. rewrite E in *.
    apply Forall_cons in HF as [Hd HF]. destruct (digit_plain d ltac:(lia)) as (P1 & P2 & P3 & _). rewrite fmap_cons. cbn [app skip_space].
    rewrite P1. unfold sign_of. rewrite P2, P3. change (10 =? 16) with false. cbv iota. rewrite app_comm_cons, <- fmap_cons.
    rewrite (scan_digits 10) by (lia || done || by constructor). cbn [mbind option_bind]. fold (value 10 (d :: ds)). rewrite <- E, numeral_value by lia. by rewrite clamp_id by lia.
Qed.

Lemma strtol_0x l : strtol (48 :: 120 :: l) 16 = (v ← scan 16 0 l; Some (clamp v)).
Proof. done. Qed.

Lemma strtol_print_x v c rest : 0 <= v < 2 ^ 31 -> 16 <= digit_val c -> strtol (chars_of "0x" ++ print_x v ++ c :: rest) 16 = Some v.
Proof.
  intros Hv Hc. unfold print_x. change (chars_of "0x") with [48; 120]. cbn [app]. rewrite strtol_0x.
  rewrite (scan_digits 16) by (lia || done || apply numeral_digits; lia). cbn [mbind option_bind]. fold (value 16 (numeral 16 v)). rewrite numeral_value by lia. by rewrite clamp_id by lia.
Qed.

(** ** What is recorded is found again *)

Lemma first_at_unique str src o o' : first_at str src o -> first_at str src o' -> o = o'.
Proof. intros [H1 H2] [H3 H4]. destruct (lt_eq_lt_dec o o') as [[H| ->]|H]; [by destruct (H4 o H)|done|by destruct (H2 o' H)]. Qed.

Lemma locate_first src str n o : first_at str src o -> (o + length str <= n <= length src)%nat -> Z.of_nat n < 2 ^ 15 -> 0 < blen str < 2 ^ 15 ->
  LocateString src str (Z.of_nat n) = Some (Z.of_nat (o + length str)).
Proof.
  intros Ho Hn Hn2 Hs. destruct (locate_string_done src str n) as (r & -> & Hr); [lia|done..|]. f_equal.
  destruct Hr as [[_ HN]|(o' & -> & _ & Ho')]; [destruct (HN o); [lia|apply Ho]|]. by rewrite (first_at_unique _ _ _ _ Ho Ho').
Qed.

(** A text whose first character does not come before it. *)
Lemma first_at_app k ks pre post : k ∉ pre -> first_at (k :: ks) (pre ++ (k :: ks) ++ post) (length pre).
Proof.
  intros Hk. split.
  - unfold occurs. rewrite drop_app_length. by rewrite take_app_length.
  - intros o Ho Hocc. unfold occurs in Hocc. rewrite drop_app_le in Hocc by lia. apply Hk. destruct (drop o pre) as [|x l] eqn:E.
    { apply (f_equal length) in E. rewrite length_drop in E. cbn in E. lia. }
    cbn in Hocc. injection Hocc as -> _. apply list_elem_of_lookup. exists o. rewrite <- (Nat.add_0_r o), <- lookup_drop. by rewrite E.
Qed.

Lemma print_d_chars v c : c ∈ print_d v -> - 2 ^ 31 <= v < 2 ^ 31 -> c = 45 \/ 48 <= c <= 57.
Proof.
  intros Hc Hv. assert (Hd : forall n, 0 <= n -> c ∈ digit false <$> numeral 10 n -> 48 <= c <= 57).
  { intros n Hn (d & -> & Hd)%list_elem_of_fmap. eapply Forall_forall in Hd; [|apply (numeral_digits 10 n); lia]. cbn in Hd.
    destruct (digit_plain d ltac:(lia)) as (_ & _ & _ & H1 & H2). split; [done|]. apply H2. lia. }
  unfold print_d in Hc. destruct (v <? 0) eqn:E; zb; [apply elem_of_cons in Hc as [->|Hc]; [by left|]|]; right; [apply (Hd (- v))|apply (Hd v)]; lia || done.
Qed.

Lemma print_d_length v : (length (print_d v) <= 17)%nat.
Proof.
  unfold print_d, numeral. pose proof (to_digits_length 10 v 16). pose proof (to_digits_length 10 (- v) 16).
  case_match; cbn [length]; rewrite length_fmap, length_reverse; lia.
Qed.

(** The parse of system.cfg up to the boot address, for a text that was recorded by the boot loader. *)
Lemma parse_recorded v a rest : - 2 ^ 31 <= v < 2 ^ 31 -> (50 <= length rest)%nat ->
  parse_system (system_text v a ++ rest) =
    (n ← strtol (chars_of "0x" ++ print_x a ++ rest) 16; Some (if boot_range (u32 n) then Some (v, u32 n) else None)).
Proof.
  intros Hv Hr. unfold parse_system, system_text. rewrite <- !app_assoc.
  change (chars_of "boot_addr:0x") with (key_boot_addr ++ chars_of "0x"). rewrite <- !app_assoc.
  set (t2 := key_boot_addr ++ chars_of "0x" ++ print_x a ++ rest). set (t1 := print_d v ++ [13; 10] ++ t2).
  assert (L2 : (50 <= length t2)%nat) by (unfold t2; rewrite !length_app; lia).
  pose proof (print_d_length v) as L3. assert (L1 : (50 <= length t1)%nat) by (unfold t1; rewrite !length_app; lia).
  change (LocateString (key_version ++ t1) key_version 16) with (LocateString (key_version ++ t1) key_version (Z.of_nat 16)).
  rewrite (locate_first (key_version ++ t1) key_version 16 0); [|apply (first_at_app _ _ []); set_solver|rewrite length_app; cbn; lia|lia|done].
  cbn [mbind option_bind]. change (Z.of_nat (0 + length key_version) =? 0) with false. cbv iota.
  unfold at_off. change (drop (Z.to_nat (Z.of_nat (0 + length key_version))) (key_version ++ t1)) with t1.
  unfold atol, t1. cbn [app]. rewrite strtol_print_d by done. cbn [mbind option_bind].
  change (print_d v ++ 13 :: 10 :: t2) with (print_d v ++ [13; 10] ++ t2). rewrite (app_assoc (print_d v)). set (pre := print_d v ++ [13; 10]).
  assert (Lp : length pre = (length (print_d v) + 2)%nat) by (unfold pre; by rewrite length_app).
  change (LocateString (pre ++ t2) key_boot_addr 50) with (LocateString (pre ++ t2) key_boot_addr (Z.of_nat 50)).
  rewrite (locate_first (pre ++ t2) key_boot_addr 50 (length pre)); [| |change (length key_boot_addr) with 10%nat; rewrite length_app; lia|lia|done].
  2:{ apply first_at_app. unfold pre. intros [Hb|Hb]%elem_of_app; [apply print_d_chars in Hb; [|done]; vm_compute in Hb; naive_solver|by apply (bool_decide_eq_true_2 (98 ∈ [13; 10])) in Hb]. }
  cbn [mbind option_bind]. rewrite (proj2 (Z.eqb_neq _ 0)) by (cbn; lia). rewrite Nat2Z.id.
  replace (drop (length pre + length key_boot_addr) (pre ++ t2)) with (chars_of "0x" ++ print_x a ++ rest)
    by (rewrite <- drop_drop, drop_app_length; done).
  destruct (strtol _ 16) as [n|]; [|done]. cbn [mbind option_bind]. by destruct (boot_range (u32 n)).
Qed.

Lemma length_cfg_buf c : length (cfg_buf c) = 200%nat.
Proof. unfold cfg_buf. rewrite fill_length; [done|]. rewrite length_take, length_replicate. lia. Qed.

(** The buffer of a file that begins with the text [t]. *)
Lemma cfg_buf_app t c : (length t <= 100)%nat -> exists rest, cfg_buf (t ++ c) = t ++ rest /\ (100 <= length rest)%nat /\ rest = fill (take (200 - length t) c) (replicate (200 - length t) 0).
Proof.
  intros Ht. eexists. split; [|split; [|reflexivity]].
  - unfold cfg_buf, fill. rewrite take_app, (take_ge t) by lia. rewrite <- app_assoc. do 2 f_equal. rewrite length_app, !drop_replicate. f_equal. lia.
  - rewrite fill_length; [rewrite length_replicate; lia|]. rewrite length_take, length_replicate. lia.
Qed.

Lemma overwrite_0 t c : overwrite 0 t c = t ++ drop (length t) c.
Proof. done. Qed.

Lemma strtol_range l b v : strtol l b = Some v -> - 2 ^ 31 <= v < 2 ^ 31.
Proof.
  unfold strtol. destruct (sign_of (skip_space l)) as [neg l']. destruct (scan b 0 _) as [n|]; [|done]. cbn. intros [= <-]. unfold clamp. lia.
Qed.

(** An update that was chosen is not chosen again by the version it has. *)
Lemma parse_update_again buf v u : parse_update buf v = Some (Some u) ->
  parse_update buf (update_version u) = Some None /\ - 2 ^ 31 <= update_version u < 2 ^ 31 /\ v < update_version u.
Proof.
  unfold parse_update. destruct (LocateString buf key_version 16) as [off|]; [|done]. cbn [mbind option_bind]. destruct (off =? 0); [done|].
  destruct (atol (at_off off buf)) as [v'|] eqn:Ev; [|done]. cbn [mbind option_bind]. destruct (Z.leb_spec v' v); [done|].
  intros HU. assert (update_version u = v') as ->.
  { repeat match type of HU with
    | (match ?o with Some _ => _ | None => _ end) = _ => destruct o; [|done]
    | (?o ≫= _) = _ => destruct o; [cbn [mbind option_bind] in HU|done]
    | (if ?b then _ else _) = _ => destruct b; [done|]
    end. by injection HU as <-. }
  rewrite Z.leb_refl. split; [done|]. split; [by eapply strtol_range|lia].
Qed.

(** The version recorded, with the boot address behind it ended by [c]. *)
Lemma parse_recorded_ok v st : - 2 ^ 31 <= v < 2 ^ 31 ->
  let txt := system_text v USER_APP_ADDRESS in
  match drop (length txt) st with c :: _ => 16 <= digit_val c | [] => True end ->
  parse_system (cfg_buf (overwrite 0 txt st)) = Some (Some (v, USER_APP_ADDRESS)).
Proof.
  intros Hv txt Hc. rewrite overwrite_0. pose proof (system_text_length v USER_APP_ADDRESS) as Hl. fold txt in Hl.
  destruct (cfg_buf_app txt (drop (length txt) st) Hl) as (rest & -> & Hr & Er). unfold txt at 1. rewrite parse_recorded by (done || lia).
  assert (exists c rest', rest = c :: rest' /\ 16 <= digit_val c) as (c & rest' & -> & Hd).
  { destruct (drop (length txt) st) as [|c l].
    - exists 0, (replicate (199 - length txt) 0). split; [|by vm_compute]. rewrite Er, take_nil. unfold fill. cbn [length app drop]. by replace (200 - length txt)%nat with (Datatypes.S (199 - length txt)) by lia.
    - replace (200 - length txt)%nat with (Datatypes.S (199 - length txt)) in Er by lia. eexists c, _. split; [exact Er|done]. }
  rewrite strtol_print_x by done. done.
Qed.

Lemma recorded_found_done F u img st : boot_choice F = Some (Install u img) -> F !! system_cfg = Some st ->
  let txt := system_text (update_version u) USER_APP_ADDRESS in
  match drop (length txt) st with c :: _ => 16 <= digit_val c | [] => True end ->
  boot_choice (alter (overwrite 0 txt) system_cfg F) = Some (Start USER_APP_ADDRESS).
Proof.
  intros HC Hst txt Hc. destruct (install_inv _ _ _ HC) as (st' & v & a & ut & E1 & E2 & E3 & E4 & _ & _).
  assert (st' = st) as -> by congruence. destruct (parse_update_again _ _ _ E4) as (HU & Hv & _). unfold boot_choice.
  rewrite lookup_alter_eq, Hst. cbn [fmap option_fmap option_map]. unfold txt. rewrite parse_recorded_ok by done. cbn [mbind option_bind].
  rewrite lookup_alter_ne, E3 by done. by rewrite HU.
Qed.

Lemma digit_val_nonneg c : 0 <= digit_val c.
Proof. unfold digit_val. repeat case_match; zb; lia. Qed.

(** Digits behind a number only make it larger. *)
Lemma scan_grows base : 1 <= base <= 36 -> forall l acc rest, 0 <= acc -> exists r, scan base acc (l ++ 0 :: rest) = Some r /\ acc <= r.
Proof.
  intros Hb. induction l as [|c l IH]; intros acc rest Ha; cbn [app scan].
  - change (digit_val 0) with 36. rewrite (proj2 (Z.ltb_ge _ _)) by lia. by exists acc.
  - destruct (digit_val c <? base); [|by exists acc]. pose proof (digit_val_nonneg c).
    destruct (IH (acc * base + digit_val c) rest) as (r & E & Hr); [nia|]. exists r. split; [done|nia].
Qed.

(** A hexadecimal digit left over behind the text that was recorded: the boot address is out of range. *)
Lemma recorded_lost_done F v st c l : - 2 ^ 31 <= v < 2 ^ 31 -> (length st < 200)%nat ->
  let txt := system_text v USER_APP_ADDRESS in
  drop (length txt) st = c :: l -> digit_val c < 16 -> F !! system_cfg = Some (overwrite 0 txt st) ->
  boot_choice F = Some (Start USER_APP_ADDRESS).
Proof.
  intros Hv Hlen txt Hd Hc HF. unfold boot_choice. rewrite HF, overwrite_0, Hd. pose proof (system_text_length v USER_APP_ADDRESS) as Hl. fold txt in Hl.
  destruct (cfg_buf_app txt (c :: l) Hl) as (rest & -> & Hr & Er). unfold txt at 1. rewrite parse_recorded by (done || lia).
  assert (Hll : (length (c :: l) + length txt < 200)%nat) by (apply (f_equal length) in Hd; rewrite length_drop in Hd; cbn in *; lia).
  rewrite take_ge in Er by lia. unfold fill in Er. rewrite drop_replicate in Er.
  destruct (200 - length txt - length (c :: l))%nat as [|k] eqn:Ek; [lia|]. cbn [replicate] in Er. subst rest.
  assert (exists n, strtol (chars_of "0x" ++ print_x USER_APP_ADDRESS ++ (c :: l) ++ 0 :: replicate k 0) 16 = Some n /\ 0x08060000 < n < 2 ^ 31) as (n & -> & Hn).
  { change (chars_of "0x") with [48; 120]. cbn [app]. rewrite strtol_0x.
    change (scan 16 0 (print_x USER_APP_ADDRESS ++ c :: l ++ 0 :: replicate k 0)) with (scan 16 USER_APP_ADDRESS (c :: l ++ 0 :: replicate k 0)). cbn [scan].
    rewrite (proj2 (Z.ltb_lt _ _) Hc). pose proof (digit_val_nonneg c).
    destruct (scan_grows 16 ltac:(lia) l (USER_APP_ADDRESS * 16 + digit_val c) (replicate k 0)) as (r & -> & Hr2); [unfold USER_APP_ADDRESS; lia|].
    exists (2 ^ 31 - 1). split; [|lia]. cbn [mbind option_bind]. f_equal. unfold clamp, USER_APP_ADDRESS in *. lia. }
  cbn [mbind option_bind]. rewrite u32_small by lia. unfold boot_range. rewrite (proj2 (Z.ltb_lt _ _)) by apply Hn. done.
Qed.

(** ** A file system *)

(** A file system with a flat directory in memory, which keeps the laws. *)
Record flatfs := Flat { ff_mounted : bool; ff_files : files; ff_open : gmap Z ofile }.

Definition flat_open (n : list Z) (flags : Z) : M flatfs Z := fun s =>
  match ff_files s !! n, list_find (fun fd => ff_open s !! fd = None) (seqZ 3 16) with
  | Some _, Some (_, fd) =>
      if bool_decide (map_Forall (fun _ f => of_name f <> n) (ff_open s)) then
        Done fd (Flat (ff_mounted s) (ff_files s) (<[fd := OFile n 0 (bool_decide (flags = O_RDWR))]> (ff_open s)))
      else Done (-1) s
  | _, _ => Done (-1) s
  end.

(** An operation on an open file, with its contents; [None] is an error. *)
Definition flat_on {T} (fd : Z) (err : T) (g : ofile -> list Z -> option (T * nat * list Z)) : M flatfs T := fun s =>
  match (f ← ff_open s !! fd; c ← ff_files s !! of_name f; r ← g f c; Some (f, r)) with
  | Some (f, (a, p, c)) => Done a (Flat (ff_mounted s) (<[of_name f := c]> (ff_files s)) (<[fd := OFile (of_name f) p (of_rw f)]> (ff_open s)))
  | None => Done err s
  end.

Definition read_at (len : Z) (f : ofile) (c : list Z) : option (Z * list Z * nat * list Z) :=
  let bs := take (Z.to_nat len) (drop (of_pos f) c) in Some (blen bs, bs, (of_pos f + length bs)%nat, c).
Definition seek_to (off whence : Z) (f : ofile) (c : list Z) : option (Z * nat * list Z) :=
  let p := (if whence =? SEEK_END then blen c else 0) + off in Some (p, Z.to_nat p, c).
Definition write_at (bs : list Z) (f : ofile) (c : list Z) : option (Z * nat * list Z) :=
  if of_rw f then Some (blen bs, (of_pos f + length bs)%nat, overwrite (of_pos f) bs c) else None.

#[export] Instance flat_api : file_api flatfs := {
  dfs_mount := fun s => Done 0 (Flat true (ff_files s) ∅);
  dfs_mkfs := fun s => Done 0 (Flat (ff_mounted s) ∅ ∅);
  dfs_unmount := fun s => Done 0 (Flat false (ff_files s) ∅);
  open := flat_open;
  read fd len := flat_on fd (-1, []) (read_at len);
  lseek fd off whence := flat_on fd (-1) (seek_to off whence);
  write fd bs := flat_on fd (-1) (write_at bs);
  close fd := fun s => match ff_open s !! fd with Some _ => Done 0 (Flat (ff_mounted s) (ff_files s) (delete fd (ff_open s))) | None => Done (-1) s end
}.

Definition flat_rep (s : flatfs) (F : files) (O : gmap Z ofile) : Prop := s = Flat true F O /\ forall fd, is_Some (O !! fd) -> ~ no_fd fd.

Lemma free_fd (O : gmap Z ofile) : (size O < 16)%nat -> exists i fd, list_find (fun fd => O !! fd = None) (seqZ 3 16) = Some (i, fd) /\ O !! fd = None /\ 3 <= fd < 19.
Proof.
  intros Hs. destruct (list_find (fun fd => O !! fd = None) (seqZ 3 16)) as [[i fd]|] eqn:E.
  - exists i, fd. apply list_find_Some in E as (H1 & H2 & _). split_and!; try done; apply list_elem_of_lookup_2, elem_of_seqZ in H1; lia.
  - apply list_find_None in E. assert (Hsub : list_to_set (C := gset Z) (seqZ 3 16) ⊆ dom O).
    { intros x Hx. apply elem_of_list_to_set in Hx. eapply Forall_forall in E; [|exact Hx]. apply elem_of_dom. by destruct (O !! x); [|done]. }
    apply subseteq_size in Hsub. rewrite size_list_to_set in Hsub by apply NoDup_seqZ. rewrite size_dom in Hsub. rewrite length_seqZ in Hsub. lia.
Qed.

(** The contents or the position of an open file change. *)
Lemma flat_on_done {T} s F O fd f c (err : T) g a p c' : flat_rep s F O -> O !! fd = Some f -> F !! of_name f = Some c -> g f c = Some (a, p, c') ->
  exists s', flat_on fd err g s = Done a s' /\ flat_rep s' (<[of_name f := c']> F) (<[fd := OFile (of_name f) p (of_rw f)]> O).
Proof.
  intros [-> HO] H1 H2 H3. eexists. split; [unfold flat_on; cbn [ff_open ff_files]; rewrite H1; cbn; rewrite H2; cbn; by rewrite H3|].
  split; [done|]. intros fd' Hs. destruct (decide (fd' = fd)) as [->|Hne]; [apply HO; by rewrite H1|]. rewrite lookup_insert_ne in Hs by done. by apply HO.
Qed.

#[export] Instance flat_laws : file_laws flat_api.
Proof.
  refine {| disk := fun s F => s = Flat false F ∅; mounted := flat_rep |}.
  - intros s F ->. eexists. split; [reflexivity|]. split; [done|]. intros fd [o Ho]. by rewrite lookup_empty in Ho.
  - intros s F [-> _]. by eexists.
  - intros s F O n c flags [-> HO] _ Hn Hd Hs _. destruct (free_fd O Hs) as (i & fd & E & Hfd & Hb). exists fd. eexists. split.
    { cbn. unfold flat_open. cbn [ff_files ff_open]. rewrite Hn, E. by rewrite bool_decide_true. }
    split; [unfold no_fd; lia|]. split; [done|]. split; [done|]. intros fd' Hs'.
    destruct (decide (fd' = fd)) as [->|]; [unfold no_fd; lia|]. rewrite lookup_insert_ne in Hs' by done. by apply HO.
  - intros s F O n flags [-> HO] _ Hn _ _. eexists. split; [|by split]. cbn. unfold flat_open. cbn [ff_files]. by rewrite Hn.
  - intros s F O fd f c len HM H1 H2 Hl bs. destruct (flat_on_done s F O fd f c (-1, []) (read_at len) (blen bs, bs) (of_pos f + length bs) c HM H1 H2 eq_refl) as (s' & E & HR).
    exists s'. split; [exact E|]. by rewrite (insert_id F) in HR.
  - intros s F O fd f c off HM H1 H2 Hl _. destruct (flat_on_done s F O fd f c (-1) (seek_to off SEEK_SET) off (Z.to_nat off) c HM H1 H2 eq_refl) as (s' & E & HR).
    exists s'. split; [exact E|]. by rewrite (insert_id F) in HR.
  - intros s F O fd f c HM H1 H2 Hl. destruct (flat_on_done s F O fd f c (-1) (seek_to 0 SEEK_END) (blen c) (length c) c HM H1 H2) as (s' & E & HR).
    { unfold seek_to. change (SEEK_END =? SEEK_END) with true. cbv iota zeta. rewrite Z.add_0_r. unfold blen. by rewrite Nat2Z.id. }
    exists s'. split; [exact E|]. by rewrite (insert_id F) in HR.
  - intros s F O fd f c bs HM H1 H2 Hrw Hp _ _.
    destruct (flat_on_done s F O fd f c (-1) (write_at bs)
      (blen bs) (of_pos f + length bs) (overwrite (of_pos f) bs c) HM H1 H2) as (s' & E & HR); [unfold write_at; by rewrite Hrw|]. exists s'. split; [exact E|]. by rewrite <- Hrw.
  - intros s F O fd f [-> HO] Ho. eexists. cbn. rewrite Ho. split; [done|]. split; [done|]. intros fd' Hs. apply HO. destruct (decide (fd = fd')) as [->|]; [by rewrite Ho|].
    by rewrite lookup_delete_ne in Hs.
  - intros s F O fd [-> HO] Hn. eexists. cbn. destruct (O !! fd) eqn:Ho; [|by split]. destruct (HO fd); [by rewrite Ho|done].
Defined.

(** ** Theorems *)


(** C34: After an update the version recorded in system.cfg is found at the next start: the same update
    is not installed again, and the application at USER_APP_ADDRESS is started.  What is left of the old
    system.cfg behind the new text must not go on with a hexadecimal digit. *)
Theorem recorded_version_found {S : Type} {A : file_api S} {L : file_laws A} ef_erase_user_app s F f ju jb buff u img st :
  boot_choice F = Some (Install u img) -> F !! system_cfg = Some st ->
  let txt := system_text (update_version u) USER_APP_ADDRESS in let F' := alter (overwrite 0 txt) system_cfg F in
  match drop (length txt) st with c :: _ => 16 <= digit_val c | [] => True end -> disk s F' -> files_ok F' -> no_fd ju -> no_fd jb ->
  exists e b', bootloader ef_erase_user_app 0 ju jb buff (Boot s f (replicate 200 0)) = Done e b' /\ boot_done F' f (Start USER_APP_ADDRESS) e b'.
Proof. intros. apply bootloader_start; [done..|]. by eapply recorded_found_done. Qed.

(** C35: system.cfg is not cut off when it is written: if a hexadecimal digit of the old text stands behind the
    new one, the boot address read at the next start is out of range, and no update is ever
    installed again, whatever the other files hold. *)
Theorem recorded_version_lost {S : Type} {A : file_api S} {L : file_laws A} ef_erase_user_app s F f ju jb buff v st c l :
  - 2 ^ 31 <= v < 2 ^ 31 -> (length st < 200)%nat ->
  let txt := system_text v USER_APP_ADDRESS in
  drop (length txt) st = c :: l -> digit_val c < 16 -> F !! system_cfg = Some (overwrite 0 txt st) -> disk s F -> files_ok F -> no_fd ju -> no_fd jb ->
  exists e b', bootloader ef_erase_user_app 0 ju jb buff (Boot s f (replicate 200 0)) = Done e b' /\ boot_done F f (Start USER_APP_ADDRESS) e b'.
Proof. intros. apply bootloader_start; [done..|]. by eapply recorded_lost_done. Qed.


(** ** Witnesses *)

(** The erasing function of the port keeps the promise of [ef_erase_user_app]. *)
Lemma port_erases_app min : USER_APP_ADDRESS mod min = 0 -> erases_app (ef_port_erase min).
Proof.
  intros Hm f n HI HF Hn Hb. destruct (ef_erase_range min USER_APP_ADDRESS n f HI HF Hm) as (f' & E & HI' & HF' & Hff & Hlow); [done|done|done|].
  exists f'. split_and!; try done.
  - intros x Hx. apply Hff. lia.
  - intros x Hx. apply Hlow; [done|]. intros Hs. change (stm32_get_sector USER_APP_ADDRESS) with 5 in Hs.
    destruct (decide (flash_start <= x)) as [Hf|Hf].
    + destruct (get_sector_in x) as [_ Hb5]; [unfold USER_APP_ADDRESS, flash_end in *; lia|]. rewrite Hs in Hb5. revert Hb5. addrs. unfold USER_APP_ADDRESS in *. lia.
    + rewrite get_sector_out in Hs by lia. done.
Qed.

Definition crlf : list Z := [13; 10].
Definition demo_image : list Z := [0; 16; 0; 32; 1; 1; 2; 8].
Definition demo_system : list Z := chars_of "version:1" ++ crlf ++ chars_of "boot_addr:0x8020000".
Definition demo_files : files :=
  <[system_cfg := demo_system]>
  (<[update_cfg := chars_of "version:2" ++ crlf ++ chars_of "bin_size:8" ++ crlf ++ chars_of "check_sum:0" ++ crlf ++ chars_of "boot_addr:0x08020000"]>
  {[ chars_of "2.bin" := demo_image ]}).
Definition demo_flash : flash := Flash (fun _ => 0) true false [] false.
Definition demo_update : update := Update 2 8 0 USER_APP_ADDRESS.

Lemma demo_files_ok : files_ok demo_files.
Proof.
  unfold demo_files. intros n c [[_ <-]|[_ [[_ <-]|[_ [_ <-]%lookup_singleton_Some]]%lookup_insert_Some]]%lookup_insert_Some; (split; [decided|by vm_compute]).
Qed.

Lemma demo_choice : boot_choice demo_files = Some (Install demo_update demo_image).
Proof. concrete. Qed.


(** The sector is erased, and the first word is refused. *)
Definition bad_flash : flash := Flash (fun _ => 0) true false [false; true] false.
Definition bad_erased : flash := match ef_port_erase 0x20000 USER_APP_ADDRESS 8 bad_flash with Done _ f => f | Stop _ => bad_flash end.


Definition demo_recorded : files := alter (overwrite 0 (system_text 2 USER_APP_ADDRESS)) system_cfg demo_files.

Lemma alter_files_ok (g : list Z -> list Z) (F : files) : files_ok F -> (forall c, F !! system_cfg = Some c -> Forall is_byte (g c) /\ blen (g c) < 2 ^ 31) -> files_ok (alter g system_cfg F).
Proof.
  intros HF Hg n c. destruct (decide (n = system_cfg)) as [->|Hn]; [rewrite lookup_alter_eq|rewrite lookup_alter_ne by done; apply HF].
  destruct (F !! system_cfg) eqn:E; [|done]. intros [= <-]. by apply Hg.
Qed.

Lemma recorded_version_found_witness :
  exists e b', bootloader (ef_port_erase 0x20000) 0 (-1) (-1) [] (Boot (Flat false demo_recorded ∅) demo_flash (replicate 200 0)) = Done e b' /\ boot_done demo_recorded demo_flash (Start USER_APP_ADDRESS) e b'.
Proof.
  apply (recorded_version_found (ef_port_erase 0x20000) (Flat false demo_recorded ∅) demo_files demo_flash (-1) (-1) [] demo_update demo_image demo_system).
  - apply demo_choice.
  - done.
  - exact I.
  - done.
  - apply alter_files_ok; [apply demo_files_ok|]. intros c [= <-]. split; [decided|by vm_compute].
  - unfold no_fd. lia.
  - unfold no_fd. lia.
Defined.

(** The address with a leading zero, as one writes it by hand: the digit left over makes it 0x80200000. *)
Definition demo_zero : list Z := chars_of "version:1" ++ crlf ++ chars_of "boot_addr:0x08020000".

Definition demo_lost : files := <[system_cfg := overwrite 0 (system_text 2 USER_APP_ADDRESS) demo_zero]> demo_files.

Lemma demo_lost_ok : files_ok demo_lost.
Proof. unfold demo_lost. intros n c [[_ <-]|[_ H]]%lookup_insert_Some; [split; [decided|by vm_compute]|by apply (demo_files_ok n)]. Qed.

Lemma recorded_version_lost_witness :
  (exists e b', bootloader (ef_port_erase 0x20000) 0 (-1) (-1) [] (Boot (Flat false demo_lost ∅) demo_flash (replicate 200 0)) = Done e b' /\ boot_done demo_lost demo_flash (Start USER_APP_ADDRESS) e b') /\
  boot_choice (<[system_cfg := demo_zero]> demo_files) = Some (Install demo_update demo_image).
Proof.
  split; [|concrete]. apply (recorded_version_lost (ef_port_erase 0x20000) (Flat false demo_lost ∅) demo_lost demo_flash (-1) (-1) [] 2 demo_zero 48 []);
    [lia|vm_compute; lia|done|done|apply lookup_insert_eq|done|apply demo_lost_ok|unfold no_fd; lia|unfold no_fd; lia].
Defined.
