(* ===== verification/Msh.v ===== *)
(** * Commands of the shell (components/finsh/msh.c)

    A command line is an array of characters that [msh_split] cuts into arguments in place: it
    puts NULs over the blanks and the closing quotes and stores pointers to the
    arguments.  [split] is the reference: a pass over the text that gives the arguments
    themselves.  The theorems show that the arguments a command gets are those of the
    reference, that [msh_exec] calls the command the first word names, and that
    completion gives the longest common prefix of the commands, or of the entries of the
    directory, that begin with the word.  What the functions print is not part of the state: the
    names listed are a result, and the message about too many arguments is left out. *)

From Stdlib Require Import Ascii String.
From S2P Require Import Prelude Exec Printf Path.

Definition FINSH_ARG_MAX : nat := 10.

Definition blank (c : Z) : bool := ((c =? 32) || (c =? 9))%bool.
Definition quote : Z := 34.
Definition backslash : Z := 92.

(** ** Splitting a line *)

(** The line as an array; [cmd] is an index into it, and [position] counts from there. *)
Abbreviation L := (M (list Z)).
Definition rdc (i : nat) : L Z := deref (fun b => b !! i).
Definition wrc (i : nat) (c : Z) : L unit := fun b => if bool_decide (i < length b)%nat then Done tt (<[i := c]> b) else Stop Undefined.

(** [position < length], with the length of type [rt_size_t]. *)
Definition before (position : nat) (len : Z) : bool := Z.of_nat position <? len.

(** The loops of [msh_split] advance; none of them goes past the end of the array, whose size bounds their turns. *)

Fixpoint strip (fuel cmd : nat) (len : Z) (position : nat) : L nat :=
  match fuel with
  | O => stuck Diverge
  | S fuel =>
      c <- rdc (cmd + position);;
      if (blank c && before position len)%bool then wrc (cmd + position) 0;;; strip fuel cmd len (S position)
      else ret position
  end.

Fixpoint skip_string (fuel cmd : nat) (len : Z) (position : nat) : L nat :=
  match fuel with
  | O => stuck Diverge
  | S fuel =>
      c <- rdc (cmd + position);;
      if (negb (c =? quote) && before position len)%bool then
        if c =? backslash then
          c1 <- rdc (cmd + S position);;
          if c1 =? quote then skip_string fuel cmd len (S (S position)) else skip_string fuel cmd len (S position)
        else skip_string fuel cmd len (S position)
      else ret position
  end.

Fixpoint skip_word (fuel cmd : nat) (len : Z) (position : nat) : L nat :=
  match fuel with
  | O => stuck Diverge
  | S fuel =>
      c <- rdc (cmd + position);;
      if (negb (blank c) && before position len)%bool then skip_word fuel cmd len (S position) else ret position
  end.

(** [while (position < length)]; the pointers stored in [argv] so far. *)
Fixpoint split_loop (fuel turns cmd : nat) (len : Z) (position : nat) (argv : list nat) : L (list nat) :=
  if before position len then
    match turns with
    | O => stuck Diverge
    | S turns =>
        position <- strip fuel cmd len position;;
        if bool_decide (FINSH_ARG_MAX <= length argv)%nat then ret argv
        else if negb (before position len) then ret argv
        else
          c <- rdc (cmd + position);;
          if c =? quote then
            let position := S position in
            let argv := argv ++ [(cmd + position)%nat] in
            position <- skip_string fuel cmd len position;;
            if negb (before position len) then ret argv
            else wrc (cmd + position) 0;;; split_loop fuel turns cmd len (S position) argv
          else
            let argv := argv ++ [(cmd + position)%nat] in
            position <- skip_word fuel cmd len position;;
            if negb (before position len) then ret argv else split_loop fuel turns cmd len position argv
    end
  else ret argv.

Definition msh_split (cmd : nat) (len : Z) : L (list nat) :=
  n <- gets (@length Z);; split_loop (S n) (S n) cmd len 0 [].

(** ** Finding and running a command *)

Section commands.
(** The table of the commands, which the linker collects: the names and the functions. *)
Variable table : list (list Z * Z).
(** [msh_exec_script] and [chdir], which are found in the file system: do they return 0? *)
Variables exec_script chdir : list Z -> bool.

Definition cmd_prefix : list Z := chars_of "__cmd_".

(** [strncmp(s1, s2, n) == 0] on arrays. *)
Fixpoint strncmp_eq (n : nat) (s1 s2 : list Z) : bool :=
  match n, s1, s2 with
  | O, _, _ => true
  | S n, c1 :: s1, c2 :: s2 => ((c1 =? c2) && ((c1 =? 0) || strncmp_eq n s1 s2))%bool
  | _, _, _ => false
  end.

(** The loop of [msh_get_cmd]; the names of the table end with a NUL, and a read behind it is undefined. *)
Fixpoint get_cmd (t : list (list Z * Z)) (cmd size : nat) : L (option Z) :=
  match t with
  | [] => ret None
  | (name, func) :: t =>
      if negb (strncmp_eq 6 (name ++ [0]) (cmd_prefix ++ [0])) then get_cmd t cmd size
      else
        same <- gets (fun b => strncmp_eq size (drop 6 (name ++ [0])) (drop cmd b));;
        if (same : bool) then
          c <- deref (fun _ => (name ++ [0]) !! (6 + size)%nat);;
          if c =? 0 then ret (Some func) else get_cmd t cmd size
        else get_cmd t cmd size
  end.
Definition msh_get_cmd (cmd size : nat) : L (option Z) := get_cmd table cmd size.

(** The string a pointer points to. *)
Definition string_at (b : list Z) (i : nat) : list Z := string_in (drop i b).

(** The function that is called and its arguments; [None] is -RT_ERROR. *)
Definition _msh_exec_cmd (cmd : nat) (len : Z) : L (option (Z * list (list Z))) :=
  n <- gets (@length Z);;
  cmd0_size <- skip_word (S n) cmd len 0;;
  if Nat.eqb cmd0_size 0 then ret None
  else
    f <- msh_get_cmd cmd cmd0_size;;
    match f with
    | None => ret None
    | Some func =>
        argv <- msh_split cmd len;;
        if Nat.eqb (length argv) 0 then ret None
        else args <- gets (fun b => string_at b <$> argv);; ret (Some (func, args))
    end.

(** The beginning of the line without blanks; there is no other bound than the NUL. *)
Fixpoint trim (fuel cmd : nat) : L nat :=
  match fuel with
  | O => stuck Diverge
  | S fuel => c <- rdc cmd;; if blank c then trim fuel (S cmd) else ret cmd
  end.

Inductive ran := Empty | Called (func : Z) (args : list (list Z)) | Script (line : list Z) | Chdir (line : list Z) | NotFound (name : list Z).

(** The loop that truncates the line at the first space. *)
Fixpoint cut_at_space (fuel i : nat) : L unit :=
  match fuel with
  | O => stuck Diverge
  | S fuel => c <- rdc i;; if (negb (c =? 32) && negb (c =? 0))%bool then cut_at_space fuel (S i) else wrc i 0
  end.

Definition msh_exec (len : Z) : L ran :=
  fuel <- gets (@length Z);;
  cmd <- trim (S fuel) 0;;
  let len := u32 (len - Z.of_nat cmd) in
  if len =? 0 then ret Empty
  else
    r <- _msh_exec_cmd cmd len;;
    match r with
    | Some (func, args) => ret (Called func args)
    | None =>
        l <- gets (fun b => string_at b cmd);;
        if exec_script l then ret (Script l)
        else if chdir l then ret (Chdir l)
        else cut_at_space (S fuel) cmd;;; n <- gets (fun b => string_at b cmd);; ret (NotFound n)
    end.

(** ** Completion *)

Fixpoint str_common (s1 s2 : list Z) : nat :=
  match s1, s2 with c1 :: s1, c2 :: s2 => if c1 =? c2 then S (str_common s1 s2) else O | _, _ => O end.

(** [msh_help]: the names it lists. *)
Definition commands : list (list Z) := drop 6 <$> filter (fun name => strncmp_eq 6 (name ++ [0]) (cmd_prefix ++ [0])) table.*1.

(** The loop over the commands, or over the entries of a directory: the name that is kept, the length
    it has in common with the others and the names that match. *)
Fixpoint complete_loop (names : list (list Z)) (prefix : list Z) (kept : option (list Z)) (min_length : nat) : option (list Z) * nat * list (list Z) :=
  match names with
  | [] => (kept, min_length, [])
  | name :: names =>
      if strncmp_eq (length prefix) (prefix ++ [0]) (name ++ [0]) then
        let '(kept, min_length) := if Nat.eqb min_length 0 then (Some name, length name) else (kept, min_length) in
        let common := str_common (default [] kept) name in
        let min_length := if bool_decide (common < min_length)%nat then common else min_length in
        let '(kept, min_length, listed) := complete_loop names prefix kept min_length in
        (kept, min_length, name :: listed)
      else complete_loop names prefix kept min_length
  end.

(** Copies into the line; there is no check that the characters fit. *)
Fixpoint put (i : nat) (cs : list Z) : L unit :=
  match cs with [] => ret tt | c :: cs => wrc i c;;; put (S i) cs end.

(** Where the name behind the last slash of a path begins. *)
Fixpoint behind_slash (i : nat) (path : list Z) (index : option nat) : option nat :=
  match path with [] => index | c :: path => behind_slash (S i) path (if c =? slash then Some (S i) else index) end.

(** The state of the file system: [rt_malloc(256)] succeeds or not, the working directory, and the
    names in a directory. *)
Variable room : bool.
Variable getcwd : list Z.
Variable opendir : list Z -> option (list (list Z)).

(** [full_path] before the name is filled in; it has 256 bytes. *)
Definition parent_path (path : list Z) (index : nat) : L (list Z) :=
  cwd <- (if hd 0 path =? slash then ret []
          else c <- deref (fun _ => last getcwd);; ret (if c =? slash then getcwd else getcwd ++ [slash]));;
  let full_path := cwd ++ take index path in
  if bool_decide (length full_path < 256)%nat then ret full_path else stuck Undefined.

(** [path] is an index into the line; the names that are printed. *)
Definition msh_auto_complete_path (path : nat) : L (list (list Z)) :=
  if negb room then ret []
  else
    p <- gets (fun b => string_at b path);;
    let index := default 0%nat (behind_slash 0 p None) in
    full_path <- parent_path p index;;
    match opendir full_path with
    | None => ret []
    | Some names =>
        let name := drop index p in
        if Nat.eqb (length name) 0 then ret names
        else
          let '(kept, min_length, listed) := complete_loop names name None 0 in
          if Nat.eqb min_length 0 then ret []
          else
            let full_path := default [] kept in
            put (path + index) (take min_length full_path);;;
            wrc (path + (index + min_length)) 0;;;
            ret (if bool_decide (min_length < length full_path)%nat then listed else [])
    end.

(** The search for a space, from the end of the line down to its second character. *)
Fixpoint space_before (ptr : nat) : L (option nat) :=
  match ptr with
  | O => ret None
  | S ptr' => c <- rdc ptr;; if c =? 32 then ret (Some ptr) else space_before ptr'
  end.

(** The names that are printed, of files and of commands. *)
Definition msh_auto_complete : L (list (list Z) * list (list Z)) :=
  c <- rdc 0;;
  if c =? 0 then ret ([], commands)
  else
    p <- gets string_in;;
    sp <- space_before (length p);;
    files <- match sp with Some ptr => msh_auto_complete_path (S ptr) | None => ret [] end;;
    prefix <- gets string_in;;
    let '(name_ptr, min_length, listed) := complete_loop commands prefix None 0 in
    match name_ptr with
    | None => ret (files, listed)
    | Some name => put 0 (take min_length name);;; ret (files, listed)
    end.
End commands.

(** ** The reference *)

Inductive mode := Between | InWord (w : list Z) | InString (w : list Z).

(** The arguments of a text, read from left to right.  In a string a quote may stand behind a backslash. *)
Fixpoint split (m : mode) (t : list Z) : list (list Z) :=
  match t with
  | [] => match m with Between => [] | InWord w | InString w => [w] end
  | c :: t =>
      match m with
      | Between => if blank c then split Between t else if c =? quote then split (InString []) t else split (InWord [c]) t
      | InWord w => if blank c then w :: split Between t else split (InWord (w ++ [c])) t
      | InString w =>
          if c =? quote then w :: split Between t
          else
            match t with
            | q :: t' => if ((c =? backslash) && (q =? quote))%bool then split (InString (w ++ [c; q])) t' else split (InString (w ++ [c])) t
            | [] => split (InString (w ++ [c])) t
            end
      end
  end.

(** How many characters of a text belong to the string it is inside of. *)
Fixpoint body (t : list Z) : nat :=
  match t with
  | [] => 0
  | c :: t =>
      if c =? quote then 0
      else match t with
           | q :: t' => if ((c =? backslash) && (q =? quote))%bool then 2 + body t' else 1 + body t
           | [] => 1
           end
  end.

Lemma split_blanks bl r : Forall (fun c => blank c = true) bl -> split Between (bl ++ r) = split Between r.
Proof. induction 1 as [|c bl Hc _ IH]; cbn; [done|]. by rewrite Hc. Qed.

Lemma split_word w : forall w0 r, Forall (fun c => blank c = false) w -> (r = [] \/ blank (hd 0 r) = true) ->
  split (InWord w0) (w ++ r) = (w0 ++ w) :: split Between r.
Proof.
  induction w as [|c w IH]; intros w0 r Hw Hr; cbn [app].
  - rewrite app_nil_r. destruct r as [|c r]; [done|]. destruct Hr as [?|Hr]; [done|]. cbn in Hr. cbn [split]. by rewrite Hr.
  - apply Forall_cons in Hw as [Hc Hw]. cbn [split]. rewrite Hc, IH by done. by rewrite <- app_assoc.
Qed.

(** Induction that follows the escaped quotes. *)
Lemma two_step_ind (P : list Z -> Prop) : P [] -> (forall c, P [c]) -> (forall c q t, P t -> P (q :: t) -> P (c :: q :: t)) -> forall t, P t.
Proof.
  intros H0 H1 H2 t. enough (P t /\ forall c, P (c :: t)) by tauto. induction t as [|q t [IH1 IH2]]; [done|]. split; [done|]. intros c. by apply H2.
Qed.

Lemma split_string_cons w c q t : split (InString w) (c :: q :: t) =
  if c =? quote then w :: split Between (q :: t)
  else if ((c =? backslash) && (q =? quote))%bool then split (InString (w ++ [c; q])) t else split (InString (w ++ [c])) (q :: t).
Proof. done. Qed.

Lemma body_cons c q t : body (c :: q :: t) = if c =? quote then 0%nat else if ((c =? backslash) && (q =? quote))%bool then (2 + body t)%nat else (1 + body (q :: t))%nat.
Proof. done. Qed.

Lemma body_le t : (body t <= length t)%nat.
Proof.
  induction t as [|c|c q t IH1 IH2] using two_step_ind; [done|cbn; case_match; lia|]. rewrite body_cons. cbn [length] in *. repeat case_match; lia.
Qed.

Lemma body_end t : drop (body t) t = [] \/ hd 0 (drop (body t) t) = quote.
Proof.
  induction t as [|c|c q t IH1 IH2] using two_step_ind; [by left|cbn; destruct (Z.eqb_spec c quote); [by right|by left]|].
  rewrite body_cons. destruct (Z.eqb_spec c quote) as [->|]; [by right|]. destruct ((c =? backslash) && (q =? quote))%bool; [exact IH1|exact IH2].
Qed.

Lemma split_string t : forall w0, split (InString w0) t = (w0 ++ take (body t) t) :: match drop (body t) t with _ :: r => split Between r | [] => [] end.
Proof.
  induction t as [|c|c q t IH1 IH2] using two_step_ind; intros w0.
  - cbn. by rewrite app_nil_r.
  - cbn -[quote]. destruct (c =? quote); cbn; [by rewrite app_nil_r|done].
  - rewrite split_string_cons, body_cons. destruct (c =? quote); [cbn; by rewrite app_nil_r|]. destruct ((c =? backslash) && (q =? quote))%bool.
    + rewrite IH1. cbn [Nat.add take drop]. by rewrite <- app_assoc.
    + specialize (IH2 (w0 ++ [c])). rewrite IH2. cbn [Nat.add take drop]. by rewrite <- app_assoc.
Qed.

(** ** The loops *)

Lemma rdc_mid B c T : rdc (length B) (B ++ c :: T) = Done c (B ++ c :: T).
Proof. apply deref_some. by apply list_lookup_middle. Qed.

Lemma wrc_mid B c x T : wrc (length B) x (B ++ c :: T) = Done tt (B ++ x :: T).
Proof.
  unfold wrc. rewrite bool_decide_true by (rewrite length_app; cbn; lia). rewrite insert_app_r_alt by lia. by rewrite Nat.sub_diag.
Qed.

Lemma rdc_at i B c T : i = length B -> rdc i (B ++ c :: T) = Done c (B ++ c :: T).
Proof. intros ->. apply rdc_mid. Qed.
Lemma wrc_at i B c x T : i = length B -> wrc i x (B ++ c :: T) = Done tt (B ++ x :: T).
Proof. intros ->. apply wrc_mid. Qed.

Lemma before_true p n : Z.of_nat p < n -> before p n = true.
Proof. apply Z.ltb_lt. Qed.
Lemma before_false p n : n <= Z.of_nat p -> before p n = false.
Proof. apply Z.ltb_ge. Qed.

Lemma strip_done bl : forall fuel cmd len pos B r T, (length bl < fuel)%nat -> length B = (cmd + pos)%nat -> Forall (fun c => blank c = true) bl ->
  Z.of_nat (pos + length bl + length r) = len -> (r = [] \/ blank (hd 0 r) = false) ->
  strip fuel cmd len pos (B ++ bl ++ r ++ 0 :: T) = Done (pos + length bl)%nat (B ++ replicate (length bl) 0 ++ r ++ 0 :: T).
Proof.
  induction bl as [|c bl IH]; intros [|fuel] cmd len pos B r T Hf HB Hbl Hlen Hr; cbn [length] in *; try lia; cbn [strip app replicate].
  - destruct r as [|c r]; cbn [app]; rewrite (after (rdc_at _ B _ _ (eq_sym HB))).
    + change (blank 0) with false. cbn [andb]. by rewrite Nat.add_0_r.
    + destruct Hr as [?|Hr]; [done|]. cbn in Hr. rewrite Hr. cbn [andb]. by rewrite Nat.add_0_r.
  - apply Forall_cons in Hbl as [Hc Hbl]. rewrite (after (rdc_at _ B _ _ (eq_sym HB))). rewrite Hc, before_true by lia. cbn [andb].
    rewrite (after (wrc_at _ B _ 0 _ (eq_sym HB))). specialize (IH fuel cmd len (S pos) (B ++ [0]) r T).
    rewrite <- !app_assoc in IH. cbn [app] in IH. rewrite IH; [|lia|rewrite length_app; cbn; lia|done|lia|done]. by replace (S pos + length bl)%nat with (pos + S (length bl))%nat by lia.
Qed.

Lemma skip_word_done w : forall fuel cmd len pos B r T, (length w < fuel)%nat -> length B = (cmd + pos)%nat -> Forall (fun c => blank c = false) w ->
  Z.of_nat (pos + length w + length r) = len -> (r = [] \/ blank (hd 0 r) = true) ->
  skip_word fuel cmd len pos (B ++ w ++ r ++ 0 :: T) = Done (pos + length w)%nat (B ++ w ++ r ++ 0 :: T).
Proof.
  induction w as [|c w IH]; intros [|fuel] cmd len pos B r T Hf HB Hw Hlen Hr; cbn [length] in *; try lia; cbn [skip_word app].
  - destruct r as [|c r]; cbn [app]; rewrite (after (rdc_at _ B _ _ (eq_sym HB))).
    + rewrite before_false by (cbn in Hlen; lia). rewrite andb_false_r. by rewrite Nat.add_0_r.
    + destruct Hr as [?|Hr]; [done|]. cbn in Hr. rewrite Hr. cbn [negb andb]. by rewrite Nat.add_0_r.
  - apply Forall_cons in Hw as [Hc Hw]. rewrite (after (rdc_at _ B _ _ (eq_sym HB))). rewrite Hc, before_true by lia. cbn [andb negb].
    specialize (IH fuel cmd len (S pos) (B ++ [c]) r T). rewrite <- !app_assoc in IH. cbn [app] in IH.
    rewrite IH; [|lia|rewrite length_app; cbn; lia|done|lia|done]. by replace (S pos + length w)%nat with (pos + S (length w))%nat by lia.
Qed.

Lemma skip_string_done t : forall fuel cmd len pos B T, (length t < fuel)%nat -> length B = (cmd + pos)%nat -> Z.of_nat (pos + length t) = len ->
  skip_string fuel cmd len pos (B ++ t ++ 0 :: T) = Done (pos + body t)%nat (B ++ t ++ 0 :: T).
Proof.
  induction t as [|c|c q t IH1 IH2] using two_step_ind; intros [|fuel] cmd len pos B T Hf HB Hlen; cbn [length] in *; try lia; cbn [skip_string app];
    rewrite (after (rdc_at _ B _ _ (eq_sym HB))).
  - rewrite before_false by lia. rewrite andb_false_r. by rewrite Nat.add_0_r.
  - cbn [body]. destruct (c =? quote); [by rewrite Nat.add_0_r|]. rewrite before_true by lia. cbn [negb andb].
    assert (E1 : skip_string fuel cmd len (S pos) (B ++ c :: 0 :: T) = Done (S pos) (B ++ c :: 0 :: T)).
    { destruct fuel as [|fuel]; [lia|]. cbn [skip_string]. change (c :: 0 :: T) with ([c] ++ 0 :: T). rewrite app_assoc.
      rewrite (after (rdc_at (cmd + S pos) (B ++ [c]) 0 T ltac:(rewrite length_app; cbn; lia))). by rewrite before_false, andb_false_r by lia. }
    assert (E2 : rdc (cmd + S pos) (B ++ c :: 0 :: T) = Done 0 (B ++ c :: 0 :: T)).
    { change (c :: 0 :: T) with ([c] ++ 0 :: T). rewrite app_assoc. apply rdc_at. rewrite length_app. cbn. lia. }
    replace (pos + 1)%nat with (S pos) by lia. destruct (c =? backslash); [rewrite (after E2)|]; exact E1.
  - rewrite body_cons. destruct (c =? quote); [by rewrite Nat.add_0_r|]. rewrite before_true by lia. cbn [negb andb].
    assert (E2 : rdc (cmd + S pos) (B ++ c :: q :: t ++ 0 :: T) = Done q (B ++ c :: q :: t ++ 0 :: T)).
    { change (c :: q :: t ++ 0 :: T) with ([c] ++ q :: t ++ 0 :: T). rewrite app_assoc. apply rdc_at. rewrite length_app. cbn. lia. }
    assert (E3 : skip_string fuel cmd len (S pos) (B ++ c :: q :: t ++ 0 :: T) = Done (S pos + body (q :: t))%nat (B ++ c :: q :: t ++ 0 :: T)).
    { specialize (IH2 fuel cmd len (S pos) (B ++ [c]) T). rewrite <- !app_assoc in IH2. cbn [app] in IH2. apply IH2; [cbn; lia|rewrite length_app; cbn; lia|cbn; lia]. }
    destruct (c =? backslash); cbn [andb]; [rewrite (after E2); destruct (q =? quote)|].
    + specialize (IH1 fuel cmd len (S (S pos)) (B ++ [c; q]) T). rewrite <- !app_assoc in IH1. cbn [app] in IH1.
      rewrite IH1; [|lia|rewrite length_app; cbn; lia|lia]. by replace (S (S pos) + body t)%nat with (pos + (2 + body t))%nat by lia.
    + rewrite E3. by replace (S pos + body (q :: t))%nat with (pos + (1 + body (q :: t)))%nat by lia.
    + rewrite E3. by replace (S pos + body (q :: t))%nat with (pos + (1 + body (q :: t)))%nat by lia.
Qed.

(** ** Arguments in the array *)

(** The argument [a] stands at the index [o], and a NUL behind it. *)
Definition closed (B : list Z) (o : nat) (a : list Z) : Prop := exists X Y, B = X ++ a ++ 0 :: Y /\ length X = o /\ path_chars a.

Lemma closed_app B R o a : closed B o a -> closed (B ++ R) o a.
Proof. intros (X & Y & -> & HX & Ha). exists X, (Y ++ R). split; [|done]. by rewrite <- !app_assoc. Qed.

Lemma closed_string B o a : closed B o a -> string_at B o = a.
Proof. intros (X & Y & -> & <- & Ha). unfold string_at. rewrite drop_app_length. by apply string_in_app. Qed.

Lemma closed_strings B argv done : Forall2 (closed B) argv done -> string_at B <$> argv = done.
Proof. induction 1 as [|o a argv done Ho _ IH]; cbn; [done|]. by rewrite (closed_string _ _ _ Ho), IH. Qed.

Lemma closed_all_app B R argv done : Forall2 (closed B) argv done -> Forall2 (closed (B ++ R)) argv done.
Proof. intros H. eapply Forall2_impl; [exact H|]. intros. by apply closed_app. Qed.

(** The arguments found so far, with the array done up to [B] and [t] still to come: all of them are ended by a NUL, or
    the last one by a blank that will be overwritten. *)
Definition args_ok (B t : list Z) (argv : list nat) (done : list (list Z)) : Prop :=
  Forall2 (closed B) argv done \/
  (exists argv' X w done', argv = argv' ++ [length X] /\ done = done' ++ [w] /\ Forall2 (closed B) argv' done' /\ B = X ++ w /\ path_chars w /\
    t <> [] /\ blank (hd 0 t) = true).

Lemma split_at (p : Z -> bool) t : exists a r, t = a ++ r /\ Forall (fun c => p c = true) a /\ (r = [] \/ p (hd 0 r) = false).
Proof.
  induction t as [|c t (a & r & -> & Ha & Hr)]; [exists [], []; split; [done|]; split; [constructor|by left]|].
  destruct (p c) eqn:E; [exists (c :: a), r; split; [done|]; split; [by constructor|done]|]. exists [], (c :: a ++ r). split; [done|]. split; [constructor|by right].
Qed.

Lemma args_ok_strip B bl r argv done : args_ok B (bl ++ r) argv done -> (r = [] \/ blank (hd 0 r) = false) ->
  Forall2 (closed (B ++ replicate (length bl) 0)) argv done.
Proof.
  intros [H|(argv' & X & w & done' & -> & -> & H & -> & Hw & Ht & Hb)] Hr; [by apply closed_all_app|].
  destruct bl as [|c bl]; [destruct Hr as [->|Hr]; [done|cbn in Hb; congruence]|].
  apply Forall2_app; [by apply closed_all_app|]. constructor; [|constructor]. exists X, (replicate (length bl) 0). split; [|done]. by rewrite <- !app_assoc.
Qed.

Lemma path_chars_app l1 l2 : path_chars (l1 ++ l2) <-> path_chars l1 /\ path_chars l2.
Proof. apply Forall_app. Qed.

(** One word, and one string, at the end of the text. *)
Lemma last_arg X w T argv done : path_chars w -> Forall2 (closed X) argv done ->
  string_at (X ++ w ++ 0 :: T) <$> (argv ++ [length X]) = done ++ [w].
Proof.
  intros Hw H. rewrite fmap_app. f_equal; [apply closed_strings; by apply closed_all_app|]. cbn. f_equal. apply closed_string. by exists X, T.
Qed.

(** What [split_loop] does behind the first character of a string, or with a word; [loop] is the rest of the loop. *)
Section one_argument.
Variables (fuel cmd : nat) (len : Z) (loop : nat -> list nat -> L (list nat)) (turns : nat).
Hypothesis loop_ok : forall pos B t T argv done,
  (length t < turns)%nat -> length B = (cmd + pos)%nat -> Z.of_nat (pos + length t) = len -> path_chars t ->
  (length argv <= 10)%nat -> length argv = length done -> args_ok B t argv done ->
  exists argv' b', loop pos argv (B ++ t ++ 0 :: T) = Done argv' b' /\
    string_at b' <$> argv' = done ++ take (10 - length done) (split Between t) /\ length b' = length (B ++ t ++ 0 :: T).

Lemma string_arg pos B r T argv done : (length r < turns)%nat -> (S (length r) < fuel)%nat -> length B = (cmd + pos)%nat ->
  Z.of_nat (pos + S (length r)) = len -> path_chars r -> (length argv < 10)%nat -> length argv = length done -> Forall2 (closed B) argv done ->
  exists argv' b',
    (position <- skip_string fuel cmd len (S pos);;
     if negb (before position len) then ret (argv ++ [(cmd + S pos)%nat])
     else wrc (cmd + position) 0;;; loop (S position) (argv ++ [(cmd + S pos)%nat])) (B ++ quote :: r ++ 0 :: T) = Done argv' b' /\
    string_at b' <$> argv' = done ++ take (10 - length done) (split (InString []) r) /\ length b' = length (B ++ quote :: r ++ 0 :: T).
Proof.
  intros Ht Hf HB Hlen HC Ha Hl HF. change (quote :: r ++ 0 :: T) with ([quote] ++ r ++ 0 :: T). rewrite (app_assoc B [quote]).
  set (B1 := B ++ [quote]). assert (HB1 : length B1 = (cmd + S pos)%nat) by (unfold B1; rewrite length_app; cbn; lia).
  rewrite (after (skip_string_done r fuel cmd len (S pos) B1 T ltac:(lia) HB1 ltac:(lia))).
  assert (HF1 : Forall2 (closed B1) argv done) by (by apply closed_all_app). rewrite split_string. cbn [app].
  pose proof (body_le r) as Hb. pose proof (body_end r) as He. pose proof (take_drop (body r) r) as HD.
  set (s := take (body r) r) in *. assert (Hs : length s = body r) by (unfold s; rewrite length_take; lia). assert (HCs : path_chars s) by (by apply Forall_take).
  replace (10 - length done)%nat with (S (9 - length done)) by lia. rewrite <- HB1. destruct (drop (body r) r) as [|q r'] eqn:Er.
  - rewrite app_nil_r in HD. rewrite <- HD in *. rewrite before_false by lia. exists (argv ++ [length B1]), (B1 ++ s ++ 0 :: T). split; [done|]. split; [|done].
    rewrite (last_arg B1 s T argv done HCs HF1). cbn. by rewrite take_nil.
  - destruct He as [?|He]; [done|]. cbn in He. subst q. rewrite <- HD in *. rewrite length_app in *. cbn [length] in *.
    rewrite before_true by lia. cbn [negb]. rewrite <- app_assoc. cbn [app]. rewrite (app_assoc B1).
    rewrite (after (wrc_at (cmd + (S pos + body (s ++ quote :: r'))) (B1 ++ s) quote 0 _ ltac:(rewrite length_app; lia))).
    change (0 :: r' ++ 0 :: T) with ([0] ++ r' ++ 0 :: T). rewrite (app_assoc (B1 ++ s)).
    destruct (loop_ok (S (S pos + body (s ++ quote :: r'))) ((B1 ++ s) ++ [0]) r' T (argv ++ [length B1]) (done ++ [s])) as (argv' & b' & E & Es & El).
    + lia.
    + rewrite !length_app. cbn [length]. lia.
    + lia.
    + apply path_chars_app in HC as [_ HC]. by apply Forall_cons in HC as [_ HC].
    + rewrite length_app. cbn [length]. lia.
    + rewrite !length_app. cbn [length]. lia.
    + left. apply Forall2_app; [rewrite <- app_assoc; by apply closed_all_app|]. constructor; [|constructor]. exists B1, []. split; [|done]. by rewrite <- app_assoc.
    + exists argv', b'. split; [exact E|]. rewrite Es, El, (length_app done). cbn [length take]. replace (10 - (length done + 1))%nat with (9 - length done)%nat by lia.
      split; [by rewrite <- app_assoc|]. rewrite !length_app. cbn [length]. rewrite length_app. cbn [length]. lia.
Qed.

Lemma word_arg pos B c r T argv done : (length r < turns)%nat -> (S (length r) < fuel)%nat -> length B = (cmd + pos)%nat -> blank c = false -> 
  Z.of_nat (pos + S (length r)) = len -> path_chars (c :: r) -> (length argv < 10)%nat -> length argv = length done -> Forall2 (closed B) argv done ->
  exists argv' b',
    (position <- skip_word fuel cmd len pos;;
     if negb (before position len) then ret (argv ++ [(cmd + pos)%nat]) else loop position (argv ++ [(cmd + pos)%nat])) (B ++ (c :: r) ++ 0 :: T) = Done argv' b' /\
    string_at b' <$> argv' = done ++ take (10 - length done) (split (InWord [c]) r) /\ length b' = length (B ++ (c :: r) ++ 0 :: T).
Proof.
  intros Ht Hf HB Hc Hlen HC Ha Hl HF. destruct (split_at (fun c => negb (blank c)) r) as (w & r' & -> & Hw & Hr).
  rewrite length_app in *. assert (Hw' : Forall (fun c => blank c = false) (c :: w)) by (constructor; [done|]; eapply Forall_impl; [exact Hw|intros x; apply negb_true_iff]).
  assert (Hr' : r' = [] \/ blank (hd 0 r') = true) by (destruct Hr as [?|Hr]; [by left|right; by apply negb_false_iff]).
  rewrite (split_word w [c] r') by (done || by apply Forall_cons in Hw' as [_ ?]). rewrite app_comm_cons in *. change ([c] ++ w) with (c :: w).
  apply path_chars_app in HC as [HCw HCr]. set (w1 := c :: w) in *. assert (Hw1 : length w1 = S (length w)) by done. rewrite <- (app_assoc w1).
  rewrite (after (skip_word_done w1 fuel cmd len pos B r' T ltac:(lia) HB Hw' ltac:(lia) Hr')).
  replace (10 - length done)%nat with (S (9 - length done)) by lia. rewrite <- HB. destruct r' as [|b r'].
  - cbn [length] in *. rewrite before_false by lia. exists (argv ++ [length B]), (B ++ w1 ++ 0 :: T). split; [done|]. split; [|by rewrite length_app].
    rewrite (last_arg B w1 T argv done HCw HF). cbn. by rewrite take_nil.
  - destruct Hr' as [?|Hr']; [done|]. cbn [hd length] in *. rewrite before_true by lia. cbn [negb]. rewrite (app_assoc B).
    destruct (loop_ok (pos + length w1) (B ++ w1) (b :: r') T (argv ++ [length B]) (done ++ [w1])) as (argv' & b' & E & Es & El).
    + cbn [length]. lia.
    + rewrite length_app. lia.
    + cbn [length]. lia.
    + done.
    + rewrite length_app. cbn [length]. lia.
    + rewrite !length_app. cbn [length]. lia.
    + right. exists argv, B, w1, done. split_and!; try done. by apply closed_all_app.
    + exists argv', b'. split; [exact E|]. rewrite Es, El, (length_app done). cbn [length take]. replace (10 - (length done + 1))%nat with (9 - length done)%nat by lia.
      split; [by rewrite <- app_assoc|]. rewrite !length_app. cbn [length]. rewrite ?length_app. lia.
Qed.
End one_argument.

Lemma split_loop_done turns : forall fuel cmd len pos B t T argv done,
  (length t < turns)%nat -> (turns <= fuel)%nat -> length B = (cmd + pos)%nat -> Z.of_nat (pos + length t) = len -> path_chars t ->
  (length argv <= 10)%nat -> length argv = length done -> args_ok B t argv done ->
  exists argv' b', split_loop fuel turns cmd len pos argv (B ++ t ++ 0 :: T) = Done argv' b' /\
    string_at b' <$> argv' = done ++ take (10 - length done) (split Between t) /\ length b' = length (B ++ t ++ 0 :: T).
Proof.
  induction turns as [|turns IH]; intros fuel cmd len pos B t T argv done Ht Hf HB Hlen HC Ha Hl Hok; [lia|].
  destruct (decide (t = [])) as [->|Hne].
  { exists argv, (B ++ [] ++ 0 :: T). cbn [length split_loop] in *. rewrite before_false by lia. split; [done|]. cbn [split]. rewrite take_nil, app_nil_r.
    split; [|done]. destruct Hok as [H|(? & ? & ? & ? & _ & _ & _ & _ & _ & ? & _)]; [|done]. apply closed_strings. by apply closed_all_app. }
  assert (Hpos : (0 < length t)%nat) by (destruct t; [done|cbn; lia]). cbn [split_loop]. rewrite before_true by lia.
  destruct (split_at blank t) as (bl & r & -> & Hbl & Hr). rewrite length_app in Ht, Hlen, Hpos. apply path_chars_app in HC as [HCb HCr].
  set (Z0 := replicate (length bl) 0). assert (HZ : length Z0 = length bl) by apply length_replicate.
  replace (length (B ++ (bl ++ r) ++ 0 :: T)) with (length ((B ++ Z0) ++ r ++ 0 :: T)) by (rewrite !length_app; lia).
  rewrite <- app_assoc. rewrite (after (strip_done bl fuel cmd len pos B r T ltac:(lia) HB Hbl ltac:(lia) Hr)). fold Z0.
  pose proof (args_ok_strip B bl r argv done Hok Hr) as HF. fold Z0 in HF. rewrite split_blanks by done. rewrite (app_assoc B).
  assert (HBZ : length (B ++ Z0) = (cmd + (pos + length bl))%nat) by (rewrite length_app; lia).
  case_bool_decide as H10.
  { exists argv, ((B ++ Z0) ++ r ++ 0 :: T). unfold FINSH_ARG_MAX in H10. replace (10 - length done)%nat with 0%nat by lia. rewrite take_0, app_nil_r.
    split; [done|]. split; [apply closed_strings; by apply closed_all_app|done]. }
  unfold FINSH_ARG_MAX in H10. destruct r as [|c r]; cbn [length] in *.
  { rewrite before_false by lia. exists argv, ((B ++ Z0) ++ [] ++ 0 :: T). split; [done|]. cbn [split]. rewrite take_nil, app_nil_r.
    split; [apply closed_strings; by apply closed_all_app|done]. }
  destruct Hr as [?|Hcb]; [done|]. cbn in Hcb. rewrite before_true by lia. cbn [negb app]. rewrite (after (rdc_at (cmd + (pos + length bl)) (B ++ Z0) c _ (eq_sym HBZ))).
  set (B1 := B ++ Z0) in *. set (p1 := (pos + length bl)%nat) in *. clearbody B1. apply Forall_cons in HCr as [Hc0 HCr].
  destruct (c =? quote) eqn:Eq.
  - apply Z.eqb_eq in Eq. subst c. cbn [split]. rewrite Hcb. change (quote =? quote) with true. cbv iota zeta.
    apply (string_arg fuel cmd len (split_loop fuel turns cmd len) turns); try done; try lia. intros. apply IH; done || lia.
  - cbn [split]. rewrite Hcb, Eq. cbv zeta.
    apply (word_arg fuel cmd len (split_loop fuel turns cmd len) turns); try done; try lia; [|by constructor]. intros. apply IH; done || lia.
Qed.

Lemma split_done P t T : path_chars t -> exists argv b', msh_split (length P) (Z.of_nat (length t)) (P ++ t ++ 0 :: T) = Done argv b' /\
  string_at b' <$> argv = take 10 (split Between t) /\ length b' = length (P ++ t ++ 0 :: T).
Proof.
  intros HC. unfold msh_split. mstep. apply (split_loop_done _ _ (length P) (Z.of_nat (length t)) 0 P t T [] []); try done; rewrite ?length_app; cbn; try lia. left. constructor.
Qed.

(** ** Names *)

Lemma strncmp_comm n : forall s1 s2, strncmp_eq n s1 s2 = strncmp_eq n s2 s1.
Proof.
  induction n as [|n IH]; intros [|c1 s1] [|c2 s2]; try done. cbn [strncmp_eq]. rewrite (Z.eqb_sym c2), (IH s2).
  destruct (Z.eqb_spec c1 c2) as [->|]; done.
Qed.

Lemma strncmp_prefix w : forall n R, path_chars w -> strncmp_eq (length w) (n ++ [0]) (w ++ R) = bool_decide (w `prefix_of` n).
Proof.
  induction w as [|c w IH]; intros n R Hw; cbn [length].
  - symmetry. apply bool_decide_true, prefix_nil.
  - apply Forall_cons in Hw as [Hc Hw]. destruct n as [|d n]; cbn [app strncmp_eq].
    + rewrite (proj2 (Z.eqb_neq 0 c)) by done. symmetry. apply bool_decide_false. by intros [k ?].
    + destruct (Z.eqb_spec d c) as [->|Hd]; cbn [andb].
      * rewrite (proj2 (Z.eqb_neq c 0)), IH by done. apply bool_decide_ext. split; [apply prefix_cons|apply prefix_cons_inv_2].
      * symmetry. apply bool_decide_false. intros H. by apply prefix_cons_inv_1 in H.
Qed.

(** The command a word names: the first one of the table. *)
Fixpoint find_cmd (t : list (list Z * Z)) (w : list Z) : option Z :=
  match t with [] => None | (name, func) :: t => if bool_decide (name = cmd_prefix ++ w) then Some func else find_cmd t w end.

Lemma get_cmd_done t : forall B w R, Forall (fun e => path_chars e.1) t -> path_chars w -> get_cmd t (length B) (length w) (B ++ w ++ R) = Done (find_cmd t w) (B ++ w ++ R).
Proof.
  assert (HC : path_chars cmd_prefix) by (repeat constructor; done).
  induction t as [|[name func] t IH]; intros B w R Ht Hw; [done|]. apply Forall_cons in Ht as [Hn Ht]. cbn [get_cmd find_cmd].
  change 6%nat with (length cmd_prefix) at 1. rewrite strncmp_prefix by done. case_bool_decide as Hp; cbn [negb].
  2:{ rewrite IH by done. rewrite bool_decide_false; [done|]. intros ->. apply Hp. by exists w. }
  destruct Hp as [n ->]. mstep. rewrite <- app_assoc. change (drop 6 (cmd_prefix ++ n ++ [0])) with (n ++ [0]). rewrite drop_app_length, strncmp_prefix by done.
  case_bool_decide as Hw2.
  2:{ rewrite IH by done. rewrite bool_decide_false; [done|]. intros E. apply app_inv_head in E as ->. by apply Hw2. }
  destruct Hw2 as [k ->]. assert (E : (cmd_prefix ++ (w ++ k) ++ [0]) !! (6 + length w)%nat = Some (hd 0 k)).
  { change 6%nat with (length cmd_prefix). rewrite lookup_app_r by lia. replace (length cmd_prefix + length w - length cmd_prefix)%nat with (length w) by lia.
    rewrite <- app_assoc, lookup_app_r, Nat.sub_diag by lia. by destruct k. }
  unfold deref at 1. unfold bind at 1. rewrite E. destruct k as [|d k]; cbn [hd].
  - by rewrite bool_decide_true by (by rewrite app_nil_r).
  - rewrite bool_decide_false by (intros E2; apply app_inv_head in E2; apply (f_equal length) in E2; rewrite length_app in E2; cbn in E2; lia).
    destruct (Z.eqb_spec d 0) as [->|]; [|by apply IH]. cbn [fst] in Hn. apply Forall_app in Hn as [_ Hn]. apply Forall_app in Hn as [_ Hn]. by apply Forall_cons in Hn as [? _].
Qed.

(** ** Running a line *)

Fixpoint until (stop : Z -> bool) (t : list Z) : list Z := match t with c :: t => if stop c then [] else c :: until stop t | [] => [] end.
Fixpoint drop_blanks (t : list Z) : list Z := match t with c :: t' => if blank c then drop_blanks t' else t | [] => [] end.

Lemma until_split stop t : exists r, t = until stop t ++ r /\ Forall (fun c => stop c = false) (until stop t) /\ (r = [] \/ stop (hd 0 r) = true).
Proof.
  induction t as [|c t (r & E & HF & Hr)]; [by exists []; split_and!; [..|left]|]. cbn. destruct (stop c) eqn:Ec.
  - exists (c :: t). split_and!; [done..|by right].
  - exists r. cbn. split_and!; [by f_equal|by constructor|done].
Qed.

Lemma drop_blanks_split t : exists bl, t = bl ++ drop_blanks t /\ Forall (fun c => blank c = true) bl /\ (drop_blanks t = [] \/ blank (hd 0 (drop_blanks t)) = false).
Proof.
  induction t as [|c t (bl & E & HF & Hr)]; [by exists []; split_and!; [..|left]|]. cbn. destruct (blank c) eqn:Ec.
  - exists (c :: bl). cbn. split_and!; [by f_equal|by constructor|done].
  - exists []. split_and!; [done..|by right].
Qed.

(** What a line runs: the arguments of the command its first word names, or else a script or a change of
    directory. *)
Definition run_line (table : list (list Z * Z)) (exec_script chdir : list Z -> bool) (t : list Z) : ran :=
  let t := drop_blanks t in
  if Nat.eqb (length t) 0 then Empty
  else match find_cmd table (until blank t) with
       | Some func => Called func (take FINSH_ARG_MAX (split Between t))
       | None => if exec_script t then Script t else if chdir t then Chdir t else NotFound (until (Z.eqb 32) t)
       end.

Lemma trim_done bl : forall fuel B r T, (length bl < fuel)%nat -> Forall (fun c => blank c = true) bl -> (r = [] \/ blank (hd 0 r) = false) ->
  trim fuel (length B) (B ++ bl ++ r ++ 0 :: T) = Done (length B + length bl)%nat (B ++ bl ++ r ++ 0 :: T).
Proof.
  induction bl as [|c bl IH]; intros [|fuel] B r T Hf Hbl Hr; cbn [length] in *; try lia; cbn [trim app].
  - rewrite Nat.add_0_r. destruct r as [|c r]; cbn [app]; rewrite (after (rdc_mid _ _ _)); [done|]. destruct Hr as [?|Hr]; [done|]. cbn in Hr. by rewrite Hr.
  - apply Forall_cons in Hbl as [Hc Hbl]. rewrite (after (rdc_mid _ _ _)), Hc. specialize (IH fuel (B ++ [c]) r T). rewrite length_app, <- !app_assoc in IH. cbn [length app] in IH.
    replace (S (length B)) with (length B + 1)%nat by lia. rewrite IH; [|lia|done..]. f_equal. lia.
Qed.

Lemma cut_done w : forall fuel B r T, (length w < fuel)%nat -> Forall (fun c => (32 =? c) = false) w -> path_chars w -> (r = [] \/ (32 =? hd 0 r) = true) ->
  exists b', cut_at_space fuel (length B) (B ++ w ++ r ++ 0 :: T) = Done tt b' /\ string_at b' (length B) = w.
Proof.
  intros fuel B. enough (H : forall u r T, (length w < fuel)%nat -> Forall (fun c => (32 =? c) = false) w -> path_chars w -> (r = [] \/ (32 =? hd 0 r) = true) ->
    exists T', cut_at_space fuel (length (B ++ u)) ((B ++ u) ++ w ++ r ++ 0 :: T) = Done tt (B ++ u ++ w ++ 0 :: T')).
  { intros r T H1 H2 H3 H4. destruct (H [] r T H1 H2 H3 H4) as [T' E]. rewrite app_nil_r in E. eexists. split; [exact E|]. cbn [app]. unfold string_at. rewrite drop_app_length. by apply string_in_app. }
  revert fuel. induction w as [|c w IH]; intros [|fuel] u r T Hf Hw HC Hr; cbn [length] in *; try lia; cbn [cut_at_space app].
  - destruct r as [|c r]; cbn [app]; rewrite (after (rdc_mid _ _ _)).
    + eexists. rewrite andb_false_r, wrc_mid, <- app_assoc. done.
    + destruct Hr as [?|Hr]; [done|]. cbn [hd] in Hr. rewrite (Z.eqb_sym c), Hr. cbn [negb andb]. rewrite wrc_mid, <- app_assoc. by eexists.
  - apply Forall_cons in Hw as [Hc Hw]. apply Forall_cons in HC as [Hc0 HC]. rewrite (after (rdc_mid _ _ _)). rewrite (Z.eqb_sym c), Hc, (proj2 (Z.eqb_neq c 0)) by done. cbn [negb andb].
    destruct (IH fuel (u ++ [c]) r T) as [T' E]; [lia|done..|]. rewrite app_assoc, <- (app_assoc (B ++ u)) in E. rewrite length_app in E. cbn [length app] in E. rewrite Nat.add_1_r in E.
    exists T'. rewrite E. by rewrite <- app_assoc.
Qed.

Lemma split_nonempty c t : blank c = false -> split Between (c :: t) <> [].
Proof.
  intros Hc. cbn [split]. rewrite Hc. destruct (c =? quote); [by rewrite split_string|]. destruct (until_split blank t) as (r & E & HF & Hr). rewrite E.
  rewrite split_word by done. done.
Qed.

Section running.
Variable table : list (list Z * Z).
Variables exec_script chdir : list Z -> bool.
Hypothesis names_ok : Forall (fun e => path_chars e.1) table.

Lemma exec_cmd_done B c t T : blank c = false -> path_chars (c :: t) -> exists b',
  _msh_exec_cmd table (length B) (Z.of_nat (length (c :: t))) (B ++ (c :: t) ++ 0 :: T)
  = Done ((fun func => (func, take FINSH_ARG_MAX (split Between (c :: t)))) <$> find_cmd table (until blank (c :: t))) b' /\
  (find_cmd table (until blank (c :: t)) = None -> b' = B ++ (c :: t) ++ 0 :: T).
Proof.
  intros Hc HC. unfold _msh_exec_cmd. destruct (until_split blank (c :: t)) as (r & E & HF & Hr). set (w := until blank (c :: t)) in *.
  assert (Hw : w <> []) by (subst w; cbn; by rewrite Hc). destruct (split_done B (c :: t) T HC) as (argv & b' & Esp & Ear & _).
  assert (HCw : path_chars w) by (rewrite E in HC; by apply Forall_app in HC as [? _]).
  assert (Esk : skip_word (S (length (B ++ (c :: t) ++ 0 :: T))) (length B) (Z.of_nat (length (c :: t))) 0 (B ++ (c :: t) ++ 0 :: T) = Done (length w) (B ++ (c :: t) ++ 0 :: T)).
  { rewrite E, <- (app_assoc w). apply skip_word_done; rewrite ?length_app; try done; lia. }
  mstep. rewrite (after Esk). destruct (length w) eqn:El; [by destruct w|]. cbn [Nat.eqb]. rewrite <- El.
  assert (Eg : msh_get_cmd table (length B) (length w) (B ++ (c :: t) ++ 0 :: T) = Done (find_cmd table w) (B ++ (c :: t) ++ 0 :: T)).
  { unfold msh_get_cmd. rewrite E, <- (app_assoc w). by apply get_cmd_done. }
  rewrite (after Eg). destruct (find_cmd table w) as [func|]; cbn [fmap option_fmap option_map]; [|by eexists].
  rewrite (after Esp). destruct argv as [|a argv]; cbn [length Nat.eqb].
  { pose proof (split_nonempty c t Hc). by destruct (split Between (c :: t)). }
  eexists. unfold bind at 1, gets. rewrite Ear. by split.
Qed.

Lemma msh_exec_done t T : path_chars t -> Z.of_nat (length t) < 2 ^ 32 -> exists b',
  msh_exec table exec_script chdir (Z.of_nat (length t)) (t ++ 0 :: T) = Done (run_line table exec_script chdir t) b'.
Proof.
  intros HC Hlen. unfold msh_exec, run_line. destruct (drop_blanks_split t) as (bl & E & Hbl & Hr). set (r := drop_blanks t) in *.
  assert (HL : length t = (length bl + length r)%nat) by (rewrite E, length_app; done).
  assert (Et : t ++ 0 :: T = bl ++ r ++ 0 :: T) by (by rewrite E, <- app_assoc). assert (HCr : path_chars r) by (rewrite E in HC; by apply Forall_app in HC as [_ ?]).
  clearbody r. rewrite Et. mstep. rewrite (after (trim_done bl (S (length (bl ++ r ++ 0 :: T))) [] r T ltac:(rewrite length_app; cbn; lia) Hbl Hr)). cbn [length Nat.add app].
  replace (u32 (Z.of_nat (length t) - Z.of_nat (length bl))) with (Z.of_nat (length r)) by (unfold u32; rewrite Z.mod_small; lia).
  destruct r as [|c r']; cbn [length Nat.eqb]; [by eexists|]. destruct Hr as [?|Hc]; [done|]. cbn [hd] in Hc.
  rewrite (proj2 (Z.eqb_neq _ 0)) by lia. destruct (exec_cmd_done bl c r' T Hc HCr) as (b' & Ex & Hb). cbn [length] in Ex. rewrite (after Ex).
  destruct (find_cmd _ _) as [func|]; cbn [fmap option_fmap option_map]; [by eexists|]. rewrite Hb by done. mstep.
  assert (Es : string_at (bl ++ (c :: r') ++ 0 :: T) (length bl) = c :: r') by (unfold string_at; rewrite drop_app_length; by apply string_in_app).
  rewrite Es. destruct (exec_script (c :: r')); [by eexists|]. destruct (chdir (c :: r')); [by eexists|].
  destruct (until_split (Z.eqb 32) (c :: r')) as (r2 & E2 & HF & Hr2). set (w := until _ _) in *.
  assert (HLw : (length w <= length (c :: r'))%nat) by (rewrite E2, length_app; lia).
  destruct (cut_done w (S (length (bl ++ (c :: r') ++ 0 :: T))) bl r2 T) as (b2 & Ec & Ew); [rewrite !length_app; cbn [length]; cbn [length] in HLw; lia|done| |done|].
  { rewrite E2 in HCr. by apply Forall_app in HCr as [? _]. }
  rewrite (app_assoc w), <- E2 in Ec. eexists. rewrite (after Ec). mstep. by rewrite Ew.
Qed.
End running.

(** ** Completing a name *)

Lemma str_common_prefix k : forall n q, q `prefix_of` take (str_common k n) k <-> q `prefix_of` k /\ q `prefix_of` n.
Proof.
  induction k as [|c k IH]; intros n q.
  { cbn [str_common take]. split; [|by intros [? _]]. intros H. apply prefix_nil_inv in H as ->. split; apply prefix_nil. }
  destruct q as [|d q]; [by split; intros; [split|]; apply prefix_nil|]. destruct n as [|e n]; cbn [str_common].
  { split; [intros H|intros [_ H]]; by apply prefix_nil_inv in H. }
  destruct (Z.eqb_spec c e) as [->|Hce]; cbn [take].
  - split.
    + intros H. pose proof (prefix_cons_inv_1 _ _ _ _ H) as ->. apply prefix_cons_inv_2, IH in H as [? ?]. split; by apply prefix_cons.
    + intros [H1 H2]. pose proof (prefix_cons_inv_1 _ _ _ _ H1) as ->. apply prefix_cons, IH. by split; [apply prefix_cons_inv_2 in H1|apply prefix_cons_inv_2 in H2].
  - split; [intros H; by apply prefix_nil_inv in H|]. intros [H1 H2]. apply prefix_cons_inv_1 in H1, H2. congruence.
Qed.

Lemma str_common_le k : forall n, (str_common k n <= length k)%nat.
Proof. induction k as [|c k IH]; intros [|e n]; cbn; try lia. case_match; [|lia]. specialize (IH n). lia. Qed.

Lemma str_common_refl k : str_common k k = length k.
Proof. induction k as [|c k IH]; [done|]. cbn. by rewrite Z.eqb_refl, IH. Qed.

Lemma prefix_take_min (q k : list Z) a b : q `prefix_of` take (Nat.min a b) k <-> q `prefix_of` take a k /\ q `prefix_of` take b k.
Proof.
  assert (Hle : forall x y, (x <= y)%nat -> q `prefix_of` take x k -> q `prefix_of` take y k).
  { intros x y Hxy H. etrans; [exact H|]. rewrite <- (Nat.min_l x y), <- take_take by done. apply prefix_take. }
  destruct (Nat.min_spec a b) as [[? ->]|[? ->]]; split; [intros H'; split; [done|apply (Hle a); [lia|done]]|by intros [? _]|intros H'; split; [apply (Hle b); [lia|done]|done]|by intros [_ ?]].
Qed.

Section completion.
Variable p : list Z.
Hypothesis p_chars : path_chars p.
Hypothesis p_some : p <> [].

Abbreviation matches names := (filter (prefix p) names).

Lemma complete_kept names : forall k m, Forall path_chars names -> (m <= length k)%nat -> p `prefix_of` take m k ->
  exists m', complete_loop names p (Some k) m = (Some k, m', matches names) /\ (m' <= m)%nat /\
    forall q, q `prefix_of` take m' k <-> q `prefix_of` take m k /\ Forall (prefix q) (matches names).
Proof.
  induction names as [|n names IH]; intros k m Hn Hm Hp.
  { exists m. split_and!; [done..|]. intros q. rewrite filter_nil, Forall_nil. tauto. }
  apply Forall_cons in Hn as [Hn1 Hn]. cbn [complete_loop]. rewrite strncmp_comm, strncmp_prefix, filter_cons by done. case_bool_decide as Hpn; [rewrite decide_True by done|rewrite decide_False by done; by apply IH].
  assert (Hm0 : (0 < m)%nat). { destruct m; [|lia]. by apply prefix_nil_inv in Hp. }
  rewrite (proj2 (Nat.eqb_neq m 0)) by lia. cbn [default].
  replace (if bool_decide (str_common k n < m)%nat then str_common k n else m) with (Nat.min m (str_common k n)) by (case_bool_decide; lia).
  destruct (IH k (Nat.min m (str_common k n)) Hn) as (m' & -> & Hm' & Hq); [lia| |].
  { apply prefix_take_min. split; [done|]. apply str_common_prefix. split; [|done]. etrans; [exact Hp|apply prefix_take]. }
  exists m'. split_and!; [done|lia|]. intros q. rewrite Hq, prefix_take_min, str_common_prefix, Forall_cons.
  assert (q `prefix_of` take m k -> q `prefix_of` k) by (intros H; etrans; [exact H|apply prefix_take]). tauto.
Qed.

Lemma complete_done names : Forall path_chars names -> exists kept m, complete_loop names p None 0 = (kept, m, matches names) /\
  (matches names = [] -> kept = None /\ m = 0%nat) /\
  (matches names <> [] -> exists k, kept = Some k /\ (m <= length k)%nat /\ head (matches names) = Some k /\ p `prefix_of` take m k /\ forall q, q `prefix_of` take m k <-> Forall (prefix q) (matches names)).
Proof.
  induction names as [|n names IH]; intros Hn; [by exists None, 0%nat|]. apply Forall_cons in Hn as [Hn1 Hn]. cbn [complete_loop].
  rewrite strncmp_comm, strncmp_prefix, filter_cons by done. case_bool_decide as Hpn; [rewrite decide_True by done|rewrite decide_False by done].
  2:{ destruct (IH Hn) as (kept & m & E & H1 & H2). exists kept, m. split_and!; [done..|]. intros Hne. by apply H2. }
  cbn [Nat.eqb default]. rewrite str_common_refl, bool_decide_false by lia.
  destruct (complete_kept names n (length n) Hn) as (m' & -> & Hm' & Hq); [done|by rewrite take_ge by lia|]. exists (Some n), m'. split_and!; [done..|]. intros _.
  rewrite (take_ge n (length n)) in Hq by lia. exists n. split_and!; [done|lia|done| |].
  - apply Hq. split; [done|]. apply Forall_forall. intros x Hx. by apply list_elem_of_filter in Hx as [? _].
  - intros q. rewrite Hq, Forall_cons. done.
Qed.
End completion.

Lemma put_done cs : forall B old T, length old = length cs -> put (length B) cs (B ++ old ++ T) = Done tt (B ++ cs ++ T).
Proof.
  induction cs as [|c cs IH]; intros B [|o old] T Hl; try done. injection Hl as Hl. cbn [put app]. rewrite (after (wrc_mid _ _ _ _)).
  specialize (IH (B ++ [c]) old T Hl). rewrite length_app, <- !app_assoc, Nat.add_1_r in IH. exact IH.
Qed.

Lemma put_zeros cs text k : text `prefix_of` cs -> (length cs < length text + k)%nat ->
  forall B, put (length B) cs (B ++ text ++ replicate k 0) = Done tt (B ++ cs ++ replicate (length text + k - length cs) 0).
Proof.
  intros [w ->] Hl B. rewrite length_app in *. replace k with (length w + (k - length w))%nat at 1 by lia. rewrite replicate_add, (app_assoc text).
  rewrite put_done by (by rewrite !length_app, length_replicate). by replace (length text + k - (length text + length w))%nat with (k - length w)%nat by lia.
Qed.

(** The search goes down to the second character and stops at the last space. *)
Lemma space_before_none n : forall b, (forall i, (1 <= i <= n)%nat -> exists c, b !! i = Some c /\ c <> 32) -> space_before n b = Done None b.
Proof.
  induction n as [|n IH]; intros b H; [done|]. cbn [space_before]. destruct (H (S n) ltac:(lia)) as (c & Hc & ?). unfold rdc. rewrite (after (deref_some _ _ _ Hc)).
  rewrite (proj2 (Z.eqb_neq c 32)) by done. apply IH. intros i Hi. apply H. lia.
Qed.

Lemma space_before_some i j : forall b, (1 <= i)%nat -> b !! i = Some 32 -> (forall l, (i < l <= i + j)%nat -> exists c, b !! l = Some c /\ c <> 32) -> space_before (i + j) b = Done (Some i) b.
Proof.
  induction j as [|j IH]; intros b Hi Hb H.
  - rewrite Nat.add_0_r. destruct i as [|i]; [lia|]. cbn [space_before]. unfold rdc. by rewrite (after (deref_some _ _ _ Hb)).
  - rewrite Nat.add_succ_r. cbn [space_before]. destruct (H (S (i + j)) ltac:(lia)) as (c & Hc & ?). unfold rdc. rewrite (after (deref_some _ _ _ Hc)).
    rewrite (proj2 (Z.eqb_neq c 32)) by done. apply IH; [done..|]. intros l Hl. apply H. lia.
Qed.

(** Text without spaces, behind [u] and in front of a NUL. *)
Lemma no_space (u t T : list Z) l : Forall (fun c => c <> 32) t -> (length u <= l <= length u + length t)%nat -> exists c, (u ++ t ++ 0 :: T) !! l = Some c /\ c <> 32.
Proof.
  intros Ht Hl. rewrite lookup_app_r by lia. destruct (decide (l - length u < length t)%nat) as [Hlt|Hge].
  - rewrite lookup_app_l by done. destruct (lookup_lt_is_Some_2 t _ Hlt) as [c Hc]. exists c. split; [done|]. by apply (Forall_lookup_1 _ _ _ _ Ht Hc).
  - rewrite lookup_app_r by lia. replace (l - length u - length t)%nat with 0%nat by lia. by exists 0.
Qed.

Lemma commands_chars table : Forall (fun e => path_chars e.1) table -> Forall path_chars (commands table).
Proof.
  intros H. unfold commands. apply Forall_fmap, Forall_forall. intros n Hn. apply list_elem_of_filter in Hn as [_ Hn]. apply list_elem_of_fmap in Hn as (e & -> & He).
  apply Forall_drop. by apply (proj1 (Forall_forall _ _) H).
Qed.

Lemma head_match (p n : list Z) names : head (filter (prefix p) names) = Some n -> n ∈ names /\ p `prefix_of` n.
Proof.
  intros H. assert (Hin : n ∈ filter (prefix p) names) by (destruct (filter _ _); [done|]; injection H as ->; by left).
  by apply list_elem_of_filter in Hin as [? ?].
Qed.

(** The directory of a path in the line, for a name behind [d]. *)
Definition dir_of (cwd d name : list Z) : list Z :=
  if hd 0 (d ++ name) =? slash then d else (if default 0 (last cwd) =? slash then cwd else cwd ++ [slash]) ++ d.

Lemma behind_slash_name name : forall i o, Forall (fun c => c <> slash) name -> behind_slash i name o = o.
Proof. induction name as [|c name IH]; intros i o H; [done|]. apply Forall_cons in H as [Hc H]. cbn. rewrite (proj2 (Z.eqb_neq c slash)) by done. by apply IH. Qed.

Lemma behind_slash_dir d name : forall i o, Forall (fun c => c <> slash) name -> behind_slash i (d ++ [slash] ++ name) o = Some (i + length (d ++ [slash]))%nat.
Proof.
  induction d as [|c d IH]; intros i o H; cbn [app behind_slash].
  - change (slash =? slash) with true. cbv iota. rewrite behind_slash_name by done. f_equal. cbn. lia.
  - change (slash :: name) with ([slash] ++ name). rewrite IH by done. f_equal. cbn. lia.
Qed.

Section line_completion.
Variable table : list (list Z * Z).
Variable room : bool.
Variable getcwd : list Z.
Variable opendir : list Z -> option (list (list Z)).
Hypothesis names_ok : Forall (fun e => path_chars e.1) table.

Abbreviation complete := (msh_auto_complete table room getcwd opendir).

Lemma complete_command_done text k : text <> [] -> path_chars text -> Forall (fun c => c <> 32) text -> (1 <= k)%nat ->
  Forall (fun n => (length n < length text + k)%nat) (commands table) ->
  let ms := filter (prefix text) (commands table) in
  exists r, complete (text ++ replicate k 0) = Done ([], ms) (r ++ replicate (length text + k - length r) 0) /\ (length r < length text + k)%nat /\
    (ms = [] -> r = text) /\ (ms <> [] -> forall q, q `prefix_of` r <-> Forall (prefix q) ms).
Proof.
  intros Hne HC Hsp Hk Hlen ms. destruct k as [|k]; [lia|]. set (line := text ++ replicate (S k) 0).
  assert (El : line = text ++ 0 :: replicate k 0) by done. assert (Es : string_in line = text) by (rewrite El; by apply string_in_app).
  unfold msh_auto_complete. assert (E0 : exists c, rdc 0 line = Done c line /\ c <> 0).
  { destruct text as [|c text]; [done|]. exists c. split; [done|]. by apply Forall_cons in HC as [? _]. }
  destruct E0 as (c & E0 & Hc). rewrite (after E0), (proj2 (Z.eqb_neq c 0)) by done. mstep. rewrite Es.
  assert (Esp : space_before (length text) line = Done None line). { apply space_before_none. intros i Hi. rewrite El. apply (no_space [] text); [done|cbn; lia]. }
  rewrite (after Esp). mstep. mstep. rewrite Es. destruct (complete_done text HC Hne (commands table) (commands_chars _ names_ok)) as (kept & m & -> & H1 & H2). fold ms in H1, H2 |- *.
  destruct (decide (ms = [])) as [Hms|Hms].
  - destruct (H1 Hms) as [-> ->]. exists text. split_and!; [|lia|done..]. unfold ret. do 2 f_equal. subst line. f_equal. f_equal. lia.
  - destruct (H2 Hms) as (n & -> & Hm & Hin & Hp & Hq). assert (Hln : (length (take m n) < length text + S k)%nat).
    { rewrite length_take. apply head_match in Hin as [Hin _]. pose proof (proj1 (Forall_forall _ _) Hlen n Hin). cbn in *. lia. }
    exists (take m n). rewrite (after (put_zeros (take m n) text (S k) Hp Hln [])). by split_and!.
Qed.

(** A name in a directory [d], which is empty or ends with a slash, behind the text [u] and a space. *)
Variables u d name : list Z.
Variable names : list (list Z).
Hypothesis u_some : u <> [].
Hypothesis d_slash : d = [] \/ exists d', d = d' ++ [slash].
Hypothesis name_some : name <> [].
Hypothesis name_plain : Forall (fun c => c <> slash) name.
Hypothesis line_chars : path_chars (u ++ [32] ++ d ++ name).
Hypothesis no_spaces : Forall (fun c => c <> 32) (d ++ name).
Hypothesis entries_ok : Forall path_chars names.
Hypothesis has_room : room = true.
Hypothesis cwd_some : getcwd <> [].
Hypothesis dir_fits : (length (dir_of getcwd d name) < 256)%nat.
Hypothesis dir_opens : opendir (dir_of getcwd d name) = Some names.

Abbreviation ms := (filter (prefix name) names).

Lemma parent_path_done b : parent_path getcwd (d ++ name) (length d) b = Done (dir_of getcwd d name) b.
Proof.
  unfold parent_path. pose proof dir_fits as Hf. unfold dir_of in *. rewrite take_app_length. destruct (hd 0 (d ++ name) =? slash).
  - mstep. cbn [app]. by rewrite bool_decide_true.
  - destruct (last getcwd) as [c|] eqn:El; [|by apply last_None in El]. rewrite bind_assoc. rewrite ?El in Hf. unfold deref, bind, ret. cbn [default] in *. by rewrite bool_decide_true.
Qed.

Lemma complete_path_done k : (1 <= k)%nat -> Forall (fun n => (length n < length name + k)%nat) names ->
  exists r, msh_auto_complete_path room getcwd opendir (length (u ++ [32])) ((u ++ [32]) ++ d ++ name ++ replicate k 0)
  = Done (if bool_decide (length r < length (default r (head ms)))%nat then ms else []) ((u ++ [32]) ++ d ++ r ++ replicate (length name + k - length r) 0) /\
  (length r < length name + k)%nat /\ path_chars r /\ (ms = [] -> r = name) /\ (ms <> [] -> forall q, q `prefix_of` r <-> Forall (prefix q) ms).
Proof.
  intros Hk Hlen. unfold msh_auto_complete_path. rewrite has_room. cbn [negb]. destruct k as [|k]; [lia|].
  assert (HCd : path_chars (d ++ name)) by (apply Forall_app in line_chars as [_ H]; by apply Forall_app in H as [_ H]).
  assert (HCn : path_chars name) by (by apply Forall_app in HCd as [_ ?]).
  mstep. replace (string_at ((u ++ [32]) ++ d ++ name ++ replicate (S k) 0) (length (u ++ [32]))) with (d ++ name).
  2:{ unfold string_at. rewrite drop_app_length, app_assoc. symmetry. by apply string_in_app. }
  replace (behind_slash 0 (d ++ name) None) with (if bool_decide (d = []) then None else Some (length d)).
  2:{ destruct d_slash as [->|[d' ->]]; [by rewrite behind_slash_name|]. rewrite bool_decide_false by (by destruct d'). by rewrite <- app_assoc, behind_slash_dir. }
  replace (default 0%nat (if bool_decide (d = []) then None else Some (length d))) with (length d) by (case_bool_decide as Hd; [by rewrite Hd|done]).
  rewrite (after (parent_path_done _)), dir_opens, drop_app_length. destruct (length name) eqn:Eln; [by destruct name|]. cbn [Nat.eqb]. rewrite <- Eln in *. clear Eln n.
  destruct (complete_done name HCn name_some names entries_ok) as (kept & m & -> & H1 & H2). destruct (decide (ms = [])) as [Hms|Hms].
  - destruct (H1 Hms) as [-> ->]. cbn [Nat.eqb]. exists name. rewrite Hms. cbn [head default]. rewrite bool_decide_false by (cbn; lia). split_and!; [|lia|done..]. unfold ret. do 4 f_equal. f_equal. lia.
  - destruct (H2 Hms) as (n & -> & Hm & Hin & Hp & Hq). rewrite Hin. apply head_match in Hin as [Hin _]. cbn [default].
    assert (Hlt : length (take m n) = m) by (rewrite length_take; lia). assert (Hn : (m < length name + S k)%nat) by (pose proof (proj1 (Forall_forall _ _) Hlen n Hin); cbn in *; lia).
    assert (Hm0 : m <> 0%nat) by (intros ->; by apply prefix_nil_inv in Hp). rewrite (proj2 (Nat.eqb_neq m 0)) by done.
    assert (Ep : forall T, put (length (u ++ [32]) + length d) (take m n) ((u ++ [32]) ++ d ++ T) = put (length ((u ++ [32]) ++ d)) (take m n) (((u ++ [32]) ++ d) ++ T)) by (intros; by rewrite (length_app (u ++ [32]) d), (app_assoc (u ++ [32]) d)).
    exists (take m n). rewrite Hlt. unfold bind at 1. rewrite Ep, put_zeros by (rewrite ?Hlt; done). rewrite Hlt.
    replace (length name + S k - m)%nat with (S (length name + k - m)) by lia. cbn [replicate]. rewrite <- (app_assoc (u ++ [32])).
    assert (Ew : forall b, wrc (length (u ++ [32]) + (length d + m)) 0 ((u ++ [32]) ++ d ++ take m n ++ 0 :: b) = Done tt ((u ++ [32]) ++ d ++ take m n ++ 0 :: b)).
    { intros b. rewrite !app_assoc, <- (app_assoc (u ++ [32])). apply wrc_at. rewrite !length_app. lia. }
    rewrite (after (Ew _)). split_and!; [done|lia| |done..]. apply Forall_take. by apply (proj1 (Forall_forall _ _) entries_ok).
Qed.
Lemma no_command_matches text : In 32 text -> Forall (fun n => Forall (fun c => c <> 32) n) (commands table) -> filter (prefix text) (commands table) = [].
Proof.
  intros Hs Hn. destruct (filter _ _) as [|n l] eqn:E; [done|]. exfalso. assert (Hin : n ∈ filter (prefix text) (commands table)) by (rewrite E; by left).
  apply list_elem_of_filter in Hin as [[w ->] Hin]. pose proof (proj1 (Forall_forall _ _) Hn _ Hin) as HF. cbn beta in HF. apply Forall_app in HF as [HF _].
  rewrite Forall_forall in HF. apply (HF 32); [by apply list_elem_of_In|done].
Qed.

Lemma complete_file_done k : (1 <= k)%nat -> Forall (fun n => (length n < length name + k)%nat) names -> Forall (fun n => Forall (fun c => c <> 32) n) (commands table) ->
  exists r, complete (u ++ [32] ++ d ++ name ++ replicate k 0)
  = Done (if bool_decide (length r < length (default r (head ms)))%nat then ms else [], []) (u ++ [32] ++ d ++ r ++ replicate (length name + k - length r) 0) /\
  (length r < length name + k)%nat /\ (ms = [] -> r = name) /\ (ms <> [] -> forall q, q `prefix_of` r <-> Forall (prefix q) ms).
Proof.
  intros Hk Hlen Hcmd. destruct (complete_path_done k Hk Hlen) as (r & Ep & Hr & HCr & H1 & H2). exists r. split_and!; [|done..].
  rewrite <- (app_assoc u) in Ep. destruct k as [|k]; [lia|]. cbn [replicate] in *. rewrite <- (app_assoc u) in Ep.
  set (line := u ++ [32] ++ d ++ name ++ 0 :: replicate k 0) in *. set (text := u ++ [32] ++ d ++ name) in *.
  assert (El : line = text ++ 0 :: replicate k 0) by (subst line text; by rewrite <- !app_assoc).
  assert (Es : string_in line = text) by (rewrite El; by apply string_in_app).
  assert (E0 : exists c, rdc 0 line = Done c line /\ c <> 0).
  { subst line text. destruct u as [|c u']; [done|]. exists c. split; [done|]. by apply Forall_cons in line_chars as [? _]. }
  destruct E0 as (c & E0 & Hc). unfold msh_auto_complete. rewrite (after E0), (proj2 (Z.eqb_neq c 0)) by done. mstep. rewrite Es.
  assert (Esp : space_before (length text) line = Done (Some (length u)) line).
  { replace (length text) with (length u + (1 + length (d ++ name)))%nat by (subst text; rewrite !length_app; done). apply space_before_some.
    - destruct u; [done|cbn; lia].
    - subst line. by apply list_lookup_middle.
    - intros l Hl. replace line with ((u ++ [32]) ++ (d ++ name) ++ 0 :: replicate k 0) by (subst line; by rewrite <- !app_assoc). apply no_space; [done|]. rewrite length_app. cbn. lia. }
  rewrite (after Esp). rewrite length_app in Ep. cbn [length] in Ep. rewrite Nat.add_1_r in Ep. rewrite (after Ep). mstep.
  set (line' := u ++ [32] ++ d ++ r ++ replicate (length name + S k - length r) 0). destruct (length name + S k - length r)%nat as [|k'] eqn:Ek; [lia|].
  assert (HC' : path_chars (u ++ [32] ++ d ++ r)).
  { subst text. apply Forall_app in line_chars as [? Hx]. apply Forall_app in Hx as [? Hx]. apply Forall_app in Hx as [? _]. apply Forall_app. split; [done|]. apply Forall_app. split; [done|]. by apply Forall_app. }
  assert (Es' : string_in line' = u ++ [32] ++ d ++ r).
  { replace line' with ((u ++ [32] ++ d ++ r) ++ 0 :: replicate k' 0) by (subst line'; by rewrite <- !app_assoc). by apply string_in_app. }
  rewrite Es'. destruct (complete_done (u ++ [32] ++ d ++ r) HC' ltac:(by destruct u) (commands table) (commands_chars _ names_ok)) as (kept & m & -> & Hn & _).
  assert (Hno : filter (prefix (u ++ [32] ++ d ++ r)) (commands table) = []) by (apply no_command_matches; [rewrite !in_app_iff; right; left; by left|done]).
  destruct (Hn Hno) as [-> ->]. by rewrite Hno.
Qed.
End line_completion.

(** ** The theorems *)

(** C15: a line is run as the reference says: [msh_exec] calls the command that the first word names
    with the first ten arguments of the line, a quoted text being one argument; a word that is no
    command is tried as a script and as a directory, and the message names the part before the first
    space. *)
Theorem msh_exec_correct table exec_script chdir t T : Forall (fun e => path_chars e.1) table -> path_chars t -> Z.of_nat (length t) < 2 ^ 32 ->
  exists b', msh_exec table exec_script chdir (Z.of_nat (length t)) (t ++ 0 :: T) = Done (run_line table exec_script chdir t) b'.
Proof. intros. by apply msh_exec_done. Qed.

Definition sample_table : list (list Z * Z) :=
  [(chars_of "__cmd_list_thread", 1); (chars_of "list_timer", 2); (chars_of "__cmd_list_timer", 3); (chars_of "__cmd_ls", 4)].
Definition sample_line : list Z := chars_of "  list_timer " ++ [quote; 97; 32; 98; quote] ++ chars_of " c".

Lemma sample_chars : Forall (fun e : list Z * Z => path_chars e.1) sample_table.
Proof. repeat constructor; done. Qed.

Lemma msh_exec_correct_witness :
  run_line sample_table (fun _ => false) (fun _ => false) sample_line = Called 3 [chars_of "list_timer"; [97; 32; 98]; [99]] /\
  exists b', msh_exec sample_table (fun _ => false) (fun _ => false) (Z.of_nat (length sample_line)) (sample_line ++ 0 :: []) = Done (run_line sample_table (fun _ => false) (fun _ => false) sample_line) b'.
Proof.
  split; [concrete|]. apply (msh_exec_correct sample_table (fun _ => false) (fun _ => false) sample_line []);
    [apply sample_chars|repeat constructor; done|concrete].
Defined.

(** C38: completion of a command: when the line is a word, [msh_auto_complete] replaces it with the
    longest text that all the commands that begin with it begin with, lists these commands, and
    leaves the line alone when there is none. *)
Theorem msh_auto_complete_command table room getcwd opendir text k : Forall (fun e => path_chars e.1) table ->
  text <> [] -> path_chars text -> Forall (fun c => c <> 32) text -> (1 <= k)%nat -> Forall (fun n => (length n < length text + k)%nat) (commands table) ->
  let ms := filter (prefix text) (commands table) in
  exists r, msh_auto_complete table room getcwd opendir (text ++ replicate k 0) = Done ([], ms) (r ++ replicate (length text + k - length r) 0) /\
    (length r < length text + k)%nat /\ (ms = [] -> r = text) /\ (ms <> [] -> forall q, q `prefix_of` r <-> Forall (prefix q) ms).
Proof. intros. by apply complete_command_done. Qed.

Lemma msh_auto_complete_command_witness :
  filter (prefix (chars_of "lis")) (commands sample_table) = [chars_of "list_thread"; chars_of "list_timer"] /\
  exists r, msh_auto_complete sample_table true [47] (fun _ => None) (chars_of "lis" ++ replicate 77 0)
    = Done ([], filter (prefix (chars_of "lis")) (commands sample_table)) (r ++ replicate (3 + 77 - length r) 0) /\
  (length r < 3 + 77)%nat /\ (filter (prefix (chars_of "lis")) (commands sample_table) = [] -> r = chars_of "lis") /\
  (filter (prefix (chars_of "lis")) (commands sample_table) <> [] -> forall q, q `prefix_of` r <-> Forall (prefix q) (filter (prefix (chars_of "lis")) (commands sample_table))).
Proof.
  split; [concrete|]. apply (msh_auto_complete_command sample_table true [47] (fun _ => None) (chars_of "lis") 77);
    [apply sample_chars|done|repeat constructor; done|repeat constructor; done|lia|repeat constructor; cbn; lia].
Defined.

(** completion of a file: when the last word of the line is a path, its name is replaced with
    the longest text that all the entries of its directory that begin with it begin with; the entries
    are listed when the first of them is longer. *)
Theorem msh_auto_complete_file table getcwd opendir u d name names k :
  Forall (fun e => path_chars e.1) table -> Forall (fun n => Forall (fun c => c <> 32) n) (commands table) ->
  u <> [] -> d = [] \/ (exists d', d = d' ++ [slash]) -> name <> [] -> Forall (fun c => c <> slash) name ->
  path_chars (u ++ [32] ++ d ++ name) -> Forall (fun c => c <> 32) (d ++ name) -> Forall path_chars names -> getcwd <> [] ->
  (length (dir_of getcwd d name) < 256)%nat -> opendir (dir_of getcwd d name) = Some names ->
  (1 <= k)%nat -> Forall (fun n => (length n < length name + k)%nat) names ->
  let ms := filter (prefix name) names in
  exists r, msh_auto_complete table true getcwd opendir (u ++ [32] ++ d ++ name ++ replicate k 0)
    = Done (if bool_decide (length r < length (default r (head ms)))%nat then ms else [], []) (u ++ [32] ++ d ++ r ++ replicate (length name + k - length r) 0) /\
    (length r < length name + k)%nat /\ (ms = [] -> r = name) /\ (ms <> [] -> forall q, q `prefix_of` r <-> Forall (prefix q) ms).
Proof. intros. by apply complete_file_done. Qed.

Definition sample_dir : list (list Z) := [chars_of "boot.bin"; chars_of "system.cfg"; chars_of "system.log"].
Definition sample_open (path : list Z) : option (list (list Z)) := if bool_decide (path = chars_of "/sd/") then Some sample_dir else None.

Lemma msh_auto_complete_file_witness :
  exists r, msh_auto_complete sample_table true [47] sample_open (chars_of "cat" ++ [32] ++ chars_of "sd/" ++ chars_of "sy" ++ replicate 71 0)
    = Done (if bool_decide (length r < length (default r (head (filter (prefix (chars_of "sy")) sample_dir))))%nat then filter (prefix (chars_of "sy")) sample_dir else [], [])
        (chars_of "cat" ++ [32] ++ chars_of "sd/" ++ r ++ replicate (2 + 71 - length r) 0) /\
    (length r < 2 + 71)%nat /\ (filter (prefix (chars_of "sy")) sample_dir = [] -> r = chars_of "sy") /\
    (filter (prefix (chars_of "sy")) sample_dir <> [] -> forall q, q `prefix_of` r <-> Forall (prefix q) (filter (prefix (chars_of "sy")) sample_dir)).
Proof.
  apply (msh_auto_complete_file sample_table [47] sample_open (chars_of "cat") (chars_of "sd/") (chars_of "sy") sample_dir 71);
    [apply sample_chars|decided|done|right; by exists (chars_of "sd")|done|decided|unfold path_chars; decided|decided|unfold path_chars; decided|done|decided|concrete|lia|decided].
Defined.
