(* ===== verification/Shell.v ===== *)
(** * The line editor of the shell (components/finsh/shell.c)

    The shell thread reads bytes, decodes the sequences of the cursor keys, keeps the line
    being edited in an array with the end and the cursor as 8-bit indices, keeps five lines
    of history, and repaints the line on the console with backspaces.  The reference is an
    editor with the text before and behind the cursor.  The theorems show that the array
    follows the editor, that Enter runs the text of the editor, and that a terminal that is
    sent the output shows the prompt and the text, with the cursor at its place. *)

From Stdlib Require Import Ascii String.
From S2P Require Import Prelude Exec Printf Path Msh.

Definition FINSH_CMD_SIZE : nat := 80.
Definition FINSH_HISTORY_LINES : nat := 5.
Definition RT_CONSOLEBUF_SIZE : nat := 128.

Inductive input_stat := WAIT_NORMAL | WAIT_SPEC_KEY | WAIT_FUNC_KEY.

Record finsh_shell := {
  stat : input_stat;
  echo_mode : Z;
  prompt_mode : Z;
  current_history : Z;
  history_count : Z;
  cmd_history : list (list Z);
  line : list Z;
  line_position : Z;
  line_curpos : Z }.

Definition set_stat (x : input_stat) (s : finsh_shell) : finsh_shell :=
  {| stat := x; echo_mode := echo_mode s; prompt_mode := prompt_mode s; current_history := current_history s; history_count := history_count s;
     cmd_history := cmd_history s; line := line s; line_position := line_position s; line_curpos := line_curpos s |}.
Definition set_echo (x : Z) (s : finsh_shell) : finsh_shell :=
  {| stat := stat s; echo_mode := x; prompt_mode := prompt_mode s; current_history := current_history s; history_count := history_count s;
     cmd_history := cmd_history s; line := line s; line_position := line_position s; line_curpos := line_curpos s |}.
Definition set_prompt_mode (x : Z) (s : finsh_shell) : finsh_shell :=
  {| stat := stat s; echo_mode := echo_mode s; prompt_mode := x; current_history := current_history s; history_count := history_count s;
     cmd_history := cmd_history s; line := line s; line_position := line_position s; line_curpos := line_curpos s |}.
Definition set_current (x : Z) (s : finsh_shell) : finsh_shell :=
  {| stat := stat s; echo_mode := echo_mode s; prompt_mode := prompt_mode s; current_history := x; history_count := history_count s;
     cmd_history := cmd_history s; line := line s; line_position := line_position s; line_curpos := line_curpos s |}.
Definition set_history (n : Z) (h : list (list Z)) (s : finsh_shell) : finsh_shell :=
  {| stat := stat s; echo_mode := echo_mode s; prompt_mode := prompt_mode s; current_history := current_history s; history_count := n;
     cmd_history := h; line := line s; line_position := line_position s; line_curpos := line_curpos s |}.
Definition set_line (x : list Z) (s : finsh_shell) : finsh_shell :=
  {| stat := stat s; echo_mode := echo_mode s; prompt_mode := prompt_mode s; current_history := current_history s; history_count := history_count s;
     cmd_history := cmd_history s; line := x; line_position := line_position s; line_curpos := line_curpos s |}.
Definition set_pos (position curpos : Z) (s : finsh_shell) : finsh_shell :=
  {| stat := stat s; echo_mode := echo_mode s; prompt_mode := prompt_mode s; current_history := current_history s; history_count := history_count s;
     cmd_history := cmd_history s; line := line s; line_position := position; line_curpos := curpos |}.

(** ** What surrounds the shell *)

(** The commands and the file system: a state that the commands change.  [effect] is what running a
    line does, with the characters it prints. *)
Record system := {
  env : Type;
  table : list (list Z * Z);
  description : list Z -> list Z;
  working_directory : env -> list Z;
  finsh_prompt_custom : env -> option (list Z);
  heap_room : env -> bool;
  directory : env -> list Z -> option (list (list Z));
  exec_script : env -> list Z -> bool;
  chdir : env -> list Z -> bool;
  effect : ran -> env -> env * list Z }.

Section shell.
Variable sys : system.

Record world := { shell : finsh_shell; outer : env sys; console : list Z; runs : list ran }.

Abbreviation W := (M world).
Definition sh {A} (f : finsh_shell -> A) : W A := gets (fun w => f (shell w)).
Definition set_shell (s : finsh_shell) (w : world) : world := {| shell := s; outer := outer w; console := console w; runs := runs w |}.
Definition upd (f : finsh_shell -> finsh_shell) : W unit := modify (fun w => set_shell (f (shell w)) w).
Definition on_line {A} (m : L A) : W A := zoom (fun w => line (shell w)) (fun l w => set_shell (set_line l (shell w)) w) m.

(** [rt_kprintf] of a text: its buffer holds 126 characters and a NUL, which is sent too when the text does not fit. *)
Definition cut (s : list Z) : list Z := if bool_decide (length s <= 126)%nat then s else take 126 s ++ [0].
Definition kprint (s : list Z) : W unit :=
  modify (fun w => {| shell := shell w; outer := outer w; console := console w ++ cut s; runs := runs w |}).
(** A text as the format string; a conversion would have no argument. *)
Definition kprintf (fmt : list Z) : W unit := if existsb (Z.eqb 37) fmt then stuck Undefined else kprint fmt.

Fixpoint times (n : nat) (m : W unit) : W unit := match n with O => ret tt | S n => m;;; times n m end.
Fixpoint each (l : list (list Z)) (m : list Z -> W unit) : W unit := match l with [] => ret tt | x :: l => m x;;; each l m end.

(** [strlen] and the string at an index of an array, which must have a NUL there. *)
Definition c_string (l : list Z) : option (list Z) := if existsb (Z.eqb 0) l then Some (string_in l) else None.
Definition line_string (i : nat) : W (list Z) := deref (fun w => c_string (drop i (line (shell w)))).
Definition line_length : W Z := s <- line_string 0;; ret (u8 (Z.of_nat (length s))).

(** [rt_memmove(line + dst, line + src, n)]; a store to the line. *)
Definition over (i : nat) (cs l : list Z) : list Z := take i l ++ cs ++ drop (i + length cs) l.
Definition memmove_line (dst src n : nat) : W unit :=
  fun w => let l := line (shell w) in
    if bool_decide (dst + n <= length l /\ src + n <= length l)%nat then Done tt (set_shell (set_line (over dst (take n (drop src l)) l) (shell w)) w)
    else Stop Undefined.
Definition store (i : nat) (c : Z) : W unit := on_line (wrc i c).

(** ** The prompt *)

Definition finsh_get_prompt : W (list Z) :=
  pm <- sh prompt_mode;;
  if pm =? 0 then ret []
  else gets (fun w => match finsh_prompt_custom sys (outer w) with
                      | Some custom => take RT_CONSOLEBUF_SIZE custom
                      | None => chars_of "msh " ++ take 124 (working_directory sys (outer w)) ++ chars_of ">"
                      end).

(** The modes are fields of one bit. *)
Definition finsh_set_echo (echo : Z) : W unit := upd (set_echo (Z.land (u8 echo) 1)).
Definition finsh_set_prompt_mode (mode : Z) : W unit := upd (set_prompt_mode (Z.land mode 1)).

(** ** History *)

Definition shell_handle_history : W unit :=
  kprint (27 :: chars_of "[2K" ++ [13]);;;
  p <- finsh_get_prompt;; s <- line_string 0;; kprint (p ++ s).

(** [memset] and [memcpy] of [line_position] characters of the line to a row of the history. *)
Definition history_row (l : list Z) (position : nat) : list Z := take position l ++ replicate (FINSH_CMD_SIZE - position) 0.

(** The branch for a line that is not empty. *)
Definition save_line (l : list Z) (pos n : Z) (h : list (list Z)) : W unit :=
  let row := history_row l (Z.to_nat pos) in
  if n >=? Z.of_nat FINSH_HISTORY_LINES then
    last <- deref (fun _ => h !! (FINSH_HISTORY_LINES - 1)%nat);;
    when (negb (bool_decide (last = l)))
      (upd (set_history (Z.of_nat FINSH_HISTORY_LINES) (take (FINSH_HISTORY_LINES - 1) (drop 1 h) ++ [row] ++ drop FINSH_HISTORY_LINES h)))
  else
    last <- (if n =? 0 then ret None else deref (fun _ => Some <$> h !! Z.to_nat (n - 1)));;
    when (negb (bool_decide (last = Some l)))
      (upd (set_current n);;; upd (set_history (u16 (n + 1)) (<[Z.to_nat n := row]> h))).

Definition shell_push_history : W unit :=
  pos <- sh line_position;; l <- sh line;; n <- sh history_count;; h <- sh cmd_history;;
  when (negb (pos =? 0)) (save_line l pos n h);;;
  n <- sh history_count;; upd (set_current n).

(** ** Completion *)

Definition pad16 (name : list Z) : list Z := name ++ replicate (16 - length name) 32.
Definition msh_help : W unit :=
  kprint (chars_of "RT-Thread shell commands:" ++ [10]);;;
  each (commands (table sys)) (fun name => kprint (pad16 name ++ chars_of " - " ++ description sys name ++ [10]));;;
  kprint [10].

Definition shell_auto_complete : W unit :=
  kprint [10];;;
  c <- on_line (rdc 0);;
  o <- gets outer;;
  names <- on_line (msh_auto_complete (table sys) (heap_room sys o) (working_directory sys o) (directory sys o));;
  (if c =? 0 then msh_help
   else each names.1 (fun name => kprint (name ++ [10]));;; each names.2 (fun name => kprint (name ++ [10])));;;
  p <- finsh_get_prompt;; s <- line_string 0;; kprint (p ++ s).

(** ** The keys *)

(** The part of the branches of the cursor keys that loads a line of the history. *)
Definition recall : W unit :=
  cur <- sh current_history;; h <- sh cmd_history;;
  row <- deref (fun _ => h !! Z.to_nat cur);;
  upd (set_line row);;;
  n <- line_length;; upd (set_pos n n);;;
  shell_handle_history.

Definition up_key : W unit :=
  cur <- sh current_history;;
  if cur >? 0 then upd (set_current (u16 (cur - 1)));;; recall else upd (set_current 0).

Definition down_key : W unit :=
  cur <- sh current_history;; n <- sh history_count;;
  if cur <? n - 1 then upd (set_current (u16 (cur + 1)));;; recall
  else if negb (n =? 0) then upd (set_current (u16 (n - 1)));;; recall else ret tt.

Definition left_key : W unit :=
  cp <- sh line_curpos;; pos <- sh line_position;;
  when (negb (cp =? 0)) (kprint [8];;; upd (set_pos pos (u8 (cp - 1)))).

Definition right_key : W unit :=
  cp <- sh line_curpos;; pos <- sh line_position;;
  when (cp <? pos) (c <- on_line (rdc (Z.to_nat cp));; kprint [c];;; upd (set_pos pos (u8 (cp + 1)))).

Definition tab_key : W unit :=
  cp <- sh line_curpos;;
  times (Z.to_nat cp) (kprint [8]);;;
  shell_auto_complete;;;
  n <- line_length;; upd (set_pos n n).

Definition backspace_key : W unit :=
  cp <- sh line_curpos;; pos <- sh line_position;;
  if cp =? 0 then ret tt
  else
    let pos := u8 (pos - 1) in let cp := u8 (cp - 1) in
    upd (set_pos pos cp);;;
    if pos >? cp then
      memmove_line (Z.to_nat cp) (Z.to_nat cp + 1) (Z.to_nat (pos - cp));;;
      store (Z.to_nat pos) 0;;;
      s <- line_string (Z.to_nat cp);;
      kprint ([8] ++ s ++ [32; 32; 8]);;;
      times (Z.to_nat (pos - cp + 1)) (kprint [8])
    else kprint [8; 32; 8];;; store (Z.to_nat pos) 0.

Definition enter_key : W unit :=
  shell_push_history;;;
  echo <- sh echo_mode;;
  when (negb (echo =? 0)) (kprint [10]);;;
  pos <- sh line_position;; o <- gets outer;;
  r <- on_line (msh_exec (table sys) (exec_script sys o) (chdir sys o) pos);;
  modify (fun w => let '(o', out) := effect sys r (outer w) in
            {| shell := shell w; outer := o'; console := console w ++ out; runs := runs w ++ [r] |});;;
  p <- finsh_get_prompt;; kprintf p;;;
  upd (set_line (replicate FINSH_CMD_SIZE 0));;;
  upd (set_pos 0 0).

Definition insert_key (ch : Z) : W unit :=
  pos <- sh line_position;; cp <- sh line_curpos;; echo <- sh echo_mode;;
  let pos := if pos >=? Z.of_nat FINSH_CMD_SIZE then 0 else pos in
  (if cp <? pos then
     memmove_line (Z.to_nat cp + 1) (Z.to_nat cp) (Z.to_nat (pos - cp));;;
     store (Z.to_nat cp) ch;;;
     when (negb (echo =? 0)) (s <- line_string (Z.to_nat cp);; kprint s);;;
     times (Z.to_nat (pos - cp)) (kprint [8])
   else
     store (Z.to_nat pos) ch;;;
     when (negb (echo =? 0)) (kprint [ch]));;;
  let pos := u8 (pos + 1) in let cp := u8 (cp + 1) in
  if pos >=? Z.of_nat FINSH_CMD_SIZE then upd (set_pos 0 0) else upd (set_pos pos cp).

(** The part of the loop behind the cursor keys. *)
Definition plain_key (ch : Z) : W unit :=
  if ((ch =? 0) || (ch =? 255))%bool then ret tt
  else if ch =? 9 then tab_key
  else if ((ch =? 127) || (ch =? 8))%bool then backspace_key
  else if ((ch =? 13) || (ch =? 10))%bool then enter_key
  else insert_key ch.

(** A turn of the loop. *)
Definition key (ch : Z) : W unit :=
  st <- sh stat;;
  if ch =? 27 then upd (set_stat WAIT_SPEC_KEY)
  else
    match st with
    | WAIT_SPEC_KEY => if ch =? 91 then upd (set_stat WAIT_FUNC_KEY) else upd (set_stat WAIT_NORMAL);;; plain_key ch
    | WAIT_FUNC_KEY =>
        upd (set_stat WAIT_NORMAL);;;
        if ch =? 65 then up_key
        else if ch =? 66 then down_key
        else if ch =? 68 then left_key
        else if ch =? 67 then right_key
        else plain_key ch
    | WAIT_NORMAL => plain_key ch
    end.

Fixpoint keys (chs : list Z) : W unit := match chs with [] => ret tt | ch :: chs => key ch;;; keys chs end.

(** [finsh_thread_entry] on the bytes that are read, and the structure [finsh_system_init] allocates. *)
Definition finsh_thread_entry (chs : list Z) : W unit :=
  upd (set_echo 1);;;
  p <- finsh_get_prompt;; kprintf p;;;
  keys chs.

Definition finsh_system_init (o : env sys) (out : list Z) : world :=
  {| shell := set_prompt_mode 1 {| stat := WAIT_NORMAL; echo_mode := 0; prompt_mode := 0; current_history := 0; history_count := 0;
       cmd_history := replicate FINSH_HISTORY_LINES (replicate FINSH_CMD_SIZE 0); line := replicate FINSH_CMD_SIZE 0; line_position := 0; line_curpos := 0 |};
     outer := o; console := out; runs := [] |}.
End shell.

(** ** A terminal *)

(** The row of the cursor, the column, and the characters of an escape sequence read so far. *)
Record term := { row : list Z; col : nat; esc : option (list Z) }.

Definition spaces (n : nat) : list Z := replicate n 32.
Definition put_char (c : Z) (t : term) : term :=
  match esc t with
  | Some l =>
      if ((64 <=? c) && (c <=? 126) && negb (c =? 91))%bool then
        {| row := if bool_decide (l = chars_of "[2" /\ c = 75) then [] else row t; col := col t; esc := None |}
      else {| row := row t; col := col t; esc := Some (l ++ [c]) |}
  | None =>
      if c =? 27 then {| row := row t; col := col t; esc := Some [] |}
      else if c =? 8 then {| row := row t; col := (col t - 1)%nat; esc := None |}
      else if c =? 13 then {| row := row t; col := 0; esc := None |}
      else if c =? 10 then {| row := []; col := 0; esc := None |}
      else if ((32 <=? c) && (c <=? 126))%bool then
        {| row := take (col t) (row t ++ spaces (col t - length (row t))) ++ [c] ++ drop (S (col t)) (row t); col := S (col t); esc := None |}
      else t
  end.
Definition show (cs : list Z) (t : term) : term := foldl (fun t c => put_char c t) t cs.
Definition fresh : term := {| row := []; col := 0; esc := None |}.

Definition printable (c : Z) : bool := ((32 <=? c) && (c <=? 126))%bool.
Abbreviation text_chars := (Forall (fun c => printable c = true)).

(** ** The reference *)

Inductive press := Up | Down | Left | Right | Tab | Backspace | Enter | Char (c : Z) | Nothing.

Definition plain (c : Z) : press :=
  if bool_decide (c = 0 \/ c = 255) then Nothing else if bool_decide (c = 9) then Tab else if bool_decide (c = 127 \/ c = 8) then Backspace
  else if bool_decide (c = 13 \/ c = 10) then Enter else Char c.
Definition decode (st : input_stat) (c : Z) : input_stat * press :=
  if c =? 27 then (WAIT_SPEC_KEY, Nothing)
  else match st with
       | WAIT_NORMAL => (WAIT_NORMAL, plain c)
       | WAIT_SPEC_KEY => if c =? 91 then (WAIT_FUNC_KEY, Nothing) else (WAIT_NORMAL, plain c)
       | WAIT_FUNC_KEY => (WAIT_NORMAL, if c =? 65 then Up else if c =? 66 then Down else if c =? 67 then Right else if c =? 68 then Left else plain c)
       end.

(** The text before and behind the cursor, the lines of the history, and the one shown; its length for none. *)
Record editor := { left : list Z; right : list Z; hist : list (list Z); cur : nat }.

Definition text (e : editor) : list Z := left e ++ right e.
Definition push (h : list (list Z)) (t : list Z) : list (list Z) :=
  if bool_decide (t = [] \/ last h = Some t) then h else drop (S (length h) - FINSH_HISTORY_LINES) (h ++ [t]).
Definition pad (t : list Z) : list Z := t ++ replicate (FINSH_CMD_SIZE - length t) 0.
Definition show_line (e : editor) (i : nat) : editor := {| left := default [] (hist e !! i); right := []; hist := hist e; cur := i |}.

(** The text of the line after completion, when it fits. *)
Definition completed (sys : system) (o : env sys) (t : list Z) : option (list Z) :=
  match msh_auto_complete (table sys) (heap_room sys o) (working_directory sys o) (directory sys o) (pad t) with
  | Done _ l => let r := string_in l in if bool_decide (l = pad r /\ (length r < FINSH_CMD_SIZE)%nat /\ text_chars r) then Some r else None
  | Stop _ => None
  end.

(** A key on the editor and the system, and what Enter runs; [None] when the text would not fit in the line. *)
Definition edit (sys : system) (e : editor) (o : env sys) (p : press) : option (editor * env sys * list ran) :=
  match p with
  | Nothing => Some (e, o, [])
  | Char c =>
      if bool_decide (printable c = true /\ S (length (text e)) < FINSH_CMD_SIZE)%nat
      then Some ({| left := left e ++ [c]; right := right e; hist := hist e; cur := cur e |}, o, []) else None
  | Left =>
      match last (left e) with
      | None => Some (e, o, [])
      | Some c => Some ({| left := take (length (left e) - 1) (left e); right := c :: right e; hist := hist e; cur := cur e |}, o, [])
      end
  | Right =>
      match right e with
      | [] => Some (e, o, [])
      | c :: r => Some ({| left := left e ++ [c]; right := r; hist := hist e; cur := cur e |}, o, [])
      end
  | Backspace => Some ({| left := take (length (left e) - 1) (left e); right := right e; hist := hist e; cur := cur e |}, o, [])
  | Up => Some (match cur e with O => e | S i => show_line e i end, o, [])
  | Down => Some (if Nat.eqb (length (hist e)) 0 then e else show_line e (Nat.min (S (cur e)) (length (hist e) - 1)), o, [])
  | Tab => r ← completed sys o (text e); Some ({| left := r; right := []; hist := hist e; cur := cur e |}, o, [])
  | Enter =>
      let r := run_line (table sys) (exec_script sys o) (chdir sys o) (text e) in
      let h := push (hist e) (text e) in
      Some ({| left := []; right := []; hist := h; cur := length h |}, (effect sys r o).1, [r])
  end.

Fixpoint edits (sys : system) (st : input_stat) (e : editor) (o : env sys) (cs : list Z) : option (editor * env sys * list ran) :=
  match cs with
  | [] => Some (e, o, [])
  | c :: cs =>
      let '(st, p) := decode st c in
      '(e, o, ran1) ← edit sys e o p; '(e, o, ran2) ← edits sys st e o cs; Some (e, o, ran1 ++ ran2)
  end.

Definition empty_editor : editor := {| left := []; right := []; hist := []; cur := 0 |}.

(** The prompt without a custom one. *)
Definition prompt (sys : system) (o : env sys) : list Z := chars_of "msh " ++ working_directory sys o ++ chars_of ">".

(** ** Showing text *)

Lemma show_app a b t : show (a ++ b) t = show b (show a t).
Proof. apply foldl_app. Qed.

Lemma put_printable c t : esc t = None -> printable c = true -> (col t <= length (row t))%nat ->
  put_char c t = {| row := over (col t) [c] (row t); col := S (col t); esc := None |}.
Proof.
  intros He Hc Hcol. unfold put_char. rewrite He. assert (Hr : 32 <= c <= 126) by (unfold printable in Hc; lia).
  do 4 (rewrite (proj2 (Z.eqb_neq c _)) by lia). unfold printable in Hc. rewrite Hc. unfold over, spaces.
  replace (col t - length (row t))%nat with 0%nat by lia. cbn [replicate length]. by rewrite app_nil_r, Nat.add_1_r.
Qed.

Lemma length_over i cs l : (i <= length l)%nat -> length (over i cs l) = Nat.max (length l) (i + length cs).
Proof. intros Hi. unfold over. rewrite !length_app, length_take, length_drop. lia. Qed.

Lemma over_app A cs B : over (length A) cs (A ++ B) = A ++ cs ++ drop (length cs) B.
Proof. unfold over. rewrite take_app_length, drop_app_add. done. Qed.

Lemma show_text s : forall A B, text_chars s -> show s {| row := A ++ B; col := length A; esc := None |}
  = {| row := A ++ s ++ drop (length s) B; col := length A + length s; esc := None |}.
Proof.
  induction s as [|c s IH]; intros A B Hs.
  - cbn [show foldl length app drop]. by rewrite Nat.add_0_r.
  - apply Forall_cons in Hs as [Hc Hs]. cbn [show foldl]. rewrite put_printable; cbn [row col esc]; [|done|done|rewrite length_app; lia].
    rewrite over_app. cbn [length]. rewrite app_assoc. specialize (IH (A ++ [c]) (drop 1 B) Hs). rewrite length_app in IH. cbn [length] in IH. rewrite Nat.add_1_r in IH.
    unfold show in IH. rewrite IH. rewrite drop_drop, <- app_assoc. f_equal. lia.
Qed.

Lemma show_back n : forall r c, (n <= c)%nat -> show (replicate n 8) {| row := r; col := c; esc := None |} = {| row := r; col := c - n; esc := None |}.
Proof.
  induction n as [|n IH]; intros r c Hn; [by rewrite Nat.sub_0_r|]. cbn [replicate show foldl]. unfold put_char at 2. cbn [esc row col Z.eqb Pos.eqb].
  unfold show in IH. rewrite IH by lia. f_equal. lia.
Qed.

Lemma show_newline t : esc t = None -> put_char 10 t = fresh.
Proof. intros He. unfold put_char. by rewrite He. Qed.

(** Text leaves no escape sequence open. *)
Lemma show_text_esc s : forall t, esc t = None -> Forall (fun c => c <> 27) s -> esc (show s t) = None.
Proof.
  induction s as [|c s IH]; intros t He Hs; [done|]. apply Forall_cons in Hs as [Hc Hs]. cbn [show foldl]. apply IH; [|done].
  unfold put_char. rewrite He, (proj2 (Z.eqb_neq c 27)) by done. repeat case_match; done.
Qed.

Lemma show_fresh_line s t : esc t = None -> Forall (fun c => c <> 27) s -> show (s ++ [10]) t = fresh.
Proof. intros He Hs. rewrite show_app. cbn [show foldl]. apply show_newline. by apply show_text_esc. Qed.

Lemma text_no_esc s : text_chars s -> Forall (fun c => c <> 27) s.
Proof. intros H. apply (Forall_impl _ _ _ H). unfold printable. intros c Hc. lia. Qed.
Lemma text_path s : text_chars s -> path_chars s.
Proof. intros H. apply (Forall_impl _ _ _ H). unfold printable. intros c Hc. lia. Qed.

(** ** The line as an array *)

Lemma pad_eq t : (length t < FINSH_CMD_SIZE)%nat -> pad t = t ++ 0 :: replicate (79 - length t) 0.
Proof. unfold FINSH_CMD_SIZE. intros Ht. unfold pad, FINSH_CMD_SIZE. by replace (80 - length t)%nat with (S (79 - length t)) by lia. Qed.

Lemma length_pad t : (length t <= FINSH_CMD_SIZE)%nat -> length (pad t) = FINSH_CMD_SIZE.
Proof. intros Ht. unfold pad. rewrite length_app, length_replicate. lia. Qed.

Lemma string_pad t : text_chars t -> (length t < FINSH_CMD_SIZE)%nat -> string_in (pad t) = t.
Proof. intros Hc Ht. rewrite pad_eq by done. by apply string_in_app, text_path. Qed.

Lemma pad_inj t t' : text_chars t -> text_chars t' -> (length t < FINSH_CMD_SIZE)%nat -> (length t' < FINSH_CMD_SIZE)%nat -> pad t = pad t' -> t = t'.
Proof. intros H1 H2 H3 H4 E. rewrite <- (string_pad t), <- (string_pad t'), E by done. done. Qed.

Lemma string_pad_drop A R : text_chars R -> (length (A ++ R) < FINSH_CMD_SIZE)%nat -> c_string (drop (length A) (pad (A ++ R))) = Some R.
Proof.
  intros Hc Ht. rewrite pad_eq, <- app_assoc, drop_app_length by done. unfold c_string. rewrite string_in_app by (by apply text_path).
  rewrite existsb_app. cbn [existsb]. change (0 =? 0) with true. by rewrite orb_true_r.
Qed.

Lemma insert_line A R c : (S (length (A ++ R)) < FINSH_CMD_SIZE)%nat -> R <> [] ->
  <[length A := c]> (over (length A + 1) (take (length R) (drop (length A) (pad (A ++ R)))) (pad (A ++ R))) = pad ((A ++ [c]) ++ R).
Proof.
  unfold FINSH_CMD_SIZE. intros Hl HR. destruct R as [|x R]; [done|]. assert (Hl2 := Hl). rewrite length_app in Hl2. cbn [length] in Hl2.
  rewrite !pad_eq by (unfold FINSH_CMD_SIZE; rewrite ?length_app in *; cbn [length] in *; lia).
  replace (take _ (drop _ _)) with (x :: R) by (rewrite <- app_assoc, drop_app_length; by rewrite take_app_length).
  set (k := (79 - length (A ++ x :: R))%nat). assert (Hk : (1 <= k)%nat) by (subst k; rewrite length_app; cbn [length]; lia).
  replace ((A ++ x :: R) ++ 0 :: replicate k 0) with ((A ++ [x]) ++ (R ++ [0]) ++ replicate k 0) by (by rewrite <- !app_assoc).
  replace (length A + 1)%nat with (length (A ++ [x])) by (rewrite length_app; done). rewrite over_app.
  replace (length (x :: R)) with (length (R ++ [0])) by (rewrite length_app; cbn; lia). rewrite drop_app_length.
  rewrite <- !app_assoc. cbn [app]. rewrite insert_app_r_alt, Nat.sub_diag by lia. cbn [insert list_insert].
  f_equal. f_equal. cbn [app]. f_equal. f_equal. subst k. rewrite !length_app in *. cbn [length] in *. 
  replace (79 - (length A + S (length R)))%nat with (S (79 - (length A + S (S (length R)))))%nat by lia. cbn [replicate]. do 2 f_equal.
Qed.

Lemma delete_line (A R : list Z) (c : Z) : (length (A ++ c :: R) < FINSH_CMD_SIZE)%nat ->
  <[(length A + length R)%nat := 0]> (over (length A) (take (length R) (drop (length A + 1) (pad (A ++ c :: R)))) (pad (A ++ c :: R))) = pad (A ++ R).
Proof.
  unfold FINSH_CMD_SIZE. intros Hl. rewrite length_app in Hl. cbn [length] in Hl. rewrite !pad_eq by (unfold FINSH_CMD_SIZE; rewrite ?length_app in *; cbn [length] in *; lia).
  replace (take _ (drop _ _)) with R.
  2:{ replace ((A ++ c :: R) ++ 0 :: replicate (79 - length (A ++ c :: R)) 0) with ((A ++ [c]) ++ R ++ 0 :: replicate (79 - length (A ++ c :: R)) 0) by (by rewrite <- !app_assoc).
      replace (length A + 1)%nat with (length (A ++ [c])) by (rewrite length_app; done). by rewrite drop_app_length, take_app_length. }
  rewrite <- app_assoc, over_app. cbn [app]. rewrite app_comm_cons, drop_app_le by (cbn; lia).
  destruct (drop (length R) (c :: R)) as [|y [|z l]] eqn:E; apply (f_equal length) in E; rewrite length_drop in E; cbn [length] in E; try lia.
  cbn [app]. rewrite app_assoc, <- (length_app A R), insert_app_r_alt, Nat.sub_diag by lia. cbn [insert list_insert].
  rewrite <- !app_assoc. f_equal. f_equal. f_equal. rewrite !length_app. cbn [length].
  replace (79 - (length A + length R))%nat with (S (79 - (length A + S (length R))))%nat by lia. done.
Qed.

(** ** The refinement *)

(** What the editor relies on: names, descriptions and directories are printable text, a prompt leaves
    room for the line in the buffer of [rt_kprintf] and has no percent sign, and the output of a command
    that starts on a fresh row ends on a fresh row. *)
Class system_ok (sys : system) : Prop := {
  ok_names : Forall (fun e => text_chars e.1 /\ (length e.1 <= 125)%nat) (table sys);
  ok_description name : text_chars (description sys name);
  ok_custom o : finsh_prompt_custom sys o = None;
  ok_directory o : text_chars (working_directory sys o) /\ Forall (fun c => c <> 37) (working_directory sys o) /\ (length (working_directory sys o) <= 42)%nat;
  ok_entries o p names : directory sys o p = Some names -> Forall (fun n => text_chars n /\ (length n <= 125)%nat) names;
  ok_effect r o : show (effect sys r o).2 fresh = fresh }.

(** The state of the shell in an editor's state, with the rows of the history. *)
Definition state {sys} (st : input_stat) (h : list (list Z)) (e : editor) (o : env sys) (con : list Z) (rs : list ran) : world sys :=
  {| shell := {| stat := st; echo_mode := 1; prompt_mode := 1; current_history := Z.of_nat (cur e); history_count := Z.of_nat (length (hist e)); cmd_history := h;
       line := pad (text e); line_position := Z.of_nat (length (text e)); line_curpos := Z.of_nat (length (left e)) |};
     outer := o; console := con; runs := rs |}.

Definition line_ok (t : list Z) : Prop := text_chars t /\ (length t < FINSH_CMD_SIZE)%nat.
Record editor_ok (e : editor) (h : list (list Z)) : Prop := {
  eo_text : line_ok (text e);
  eo_hist : Forall line_ok (hist e);
  eo_rows : take (length (hist e)) h = pad <$> hist e;
  eo_length : length h = FINSH_HISTORY_LINES;
  eo_count : (length (hist e) <= FINSH_HISTORY_LINES)%nat;
  eo_cur : (cur e <= length (hist e))%nat }.

(** What the terminal shows. *)
Definition displayed {sys} (o : env sys) (e : editor) (con : list Z) : Prop :=
  exists k, show con fresh = {| row := (prompt sys o ++ left e) ++ right e ++ spaces k; col := length (prompt sys o ++ left e); esc := None |}.

Definition do_press (sys : system) (p : press) : M (world sys) unit :=
  match p with
  | Up => up_key sys | Down => down_key sys | Left => left_key sys | Right => right_key sys | Tab => tab_key sys
  | Backspace => backspace_key sys | Enter => enter_key sys | Char c => insert_key sys c | Nothing => ret tt
  end.

Ltac wstep :=
  first
    [ mstep
    | match goal with
      | |- context [bind (sh ?sys ?g) ?f ?w] => change (bind (sh sys g) f w) with (f (g (shell sys w)) w)
      | |- context [bind (upd ?sys ?g) ?f ?w] => change (bind (upd sys g) f w) with (f tt (set_shell sys (g (shell sys w)) w))
      | |- context [bind (kprint ?sys ?s) ?f ?w] => change (bind (kprint sys s) f w) with (f tt {| shell := shell sys w; outer := outer sys w; console := console sys w ++ cut s; runs := runs sys w |})
      end ]; cbv beta.
Ltac fields :=
  unfold set_shell, set_stat, set_current, set_history, set_line, set_pos;
  cbn [shell outer console runs stat echo_mode prompt_mode current_history history_count cmd_history line line_position line_curpos].
Ltac wsteps := repeat (wstep; fields).

Section refinement.
Context (sys : system) `{!system_ok sys}.

Lemma prompt_done st h e o con rs : finsh_get_prompt sys (state st h e o con rs) = Done (prompt sys o) (state st h e o con rs).
Proof.
  unfold finsh_get_prompt, state. wsteps. change (1 =? 0) with false. cbv iota. unfold gets. cbn [outer]. rewrite ok_custom. unfold prompt. do 2 f_equal.
  rewrite take_ge; [done|]. destruct (ok_directory o) as (_ & _ & ?). lia.
Qed.

Lemma prompt_chars o : text_chars (prompt sys o) /\ (length (prompt sys o) <= 47)%nat.
Proof.
  destruct (ok_directory o) as (H1 & _ & H2). unfold prompt. rewrite !Forall_app, !length_app. cbn [length chars_of]. split; [|change (length (chars_of "msh ")) with 4%nat; change (length (chars_of ">")) with 1%nat; lia].
  split_and!; [repeat constructor|done|repeat constructor].
Qed.

Lemma cut_short s : (length s <= 126)%nat -> cut s = s.
Proof. intros H. unfold cut. by rewrite bool_decide_true. Qed.

Definition emit (s : list Z) (w : world sys) : world sys := {| shell := shell sys w; outer := outer sys w; console := console sys w ++ s; runs := runs sys w |}.
Lemma times_back n : forall w, times sys n (kprint sys [8]) w = Done tt (emit (replicate n 8) w).
Proof.
  induction n as [|n IH]; intros w; cbn [times replicate]; [destruct w; unfold emit; cbn; by rewrite app_nil_r|]. wstep. rewrite IH.
  unfold emit. cbn [shell outer console runs]. by rewrite <- app_assoc.
Qed.

Lemma world_eq st h h' o con con' rs cu cu' n n' l l' p p' c c' : cu = cu' -> n = n' -> h = h' -> l = l' -> p = p' -> c = c' -> con = con' ->
  {| shell := {| stat := st; echo_mode := 1; prompt_mode := 1; current_history := cu; history_count := n; cmd_history := h; line := l; line_position := p; line_curpos := c |};
     outer := o; console := con; runs := rs |} =
  @Build_world sys {| stat := st; echo_mode := 1; prompt_mode := 1; current_history := cu'; history_count := n'; cmd_history := h'; line := l'; line_position := p'; line_curpos := c' |} o con' rs.
Proof. by intros -> -> -> -> -> -> ->. Qed.

Lemma displayed_emit (o : env sys) e e' con s : displayed o e con ->
  (forall k, exists k', show s {| row := (prompt sys o ++ left e) ++ right e ++ spaces k; col := length (prompt sys o ++ left e); esc := None |}
    = {| row := (prompt sys o ++ left e') ++ right e' ++ spaces k'; col := length (prompt sys o ++ left e'); esc := None |}) -> displayed o e' (con ++ s).
Proof. intros [k Hk] H. destruct (H k) as [k' E]. exists k'. by rewrite show_app, Hk. Qed.

Ltac finish := unfold upd, modify, emit; fields; f_equal; apply world_eq.

Lemma left_done st h A c R H i o con rs : editor_ok {| left := A ++ [c]; right := R; hist := H; cur := i |} h -> displayed o {| left := A ++ [c]; right := R; hist := H; cur := i |} con ->
  let e' := {| left := A; right := c :: R; hist := H; cur := i |} in
  exists con', left_key sys (state st h {| left := A ++ [c]; right := R; hist := H; cur := i |} o con rs) = Done tt (state st h e' o con' rs) /\ editor_ok e' h /\ displayed o e' con'.
Proof.
  intros [Ht Hh Hr Hl Hn Hc] Hd e'. subst e'. assert (Et : (A ++ [c]) ++ R = A ++ c :: R) by (by rewrite <- app_assoc). unfold text in *. cbn [left right hist cur] in *.
  assert (HA : Z.of_nat (length (A ++ [c])) = Z.of_nat (length A) + 1) by (rewrite length_app; cbn; lia).
  assert (HL : (length A < 80)%nat) by (destruct Ht as [_ Ht]; rewrite !length_app in Ht; unfold FINSH_CMD_SIZE in Ht; lia).
  exists (con ++ [8]). split_and!.
  - unfold left_key, state. wsteps. cbn [left]. rewrite (proj2 (Z.eqb_neq _ 0)) by lia. cbn [negb when]. wsteps. finish; unfold text; cbn [left right hist cur]; rewrite ?Et; try done.
    rewrite HA. rewrite u8_small; lia.
  - split; unfold text; cbn [left right hist cur]; try done. by rewrite <- Et.
  - apply (displayed_emit _ _ _ _ _ Hd). intros k. exists k. cbn [left right]. rewrite (show_back 1) by (rewrite !length_app; cbn; lia). f_equal; [by rewrite <- !app_assoc|rewrite !length_app; cbn; lia].
Qed.

Lemma right_done st h A c R H i o con rs : editor_ok {| left := A; right := c :: R; hist := H; cur := i |} h -> displayed o {| left := A; right := c :: R; hist := H; cur := i |} con ->
  let e' := {| left := A ++ [c]; right := R; hist := H; cur := i |} in
  exists con', right_key sys (state st h {| left := A; right := c :: R; hist := H; cur := i |} o con rs) = Done tt (state st h e' o con' rs) /\ editor_ok e' h /\ displayed o e' con'.
Proof.
  intros [Ht Hh Hr Hl Hn Hc] Hd e'. subst e'. assert (Et : (A ++ [c]) ++ R = A ++ c :: R) by (by rewrite <- app_assoc). unfold text in *. cbn [left right hist cur] in *.
  assert (HL : (length (A ++ c :: R) < 80)%nat) by (by destruct Ht as [_ Ht]). assert (HL2 := HL). rewrite length_app in HL2. cbn [length] in HL2.
  assert (Hp : printable c = true) by (destruct Ht as [Ht _]; apply Forall_app in Ht as [_ Ht]; by apply Forall_cons in Ht as [? _]).
  exists (con ++ [c]). split_and!.
  - unfold right_key, state. wsteps. cbn [left right text]. unfold text. cbn [left right]. rewrite (proj2 (Z.ltb_lt _ _)) by (rewrite length_app; cbn [length]; lia). cbn [when].
    assert (Er : forall w, line (shell sys w) = pad (A ++ c :: R) -> on_line sys (rdc (Z.to_nat (Z.of_nat (length A)))) w = Done c (set_shell sys (set_line (pad (A ++ c :: R)) (shell sys w)) w)).
    { intros w Ew. unfold on_line, zoom. rewrite Ew, Nat2Z.id, pad_eq, <- app_assoc by done. cbn [app]. by rewrite rdc_mid. }
    unfold bind at 1. rewrite Er by done. fields. wsteps. finish; unfold text; cbn [left right hist cur]; rewrite ?Et; try done. rewrite length_app. cbn [length]. rewrite u8_small; lia.
  - split; unfold text; cbn [left right hist cur]; try done. by rewrite Et.
  - apply (displayed_emit _ _ _ _ _ Hd). intros k. exists k. cbn [left right]. rewrite show_text by (by repeat constructor). f_equal; [cbn; by rewrite <- !app_assoc|rewrite !length_app; cbn; lia].
Qed.

Abbreviation Ed A R H i := {| left := A; right := R; hist := H; cur := i |}.

Lemma store_mid w A x B c : line (shell sys w) = A ++ x :: B -> store sys (length A) c w = Done tt (set_shell sys (set_line (A ++ c :: B) (shell sys w)) w).
Proof. intros E. unfold store, on_line, zoom. by rewrite E, wrc_mid. Qed.

Lemma store_done w i c : (i < length (line (shell sys w)))%nat -> store sys i c w = Done tt (set_shell sys (set_line (<[i := c]> (line (shell sys w))) (shell sys w)) w).
Proof. intros Hi. unfold store, on_line, zoom, wrc. by rewrite bool_decide_true. Qed.

Lemma memmove_done w d s n : (d + n <= length (line (shell sys w)))%nat -> (s + n <= length (line (shell sys w)))%nat ->
  memmove_line sys d s n w = Done tt (set_shell sys (set_line (over d (take n (drop s (line (shell sys w)))) (line (shell sys w))) (shell sys w)) w).
Proof. intros H1 H2. unfold memmove_line. by rewrite bool_decide_true. Qed.

Lemma line_string_done w A R : line (shell sys w) = pad (A ++ R) -> line_ok (A ++ R) -> line_string sys (length A) w = Done R w.
Proof. intros E [H1 H2]. unfold line_string. apply deref_some. rewrite E. apply string_pad_drop; [by apply Forall_app in H1 as [_ ?]|done]. Qed.

Lemma geb_false a b : a < b -> (a >=? b) = false.
Proof. rewrite Z.geb_leb. apply Z.leb_gt. Qed.

(** Characters that go to the end of the line. *)
Lemma type_end_done st h A c H i o con rs : editor_ok (Ed A [] H i) h -> displayed o (Ed A [] H i) con -> printable c = true -> (S (length A) < FINSH_CMD_SIZE)%nat ->
  exists con', insert_key sys c (state st h (Ed A [] H i) o con rs) = Done tt (state st h (Ed (A ++ [c]) [] H i) o con' rs) /\ editor_ok (Ed (A ++ [c]) [] H i) h /\ displayed o (Ed (A ++ [c]) [] H i) con'.
Proof.
  intros [Ht Hh Hr Hl Hn Hc] Hd Hp Hlen. unfold text, FINSH_CMD_SIZE in Hlen. unfold text in *. cbn [left right hist cur] in *. rewrite app_nil_r in Ht.
  assert (Ht' : line_ok (A ++ [c])). { destruct Ht as [Ht _]. split; [apply Forall_app; by repeat constructor|rewrite length_app; unfold FINSH_CMD_SIZE; cbn; lia]. }
  exists (con ++ [c]). split_and!.
  - unfold insert_key, state. wsteps. unfold text. cbn [left right hist cur]. rewrite app_nil_r. change (Z.of_nat FINSH_CMD_SIZE) with 80. rewrite geb_false, Z.ltb_irrefl by lia.
    wstep. rewrite Nat2Z.id. erewrite bind_done; [|apply (store_mid _ A 0 (replicate (79 - length A) 0)); cbn [line shell]; apply pad_eq, Ht]. fields.
    change (1 =? 0) with false. cbn [negb when]. wsteps. rewrite u8_small by lia. rewrite geb_false by lia. finish; unfold text; cbn [left right hist cur]; rewrite ?app_nil_r; try done.
    + rewrite pad_eq by (apply Ht'). rewrite <- app_assoc. rewrite length_app. cbn [length app]. replace (79 - length A)%nat with (S (79 - (length A + 1))) by lia. done.
    + rewrite length_app. cbn. lia.
    + rewrite length_app. cbn. lia.
  - split; unfold text; cbn [left right hist cur]; rewrite ?app_nil_r; done.
  - apply (displayed_emit _ _ _ _ _ Hd). intros k. exists (k - 1)%nat. cbn [left right app]. rewrite show_text by (by repeat constructor). f_equal; [cbn; rewrite <- !app_assoc; cbn; do 3 f_equal; unfold spaces; by rewrite drop_replicate|rewrite !length_app; cbn; lia].
Qed.

Lemma text_app A R : text_chars (A ++ R) -> text_chars A /\ text_chars R.
Proof. apply Forall_app. Qed.

(** Characters that push a part of the line to the right. *)
Lemma type_mid_done st h A R c H i o con rs : R <> [] -> editor_ok (Ed A R H i) h -> displayed o (Ed A R H i) con -> printable c = true -> (S (length (A ++ R)) < FINSH_CMD_SIZE)%nat ->
  exists con', insert_key sys c (state st h (Ed A R H i) o con rs) = Done tt (state st h (Ed (A ++ [c]) R H i) o con' rs) /\ editor_ok (Ed (A ++ [c]) R H i) h /\ displayed o (Ed (A ++ [c]) R H i) con'.
Proof.
  intros HR [Ht Hh Hr Hl Hn Hc] Hd Hp Hlen. unfold text in *. cbn [left right hist cur] in *. assert (Hlen' := Hlen). rewrite length_app in Hlen'. unfold FINSH_CMD_SIZE in Hlen'.
  assert (HR0 : (0 < length R)%nat) by (destruct R; [done|cbn; lia]). destruct (text_app _ _ (proj1 Ht)) as [HA HRt].
  assert (Et : (A ++ [c]) ++ R = A ++ c :: R) by (by rewrite <- app_assoc).
  assert (Ht' : line_ok ((A ++ [c]) ++ R)). { split; [rewrite Et; apply Forall_app; split; [done|by constructor]|rewrite !length_app; unfold FINSH_CMD_SIZE; cbn; lia]. }
  assert (HP : length (pad (A ++ R)) = 80%nat) by (apply length_pad; rewrite length_app; unfold FINSH_CMD_SIZE; lia).
  exists (con ++ (c :: R) ++ replicate (length R) 8). split_and!.
  - unfold insert_key, state. wsteps. unfold text. cbn [left right hist cur]. change (Z.of_nat FINSH_CMD_SIZE) with 80. rewrite geb_false by (rewrite length_app; lia).
    rewrite (proj2 (Z.ltb_lt _ _)) by (rewrite length_app; lia). wstep. replace (Z.to_nat (Z.of_nat (length (A ++ R)) - Z.of_nat (length A))) with (length R) by (rewrite length_app; lia).
    rewrite Nat2Z.id. erewrite bind_done; [|apply memmove_done; cbn [line shell]; rewrite HP; lia]. fields. wstep.
    assert (Hov : (length A < length (over (length A + 1) (take (length R) (drop (length A) (pad (A ++ R)))) (pad (A ++ R))))%nat) by (rewrite length_over; rewrite HP; lia).
    erewrite bind_done; [|apply store_done; exact Hov]. fields. rewrite insert_line by done. wsteps. change (1 =? 0) with false. cbn [negb when]. wsteps.
    rewrite Et. erewrite bind_done; [|apply (line_string_done _ A (c :: R)); [done|by rewrite <- Et]]. wsteps. rewrite (cut_short (c :: R)) by (cbn [length]; lia).
    erewrite bind_done; [|apply times_back]. unfold emit. fields. rewrite u8_small by (rewrite length_app; lia). rewrite geb_false by (rewrite length_app; lia).
    finish; rewrite ?Et; try done; [rewrite !length_app; cbn [length]; lia|rewrite u8_small by lia; rewrite length_app; cbn [length]; lia|by rewrite app_assoc].
  - split; unfold text; cbn [left right hist cur]; done.
  - apply (displayed_emit _ _ _ _ _ Hd). intros k. exists (k - 1)%nat. cbn [left right]. rewrite show_app, show_text by (by constructor).
    rewrite show_back by (rewrite !length_app; cbn [length]; lia). f_equal; [|rewrite !length_app; cbn [length]; lia].
    rewrite <- !app_assoc. cbn [app]. do 4 f_equal. replace (length (c :: R)) with (length R + 1)%nat by (cbn; lia). rewrite <- drop_drop, drop_app_length. unfold spaces. apply drop_replicate.
Qed.

Lemma backspace_end_done st h A c H i o con rs : editor_ok (Ed (A ++ [c]) [] H i) h -> displayed o (Ed (A ++ [c]) [] H i) con ->
  exists con', backspace_key sys (state st h (Ed (A ++ [c]) [] H i) o con rs) = Done tt (state st h (Ed A [] H i) o con' rs) /\ editor_ok (Ed A [] H i) h /\ displayed o (Ed A [] H i) con'.
Proof.
  intros [Ht Hh Hr Hl Hn Hc] Hd. unfold text in *. cbn [left right hist cur] in *. rewrite app_nil_r in Ht. assert (Hlen := proj2 Ht). rewrite length_app in Hlen. unfold FINSH_CMD_SIZE in Hlen. cbn [length] in Hlen.
  destruct (text_app _ _ (proj1 Ht)) as [HA _]. exists (con ++ [8; 32; 8]). split_and!.
  - unfold backspace_key, state. wsteps. unfold text. cbn [left right hist cur]. rewrite app_nil_r, length_app. cbn [length]. rewrite (proj2 (Z.eqb_neq _ 0)) by lia. wsteps.
    rewrite u8_small by lia. rewrite Z.gtb_ltb, Z.ltb_irrefl. wsteps. replace (Z.to_nat (Z.of_nat (length A + 1) - 1)) with (length A) by lia.
    erewrite store_mid; [|cbn [line shell]; rewrite pad_eq, <- app_assoc by (apply Ht); reflexivity]. finish; try done; rewrite ?app_nil_r; try (rewrite ?length_app; cbn [length]; lia).
    rewrite pad_eq by (unfold FINSH_CMD_SIZE; lia). rewrite length_app. cbn [length app]. f_equal. f_equal. replace (79 - length A)%nat with (S (79 - (length A + 1))) by lia. done.
  - split; unfold text; cbn [left right hist cur]; rewrite ?app_nil_r; try done. split; [done|]. unfold FINSH_CMD_SIZE. lia.
  - apply (displayed_emit _ _ _ _ _ Hd). intros k. exists (S k). cbn [left right app]. change [8; 32; 8] with (replicate 1 8 ++ [32] ++ replicate 1 8). rewrite show_app, show_back by (rewrite !length_app; cbn; lia).
    rewrite !length_app. cbn [length]. replace (length (prompt sys o) + (length A + 1) - 1)%nat with (length (prompt sys o ++ A)) by (rewrite length_app; lia).
    rewrite <- !app_assoc, (app_assoc (prompt sys o) A), show_app, show_text by (repeat constructor). rewrite show_back by (cbn; lia). f_equal; [|rewrite length_app; cbn; lia]. by rewrite <- !app_assoc.
Qed.

Lemma backspace_mid_done st h A c R H i o con rs : R <> [] -> editor_ok (Ed (A ++ [c]) R H i) h -> displayed o (Ed (A ++ [c]) R H i) con ->
  exists con', backspace_key sys (state st h (Ed (A ++ [c]) R H i) o con rs) = Done tt (state st h (Ed A R H i) o con' rs) /\ editor_ok (Ed A R H i) h /\ displayed o (Ed A R H i) con'.
Proof.
  intros HR [Ht Hh Hr Hl Hn Hc] Hd. unfold text in *. cbn [left right hist cur] in *. assert (Et : (A ++ [c]) ++ R = A ++ c :: R) by (by rewrite <- app_assoc). rewrite Et in Ht.
  assert (HR0 : (0 < length R)%nat) by (destruct R; [done|cbn; lia]). assert (Hlen := proj2 Ht). rewrite length_app in Hlen. unfold FINSH_CMD_SIZE in Hlen. cbn [length] in Hlen.
  destruct (text_app _ _ (proj1 Ht)) as [HA HcR]. apply Forall_cons in HcR as [Hpc HRt]. assert (Ht' : line_ok (A ++ R)) by (split; [by apply Forall_app|rewrite length_app; unfold FINSH_CMD_SIZE; lia]).
  assert (HP : length (pad (A ++ c :: R)) = 80%nat) by (apply length_pad; apply Nat.lt_le_incl, Ht).
  exists (con ++ ([8] ++ R ++ [32; 32; 8]) ++ replicate (length R + 1) 8). split_and!.
  - unfold backspace_key, state. wsteps. unfold text. cbn [left right hist cur]. rewrite Et, !length_app. cbn [length]. rewrite (proj2 (Z.eqb_neq _ 0)) by lia. wsteps.
    rewrite !u8_small by lia. rewrite Z.gtb_ltb, (proj2 (Z.ltb_lt _ _)) by lia. wsteps. replace (Z.to_nat (Z.of_nat (length A + 1) - 1)) with (length A) by lia.
    replace (Z.to_nat (Z.of_nat (length A + S (length R)) - 1 - (Z.of_nat (length A + 1) - 1))) with (length R) by lia.
    replace (Z.to_nat (Z.of_nat (length A + S (length R)) - 1)) with (length A + length R)%nat by lia.
    replace (Z.to_nat (Z.of_nat (length A + S (length R)) - 1 - (Z.of_nat (length A + 1) - 1) + 1)) with (length R + 1)%nat by lia.
    erewrite bind_done; [|apply memmove_done; cbn [line shell]; rewrite HP; lia]. fields.
    assert (Hov : (length A + length R < length (over (length A) (take (length R) (drop (length A + 1) (pad (A ++ c :: R)))) (pad (A ++ c :: R))))%nat) by (rewrite length_over; rewrite HP; lia).
    erewrite bind_done; [|apply store_done; exact Hov]. fields. rewrite delete_line by apply Ht.
    erewrite bind_done; [|apply (line_string_done _ A R); done]. wsteps. rewrite cut_short by (cbn [app length]; rewrite !length_app; cbn [length]; lia). rewrite times_back.
    finish; try done; [lia|lia|by rewrite <- !app_assoc].
  - split; unfold text; cbn [left right hist cur]; done.
  - apply (displayed_emit _ _ _ _ _ Hd). intros k. exists (2 + (k - 1))%nat. cbn [left right]. replace ([8] ++ R ++ [32; 32; 8]) with (replicate 1 8 ++ (R ++ [32; 32]) ++ replicate 1 8) by (by rewrite <- app_assoc).
    rewrite show_app, (show_app (replicate 1 8)), (show_app (R ++ [32; 32])), show_back by (rewrite !length_app; cbn; lia). rewrite !length_app. cbn [length]. replace (length (prompt sys o) + (length A + 1) - 1)%nat with (length (prompt sys o ++ A)) by (rewrite length_app; lia).
    rewrite <- (app_assoc (prompt sys o)), <- (app_assoc A), (app_assoc (prompt sys o) A), show_text by (apply Forall_app; split; [done|repeat constructor]).
    rewrite show_back by (rewrite length_app; cbn; lia). rewrite show_back by (rewrite !length_app; cbn [length]; lia). f_equal; [|rewrite !length_app; cbn [length]; lia].
    rewrite <- !app_assoc. cbn [app]. do 4 f_equal. rewrite length_app. cbn [length]. change (c :: R ++ spaces k) with ((c :: R) ++ spaces k). rewrite drop_app_ge by (cbn; lia). cbn [length].
    unfold spaces. rewrite drop_replicate. cbn [Nat.add replicate]. do 4 f_equal. lia.
Qed.

(** *** Recalling a line *)

Lemma prompt_get w : prompt_mode (shell sys w) = 1 -> finsh_get_prompt sys w = Done (prompt sys (outer sys w)) w.
Proof.
  intros E. unfold finsh_get_prompt. wstep. rewrite E. change (1 =? 0) with false. cbv iota. unfold gets. rewrite ok_custom. unfold prompt. do 2 f_equal.
  rewrite take_ge; [done|]. destruct (ok_directory (outer sys w)) as (_ & _ & ?). lia.
Qed.

Lemma show_prompt o t : text_chars t -> show (prompt sys o ++ t) fresh = {| row := prompt sys o ++ t; col := length (prompt sys o ++ t); esc := None |}.
Proof.
  intros Ht. pose proof (show_text (prompt sys o ++ t) [] []) as E. cbn [app length Nat.add] in E. unfold fresh. rewrite E by (apply Forall_app; split; [apply prompt_chars|done]).
  by rewrite drop_nil, app_nil_r.
Qed.

Lemma cut_prompt o t : line_ok t -> cut (prompt sys o ++ t) = prompt sys o ++ t.
Proof. intros [_ Ht]. apply cut_short. rewrite length_app. pose proof (proj2 (prompt_chars o)). unfold FINSH_CMD_SIZE in Ht. lia. Qed.

Lemma displayed_prompt o t H i con s : text_chars t -> show con fresh = fresh -> s = prompt sys o ++ t -> displayed o (Ed t [] H i) (con ++ s).
Proof.
  intros Ht Hc ->. exists 0%nat. rewrite show_app, Hc, show_prompt by done. cbn [left right]. f_equal. by rewrite !app_nil_r.
Qed.

Lemma recall_done st h A R H j o con rs t : editor_ok (Ed A R H j) h -> displayed o (Ed A R H j) con -> H !! j = Some t ->
  exists con', recall sys (state st h (Ed A R H j) o con rs) = Done tt (state st h (Ed t [] H j) o con' rs) /\ editor_ok (Ed t [] H j) h /\ displayed o (Ed t [] H j) con'.
Proof.
  intros [Ht Hh Hr Hl Hn Hc] [k Hk] Hj. cbn [left right hist cur] in *. assert (Hok : line_ok t) by (by apply (Forall_lookup_1 _ _ _ _ Hh Hj)).
  assert (Hrow : h !! j = Some (pad t)).
  { apply lookup_lt_Some in Hj as Hlt. rewrite <- (lookup_take_lt h (length H)) by done. by rewrite Hr, list_lookup_fmap, Hj. }
  assert (Hlen : (length t < 80)%nat) by apply Hok. exists (con ++ (27 :: chars_of "[2K" ++ [13]) ++ prompt sys o ++ t). split_and!.
  - unfold recall, state. wsteps. cbn [cur hist]. rewrite Nat2Z.id. erewrite bind_done; [|unfold deref; rewrite Hrow; reflexivity]. wsteps. unfold line_length. wsteps.
    erewrite bind_done; [|apply (line_string_done _ [] t); done]. wsteps. rewrite u8_small by lia. unfold shell_handle_history. wsteps.
    erewrite bind_done; [|apply prompt_get; done]. fields. erewrite bind_done; [|apply (line_string_done _ [] t); done]. unfold kprint, modify. fields. rewrite cut_prompt by done.
    f_equal. apply world_eq; unfold text; cbn [left right hist cur]; rewrite ?app_nil_r; try done. by rewrite <- app_assoc.
  - split; unfold text; cbn [left right hist cur]; rewrite ?app_nil_r; done.
  - rewrite app_assoc. apply displayed_prompt; [apply Hok| |done]. rewrite show_app, Hk. done.
Qed.

Lemma up_done st h A R H i o con rs : editor_ok (Ed A R H (S i)) h -> displayed o (Ed A R H (S i)) con ->
  let e' := show_line (Ed A R H (S i)) i in
  exists con', up_key sys (state st h (Ed A R H (S i)) o con rs) = Done tt (state st h e' o con' rs) /\ editor_ok e' h /\ displayed o e' con'.
Proof.
  intros Hok Hd e'. assert (Hi : (S i <= length H)%nat) by apply Hok. assert (Hle : (length H <= 5)%nat) by apply Hok.
  destruct (lookup_lt_is_Some_2 H i ltac:(lia)) as [t Hj].
  assert (Ee : e' = Ed t [] H i) by (unfold e', show_line; cbn [hist]; by rewrite Hj). clearbody e'. subst e'.
  destruct (recall_done st h A R H i o con rs t) as (con' & E & Hok' & Hd'); [|exact Hd|done|].
  { destruct Hok. split; try done. cbn [cur hist] in *. lia. }
  exists con'. split_and!; [|done..]. unfold up_key, state. wsteps. cbn [cur]. rewrite Z.gtb_ltb, (proj2 (Z.ltb_lt _ _)) by lia. wsteps. rewrite u16_small by lia.
  replace (Z.of_nat (S i) - 1) with (Z.of_nat i) by lia. exact E.
Qed.

Lemma down_done st h A R H i o con rs : H <> [] -> editor_ok (Ed A R H i) h -> displayed o (Ed A R H i) con ->
  let e' := show_line (Ed A R H i) (Nat.min (S i) (length H - 1)) in
  exists con', down_key sys (state st h (Ed A R H i) o con rs) = Done tt (state st h e' o con' rs) /\ editor_ok e' h /\ displayed o e' con'.
Proof.
  intros HH Hok Hd e'. assert (Hi : (i <= length H)%nat) by apply Hok. assert (Hle : (length H <= 5)%nat) by apply Hok. assert (H0 : (0 < length H)%nat) by (destruct H; [done|cbn; lia]).
  set (j := Nat.min (S i) (length H - 1)) in *. destruct (lookup_lt_is_Some_2 H j ltac:(lia)) as [t Hj].
  assert (Ee : e' = Ed t [] H j) by (unfold e', show_line; cbn [hist]; by rewrite Hj). clearbody e'. subst e'.
  destruct (recall_done st h A R H j o con rs t) as (con' & E & Hok' & Hd'); [|exact Hd|done|].
  { destruct Hok. split; try done. cbn [cur hist] in *. lia. }
  exists con'. split_and!; [|done..]. unfold down_key, state. wsteps. cbn [cur hist]. destruct (Z.ltb_spec (Z.of_nat i) (Z.of_nat (length H) - 1)).
  - wsteps. rewrite u16_small by lia. replace (Z.of_nat i + 1) with (Z.of_nat j) by lia. exact E.
  - rewrite (proj2 (Z.eqb_neq _ 0)) by lia. cbn [negb]. wsteps. rewrite u16_small by lia. replace (Z.of_nat (length H) - 1) with (Z.of_nat j) by lia. exact E.
Qed.

(** *** Running a line *)

Lemma history_row_pad t : (length t <= FINSH_CMD_SIZE)%nat -> history_row (pad t) (length t) = pad t.
Proof. intros Ht. unfold history_row, pad. by rewrite take_app_length. Qed.

(** The rows of the history after a line is put behind them. *)
Lemma rows_push H h t : take (length H) h = pad <$> H -> length h = FINSH_HISTORY_LINES -> (length H <= FINSH_HISTORY_LINES)%nat ->
  let H' := drop (S (length H) - FINSH_HISTORY_LINES) (H ++ [t]) in
  let h' := if bool_decide (length H = FINSH_HISTORY_LINES) then take 4 (drop 1 h) ++ [pad t] ++ drop 5 h else <[length H := pad t]> h in
  length H' = Nat.min FINSH_HISTORY_LINES (S (length H)) /\ take (length H') h' = pad <$> H' /\ length h' = FINSH_HISTORY_LINES.
Proof.
  unfold FINSH_HISTORY_LINES. intros Hr Hl Hn. cbv zeta. case_bool_decide as E.
  - rewrite E in Hr. rewrite take_ge in Hr by lia. subst h. destruct H as [|a [|b [|c [|d [|e [|]]]]]]; try (cbn in E; lia). done.
  - replace (S (length H) - 5)%nat with 0%nat by lia. rewrite drop_0, length_app, length_insert. cbn [length]. split_and!; [lia| |done]. rewrite fmap_app, <- Hr. cbn [fmap list_fmap].
    rewrite Nat.add_1_r, (take_S_r _ _ (pad t)) by (by rewrite list_lookup_insert_eq by lia). by rewrite take_insert_ge by lia.
Qed.

Section push.
Variables (st : input_stat) (h : list (list Z)) (e : editor) (o : env sys) (con : list Z) (rs : list ran).
Hypothesis e_ok : editor_ok e h.
Hypothesis e_text : text e <> [].

Lemma last_row x : last (hist e) = Some x -> h !! (length (hist e) - 1)%nat = Some (pad x).
Proof.
  destruct e_ok as [_ _ Hr _ _ _]. intros Hx. apply last_Some in Hx as [H' EH]. rewrite <- (lookup_take_lt h (length (hist e))), Hr, EH by (rewrite EH, length_app; cbn; lia).
  rewrite fmap_app, length_app, lookup_app_r by (rewrite length_fmap; cbn; lia). rewrite length_fmap. cbn [length]. by replace (length H' + 1 - 1 - length H')%nat with 0%nat by lia.
Qed.

Lemma same_row x : last (hist e) = Some x -> pad x = pad (text e) <-> x = text e.
Proof.
  destruct e_ok as [[? ?] Hh _ _ _ _]. intros Hx. split; [|by intros ->]. apply last_Some in Hx as [H' EH]. rewrite EH in Hh. apply Forall_app in Hh as [_ Hx].
  apply Forall_cons in Hx as [[? ?] _]. by apply pad_inj.
Qed.

Lemma save_done : exists h' cu, save_line sys (pad (text e)) (Z.of_nat (length (text e))) (Z.of_nat (length (hist e))) h (state st h e o con rs)
  = Done tt (state st h' {| left := left e; right := right e; hist := push (hist e) (text e); cur := cu |} o con rs) /\
  take (length (push (hist e) (text e))) h' = pad <$> push (hist e) (text e) /\ length h' = FINSH_HISTORY_LINES /\ (length (push (hist e) (text e)) <= FINSH_HISTORY_LINES)%nat.
Proof.
  assert (HS := same_row). assert (HL := last_row). destruct e_ok as [Ht Hh Hr Hl Hn Hc]. destruct (rows_push (hist e) h (text e) Hr Hl Hn) as (L1 & L2 & L3). cbv zeta in *. unfold FINSH_HISTORY_LINES in *.
  unfold save_line. rewrite Nat2Z.id, history_row_pad by (apply Nat.lt_le_incl, Ht). unfold push, FINSH_HISTORY_LINES. change (Z.of_nat 5) with 5.
  destruct (decide (length (hist e) = 5%nat)) as [E5|E5].
  - rewrite Z.geb_leb, (proj2 (Z.leb_le _ _)) by lia. destruct (last (hist e)) as [x|] eqn:EL; [|apply last_None in EL; rewrite EL in E5; done].
    specialize (HL x eq_refl). rewrite E5 in HL. erewrite bind_done; [|unfold deref; cbn [Nat.sub] in *; rewrite HL; reflexivity]. rewrite (bool_decide_ext _ _ (HS x eq_refl)).
    destruct (decide (x = text e)) as [->|Hx].
    + rewrite !bool_decide_true by auto. exists h, (cur e). split_and!; [by destruct e|done..].
    + rewrite (bool_decide_false (x = text e)) by done. rewrite bool_decide_true in L2, L3 by done. rewrite bool_decide_false by (intros [?|[=]]; done).
      eexists _, (cur e). split_and!; [|exact L2|exact L3|lia]. cbn [negb when]. change (5 - 1)%nat with 4%nat. unfold state. finish; try done. cbn [hist]. rewrite L1. lia.
  - rewrite geb_false by lia. rewrite bool_decide_false in L2, L3 by done.
    assert (Elast : (if Z.of_nat (length (hist e)) =? 0 then ret None else deref (fun _ : world sys => Some <$> h !! Z.to_nat (Z.of_nat (length (hist e)) - 1))) (state st h e o con rs) = Done (pad <$> last (hist e)) (state st h e o con rs)).
    { destruct (last (hist e)) as [x|] eqn:EL.
      - assert (H0 : (0 < length (hist e))%nat) by (destruct (hist e); [done|cbn; lia]). rewrite (proj2 (Z.eqb_neq _ 0)) by lia. unfold deref.
        replace (Z.to_nat (Z.of_nat (length (hist e)) - 1)) with (length (hist e) - 1)%nat by lia. by rewrite (HL x eq_refl).
      - apply last_None in EL. by rewrite EL. }
    erewrite bind_done; [|exact Elast]. rewrite Nat2Z.id.
    replace (bool_decide (pad <$> last (hist e) = Some (pad (text e)))) with (bool_decide (text e = [] \/ last (hist e) = Some (text e))).
    2:{ destruct (last (hist e)) as [x|]; cbn [fmap option_fmap option_map]; [|by rewrite !bool_decide_false by (intros ?; intuition done)].
        specialize (HS x eq_refl). apply bool_decide_ext. split; [intros [?|[= ->]]; done|intros [= Hp]; right; by rewrite (proj1 HS Hp)]. }
    case_bool_decide as HP; cbn [negb when].
    + exists h, (cur e). split_and!; [by destruct e|done..].
    + eexists _, (length (hist e)). split_and!; [|exact L2|exact L3|lia]. unfold state. wsteps. finish; try done. cbn [hist]. rewrite u16_small by lia. rewrite L1. lia.
Qed.
End push.

Lemma push_ok H t : Forall line_ok H -> line_ok t -> Forall line_ok (push H t).
Proof. intros HH Ht. unfold push. case_bool_decide; [done|]. apply Forall_drop, Forall_app. split; [done|]. by apply Forall_singleton. Qed.

Lemma push_done st h e o con rs : editor_ok e h ->
  let e' := {| left := left e; right := right e; hist := push (hist e) (text e); cur := length (push (hist e) (text e)) |} in
  exists h', shell_push_history sys (state st h e o con rs) = Done tt (state st h' e' o con rs) /\ editor_ok e' h'.
Proof.
  intros Hok e'. assert (Ht := eo_text _ _ Hok). assert (Hh := eo_hist _ _ Hok). unfold shell_push_history. unfold state at 1. wsteps. destruct (decide (text e = [])) as [E0|E0].
  - destruct Hok. exists h. subst e'. unfold push. rewrite bool_decide_true by (by left). rewrite (proj2 (Z.eqb_eq _ 0)) by (by rewrite E0). cbn [negb when]. wsteps. split; [unfold state; finish; done|]. by split.
  - rewrite (proj2 (Z.eqb_neq _ 0)) by (destruct (text e); [done|cbn; lia]). cbn [negb when]. destruct (save_done st h e o con rs Hok E0) as (h' & cu & E & L1 & L2 & L3).
    exists h'. unfold state in E at 1. erewrite bind_done; [|exact E]. unfold state. wsteps. split; [finish; done|]. split; cbn [hist cur]; try done. by apply push_ok.
Qed.

Lemma names_path : Forall (fun e => path_chars e.1) (table sys).
Proof. apply (Forall_impl _ _ _ ok_names). intros e [He _]. by apply text_path. Qed.

Lemma prompt_format o : existsb (Z.eqb 37) (prompt sys o) = false.
Proof.
  destruct (ok_directory o) as (_ & H & _). unfold prompt. rewrite !existsb_app, orb_false_iff. split; [done|]. rewrite orb_false_iff. split; [|done].
  induction H as [|c l Hc _ IH]; [done|]. cbn [existsb]. rewrite IH, orb_false_r. by apply Z.eqb_neq.
Qed.

Lemma enter_done st h e o con rs : editor_ok e h -> displayed o e con ->
  let r := run_line (table sys) (exec_script sys o) (chdir sys o) (text e) in
  let o' := (effect sys r o).1 in let H := push (hist e) (text e) in let e' := Ed [] [] H (length H) in
  exists h' con', enter_key sys (state st h e o con rs) = Done tt (state st h' e' o' con' (rs ++ [r])) /\ editor_ok e' h' /\ displayed o' e' con'.
Proof.
  intros Hok [k Hk] r o' H e'. destruct (push_done st h e o con rs Hok) as (h' & Ep & Hok'). cbv zeta in Ep, Hok'. destruct (eo_text _ _ Hok) as [Hc Hlen]. unfold FINSH_CMD_SIZE in Hlen.
  assert (Ex : exists b', msh_exec (table sys) (exec_script sys o) (chdir sys o) (Z.of_nat (length (text e))) (pad (text e)) = Done r b').
  { rewrite pad_eq by done. apply msh_exec_done; [apply names_path|by apply text_path|lia]. }
  destruct Ex as [b' Ex]. exists h', (((con ++ [10]) ++ (effect sys r o).2) ++ prompt sys o'). split_and!.
  - unfold enter_key. rewrite (after Ep). unfold state at 1. wsteps. change (1 =? 0) with false. cbn [negb when]. wsteps. unfold text at 1. cbn [left right]. fold (text e).
    erewrite bind_done; [|unfold on_line, zoom; fields; unfold text at 2; cbn [left right]; fold (text e); rewrite Ex; reflexivity]. wsteps. subst o'. destruct (effect sys r o) as [o' out]. fields.
    erewrite bind_done; [|apply prompt_get; done]. fields. unfold kprintf. rewrite prompt_format. wsteps. rewrite (cut_short (prompt sys o')) by (pose proof (proj2 (prompt_chars o')); lia). finish; done.
  - destruct Hok' as [_ H2 H3 H4 H5 H6]. constructor; [|done..]. unfold e', text. split; [constructor|unfold FINSH_CMD_SIZE; cbn; lia].
  - pose proof (displayed_prompt o' [] H (length H) ((con ++ [10]) ++ (effect sys r o).2) (prompt sys o')) as HD. apply HD; [constructor| |by rewrite app_nil_r].
    rewrite !show_app, Hk. cbn [show foldl]. rewrite show_newline by done. apply ok_effect.
Qed.

(** *** Completion *)

Lemma each_done (f : list Z -> list Z) l : forall w, each sys l (fun n => kprint sys (f n)) w = Done tt (emit (concat ((fun n => cut (f n)) <$> l)) w).
Proof.
  induction l as [|n l IH]; intros w; cbn [each fmap list_fmap concat]; [destruct w; unfold emit; cbn; by rewrite app_nil_r|]. wstep. rewrite IH.
  unfold emit. cbn [shell outer console runs]. by rewrite <- app_assoc.
Qed.

Abbreviation name_ok n := (text_chars n /\ (length n <= 125)%nat).

Lemma show_names l : Forall (fun n => name_ok n) l -> show (concat ((fun n => cut (n ++ [10])) <$> l)) fresh = fresh.
Proof.
  induction 1 as [|n l [Hn Hl] _ IH]; [done|]. cbn [fmap list_fmap concat]. rewrite show_app, cut_short by (rewrite length_app; cbn; lia).
  by rewrite show_fresh_line by (try done; by apply text_no_esc).
Qed.

Lemma commands_ok : Forall (fun n => name_ok n) (commands (table sys)).
Proof.
  unfold commands. apply Forall_fmap, Forall_forall. intros n Hn. apply list_elem_of_filter in Hn as [_ Hn]. apply list_elem_of_fmap in Hn as (x & -> & Hx).
  destruct (proj1 (Forall_forall _ _) ok_names x Hx) as [H1 H2]. cbn. split; [by apply Forall_drop|rewrite length_drop; lia].
Qed.

Lemma cut_no_esc s : Forall (fun c => c <> 27) s -> Forall (fun c => c <> 27) (cut s).
Proof. intros H. unfold cut. case_bool_decide; [done|]. apply Forall_app. split; [by apply Forall_take|by repeat constructor]. Qed.

Lemma help_done w : exists s, msh_help sys w = Done tt (emit s w) /\ show s fresh = fresh.
Proof.
  unfold msh_help. wstep. eexists. split.
  - erewrite bind_done; [|apply (each_done (fun name => pad16 name ++ chars_of " - " ++ description sys name ++ [10]))]. unfold kprint, modify, emit. cbn [shell outer console runs].
    rewrite <- !app_assoc. reflexivity.
  - rewrite show_app. change (show (cut (chars_of "RT-Thread shell commands:" ++ [10])) fresh) with fresh. change (cut [10]) with [10]. apply show_fresh_line; [done|].
    apply Forall_concat, Forall_fmap, (Forall_impl _ _ _ commands_ok). intros n [Hn _]. cbv beta. apply cut_no_esc. unfold pad16. rewrite !Forall_app. split_and!.
    + by apply text_no_esc.
    + apply Forall_replicate. done.
    + apply text_no_esc. decided.
    + apply text_no_esc, ok_description.
    + by repeat constructor.
Qed.

Lemma listed_in (P : list Z -> Prop) names p : Forall P names -> forall kept m, Forall P (complete_loop names p kept m).2.
Proof.
  induction 1 as [|n names Hn _ IH]; intros kept m; [done|]. cbn [complete_loop]. destruct (strncmp_eq _ _ _); [|apply IH].
  destruct (if Nat.eqb m 0 then _ else _) as [kept1 m1]. cbv zeta. specialize (IH kept1 (if bool_decide (str_common (default [] kept1) n < m1)%nat then str_common (default [] kept1) n else m1)).
  destruct (complete_loop names p _ _) as [[? ?] listed]. by constructor.
Qed.

Lemma path_names (P : list Z -> Prop) room cwd opendir path b f l : (forall q ns, opendir q = Some ns -> Forall P ns) ->
  msh_auto_complete_path room cwd opendir path b = Done f l -> Forall P f.
Proof.
  intros HP. unfold msh_auto_complete_path. destruct room; [|intros [= <- <-]; constructor]. cbn [negb]. mstep. cbv zeta. intros E. apply bind_inv in E as (full & b1 & _ & E).
  destruct (opendir full) as [ns|] eqn:Eo; [|injection E as <- <-; constructor]. specialize (HP _ _ Eo). destruct (Nat.eqb _ _); [by injection E as <- <-|].
  pose proof (listed_in P ns (drop (default 0%nat (behind_slash 0 (string_at b path) None)) (string_at b path)) HP None 0) as HL. destruct (complete_loop _ _ _ _) as [[kept m] listed]. cbn [snd] in HL.
  destruct (Nat.eqb m 0); [injection E as <- <-; constructor|]. apply bind_inv in E as (? & ? & _ & E). apply bind_inv in E as (? & ? & _ & E). injection E as <- <-. by case_bool_decide.
Qed.

Lemma auto_complete_names (P : list Z -> Prop) t room cwd opendir b f c l : (forall q ns, opendir q = Some ns -> Forall P ns) -> Forall P (commands t) ->
  msh_auto_complete t room cwd opendir b = Done (f, c) l -> Forall P f /\ Forall P c.
Proof.
  intros HP Hc. unfold msh_auto_complete. intros E. apply bind_inv in E as (x & b1 & _ & E). destruct (x =? 0); [injection E as <- <- <-; split; [constructor|done]|].
  apply bind_inv in E as (p & b2 & _ & E). apply bind_inv in E as (sp & b3 & _ & E). apply bind_inv in E as (files & b4 & Ef & E). apply bind_inv in E as (q & b5 & _ & E).
  assert (Hf : Forall P files) by (destruct sp; [by eapply path_names|injection Ef as <- <-; constructor]).
  pose proof (listed_in P (commands t) q Hc None 0) as HL. destruct (complete_loop _ _ _ _) as [[kept m] listed]. cbn [snd] in HL.
  destruct kept; [apply bind_inv in E as (? & ? & _ & E)|]; by injection E as <- <- <-.
Qed.

(** What completion prints. *)
Definition listing (x : Z) (f c : list (list Z)) : M (world sys) unit :=
  if x =? 0 then msh_help sys else each sys f (fun name => kprint sys (name ++ [10]));;; each sys c (fun name => kprint sys (name ++ [10])).

Lemma listing_done x f c w : Forall (fun n => name_ok n) f -> Forall (fun n => name_ok n) c -> exists s, listing x f c w = Done tt (emit s w) /\ show s fresh = fresh.
Proof.
  intros Hf Hc. unfold listing. destruct (x =? 0); [apply help_done|]. eexists. split.
  - erewrite bind_done; [|apply (each_done (fun name => name ++ [10]))]. rewrite (each_done (fun name => name ++ [10])). unfold emit. cbn [shell outer console runs]. rewrite <- app_assoc. reflexivity.
  - rewrite show_app, !show_names by done. done.
Qed.

Lemma tab_done st h e o con rs r : editor_ok e h -> displayed o e con -> completed sys o (text e) = Some r ->
  let e' := Ed r [] (hist e) (cur e) in
  exists con', tab_key sys (state st h e o con rs) = Done tt (state st h e' o con' rs) /\ editor_ok e' h /\ displayed o e' con'.
Proof.
  intros Hok [k Hk] Hr e'. unfold completed in Hr. destruct (msh_auto_complete _ _ _ _ _) as [[f c] l|] eqn:Ec; [|done]. case_bool_decide as Hl; [|done]. injection Hr as Hr. rewrite Hr in Hl. clear Hr.
  destruct Hl as (-> & Hlen & Hch). destruct (auto_complete_names _ _ _ _ _ _ _ _ _ (ok_entries o) commands_ok Ec) as [Hf Hc].
  assert (Hline : line_ok r) by done. assert (Hpl : (0 < length (pad (text e)))%nat) by (rewrite length_pad by (apply Nat.lt_le_incl, Hok); unfold FINSH_CMD_SIZE; lia).
  assert (E0 : exists x T, pad (text e) = x :: T) by (destruct (pad (text e)); [cbn in Hpl; lia|by eexists _, _]). destruct E0 as (x & T & E0).
  set (w1 := {| shell := set_line (pad r) (shell sys (state st h e o con rs)); outer := o; console := (con ++ replicate (length (left e)) 8) ++ [10]; runs := rs |} : world sys).
  destruct (listing_done x f c w1 Hf Hc) as (s & Es & Hs). exists (((con ++ replicate (length (left e)) 8) ++ [10] ++ s) ++ prompt sys o ++ r). split_and!.
  - unfold tab_key, state. wsteps. rewrite Nat2Z.id. erewrite bind_done; [|apply times_back]. unfold emit. fields. unfold shell_auto_complete. wsteps.
    erewrite bind_done; [|unfold on_line, zoom; fields; rewrite E0; reflexivity]. wsteps. rewrite <- E0. erewrite bind_done; [|unfold on_line, zoom; fields; rewrite Ec; reflexivity]. fields.
    cbn [fst snd]. fold (listing x f c). change (cut [10]) with [10]. wstep. erewrite bind_done; [|exact Es]. unfold emit, w1, state. wsteps. fields. erewrite bind_done; [|apply prompt_get; done]. wsteps.
    erewrite bind_done; [|apply (line_string_done _ [] r); done]. wsteps. unfold line_length. rewrite cut_prompt by done. wsteps. erewrite bind_done; [|apply (line_string_done _ [] r); done]. wsteps.
    destruct Hline as [_ Hl80]. unfold FINSH_CMD_SIZE in Hl80. rewrite u8_small by lia. finish; unfold e', text; cbn [left right hist cur]; rewrite ?app_nil_r; try done. by rewrite <- !app_assoc.
  - destruct Hok. unfold e'. split; unfold text; cbn [left right hist cur]; rewrite ?app_nil_r; done.
  - apply displayed_prompt; [done| |done]. rewrite !show_app, Hk, show_back by (rewrite length_app; lia). cbn [show foldl]. by rewrite show_newline.
Qed.

(** *** All keys *)

Abbreviation simulated m e o h con rs st e' o' rs' :=
  (exists h' con', m (@state sys st h e o con rs) = Done tt (state st h' e' o' con' (rs ++ rs')) /\ editor_ok e' h' /\ displayed o' e' con').

Lemma same_history (m : M (world sys) unit) st h e o con rs e' : (exists con', m (state st h e o con rs) = Done tt (state st h e' o con' rs) /\ editor_ok e' h /\ displayed o e' con') ->
  simulated m e o h con rs st e' o [].
Proof. intros (con' & E & H1 & H2). exists h, con'. by rewrite app_nil_r. Qed.

Lemma unchanged (m : M (world sys) unit) st h e o con rs : editor_ok e h -> displayed o e con -> m (state st h e o con rs) = Done tt (state st h e o con rs) ->
  simulated m e o h con rs st e o [].
Proof. intros H1 H2 E. apply same_history. by exists con. Qed.

Lemma backspace_done st h A R H i o con rs : editor_ok (Ed A R H i) h -> displayed o (Ed A R H i) con ->
  simulated (backspace_key sys) (Ed A R H i) o h con rs st (Ed (take (length A - 1) A) R H i) o [].
Proof.
  intros Hok Hd. destruct (last A) as [c|] eqn:EA.
  - apply last_Some in EA as [A' ->]. rewrite length_app. cbn [length]. replace (length A' + 1 - 1)%nat with (length A') by lia. rewrite take_app_length. apply same_history.
    destruct R as [|x R]; [by apply backspace_end_done|by apply backspace_mid_done].
  - apply last_None in EA as ->. by apply unchanged.
Qed.

Lemma press_done st h e o con rs p e' o' rs' : editor_ok e h -> displayed o e con -> edit sys e o p = Some (e', o', rs') ->
  simulated (do_press sys p) e o h con rs st e' o' rs'.
Proof.
  intros Hok Hd He. destruct e as [A R H i]. destruct p; cbn [do_press edit left right hist cur text] in *.
  - injection He as <- <- <-. destruct i as [|i]; [by apply unchanged|]. by apply same_history, up_done.
  - injection He as <- <- <-. destruct H as [|x H].
    { change (Nat.eqb (length []) 0) with true. cbv iota. apply unchanged; [done..|]. unfold down_key, state. wsteps. cbn [cur hist length]. rewrite (proj2 (Z.ltb_ge (Z.of_nat i) (Z.of_nat 0 - 1))) by lia. done. }
    change (Nat.eqb (length (x :: H)) 0) with false. cbv iota. by apply same_history, down_done.
  - destruct (last A) as [c|] eqn:EA.
    + apply last_Some in EA as [A' ->]. rewrite length_app in He. cbn [length] in He. replace (length A' + 1 - 1)%nat with (length A') in He by lia. rewrite take_app_length in He.
      injection He as <- <- <-. by apply same_history, left_done.
    + apply last_None in EA as ->. injection He as <- <- <-. by apply unchanged.
  - destruct R as [|c R]; injection He as <- <- <-; [|by apply same_history, right_done]. apply unchanged; [done..|]. unfold right_key, state. wsteps. unfold text. cbn [left right]. rewrite app_nil_r. by rewrite Z.ltb_irrefl.
  - destruct (completed sys o _) as [r|] eqn:Ec; [|done]. injection He as <- <- <-. by apply same_history, tab_done.
  - injection He as <- <- <-. by apply backspace_done.
  - injection He as <- <- <-. by apply enter_done.
  - case_bool_decide as Hc; [|done]. injection He as <- <- <-. destruct Hc as [Hc Hl]. apply same_history. destruct R as [|x R]; [|by apply type_mid_done].
    unfold text in Hl. cbn [left right] in Hl. rewrite app_nil_r in Hl. by apply type_end_done.
  - injection He as <- <- <-. by apply unchanged.
Qed.

Lemma plain_press ch : plain_key sys ch = do_press sys (plain ch).
Proof.
  unfold plain_key, plain. destruct (Z.eqb_spec ch 0), (Z.eqb_spec ch 255), (Z.eqb_spec ch 9), (Z.eqb_spec ch 127), (Z.eqb_spec ch 8), (Z.eqb_spec ch 13), (Z.eqb_spec ch 10);
    cbn [orb]; repeat (case_bool_decide; [first [reflexivity|lia|exfalso; lia]|]); try reflexivity; exfalso; lia.
Qed.

Lemma key_press st h e o con rs ch : key sys ch (state st h e o con rs) = do_press sys (decode st ch).2 (state (decode st ch).1 h e o con rs).
Proof.
  unfold key, state, decode. wsteps. destruct (ch =? 27); [done|]. destruct st; cbn [fst snd].
  - by rewrite plain_press.
  - destruct (ch =? 91); [done|]. wsteps. by rewrite plain_press.
  - wsteps. destruct (Z.eqb_spec ch 65); [done|]. destruct (Z.eqb_spec ch 66); [done|]. destruct (Z.eqb_spec ch 68), (Z.eqb_spec ch 67); try done; [lia|]. by rewrite plain_press.
Qed.

Lemma keys_done chs : forall st h e o con rs e' o' rs', editor_ok e h -> displayed o e con -> edits sys st e o chs = Some (e', o', rs') ->
  exists h' con', keys sys chs (state st h e o con rs) = Done tt (state (foldl (fun st c => (decode st c).1) st chs) h' e' o' con' (rs ++ rs')) /\ editor_ok e' h' /\ displayed o' e' con'.
Proof.
  induction chs as [|ch chs IH]; intros st h e o con rs e' o' rs' Hok Hd He; cbn [edits keys] in *.
  - injection He as <- <- <-. exists h, con. by rewrite app_nil_r.
  - pose proof (key_press st h e o con rs ch) as Ek. cbn [foldl]. destruct (decode st ch) as [st1 p]. cbn [fst snd] in Ek. destruct (edit sys e o p) as [[[e1 o1] rs1]|] eqn:Ee; [|done]. cbn [mbind option_bind] in He.
    destruct (edits sys st1 e1 o1 chs) as [[[e2 o2] rs2]|] eqn:Ee2; [|done]. injection He as <- <- <-.
    destruct (press_done st1 h e o con rs p e1 o1 rs1 Hok Hd Ee) as (h1 & con1 & E1 & Hok1 & Hd1). destruct (IH st1 h1 e1 o1 con1 (rs ++ rs1) e2 o2 rs2 Hok1 Hd1 Ee2) as (h2 & con2 & E2 & ? & ?).
    exists h2, con2. rewrite E1 in Ek. rewrite (after Ek), E2, app_assoc. done.
Qed.

(** The prompt of an empty line, at the start. *)
Lemma start_done o out : show out fresh = fresh -> exists h, finsh_thread_entry sys [] (finsh_system_init sys o out) = Done tt (state WAIT_NORMAL h empty_editor o (out ++ prompt sys o) []) /\
  editor_ok empty_editor h /\ displayed o empty_editor (out ++ prompt sys o).
Proof.
  intros Ho. exists (replicate FINSH_HISTORY_LINES (replicate FINSH_CMD_SIZE 0)). split_and!.
  - unfold finsh_thread_entry, finsh_system_init, set_prompt_mode. wsteps. unfold set_echo. fields. erewrite bind_done; [|apply prompt_get; done]. fields. unfold kprintf. rewrite prompt_format. wsteps.
    rewrite cut_short by (pose proof (proj2 (prompt_chars o)); lia). done.
  - split; cbn; try done; [split; [constructor|unfold FINSH_CMD_SIZE; cbn; lia]|unfold FINSH_HISTORY_LINES; lia].
  - pose proof (displayed_prompt o [] [] 0%nat out (prompt sys o)) as HD. apply HD; [constructor|done|by rewrite app_nil_r].
Qed.

Lemma keys_app a b w : keys sys (a ++ b) w = (keys sys a;;; keys sys b) w.
Proof. revert w. induction a as [|c a IH]; intros w; [done|]. cbn [app keys]. rewrite bind_assoc. unfold bind. destruct (key sys c w); [apply IH|done]. Qed.

Lemma entry_keys chs w w1 : finsh_thread_entry sys [] w = Done tt w1 -> finsh_thread_entry sys chs w = keys sys chs w1.
Proof.
  unfold finsh_thread_entry. cbn [keys]. unfold bind, ret. repeat (match goal with |- context [match ?m with Done _ _ => _ | Stop _ => _ end] => destruct m; [|done] end). by intros [= ->].
Qed.

(** *** Typing *)

Lemma plain_char c : printable c = true -> decode WAIT_NORMAL c = (WAIT_NORMAL, Char c).
Proof.
  unfold printable. intros Hc. unfold decode, plain. rewrite (proj2 (Z.eqb_neq c 27)) by lia. by rewrite !bool_decide_false by lia.
Qed.

Lemma stat_type cs : text_chars cs -> foldl (fun st c => (decode st c).1) WAIT_NORMAL cs = WAIT_NORMAL.
Proof. induction 1 as [|c cs Hc _ IH]; [done|]. cbn [foldl]. by rewrite plain_char. Qed.

Lemma edits_type cs : forall A H i o, text_chars cs -> (length A + length cs < FINSH_CMD_SIZE)%nat -> edits sys WAIT_NORMAL (Ed A [] H i) o cs = Some (Ed (A ++ cs) [] H i, o, []).
Proof.
  induction cs as [|c cs IH]; intros A H i o Hcs Hl; cbn [edits]; [by rewrite app_nil_r|]. apply Forall_cons in Hcs as [Hc Hcs]. cbn [length] in Hl. rewrite plain_char by done. cbn [edit].
  rewrite bool_decide_true by (unfold text; cbn [left right]; rewrite app_nil_r; split; [done|lia]). cbn [mbind option_bind left right hist cur]. rewrite IH by (try done; rewrite length_app; cbn; lia).
  cbn [mbind option_bind app]. by rewrite <- app_assoc.
Qed.

(** The last character that the array holds. *)
Lemma type_full_done st h A c H i o con rs : editor_ok (Ed A [] H i) h -> length A = 79%nat ->
  exists w, insert_key sys c (state st h (Ed A [] H i) o con rs) = Done tt w /\ line (shell sys w) = A ++ [c] /\ line_position (shell sys w) = 0 /\ line_curpos (shell sys w) = 0 /\ stat (shell sys w) = st.
Proof.
  intros [Ht _ _ _ _ _] Hl. unfold text in Ht. cbn [left right] in Ht. rewrite app_nil_r in Ht. eexists. split.
  - unfold insert_key, state. wsteps. unfold text. cbn [left right hist cur]. rewrite app_nil_r, Hl. change (Z.of_nat 79 >=? Z.of_nat FINSH_CMD_SIZE) with false. rewrite Z.ltb_irrefl. wstep. rewrite Nat2Z.id, <- Hl.
    erewrite bind_done; [|apply (store_mid _ A 0 (replicate (79 - length A) 0)); cbn [line shell]; apply pad_eq, Ht]. fields. change (1 =? 0) with false. cbn [negb when]. wsteps. rewrite Hl.
    change (u8 (Z.of_nat 79 + 1) >=? Z.of_nat FINSH_CMD_SIZE) with true. unfold upd, modify. fields. reflexivity.
  - cbn [shell line line_position line_curpos stat]. rewrite Nat.sub_diag. done.
Qed.

Lemma string_in_all l : path_chars l -> string_in l = l.
Proof. induction 1 as [|c l Hc _ IH]; [done|]. cbn. rewrite (proj2 (Z.eqb_neq c 0)) by done. by rewrite IH. Qed.

(** Completion of a line without a NUL. *)
Lemma tab_full w l : line (shell sys w) = l -> path_chars l -> l <> [] -> line_curpos (shell sys w) = 0 -> tab_key sys w = Stop Undefined.
Proof.
  intros El Hl Hne Hc. unfold tab_key. wstep. rewrite Hc. change (Z.to_nat 0) with 0%nat. cbn [times]. wsteps. unfold shell_auto_complete. wsteps. destruct l as [|c l]; [done|]. assert (Hc0 : c <> 0) by (by apply Forall_cons in Hl as [? _]).
  erewrite bind_done; [|unfold on_line, zoom; fields; rewrite El; reflexivity]. wsteps.
  assert (Es : forall a b d, msh_auto_complete (table sys) a b d (c :: l) = Stop Undefined).
  { intros. unfold msh_auto_complete. erewrite bind_done by reflexivity. rewrite (proj2 (Z.eqb_neq c 0)) by done. mstep. rewrite string_in_all by done.
    unfold bind at 1. assert (Er : rdc (length (c :: l)) (c :: l) = Stop Undefined) by (unfold rdc, deref; by rewrite lookup_ge_None_2). cbn [length space_before] in *. unfold bind at 1. by rewrite Er. }
  unfold bind at 1. unfold bind at 1. unfold on_line, zoom. fields. by rewrite Es.
Qed.
End refinement.

(** C13: the line editor refines the reference: for bytes that keep the text shorter than the line, the
    shell runs the lines the reference runs, in the same order, its array holds the text of the
    reference and its index is at the cursor, and a terminal that is sent the output shows the prompt
    and the text, with spaces behind it, and the cursor between the two parts of the text. *)
Theorem shell_refines sys `{!system_ok sys} o out bytes e' o' rs : show out fresh = fresh -> edits sys WAIT_NORMAL empty_editor o bytes = Some (e', o', rs) ->
  exists w k, finsh_thread_entry sys bytes (finsh_system_init sys o out) = Done tt w /\ runs sys w = rs /\ outer sys w = o' /\
    string_in (line (shell sys w)) = text e' /\ line_curpos (shell sys w) = Z.of_nat (length (left e')) /\
    show (console sys w) fresh = {| row := (prompt sys o' ++ left e') ++ right e' ++ spaces k; col := length (prompt sys o' ++ left e'); esc := None |}.
Proof.
  intros Ho He. destruct (start_done sys o out Ho) as (h & E0 & Hok & Hd). destruct (keys_done sys bytes _ _ _ _ _ [] _ _ _ Hok Hd He) as (h' & con & E & Hok' & k & Hk).
  eexists _, k. rewrite (entry_keys _ _ _ _ E0). split; [exact E|]. unfold state. cbn [runs outer shell line line_curpos console]. split_and!; try done. apply string_pad; apply Hok'.
Qed.

(** C40: when the eightieth character of a line is typed, the shell goes back to the beginning but the
    array keeps the characters, without a NUL; the Tab key then reads behind the array. *)
Theorem full_line_not_cleared sys `{!system_ok sys} o out cs : show out fresh = fresh -> text_chars cs -> length cs = FINSH_CMD_SIZE ->
  exists w, finsh_thread_entry sys cs (finsh_system_init sys o out) = Done tt w /\ line (shell sys w) = cs /\ line_position (shell sys w) = 0 /\
    finsh_thread_entry sys (cs ++ [9]) (finsh_system_init sys o out) = Stop Undefined.
Proof.
  intros Ho Hcs Hl. destruct (start_done sys o out Ho) as (h & E0 & Hok & Hd). destruct (last cs) as [c|] eqn:EL; [|apply last_None in EL; by subst cs]. apply last_Some in EL as [A ->].
  rewrite length_app in Hl. unfold FINSH_CMD_SIZE in Hl. cbn [length] in Hl. destruct (text_app _ _ Hcs) as [HA Hc]. apply Forall_cons in Hc as [Hc _].
  destruct (keys_done sys A _ _ _ _ _ [] _ _ _ Hok Hd (edits_type sys A [] [] 0%nat o HA ltac:(unfold FINSH_CMD_SIZE; cbn; lia))) as (h' & con & E & Hok' & _).
  rewrite stat_type in E by done. destruct (type_full_done sys WAIT_NORMAL h' ([] ++ A) c [] 0%nat o con [] Hok' ltac:(cbn; lia)) as (w & Ew & L1 & L2 & L3 & L4). cbn [app] in *.
  assert (Ek : key sys c (state WAIT_NORMAL h' {| left := A; right := []; hist := []; cur := 0 |} o con []) = Done tt w) by (rewrite key_press, (plain_char c Hc); exact Ew).
  exists w. rewrite !(entry_keys _ _ _ _ E0). split_and!; [|done..|].
  - rewrite keys_app, (after E). cbn [keys]. by rewrite (after Ek).
  - rewrite <- app_assoc, keys_app, (after E). cbn [app keys]. rewrite (after Ek). unfold bind, key, sh, gets. unfold bind. rewrite L4. change (9 =? 27) with false. cbv iota.
    change (plain_key sys 9) with (tab_key sys). rewrite (tab_full sys w (A ++ [c])); try done; [by apply text_path|by destruct A].
Qed.

(** ** A concrete system *)

Definition sample_system : system :=
  {| env := bool; table := sample_table; description := fun _ => chars_of "a command"; working_directory := fun sd => if sd : bool then chars_of "/sd" else chars_of "/";
     finsh_prompt_custom := fun _ => None; heap_room := fun _ => true; directory := fun _ => sample_open; exec_script := fun _ _ => false;
     chdir := fun _ l => bool_decide (l = chars_of "/sd");
     effect := fun r sd => match r with Empty => (sd, []) | Chdir _ => (true, []) | _ => (sd, chars_of "done" ++ [10]) end |}.

#[export] Instance sample_system_ok : system_ok sample_system.
Proof.
  split.
  - decided.
  - intros name. decided.
  - done.
  - intros []; split_and!; decided.
  - intros o p names. cbn. unfold sample_open. case_bool_decide; [|done]. intros [= <-]. decided.
  - intros [] o; done.
Defined.

(** "li", Tab, "imer", Left, Backspace, Enter, "/sd", Enter, Up, Up, Left. *)
Definition sample_bytes : list Z := chars_of "li" ++ [9] ++ chars_of "imer" ++ [27; 91; 68; 127; 13] ++ chars_of "/sd" ++ [13] ++ [27; 91; 65; 27; 91; 65; 27; 91; 68].
Definition sample_end : editor := {| left := chars_of "list_tim"; right := chars_of "r"; hist := [chars_of "list_timr"; chars_of "/sd"]; cur := 0 |}.
Definition sample_runs : list ran := [NotFound (chars_of "list_timr"); Chdir (chars_of "/sd")].

Lemma sample_edits : edits sample_system WAIT_NORMAL empty_editor false sample_bytes = Some (sample_end, true, sample_runs).
Proof. concrete. Qed.

Lemma shell_refines_witness : exists w k, finsh_thread_entry sample_system sample_bytes (finsh_system_init sample_system false []) = Done tt w /\
  runs sample_system w = sample_runs /\ outer sample_system w = true /\
  string_in (line (shell sample_system w)) = text sample_end /\ line_curpos (shell sample_system w) = Z.of_nat (length (left sample_end)) /\
  show (console sample_system w) fresh =
    {| row := (prompt sample_system true ++ left sample_end) ++ right sample_end ++ spaces k; col := length (prompt sample_system true ++ left sample_end); esc := None |}.
Proof. apply (shell_refines sample_system false [] sample_bytes sample_end true sample_runs); [reflexivity|apply sample_edits]. Defined.

Lemma full_line_not_cleared_witness : exists w, finsh_thread_entry sample_system (replicate 80 97) (finsh_system_init sample_system false []) = Done tt w /\
  line (shell sample_system w) = replicate 80 97 /\ line_position (shell sample_system w) = 0 /\
  finsh_thread_entry sample_system (replicate 80 97 ++ [9]) (finsh_system_init sample_system false []) = Stop Undefined.
Proof. apply (full_line_not_cleared sample_system false [] (replicate 80 97)); [reflexivity|decided|reflexivity]. Defined.
