(* ===== verification/Dfs.v ===== *)
(** * The device file system (components/dfs/src/dfs.c, dfs_file.c, dfs_fs.c, dfs_posix.c)

    The table of descriptors, the table of mounted file systems and the table of file system
    types, with the functions on them: allocation and reference counts of descriptors,
    mounting, and the calls [open], [close], [read], [write], [lseek] and their kin, which go
    through the operations of the file system a path belongs to.  These operations are found by
    address ([ops_at], [fops_at]), as the code compares the addresses.  Blocks of the heap come
    from [heap]: the n-th allocation fails, or gives a block with the contents some earlier use
    has left in it, which the code reads before it writes them.  The lock of the file system is
    not modelled: every call runs alone. *)

From Stdlib Require Import Ascii String.
From S2P Require Import Prelude Exec Printf Path.

(** ** Data *)

Definition DFS_FD_MAX : nat := 16.
Definition DFS_FILESYSTEMS_MAX : nat := 2.
Definition DFS_FILESYSTEM_TYPES_MAX : nat := 2.
Definition DFS_FD_OFFSET : Z := 3.
Definition DFS_FD_MAGIC : Z := 0xfdfd.
Definition DFS_PATH_MAX : nat := 256.

Definition DFS_FS_FLAG_FULLPATH : Z := 1.
Definition FT_REGULAR : Z := 0.
Definition FT_DIRECTORY : Z := 2.
Definition DFS_F_OPEN : Z := 0x01000000.
Definition DFS_F_DIRECTORY : Z := 0x02000000.
Definition DFS_F_EOF : Z := 0x04000000.

Definition ENOENT : Z := 2.
Definition EIO : Z := 5.
Definition ENXIO : Z := 6.
Definition EBADF : Z := 9.
Definition ENOMEM : Z := 12.
Definition EBUSY : Z := 16.
Definition EEXIST : Z := 17.
Definition EXDEV : Z := 18.
Definition ENODEV : Z := 19.
Definition ENOTDIR : Z := 20.
Definition EINVAL : Z := 22.
Definition ENOSPC : Z := 28.
Definition ENOSYS : Z := 38.

Definition O_CREAT : Z := 0x40.
Definition O_APPEND : Z := 0x400.
Definition O_NONBLOCK : Z := 0x800.
Definition O_DIRECTORY : Z := 0x10000.
Definition F_GETFL : Z := 3.
Definition F_SETFL : Z := 4.

(** The modes S_IFREG, S_IFDIR, the read and write bits, and the search bits. *)
Definition S_IFREG : Z := 0x8000.
Definition S_IFDIR : Z := 0x4000.
Definition mode_rw : Z := 0x1b6.
Definition mode_x : Z := 0x49.

(** [void *data]: a mounted file system, or an object of the file system's own. *)
Inductive fdata := DNull | DFs (i : nat) | DObj (p : Z).

(** [struct dfs_fd]; a [path] that is no string is [None]. *)
Record dfs_fd := DfsFd {
  fd_magic : Z; fd_type : Z; fd_path : option (list Z); fd_ref : Z; fd_fops : Z;
  fd_flags : Z; fd_size : Z; fd_pos : Z; fd_data : fdata
}.

Definition with_ref (r : Z) (d : dfs_fd) := DfsFd (fd_magic d) (fd_type d) (fd_path d) r (fd_fops d) (fd_flags d) (fd_size d) (fd_pos d) (fd_data d).
Definition with_path (p : option (list Z)) (d : dfs_fd) := DfsFd (fd_magic d) (fd_type d) p (fd_ref d) (fd_fops d) (fd_flags d) (fd_size d) (fd_pos d) (fd_data d).
Definition with_flags (f : Z) (d : dfs_fd) := DfsFd (fd_magic d) (fd_type d) (fd_path d) (fd_ref d) (fd_fops d) f (fd_size d) (fd_pos d) (fd_data d).
Definition with_type (t : Z) (d : dfs_fd) := DfsFd (fd_magic d) t (fd_path d) (fd_ref d) (fd_fops d) (fd_flags d) (fd_size d) (fd_pos d) (fd_data d).
Definition with_pos (p : Z) (d : dfs_fd) := DfsFd (fd_magic d) (fd_type d) (fd_path d) (fd_ref d) (fd_fops d) (fd_flags d) (fd_size d) p (fd_data d).
Definition with_size (n : Z) (d : dfs_fd) := DfsFd (fd_magic d) (fd_type d) (fd_path d) (fd_ref d) (fd_fops d) (fd_flags d) n (fd_pos d) (fd_data d).
Definition with_data (x : fdata) (d : dfs_fd) := DfsFd (fd_magic d) (fd_type d) (fd_path d) (fd_ref d) (fd_fops d) (fd_flags d) (fd_size d) (fd_pos d) x.

(** [d->ref_count = 1; d->magic = DFS_FD_MAGIC;] *)
Definition new_fd (d : dfs_fd) := DfsFd DFS_FD_MAGIC (fd_type d) (fd_path d) 1 (fd_fops d) (fd_flags d) (fd_size d) (fd_pos d) (fd_data d).
(** What [dfs_file_open] stores before it asks the file system. *)
Definition init_fd (fo fl : Z) (i : nat) (d : dfs_fd) := DfsFd (fd_magic d) FT_REGULAR (fd_path d) (fd_ref d) fo fl 0 0 (DFs i).

(** [struct dfs_filesystem]; an entry that is not in use has no [ops]. *)
Record dfs_filesystem := Fs { fs_dev : Z; fs_path : option (list Z); fs_ops : Z; fs_data : Z }.
Definition no_fs : dfs_filesystem := Fs 0 None 0 0.

Record statfs := StatFs { f_bsize : Z; f_blocks : Z; f_bfree : Z }.
Record dirent := Dirent { d_type : Z; d_namlen : Z; d_reclen : Z; d_name : list Z }.
(** [sizeof(struct dirent)] *)
Definition dirent_size : Z := 260.

Record stat := Stat { st_mode : Z; st_size : Z; st_mtime : Z }.

(** A pointer to a descriptor: one of the table, or the local variable of [dfs_mount]. *)
Inductive fdp := Tab (i : nat) | Stk.

(** The static variables, and below them the state of the file systems and devices. *)
Record dfs (X : Type) := Dfs {
  fds : list (option dfs_fd);                 (* _fdtab *)
  filesystem_table : list dfs_filesystem;
  filesystem_operation_table : list Z;
  working_directory : list Z;
  errno : Z;
  local_fd : dfs_fd;                          (* fd of dfs_mount *)
  mem : nat;                                  (* allocations so far *)
  freed : option dfs_fd;                      (* what is left in the descriptor freed last *)
  init_ok : bool;
  low : X
}.
Arguments Dfs {X} _ _ _ _ _ _ _ _ _ _.
Arguments fds {X} _.
Arguments filesystem_table {X} _.
Arguments filesystem_operation_table {X} _.
Arguments working_directory {X} _.
Arguments errno {X} _.
Arguments local_fd {X} _.
Arguments mem {X} _.
Arguments freed {X} _.
Arguments init_ok {X} _.
Arguments low {X} _.

Definition set_fds {X} l (s : dfs X) := Dfs l (filesystem_table s) (filesystem_operation_table s) (working_directory s) (errno s) (local_fd s) (mem s) (freed s) (init_ok s) (low s).
Definition set_table {X} t (s : dfs X) := Dfs (fds s) t (filesystem_operation_table s) (working_directory s) (errno s) (local_fd s) (mem s) (freed s) (init_ok s) (low s).
Definition set_types {X} t (s : dfs X) := Dfs (fds s) (filesystem_table s) t (working_directory s) (errno s) (local_fd s) (mem s) (freed s) (init_ok s) (low s).
Definition set_cwd {X} w (s : dfs X) := Dfs (fds s) (filesystem_table s) (filesystem_operation_table s) w (errno s) (local_fd s) (mem s) (freed s) (init_ok s) (low s).
Definition set_errno {X} e (s : dfs X) := Dfs (fds s) (filesystem_table s) (filesystem_operation_table s) (working_directory s) e (local_fd s) (mem s) (freed s) (init_ok s) (low s).
Definition set_local {X} d (s : dfs X) := Dfs (fds s) (filesystem_table s) (filesystem_operation_table s) (working_directory s) (errno s) d (mem s) (freed s) (init_ok s) (low s).
Definition set_mem {X} n (s : dfs X) := Dfs (fds s) (filesystem_table s) (filesystem_operation_table s) (working_directory s) (errno s) (local_fd s) n (freed s) (init_ok s) (low s).
Definition set_freed {X} o (s : dfs X) := Dfs (fds s) (filesystem_table s) (filesystem_operation_table s) (working_directory s) (errno s) (local_fd s) (mem s) o (init_ok s) (low s).
Definition set_init {X} b (s : dfs X) := Dfs (fds s) (filesystem_table s) (filesystem_operation_table s) (working_directory s) (errno s) (local_fd s) (mem s) (freed s) b (low s).
Definition set_low {X} (x : X) (s : dfs X) := Dfs (fds s) (filesystem_table s) (filesystem_operation_table s) (working_directory s) (errno s) (local_fd s) (mem s) (freed s) (init_ok s) x.

(** [struct dfs_file_ops] and [struct dfs_filesystem_ops]; [None] is a NULL function. *)
Record dfs_file_ops (X : Type) := FileOps {
  fo_open : option (fdp -> M (dfs X) Z);
  fo_close : option (fdp -> M (dfs X) Z);
  fo_ioctl : option (fdp -> Z -> Z -> M (dfs X) Z);
  fo_read : option (fdp -> Z -> M (dfs X) (Z * list Z));
  fo_write : option (fdp -> list Z -> M (dfs X) Z);
  fo_flush : option (fdp -> M (dfs X) Z);
  fo_lseek : option (fdp -> Z -> M (dfs X) Z);
  fo_getdents : option (fdp -> Z -> M (dfs X) (Z * list dirent))   (* poll is for sockets *)
}.
Arguments FileOps {X} _ _ _ _ _ _ _ _.
Arguments fo_open {X} _.
Arguments fo_close {X} _.
Arguments fo_ioctl {X} _.
Arguments fo_read {X} _.
Arguments fo_write {X} _.
Arguments fo_flush {X} _.
Arguments fo_lseek {X} _.
Arguments fo_getdents {X} _.

Record dfs_filesystem_ops (X : Type) := FsOps {
  op_name : list Z;
  op_flags : Z;
  op_fops : Z;
  op_mount : option (nat -> Z -> Z -> M (dfs X) Z);
  op_unmount : option (nat -> M (dfs X) Z);
  op_mkfs : option (Z -> M (dfs X) Z);
  op_statfs : option (nat -> M (dfs X) (Z * option statfs));
  op_unlink : option (nat -> list Z -> M (dfs X) Z);
  op_stat : option (nat -> list Z -> M (dfs X) (Z * option stat));
  op_rename : option (nat -> option (list Z) -> option (list Z) -> M (dfs X) Z)
}.
Arguments FsOps {X} _ _ _ _ _ _ _ _ _ _.
Arguments op_name {X} _.
Arguments op_flags {X} _.
Arguments op_fops {X} _.
Arguments op_mount {X} _.
Arguments op_unmount {X} _.
Arguments op_mkfs {X} _.
Arguments op_statfs {X} _.
Arguments op_unlink {X} _.
Arguments op_stat {X} _.
Arguments op_rename {X} _.

(** The heap: what the n-th allocation gives. *)
Class blocks := Blocks { heap : nat -> option dfs_fd }.

(** The rest of the program: the constant tables by address, and the devices. *)
Class system (X : Type) := System {
  fops_at : Z -> option (dfs_file_ops X);
  ops_at : Z -> option (dfs_filesystem_ops X);
  rt_device_find : list Z -> M X Z;
  rt_device_open : Z -> M X Z;
  rt_device_close : Z -> M X Z
}.

Section dfs.
Context {X : Type} {B : blocks} {P : system X}.

Definition getf {A} (p : fdp) (f : dfs_fd -> A) : M (dfs X) A :=
  deref (fun s => match p with Tab i => f <$> mjoin (fds s !! i) | Stk => Some (f (local_fd s)) end).
Definition setf (p : fdp) (f : dfs_fd -> dfs_fd) : M (dfs X) unit :=
  d <- getf p f;;
  modify (fun s => match p with Tab i => set_fds (<[i := Some d]> (fds s)) s | Stk => set_local d s end).

Definition rt_set_errno (e : Z) : M (dfs X) unit := modify (set_errno e).
Definition below {A} (m : M X A) : M (dfs X) A := zoom low set_low m.

(** [rt_malloc]: the address and the contents of the block. *)
Definition rt_malloc : M (dfs X) (option (Z * dfs_fd)) :=
  n <- gets mem;; modify (set_mem (S n));;; ret ((fun d => (Z.of_nat (S n), d)) <$> heap n).
(** Whether there was room. *)
Definition room : M (dfs X) bool := o <- rt_malloc;; ret (if o is Some _ then true else false).

Definition ops_of (a : Z) : M (dfs X) (dfs_filesystem_ops X) := deref (fun _ => ops_at a).
Definition fops_of (p : fdp) : M (dfs X) (dfs_file_ops X) := a <- getf p fd_fops;; deref (fun _ => fops_at a).

(** [dfs_normalize_path(NULL, path)] *)
Definition normalize (path : list Z) : M (dfs X) (option (list Z)) :=
  r <- room;; w <- gets working_directory;;
  match dfs_normalize_path r w path with Done o _ => ret o | Stop w => stuck w end.

(** The mount point of an entry in use. *)
Definition entry_path (e : dfs_filesystem) : option (list Z) := if fs_ops e =? 0 then None else fs_path e.
Definition lookup_fs (path : list Z) : M (dfs X) (option nat) := gets (fun s => dfs_filesystem_lookup (entry_path <$> filesystem_table s) path).
Definition entry (i : nat) : M (dfs X) dfs_filesystem := deref (fun s => filesystem_table s !! i).

(** ** Descriptors *)

(** The loop over the table: the first entry from [i] on that is free. *)
Fixpoint free_from (i : nat) (l : list (option dfs_fd)) : nat :=
  match l with
  | [] => i
  | None :: _ => i
  | Some d :: l => if fd_ref d =? 0 then i else free_from (S i) l
  end.

(** The table made larger; [false] is [goto __out]. *)
Definition fd_grow (idx : nat) : M (dfs X) bool :=
  l <- gets fds;;
  let maxfd := length l in
  if (bool_decide (idx = maxfd) && bool_decide (maxfd < DFS_FD_MAX)%nat)%bool then
    let cnt := if bool_decide (DFS_FD_MAX < maxfd + 4)%nat then DFS_FD_MAX else (maxfd + 4)%nat in
    r <- room;;
    if r then modify (set_fds (l ++ replicate (cnt - maxfd) None));;; ret true else ret false
  else ret true.

Definition fd_alloc (startfd : nat) : M (dfs X) nat :=
  l <- gets fds;;
  let idx := free_from startfd (drop startfd l) in
  g <- fd_grow idx;;
  if negb g then ret idx
  else
    l <- gets fds;;
    match l !! idx with
    | Some None =>
        o <- rt_malloc;;
        match o with
        | None => ret (length l)
        | Some (_, d) => modify (set_fds (<[idx := Some d]> l));;; ret idx
        end
    | _ => ret idx
    end.

Definition fd_new : M (dfs X) Z :=
  idx <- fd_alloc 0;;
  maxfd <- gets (fun s => length (fds s));;
  if bool_decide (idx = maxfd) then ret (- (1 + DFS_FD_OFFSET) + DFS_FD_OFFSET)
  else setf (Tab idx) new_fd;;; ret (Z.of_nat idx + DFS_FD_OFFSET).

Definition fd_get (fd : Z) : M (dfs X) (option fdp) :=
  let fd := fd - DFS_FD_OFFSET in
  maxfd <- gets (fun s => Z.of_nat (length (fds s)));;
  if ((fd <? 0) || (maxfd <=? fd))%bool then ret None
  else
    let d := Tab (Z.to_nat fd) in
    m <- getf d fd_magic;;
    if negb (m =? DFS_FD_MAGIC) then ret None
    else setf d (fun d => with_ref (fd_ref d + 1) d);;; ret (Some d).

(** The loop finds the entry that points to the descriptor, if there is one. *)
Definition fd_put (fd : option fdp) : M (dfs X) unit :=
  match fd with
  | None => stuck Assertion
  | Some p =>
      setf p (fun d => with_ref (fd_ref d - 1) d);;;
      d <- getf p id;;
      when (fd_ref d =? 0) (modify (fun s => match p with Tab i => set_freed (Some d) (set_fds (<[i := None]> (fds s)) s) | Stk => s end))
  end.

(** The descriptors that are compared with [mountpath]. *)
Fixpoint find_open (fo : Z) (mountpath : list Z) (l : list (option dfs_fd)) : M (dfs X) Z :=
  match l with
  | [] => ret (-1)
  | None :: l => find_open fo mountpath l
  | Some d :: l =>
      if fd_fops d =? fo then
        p <- deref (fun _ => fd_path d);;
        if bool_decide (p = mountpath) then ret 0 else find_open fo mountpath l
      else find_open fo mountpath l
  end.

Definition fd_is_open (pathname : list Z) : M (dfs X) Z :=
  o <- normalize pathname;;
  match o with
  | None => ret (-1)
  | Some fullpath =>
      f <- lookup_fs fullpath;;
      match f with
      | None => ret (-1)
      | Some i =>
          fs <- entry i;;
          mnt <- deref (fun _ => fs_path fs);;
          ops <- ops_of (fs_ops fs);;
          let mountpath := if bool_decide (mnt = [slash]) then fullpath else drop (length mnt) fullpath in
          l <- gets fds;;
          find_open (op_fops ops) mountpath l
      end
  end.

(** ** Files *)

(** The path below the mount point, or the whole path for a file system that asks for it. *)
Definition path_below (ops : dfs_filesystem_ops X) (mnt fullpath : list Z) : list Z :=
  if Z.land (op_flags ops) DFS_FS_FLAG_FULLPATH =? 0 then default [slash] (dfs_subdir mnt fullpath) else fullpath.

Definition set_path (p : fdp) (ops : dfs_filesystem_ops X) (mnt fullpath : list Z) : M (dfs X) unit :=
  if Z.land (op_flags ops) DFS_FS_FLAG_FULLPATH =? 0 then
    r <- room;; setf p (with_path (if r then Some (path_below ops mnt fullpath) else None))
  else setf p (with_path (Some fullpath)).

Definition dfs_file_open (fd : option fdp) (path : list Z) (flags : Z) : M (dfs X) Z :=
  match fd with
  | None => ret (- EINVAL)
  | Some p =>
      o <- normalize path;;
      match o with
      | None => ret (- ENOMEM)
      | Some fullpath =>
          b <- fd_is_open fullpath;;
          if b =? 0 then ret (- EBUSY)
          else
            f <- lookup_fs fullpath;;
            match f with
            | None => ret (- ENOENT)
            | Some i =>
                fs <- entry i;;
                ops <- ops_of (fs_ops fs);;
                mnt <- deref (fun _ => fs_path fs);;
                setf p (init_fd (op_fops ops) (u32 flags) i);;;
                set_path p ops mnt fullpath;;;
                fo <- fops_of p;;
                match fo_open fo with
                | None => setf p (with_path None);;; ret (- ENOSYS)
                | Some open =>
                    result <- open p;;
                    if result <? 0 then setf p (with_path None);;; ret result
                    else
                      setf p (fun d => with_flags (Z.lor (fd_flags d) DFS_F_OPEN) d);;;
                      when (negb (Z.land flags O_DIRECTORY =? 0))
                        (setf p (fun d => with_type FT_DIRECTORY (with_flags (Z.lor (fd_flags d) DFS_F_DIRECTORY) d)));;;
                      ret 0
                end
            end
      end
  end.

Definition dfs_file_close (fd : option fdp) : M (dfs X) Z :=
  match fd with
  | None => ret (- ENXIO)
  | Some p =>
      fo <- fops_of p;;
      result <- match fo_close fo with Some close => close p | None => ret 0 end;;
      if result <? 0 then ret result
      else setf p (with_path None);;; ret result
  end.

Definition dfs_file_ioctl (fd : option fdp) (cmd args : Z) : M (dfs X) Z :=
  match fd with
  | None => ret (- EINVAL)
  | Some p =>
      t <- getf p fd_type;;
      if ((t =? FT_REGULAR) && (cmd =? F_GETFL))%bool then getf p (fun d => s32 (fd_flags d))
      else if ((t =? FT_REGULAR) && (cmd =? F_SETFL))%bool then
        let mask := Z.lor O_NONBLOCK O_APPEND in
        setf p (fun d => with_flags (Z.lor (Z.land (fd_flags d) mask) (Z.land args mask)) d);;; ret 0
      else
        fo <- fops_of p;;
        match fo_ioctl fo with Some ioctl => ioctl p cmd args | None => ret (- ENOSYS) end
  end.

Definition dfs_file_read (fd : option fdp) (len : Z) : M (dfs X) (Z * list Z) :=
  match fd with
  | None => ret (- EINVAL, [])
  | Some p =>
      fo <- fops_of p;;
      match fo_read fo with
      | None => ret (- ENOSYS, [])
      | Some read =>
          r <- read p len;;
          when (r.1 <? 0) (setf p (fun d => with_flags (Z.lor (fd_flags d) DFS_F_EOF) d));;;
          ret r
      end
  end.

Definition dfs_file_write (fd : option fdp) (buf : list Z) : M (dfs X) Z :=
  match fd with
  | None => ret (- EINVAL)
  | Some p => fo <- fops_of p;; match fo_write fo with None => ret (- ENOSYS) | Some write => write p buf end
  end.

Definition dfs_file_flush (fd : option fdp) : M (dfs X) Z :=
  match fd with
  | None => ret (- EINVAL)
  | Some p => fo <- fops_of p;; match fo_flush fo with None => ret (- ENOSYS) | Some flush => flush p end
  end.

Definition dfs_file_lseek (fd : option fdp) (offset : Z) : M (dfs X) Z :=
  match fd with
  | None => ret (- EINVAL)
  | Some p =>
      fo <- fops_of p;;
      match fo_lseek fo with
      | None => ret (- ENOSYS)
      | Some lseek => result <- lseek p offset;; when (0 <=? result) (setf p (with_pos result));;; ret result
      end
  end.

Definition dfs_file_getdents (fd : option fdp) (nbytes : Z) : M (dfs X) (Z * list dirent) :=
  match fd with
  | None => ret (- EINVAL, [])
  | Some p =>
      t <- getf p fd_type;;
      if negb (t =? FT_DIRECTORY) then ret (- EINVAL, [])
      else fo <- fops_of p;; match fo_getdents fo with Some getdents => getdents p nbytes | None => ret (- ENOSYS, []) end
  end.

Definition dfs_file_unlink (path : list Z) : M (dfs X) Z :=
  o <- normalize path;;
  match o with
  | None => ret (- EINVAL)
  | Some fullpath =>
      f <- lookup_fs fullpath;;
      match f with
      | None => ret (- ENOENT)
      | Some i =>
          b <- fd_is_open fullpath;;
          if b =? 0 then ret (- EBUSY)
          else
            fs <- entry i;;
            ops <- ops_of (fs_ops fs);;
            mnt <- deref (fun _ => fs_path fs);;
            match op_unlink ops with Some unlink => unlink i (path_below ops mnt fullpath) | None => ret (- ENOSYS) end
      end
  end.

Definition root_stat : stat := Stat (Z.lor (Z.lor mode_rw S_IFDIR) mode_x) 0 0.

(** [None] in the result: [buf] has not been filled. *)
Definition dfs_file_stat (path : list Z) : M (dfs X) (Z * option stat) :=
  o <- normalize path;;
  match o with
  | None => ret (-1, None)
  | Some fullpath =>
      f <- lookup_fs fullpath;;
      match f with
      | None => ret (- ENOENT, None)
      | Some i =>
          fs <- entry i;;
          ops <- ops_of (fs_ops fs);;
          mnt <- deref (fun _ => fs_path fs);;
          match (if bool_decide (fullpath = [slash]) then None else dfs_subdir mnt fullpath) with
          | None => ret (0, Some root_stat)
          | Some sub =>
              match op_stat ops with
              | None => ret (- ENOSYS, None)
              | Some stat => stat i (if Z.land (op_flags ops) DFS_FS_FLAG_FULLPATH =? 0 then sub else fullpath)
              end
          end
      end
  end.

(** Two paths of no file system: the operations of NULL are looked at. *)
Definition dfs_file_rename (oldpath newpath : list Z) : M (dfs X) Z :=
  o <- normalize oldpath;;
  match o with
  | None => ret (- ENOENT)
  | Some old =>
      n <- normalize newpath;;
      match n with
      | None => ret (- ENOENT)
      | Some new =>
          oldfs <- lookup_fs old;;
          newfs <- lookup_fs new;;
          if bool_decide (oldfs = newfs) then
            i <- deref (fun _ => oldfs);;
            fs <- entry i;;
            ops <- ops_of (fs_ops fs);;
            mnt <- deref (fun _ => fs_path fs);;
            match op_rename ops with
            | None => ret (- ENOSYS)
            | Some rename =>
                if Z.land (op_flags ops) DFS_FS_FLAG_FULLPATH =? 0 then rename i (dfs_subdir mnt old) (dfs_subdir mnt new)
                else rename i (Some old) (Some new)
            end
          else ret (- EXDEV)
      end
  end.

(** ** The calls of a program *)

Definition open (file : list Z) (flags : Z) : M (dfs X) Z :=
  fd <- fd_new;;
  if fd <? 0 then rt_set_errno (- ENOMEM);;; ret (-1)
  else
    d <- fd_get fd;;
    result <- dfs_file_open d file flags;;
    if result <? 0 then fd_put d;;; fd_put d;;; rt_set_errno result;;; ret (-1)
    else fd_put d;;; ret fd.

Definition close (fd : Z) : M (dfs X) Z :=
  d <- fd_get fd;;
  match d with
  | None => rt_set_errno (- EBADF);;; ret (-1)
  | Some _ =>
      result <- dfs_file_close d;;
      fd_put d;;;
      if result <? 0 then rt_set_errno result;;; ret (-1)
      else fd_put d;;; ret 0
  end.

Definition read (fd len : Z) : M (dfs X) (Z * list Z) :=
  d <- fd_get fd;;
  match d with
  | None => rt_set_errno (- EBADF);;; ret (-1, [])
  | Some _ =>
      r <- dfs_file_read d len;;
      if r.1 <? 0 then fd_put d;;; rt_set_errno r.1;;; ret (-1, r.2)
      else fd_put d;;; ret r
  end.

Definition write (fd : Z) (buf : list Z) : M (dfs X) Z :=
  d <- fd_get fd;;
  match d with
  | None => rt_set_errno (- EBADF);;; ret (-1)
  | Some _ =>
      result <- dfs_file_write d buf;;
      if result <? 0 then fd_put d;;; rt_set_errno result;;; ret (-1)
      else fd_put d;;; ret result
  end.

Definition SEEK_SET : Z := 0.
Definition SEEK_CUR : Z := 1.
Definition SEEK_END : Z := 2.

(** [offset] is an [int], and so is its sum with the [size_t] the size is. *)
Definition lseek (fd offset whence : Z) : M (dfs X) Z :=
  d <- fd_get fd;;
  match d with
  | None => rt_set_errno (- EBADF);;; ret (-1)
  | Some p =>
      o <- (if whence =? SEEK_SET then ret (Some offset)
            else if whence =? SEEK_CUR then n <- getf p fd_pos;; ret (Some (s32 (offset + n)))
            else if whence =? SEEK_END then n <- getf p fd_size;; ret (Some (s32 (offset + n)))
            else ret None);;
      match o with
      | None => fd_put d;;; rt_set_errno (- EINVAL);;; ret (-1)
      | Some offset =>
          if offset <? 0 then fd_put d;;; rt_set_errno (- EINVAL);;; ret (-1)
          else
            result <- dfs_file_lseek d offset;;
            if result <? 0 then fd_put d;;; rt_set_errno result;;; ret (-1)
            else fd_put d;;; ret offset
      end
  end.

(** [if (result < 0) { rt_set_errno(result); return -1; } return 0;] *)
Definition or_errno (result : Z) : M (dfs X) Z := if result <? 0 then rt_set_errno result;;; ret (-1) else ret 0.

Definition rename (old new : list Z) : M (dfs X) Z := r <- dfs_file_rename old new;; or_errno r.
Definition unlink (pathname : list Z) : M (dfs X) Z := r <- dfs_file_unlink pathname;; or_errno r.
Definition rmdir (pathname : list Z) : M (dfs X) Z := r <- dfs_file_unlink pathname;; or_errno r.

Definition posix_stat (file : list Z) : M (dfs X) (Z * option stat) :=
  r <- dfs_file_stat file;;
  if r.1 <? 0 then rt_set_errno r.1;;; ret (-1, r.2) else ret r.

Definition access (path : list Z) : M (dfs X) Z := r <- posix_stat path;; ret (if r.1 <? 0 then -1 else 0).

Definition fstat (fildes : Z) : M (dfs X) (Z * option stat) :=
  d <- fd_get fildes;;
  match d with
  | None => rt_set_errno (- EBADF);;; ret (-1, None)
  | Some p =>
      t <- getf p fd_type;;
      n <- getf p fd_size;;
      let mode := if t =? FT_DIRECTORY then Z.lor (Z.lor mode_rw S_IFDIR) mode_x else Z.lor S_IFREG mode_rw in
      fd_put d;;; ret (0, Some (Stat mode n 0))
  end.

Definition fsync (fildes : Z) : M (dfs X) Z :=
  d <- fd_get fildes;;
  match d with
  | None => rt_set_errno (- EBADF);;; ret (-1)
  | Some _ => r <- dfs_file_flush d;; fd_put d;;; ret r
  end.

Definition fcntl (fildes cmd arg : Z) : M (dfs X) Z :=
  d <- fd_get fildes;;
  r <- match d with Some _ => r <- dfs_file_ioctl d cmd arg;; fd_put d;;; ret r | None => ret (- EBADF) end;;
  when (r <? 0) (rt_set_errno r);;;
  ret 0.

Definition ioctl (fildes cmd arg : Z) : M (dfs X) Z := fcntl fildes cmd arg.

Definition mkdir (path : list Z) : M (dfs X) Z :=
  fd <- fd_new;;
  if fd =? -1 then rt_set_errno (- ENOMEM);;; ret (-1)
  else
    d <- fd_get fd;;
    result <- dfs_file_open d path (Z.lor O_DIRECTORY O_CREAT);;
    if result <? 0 then fd_put d;;; fd_put d;;; rt_set_errno result;;; ret (-1)
    else dfs_file_close d;;; fd_put d;;; fd_put d;;; ret 0.

(** ** Directories *)

(** [DIR]; the entries in [buf] start at multiples of their size. *)
Record DIR := Dir { dir_fd : Z; dir_buf : list dirent; dir_num : Z; dir_cur : Z }.
Definition entry_at (d : DIR) (cur : Z) : option dirent := if cur mod dirent_size =? 0 then dir_buf d !! Z.to_nat (cur / dirent_size) else None.

Definition opendir (name : list Z) : M (dfs X) (option DIR) :=
  fd <- fd_new;;
  if fd =? -1 then rt_set_errno (- ENOMEM);;; ret None
  else
    d <- fd_get fd;;
    result <- dfs_file_open d name O_DIRECTORY;;
    if 0 <=? result then
      r <- room;;
      when (negb r) (dfs_file_close d;;; fd_put d);;;
      fd_put d;;;
      ret (if r then Some (Dir fd [] 0 0) else None)
    else fd_put d;;; fd_put d;;; rt_set_errno result;;; ret None.

Definition readdir (d : DIR) : M (dfs X) (option dirent * DIR) :=
  fd <- fd_get (dir_fd d);;
  match fd with
  | None => rt_set_errno (- EBADF);;; ret (None, d)
  | Some _ =>
      cur <- (if dir_num d =? 0 then ret (dir_cur d) else e <- deref (fun _ => entry_at d (dir_cur d));; ret (dir_cur d + d_reclen e));;
      let d := Dir (dir_fd d) (dir_buf d) (dir_num d) cur in
      if ((dir_num d =? 0) || (dir_num d <=? cur))%bool then
        r <- dfs_file_getdents fd 511;;
        if r.1 <=? 0 then fd_put fd;;; rt_set_errno r.1;;; ret (None, d)
        else
          let d := Dir (dir_fd d) r.2 r.1 0 in
          fd_put fd;;; e <- deref (fun _ => entry_at d 0);; ret (Some e, d)
      else fd_put fd;;; e <- deref (fun _ => entry_at d cur);; ret (Some e, d)
  end.

Definition telldir (d : DIR) : M (dfs X) Z :=
  fd <- fd_get (dir_fd d);;
  match fd with
  | None => rt_set_errno (- EBADF);;; ret 0
  | Some p => n <- getf p fd_pos;; fd_put fd;;; ret (n - dir_num d + dir_cur d)
  end.

Definition seekdir (d : DIR) (offset : Z) : M (dfs X) DIR :=
  fd <- fd_get (dir_fd d);;
  match fd with
  | None => rt_set_errno (- EBADF);;; ret d
  | Some _ => r <- dfs_file_lseek fd offset;; fd_put fd;;; ret (if 0 <=? r then Dir (dir_fd d) (dir_buf d) 0 0 else d)
  end.
Definition rewinddir (d : DIR) : M (dfs X) DIR := seekdir d 0.

Definition closedir (d : DIR) : M (dfs X) Z :=
  fd <- fd_get (dir_fd d);;
  match fd with
  | None => rt_set_errno (- EBADF);;; ret (-1)
  | Some _ => r <- dfs_file_close fd;; fd_put fd;;; fd_put fd;;; or_errno r
  end.

(** A path that fills [working_directory] leaves it without its NUL; nothing can be said of it from then on. *)
Definition chdir (path : option (list Z)) : M (dfs X) Z :=
  match path with
  | None => ret 0
  | Some path =>
      if bool_decide (DFS_PATH_MAX < length path)%nat then rt_set_errno (- ENOTDIR);;; ret (-1)
      else
        o <- normalize path;;
        match o with
        | None => rt_set_errno (- ENOTDIR);;; ret (-1)
        | Some fullpath =>
            d <- opendir fullpath;;
            match d with
            | None => ret (-1)
            | Some d =>
                closedir d;;;
                if bool_decide (DFS_PATH_MAX <= length fullpath)%nat then stuck Undefined
                else modify (set_cwd fullpath);;; ret 0
            end
        end
  end.

(** What [strncpy] leaves in the buffer. *)
Definition getcwd (size : nat) : M (dfs X) (list Z) := gets (fun s => take size (working_directory s ++ replicate size 0)).

(** ** File systems *)

Definition dfs_statfs (path : option (list Z)) : M (dfs X) (Z * option statfs) :=
  match path with
  | None => stuck Assertion
  | Some path =>
      f <- lookup_fs path;;
      match f with
      | None => ret (-1, None)
      | Some i =>
          fs <- entry i;;
          ops <- ops_of (fs_ops fs);;
          match op_statfs ops with Some statfs => statfs i | None => ret (-1, None) end
      end
  end.

Definition posix_statfs (path : option (list Z)) : M (dfs X) (Z * option statfs) :=
  r <- dfs_statfs path;;
  if r.1 <? 0 then rt_set_errno r.1;;; ret (-1, r.2) else ret r.

(** The path of the first entry in use with the device. *)
Fixpoint path_of_device (device : Z) (l : list dfs_filesystem) : option (list Z) :=
  match l with
  | [] => None
  | e :: l => if fs_ops e =? 0 then path_of_device device l else if fs_dev e =? device then fs_path e else path_of_device device l
  end.
Definition dfs_filesystem_get_mounted_path (device : Z) : M (dfs X) (option (list Z)) := gets (fun s => path_of_device device (filesystem_table s)).

Record dfs_partition := Partition { part_type : Z; part_offset : Z; part_size : Z }.

(** Four bytes of the table; the shift of the last one must fit an [int]. *)
Definition word_le (buf : list Z) (i : nat) : M (dfs X) Z :=
  b0 <- deref (fun _ => buf !! i);; b1 <- deref (fun _ => buf !! (i + 1)%nat);; b2 <- deref (fun _ => buf !! (i + 2)%nat);; b3 <- deref (fun _ => buf !! (i + 3)%nat);;
  if 128 <=? b3 then stuck Undefined else ret (Z.lor (Z.lor (Z.lor b0 (Z.shiftl b1 8)) (Z.shiftl b2 16)) (Z.shiftl b3 24)).

Definition dfs_filesystem_get_partition (buf : list Z) (pindex : nat) : M (dfs X) (Z * option dfs_partition) :=
  let dpt := (0x1be + pindex * 16)%nat in
  a <- deref (fun _ => buf !! dpt);;
  if (negb (a =? 0x80) && negb (a =? 0))%bool then ret (- EIO, None)
  else
    type <- deref (fun _ => buf !! (dpt + 4)%nat);;
    if type =? 0 then ret (- EIO, None)
    else
      offset <- word_le buf (dpt + 8);;
      size <- word_le buf (dpt + 12);;
      ret (0, Some (Partition type offset size)).

(** The loop of [dfs_register]: whether the name is there, and the first empty entry. *)
Fixpoint register_scan (name : list Z) (i : nat) (l : list Z) (empty : option nat) : M (dfs X) (bool * option nat) :=
  match l with
  | [] => ret (false, empty)
  | a :: l =>
      if a =? 0 then register_scan name (S i) l (if empty is Some _ then empty else Some i)
      else
        o <- ops_of a;;
        if bool_decide (op_name o = name) then ret (true, empty) else register_scan name (S i) l empty
  end.

Definition dfs_register (ops : Z) : M (dfs X) Z :=
  o <- ops_of ops;;
  l <- gets filesystem_operation_table;;
  r <- register_scan (op_name o) 0 l None;;
  when r.1 (rt_set_errno (- EEXIST));;;
  match r.2 with
  | None => rt_set_errno (- ENOSPC);;; ret (-1)
  | Some i => if r.1 : bool then ret (-1) else modify (set_types (<[i := ops]> l));;; ret 0
  end.

(** The first of the types with the name. *)
Fixpoint find_type (name : list Z) (l : list Z) : M (dfs X) (option Z) :=
  match l with
  | [] => ret None
  | a :: l =>
      if a =? 0 then find_type name l
      else o <- ops_of a;; if bool_decide (op_name o = name) then ret (Some a) else find_type name l
  end.

(** The loop of [dfs_mount] over the mounted file systems: [None] when [path] is there, else the first empty entry. *)
Fixpoint mount_scan (path : list Z) (i : nat) (l : list dfs_filesystem) (fs : option nat) : M (dfs X) (option (option nat)) :=
  match l with
  | [] => ret (Some fs)
  | e :: l =>
      if fs_ops e =? 0 then mount_scan path (S i) l (if fs is Some _ then fs else Some i)
      else
        p <- deref (fun _ => fs_path e);;
        if bool_decide (p = path) then ret None else mount_scan path (S i) l fs
  end.

Definition set_entry (i : nat) (e : dfs_filesystem) : M (dfs X) unit := modify (fun s => set_table (<[i := e]> (filesystem_table s)) s).

(** Whether the directory to mount on is there; the root and "/dev" need not be. *)
Definition mount_point (fullpath : list Z) : M (dfs X) bool :=
  if (bool_decide (fullpath = [slash]) || bool_decide (fullpath = chars_of "/dev"))%bool then ret true
  else
    r <- dfs_file_open (Some Stk) fullpath O_DIRECTORY;;
    if r <? 0 then ret false else dfs_file_close (Some Stk);;; ret true.

(** From the registration of the file system on. *)
Definition mount_entry (i : nat) (ops : Z) (mount : nat -> Z -> Z -> M (dfs X) Z) (dev_id : Z) (fullpath : list Z) (rwflag data : Z) : M (dfs X) Z :=
  e <- entry i;;
  set_entry i (Fs dev_id (Some fullpath) ops (fs_data e));;;
  o <- (if dev_id =? 0 then ret 0 else below (rt_device_open dev_id));;
  if negb (o =? 0) then set_entry i no_fs;;; ret (-1)
  else
    r <- mount i rwflag data;;
    if r <? 0 then
      when (negb (dev_id =? 0)) (_ <- below (rt_device_close dev_id);; ret tt);;;
      set_entry i no_fs;;; ret (-1)
    else ret 0.

Definition dfs_mount (device_name : option (list Z)) (path filesystemtype : list Z) (rwflag data : Z) : M (dfs X) Z :=
  dev_id <- match device_name with None => ret 0 | Some n => below (rt_device_find n) end;;
  if ((if device_name is Some _ then true else false) && (dev_id =? 0))%bool then rt_set_errno (- ENODEV);;; ret (-1)
  else
    types <- gets filesystem_operation_table;;
    t <- find_type filesystemtype types;;
    match t with
    | None => rt_set_errno (- ENODEV);;; ret (-1)
    | Some ops =>
        o <- ops_of ops;;
        match op_mount o with
        | None => rt_set_errno (- ENOSYS);;; ret (-1)
        | Some mount =>
            f <- normalize path;;
            match f with
            | None => rt_set_errno (- ENOTDIR);;; ret (-1)
            | Some fullpath =>
                ok <- mount_point fullpath;;
                if negb ok then rt_set_errno (- ENOTDIR);;; ret (-1)
                else
                  table <- gets filesystem_table;;
                  r <- mount_scan path 0 table None;;
                  match r with
                  | None => rt_set_errno (- EINVAL);;; ret (-1)
                  | Some None => rt_set_errno (- ENOSPC);;; ret (-1)
                  | Some (Some i) => mount_entry i ops mount dev_id fullpath rwflag data
                  end
            end
        end
    end.

(** The loop of [dfs_unmount]: the first entry with the path. *)
Fixpoint find_mounted (fullpath : list Z) (i : nat) (l : list dfs_filesystem) : option nat :=
  match l with
  | [] => None
  | e :: l => if bool_decide (fs_path e = Some fullpath) then Some i else find_mounted fullpath (S i) l
  end.

Definition dfs_unmount (specialfile : list Z) : M (dfs X) Z :=
  f <- normalize specialfile;;
  match f with
  | None => rt_set_errno (- ENOTDIR);;; ret (-1)
  | Some fullpath =>
      table <- gets filesystem_table;;
      match find_mounted fullpath 0 table with
      | None => ret (-1)
      | Some i =>
          fs <- entry i;;
          ops <- ops_of (fs_ops fs);;
          match op_unmount ops with
          | None => ret (-1)
          | Some unmount =>
              r <- unmount i;;
              if r <? 0 then ret (-1)
              else
                fs <- entry i;;
                when (negb (fs_dev fs =? 0)) (_ <- below (rt_device_close (fs_dev fs));; ret tt);;;
                set_entry i no_fs;;; ret 0
          end
      end
  end.

(** The loop of [dfs_mkfs], with [n] turns left: it goes one entry too far. *)
Fixpoint mkfs_scan (name : list Z) (n i : nat) (l : list Z) : M (dfs X) (option nat) :=
  match n with
  | O => ret None
  | S n =>
      a <- deref (fun _ => l !! i);;
      if a =? 0 then mkfs_scan name n (S i) l
      else o <- ops_of a;; if bool_decide (op_name o = name) then ret (Some i) else mkfs_scan name n (S i) l
  end.

Definition dfs_mkfs (fs_name : list Z) (device_name : option (list Z)) : M (dfs X) Z :=
  dev_id <- match device_name with None => ret 0 | Some n => below (rt_device_find n) end;;
  if dev_id =? 0 then rt_set_errno (- ENODEV);;; ret (-1)
  else
    l <- gets filesystem_operation_table;;
    r <- mkfs_scan fs_name (S DFS_FILESYSTEM_TYPES_MAX) 0 l;;
    match r with
    | None => ret (-1)
    | Some i =>
        a <- deref (fun _ => l !! i);;
        o <- ops_of a;;
        match op_mkfs o with
        | None => rt_set_errno (- ENOSYS);;; ret (-1)
        | Some mkfs => mkfs dev_id
        end
    end.

(** [dfs_init] with the address of the operations of the device files, which [devfs_init] registers. *)
Definition dfs_init (device_fs : Z) : M (dfs X) Z :=
  b <- gets init_ok;;
  if b : bool then ret 0
  else
    modify (set_types (replicate DFS_FILESYSTEM_TYPES_MAX 0));;;
    modify (set_table (replicate DFS_FILESYSTEMS_MAX no_fs));;;
    modify (set_fds []);;;
    modify (set_cwd [slash]);;;
    dfs_register device_fs;;;
    dfs_mount None (chars_of "/dev") (chars_of "devfs") 0 0;;;
    modify (set_init true);;;
    ret 0.
End dfs.

(** ** Lemmas *)

Section lemmas.
Context {X : Type} {B : blocks} {P : system X}.
Implicit Types (s : dfs X) (l : list (option dfs_fd)).

Lemma getf_done {A} i (f : dfs_fd -> A) s d : fds s !! i = Some (Some d) -> getf (Tab i) f s = Done (f d) s.
Proof. intros E. unfold getf, deref. by rewrite E. Qed.

Lemma setf_done i f s d : fds s !! i = Some (Some d) -> setf (Tab i) f s = Done tt (set_fds (<[i := Some (f d)]> (fds s)) s).
Proof. intros E. unfold setf. by rewrite (after (getf_done i f s d E)). Qed.

(** A free entry is no descriptor. *)
Lemma getf_free {A} i (f : dfs_fd -> A) s : fds s !! i = Some None -> getf (Tab i) f s = Stop Undefined.
Proof. intros E. unfold getf, deref. by rewrite E. Qed.

Lemma fd_get_out fd s : fd < 3 \/ 3 + Z.of_nat (length (fds s)) <= fd -> fd_get fd s = Done None s.
Proof.
  intros H. unfold fd_get. msteps. unfold DFS_FD_OFFSET.
  replace ((fd - 3 <? 0) || (Z.of_nat (length (fds s)) <=? fd - 3))%bool with true; [done|]. symmetry. apply orb_true_iff. rewrite Z.ltb_lt, Z.leb_le. lia.
Qed.

Lemma fd_get_in i d s : fds s !! i = Some (Some d) -> fd_magic d = DFS_FD_MAGIC ->
  fd_get (Z.of_nat i + 3) s = Done (Some (Tab i)) (set_fds (<[i := Some (with_ref (fd_ref d + 1) d)]> (fds s)) s).
Proof.
  intros E HM. pose proof (lookup_lt_Some _ _ _ E). unfold fd_get. msteps. unfold DFS_FD_OFFSET. rewrite Z.add_simpl_r, Nat2Z.id.
  rewrite (proj2 (Z.ltb_ge _ _)), (proj2 (Z.leb_gt _ _)) by lia. cbn [orb].
  rewrite (after (getf_done i fd_magic s d E)), HM, Z.eqb_refl. cbn [negb]. by rewrite (after (setf_done i _ s d E)).
Qed.

Lemma fd_get_free i s : fds s !! i = Some None -> fd_get (Z.of_nat i + 3) s = Stop Undefined.
Proof.
  intros E. pose proof (lookup_lt_Some _ _ _ E). unfold fd_get. msteps. unfold DFS_FD_OFFSET. rewrite Z.add_simpl_r, Nat2Z.id.
  rewrite (proj2 (Z.ltb_ge _ _)), (proj2 (Z.leb_gt _ _)) by lia. cbn [orb]. unfold bind. by rewrite getf_free.
Qed.

Lemma fd_put_more i d s : fds s !! i = Some (Some d) -> fd_ref d <> 1 ->
  fd_put (Some (Tab i)) s = Done tt (set_fds (<[i := Some (with_ref (fd_ref d - 1) d)]> (fds s)) s).
Proof.
  intros E HR. pose proof (lookup_lt_Some _ _ _ E). unfold fd_put. rewrite (after (setf_done i _ s d E)).
  erewrite bind_done; [|apply getf_done; cbn; by apply list_lookup_insert_eq]. cbn [id fd_ref with_ref]. by rewrite (proj2 (Z.eqb_neq (fd_ref d - 1) 0)) by lia.
Qed.

Lemma fd_put_last i d s : fds s !! i = Some (Some d) -> fd_ref d = 1 -> fd_put (Some (Tab i)) s = Done tt (set_freed (Some (with_ref 0 d)) (set_fds (<[i := None]> (fds s)) s)).
Proof.
  intros E HR. pose proof (lookup_lt_Some _ _ _ E). unfold fd_put. rewrite (after (setf_done i _ s d E)).
  erewrite bind_done; [|apply getf_done; cbn; by apply list_lookup_insert_eq]. cbn [id fd_ref with_ref]. rewrite HR. change (1 - 1 =? 0) with true. unfold when, modify, set_fds, set_freed, with_ref. cbn.
  by rewrite list_insert_insert_eq.
Qed.

(** The heap has room. *)
Definition heap_full (blk : nat -> dfs_fd) : Prop := forall n, heap n = Some (blk n).

Lemma heap_block_done blk s : heap_full blk -> rt_malloc s = Done (Some (Z.of_nat (S (mem s)), blk (mem s))) (set_mem (S (mem s)) s).
Proof. intros H. unfold rt_malloc. msteps. by rewrite H. Qed.

Lemma room_done blk s : heap_full blk -> room s = Done true (set_mem (S (mem s)) s).
Proof. intros H. unfold room. by rewrite (after (heap_block_done _ s H)). Qed.

Lemma free_from_done l : Forall (fun o => match o with Some d => fd_ref d <> 0 | None => True end) l -> forall i,
  exists k, free_from i l = (i + k)%nat /\ (k <= length l)%nat /\ (k < length l -> l !! k = Some None)%nat /\ (forall j, (j < k)%nat -> exists d, l !! j = Some (Some d)).
Proof.
  induction 1 as [|o l Ho Hl IH]; intros i; cbn [free_from]; [exists 0%nat; split_and!; [lia|done|cbn; lia|lia]|].
  destruct o as [d|]; [|exists 0%nat; split_and!; [lia|lia|done|lia]]. rewrite (proj2 (Z.eqb_neq _ 0)) by done.
  destruct (IH (S i)) as (k & E & Hk & HN & HS). exists (S k). split_and!; [lia|cbn; lia|intros; apply HN; cbn in *; lia|].
  intros [|j] Hj; [by exists d|]. apply HS. lia.
Qed.

Definition in_use (o : option (option dfs_fd)) : Prop := exists d, o = Some (Some d).

(** A descriptor is allocated: the first free entry of the table, which may have grown. *)
Lemma fd_new_done blk s : heap_full blk -> Forall (fun o => match o with Some d => fd_ref d <> 0 | None => True end) (fds s) -> (length (fds s) <= 16)%nat ->
  (exists k, (k < 16)%nat /\ ~ in_use (fds s !! k)) ->
  exists i j m m', let l := fds s ++ replicate j None in
    fd_new s = Done (Z.of_nat i + 3) (set_fds (<[i := Some (new_fd (blk m))]> l) (set_mem m' s)) /\ l !! i = Some None /\
    (length l <= 16)%nat /\ (mem s <= m < m')%nat /\ (forall k, (k < i)%nat -> in_use (fds s !! k)).
Proof.
  intros HH HR HL (k0 & Hk0 & Hfree). destruct (free_from_done (fds s) HR 0) as (k & E & Hk & HN & HS). unfold fd_new, fd_alloc. msteps. rewrite drop_0, E. cbn [Nat.add].
  destruct (decide (k = length (fds s))) as [Ek|Hne].
  - assert (length (fds s) < 16)%nat. { destruct (decide (length (fds s) = 16)%nat) as [E16|]; [|lia]. destruct Hfree. apply HS. lia. }
    set (j := ((if bool_decide (DFS_FD_MAX < length (fds s) + 4)%nat then DFS_FD_MAX else length (fds s) + 4) - length (fds s))%nat).
    assert (Hj : (1 <= j /\ length (fds s) + j <= 16)%nat) by (unfold j, DFS_FD_MAX; case_bool_decide; lia).
    exists k, j, (S (mem s)), (S (S (mem s))). cbv zeta. set (l := fds s ++ replicate j None).
    assert (Hl : l !! k = Some None) by (unfold l; rewrite lookup_app_r, lookup_replicate by lia; split; [done|lia]).
    assert (Hg : fd_grow k s = Done true (set_fds l (set_mem (S (mem s)) s))).
    { unfold fd_grow. msteps. rewrite !bool_decide_true by (done || unfold DFS_FD_MAX; lia). cbn [andb]. rewrite (after (room_done blk s HH)). done. }
    rewrite (after Hg). cbn [negb]. msteps. cbn [fds set_fds]. rewrite Hl. msteps. rewrite (after (heap_block_done blk _ HH)). msteps. cbn [fds set_fds mem set_mem].
    rewrite length_insert. assert (length l = length (fds s) + j)%nat by (unfold l; by rewrite length_app, length_replicate). rewrite bool_decide_false by lia.
    erewrite bind_done; [|apply setf_done; cbn; apply list_lookup_insert_eq; lia]. unfold set_fds, set_mem, ret. cbn. rewrite list_insert_insert_eq.
    split_and!; try done; lia.
  - assert (Hl : fds s !! k = Some None) by (apply HN; lia). exists k, 0%nat, (mem s), (S (mem s)). cbv zeta. cbn [replicate]. rewrite app_nil_r.
    assert (Hg : fd_grow k s = Done true s) by (unfold fd_grow; msteps; by rewrite bool_decide_false).
    rewrite (after Hg). cbn [negb]. msteps. rewrite Hl. msteps. rewrite (after (heap_block_done blk s HH)). msteps. cbn [fds set_fds set_mem].
    rewrite length_insert, bool_decide_false by done. erewrite bind_done; [|apply setf_done; cbn; apply list_lookup_insert_eq; by eapply lookup_lt_Some].
    unfold set_fds, set_mem, ret. cbn. rewrite list_insert_insert_eq. split_and!; try done; try lia.
Qed.

(** The search of [fd_is_open]. *)
Lemma find_open_none fo mp l s : Forall (fun o => match o with Some d => fd_fops d <> fo \/ exists p, fd_path d = Some p /\ p <> mp | None => True end) l ->
  find_open fo mp l s = Done (-1) s.
Proof.
  induction 1 as [|o l Ho Hl IH]; cbn [find_open]; [done|]. destruct o as [d|]; [|done]. destruct (Z.eqb_spec (fd_fops d) fo) as [E|]; [|done].
  destruct Ho as [?|(p & Ep & Hp)]; [done|]. rewrite (bind_done _ _ _ p s) by (by apply deref_some). by rewrite bool_decide_false.
Qed.
End lemmas.

(** ** Theorems *)

(** Every call on a descriptor that has been closed, with its number still inside the table, reads through the NULL
    pointer in the table: [fd_get] looks at [d->magic] before it asks whether there is a descriptor at all. *)
Theorem closed_descriptor_undefined {X : Type} {P : system X} (s : dfs X) i : fds s !! i = Some None -> let fd := Z.of_nat i + 3 in
  close fd s = Stop Undefined /\ (forall len, read fd len s = Stop Undefined) /\ (forall buf, write fd buf s = Stop Undefined) /\
  (forall offset whence, lseek fd offset whence s = Stop Undefined) /\ fsync fd s = Stop Undefined /\ fstat fd s = Stop Undefined /\
  (forall cmd arg, fcntl fd cmd arg s = Stop Undefined).
Proof.
  intros E fd. assert (G : forall T (k : option fdp -> M (dfs X) T), bind (fd_get fd) k s = Stop Undefined) by (intros T k; unfold bind, fd; by rewrite (fd_get_free i s E)).
  split_and!; intros; apply G.
Qed.

(** [fcntl] on an open file: F_GETFL reports 0 whatever the flags are, and F_SETFL keeps only O_NONBLOCK and O_APPEND of the
    old flags (the mask should have been complemented), so that the access mode and the mark of an open file are gone; a
    command the file system refuses is reported as success, with [errno] set. *)
Theorem fcntl_loses_flags {X : Type} {P : system X} (s : dfs X) i d fo cmd arg :
  fds s !! i = Some (Some d) -> fd_magic d = DFS_FD_MAGIC -> fd_type d = FT_REGULAR -> fd_ref d = 1 -> 0 <= fd_flags d < 2 ^ 31 ->
  fops_at (fd_fops d) = Some fo -> fo_ioctl fo = None -> cmd <> F_GETFL -> cmd <> F_SETFL -> let fd := Z.of_nat i + 3 in
  fcntl fd F_GETFL arg s = Done 0 s /\
  fcntl fd F_SETFL arg s = Done 0 (set_fds (<[i := Some (with_flags (Z.lor (Z.land (fd_flags d) 0xc00) (Z.land arg 0xc00)) d)]> (fds s)) s) /\
  fcntl fd cmd arg s = Done 0 (set_errno (- ENOSYS) s).
Proof.
  intros Hi HM Ht Hr Hf Hfo Hio H3 H4 fd. pose proof (lookup_lt_Some _ _ _ Hi) as Hlt. set (l1 := <[i := Some (with_ref 2 d)]> (fds s)).
  assert (H1 : fds (set_fds l1 s) !! i = Some (Some (with_ref 2 d))) by (by apply list_lookup_insert_eq).
  assert (Eg : fd_get fd s = Done (Some (Tab i)) (set_fds l1 s)) by (unfold fd; rewrite (fd_get_in i d s Hi HM); by rewrite Hr).
  assert (Ep : forall d2 (s2 : dfs X), fds s2 = <[i := Some d2]> (fds s) -> fd_ref d2 = 2 -> fd_put (Some (Tab i)) s2 = Done tt (set_fds (<[i := Some (with_ref 1 d2)]> (fds s)) s2)).
  { intros d2 s2 E2 Hr2. rewrite (fd_put_more i d2 s2); [|by rewrite E2, list_lookup_insert_eq|lia]. by rewrite Hr2, E2, list_insert_insert_eq. }
  assert (Ed : with_ref 1 (with_ref 2 d) = d) by (destruct d; cbn in *; by subst).
  assert (Es : set_fds (fds s) (set_fds l1 s) = s) by (by destruct s). unfold fcntl, dfs_file_ioctl. split_and!.
  - rewrite (after Eg). msteps. rewrite (after (getf_done i fd_type _ _ H1)). cbn [fd_type with_ref]. rewrite Ht. cbn [Z.eqb FT_REGULAR F_GETFL Pos.eqb andb]. msteps.
    rewrite (after (getf_done i _ _ _ H1)). cbn [fd_flags with_ref]. rewrite s32_small by lia. msteps. rewrite (after (Ep (with_ref 2 d) (set_fds l1 s) eq_refl eq_refl)). msteps.
    rewrite (proj2 (Z.ltb_ge _ 0)) by lia. cbn [when]. msteps. by rewrite Ed, list_insert_id, Es by done.
  - rewrite (after Eg). msteps. rewrite (after (getf_done i fd_type _ _ H1)). cbn [fd_type with_ref]. rewrite Ht. cbn [Z.eqb FT_REGULAR F_GETFL F_SETFL Pos.eqb andb]. msteps.
    rewrite (after (setf_done i _ _ _ H1)). msteps. set (d2 := with_flags _ _). erewrite bind_done; [|apply (Ep d2); [cbn; unfold l1; by rewrite list_insert_insert_eq|done]]. msteps.
    cbn [Z.ltb Z.compare when]. msteps. replace (with_ref 1 d2) with (with_flags (Z.lor (Z.land (fd_flags d) 0xc00) (Z.land arg 0xc00)) d); [done|]. by destruct d; cbn in *; subst.
  - rewrite (after Eg). msteps. rewrite (after (getf_done i fd_type _ _ H1)), (proj2 (Z.eqb_neq _ _) H3), (proj2 (Z.eqb_neq _ _) H4), !andb_false_r. unfold fops_of. msteps.
    rewrite (after (getf_done i fd_fops _ _ H1)). cbn [fd_fops with_ref]. rewrite (bind_done _ _ _ fo (set_fds l1 s)) by (by apply deref_some). rewrite Hio. msteps.
    rewrite (after (Ep (with_ref 2 d) (set_fds l1 s) eq_refl eq_refl)). msteps. cbn [Z.ltb Z.compare when Z.opp ENOSYS]. unfold rt_set_errno. msteps. by rewrite Ed, list_insert_id, Es by done.
Qed.

(** ** Witnesses *)

Definition one_system : system unit := {|
  fops_at _ := Some (FileOps None None None None None None None None); ops_at _ := None;
  rt_device_find _ := ret 0; rt_device_open _ := ret 0; rt_device_close _ := ret 0
|}.
Definition some_fd : dfs_fd := DfsFd DFS_FD_MAGIC FT_REGULAR (Some (chars_of "/a")) 1 1 (Z.lor DFS_F_OPEN 2) 0 0 DNull.
Definition some_state : dfs unit := Dfs [Some some_fd; None] [no_fs; no_fs] [0; 0] [slash] 0 some_fd 1 None true tt.

Lemma closed_descriptor_undefined_witness : close (P := one_system) 4 some_state = Stop Undefined.
Proof. apply (closed_descriptor_undefined (P := one_system) some_state 1). done. Defined.

Lemma fcntl_loses_flags_witness : fcntl (P := one_system) 3 F_GETFL 0 some_state = Done 0 some_state /\
  match fcntl (P := one_system) 3 F_SETFL O_APPEND some_state with Done _ s => fds s = [Some (with_flags O_APPEND some_fd); None] | Stop _ => False end.
Proof.
  split; [|done]. apply (fcntl_loses_flags (P := one_system) some_state 0 some_fd (FileOps None None None None None None None None) 5 0); done.
Defined.
