(* ===== verification/Elm.v ===== *)
(** * FAT file systems below the device file system (components/dfs/filesystems/elmfat/dfs_elm.c)

    The functions that put FatFs below the device file system, and the table [disk] of the
    devices behind its volumes.  FatFs itself (ff.c) is an interface, [fat_api]: its functions
    reach the devices through [disk], so they take the table as an argument, and the objects they
    work on are named by their addresses.  [fat_laws] states what FatFs documents of them, for one
    volume with files in its root directory.

    The device file system on FatFs keeps the laws the boot loader relies on, and so the boot
    loader can be run on the whole stack. *)

From Stdlib Require Import Ascii String.
From S2P Require Import Prelude Exec Circ Printf Flash Path Bootloader Dfs.

(** ** FatFs *)

(** [FILINFO] *)
Record filinfo := FilInfo { fi_size : Z; fi_date : Z; fi_time : Z; fi_attrib : Z }.

(** The fields of [FATFS] that are looked at. *)
Record fat_info := FatInfo { drv : Z; n_fatent : Z; csize : Z; ssize : Z }.

Class fat_api (Y : Type) := FatApi {
  f_mount : list Z -> Z -> list Z -> Z -> M Y Z;        (* FATFS *fs, const TCHAR *path, BYTE opt *)
  f_mkfs : list Z -> list Z -> M Y Z;
  f_opendir : list Z -> Z -> list Z -> M Y Z;
  f_seekdir : list Z -> Z -> Z -> M Y Z;
  f_mkdir : list Z -> list Z -> M Y Z;
  f_open : list Z -> Z -> list Z -> Z -> M Y Z;
  f_close : list Z -> Z -> M Y Z;
  f_read : list Z -> Z -> Z -> M Y (Z * list Z);        (* the bytes read *)
  f_write : list Z -> Z -> list Z -> M Y (Z * Z);       (* the number of bytes written *)
  f_lseek : list Z -> Z -> Z -> M Y Z;
  f_sync : list Z -> Z -> M Y Z;
  f_unlink : list Z -> list Z -> M Y Z;
  f_rename : list Z -> list Z -> option (list Z) -> M Y Z;
  f_stat : list Z -> list Z -> M Y (Z * filinfo);
  f_readdir : list Z -> Z -> M Y (Z * (list Z * Z));    (* fname, fattrib *)
  f_getfree : list Z -> list Z -> M Y (Z * Z);          (* the free clusters *)
  fatfs : Z -> Y -> fat_info;
  fptr : Z -> Y -> Z;
  f_size : Z -> Y -> Z;
  elm_get_vol : Z -> Y -> Z;
  mktime : Z -> Z -> Z -> Z -> Z -> Z -> Z;             (* tm_year, tm_mon, tm_mday, tm_hour, tm_min, tm_sec *)
  (* the devices *)
  device_find : list Z -> M Y Z;
  device_open : Z -> M Y Z;
  device_close : Z -> M Y Z;
  device_geometry : Z -> M Y (Z * Z)                    (* the result, and bytes_per_sector *)
}.

Definition FR_OK : Z := 0.
Definition FR_DISK_ERR : Z := 1.
Definition FR_INT_ERR : Z := 2.
Definition FR_NOT_READY : Z := 3.
Definition FR_NO_FILE : Z := 4.
Definition FR_NO_PATH : Z := 5.
Definition FR_INVALID_NAME : Z := 6.
Definition FR_DENIED : Z := 7.
Definition FR_EXIST : Z := 8.
Definition FR_INVALID_OBJECT : Z := 9.
Definition FR_WRITE_PROTECTED : Z := 10.
Definition FR_NO_FILESYSTEM : Z := 13.
Definition FR_MKFS_ABORTED : Z := 14.

Definition FA_READ : Z := 1.
Definition FA_WRITE : Z := 2.
Definition FA_CREATE_NEW : Z := 4.
Definition FA_CREATE_ALWAYS : Z := 8.
Definition FA_OPEN_ALWAYS : Z := 16.

Definition AM_RDO : Z := 1.
Definition AM_DIR : Z := 16.

Definition _VOLUMES : nat := 2.
Definition _MAX_SS : Z := 4096.

Definition EISDIR : Z := 21.
Definition EROFS : Z := 30.

Definition O_WRONLY : Z := 1.
Definition O_EXCL : Z := 0x80.
Definition O_TRUNC : Z := 0x200.
Definition O_ACCMODE : Z := 0x200003.

Definition elm_result_to_dfs (result : Z) : Z :=
  if result =? FR_OK then 0
  else if existsb (Z.eqb result) [FR_NO_FILE; FR_NO_PATH; FR_NO_FILESYSTEM] then - ENOENT
  else if result =? FR_INVALID_NAME then - EINVAL
  else if existsb (Z.eqb result) [FR_EXIST; FR_INVALID_OBJECT] then - EEXIST
  else if existsb (Z.eqb result) [FR_DISK_ERR; FR_NOT_READY; FR_INT_ERR] then - EIO
  else if existsb (Z.eqb result) [FR_WRITE_PROTECTED; FR_DENIED] then - EROFS
  else if result =? FR_MKFS_ABORTED then - EINVAL
  else -1.

(** The table [disk], and FatFs with the devices. *)
Record elm (Y : Type) := Elm { disk : list Z; fat : Y }.
Arguments Elm {Y} _ _.
Arguments disk {Y} _.
Arguments fat {Y} _.

(** The operations of the device files (filesystems/devfs/devfs.c) on files, which do not matter here. *)
Class device_files (Y : Type) := DeviceFiles {
  device_fops : dfs_file_ops (elm Y);
  device_fs_stat : nat -> list Z -> M (dfs (elm Y)) (Z * option stat)
}.

Section elm.
Context {Y : Type} {A : fat_api Y} {B : blocks}.

Definition ff {T} (m : list Z -> M Y T) : M (dfs (elm Y)) T := fun s =>
  match m (disk (low s)) (fat (low s)) with Done a y => Done a (set_low (Elm (disk (low s)) y) s) | Stop w => Stop w end.
Definition ffget {T} (f : Y -> T) : M (dfs (elm Y)) T := gets (fun s => f (fat (low s))).

(** The loop of [get_disk]. *)
Fixpoint find_disk (id : Z) (i : nat) (l : list Z) : option nat :=
  match l with [] => None | d :: l => if d =? id then Some i else find_disk id (S i) l end.
Definition get_disk (id : Z) : M (dfs (elm Y)) (option nat) := gets (fun s => find_disk id 0 (disk (low s))).
Definition set_disk (i : nat) (id : Z) : M (dfs (elm Y)) unit := modify (fun s => set_low (Elm (<[i := id]> (disk (low s))) (fat (low s))) s).

Definition logic_nbr (i : nat) : list Z := [48 + Z.of_nat i; 58].
Definition set_data (i : nat) (p : Z) : M (dfs (elm Y)) unit := e <- entry i;; set_entry i (Fs (fs_dev e) (fs_path e) (fs_ops e) p).

Definition dfs_elm_mount (fs : nat) (rwflag data : Z) : M (dfs (elm Y)) Z :=
  o <- get_disk 0;;
  match o with
  | None => ret (- ENOENT)
  | Some index =>
      e <- entry fs;;
      set_disk index (fs_dev e);;;
      g <- ff (fun _ => device_geometry (fs_dev e));;
      if ((g.1 =? 0) && (_MAX_SS <? g.2))%bool then ret (- EINVAL)
      else
        f <- rt_malloc;;
        match f with
        | None => set_disk index 0;;; ret (- ENOMEM)
        | Some (fat, _) =>
            let err result := ff (fun dk => f_mount dk 0 (logic_nbr index) 1);;; set_disk index 0;;; ret result in
            result <- ff (fun dk => f_mount dk fat (logic_nbr index) 1);;
            if result =? FR_OK then
              d <- rt_malloc;;
              match d with
              | None => err (- ENOMEM)
              | Some (dir, _) =>
                  result <- ff (fun dk => f_opendir dk dir (logic_nbr index ++ [slash]));;
                  if negb (result =? FR_OK) then err (elm_result_to_dfs result)
                  else set_data fs fat;;; ret 0
              end
            else err (elm_result_to_dfs result)
        end
  end.

Definition dfs_elm_unmount (fs : nat) : M (dfs (elm Y)) Z :=
  e <- entry fs;;
  rt_assert (negb (fs_data e =? 0));;;
  o <- get_disk (fs_dev e);;
  match o with
  | None => ret (- ENOENT)
  | Some index =>
      result <- ff (fun dk => f_mount dk 0 (logic_nbr index) 1);;
      if negb (result =? FR_OK) then ret (elm_result_to_dfs result)
      else set_data fs 0;;; set_disk index 0;;; ret 0
  end.

(** [f_mkfs] is given the drive of [logic_nbr], which is "0:" unless the device had to be mounted for it. *)
Definition dfs_elm_mkfs (dev_id : Z) : M (dfs (elm Y)) Z :=
  w <- room;;
  if negb w then ret (- ENOMEM)
  else if dev_id =? 0 then ret (- EINVAL)
  else
    o <- get_disk dev_id;;
    t <- match o with
         | Some _ => ret (inr None)
         | None =>
             o <- get_disk 0;;
             match o with
             | None => ret (inl (- ENOSPC))
             | Some index =>
                 f <- rt_malloc;;
                 match f with
                 | None => ret (inl (- ENOMEM))
                 | Some (fat, _) =>
                     set_disk index dev_id;;;
                     ff (fun _ => device_open dev_id);;;
                     ff (fun dk => f_mount dk fat (logic_nbr index) (Z.of_nat index));;;
                     ret (inr (Some index))
                 end
             end
         end;;
    match t with
    | inl e => ret e
    | inr temp =>
        let nbr := logic_nbr (default 0%nat temp) in
        result <- ff (fun dk => f_mkfs dk nbr);;
        match temp with
        | None => ret tt
        | Some index =>
            ff (fun dk => f_mount dk 0 nbr (Z.of_nat index));;;
            set_disk index 0;;;
            ff (fun _ => device_close dev_id);;; ret tt
        end;;;
        ret (elm_result_to_dfs result)
    end.

(** What [rt_snprintf(drivers_fn, 256, "%d:%s", vol, path)] leaves. *)
Definition drivers_fn (vol : Z) (path : option (list Z)) : list Z := take 255 (print_d vol ++ [58] ++ default (chars_of "(NULL)") path).

(** The volume of a mounted file system and the room for a name: the name on the drive, or an error. *)
Definition drive_path (fs : nat) (path : option (list Z)) : M (dfs (elm Y)) (Z + list Z) :=
  e <- entry fs;;
  vol <- ffget (elm_get_vol (fs_data e));;
  if vol <? 0 then ret (inl (- ENOENT))
  else
    r <- room;;
    if negb r then ret (inl (- ENOMEM)) else ret (inr (drivers_fn vol path)).

Definition open_dir (p : fdp) (name : list Z) (flags : Z) : M (dfs (elm Y)) Z :=
  r <- (if Z.land flags O_CREAT =? 0 then ret FR_OK else ff (fun dk => f_mkdir dk name));;
  if negb (r =? FR_OK) then ret (elm_result_to_dfs r)
  else
    d <- rt_malloc;;
    match d with
    | None => ret (- ENOMEM)
    | Some (dir, _) =>
        r <- ff (fun dk => f_opendir dk dir name);;
        if negb (r =? FR_OK) then ret (elm_result_to_dfs r)
        else setf p (with_data (DObj dir));;; ret 0
    end.

Definition open_mode (flags : Z) : Z :=
  let on b m mode := if Z.land flags b =? 0 then mode else Z.lor mode m in
  let mode := on O_WRONLY FA_WRITE FA_READ in
  let mode := if Z.land (Z.land flags O_ACCMODE) O_RDWR =? 0 then mode else Z.lor mode FA_WRITE in
  on O_EXCL FA_CREATE_NEW (on O_TRUNC FA_CREATE_ALWAYS (on O_CREAT FA_OPEN_ALWAYS mode)).

Definition open_file (p : fdp) (name : list Z) (flags : Z) : M (dfs (elm Y)) Z :=
  o <- rt_malloc;;
  match o with
  | None => ret (- ENOMEM)
  | Some (fd, _) =>
      r <- ff (fun dk => f_open dk fd name (open_mode flags));;
      if negb (r =? FR_OK) then ret (elm_result_to_dfs r)
      else
        fp <- ffget (fptr fd);;
        n <- ffget (f_size fd);;
        setf p (fun d => with_data (DObj fd) (with_size (u32 n) (with_pos (s32 fp) d)));;;
        when (negb (Z.land flags O_APPEND =? 0))
          (n <- ffget (f_size fd);;
           ff (fun dk => f_lseek dk fd n);;;
           fp <- ffget (fptr fd);;
           setf p (with_pos (s32 fp)));;;
        ret 0
  end.

Definition dfs_elm_open (p : fdp) : M (dfs (elm Y)) Z :=
  x <- getf p fd_data;;
  match x with
  | DNull => ret (- ENOENT)
  | DObj _ => stuck Undefined
  | DFs fs =>
      path <- getf p fd_path;;
      n <- drive_path fs path;;
      match n with
      | inl e => ret e
      | inr name =>
          flags <- getf p fd_flags;;
          if Z.land flags O_DIRECTORY =? 0 then open_file p name flags else open_dir p name flags
      end
  end.

(** [file->data], which must not be NULL. *)
Definition obj (p : fdp) : M (dfs (elm Y)) Z :=
  x <- getf p fd_data;;
  match x with DObj h => ret h | DNull => stuck Assertion | DFs _ => stuck Undefined end.

Definition dfs_elm_close (p : fdp) : M (dfs (elm Y)) Z :=
  t <- getf p fd_type;;
  if t =? FT_DIRECTORY then obj p;;; ret 0
  else if t =? FT_REGULAR then fd <- obj p;; r <- ff (fun dk => f_close dk fd);; ret (elm_result_to_dfs r)
  else ret 0.

Definition dfs_elm_ioctl (p : fdp) (cmd args : Z) : M (dfs (elm Y)) Z := ret (- ENOSYS).

Definition dfs_elm_read (p : fdp) (len : Z) : M (dfs (elm Y)) (Z * list Z) :=
  t <- getf p fd_type;;
  if t =? FT_DIRECTORY then ret (- EISDIR, [])
  else
    fd <- obj p;;
    r <- ff (fun dk => f_read dk fd len);;
    fp <- ffget (fptr fd);;
    setf p (with_pos (s32 fp));;;
    if r.1 =? FR_OK then ret (s32 (blen r.2), r.2) else ret (elm_result_to_dfs r.1, r.2).

Definition dfs_elm_write (p : fdp) (buf : list Z) : M (dfs (elm Y)) Z :=
  t <- getf p fd_type;;
  if t =? FT_DIRECTORY then ret (- EISDIR)
  else
    fd <- obj p;;
    r <- ff (fun dk => f_write dk fd buf);;
    fp <- ffget (fptr fd);;
    n <- ffget (f_size fd);;
    setf p (fun d => with_size (u32 n) (with_pos (s32 fp) d));;;
    if r.1 =? FR_OK then ret (s32 r.2) else ret (elm_result_to_dfs r.1).

Definition dfs_elm_flush (p : fdp) : M (dfs (elm Y)) Z :=
  fd <- obj p;; r <- ff (fun dk => f_sync dk fd);; ret (elm_result_to_dfs r).

Definition dfs_elm_lseek (p : fdp) (offset : Z) : M (dfs (elm Y)) Z :=
  t <- getf p fd_type;;
  if t =? FT_REGULAR then
    fd <- obj p;;
    r <- ff (fun dk => f_lseek dk fd (u32 offset));;
    if r =? FR_OK then fp <- ffget (fptr fd);; setf p (with_pos (s32 fp));;; ret (s32 fp) else ret (elm_result_to_dfs r)
  else if t =? FT_DIRECTORY then
    dir <- obj p;;
    r <- ff (fun dk => f_seekdir dk dir (u32 offset / dirent_size));;
    if r =? FR_OK then setf p (with_pos offset);;; ret offset else ret (elm_result_to_dfs r)
  else ret 0.

(** The loop of [dfs_elm_getdents], with at most [n] entries to go; the last result of FatFs and the entries. *)
Fixpoint getdents_loop (n : nat) (dir : Z) : M (dfs (elm Y)) (Z * list dirent) :=
  match n with
  | O => ret (FR_OK, [])
  | S n =>
      r <- ff (fun dk => f_readdir dk dir);;
      if (negb (r.1 =? FR_OK) || bool_decide (r.2.1 = []))%bool then ret (r.1, [])
      else
        let d := Dirent (if Z.land r.2.2 AM_DIR =? 0 then 1 else 2) (u8 (blen r.2.1)) dirent_size r.2.1 in
        l <- getdents_loop n dir;;
        ret (l.1, d :: l.2)
  end.

Definition dfs_elm_getdents (p : fdp) (count : Z) : M (dfs (elm Y)) (Z * list dirent) :=
  dir <- obj p;;
  let n := count / dirent_size in
  if n =? 0 then ret (- EINVAL, [])
  else
    r <- getdents_loop (Z.to_nat n) dir;;
    let size := Z.of_nat (length r.2) * dirent_size in
    if size =? 0 then ret (elm_result_to_dfs r.1, [])
    else setf p (fun d => with_pos (fd_pos d + size) d);;; ret (size, r.2).

Definition dfs_elm_statfs (fs : nat) : M (dfs (elm Y)) (Z * option statfs) :=
  e <- entry fs;;
  f <- ffget (fatfs (fs_data e));;
  r <- ff (fun dk => f_getfree dk (take 3 (print_d (drv f) ++ [58])));;
  if negb (r.1 =? FR_OK) then ret (elm_result_to_dfs r.1, None)
  else
    f <- ffget (fatfs (fs_data e));;
    ret (0, Some (StatFs (ssize f) (u32 (u32 (n_fatent f - 2) * csize f)) (u32 (r.2 * csize f)))).

Definition dfs_elm_unlink (fs : nat) (path : list Z) : M (dfs (elm Y)) Z :=
  n <- drive_path fs (Some path);;
  match n with
  | inl e => ret e
  | inr name => r <- ff (fun dk => f_unlink dk name);; ret (elm_result_to_dfs r)
  end.

Definition dfs_elm_rename (fs : nat) (oldpath newpath : option (list Z)) : M (dfs (elm Y)) Z :=
  n <- drive_path fs oldpath;;
  match n with
  | inl e => ret e
  | inr name => r <- ff (fun dk => f_rename dk name newpath);; ret (elm_result_to_dfs r)
  end.

(** [st] for what FatFs says of a file. *)
Definition stat_of (i : filinfo) : stat :=
  let mode := Z.lor S_IFREG mode_rw in
  let mode := if Z.land (fi_attrib i) AM_DIR =? 0 then mode else Z.lor (Z.lor (Z.ldiff mode S_IFREG) S_IFDIR) mode_x in
  let mode := if Z.land (fi_attrib i) AM_RDO =? 0 then mode else Z.ldiff mode 0x92 in
  let d := fi_date i in let t := fi_time i in
  Stat mode (fi_size i)
    (mktime (Z.land (Z.shiftr d 9) 0x7f + 1980 - 1900) (Z.land (Z.shiftr d 5) 0xf - 1) (Z.land d 0x1f)
      (Z.land (Z.shiftr t 11) 0x1f) (Z.land (Z.shiftr t 5) 0x3f) (Z.land t 0x1f * 2)).

Definition dfs_elm_stat (fs : nat) (path : list Z) : M (dfs (elm Y)) (Z * option stat) :=
  n <- drive_path fs (Some path);;
  match n with
  | inl e => ret (e, None)
  | inr name =>
      r <- ff (fun dk => f_stat dk name);;
      ret (elm_result_to_dfs r.1, if r.1 =? FR_OK then Some (stat_of r.2) else None)
  end.

Definition dfs_elm_fops : dfs_file_ops (elm Y) :=
  FileOps (Some dfs_elm_open) (Some dfs_elm_close) (Some dfs_elm_ioctl) (Some dfs_elm_read) (Some dfs_elm_write) (Some dfs_elm_flush) (Some dfs_elm_lseek)
    (Some dfs_elm_getdents).

(** The addresses of the tables of operations. *)
Definition elm_at : Z := 0x1000.
Definition elm_fops_at : Z := 0x1100.
Definition device_at : Z := 0x2000.
Definition device_fops_at : Z := 0x2100.

Definition dfs_elm : dfs_filesystem_ops (elm Y) :=
  FsOps (chars_of "elm") 0 elm_fops_at (Some dfs_elm_mount) (Some dfs_elm_unmount) (Some dfs_elm_mkfs)
    (Some dfs_elm_statfs) (Some dfs_elm_unlink) (Some dfs_elm_stat) (Some dfs_elm_rename).

Context {V : device_files Y}.

Definition dfs_device_fs_mount (fs : nat) (rwflag data : Z) : M (dfs (elm Y)) Z := ret 0.
Definition device_fs : dfs_filesystem_ops (elm Y) :=
  FsOps (chars_of "devfs") 0 device_fops_at (Some dfs_device_fs_mount) None None None None (Some device_fs_stat) None.

Definition lower {T} (m : M Y T) : M (elm Y) T := zoom fat (fun y e => Elm (disk e) y) m.
Definition elm_system : system (elm Y) := {|
  fops_at a := if a =? elm_fops_at then Some dfs_elm_fops else if a =? device_fops_at then Some device_fops else None;
  ops_at a := if a =? elm_at then Some dfs_elm else if a =? device_at then Some device_fs else None;
  rt_device_find n := lower (device_find n);
  rt_device_open d := lower (device_open d);
  rt_device_close d := lower (device_close d)
|}.

Definition elm_init : M (dfs (elm Y)) Z := dfs_register (P := elm_system) elm_at;;; ret 0.
End elm.

(** ** What FatFs promises *)

(** [stored y F]: the device [flash0] has a FAT file system with the files [F] in its root directory, and FatFs has
    no volume; [volume y i p F O]: it is volume [i], with the work area at [p] and open files at the addresses of [O]. *)
Class fat_laws {Y : Type} (A : fat_api Y) := FatLaws {
  flash0 : Z;
  flash0_real : flash0 <> 0;
  stored : Y -> files -> Prop;
  volume : Y -> nat -> Z -> files -> gmap Z ofile -> Prop;
  find_law y F : stored y F -> exists y', device_find (chars_of "flash0") y = Done flash0 y' /\ stored y' F;
  device_open_law y F : stored y F -> exists y', device_open flash0 y = Done 0 y' /\ stored y' F;
  device_close_law y F : stored y F -> exists r y', device_close flash0 y = Done r y' /\ stored y' F;
  geometry_law y F : stored y F -> exists r n y', device_geometry flash0 y = Done (r, n) y' /\ n <= _MAX_SS /\ stored y' F;
  f_mount_law y F dk i p : stored y F -> dk !! i = Some flash0 -> (i < _VOLUMES)%nat -> p <> 0 ->
    exists y', f_mount dk p (logic_nbr i) 1 y = Done FR_OK y' /\ volume y' i p F ∅;
  f_unmount_law y F dk i p : volume y i p F ∅ -> dk !! i = Some flash0 ->
    exists y', f_mount dk 0 (logic_nbr i) 1 y = Done FR_OK y' /\ stored y' F;
  f_opendir_law y F O dk i p d : volume y i p F O -> dk !! i = Some flash0 -> O !! d = None ->
    exists y', f_opendir dk d (logic_nbr i ++ [slash]) y = Done FR_OK y' /\ volume y' i p F O;
  get_vol_law y F O i p : volume y i p F O -> elm_get_vol p y = Z.of_nat i;
  fptr_law y F O i p h o : volume y i p F O -> O !! h = Some o -> fptr h y = Z.of_nat (of_pos o);
  f_size_law y F O i p h o c : volume y i p F O -> O !! h = Some o -> F !! of_name o = Some c -> f_size h y = blen c;
  f_open_law y F O dk i p h n c mode : volume y i p F O -> dk !! i = Some flash0 -> file_name n -> F !! n = Some c -> O !! h = None ->
    (forall h' o, O !! h' = Some o -> of_name o <> n) -> mode = FA_READ \/ mode = Z.lor FA_READ FA_WRITE ->
    exists y', f_open dk h (logic_nbr i ++ slash :: n) mode y = Done FR_OK y' /\
      volume y' i p F (<[h := OFile n 0 (bool_decide (mode = Z.lor FA_READ FA_WRITE))]> O);
  f_open_missing y F O dk i p h n mode : volume y i p F O -> dk !! i = Some flash0 -> file_name n -> F !! n = None -> O !! h = None ->
    mode = FA_READ \/ mode = Z.lor FA_READ FA_WRITE ->
    exists r y', f_open dk h (logic_nbr i ++ slash :: n) mode y = Done r y' /\ r <> FR_OK /\ volume y' i p F O;
  f_read_law y F O dk i p h o c len : volume y i p F O -> dk !! i = Some flash0 -> O !! h = Some o -> F !! of_name o = Some c -> 0 <= len ->
    let bs := take (Z.to_nat len) (drop (of_pos o) c) in
    exists y', f_read dk h len y = Done (FR_OK, bs) y' /\ volume y' i p F (<[h := OFile (of_name o) (of_pos o + length bs) (of_rw o)]> O);
  f_lseek_law y F O dk i p h o c off : volume y i p F O -> dk !! i = Some flash0 -> O !! h = Some o -> F !! of_name o = Some c -> 0 <= off <= blen c ->
    exists y', f_lseek dk h off y = Done FR_OK y' /\ volume y' i p F (<[h := OFile (of_name o) (Z.to_nat off) (of_rw o)]> O);
  f_write_law y F O dk i p h o c bs : volume y i p F O -> dk !! i = Some flash0 -> O !! h = Some o -> F !! of_name o = Some c ->
    (forall h' o', O !! h' = Some o' -> of_name o' = of_name o -> h' = h) -> of_rw o = true -> (of_pos o <= length c)%nat -> c <> [] ->
    (of_pos o + length bs <= 512)%nat ->
    exists y', f_write dk h bs y = Done (FR_OK, blen bs) y' /\
      volume y' i p (<[of_name o := overwrite (of_pos o) bs c]> F) (<[h := OFile (of_name o) (of_pos o + length bs) true]> O);
  f_close_law y F O dk i p h o : volume y i p F O -> dk !! i = Some flash0 -> O !! h = Some o ->
    exists y', f_close dk h y = Done FR_OK y' /\ volume y' i p F (delete h O)
}.

(** ** The stack *)

Section stack.
Context {Y : Type} {A : fat_api Y} {L : fat_laws A} {B : blocks} {V : device_files Y}.
Local Instance the_system : system (elm Y) := elm_system.
(** The contents of the blocks the heap gives: none of them is a descriptor of a file of FatFs. *)
Variable blk : nat -> dfs_fd.
Hypothesis (HH : heap_full blk) (Hblk : forall n, fd_fops (blk n) <> elm_fops_at).

Definition dev_entry : dfs_filesystem := Fs 0 (Some (chars_of "/dev")) device_at 0.

(** The states with the volume mounted: [k] has the work area and the variables that do not matter. *)
Definition st (k : Z * dfs_fd * bool) (l : list (option dfs_fd)) (er : Z) (fr : option dfs_fd) (m : nat) (y : Y) : dfs (elm Y) :=
  Dfs l [dev_entry; Fs flash0 (Some [slash]) elm_at k.1.1] [device_at; elm_at] [slash] er k.1.2 m fr k.2 (Elm [flash0; 0] y).
(** The states without it. *)
Definition st0 (k : dfs_fd * bool) (l : list (option dfs_fd)) (er : Z) (fr : option dfs_fd) (m : nat) (y : Y) : dfs (elm Y) :=
  Dfs l [dev_entry; no_fs] [device_at; elm_at] [slash] er k.1 m fr k.2 (Elm [0; 0] y).

Lemma ff_done k l er fr m y {T} (g : list Z -> M Y T) a y' : g [flash0; 0] y = Done a y' -> ff g (st k l er fr m y) = Done a (st k l er fr m y').
Proof. intros E. unfold ff, st. cbn. by rewrite E. Qed.

Lemma get_st k l er fr m y {T} i (f : dfs_fd -> T) d : l !! i = Some (Some d) -> getf (Tab i) f (st k l er fr m y) = Done (f d) (st k l er fr m y).
Proof. intros E. by apply getf_done. Qed.

Lemma set_st k l er fr m y i f d : l !! i = Some (Some d) -> setf (Tab i) f (st k l er fr m y) = Done tt (st k (<[i := Some (f d)]> l) er fr m y).
Proof. intros E. by rewrite (setf_done i f _ d). Qed.

Lemma room_st k l er fr m y : room (st k l er fr m y) = Done true (st k l er fr (S m) y).
Proof. by rewrite (room_done blk). Qed.

Lemma malloc_st k l er fr m y : rt_malloc (st k l er fr m y) = Done (Some (Z.of_nat (S m), blk m)) (st k l er fr (S m) y).
Proof. by rewrite (heap_block_done blk). Qed.

Lemma name_chars n : file_name n -> path_chars n.
Proof. intros [[Hp _] _]. eapply Forall_impl; [exact Hp|naive_solver]. Qed.

Lemma normalize_name k l er fr m y n f : file_name n -> f = n \/ f = slash :: n -> normalize f (st k l er fr m y) = Done (Some (slash :: n)) (st k l er fr (S m) y).
Proof.
  intros Hn Hf. pose proof (name_chars n Hn) as HC. destruct Hn as [(Hp & H0 & H1 & H2) _]. unfold normalize. rewrite (after (room_st k l er fr m y)). msteps.
  change (working_directory _) with [slash].
  assert (HF : exists j, full_path [slash] f = replicate (S j) slash ++ n).
  { destruct Hf as [->| ->]; [exists 1%nat|by exists 0%nat]. unfold full_path. rewrite (proj2 (Z.eqb_neq _ _)); [done|]. destruct n as [|c n]; [done|]. by apply Forall_cons in Hp as [[? _] _]. }
  destruct HF as [j HF]. assert (HN : normal_form (replicate (S j) slash ++ n) = Some (Some (slash :: n))).
  { unfold normal_form. rewrite comps_slashes, comps_plain by done. destruct n as [|c n]; [done|]. cbn [app resolve]. unfold enter.
    by rewrite !bool_decide_false by done. }
  pose proof (normalize_done [slash] f) as HD. rewrite HF, HN in HD. destruct HD as [s ->]; [done| |done].
  constructor; [done|]. apply Forall_app. split; [|done]. by apply Forall_replicate.
Qed.

Lemma lookup_name k l er fr m y n : file_name n -> lookup_fs (slash :: n) (st k l er fr m y) = Done (Some 1%nat) (st k l er fr m y).
Proof.
  intros [(Hp & _) (_ & _ & Hd)]. unfold lookup_fs, gets. f_equal. cbn [filesystem_table st fmap list_fmap].
  change (entry_path dev_entry) with (Some [47; 100; 101; 118]). change (entry_path (Fs flash0 (Some [slash]) elm_at k.1.1)) with (Some [slash]).
  unfold dfs_filesystem_lookup. cbn [lookup_from length].
  assert (E : lookup_from 1 (slash :: n) [Some [slash]] None 0 = Some 1%nat) by reflexivity.
  rewrite (bool_decide_false (4 < 0)%nat) by lia. cbn [orb]. case_bool_decide as Ht; cbn [negb]; [|done].
  cbn [take] in Ht. injection Ht as Ht. destruct n as [|a [|b [|c [|x n]]]]; try done; cbn [take] in Ht; injection Ht as -> -> ->. cbn [length nth].
  do 3 apply Forall_cons in Hp as [_ Hp]. apply Forall_cons in Hp as [[Hx _] _]. rewrite (proj2 (Z.eqb_neq _ _) Hx). rewrite !bool_decide_true by lia. done.
Qed.

(** The entry of the volume, and its operations. *)
Lemma entry_st k l er fr m y : entry 1 (st k l er fr m y) = Done (Fs flash0 (Some [slash]) elm_at k.1.1) (st k l er fr m y).
Proof. done. Qed.
Lemma ops_st k l er fr m y : ops_of elm_at (st k l er fr m y) = Done dfs_elm (st k l er fr m y).
Proof. done. Qed.
Lemma fops_st k l er fr m y i d : l !! i = Some (Some d) -> fd_fops d = elm_fops_at -> fops_of (Tab i) (st k l er fr m y) = Done dfs_elm_fops (st k l er fr m y).
Proof. intros E Hd. unfold fops_of. by rewrite (after (get_st k l er fr m y i fd_fops d E)), Hd. Qed.

(** No descriptor in the table has the name. *)
Definition not_open (n : list Z) (l : list (option dfs_fd)) : Prop :=
  Forall (fun o => match o with Some d => fd_fops d <> elm_fops_at \/ exists p, fd_path d = Some p /\ p <> slash :: n | None => True end) l.

Lemma is_open_st k l er fr m y n : file_name n -> not_open n l -> fd_is_open (slash :: n) (st k l er fr m y) = Done (-1) (st k l er fr (S m) y).
Proof.
  intros Hn Hl. unfold fd_is_open. rewrite (after (normalize_name k l er fr m y n _ Hn (or_intror eq_refl))), (after (lookup_name k l er fr (S m) y n Hn)).
  rewrite (after (entry_st k l er fr (S m) y)). cbn [fs_path fs_ops]. rewrite (bind_done _ _ _ [slash] (st k l er fr (S m) y)) by done.
  rewrite (after (ops_st k l er fr (S m) y)). rewrite bool_decide_true by done. msteps. by apply find_open_none.
Qed.

(** The name FatFs is given. *)
Lemma drivers_fn_name n : file_name n -> drivers_fn 0 (Some (slash :: n)) = logic_nbr 0 ++ slash :: n.
Proof. intros (_ & Hl & _). unfold drivers_fn. rewrite take_ge; [done|]. cbn. lia. Qed.

Lemma drive_path_st k l er fr m y F O n : volume y 0 k.1.1 F O -> file_name n ->
  drive_path 1 (Some (slash :: n)) (st k l er fr m y) = Done (inr (logic_nbr 0 ++ slash :: n)) (st k l er fr (S m) y).
Proof.
  intros HV Hn. unfold drive_path. rewrite (after (entry_st k l er fr m y)). cbn [fs_data]. unfold ffget. msteps. cbn [fat low st].
  rewrite (get_vol_law y F O 0 k.1.1 HV). change (Z.of_nat 0) with 0. cbn [Z.ltb Z.compare]. rewrite (after (room_st k l er fr m y)). cbn [negb]. by rewrite drivers_fn_name.
Qed.

(** What the flags of the boot loader mean to FatFs. *)
Lemma open_flags_mode flags : open_flags flags -> u32 flags = flags /\ Z.land flags O_DIRECTORY = 0 /\ Z.land flags O_APPEND = 0 /\
  (open_mode flags = FA_READ \/ open_mode flags = Z.lor FA_READ FA_WRITE) /\
  bool_decide (open_mode flags = Z.lor FA_READ FA_WRITE) = bool_decide (flags = O_RDWR).
Proof. intros [->|[->| ->]]; split_and!; try done; [by left|by right|by left]. Qed.

(** A descriptor after [dfs_file_open] of the file [n], which FatFs has at [h]. *)
Definition has_file (n : list Z) (h : Z) (c : list Z) (d : dfs_fd) : Prop :=
  fd_type d = FT_REGULAR /\ fd_path d = Some (slash :: n) /\ fd_fops d = elm_fops_at /\ fd_size d = u32 (blen c) /\ fd_data d = DObj h.

Lemma elm_open_file k l er fr m y F O n c flags i d : let h := Z.of_nat (S (S m)) in
  volume y 0 k.1.1 F O -> file_name n -> F !! n = Some c -> O !! h = None -> (forall h' o, O !! h' = Some o -> of_name o <> n) -> open_flags flags ->
  l !! i = Some (Some d) -> fd_data d = DFs 1 -> fd_path d = Some (slash :: n) -> fd_flags d = flags ->
  exists y', dfs_elm_open (Tab i) (st k l er fr m y) =
      Done 0 (st k (<[i := Some (with_data (DObj h) (with_size (u32 (blen c)) (with_pos 0 d)))]> l) er fr (S (S m)) y') /\
    volume y' 0 k.1.1 F (<[h := OFile n 0 (bool_decide (flags = O_RDWR))]> O).
Proof.
  intros h HV Hn Hc HO Hno Hfl Hi Hd Hp Hf. destruct (open_flags_mode flags Hfl) as (_ & Hdir & Happ & Hm & Hrw).
  destruct (f_open_law y F O [flash0; 0] 0 k.1.1 h n c (open_mode flags) HV eq_refl Hn Hc HO Hno Hm) as (y' & E & HV'). rewrite Hrw in HV'. exists y'. split; [|done].
  unfold dfs_elm_open. rewrite (after (get_st k l er fr m y i fd_data d Hi)), Hd, (after (get_st k l er fr m y i fd_path d Hi)), Hp.
  rewrite (after (drive_path_st k l er fr m y F O n HV Hn)), (after (get_st k l er fr _ y i fd_flags d Hi)), Hf, Hdir. cbn [Z.eqb].
  unfold open_file. rewrite (after (malloc_st k l er fr (S m) y)). rewrite (after (ff_done k l er fr (S (S m)) y _ _ _ E)). cbn [Z.eqb negb FR_OK].
  unfold ffget. msteps. cbn [fat low st]. fold h. rewrite (fptr_law y' F _ 0 k.1.1 h _ HV') by apply lookup_insert_eq. rewrite (f_size_law y' F _ 0 k.1.1 h _ c HV') by (apply lookup_insert_eq || done).
  rewrite (after (set_st k l er fr _ y' i _ d Hi)). rewrite Happ. done.
Qed.

Lemma elm_result_neg r : r <> FR_OK -> elm_result_to_dfs r < 0.
Proof. intros H. unfold elm_result_to_dfs. rewrite (proj2 (Z.eqb_neq _ _) H). repeat case_match; done. Qed.

Lemma elm_open_none k l er fr m y F O n flags i d : volume y 0 k.1.1 F O -> file_name n -> F !! n = None -> O !! Z.of_nat (S (S m)) = None -> open_flags flags ->
  l !! i = Some (Some d) -> fd_data d = DFs 1 -> fd_path d = Some (slash :: n) -> fd_flags d = flags ->
  exists r y', dfs_elm_open (Tab i) (st k l er fr m y) = Done r (st k l er fr (S (S m)) y') /\ r < 0 /\ volume y' 0 k.1.1 F O.
Proof.
  intros HV Hn Hc HO Hfl Hi Hd Hp Hf. destruct (open_flags_mode flags Hfl) as (_ & Hdir & _ & Hm & _).
  destruct (f_open_missing y F O [flash0; 0] 0 k.1.1 (Z.of_nat (S (S m))) n (open_mode flags) HV eq_refl Hn Hc HO Hm) as (r & y' & E & Hr & HV').
  exists (elm_result_to_dfs r), y'. split; [|split; [by apply elm_result_neg|done]].
  unfold dfs_elm_open. rewrite (after (get_st k l er fr m y i fd_data d Hi)), Hd, (after (get_st k l er fr m y i fd_path d Hi)), Hp.
  rewrite (after (drive_path_st k l er fr m y F O n HV Hn)), (after (get_st k l er fr _ y i fd_flags d Hi)), Hf, Hdir. cbn [Z.eqb].
  unfold open_file. rewrite (after (malloc_st k l er fr (S m) y)). rewrite (after (ff_done k l er fr (S (S m)) y _ _ _ E)). by rewrite (proj2 (Z.eqb_neq _ _) Hr).
Qed.

(** Up to the call of FatFs. *)
Lemma file_open_prep k l er fr m y n flags i d : file_name n -> not_open n l -> l !! i = Some (Some d) -> open_flags flags ->
  dfs_file_open (Some (Tab i)) n flags (st k l er fr m y) =
    (result <- dfs_elm_open (Tab i);;
     if result <? 0 then setf (Tab i) (with_path None);;; ret result
     else setf (Tab i) (fun d => with_flags (Z.lor (fd_flags d) DFS_F_OPEN) d);;; ret 0)
    (st k (<[i := Some (with_path (Some (slash :: n)) (init_fd elm_fops_at flags 1 d))]> l) er fr (S (S (S m))) y).
Proof.
  intros Hn Hl Hi Hfl. pose proof (lookup_lt_Some _ _ _ Hi). destruct (open_flags_mode flags Hfl) as (Hu & Hdir & _). unfold dfs_file_open.
  rewrite (after (normalize_name k l er fr m y n _ Hn (or_introl eq_refl))), (after (is_open_st k l er fr (S m) y n Hn Hl)). cbn [Z.eqb].
  rewrite (after (lookup_name k l er fr _ y n Hn)), (after (entry_st k l er fr _ y)). cbn [fs_path fs_ops]. rewrite (after (ops_st k l er fr _ y)).
  rewrite (bind_done _ _ _ [slash] (st k l er fr (S (S m)) y)) by done. cbn [op_fops dfs_elm]. rewrite Hu, (after (set_st k l er fr _ y i _ d Hi)).
  unfold set_path. cbn [op_flags dfs_elm]. change (Z.land 0 DFS_FS_FLAG_FULLPATH =? 0) with true. cbv iota.
  unfold path_below. cbn [op_flags dfs_elm]. change (Z.land 0 DFS_FS_FLAG_FULLPATH =? 0) with true. cbv iota.
  assert (Hs : dfs_subdir [slash] (slash :: n) = Some (slash :: n)).
  { destruct Hn as [(Hp & H0 & _) _]. destruct n as [|c n]; [done|]. unfold dfs_subdir. cbn. apply Forall_cons in Hp as [[Hc _] _]. by rewrite (proj2 (Z.eqb_neq _ _) Hc). }
  rewrite Hs. msteps. rewrite (after (room_st _ _ _ _ _ _)). erewrite bind_done; [|apply set_st; by apply list_lookup_insert_eq]. rewrite list_insert_insert_eq.
  erewrite bind_done; [|apply fops_st with (i := i) (d := with_path (Some (slash :: n)) (init_fd elm_fops_at flags 1 d)); [by apply list_lookup_insert_eq|done]].
  cbn [fo_open dfs_elm_fops]. apply bind_ext. intros r s'. destruct (r <? 0); [done|]. apply bind_ext. intros _ s2. by rewrite Hdir.
Qed.

Lemma file_open_done k l er fr m y F O n c flags i d : let h := Z.of_nat (m + 5) in
  volume y 0 k.1.1 F O -> file_name n -> F !! n = Some c -> O !! h = None -> (forall h' o, O !! h' = Some o -> of_name o <> n) -> open_flags flags ->
  not_open n l -> l !! i = Some (Some d) ->
  exists y' d', dfs_file_open (Some (Tab i)) n flags (st k l er fr m y) = Done 0 (st k (<[i := Some d']> l) er fr (m + 5) y') /\
    has_file n h c d' /\ fd_magic d' = fd_magic d /\ fd_ref d' = fd_ref d /\ volume y' 0 k.1.1 F (<[h := OFile n 0 (bool_decide (flags = O_RDWR))]> O).
Proof.
  intros h HV Hn Hc HO Hno Hfl Hl Hi. pose proof (lookup_lt_Some _ _ _ Hi). rewrite (file_open_prep k l er fr m y n flags i d Hn Hl Hi Hfl).
  unfold h in *. replace (m + 5)%nat with (S (S (S (S (S m))))) in * by lia. set (d1 := with_path _ _).
  destruct (elm_open_file k (<[i := Some d1]> l) er fr (S (S (S m))) y F O n c flags i d1 HV Hn Hc HO Hno Hfl) as (y' & E & HV'); [by apply list_lookup_insert_eq|done..|].
  rewrite (after E). cbn [Z.ltb Z.compare]. rewrite list_insert_insert_eq. erewrite bind_done; [|apply set_st; by apply list_lookup_insert_eq].
  rewrite list_insert_insert_eq. by eexists y', _.
Qed.

Lemma file_open_missing k l er fr m y F O n flags i d : volume y 0 k.1.1 F O -> file_name n -> F !! n = None -> O !! Z.of_nat (m + 5) = None -> open_flags flags ->
  not_open n l -> l !! i = Some (Some d) ->
  exists r y' d', dfs_file_open (Some (Tab i)) n flags (st k l er fr m y) = Done r (st k (<[i := Some d']> l) er fr (m + 5) y') /\ r < 0 /\
    fd_magic d' = fd_magic d /\ fd_ref d' = fd_ref d /\ volume y' 0 k.1.1 F O.
Proof.
  intros HV Hn Hc HO Hfl Hl Hi. pose proof (lookup_lt_Some _ _ _ Hi). rewrite (file_open_prep k l er fr m y n flags i d Hn Hl Hi Hfl).
  replace (m + 5)%nat with (S (S (S (S (S m))))) in * by lia. set (d1 := with_path _ _).
  destruct (elm_open_none k (<[i := Some d1]> l) er fr (S (S (S m))) y F O n flags i d1 HV Hn Hc HO Hfl) as (r & y' & E & Hr & HV'); [by apply list_lookup_insert_eq|done..|].
  rewrite (after E), (proj2 (Z.ltb_lt _ _) Hr). erewrite bind_done; [|apply set_st; by apply list_lookup_insert_eq].
  rewrite list_insert_insert_eq. by eexists r, y', _.
Qed.

(** ** The table of descriptors *)

(** The descriptors [l] stand for the open files [O], which FatFs has as [O']. *)
Record fd_rep (l : list (option dfs_fd)) (F : files) (O O' : gmap Z ofile) (m : nat) : Prop := FdRep {
  rep_size : (length l <= 16)%nat;
  rep_slot i d : l !! i = Some (Some d) -> exists o h c, O !! (Z.of_nat i + 3) = Some o /\ O' !! h = Some o /\ F !! of_name o = Some c /\
    has_file (of_name o) h c d /\ fd_magic d = DFS_FD_MAGIC /\ fd_ref d = 1;
  rep_open fd o : O !! fd = Some o -> exists i d, fd = Z.of_nat i + 3 /\ l !! i = Some (Some d);
  rep_names fd fd' o o' : O !! fd = Some o -> O !! fd' = Some o' -> of_name o = of_name o' -> fd = fd';
  rep_handle h o : O' !! h = Some o -> 0 < h <= Z.of_nat m /\ exists i d, l !! i = Some (Some d) /\ fd_data d = DObj h
}.

Lemma rep_mem l F O O' m m' : fd_rep l F O O' m -> (m <= m')%nat -> fd_rep l F O O' m'.
Proof. intros [H1 H2 H3 H4 H5] Hm. split; try done. intros h o Ho. destruct (H5 h o Ho) as (? & ?). split; [lia|done]. Qed.

Lemma rep_grow l F O O' m j : fd_rep l F O O' m -> (length l + j <= 16)%nat -> fd_rep (l ++ replicate j None) F O O' m.
Proof.
  intros [H1 H2 H3 H4 H5] Hj. split; [rewrite length_app, length_replicate; lia| |by intros fd o Ho; destruct (H3 fd o Ho) as (i & d & -> & Hi); exists i, d; split; [|apply lookup_app_l_Some]|done|].
  - intros i d [Hi|[_ [? _]%lookup_replicate]]%lookup_app_Some; [by apply H2|done].
  - intros h o Ho. destruct (H5 h o Ho) as (Hh & i & d & Hi & Hd). split; [done|]. exists i, d. split; [by apply lookup_app_l_Some|done].
Qed.

(** The open file of a descriptor, and no other descriptor has its name or its object. *)
Lemma rep_get l F O O' m fd o : fd_rep l F O O' m -> O !! fd = Some o -> exists i d h c, fd = Z.of_nat i + 3 /\ l !! i = Some (Some d) /\ O' !! h = Some o /\
  F !! of_name o = Some c /\ has_file (of_name o) h c d /\ fd_magic d = DFS_FD_MAGIC /\ fd_ref d = 1 /\
  (forall h' o', O' !! h' = Some o' -> of_name o' = of_name o -> h' = h) /\
  (forall j e, j <> i -> l !! j = Some (Some e) -> exists o2 h2 c2, O !! (Z.of_nat j + 3) = Some o2 /\ O' !! h2 = Some o2 /\ F !! of_name o2 = Some c2 /\
    has_file (of_name o2) h2 c2 e /\ fd_magic e = DFS_FD_MAGIC /\ fd_ref e = 1 /\ h2 <> h /\ of_name o2 <> of_name o).
Proof.
  intros [H1 H2 H3 H4 H5] Ho. destruct (H3 fd o Ho) as (i & d & -> & Hi). destruct (H2 i d Hi) as (o1 & h & c & E1 & E2 & E3 & Hf & HM & HR).
  assert (o1 = o) as -> by congruence. exists i, d, h, c. split_and!; try done.
  - intros h' o' Ho' Hn. destruct (H5 h' o' Ho') as (_ & j & e & Hj & Hd). destruct (H2 j e Hj) as (o2 & h2 & c2 & G1 & G2 & _ & (_ & _ & _ & _ & Gd) & _).
    assert (h2 = h') as -> by congruence. assert (o2 = o') as -> by congruence. pose proof (H4 _ _ _ _ G1 E1 Hn). assert (j = i) as -> by lia.
    destruct Hf as (_ & _ & _ & _ & Hd'). congruence.
  - intros j e Hne Hj. destruct (H2 j e Hj) as (o2 & h2 & c2 & G1 & G2 & G3 & G4 & G5 & G6). exists o2, h2, c2.
    assert (Hnn : of_name o2 <> of_name o) by (intros Hn; pose proof (H4 _ _ _ _ G1 E1 Hn); lia).
    split_and!; try done. intros ->. assert (o2 = o) as -> by congruence. done.
Qed.

(** The file of a descriptor is read, written or moved in. *)
Lemma fd_rep_update l F O O' m i d h c c' o p d' rw : fd_rep l F O O' m -> O !! (Z.of_nat i + 3) = Some o -> l !! i = Some (Some d) -> O' !! h = Some o ->
  F !! of_name o = Some c -> has_file (of_name o) h c d -> has_file (of_name o) h c' d' -> fd_magic d' = DFS_FD_MAGIC -> fd_ref d' = 1 ->
  let o' := OFile (of_name o) p rw in
  fd_rep (<[i := Some d']> l) (<[of_name o := c']> F) (<[Z.of_nat i + 3 := o']> O) (<[h := o']> O') m.
Proof.
  intros HR Ho Hi Hh Hc Hd Hd' HM Hr o'. destruct (rep_get _ _ _ _ _ _ _ HR Ho) as (i1 & d1 & h1 & c1 & Ei & Hi1 & Hh1 & _ & (_ & _ & _ & _ & Hx) & _ & _ & Hu & Hothers).
  assert (i1 = i) as -> by lia. assert (h = h1) as <- by (eapply Hu; done). pose proof (lookup_lt_Some _ _ _ Hi) as Hlt. destruct HR as [H1 H2 H3 H4 H5]. split.
  - by rewrite length_insert.
  - intros j e Hj. destruct (decide (j = i)) as [->|Hne].
    + rewrite list_lookup_insert_eq in Hj by done. injection Hj as <-. exists o', h, c'. rewrite !lookup_insert_eq. done.
    + rewrite list_lookup_insert_ne in Hj by done. destruct (Hothers j e Hne Hj) as (o2 & h2 & c2 & G1 & G2 & G3 & G4 & G5 & G6 & G7 & G8). exists o2, h2, c2.
      rewrite !lookup_insert_ne by (done || lia). done.
  - intros fd o2 [[<- _]|[Hne Ho2]]%lookup_insert_Some; [exists i, d'; split; [done|by apply list_lookup_insert_eq]|].
    destruct (H3 fd o2 Ho2) as (j & e & -> & Hj). exists j, e. split; [done|]. rewrite list_lookup_insert_ne by (intros ->; done). done.
  - intros fd fd' o1 o2 [[<- <-]|[Hne Ho1]]%lookup_insert_Some [[<- <-]|[Hne' Ho2]]%lookup_insert_Some Hn; cbn in Hn; [done| | |by eapply H4].
    + by eapply H4.
    + by eapply H4.
  - intros h2 o2 [[<- _]|[Hne Ho2]]%lookup_insert_Some.
    + split; [by eapply H5|]. exists i, d'. split; [by apply list_lookup_insert_eq|by destruct Hd' as (_ & _ & _ & _ & ?)].
    + destruct (H5 h2 o2 Ho2) as (Hb & j & e & Hj & He). split; [done|]. exists j, e. split; [|done]. rewrite list_lookup_insert_ne; [done|]. intros ->. congruence.
Qed.

(** A descriptor that is closed. *)
Lemma rep_close l F O O' m i d h o : fd_rep l F O O' m -> O !! (Z.of_nat i + 3) = Some o -> l !! i = Some (Some d) -> fd_data d = DObj h ->
  fd_rep (<[i := None]> l) F (delete (Z.of_nat i + 3) O) (delete h O') m.
Proof.
  intros HR Ho Hi Hd. destruct (rep_get _ _ _ _ _ _ _ HR Ho) as (i1 & d1 & h1 & c1 & Ei & Hi1 & Hh1 & _ & (_ & _ & _ & _ & Hx) & _ & _ & Hu & Hothers).
  assert (i1 = i) as -> by lia. assert (h = h1) as <- by congruence. pose proof (lookup_lt_Some _ _ _ Hi) as Hlt. destruct HR as [H1 H2 H3 H4 H5]. split.
  - by rewrite length_insert.
  - intros j e Hj. destruct (decide (j = i)) as [->|Hne]; [by rewrite list_lookup_insert_eq in Hj by done|].
    rewrite list_lookup_insert_ne in Hj by done. destruct (Hothers j e Hne Hj) as (o2 & h2 & c2 & G1 & G2 & G3 & G4 & G5 & G6 & G7 & G8). exists o2, h2, c2.
    rewrite !lookup_delete_ne by (done || lia). done.
  - intros fd o2 [Hne Ho2]%lookup_delete_Some. destruct (H3 fd o2 Ho2) as (j & e & -> & Hj). exists j, e. split; [done|].
    rewrite list_lookup_insert_ne by (intros ->; done). done.
  - intros fd fd' o1 o2 [_ Ho1]%lookup_delete_Some [_ Ho2]%lookup_delete_Some. by apply H4.
  - intros h2 o2 [Hne Ho2]%lookup_delete_Some. destruct (H5 h2 o2 Ho2) as (Hb & j & e & Hj & He). split; [done|]. exists j, e. split; [|done].
    rewrite list_lookup_insert_ne; [done|]. intros ->. congruence.
Qed.

(** A new descriptor in a free entry. *)
Lemma rep_new l F O O' m i d n h c rw : fd_rep l F O O' m -> l !! i = Some None -> F !! n = Some c -> has_file n h c d -> fd_magic d = DFS_FD_MAGIC -> fd_ref d = 1 ->
  (forall fd o, O !! fd = Some o -> of_name o <> n) -> Z.of_nat m < h -> let o := OFile n 0 rw in
  fd_rep (<[i := Some d]> l) F (<[Z.of_nat i + 3 := o]> O) (<[h := o]> O') (Z.to_nat h).
Proof.
  intros [H1 H2 H3 H4 H5] Hi Hc Hd HM Hr Hno Hh o. pose proof (lookup_lt_Some _ _ _ Hi) as Hlt. split.
  - by rewrite length_insert.
  - intros j e Hj. destruct (decide (j = i)) as [->|Hne].
    + rewrite list_lookup_insert_eq in Hj by done. injection Hj as <-. exists o, h, c. rewrite !lookup_insert_eq. done.
    + rewrite list_lookup_insert_ne in Hj by done. destruct (H2 j e Hj) as (o2 & h2 & c2 & G1 & G2 & G3). exists o2, h2, c2.
      destruct (H5 h2 o2 G2) as [? _]. rewrite !lookup_insert_ne by lia. done.
  - intros fd o2 [[<- _]|[Hne Ho2]]%lookup_insert_Some; [exists i, d; split; [done|by apply list_lookup_insert_eq]|].
    destruct (H3 fd o2 Ho2) as (j & e & -> & Hj). exists j, e. split; [done|]. rewrite list_lookup_insert_ne by (intros ->; done). done.
  - intros fd fd' o1 o2 [[<- <-]|[Hne Ho1]]%lookup_insert_Some [[<- <-]|[Hne' Ho2]]%lookup_insert_Some Hn; cbn in Hn; [done| | |by eapply H4].
    + by destruct (Hno fd' o2 Ho2).
    + by destruct (Hno fd o1 Ho1).
  - intros h2 o2 [[<- _]|[Hne Ho2]]%lookup_insert_Some.
    + split; [lia|]. exists i, d. split; [by apply list_lookup_insert_eq|by destruct Hd as (_ & _ & _ & _ & ?)].
    + destruct (H5 h2 o2 Ho2) as (Hb & j & e & Hj & He). split; [lia|]. exists j, e. split; [|done]. rewrite list_lookup_insert_ne; [done|]. intros ->. congruence.
Qed.

(** ** The laws of the files *)

Definition mnt_rep (s : dfs (elm Y)) (F : files) (O : gmap Z ofile) : Prop :=
  exists k l er fr m y O', s = st k l er fr m y /\ k.1.1 <> 0 /\ volume y 0 k.1.1 F O' /\ fd_rep l F O O' m.
Definition dsk_rep (s : dfs (elm Y)) (F : files) : Prop :=
  exists k l er fr m y, s = st0 k l er fr m y /\ stored y F /\ Forall (eq None) l /\ (length l <= 16)%nat.

Lemma get_in_st k l er fr m y i d : l !! i = Some (Some d) -> fd_magic d = DFS_FD_MAGIC ->
  fd_get (Z.of_nat i + 3) (st k l er fr m y) = Done (Some (Tab i)) (st k (<[i := Some (with_ref (fd_ref d + 1) d)]> l) er fr m y).
Proof. intros. by rewrite (fd_get_in i d). Qed.
Lemma put_more_st k l er fr m y i d : l !! i = Some (Some d) -> fd_ref d <> 1 ->
  fd_put (Some (Tab i)) (st k l er fr m y) = Done tt (st k (<[i := Some (with_ref (fd_ref d - 1) d)]> l) er fr m y).
Proof. intros. by rewrite (fd_put_more i d). Qed.
Lemma put_last_st k l er fr m y i d : l !! i = Some (Some d) -> fd_ref d = 1 -> fd_put (Some (Tab i)) (st k l er fr m y) = Done tt (st k (<[i := None]> l) er (Some (with_ref 0 d)) m y).
Proof. intros. by rewrite (fd_put_last i d). Qed.

(** [open] takes a descriptor and a reference to it. *)
Lemma open_prep k l er fr m y F O O' : fd_rep l F O O' m -> (size O < 16)%nat ->
  exists i l1 d m', (forall (G : Z -> M (dfs (elm Y)) Z), (fd <- fd_new;; G fd) (st k l er fr m y) = G (Z.of_nat i + 3) (st k (<[i := Some d]> l1) er fr m' y)) /\
    l1 !! i = Some None /\ fd_rep l1 F O O' m' /\ fd_magic d = DFS_FD_MAGIC /\ fd_ref d = 1 /\ fd_fops d <> elm_fops_at /\ (i < 16)%nat.
Proof.
  intros HR Hs. destruct (fd_new_done blk (st k l er fr m y) HH) as (i & j & b & m' & E & Hi & Hl & Hm & _).
  - apply Forall_lookup. intros i [d|] Hi; [|done]. destruct (rep_slot _ _ _ _ _ HR i d Hi) as (? & ? & ? & _ & _ & _ & _ & _ & Hr). lia.
  - apply (rep_size _ _ _ _ _ HR).
  - destruct (free_fd O Hs) as (_ & fd & _ & Hfd & Hb). exists (Z.to_nat (fd - 3)). split; [lia|]. intros [d Hd].
    destruct (rep_slot _ _ _ _ _ HR _ d Hd) as (o & _ & _ & Ho & _). replace (Z.of_nat (Z.to_nat (fd - 3)) + 3) with fd in Ho by lia. congruence.
  - cbn [fds st mem] in *. exists i, (l ++ replicate j None), (new_fd (blk b)), m'. split; [intros G; by rewrite (after E)|]. rewrite length_app, length_replicate in Hl.
    split_and!; [done|apply rep_mem with m; [by apply rep_grow|lia]|done|done|apply Hblk|]. apply lookup_lt_Some in Hi. rewrite length_app, length_replicate in Hi. lia.
Qed.

Lemma rep_not_open l F O O' m n i d : fd_rep l F O O' m -> (forall fd o, O !! fd = Some o -> of_name o <> n) -> fd_fops d <> elm_fops_at -> not_open n (<[i := Some d]> l).
Proof.
  intros HR Hn Hd. apply Forall_lookup. intros j [e|] Hj; [|done]. apply list_lookup_insert_Some in Hj as [(<- & [= <-] & _)|(_ & Hj)]; [by left|].
  destruct (rep_slot _ _ _ _ _ HR j e Hj) as (o & h & c & Ho & _ & _ & (_ & Hp & _) & _). right. eexists. split; [done|]. intros [= Ex]. by destruct (Hn _ _ Ho).
Qed.

Lemma stack_open s F O n c flags : mnt_rep s F O -> file_name n -> F !! n = Some c -> (forall fd f, O !! fd = Some f -> of_name f <> n) ->
  (size O < 16)%nat -> open_flags flags -> exists fd s', open n flags s = Done fd s' /\ ~ no_fd fd /\ O !! fd = None /\
    mnt_rep s' F (<[fd := OFile n 0 (bool_decide (flags = O_RDWR))]> O).
Proof.
  intros (k & l & er & fr & m & y & O' & -> & Hk & HV & HR) Hn Hc Hno Hs Hfl.
  destruct (open_prep k l er fr m y F O O' HR Hs) as (i & l1 & d & m' & E & Hi & HR1 & HM & Hr & Hd & Hi16). pose proof (lookup_lt_Some _ _ _ Hi) as Hlt.
  unfold open. rewrite E. rewrite (proj2 (Z.ltb_ge _ 0)) by lia. erewrite bind_done; [|apply get_in_st; [by apply list_lookup_insert_eq|done]].
  rewrite list_insert_insert_eq, Hr. set (d1 := with_ref _ d).
  assert (HO' : forall h o, O' !! h = Some o -> of_name o <> n).
  { intros h o Ho. destruct (rep_handle _ _ _ _ _ HR1 h o Ho) as (_ & j & e & Hj & He). destruct (rep_slot _ _ _ _ _ HR1 j e Hj) as (o2 & h2 & _ & G1 & G2 & _ & (_ & _ & _ & _ & G3) & _).
    assert (h2 = h) as -> by congruence. assert (o2 = o) as -> by congruence. by eapply Hno. }
  assert (HN : O' !! Z.of_nat (m' + 5) = None).
  { destruct (O' !! Z.of_nat (m' + 5)) as [o|] eqn:Eo; [|done]. destruct (rep_handle _ _ _ _ _ HR1 _ o Eo) as [? _]. lia. }
  destruct (file_open_done k (<[i := Some d1]> l1) er fr m' y F O' n c flags i d1 HV Hn Hc HN HO' Hfl) as (y' & d2 & E2 & Hf & HM2 & Hr2 & HV2).
  { by eapply rep_not_open. } { by apply list_lookup_insert_eq. }
  rewrite (after E2). cbn [Z.ltb Z.compare]. rewrite list_insert_insert_eq. erewrite bind_done; [|apply put_more_st; [by apply list_lookup_insert_eq|by rewrite Hr2]].
  rewrite list_insert_insert_eq. eexists _, _. split; [reflexivity|]. split; [unfold no_fd; lia|]. split.
  { destruct (O !! (Z.of_nat i + 3)) as [o|] eqn:Eo; [|done]. destruct (rep_open _ _ _ _ _ HR1 _ o Eo) as (j & e & Ej & Hj). assert (j = i) as -> by lia. congruence. }
  eexists k, _, er, fr, _, y', _. split; [reflexivity|]. split_and!; [done|exact HV2|]. replace (m' + 5)%nat with (Z.to_nat (Z.of_nat (m' + 5))) at 2 by lia.
  apply rep_new with m' c; try done; [cbn; by rewrite HM2|cbn; rewrite Hr2; done|lia].
Qed.

Lemma stack_missing s F O n flags : mnt_rep s F O -> file_name n -> F !! n = None -> (size O < 16)%nat -> open_flags flags ->
  exists s', open n flags s = Done (-1) s' /\ mnt_rep s' F O.
Proof.
  intros (k & l & er & fr & m & y & O' & -> & Hk & HV & HR) Hn Hc Hs Hfl.
  destruct (open_prep k l er fr m y F O O' HR Hs) as (i & l1 & d & m' & E & Hi & HR1 & HM & Hr & Hd & Hi16). pose proof (lookup_lt_Some _ _ _ Hi) as Hlt.
  unfold open. rewrite E. rewrite (proj2 (Z.ltb_ge _ 0)) by lia. erewrite bind_done; [|apply get_in_st; [by apply list_lookup_insert_eq|done]].
  rewrite list_insert_insert_eq, Hr. set (d1 := with_ref _ d).
  assert (HN : O' !! Z.of_nat (m' + 5) = None).
  { destruct (O' !! Z.of_nat (m' + 5)) as [o|] eqn:Eo; [|done]. destruct (rep_handle _ _ _ _ _ HR1 _ o Eo) as [? _]. lia. }
  destruct (file_open_missing k (<[i := Some d1]> l1) er fr m' y F O' n flags i d1 HV Hn Hc HN Hfl) as (r & y' & d2 & E2 & Hneg & HM2 & Hr2 & HV2).
  { apply (rep_not_open l1 F O O' m' n i d1 HR1); [|done]. intros fd o Ho Hon. destruct (rep_get _ _ _ _ _ _ _ HR1 Ho) as (_ & _ & _ & c & _ & _ & _ & Hx & _). congruence. }
  { by apply list_lookup_insert_eq. }
  rewrite (after E2), (proj2 (Z.ltb_lt _ _) Hneg), list_insert_insert_eq. erewrite bind_done; [|apply put_more_st; [by apply list_lookup_insert_eq|by rewrite Hr2]].
  rewrite list_insert_insert_eq. erewrite bind_done; [|eapply put_last_st; [by apply list_lookup_insert_eq|cbn; rewrite Hr2; done]]. rewrite list_insert_insert_eq.
  eexists. split; [reflexivity|]. eexists k, _, _, _, _, y', O'. split; [reflexivity|]. split_and!; [done..|]. rewrite list_insert_id by done. apply rep_mem with m'; [done|cbn [mem st]; lia].
Qed.

(** A descriptor is taken for a call. *)
Lemma rep_take l F O O' m fd o (k : Z * dfs_fd * bool) er fr y : fd_rep l F O O' m -> O !! fd = Some o -> exists i d h c, fd = Z.of_nat i + 3 /\ l !! i = Some (Some d) /\
  O' !! h = Some o /\ F !! of_name o = Some c /\ has_file (of_name o) h c d /\ fd_magic d = DFS_FD_MAGIC /\ fd_ref d = 1 /\
  (forall h' o', O' !! h' = Some o' -> of_name o' = of_name o -> h' = h) /\
  fd_get fd (st k l er fr m y) = Done (Some (Tab i)) (st k (<[i := Some (with_ref 2 d)]> l) er fr m y).
Proof.
  intros HR Ho. destruct (rep_get _ _ _ _ _ _ _ HR Ho) as (i & d & h & c & -> & Hi & Hh & Hc & Hf & HM & Hr & Hu & _).
  exists i, d, h, c. split_and!; try done. rewrite (get_in_st k l er fr m y i d) by done. by rewrite Hr.
Qed.

Lemma obj_st k l er fr m y i d h : l !! i = Some (Some d) -> fd_data d = DObj h -> obj (Tab i) (st k l er fr m y) = Done h (st k l er fr m y).
Proof. intros Hi Hd. unfold obj. by rewrite (after (get_st k l er fr m y i fd_data d Hi)), Hd. Qed.

Lemma stack_read s F O fd f c len : mnt_rep s F O -> O !! fd = Some f -> F !! of_name f = Some c -> 0 <= len < 2 ^ 31 ->
  let bs := take (Z.to_nat len) (drop (of_pos f) c) in
  exists s', read fd len s = Done (blen bs, bs) s' /\ mnt_rep s' F (<[fd := OFile (of_name f) (of_pos f + length bs) (of_rw f)]> O).
Proof.
  intros (k & l & er & fr & m & y & O' & -> & Hk & HV & HR) Ho Hc Hlen bs.
  destruct (rep_take l F O O' m fd f k er fr y HR Ho) as (i & d & h & c' & -> & Hi & Hh & Hc' & Hf & HM & Hr & Hu & Eg). assert (c' = c) as -> by congruence.
  destruct (f_read_law y F O' [flash0; 0] 0 k.1.1 h f c len HV eq_refl Hh Hc ltac:(lia)) as (y' & E & HV'). fold bs in E, HV'.
  pose proof (lookup_lt_Some _ _ _ Hi) as Hlt. set (d1 := with_ref 2 d). assert (H1 : <[i := Some d1]> l !! i = Some (Some d1)) by (by apply list_lookup_insert_eq).
  pose proof Hf as (Ht & _ & Hfo & _ & Hd). unfold read. rewrite (after Eg). unfold dfs_file_read. msteps. rewrite (after (fops_st k _ er fr m y i d1 H1 Hfo)). cbn [fo_read dfs_elm_fops].
  unfold dfs_elm_read. msteps. rewrite (after (get_st k _ er fr m y i fd_type d1 H1)). change (fd_type d1) with (fd_type d). rewrite Ht. cbn [Z.eqb FT_REGULAR FT_DIRECTORY].
  msteps. rewrite (after (obj_st k _ er fr m y i d1 h H1 Hd)). msteps. rewrite (after (ff_done k _ er fr m y _ _ _ E)). unfold ffget. msteps. erewrite bind_done; [|by apply set_st]. cbn [fst snd Z.eqb FR_OK].
  assert (Hbs : blen bs <= len) by (unfold blen, bs; rewrite length_take; lia). assert (0 <= blen bs) by (unfold blen; lia).
  rewrite s32_small by lia. msteps. cbn [fst]. rewrite (proj2 (Z.ltb_ge _ 0)) by done. cbn [when]. msteps. cbn [fst]. rewrite (proj2 (Z.ltb_ge _ 0)) by done. rewrite !list_insert_insert_eq.
  erewrite bind_done; [|apply put_more_st; [by apply list_lookup_insert_eq|done]]. rewrite list_insert_insert_eq.
  eexists. split; [reflexivity|]. eexists k, _, er, fr, m, y', _. split; [reflexivity|]. split_and!; [done|exact HV'|]. rewrite <- (insert_id F (of_name f) c) by done.
  by eapply fd_rep_update.
Qed.

Lemma seek_file k l er fr m y F O' i d h o c off : l !! i = Some (Some d) -> has_file (of_name o) h c d -> volume y 0 k.1.1 F O' -> O' !! h = Some o ->
  F !! of_name o = Some c -> 0 <= off <= blen c -> off < 2 ^ 31 ->
  exists y', dfs_file_lseek (Some (Tab i)) off (st k l er fr m y) = Done off (st k (<[i := Some (with_pos off d)]> l) er fr m y') /\
    volume y' 0 k.1.1 F (<[h := OFile (of_name o) (Z.to_nat off) (of_rw o)]> O').
Proof.
  intros Hi (Ht & _ & Hfo & _ & Hd) HV Hh Hc Ho H31. pose proof (lookup_lt_Some _ _ _ Hi).
  destruct (f_lseek_law y F O' [flash0; 0] 0 k.1.1 h o c off HV eq_refl Hh Hc Ho) as (y' & E & HV'). exists y'. split; [|done].
  unfold dfs_file_lseek. rewrite (after (fops_st k l er fr m y i d Hi Hfo)). cbn [fo_lseek dfs_elm_fops]. unfold dfs_elm_lseek. msteps.
  rewrite (after (get_st k l er fr m y i fd_type d Hi)), Ht. cbn [Z.eqb FT_REGULAR]. msteps. rewrite (after (obj_st k l er fr m y i d h Hi Hd)). msteps.
  rewrite u32_small by lia. rewrite (after (ff_done k l er fr m y _ _ _ E)). cbn [Z.eqb FR_OK]. unfold ffget. msteps. cbn [fat low st].
  rewrite (fptr_law y' F _ 0 k.1.1 h _ HV') by apply lookup_insert_eq. cbn [of_pos]. rewrite Z2Nat.id, s32_small by lia.
  rewrite (after (set_st k l er fr m y' i _ d Hi)). msteps. rewrite (proj2 (Z.leb_le 0 off)) by lia. cbn [when].
  erewrite bind_done; [|apply set_st; by apply list_lookup_insert_eq]. by rewrite list_insert_insert_eq.
Qed.

(** [lseek] to a position inside the file that [whence] and [offset] come to. *)
Lemma stack_seek s F O fd f c offset whence off : mnt_rep s F O -> O !! fd = Some f -> F !! of_name f = Some c -> 0 <= off <= blen c -> off < 2 ^ 31 ->
  (whence = SEEK_SET /\ offset = off) \/ (whence = SEEK_END /\ offset = 0 /\ off = blen c) ->
  exists s', lseek fd offset whence s = Done off s' /\ mnt_rep s' F (<[fd := OFile (of_name f) (Z.to_nat off) (of_rw f)]> O).
Proof.
  intros (k & l & er & fr & m & y & O' & -> & Hk & HV & HR) Ho Hc Hoff H31 Hw.
  destruct (rep_take l F O O' m fd f k er fr y HR Ho) as (i & d & h & c' & -> & Hi & Hh & Hc' & Hf & HM & Hr & Hu & Eg). assert (c' = c) as -> by congruence.
  pose proof (lookup_lt_Some _ _ _ Hi) as Hlt. set (d1 := with_ref 2 d). assert (H1 : <[i := Some d1]> l !! i = Some (Some d1)) by (by apply list_lookup_insert_eq).
  destruct (seek_file k _ er fr m y F O' i d1 h f c off H1 Hf HV Hh Hc Hoff H31) as (y' & E & HV'). unfold lseek. rewrite (after Eg).
  set (who := if whence =? SEEK_SET then _ else _).
  assert (Ew : who (st k (<[i := Some d1]> l) er fr m y) = Done (Some off) (st k (<[i := Some d1]> l) er fr m y)).
  { unfold who. destruct Hw as [[-> ->]|(-> & -> & ->)]; [done|]. cbn [Z.eqb SEEK_SET SEEK_CUR SEEK_END Pos.eqb].
    rewrite (after (get_st k _ er fr m y i fd_size d1 H1)). destruct Hf as (_ & _ & _ & Hsz & _). change (fd_size d1) with (fd_size d). rewrite Hsz, u32_small by lia. by rewrite s32_small by lia. }
  rewrite (after Ew). rewrite (proj2 (Z.ltb_ge off 0)) by lia. rewrite (after E). rewrite (proj2 (Z.ltb_ge off 0)) by lia. rewrite list_insert_insert_eq.
  erewrite bind_done; [|apply put_more_st; [by apply list_lookup_insert_eq|done]]. rewrite list_insert_insert_eq.
  eexists. split; [reflexivity|]. eexists k, _, er, fr, m, y', _. split; [reflexivity|]. split_and!; [done|exact HV'|]. rewrite <- (insert_id F (of_name f) c) by done.
  by eapply fd_rep_update.
Qed.

Lemma stack_write s F O fd f c bs : mnt_rep s F O -> O !! fd = Some f -> F !! of_name f = Some c -> of_rw f = true -> (of_pos f <= length c)%nat ->
  c <> [] -> (of_pos f + length bs <= 512)%nat ->
  exists s', write fd bs s = Done (blen bs) s' /\
    mnt_rep s' (<[of_name f := overwrite (of_pos f) bs c]> F) (<[fd := OFile (of_name f) (of_pos f + length bs) true]> O).
Proof.
  intros (k & l & er & fr & m & y & O' & -> & Hk & HV & HR) Ho Hc Hrw Hp Hne Hb.
  destruct (rep_take l F O O' m fd f k er fr y HR Ho) as (i & d & h & c' & -> & Hi & Hh & Hc' & Hf & HM & Hr & Hu & Eg). assert (c' = c) as -> by congruence.
  destruct (f_write_law y F O' [flash0; 0] 0 k.1.1 h f c bs HV eq_refl Hh Hc Hu Hrw Hp Hne Hb) as (y' & E & HV').
  pose proof (lookup_lt_Some _ _ _ Hi) as Hlt. set (d1 := with_ref 2 d). assert (H1 : <[i := Some d1]> l !! i = Some (Some d1)) by (by apply list_lookup_insert_eq).
  pose proof Hf as (Ht & Hpa & Hfo & _ & Hd). unfold write. rewrite (after Eg). unfold dfs_file_write. msteps. rewrite (after (fops_st k _ er fr m y i d1 H1 Hfo)). cbn [fo_write dfs_elm_fops].
  unfold dfs_elm_write. msteps. rewrite (after (get_st k _ er fr m y i fd_type d1 H1)). change (fd_type d1) with (fd_type d). rewrite Ht. cbn [Z.eqb FT_REGULAR FT_DIRECTORY].
  msteps. rewrite (after (obj_st k _ er fr m y i d1 h H1 Hd)). msteps. rewrite (after (ff_done k _ er fr m y _ _ _ E)). unfold ffget. msteps. cbn [fat low st].
  rewrite (f_size_law y' _ _ 0 k.1.1 h _ (overwrite (of_pos f) bs c) HV') by (apply lookup_insert_eq). erewrite bind_done; [|by apply set_st]. cbn [fst snd Z.eqb FR_OK].
  assert (0 <= blen bs < 2 ^ 31) by (unfold blen; lia). rewrite s32_small by lia. msteps. rewrite (proj2 (Z.ltb_ge _ 0)) by lia. rewrite !list_insert_insert_eq.
  erewrite bind_done; [|apply put_more_st; [by apply list_lookup_insert_eq|done]]. rewrite list_insert_insert_eq.
  eexists. split; [reflexivity|]. eexists k, _, er, fr, m, y', _. split; [reflexivity|]. split_and!; [done|exact HV'|]. by eapply fd_rep_update.
Qed.

(** A file is closed; its descriptor is freed with the operations in it, but without a path. *)
Lemma stack_close s F O fd f : mnt_rep s F O -> O !! fd = Some f -> exists s', close fd s = Done 0 s' /\ mnt_rep s' F (delete fd O) /\
  (exists i, fds s' !! i = Some None) /\ exists d, freed s' = Some d /\ fd_fops d = elm_fops_at /\ fd_path d = None.
Proof.
  intros (k & l & er & fr & m & y & O' & -> & Hk & HV & HR) Ho.
  destruct (rep_take l F O O' m fd f k er fr y HR Ho) as (i & d & h & c & -> & Hi & Hh & Hc & Hf & HM & Hr & Hu & Eg).
  destruct (f_close_law y F O' [flash0; 0] 0 k.1.1 h f HV eq_refl Hh) as (y' & E & HV').
  pose proof (lookup_lt_Some _ _ _ Hi) as Hlt. set (d1 := with_ref 2 d). assert (H1 : <[i := Some d1]> l !! i = Some (Some d1)) by (by apply list_lookup_insert_eq).
  pose proof Hf as (Ht & Hpa & Hfo & _ & Hd). unfold close. rewrite (after Eg). unfold dfs_file_close. msteps. rewrite (after (fops_st k _ er fr m y i d1 H1 Hfo)). cbn [fo_close dfs_elm_fops].
  unfold dfs_elm_close. msteps. rewrite (after (get_st k _ er fr m y i fd_type d1 H1)). change (fd_type d1) with (fd_type d). rewrite Ht. cbn [Z.eqb FT_REGULAR FT_DIRECTORY].
  msteps. rewrite (after (obj_st k _ er fr m y i d1 h H1 Hd)). msteps. rewrite (after (ff_done k _ er fr m y _ _ _ E)). msteps. change (elm_result_to_dfs FR_OK) with 0. cbn [Z.ltb Z.compare].
  msteps. erewrite bind_done; [|by apply set_st]. msteps. rewrite list_insert_insert_eq. erewrite bind_done; [|eapply put_more_st; [by apply list_lookup_insert_eq|done]].
  rewrite list_insert_insert_eq. cbn [Z.ltb Z.compare]. erewrite bind_done; [|eapply put_last_st; [by apply list_lookup_insert_eq|done]]. rewrite list_insert_insert_eq.
  eexists. split; [reflexivity|]. split; [eexists k, _, er, _, m, y', _; split; [reflexivity|]; split_and!; [done|exact HV'|by eapply rep_close]|].
  split; [exists i; by apply list_lookup_insert_eq|]. by eexists.
Qed.

Lemma stack_close_none s F O fd : mnt_rep s F O -> no_fd fd -> exists s', close fd s = Done (-1) s' /\ mnt_rep s' F O.
Proof.
  intros (k & l & er & fr & m & y & O' & -> & Hk & HV & HR) Hfd. pose proof (rep_size _ _ _ _ _ HR). unfold close.
  rewrite (after (fd_get_out fd (st k l er fr m y) ltac:(cbn [fds st]; unfold no_fd in Hfd; lia))). eexists. split; [reflexivity|]. by eexists k, l, _, fr, m, y, O'.
Qed.

(** ** Mounting *)

(** The states between: [e] is the second entry of the table of file systems, [dk] the table of devices. *)
Definition stx (e : dfs_filesystem) (dk : list Z) (k : dfs_fd * bool) (l : list (option dfs_fd)) (er : Z) (fr : option dfs_fd) (m : nat) (y : Y) : dfs (elm Y) :=
  Dfs l [dev_entry; e] [device_at; elm_at] [slash] er k.1 m fr k.2 (Elm dk y).

Lemma below_x e dk k l er fr m y {T} (g : M Y T) a y' : g y = Done a y' -> below (lower g) (stx e dk k l er fr m y) = Done a (stx e dk k l er fr m y').
Proof. intros E. unfold below, lower, zoom, stx. cbn. by rewrite E. Qed.
Lemma ff_x e dk k l er fr m y {T} (g : list Z -> M Y T) a y' : g dk y = Done a y' -> ff g (stx e dk k l er fr m y) = Done a (stx e dk k l er fr m y').
Proof. intros E. unfold ff, stx. cbn. by rewrite E. Qed.
Lemma malloc_x e dk k l er fr m y : rt_malloc (stx e dk k l er fr m y) = Done (Some (Z.of_nat (S m), blk m)) (stx e dk k l er fr (S m) y).
Proof. by rewrite (heap_block_done blk). Qed.
Lemma entry_x e dk k l er fr m y : entry 1 (stx e dk k l er fr m y) = Done e (stx e dk k l er fr m y).
Proof. done. Qed.
Lemma set_entry_x e e' dk k l er fr m y : set_entry 1 e' (stx e dk k l er fr m y) = Done tt (stx e' dk k l er fr m y).
Proof. done. Qed.
Lemma set_disk_x e d d' k l er fr m y x : set_disk 0 x (stx e [d; d'] k l er fr m y) = Done tt (stx e [x; d'] k l er fr m y).
Proof. done. Qed.
Lemma set_data_x e dk k l er fr m y p : set_data 1 p (stx e dk k l er fr m y) = Done tt (stx (Fs (fs_dev e) (fs_path e) (fs_ops e) p) dk k l er fr m y).
Proof. done. Qed.

Lemma normalize_root e dk k l er fr m y : normalize [slash] (stx e dk k l er fr m y) = Done (Some [slash]) (stx e dk k l er fr (S m) y).
Proof.
  unfold normalize. rewrite (bind_done _ _ _ true (stx e dk k l er fr (S m) y)) by (by rewrite (room_done blk)). msteps.
  destruct (normalize_done [slash] [slash] eq_refl ltac:(by repeat constructor)) as [s E]. change (working_directory _) with [slash]. by rewrite E.
Qed.

Lemma elm_mount_done k l er fr m y F : stored y F -> exists y',
  dfs_elm_mount 1 0 0 (stx (Fs flash0 (Some [slash]) elm_at 0) [0; 0] k l er fr m y) =
    Done 0 (stx (Fs flash0 (Some [slash]) elm_at (Z.of_nat (S m))) [flash0; 0] k l er fr (S (S m)) y') /\ volume y' 0 (Z.of_nat (S m)) F ∅.
Proof.
  intros HS. unfold dfs_elm_mount, get_disk. msteps. change (find_disk 0 0 _) with (Some 0%nat). cbv iota. rewrite (after (entry_x _ _ k l er fr m y)). cbn [fs_dev].
  rewrite (after (set_disk_x _ 0 0 k l er fr m y flash0)). destruct (geometry_law y F HS) as (r & n & y1 & E1 & Hn & HS1). rewrite (after (ff_x _ _ k l er fr m y _ _ _ E1)). cbn [fst snd].
  rewrite (proj2 (Z.ltb_ge _ _) Hn), andb_false_r. rewrite (after (malloc_x _ _ k l er fr m y1)).
  destruct (f_mount_law y1 F [flash0; 0] 0 (Z.of_nat (S m)) HS1 eq_refl ltac:(unfold _VOLUMES; lia) ltac:(lia)) as (y2 & E2 & HV2).
  rewrite (after (ff_x _ _ k l er fr (S m) y1 _ _ _ E2)). cbn [Z.eqb FR_OK]. rewrite (after (malloc_x _ _ k l er fr (S m) y2)).
  destruct (f_opendir_law y2 F ∅ [flash0; 0] 0 (Z.of_nat (S m)) (Z.of_nat (S (S m))) HV2 eq_refl (lookup_empty _)) as (y3 & E3 & HV3).
  rewrite (after (ff_x _ [flash0; 0] k l er fr (S (S m)) y2 (fun dk => f_opendir dk (Z.of_nat (S (S m))) (logic_nbr 0 ++ [slash])) _ _ E3)). cbn [Z.eqb FR_OK negb]. rewrite (after (set_data_x _ _ k l er fr _ y3 _)). by exists y3.
Qed.

Lemma rep_empty l F m : Forall (eq None) l -> (length l <= 16)%nat -> fd_rep l F ∅ ∅ m.
Proof.
  intros Hl Hs. split; [done| |intros ?? Ho|intros ???? Ho|intros ?? Ho]; try by rewrite lookup_empty in Ho. intros i d Hi. eapply Forall_lookup in Hl; [|done]. done.
Qed.

Lemma stack_mount s F : dsk_rep s F -> exists s', dfs_mount (Some (chars_of "flash0")) [slash] (chars_of "elm") 0 0 s = Done 0 s' /\ mnt_rep s' F ∅.
Proof.
  intros (k & l & er & fr & m & y & -> & HS & Hl & Hle). change (st0 k l er fr m y) with (stx no_fs [0; 0] k l er fr m y). unfold dfs_mount.
  destruct (find_law y F HS) as (y1 & E1 & HS1). rewrite (after (below_x no_fs [0; 0] k l er fr m y _ _ _ E1)). rewrite (proj2 (Z.eqb_neq _ _) flash0_real). cbn [andb]. msteps.
  rewrite (bind_done _ _ _ (Some elm_at) (stx no_fs [0; 0] k l er fr m y1)) by done. rewrite (bind_done _ _ _ dfs_elm (stx no_fs [0; 0] k l er fr m y1)) by done. cbn [op_mount dfs_elm].
  rewrite (after (normalize_root _ _ k l er fr m y1)). rewrite (bind_done _ _ _ true (stx no_fs [0; 0] k l er fr (S m) y1)) by done. cbn [negb]. msteps.
  rewrite (bind_done _ _ _ (Some (Some 1%nat)) (stx no_fs [0; 0] k l er fr (S m) y1)) by done. unfold mount_entry.
  rewrite (after (entry_x _ _ k l er fr _ y1)), (after (set_entry_x _ _ _ k l er fr _ y1)). rewrite (proj2 (Z.eqb_neq _ _) flash0_real).
  destruct (device_open_law y1 F HS1) as (y2 & E2 & HS2). rewrite (after (below_x _ _ k l er fr _ y1 _ _ _ E2)). cbn [Z.eqb negb fs_data no_fs].
  destruct (elm_mount_done k l er fr (S m) y2 F HS2) as (y3 & E3 & HV3). rewrite (after E3). cbn [Z.ltb Z.compare].
  eexists. split; [reflexivity|]. eexists (Z.of_nat (S (S m)), k.1, k.2), l, er, fr, _, y3, ∅. split; [reflexivity|]. split_and!; [cbn; lia|done|by apply rep_empty].
Qed.

Lemma rep_none l F O' m : fd_rep l F ∅ O' m -> Forall (eq None) l /\ O' = ∅.
Proof.
  intros [_ H2 _ _ H5]. assert (Hn : forall i d, l !! i = Some (Some d) -> False) by (intros i d Hi; destruct (H2 i d Hi) as (o & _ & _ & Ho & _); by rewrite lookup_empty in Ho).
  split; [apply Forall_lookup; intros i [d|] Hi; [by destruct (Hn i d)|done]|]. apply map_empty. intros h. destruct (O' !! h) as [o|] eqn:Eo; [|done].
  destruct (H5 h o Eo) as (_ & i & d & Hi & _). by destruct (Hn i d).
Qed.

Lemma stack_unmount s F : mnt_rep s F ∅ -> exists s', dfs_unmount [slash] s = Done 0 s' /\ dsk_rep s' F.
Proof.
  intros (k & l & er & fr & m & y & O' & -> & Hk & HV & HR). destruct (rep_none _ _ _ _ HR) as [Hl ->]. pose proof (rep_size _ _ _ _ _ HR) as Hle.
  set (e := Fs flash0 (Some [slash]) elm_at k.1.1). set (k' := (k.1.2, k.2)). change (st k l er fr m y) with (stx e [flash0; 0] k' l er fr m y). unfold dfs_unmount.
  rewrite (after (normalize_root _ _ k' l er fr m y)). msteps. change (find_mounted [slash] 0 _) with (Some 1%nat). cbv iota. rewrite (after (entry_x _ _ k' l er fr _ y)).
  rewrite (bind_done _ _ _ dfs_elm (stx e [flash0; 0] k' l er fr (S m) y)) by done. cbn [op_unmount dfs_elm].
  destruct (f_unmount_law y F [flash0; 0] 0 k.1.1 HV eq_refl) as (y1 & E1 & HS1).
  assert (EU : dfs_elm_unmount 1 (stx e [flash0; 0] k' l er fr (S m) y) = Done 0 (stx (Fs flash0 (Some [slash]) elm_at 0) [0; 0] k' l er fr (S m) y1)).
  { unfold dfs_elm_unmount. rewrite (after (entry_x _ _ k' l er fr _ y)). cbn [fs_data e]. rewrite (proj2 (Z.eqb_neq _ _) Hk). unfold get_disk. cbn [negb rt_assert]. msteps.
    cbn [fs_dev e disk low stx find_disk]. rewrite Z.eqb_refl. rewrite (after (ff_x _ _ k' l er fr _ y _ _ _ E1)). cbn [Z.eqb FR_OK negb].
    rewrite (after (set_data_x _ _ k' l er fr _ y1 _)). by rewrite (after (set_disk_x _ flash0 0 k' l er fr _ y1 0)). }
  rewrite (after EU). cbn [Z.ltb Z.compare]. rewrite (after (entry_x _ _ k' l er fr _ y1)). cbn [fs_dev]. rewrite (proj2 (Z.eqb_neq _ _) flash0_real). cbn [negb when].
  destruct (device_close_law y1 F HS1) as (r & y2 & E2 & HS2). msteps. rewrite (after (below_x _ _ k' l er fr _ y1 _ _ _ E2)). msteps. rewrite (after (set_entry_x _ _ _ k' l er fr _ y2)).
  eexists. split; [reflexivity|]. by eexists k', l, er, fr, (S m), y2.
Qed.

(** ** Reopening a file *)

Lemma find_open_stale mp l i d (s : dfs (elm Y)) : l !! i = Some (Some d) -> fd_fops d = elm_fops_at -> fd_path d = None ->
  (forall j, (j < i)%nat -> exists e p, l !! j = Some (Some e) /\ fd_path e = Some p /\ p <> mp) -> find_open elm_fops_at mp l s = Stop Undefined.
Proof.
  revert i. induction l as [|o l IH]; intros i Hi Hf Hp Hj; [done|]. destruct i as [|i]; cbn in Hi.
  - injection Hi as ->. cbn [find_open]. rewrite Hf, Z.eqb_refl. unfold bind, deref. by rewrite Hp.
  - destruct (Hj 0%nat) as (e & p & He & Hep & Hne); [lia|]. cbn in He. injection He as ->. cbn [find_open].
    assert (Hl : find_open elm_fops_at mp l s = Stop Undefined) by (apply (IH i Hi Hf Hp); intros j Hlt; apply (Hj (S j)); lia).
    destruct (fd_fops e =? elm_fops_at); [|done]. rewrite (bind_done _ _ _ p s) by (by apply deref_some). by rewrite bool_decide_false.
Qed.

(** The heap gives a block in which a descriptor of FatFs was: the name of the file is compared with no string. *)
Lemma stack_stale s F O n flags : mnt_rep s F O -> file_name n -> (forall fd o, O !! fd = Some o -> of_name o <> n) -> (exists i, fds s !! i = Some None) ->
  fd_fops (blk (mem s)) = elm_fops_at -> fd_path (blk (mem s)) = None -> open n flags s = Stop Undefined.
Proof.
  intros (k & l & er & fr & m & y & O' & -> & Hk & HV & HR) Hn Hno (i0 & Hi0) Hf Hp. cbn [fds mem st] in *. pose proof (rep_size _ _ _ _ _ HR) as Hle.
  assert (Hrefs : Forall (fun o => match o with Some d => fd_ref d <> 0 | None => True end) l).
  { apply Forall_lookup. intros j [d|] Hj; [|done]. destruct (rep_slot _ _ _ _ _ HR j d Hj) as (? & ? & ? & _ & _ & _ & _ & _ & Hr). lia. }
  destruct (free_from_done l Hrefs 0) as (i & E & Hi & HN & HS). cbn [Nat.add] in E. pose proof (lookup_lt_Some _ _ _ Hi0).
  assert (Hlt : (i < length l)%nat). { destruct (decide (i0 < i)%nat) as [Hc|]; [|lia]. destruct (HS i0 Hc) as [d Hd]. congruence. }
  set (d1 := with_ref 2 (new_fd (blk m))). set (s1 := st k (<[i := Some d1]> l) er fr (S m) y).
  assert (Eo : open n flags (st k l er fr m y) = bind (dfs_file_open (Some (Tab i)) n flags) (fun result =>
    if result <? 0 then fd_put (Some (Tab i));;; fd_put (Some (Tab i));;; rt_set_errno result;;; ret (-1) else fd_put (Some (Tab i));;; ret (Z.of_nat i + 3)) s1).
  { unfold open, fd_new, fd_alloc. msteps. cbn [fds st]. rewrite drop_0, E.
    rewrite (bind_done _ _ _ true (st k l er fr m y)) by (unfold fd_grow; msteps; cbn [fds st]; by rewrite bool_decide_false by lia). cbn [negb]. msteps. cbn [fds st]. rewrite (HN Hlt). msteps.
    rewrite (after (malloc_st k l er fr m y)). msteps. cbn [fds st set_fds]. rewrite length_insert, bool_decide_false by lia. msteps.
    erewrite bind_done; [|apply setf_done; cbn; by apply list_lookup_insert_eq]. msteps. unfold DFS_FD_OFFSET. rewrite (proj2 (Z.ltb_ge _ 0)) by lia.
    erewrite bind_done; [|apply fd_get_in; [cbn; apply list_lookup_insert_eq; by rewrite length_insert|done]]. unfold set_fds. cbn. by rewrite !list_insert_insert_eq. }
  rewrite Eo. unfold bind at 1, dfs_file_open. unfold s1. rewrite (after (normalize_name k _ er fr _ y n _ Hn (or_introl eq_refl))).
  assert (EU : fd_is_open (slash :: n) (st k (<[i := Some d1]> l) er fr (S (S m)) y) = Stop Undefined).
  { unfold fd_is_open. rewrite (after (normalize_name k _ er fr _ y n _ Hn (or_intror eq_refl))), (after (lookup_name k _ er fr _ y n Hn)), (after (entry_st k _ er fr _ y)).
    cbn [fs_path fs_ops]. rewrite (bind_done _ _ _ [slash] (st k (<[i := Some d1]> l) er fr (S (S (S m))) y)) by done. rewrite (after (ops_st k _ er fr _ y)), bool_decide_true by done. msteps. cbn [fds st].
    apply find_open_stale with i d1; [by apply list_lookup_insert_eq|done|done|]. intros j Hj. destruct (HS j Hj) as [e He]. destruct (rep_slot _ _ _ _ _ HR j e He) as (o & h & c & Ho & _ & _ & (_ & Hpa & _) & _).
    exists e, (slash :: of_name o). rewrite list_lookup_insert_ne by lia. split_and!; [done|done|]. intros [= Ex]. by destruct (Hno _ _ Ho). }
  unfold bind at 1. by rewrite EU.
Qed.

(** ** The files of the boot loader *)

#[local] Instance dfs_files : file_api (dfs (elm Y)) := {
  Bootloader.dfs_mount := dfs_mount (Some (chars_of "flash0")) [slash] (chars_of "elm") 0 0;
  Bootloader.dfs_mkfs := dfs_mkfs (chars_of "elm") (Some (chars_of "flash0"));
  Bootloader.dfs_unmount := dfs_unmount [slash];
  Bootloader.open := open;
  Bootloader.read := read;
  Bootloader.lseek := lseek;
  Bootloader.write := write;
  Bootloader.close := close
}.

#[local] Instance dfs_laws : file_laws dfs_files.
Proof using L HH Hblk.
  refine {| Bootloader.disk := dsk_rep; mounted := mnt_rep |}.
  - apply stack_mount.
  - apply stack_unmount.
  - apply stack_open.
  - apply stack_missing.
  - apply stack_read.
  - intros. apply stack_seek with c; try done. by left.
  - intros s F O fd f c HM Ho Hc Hl. rewrite <- (Nat2Z.id (length c)). apply stack_seek with c; try done; [unfold blen; lia|]. by right.
  - apply stack_write.
  - intros s F O fd f HM Ho. destruct (stack_close s F O fd f HM Ho) as (s' & E & HM' & _). by exists s'.
  - apply stack_close_none.
Defined.

(** The tables after the start: the device files are mounted, and FatFs is known. *)
Lemma dfs_startup_done s y F : init_ok s = false -> low s = Elm [0; 0] y -> stored y F ->
  exists s', (dfs_init device_at;;; elm_init) s = Done 0 s' /\ dsk_rep s' F.
Proof.
  intros Hi Hl HS. destruct s as [l tb ty wd er lf m fr ib lo]. cbn in Hi, Hl. subst ib lo.
  set (sx tb ty m ib := Dfs [] tb ty [slash] er lf m fr ib (Elm [0; 0] y) : dfs (elm Y)).
  assert (EN : normalize (chars_of "/dev") (sx [no_fs; no_fs] [device_at; 0] m false) = Done (Some (chars_of "/dev")) (sx [no_fs; no_fs] [device_at; 0] (S m) false)).
  { unfold normalize. erewrite bind_done; [|by apply (room_done blk)]. msteps.
    destruct (normalize_done [slash] (chars_of "/dev") eq_refl ltac:(by repeat constructor)) as [b E]. change (working_directory _) with [slash]. by rewrite E. }
  assert (EM : dfs_mount None (chars_of "/dev") (chars_of "devfs") 0 0 (sx [no_fs; no_fs] [device_at; 0] m false) = Done 0 (sx [dev_entry; no_fs] [device_at; 0] (S m) false)).
  { unfold dfs_mount. msteps. cbn [andb]. msteps. rewrite (bind_done _ _ _ (Some device_at) (sx [no_fs; no_fs] [device_at; 0] m false)) by done.
    rewrite (bind_done _ _ _ device_fs (sx [no_fs; no_fs] [device_at; 0] m false)) by done. cbn [op_mount device_fs]. by rewrite (after EN). }
  exists (sx [dev_entry; no_fs] [device_at; elm_at] (S m) true). split; [|eexists (lf, true), [], er, fr, (S m), y; split_and!; [done|done|constructor|cbn; lia]].
  unfold dfs_init. msteps. cbn [init_ok]. msteps. rewrite (bind_done _ _ _ 0 (sx [no_fs; no_fs] [device_at; 0] m false)) by done.
  msteps. done.
Qed.

End stack.

(** ** A FatFs *)

(** Files in memory that keep the laws; the volume is the number of the drive and the work area. *)
Record flatfat := FlatFat { ft_vol : option (nat * Z); ft_files : files; ft_open : gmap Z ofile }.

Definition fat_mount (p : Z) (path : list Z) : M flatfat Z := fun y =>
  Done FR_OK (FlatFat (if p =? 0 then None else Some (Z.to_nat (hd 0 path - 48), p)) (ft_files y) ∅).
Definition fat_open (h : Z) (path : list Z) (mode : Z) : M flatfat Z := fun y =>
  match ft_files y !! drop 3 path with
  | Some _ => Done FR_OK (FlatFat (ft_vol y) (ft_files y) (<[h := OFile (drop 3 path) 0 (bool_decide (mode = Z.lor FA_READ FA_WRITE))]> (ft_open y)))
  | None => Done FR_NO_FILE y
  end.
(** An operation on an open file. *)
Definition fat_on {T} (h : Z) (err : T) (g : ofile -> list Z -> T * nat * list Z) : M flatfat T := fun y =>
  match (o ← ft_open y !! h; c ← ft_files y !! of_name o; Some (o, g o c)) with
  | Some (o, (a, q, c)) => Done a (FlatFat (ft_vol y) (<[of_name o := c]> (ft_files y)) (<[h := OFile (of_name o) q (of_rw o)]> (ft_open y)))
  | None => Done err y
  end.
Definition fat_read (len : Z) (o : ofile) (c : list Z) : Z * list Z * nat * list Z :=
  let bs := take (Z.to_nat len) (drop (of_pos o) c) in (FR_OK, bs, (of_pos o + length bs)%nat, c).
Definition fat_write (bs : list Z) (o : ofile) (c : list Z) : Z * Z * nat * list Z :=
  if of_rw o then (FR_OK, blen bs, (of_pos o + length bs)%nat, overwrite (of_pos o) bs c) else (FR_DENIED, 0, of_pos o, c).

#[export] Instance flat_fat : fat_api flatfat := {
  f_mount _ p path _ := fat_mount p path;
  f_mkfs _ _ := fun y => Done FR_OK (FlatFat (ft_vol y) ∅ ∅);
  f_opendir _ _ _ := ret FR_OK;
  f_seekdir _ _ _ := ret FR_OK;
  f_mkdir _ _ := ret FR_DENIED;
  f_open _ h path mode := fat_open h path mode;
  f_close _ h := fun y => Done FR_OK (FlatFat (ft_vol y) (ft_files y) (delete h (ft_open y)));
  f_read _ h len := fat_on h (FR_INVALID_OBJECT, []) (fat_read len);
  f_write _ h bs := fat_on h (FR_INVALID_OBJECT, 0) (fat_write bs);
  f_lseek _ h off := fat_on h FR_INVALID_OBJECT (fun o c => (FR_OK, Z.to_nat off, c));
  f_sync _ _ := ret FR_OK;
  f_unlink _ _ := ret FR_DENIED;
  f_rename _ _ _ := ret FR_DENIED;
  f_stat _ _ := ret (FR_NO_FILE, FilInfo 0 0 0 0);
  f_readdir _ _ := ret (FR_OK, ([], 0));
  f_getfree _ _ := ret (FR_OK, 0);
  fatfs _ _ := FatInfo 0 2 1 4096;
  fptr h y := default 0 (Z.of_nat ∘ of_pos <$> ft_open y !! h);
  f_size h y := default 0 (o ← ft_open y !! h; blen <$> ft_files y !! of_name o);
  elm_get_vol p y := match ft_vol y with Some (i, q) => if p =? q then Z.of_nat i else -1 | None => -1 end;
  mktime _ _ _ _ _ _ := 0;
  device_find _ := ret 1;
  device_open _ := ret 0;
  device_close _ := ret 0;
  device_geometry _ := ret (0, 4096)
}.

Lemma fat_on_done {T} v F O h o c (err : T) g a q c' : O !! h = Some o -> F !! of_name o = Some c -> g o c = (a, q, c') ->
  fat_on h err g (FlatFat v F O) = Done a (FlatFat v (<[of_name o := c']> F) (<[h := OFile (of_name o) q (of_rw o)]> O)).
Proof. intros H1 H2 H3. unfold fat_on. cbn [ft_open ft_files ft_vol]. rewrite H1. cbn. rewrite H2. cbn. by rewrite H3. Qed.

#[export] Instance flat_fat_laws : fat_laws flat_fat.
Proof.
  refine {| flash0 := 1; stored y F := y = FlatFat None F ∅; volume y i p F O := p <> 0 /\ y = FlatFat (Some (i, p)) F O |}.
  - done.
  - intros y F ->. by eexists.
  - intros y F ->. by eexists.
  - intros y F ->. by eexists _, _.
  - intros y F ->. by eexists _, _, _.
  - intros y F dk i p -> _ _ Hp. eexists. split; [|by split]. cbn. unfold fat_mount. rewrite (proj2 (Z.eqb_neq _ _) Hp). cbn. do 4 f_equal. lia.
  - intros y F dk i p [_ ->] _. by eexists.
  - intros y F O dk i p d [? ->] _ _. by eexists.
  - intros y F O i p [_ ->]. cbn. by rewrite Z.eqb_refl.
  - intros y F O i p h o [_ ->] Ho. cbn. by rewrite Ho.
  - intros y F O i p h o c [_ ->] Ho Hc. cbn. rewrite Ho. cbn. by rewrite Hc.
  - intros y F O dk i p h n c mode [? ->] _ _ Hc _ _ _. eexists. split; [|by split]. unfold f_open, flat_fat, fat_open. change (drop 3 _) with n. cbn [ft_files]. by rewrite Hc.
  - intros y F O dk i p h n mode [? ->] _ _ Hc _ _. exists FR_NO_FILE. eexists. split; [unfold f_open, flat_fat, fat_open; change (drop 3 _) with n; cbn [ft_files]; by rewrite Hc|by split].
  - intros y F O dk i p h o c len [? ->] _ Ho Hc _ bs. eexists. split; [eapply fat_on_done; [exact Ho|exact Hc|reflexivity]|]. by rewrite insert_id.
  - intros y F O dk i p h o c off [? ->] _ Ho Hc _. eexists. split; [eapply fat_on_done; [exact Ho|exact Hc|reflexivity]|]. by rewrite insert_id.
  - intros y F O dk i p h o c bs [? ->] _ Ho Hc _ Hrw _ _ _. eexists. split; [eapply fat_on_done; [exact Ho|exact Hc|unfold fat_write; by rewrite Hrw]|]. by rewrite Hrw.
  - intros y F O dk i p h o [? ->] _ _. by eexists.
Defined.

#[export] Instance no_device_files : device_files flatfat := {| device_fops := FileOps None None None None None None None None; device_fs_stat _ _ := ret (- ENOENT, None) |}.

(** ** Theorems *)


(** C39: A file is closed, and the heap hands out the block of its descriptor again: the next [open] compares the name with
    the path in that block, which is NULL.  The block was not cleared, and still has the operations of FAT files. *)
Theorem reopen_undefined {Y : Type} {A : fat_api Y} {L : fat_laws A} {B : blocks} {V : device_files Y} blk (s s' : dfs (elm Y)) F O fd o n flags :
  heap_full blk -> mnt_rep s F O -> O !! fd = Some o -> close (P := elm_system) fd s = Done 0 s' -> freed s' = Some (blk (mem s')) ->
  file_name n -> (forall fd' o', delete fd O !! fd' = Some o' -> of_name o' <> n) -> open (P := elm_system) n flags s' = Stop Undefined.
Proof.
  intros HH HM Ho E Hb Hn Hno. destruct (stack_close s F O fd o HM Ho) as (s2 & E2 & HM' & Hfree & d & Hd & Hf & Hp).
  assert (Es : Done (A := Z) 0 s2 = Done 0 s') by (rewrite <- E2; exact E). injection Es as ->. assert (d = blk (mem s')) as -> by congruence. by apply (stack_stale blk HH s' F (delete fd O) n flags).
Qed.

(** ** Witnesses *)

(** The start of the program, and a heap with cleared blocks. *)
Definition clear_fd : dfs_fd := DfsFd 0 0 None 0 0 0 0 0 DNull.
Definition demo_start : dfs (elm flatfat) := Dfs [] [] [] [] 0 clear_fd 0 None false (Elm [0; 0] (FlatFat None demo_files ∅)).
Definition clear_heap : blocks := {| heap _ := Some clear_fd |}.


(** system.cfg is open; it is closed, and the heap gives its block again. *)
Definition demo_fd : dfs_fd := DfsFd DFS_FD_MAGIC FT_REGULAR (Some (slash :: system_cfg)) 1 elm_fops_at (Z.lor O_RDWR DFS_F_OPEN) (blen demo_system) 0 (DObj 7).
Definition stale_fd : dfs_fd := with_ref 0 (with_path None demo_fd).
Definition demo_file : ofile := OFile system_cfg 0 true.
Definition demo_open : dfs (elm flatfat) :=
  st (2, clear_fd, true) [Some demo_fd; None; None; None] 0 None 9 (FlatFat (Some (0%nat, 2)) demo_files {[7 := demo_file]}).
Definition stale_heap : blocks := {| heap _ := Some stale_fd |}.
Definition demo_closed : dfs (elm flatfat) := match close (P := elm_system (B := stale_heap)) 3 demo_open with Done _ s => s | Stop _ => demo_open end.

Lemma demo_open_rep : mnt_rep demo_open demo_files {[3 := demo_file]}.
Proof.
  eexists _, _, _, _, _, _, {[7 := demo_file]}. split; [reflexivity|]. split; [done|]. split; [done|]. split.
  - cbn. lia.
  - intros i d Hi. destruct i as [|[|[|[|i]]]]; cbn in Hi; try done. injection Hi as <-. exists demo_file, 7, demo_system. by split_and!.
  - intros fd o [<- <-]%lookup_singleton_Some. by exists 0%nat, demo_fd.
  - intros fd fd' o o' [<- _]%lookup_singleton_Some [<- _]%lookup_singleton_Some _. done.
  - intros h o [<- <-]%lookup_singleton_Some. split; [lia|]. by exists 0%nat, demo_fd.
Qed.

Lemma reopen_undefined_witness :
  (exists r, close (P := elm_system (B := stale_heap)) 3 demo_open = Done r demo_closed) /\
  open (B := stale_heap) (P := elm_system (B := stale_heap)) system_cfg O_RDWR demo_closed = Stop Undefined.
Proof.
  split; [exists 0; concrete|].
  apply (reopen_undefined (B := stale_heap) (fun _ => stale_fd) demo_open demo_closed demo_files {[3 := demo_file]} 3 demo_file);
    [done|apply demo_open_rep|done|concrete|concrete|apply system_cfg_file|]. intros fd' o'. by rewrite delete_singleton_eq, lookup_empty.
Defined.
